(* ===== verification/_CoqProject ===== *)
-Q . S2P
Prelude.v
Types.v
Primitives.v
KtTree.v
KtImplicit.v
KtGuide.v
KtLog.v
KtMerkle.v
KtLogProofs.v
KtBatch.v
ServiceId.v
Ristretto.v
Sho.v
Poksho.v
PokshoSpec.v
KtPrefix.v
KtVrf.v
KtTypes.v
KtTreeHead.v
KtMonitor.v
KtVerify.v
KtSearch.v
Proto.v
Curve.v
Kem.v
Crypto.v
Usernames.v
UsernamesSpec.v
ZkAttributes.v
ZkEndorsements.v
ZkCredentials.v
ZkIssuanceSpec.v
ZkPresentation.v
ZkPresentationSpec.v
ZkPresentationProof.v
IdentityKey.v
SealedCert.v
SealedMessage.v
IncrementalMac.v
Fingerprint.v
RatchetKeys.v
Messages.v
SessionState.v
SessionRecord.v
Ratchet.v
KeyStream.v
SenderKeys.v
Stores.v
Session.v
SessionCipher.v
SealedSender.v
SealedMulti.v
SealedSpec.v
SealedParse.v
SealedMultiSpec.v
ChainRefinement.v
SessionInvariant.v
CipherSpec.v
EndToEnd.v
SealedEnd.v
Trust.v
GroupCipher.v
AccountKeys.v
AsyncIo.v
BackupCipher.v
BackupFrame.v
BackupReader.v
BackupReaderSpec.v
BackupProto.v
BackupData.v
BackupMessages.v
BackupChats.v
BackupState.v
BackupStateSpec.v
Toy.v
Witnesses.v
SealedWitnesses.v
ZkWitnesses.v
KtWitnesses.v
BackupWitnesses.v
