(* ===== verification/Prelude.v ===== *)
(** * The Signal protocol library: a verified model of libsignal's protocol crate

    The repository is an Android client (src/app) around libsignal
    (src/libsignal-client).  The program's own logic is in libsignal's Rust
    crates, and its core is rust/protocol: sessions between two devices (the
    PQXDH handshake followed by the Double Ratchet, with the post-quantum
    ratchet of the [spqr] crate running next to it), group messages with
    sender keys, sealed sender, the wire messages, the stores, safety numbers and
    incremental MACs; with the key types of rust/core and the symmetric encryption of
    rust/crypto below it.  Next to it stands rust/keytrans, the client of the
    key transparency log that says which keys belong to whom; and under the groups
    and usernames of the application stand the zero-knowledge crates rust/poksho,
    rust/zkcredential and rust/usernames; rust/account-keys derives the keys of an
    account's backups, whose files rust/message-backup reads.  This library translates that code into Gallina
    functions and proves what makes it correct.  All paths below are relative to
    src/libsignal-client.

    ** How the code is represented

    - A [Result] is [outcome], the sum of a value ([Ok]), an error ([Err]) and a
      panic ([Panic]): [expect], [unwrap], [assert!], slices out of range and
      overflowing arithmetic of a checked build are [Panic], so a theorem that
      an operation succeeds says that it does not panic either.
    - Code that mutates its argument is a state-passing function
      [M S E A = S -> outcome E A * S]; the state is returned with errors and
      panics too, so partial updates of a failing call are part of the model.  [lift] embeds a pure result; [zoom] runs an
      operation on one part of a larger state, such as one store of an [Env].
    - Bytes are the 256 constructors of [byte]; [u32] and [u64] values are [Z],
      with the wrap-around or the overflow check of the source written out, and
      ranges as hypotheses ([is_u32]) where an encoding depends on them; [[u8; n]]
      is [array n], a byte list with a proof of its length; [usize] lengths are [nat].
    - [async] functions are sequential: every store call is awaited before the
      next statement, and a client's stores are borrowed mutably for the whole
      call, so there is no interleaving to model within one operation.
    - Log statements are left out, except that the [expect]s in the arguments of
      a log statement stay, as if the level were enabled.

    ** Parts, files and sources

    Foundations:
    - [Prelude]: bytes, arrays, the monads and their tactics ([M_step] runs
      a statement, [inv_M] inverts a computation, [solve_preserves] walks through
      its binds), lemmas on lists and [Vec]s shared by the components.
    - [Types]: rust/core/src/address.rs ([ProtocolAddress], [DeviceId]),
      rust/protocol/src/consts.rs and error.rs.
    - [ServiceId]: the service ids of address.rs, rust/core/src/e164.rs.
    - [Primitives], [Proto]: what the crates call and do not contain, and the
      structs that prost generates from rust/protocol/src/proto/*.proto.

    Keys:
    - [Curve]: rust/core/src/curve.rs, curve/curve25519.rs, curve/utils.rs.
    - [Kem]: rust/protocol/src/kem.rs, kem/kyber1024.rs.
    - [Crypto]: rust/crypto/src/aes_cbc.rs, rust/protocol/src/crypto.rs.
    - [IdentityKey]: rust/protocol/src/identity_key.rs.
    - [RatchetKeys]: rust/protocol/src/ratchet/keys.rs.

    Messages and MACs:
    - [Messages]: rust/protocol/src/protocol.rs.
    - [IncrementalMac]: rust/protocol/src/incremental_mac.rs.
    - [Fingerprint]: rust/protocol/src/fingerprint.rs.

    Sessions between two devices:
    - [SessionState], [SessionRecord]: rust/protocol/src/state/session.rs.  The
      state of a session is the protobuf structure it is stored as.
    - [Ratchet]: rust/protocol/src/ratchet.rs, ratchet/params.rs.
    - [Stores]: rust/protocol/src/state/*.rs (pre-key records, bundles) and
      storage/{traits,inmem}.rs.  A store trait is a class over the type of the
      store, and what clients need of a store is a class of laws.
    - [Session]: rust/protocol/src/session.rs; [Env] is what a call works on.
    - [SessionCipher]: rust/protocol/src/session_cipher.rs.

    Groups:
    - [SenderKeys]: rust/protocol/src/sender_keys.rs.
    - [GroupCipher]: rust/protocol/src/group_cipher.rs.

    Sealed sender (rust/protocol/src/sealed_sender.rs):
    - [SealedCert]: server and sender certificates and their validation.
    - [SealedMessage]: the content that is sealed, the two outer formats.
    - [SealedSender]: key derivation, sealing to one recipient, opening both
      formats, and the call that also decrypts what is inside.
    - [SealedMulti]: sealing for many recipients, and the server's parser of it.
      A slice of the parsed message carries its address, because the parser's
      results give offsets back by pointer arithmetic.
    - [SealedSpec], [SealedParse], [SealedMultiSpec], [SealedEnd]: the proofs;
      [SealedWitnesses]: a server, certificates, a group.

    Key transparency (rust/keytrans/src):
    - [KtTree]: left_balanced.rs and the shared u64 arithmetic, with the
      geometry of left-balanced trees.
    - [KtImplicit]: implicit.rs, the search tree over the log's entries.
    - [KtGuide]: guide.rs, the binary search for a version.
    - [KtLog]: log.rs, the consistency and batch inclusion proofs.  [KtMerkle]
      is the reference: the root hash of a list of leaves.  [KtLogProofs] and
      [KtBatch] prove the two kinds of proofs sound and complete against it.
    - [KtPrefix]: prefix.rs and commitments.rs.  [KtVrf]: vrf.rs.
    - [KtTypes]: proto.rs, wire.proto and the configuration.  [KtTreeHead],
      [KtMonitor] and [KtVerify]: verify.rs and lib.rs (tree heads; monitoring
      data; searches and the requests of the API).  [KtSearch] composes them.
    - [KtWitnesses]: a log of five entries and its responses.

    Zero knowledge (rust/poksho/src, rust/zkcredential/src, rust/usernames/src):
    - [Ristretto]: the group, a parameter with its laws, and the tactic [group]
      that reduces equations between points to the ring of scalars.
    - [Sho], [Poksho]: the stateful hashes; statements, proofs and signatures.
      [PokshoSpec] proves them complete, total and specially sound.
    - [ZkAttributes], [ZkEndorsements]: attributes.rs and endorsements.rs with
      their theorems.
    - [ZkCredentials]: credentials.rs, issuance.rs, issuance/blind.rs, proved in
      [ZkIssuanceSpec].
    - [ZkPresentation]: presentation.rs.  [ZkPresentationSpec]
      describes its statement by structured names instead of strings,
      [ZkPresentationProof] proves that the server accepts.
    - [Usernames], [UsernamesSpec]: usernames and their links.
    - [ZkWitnesses]: a group of the right order and the theorems on it.

    Backups (rust/account-keys/src, rust/message-backup/src):
    - [AccountKeys]: account-keys (entropy pools, derived keys, PIN hashes) and
      message-backup/src/key.rs.
    - [AsyncIo]: what the readers share: polls, readers and streams with the laws
      their clients rely on, and a reader driven with a list of buffer sizes.
    - [BackupCipher]: frame/{block_stream,cbc,unpad,aes_read,mac_read}.rs, the
      readers that decrypt and authenticate, with their proofs.
    - [BackupFrame]: parse.rs, frame.rs, frame/forward_secrecy.rs,
      frame/reader_factory.rs, opening a file and checking it, with the proofs.
    - [BackupReader]: lib.rs, the two threads as functions on a shared state that a
      schedule interleaves; [BackupReaderSpec].
    - [BackupProto]: message-backup/src/proto/backup.proto, as protobuf generates it
      (an enum field may hold an unrecognized number).
    - [BackupData]: backup/{time,method,recipient,call}.rs, recipient/group.rs.  The
      two methods, to keep a backup or only to validate it, are values of [Method]
      with instances of [ReferencedTypes]; an [Arc] is its content and an identity.
    - [BackupMessages]: backup/{file,sticker}.rs and the messages of backup/chat/.
    - [BackupChats]: chat styles, notification profiles, chat folders, account data,
      and backup/chat.rs itself (chats and chat items).
    - [BackupState]: backup.rs, the state that frames are added to and its completion;
      it is an instance of the interface that [BackupReader] reads into.
    - [BackupStateSpec]: logics for one run and for two runs, and the theorems.
    - [BackupWitnesses]: readers that delay, a file, its frames; a backup with chats.

    Specification and its proofs (sessions):
    - [KeyStream]: the abstract message-key stream both ratchets implement.
    - [ChainRefinement]: a receiving chain of a session refines it.
    - [SessionInvariant]: the invariant of sessions, reachability, no replays.
    - [CipherSpec], [EndToEnd], [Trust]: the exported operations.
    - [Toy], [Witnesses]: an instance of every parameter and law,
      two clients that run on it, and each theorem applied to them.

    The calls go as in the code: [message_encrypt] and [message_decrypt]
    (SessionCipher) load a [SessionRecord], run [encrypt_with_state] or
    [decrypt_message_with_record] on its sessions, ask the identity store, and
    store the record back; [message_decrypt_prekey] runs [process_prekey]
    (Session) first, which reads the pre-key stores and calls
    [initialize_bob_session] (Ratchet); [process_prekey_bundle] calls
    [initialize_alice_session].  [group_encrypt] and [group_decrypt] do the same
    on the sender key store with [SenderKeyState]s.

    ** What is shown

    - The protocol works end to end: a first message, from the bundle to
      Bob's plaintext, through every layer ([first_message_delivered]), PQXDH
      agrees ([pqxdh_agreement]), established sessions deliver
      ([established_session_delivers]); the same for groups
      ([distribution_then_delivery], [group_message_delivers]).
    - The ratchet hands out each message key once.  [KeyStream] is the abstract
      specification, refined by sessions ([message_key_request_refines]) and by
      sender keys ([sender_key_request_refines]); delivery in any order
      ([delivery_in_any_order]); no replay ([no_replay], [group_message_once]).
    - Security checks are made: a plaintext comes from a message whose MAC
      verified ([decryption_is_authenticated]), identities are trusted
      ([only_trusted_identities]), a base key is used once
      ([mark_kyber_pre_key_used_once]).
    - Failures are harmless: the bounds hold in every reachable session, after
      failures too ([reachable_sessions_bounded]); what a failing operation
      leaves unchanged ([failures_keep_sessions], [decrypt_message_with_record_spec]).
    - Sealed sender.  A sealed first message reaches Bob with the name in the
      certificate ([sealed_first_message_delivered]); what is delivered was
      sealed with a certified key ([sealed_sender_authentic]); certificates issued
      validate until they expire ([issued_certificates_validate]); a
      message to many is cut and opened by each ([multi_recipient_delivers]),
      whatever the number of threads ([parallelism_irrelevant]), by a parser
      that never panics and whose offsets are in range ([sent_message_offsets]).
    - Key transparency.  The proofs of the log accept the hashes they should
      ([consistency_complete], [batch_complete]) and only these
      ([consistency_sound], [batch_sound]); a prefix proof binds the counter and the
      position it was computed for ([prefix_binding]); the search ends
      at the first entry with the version ([search_finds_version]);
      a tree head that is accepted extends the last one ([tree_head_extends]) and
      is signed ([tree_head_signed]); monitoring moves forward only
      ([update_moves]); and, of all of these together, what an accepted search
      response says about the log ([verify_search_sound]).
    - Zero knowledge.  Proofs are complete, verification is total and two answers
      to one commitment reveal a solution ([proofs_complete],
      [verify_proof_total], [special_soundness]).  Credentials that a server issues are
      valid and accepted ([credential_issued], [blinded_credential_issued]), and a
      presentation of a valid credential is accepted by a server that sees only
      ciphertexts ([presentation_accepted]); encrypted attributes are recovered
      ([attribute_encryption]); endorsements verify ([endorsements_received],
      [endorsement_tokens]).
    - Usernames are parsed exactly ([username_new_spec]), their encoding as
      scalars is injective ([username_scalars_injective]), their links
      decrypt ([username_links_round_trip]).
    - Backups.  The decrypting reader gives the one-shot decryption however
      it is read ([reading_decrypts]); a file opens exactly when its metadata and MAC
      are right ([backup_opens_exactly]) and what was read is authentic though the
      file is read twice ([backup_is_authentic]); the two threads end, under any
      fair schedule, with what reading the frames in order gives
      ([every_schedule_reads]), so that a backup that was written is read back
      ([encrypted_backup_read_back]).  Entropy pools are parsed exactly
      ([entropy_pool_texts]).
    - Contents of backups.  Validating accepts exactly what can be kept, frame by
      frame and error by error ([validation_accepts_what_is_kept]); what is kept is
      consistent ([kept_backup_is_consistent]) and holds only chat items that obey the
      rules ([accepted_chat_item]); when a backup is complete, and what the errors
      mean ([completion_condition]); a check that a shortcut leaves out
      ([plain_body_not_checked]).
    - Encodings round-trip (the [*_round_trip] theorems) and are the only ones
      accepted for service ids ([service_id_encodings]); XEdDSA signatures
      verify ([xeddsa_sign_verify]), the KEM agrees ([kem_decapsulation_spec]);
      safety numbers agree ([safety_numbers_agree]); incremental MACs compute and
      validate the MACs of prefixes ([incremental_macs_spec], [validating_spec]).

    ** Parameters and what is assumed of them

    Code outside the repository is a field of a class and is never defined:
    [Primitives] (RustCrypto's HMAC, HKDF, SHA-512, AES; x25519-dalek and
    curve25519-dalek; libcrux's Kyber1024; the [spqr] crate; the random number
    generator), [Prost] (the generated encoders and decoders), [MacOps] and the
    fingerprint codecs.  Theorems take the documented behaviour they need as
    law classes: [X25519Laws] (agreement commutes on key pairs), [EdwardsLaws]
    (group equations behind XEdDSA), [AesLaws] (decryption inverts encryption),
    [KemLaws] (decapsulation recovers what was encapsulated; sizes), [SpqrLaws]
    (two fresh states accept their parameters and the first message between
    them gives both the same key), [ProstLaws] (decoding inverts encoding on
    values in range), [RngLaws], [MacLaws] (a MAC depends on the concatenation of
    its input) and the laws of the stores, which the in-memory stores satisfy.
    No law says that a primitive is secure: the theorems are functional, and
    [Toy] satisfies every law with arithmetic modulo 256.

    Sealed sender takes AES-256-GCM-SIV ([AesGcmSiv], with decryption inverting
    encryption), prost's length delimiters ([LengthDelimiter]), the text form of
    UUIDs ([UuidFmt]) and itertools' [chunk_by] ([ChunkBy]: the groups are
    consecutive and share their key) as parameters.

    Key transparency takes SHA-256 ([Sha256]), the curve operations of the VRF
    ([VrfPrimitives]), [Ed25519] signature verification and the order in
    which a hash map is iterated ([HashIter], any permutation) as parameters.  Its
    soundness theorems do not assume that SHA-256 has no collisions: they conclude
    that the claim holds or that two given different inputs have the same hash.

    The zero-knowledge crates take Ristretto255 ([Ristretto]) as a parameter:
    scalars are the integers modulo the order of the group and points the
    multiples of a base point ([RistrettoLaws]); no theorem needs discrete logarithms
    to be hard.  Random sampling without repetition ([IndexSample]) and the length of
    an encoded username ([UsernameDataLaws]) are parameters too.

    Backups take gzip ([Gunzips]), the adaptors of the futures crate
    ([AsyncReadExt], [Adaptors], [IntoAsyncReads]), AsyncSkip, protobuf's varints
    and messages ([Varint32], [ProtobufParse]), HMAC-SHA256 as a MAC state
    ([HmacSha256]), Argon2 and one block of CBC ([CbcDecryptor]) as parameters, their contents
    the order in which an [IntMap] is iterated ([IntMapIter], any permutation), grapheme
    counting ([Graphemes]) and the parsing of receipt presentations
    ([ReceiptPresentations]).  A reader is
    anything with [poll_read] that satisfies [ReaderLaws]: it may delay and return
    less than asked, but every poll makes progress, by a measure ([Progress]).

    ** Bounds and fuel

    - [MAX_FORWARD_JUMPS] 25000, [MAX_MESSAGE_KEYS] 2000, [MAX_RECEIVER_CHAINS]
      5, [ARCHIVED_STATES_MAX_LENGTH] 40, [MAX_SENDER_KEY_STATES] 5 and the
      rest of consts.rs are the source's.
    - The loops that skip counters ([skip_message_keys], [skip_sender_keys]) get
      the number of counters to skip as fuel, which is the number of iterations
      the source's loops make; running out would be a [Panic], and the refinement
      theorems, which say what a request answers in every case, exclude it.  [chunks]
      and [pop_back_until] get the length of their list, and the theorems about
      them are exact about their results.
    - [parse_devices] gets one more step than there are bytes left, each round
      takes at least one ([sent_message_offsets] excludes the panic); addresses and
      lengths are those of a 64-bit [usize].
    - The walks through the trees of key transparency take 64 or 65 steps of fuel, one
      per level of a tree whose positions fit in a u64, the climb over three such
      walks 192; the theorems cover all logs of at most 2^63 leaves
      ([MAX_LEAVES]) and show that the fuel is enough, since running out is
      a [Panic] they exclude.  All other recursion is structural.

    ** What is not modelled

    The credentials of rust/zkgroup, which has a proof system of its own, and the
    conversion of a kept backup to JSON.  The warnings about unusual timestamps in
    backups go to the log and are left out.  The network
    crates, attestation, SVR-B, media, device transfer, the language bridges
    and the Android application are I/O, certificate handling, bindings or
    wrappers of third-party code and stay outside.  Zeroization and timing are not
    modelled: constant-time routines are proved equal to what they compute. *)

From Stdlib Require Export ZArith Lia Bool List.
From Stdlib Require Import Strings.Byte Eqdep_dec.
From stdpp Require Export base tactics option list gmap strings fin_maps
  countable numbers pretty.

#[global] Set Default Goal Selector "!".
#[global] Open Scope string_scope.
#[global] Open Scope list_scope.
#[global] Open Scope Z_scope.

(** ** Bytes

    A Rust [u8] is [Byte.byte], so that every value of the model is in range by
    construction; [u8] is its numeric view and [as_u8] the truncating cast
    [x as u8]. *)

Abbreviation byte := Init.Byte.byte.
Abbreviation bytes := (list byte).

#[export] Instance byte_eq_dec : EqDecision byte := Byte.byte_eq_dec.

Definition u8 (b : byte) : Z := Z.of_N (Byte.to_N b).

Definition as_u8 (z : Z) : byte :=
  match Byte.of_N (Z.to_N (z mod 256)) with
  | Some b => b
  | None => Byte.x00
  end.

#[export] Program Instance byte_countable : Countable byte :=
  inj_countable' (fun b => Byte.to_N b)
                 (fun n => match Byte.of_N n with Some b => b | None => Byte.x00 end) _.
Next Obligation. intros b. simpl. by rewrite Byte.of_to_N. Qed.

Lemma u8_range b : 0 <= u8 b < 256.
Proof.
  unfold u8. pose proof (Byte.to_N_bounded b). split; [lia|].
  change 256 with (Z.of_N 256). apply N2Z.inj_lt. lia.
Qed.

Lemma u8_inj a b : u8 a = u8 b -> a = b.
Proof.
  unfold u8. intros H%N2Z.inj.
  pose proof (Byte.of_to_N a). pose proof (Byte.of_to_N b). congruence.
Qed.

Lemma as_u8_u8 b : as_u8 (u8 b) = b.
Proof.
  unfold as_u8. pose proof (u8_range b). rewrite Z.mod_small by done.
  unfold u8. by rewrite N2Z.id, Byte.of_to_N.
Qed.

Lemma u8_as_u8 z : u8 (as_u8 z) = z mod 256.
Proof.
  pose proof (Z.mod_pos_bound z 256 ltac:(lia)) as Hm.
  unfold as_u8. destruct (Byte.of_N _) as [b|] eqn:E.
  - apply Byte.to_of_N in E. unfold u8. rewrite E. lia.
  - apply Byte.of_N_None_iff in E. lia.
Qed.

#[export] Instance u8_inj_inst : Inj (=) (=) u8.
Proof. intros a b. apply u8_inj. Qed.

(** ** Fixed-size arrays

    [array n] is Rust's [[u8; n]]: the length check is a boolean, so that two
    arrays with the same bytes are equal. *)

Record array (n : nat) := Array {
  arr :> bytes;
  arr_ok : Nat.eqb (length arr) n = true
}.
Arguments Array {n} _ _.
Arguments arr {n} _.
Arguments arr_ok {n} _.

Lemma array_eq {n} (a b : array n) : arr a = arr b -> a = b.
Proof.
  destruct a as [a Ha], b as [b Hb]. simpl. intros ->.
  f_equal. apply UIP_dec. apply Bool.bool_dec.
Qed.

#[export] Instance array_eq_dec {n} : EqDecision (array n).
Proof.
  intros a b. destruct (decide (arr a = arr b)) as [H|H].
  - left. by apply array_eq.
  - right. by intros ->.
Defined.

Lemma array_length {n} (a : array n) : length (arr a) = n.
Proof. destruct a as [a Ha]. simpl. by apply Nat.eqb_eq. Qed.

(** [value.try_into()] from a slice to an array: fails unless the length is
    exact. *)
Definition try_array (n : nat) (l : bytes) : option (array n) :=
  match Sumbool.sumbool_of_bool (Nat.eqb (length l) n) with
  | left H => Some (Array l H)
  | right _ => None
  end.

Lemma try_array_arr {n} (a : array n) : try_array n (arr a) = Some a.
Proof.
  unfold try_array. destruct (Sumbool.sumbool_of_bool _) as [H|H].
  - f_equal. by apply array_eq.
  - pose proof (arr_ok a). congruence.
Qed.

Lemma try_array_Some {n} (l : bytes) (a : array n) :
  try_array n l = Some a -> arr a = l.
Proof.
  unfold try_array. destruct (Sumbool.sumbool_of_bool _) as [H|H]; [|done].
  by intros [= <-].
Qed.

Lemma try_array_length n (l : bytes) :
  length l = n -> exists a, try_array n l = Some a /\ arr a = l.
Proof.
  intros Hl. unfold try_array. destruct (Sumbool.sumbool_of_bool _) as [H|H]; [eauto|].
  apply Nat.eqb_neq in H. lia.
Qed.

Lemma try_array_None n (l : bytes) : try_array n l = None <-> length l <> n.
Proof.
  unfold try_array. destruct (Sumbool.sumbool_of_bool _) as [H|H].
  - split; [done|]. intros Hn. exfalso. by apply Hn, Nat.eqb_eq.
  - split; [|done]. intros _. by apply Nat.eqb_neq.
Qed.

Fixpoint zeros_ok (n : nat) :
  Nat.eqb (length (replicate n Byte.x00)) n = true :=
  match n with O => eq_refl | S n => zeros_ok n end.

(** [[0u8; n]]. *)
Definition zeros (n : nat) : array n := Array (replicate n Byte.x00) (zeros_ok n).

(** An array built from a list whose length is right by construction (a slice
    at constant bounds of a longer array, a packed struct read back). *)
Definition to_array (n : nat) (l : bytes) : array n := default (zeros n) (try_array n l).

Lemma to_array_arr n (l : bytes) : length l = n -> arr (to_array n l) = l.
Proof.
  intros Hl. unfold to_array.
  destruct (try_array_length n l Hl) as (a & -> & <-). done.
Qed.

Lemma to_array_id {n} (a : array n) : to_array n (arr a) = a.
Proof. unfold to_array. by rewrite try_array_arr. Qed.

(** The bytes [from..to] of a slice. *)
Definition slice (from to : nat) (l : bytes) : bytes := take (to - from) (drop from l).

Lemma slice_length from to l :
  (from <= to <= length l)%nat -> length (slice from to l) = (to - from)%nat.
Proof. intros ?. unfold slice. rewrite length_take, length_drop. lia. Qed.

Lemma slice_app from mid to l :
  (from <= mid <= to)%nat -> slice from mid l ++ slice mid to l = slice from to l.
Proof.
  intros ?. unfold slice.
  replace (drop mid l) with (drop (mid - from) (drop from l))
    by (rewrite drop_drop; f_equal; lia).
  set (l' := drop from l).
  rewrite <- (take_drop (mid - from) (take (to - from) l')).
  rewrite take_take, skipn_firstn_comm.
  f_equal; [f_equal; lia|f_equal; lia].
Qed.

Lemma slice_all l : slice 0 (length l) l = l.
Proof. unfold slice. rewrite drop_0, Nat.sub_0_r. by rewrite firstn_all. Qed.

(** [slice::chunks], for [n] above zero; the fuel is the length of the slice. *)
Fixpoint chunks_fuel {A} (fuel n : nat) (l : list A) : list (list A) :=
  match fuel, l with
  | S fuel, _ :: _ => take n l :: chunks_fuel fuel n (drop n l)
  | _, _ => []
  end.
Definition chunks {A} (n : nat) (l : list A) : list (list A) := chunks_fuel (length l) n l.

Lemma concat_chunks {A} n (l : list A) : (0 < n)%nat -> concat (chunks n l) = l.
Proof.
  intros Hn. unfold chunks.
  enough (forall fuel (l : list A), (length l <= fuel)%nat -> concat (chunks_fuel fuel n l) = l) as He
    by by apply He.
  clear l. induction fuel as [|fuel IH]; intros [|x l] Hl; cbn [chunks_fuel concat]; try done.
  { cbn in Hl. lia. }
  rewrite IH; [apply take_drop|]. rewrite length_drop. cbn in *. lia.
Qed.

(** Lists of elements of one length are the chunks of their concatenation. *)
Lemma chunks_concat {A} n (ls : list (list A)) :
  (0 < n)%nat -> Forall (fun l => length l = n) ls -> chunks n (concat ls) = ls.
Proof.
  intros Hn Hls. unfold chunks.
  enough (forall fuel, (length (concat ls) <= fuel)%nat -> chunks_fuel fuel n (concat ls) = ls) as He by by apply He.
  induction Hls as [|l ls Hl _ IH]; intros fuel Hf; [by destruct fuel|]. cbn [concat] in *.
  rewrite length_app in Hf. destruct fuel as [|fuel]; [lia|].
  destruct l as [|x l]; [cbn in Hl; lia|]. cbn [chunks_fuel app].
  change (x :: l ++ concat ls) with ((x :: l) ++ concat ls).
  rewrite take_app_length', drop_app_length' by done. rewrite IH; [done|]. lia.
Qed.

Lemma chunks_length {A} n k (l : list A) : (0 < n)%nat -> length l = (k * n)%nat -> length (chunks n l) = k.
Proof.
  intros Hn Hl. unfold chunks.
  enough (forall fuel, (length l <= fuel)%nat -> length (chunks_fuel fuel n l) = k) as He by by apply He.
  revert l Hl. induction k as [|k IH]; intros l Hl fuel Hf.
  - destruct l; [|done]. by destruct fuel.
  - destruct l as [|x l]; [cbn in Hl; lia|]. destruct fuel as [|fuel]; [cbn in Hf; lia|].
    cbn [chunks_fuel length]. f_equal. apply IH; rewrite length_drop; cbn in *; lia.
Qed.

(** A byte string literal, [b"..."]. *)
Definition byte_str (s : string) : bytes := String.list_byte_of_string s.

(** ** Machine integers: [u32] and [u64] values are [Z] in range. *)

Definition u32_max : Z := 2 ^ 32 - 1.
Definition u64_max : Z := 2 ^ 64 - 1.
Definition is_u8 (z : Z) : Prop := 0 <= z < 256.
Definition is_u32 (z : Z) : Prop := 0 <= z <= u32_max.
Definition is_u64 (z : Z) : Prop := 0 <= z <= u64_max.

(** [a + b] on [u32] in a release build (no overflow checks are enabled in the
    workspace's Cargo profiles): it wraps. *)
Definition u32_add (a b : Z) : Z := (a + b) mod 2 ^ 32.

(** [a.checked_add(b)] on [u32]. *)
Definition u32_checked_add (a b : Z) : option Z :=
  if a + b <=? u32_max then Some (a + b) else None.

Lemma u32_add_small a b : 0 <= a + b <= u32_max -> u32_add a b = a + b.
Proof. unfold u32_add, u32_max. intros. apply Z.mod_small. lia. Qed.

Lemma u32_checked_add_Some a b c :
  u32_checked_add a b = Some c <-> a + b <= u32_max /\ c = a + b.
Proof.
  unfold u32_checked_add. destruct (Z.leb_spec (a + b) u32_max).
  - split; [by intros [= <-]|by intros [_ ->]].
  - split; [done|]. intros [? ?]. lia.
Qed.

(** [x as i32] and [x as u32]. *)
Definition as_i32 (x : Z) : Z := if x mod 2 ^ 32 <? 2 ^ 31 then x mod 2 ^ 32 else x mod 2 ^ 32 - 2 ^ 32.
Definition as_u32 (x : Z) : Z := x mod 2 ^ 32.

Lemma as_u32_as_i32 x : is_u32 x -> as_u32 (as_i32 x) = x.
Proof.
  unfold is_u32, u32_max, as_u32, as_i32. intros Hx. rewrite (Z.mod_small x) by lia.
  destruct (x <? 2 ^ 31); [apply Z.mod_small; lia|].
  replace (x - 2 ^ 32) with (x + (-1) * 2 ^ 32) by lia. rewrite Z_mod_plus_full.
  apply Z.mod_small. lia.
Qed.

(** Little-endian value of a byte string. *)
Fixpoint le_value (l : bytes) : Z :=
  match l with
  | [] => 0
  | b :: l => u8 b + 256 * le_value l
  end.

Lemma le_value_app l1 l2 :
  le_value (l1 ++ l2) = le_value l1 + 256 ^ Z.of_nat (length l1) * le_value l2.
Proof.
  induction l1 as [|b l1 IH]; cbn [app le_value length].
  - rewrite Z.pow_0_r. lia.
  - rewrite IH, Nat2Z.inj_succ, Z.pow_succ_r by lia. ring.
Qed.

Lemma le_value_bound l : 0 <= le_value l < 256 ^ Z.of_nat (length l).
Proof.
  induction l as [|b l IH]; cbn [le_value length].
  - rewrite Z.pow_0_r. lia.
  - rewrite Nat2Z.inj_succ, Z.pow_succ_r by lia. pose proof (u8_range b). lia.
Qed.

Lemma le_value_inj l1 l2 :
  length l1 = length l2 -> le_value l1 = le_value l2 -> l1 = l2.
Proof.
  revert l2. induction l1 as [|b1 l1 IH]; intros [|b2 l2]; simpl; try done.
  intros [= Hl] Hv.
  pose proof (u8_range b1). pose proof (u8_range b2).
  assert (u8 b1 = u8 b2 /\ le_value l1 = le_value l2) as [Hb Hr] by lia.
  f_equal; [by apply u8_inj|]. by apply IH.
Qed.

(** Big-endian bytes, as [to_be_bytes] gives them; a negative value is in
    two's complement. *)
Fixpoint be_bytes (n : nat) (z : Z) : bytes :=
  match n with
  | O => []
  | S n => be_bytes n (z / 256) ++ [as_u8 z]
  end.

Lemma be_bytes_length n z : length (be_bytes n z) = n.
Proof. revert z. induction n as [|n IH]; intros z; [done|]. cbn. rewrite length_app, IH. cbn. lia. Qed.

Lemma be_bytes_inj n x y :
  0 <= x < 256 ^ Z.of_nat n -> 0 <= y < 256 ^ Z.of_nat n -> be_bytes n x = be_bytes n y -> x = y.
Proof.
  revert x y. induction n as [|n IH]; intros x y Hx Hy; [cbn in *; lia|].
  rewrite Nat2Z.inj_succ, Z.pow_succ_r in Hx, Hy by lia. cbn [be_bytes].
  intros [Hdiv [= Hmod]]%app_inj_tail.
  assert (x / 256 = y / 256) as Hd.
  { apply IH; [split; [apply Z.div_pos; lia|apply Z.div_lt_upper_bound; lia]..|done]. }
  assert (x mod 256 = y mod 256) as Hm by (rewrite <- !u8_as_u8; by f_equal).
  rewrite (Z.div_mod x 256), (Z.div_mod y 256) by lia. lia.
Qed.

Lemma be_bytes_mod n z : be_bytes n z = be_bytes n (z mod 256 ^ Z.of_nat n).
Proof.
  revert z. induction n as [|n IH]; intros z; [done|]. cbn [be_bytes].
  rewrite Nat2Z.inj_succ, Z.pow_succ_r by lia. f_equal.
  - rewrite (IH (z / 256)), (IH (_ / 256)). f_equal. pose proof (Z.pow_pos_nonneg 256 (Z.of_nat n)).
    rewrite (Z.rem_mul_r z 256) by lia.
    replace (z mod 256 + 256 * ((z / 256) mod 256 ^ Z.of_nat n)) with
      (z mod 256 + ((z / 256) mod 256 ^ Z.of_nat n) * 256) by lia.
    rewrite Z.div_add, (Z.div_small (z mod 256)), Z.add_0_l by (apply Z.mod_pos_bound || lia; lia).
    by rewrite Z.mod_mod by lia.
  - f_equal. apply u8_inj. rewrite !u8_as_u8. pose proof (Z.pow_pos_nonneg 256 (Z.of_nat n)).
    rewrite (Z.rem_mul_r z 256) by lia. rewrite Z.mul_comm, Z.mod_add by lia. by rewrite Z.mod_mod.
Qed.

(** [from_be_bytes]. *)
Definition from_be_bytes (l : bytes) : Z := foldl (fun acc b => acc * 256 + u8 b) 0 l.

Lemma from_be_bytes_snoc l b : from_be_bytes (l ++ [b]) = from_be_bytes l * 256 + u8 b.
Proof. unfold from_be_bytes. by rewrite foldl_app. Qed.

Lemma from_be_bytes_range l : 0 <= from_be_bytes l < 256 ^ Z.of_nat (length l).
Proof.
  induction l as [|b l IH] using rev_ind; [by vm_compute|].
  rewrite from_be_bytes_snoc, length_app. cbn [length]. pose proof (u8_range b).
  rewrite Nat2Z.inj_add, Z.pow_add_r by lia. lia.
Qed.

Lemma from_be_to_be n z : 0 <= z < 256 ^ Z.of_nat n -> from_be_bytes (be_bytes n z) = z.
Proof.
  revert z. induction n as [|n IH]; intros z Hz; [cbn in *; unfold from_be_bytes; cbn; lia|].
  rewrite Nat2Z.inj_succ, Z.pow_succ_r in Hz by lia. cbn [be_bytes].
  rewrite from_be_bytes_snoc, u8_as_u8, IH; [pose proof (Z.div_mod z 256); lia|].
  split; [apply Z.div_pos; lia|apply Z.div_lt_upper_bound; lia].
Qed.

Lemma to_be_from_be l : be_bytes (length l) (from_be_bytes l) = l.
Proof.
  induction l as [|b l IH] using rev_ind; [done|].
  rewrite length_app, from_be_bytes_snoc. cbn [length]. rewrite Nat.add_1_r. cbn [be_bytes].
  pose proof (u8_range b). rewrite Z.div_add_l, (Z.div_small (u8 b)), Z.add_0_r, IH by lia.
  do 2 f_equal. apply u8_inj. rewrite u8_as_u8, Z.add_comm, Z.mod_add, Z.mod_small; lia.
Qed.

(** Two's complement. *)
Lemma be_bytes_signed_inj x y :
  - 2 ^ 63 <= x < 2 ^ 63 -> - 2 ^ 63 <= y < 2 ^ 63 -> be_bytes 8 x = be_bytes 8 y -> x = y.
Proof.
  intros Hx Hy. rewrite (be_bytes_mod 8 x), (be_bytes_mod 8 y). change (256 ^ Z.of_nat 8) with (2 ^ 64).
  intros Heq. apply be_bytes_inj in Heq; [|apply Z.mod_pos_bound; lia..].
  destruct (Z.lt_ge_cases x 0), (Z.lt_ge_cases y 0).
  - rewrite <- (Z.mod_add x 1), <- (Z.mod_add y 1) in Heq by lia. rewrite !Z.mod_small in Heq by lia. lia.
  - rewrite <- (Z.mod_add x 1), (Z.mod_small y) in Heq by lia. rewrite !Z.mod_small in Heq by lia. lia.
  - rewrite <- (Z.mod_add y 1), (Z.mod_small x) in Heq by lia. rewrite !Z.mod_small in Heq by lia. lia.
  - rewrite !Z.mod_small in Heq by lia. done.
Qed.

(** ** Results

    [outcome E A] is what a Rust function returning [Result<A, E>] can do:
    return [Ok], return [Err], or panic ([expect], [unwrap], an index out of
    range, a failed [assert!]).  [?] is the bind of this monad. *)

Inductive outcome (E A : Type) : Type :=
| Ok (a : A)
| Err (e : E)
| Panic.
Arguments Ok {E A} a.
Arguments Err {E A} e.
Arguments Panic {E A}.

#[export] Instance outcome_ret {E} : MRet (outcome E) := fun _ a => Ok a.
#[export] Instance outcome_bind {E} : MBind (outcome E) := fun _ _ k m =>
  match m with Ok a => k a | Err e => Err e | Panic => Panic end.
#[export] Instance outcome_fmap {E} : FMap (outcome E) := fun _ _ f m =>
  match m with Ok a => Ok (f a) | Err e => Err e | Panic => Panic end.

#[export] Instance outcome_eq_dec `{EqDecision E, EqDecision A} : EqDecision (outcome E A).
Proof. solve_decision. Defined.

(** [r.map_err(f)]; [f] is also the [From] conversion that [?] inserts. *)
Definition map_err {E F A} (f : E -> F) (m : outcome E A) : outcome F A :=
  match m with Ok a => Ok a | Err e => Err (f e) | Panic => Panic end.

(** [o.ok_or(e)]. *)
Definition ok_or {E A} (e : E) (o : option A) : outcome E A :=
  match o with Some a => Ok a | None => Err e end.

(** [o.expect(..)] on an [Option]. *)
Definition expect {E A} (o : option A) : outcome E A :=
  match o with Some a => Ok a | None => Panic end.

(** [r.expect(..)] on a [Result]. *)
Definition expect_ok {E F A} (m : outcome E A) : outcome F A :=
  match m with Ok a => Ok a | _ => Panic end.

(** [r.ok()]. *)
Definition ok {E A} (m : outcome E A) : option A :=
  match m with Ok a => Some a | _ => None end.

Definition is_ok {E A} (m : outcome E A) : Prop := exists a, m = Ok a.

Section outcome_lemmas.
Context {E F A B : Type}.

Lemma bind_Ok (m : outcome E A) (k : A -> outcome E B) b :
  m ≫= k = Ok b <-> exists a, m = Ok a /\ k a = Ok b.
Proof. destruct m; cbn; split; naive_solver. Qed.

Lemma bind_Err (m : outcome E A) (k : A -> outcome E B) e :
  m ≫= k = Err e <-> m = Err e \/ exists a, m = Ok a /\ k a = Err e.
Proof. destruct m; cbn; split; naive_solver. Qed.

Lemma map_err_Ok (f : E -> F) (m : outcome E A) a :
  map_err f m = Ok a <-> m = Ok a.
Proof. destruct m; cbn; split; naive_solver. Qed.

Lemma map_err_Err (f : E -> F) (m : outcome E A) e :
  map_err f m = Err e <-> exists e', m = Err e' /\ e = f e'.
Proof. destruct m; cbn; split; naive_solver. Qed.

Lemma ok_or_Ok (e : E) (o : option A) a : ok_or e o = Ok a <-> o = Some a.
Proof. destruct o; cbn; split; naive_solver. Qed.

Lemma ok_or_Err (e e' : E) (o : option A) : ok_or e o = Err e' <-> o = None /\ e' = e.
Proof. destruct o; cbn; split; naive_solver. Qed.

Lemma expect_Ok (o : option A) a : @expect E A o = Ok a <-> o = Some a.
Proof. destruct o; cbn; split; naive_solver. Qed.

Lemma ok_Some (m : outcome E A) a : ok m = Some a <-> m = Ok a.
Proof. destruct m; cbn; split; naive_solver. Qed.
End outcome_lemmas.

Lemma mapM_Ok {E A B} (f : A -> outcome E B) (g : A -> B) (l : list A) :
  (forall a, a ∈ l -> f a = Ok (g a)) -> mapM f l = Ok (g <$> l).
Proof.
  induction l as [|a l IH]; intros Hf; [done|]. cbn. rewrite (Hf a) by (by left). cbn.
  specialize (IH (fun a Ha => Hf a ltac:(by right))). cbn in IH. by rewrite IH.
Qed.

(** ** Functions with [&mut] state

    [M S E A] is a Rust function that also mutates a state of type [S]: on an
    [Err] the mutations made before the error stay, as they do in Rust. *)

Definition M (S E A : Type) : Type := S -> outcome E A * S.

#[export] Instance M_ret {S E} : MRet (M S E) := fun _ a s => (Ok a, s).
#[export] Instance M_bind {S E} : MBind (M S E) := fun _ _ k m s =>
  match m s with
  | (Ok a, s') => k a s'
  | (Err e, s') => (Err e, s')
  | (Panic, s') => (Panic, s')
  end.

(** A fallible expression that does not touch the state. *)
Definition lift {S E A} (m : outcome E A) : M S E A := fun s => (m, s).
Definition throw {S E A} (e : E) : M S E A := lift (Err e).
Definition get {S E} : M S E S := fun s => (Ok s, s).
Definition gets {S E A} (f : S -> A) : M S E A := fun s => (Ok (f s), s).
(** A read of the state that can fail. *)
Definition reads {S E A} (f : S -> outcome E A) : M S E A := fun s => (f s, s).
Definition put {S E} (s : S) : M S E unit := fun _ => (Ok tt, s).
Definition modify {S E} (f : S -> S) : M S E unit := fun s => (Ok tt, f s).
Definition map_err_M {S E F A} (f : E -> F) (m : M S E A) : M S F A :=
  fun s => let '(r, s') := m s in (map_err f r, s').

(** A call on one field of the state ([&mut self.field]). *)
Definition zoom {S T E A} (getf : S -> T) (setf : T -> S -> S) (m : M T E A) : M S E A :=
  fun s => let '(r, t) := m (getf s) in (r, setf t s).

(** A call on a local variable together with the ambient state; the local's
    final value is returned on success and dropped otherwise, as a Rust local
    is when the function returns early. *)
Definition with_local {S L E A} (l : L) (m : M (L * S) E A) : M S E (A * L) :=
  fun s => let '(r, (l', s')) := m (l, s) in ((fun a => (a, l')) <$> r, s').

(** The same for a call that uses nothing but the local. *)
Definition run_local {L E A} (l : L) (m : M L E A) : outcome E (A * L) :=
  let '(r, l') := m l in (fun a => (a, l')) <$> r.

(** [assert!(b)]. *)
Definition assert_M {S E} (b : bool) : M S E unit :=
  lift (if b then Ok tt else Panic).

Section M_lemmas.
Context {S E A B : Type}.

Lemma M_bind_eq (m : M S E A) (k : A -> M S E B) s :
  (m ≫= k) s = match m s with
               | (Ok a, s') => k a s'
               | (Err e, s') => (Err e, s')
               | (Panic, s') => (Panic, s')
               end.
Proof. done. Qed.

Lemma M_bind_Ok (m : M S E A) (k : A -> M S E B) s b s' :
  (m ≫= k) s = (Ok b, s') <-> exists a s1, m s = (Ok a, s1) /\ k a s1 = (Ok b, s').
Proof.
  unfold mbind, M_bind. destruct (m s) as [[a|e|] s1].
  - split; [eauto|]. by intros (? & ? & [= <- <-] & ?).
  - split; [done|]. by intros (? & ? & ? & ?).
  - split; [done|]. by intros (? & ? & ? & ?).
Qed.

Lemma M_bind_step (m : M S E A) (k : A -> M S E B) s a s1 :
  m s = (Ok a, s1) -> (m ≫= k) s = k a s1.
Proof. intros H. rewrite M_bind_eq. by rewrite H. Qed.

Lemma M_bind_Err (m : M S E A) (k : A -> M S E B) s e s' :
  (m ≫= k) s = (Err e, s') <->
  m s = (Err e, s') \/ exists a s1, m s = (Ok a, s1) /\ k a s1 = (Err e, s').
Proof.
  unfold mbind, M_bind. destruct (m s) as [[a|e'|] s1].
  - split; [eauto|]. intros [H|(a' & s2 & [= <- <-] & H)]; [discriminate H|done].
  - split; [intros [= -> ->]; by left|].
    intros [[= -> ->]|(a' & s2 & H & _)]; [done|discriminate H].
  - split; [done|]. intros [H|(a' & s2 & H & _)]; [discriminate H|discriminate H].
Qed.

Lemma lift_bind (m : outcome E A) (k : A -> M S E B) s :
  (lift m ≫= k) s = match m with
                    | Ok a => k a s
                    | Err e => (Err e, s)
                    | Panic => (Panic, s)
                    end.
Proof. rewrite M_bind_eq. unfold lift. by destruct m. Qed.

Lemma zoom_eq {T} (getf : S -> T) (setf : T -> S -> S) (m : M T E A) s :
  zoom getf setf m s = ((m (getf s)).1, setf (m (getf s)).2 s).
Proof. unfold zoom. by destruct (m (getf s)). Qed.
End M_lemmas.

(** A Hoare triple with a postcondition on results and final states of the
    [Ok] and [Err] outcomes; used for invariants. *)
Definition preserves {S E A} (P : S -> Prop) (m : M S E A) : Prop :=
  forall s, P s -> P (m s).2.

Section preserves.
Context {S E A B : Type} (P : S -> Prop).

Lemma preserves_ret (a : A) : preserves P (mret a : M S E A).
Proof. intros s Hs. done. Qed.
Lemma preserves_lift (m : outcome E A) : preserves P (lift m : M S E A).
Proof. intros s Hs. done. Qed.
Lemma preserves_throw (e : E) : preserves P (throw e : M S E A).
Proof. intros s Hs. done. Qed.
Lemma preserves_reads (f : S -> outcome E A) : preserves P (reads f).
Proof. intros s Hs. done. Qed.
Lemma preserves_gets (f : S -> A) : preserves P (gets (E:=E) f).
Proof. intros s Hs. done. Qed.
Lemma preserves_get : preserves P (get (E:=E)).
Proof. intros s Hs. done. Qed.
Lemma preserves_modify (f : S -> S) :
  (forall s, P s -> P (f s)) -> preserves P (modify (E:=E) f).
Proof. intros Hf s Hs. apply Hf, Hs. Qed.
Lemma preserves_bind (m : M S E A) (k : A -> M S E B) :
  preserves P m -> (forall a, preserves P (k a)) -> preserves P (m ≫= k).
Proof.
  intros Hm Hk s Hs. specialize (Hm s Hs). rewrite M_bind_eq.
  destruct (m s) as [[a|e|] s1]; simpl in *; [|done|done]. by apply Hk.
Qed.
Lemma preserves_map_err {F} (f : E -> F) (m : M S E A) :
  preserves P m -> preserves P (map_err_M f m).
Proof.
  intros Hm s Hs. specialize (Hm s Hs). unfold map_err_M.
  by destruct (m s) as [r s1].
Qed.
End preserves.

Create HintDb pres.
#[export] Hint Resolve preserves_ret preserves_lift preserves_throw preserves_reads
  preserves_gets preserves_get preserves_map_err : pres.

(** Walk through the binds of a computation whose leaves are in [pres]. *)
Ltac solve_preserves :=
  repeat first
    [ progress intros
    | apply preserves_bind
    | solve [eauto with pres]
    | case_match ].

(** Run the first statement of a computation in the goal. *)
Ltac M_step :=
  rewrite M_bind_eq;
  unfold lift, reads, gets, get, throw, modify, put, mret, M_ret, outcome_ret, expect;
  cbv beta iota.

(** Inversion of a successful or failed monadic computation in hypothesis. *)
Ltac inv_M :=
  repeat match goal with
    | H : (_ ≫= _) = Ok _ |- _ => apply bind_Ok in H as (? & ? & ?)
    | H : (_ ≫= _) _ = (Ok _, _) |- _ => apply M_bind_Ok in H as (? & ? & ? & ?)
    | H : map_err _ _ = Ok _ |- _ => apply map_err_Ok in H
    | H : ok_or _ _ = Ok _ |- _ => apply ok_or_Ok in H
    | H : expect _ = Ok _ |- _ => apply expect_Ok in H
    | H : lift _ _ = (_, _) |- _ => unfold lift in H
    | H : reads _ _ = (_, _) |- _ => unfold reads in H
    | H : gets _ _ = (_, _) |- _ => unfold gets in H
    | H : modify _ _ = (_, _) |- _ => unfold modify in H
    | H : mret _ _ = (_, _) |- _ => unfold mret, M_ret in H
    | H : throw _ _ = (_, _) |- _ => unfold throw, lift in H
    | H : mret _ = Ok _ |- _ => unfold mret, outcome_ret in H
    | H : (_, _) = (_, _) |- _ => injection H as H; try subst
    | H : Ok _ = Ok _ |- _ => injection H as H; try subst
    | H : Ok _ = Err _ |- _ => discriminate H
    | H : Err _ = Ok _ |- _ => discriminate H
    | H : Panic = Ok _ |- _ => discriminate H
    end.

(** ** List operations of [Vec] and [VecDeque]

    [vec_set] is [v[i] = x], which panics out of range; [vec_pop] drops the
    last element and [vec_remove i] removes by index. *)

Definition vec_set {A} (i : nat) (x : A) (v : list A) : option (list A) :=
  match v !! i with Some _ => Some (<[i:=x]> v) | None => None end.

Definition vec_pop {A} (v : list A) : list A := take (length v - 1) v.

(** [iter().position(p)]. *)
Definition position {A} (p : A -> bool) (v : list A) : option nat :=
  fst <$> list_find (fun a => Is_true (p a)) v.

Lemma vec_pop_length {A} (v : list A) : length (vec_pop v) = (length v - 1)%nat.
Proof. unfold vec_pop. rewrite length_take. lia. Qed.

Lemma position_Some {A} (p : A -> bool) v i :
  position p v = Some i <->
  exists x, v !! i = Some x /\ p x = true /\
            forall j y, v !! j = Some y -> (j < i)%nat -> p y = false.
Proof.
  unfold position. rewrite fmap_Some. split.
  - intros ([j x] & (Hx & Hp & Hlt)%list_find_Some & ->). exists x. simpl.
    split; [done|]. split; [by destruct (p x)|].
    intros j' y Hy Hj. specialize (Hlt j' y Hy Hj).
    by destruct (p y).
  - intros (x & Hx & Hp & Hlt). exists (i, x). split; [|done].
    apply list_find_Some. split_and!; [done|by rewrite Hp|].
    intros j y Hy Hj. rewrite (Hlt j y Hy Hj). intros [].
Qed.

Lemma position_None {A} (p : A -> bool) v :
  position p v = None <-> forall x, x ∈ v -> p x = false.
Proof.
  unfold position. rewrite fmap_None, list_find_None, Forall_forall.
  split; intros H x Hx; specialize (H x Hx); destruct (p x); try done; by intros [].
Qed.

Lemma length_delete_le {A} (l : list A) i : (length (delete i l) <= length l)%nat.
Proof.
  rewrite delete_take_drop, length_app, length_take, length_drop. lia.
Qed.

(** ** [sort_by_key], a stable sort *)

Section sort_by_key.
Context {A : Type} (key : A -> Z).

Fixpoint insert_by (x : A) (l : list A) : list A :=
  match l with
  | [] => [x]
  | y :: l => if key x <=? key y then x :: y :: l else y :: insert_by x l
  end.
Definition sort_by_key (l : list A) : list A := foldr insert_by [] l.

(** Increasing in the key. *)
Fixpoint increasing (l : list A) : Prop :=
  match l with
  | x :: (y :: _) as l => key x <= key y /\ increasing l
  | _ => True
  end.

Lemma insert_by_perm x l : insert_by x l ≡ₚ x :: l.
Proof.
  induction l as [|y l IH]; cbn; [done|]. destruct (_ <=? _); [done|].
  rewrite IH. apply Permutation_swap.
Qed.

Lemma sort_by_key_perm l : sort_by_key l ≡ₚ l.
Proof. induction l as [|x l IH]; cbn; [done|]. by rewrite insert_by_perm, IH. Qed.

Lemma increasing_cons x l : increasing (x :: l) <-> (forall y, y ∈ l -> key x <= key y) /\ increasing l.
Proof.
  revert x. induction l as [|y l IH]; intros x; cbn [increasing].
  - split; [intros _; split; [by intros y ?%not_elem_of_nil|done]|done].
  - rewrite (IH y) at 1. split.
    + intros (Hxy & Hy & Hl). split; [|by apply IH].
      intros z [->|Hz]%elem_of_cons; [done|]. specialize (Hy z Hz). lia.
    + intros (Hx & Hl). split; [apply Hx; by left|by apply IH].
Qed.

Lemma insert_by_increasing x l : increasing l -> increasing (insert_by x l).
Proof.
  induction l as [|y l IH]; intros Hl; [done|]. cbn [insert_by].
  apply increasing_cons in Hl as [Hy Hl]. destruct (Z.leb_spec (key x) (key y)).
  - apply increasing_cons. split; [|by apply increasing_cons].
    intros z [->|Hz]%elem_of_cons; [done|]. specialize (Hy z Hz). lia.
  - apply increasing_cons. split; [|by apply IH].
    intros z. rewrite insert_by_perm, elem_of_cons. intros [->|Hz]; [lia|by apply Hy].
Qed.

Lemma sort_by_key_increasing l : increasing (sort_by_key l).
Proof. induction l as [|x l IH]; [done|]. by apply insert_by_increasing. Qed.
End sort_by_key.

(** ** Strings *)

Lemma string_app_nil (s : string) : (s +:+ "")%string = s.
Proof. induction s as [|a s IH]; [done|]. change (String a (s +:+ "")%string = String a s). by rewrite IH. Qed.

Lemma string_app_assoc (s1 s2 s3 : string) : ((s1 +:+ s2) +:+ s3 = s1 +:+ (s2 +:+ s3))%string.
Proof.
  induction s1 as [|a s1 IH]; [done|]. change (String a ((s1 +:+ s2) +:+ s3) = String a (s1 +:+ (s2 +:+ s3)))%string.
  by rewrite IH.
Qed.
