(* ===== verification/Types.v ===== *)
(** * Types: identifiers, constants and errors

    The small data types the protocol crate shares: [libsignal_core]'s
    [DeviceId] and [ProtocolAddress] (rust/core/src/address.rs), the key types
    of rust/core/src/curve.rs and rust/protocol/src/kem.rs (for the default
    cargo features, where Kyber1024 is the only KEM), the limits of
    rust/protocol/src/consts.rs, and [SignalProtocolError]
    (rust/protocol/src/error.rs). *)

From S2P Require Import Prelude.
Open Scope string_scope.
Open Scope list_scope.
Open Scope Z_scope.

(** ** consts.rs *)

Definition MAX_FORWARD_JUMPS : Z := 25000.
Definition MAX_MESSAGE_KEYS : nat := 2000.
Definition MAX_RECEIVER_CHAINS : nat := 5.
Definition ARCHIVED_STATES_MAX_LENGTH : nat := 40.
Definition MAX_SENDER_KEY_STATES : nat := 5.

(** [SystemTime] and [Duration] are nanoseconds; a [SystemTime] is relative to
    the Unix epoch. *)
Definition NANOS_PER_SEC : Z := 1000000000.
Definition Duration_from_secs (s : Z) : Z := s * NANOS_PER_SEC.
Definition MAX_UNACKNOWLEDGED_SESSION_AGE : Z := Duration_from_secs (60 * 60 * 24 * 30).

(** [SystemTime + Duration] panics when the seconds leave the [i64] range that
    the standard library keeps on every Unix target. *)
Definition system_time_add {E} (t d : Z) : outcome E Z :=
  if (t + d) / NANOS_PER_SEC <? 2 ^ 63 then Ok (t + d) else Panic.

(** [t.duration_since(UNIX_EPOCH).unwrap_or_default().as_secs()]. *)
Definition secs_since_epoch (t : Z) : Z :=
  if t <? 0 then 0 else t / NANOS_PER_SEC.

(** ** Device identifiers and addresses (address.rs) *)

Definition MAX_VALID_DEVICE_ID : Z := 127.

Record DeviceId := mkDeviceId { device_id_value : Z }.

#[export] Instance DeviceId_eq_dec : EqDecision DeviceId.
Proof. solve_decision. Defined.
#[export] Program Instance DeviceId_countable : Countable DeviceId :=
  inj_countable' device_id_value mkDeviceId _.
Next Obligation. by intros []. Qed.

Inductive InvalidDeviceId := mkInvalidDeviceId.

(** [DeviceId::new_nonzero]: the argument is a [NonZeroU8]. *)
Definition DeviceId_new_nonzero (id : Z) : outcome InvalidDeviceId DeviceId :=
  if id <=? MAX_VALID_DEVICE_ID then Ok (mkDeviceId id) else Err mkInvalidDeviceId.

Definition DeviceId_new (id : byte) : outcome InvalidDeviceId DeviceId :=
  if u8 id =? 0 then Err mkInvalidDeviceId else DeviceId_new_nonzero (u8 id).

(** [TryFrom<u32>] and [TryFrom<i32>]: the conversion to [u8] fails outside
    [0, 255]. *)
Definition DeviceId_try_from_int (value : Z) : outcome InvalidDeviceId DeviceId :=
  if (0 <=? value) && (value <=? 255)
  then DeviceId_new (as_u8 value)
  else Err mkInvalidDeviceId.

(** [From<DeviceId> for u32]. *)
Definition DeviceId_to_u32 (d : DeviceId) : Z := device_id_value d.

Record ProtocolAddress := mkProtocolAddress {
  pa_name : string;
  pa_device_id : DeviceId
}.

#[export] Instance ProtocolAddress_eq_dec : EqDecision ProtocolAddress.
Proof. solve_decision. Defined.
#[export] Program Instance ProtocolAddress_countable : Countable ProtocolAddress :=
  inj_countable' (fun a => (pa_name a, pa_device_id a))
                 (fun '(n, d) => mkProtocolAddress n d) _.
Next Obligation. by intros []. Qed.

(** [Display for ProtocolAddress]: ["{}.{}"]. *)
Definition ProtocolAddress_display (a : ProtocolAddress) : string :=
  (pa_name a +:+ "." +:+ pretty (device_id_value (pa_device_id a)))%string.

(** ** Identifiers that are newtypes over [u32] *)

Abbreviation PreKeyId := Z (only parsing).
Abbreviation SignedPreKeyId := Z (only parsing).
Abbreviation KyberPreKeyId := Z (only parsing).
(** [uuid::Uuid]: 16 bytes. *)
Abbreviation Uuid := (array 16).
(** [Timestamp]: milliseconds since the Unix epoch, [u64]. *)
Abbreviation Timestamp := Z (only parsing).

(** ** Key types and message types *)

Inductive KeyType := Djb.
#[export] Instance KeyType_eq_dec : EqDecision KeyType.
Proof. solve_decision. Defined.

Inductive KemKeyType := Kyber1024.
#[export] Instance KemKeyType_eq_dec : EqDecision KemKeyType.
Proof. solve_decision. Defined.

Inductive CiphertextMessageType := Whisper | PreKey | SenderKey | Plaintext.
#[export] Instance CiphertextMessageType_eq_dec : EqDecision CiphertextMessageType.
Proof. solve_decision. Defined.

(** The discriminants ([#[repr(u8)]]) and the derived [TryFrom<u8>]. *)
Definition CiphertextMessageType_value (t : CiphertextMessageType) : Z :=
  match t with Whisper => 2 | PreKey => 3 | SenderKey => 7 | Plaintext => 8 end.
Definition CiphertextMessageType_try_from (z : Z) : option CiphertextMessageType :=
  if z =? 2 then Some Whisper else if z =? 3 then Some PreKey
  else if z =? 7 then Some SenderKey else if z =? 8 then Some Plaintext else None.

(** [storage::Direction] and [storage::IdentityChange]. *)
Inductive Direction := Sending | Receiving.
Inductive IdentityChange := NewOrUnchanged | ReplacedExisting.

(** ** Errors *)

(** [CurveError] (curve.rs). *)
Inductive CurveError :=
| CurveNoKeyTypeIdentifier
| CurveBadKeyType (raw : Z)
| CurveBadKeyLength (t : KeyType) (len : nat).

(** [SignalProtocolError]; the variants for foreign callbacks carry the text
    of the error they wrap. *)
Inductive SignalProtocolError :=
| InvalidArgument (msg : string)
| InvalidState (call msg : string)
| InvalidProtobufEncoding
| CiphertextMessageTooShort (len : nat)
| LegacyCiphertextVersion (v : Z)
| UnrecognizedCiphertextVersion (v : Z)
| UnrecognizedMessageVersion (v : Z)
| NoKeyTypeIdentifier
| BadKeyType (raw : Z)
| BadKeyLength (t : KeyType) (len : nat)
| SignatureValidationFailed
| UntrustedIdentity (a : ProtocolAddress)
| InvalidPreKeyId
| InvalidSignedPreKeyId
| InvalidKyberPreKeyId
| InvalidMacKeyLength (len : nat)
| NoSenderKeyState (distribution_id : Uuid)
| InvalidProtocolAddress (name : string) (device_id : Z)
| SessionNotFound (a : ProtocolAddress)
| InvalidSessionStructure (msg : string)
| InvalidSenderKeySession (distribution_id : Uuid)
| InvalidRegistrationId (a : ProtocolAddress) (id : Z)
| DuplicatedMessage (old current : Z)
| InvalidMessage (t : CiphertextMessageType) (msg : string)
| FfiBindingError (msg : string)
| ApplicationCallbackError (method msg : string)
| InvalidSealedSenderMessage (msg : string)
| UnknownSealedSenderVersion (v : Z)
| SealedSenderSelfSend
| UnknownSealedSenderServerCertificateId (id : Z)
| BadKEMKeyType (t : Z)
| WrongKEMKeyType (t expected : Z)
| BadKEMKeyLength (t : KemKeyType) (len : nat)
| BadKEMCiphertextLength (t : KemKeyType) (len : nat).

#[export] Instance SignalProtocolError_eq_dec : EqDecision SignalProtocolError.
Proof. solve_decision. Defined.

(** [Result<T>] of the protocol crate. *)
Abbreviation Result := (outcome SignalProtocolError).

(** [From<CurveError> for SignalProtocolError]. *)
Definition from_CurveError (e : CurveError) : SignalProtocolError :=
  match e with
  | CurveNoKeyTypeIdentifier => NoKeyTypeIdentifier
  | CurveBadKeyType raw => BadKeyType raw
  | CurveBadKeyLength t len => BadKeyLength t len
  end.

(** [InvalidSessionError] of state/session.rs and of sender_keys.rs. *)
Record InvalidSessionError := mkInvalidSessionError { ise_msg : string }.
#[export] Instance InvalidSessionError_eq_dec : EqDecision InvalidSessionError.
Proof. solve_decision. Defined.
(** [From<InvalidSessionError> for SignalProtocolError] (state/session.rs). *)
Definition from_InvalidSessionError (e : InvalidSessionError) : SignalProtocolError :=
  InvalidSessionStructure (ise_msg e).

(** ** Facts about device identifiers *)

Lemma DeviceId_new_spec b :
  DeviceId_new b =
    if (1 <=? u8 b) && (u8 b <=? 127) then Ok (mkDeviceId (u8 b)) else Err mkInvalidDeviceId.
Proof.
  unfold DeviceId_new, DeviceId_new_nonzero, MAX_VALID_DEVICE_ID.
  pose proof (u8_range b).
  destruct (Z.eqb_spec (u8 b) 0), (Z.leb_spec 1 (u8 b)), (Z.leb_spec (u8 b) 127);
    simpl; try done; lia.
Qed.

Lemma DeviceId_try_from_int_spec v :
  DeviceId_try_from_int v =
    if (1 <=? v) && (v <=? 127) then Ok (mkDeviceId v) else Err mkInvalidDeviceId.
Proof.
  unfold DeviceId_try_from_int. rewrite DeviceId_new_spec, u8_as_u8.
  destruct (Z.leb_spec 0 v), (Z.leb_spec v 255); simpl;
    try (destruct (Z.leb_spec 1 v), (Z.leb_spec v 127); simpl; done || lia).
  by rewrite Z.mod_small by lia.
Qed.
