(* ===== verification/Primitives.v ===== *)
(** * Primitives: the third-party code the crates call

    Everything here stands for code outside the repository: the random number
    generator, RustCrypto's HMAC/HKDF/SHA-512/AES, curve25519-dalek and
    x25519-dalek, libcrux's Kyber1024, the [spqr] post-quantum ratchet crate
    and prost's generated protobuf codecs.  They are the fields of the classes
    [Primitives] and [Prost]; what the code relies on is stated as separate
    law classes, each of which [Toy] shows to be satisfiable. *)

From S2P Require Import Prelude Types.
Open Scope string_scope.
Open Scope list_scope.
Open Scope Z_scope.

(** ** Types of the [spqr] crate that the code names *)

Inductive SpqrVersion := V0 | V1.
Inductive SpqrDirection := A2B | B2A.
Record SpqrChainParams := mkSpqrChainParams { max_jump : Z; max_ooo_keys : Z }.
Record SpqrParams := mkSpqrParams {
  sp_auth_key : array 32;
  sp_version : SpqrVersion;
  sp_direction : SpqrDirection;
  sp_min_version : SpqrVersion;
  sp_chain_params : SpqrChainParams
}.
(** [spqr::Recv { state, key }] and [spqr::Send { state, key, msg }]; a
    [MessageKey] is an [Option<Vec<u8>>]. *)
Record SpqrRecv := mkSpqrRecv { recv_state : bytes; recv_key : option bytes }.
Record SpqrSend := mkSpqrSend { send_state : bytes; send_key : option bytes; send_msg : bytes }.

Class Primitives := {
  (** rand: [fill_bytes], [random::<[u8; N]>()] and [random::<u32>()]. *)
  Rng : Type;
  fill_bytes : forall n, Rng -> array n * Rng;
  random_array : forall n, Rng -> array n * Rng;
  random_u32 : Rng -> Z * Rng;
  (** hmac, hkdf (salt, input key material, info) and sha2; the output lengths
      the code asks of HKDF are constants below its documented limit. *)
  hmac_sha256_mac : bytes -> bytes -> array 32;
  hkdf_sha256 : option bytes -> bytes -> bytes -> forall n, array n;
  sha512 : bytes -> array 64;
  (** aes, cbc, ctr. *)
  aes256_cbc_pkcs7_encrypt : array 32 -> array 16 -> bytes -> bytes;
  aes256_cbc_pkcs7_decrypt : array 32 -> array 16 -> bytes -> option bytes;
  aes256_ctr32be : array 32 -> array 16 -> bytes -> bytes;
  (** x25519-dalek and curve25519-dalek. *)
  clamp_integer : array 32 -> array 32;
  x25519_public : array 32 -> array 32;
  x25519_agreement : array 32 -> array 32 -> array 32;
  Scalar : Type;
  EdwardsPoint : Type;
  scalar_from_bytes_mod_order : array 32 -> Scalar;
  scalar_from_hash : array 64 -> Scalar;
  scalar_mul : Scalar -> Scalar -> Scalar;
  scalar_add : Scalar -> Scalar -> Scalar;
  scalar_to_bytes : Scalar -> array 32;
  basepoint_mul : Scalar -> EdwardsPoint;
  point_neg : EdwardsPoint -> EdwardsPoint;
  point_compress : EdwardsPoint -> array 32;
  (** [vartime_double_scalar_mul_basepoint(a, A, b)] is [a A + b B]. *)
  double_scalar_mul_basepoint : Scalar -> EdwardsPoint -> Scalar -> EdwardsPoint;
  (** [MontgomeryPoint(u).to_edwards(sign)]. *)
  mont_to_edwards : array 32 -> Z -> option EdwardsPoint;
  point_is_torsion_free : EdwardsPoint -> bool;
  (** libcrux-ml-kem: lengths, key generation, encapsulation, decapsulation. *)
  kyber1024_public_key_length : nat;
  kyber1024_secret_key_length : nat;
  kyber1024_ciphertext_length : nat;
  kyber1024_generate_key_pair : array 64 -> bytes * bytes;
  kyber1024_encapsulate : bytes -> array 32 -> bytes * bytes;
  kyber1024_decapsulate : bytes -> bytes -> bytes;
  (** spqr. *)
  SpqrError : Type;
  spqr_is_StateDecode : SpqrError -> bool;
  spqr_error_display : SpqrError -> string;
  spqr_initial_state : SpqrParams -> outcome SpqrError bytes;
  spqr_send : bytes -> Rng -> outcome SpqrError SpqrSend * Rng;
  spqr_recv : bytes -> bytes -> outcome SpqrError SpqrRecv
}.

(** prost: [encode_to_vec] and [decode] of one generated message type. *)
Class Prost (A : Type) := {
  encode_to_vec : A -> bytes;
  decode_pb : bytes -> option A
}.

(** [sha2::Sha256]. *)
Class Sha256 := { sha256 : bytes -> array 32 }.

(** ** Documented behaviour the theorems rely on *)

(** A random [u32] is in range. *)
Class RngLaws {P : Primitives} := {
  random_u32_range : forall rng, is_u32 (random_u32 rng).1
}.

(** Diffie-Hellman agreement, and that a generated public key is canonical:
    its point is torsion-free and its coordinate is reduced. *)
Class X25519Laws {P : Primitives} := {
  clamp_idem : forall a, clamp_integer (clamp_integer a) = clamp_integer a;
  x25519_comm : forall a b,
    x25519_agreement a (x25519_public b) = x25519_agreement b (x25519_public a);
  x25519_public_torsion_free : forall a,
    exists p, mont_to_edwards (x25519_public (clamp_integer a)) 0 = Some p /\
              point_is_torsion_free p = true;
  x25519_public_reduced : forall a,
    le_value (arr (x25519_public (clamp_integer a))) < 2 ^ 255 - 19
}.

(** CBC with PKCS#7 padding decrypts what it encrypts; the ciphertext is a
    positive number of 16-byte blocks.  CTR is its own inverse. *)
Class AesLaws {P : Primitives} := {
  cbc_round_trip : forall k iv p,
    aes256_cbc_pkcs7_decrypt k iv (aes256_cbc_pkcs7_encrypt k iv p) = Some p;
  cbc_blocks : forall k iv p, exists n,
    length (aes256_cbc_pkcs7_encrypt k iv p) = (16 * S n)%nat;
  ctr_round_trip : forall k iv p,
    aes256_ctr32be k iv (aes256_ctr32be k iv p) = p
}.

(** The KEM: key and ciphertext lengths, and decapsulation of what was
    encapsulated to the matching public key. *)
Class KemLaws {P : Primitives} := {
  kyber_key_lengths : forall r,
    length (kyber1024_generate_key_pair r).1 = kyber1024_secret_key_length /\
    length (kyber1024_generate_key_pair r).2 = kyber1024_public_key_length;
  kyber_ciphertext_length : forall pk r,
    length (kyber1024_encapsulate pk r).1 = kyber1024_ciphertext_length;
  kyber_round_trip : forall r r',
    let '(sk, pk) := kyber1024_generate_key_pair r in
    let '(ct, ss) := kyber1024_encapsulate pk r' in
    kyber1024_decapsulate sk ct = ss
}.

(** A decoded message is the encoded one, for messages whose integer fields
    are in range ([wf]). *)
Class ProstLaws (A : Type) `{Prost A} (wf : A -> Prop) := {
  decode_encode_pb : forall a, wf a -> decode_pb (encode_to_vec a) = Some a
}.

(** curve25519-dalek's scalars and points, as XEdDSA uses them: scalars are
    reduced modulo a 253-bit prime; the Edwards point of a public key is
    recovered from its Montgomery coordinate and its sign bit, which the
    compressed point carries in its top bit; [h(-aB) + (ha + r)B = rB]. *)
Class EdwardsLaws {P : Primitives} := {
  scalar_bytes_canonical : forall s,
    scalar_from_bytes_mod_order (scalar_to_bytes s) = s;
  scalar_bytes_top : forall s, u8 (default Byte.x00 (arr (scalar_to_bytes s) !! 31%nat)) < 32;
  to_edwards_public : forall k,
    let a := basepoint_mul (scalar_from_bytes_mod_order (clamp_integer k)) in
    mont_to_edwards (x25519_public (clamp_integer k))
      (Z.shiftr (Z.land (u8 (default Byte.x00 (arr (point_compress a) !! 31%nat))) 128) 7)
    = Some a;
  double_scalar_cancel : forall h a r,
    double_scalar_mul_basepoint h (point_neg (basepoint_mul a))
      (scalar_add (scalar_mul h a) r) = basepoint_mul r
}.

(** AES-256-GCM-SIV (the aes_gcm_siv crate): [encrypt_in_place_detached] gives
    the ciphertext and its tag, [decrypt_in_place] takes the tag at the end of the
    ciphertext; arguments are the key, the nonce and the associated data.
    Encryption fails for plaintexts that are too long. *)
Class AesGcmSiv := {
  gcm_siv_encrypt : array 32 -> array 12 -> bytes -> bytes -> option (bytes * array 16);
  gcm_siv_decrypt : array 32 -> array 12 -> bytes -> bytes -> option bytes;
  (** The text of the crate's opaque error. *)
  gcm_siv_error : string
}.

(** RFC 8452 limits plaintexts to 2^36 bytes. *)
Definition GCM_SIV_P_MAX : Z := 2 ^ 36.

Class AesGcmSivLaws `{AesGcmSiv} := {
  gcm_siv_encrypts : forall k n aad p,
    Z.of_nat (length p) <= GCM_SIV_P_MAX -> is_Some (gcm_siv_encrypt k n aad p);
  gcm_siv_round_trip : forall k n aad p c tag,
    gcm_siv_encrypt k n aad p = Some (c, tag) -> gcm_siv_decrypt k n aad (c ++ arr tag) = Some p
}.

(** prost's length delimiters: base-128 varints of a [usize]. *)
Class LengthDelimiter := {
  encode_length_delimiter : Z -> bytes;
  decode_length_delimiter : bytes -> option Z;
  length_delimiter_len : Z -> nat
}.

Class LengthDelimiterLaws `{LengthDelimiter} := {
  decode_encode_length : forall n tail,
    is_u64 n -> decode_length_delimiter (encode_length_delimiter n ++ tail) = Some n;
  length_delimiter_len_ok : forall n, is_u64 n -> length_delimiter_len n = length (encode_length_delimiter n);
  (** A varint is decoded from at least as many bytes as its shortest encoding. *)
  decode_length_fits : forall b n, decode_length_delimiter b = Some n ->
    is_u64 n /\ (length_delimiter_len n <= length b)%nat
}.
