(* ===== verification/KtTree.v ===== *)
(** * KtTree: left-balanced trees of the key transparency log
    (rust/keytrans/src/left_balanced.rs)

    Nodes of a binary tree are numbered from left to right, leaves at even
    positions.  The bit operations of the source are related to the pair of a
    level [k] and an index [j] in that level: [node k j] is the [j]-th node of
    level [k], its children are [node (k-1) (2j)] and [node (k-1) (2j+1)].
    Arithmetic on [u64] is that of a checked build, where an overflow panics. *)

From S2P Require Import Prelude Types.
Open Scope string_scope.
Open Scope list_scope.
Open Scope Z_scope.

(** ** Checked [u64] arithmetic *)

Definition u64_add {E} (a b : Z) : outcome E Z := if a + b <=? u64_max then Ok (a + b) else Panic.
Definition u64_sub {E} (a b : Z) : outcome E Z := if b <=? a then Ok (a - b) else Panic.
Definition u64_mul {E} (a b : Z) : outcome E Z := if a * b <=? u64_max then Ok (a * b) else Panic.
(** A shift by 64 or more panics; bits shifted out are lost. *)
Definition u64_shl {E} (a k : Z) : outcome E Z :=
  if k <? 64 then Ok (Z.shiftl a k mod 2 ^ 64) else Panic.
Definition u64_shr {E} (a k : Z) : outcome E Z := if k <? 64 then Ok (Z.shiftr a k) else Panic.

Lemma u64_add_ok {E} a b : a + b <= u64_max -> @u64_add E a b = Ok (a + b).
Proof. intros H. unfold u64_add. by rewrite (proj2 (Z.leb_le _ _) H). Qed.
Lemma u64_sub_ok {E} a b : b <= a -> @u64_sub E a b = Ok (a - b).
Proof. intros H. unfold u64_sub. by rewrite (proj2 (Z.leb_le _ _) H). Qed.
Lemma u64_mul_ok {E} a b : a * b <= u64_max -> @u64_mul E a b = Ok (a * b).
Proof. intros H. unfold u64_mul. by rewrite (proj2 (Z.leb_le _ _) H). Qed.
Lemma u64_shl_ok {E} a k :
  0 <= a -> 0 <= k < 64 -> a * 2 ^ k <= u64_max -> @u64_shl E a k = Ok (a * 2 ^ k).
Proof.
  intros Ha Hk H. unfold u64_shl. rewrite (proj2 (Z.ltb_lt _ _)) by lia.
  rewrite Z.shiftl_mul_pow2 by lia. f_equal. apply Z.mod_small. unfold u64_max in H. lia.
Qed.
Lemma u64_shr_ok {E} a k : 0 <= k < 64 -> @u64_shr E a k = Ok (a / 2 ^ k).
Proof.
  intros Hk. unfold u64_shr. rewrite (proj2 (Z.ltb_lt _ _)) by lia.
  by rewrite Z.shiftr_div_pow2 by lia.
Qed.

(** ** The steps of the source *)

(** [n.checked_ilog2().unwrap_or(0)]. *)
Definition log2 (n : Z) : Z := Z.log2 n.

Definition is_leaf (x : Z) : bool := Z.land x 1 =? 0.

(** [x.trailing_ones()]. *)
Fixpoint trailing_ones_pos (p : positive) : nat :=
  match p with
  | xI p => S (trailing_ones_pos p)
  | xO _ => O
  | xH => 1%nat
  end.
Definition level (x : Z) : nat :=
  match x with Zpos p => trailing_ones_pos p | _ => O end.

Definition left_step {E} (x : Z) : outcome E Z :=
  match level x with
  | O => Panic
  | S k => b ← u64_shl 1 (Z.of_nat k); Ok (Z.lxor x b)
  end.

Definition right_step {E} (x : Z) : outcome E Z :=
  match level x with
  | O => Panic
  | S k => b ← u64_shl 3 (Z.of_nat k); Ok (Z.lxor x b)
  end.

Definition parent_step {E} (x : Z) : outcome E Z :=
  let k := Z.of_nat (level x) in
  s ← u64_shr x (k + 1);
  let b := Z.land s 1 in
  own ← u64_shl 1 k;
  up ← u64_shl b (k + 1);
  Ok (Z.lxor (Z.lor x own) up).

(** ** Nodes by level and index *)

Definition node (k : nat) (j : Z) : Z := (2 * j + 1) * 2 ^ Z.of_nat k - 1.

Lemma pow2_pos (k : nat) : 0 < 2 ^ Z.of_nat k.
Proof. apply Z.pow_pos_nonneg; lia. Qed.

Lemma pow2_S (k : nat) : 2 ^ Z.of_nat (S k) = 2 * 2 ^ Z.of_nat k.
Proof. rewrite Nat2Z.inj_succ, Z.pow_succ_r by lia. done. Qed.

Lemma node_0 j : node 0 j = 2 * j.
Proof. unfold node. change (2 ^ Z.of_nat 0) with 1. lia. Qed.

Lemma node_S k j : node (S k) j = 2 * node k j + 1.
Proof. unfold node. rewrite pow2_S. lia. Qed.

Lemma node_nonneg k j : 0 <= j -> 0 <= node k j.
Proof. intros H. unfold node. pose proof (pow2_pos k). nia. Qed.

Lemma level_double x : 0 <= x -> level (2 * x) = O.
Proof. intros H. by destruct x. Qed.

Lemma level_double_succ x : 0 <= x -> level (2 * x + 1) = S (level x).
Proof. intros H. by destruct x. Qed.

Lemma level_node k j : 0 <= j -> level (node k j) = k.
Proof.
  intros Hj. induction k as [|k IH].
  - rewrite node_0. by apply level_double.
  - rewrite node_S, level_double_succ by (by apply node_nonneg). by rewrite IH.
Qed.

Lemma node_inj k j k' j' : 0 <= j -> 0 <= j' -> node k j = node k' j' -> k = k' /\ j = j'.
Proof.
  intros Hj Hj' H. assert (k = k') as <-.
  { pose proof (level_node k j Hj) as E. by rewrite H, level_node in E by done. }
  split; [done|]. unfold node in H. pose proof (pow2_pos k). nia.
Qed.

Lemma node_exists x : 0 <= x -> exists j, 0 <= j /\ x = node (level x) j.
Proof.
  induction x as [x IH] using (well_founded_induction (Z.lt_wf 0)). intros Hx.
  destruct (Z.Even_or_Odd x) as [[y ->]|[y ->]].
  - exists y. rewrite level_double by lia. rewrite node_0. lia.
  - destruct (IH y) as (j & Hj & Hy); [lia|lia|].
    exists j. rewrite level_double_succ by lia. rewrite node_S, <- Hy. lia.
Qed.

(** Bitwise operations on odd numbers, one bit at a time. *)
Lemma testbit_double_succ a n : 0 <= n -> Z.testbit (2 * a + 1) (Z.succ n) = Z.testbit a n.
Proof. intros H. by apply Z.testbit_odd_succ. Qed.

Lemma testbit_double a n : 0 <= n -> Z.testbit (2 * a) (Z.succ n) = Z.testbit a n.
Proof. intros H. by apply Z.testbit_even_succ. Qed.

Ltac bitwise_double :=
  apply Z.bits_inj'; intros n Hn;
  destruct (Z.eq_dec n 0) as [->|Hn0];
  [ rewrite ?Z.lxor_spec, ?Z.lor_spec, ?Z.testbit_odd_0, ?Z.testbit_even_0; done
  | replace n with (Z.succ (n - 1)) by lia;
    rewrite ?Z.lxor_spec, ?Z.lor_spec, ?testbit_double_succ, ?testbit_double,
      ?Z.lxor_spec, ?Z.lor_spec by lia; done ].

Lemma lxor_double_succ a b : Z.lxor (2 * a + 1) (2 * b) = 2 * Z.lxor a b + 1.
Proof. bitwise_double. Qed.
Lemma lor_double_succ a b : Z.lor (2 * a + 1) (2 * b) = 2 * Z.lor a b + 1.
Proof. bitwise_double. Qed.
Lemma lor_double_1 a : Z.lor (2 * a) 1 = 2 * a + 1.
Proof.
  rewrite Z.lor_comm. change 1 with (2 * 0 + 1) at 1. rewrite lor_double_succ. by rewrite Z.lor_0_l.
Qed.
Lemma lxor_double_1 a : Z.lxor (2 * a) 1 = 2 * a + 1.
Proof.
  rewrite Z.lxor_comm. change 1 with (2 * 0 + 1) at 1. rewrite lxor_double_succ.
  by rewrite Z.lxor_0_l.
Qed.
Lemma lxor_double_odd a b : Z.lxor (2 * a + 1) (2 * b + 1) = 2 * Z.lxor a b.
Proof. bitwise_double. Qed.

Lemma lxor_left k j : 0 <= j -> Z.lxor (node (S k) j) (2 ^ Z.of_nat k) = node k (2 * j).
Proof.
  intros Hj. induction k as [|k IH].
  - rewrite node_S, !node_0. change (2 ^ Z.of_nat 0) with (2 * 0 + 1).
    rewrite lxor_double_odd, Z.lxor_0_r. lia.
  - rewrite (node_S (S k)), pow2_S, lxor_double_succ, IH. by rewrite node_S.
Qed.

Lemma lxor_right k j : 0 <= j -> Z.lxor (node (S k) j) (3 * 2 ^ Z.of_nat k) = node k (2 * j + 1).
Proof.
  intros Hj. induction k as [|k IH].
  - rewrite node_S, !node_0. change (3 * 2 ^ Z.of_nat 0) with (2 * 1 + 1).
    rewrite lxor_double_odd, lxor_double_1. lia.
  - rewrite (node_S (S k)), pow2_S. replace (3 * (2 * 2 ^ Z.of_nat k))
      with (2 * (3 * 2 ^ Z.of_nat k)) by lia.
    rewrite lxor_double_succ, IH. by rewrite node_S.
Qed.

Lemma lor_own k j : 0 <= j -> Z.lor (node k j) (2 ^ Z.of_nat k) = node k j + 2 ^ Z.of_nat k.
Proof.
  intros Hj. induction k as [|k IH].
  - rewrite node_0. change (2 ^ Z.of_nat 0) with 1. apply lor_double_1.
  - rewrite node_S, pow2_S, lor_double_succ, IH. lia.
Qed.

(** The index bit above the own bit of a node. *)
Lemma node_bit k j : 0 <= j -> node k j / 2 ^ (Z.of_nat k + 1) = j.
Proof.
  intros Hj. unfold node. rewrite Z.pow_add_r by lia. change (2 ^ 1) with 2.
  pose proof (pow2_pos k). symmetry. apply Z.div_unique with (r := 2 ^ Z.of_nat k - 1); lia.
Qed.

(** ** The steps on nodes *)

Lemma pow2_le (k : nat) : (k <= 63)%nat -> 2 ^ Z.of_nat k <= 2 ^ 63.
Proof. intros H. apply Z.pow_le_mono_r; lia. Qed.

Lemma left_step_node {E} k j :
  0 <= j -> (k <= 63)%nat -> @left_step E (node (S k) j) = Ok (node k (2 * j)).
Proof.
  intros Hj Hk. unfold left_step. rewrite level_node by done. pose proof (pow2_le k Hk).
  rewrite u64_shl_ok by (unfold u64_max; lia). rewrite Z.mul_1_l. cbn [mbind outcome_bind].
  by rewrite lxor_left.
Qed.

Lemma right_step_node {E} k j :
  0 <= j -> (k <= 62)%nat -> @right_step E (node (S k) j) = Ok (node k (2 * j + 1)).
Proof.
  intros Hj Hk. unfold right_step. rewrite level_node by done.
  assert (2 ^ Z.of_nat k <= 2 ^ 62) by (apply Z.pow_le_mono_r; lia).
  rewrite u64_shl_ok by (unfold u64_max; lia). cbn [mbind outcome_bind].
  by rewrite lxor_right.
Qed.

Lemma left_step_leaf {E} j : 0 <= j -> @left_step E (node 0 j) = Panic.
Proof. intros Hj. unfold left_step. by rewrite level_node. Qed.
Lemma right_step_leaf {E} j : 0 <= j -> @right_step E (node 0 j) = Panic.
Proof. intros Hj. unfold right_step. by rewrite level_node. Qed.

Lemma parent_bit k j :
  0 <= j -> Z.lxor (node k j + 2 ^ Z.of_nat k) (j mod 2 * 2 ^ (Z.of_nat k + 1)) = node (S k) (j / 2).
Proof.
  intros Hj. pose proof (Z.div_mod j 2 ltac:(lia)) as Hdm.
  pose proof (Z.mod_pos_bound j 2 ltac:(lia)). remember (j / 2) as q eqn:Hq. clear Hq.
  assert (j mod 2 = 0 \/ j mod 2 = 1) as [E|E] by lia; rewrite E in *.
  - rewrite Z.mul_0_l, Z.lxor_0_r. unfold node. rewrite pow2_S. nia.
  - rewrite Z.mul_1_l. clear E. subst j.
    induction k as [|k IH].
    + unfold node. rewrite pow2_S. change (2 ^ Z.of_nat 0) with 1.
      change (2 ^ (Z.of_nat 0 + 1)) with (2 * (2 * 0 + 1)).
      replace ((2 * (2 * q + 1) + 1) * 1 - 1 + 1) with (2 * (2 * q + 1) + 1) by lia.
      rewrite lxor_double_succ, lxor_double_odd, Z.lxor_0_r. lia.
    + replace (node (S k) (2 * q + 1) + 2 ^ Z.of_nat (S k))
        with (2 * (node k (2 * q + 1) + 2 ^ Z.of_nat k) + 1) by (rewrite node_S, pow2_S; lia).
      replace (Z.of_nat (S k) + 1) with (Z.succ (Z.of_nat k + 1)) by lia.
      rewrite Z.pow_succ_r, lxor_double_succ, IH by lia. by rewrite (node_S (S k)).
Qed.

Lemma parent_step_node {E} k j :
  0 <= j -> (k <= 62)%nat -> @parent_step E (node k j) = Ok (node (S k) (j / 2)).
Proof.
  intros Hj Hk. unfold parent_step. rewrite level_node by done.
  assert (2 ^ Z.of_nat k <= 2 ^ 62) by (apply Z.pow_le_mono_r; lia).
  rewrite u64_shr_ok by lia. cbn [mbind outcome_bind]. rewrite node_bit by done.
  rewrite (u64_shl_ok 1) by (unfold u64_max; lia). cbn [mbind outcome_bind].
  replace (Z.land j 1) with (j mod 2) 
    by (change 1 with (Z.ones 1) at 1; by rewrite Z.land_ones by lia).
  pose proof (Z.mod_pos_bound j 2 ltac:(lia)).
  assert (2 ^ (Z.of_nat k + 1) <= 2 ^ 63) by (apply Z.pow_le_mono_r; lia).
  pose proof (Z.pow_pos_nonneg 2 (Z.of_nat k + 1)).
  rewrite (u64_shl_ok (j mod 2)); [|lia|lia|unfold u64_max; nia]. cbn [mbind outcome_bind].
  rewrite Z.mul_1_l, lor_own by done. by rewrite parent_bit.
Qed.

Lemma parent_step_top {E} k j : 0 <= j -> (63 <= k)%nat -> @parent_step E (node k j) = Panic.
Proof.
  intros Hj Hk. unfold parent_step. rewrite level_node by done. unfold u64_shr.
  by rewrite (proj2 (Z.ltb_ge _ _)) by lia.
Qed.

(** ** The positions below a node

    [node k j] has below it the positions from [first k j] to [last k j]. *)

Definition first (k : nat) (j : Z) : Z := j * 2 ^ Z.of_nat (S k).
Definition last (k : nat) (j : Z) : Z := (j + 1) * 2 ^ Z.of_nat (S k) - 2.
Definition covers (k : nat) (j y : Z) : Prop := first k j <= y <= last k j.

Lemma node_first k j : node k j = first k j + 2 ^ Z.of_nat k - 1.
Proof. unfold node, first. rewrite pow2_S. lia. Qed.
Lemma node_last k j : node k j = last k j - 2 ^ Z.of_nat k + 1.
Proof. unfold node, last. rewrite pow2_S. lia. Qed.

Lemma covers_node k j : covers k j (node k j).
Proof.
  unfold covers. rewrite node_first at 1. rewrite node_last at 1. pose proof (pow2_pos k). lia.
Qed.

(** What is below a node but not the node itself is below one of its children. *)
Lemma covers_left k j y : covers (S k) j y -> y < node (S k) j -> covers k (2 * j) y.
Proof.
  unfold covers, first, last, node. rewrite !pow2_S. pose proof (pow2_pos k). lia.
Qed.
Lemma covers_right k j y : covers (S k) j y -> node (S k) j < y -> covers k (2 * j + 1) y.
Proof.
  unfold covers, first, last, node. rewrite !pow2_S. pose proof (pow2_pos k). lia.
Qed.
Lemma covers_children k j y :
  covers k (2 * j) y -> covers (S k) j y /\ y < node (S k) j.
Proof.
  unfold covers, first, last, node. rewrite !pow2_S. pose proof (pow2_pos k). lia.
Qed.
Lemma covers_children_right k j y :
  covers k (2 * j + 1) y -> covers (S k) j y /\ node (S k) j < y.
Proof.
  unfold covers, first, last, node. rewrite !pow2_S. pose proof (pow2_pos k). lia.
Qed.
Lemma covers_leaf j y : covers 0 j y -> y = node 0 j.
Proof. unfold covers, first, last, node. change (2 ^ Z.of_nat 1) with 2. change (2 ^ Z.of_nat 0) with 1. lia. Qed.

(** Every position is below exactly one node of each level above its own. *)
Lemma covers_unique k j j' y : covers k j y -> covers k j' y -> j = j'.
Proof.
  unfold covers, first, last. pose proof (pow2_pos (S k)). intros. nia.
Qed.

Lemma covers_parent k j y : covers k j y -> covers (S k) (j / 2) y.
Proof.
  intros H. pose proof (Z.div_mod j 2 ltac:(lia)) as Hdm.
  pose proof (Z.mod_pos_bound j 2 ltac:(lia)). remember (j / 2) as q eqn:Hq. clear Hq.
  assert (j = 2 * q \/ j = 2 * q + 1) as [->| ->] by lia.
  - by apply covers_children.
  - by apply covers_children_right.
Qed.

(** Two nodes with a position in common are nested. *)
Lemma covers_nested k j k' j' y z :
  (k <= k')%nat -> covers k j y -> covers k' j' y -> covers k j z -> covers k' j' z.
Proof.
  unfold covers, first, last. intros Hk.
  replace (Z.of_nat (S k')) with (Z.of_nat (k' - k) + Z.of_nat (S k)) by lia.
  rewrite Z.pow_add_r by lia. pose proof (pow2_pos (S k)). pose proof (pow2_pos (k' - k)).
  set (a := 2 ^ Z.of_nat (S k)) in *. set (b := 2 ^ Z.of_nat (k' - k)) in *.
  intros Hy Hy' Hz.
  assert (j' * b <= j) by (apply Z.lt_succ_r, (Z.mul_lt_mono_pos_r a); nia).
  assert (j + 1 <= (j' + 1) * b) by (apply Z.lt_succ_r, (Z.mul_lt_mono_pos_r a); nia).
  nia.
Qed.

Lemma covers_step k j k' j' :
  (k < k')%nat -> covers k' j' (node k j) -> covers k' j' (node (S k) (j / 2)).
Proof.
  intros Hk Hc. eapply (covers_nested (S k) (j / 2)); [lia| |exact Hc|apply covers_node].
  apply covers_parent, covers_node.
Qed.

Lemma covers_node_same k j j' : covers k j (node k j') -> j' = j.
Proof. intros H. by apply (covers_unique k _ _ (node k j') (covers_node k j')). Qed.

(** [p] is an ancestor of [x], or [x] itself. *)
Definition ancestor (p x : Z) : Prop := exists k j, 0 <= j /\ p = node k j /\ covers k j x.

Lemma covers_level k j i ji : 0 <= ji -> covers k j (node i ji) -> (i <= k)%nat.
Proof.
  intros Hji. unfold covers, first, last, node. intros Hc.
  destruct (decide (i <= k)%nat) as [|Hlt]; [done|exfalso].
  replace (Z.of_nat i) with (Z.of_nat (i - S k) + Z.of_nat (S k)) in Hc by lia.
  rewrite Z.pow_add_r in Hc by lia. pose proof (pow2_pos (S k)).
  set (a := 2 ^ Z.of_nat (S k)) in *. set (b := 2 ^ Z.of_nat (i - S k)) in *.
  assert (j < (2 * ji + 1) * b) by (apply (Z.mul_lt_mono_pos_r a); nia).
  assert ((2 * ji + 1) * b < j + 1) by (apply (Z.mul_lt_mono_pos_r a); nia). lia.
Qed.

Lemma ancestor_refl x : 0 <= x -> ancestor x x.
Proof.
  intros Hx. destruct (node_exists x Hx) as (j & Hj & E). exists (level x), j.
  split_and!; [done|done|].
  pose proof (covers_node (level x) j) as Hc. by rewrite <- E in Hc.
Qed.

Lemma ancestor_node k j x : 0 <= j -> ancestor (node k j) x <-> covers k j x.
Proof.
  intros Hj. split; [|by exists k, j].
  intros (k' & j' & Hj' & [-> ->]%node_inj & Hc); done.
Qed.

(** Ancestors to the right of [x] lie further right the higher they are. *)
Lemma ancestors_right x i ji i' ji' :
  covers i ji x -> covers i' ji' x -> x < node i' ji' -> (i < i')%nat -> node i ji < node i' ji'.
Proof.
  intros Hc Hc' Hx Hi. destruct i' as [|m]; [lia|].
  apply (covers_children m ji'). eapply (covers_nested i ji); [lia|exact Hc| |apply covers_node].
  by apply covers_left.
Qed.
