(* ===== verification/KtImplicit.v ===== *)
(** * KtImplicit: the implicit binary search tree
    (rust/keytrans/src/implicit.rs)

    A search over the log entries [start .. n) follows the nodes of KtTree that
    lie in that range.  Section [search] shows that [root], [left] and [right]
    return a node of the range that has below it every position of the range
    that is left to search; section [paths] that the paths a monitoring client
    checks exist, and which positions they consist of.  An iterator is the list
    of the results of its [next], ending at the first panic. *)

From stdpp Require Import sorting.
From S2P Require Import Prelude Types KtTree.
Open Scope string_scope.
Open Scope list_scope.
Open Scope Z_scope.

(** ** The functions of the source *)

Definition in_range (start n x : Z) : bool := (start <=? x) && (x <? n).

(** The [while] loop; the level of [x] decreases with each step. *)
Fixpoint move_within_loop {E} (fuel : nat) (x start n : Z) : outcome E Z :=
  if in_range start n x then Ok x
  else match fuel with
       | O => Panic
       | S fuel =>
           x ← (if x <? start then right_step x else left_step x);
           move_within_loop fuel x start n
       end.
Definition move_within {E} (x start n : Z) : outcome E Z := move_within_loop 64 x start n.

Definition root {E} (start n : Z) : outcome E Z :=
  b ← u64_shl 1 (log2 n); r ← u64_sub b 1; move_within r start n.

Definition left {E} (x start n : Z) : outcome E Z := y ← left_step x; move_within y start n.
Definition right {E} (x start n : Z) : outcome E Z := y ← right_step x; move_within y start n.

(** The level of [p] grows with each step, and [parent_step] panics at 63. *)
Fixpoint climb {E} (fuel : nat) (p n : Z) : outcome E Z :=
  if n <=? p then
    match fuel with
    | O => Panic
    | S fuel => p ← parent_step p; climb fuel p n
    end
  else Ok p.
Definition parent {E} (x n : Z) : outcome E Z := p ← parent_step x; climb 64 p n.

Fixpoint path_from {E} (fuel : nat) (x r n : Z) : list (outcome E Z) :=
  if x =? r then []
  else match fuel with
       | O => [Panic]
       | S fuel =>
           match parent x n with
           | Ok p => Ok p :: path_from fuel p r n
           | bad => [bad]
           end
       end.
Definition direct_path {E} (x start n : Z) : outcome E (list (outcome E Z)) :=
  r ← root start n; Ok (path_from 65 x r n).

(** [.filter(|parent| *parent > x)]. *)
Definition above {E} (x : Z) (p : outcome E Z) : bool :=
  match p with Ok p => x <? p | _ => true end.
Definition monitoring_path {E} (x start n : Z) : outcome E (list (outcome E Z)) :=
  p ← direct_path x start n; Ok (filter (fun p => Is_true (above x p)) p).

(** Reading an iterator to its end. *)
Definition collect {E A} (l : list (outcome E A)) : outcome E (list A) := mapM id l.

Fixpoint frontier_from {E} (fuel : nat) (last start n : Z) : outcome E (list Z) :=
  end_ ← u64_sub n 1;
  if last =? end_ then Ok []
  else match fuel with
       | O => Panic
       | S fuel =>
           next ← right last start n;
           rest ← frontier_from fuel next start n;
           Ok (next :: rest)
       end.
Definition frontier {E} (start n : Z) : outcome E (list Z) :=
  r ← root start n; rest ← frontier_from 64 r start n; Ok (r :: rest).

(** [iter().enumerate().rev().find(..)]: the index of the last match. *)
Fixpoint last_index (p : Z -> bool) (l : list Z) : option nat :=
  match l with
  | [] => None
  | x :: l => match last_index p l with
              | Some i => Some (S i)
              | None => if p x then Some O else None
              end
  end.

Definition monitoring_frontier {E} (frontier : list Z) (entries : gset Z) : outcome E (list Z) :=
  index ← expect (last_index (fun value => bool_decide (value ∈ entries)) frontier);
  Ok (drop (index + 1) frontier).

(** The loop that collects the path without duplicates. *)
Fixpoint dedup_path (xs : list Z) (dedup : gset Z) : list Z * gset Z :=
  match xs with
  | [] => ([], dedup)
  | x :: xs =>
      if bool_decide (x ∈ dedup) then dedup_path xs dedup
      else let '(path, dedup) := dedup_path xs ({[x]} ∪ dedup) in (x :: path, dedup)
  end.

Definition full_monitoring_path {E} (entry start n : Z) : outcome E (list Z) :=
  it ← monitoring_path entry start n;
  xs ← collect it;
  let '(path, dedup) := dedup_path xs ∅ in
  f ← frontier start n;
  rest ← monitoring_frontier f ({[entry]} ∪ dedup);
  Ok (path ++ rest).

Fixpoint climb_right {E} (fuel : nat) (out entry : Z) : outcome E Z :=
  if out <=? entry then
    match fuel with
    | O => Panic
    | S fuel => out ← parent_step out; climb_right fuel out entry
    end
  else Ok out.
Definition first_parent_to_the_right {E} (entry : Z) : outcome E Z :=
  out ← climb_right 65 entry entry; u64_add out 1.

Definition minimum (l : list Z) : option Z :=
  match l with [] => None | x :: l => Some (fold_left Z.min l x) end.
Definition next_monitor {E} (entries : list Z) : outcome E Z :=
  l ← mapM first_parent_to_the_right entries; expect (minimum l).

(** ** Searching down *)

Section search.
Context {E : Type}.
Implicit Types (start n x y j : Z) (k : nat).

Lemma in_range_true start n x : in_range start n x = true <-> start <= x < n.
Proof. unfold in_range. rewrite andb_true_iff, Z.leb_le, Z.ltb_lt. done. Qed.

Lemma in_range_false start n x : in_range start n x = false <-> ~ (start <= x < n).
Proof. rewrite <- not_true_iff_false, in_range_true. done. Qed.

(** The result of a descent from [node k j]: a node of the range at or below it
    that has below it all that [node k j] has in the range. *)
Definition descends (start n : Z) (k : nat) (j : Z) (k' : nat) (j' : Z) : Prop :=
  (k' <= k)%nat /\ 0 <= j' /\ start <= node k' j' < n /\
  (forall y, start <= y < n -> covers k j y -> covers k' j' y) /\
  (forall y, covers k' j' y -> covers k j y).

Lemma move_within_spec k j start n fuel :
  0 <= j -> (k <= 63)%nat -> (k <= fuel)%nat ->
  (exists y, start <= y < n /\ covers k j y) ->
  exists k' j', @move_within_loop E fuel (node k j) start n = Ok (node k' j') /\
                descends start n k j k' j'.
Proof.
  revert j fuel. induction k as [|k IH]; intros j fuel Hj Hk Hf (y & Hy & Hc).
  - apply covers_leaf in Hc as ->. exists O, j. split.
    + destruct fuel; cbn; by rewrite (proj2 (in_range_true _ _ _) Hy).
    + unfold descends. split_and!; done || lia.
  - destruct (in_range start n (node (S k) j)) eqn:Ein.
    { exists (S k), j. split; [destruct fuel; cbn; by rewrite Ein|].
      apply in_range_true in Ein. unfold descends. split_and!; done || lia. }
    destruct fuel as [|fuel]; [lia|]. cbn -[left_step right_step]. rewrite Ein.
    apply in_range_false in Ein.
    destruct (Z.ltb_spec (node (S k) j) start) as [Hlt|Hge].
    + rewrite right_step_node by (done || lia). cbn [mbind outcome_bind].
      destruct (IH (2 * j + 1) fuel) as (k' & j' & Hm & Hd1 & Hd2 & Hd3 & Hd4 & Hd5); [lia|lia|lia| |].
      { exists y. split; [done|]. apply covers_right; [done|lia]. }
      exists k', j'. split; [done|]. split_and!; [lia|done|lia|lia| |].
      * intros z Hz Hcz. apply Hd4; [done|]. apply covers_right; [done|lia].
      * intros z Hz. by apply covers_children_right, Hd5.
    + rewrite left_step_node by (done || lia). cbn [mbind outcome_bind].
      destruct (IH (2 * j) fuel) as (k' & j' & Hm & Hd1 & Hd2 & Hd3 & Hd4 & Hd5); [lia|lia|lia| |].
      { exists y. split; [done|]. apply covers_left; [done|lia]. }
      exists k', j'. split; [done|]. split_and!; [lia|done|lia|lia| |].
      * intros z Hz Hcz. apply Hd4; [done|]. apply covers_left; [done|lia].
      * intros z Hz. by apply covers_children, Hd5.
Qed.

(** Every position below [n] is below the node the search starts from. *)
Lemma log2_covers n y :
  0 <= y < n -> n <= u64_max ->
  0 <= log2 n <= 63 /\ covers (Z.to_nat (log2 n)) 0 y /\
  node (Z.to_nat (log2 n)) 0 = 2 ^ log2 n - 1 /\ 2 ^ log2 n <= n.
Proof.
  intros Hy Hn. unfold log2. pose proof (Z.log2_spec n ltac:(lia)) as [H1 H2].
  pose proof (Z.log2_nonneg n). assert (Z.log2 n <= 63).
  { assert (Z.log2 n < 64); [|lia]. apply Z.log2_lt_pow2; unfold u64_max in Hn; lia. }
  unfold covers, first, last, node. rewrite Nat2Z.inj_succ, Z2Nat.id by lia.
  split; [lia|]. lia.
Qed.

Lemma root_spec start n :
  0 <= start < n -> n <= u64_max ->
  exists k j, @root E start n = Ok (node k j) /\ (k <= 63)%nat /\ 0 <= j /\
              start <= node k j < n /\ forall y, start <= y < n -> covers k j y.
Proof.
  intros Hs Hn. destruct (log2_covers n start Hs Hn) as (Hl & Hc & Hnode & Hle).
  destruct (move_within_spec (Z.to_nat (log2 n)) 0 start n 64)
    as (k & j & Hm & Hk & Hj & Hr & Hcov & _); [lia|lia|lia|by exists start; split; [lia|]|].
  exists k, j. split.
  - unfold root. rewrite u64_shl_ok by (unfold u64_max in *; lia). cbn [mbind outcome_bind].
    rewrite u64_sub_ok. 2: { pose proof (Z.pow_pos_nonneg 2 (log2 n)). lia. }
    cbn [mbind outcome_bind]. unfold move_within. by rewrite Z.mul_1_l, <- Hnode.
  - split_and!; [lia|done|lia|lia|]. intros y Hy. apply Hcov; [done|].
    by apply (log2_covers n y); [lia|].
Qed.

Lemma right_spec k j start n :
  0 <= j -> (k <= 63)%nat -> (exists y, start <= y < n /\ node k j < y /\ covers k j y) ->
  exists k' j', @right E (node k j) start n = Ok (node k' j') /\ (k' < k)%nat /\ 0 <= j' /\
    start <= node k' j' < n /\ node k j < node k' j' /\
    (forall y, start <= y < n -> node k j < y -> covers k j y -> covers k' j' y) /\
    (forall y, covers k' j' y -> covers k j y /\ node k j < y).
Proof.
  intros Hj Hk (y & Hy & Hlt & Hc). destruct k as [|k].
  { apply covers_leaf in Hc. lia. }
  destruct (move_within_spec k (2 * j + 1) start n 64)
    as (k' & j' & Hm & Hk' & Hj' & Hr & Hcov & Hsub); [lia|lia|lia| |].
  { exists y. split; [done|]. by apply covers_right. }
  exists k', j'. unfold right. rewrite right_step_node by (done || lia). cbn [mbind outcome_bind].
  split; [done|]. split_and!; [lia|done|lia|lia| | |].
  - apply (covers_children_right k j), Hsub, covers_node.
  - intros z Hz Hlz Hcz. apply Hcov; [done|]. by apply covers_right.
  - intros z Hz. by apply covers_children_right, Hsub.
Qed.

Lemma left_spec k j start n :
  0 <= j -> (k <= 63)%nat -> (exists y, start <= y < n /\ y < node k j /\ covers k j y) ->
  exists k' j', @left E (node k j) start n = Ok (node k' j') /\ (k' < k)%nat /\ 0 <= j' /\
    start <= node k' j' < n /\ node k' j' < node k j /\
    (forall y, start <= y < n -> y < node k j -> covers k j y -> covers k' j' y) /\
    (forall y, covers k' j' y -> covers k j y /\ y < node k j).
Proof.
  intros Hj Hk (y & Hy & Hlt & Hc). destruct k as [|k].
  { apply covers_leaf in Hc. lia. }
  destruct (move_within_spec k (2 * j) start n 64)
    as (k' & j' & Hm & Hk' & Hj' & Hr & Hcov & Hsub); [lia|lia|lia| |].
  { exists y. split; [done|]. by apply covers_left. }
  exists k', j'. unfold left. rewrite left_step_node by (done || lia). cbn [mbind outcome_bind].
  split; [done|]. split_and!; [lia|done|lia|lia| | |].
  - apply (covers_children k j), Hsub, covers_node.
  - intros z Hz Hlz Hcz. apply Hcov; [done|]. by apply covers_left.
  - intros z Hz. by apply covers_children, Hsub.
Qed.

(** ** The frontier

    [tail_nodes]: each node is [right] of the one before, has below it every
    position of the range to the right of the one before, and the last one is
    the last entry. *)
Inductive tail_nodes (start n : Z) : Z -> list Z -> Prop :=
| tail_end x k j :
    x = node k j -> 0 <= j -> (k <= 63)%nat -> x = n - 1 -> tail_nodes start n x []
| tail_step x k j y l :
    x = node k j -> 0 <= j -> (k <= 63)%nat -> x < n - 1 ->
    @right E x start n = Ok y -> x < y < n ->
    (forall z, x < z < n -> ancestor y z) -> (forall z, ancestor y z -> x < z) ->
    tail_nodes start n y l -> tail_nodes start n x (y :: l).

Lemma frontier_from_spec k j start n fuel :
  0 <= j -> (k <= 63)%nat -> (k <= fuel)%nat -> 0 <= start <= node k j -> node k j < n ->
  covers k j (n - 1) ->
  exists l, @frontier_from E fuel (node k j) start n = Ok l /\ tail_nodes start n (node k j) l.
Proof.
  revert j k. induction fuel as [|fuel IH]; intros j k Hj Hk Hf Hs Hn Hc;
    cbn [frontier_from]; rewrite u64_sub_ok by lia; cbn [mbind outcome_bind];
    destruct (Z.eqb_spec (node k j) (n - 1)) as [Heq|Hne].
  1, 3: exists []; split; [done|by eapply tail_end].
  - replace k with O in * by lia. apply covers_leaf in Hc. lia.
  - destruct (right_spec k j start n Hj Hk) as (k' & j' & Hr & Hk' & Hj' & Hin & Hlt & Hcov & Hsub).
    { exists (n - 1). split_and!; [lia|lia|lia|done]. }
    rewrite Hr. cbn [mbind outcome_bind].
    destruct (IH j' k') as (l & Hl & Ht); [done|lia|lia|lia|lia|apply Hcov; [lia|lia|done]|].
    rewrite Hl. cbn [mbind outcome_bind]. exists (node k' j' :: l). split; [done|].
    eapply tail_step; try done; try lia.
    + intros z Hz. apply ancestor_node; [done|]. apply Hcov; [lia|lia|].
      unfold covers in *. pose proof (covers_node k j) as Hself. unfold covers in Hself. lia.
    + intros z Hz%ancestor_node; [|done]. by apply Hsub.
Qed.

Lemma frontier_from_length fuel x start n l :
  @frontier_from E fuel x start n = Ok l -> (length l <= fuel)%nat.
Proof.
  revert x l. induction fuel as [|fuel IH]; intros x l; cbn [frontier_from]; intros H;
    apply bind_Ok in H as (e & _ & H); destruct (x =? e).
  1, 3: injection H as <-; cbn; lia.
  - done.
  - apply bind_Ok in H as (y & _ & H). apply bind_Ok in H as (t & Ht & H).
    injection H as <-. apply IH in Ht. cbn. lia.
Qed.

Lemma frontier_spec start n :
  0 <= start < n -> n <= u64_max ->
  exists k j l, @root E start n = Ok (node k j) /\ (k <= 63)%nat /\ 0 <= j /\
    start <= node k j < n /\ (forall y, start <= y < n -> covers k j y) /\
    @frontier E start n = Ok (node k j :: l) /\ tail_nodes start n (node k j) l.
Proof.
  intros Hs Hn. destruct (root_spec start n Hs Hn) as (k & j & Hr & Hk & Hj & Hin & Hcov).
  destruct (frontier_from_spec k j start n 64) as (l & Hl & Ht);
    [done|done|lia|lia|lia|apply Hcov; lia|].
  exists k, j, l. split_and!; try done; try lia.
  unfold frontier. rewrite Hr. cbn [mbind outcome_bind]. by rewrite Hl.
Qed.
End search.

(** ** Paths to the root *)

Section paths.
Context {E : Type}.
Implicit Types (start n x y j : Z) (k : nat).

(** The nearest ancestor below [n], counted from [node k j] itself. *)
Lemma climb_spec fuel k j k2 j2 n :
  0 <= j -> (k <= k2)%nat -> (k2 <= 63)%nat -> (k2 - k <= fuel)%nat ->
  covers k2 j2 (node k j) -> node k2 j2 < n ->
  exists k' j', @climb E fuel (node k j) n = Ok (node k' j') /\ (k <= k' <= k2)%nat /\ 0 <= j' /\
    node k' j' < n /\ covers k' j' (node k j) /\ covers k2 j2 (node k' j') /\
    forall i ji, (k <= i < k')%nat -> covers i ji (node k j) -> n <= node i ji.
Proof.
  revert k j. induction fuel as [|fuel IH]; intros k j Hj Hk Hk2 Hf Hc Hn; cbn [climb];
    destruct (Z.leb_spec n (node k j)) as [Hge|Hlt].
  2, 4: exists k, j; split_and!; try done; try lia; try apply covers_node; intros; lia.
  - replace k2 with k in * by lia. apply covers_node_same in Hc as ->. lia.
  - assert (k <> k2) by (intros ->; apply covers_node_same in Hc as ->; lia).
    rewrite parent_step_node by (done || lia). cbn [mbind outcome_bind].
    pose proof (covers_parent k j _ (covers_node k j)) as Hp.
    destruct (IH (S k) (j / 2)) as (k' & j' & Hcl & Hk' & Hj' & Hlt & Hc1 & Hc2 & Hbet);
      [apply Z.div_pos; lia|lia|lia|lia|apply covers_step; [lia|done]|done|].
    exists k', j'. split_and!; try done; try lia.
    + by eapply (covers_nested (S k) (j / 2)); [lia|apply covers_node| |].
    + intros i ji Hi Hci. destruct (decide (i = k)) as [->|].
      * apply covers_node_same in Hci as ->. done.
      * apply (Hbet i); [lia|]. eapply (covers_nested (S k) (j / 2)); [lia|exact Hp|done|].
        apply covers_node.
Qed.

Lemma parent_spec k j k2 j2 n :
  0 <= j -> (k2 <= 63)%nat -> covers k2 j2 (node k j) -> node k j <> node k2 j2 -> (k <= k2)%nat ->
  node k2 j2 < n ->
  exists k' j', @parent E (node k j) n = Ok (node k' j') /\ (k < k' <= k2)%nat /\ 0 <= j' /\
    node k' j' < n /\ covers k' j' (node k j) /\ covers k2 j2 (node k' j') /\
    forall i ji, (k < i < k')%nat -> covers i ji (node k j) -> n <= node i ji.
Proof.
  intros Hj Hk2 Hc Hne Hle Hn.
  assert (k <> k2) by (intros ->; by apply covers_node_same in Hc as ->).
  pose proof (covers_parent k j _ (covers_node k j)) as Hp.
  destruct (climb_spec 64 (S k) (j / 2) k2 j2 n) as (k' & j' & Hcl & Hk' & Hj' & Hlt & Hc1 & Hc2 & Hbet);
    [apply Z.div_pos; lia|lia|done|lia|apply covers_step; [lia|done]|done|].
  unfold parent. rewrite parent_step_node by (done || lia). cbn [mbind outcome_bind].
  exists k', j'. split_and!; try done; try lia.
  - by eapply (covers_nested (S k) (j / 2)); [lia|apply covers_node| |].
  - intros i ji Hi Hci. apply (Hbet i); [lia|].
    eapply (covers_nested (S k) (j / 2)); [lia|exact Hp|done|apply covers_node].
Qed.

(** The path consists of the ancestors below [n], in order of level. *)
Lemma path_from_spec fuel k j k2 j2 n :
  0 <= j -> (k <= k2)%nat -> (k2 <= 63)%nat -> (k2 - k <= fuel)%nat ->
  covers k2 j2 (node k j) -> 0 <= j2 -> node k2 j2 < n ->
  exists l, @path_from E fuel (node k j) (node k2 j2) n = Ok <$> l /\
    Sorted (fun p q => (level p < level q)%nat) l /\
    (forall p, p ∈ l <-> exists i ji, (k < i <= k2)%nat /\ p = node i ji /\ 0 <= ji /\ p < n /\
                            covers i ji (node k j)).
Proof.
  revert k j. induction fuel as [|fuel IH]; intros k j Hj Hk Hk2 Hf Hc Hj2 Hn; cbn [path_from];
    destruct (Z.eqb_spec (node k j) (node k2 j2)) as [Heq|Hne].
  1, 3: apply node_inj in Heq as [-> ->]; [|done..]; exists []; split_and!; [done|constructor|];
    intros p; split; [by intros ?%not_elem_of_nil|intros (i & ji & ? & _); lia].
  - replace k2 with k in * by lia. apply covers_node_same in Hc as ->. done.
  - destruct (parent_spec k j k2 j2 n) as (k' & j' & Hp & Hk' & Hj' & Hlt & Hc1 & Hc2 & Hbet); try done.
    rewrite Hp. destruct (IH k' j') as (l & Hl & Hs & Hmem); [done|lia|done|lia|done|done|done|].
    exists (node k' j' :: l). rewrite Hl. split_and!; [done| |].
    + constructor; [done|]. destruct l as [|q l]; constructor.
      destruct (proj1 (Hmem q)) as (i & ji & Hi & -> & Hji & _); [by left|].
      rewrite !level_node by done. lia.
    + intros p. rewrite elem_of_cons, Hmem. split.
      * intros [->|(i & ji & Hi & -> & Hji & Hpn & Hci)].
        -- exists k', j'. split_and!; done || lia.
        -- exists i, ji. split_and!; try done; try lia.
           eapply (covers_nested k' j'); [lia|apply covers_node|done|done].
      * intros (i & ji & Hi & -> & Hji & Hpn & Hci). destruct (decide (i < k')%nat) as [Hlt'|Hge].
        { pose proof (Hbet i ji ltac:(lia) Hci). lia. }
        destruct (decide (i = k')) as [->|].
        { left. by rewrite (covers_unique k' _ _ _ Hci Hc1). }
        right. exists i, ji. split_and!; try done; try lia.
        eapply (covers_nested k' j'); [lia|exact Hc1|done|apply covers_node].
Qed.
Lemma filter_above x (l : list Z) :
  filter (fun p => Is_true (@above E x p)) (Ok <$> l) = Ok <$> filter (fun p => x < p) l.
Proof.
  induction l as [|p l IH]; [done|]. rewrite fmap_cons, !filter_cons, IH. cbn [above].
  destruct (Z.ltb_spec x p); do 2 case_decide; cbn in *; naive_solver lia.
Qed.

Lemma collect_Ok {A} (l : list A) : @collect E A (Ok <$> l) = Ok l.
Proof.
  unfold collect. induction l as [|a l IH]; [done|]. cbn in *. by rewrite IH.
Qed.

(** Monitoring follows the ancestors to the right, nearest first. *)
Lemma monitoring_path_spec x start n :
  0 <= start <= x -> x < n -> n <= u64_max ->
  exists l, @monitoring_path E x start n = Ok (Ok <$> l) /\ StronglySorted Z.lt (x :: l) /\
            forall p, p ∈ l <-> x < p < n /\ ancestor p x.
Proof.
  intros Hs Hx Hn.
  destruct (@root_spec E start n ltac:(lia) Hn) as (k2 & j2 & Hr & Hk2 & Hj2 & Hin & Hcov).
  destruct (node_exists x ltac:(lia)) as (j & Hj & Ex). set (k := level x) in *.
  pose proof (Hcov x ltac:(lia)) as Hc. rewrite Ex in Hc.
  pose proof (covers_level _ _ _ _ Hj Hc) as Hk.
  destruct (path_from_spec 65 k j k2 j2 n) as (l & Hl & Hsort & Hmem); try done; try lia.
  rewrite <- Ex in *. exists (filter (fun p => x < p) l).
  unfold monitoring_path, direct_path. rewrite Hr. cbn [mbind outcome_bind]. rewrite Hl.
  rewrite filter_above. split; [done|].
  assert (forall p, p ∈ filter (fun p => x < p) l <-> x < p < n /\ ancestor p x) as Hmem'.
  { intros p. rewrite list_elem_of_filter, Hmem. split.
    - intros (Hlt & i & ji & Hi & -> & Hji & Hpn & Hci). split; [lia|]. by apply ancestor_node.
    - intros (Hlt & i & ji & Hji & -> & Hci). split; [lia|]. exists i, ji. split_and!; try done; try lia.
      + assert (i <> k).
        { intros ->. rewrite Ex in Hci. apply covers_node_same in Hci as ->. lia. }
        rewrite Ex in Hci. pose proof (covers_level _ _ _ _ Hj Hci). lia.
      + apply (covers_level k2 j2 i ji Hji). apply Hcov. lia. }
  split; [|done]. constructor.
  - apply Sorted_StronglySorted in Hsort; [|intros ???; lia].
    assert (forall p, p ∈ l -> ancestor p x) as Hanc.
    { intros p (i & ji & ? & -> & ? & ? & ?)%Hmem. by apply ancestor_node. }
    clear Hmem Hmem' Hl. induction Hsort as [|p l Hsort IH Hall]; [constructor|].
    rewrite filter_cons. case_decide as Hp; [|apply IH; intros q Hq; apply Hanc; by right].
    constructor; [apply IH; intros q Hq; apply Hanc; by right|].
    apply Forall_forall. intros q [Hxq Hq]%list_elem_of_filter. rewrite Forall_forall in Hall.
    specialize (Hall q Hq).
    destruct (Hanc p) as (i & ji & Hji & -> & Hci); [by left|].
    destruct (Hanc q) as (i' & ji' & Hji' & -> & Hci'); [by right|].
    rewrite !level_node in Hall by done. by apply (ancestors_right x).
  - apply Forall_forall. intros p Hp. apply Hmem' in Hp. lia.
Qed.
End paths.

(** ** Full monitoring *)

Section monitoring.
Context {E : Type}.
Implicit Types (start n x y : Z).

Lemma last_index_app p l1 m l2 :
  p m = true -> Forall (fun y => p y = false) l2 -> last_index p (l1 ++ m :: l2) = Some (length l1).
Proof.
  intros Hm Hl2. induction l1 as [|x l1 IH]; cbn.
  - assert (last_index p l2 = None) as ->; [|by rewrite Hm].
    induction Hl2 as [|y l2 Hy _ IH]; [done|]. cbn. by rewrite IH, Hy.
  - by rewrite IH.
Qed.

Lemma dedup_path_fresh l d :
  NoDup l -> (forall x, x ∈ l -> x ∉ d) -> dedup_path l d = (l, list_to_set l ∪ d).
Proof.
  intros Hnd. revert d. induction Hnd as [|x l Hx Hnd IH]; intros d Hd; cbn.
  - f_equal. set_solver.
  - rewrite bool_decide_false by (apply Hd; by left). rewrite IH.
    + f_equal. set_solver.
    + intros y Hy. apply not_elem_of_union. split; [set_solver|]. apply Hd. by right.
Qed.

Lemma sorted_nodup l : StronglySorted Z.lt l -> NoDup l.
Proof.
  induction 1 as [|x l _ IH Hall]; constructor; [|done].
  intros Hx. rewrite Forall_forall in Hall. specialize (Hall x Hx). lia.
Qed.

Lemma tail_nodes_facts start n x l :
  @tail_nodes E start n x l ->
  StronglySorted Z.lt (x :: l) /\ list.last (x :: l) = Some (n - 1) /\
  Forall (fun p => p < n) (x :: l) /\ (forall p z, p ∈ l -> ancestor p z -> x < z).
Proof.
  induction 1 as [x k j -> Hj Hk Hx|x k j y l -> Hj Hk Hx Hr Hy Hcov Hsub Ht (IH1 & IH2 & IH3 & IH4)].
  - split_and!; [repeat constructor|cbn; by f_equal|repeat constructor; lia|].
    by intros p z ?%not_elem_of_nil.
  - split_and!.
    + constructor; [done|]. constructor; [lia|]. inversion IH1 as [|? ? _ Hall]; subst.
      eapply Forall_impl; [done|]. cbn. lia.
    + by rewrite list.last_cons_cons.
    + constructor; [lia|done].
    + intros p z [->|Hp]%elem_of_cons Ha; [by apply Hsub|]. specialize (IH4 p z Hp Ha). lia.
Qed.

Lemma tail_nodes_node start n x l :
  @tail_nodes E start n x l -> Forall (fun p => exists k j, p = node k j /\ 0 <= j /\ (k <= 63)%nat) (x :: l).
Proof. induction 1 as [x k j|x k j y l]; (constructor; [by exists k, j|done || constructor]). Qed.

(** A node of the frontier has below it what is to the right of the nodes
    before it. *)
Lemma tail_nodes_between start n x l l1 f l2 (Q : Z -> Prop) :
  @tail_nodes E start n x l -> (forall z, start <= z < n -> ancestor x z <-> Q z) ->
  x :: l = l1 ++ f :: l2 ->
  forall z, start <= z < n -> ancestor f z <-> (forall p, p ∈ l1 -> p < z) /\ (l1 = [] -> Q z).
Proof.
  intros Ht. revert l1 Q.
  induction Ht as [x k j -> Hj Hk Hx|x k j y l Hxk Hj Hk Hx Hr Hy Hcov Hsub Ht IH];
    intros l1 Q HQ Heq z Hz; destruct l1 as [|q l1]; injection Heq as <- Heq.
  1, 3: rewrite HQ by done; split; [intros Hq; split; [by intros p ?%not_elem_of_nil|done]|naive_solver].
  - by destruct l1.
  - rewrite (IH l1 (fun z => node k j < z)); [| |by rewrite Hxk in *|done].
    2: { intros w Hw. rewrite Hxk in *. split; [by apply Hsub|]. intros ?. apply Hcov. lia. }
    rewrite <- Hxk. split.
    + intros [Hl1 Hnil]. split; [|done]. intros p [->|Hp]%elem_of_cons; [|by apply Hl1].
      destruct l1 as [|q l1]; [by apply Hnil|]. specialize (Hl1 q ltac:(by left)).
      injection Heq as -> Heq. lia.
    + intros [Hl1 _]. split; [intros p Hp; apply Hl1; by right|intros _; apply Hl1; by left].
Qed.

(** The frontier meets the path of an entry at its first node to the right. *)
Lemma tail_nodes_split start n x l entry :
  @tail_nodes E start n x l -> entry < n ->
  (entry <= x -> forall z, entry <= z < n -> ancestor x z) ->
  exists l1 m l2, x :: l = l1 ++ m :: l2 /\ Forall (fun p => p < entry) l1 /\ entry <= m /\
    (forall z, entry <= z < n -> ancestor m z) /\ forall p, p ∈ l2 -> m < p /\ ~ ancestor p entry.
Proof.
  intros Ht Hn. induction Ht as [x k j -> Hj Hk Hx|x k j y l Hxk Hj Hk Hx Hr Hy Hcov Hsub Ht IH];
    intros Hanc.
  - exists [], (node k j), []. split_and!; [done|constructor|lia|apply Hanc; lia|].
    by intros p ?%not_elem_of_nil.
  - destruct (Z.le_gt_cases entry x) as [Hle|Hgt].
    + exists [], x, (y :: l). split_and!; [done|constructor|done|by apply Hanc|].
      assert (tail_nodes start n x (y :: l)) as Hcons by (by eapply tail_step).
      apply tail_nodes_facts in Hcons as (Hsort & _ & _ & Hright).
      apply StronglySorted_inv in Hsort as [_ Hall]. rewrite Forall_forall in Hall.
      intros p Hp. split; [by apply Hall|]. intros Ha. specialize (Hright p entry Hp Ha). lia.
    + destruct IH as (l1 & m & l2 & Heq & Hl1 & Hm & Ham & Hl2).
      { intros _ z Hz. apply Hcov. lia. }
      exists (x :: l1), m, l2. rewrite Heq. split_and!; try done. by constructor.
Qed.

Lemma ancestors_left_of m p entry :
  ancestor p entry -> ancestor m entry -> ancestor m p -> entry <= m -> p <= m.
Proof.
  intros (i & ji & Hji & -> & Hi) (k & j & Hj & -> & Hk) Hmp%ancestor_node He; [|done].
  pose proof (covers_level _ _ _ _ Hji Hmp) as Hle. destruct (decide (i = k)) as [->|].
  - apply covers_node_same in Hmp as ->. done.
  - destruct (Z.eq_dec entry (node k j)) as [->|].
    + pose proof (covers_level _ _ _ _ Hj Hi). lia.
    + apply Z.lt_le_incl. apply (ancestors_right entry); done || lia.
Qed.

Lemma sorted_app l1 l2 m :
  StronglySorted Z.lt l1 -> StronglySorted Z.lt l2 ->
  (forall p, p ∈ l1 -> p <= m) -> (forall p, p ∈ l2 -> m < p) -> StronglySorted Z.lt (l1 ++ l2).
Proof.
  intros H1 H2 Hm1 Hm2. induction H1 as [|x l1 H1 IH Hall]; [done|]. cbn. constructor.
  - apply IH. intros p Hp. apply Hm1. by right.
  - apply Forall_app. split; [done|]. apply Forall_forall. intros p Hp.
    specialize (Hm1 x ltac:(by left)). specialize (Hm2 p Hp). lia.
Qed.

Lemma sorted_last l x :
  StronglySorted Z.lt l -> x ∈ l -> (forall y, y ∈ l -> y <= x) -> list.last l = Some x.
Proof.
  induction 1 as [|y l Hs IH Hall]; intros Hx Hmax; [by apply not_elem_of_nil in Hx|].
  destruct l as [|z l].
  - by apply list_elem_of_singleton in Hx as ->.
  - rewrite list.last_cons_cons. apply IH.
    + apply elem_of_cons in Hx as [->|Hx]; [|done]. apply Forall_cons in Hall as [Hyz _].
      specialize (Hmax z). assert (z <= y) by (apply Hmax; right; left). lia.
    + intros w Hw. apply Hmax. by right.
Qed.

(** The path to monitor an entry along: the ancestors of the entry to its right
    and then the frontier, in increasing order up to the last entry. *)
Lemma full_monitoring_path_ok entry start n :
  0 <= start <= entry -> entry < n -> n <= u64_max ->
  exists path f, @full_monitoring_path E entry start n = Ok path /\ @frontier E start n = Ok f /\
    StronglySorted Z.lt (entry :: path) /\ list.last (entry :: path) = Some (n - 1) /\
    forall p, p ∈ path <-> entry < p < n /\ (ancestor p entry \/ p ∈ f).
Proof.
  intros Hs He Hn.
  destruct (@monitoring_path_spec E entry start n Hs He Hn) as (l & Hl & Hsort & Hmem).
  destruct (@frontier_spec E start n ltac:(lia) Hn) as (k & j & t & _ & Hk & Hj & Hin & Hcov & Hf & Ht).
  destruct (tail_nodes_facts _ _ _ _ Ht) as (Hsf & Hlast & Hlt & _).
  destruct (tail_nodes_split start n _ t entry Ht He) as (l1 & m & l2 & Heq & Hl1 & Hm & Ham & Hl2).
  { intros _ z Hz. apply ancestor_node; [done|]. apply Hcov. lia. }
  rewrite Heq in *. rewrite Forall_app, Forall_cons in Hlt. destruct Hlt as (_ & Hmn & Hl2n).
  rewrite Forall_forall in Hl1, Hl2n.
  assert (m = entry \/ m ∈ l) as Hml.
  { destruct (decide (m = entry)) as [|Hne]; [by left|right]. apply Hmem.
    split; [lia|]. apply Ham. lia. }
  assert (forall p, p ∈ l ++ l2 <-> entry < p < n /\ (ancestor p entry \/ p ∈ l1 ++ m :: l2)) as Hpath.
  { intros p. rewrite !elem_of_app, elem_of_cons, Hmem. split.
    - intros [[? ?]|Hp]; [by auto|]. specialize (Hl2n p Hp). destruct (Hl2 p Hp). split; [lia|auto].
    - intros [Hpe [?|[Hp|[->|?]]]]; [by auto|specialize (Hl1 p Hp); cbn in Hl1; lia| |by auto].
      destruct Hml as [->|Hml]; [lia|]. left. by apply Hmem. }
  assert (StronglySorted Z.lt (entry :: l ++ l2)) as Hsorted.
  { rewrite app_comm_cons. apply (sorted_app _ _ m); [done| | |by intros p Hp; apply Hl2].
    - clear -Hsf. induction l1 as [|x l1 IH]; [by apply StronglySorted_inv in Hsf as [? _]|].
      apply IH. by apply StronglySorted_inv in Hsf as [? _].
    - intros p [->|Hp]%elem_of_cons; [done|]. apply Hmem in Hp as [Hp Hap].
      apply (ancestors_left_of m p entry); [done| |apply Ham; lia|done]. apply Ham. lia. }
  exists (l ++ l2), (l1 ++ m :: l2). split_and!; [|done|done| |done].
  - unfold full_monitoring_path. rewrite Hl. cbn [mbind outcome_bind]. rewrite collect_Ok.
    cbn [mbind outcome_bind]. apply StronglySorted_inv in Hsort as [Hsl _].
    rewrite dedup_path_fresh; [|by apply sorted_nodup|set_solver].
    rewrite Hf. cbn [mbind outcome_bind]. unfold monitoring_frontier.
    rewrite last_index_app.
    + cbn [expect mbind outcome_bind]. f_equal. f_equal.
      rewrite (cons_middle m l1 l2), app_assoc, drop_app_length'; [done|].
      rewrite length_app. cbn. lia.
    + apply bool_decide_true. set_solver.
    + apply Forall_forall. intros p Hp. apply bool_decide_false. destruct (Hl2 p Hp) as [Hmp Hna].
      intros [->%elem_of_singleton|[Hpl%elem_of_list_to_set|Hbad]%elem_of_union]%elem_of_union;
        [lia| |set_solver]. by apply Hmem in Hpl as [_ ?].
  - apply sorted_last; [done| |].
    + rewrite elem_of_cons, Hpath. destruct (decide (entry = n - 1)) as [|Hne]; [by left|right].
      split; [lia|right]. rewrite list.last_Some in Hlast. destruct Hlast as [l' ->]. set_solver.
    + intros p [->|Hp]%elem_of_cons; [lia|]. apply Hpath in Hp. lia.
Qed.

(** ** When to monitor next *)

Lemma climb_right_spec fuel i ji k2 j2 entry :
  0 <= ji -> (i <= k2)%nat -> (k2 <= 63)%nat -> (k2 - i <= fuel)%nat -> covers i ji entry ->
  covers k2 j2 entry -> entry < node k2 j2 ->
  exists k' j', @climb_right E fuel (node i ji) entry = Ok (node k' j') /\ (i <= k' <= k2)%nat /\
    0 <= j' /\ entry < node k' j' /\ covers k' j' entry /\
    forall k3 j3, (i <= k3 < k')%nat -> covers k3 j3 entry -> node k3 j3 <= entry.
Proof.
  revert i ji. induction fuel as [|fuel IH]; intros i ji Hji Hi Hk2 Hf Hc Hc2 Hlt; cbn [climb_right];
    destruct (Z.leb_spec (node i ji) entry) as [Hle|Hgt].
  2, 4: exists i, ji; split_and!; try done; try lia; intros; lia.
  - replace k2 with i in * by lia. rewrite (covers_unique _ _ _ _ Hc Hc2) in Hle. lia.
  - assert (i <> k2) by (intros ->; rewrite (covers_unique _ _ _ _ Hc Hc2) in Hle; lia).
    rewrite parent_step_node by (done || lia). cbn [mbind outcome_bind].
    destruct (IH (S i) (ji / 2)) as (k' & j' & Hcl & Hk' & Hj' & Hgt & Hc' & Hbet);
      [apply Z.div_pos; lia|lia|lia|lia|by apply covers_parent|done|done|].
    exists k', j'. split_and!; try done; try lia. intros k3 j3 Hk3 Hc3.
    destruct (decide (k3 = i)) as [->|]; [by rewrite (covers_unique _ _ _ _ Hc3 Hc)|].
    apply (Hbet k3); [lia|done].
Qed.

(** One more than the nearest ancestor to the right. *)
Lemma first_parent_spec entry :
  0 <= entry < 2 ^ 63 - 1 ->
  exists p, @first_parent_to_the_right E entry = Ok (p + 1) /\ entry < p /\ ancestor p entry /\
            forall q, ancestor q entry -> entry < q -> p <= q.
Proof.
  intros He. destruct (node_exists entry ltac:(lia)) as (j & Hj & Ee).
  assert (covers 63 0 entry) as Hc63 by (unfold covers, first, last; lia).
  assert (node 63 0 = 2 ^ 63 - 1) as H63 by done.
  pose proof (covers_node (level entry) j) as Hc. rewrite <- Ee in Hc.
  assert (level entry <= 63)%nat as Hl by (rewrite Ee in Hc63; exact (covers_level _ _ _ _ Hj Hc63)).
  destruct (climb_right_spec 65 (level entry) j 63 0 entry) as (k' & j' & Hcl & Hk' & Hj' & Hgt & Hc' & Hbet);
    try done; try lia.
  exists (node k' j'). rewrite <- Ee in Hcl. unfold first_parent_to_the_right. rewrite Hcl.
  cbn [mbind outcome_bind]. split_and!; [|done|by apply ancestor_node|].
  - apply u64_add_ok. assert (node k' j' <= last 63 0).
    { pose proof (covers_nested k' j' 63 0 entry (node k' j') ltac:(lia) Hc' Hc63 (covers_node _ _)) as Hx.
      unfold covers in Hx. lia. }
    unfold last, u64_max in *. lia.
  - intros q (i & ji & Hji & -> & Hi) Hq.
    assert (level entry <= i)%nat by (rewrite Ee in Hi; exact (covers_level _ _ _ _ Hj Hi)).
    destruct (decide (i < k')%nat) as [Hlt|Hge]; [specialize (Hbet i ji ltac:(lia) Hi); lia|].
    destruct (decide (i = k')) as [->|]; [by rewrite (covers_unique _ _ _ _ Hi Hc')|].
    apply Z.lt_le_incl, (ancestors_right entry); try done. lia.
Qed.
End monitoring.

Example frontier_11 : @frontier unit 0 11 = Ok [7; 9; 10]. Proof. vm_compute. done. Qed.
Example frontier_5_11 : @frontier unit 5 11 = Ok [7; 9; 10]. Proof. vm_compute. done. Qed.
Example path_5_11 : @full_monitoring_path unit 5 5 11 = Ok [7; 9; 10]. Proof. vm_compute. done. Qed.
Example path_8_100 : @full_monitoring_path unit 8 3 100 = Ok [9; 11; 15; 31; 63; 95; 99].
Proof. vm_compute. done. Qed.
