(* ===== verification/KtGuide.v ===== *)
(** * KtGuide: the binary search a proof must follow
    (rust/keytrans/src/guide.rs)

    [consume] asks for the entries that a search for a version of a key has to
    look up, gives each to [step], and ends with the entry that is the result.
    Section [consume] shows that it ends within its fuel whatever versions
    [step] reports, and that the entries looked up decide, for every position
    of the log, whether it is to the left or to the right of the result. *)

From stdpp Require Import sorting.
From S2P Require Import Prelude Types KtTree KtImplicit.
Open Scope string_scope.
Open Scope list_scope.
Open Scope Z_scope.

(** "Set of counters is not monotonic". *)
Inductive InvalidState := MkInvalidState.

Record VersionedId := mkVersionedId { vid_id : Z; vid_version : Z }.

Record ProofGuide := mkProofGuide {
  pg_pos : Z;
  pg_n : Z;
  pg_version : Z;
  pg_ids : list Z;
  pg_sorted : list VersionedId;
  pg_is_frontier : bool
}.

Definition set_sorted (l : list VersionedId) (g : ProofGuide) : ProofGuide :=
  mkProofGuide (pg_pos g) (pg_n g) (pg_version g) (pg_ids g) l (pg_is_frontier g).
Definition push_id (x : Z) (g : ProofGuide) : ProofGuide :=
  mkProofGuide (pg_pos g) (pg_n g) (pg_version g) (pg_ids g ++ [x]) (pg_sorted g) (pg_is_frontier g).
Definition end_frontier (version : Z) (g : ProofGuide) : ProofGuide :=
  mkProofGuide (pg_pos g) (pg_n g) version (pg_ids g) (pg_sorted g) false.

(** The constructors cannot fail, only panic; the error type is the guide's. *)
Definition ProofGuide_for_version (version pos n : Z) : outcome InvalidState ProofGuide :=
  r ← root pos n; Ok (mkProofGuide pos n version [r] [] false).
Definition ProofGuide_for_most_recent (pos n : Z) : outcome InvalidState ProofGuide :=
  f ← frontier pos n; Ok (mkProofGuide pos n 0 f [] true).
Definition ProofGuide_new (version : option Z) (pos n : Z) : outcome InvalidState ProofGuide :=
  match version with
  | None => ProofGuide_for_most_recent pos n
  | Some version => ProofGuide_for_version version pos n
  end.

(** [windows(2).all(|w| w[0].version <= w[1].version)]. *)
Fixpoint versions_monotone (l : list VersionedId) : bool :=
  match l with
  | a :: (b :: _) as l => (vid_version a <=? vid_version b) && versions_monotone l
  | _ => true
  end.

Definition find_by (p : VersionedId -> bool) (l : list VersionedId) : option VersionedId :=
  snd <$> list_find (fun v => Is_true (p v)) l.

Definition last_of {E A} (l : list A) : outcome E A :=
  match l with [] => Panic | _ => expect (l !! (length l - 1)%nat) end.

(** The last id looked up; after the frontier, the first of its ids that has
    the greatest version. *)
Definition last_looked_up : M ProofGuide InvalidState Z := fun g =>
  if pg_is_frontier g then
    match last_of (pg_sorted g) with
    | Ok v =>
        let g := end_frontier (vid_version v) g in
        (vid_id <$> expect (find_by (fun v' => vid_version v' =? pg_version g) (pg_sorted g)), g)
    | Err e => (Err e, g)
    | Panic => (Panic, g)
    end
  else (last_of (pg_ids g), g).

(** The next id to look up, left or right of the last one. *)
Definition descend (last : Z) : M ProofGuide InvalidState bool :=
  if is_leaf last then mret true
  else
    g ← get;
    found ← lift (expect (find_by (fun v => vid_id v =? last) (pg_sorted g)));
    if vid_version found <? pg_version g then
      end_ ← lift (u64_sub (pg_n g) 1);
      if last =? end_ then mret true
      else next ← lift (right last (pg_pos g) (pg_n g));
           _ ← modify (push_id next); mret false
    else
      if last =? pg_pos g then mret true
      else next ← lift (left last (pg_pos g) (pg_n g));
           _ ← modify (push_id next); mret false.

Definition poll : M ProofGuide InvalidState bool :=
  g ← get;
  if (length (pg_sorted g) <? length (pg_ids g))%nat then mret false
  else
    _ ← modify (set_sorted (sort_by_key vid_id (pg_sorted g)));
    g ← get;
    if negb (versions_monotone (pg_sorted g)) then throw MkInvalidState
    else
      last ← last_looked_up;
      descend last.

Definition next_id {E} (g : ProofGuide) : outcome E Z := expect (pg_ids g !! length (pg_sorted g)).

Definition ProofGuide_insert (id ctr : Z) (g : ProofGuide) : ProofGuide :=
  set_sorted (pg_sorted g ++ [mkVersionedId id ctr]) g.

Definition result {E} (g : ProofGuide) : outcome E (option (nat * Z)) :=
  if pg_is_frontier g then Panic
  else Ok (
    match find_by (fun v => pg_version g <=? vid_version v) (pg_sorted g) with
    | Some v =>
        if vid_version v =? pg_version g
        then (fun i => (i, vid_id v)) <$> position (fun id => id =? vid_id v) (pg_ids g)
        else None
    | None => None
    end).

(** [step] is called with the guide and with whatever state the caller's
    closure captures.  The loop polls at most once for each entry of the
    frontier and once for each level below. *)
Definition CONSUME_FUEL : nat := 192.

Section consume_loop.
Context {S E : Type} (from_InvalidState : InvalidState -> E)
  (step : Z -> M (ProofGuide * S) E unit).

Definition on_guide {A} (m : M ProofGuide InvalidState A) : M (ProofGuide * S) E A :=
  zoom fst (fun g s => (g, s.2)) (map_err_M from_InvalidState m).

Fixpoint consume_loop (fuel : nat) : M (ProofGuide * S) E (option (nat * Z)) :=
  match fuel with
  | O => lift Panic
  | Datatypes.S fuel =>
      finished ← on_guide poll;
      if finished : bool then reads (fun s => result s.1)
      else
        id ← reads (fun s => next_id s.1);
        _ ← step id;
        consume_loop fuel
  end.

Definition consume (g : ProofGuide) : M S E (option (nat * Z)) :=
  r ← with_local g (consume_loop CONSUME_FUEL); mret r.1.
End consume_loop.

(** ** What the lookups decide *)

Section decide.
Implicit Types (x y V : Z) (tr : list (Z * Z)).

Definition vids tr : list VersionedId := (fun p => mkVersionedId p.1 p.2) <$> tr.

(** The lookups [tr] show that position [y] is to the left of the first
    occurrence of version [V], or at or to the right of it. *)
Definition excludes V y (p : Z * Z) : Prop := (p.2 < V /\ y <= p.1) \/ (V <= p.2 /\ p.1 <= y).
Definition excluded V tr y : Prop := Exists (excludes V y) tr.

#[export] Instance excluded_dec V tr y : Decision (excluded V tr y).
Proof. unfold excluded, excludes. apply _. Defined.

Lemma excluded_snoc V tr p y : excluded V (tr ++ [p]) y <-> excluded V tr y \/ excludes V y p.
Proof. unfold excluded. rewrite Exists_app, Exists_cons, Exists_nil. naive_solver. Qed.

Lemma excluded_self V tr x c : (x, c) ∈ tr -> excluded V tr x.
Proof.
  intros H. apply Exists_exists. exists (x, c). split; [done|]. unfold excludes. cbn. lia.
Qed.

Lemma elem_of_vids v tr : v ∈ vids tr <-> (vid_id v, vid_version v) ∈ tr.
Proof.
  unfold vids. rewrite list_elem_of_fmap. split.
  - by intros ([x c] & -> & H).
  - intros H. exists (vid_id v, vid_version v). by destruct v.
Qed.

Lemma find_by_Some p l v : find_by p l = Some v -> v ∈ l /\ p v = true.
Proof.
  unfold find_by. rewrite fmap_Some. intros ([i v'] & (Hi & Hp & _)%list_find_Some & ->).
  split; [by eapply list_elem_of_lookup_2|]. cbn. by destruct (p v').
Qed.

Lemma find_by_exists p l v : v ∈ l -> p v = true -> exists v', find_by p l = Some v' /\ v' ∈ l /\ p v' = true.
Proof.
  intros Hv Hp. destruct (find_by p l) as [v'|] eqn:E.
  - exists v'. split; [done|]. by apply find_by_Some.
  - unfold find_by in E. apply fmap_None, list_find_None in E. rewrite Forall_forall in E.
    specialize (E v Hv). by rewrite Hp in E; destruct E.
Qed.

(** The first match is before all others. *)
Lemma find_by_first p l v v' :
  find_by p l = Some v -> v' ∈ l -> p v' = true -> increasing vid_id l -> vid_id v <= vid_id v'.
Proof.
  unfold find_by. rewrite fmap_Some. intros ([i w] & (Hi & Hp & Hlt)%list_find_Some & ->) Hv' Hp' Hinc.
  cbn. revert i Hi Hlt. induction l as [|x l IH]; intros i Hi Hlt; [done|].
  apply increasing_cons in Hinc as [Hx Hinc]. destruct i as [|i].
  - injection Hi as ->. apply elem_of_cons in Hv' as [->|Hv']; [done|by apply Hx].
  - apply elem_of_cons in Hv' as [->|Hv'].
    + specialize (Hlt O x eq_refl ltac:(lia)). by rewrite Hp' in Hlt; destruct Hlt.
    + apply (IH Hv' Hinc i Hi). intros j y Hj Hji. by apply (Hlt (S j)); [|lia].
Qed.

Lemma is_leaf_node k j : 0 <= j -> is_leaf (node k j) = bool_decide (k = O).
Proof.
  intros Hj. unfold is_leaf. change 1 with (Z.ones 1). rewrite Z.land_ones by lia.
  change (2 ^ 1) with 2. destruct k as [|k].
  - rewrite node_0. rewrite Z.mul_comm, Z.mod_mul by lia. done.
  - rewrite node_S, Z.add_comm, Z.mul_comm, Z.mod_add by lia. done.
Qed.

(** The positions of the range that are left are those below the node that the
    guide is about to look up. *)
Definition left_below (g : ProofGuide) tr (k : nat) (j : Z) : Prop :=
  0 <= j /\ (k <= 63)%nat /\ pg_pos g <= node k j < pg_n g /\
  forall y, pg_pos g <= y < pg_n g -> ~ excluded (pg_version g) tr y <-> covers k j y.

Definition decided (g : ProofGuide) tr : Prop :=
  forall y, pg_pos g <= y < pg_n g -> excluded (pg_version g) tr y.

Lemma descend_spec g tr k j c :
  pg_sorted g ≡ₚ vids tr -> 0 <= j -> (k <= 63)%nat -> 0 <= pg_pos g <= node k j -> node k j < pg_n g ->
  (node k j, c) ∈ tr -> (forall c', (node k j, c') ∈ tr -> c' = c) ->
  (forall y, pg_pos g <= y < pg_n g -> ~ excluded (pg_version g) tr y <->
     covers k j y /\ (c < pg_version g -> node k j < y) /\ (pg_version g <= c -> y < node k j)) ->
  (descend (node k j) g = (Ok true, g) /\ decided g tr) \/
  exists k' j', descend (node k j) g = (Ok false, push_id (node k' j') g) /\ (k' < k)%nat /\
                left_below g tr k' j'.
Proof.
  intros Hperm Hj Hk Hpos Hn Hin Huniq Hleft. unfold descend. rewrite is_leaf_node by done.
  case_bool_decide as Hk0.
  { left. split; [done|]. intros y Hy. destruct (decide (excluded (pg_version g) tr y)) as [|Hne]; [done|].
    apply Hleft in Hne as (Hc & H1 & H2); [|done]. subst k. apply covers_leaf in Hc. lia. }
  destruct k as [|k]; [done|]. M_step.
  destruct (find_by_exists (fun v => vid_id v =? node (S k) j) (pg_sorted g)
              (mkVersionedId (node (S k) j) c)) as (v & Hf & Hv & Heq).
  { rewrite Hperm. by apply elem_of_vids. }
  { cbn. by apply Z.eqb_eq. }
  M_step. rewrite Hf. rewrite Hperm in Hv. apply elem_of_vids in Hv. apply Z.eqb_eq in Heq.
  rewrite Heq in Hv. apply Huniq in Hv. rewrite Hv. clear Hv Hf Heq v.
  pose proof (covers_node (S k) j) as Hself.
  destruct (Z.ltb_spec c (pg_version g)) as [Hlt|Hge].
  - M_step. rewrite u64_sub_ok by lia. destruct (Z.eqb_spec (node (S k) j) (pg_n g - 1)) as [Heq|Hne].
    { left. split; [done|]. intros y Hy.
      destruct (decide (excluded (pg_version g) tr y)) as [|He]; [done|].
      apply Hleft in He as (_ & H1 & _); [|done]. specialize (H1 Hlt). lia. }
    right. destruct (@right_spec InvalidState (S k) j (pg_pos g) (pg_n g) Hj Hk)
      as (k' & j' & Hr & Hk' & Hj' & Hr' & Hgt & Hcov & Hsub).
    { exists (node (S k) j + 1). split_and!; [lia|lia|lia|]. unfold covers in *.
      rewrite (node_last (S k)) in *. rewrite pow2_S in *. pose proof (pow2_pos k). lia. }
    exists k', j'. M_step. rewrite Hr. unfold left_below. split_and!; try done; try lia.
    intros y Hy. rewrite Hleft by done. split.
    + intros (Hc & H1 & _). by apply Hcov, Hc; auto.
    + intros Hc. apply Hsub in Hc as [Hc Hy']. split_and!; [done|auto|lia].
  - destruct (Z.eqb_spec (node (S k) j) (pg_pos g)) as [Heq|Hne].
    { left. split; [done|]. intros y Hy.
      destruct (decide (excluded (pg_version g) tr y)) as [|He]; [done|].
      apply Hleft in He as (_ & _ & H1); [|done]. specialize (H1 Hge). lia. }
    right. destruct (@left_spec InvalidState (S k) j (pg_pos g) (pg_n g) Hj Hk)
      as (k' & j' & Hr & Hk' & Hj' & Hr' & Hgt & Hcov & Hsub).
    { exists (node (S k) j - 1). split_and!; [lia|lia|lia|]. unfold covers in *.
      rewrite (node_first (S k)) in *. rewrite pow2_S in *. pose proof (pow2_pos k). lia. }
    exists k', j'. M_step. rewrite Hr. unfold left_below. split_and!; try done; try lia.
    intros y Hy. rewrite Hleft by done. split.
    + intros (Hc & _ & H1). apply Hcov; auto.
    + intros Hc. apply Hsub in Hc as [Hc Hy']. split_and!; [done|lia|auto].
Qed.
End decide.

(** ** The loop *)

Section poll.
Implicit Types (x y V : Z) (tr : list (Z * Z)) (mode : option Z).

(** The version searched for: the one asked for, or the one at the last entry. *)
Definition target_version mode (g : ProofGuide) tr : Prop :=
  match mode with
  | Some v => pg_version g = v
  | None => (pg_n g - 1, pg_version g) ∈ tr
  end.

(** [x] is to be looked up next, and at most [m] lookups are left. *)
Inductive pending mode (g : ProofGuide) tr (m : nat) x : Prop :=
| pending_below k j :
    pg_is_frontier g = false -> pg_sorted g ≡ₚ vids tr -> pg_ids g = tr.*1 ++ [x] ->
    x = node k j -> left_below g tr k j -> (k < m)%nat -> target_version mode g tr ->
    pending mode g tr m x
| pending_frontier F :
    pg_is_frontier g = true -> mode = None -> @frontier InvalidState (pg_pos g) (pg_n g) = Ok F ->
    pg_sorted g ≡ₚ vids tr -> pg_ids g = F -> tr.*1 = take (length tr) F ->
    F !! length tr = Some x -> (length F - length tr + 64 <= m)%nat -> pending mode g tr m x.

Record finished mode (g : ProofGuide) tr : Prop := {
  fin_frontier : pg_is_frontier g = false;
  fin_ids : pg_ids g = tr.*1;
  fin_sorted : pg_sorted g ≡ₚ vids tr;
  fin_increasing : increasing vid_id (pg_sorted g);
  fin_monotone : versions_monotone (pg_sorted g) = true;
  fin_decided : decided g tr;
  fin_target : target_version mode g tr
}.

Definition monotone_trace tr : Prop :=
  forall x c x' c', (x, c) ∈ tr -> (x', c') ∈ tr -> x < x' -> c <= c'.

(** The outcome of a poll. *)
Definition polls mode (g : ProofGuide) tr (m : nat) : Prop :=
  exists r g', poll g = (r, g') /\ pg_pos g' = pg_pos g /\ pg_n g' = pg_n g /\
    match r with
    | Ok true => finished mode g' tr
    | Ok false => exists x, pending mode g' tr m x
    | Err MkInvalidState => NoDup tr.*1 -> ~ monotone_trace tr
    | Panic => False
    end.

Lemma last_of_snoc {A} (l : list A) (x : A) : @last_of InvalidState A (l ++ [x]) = Ok x.
Proof.
  unfold last_of. destruct (l ++ [x]) as [|a l0] eqn:E; [by destruct l|]. rewrite <- E.
  rewrite length_app, lookup_app_r; cbn; [|lia]. by replace (_ - _)%nat with O by lia.
Qed.

Lemma pending_next mode g tr m x : pending mode g tr m x -> @next_id InvalidState g = Ok x.
Proof.
  intros [k j Hf Hs Hids _ _ _ _|F Hf _ _ Hs <- Htr Hx _]; unfold next_id;
    rewrite Hs; unfold vids; rewrite length_fmap.
  - rewrite Hids, lookup_app_r by (by rewrite length_fmap). by rewrite length_fmap, Nat.sub_diag.
  - by rewrite Hx.
Qed.

Lemma pending_polls mode g tr m x : pending mode g tr m x -> polls mode g tr m.
Proof.
  intros Hp. exists (Ok false), g. split_and!; [|done|done|by exists x].
  unfold poll. M_step.
  rewrite (proj2 (Nat.ltb_lt (length (pg_sorted g)) (length (pg_ids g)))); [done|].
  destruct Hp as [k j Hf Hs Hids _ _ _ _|F Hf _ _ Hs <- Htr Hx _]; rewrite Hs; unfold vids;
    rewrite length_fmap.
  - rewrite Hids, length_app, length_fmap. cbn. lia.
  - by apply lookup_lt_is_Some_1; eauto.
Qed.

Lemma versions_monotone_le l v v' :
  increasing vid_id l -> versions_monotone l = true -> v ∈ l -> v' ∈ l -> vid_id v < vid_id v' ->
  vid_version v <= vid_version v'.
Proof.
  intros Hinc Hm Hv Hv' Hlt.
  assert (increasing vid_version l) as Hver.
  { clear -Hm. induction l as [|x l IH]; [done|]. destruct l as [|y l]; [done|].
    cbn [versions_monotone] in Hm. apply andb_true_iff in Hm as [H1%Z.leb_le H2].
    split; [done|]. by apply IH. }
  induction l as [|x l IH]; [by apply not_elem_of_nil in Hv|].
  assert (versions_monotone l = true) as Hm'.
  { destruct l; [done|]. cbn [versions_monotone] in Hm. by apply andb_true_iff in Hm as [_ ?]. }
  apply increasing_cons in Hinc as [Hx Hinc], Hver as [Hxv Hver].
  apply elem_of_cons in Hv as [->|Hv], Hv' as [->|Hv']; [lia|by apply Hxv| |by apply IH].
  specialize (Hx v Hv). lia.
Qed.

(** After the sort, both the id and the versions grow along the lookups. *)
Lemma trace_monotone l tr x c x' c' :
  l ≡ₚ vids tr -> increasing vid_id l -> versions_monotone l = true ->
  (x, c) ∈ tr -> (x', c') ∈ tr -> x < x' -> c <= c'.
Proof.
  intros Hp Hinc Hm Hx Hx' Hlt.
  apply (versions_monotone_le l (mkVersionedId x c) (mkVersionedId x' c')); try done.
  all: rewrite Hp; by apply elem_of_vids.
Qed.

Lemma monotone_check l tr :
  l ≡ₚ vids tr -> increasing vid_id l -> NoDup tr.*1 -> monotone_trace tr ->
  versions_monotone l = true.
Proof.
  intros Hp Hinc Hnd Hmono.
  assert (NoDup (vid_id <$> l)) as Hnd'.
  { rewrite Hp. unfold vids. rewrite <- list_fmap_compose. done. }
  assert (forall v v', v ∈ l -> v' ∈ l -> vid_id v < vid_id v' -> vid_version v <= vid_version v') as Hv.
  { intros v v'. rewrite Hp. intros Hv%elem_of_vids Hv'%elem_of_vids. by apply Hmono. }
  clear Hp. induction l as [|a l IH]; [done|]. destruct l as [|b l]; [done|].
  apply increasing_cons in Hinc as [Ha Hinc]. rewrite fmap_cons in Hnd'.
  apply NoDup_cons in Hnd' as [Hna Hnd']. cbn [versions_monotone]. apply andb_true_iff. split.
  - apply Z.leb_le, Hv; [by left|right; by left|]. specialize (Ha b ltac:(by left)).
    assert (vid_id a <> vid_id b); [|lia]. intros Heq. apply Hna. rewrite Heq. by left.
  - apply IH; [done|done|]. intros v v' ? ?. apply Hv; by right.
Qed.

(** The common end of a poll, given the last id looked up. *)
Lemma descend_polls mode g tr k j c m :
  pg_is_frontier g = false -> pg_ids g = tr.*1 -> pg_sorted g ≡ₚ vids tr ->
  increasing vid_id (pg_sorted g) -> versions_monotone (pg_sorted g) = true ->
  target_version mode g tr -> (k <= m)%nat ->
  0 <= j -> (k <= 63)%nat -> 0 <= pg_pos g <= node k j -> node k j < pg_n g ->
  (node k j, c) ∈ tr -> (forall c', (node k j, c') ∈ tr -> c' = c) ->
  (forall y, pg_pos g <= y < pg_n g -> ~ excluded (pg_version g) tr y <->
     covers k j y /\ (c < pg_version g -> node k j < y) /\ (pg_version g <= c -> y < node k j)) ->
  exists r g', descend (node k j) g = (r, g') /\ pg_pos g' = pg_pos g /\ pg_n g' = pg_n g /\
    match r with
    | Ok true => finished mode g' tr
    | Ok false => exists x, pending mode g' tr m x
    | Err MkInvalidState => NoDup tr.*1 -> ~ monotone_trace tr
    | Panic => False
    end.
Proof.
  intros Hf Hids Hperm Hinc Hmono Htgt Hkm Hj Hk Hpos Hn Hin Huniq Hleft.
  destruct (descend_spec g tr k j c) as [(Hd & Hdec)|(k' & j' & Hd & Hk' & Hb)]; try done.
  - by exists (Ok true), g.
  - exists (Ok false), (push_id (node k' j') g). split_and!; [done|done|done|].
    exists (node k' j'). eapply pending_below; try done; [cbn; by rewrite Hids|lia].
Qed.

Lemma step_below_polls mode g tr m x c k j :
  pg_is_frontier g = false -> pg_sorted g ≡ₚ vids tr -> pg_ids g = tr.*1 ++ [x] -> 0 <= pg_pos g ->
  x = node k j -> left_below g tr k j -> (k <= m)%nat -> target_version mode g tr ->
  polls mode (ProofGuide_insert x c g) (tr ++ [(x, c)]) m.
Proof.
  intros Hf Hs Hids Hpos -> (Hj & Hk & Hr & Hbelow) Hkm Htgt. unfold polls, poll. M_step.
  cbn [ProofGuide_insert set_sorted pg_sorted pg_ids].
  rewrite (proj2 (Nat.ltb_ge _ _)).
  2: { rewrite Hids, !length_app, length_fmap, Hs. unfold vids. rewrite length_fmap. cbn. lia. }
  M_step. M_step. cbn [set_sorted pg_sorted].
  set (l := sort_by_key vid_id _). set (g1 := set_sorted l (ProofGuide_insert _ c g)).
  assert (l ≡ₚ vids (tr ++ [(node k j, c)])) as Hperm.
  { unfold l, vids. rewrite sort_by_key_perm, Hs, fmap_app. done. }
  destruct (versions_monotone l) eqn:Hmono; cbn [negb].
  2: { exists (Err MkInvalidState), g1. split_and!; [done|done|done|]. intros Hnd Hm.
       by rewrite (monotone_check l _ Hperm (sort_by_key_increasing _ _) Hnd Hm) in Hmono. }
  assert (last_looked_up g1 = (Ok (node k j), g1)) as Hlast.
  { unfold last_looked_up. change (pg_is_frontier g1) with (pg_is_frontier g).
    change (pg_ids g1) with (pg_ids g). rewrite Hf, Hids. by rewrite last_of_snoc. }
  rewrite M_bind_eq, Hlast.
  assert (~ excluded (pg_version g) tr (node k j)) as Hnx by (apply Hbelow; [done|apply covers_node]).
  apply (descend_polls mode g1 _ k j c); try done; try lia.
  - cbn. by rewrite Hids, fmap_app.
  - apply sort_by_key_increasing.
  - destruct mode as [v|]; [done|]. cbn in *. set_solver.
  - cbn. lia.
  - cbn. lia.
  - set_solver.
  - intros c' [Hc'|Hc']%elem_of_app; [|set_solver]. exfalso. by eapply Hnx, excluded_self.
  - intros y Hy. rewrite excluded_snoc. specialize (Hbelow y Hy). unfold excludes. cbn. split.
    + intros Hne. assert (~ excluded (pg_version g) tr y) as Hne' by tauto.
      apply Hbelow in Hne'. split; [done|]. split; intros; apply Z.nle_gt; intros ?; apply Hne; right; lia.
    + intros (Hc & H1 & H2). apply Hbelow in Hc. intros [?|[[? ?]|[? ?]]]; [done|lia|lia].
Qed.

(** What the frontier's versions leave open: with [f] the first node of the
    frontier that has the greatest version, the positions between the node
    before [f] and [f] itself. *)
Lemma frontier_leaves F tr V l1 f l2 y :
  tr.*1 = F -> F = l1 ++ f :: l2 -> StronglySorted Z.lt F ->
  (forall p c, (p, c) ∈ tr -> p ∈ l1 -> c < V) -> (forall p c, (p, c) ∈ tr -> p ∉ l1 -> V <= c) ->
  ~ excluded V tr y <-> (forall p, p ∈ l1 -> p < y) /\ y < f.
Proof.
  intros Htr HF Hsort Hlow Hhigh. unfold excluded. rewrite Exists_exists. unfold excludes.
  assert (forall p, p ∈ F -> exists c, (p, c) ∈ tr) as Hver.
  { intros p. rewrite <- Htr, list_elem_of_fmap. intros ([q c] & -> & H). by exists c. }
  assert (forall p c, (p, c) ∈ tr -> p ∈ F) as HinF.
  { intros p c H. rewrite <- Htr. apply list_elem_of_fmap. by exists (p, c). }
  assert (f ∉ l1 /\ forall p, p ∈ F -> p ∉ l1 -> f <= p) as [Hf Hge].
  { clear -HF Hsort. subst F. induction l1 as [|q l1 IH].
    - split; [by apply not_elem_of_nil|]. intros p [->|Hp]%elem_of_cons _; [done|].
      apply StronglySorted_inv in Hsort as [_ Hall]. rewrite Forall_forall in Hall.
      specialize (Hall p Hp). lia.
    - apply StronglySorted_inv in Hsort as [Hsort Hall]. destruct (IH Hsort) as [Hf Hge].
      rewrite Forall_forall in Hall. specialize (Hall f ltac:(apply elem_of_app; right; by left)).
      split; [intros [->|]%elem_of_cons; [lia|done]|]. intros p [->|Hp]%elem_of_cons Hn; [set_solver|].
      apply Hge; [done|set_solver]. }
  assert (forall p, p ∈ l1 -> p ∈ F) as Hl1F by (intros p Hp; rewrite HF; apply elem_of_app; by left).
  assert (f ∈ F) as HfF by (rewrite HF; apply elem_of_app; right; by left). split.
  - intros Hne. split.
    + intros p Hp. destruct (Hver p (Hl1F p Hp)) as [c Hc]. apply Z.nle_gt. intros Hle.
      apply Hne. exists (p, c). split; [done|]. left. split; [by eapply Hlow|done].
    + destruct (Hver f HfF) as [c Hc]. apply Z.nle_gt. intros Hle. apply Hne. exists (f, c).
      split; [done|]. right. split; [by eapply Hhigh|done].
  - intros [H1 H2] ([p c] & Hp & [[Hc Hle]|[Hc Hle]]); cbn in *.
    + assert (p ∈ l1) as Hpl.
      { destruct (decide (p ∈ l1)) as [|Hn]; [done|]. specialize (Hhigh p c Hp Hn). lia. }
      specialize (H1 p Hpl). lia.
    + assert (p ∉ l1) as Hpl by (intros Hpl; specialize (Hlow p c Hp Hpl); lia).
      specialize (Hge p (HinF p c Hp) Hpl). lia.
Qed.

Lemma trace_functional tr x c c' : NoDup tr.*1 -> (x, c) ∈ tr -> (x, c') ∈ tr -> c' = c.
Proof.
  intros Hnd. induction tr as [|[y d] tr IH]; [by intros ?%not_elem_of_nil|].
  cbn in Hnd. apply NoDup_cons in Hnd as [Hy Hnd].
  assert (forall e, (y, e) ∈ tr -> False) as Hno.
  { intros e He. apply Hy. apply list_elem_of_fmap. by exists (y, e). }
  intros H1 H2. apply elem_of_cons in H1 as [H1|H1], H2 as [H2|H2].
  - congruence.
  - exfalso. injection H1 as -> ->. by eapply Hno.
  - exfalso. injection H2 as -> ->. by eapply Hno.
  - by apply IH.
Qed.

Lemma increasing_last l v w :
  increasing vid_id l -> list.last l = Some v -> w ∈ l -> vid_id w <= vid_id v.
Proof.
  intros Hinc Hl Hw. induction l as [|x l IH]; [done|]. apply increasing_cons in Hinc as [Hx Hinc].
  destruct l as [|y l].
  - apply list_elem_of_singleton in Hw as ->. injection Hl as ->. done.
  - rewrite list.last_cons_cons in Hl. apply elem_of_cons in Hw as [->|Hw]; [|by apply IH].
    apply Hx. apply list.last_Some_elem_of in Hl. done.
Qed.

Lemma last_of_Some {A} (l : list A) :
  l <> [] -> exists a : A, @last_of InvalidState A l = Ok a /\ list.last l = Some a.
Proof.
  intros Hl. destruct (list.last l) as [a|] eqn:E.
  - exists a. split; [|done]. apply list.last_Some in E as [l' ->]. apply last_of_snoc.
  - by apply list.last_None in E.
Qed.

(** The lookups of the whole frontier: the last one has the greatest version,
    and the first with that version starts the search below. *)
Lemma frontier_versions l tr F :
  l ≡ₚ vids tr -> increasing vid_id l -> versions_monotone l = true ->
  tr.*1 = F -> StronglySorted Z.lt F -> F <> [] ->
  exists v f, @last_of InvalidState _ l = Ok v /\ list.last F = Some (vid_id v) /\
    (vid_id v, vid_version v) ∈ tr /\
    find_by (fun w => vid_version w =? vid_version v) l = Some f /\ vid_version f = vid_version v /\
    exists l1 l2, F = l1 ++ vid_id f :: l2 /\
      (forall p c, (p, c) ∈ tr -> p ∈ l1 -> c < vid_version v) /\
      (forall p c, (p, c) ∈ tr -> p ∉ l1 -> c = vid_version v).
Proof.
  intros Hperm Hinc Hmono Htr Hsort HF.
  pose proof (sorted_nodup F Hsort) as Hnd. rewrite <- Htr in Hnd.
  assert (l <> []) as Hl.
  { intros ->. apply Permutation_nil_l in Hperm. destruct tr; [|done]. by subst. }
  destruct (last_of_Some l Hl) as (v & Hv & Hlast).
  assert (forall w, w ∈ l <-> (vid_id w, vid_version w) ∈ tr) as Hin.
  { intros w. rewrite Hperm. apply elem_of_vids. }
  assert ((vid_id v, vid_version v) ∈ tr) as Hvin by (apply Hin; by apply list.last_Some_elem_of).
  assert (forall p c, (p, c) ∈ tr -> p <= vid_id v /\ c <= vid_version v) as Hmax.
  { intros p c Hpc. assert (p <= vid_id v) as Hle.
    { apply (increasing_last l v (mkVersionedId p c)); try done. by apply Hin. }
    split; [done|]. destruct (decide (p = vid_id v)) as [->|].
    - by rewrite (trace_functional tr _ _ _ Hnd Hvin Hpc).
    - eapply (trace_monotone l tr p c); try done. lia. }
  destruct (find_by_exists (fun w => vid_version w =? vid_version v) l v) as (f & Hf & Hfl & Hfv);
    [by apply Hin|apply Z.eqb_refl|]. apply Z.eqb_eq in Hfv.
  assert (vid_id f ∈ F) as HfF.
  { rewrite <- Htr. apply list_elem_of_fmap. exists (vid_id f, vid_version f). split; [done|by apply Hin]. }
  apply list_elem_of_split in HfF as (l1 & l2 & HF').
  exists v, f. split; [done|]. split.
  { apply sorted_last; [done| |].
    - rewrite <- Htr. apply list_elem_of_fmap. by exists (vid_id v, vid_version v).
    - intros p. rewrite <- Htr, list_elem_of_fmap. intros ([q c] & -> & Hq). by apply (Hmax q c). }
  split; [done|]. split; [done|]. split; [done|]. exists l1, l2. split; [done|].
  assert (forall p, p ∈ l1 -> p < vid_id f) as Hl1.
  { intros p Hp. rewrite HF' in Hsort. clear -Hsort Hp. induction l1 as [|q l1 IH]; [by apply not_elem_of_nil in Hp|].
    apply StronglySorted_inv in Hsort as [Hsort Hall]. apply elem_of_cons in Hp as [->|Hp]; [|by apply IH].
    rewrite Forall_forall in Hall. apply Hall, elem_of_app. right. by left. }
  split.
  - intros p c Hpc Hp. destruct (Hmax p c Hpc) as [_ Hle]. destruct (decide (c = vid_version v)) as [->|]; [|lia].
    specialize (Hl1 p Hp).
    pose proof (find_by_first _ l f (mkVersionedId p (vid_version v)) Hf) as Hfirst. cbn in Hfirst.
    rewrite Z.eqb_refl in Hfirst. specialize (Hfirst ltac:(by apply Hin) eq_refl Hinc). lia.
  - intros p c Hpc Hp. destruct (Hmax p c Hpc) as [_ Hle].
    assert (vid_version f <= c); [|lia]. apply Hin in Hfl. destruct (decide (p = vid_id f)) as [->|].
    { by rewrite (trace_functional tr _ _ _ Hnd Hfl Hpc). }
    eapply (trace_monotone l tr (vid_id f) _ p c); try done.
    assert (p ∈ F) as HpF by (rewrite <- Htr; apply list_elem_of_fmap; by exists (p, c)).
    rewrite HF' in HpF, Hsort. apply elem_of_app in HpF as [?|[->|Hp2]%elem_of_cons]; [done|done|].
    clear -Hsort Hp2. induction l1 as [|q l1 IH].
    + apply StronglySorted_inv in Hsort as [_ Hall]. rewrite Forall_forall in Hall. by apply Hall.
    + apply StronglySorted_inv in Hsort as [Hsort _]. by apply IH.
Qed.

Lemma frontier_facts pos n F :
  0 <= pos < n -> n <= u64_max -> @frontier InvalidState pos n = Ok F ->
  StronglySorted Z.lt F /\ F <> [] /\ list.last F = Some (n - 1) /\ (length F <= 65)%nat /\
  (forall x, x ∈ F -> pos <= x < n) /\
  forall l1 f l2, F = l1 ++ f :: l2 -> exists k j, f = node k j /\ 0 <= j /\ (k <= 63)%nat /\
    forall y, pos <= y < n -> covers k j y <-> (forall p, p ∈ l1 -> p < y).
Proof.
  intros Hpos Hn HF.
  destruct (@frontier_spec InvalidState pos n Hpos Hn) as (k & j & l & Hr & Hk & Hj & Hin & Hcov & HF' & Ht).
  rewrite HF' in HF. injection HF as <-.
  destruct (tail_nodes_facts _ _ _ _ Ht) as (Hsort & Hlast & Hall & _).
  split; [done|]. split; [done|]. split; [done|]. split; [|split].
  - unfold frontier in HF'. rewrite Hr in HF'. cbn [mbind outcome_bind] in HF'.
    apply bind_Ok in HF' as (l' & Hl' & [= <-]). apply frontier_from_length in Hl'. cbn. lia.
  - intros x Hx. rewrite Forall_forall in Hall. split; [|by apply Hall].
    apply StronglySorted_inv in Hsort as [_ Hgt]. rewrite Forall_forall in Hgt.
    apply elem_of_cons in Hx as [->|Hx]; [lia|]. specialize (Hgt x Hx). lia.
  - intros l1 f l2 Heq.
    pose proof (tail_nodes_node _ _ _ _ Ht) as Hnodes. rewrite Forall_forall in Hnodes.
    destruct (Hnodes f) as (k' & j' & -> & Hj' & Hk').
    { rewrite Heq. apply elem_of_app. right. by left. }
    exists k', j'. split_and!; try done. intros y Hy.
    rewrite <- (ancestor_node k' j' y Hj').
    rewrite (tail_nodes_between pos n _ _ l1 (node k' j') l2 (fun _ => True) Ht); [naive_solver| |done|done].
    intros z Hz. split; [done|]. intros _. apply ancestor_node; [done|by apply Hcov].
Qed.

Lemma frontier_end_polls g tr F :
  pg_is_frontier g = true -> 0 <= pg_pos g < pg_n g -> pg_n g <= u64_max ->
  @frontier InvalidState (pg_pos g) (pg_n g) = Ok F -> pg_sorted g ≡ₚ vids tr -> pg_ids g = F ->
  tr.*1 = F -> polls None g tr 64.
Proof.
  intros Hf Hpos Hn HF Hs Hids Htr.
  destruct (frontier_facts _ _ _ Hpos Hn HF) as (Hsort & Hne & HlastF & _ & Hrange & Hsplit).
  unfold polls, poll. M_step. rewrite (proj2 (Nat.ltb_ge _ _)).
  2: { rewrite Hids, Hs, <- Htr. unfold vids. rewrite !length_fmap. done. }
  M_step. M_step. cbn [set_sorted pg_sorted].
  set (l := sort_by_key vid_id _). set (g1 := set_sorted l g).
  assert (l ≡ₚ vids tr) as Hperm by (unfold l; by rewrite sort_by_key_perm).
  pose proof (sort_by_key_increasing vid_id (pg_sorted g)) as Hinc. fold l in Hinc.
  destruct (versions_monotone l) eqn:Hmono; cbn [negb].
  2: { exists (Err MkInvalidState), g1. split_and!; [done|done|done|]. intros Hnd Hm.
       by rewrite (monotone_check l _ Hperm Hinc Hnd Hm) in Hmono. }
  destruct (frontier_versions l tr F Hperm Hinc Hmono Htr Hsort Hne)
    as (v & f & Hv & Hvl & Hvin & Hfind & Hfv & l1 & l2 & HFeq & Hlow & Hhigh).
  destruct (Hsplit l1 (vid_id f) l2 HFeq) as (k & j & Hnode & Hj & Hk & Hcov).
  set (g2 := end_frontier (vid_version v) g1).
  assert (last_looked_up g1 = (Ok (node k j), g2)) as Hlast.
  { unfold last_looked_up. change (pg_is_frontier g1) with (pg_is_frontier g).
    change (pg_sorted g1) with l. rewrite Hf, Hv. cbv zeta.
    change (pg_sorted (end_frontier _ g1)) with l.
    change (pg_version (end_frontier _ g1)) with (vid_version v).
    rewrite Hfind. cbn. by rewrite Hnode. }
  rewrite M_bind_eq, Hlast.
  assert (pg_pos g <= node k j < pg_n g) as Hfr.
  { rewrite <- Hnode. apply Hrange. rewrite HFeq. apply elem_of_app. right. by left. }
  pose proof (sorted_nodup F Hsort) as Hnd. rewrite <- Htr in Hnd.
  assert ((node k j, vid_version v) ∈ tr) as Hfin.
  { rewrite <- Hnode, <- Hfv. apply find_by_Some in Hfind as [Hfl _]. rewrite Hperm in Hfl.
    by apply elem_of_vids. }
  apply (descend_polls None g2 tr k j (vid_version v)); try done; try (cbn; lia).
  - cbn. by rewrite Hids.
  - cbn. rewrite HlastF in Hvl. by injection Hvl as ->.
  - intros c' Hc'. by eapply trace_functional.
  - intros y Hy. cbn in *. rewrite (frontier_leaves F tr _ l1 (vid_id f) l2 y Htr HFeq Hsort Hlow).
    + rewrite Hcov, Hnode by done. intuition lia.
    + intros p c Hp Hn'. by rewrite (Hhigh p c Hp Hn').
Qed.

(** After the step for the pending id, whatever version it reports. *)
Lemma step_polls mode g tr m x c :
  0 <= pg_pos g < pg_n g -> pg_n g <= u64_max -> pending mode g tr (S m) x ->
  polls mode (ProofGuide_insert x c g) (tr ++ [(x, c)]) m.
Proof.
  intros Hpos Hn [k j Hf Hs Hids -> Hb Hk Htgt|F Hf -> HF Hs Hids Htr Hx Hm].
  { eapply step_below_polls; try done; lia. }
  assert ((tr ++ [(x, c)]).*1 = take (S (length tr)) F) as Htr'.
  { rewrite fmap_app, Htr. by rewrite (take_S_r _ _ x). }
  assert (pg_sorted (ProofGuide_insert x c g) ≡ₚ vids (tr ++ [(x, c)])) as Hs'.
  { cbn. rewrite Hs. unfold vids. by rewrite fmap_app. }
  pose proof (lookup_lt_Some _ _ _ Hx) as Hlt.
  destruct (decide (S (length tr) < length F)%nat) as [Hlt'|Hge].
  - destruct (lookup_lt_is_Some_2 F (S (length tr)) Hlt') as [x' Hx'].
    apply (pending_polls _ _ _ _ x'). eapply pending_frontier; try done.
    + rewrite length_app. cbn. by rewrite Nat.add_1_r.
    + rewrite length_app. cbn. by rewrite Nat.add_1_r.
    + rewrite length_app. cbn. lia.
  - assert (polls None (ProofGuide_insert x c g) (tr ++ [(x, c)]) 64) as Hpolls.
    { apply (frontier_end_polls _ _ F); try done. rewrite Htr'. apply take_ge. lia. }
    destruct Hpolls as (r & g' & Hp & Hp1 & Hp2 & Hr). exists r, g'. split_and!; try done.
    destruct r as [[]|[]|]; try done. destruct Hr as (x' & Hr). exists x'.
    destruct Hr as [k j ? ? ? ? ? ?|F' ? ? ? ? ? Htk HF' ?].
    + eapply pending_below; try done. lia.
    + exfalso. assert (F' = F) as ->.
      { rewrite Hp1, Hp2 in *. cbn in *. congruence. }
      rewrite Htr', length_app in Htk. cbn in Htk. apply lookup_lt_Some in HF'.
      rewrite length_app in HF'. cbn in HF'. lia.
Qed.
End poll.

(** ** The search as a whole *)

Section consume.
Context {S E : Type} (from_InvalidState : InvalidState -> E)
  (step : Z -> M (ProofGuide * S) E unit).
Context (pos n : Z) (mode : option Z) (J : list (Z * Z) -> S -> Prop).
Hypothesis Hpos : 0 <= pos < n.
Hypothesis Hn : n <= u64_max.
(** A step does not panic, and when it succeeds it has inserted one version
    for the id it was asked for.  [J] relates the lookups so far to the
    caller's state. *)
Hypothesis Hstep : forall x g s r g' s' tr,
  pos <= x < n -> J tr s -> x ∉ tr.*1 -> step x (g, s) = (r, (g', s')) ->
  r <> Panic /\ (r = Ok tt -> exists c, g' = ProofGuide_insert x c g /\ J (tr ++ [(x, c)]) s').

Lemma pending_fresh g tr m x :
  pg_pos g = pos -> pg_n g = n -> pending mode g tr m x -> pos <= x < n /\ x ∉ tr.*1.
Proof.
  intros Hp Hn' [k j Hf Hs Hids -> (Hj & Hk & Hr & Hb) Hkm Ht|F Hf _ HF Hs Hids Htr Hx Hm].
  - rewrite Hp, Hn' in *. split; [done|]. intros ([y c] & Hy & Hin)%list_elem_of_fmap. cbn in Hy.
    apply (Hb (node k j)); [done|apply covers_node|]. rewrite Hy. by eapply excluded_self.
  - rewrite Hp, Hn' in HF. destruct (frontier_facts _ _ _ Hpos Hn HF) as (Hsort & _ & _ & _ & Hr & _).
    split; [apply Hr; by eapply list_elem_of_lookup_2|]. rewrite Htr. intros Hin.
    apply list_elem_of_lookup in Hin as [i Hi]. apply lookup_take_Some in Hi as [Hi Hlt].
    pose proof (NoDup_lookup F i (length tr) x (sorted_nodup F Hsort) Hi Hx). lia.
Qed.

Lemma consume_loop_spec fuel g s tr m r g' s' :
  pg_pos g = pos -> pg_n g = n -> polls mode g tr m -> J tr s -> (m < fuel)%nat ->
  consume_loop from_InvalidState step fuel (g, s) = (r, (g', s')) ->
  match r with
  | Ok res => pg_pos g' = pos /\ pg_n g' = n /\ @result E g' = Ok res /\
              exists tr', finished mode g' tr' /\ J tr' s'
  | Err e => (exists x g s tr g' s', J tr s /\ step x (g, s) = (Err e, (g', s'))) \/
             (e = from_InvalidState MkInvalidState /\
              exists tr', J tr' s' /\ (NoDup tr'.*1 -> ~ monotone_trace tr'))
  | Panic => False
  end.
Proof.
  revert g s tr m. induction fuel as [|fuel IH]; intros g s tr m Hp Hn' Hpolls HJ Hm; [lia|].
  cbn [consume_loop]. rewrite M_bind_eq. unfold on_guide at 1. rewrite zoom_eq. unfold map_err_M. cbn [fst snd].
  destruct Hpolls as (rp & g1 & Hpoll & Hp1 & Hn1 & Hres). rewrite Hpoll.
  destruct rp as [[]|[]|]; cbn [map_err fst snd]; [| | |done].
  - unfold reads. cbn [fst snd]. intros [= <- <- <-]. destruct Hres as [Hf0 Hids0 Hs0 Hi0 Hm0 Hd0 Ht0].
    unfold result. rewrite Hf0. split_and!; [congruence|congruence|done|].
    exists tr. split; [|done]. by constructor.
  - destruct Hres as [x Hpend].
    assert (pending mode g1 tr m x) as Hpend' by done.
    apply pending_next in Hpend' as Hnext.
    destruct (pending_fresh g1 tr m x) as [Hx Hfresh]; [congruence|congruence|done|].
    M_step. cbn [fst snd].
    assert (@next_id E g1 = Ok x) as Hnext'.
    { unfold next_id in *. destruct (pg_ids g1 !! _); [|done]. by injection Hnext as ->. }
    rewrite Hnext'. rewrite M_bind_eq.
    destruct (step x (g1, s)) as [rs [g2 s2]] eqn:Es.
    destruct (Hstep x g1 s rs g2 s2 tr Hx HJ Hfresh Es) as [Hnp Hok].
    destruct rs as [[]|e|]; [| |done].
    + destruct (Hok eq_refl) as (c & -> & HJ'). intros Hrun.
      assert (exists m', m = Datatypes.S m') as [m' ->].
      { destruct m; [|by eexists]. inversion Hpend; lia. }
      eapply (IH (ProofGuide_insert x c g1) s2 (tr ++ [(x, c)]) m'); try done; cbn; try congruence; [|lia].
      apply step_polls; rewrite ?Hp1, ?Hn1, ?Hp, ?Hn'; done.
    + intros [= <- <- <-]. left. by exists x, g1, s, tr, g2, s2.
  - intros [= <- <- <-]. right. split; [done|]. by exists tr.
Qed.

(** A guide that has just been made. *)
Lemma ProofGuide_new_polls :
  exists g, ProofGuide_new mode pos n = Ok g /\ pg_pos g = pos /\ pg_n g = n /\
            exists m, polls mode g [] m /\ (m < CONSUME_FUEL)%nat.
Proof.
  unfold ProofGuide_new. destruct mode as [v|].
  - destruct (@root_spec InvalidState pos n Hpos Hn) as (k & j & Hr & Hk & Hj & Hin & Hcov).
    unfold ProofGuide_for_version. rewrite Hr. cbn [mbind outcome_bind]. eexists. split_and!; [done|done|done|].
    exists (Datatypes.S k). split; [|unfold CONSUME_FUEL; lia].
    eapply (pending_polls _ _ _ _ (node k j)). eapply pending_below; try done; [|lia].
    split_and!; try done; try (cbn; lia). intros y Hy. split; [intros _; by apply Hcov|].
    intros _ Hx. by apply Exists_nil in Hx.
  - destruct (@frontier_spec InvalidState pos n Hpos Hn) as (k & j & l & Hr & Hk & Hj & Hin & Hcov & HF & Ht).
    unfold ProofGuide_for_most_recent. rewrite HF. cbn [mbind outcome_bind]. eexists. split_and!; [done|done|done|].
    destruct (frontier_facts _ _ _ Hpos Hn HF) as (_ & _ & _ & Hlen & _).
    exists (length (node k j :: l) + 64)%nat. split; [|unfold CONSUME_FUEL; lia].
    eapply (pending_polls _ _ _ _ (node k j)). by eapply pending_frontier.
Qed.
End consume.

(** *** What the result says *)

Section search_result.
Implicit Types (tr : list (Z * Z)) (mode : option Z) (res : option (nat * Z)).

(** The lookups of a finished search, and its result: the first of the looked-up
    ids that has the version, when the versions from there on begin with it. *)
Record search_result pos n mode tr res : Prop := {
  sr_nodup : NoDup tr.*1;
  sr_range : Forall (fun p => pos <= p.1 < n) tr;
  sr_monotone : monotone_trace tr;
  sr_version : exists V,
    match mode with Some v => V = v | None => (n - 1, V) ∈ tr end /\
    (forall y, pos <= y < n -> excluded V tr y) /\
    match res with
    | Some (i, id) => tr !! i = Some (id, V) /\ forall x c, (x, c) ∈ tr -> V <= c -> id <= x
    | None => forall x c, (x, c) ∈ tr -> c <> V
    end
}.

Lemma finished_result {E} mode g tr res :
  finished mode g tr -> NoDup tr.*1 -> Forall (fun p => pg_pos g <= p.1 < pg_n g) tr ->
  @result E g = Ok res -> search_result (pg_pos g) (pg_n g) mode tr res.
Proof.
  intros [Hf Hids Hs Hinc Hmono Hdec Htgt] Hnd Hrange. unfold result. rewrite Hf. intros [= <-].
  assert (monotone_trace tr) as Htm.
  { intros x c x' c' Hx Hx' Hlt. by eapply trace_monotone. }
  split; [done|done|done|]. exists (pg_version g). split; [by destruct mode|]. split; [done|].
  destruct (find_by _ (pg_sorted g)) as [v|] eqn:Hfind.
  - pose proof Hfind as [Hv Hle%Z.leb_le]%find_by_Some. rewrite Hs in Hv. apply elem_of_vids in Hv.
    assert (forall x c, (x, c) ∈ tr -> pg_version g <= c -> vid_id v <= x) as Hfirst.
    { intros x c Hx Hc. apply (find_by_first _ _ v (mkVersionedId x c) Hfind); [|by apply Z.leb_le|done].
      rewrite Hs. by apply elem_of_vids. }
    destruct (Z.eqb_spec (vid_version v) (pg_version g)) as [Heq|Hne].
    + rewrite Hids. destruct (position _ tr.*1) as [i|] eqn:Hi.
      * cbn. split; [|done]. apply position_Some in Hi as (x & Hx & ->%Z.eqb_eq & _).
        rewrite list_lookup_fmap in Hx. destruct (tr !! i) as [[x c]|] eqn:Hti; [|done].
        injection Hx as ->. f_equal. f_equal. apply list_elem_of_lookup_2 in Hti.
        rewrite <- Heq. by apply (trace_functional tr (vid_id v)).
      * exfalso. rewrite position_None in Hi. specialize (Hi (vid_id v)). rewrite Z.eqb_refl in Hi.
        assert (vid_id v ∈ tr.*1); [|naive_solver]. apply list_elem_of_fmap.
        by exists (vid_id v, vid_version v).
    + intros x c Hx ->. specialize (Hfirst x _ Hx ltac:(done)).
      assert (vid_version v <= pg_version g); [|lia]. destruct (decide (vid_id v = x)) as [<-|].
      { by rewrite (trace_functional tr _ _ _ Hnd Hv Hx). }
      apply (Htm _ _ _ _ Hv Hx). lia.
  - intros x c Hx ->. assert (mkVersionedId x (pg_version g) ∈ pg_sorted g) as Hin.
    { rewrite Hs. by apply elem_of_vids. }
    destruct (find_by_exists (fun v => pg_version g <=? vid_version v) _ _ Hin) as (w & Hw & _);
      [by apply Z.leb_refl|]. congruence.
Qed.

(** If the versions looked up are those of a function that never decreases
    along the log, the result is its first position with the version. *)
Lemma search_result_first pos n mode tr res ver :
  search_result pos n mode tr res -> (forall x c, (x, c) ∈ tr -> c = ver x) ->
  (forall x y, pos <= x -> x <= y < n -> ver x <= ver y) ->
  let V := match mode with Some v => v | None => ver (n - 1) end in
  match res with
  | Some (_, id) => pos <= id < n /\ ver id = V /\ forall y, pos <= y < id -> ver y < V
  | None => forall y, pos <= y < n -> ver y <> V
  end.
Proof.
  intros [Hnd Hrange Htm (V & HV & Hex & Hres)] Hver Hmono. cbv zeta.
  rewrite Forall_forall in Hrange.
  assert (match mode with Some v => v | None => ver (n - 1) end = V) as ->.
  { destruct mode; [done|]. symmetry. by apply Hver. }
  assert (forall y, pos <= y < n -> (forall x c, (x, c) ∈ tr -> V <= c -> y < x) -> ver y < V) as Hlow.
  { intros y Hy Hno. specialize (Hex y Hy). apply Exists_exists in Hex as ([x c] & Hx & [[Hc Hle]|[Hc Hle]]); cbn in *.
    - rewrite (Hver x c Hx) in Hc. pose proof (Hrange _ Hx) as Hr. cbn in Hr.
      specialize (Hmono y x ltac:(lia) ltac:(lia)). lia.
    - specialize (Hno x c Hx Hc). lia. }
  destruct res as [[i id]|].
  - destruct Hres as [Hi Hfirst]. apply list_elem_of_lookup_2 in Hi. pose proof (Hrange _ Hi) as Hr. cbn in Hr.
    split_and!; [lia|lia|symmetry; by apply Hver|]. intros y Hy. apply Hlow; [lia|].
    intros x c Hx Hc. specialize (Hfirst x c Hx Hc). lia.
  - intros y Hy Heq. specialize (Hex y Hy).
    apply Exists_exists in Hex as ([x c] & Hx & Hc); cbn in *. pose proof (Hrange _ Hx) as Hr. cbn in Hr.
    destruct Hc as [[Hc Hle]|[Hc Hle]]; cbn in *.
    + rewrite (Hver x c Hx) in Hc. specialize (Hmono y x ltac:(lia) ltac:(lia)). lia.
    + pose proof (Hver x c Hx) as Hcx. specialize (Hmono x y ltac:(lia) ltac:(lia)).
      apply (Hres x c Hx). lia.
Qed.
End search_result.

(** *** [consume] *)

Section consume_spec.
Context {S E : Type} (from_InvalidState : InvalidState -> E)
  (step : Z -> M (ProofGuide * S) E unit).
Context (pos n : Z) (mode : option Z) (J : list (Z * Z) -> S -> Prop).
Hypothesis Hpos : 0 <= pos < n.
Hypothesis Hn : n <= u64_max.
Hypothesis Hstep : forall x g s r g' s' tr,
  pos <= x < n -> J tr s -> x ∉ tr.*1 -> step x (g, s) = (r, (g', s')) ->
  r <> Panic /\ (r = Ok tt -> exists c, g' = ProofGuide_insert x c g /\ J (tr ++ [(x, c)]) s').

(** A search over a non-empty range never panics; it fails only if a step does
    or if the versions reported are not monotone. *)
Lemma consume_spec s :
  J [] s -> exists g, ProofGuide_new mode pos n = Ok g /\
  match consume from_InvalidState step g s with
  | (Ok res, s') => exists tr, J tr s' /\ search_result pos n mode tr res
  | (Err e, s') => (exists x g s tr g' s', J tr s /\ step x (g, s) = (Err e, (g', s'))) \/
                   (e = from_InvalidState MkInvalidState /\
                    exists tr, J tr s' /\ ~ monotone_trace tr)
  | (Panic, _) => False
  end.
Proof.
  intros HJ. destruct (ProofGuide_new_polls pos n mode Hpos Hn) as (g & Hg & Hgp & Hgn & m & Hpolls & Hm).
  exists g. split; [done|]. unfold consume. rewrite M_bind_eq. unfold with_local.
  destruct (consume_loop from_InvalidState step CONSUME_FUEL (g, s)) as [r [g' s']] eqn:Hrun.
  set (J' := fun tr s => J tr s /\ NoDup tr.*1 /\ Forall (fun p => pos <= p.1 < n) tr).
  pose proof (consume_loop_spec from_InvalidState step pos n mode J' Hpos Hn) as Hspec.
  assert (forall x g s r g' s' tr, pos <= x < n -> J' tr s -> x ∉ tr.*1 -> step x (g, s) = (r, (g', s')) ->
    r <> Panic /\ (r = Ok tt -> exists c, g' = ProofGuide_insert x c g /\ J' (tr ++ [(x, c)]) s')) as Hstep'.
  { intros x g0 s0 r0 g1 s1 tr Hx (HJ0 & Hnd & Hrg) Hfresh Hrun0.
    destruct (Hstep x g0 s0 r0 g1 s1 tr Hx HJ0 Hfresh Hrun0) as [Hnp Hok]. split; [done|].
    intros ->. destruct (Hok eq_refl) as (c & -> & HJ1). exists c. split; [done|].
    split; [done|]. rewrite fmap_app, NoDup_app, Forall_app. split_and!; [done| |by apply NoDup_singleton|done|by constructor].
    intros y Hy ->%list_elem_of_singleton. done. }
  specialize (Hspec Hstep').
  specialize (Hspec CONSUME_FUEL g s [] m r g' s' Hgp Hgn Hpolls).
  specialize (Hspec ltac:(by split; [done|split; [apply NoDup_nil_2|constructor]]) Hm Hrun).
  destruct r as [res|e|]; cbn; [| |done].
  - destruct Hspec as (Hp' & Hn' & Hres & tr & Hfin & HJt & Hnd & Hrg). exists tr. split; [done|].
    rewrite <- Hp', <- Hn' in *. by eapply finished_result.
  - destruct Hspec as [(x & g0 & s0 & tr & g1 & s1 & (HJ0 & _) & Hx)|(-> & tr & (HJt & Hnd & _) & Hm')].
    + left. by exists x, g0, s0, tr, g1, s1.
    + right. split; [done|]. exists tr. split; [done|]. by apply Hm'.
Qed.
End consume_spec.

(** C28: the search finds what it is for.  Over the log entries [pos .. n), with
    a step that reports the version [ver] of each entry it is asked for, where
    versions never decrease along the log, [consume] terminates without an
    error: it returns the first entry that has the version asked for (or,
    without one, the first entry that has the version of the last entry), and
    returns nothing exactly when no entry has it. *)
Theorem search_finds_version {S E} (from_InvalidState : InvalidState -> E)
    (step : Z -> M (ProofGuide * S) E unit) (ver : Z -> Z) (mode : option Z) (pos n : Z) (s : S) :
  0 <= pos < n -> n <= u64_max ->
  (forall x y, pos <= x -> x <= y < n -> ver x <= ver y) ->
  (forall x g s, exists s', step x (g, s) = (Ok tt, (ProofGuide_insert x (ver x) g, s'))) ->
  let V := match mode with Some v => v | None => ver (n - 1) end in
  exists g res s', ProofGuide_new mode pos n = Ok g /\
    consume from_InvalidState step g s = (Ok res, s') /\
    match res with
    | Some (_, id) => pos <= id < n /\ ver id = V /\ forall y, pos <= y < id -> ver y < V
    | None => forall y, pos <= y < n -> ver y <> V
    end.
Proof.
  intros Hpos Hn Hmono Hstep V.
  set (J := fun (tr : list (Z * Z)) (_ : S) => forall x c, (x, c) ∈ tr -> c = ver x /\ pos <= x < n).
  destruct (consume_spec from_InvalidState step pos n mode J Hpos Hn) with (s := s) as (g & Hg & Hrun).
  { intros x g0 s0 r g1 s1 tr Hx HJ _ Hr. destruct (Hstep x g0 s0) as [s2 Hs2]. rewrite Hs2 in Hr.
    injection Hr as <- <- <-. split; [done|]. intros _. exists (ver x). split; [done|].
    intros x' c' [Hin|[= -> ->]%list_elem_of_singleton]%elem_of_app; [by apply HJ|done]. }
  { by intros x c ?%not_elem_of_nil. }
  exists g. destruct (consume from_InvalidState step g s) as [[res|e|] s'].
  - destruct Hrun as (tr & HJ & Hres). exists res, s'. split; [done|]. split; [done|].
    eapply (search_result_first pos n mode tr res ver); try done. intros x c Hx. by apply HJ.
  - exfalso. destruct Hrun as [(x & g0 & s0 & tr & g1 & s1 & _ & Hx)|(_ & tr & HJ & Hm)].
    + destruct (Hstep x g0 s0) as [s2 Hs2]. rewrite Hs2 in Hx. done.
    + apply Hm. intros x c x' c' Hx Hx' Hlt. destruct (HJ x c Hx) as [-> ?].
      destruct (HJ x' c' Hx') as [-> ?]. apply Hmono; lia.
  - done.
Qed.

(** The guide's own tests: entries from [target] on have version 1. *)
Definition test_step (target id : Z) : M (ProofGuide * list Z) InvalidState unit :=
  fun s => (Ok tt, (ProofGuide_insert id (if id <? target then 0 else 1) s.1, s.2 ++ [id])).
Definition test_guide (version : option Z) (n target : Z) :=
  g ← ProofGuide_new version 100 n;
  Ok (consume id (test_step target) g []).

Example version_0 : exists i ids, test_guide (Some 0) 700 399 = Ok (Ok (Some (i, 100)), ids).
Proof. do 2 eexists. vm_compute. done. Qed.
Example version_1 : exists i ids, test_guide (Some 1) 700 399 = Ok (Ok (Some (i, 399)), ids).
Proof. do 2 eexists. vm_compute. done. Qed.
Example most_recent_399 : exists i ids, test_guide None 700 399 = Ok (Ok (Some (i, 399)), ids).
Proof. do 2 eexists. vm_compute. done. Qed.
Example most_recent_699 : exists i ids, test_guide None 700 699 = Ok (Ok (Some (i, 699)), ids).
Proof. do 2 eexists. vm_compute. done. Qed.
