(* ===== verification/KtLog.v ===== *)
(** * KtLog: the log tree (rust/keytrans/src/log.rs)

    Module [math] navigates the tree by node ids; [SimpleRootCalculator] hashes
    subtrees together from left to right; [evaluate_batch_proof] and
    [verify_consistency_proof] check the two kinds of proofs.  The tree they
    are about and their theorems are in KtMerkle and KtLogProofs. *)

From S2P Require Import Prelude Types Primitives KtTree.
Open Scope string_scope.
Open Scope list_scope.
Open Scope Z_scope.

Abbreviation Hash := (array 32).

(** [log::Error]; the displayed text is [LogError_display]. *)
Inductive LogError :=
| EmptyChain
| MalformedChain
| InvalidInput (what : string)
| MalformedLogProof
| ProofMismatch (what : string)
| Unexpected (what : string).

Definition LogError_display (e : LogError) : string :=
  match e with
  | EmptyChain => "Empty chain"
  | MalformedChain => "Malformed chain"
  | InvalidInput s => "Invalid input: " +:+ s
  | MalformedLogProof => "Malformed proof"
  | ProofMismatch s => "Proof mismatch: " +:+ s
  | Unexpected s => "Unexpected error: " +:+ s
  end%string.

(** ** Navigation *)

Module math.
Section math.
Context {E : Type}.

(** The number of nodes of a tree with [n] leaves. *)
Definition node_width (n : Z) : outcome E Z :=
  if n =? 0 then Ok 0 else m ← u64_sub n 1; m ← u64_mul 2 m; u64_add m 1.

Definition root (n : Z) : outcome E Z :=
  w ← node_width n; b ← u64_shl 1 (log2 w); u64_sub b 1.

Definition left (x : Z) : outcome E Z := left_step x.

(** [while r >= w]: each step is one level down. *)
Fixpoint down_left (fuel : nat) (r w : Z) : outcome E Z :=
  if w <=? r then
    match fuel with
    | O => Panic
    | S fuel => r ← left r; down_left fuel r w
    end
  else Ok r.
Definition right (x n : Z) : outcome E Z :=
  r ← right_step x; w ← node_width n; down_left 64 r w.

Fixpoint up (fuel : nat) (p w : Z) : outcome E Z :=
  if w <=? p then
    match fuel with
    | O => Panic
    | S fuel => p ← parent_step p; up fuel p w
    end
  else Ok p.
Definition parent (x n : Z) : outcome E Z :=
  r ← root n;
  if x =? r then Panic
  else w ← node_width n; p ← parent_step x; up 64 p w.

Definition sibling (x n : Z) : outcome E Z :=
  p ← parent x n; if x <? p then right p n else left p.

Definition is_full_subtree (x n : Z) : outcome E bool :=
  m ← u64_sub n 1; rightmost ← u64_mul 2 m;
  b ← u64_shl 1 (Z.of_nat (level x)); e ← u64_add x b; expected ← u64_sub e 1;
  Ok (expected <=? rightmost).

(** The iterator; [level] decreases with each item. *)
Fixpoint full_subtrees_from (fuel : nat) (x n : Z) : outcome E (list Z) :=
  full ← is_full_subtree x n;
  if full : bool then Ok [x]
  else match fuel with
       | O => Panic
       | S fuel =>
           next_x ← right x n; l ← left x;
           rest ← full_subtrees_from fuel next_x n; Ok (l :: rest)
       end.
Definition full_subtrees (x n : Z) : outcome E (list Z) := full_subtrees_from 64 x n.

(** The values a call pushes onto [output]; each call at least halves [n]
    rounded up to a power of two. *)
Fixpoint sub_proof_impl (fuel : nat) (m n : Z) (b : bool) : outcome E (list Z) :=
  if m =? n then
    if b then Ok [] else r ← root m; Ok [r]
  else match fuel with
       | O => Panic
       | S fuel =>
           k ← u64_shl 1 (log2 n);
           let k := if k =? n then k / 2 else k in
           if m <=? k then
             out ← sub_proof_impl fuel m k b;
             r ← root n; r ← right r n; Ok (out ++ [r])
           else
             r ← root n; l ← left r;
             m' ← u64_sub m k; n' ← u64_sub n k;
             out ← sub_proof_impl fuel m' n' false;
             out ← mapM (fun x => d ← u64_mul 2 k; u64_add x d) out;
             Ok (l :: out)
       end.
Definition consistency_proof (m n : Z) : outcome E (list Z) := sub_proof_impl 65 m n true.

(** One pass over a level: [while nodes.len() > 1]; returns what is left of
    [nodes], the next level and the output. *)
Fixpoint combine_level (nodes : list Z) (n : Z) (next_level out : list Z)
  : outcome E (list Z * list Z * list Z) :=
  match nodes with
  | x :: (y :: rest) as tail =>
      p ← parent x n;
      r ← right p n;
      if r =? y then combine_level rest n (next_level ++ [p]) out
      else s ← sibling x n; combine_level tail n (next_level ++ [p]) (out ++ [s])
  | _ => Ok (nodes, next_level, out)
  end.

Definition last_node (nodes : list Z) (n : Z) (next_level out : list Z)
  : outcome E (list Z * list Z) :=
  match nodes with
  | [x] =>
      keep ← (match next_level with
              | [] => Ok false
              | first :: _ => p ← parent x n; Ok (level first <? level p)%nat
              end);
      if keep : bool then Ok (next_level ++ [x], out)
      else s ← sibling x n; p ← parent x n; Ok (next_level ++ [p], out ++ [s])
  | _ => Ok (next_level, out)
  end.

Definition is_root (nodes : list Z) (root : Z) : bool :=
  match nodes with [x] => x =? root | _ => false end.

(** Every pass but the last moves the nodes at least one level up. *)
Fixpoint copath_levels (fuel : nat) (nodes : list Z) (root n : Z) (out : list Z)
  : outcome E (list Z) :=
  if is_root nodes root then Ok out
  else match fuel with
       | O => Panic
       | S fuel =>
           '(nodes, next_level, out) ← combine_level nodes n [] out;
           '(next_level, out) ← last_node nodes n next_level out;
           copath_levels fuel next_level root n out
       end.

Definition batch_copath (leaves : list Z) (n : Z) : outcome E (list Z) :=
  current_level ← mapM (u64_mul 2) leaves;
  let current_level := sort_by_key id current_level in
  root ← root n;
  out ← copath_levels 65 current_level root n [];
  Ok (sort_by_key id out).
End math.
End math.

Example math_root : @math.root unit 5 = Ok 7. Proof. vm_compute. done. Qed.
Example math_right : @math.right unit 7 8 = Ok 11. Proof. vm_compute. done. Qed.
Example math_parent : @math.parent unit 5 4 = Ok 3. Proof. vm_compute. done. Qed.
Example math_sibling : @math.sibling unit 9 8 = Ok 13. Proof. vm_compute. done. Qed.
Example math_subtrees : @math.full_subtrees unit 7 6 = Ok [3; 9]. Proof. vm_compute. done. Qed.
Example math_copath : @math.batch_copath unit [0; 2; 3; 4] 8 = Ok [2; 10; 13].
Proof. vm_compute. done. Qed.
Example math_copath_2 : @math.batch_copath unit [0; 2; 3] 8 = Ok [2; 11].
Proof. vm_compute. done. Qed.
Example math_consistency : @math.consistency_proof unit 6 8 = Ok [3; 9; 13].
Proof. vm_compute. done. Qed.

(** ** Hashing *)

(** [interior] is false for leaves only. *)
Record NodeData := mkNodeData { interior : bool; nd_value : Hash }.

#[export] Instance NodeData_eq_dec : EqDecision NodeData.
Proof. solve_decision. Defined.

Definition marshal (nd : NodeData) : bytes :=
  (if interior nd then Byte.x01 else Byte.x00) :: arr (nd_value nd).

(** [SimpleRootCalculator { chain }]. *)
Abbreviation Chain := (list (option NodeData)).

Section calculator.
Context `{Sha256}.

Definition tree_hash (l r : NodeData) : NodeData := mkNodeData true (sha256 (marshal l ++ marshal r)).

(** The [while let] loop of [insert]; it ends at the latest at the end of the
    chain. *)
Fixpoint merge_up (fuel : nat) (chain : Chain) (i : nat) (acc : NodeData) : Chain * nat * NodeData :=
  match fuel, chain !! i with
  | S fuel, Some (Some nd) => merge_up fuel (<[i:=None]> chain) (S i) (tree_hash nd acc)
  | _, _ => (chain, i, acc)
  end.

Definition calc_insert (level : nat) (value : Hash) (chain : Chain) : Chain :=
  let chain := chain ++ replicate (level + 1 - length chain) None in
  let acc := mkNodeData (negb (level =? 0)%nat) value in
  let '(chain, i, acc) := merge_up (S (length chain)) chain level acc in
  if (i =? length chain)%nat then chain ++ [Some acc] else <[i:=Some acc]> chain.

Fixpoint first_some (chain : Chain) : option (NodeData * Chain) :=
  match chain with
  | [] => None
  | Some nd :: rest => Some (nd, rest)
  | None :: rest => first_some rest
  end.

Definition fold_rest (acc : NodeData) (rest : Chain) : NodeData :=
  fold_left (fun acc nd => match nd with Some nd => tree_hash nd acc | None => acc end) rest acc.

Definition calc_root (chain : Chain) : outcome LogError Hash :=
  match chain with
  | [] => Err EmptyChain
  | _ => '(root, rest) ← ok_or MalformedChain (first_some chain); Ok (nd_value (fold_rest root rest))
  end.

(** ** Proofs *)

Fixpoint strictly_sorted (x : list Z) : bool :=
  match x with
  | a :: (b :: _) as x => (a <? b) && strictly_sorted x
  | _ => true
  end.

(** The three [while] loops; an index and its value, an id and its proof
    element, are paired. *)
Fixpoint insert_merged (fuel : nat) (xs : list (Z * Hash)) (cs : list (Z * Hash)) (calc : Chain) : Chain :=
  match fuel with
  | O => calc
  | S fuel =>
      match xs, cs with
      | [], [] => calc
      | (x, v) :: xs', [] => insert_merged fuel xs' cs (calc_insert 0 v calc)
      | [], (c, p) :: cs' => insert_merged fuel xs cs' (calc_insert (level c) p calc)
      | (x, v) :: xs', (c, p) :: cs' =>
          if 2 * x <? c then insert_merged fuel xs' cs (calc_insert 0 v calc)
          else insert_merged fuel xs cs' (calc_insert (level c) p calc)
      end
  end.

Definition evaluate_batch_proof (x : list Z) (n : Z) (values proof : list Hash) : outcome LogError Hash :=
  if negb (length x =? length values)%nat
  then Err (InvalidInput "expected same number of indices and values")
  else if negb (strictly_sorted x) then Err (InvalidInput "input entries must be in sorted order")
  else
    last ← ok_or (InvalidInput "can not evaluate empty batch inclusion proof") (list.last x);
    if n <=? last then Err (InvalidInput "leaf ids can not be larger than tree size")
    else
      copath ← math.batch_copath x n;
      if negb (length proof =? length copath)%nat then Err MalformedLogProof
      else calc_root (insert_merged (length x + length copath) (zip x values) (zip copath proof) []).

Definition insert_all (l : list (Z * Hash)) (calc : Chain) : Chain :=
  fold_left (fun calc p => calc_insert (level p.1) p.2 calc) l calc.

(** The [for] loop over the path: ids and proof elements are indexed together. *)
Fixpoint insert_path (path ids : list Z) (proof : list Hash) (calc : Chain) : outcome LogError Chain :=
  match path with
  | [] => Ok calc
  | elem :: path =>
      match ids, proof with
      | id :: ids, p :: proof =>
          if negb (id =? elem) then Err (Unexpected "id does not match path")
          else insert_path path ids proof (calc_insert (level elem) p calc)
      | _, _ => Panic
      end
  end.

Definition verify_consistency_proof (m n : Z) (proof : list Hash) (m_root n_root : Hash)
  : outcome LogError unit :=
  if (m =? 0) || (n <=? m) then Err (InvalidInput "m must be within [0, n)")
  else
    ids ← math.consistency_proof m n;
    if negb (length proof =? length ids)%nat then Err MalformedLogProof
    else
      r ← math.root m;
      path ← math.full_subtrees r m;
      '(i, calc) ←
        (if (length path =? 1)%nat then Ok (O, calc_insert (level r) m_root [])
         else
           calc ← insert_path path ids proof [];
           first ← calc_root calc;
           if bool_decide (m_root = first) then Ok (length path, calc)
           else Err (ProofMismatch "first root does not match proof"));
      let calc := insert_all (zip (drop i ids) (drop i proof)) calc in
      match calc_root calc with
      | Ok root => if bool_decide (n_root = root) then Ok tt
                   else Err (ProofMismatch "second root does not match proof")
      | Err e => Err e
      | Panic => Panic
      end.
End calculator.
