(* ===== verification/KtMerkle.v ===== *)
(** * KtMerkle: the hash tree of the log

    The tree that the proofs of KtLog are about: over the leaves
    [lo .. lo + m), a leaf or a node that splits at the greatest power of two
    below [m] (RFC 6962).  [thash] is its hash, [tid] the id its nodes have in
    the source.  [evaluates] says that a list of ids and hashes is a cut
    through a tree, from left to right, and what it hashes to; section
    [calculator] shows that [SimpleRootCalculator] computes that, and section
    [collisions] what a cut with the right hash consists of. *)

From S2P Require Import Prelude Types Primitives KtTree KtLog.
Open Scope string_scope.
Open Scope list_scope.
Open Scope Z_scope.

(** ** The tree *)

(** The number of leaves of the left subtree: the greatest power of two below [m]. *)
Definition split (m : Z) : Z := 2 ^ Z.log2 (m - 1).
(** The level of the root: the least [k] with [m <= 2 ^ k]. *)
Definition lvl (m : Z) : nat := Z.to_nat (Z.log2_up m).

Inductive ltree := LLeaf (lo : Z) | LNode (lo m : Z) (l r : ltree).

Fixpoint mk (depth : nat) (lo m : Z) : ltree :=
  match depth with
  | O => LLeaf lo
  | S depth => if m <=? 1 then LLeaf lo
               else LNode lo m (mk depth lo (split m)) (mk depth (lo + split m) (m - split m))
  end.
Definition log_tree (n : Z) : ltree := mk (lvl n) 0 n.

Definition tlo (t : ltree) : Z := match t with LLeaf lo => lo | LNode lo _ _ _ => lo end.
Definition tsize (t : ltree) : Z := match t with LLeaf _ => 1 | LNode _ m _ _ => m end.
Definition tlvl (t : ltree) : nat := lvl (tsize t).
Definition nid (lo m : Z) : Z := node (lvl m) (lo / 2 ^ Z.of_nat (lvl m)).
Definition tid (t : ltree) : Z := nid (tlo t) (tsize t).

Lemma split_bounds m : 2 <= m -> 1 <= split m /\ split m < m /\ m <= 2 * split m.
Proof.
  intros Hm. unfold split. pose proof (Z.log2_spec (m - 1) ltac:(lia)) as [H1 H2].
  rewrite Z.pow_succ_r in H2 by apply Z.log2_nonneg.
  assert (0 < 2 ^ Z.log2 (m - 1)) by (apply Z.pow_pos_nonneg; [lia|apply Z.log2_nonneg]). lia.
Qed.

Lemma lvl_ge2 m : 2 <= m -> lvl m = S (Z.to_nat (Z.log2 (m - 1))).
Proof.
  intros Hm. unfold lvl. rewrite Z.log2_up_eqn by lia. rewrite Z2Nat.inj_succ by apply Z.log2_nonneg.
  by rewrite <- Z.sub_1_r.
Qed.

Lemma lvl_succ m : 2 <= m -> exists c, lvl m = S c.
Proof. intros Hm. rewrite lvl_ge2 by done. by eexists. Qed.

Lemma lvl_1 m : m <= 1 -> lvl m = O.
Proof. intros Hm. unfold lvl. by rewrite Z.log2_up_eqn0. Qed.

Lemma split_pow m : 2 <= m -> split m = 2 ^ Z.of_nat (lvl m - 1).
Proof.
  intros Hm. rewrite lvl_ge2 by done. unfold split. f_equal. rewrite Nat.sub_1_r. cbn [Nat.pred].
  rewrite Z2Nat.id by apply Z.log2_nonneg. done.
Qed.

Lemma lvl_pow (k : nat) : lvl (2 ^ Z.of_nat k) = k.
Proof. unfold lvl. rewrite Z.log2_up_pow2 by lia. by rewrite Nat2Z.id. Qed.

Lemma lvl_split m : 2 <= m -> lvl (split m) = (lvl m - 1)%nat.
Proof. intros Hm. rewrite (split_pow m Hm). apply lvl_pow. Qed.

Lemma lvl_mono a b : a <= b -> (lvl a <= lvl b)%nat.
Proof. intros H. unfold lvl. apply Z2Nat.inj_le; [apply Z.log2_up_nonneg..|by apply Z.log2_up_le_mono]. Qed.

Lemma lvl_upper m : 1 <= m -> m <= 2 ^ Z.of_nat (lvl m).
Proof.
  intros Hm. unfold lvl. rewrite Z2Nat.id by apply Z.log2_up_nonneg.
  destruct (Z.eq_dec m 1) as [->|]; [done|]. apply Z.log2_up_spec. lia.
Qed.

Lemma lvl_right m : 2 <= m -> (lvl (m - split m) <= lvl m - 1)%nat.
Proof.
  intros Hm. rewrite <- (lvl_split m Hm). apply lvl_mono. pose proof (split_bounds m Hm). lia.
Qed.

Lemma lvl_lower m : 2 <= m -> 2 ^ Z.of_nat (lvl m - 1) < m.
Proof. intros Hm. rewrite <- (split_pow m Hm). by apply split_bounds. Qed.

(** The subtrees of a log with [n] leaves: aligned, and all but the rightmost
    ones full. *)
Definition full (m : Z) : Prop := m = 2 ^ Z.of_nat (lvl m).
Record subtree (n lo m : Z) : Prop := {
  sub_lo : 0 <= lo;
  sub_m : 1 <= m;
  sub_hi : lo + m <= n;
  sub_aligned : (2 ^ Z.of_nat (lvl m) | lo);
  sub_shape : lo + m = n \/ full m
}.

Lemma full_split m : 2 <= m -> full (split m).
Proof. intros Hm. unfold full. by rewrite (lvl_split m Hm), (split_pow m Hm). Qed.

Lemma full_right m : 2 <= m -> full m -> m - split m = split m.
Proof.
  unfold full. intros Hm Hf. rewrite (split_pow m Hm).
  assert (m = 2 * 2 ^ Z.of_nat (lvl m - 1)); [|lia].
  transitivity (2 ^ Z.of_nat (S (lvl m - 1))); [|apply pow2_S].
  rewrite Hf at 1. f_equal. rewrite lvl_ge2 by done. lia.
Qed.

Lemma subtree_top n : 1 <= n -> subtree n 0 n.
Proof. intros Hn. constructor; try lia. apply Z.divide_0_r. Qed.

Lemma pow2_divide (a b : nat) : (a <= b)%nat -> (2 ^ Z.of_nat a | 2 ^ Z.of_nat b).
Proof.
  intros H. exists (2 ^ Z.of_nat (b - a)). rewrite <- Z.pow_add_r by lia. f_equal. lia.
Qed.

Lemma subtree_left n lo m : 2 <= m -> subtree n lo m -> subtree n lo (split m).
Proof.
  intros Hm [H1 H2 H3 H4 H5]. pose proof (split_bounds m Hm). constructor; try lia.
  - rewrite (lvl_split m Hm). eapply Z.divide_trans; [apply (pow2_divide _ (lvl m)); lia|done].
  - right. by apply full_split.
Qed.

Lemma subtree_right n lo m : 2 <= m -> subtree n lo m -> subtree n (lo + split m) (m - split m).
Proof.
  intros Hm [H1 H2 H3 H4 H5]. pose proof (split_bounds m Hm). constructor; try lia.
  - pose proof (lvl_right m Hm). apply Z.divide_add_r.
    + eapply Z.divide_trans; [apply (pow2_divide _ (lvl m)); lia|done].
    + rewrite (split_pow m Hm) at 2. apply pow2_divide. lia.
  - destruct H5 as [H5|H5]; [left; lia|right]. rewrite full_right by done. by apply full_split.
Qed.

Lemma nid_eq n lo m : subtree n lo m -> nid lo m = 2 * lo + 2 ^ Z.of_nat (lvl m) - 1.
Proof.
  intros [_ _ _ [q Hq] _]. unfold nid, node. pose proof (pow2_pos (lvl m)).
  rewrite Hq, Z.div_mul by lia. lia.
Qed.

Lemma level_nid n lo m : subtree n lo m -> level (nid lo m) = lvl m.
Proof.
  intros [H _ _ _ _]. unfold nid. apply level_node. apply Z.div_pos; [done|apply pow2_pos].
Qed.

(** Trees as they are in the log. *)
Inductive wf_tree (n : Z) : Z -> Z -> ltree -> Prop :=
| wf_leaf lo : subtree n lo 1 -> wf_tree n lo 1 (LLeaf lo)
| wf_node lo m l r :
    subtree n lo m -> 2 <= m -> wf_tree n lo (split m) l ->
    wf_tree n (lo + split m) (m - split m) r -> wf_tree n lo m (LNode lo m l r).

Lemma mk_wf n depth lo m : (lvl m <= depth)%nat -> subtree n lo m -> wf_tree n lo m (mk depth lo m).
Proof.
  revert lo m. induction depth as [|depth IH]; intros lo m Hd Hs; cbn [mk].
  - destruct (Z.eq_dec m 1) as [->|]; [by constructor|]. pose proof (sub_m _ _ _ Hs).
    rewrite lvl_ge2 in Hd by lia. lia.
  - destruct (Z.leb_spec m 1) as [Hm|Hm].
    + pose proof (sub_m _ _ _ Hs). replace m with 1 in * by lia. by constructor.
    + constructor; [done|lia| |].
      * apply IH; [rewrite lvl_split by lia; lia|by apply subtree_left; [lia|]].
      * apply IH; [pose proof (lvl_right m ltac:(lia)); lia|by apply subtree_right; [lia|]].
Qed.

Lemma log_tree_wf n : 1 <= n -> wf_tree n 0 n (log_tree n).
Proof. intros Hn. apply mk_wf; [done|by apply subtree_top]. Qed.

Lemma wf_tree_subtree n lo m t : wf_tree n lo m t -> subtree n lo m /\ tlo t = lo /\ tsize t = m.
Proof. by intros []. Qed.

Lemma wf_tree_id n lo m t : wf_tree n lo m t -> tid t = nid lo m /\ tlvl t = lvl m.
Proof. intros H. apply wf_tree_subtree in H as (_ & H1 & H2). unfold tid, tlvl. by rewrite H1, H2. Qed.

Lemma wf_node_inv n lo m lo' m' l r :
  wf_tree n lo m (LNode lo' m' l r) ->
  lo = lo' /\ m = m' /\ subtree n lo m /\ 2 <= m /\ wf_tree n lo (split m) l /\
  wf_tree n (lo + split m) (m - split m) r.
Proof. inversion 1; by subst. Qed.

(** The tree depends only on the leaves it covers. *)
Lemma wf_tree_unique n n' lo m t t' : wf_tree n lo m t -> wf_tree n' lo m t' -> t = t'.
Proof.
  intros H. revert t' n'.
  induction H as [lo Hs|lo m l r Hs Hm Hl IHl Hr IHr]; intros t' n' H'; inversion H'; subst; try lia.
  - done.
  - f_equal; eauto.
Qed.

(** ** Hashes of trees and of cuts through them *)

Section hashes.
Context `{Sha256}.

(** The hash of a tree over the leaf values [f], and the strings it hashes. *)
Fixpoint thash (f : Z -> Hash) (t : ltree) : NodeData :=
  match t with
  | LLeaf lo => mkNodeData false (f lo)
  | LNode _ _ l r => tree_hash (thash f l) (thash f r)
  end.

Definition input (x y : NodeData) : bytes := marshal x ++ marshal y.

Fixpoint tstrings (f : Z -> Hash) (t : ltree) : list bytes :=
  match t with
  | LLeaf _ => []
  | LNode _ _ l r => input (thash f l) (thash f r) :: tstrings f l ++ tstrings f r
  end.

(** The root hash of a log with leaves [L]. *)
Definition leaf_of (L : list Hash) (i : Z) : Hash := default (zeros 32) (L !! Z.to_nat i).
Definition log_root (L : list Hash) : Hash :=
  nd_value (thash (leaf_of L) (log_tree (Z.of_nat (length L)))).
Definition log_strings (L : list Hash) : list bytes :=
  tstrings (leaf_of L) (log_tree (Z.of_nat (length L))).

(** A hash given for a whole subtree. *)
Definition given (t : ltree) (v : Hash) : NodeData := mkNodeData (negb (tlvl t =? 0)%nat) v.

(** [evaluates t l nd strings]: the ids and hashes [l] are a cut through [t]
    from left to right; together they hash to [nd], hashing [strings]. *)
Inductive evaluates : ltree -> list (Z * Hash) -> NodeData -> list bytes -> Prop :=
| ev_given t v : evaluates t [(tid t, v)] (given t v) []
| ev_split lo m l r a b x y sa sb :
    evaluates l a x sa -> evaluates r b y sb ->
    evaluates (LNode lo m l r) (a ++ b) (tree_hash x y) (input x y :: sa ++ sb).

(** The same, computed: the ids of [l] say how far to descend.  The third
    component is what is left of [l]. *)
Fixpoint evaluate_cut (t : ltree) (l : list (Z * Hash)) : option (NodeData * list bytes * list (Z * Hash)) :=
  match l with
  | (x, v) :: rest =>
      if x =? tid t then Some (given t v, [], rest)
      else match t with
           | LLeaf _ => None
           | LNode _ _ tl tr =>
               '(x, sa, rest) ← evaluate_cut tl l;
               '(y, sb, rest) ← evaluate_cut tr rest;
               Some (tree_hash x y, input x y :: sa ++ sb, rest)
           end
  | [] => None
  end.

(** The hash of the subtree with a given id. *)
Fixpoint node_hash (f : Z -> Hash) (t : ltree) (x : Z) : Hash :=
  if x =? tid t then nd_value (thash f t)
  else match t with
       | LLeaf _ => zeros 32
       | LNode _ _ l r => if x <? tid t then node_hash f l x else node_hash f r x
       end.

(** ** Collisions *)

Definition collision (l : list bytes) : Prop :=
  exists a b, a ∈ l /\ b ∈ l /\ a <> b /\ sha256 a = sha256 b.

Lemma collision_incl l l' : (forall a, a ∈ l -> a ∈ l') -> collision l -> collision l'.
Proof. intros Hl (a & b & Ha & Hb & Hab). exists a, b. split_and!; try apply Hl; naive_solver. Qed.

Lemma marshal_length nd : length (marshal nd) = 33%nat.
Proof. unfold marshal. cbn [length]. by rewrite array_length. Qed.

Lemma marshal_inj x y : marshal x = marshal y -> x = y.
Proof.
  destruct x as [i v], y as [j w]. unfold marshal. cbn. intros [= Hij Hv].
  assert (i = j) as -> by (by destruct i, j). f_equal. by apply array_eq.
Qed.

Lemma input_inj x y x' y' : input x y = input x' y' -> x = x' /\ y = y'.
Proof.
  unfold input. intros Heq. apply app_inj_1 in Heq as [H1 H2]; [|by rewrite !marshal_length].
  split; by apply marshal_inj.
Qed.

(** Equal hashes of nodes, or two strings that collide. *)
Lemma tree_hash_inj x y x' y' l :
  nd_value (tree_hash x y) = nd_value (tree_hash x' y') -> input x y ∈ l -> input x' y' ∈ l ->
  (x = x' /\ y = y') \/ collision l.
Proof.
  cbn. intros Heq H1 H2. destruct (decide (input x y = input x' y')) as [E|E].
  - left. by apply input_inj.
  - right. by exists (input x y), (input x' y').
Qed.

(** [s] is a subtree of [t]. *)
Fixpoint within (s t : ltree) : Prop :=
  s = t \/ match t with LLeaf _ => False | LNode _ _ l r => within s l \/ within s r end.

Lemma within_refl t : within t t.
Proof. destruct t; by left. Qed.

Lemma thash_interior n f lo m t : wf_tree n lo m t -> interior (thash f t) = negb (tlvl t =? 0)%nat.
Proof.
  intros []; unfold tlvl; cbn [thash tsize interior tree_hash].
  - by rewrite lvl_1 by lia.
  - by rewrite lvl_ge2 by lia.
Qed.

(** A cut that hashes to the root of the tree consists of the hashes of its
    subtrees, or there is a collision. *)
Lemma evaluates_sound n f t l nd strs lo m :
  evaluates t l nd strs -> wf_tree n lo m t -> nd_value nd = nd_value (thash f t) ->
  Forall (fun p => exists s, within s t /\ p.1 = tid s /\ p.2 = nd_value (thash f s)) l \/
  collision (strs ++ tstrings f t).
Proof.
  intros Hev. revert lo m. induction Hev as [t v|lo' m' l r a b x y sa sb Ha IHa Hb IHb]; intros lo m Hwf Heq.
  - left. repeat constructor. exists t. split; [apply within_refl|]. done.
  - inversion Hwf as [|? ? ? ? Hs Hm Hl Hr]; subst.
    destruct (tree_hash_inj x y (thash f l) (thash f r)
                (input x y :: (sa ++ sb) ++ input (thash f l) (thash f r) :: tstrings f l ++ tstrings f r))
      as [[Hx Hy]|Hc]; [done|by left| | |].
    + right. apply elem_of_app. right. by left.
    + destruct (IHa _ _ Hl ltac:(by rewrite Hx)) as [HA|HA];
        [|right; eapply collision_incl; [|done]; set_solver].
      destruct (IHb _ _ Hr ltac:(by rewrite Hy)) as [HB|HB];
        [|right; eapply collision_incl; [|done]; set_solver].
      left. apply Forall_app. split; (eapply Forall_impl; [done|]); cbn.
      * intros p (s & Hs' & Hp). exists s. split; [right; by left|done].
      * intros p (s & Hs' & Hp). exists s. split; [right; by right|done].
    + right. eapply collision_incl; [|done]. set_solver.
Qed.

(** Two trees with the same hash have the same leaves, or there is a collision. *)
Lemma thash_inj n f g lo m t :
  wf_tree n lo m t -> thash f t = thash g t ->
  (forall i, lo <= i < lo + m -> f i = g i) \/ collision (tstrings f t ++ tstrings g t).
Proof.
  induction 1 as [lo Hs|lo m l r Hs Hm Hl IHl Hr IHr]; intros Heq.
  - left. intros i Hi. injection Heq as Heq. by replace i with lo by lia.
  - pose proof (split_bounds m Hm). cbn [thash] in Heq.
    destruct (tree_hash_inj (thash f l) (thash f r) (thash g l) (thash g r)
                (tstrings f (LNode lo m l r) ++ tstrings g (LNode lo m l r))) as [[Hx Hy]|Hc];
      [by rewrite Heq|by left|apply elem_of_app; right; by left| |by right].
    destruct (IHl Hx) as [HA|HA]; [|right; eapply collision_incl; [|done]; cbn; set_solver].
    destruct (IHr Hy) as [HB|HB]; [|right; eapply collision_incl; [|done]; cbn; set_solver].
    left. intros i Hi. destruct (Z.lt_ge_cases i (lo + split m)); [apply HA|apply HB]; lia.
Qed.

Lemma within_strings f s t a : within s t -> a ∈ tstrings f s -> a ∈ tstrings f t.
Proof.
  induction t as [lo|lo m l IHl r IHr]; cbn [within tstrings].
  - by intros [->|[]].
  - intros [->|[Hs|Hs]] Ha; [done|right; apply elem_of_app..]; auto.
Qed.
End hashes.

(** ** The calculator *)

Section calculator.
Context `{Sha256}.

Definition none_below (c : nat) (chain : Chain) : Prop :=
  forall i nd, (i < c)%nat -> chain !! i <> Some (Some nd).

(** Insertion into the chain above a level. *)
Fixpoint carry (rest : Chain) (acc : NodeData) : Chain :=
  match rest with
  | [] => [Some acc]
  | None :: rest => Some acc :: rest
  | Some nd :: rest => None :: carry rest (tree_hash nd acc)
  end.

Definition finish_insert (r : Chain * nat * NodeData) : Chain :=
  let '(chain, i, acc) := r in
  if (i =? length chain)%nat then chain ++ [Some acc] else <[i:=Some acc]> chain.

Lemma merge_up_carry rest pre acc fuel :
  (length rest < fuel)%nat ->
  finish_insert (merge_up fuel (pre ++ rest) (length pre) acc) = pre ++ carry rest acc.
Proof.
  revert pre acc fuel. induction rest as [|o rest IH]; intros pre acc fuel Hf;
    (destruct fuel as [|fuel]; [cbn in Hf; lia|]); cbn [merge_up].
  - rewrite app_nil_r, lookup_ge_None_2 by done. cbn. by rewrite Nat.eqb_refl.
  - rewrite list_lookup_middle by done. destruct o as [nd|].
    + rewrite insert_app_r_alt, Nat.sub_diag by done. cbn [carry].
      change (<[0%nat:=None]> (Some nd :: rest)) with ([None] ++ rest). rewrite app_assoc.
      replace (S (length pre)) with (length (pre ++ [None : option NodeData]))
        by (rewrite length_app; cbn; lia).
      rewrite IH by (cbn in Hf; lia). by rewrite <- app_assoc.
    + cbn. rewrite (proj2 (Nat.eqb_neq _ _)) by (rewrite length_app; cbn; lia).
      by rewrite insert_app_r_alt, Nat.sub_diag by done.
Qed.

Lemma none_below_app c chain : none_below c chain -> (c <= length chain)%nat ->
  chain = replicate c None ++ drop c chain.
Proof.
  intros Hn Hc. rewrite <- (take_drop c chain) at 1. f_equal. apply list_eq. intros i.
  destruct (decide (i < c)%nat) as [Hi|Hi].
  - rewrite lookup_take_lt, lookup_replicate_2 by done.
    destruct (lookup_lt_is_Some_2 chain i ltac:(lia)) as [[nd|] Ho]; [|done].
    by apply Hn in Ho.
  - rewrite lookup_take_ge by lia. symmetry. apply lookup_replicate_None. lia.
Qed.

Lemma calc_insert_eq c v chain :
  none_below c chain ->
  calc_insert c v chain = replicate c None ++ carry (drop c chain) (mkNodeData (negb (c =? 0)%nat) v).
Proof.
  intros Hn. unfold calc_insert. set (ext := chain ++ replicate _ _). set (acc := mkNodeData _ _).
  fold (finish_insert (merge_up (S (length ext)) ext c acc)).
  assert (none_below c ext) as Hn'.
  { intros i nd Hi Hl. unfold ext in Hl. apply lookup_app_Some in Hl as [Hl|[_ Hl]]; [by eapply Hn|].
    by apply lookup_replicate_1 in Hl as [? _]. }
  assert (c < length ext)%nat as Hlen by (unfold ext; rewrite length_app, length_replicate; lia).
  rewrite (none_below_app c ext Hn' ltac:(lia)) at 2.
  replace c with (length (replicate c (None : option NodeData))) at 3 by apply length_replicate.
  rewrite merge_up_carry by (rewrite length_drop; lia). f_equal.
  unfold ext. destruct (decide (c < length chain)%nat) as [Hlt|Hge].
  - rewrite drop_app_le by lia. replace (c + 1 - length chain)%nat with O by lia. by rewrite app_nil_r.
  - rewrite drop_app_ge, (drop_ge chain) by lia.
    replace (c + 1 - length chain)%nat with ((c - length chain) + 1)%nat by lia.
    rewrite drop_replicate. by replace (_ + 1 - _)%nat with 1%nat by lia.
Qed.

Lemma carry_root c rest acc :
  calc_root (replicate c None ++ carry rest acc) = Ok (nd_value (fold_rest acc rest)).
Proof.
  assert (forall (l : Chain) nd r, first_some l = Some (nd, r) ->
            calc_root l = Ok (nd_value (fold_rest nd r))) as Hroot.
  { intros [|o l] nd r Hl; [done|]. unfold calc_root. by rewrite Hl. }
  assert (forall l, first_some (replicate c None ++ l) = first_some l) as Hskip.
  { intros l. induction c as [|c IH]; cbn; [done|]. by apply IH. }
  assert (exists nd r, first_some (carry rest acc) = Some (nd, r) /\ fold_rest nd r = fold_rest acc rest)
    as (nd & r & Hf & Heq).
  { revert acc. induction rest as [|[nd|] rest IH]; intros acc; cbn; [by do 2 eexists|by apply IH|by do 2 eexists]. }
  rewrite (Hroot _ nd r), Heq; [done|]. by rewrite Hskip.
Qed.

(** Two full siblings are one full subtree of the next level. *)
Lemma calc_insert_twice c v w chain :
  none_below (S c) chain ->
  let x := mkNodeData (negb (c =? 0)%nat) v in
  let y := mkNodeData (negb (c =? 0)%nat) w in
  calc_insert c w (calc_insert c v chain) = calc_insert (S c) (nd_value (tree_hash x y)) chain.
Proof.
  intros Hn x y.
  assert (none_below c chain) as Hc by (intros i nd Hi; apply Hn; lia).
  rewrite (calc_insert_eq c v chain Hc), (calc_insert_eq (S c)) by done. fold x.
  assert (carry (drop c chain) x = Some x :: drop (S c) chain) as Hcarry.
  { destruct (chain !! c) as [[nd|]|] eqn:E.
    - exfalso. by apply (Hn c nd); [lia|].
    - by rewrite (drop_S _ _ _ E).
    - apply lookup_ge_None_1 in E. by rewrite !drop_ge by lia. }
  rewrite Hcarry. rewrite calc_insert_eq.
  - rewrite drop_app_ge by (by rewrite length_replicate). rewrite length_replicate, Nat.sub_diag.
    cbn [drop carry]. fold y. by rewrite replicate_S_end, <- app_assoc.
  - intros i nd Hi Hl. rewrite lookup_app_l in Hl by (by rewrite length_replicate).
    by apply lookup_replicate_1 in Hl as [? _].
Qed.

Lemma insert_all_app a b chain : insert_all (a ++ b) chain = insert_all b (insert_all a chain).
Proof. apply fold_left_app. Qed.

Lemma carry_none_below c rest acc c' :
  (c' <= c)%nat -> none_below c' (replicate c None ++ carry rest acc).
Proof.
  intros Hc i nd Hi Hl. rewrite lookup_app_l in Hl by (rewrite length_replicate; lia).
  by apply lookup_replicate_1 in Hl as [? _].
Qed.

Lemma evaluates_level n t l nd strs lo m :
  evaluates t l nd strs -> wf_tree n lo m t -> interior nd = negb (lvl m =? 0)%nat.
Proof.
  intros [t' v|lo' m' tl tr a b x y sa sb Ha Hb] Hwf.
  - cbn. by destruct (wf_tree_id _ _ _ _ Hwf) as [_ ->].
  - inversion Hwf; subst. cbn. by rewrite lvl_ge2 by done.
Qed.

(** Inserting a cut through a full subtree is inserting its hash. *)
Lemma insert_full n t l nd strs lo m chain :
  evaluates t l nd strs -> wf_tree n lo m t -> full m -> none_below (lvl m) chain ->
  insert_all l chain = calc_insert (lvl m) (nd_value nd) chain.
Proof.
  intros Hev. revert lo m chain.
  induction Hev as [t v|lo' m' tl tr a b x y sa sb Ha IHa Hb IHb]; intros lo m chain Hwf Hfull Hn.
  - destruct (wf_tree_id _ _ _ _ Hwf) as [Hid Hlvl]. apply wf_tree_subtree in Hwf as (Hs & _).
    cbn. by rewrite Hid, (level_nid n lo m).
  - apply wf_node_inv in Hwf as (<- & <- & Hs & Hm & Hl & Hr). rewrite insert_all_app.
    pose proof (full_right m Hm Hfull) as Heq. pose proof (lvl_split m Hm) as Hlvl.
    destruct (lvl_succ m Hm) as [c HS]. rewrite HS in *. rewrite Nat.sub_1_r in Hlvl. cbn in Hlvl.
    assert (none_below (lvl (split m)) chain) as Hn' by (intros i nd Hi; apply Hn; lia).
    rewrite (IHa _ _ chain Hl (full_split m Hm) Hn').
    rewrite (IHb _ _ _ Hr); [|by rewrite Heq; apply full_split|].
    2: { rewrite Heq, (calc_insert_eq _ _ _ Hn'). by apply carry_none_below. }
    rewrite Heq, Hlvl, calc_insert_twice by done.
    pose proof (evaluates_level _ _ _ _ _ _ _ Ha Hl) as Hix. pose proof (evaluates_level _ _ _ _ _ _ _ Hb Hr) as Hiy.
    rewrite Heq, Hlvl in *. f_equal. f_equal. destruct x as [ix vx], y as [iy vy]. cbn in Hix, Hiy.
    by subst.
Qed.

Lemma drop_carry_none rest chain c :
  none_below (S c) chain -> drop c chain = rest ->
  forall acc, fold_rest acc rest = fold_rest acc (drop (S c) chain) /\
              carry rest acc = Some acc :: drop (S c) chain.
Proof.
  intros Hn <- acc. destruct (chain !! c) as [[nd|]|] eqn:E.
  - exfalso. by apply (Hn c nd); [lia|].
  - by rewrite (drop_S _ _ _ E).
  - apply lookup_ge_None_1 in E. by rewrite !drop_ge by lia.
Qed.

Lemma fold_rest_none acc (c c' : nat) l :
  (c' <= c)%nat -> fold_rest acc (drop c' (replicate c None ++ l)) = fold_rest acc l.
Proof.
  intros Hc. rewrite drop_app_le by (rewrite length_replicate; lia). rewrite drop_replicate.
  induction (c - c')%nat as [|d IH]; [done|]. cbn. apply IH.
Qed.

(** After any cut of the rightmost subtree, the root is that of the whole. *)
Lemma insert_root n t l nd strs lo m chain :
  evaluates t l nd strs -> wf_tree n lo m t -> none_below (lvl m) chain ->
  calc_root (insert_all l chain) = Ok (nd_value (fold_rest nd (drop (lvl m) chain))).
Proof.
  intros Hev. revert lo m chain.
  induction Hev as [t v|lo' m' tl tr a b x y sa sb Ha IHa Hb IHb]; intros lo m chain Hwf Hn.
  - destruct (wf_tree_id _ _ _ _ Hwf) as [Hid Hlvl]. apply wf_tree_subtree in Hwf as (Hs & _).
    cbn. rewrite Hid, (level_nid n lo m) by done. rewrite calc_insert_eq, carry_root by done.
    unfold given. by rewrite Hlvl.
  - apply wf_node_inv in Hwf as (<- & <- & Hs & Hm & Hl & Hr). rewrite insert_all_app.
    pose proof (lvl_split m Hm) as Hlvl. pose proof (lvl_right m Hm) as Hlvr.
    destruct (lvl_succ m Hm) as [c HS]. rewrite HS in *.
    rewrite Nat.sub_1_r in Hlvl, Hlvr. cbn in Hlvl, Hlvr.
    assert (none_below (lvl (split m)) chain) as Hn' by (intros i nd' Hi; apply Hn; lia).
    rewrite (insert_full _ _ _ _ _ _ _ chain Ha Hl (full_split m Hm) Hn').
    rewrite calc_insert_eq by done.
    rewrite (IHb _ _ _ Hr) by (apply carry_none_below; lia).
    rewrite fold_rest_none by lia. rewrite Hlvl.
    destruct (drop_carry_none _ chain _ Hn eq_refl (mkNodeData (negb (c =? 0)%nat) (nd_value x))) as [_ ->].
    cbn [fold_rest fold_left].
    pose proof (evaluates_level _ _ _ _ _ _ _ Ha Hl) as Hix. rewrite Hlvl in Hix.
    destruct x as [ix vx]. cbn in Hix. by subst.
Qed.

Lemma calc_evaluates n t l nd strs m :
  evaluates t l nd strs -> wf_tree n 0 m t -> calc_root (insert_all l []) = Ok (nd_value nd).
Proof.
  intros Hev Hwf. rewrite (insert_root n t l nd strs 0 m []); [by rewrite drop_nil|done|done|].
  by intros i nd' _ ?.
Qed.
End calculator.
