(* ===== verification/KtLogProofs.v ===== *)
(** * KtLogProofs: the proofs of the log tree are complete and sound

    Section [navigation]: the id functions of KtLog compute the ids of KtMerkle's
    tree.  Section [consistency]: an honest consistency proof is accepted, and
    an accepted one shows that the older log is a prefix of the newer one,
    unless two of the strings hashed collide.  Logs have at most [2 ^ 63]
    leaves, so that node ids fit in a [u64]. *)

From S2P Require Import Prelude Types Primitives KtTree KtLog KtMerkle.
Open Scope string_scope.
Open Scope list_scope.
Open Scope Z_scope.

Definition MAX_LEAVES : Z := 2 ^ 63.

(** ** Navigation *)

Section navigation.
Context {E : Type}.
Implicit Types (n lo m : Z).

Lemma lvl_63 m : m <= MAX_LEAVES -> (lvl m <= 63)%nat.
Proof. intros Hm. rewrite <- (lvl_pow 63). by apply lvl_mono. Qed.

Lemma node_width_ok n : 1 <= n <= MAX_LEAVES -> @math.node_width E n = Ok (2 * n - 1).
Proof.
  unfold MAX_LEAVES. intros Hn. unfold math.node_width. rewrite (proj2 (Z.eqb_neq _ _)) by lia.
  rewrite u64_sub_ok by lia. cbn [mbind outcome_bind].
  rewrite u64_mul_ok by (unfold u64_max; lia). cbn [mbind outcome_bind].
  rewrite u64_add_ok by (unfold u64_max; lia). f_equal. lia.
Qed.

Lemma log2_width n : 1 <= n -> log2 (2 * n - 1) = Z.of_nat (lvl n).
Proof.
  intros Hn. unfold log2. apply Z.log2_unique; [lia|]. pose proof (lvl_upper n Hn).
  rewrite Z.pow_succ_r by lia. destruct (Z.eq_dec n 1) as [->|]; [by rewrite lvl_1|].
  pose proof (lvl_lower n ltac:(lia)). destruct (lvl_succ n ltac:(lia)) as [c Hc]. rewrite Hc in *.
  rewrite Nat.sub_1_r in *. cbn [Nat.pred] in *. rewrite pow2_S in *. lia.
Qed.

Lemma root_ok n : 1 <= n <= MAX_LEAVES -> @math.root E n = Ok (nid 0 n).
Proof.
  intros Hn. unfold math.root. rewrite node_width_ok by done. cbn [mbind outcome_bind].
  rewrite log2_width by lia. pose proof (lvl_63 n ltac:(lia)). pose proof (pow2_le (lvl n) ltac:(lia)).
  pose proof (pow2_pos (lvl n)).
  rewrite u64_shl_ok by (unfold u64_max; lia). cbn [mbind outcome_bind].
  rewrite u64_sub_ok by lia. rewrite (nid_eq n 0 n) by (apply subtree_top; lia). f_equal. lia.
Qed.

Lemma subtree_lvl n lo m : n <= MAX_LEAVES -> subtree n lo m -> (lvl m <= 63)%nat.
Proof. intros Hn [H1 H2 H3 _ _]. apply lvl_63. lia. Qed.

Lemma aligned_double (k : nat) lo : (2 ^ Z.of_nat (S k) | lo) -> lo / 2 ^ Z.of_nat k = 2 * (lo / 2 ^ Z.of_nat (S k)).
Proof.
  intros [q ->]. pose proof (pow2_pos k). pose proof (pow2_pos (S k)). rewrite Z.div_mul by lia.
  rewrite pow2_S. replace (q * (2 * 2 ^ Z.of_nat k)) with (2 * q * 2 ^ Z.of_nat k) by lia.
  by rewrite Z.div_mul by lia.
Qed.

Lemma aligned_half (k : nat) lo :
  (2 ^ Z.of_nat (S k) | lo) -> (lo + 2 ^ Z.of_nat k) / 2 ^ Z.of_nat k = 2 * (lo / 2 ^ Z.of_nat (S k)) + 1.
Proof.
  intros H. pose proof (pow2_pos k). rewrite <- (aligned_double k lo H).
  replace (lo + 2 ^ Z.of_nat k) with (lo + 1 * 2 ^ Z.of_nat k) by lia. by rewrite Z.div_add by lia.
Qed.

Lemma nid_children n lo m :
  2 <= m -> subtree n lo m -> exists c j, lvl m = S c /\ 0 <= j /\ split m = 2 ^ Z.of_nat c /\
    nid lo m = node (S c) j /\ nid lo (split m) = node c (2 * j) /\
    node c ((lo + split m) / 2 ^ Z.of_nat c) = node c (2 * j + 1) /\
    (2 ^ Z.of_nat c | lo + split m) /\ j = lo / 2 ^ Z.of_nat (S c).
Proof.
  intros Hm [H1 H2 H3 H4 H5]. destruct (lvl_succ m Hm) as [c Hc]. exists c, (lo / 2 ^ Z.of_nat (S c)).
  assert (split m = 2 ^ Z.of_nat c) as Hs by (rewrite split_pow, Hc by done; f_equal; lia).
  rewrite Hc in H4. split_and!; [done|apply Z.div_pos; [done|apply pow2_pos]|done| | | | |done].
  - unfold nid. by rewrite Hc.
  - unfold nid. rewrite (lvl_split m Hm), Hc. replace (S c - 1)%nat with c by lia. by rewrite aligned_double.
  - by rewrite Hs, aligned_half.
  - rewrite Hs. apply Z.divide_add_r; [|apply Z.divide_refl].
    eapply Z.divide_trans; [apply (pow2_divide c (S c)); lia|done].
Qed.

Lemma left_ok n lo m :
  n <= MAX_LEAVES -> 2 <= m -> subtree n lo m -> @math.left E (nid lo m) = Ok (nid lo (split m)).
Proof.
  intros Hn Hm Hs. destruct (nid_children n lo m Hm Hs) as (c & j & Hc & Hj & _ & -> & -> & _).
  pose proof (subtree_lvl n lo m Hn Hs). unfold math.left. apply left_step_node; [done|lia].
Qed.

(** In the tree, and above it on the right edge. *)
Lemma nid_lt n lo m : subtree n lo m -> nid lo m < 2 * n - 1.
Proof.
  intros Hs. rewrite (nid_eq n lo m Hs). destruct Hs as [H1 H2 H3 _ _].
  destruct (Z.eq_dec m 1) as [->|]; [rewrite lvl_1 by lia; change (2 ^ Z.of_nat 0) with 1; lia|].
  pose proof (lvl_lower m ltac:(lia)). destruct (lvl_succ m ltac:(lia)) as [c Hc]. rewrite Hc in *.
  rewrite Nat.sub_1_r in *. cbn [Nat.pred] in *. rewrite pow2_S. lia.
Qed.

Lemma node_above n lo m (k : nat) :
  subtree n lo m -> lo + m = n -> (lvl m < k)%nat -> (2 ^ Z.of_nat k | lo) ->
  2 * n - 1 <= node k (lo / 2 ^ Z.of_nat k).
Proof.
  intros [H1 H2 H3 _ _] He Hk [q Hq]. pose proof (pow2_pos k). unfold node. rewrite Hq, Z.div_mul by lia.
  pose proof (lvl_upper m H2). assert (2 * 2 ^ Z.of_nat (lvl m) <= 2 ^ Z.of_nat k).
  { rewrite <- pow2_S. apply Z.pow_le_mono_r; lia. }
  lia.
Qed.

Lemma down_left_ok n lo m (k fuel : nat) :
  n <= MAX_LEAVES -> subtree n lo m -> (lvl m <= k)%nat -> (k <= 63)%nat -> (k - lvl m <= fuel)%nat ->
  (2 ^ Z.of_nat k | lo) -> k = lvl m \/ lo + m = n ->
  @math.down_left E fuel (node k (lo / 2 ^ Z.of_nat k)) (2 * n - 1) = Ok (nid lo m).
Proof.
  intros Hn Hs Hk Hk63. revert k Hk Hk63. induction fuel as [|fuel IH]; intros k Hk Hk63 Hf Hal Hsh;
    (destruct (decide (k = lvl m)) as [->|Hne];
     [pose proof (nid_lt n lo m Hs); unfold nid in *; cbn [math.down_left];
      by rewrite (proj2 (Z.leb_gt _ _)) by done|]); [lia|].
  destruct Hsh as [?|Hend]; [done|]. cbn [math.down_left].
  pose proof (node_above n lo m k Hs Hend ltac:(lia) Hal) as Hab. rewrite (proj2 (Z.leb_le _ _)) by done.
  destruct k as [|k]; [lia|]. unfold math.left.
  rewrite left_step_node; [|apply Z.div_pos; [apply Hs|apply pow2_pos]|lia]. cbn [mbind outcome_bind].
  rewrite <- aligned_double by done. apply IH; [lia|lia|lia| |by right].
  eapply Z.divide_trans; [apply (pow2_divide k (S k)); lia|done].
Qed.

Lemma right_ok n lo m :
  n <= MAX_LEAVES -> 2 <= m -> subtree n lo m ->
  @math.right E (nid lo m) n = Ok (nid (lo + split m) (m - split m)).
Proof.
  intros Hn Hm Hs. pose proof (subtree_right n lo m Hm Hs) as Hr. pose proof (subtree_lvl n lo m Hn Hs).
  destruct (nid_children n lo m Hm Hs) as (c & j & Hc & Hj & Hsp & -> & _ & Hnode & Hal & _).
  pose proof (lvl_right m Hm). unfold math.right. rewrite Hc in *.
  assert (1 <= n) by (destruct Hs; lia).
  destruct (decide (c = 63)%nat) as [->|].
  { assert (S 63 <= 63)%nat; lia. }
  rewrite right_step_node by (done || lia). cbn [mbind outcome_bind]. rewrite node_width_ok by lia.
  cbn [mbind outcome_bind]. rewrite <- Hnode. apply down_left_ok; try done; try lia.
  destruct Hs as [_ _ _ _ [He|Hf]]; [right; lia|left].
  rewrite (full_right m Hm Hf), lvl_split, Hc by done. lia.
Qed.

Lemma up_ok n lo m (i fuel : nat) :
  n <= MAX_LEAVES -> 2 <= m -> subtree n lo m ->
  (lvl (m - split m) < i <= lvl m)%nat -> (lvl m - i <= fuel)%nat ->
  i = lvl m \/ lo + m = n ->
  @math.up E fuel (node i ((lo + split m) / 2 ^ Z.of_nat i)) (2 * n - 1) = Ok (nid lo m).
Proof.
  intros Hn Hm Hs. revert i. pose proof (subtree_lvl n lo m Hn Hs) as H63.
  pose proof (subtree_right n lo m Hm Hs) as Hr.
  destruct (nid_children n lo m Hm Hs) as (c & j & Hc & Hj & Hsp & Hnid & _ & Hnode & Hal & Ej).
  assert ((lo + split m) / 2 ^ Z.of_nat (S c) = j) as Htop.
  { rewrite Ej. destruct Hs as [_ _ _ [q Hq] _]. rewrite Hsp. rewrite Hc in Hq. pose proof (pow2_pos (S c)).
    rewrite Hq, Z.div_mul by lia. symmetry. apply Z.div_unique with (r := 2 ^ Z.of_nat c); [|lia].
    rewrite pow2_S. pose proof (pow2_pos c). lia. }
  rewrite Hc in *. induction fuel as [|fuel IH]; intros i Hi Hf Hsh;
    (destruct (decide (i = S c)) as [->|Hne];
     [pose proof (nid_lt n lo m Hs); rewrite Htop, <- Hnid; cbn [math.up];
      by rewrite (proj2 (Z.leb_gt _ _)) by done|]); [lia|].
  destruct Hsh as [?|Hend]; [lia|]. cbn [math.up].
  assert (2 ^ Z.of_nat i | lo + split m) as Hali.
  { eapply Z.divide_trans; [apply (pow2_divide i c); lia|done]. }
  pose proof (node_above n (lo + split m) (m - split m) i Hr ltac:(lia) ltac:(lia) Hali) as Hab.
  rewrite (proj2 (Z.leb_le _ _)) by done.
  rewrite parent_step_node; [|apply Z.div_pos; [apply Hr|apply pow2_pos]|lia]. cbn [mbind outcome_bind].
  rewrite Z.div_div by (try apply pow2_pos; try lia; pose proof (pow2_pos i); lia).
  rewrite Z.mul_comm, <- pow2_S. apply IH; [lia|lia|by right].
Qed.

Lemma child_not_root n lo m lo' m' :
  2 <= m -> subtree n lo m -> subtree n lo' m' -> (lvl m' < lvl m)%nat -> nid lo' m' <> nid 0 n.
Proof.
  intros Hm Hs Hs' Hlt Heq. assert (1 <= n) by (destruct Hs; lia).
  pose proof (level_nid n lo' m' Hs') as H1. rewrite Heq, (level_nid n 0 n) in H1 by (by apply subtree_top).
  assert (lvl m <= lvl n)%nat; [|lia]. apply lvl_mono. destruct Hs. lia.
Qed.

Lemma parent_left n lo m :
  n <= MAX_LEAVES -> 2 <= m -> subtree n lo m -> @math.parent E (nid lo (split m)) n = Ok (nid lo m).
Proof.
  intros Hn Hm Hs. assert (1 <= n) by (destruct Hs; lia). pose proof (subtree_lvl n lo m Hn Hs).
  pose proof (subtree_left n lo m Hm Hs) as Hl.
  unfold math.parent. rewrite root_ok by lia. cbn [mbind outcome_bind].
  rewrite (proj2 (Z.eqb_neq _ _)).
  2: { apply (child_not_root n lo m); try done. rewrite lvl_split by done. destruct (lvl_succ m Hm). lia. }
  rewrite node_width_ok by lia. cbn [mbind outcome_bind].
  destruct (nid_children n lo m Hm Hs) as (c & j & Hc & Hj & Hsp & Hnid & Hleft & Hnode & Hal & Ej).
  rewrite Hleft, parent_step_node by lia. cbn [mbind outcome_bind].
  rewrite (Z.mul_comm 2 j), Z.div_mul, <- Hnid by lia. pose proof (nid_lt n lo m Hs).
  change (math.up 64 (nid lo m) (2 * n - 1)) with
    (if 2 * n - 1 <=? nid lo m then p ← parent_step (nid lo m); @math.up E 63 p (2 * n - 1) else Ok (nid lo m)).
  by rewrite (proj2 (Z.leb_gt _ _)) by done.
Qed.

Lemma parent_right n lo m :
  n <= MAX_LEAVES -> 2 <= m -> subtree n lo m ->
  @math.parent E (nid (lo + split m) (m - split m)) n = Ok (nid lo m).
Proof.
  intros Hn Hm Hs. assert (1 <= n) by (destruct Hs; lia). pose proof (subtree_lvl n lo m Hn Hs).
  pose proof (subtree_right n lo m Hm Hs) as Hr. pose proof (lvl_right m Hm).
  destruct (nid_children n lo m Hm Hs) as (c & j & Hc & Hj & Hsp & Hnid & Hleft & Hnode & Hal & Ej).
  unfold math.parent. rewrite root_ok by lia. cbn [mbind outcome_bind].
  rewrite (proj2 (Z.eqb_neq _ _)) by (apply (child_not_root n lo m); try done; lia).
  rewrite node_width_ok by lia. cbn [mbind outcome_bind]. unfold nid at 1.
  rewrite parent_step_node; [|apply Z.div_pos; [apply Hr|apply pow2_pos]|lia]. cbn [mbind outcome_bind].
  rewrite Z.div_div by (try apply pow2_pos; try lia; pose proof (pow2_pos (lvl (m - split m))); lia).
  rewrite Z.mul_comm, <- pow2_S. apply up_ok; try done; try lia.
  destruct Hs as [_ _ _ _ [He|Hf]]; [by right|left].
  rewrite (full_right m Hm Hf), lvl_split by done. lia.
Qed.

Lemma nid_left_lt n lo m : 2 <= m -> subtree n lo m -> nid lo (split m) < nid lo m.
Proof.
  intros Hm Hs. destruct (nid_children n lo m Hm Hs) as (c & j & _ & _ & _ & -> & -> & _).
  apply (covers_children c j), covers_node.
Qed.

Lemma nid_right_gt n lo m : 2 <= m -> subtree n lo m -> nid lo m < nid (lo + split m) (m - split m).
Proof.
  intros Hm Hs. rewrite (nid_eq n lo m Hs), (nid_eq n _ _ (subtree_right n lo m Hm Hs)).
  destruct (nid_children n lo m Hm Hs) as (c & j & Hc & _ & -> & _). rewrite Hc, pow2_S.
  pose proof (pow2_pos (lvl (m - 2 ^ Z.of_nat c))). lia.
Qed.

Lemma sibling_left n lo m :
  n <= MAX_LEAVES -> 2 <= m -> subtree n lo m ->
  @math.sibling E (nid lo (split m)) n = Ok (nid (lo + split m) (m - split m)).
Proof.
  intros Hn Hm Hs. unfold math.sibling. rewrite (parent_left n lo m) by done. cbn [mbind outcome_bind].
  rewrite (proj2 (Z.ltb_lt _ _)) by (by eapply nid_left_lt). by apply right_ok.
Qed.

Lemma sibling_right n lo m :
  n <= MAX_LEAVES -> 2 <= m -> subtree n lo m ->
  @math.sibling E (nid (lo + split m) (m - split m)) n = Ok (nid lo (split m)).
Proof.
  intros Hn Hm Hs. unfold math.sibling. rewrite (parent_right n lo m) by done. cbn [mbind outcome_bind].
  pose proof (nid_right_gt n lo m Hm Hs). rewrite (proj2 (Z.ltb_ge _ _)) by lia. by eapply left_ok.
Qed.

Lemma is_full_subtree_ok n lo m :
  n <= MAX_LEAVES -> subtree n lo m ->
  @math.is_full_subtree E (nid lo m) n = Ok (bool_decide (full m)).
Proof.
  intros Hn Hs. pose proof (subtree_lvl n lo m Hn Hs). pose proof (level_nid n lo m Hs) as Hlev.
  pose proof (nid_eq n lo m Hs) as Hnid. pose proof (pow2_pos (lvl m)) as Hp1.
  pose proof (pow2_le (lvl m) ltac:(lia)) as Hp2.
  destruct Hs as [H1 H2 H3 [q Hq] H5]. unfold MAX_LEAVES in *.
  assert (lo + 2 ^ Z.of_nat (lvl m) <= 2 ^ 63) as Hb.
  { destruct (pow2_divide (lvl m) 63 ltac:(lia)) as [r Hr]. change (Z.of_nat 63) with 63 in Hr.
    assert (q < r) by (apply (Z.mul_lt_mono_pos_r (2 ^ Z.of_nat (lvl m))); lia). nia. }
  unfold math.is_full_subtree. rewrite u64_sub_ok by lia. cbn [mbind outcome_bind].
  rewrite u64_mul_ok by (unfold u64_max; lia). cbn [mbind outcome_bind]. rewrite Hlev.
  rewrite (u64_shl_ok 1) by (unfold u64_max; lia). cbn [mbind outcome_bind].
  rewrite u64_add_ok by (unfold u64_max; lia). cbn [mbind outcome_bind].
  rewrite u64_sub_ok by lia. cbn [mbind outcome_bind]. f_equal. rewrite Hnid.
  pose proof (lvl_upper m H2). case_bool_decide as Hf; unfold full in Hf.
  - apply Z.leb_le. lia.
  - apply Z.leb_gt. destruct H5 as [H5|H5]; [|done]. lia.
Qed.
End navigation.

(** ** Cuts *)

(** [cut_of t ls]: the subtrees [ls] are a cut through [t]. *)
Inductive cut_of : ltree -> list ltree -> Prop :=
| cut_whole t : cut_of t [t]
| cut_split lo m l r a b : cut_of l a -> cut_of r b -> cut_of (LNode lo m l r) (a ++ b).

Section cuts.
Implicit Types (n lo m : Z) (t s : ltree) (ls : list ltree).

Lemma cut_of_within t ls s : cut_of t ls -> s ∈ ls -> within s t.
Proof.
  induction 1 as [t|lo m l r a b Ha IHa Hb IHb]; intros Hs.
  - apply list_elem_of_singleton in Hs as ->. apply within_refl.
  - right. apply elem_of_app in Hs as [Hs|Hs]; auto.
Qed.

Lemma within_wf n lo m t s : wf_tree n lo m t -> within s t ->
  exists lo' m', wf_tree n lo' m' s /\ lo <= lo' /\ lo' + m' <= lo + m.
Proof.
  induction 1 as [lo Hs|lo m l r Hs Hm Hl IHl Hr IHr].
  - intros [->|[]]. exists lo, 1. split_and!; [by constructor|lia|lia].
  - pose proof (split_bounds m Hm). intros [->|[Hw|Hw]].
    + exists lo, m. split_and!; [by constructor|lia|lia].
    + destruct (IHl Hw) as (lo' & m' & Hwf & ? & ?). exists lo', m'. split_and!; [done|lia|lia].
    + destruct (IHr Hw) as (lo' & m' & Hwf & ? & ?). exists lo', m'. split_and!; [done|lia|lia].
Qed.

(** The ids of a subtree lie between those of its first and last leaf. *)
Lemma tid_range n lo m t : wf_tree n lo m t -> 2 * lo <= tid t <= 2 * (lo + m - 1).
Proof.
  intros Hwf. destruct (wf_tree_id _ _ _ _ Hwf) as [-> _]. apply wf_tree_subtree in Hwf as (Hs & _).
  rewrite (nid_eq n lo m Hs). pose proof (pow2_pos (lvl m)). split; [lia|].
  destruct Hs as [_ H2 _ _ _]. destruct (Z.eq_dec m 1) as [->|].
  - rewrite lvl_1 by lia. change (2 ^ Z.of_nat 0) with 1. lia.
  - pose proof (lvl_lower m ltac:(lia)). destruct (lvl_succ m ltac:(lia)) as [c Hc]. rewrite Hc in *.
    rewrite Nat.sub_1_r in *. cbn [Nat.pred] in *. rewrite pow2_S. lia.
Qed.

Lemma tid_node n lo m t (l r : ltree) :
  wf_tree n lo m t -> t = LNode lo m l r -> tid t = 2 * (lo + split m) - 1.
Proof.
  intros Hwf ->. destruct (wf_tree_id _ _ _ _ Hwf) as [-> _].
  apply wf_node_inv in Hwf as (_ & _ & Hs & Hm & _). rewrite (nid_eq n lo m Hs).
  destruct (nid_children n lo m Hm Hs) as (c & j & Hc & _ & -> & _). rewrite Hc, pow2_S. lia.
Qed.

Lemma within_left_lt n lo m (l r : ltree) s :
  wf_tree n lo m (LNode lo m l r) -> within s l -> tid s < tid (LNode lo m l r).
Proof.
  intros Hwf Hw. rewrite (tid_node n lo m _ l r Hwf eq_refl).
  apply wf_node_inv in Hwf as (_ & _ & Hs & Hm & Hl & _).
  destruct (within_wf _ _ _ _ _ Hl Hw) as (lo' & m' & Hwf' & ? & ?).
  pose proof (tid_range _ _ _ _ Hwf'). lia.
Qed.

Lemma within_right_gt n lo m (l r : ltree) s :
  wf_tree n lo m (LNode lo m l r) -> within s r -> tid (LNode lo m l r) < tid s.
Proof.
  intros Hwf Hw. rewrite (tid_node n lo m _ l r Hwf eq_refl).
  apply wf_node_inv in Hwf as (_ & _ & Hs & Hm & _ & Hr).
  destruct (within_wf _ _ _ _ _ Hr Hw) as (lo' & m' & Hwf' & ? & ?).
  pose proof (tid_range _ _ _ _ Hwf'). lia.
Qed.

Lemma node_hash_within n lo m t s `{Sha256} f :
  wf_tree n lo m t -> within s t -> node_hash f t (tid s) = nd_value (thash f s).
Proof.
  induction 1 as [lo Hs|lo m l r Hs Hm Hl IHl Hr IHr]; intros Hw.
  - destruct Hw as [->|[]]. cbn. by rewrite Z.eqb_refl.
  - assert (wf_tree n lo m (LNode lo m l r)) as Hwf by by constructor.
    destruct Hw as [->|[Hw|Hw]]; cbn [node_hash].
    + by rewrite Z.eqb_refl.
    + pose proof (within_left_lt _ _ _ _ _ _ Hwf Hw) as Hlt.
      rewrite (proj2 (Z.eqb_neq _ _)), (proj2 (Z.ltb_lt _ _)) by lia. by apply IHl.
    + pose proof (within_right_gt _ _ _ _ _ _ Hwf Hw) as Hgt.
      rewrite (proj2 (Z.eqb_neq _ _)), (proj2 (Z.ltb_ge _ _)) by lia. by apply IHr.
Qed.

Context `{Sha256}.

(** Any hashes given for a cut can be evaluated... *)
Lemma cut_evaluates t ls (vs : list Hash) :
  cut_of t ls -> length vs = length ls -> exists nd strs, evaluates t (zip (tid <$> ls) vs) nd strs.
Proof.
  intros Hc. revert vs. induction Hc as [t|lo m l r a b Ha IHa Hb IHb]; intros vs Hlen.
  - destruct vs as [|v [|]]; try done. cbn. eexists _, _. apply ev_given.
  - rewrite length_app in Hlen. destruct (IHa (take (length a) vs)) as (x & sa & Hx); [rewrite length_take; lia|].
    destruct (IHb (drop (length a) vs)) as (y & sb & Hy); [rewrite length_drop; lia|].
    eexists _, _. rewrite <- (take_drop (length a) vs), fmap_app, zip_with_app.
    + by apply ev_split.
    + rewrite length_fmap, length_take. lia.
Qed.

(** ...and evaluating is what [evaluate_cut] does. *)
Lemma evaluates_ids t l nd strs n lo m :
  evaluates t l nd strs -> wf_tree n lo m t -> l <> [] /\ Forall (fun p => 2 * lo <= p.1 <= 2 * (lo + m - 1)) l.
Proof.
  intros Hev. revert lo m. induction Hev as [t v|lo' m' l r a b x y sa sb Ha IHa Hb IHb]; intros lo m Hwf.
  - split; [done|]. apply Forall_singleton. cbn. by apply (tid_range n).
  - apply wf_node_inv in Hwf as (<- & <- & Hs & Hm & Hl & Hr). pose proof (split_bounds m Hm).
    destruct (IHa _ _ Hl) as [Hne HA], (IHb _ _ Hr) as [_ HB]. split; [by destruct a|].
    apply Forall_app. split; (eapply Forall_impl; [done|]); cbn; intros p ?; lia.
Qed.

Lemma evaluates_computed t l nd strs n lo m rest :
  evaluates t l nd strs -> wf_tree n lo m t -> evaluate_cut t (l ++ rest) = Some (nd, strs, rest).
Proof.
  intros Hev. revert lo m rest. induction Hev as [t v|lo' m' l r a b x y sa sb Ha IHa Hb IHb]; intros lo m rest Hwf.
  - cbn [app]. destruct t; cbn [evaluate_cut]; by rewrite Z.eqb_refl.
  - pose proof Hwf as Hwf'. apply wf_node_inv in Hwf' as (<- & <- & Hs & Hm & Hl & Hr).
    specialize (IHa _ _ (b ++ rest) Hl). specialize (IHb _ _ rest Hr).
    destruct (evaluates_ids _ _ _ _ _ _ _ Ha Hl) as [Hne HA].
    destruct a as [|[i v] a]; [done|]. apply Forall_cons in HA as [Hi _]. cbn [fst] in Hi.
    pose proof (tid_node _ _ _ _ _ _ Hwf eq_refl) as Htid.
    cbn [app evaluate_cut]. rewrite (proj2 (Z.eqb_neq _ _)) by lia.
    rewrite <- app_assoc. cbn [app] in IHa. rewrite IHa. cbn. by rewrite IHb.
Qed.

(** Evaluating the subtrees' own hashes gives the tree's hash. *)
Lemma evaluates_honest n lo m t ls f :
  cut_of t ls -> wf_tree n lo m t ->
  exists strs, evaluates t (zip (tid <$> ls) ((fun s => nd_value (thash f s)) <$> ls)) (thash f t) strs.
Proof.
  intros Hc. revert lo m. induction Hc as [t|lo' m' l r a b Ha IHa Hb IHb]; intros lo m Hwf.
  - exists []. cbn. replace (thash f t) with (given t (nd_value (thash f t))) at 2; [apply ev_given|].
    unfold given. rewrite <- (thash_interior n f lo m t Hwf). by destruct (thash f t).
  - apply wf_node_inv in Hwf as (<- & <- & Hs & Hm & Hl & Hr).
    destruct (IHa _ _ Hl) as [sa Hsa], (IHb _ _ Hr) as [sb Hsb]. eexists.
    rewrite !fmap_app, zip_with_app by (by rewrite !length_fmap). by apply ev_split.
Qed.
End cuts.

(** ** Consistency proofs *)

(** The full subtrees a tree consists of, largest first. *)
Fixpoint fulls (t : ltree) : list ltree :=
  if tsize t =? 2 ^ Z.of_nat (lvl (tsize t)) then [t]
  else match t with
       | LLeaf _ => [t]
       | LNode _ _ l r => l :: fulls r
       end.

(** The subtrees of a consistency proof for the first [p] leaves; with [b], those
    that make up a full subtree of [p] leaves are left out. *)
Fixpoint cuts (p : Z) (b : bool) (t : ltree) : list ltree :=
  if p =? tlo t + tsize t then if b then [] else [t]
  else match t with
       | LLeaf _ => []
       | LNode lo m l r => if p <=? lo + split m then cuts p b l ++ [r] else l :: cuts p false r
       end.

Section consistency.
Context {E : Type}.
Implicit Types (n lo m p : Z) (t s : ltree).

Lemma fulls_eq n lo m t :
  wf_tree n lo m t ->
  (full m /\ fulls t = [t]) \/
  (~ full m /\ exists l r, t = LNode lo m l r /\ 2 <= m /\ fulls t = l :: fulls r).
Proof.
  unfold full. intros Hwf. apply wf_tree_subtree in Hwf as Hsub. destruct Hsub as (Hs & Hlo & Hsz).
  destruct (Z.eqb_spec m (2 ^ Z.of_nat (lvl m))) as [He|He].
  - left. split; [done|]. destruct t; cbn [fulls]; rewrite Hsz; by rewrite (proj2 (Z.eqb_eq _ _)).
  - right. split; [done|]. inversion Hwf as [|? ? l r ? Hm]; subst.
    + by rewrite lvl_1 in He by lia.
    + exists l, r. split_and!; [done|done|]. cbn [fulls tsize]. by rewrite (proj2 (Z.eqb_neq _ _)).
Qed.

Lemma full_subtrees_ok n lo m t fuel :
  n <= MAX_LEAVES -> wf_tree n lo m t -> (lvl m <= fuel)%nat ->
  @math.full_subtrees_from E fuel (tid t) n = Ok (tid <$> fulls t).
Proof.
  intros Hn Hwf. revert fuel.
  induction Hwf as [lo Hs|lo m l r Hs Hm Hl IHl Hr IHr]; intros fuel Hf.
  - assert (wf_tree n lo 1 (LLeaf lo)) as Hwf by by constructor.
    destruct (wf_tree_id _ _ _ _ Hwf) as [Hid _].
    assert (full 1) as Hfull by (unfold full; by rewrite lvl_1 by lia).
    destruct (fulls_eq _ _ _ _ Hwf) as [[_ Hfl]|[Hnf _]]; [|done]. rewrite Hfl, Hid.
    destruct fuel; cbn [math.full_subtrees_from]; rewrite (is_full_subtree_ok n lo 1) by done;
      cbn [mbind outcome_bind]; rewrite bool_decide_true by done; cbn; by rewrite Hid.
  - assert (wf_tree n lo m (LNode lo m l r)) as Hwf by by constructor.
    destruct (wf_tree_id _ _ _ _ Hwf) as [Hid _]. destruct (wf_tree_id _ _ _ _ Hl) as [Hidl _].
    destruct (wf_tree_id _ _ _ _ Hr) as [Hidr _]. pose proof (lvl_right m Hm). destruct (lvl_succ m Hm) as [c Hc].
    destruct fuel as [|fuel]; [lia|]. cbn [math.full_subtrees_from]. rewrite Hid.
    rewrite (is_full_subtree_ok n lo m) by done. cbn [mbind outcome_bind].
    destruct (fulls_eq _ _ _ _ Hwf) as [[Hfu Hfl]|[Hnf (l' & r' & [= <- <-] & _ & Hfl)]]; rewrite Hfl.
    + rewrite bool_decide_true by done. by rewrite fmap_cons, Hid.
    + rewrite bool_decide_false by done. rewrite (right_ok n lo m) by done. cbn [mbind outcome_bind].
      rewrite (left_ok n lo m) by done. cbn [mbind outcome_bind]. rewrite <- Hidr, IHr by lia.
      cbn [mbind outcome_bind]. by rewrite fmap_cons, Hidl.
Qed.

Lemma split_code n :
  2 <= n -> (if 2 ^ log2 n =? n then 2 ^ log2 n / 2 else 2 ^ log2 n) = split n.
Proof.
  intros Hn. unfold log2, split. pose proof (Z.log2_spec n ltac:(lia)) as [H1 H2].
  pose proof (Z.log2_pos n ltac:(lia)). rewrite Z.pow_succ_r in H2 by lia.
  destruct (Z.eqb_spec (2 ^ Z.log2 n) n) as [He|He].
  - replace (Z.log2 n) with (Z.log2 n - 1 + 1) at 1 by lia. rewrite Z.pow_add_r by lia.
    change (2 ^ 1) with 2. rewrite Z.div_mul by lia. f_equal. symmetry. apply Z.log2_unique; [lia|].
    replace (Z.succ (Z.log2 n - 1)) with (Z.log2 n) by lia.
    replace (2 ^ Z.log2 n) with (2 * 2 ^ (Z.log2 n - 1)) in * .
    2: { rewrite <- Z.pow_succ_r by lia. f_equal. lia. }
    assert (0 < 2 ^ (Z.log2 n - 1)) by (apply Z.pow_pos_nonneg; lia). lia.
  - f_equal. symmetry. apply Z.log2_unique; [lia|]. rewrite Z.pow_succ_r by lia. lia.
Qed.

Lemma nid_shift n n' lo m d : subtree n lo m -> subtree n' (lo + d) m -> nid (lo + d) m = nid lo m + 2 * d.
Proof. intros Hs Hs'. rewrite (nid_eq _ _ _ Hs), (nid_eq _ _ _ Hs'). lia. Qed.

Lemma cuts_within p b t s : s ∈ cuts p b t -> within s t.
Proof.
  revert b. induction t as [lo|lo m l IHl r IHr]; intros b; cbn [cuts]; destruct (_ =? _).
  1, 3: destruct b; [by intros ?%not_elem_of_nil|intros ->%list_elem_of_singleton; by left].
  - by intros ?%not_elem_of_nil.
  - destruct (_ <=? _); intros Hs; right.
    + apply elem_of_app in Hs as [Hs| ->%list_elem_of_singleton]; [left; by eapply IHl|right; apply within_refl].
    + apply elem_of_cons in Hs as [->|Hs]; [left; apply within_refl|right; by eapply IHr].
Qed.

Lemma sub_proof_ok N lo n t p b fuel :
  N <= MAX_LEAVES -> wf_tree N lo n t -> lo < p <= lo + n -> (lvl n <= fuel)%nat ->
  @math.sub_proof_impl E fuel (p - lo) n b = Ok ((fun s => tid s - 2 * lo) <$> cuts p b t).
Proof.
  intros HN Hwf. revert p b fuel.
  induction Hwf as [lo Hs|lo n l r Hs Hn Hl IHl Hr IHr]; intros p b fuel Hp Hf.
  - replace p with (lo + 1) by lia. cbn [cuts tlo tsize]. rewrite Z.eqb_refl.
    replace (lo + 1 - lo) with 1 by lia.
    assert (@math.root E 1 = Ok (nid 0 1)) as Hroot by (apply root_ok; unfold MAX_LEAVES; lia).
    assert (tid (LLeaf lo) - 2 * lo = nid 0 1) as Hid.
    { unfold tid. cbn [tlo tsize]. rewrite (nid_eq N lo 1 Hs), (nid_eq 1 0 1) by (by apply subtree_top). lia. }
    destruct fuel; cbn [math.sub_proof_impl]; rewrite Z.eqb_refl; (destruct b; [done|]);
      rewrite Hroot; cbn [mbind outcome_bind]; rewrite fmap_cons, Hid; done.
  - assert (wf_tree N lo n (LNode lo n l r)) as Hwf by by constructor.
    destruct (wf_tree_id _ _ _ _ Hwf) as [Hid _].
    destruct (wf_tree_id _ _ _ _ Hl) as [Hidl _]. destruct (wf_tree_id _ _ _ _ Hr) as [Hidr _].
    assert (1 <= n <= MAX_LEAVES) as Hn' by (destruct Hs; unfold MAX_LEAVES in *; lia).
    pose proof (subtree_top n ltac:(lia)) as Htop.
    pose proof (split_bounds n Hn) as Hsp. destruct (lvl_succ n Hn) as [c Hc]. pose proof (lvl_right n Hn).
    cbn [cuts tlo tsize]. destruct fuel as [|fuel]; [lia|]. cbn [math.sub_proof_impl].
    destruct (Z.eqb_spec p (lo + n)) as [->|Hne].
    { replace (lo + n - lo) with n by lia. rewrite Z.eqb_refl. destruct b; [done|].
      rewrite root_ok by done. cbn [mbind outcome_bind]. rewrite fmap_cons, Hid. do 2 f_equal.
      rewrite (nid_eq N lo n Hs), (nid_eq n 0 n Htop). lia. }
    rewrite (proj2 (Z.eqb_neq _ _)) by lia.
    rewrite u64_shl_ok; [|lia| |].
    2: { pose proof (Z.log2_lt_pow2 n 64 ltac:(lia)). unfold log2, MAX_LEAVES in *. pose proof (Z.log2_nonneg n). lia. }
    2: { unfold log2. pose proof (Z.log2_spec n ltac:(lia)). unfold MAX_LEAVES, u64_max in *. lia. }
    cbn [mbind outcome_bind]. rewrite Z.mul_1_l, split_code by done.
    destruct (Z.leb_spec p (lo + split n)) as [Hle|Hgt].
    + rewrite (proj2 (Z.leb_le _ _)) by lia. rewrite IHl by (try lia; rewrite (lvl_split n Hn); lia).
      cbn [mbind outcome_bind]. rewrite root_ok by done. cbn [mbind outcome_bind].
      rewrite (right_ok n 0 n) by (done || lia). cbn [mbind outcome_bind].
      rewrite fmap_app. do 2 f_equal. cbn. rewrite Hidr. f_equal.
      pose proof (nid_shift n N (0 + split n) (n - split n) lo (subtree_right n 0 n Hn Htop)) as Hsh.
      replace (0 + split n + lo) with (lo + split n) in Hsh by lia.
      rewrite Hsh by (by apply subtree_right). lia.
    + rewrite (proj2 (Z.leb_gt _ _)) by lia. rewrite root_ok by done. cbn [mbind outcome_bind].
      rewrite (left_ok n 0 n) by (done || lia). cbn [mbind outcome_bind].
      rewrite u64_sub_ok by lia. cbn [mbind outcome_bind]. rewrite u64_sub_ok by lia. cbn [mbind outcome_bind].
      replace (p - lo - split n) with (p - (lo + split n)) by lia.
      rewrite IHr by lia. cbn [mbind outcome_bind].
      rewrite (mapM_Ok _ (fun x => x + 2 * split n)).
      2: { intros x (s & -> & Hs')%list_elem_of_fmap. apply cuts_within in Hs'.
           destruct (within_wf _ _ _ _ _ Hr Hs') as (lo' & m' & Hwf' & ? & ?).
           pose proof (tid_range _ _ _ _ Hwf'). unfold MAX_LEAVES in *.
           rewrite u64_mul_ok by (unfold u64_max; lia). cbn [mbind outcome_bind].
           rewrite u64_add_ok by (unfold u64_max; lia). done. }
      cbn [mbind outcome_bind]. rewrite fmap_cons, <- list_fmap_compose, Hidl.
      rewrite (list_fmap_ext (_ ∘ _) (fun s => tid s - 2 * lo)) by (intros; cbn; lia).
      do 2 f_equal.
      pose proof (nid_shift n N 0 (split n) lo (subtree_left n 0 n Hn Htop)) as Hsh.
      rewrite Z.add_0_l in Hsh. rewrite Hsh by (by apply subtree_left). lia.
Qed.

Lemma lvl_between n a : 2 <= n -> split n < a <= n -> split a = split n /\ 2 <= a.
Proof.
  intros Hn Ha. pose proof (split_bounds n Hn). split; [|lia]. unfold split in *. f_equal.
  pose proof (Z.log2_spec (n - 1) ltac:(lia)) as [H1 H2]. apply Z.log2_unique; [apply Z.log2_nonneg|]. lia.
Qed.

Lemma full_between n a : 2 <= n -> split n < a < n -> ~ full a.
Proof.
  intros Hn Ha Hf. destruct (lvl_between n a Hn ltac:(lia)) as [Hs Ha2].
  pose proof (full_right a Ha2 Hf). pose proof (split_bounds n Hn). lia.
Qed.

(** The subtrees for the first [p] leaves come first. *)
Lemma cuts_fulls n n' lo m t p s :
  wf_tree n lo m t -> lo < p <= lo + m -> (p = lo + m -> full m) -> wf_tree n' lo (p - lo) s ->
  exists rest, cuts p false t = fulls s ++ rest.
Proof.
  intros Hwf. revert p s n'. induction Hwf as [lo Hs|lo m l r Hs Hm Hl IHl Hr IHr]; intros p s n' Hp Hfull Hwfs.
  - exists []. replace p with (lo + 1) in * by lia. cbn [cuts tlo tsize]. rewrite Z.eqb_refl.
    inversion Hwfs; [|lia]. subst. cbn. by rewrite lvl_1 by lia.
  - pose proof (split_bounds m Hm). cbn [cuts tlo tsize]. destruct (Z.eqb_spec p (lo + m)) as [->|Hne].
    { exists []. replace (lo + m - lo) with m in Hwfs by lia.
      destruct (fulls_eq _ _ _ _ Hwfs) as [[_ ->]|[Hnf _]]; [|by destruct Hnf; apply Hfull].
      cbn [app]. f_equal. eapply wf_tree_unique; [|exact Hwfs]. by constructor. }
    destruct (Z.leb_spec p (lo + split m)) as [Hle|Hgt].
    + destruct (IHl p s n') as [rest Heq]; [lia|intros _; by apply full_split|done|].
      exists (rest ++ [r]). by rewrite Heq, app_assoc.
    + destruct (lvl_between m (p - lo) Hm ltac:(lia)) as [Hsp Ha].
      destruct (fulls_eq _ _ _ _ Hwfs) as [[Hf _]|[_ (l' & r' & -> & _ & ->)]].
      { exfalso. eapply (full_between m (p - lo)); [done|lia|done]. }
      apply wf_node_inv in Hwfs as (_ & _ & _ & _ & Hl' & Hr'). rewrite Hsp in Hl', Hr'.
      rewrite (wf_tree_unique _ _ _ _ _ _ Hl Hl').
      replace (p - lo - split m) with (p - (lo + split m)) in Hr' by lia.
      destruct (IHr p r' n') as [rest Heq]; [lia|lia|done|]. exists rest. by rewrite Heq.
Qed.

Lemma cuts_cut n lo m t p : wf_tree n lo m t -> lo < p <= lo + m -> cut_of t (cuts p false t).
Proof.
  intros Hwf. revert p. induction Hwf as [lo Hs|lo m l r Hs Hm Hl IHl Hr IHr]; intros p Hp; cbn [cuts tlo tsize].
  - replace p with (lo + 1) by lia. rewrite Z.eqb_refl. apply cut_whole.
  - destruct (Z.eqb_spec p (lo + m)); [apply cut_whole|]. pose proof (split_bounds m Hm).
    destruct (Z.leb_spec p (lo + split m)).
    + apply cut_split; [apply IHl; lia|apply cut_whole].
    + change (l :: cuts p false r) with ([l] ++ cuts p false r). apply cut_split; [apply cut_whole|apply IHr; lia].
Qed.

(** With a full number of leaves [p], the proof together with the tree of those
    leaves is a cut. *)
Lemma cuts_full n n' lo m t p s :
  wf_tree n lo m t -> lo < p <= lo + m -> full (p - lo) -> wf_tree n' lo (p - lo) s ->
  cut_of t (s :: cuts p true t).
Proof.
  intros Hwf. revert p s. induction Hwf as [lo Hs|lo m l r Hs Hm Hl IHl Hr IHr]; intros p s Hp Hfull Hwfs;
    cbn [cuts tlo tsize].
  - replace p with (lo + 1) in * by lia. rewrite Z.eqb_refl.
    replace s with (LLeaf lo); [apply cut_whole|]. eapply wf_tree_unique; [by constructor|].
    by replace (lo + 1 - lo) with 1 in Hwfs by lia.
  - pose proof (split_bounds m Hm). destruct (Z.eqb_spec p (lo + m)) as [->|Hne].
    { replace s with (LNode lo m l r); [apply cut_whole|]. eapply wf_tree_unique; [by constructor|].
      by replace (lo + m - lo) with m in Hwfs by lia. }
    destruct (Z.leb_spec p (lo + split m)).
    + rewrite app_comm_cons. apply cut_split; [apply IHl; [lia|done|done]|apply cut_whole].
    + exfalso. eapply (full_between m (p - lo)); [done|lia|done].
Qed.

Lemma cuts_not_full n lo m t p :
  wf_tree n lo m t -> lo < p <= lo + m -> (p = lo + m -> full m) -> ~ full (p - lo) ->
  cuts p true t = cuts p false t.
Proof.
  intros Hwf. revert p. induction Hwf as [lo Hs|lo m l r Hs Hm Hl IHl Hr IHr]; intros p Hp Hfull Hnf.
  - exfalso. apply Hnf. replace (p - lo) with 1 by lia. unfold full. by rewrite lvl_1 by lia.
  - cbn [cuts tlo tsize]. destruct (Z.eqb_spec p (lo + m)) as [->|Hne].
    { exfalso. apply Hnf. replace (lo + m - lo) with m by lia. by apply Hfull. }
    pose proof (split_bounds m Hm). destruct (Z.leb_spec p (lo + split m)); [|done].
    rewrite IHl; [done|lia| |done]. intros _. by apply full_split.
Qed.
End consistency.

Section consistency_proofs.
Context `{Sha256}.
Implicit Types (n m : Z) (t s : ltree) (L : list Hash).

Lemma insert_path_ok ls rest (vs : list Hash) calc :
  Forall (fun s => level (tid s) = tlvl s) ls -> (length ls <= length vs)%nat ->
  insert_path (tid <$> ls) ((tid <$> ls) ++ rest) vs calc
  = Ok (insert_all (zip (tid <$> ls) vs) calc).
Proof.
  intros Hlev. revert vs calc. induction Hlev as [|s ls Hs Hls IH]; intros vs calc Hlen; [by destruct vs|].
  destruct vs as [|v vs]; [cbn in Hlen; lia|]. cbn. rewrite Z.eqb_refl. cbn.
  apply IH. cbn in Hlen. lia.
Qed.

(** What the verifier does, in terms of cuts: the subtrees [fulls] of the older
    tree are given by the first elements of the proof (or by the older root,
    when that is a full subtree), the rest by the others. *)
Definition proof_nodes m n (m_root : Hash) (proof : list Hash) : list (Z * Hash) :=
  if m =? 2 ^ Z.of_nat (lvl m)
  then (nid 0 m, m_root) :: zip (tid <$> cuts m true (log_tree n)) proof
  else zip (tid <$> cuts m true (log_tree n)) proof.

Lemma consistency_proof_ok {E} m n :
  0 < m < n -> n <= MAX_LEAVES ->
  @math.consistency_proof E m n = Ok (tid <$> cuts m true (log_tree n)).
Proof.
  intros Hm Hn. unfold math.consistency_proof.
  pose proof (sub_proof_ok (E:=E) n 0 n (log_tree n) m true 65 Hn (log_tree_wf n ltac:(lia)) ltac:(lia)) as Hok.
  pose proof (lvl_63 n Hn). rewrite Z.sub_0_r in Hok. rewrite Hok by lia. f_equal.
  apply list_fmap_ext. intros. cbn. lia.
Qed.

Lemma proof_nodes_cut m n m_root proof :
  0 < m < n -> length proof = length (cuts m true (log_tree n)) ->
  exists ls, cut_of (log_tree n) ls /\
    proof_nodes m n m_root proof = zip (tid <$> ls) ((proof_nodes m n m_root proof).*2) /\
    length (proof_nodes m n m_root proof).*2 = length ls /\
    ((full m /\ ls = log_tree m :: cuts m true (log_tree n)) \/
     (~ full m /\ ls = cuts m true (log_tree n) /\ exists rest, ls = fulls (log_tree m) ++ rest)).
Proof.
  intros Hm Hlen. pose proof (log_tree_wf n ltac:(lia)) as Hwf. pose proof (log_tree_wf m ltac:(lia)) as Hwfm.
  destruct (wf_tree_id _ _ _ _ Hwfm) as [Hidm _].
  unfold proof_nodes, full. destruct (Z.eqb_spec m (2 ^ Z.of_nat (lvl m))) as [Hf|Hf].
  - exists (log_tree m :: cuts m true (log_tree n)). split_and!.
    + eapply (cuts_full n m 0 n); [done|lia|by rewrite Z.sub_0_r|by rewrite Z.sub_0_r].
    + cbn. rewrite Hidm, snd_zip by (by rewrite length_fmap, Hlen). done.
    + cbn. rewrite snd_zip by (by rewrite length_fmap, Hlen). by rewrite Hlen.
    + by left.
  - exists (cuts m true (log_tree n)).
    rewrite (cuts_not_full n 0 n) in * by (done || lia || by rewrite Z.sub_0_r).
    rewrite snd_zip by (by rewrite length_fmap, Hlen). split_and!; [|done|done|].
    + eapply cuts_cut; [done|lia].
    + right. split; [done|]. split; [done|].
      destruct (cuts_fulls n m 0 n (log_tree n) m (log_tree m) Hwf) as [rest Heq];
        [lia|lia|by rewrite Z.sub_0_r|]. by exists rest.
Qed.

Lemma fulls_cut n lo m t : wf_tree n lo m t -> cut_of t (fulls t).
Proof.
  induction 1 as [lo Hs|lo m l r Hs Hm Hl IHl Hr IHr]; cbn [fulls]; destruct (_ =? _); try apply cut_whole.
  change (l :: fulls r) with ([l] ++ fulls r). apply cut_split; [apply cut_whole|done].
Qed.

Lemma fulls_full n lo m t s : wf_tree n lo m t -> s ∈ fulls t ->
  exists lo' m', wf_tree n lo' m' s /\ full m' /\ lo <= lo' /\ lo' + m' <= lo + m.
Proof.
  induction 1 as [lo Hs|lo m l r Hs Hm Hl IHl Hr IHr].
  - cbn. rewrite lvl_1 by lia. intros ->%list_elem_of_singleton. exists lo, 1.
    split_and!; [by constructor|unfold full; by rewrite lvl_1 by lia|lia|lia].
  - assert (wf_tree n lo m (LNode lo m l r)) as Hwf by by constructor. pose proof (split_bounds m Hm).
    destruct (fulls_eq _ _ _ _ Hwf) as [[Hf ->]|[_ (l' & r' & [= <- <-] & _ & ->)]].
    + intros ->%list_elem_of_singleton. exists lo, m. split_and!; [done|done|lia|lia].
    + intros [->|Hs']%elem_of_cons.
      * exists lo, (split m). split_and!; [done|by apply full_split|lia|lia].
      * destruct (IHr Hs') as (lo' & m' & ? & ? & ? & ?). exists lo', m'. split_and!; [done|done|lia|lia].
Qed.

Definition older_nodes m (m_root : Hash) (proof : list Hash) : list (Z * Hash) :=
  if m =? 2 ^ Z.of_nat (lvl m) then [(nid 0 m, m_root)]
  else zip (tid <$> fulls (log_tree m)) proof.

Definition cut_strings t (l : list (Z * Hash)) : list bytes :=
  match evaluate_cut t l with Some (_, strs, _) => strs | None => [] end.

Lemma evaluates_strings n lo m t l nd strs :
  evaluates t l nd strs -> wf_tree n lo m t -> cut_strings t l = strs.
Proof.
  intros Hev Hwf. pose proof (evaluates_computed _ _ _ _ _ _ _ [] Hev Hwf) as Hc.
  rewrite app_nil_r in Hc. unfold cut_strings. by rewrite Hc.
Qed.

Lemma evaluates_functional n lo m t l nd strs nd' strs' :
  evaluates t l nd strs -> evaluates t l nd' strs' -> wf_tree n lo m t -> nd = nd'.
Proof.
  intros H1 H2 Hwf. pose proof (evaluates_computed _ _ _ _ _ _ _ [] H1 Hwf) as Hc1.
  pose proof (evaluates_computed _ _ _ _ _ _ _ [] H2 Hwf) as Hc2. congruence.
Qed.

Lemma wf_levels n lo m t ls : wf_tree n lo m t -> (forall s, s ∈ ls -> within s t) ->
  Forall (fun s => level (tid s) = tlvl s) ls.
Proof.
  intros Hwf Hls. apply Forall_forall. intros s Hs.
  destruct (within_wf _ _ _ _ _ Hwf (Hls s Hs)) as (lo' & m' & Hwf' & _).
  destruct (wf_tree_id _ _ _ _ Hwf') as [-> ->]. apply wf_tree_subtree in Hwf' as [Hs' _].
  by eapply level_nid.
Qed.

(** Verification evaluates the two cuts and compares the results. *)
Lemma verify_consistency_eq m n proof m_root n_root :
  0 < m < n -> n <= MAX_LEAVES -> length proof = length (cuts m true (log_tree n)) ->
  exists nd nd' strs strs',
    evaluates (log_tree m) (older_nodes m m_root proof) nd strs /\
    evaluates (log_tree n) (proof_nodes m n m_root proof) nd' strs' /\
    verify_consistency_proof m n proof m_root n_root =
      if bool_decide (m_root = nd_value nd)
      then if bool_decide (n_root = nd_value nd') then Ok tt
           else Err (ProofMismatch "second root does not match proof")
      else Err (ProofMismatch "first root does not match proof").
Proof.
  intros Hm Hn Hlen. pose proof (log_tree_wf n ltac:(lia)) as Hwf. pose proof (log_tree_wf m ltac:(lia)) as Hwfm.
  destruct (wf_tree_id _ _ _ _ Hwfm) as [Hidm Hlvm]. apply wf_tree_subtree in Hwfm as Hsm. destruct Hsm as [Hsm _].
  destruct (proof_nodes_cut m n m_root proof Hm Hlen) as (ls & Hcut & Hnodes & Hnl & Hcase).
  destruct (cut_evaluates (log_tree n) ls (proof_nodes m n m_root proof).*2 Hcut Hnl) as (nd' & strs' & Hev').
  rewrite <- Hnodes in Hev'.
  pose proof (calc_evaluates _ _ _ _ _ _ Hev' Hwf) as Hcalc'.
  unfold verify_consistency_proof. rewrite (proj2 (Z.eqb_neq _ _)), (proj2 (Z.leb_gt _ _)) by lia. cbn [orb].
  rewrite consistency_proof_ok by done. cbn [mbind outcome_bind].
  rewrite length_fmap, Hlen, Nat.eqb_refl. cbn [negb]. rewrite root_ok by (unfold MAX_LEAVES in *; lia).
  cbn [mbind outcome_bind]. rewrite <- Hidm. unfold math.full_subtrees.
  rewrite (full_subtrees_ok m 0 m) by (done || (unfold MAX_LEAVES in *; lia) || (pose proof (lvl_63 m); unfold MAX_LEAVES in *; lia)).
  cbn [mbind outcome_bind]. rewrite length_fmap. rewrite Hidm.
  destruct (fulls_eq _ _ _ _ Hwfm) as [[Hf Hfl]|[Hnf (l & r & Ht & Hm2 & Hfl)]].
  - exists (given (log_tree m) m_root), nd', [], strs'.
    unfold older_nodes, proof_nodes in *. unfold full in Hf. rewrite (proj2 (Z.eqb_eq _ _) Hf) in *.
    split; [rewrite <- Hidm; apply ev_given|]. split; [done|].
    rewrite Hfl. cbn [length Nat.eqb mbind outcome_bind given nd_value]. rewrite bool_decide_true by done.
    rewrite !drop_0.
    change (calc_insert (level (nid 0 m)) m_root []) with (insert_all [(nid 0 m, m_root)] []).
    rewrite <- insert_all_app. cbn [app]. rewrite Hcalc'. by case_bool_decide.
  - destruct Hcase as [[? _]|(_ & -> & rest & Hrest)]; [done|].
    assert (length (fulls (log_tree m)) <> 1%nat) as Hl1.
    { rewrite Hfl. cbn. destruct (fulls r) eqn:E; [|done].
      destruct r; cbn [fulls] in E; destruct (_ =? _); done. }
    rewrite (proj2 (Nat.eqb_neq _ _) Hl1).
    assert (length (fulls (log_tree m)) <= length proof)%nat as Hle by (rewrite Hlen, Hrest, length_app; lia).
    destruct (cut_evaluates (log_tree m) (fulls (log_tree m)) (take (length (fulls (log_tree m))) proof)
                (fulls_cut _ _ _ _ Hwfm)) as (nd & strs & Hev); [rewrite length_take; lia|].
    assert (forall {A B} (a : list A) (b : list B), zip a (take (length a) b) = zip a b) as Hzt.
    { intros A B a b. revert b. induction a as [|x a IH]; intros [|y b]; cbn; [done|done|done|]. f_equal. apply IH. }
    replace (length (fulls (log_tree m))) with (length (tid <$> fulls (log_tree m))) in Hev by apply length_fmap.
    rewrite Hzt in Hev. pose proof (calc_evaluates _ _ _ _ _ _ Hev Hwfm) as Hcalc.
    unfold older_nodes, proof_nodes in *. unfold full in Hnf. rewrite (proj2 (Z.eqb_neq _ _) Hnf) in *.
    exists nd, nd', strs, strs'. split; [done|]. split; [done|].
    rewrite Hrest, fmap_app. rewrite (insert_path_ok _ (tid <$> rest)).
    2: { apply (wf_levels m 0 m (log_tree m)); [done|]. intros s Hs.
         eapply cut_of_within; [by eapply fulls_cut|done]. }
    2: { done. }
    cbn [mbind outcome_bind]. rewrite Hcalc. cbn [mbind outcome_bind].
    case_bool_decide as Heq; [|done]. cbn [mbind outcome_bind].
    rewrite drop_app_length' by (by rewrite length_fmap). rewrite <- insert_all_app.
    replace (zip (tid <$> fulls (log_tree m)) proof ++ zip (tid <$> rest) (drop (length (fulls (log_tree m))) proof))
      with (zip (tid <$> cuts m true (log_tree n)) proof).
    { rewrite Hcalc'. by case_bool_decide. }
    rewrite Hrest, fmap_app. rewrite <- (take_drop (length (fulls (log_tree m))) proof) at 1.
    rewrite zip_with_app by (rewrite length_fmap, length_take; lia). f_equal.
    rewrite <- (Hzt _ _ (tid <$> fulls (log_tree m)) proof). by rewrite length_fmap.
Qed.

Lemma cut_covers n lo m t ls i : cut_of t ls -> wf_tree n lo m t -> lo <= i < lo + m ->
  exists s lo' m', s ∈ ls /\ wf_tree n lo' m' s /\ lo' <= i < lo' + m'.
Proof.
  intros Hc. revert lo m. induction Hc as [t|lo' m' l r a b Ha IHa Hb IHb]; intros lo m Hwf Hi.
  - exists t, lo, m. split_and!; [by left|done|lia|lia].
  - apply wf_node_inv in Hwf as (<- & <- & Hs & Hm & Hl & Hr).
    destruct (Z.lt_ge_cases i (lo + split m)).
    + destruct (IHa _ _ Hl ltac:(lia)) as (s & lo1 & m1 & Hs1 & ?). exists s, lo1, m1.
      split; [apply elem_of_app; by left|done].
    + destruct (IHb _ _ Hr ltac:(lia)) as (s & lo1 & m1 & Hs1 & ?). exists s, lo1, m1.
      split; [apply elem_of_app; by right|done].
Qed.

Lemma within_unique n lo m t s s' :
  wf_tree n lo m t -> within s t -> within s' t -> tid s = tid s' -> s = s'.
Proof.
  induction 1 as [lo Hs|lo m l r Hs Hm Hl IHl Hr IHr].
  - by intros [->|[]] [->|[]].
  - assert (wf_tree n lo m (LNode lo m l r)) as Hwf by by constructor.
    pose proof (fun u => within_left_lt n lo m l r u Hwf) as Hlt.
    pose proof (fun u => within_right_gt n lo m l r u Hwf) as Hgt.
    intros [->|[Hw|Hw]] [->|[Hw'|Hw']] Heq; try done; try (by apply IHl); try (by apply IHr);
      try specialize (Hlt _ Hw); try specialize (Hgt _ Hw);
      try (pose proof (Hlt _ Hw')); try (pose proof (Hgt _ Hw')); lia.
Qed.

Lemma thash_ext n f g lo m t :
  wf_tree n lo m t -> (forall i, lo <= i < lo + m -> f i = g i) -> thash f t = thash g t.
Proof.
  induction 1 as [lo Hs|lo m l r Hs Hm Hl IHl Hr IHr]; intros Hfg; cbn.
  - by rewrite Hfg by lia.
  - pose proof (split_bounds m Hm). rewrite IHl, IHr; [done| |]; intros i Hi; apply Hfg; lia.
Qed.

Lemma leaf_of_take L m i : 0 <= i < m -> leaf_of (take (Z.to_nat m) L) i = leaf_of L i.
Proof. intros Hi. unfold leaf_of. by rewrite lookup_take_lt by lia. Qed.

Lemma leaf_of_eq L L' m :
  Z.of_nat (length L) = m -> m <= Z.of_nat (length L') ->
  (forall i, 0 <= i < m -> leaf_of L i = leaf_of L' i) -> L = take (Z.to_nat m) L'.
Proof.
  intros HL HL' Hi. apply list_eq. intros i. destruct (decide (i < length L)%nat) as [Hlt|Hge].
  - rewrite lookup_take_lt by lia. specialize (Hi (Z.of_nat i) ltac:(lia)). unfold leaf_of in Hi.
    rewrite Nat2Z.id in Hi. destruct (lookup_lt_is_Some_2 L i Hlt) as [v Hv].
    destruct (lookup_lt_is_Some_2 L' i ltac:(lia)) as [v' Hv']. rewrite Hv, Hv' in *. by cbn in Hi; subst.
  - rewrite lookup_ge_None_2, lookup_take_ge by lia. done.
Qed.

(** The nodes that the two evaluations have in common are the full subtrees of
    the older tree. *)
Lemma older_nodes_shared m n m_root proof :
  0 < m < n -> length proof = length (cuts m true (log_tree n)) ->
  (forall p, p ∈ older_nodes m m_root proof -> p ∈ proof_nodes m n m_root proof) /\
  forall s, s ∈ fulls (log_tree m) ->
    within s (log_tree n) /\ exists v, (tid s, v) ∈ older_nodes m m_root proof.
Proof.
  intros Hm Hlen. pose proof (log_tree_wf m ltac:(lia)) as Hwfm.
  destruct (proof_nodes_cut m n m_root proof Hm Hlen) as (ls & Hcut & _ & _ & Hcase).
  unfold older_nodes, proof_nodes.
  destruct (fulls_eq _ _ _ _ Hwfm) as [[Hf Hfl]|[Hnf _]]; unfold full in *.
  - rewrite (proj2 (Z.eqb_eq _ _) Hf). split; [by intros p ->%list_elem_of_singleton; left|].
    rewrite Hfl. intros s ->%list_elem_of_singleton.
    destruct Hcase as [[_ ->]|[Hnf _]]; [|done]. split.
    + eapply cut_of_within; [done|by left].
    + exists m_root. destruct (wf_tree_id _ _ _ _ Hwfm) as [-> _]. by left.
  - rewrite (proj2 (Z.eqb_neq _ _) Hnf). destruct Hcase as [[? _]|(_ & -> & rest & Hrest)]; [done|].
    rewrite Hrest in *. split.
    + intros p Hp. rewrite fmap_app. apply list_elem_of_lookup in Hp as [i Hi].
      apply lookup_zip_with_Some in Hi as (x & v & -> & Hx & Hv). apply list_elem_of_lookup. exists i.
      apply lookup_zip_with_Some. exists x, v. split_and!; [done| |done]. by apply lookup_app_l_Some.
    + intros s Hs. split; [eapply cut_of_within; [done|apply elem_of_app; by left]|].
      apply list_elem_of_lookup in Hs as [i Hi]. pose proof (lookup_lt_Some _ _ _ Hi).
      rewrite length_app in Hlen. destruct (lookup_lt_is_Some_2 proof i) as [v Hv]; [lia|].
      exists v. apply list_elem_of_lookup. exists i. apply lookup_zip_with_Some. exists (tid s), v.
      split_and!; [done|by rewrite list_lookup_fmap, Hi|done].
Qed.

(** The strings the verifier hashes. *)
Definition consistency_strings m n (m_root : Hash) (proof : list Hash) : list bytes :=
  cut_strings (log_tree m) (older_nodes m m_root proof) ++
  cut_strings (log_tree n) (proof_nodes m n m_root proof).

(** The honest proof: the hashes of the nodes asked for. *)
Definition honest_hashes L (ids : list Z) : list Hash :=
  node_hash (leaf_of L) (log_tree (Z.of_nat (length L))) <$> ids.

Lemma honest_nodes n f t (ls : list ltree) :
  wf_tree n 0 n t -> (forall s, s ∈ ls -> within s t) ->
  node_hash f t <$> (tid <$> ls) = (fun s => nd_value (thash f s)) <$> ls.
Proof.
  intros Hwf Hls. rewrite <- list_fmap_compose. apply list_fmap_ext. intros i s Hi. cbn.
  apply (node_hash_within n 0 n); [done|]. by eapply Hls, list_elem_of_lookup_2.
Qed.

Lemma verify_consistency_length m n proof m_root n_root :
  n <= MAX_LEAVES -> verify_consistency_proof m n proof m_root n_root = Ok tt ->
  0 < m < n \/ m < 0.
Proof.
  intros Hn. unfold verify_consistency_proof.
  destruct (Z.eqb_spec m 0), (Z.leb_spec n m); cbn [orb]; try done. lia.
Qed.

Lemma verify_consistency_nodes m n proof m_root n_root :
  0 < m < n -> n <= MAX_LEAVES -> verify_consistency_proof m n proof m_root n_root = Ok tt ->
  length proof = length (cuts m true (log_tree n)).
Proof.
  intros Hm Hn. unfold verify_consistency_proof. rewrite consistency_proof_ok by done.
  destruct (_ || _); [done|]. cbn [mbind outcome_bind]. rewrite length_fmap.
  by destruct (Nat.eqb_spec (length proof) (length (cuts m true (log_tree n)))).
Qed.

Lemma log_root_honest m n L ls :
  Z.of_nat (length L) = n -> 0 < m <= n -> cut_of (log_tree m) ls ->
  exists strs, evaluates (log_tree m) (zip (tid <$> ls) ((fun s => nd_value (thash (leaf_of L) s)) <$> ls))
                 (thash (leaf_of L) (log_tree m)) strs /\
               log_root (take (Z.to_nat m) L) = nd_value (thash (leaf_of L) (log_tree m)).
Proof.
  intros HL Hm Hcut. pose proof (log_tree_wf m ltac:(lia)) as Hwf.
  destruct (evaluates_honest m 0 m _ _ (leaf_of L) Hcut Hwf) as [strs Hev]. exists strs. split; [done|].
  unfold log_root. rewrite length_take. replace (Z.of_nat (_ `min` _)) with m by lia.
  f_equal. eapply thash_ext; [done|]. intros i Hi. apply leaf_of_take. lia.
Qed.

(** The verifier's nodes, from the honest proof, are the honest cuts. *)
Lemma honest_older_nodes m n L :
  Z.of_nat (length L) = n -> 0 < m < n ->
  let proof := honest_hashes L (tid <$> cuts m true (log_tree n)) in
  let m_root := log_root (take (Z.to_nat m) L) in
  let value s := nd_value (thash (leaf_of L) s) in
  older_nodes m m_root proof = zip (tid <$> fulls (log_tree m)) (value <$> fulls (log_tree m)) /\
  exists ls, cut_of (log_tree n) ls /\ proof_nodes m n m_root proof = zip (tid <$> ls) (value <$> ls).
Proof.
  intros HL Hm proof m_root value. pose proof (log_tree_wf m ltac:(lia)) as Hwfm.
  destruct (log_root_honest m n L _ HL ltac:(lia) (fulls_cut _ _ _ _ Hwfm)) as (_ & _ & Hroot).
  assert (proof = value <$> cuts m true (log_tree n)) as Hproof.
  { unfold proof, honest_hashes. rewrite HL. apply (honest_nodes n); [by apply log_tree_wf; lia|].
    intros s. apply cuts_within. }
  destruct (proof_nodes_cut m n m_root proof Hm) as (ls & Hcut & _ & _ & Hcase); [by rewrite Hproof, length_fmap|].
  destruct (wf_tree_id _ _ _ _ Hwfm) as [Hidm _].
  unfold older_nodes, proof_nodes. destruct (fulls_eq _ _ _ _ Hwfm) as [[Hf Hfl]|[Hnf _]]; unfold full in *.
  - rewrite (proj2 (Z.eqb_eq _ _) Hf), Hfl. destruct Hcase as [[_ Hls]|[Hnf _]]; [|done].
    split; [cbn; by rewrite Hidm; unfold m_root; rewrite Hroot|]. exists ls. split; [done|].
    rewrite Hls. cbn. by rewrite Hidm, Hproof; unfold m_root; rewrite Hroot.
  - rewrite (proj2 (Z.eqb_neq _ _) Hnf). destruct Hcase as [[? _]|(_ & Hls & rest & Hrest)]; [done|].
    split; [|exists ls; split; [done|by rewrite Hls, Hproof]].
    rewrite Hproof, <- Hls, Hrest, fmap_app. rewrite <- (app_nil_r (tid <$> fulls (log_tree m))) at 1.
    rewrite zip_with_app by (by rewrite !length_fmap). by rewrite app_nil_r.
Qed.

(** C25: an honest consistency proof is accepted: for a log of at most 2^63
    leaves and a non-empty proper prefix of it, [math::consistency_proof]
    returns a list of node ids, and with the hashes of those nodes
    [verify_consistency_proof] accepts the roots of the prefix and of the log. *)
Theorem consistency_complete L m :
  let n := Z.of_nat (length L) in
  0 < m < n -> n <= MAX_LEAVES ->
  exists ids, @math.consistency_proof LogError m n = Ok ids /\
    verify_consistency_proof m n (honest_hashes L ids) (log_root (take (Z.to_nat m) L)) (log_root L) = Ok tt.
Proof.
  intros n Hm Hn. exists (tid <$> cuts m true (log_tree n)). split; [by apply consistency_proof_ok|].
  pose proof (log_tree_wf n ltac:(lia)) as Hwf. pose proof (log_tree_wf m ltac:(lia)) as Hwfm.
  destruct (honest_older_nodes m n L eq_refl Hm) as (Holder & ls & Hcut & Hnodes).
  set (proof := honest_hashes _ _) in *. set (m_root := log_root (take _ _)) in *.
  destruct (verify_consistency_eq m n proof m_root (log_root L)) as (nd & nd' & strs & strs' & Hev & Hev' & ->);
    [done|done|by unfold proof, honest_hashes; rewrite !length_fmap|].
  rewrite Holder in Hev. rewrite Hnodes in Hev'.
  destruct (log_root_honest m n L _ eq_refl ltac:(lia) (fulls_cut _ _ _ _ Hwfm)) as (sm & Hevm & Hroot).
  destruct (log_root_honest n n L _ eq_refl ltac:(lia) Hcut) as (sn & Hevn & Hroot').
  rewrite (evaluates_functional _ _ _ _ _ _ _ _ _ Hev Hevm Hwfm).
  rewrite (evaluates_functional _ _ _ _ _ _ _ _ _ Hev' Hevn Hwf).
  unfold n in Hroot'. rewrite Nat2Z.id, firstn_all in Hroot'. fold n in Hroot'.
  rewrite !bool_decide_eq_true_2; done.
Qed.

Lemma all_or_one {A} (P : A -> Prop) (Q : Prop) (l : list A) :
  (forall x, x ∈ l -> P x \/ Q) -> (forall x, x ∈ l -> P x) \/ Q.
Proof.
  induction l as [|a l IH]; intros Hl; [left; by intros x ?%not_elem_of_nil|].
  destruct (Hl a ltac:(left)) as [Ha|]; [|by right].
  destruct IH as [Hall|]; [by intros x Hx; apply Hl; right| |by right].
  left. by intros x [->|Hx]%elem_of_cons; [|apply Hall].
Qed.

(** A subtree of both logs has the same leaves in both, or there is a collision. *)
Lemma shared_subtree f g n lo m t s v :
  wf_tree n lo m t -> within s t -> nd_value (thash f s) = v -> nd_value (thash g s) = v ->
  (forall i, tlo s <= i < tlo s + tsize s -> f i = g i) \/ collision (tstrings f s ++ tstrings g s).
Proof.
  intros Hwf Hw Hf Hg. destruct (within_wf _ _ _ _ _ Hwf Hw) as (lo' & m' & Hwfs & _).
  pose proof Hwfs as Hs. apply wf_tree_subtree in Hs as (_ & -> & ->). eapply thash_inj; [done|].
  pose proof (thash_interior n f _ _ _ Hwfs) as Hif. pose proof (thash_interior n g _ _ _ Hwfs) as Hig.
  destruct (thash f s), (thash g s). cbn in *. congruence.
Qed.

(** The older log is read off the newer one. *)
Lemma accepted_consistency_is_prefix L L' proof :
  let m := Z.of_nat (length L) in let n := Z.of_nat (length L') in
  n <= MAX_LEAVES ->
  verify_consistency_proof m n proof (log_root L) (log_root L') = Ok tt ->
  L = take (length L) L' \/
  collision (consistency_strings m n (log_root L) proof ++ log_strings L ++ log_strings L').
Proof.
  intros m n Hn Hver. assert (0 < m < n) as Hm by (pose proof (verify_consistency_length _ _ _ _ _ Hn Hver); lia).
  pose proof (verify_consistency_nodes _ _ _ _ _ Hm Hn Hver) as Hlen.
  pose proof (log_tree_wf n ltac:(lia)) as Hwf. pose proof (log_tree_wf m ltac:(lia)) as Hwfm.
  destruct (verify_consistency_eq m n proof (log_root L) (log_root L'))
    as (nd & nd' & strs & strs' & Hev & Hev' & Heq); [done..|].
  rewrite Heq in Hver. repeat (case_bool_decide; [|done]). clear Heq Hver.
  unfold consistency_strings. rewrite (evaluates_strings _ _ _ _ _ _ _ Hev Hwfm), (evaluates_strings _ _ _ _ _ _ _ Hev' Hwf).
  destruct (evaluates_sound m (leaf_of L) _ _ _ _ _ _ Hev Hwfm) as [HA|HA]; [done| |].
  2: { right. eapply collision_incl; [|done]. intros a. rewrite !elem_of_app. tauto. }
  destruct (evaluates_sound n (leaf_of L') _ _ _ _ _ _ Hev' Hwf) as [HB|HB]; [done| |].
  2: { right. eapply collision_incl; [|done]. intros a. rewrite !elem_of_app. tauto. }
  rewrite Forall_forall in HA, HB.
  destruct (older_nodes_shared m n (log_root L) proof Hm Hlen) as [Hincl Hshared].
  destruct (all_or_one (fun s => forall i, tlo s <= i < tlo s + tsize s -> leaf_of L i = leaf_of L' i)
              (collision (log_strings L ++ log_strings L')) (fulls (log_tree m))) as [Hall|Hc].
  - intros s Hs. destruct (Hshared s Hs) as (Hw' & v & Hv).
    pose proof (cut_of_within _ _ _ (fulls_cut _ _ _ _ Hwfm) Hs) as Hw.
    destruct (HA _ Hv) as (s1 & Hw1 & Hid1 & Hv1), (HB _ (Hincl _ Hv)) as (s2 & Hw2 & Hid2 & Hv2). cbn in *.
    rewrite <- (within_unique _ _ _ _ _ _ Hwfm Hw Hw1 Hid1) in Hv1.
    rewrite <- (within_unique _ _ _ _ _ _ Hwf Hw' Hw2 Hid2) in Hv2.
    destruct (shared_subtree (leaf_of L) (leaf_of L') _ _ _ _ s v Hwf Hw') as [|Hc]; [done..|by left|right].
    eapply collision_incl; [|done]. intros a. rewrite !elem_of_app.
    intros [Ha|Ha]; [left; exact (within_strings _ _ _ _ Hw Ha)|right; exact (within_strings _ _ _ _ Hw' Ha)].
  - left. replace (length L) with (Z.to_nat m) by lia. apply leaf_of_eq; [done|lia|]. intros i Hi.
    destruct (cut_covers _ _ _ _ _ i (fulls_cut _ _ _ _ Hwfm) Hwfm) as (s & lo' & m' & Hs & Hwfs & Hi'); [lia|].
    apply wf_tree_subtree in Hwfs as (_ & <- & <-). by apply (Hall s).
  - right. eapply collision_incl; [|done]. intros a. rewrite !elem_of_app. tauto.
Qed.

(** C24: an accepted consistency proof shows that the newer log extends the
    older one: if [verify_consistency_proof] accepts the roots of two logs,
    whatever the proof, the older log is a prefix of the newer one, or two
    different strings that the verifier or the logs hash have the same SHA-256. *)
Theorem consistency_sound L L' proof :
  let m := Z.of_nat (length L) in let n := Z.of_nat (length L') in
  n <= MAX_LEAVES ->
  verify_consistency_proof m n proof (log_root L) (log_root L') = Ok tt ->
  L = take (length L) L' \/
  collision (consistency_strings m n (log_root L) proof ++ log_strings L ++ log_strings L').
Proof. exact (accepted_consistency_is_prefix L L' proof). Qed.
End consistency_proofs.
