(* ===== verification/KtBatch.v ===== *)
(** * KtBatch: batch inclusion proofs of the log are complete and sound

    [math::batch_copath] works its way up from the requested leaves, level by
    level.  Section [climbing] says what one step does to the list of nodes,
    section [passes] that the loops of the source are such steps and end, and
    section [proofs] what [evaluate_batch_proof] accepts. *)

From stdpp Require Import sorting.
From S2P Require Import Prelude Types Primitives KtTree KtLog KtMerkle KtLogProofs.
Open Scope string_scope.
Open Scope list_scope.
Open Scope Z_scope.

#[export] Instance ltree_eq_dec : EqDecision ltree.
Proof. solve_decision. Defined.

(** ** Intervals *)

Definition tend (t : ltree) : Z := tlo t + tsize t.
Definition before (s t : ltree) : Prop := tend s <= tlo t.

(** [u] covers leaves of [t] only. *)
Definition inside (u t : ltree) : bool := (tlo t <=? tlo u) && (tend u <=? tend t).

Section intervals.
Context (n : Z) (Hn : 1 <= n).
Implicit Types (t u v s p l r : ltree).

Lemma within_subtree t : within t (log_tree n) -> wf_tree n (tlo t) (tsize t) t.
Proof.
  intros Hw. destruct (within_wf _ _ _ _ _ (log_tree_wf n Hn) Hw) as (lo & m & Hwf & _).
  pose proof Hwf as H. by apply wf_tree_subtree in H as (_ & -> & ->).
Qed.

Lemma tsize_pos t : within t (log_tree n) -> 1 <= tsize t.
Proof. intros Hw%within_subtree. apply wf_tree_subtree in Hw as [[] _]. done. Qed.

Lemma within_trans t u v : within t u -> within u v -> within t v.
Proof.
  intros Htu. induction v as [lo|lo m l IHl r IHr]; cbn [within].
  - intros [->|[]]. done.
  - intros [->|[Hu|Hu]]; [done|right; left; auto|right; right; auto].
Qed.

Lemma node_bounds lo m l r : within (LNode lo m l r) (log_tree n) ->
  2 <= m /\ tlo l = lo /\ tend l = lo + split m /\ tlo r = lo + split m /\ tend r = lo + m /\
  tlvl l = (lvl m - 1)%nat /\ (tlvl r <= lvl m - 1)%nat /\ 1 <= split m < m /\
  within l (log_tree n) /\ within r (log_tree n).
Proof.
  intros Hw. pose proof (within_subtree _ Hw) as Hwf. apply wf_node_inv in Hwf as (_ & _ & Hs & Hm & Hl & Hr).
  cbn [tlo tsize] in Hs, Hm, Hl, Hr. pose proof (split_bounds m Hm).
  apply wf_tree_subtree in Hl as (_ & El & Sl). apply wf_tree_subtree in Hr as (_ & Er & Sr).
  unfold tend, tlvl. rewrite El, Sl, Er, Sr. split_and!; try lia; try done.
  - by apply lvl_split.
  - by apply lvl_right.
  - eapply within_trans; [|done]. right. left. apply within_refl.
  - eapply within_trans; [|done]. right. right. apply within_refl.
Qed.

Lemma within_bounds u t : within t (log_tree n) -> within u t -> tlo t <= tlo u /\ tend u <= tend t.
Proof.
  induction t as [lo|lo m l IHl r IHr]; intros Ht.
  - by intros [->|[]].
  - destruct (node_bounds _ _ _ _ Ht) as (Hm & El & Fl & Er & Fr & _ & _ & Hb & Hl & Hr).
    unfold tend in *. cbn [tlo tsize]. intros [->|[Hu|Hu]]; [cbn; lia| |].
    + specialize (IHl Hl Hu). lia.
    + specialize (IHr Hr Hu). lia.
Qed.

(** Subtrees are nested or disjoint. *)
Lemma laminar t u v : within t (log_tree n) -> within u t -> within v t ->
  within u v \/ within v u \/ before u v \/ before v u.
Proof.
  induction t as [lo|lo m l IHl r IHr]; intros Ht.
  - intros [->|[]] [->|[]]. left. apply within_refl.
  - destruct (node_bounds _ _ _ _ Ht) as (Hm & El & Fl & Er & Fr & _ & _ & Hb & Hl & Hr).
    intros [->|Hu]; [intros Hv; right; by left|]. intros [->|Hv]; [left; by right|].
    destruct Hu as [Hu|Hu], Hv as [Hv|Hv].
    + by apply IHl.
    + pose proof (within_bounds _ _ Hl Hu). pose proof (within_bounds _ _ Hr Hv).
      right. right. left. unfold before. lia.
    + pose proof (within_bounds _ _ Hr Hu). pose proof (within_bounds _ _ Hl Hv).
      right. right. right. unfold before. lia.
    + by apply IHr.
Qed.

Lemma before_not_within u v : within u (log_tree n) -> within v (log_tree n) ->
  before u v \/ before v u -> ~ within u v.
Proof.
  intros Hu Hv Hb Hw. pose proof (within_bounds _ _ Hv Hw). pose proof (tsize_pos _ Hu).
  unfold before, tend in *. lia.
Qed.

Lemma inside_within u t : within u (log_tree n) -> within t (log_tree n) ->
  inside u t = true <-> within u t.
Proof.
  intros Hu Ht. unfold inside. rewrite andb_true_iff, !Z.leb_le. split.
  - intros Hb. pose proof (tsize_pos _ Hu). pose proof (tsize_pos _ Ht).
    destruct (laminar _ u t (within_refl _) Hu Ht) as [?|[Hw|Hd]]; [done| |unfold before, tend in *; lia].
    pose proof (within_bounds _ _ Hu Hw). replace t with u; [apply within_refl|].
    pose proof (within_subtree _ Hu) as Hwfu. pose proof (within_subtree _ Ht) as Hwft.
    unfold tend in *. replace (tlo t) with (tlo u) in Hwft by lia. replace (tsize t) with (tsize u) in Hwft by lia.
    by eapply wf_tree_unique.
  - by apply within_bounds.
Qed.

(** Levels grow strictly on the way up. *)
Lemma within_level u t : within t (log_tree n) -> within u t -> u <> t -> (tlvl u < tlvl t)%nat.
Proof.
  induction t as [lo|lo m l IHl r IHr]; intros Ht; [by intros [->|[]]|].
  destruct (node_bounds _ _ _ _ Ht) as (Hm & _ & _ & _ & _ & Ll & Lr & _ & Hl & Hr).
  destruct (lvl_succ m Hm) as [c Hc]. unfold tlvl in *. cbn [tsize].
  intros [->|[Hu|Hu]] Hne; [done| |].
  - destruct (decide (u = l)) as [->|Hnl]; [lia|]. specialize (IHl Hl Hu Hnl). lia.
  - destruct (decide (u = r)) as [->|Hnr]; [lia|]. specialize (IHr Hr Hu Hnr). lia.
Qed.

(** [x] and [s] are the children of [p], [x] on the left iff [b]. *)
Definition children (p x s : ltree) (b : bool) : Prop :=
  exists lo m, p = if b then LNode lo m x s else LNode lo m s x.

Lemma has_parent u t : within u t -> u <> t -> exists p s b, within p t /\ children p u s b.
Proof.
  induction t as [lo|lo m l IHl r IHr]; [by intros [->|[]]|].
  intros [->|[Hu|Hu]] Hne; [done| |].
  - destruct (decide (u = l)) as [->|Hnl].
    + exists (LNode lo m l r), r, true. split; [apply within_refl|by exists lo, m].
    + destruct (IHl Hu Hnl) as (p & s & b & Hp & Hc). exists p, s, b. split; [right; by left|done].
  - destruct (decide (u = r)) as [->|Hnr].
    + exists (LNode lo m l r), l, false. split; [apply within_refl|by exists lo, m].
    + destruct (IHr Hu Hnr) as (p & s & b & Hp & Hc). exists p, s, b. split; [right; by right|done].
Qed.

Lemma children_within p x s b : children p x s b -> within x p /\ within s p.
Proof.
  intros (lo & m & ->). destruct b; cbn; split; right; (by left; apply within_refl) || (by right; apply within_refl).
Qed.

Lemma within_children p x s b u : children p x s b -> within u p -> u = p \/ within u x \/ within u s.
Proof. intros (lo & m & ->). destruct b; cbn; tauto. Qed.

Lemma children_level p x s b : within p (log_tree n) -> children p x s b ->
  (tlvl x < tlvl p)%nat /\ (tlvl s < tlvl p)%nat.
Proof.
  intros Hp (lo & m & ->). destruct b;
    destruct (node_bounds _ _ _ _ Hp) as (Hm & _ & _ & _ & _ & Ll & Lr & _); destruct (lvl_succ m Hm) as [c Hc];
    unfold tlvl in *; cbn [tsize]; lia.
Qed.

(** Away from the right edge, a parent is exactly one level up. *)
Lemma parent_level p x s b : within p (log_tree n) -> children p x s b -> tend x < n ->
  tlvl p = S (tlvl x) /\ (tlvl s <= tlvl x)%nat.
Proof.
  intros Hp (lo & m & ->) He. destruct b;
    destruct (node_bounds _ _ _ _ Hp) as (Hm & El & Fl & Er & Fr & Ll & Lr & _); destruct (lvl_succ m Hm) as [c Hc].
  - unfold tlvl in *. cbn [tsize]. lia.
  - apply within_subtree, wf_tree_subtree in Hp as ([_ _ _ _ Hs] & _). cbn [tlo tsize] in Hs.
    destruct Hs as [Hs|Hf]; [lia|]. pose proof (full_right m Hm Hf) as Hr. pose proof (lvl_split m Hm).
    unfold tend, tlvl in *. cbn [tsize]. replace (tsize x) with (m - split m) in * by lia. rewrite Hr. lia.
Qed.

Lemma children_disjoint p x s b : within p (log_tree n) -> children p x s b ->
  if b then before x s else before s x.
Proof.
  intros Hp (lo & m & ->). destruct b;
    destruct (node_bounds _ _ _ _ Hp) as (Hm & El & Fl & Er & Fr & _); unfold before; lia.
Qed.
End intervals.

(** ** Climbing *)

(** The cut through [t] that has the nodes [N] and is otherwise as high as
    possible, and the part of it that is not in [N]. *)
Fixpoint cover (N : list ltree) (t : ltree) : list ltree :=
  if bool_decide (t ∈ N) then [t]
  else if existsb (fun u => inside u t) N
       then match t with LLeaf _ => [t] | LNode _ _ l r => cover N l ++ cover N r end
       else [t].
Fixpoint uncovered (N : list ltree) (t : ltree) : list ltree :=
  if bool_decide (t ∈ N) then []
  else if existsb (fun u => inside u t) N
       then match t with LLeaf _ => [t] | LNode _ _ l r => uncovered N l ++ uncovered N r end
       else [t].

Section climbing.
Context (n : Z) (Hn : 1 <= n).
Implicit Types (t u v s p l r x : ltree) (N A B : list ltree).
Local Abbreviation T := (log_tree n).

(** Nodes of the tree from left to right. *)
Record nodes_ok N : Prop := {
  ok_within : forall u, u ∈ N -> within u T;
  ok_sorted : StronglySorted before N
}.

Lemma nodes_ok_app A B : nodes_ok (A ++ B) <->
  nodes_ok A /\ nodes_ok B /\ forall u v, u ∈ A -> v ∈ B -> before u v.
Proof.
  split.
  - intros [Hw Hs]. apply StronglySorted_app in Hs as (Hab & Ha & Hb). split_and!; [..|done].
    + split; [|done]. intros u Hu. apply Hw, elem_of_app. by left.
    + split; [|done]. intros u Hu. apply Hw, elem_of_app. by right.
  - intros ([Hwa Hsa] & [Hwb Hsb] & Hab). split.
    + intros u [Hu|Hu]%elem_of_app; auto.
    + by apply StronglySorted_app.
Qed.

Lemma nodes_ok_singleton x : within x T -> nodes_ok [x].
Proof. intros Hx. split; [by intros u ->%list_elem_of_singleton|repeat constructor]. Qed.

Lemma nodes_ok_cons x B : nodes_ok (x :: B) <->
  within x T /\ nodes_ok B /\ forall v, v ∈ B -> before x v.
Proof.
  change (x :: B) with ([x] ++ B). rewrite nodes_ok_app. split.
  - intros (Hx & Hb & Hab). split_and!; [apply (ok_within _ Hx); left|done|]. intros v. apply Hab. left.
  - intros (Hx & Hb & Hab). split_and!; [by apply nodes_ok_singleton|done|].
    by intros u v ->%list_elem_of_singleton; apply Hab.
Qed.

(** Different nodes are disjoint. *)
Lemma others_disjoint A x B u : nodes_ok (A ++ x :: B) -> u ∈ A ++ B ->
  within u T /\ within x T /\ (before u x \/ before x u) /\ ~ within u x /\ ~ within x u.
Proof.
  intros Hok Hu. apply nodes_ok_app in Hok as (Ha & Hb & Hab). apply nodes_ok_cons in Hb as (Hx & Hb & Hxb).
  assert (within u T /\ (before u x \/ before x u)) as [Hwu Hd].
  { apply elem_of_app in Hu as [Hu|Hu]; (split; [eapply ok_within; [|exact Hu]; done|]).
    - left. apply Hab; [done|left].
    - right. by apply Hxb. }
  split_and!; [done..| |]; apply (before_not_within n Hn); tauto.
Qed.

(** One step: both children give way to their parent, or one child does and its
    sibling, which holds no node, is put out. *)
Inductive climb : list ltree -> list ltree -> list ltree -> Prop :=
| climb_pair A B p l r : within p T -> children p l r true -> climb (A ++ l :: r :: B) (A ++ p :: B) []
| climb_one A B p x s b :
    within p T -> children p x s b -> (forall u, u ∈ A ++ B -> ~ within u s) ->
    climb (A ++ x :: B) (A ++ p :: B) [s].

Lemma climb_nodes_ok N N' out : climb N N' out -> nodes_ok N -> nodes_ok N'.
Proof.
  intros [A B p l r Hp Hc|A B p x s b Hp Hc Hfree] Hok.
  - pose proof Hok as Hok'. destruct Hc as (lo & m & ->).
    destruct (node_bounds n Hn _ _ _ _ Hp) as (Hm & El & Fl & Er & Fr & _ & _ & Hb & _).
    apply nodes_ok_app in Hok as (Ha & Hlr & Hab). apply nodes_ok_cons in Hlr as (Hl & Hr & Hlr).
    apply nodes_ok_cons in Hr as (Hr & HB & HrB).
    apply nodes_ok_app. split_and!; [done| |].
    + apply nodes_ok_cons. split_and!; [done..|]. intros v Hv. specialize (HrB v Hv).
      unfold before, tend in *. cbn. lia.
    + intros u v Hu [->|Hv]%elem_of_cons; [|apply Hab; [done|by do 2 right]].
      specialize (Hab u l Hu ltac:(left)). unfold before, tend in *. cbn. lia.
  - assert (forall u, u ∈ A ++ B -> (before u x -> before u p) /\ (before x u -> before p u)) as Hsame.
    { intros u Hu. destruct (others_disjoint A x B u Hok Hu) as (Hwu & Hwx & Hd & H1 & H2).
      destruct (children_within _ _ _ _ Hc) as [Hxp Hsp]. pose proof (within_bounds n Hn _ _ Hp Hxp).
      pose proof (tsize_pos n Hn _ Hwx). pose proof (tsize_pos n Hn _ Hwu).
      destruct (laminar n Hn T u p (within_refl _) Hwu Hp) as [Hup|[Hpu|[Hd'|Hd']]].
      - exfalso. destruct (within_children _ _ _ _ _ Hc Hup) as [->|[?|?]]; [done|done|by eapply Hfree].
      - exfalso. apply H2. by eapply within_trans.
      - split; [done|]. unfold before, tend in *. lia.
      - split; [|done]. unfold before, tend in *. lia. }
    apply nodes_ok_app in Hok as (Ha & Hb & Hab). apply nodes_ok_cons in Hb as (Hx & HB & HxB).
    apply nodes_ok_app. split_and!; [done| |].
    + apply nodes_ok_cons. split_and!; [done..|]. intros v Hv.
      apply Hsame; [apply elem_of_app; by right|by apply HxB].
    + intros u v Hu [->|Hv]%elem_of_cons; [|apply Hab; [done|by right]].
      apply Hsame; [apply elem_of_app; by left|]. apply Hab; [done|left].
Qed.

(** Which nodes there are inside [t] is all that counts. *)
Lemma uncovered_ext N N' t : within t T -> (forall u, u ∈ N -> within u T) -> (forall u, u ∈ N' -> within u T) ->
  (forall u, within u t -> u ∈ N <-> u ∈ N') -> uncovered N t = uncovered N' t.
Proof.
  intros Ht HN HN'. induction t as [lo|lo m l IHl r IHr]; intros Heq.
  - cbn [uncovered]. rewrite (bool_decide_ext _ _ (Heq _ (within_refl _))).
    by repeat case_match.
  - destruct (node_bounds n Hn _ _ _ _ Ht) as (_ & _ & _ & _ & _ & _ & _ & _ & Hl & Hr). cbn [uncovered].
    rewrite (bool_decide_ext _ _ (Heq _ (within_refl _))).
    rewrite IHl, IHr by (done || (intros u Hu; apply Heq; right; tauto)).
    replace (existsb (fun u => inside u (LNode lo m l r)) N) with (existsb (fun u => inside u (LNode lo m l r)) N'); [done|].
    apply eq_true_iff_eq. rewrite !existsb_exists.
    split; intros (u & Hu%list_elem_of_In & Hi); exists u; (split; [apply list_elem_of_In|done]);
      apply Heq; try done; apply (inside_within n Hn); eauto.
Qed.

Lemma uncovered_node N lo m l r : LNode lo m l r ∉ N -> (exists u, u ∈ N /\ within u (LNode lo m l r)) ->
  within (LNode lo m l r) T -> (forall u, u ∈ N -> within u T) ->
  uncovered N (LNode lo m l r) = uncovered N l ++ uncovered N r.
Proof.
  intros Hni (u & Hu & Hw) Ht HN. cbn [uncovered]. rewrite bool_decide_eq_false_2 by done.
  replace (existsb (fun u => inside u (LNode lo m l r)) N) with true; [done|]. symmetry. apply existsb_exists. exists u.
  split; [by apply list_elem_of_In|]. apply (inside_within n Hn); eauto.
Qed.

Lemma uncovered_in N t : t ∈ N -> uncovered N t = [].
Proof. intros Ht. destruct t; cbn [uncovered]; by rewrite bool_decide_eq_true_2. Qed.

Lemma uncovered_free N t : within t T -> (forall u, u ∈ N -> within u T /\ ~ within u t) -> uncovered N t = [t].
Proof.
  intros Ht HN. assert (t ∉ N) as Hni by (intros [_ Hw]%HN; apply Hw, within_refl).
  assert (existsb (fun u => inside u t) N = false) as He.
  { apply not_true_iff_false. rewrite existsb_exists. intros (u & Hu%list_elem_of_In & Hi).
    destruct (HN u Hu) as [Hwu Hw]. by apply Hw, (inside_within n Hn). }
  destruct t; cbn [uncovered]; by rewrite bool_decide_eq_false_2, He.
Qed.

(** A step inside [t] takes place in one of its children. *)
Lemma uncovered_local N N' out p t :
  (forall u, u ∈ N -> within u T) -> (forall u, u ∈ N' -> within u T) ->
  within t T -> within p t -> (exists x, x ∈ N /\ within x p) -> p ∈ N' ->
  (forall u, u ∈ N \/ u ∈ N' -> within p u -> u = p) -> p ∉ N ->
  (forall u, ~ within u p -> u ∈ N <-> u ∈ N') ->
  uncovered N p = out -> uncovered N t ≡ₚ out ++ uncovered N' t.
Proof.
  intros HN HN' Ht Hpt (x & Hx & Hxp) Hp Hmax Hpn Heq Hout.
  induction t as [lo|lo m l IHl r IHr].
  { destruct Hpt as [->|[]]. by rewrite Hout, (uncovered_in N'), app_nil_r. }
  destruct (decide (p = LNode lo m l r)) as [<-|Hne].
  { by rewrite Hout, (uncovered_in N'), app_nil_r. }
  destruct (node_bounds n Hn _ _ _ _ Ht) as (Hm & El & Fl & Er & Fr & _ & _ & Hb & Hl & Hr).
  rewrite (uncovered_node N), (uncovered_node N'); try done.
  - assert (forall t', within t' T -> ~ within p t' -> (before p t' \/ before t' p) -> uncovered N t' = uncovered N' t') as Hother.
    { intros t' Ht' _ Hd. apply uncovered_ext; try done. intros u Hu. apply Heq. intros Hup.
      assert (within p T) as HpT by eauto.
      pose proof (within_bounds n Hn _ _ Ht' Hu). pose proof (within_bounds n Hn _ _ HpT Hup).
      pose proof (tsize_pos n Hn u (within_trans _ _ _ Hu Ht')). unfold before, tend in *. lia. }
    assert (within p T) as HpT by eauto.
    destruct Hpt as [->|[Hpl|Hpr]]; [done| |].
    + rewrite (Hother r Hr).
      * rewrite (IHl Hl Hpl). by rewrite app_assoc.
      * apply (before_not_within n Hn); [done..|left].
        pose proof (within_bounds n Hn _ _ Hl Hpl). unfold before. lia.
      * left. pose proof (within_bounds n Hn _ _ Hl Hpl). unfold before. lia.
    + rewrite (Hother l Hl).
      * rewrite (IHr Hr Hpr). by rewrite !app_assoc, (Permutation_app_comm out).
      * apply (before_not_within n Hn); [done..|right].
        pose proof (within_bounds n Hn _ _ Hr Hpr). unfold before. lia.
      * right. pose proof (within_bounds n Hn _ _ Hr Hpr). unfold before. lia.
  - intros Hin. by rewrite (Hmax _ (or_intror Hin) Hpt) in Hne.
  - by exists p.
  - intros Hin. by rewrite (Hmax _ (or_introl Hin) Hpt) in Hne.
  - exists x. split; [done|]. by eapply within_trans.
Qed.

Lemma parent_not_within p x s b : within p T -> children p x s b -> ~ within p x.
Proof.
  intros Hp Hc Hw. destruct (children_within _ _ _ _ Hc) as [Hxp _].
  destruct (children_level n Hn _ _ _ _ Hp Hc) as [Hl _].
  destruct (decide (p = x)) as [->|Hne]; [lia|].
  pose proof (within_level n Hn _ _ (within_trans _ _ _ Hxp Hp) Hw Hne). lia.
Qed.

(** A step puts out what it leaves uncovered. *)
Lemma climb_uncovered N N' out : climb N N' out -> nodes_ok N -> uncovered N T ≡ₚ out ++ uncovered N' T.
Proof.
  intros Hcl Hok. pose proof (climb_nodes_ok _ _ _ Hcl Hok) as Hok'.
  assert (exists A x B p s b, N = A ++ x :: B /\ within p T /\ children p x s b /\ p ∈ N' /\
    (forall u, u ∈ N' -> u = p \/ u ∈ A ++ B) /\ (forall u, ~ within u p -> u ∈ N <-> u ∈ N') /\
    (s ∈ N /\ out = [] \/ (forall u, u ∈ N -> ~ within u s) /\ out = [s])) as
    (A & x & B & p & s & b & -> & Hp & Hc & Hin & HN' & Heq & Hout).
  { destruct Hcl as [A B p l r Hp Hc|A B p x s b Hp Hc Hfree];
      destruct (children_within _ _ _ _ Hc) as [Hxp Hsp].
    - exists A, l, (r :: B), p, r, true. split_and!; try done; [set_solver|set_solver| |left; set_solver].
      intros u Hu. assert (u <> l /\ u <> r /\ u <> p) as (?&?&?) by (split_and!; intros ->; by try apply Hu, within_refl).
      rewrite !elem_of_app, !elem_of_cons. tauto.
    - exists A, x, B, p, s, b. split_and!; try done; [set_solver|set_solver| |right].
      + intros u Hu. assert (u <> x /\ u <> p) as (?&?) by (split_and!; intros ->; by try apply Hu, within_refl).
        rewrite !elem_of_app, !elem_of_cons. tauto.
      + split; [|done]. intros u Hu.
        assert (u = x \/ u ∈ A ++ B) as [->|Hu'] by set_solver; [|by apply Hfree].
        pose proof (children_disjoint n Hn _ _ _ _ Hp Hc) as Hd.
        apply (before_not_within n Hn); [by eapply within_trans..|]. destruct b; tauto. }
  destruct (children_within _ _ _ _ Hc) as [Hxp Hsp].
  assert (forall u, u ∈ A ++ B -> ~ within p u) as Hothers.
  { intros u Hu Hpu. destruct (others_disjoint _ _ _ _ Hok Hu) as (_ & _ & _ & _ & Hn').
    apply Hn'. by eapply within_trans. }
  assert (forall u, u ∈ A ++ x :: B -> ~ within p u) as Hmax.
  { intros u Hu. assert (u = x \/ u ∈ A ++ B) as [->|Hu'] by set_solver; [|by apply Hothers].
    by eapply parent_not_within. }
  assert (x ∈ A ++ x :: B) as Hx by set_solver.
  assert (p ∉ A ++ x :: B) as Hpn by (intros Hpin; by apply (Hmax _ Hpin), within_refl).
  apply (uncovered_local _ _ _ p); try done; try (by apply ok_within); try (by exists x).
  - apply within_refl.
  - intros u [Hu|Hu] Hpu; [by destruct (Hmax u Hu)|]. destruct (HN' u Hu) as [->|Hu']; [done|].
    by destruct (Hothers u Hu').
  - pose proof (ok_within _ Hok) as HwN. destruct Hc as (lo & m & Hpe).
    assert (uncovered (A ++ x :: B) s = out) as Hs.
    { destruct Hout as [[Hs ->]|[Hs ->]]; [by apply uncovered_in|]. apply uncovered_free; [by eapply within_trans|].
      intros u Hu. split; [by apply HwN|by apply Hs]. }
    destruct b; subst p; rewrite uncovered_node, (uncovered_in _ x), Hs by (done || by exists x); [done|apply app_nil_r].
Qed.
End climbing.

(** ** The passes of [batch_copath] *)

Section passes.
Context {E : Type} (n : Z) (Hn : 1 <= n <= MAX_LEAVES).
Implicit Types (t u v s p l r x : ltree) (N A B ns next out : list ltree) (j : nat).
Local Abbreviation T := (log_tree n).
Lemma Hn1 : 1 <= n.
Proof. apply Hn. Qed.

Lemma children_ids p x s b : within p T -> children p x s b ->
  @math.parent E (tid x) n = Ok (tid p) /\ @math.sibling E (tid x) n = Ok (tid s) /\
  @math.right E (tid p) n = Ok (tid (if b then s else x)).
Proof.
  intros Hp (lo & m & ->). destruct b; apply (within_subtree n Hn1), wf_node_inv in Hp as (_ & _ & Hs & Hm & Hl & Hr);
    cbn [tlo tsize] in *; destruct (wf_tree_id _ _ _ _ Hl) as [El _], (wf_tree_id _ _ _ _ Hr) as [Er _];
    rewrite El, Er; change (tid (LNode lo m _ _)) with (nid lo m).
  - split_and!; [apply parent_left|apply sibling_left|apply right_ok]; (done || lia).
  - split_and!; [apply parent_right|apply sibling_right|apply right_ok]; (done || lia).
Qed.

Lemma tid_inj u v : within u T -> within v T -> tid u = tid v -> u = v.
Proof. intros Hu Hv. eapply within_unique; [apply (log_tree_wf n Hn1)|done|done]. Qed.

Lemma level_tid u : within u T -> level (tid u) = tlvl u.
Proof.
  intros Hu. pose proof (wf_levels n 0 n T [u] (log_tree_wf n Hn1)) as Hl.
  rewrite Forall_singleton in Hl. apply Hl. by intros s ->%list_elem_of_singleton.
Qed.

(** Everything strictly above [u] is above level [j]. *)
Definition apart j u : Prop := forall v, within v T -> within u v -> u <> v -> (j < tlvl v)%nat.

(** All nodes are at level [j], but the last may be lower. *)
Fixpoint level_nodes j ns : Prop :=
  match ns with
  | [] => True
  | [x] => (tlvl x <= j)%nat
  | x :: ns => tlvl x = j /\ level_nodes j ns
  end.

(** The state of a pass over level [j], for the leaves [S0]. *)
Record pass j (S0 : list ltree) ns next out : Prop := {
  pass_ok : nodes_ok n (next ++ ns);
  pass_apart : forall u, u ∈ next ++ ns -> apart j u;
  pass_next : Forall (fun u => tlvl u = S j) next;
  pass_level : level_nodes j ns;
  pass_out : out ++ uncovered (next ++ ns) T ≡ₚ uncovered S0 T
}.

Lemma apart_level j u : within u T -> (j <= tlvl u)%nat -> apart j u.
Proof. intros Hu Hj v Hv Hw Hne. pose proof (within_level n Hn1 _ _ Hv Hw Hne). lia. Qed.

(** A child of a node that is just above level [j] holds no other node. *)
Lemma apart_inside j u s : apart j u -> within s T -> within u s -> (tlvl s <= j)%nat -> u = s.
Proof. intros Ha Hs Hu Hj. destruct (decide (u = s)) as [|Hne]; [done|]. pose proof (Ha s Hs Hu Hne). lia. Qed.

Lemma level_nodes_cons j x ns : ns <> [] -> level_nodes j (x :: ns) <-> tlvl x = j /\ level_nodes j ns.
Proof. by destruct ns. Qed.

(** A step keeps the state of a pass, if the new node is one level up. *)
Lemma pass_step j (S0 : list ltree) ns ns' next p out new :
  pass j S0 ns next out -> climb n (next ++ ns) (next ++ p :: ns') new ->
  within p T -> tlvl p = S j -> level_nodes j ns' -> (forall u, u ∈ ns' -> u ∈ ns) ->
  pass j S0 ns' (next ++ [p]) (out ++ new).
Proof.
  intros [Hok Ha Hnext Hlev Hout] Hcl Hp Hpl Hlev' Hsub. rewrite cons_middle, app_assoc in Hcl. split.
  - by apply (climb_nodes_ok n Hn1 _ _ _ Hcl).
  - intros u. rewrite <- app_assoc, !elem_of_app. intros [Hu|[->%list_elem_of_singleton|Hu]].
    + apply Ha, elem_of_app. by left.
    + apply apart_level; [done|lia].
    + apply Ha, elem_of_app. right. by apply Hsub.
  - apply Forall_app. split; [done|by repeat constructor].
  - done.
  - rewrite <- Hout, (climb_uncovered n Hn1 _ _ _ Hcl Hok). by rewrite app_assoc.
Qed.

Lemma before_last x y B A : nodes_ok n (A ++ x :: y :: B) -> within x T /\ x <> T /\ tend x < n /\ x <> y.
Proof.
  intros (Ha & Hb & Hab)%nodes_ok_app. apply nodes_ok_cons in Hb as (Hx & Hy & Hxy).
  pose proof (Hxy y ltac:(left)) as Hlt. apply nodes_ok_cons in Hy as (Hy & _).
  pose proof (within_bounds n Hn1 _ _ (within_refl _) Hy) as Hby.
  pose proof (tsize_pos n Hn1 _ Hy). pose proof (tsize_pos n Hn1 _ Hx).
  pose proof (log_tree_wf n Hn1) as HT. apply wf_tree_subtree in HT as (_ & E1 & E2).
  unfold before, tend in *. split_and!; [done|intros ->; lia|lia|intros ->; lia].
Qed.

(** The head of a pass and its sibling. *)
Lemma pass_head j (S0 : list ltree) next x y ns out p s b :
  pass j S0 (x :: y :: ns) next out -> within p T -> children p x s b ->
  tlvl p = S j /\ (y = s /\ b = true \/
                   (if b then s else x) <> y /\ forall u, u ∈ next ++ y :: ns -> ~ within u s).
Proof.
  intros [Hok Ha Hnext [Hx Hlev] _] Hp Hc. destruct (before_last _ _ _ _ Hok) as (Hwx & _ & He & Hxy).
  destruct (parent_level n Hn1 _ _ _ _ Hp Hc He) as [Hpl Hsl]. split; [lia|].
  destruct (children_within _ _ _ _ Hc) as [_ Hsp]. assert (within s T) as Hs by (by eapply within_trans).
  pose proof (children_disjoint n Hn1 _ _ _ _ Hp Hc) as Hd.
  destruct (decide (y = s /\ b = true)) as [?|Hys]; [by left|right].
  split; [destruct b; [|done]; intros ->; by apply Hys|].
  intros u Hu Hw. assert (u = s) as ->.
  { eapply apart_inside; [apply Ha|done..|lia].
    apply elem_of_app in Hu as [Hu|Hu]; apply elem_of_app; [by left|right; by right]. }
  apply nodes_ok_app in Hok as (_ & Hb & Hab). apply nodes_ok_cons in Hb as (_ & Hyn & Hxs).
  pose proof (tsize_pos n Hn1 _ Hs). pose proof (tsize_pos n Hn1 _ Hwx).
  apply elem_of_app in Hu as [Hu|Hu].
  - rewrite Forall_forall in Hnext. specialize (Hnext _ Hu). lia.
  - pose proof (Hxs _ Hu) as Hlt. destruct b; [|unfold before, tend in *; lia].
    apply elem_of_cons in Hu as [->|Hu]; [by apply Hys|].
    apply nodes_ok_cons in Hyn as (Hwy & _ & Hys'). specialize (Hys' _ Hu). specialize (Hxs y ltac:(left)).
    destruct Hc as (lo & m & ->). destruct (node_bounds n Hn1 _ _ _ _ Hp) as (_ & _ & E1 & E2 & _).
    pose proof (tsize_pos n Hn1 _ Hwy). unfold before, tend in *. lia.
Qed.

Lemma combine_level_ok j (S0 : list ltree) (k : nat) ns next out :
  (length ns <= k)%nat -> pass j S0 ns next out ->
  exists ns' next' out',
    @math.combine_level E (tid <$> ns) n (tid <$> next) (tid <$> out) =
      Ok (tid <$> ns', tid <$> next', tid <$> out') /\
    pass j S0 ns' next' out' /\ (length ns' <= 1)%nat /\
    ((length ns <= 1)%nat /\ ns' = ns /\ next' = next \/ next' <> []).
Proof.
  revert ns next out. induction k as [|k IH]; intros ns next out Hk Hpass.
  { destruct ns; [|cbn in Hk; lia]. exists [], next, out. split_and!; try done; try (cbn; lia); left; split_and!; done || (cbn; lia). }
  destruct ns as [|x [|y ns]].
  1: exists [], next, out.
  2: exists [x], next, out.
  1, 2: split_and!; try done; try (cbn; lia); left; split_and!; done || (cbn; lia).
  destruct (before_last _ _ _ _ (pass_ok _ _ _ _ _ Hpass)) as (Hwx & HxT & _ & _).
  destruct (has_parent _ _ Hwx HxT) as (p & s & b & Hp & Hc).
  destruct (pass_head _ _ _ _ _ _ _ _ _ _ Hpass Hp Hc) as [Hpl Hcase].
  destruct (children_ids _ _ _ _ Hp Hc) as (Epar & Esib & Eright).
  assert (within y T) as Hwy by (apply (ok_within _ _ (pass_ok _ _ _ _ _ Hpass)); set_solver).
  assert (within (if b then s else x) T) as Hwr.
  { destruct (children_within _ _ _ _ Hc), b; by eapply within_trans. }
  pose proof (pass_level _ _ _ _ _ Hpass) as [_ Hlev].
  cbn [fmap list_fmap math.combine_level]. rewrite Epar. cbn [mbind outcome_bind]. rewrite Eright. cbn [mbind outcome_bind].
  assert (forall ns' new, pass j S0 ns' (next ++ [p]) (out ++ new) -> (length ns' <= k)%nat ->
    exists ns'' next' out',
      @math.combine_level E (tid <$> ns') n ((tid <$> next) ++ [tid p]) ((tid <$> out) ++ (tid <$> new)) =
        Ok (tid <$> ns'', tid <$> next', tid <$> out') /\
      pass j S0 ns'' next' out' /\ (length ns'' <= 1)%nat /\
      ((length (x :: y :: ns) <= 1)%nat /\ ns'' = x :: y :: ns /\ next' = next \/ next' <> [])) as Hrec.
  { intros ns' new Hpass' Hk'. destruct (IH _ _ _ Hk' Hpass') as (ns'' & next' & out' & Heq & ? & ? & Hne).
    exists ns'', next', out'. rewrite !fmap_app in Heq. split_and!; try done. right.
    destruct Hne as [(_ & _ & ->)|?]; [by destruct next|done]. }
  destruct Hcase as [[-> ->]|[Hne Hfree]].
  - rewrite Z.eqb_refl. specialize (Hrec ns []). cbn [fmap list_fmap] in Hrec. rewrite (app_nil_r (tid <$> out)) in Hrec.
    apply Hrec; [|cbn in Hk; lia]. eapply pass_step; [done|by apply climb_pair|done|done| |].
    + destruct ns; [done|]. apply Hlev.
    + intros u Hu. by do 2 right.
  - rewrite (proj2 (Z.eqb_neq _ _)) by (intros Heq; by apply Hne, tid_inj).
    rewrite Esib. cbn [mbind outcome_bind]. apply (Hrec (y :: ns) [s]); [|cbn in *; lia].
    eapply pass_step; [done|by eapply climb_one|done|done|done|]. intros u Hu. by right.
Qed.

Lemma level_nodes_snoc j ns x : Forall (fun u => tlvl u = j) ns -> (tlvl x <= j)%nat -> level_nodes j (ns ++ [x]).
Proof.
  induction 1 as [|u ns Hu Hns IH]; intros Hx; [done|]. cbn [app]. apply level_nodes_cons; [by destruct ns|]. auto.
Qed.

Lemma level_nodes_all j ns : Forall (fun u => tlvl u = j) ns -> level_nodes j ns.
Proof.
  induction 1 as [|u ns Hu Hns IH]; [done|]. destruct ns; [cbn; lia|]. by apply level_nodes_cons.
Qed.

(** A pass over a level ends as one over a higher level. *)
Lemma pass_end j j' (S0 : list ltree) ns next out :
  nodes_ok n ns -> level_nodes j' ns -> (forall u, u ∈ ns -> apart j' u) ->
  out ++ uncovered ns T ≡ₚ uncovered S0 T -> next = [] -> pass j' S0 ns next out.
Proof. intros Hok Hl Ha Ho ->. by split. Qed.

Lemma next_apart j next u : nodes_ok n next -> Forall (fun v => tlvl v = S j) next -> u ∈ next -> apart (S j) u.
Proof.
  intros Hok Hnext Hu. apply apart_level; [by apply (ok_within _ _ Hok)|]. rewrite Forall_forall in Hnext.
  by rewrite (Hnext u Hu).
Qed.

(** The last node moves up, with its sibling put out. *)
Lemma last_moves j (S0 : list ltree) x next out p s b :
  pass j S0 [x] next out -> within p T -> children p x s b -> (next <> [] -> tlvl p = S j) ->
  exists j', (j < j')%nat /\ pass j' S0 (next ++ [p]) [] (out ++ [s]).
Proof.
  intros [Hok Ha Hnext Hx Hout] Hp Hc Hpl. exists (tlvl p).
  destruct (children_within _ _ _ _ Hc) as [Hxp Hsp]. destruct (children_level n Hn1 _ _ _ _ Hp Hc) as [Hxl Hsl].
  assert (j < tlvl p)%nat as Hj.
  { apply (Ha x); [apply elem_of_app; right; by left|done|done|]. by intros ->; lia. }
  split; [done|]. assert (climb n (next ++ [x]) (next ++ [p]) [s]) as Hcl.
  { eapply (climb_one n next []); [done..|]. rewrite app_nil_r. intros u Hu Hw.
    rewrite Forall_forall in Hnext. specialize (Hnext u Hu).
    assert (next <> []) as Hne by (by intros ->; apply not_elem_of_nil in Hu). specialize (Hpl Hne).
    destruct (decide (u = s)) as [->|Hus]; [lia|].
    pose proof (within_level n Hn1 _ _ (within_trans _ _ _ Hsp Hp) Hw Hus). lia. }
  apply (pass_end j); [by apply (climb_nodes_ok n Hn1 _ _ _ Hcl)| | | |done].
  - destruct next as [|f next]; [cbn; lia|]. rewrite Hpl by done. by apply level_nodes_snoc; [|rewrite Hpl].
  - intros u [Hu|Hu%list_elem_of_singleton]%elem_of_app; [|subst; by apply apart_level].
    destruct next as [|f next]; [by apply not_elem_of_nil in Hu|]. rewrite Hpl by done.
    eapply next_apart; [|done|done]. by apply nodes_ok_app in Hok as [].
  - rewrite <- Hout, (climb_uncovered n Hn1 _ _ _ Hcl Hok). by rewrite app_assoc.
Qed.

(** The last node stays, since its parent is above the next level. *)
Lemma last_stays j (S0 : list ltree) x next out p s b :
  pass j S0 [x] next out -> within p T -> children p x s b -> (S j < tlvl p)%nat ->
  pass (S j) S0 (next ++ [x]) [] out.
Proof.
  intros [Hok Ha Hnext Hx Hout] Hp Hc Hpl. apply (pass_end j); try done.
  - apply level_nodes_snoc; [done|]. cbn in Hx. lia.
  - intros u [Hu|Hu%list_elem_of_singleton]%elem_of_app.
    + eapply next_apart; [|done|done]. by apply nodes_ok_app in Hok as [].
    + subst. intros v Hv Hw Hne.
      assert (within x T) as Hwx by (eapply within_trans; [exact Hw|done]).
      destruct (has_parent _ _ Hw Hne) as (p' & s' & b' & Hp' & Hc').
      assert (p' = p) as ->.
      { apply tid_inj; [by eapply within_trans|done|].
        destruct (children_ids _ _ _ _ Hp Hc) as (E1 & _), (children_ids _ _ _ _ (within_trans _ _ _ Hp' Hv) Hc') as (E2 & _).
        congruence. }
      destruct (decide (p = v)) as [->|Hpv]; [done|]. pose proof (within_level n Hn1 _ _ Hv Hp' Hpv). lia.
Qed.

Lemma last_node_ok j (S0 : list ltree) ns next out :
  pass j S0 ns next out -> (length ns <= 1)%nat -> (next = [] -> exists x, ns = [x] /\ x <> T) ->
  exists j' ns' out',
    @math.last_node E (tid <$> ns) n (tid <$> next) (tid <$> out) = Ok (tid <$> ns', tid <$> out') /\
    pass j' S0 ns' [] out' /\ (j < j')%nat /\ ns' <> [].
Proof.
  intros Hpass Hlen Hne. destruct ns as [|x [|]]; [| |cbn in Hlen; lia].
  - exists (S j), next, out. split_and!; [done| |lia|by intros ->; destruct Hne as (? & ? & _)].
    destruct Hpass as [Hok Ha Hnext _ Hout]. rewrite app_nil_r in *.
    apply (pass_end j); try done; [by apply level_nodes_all|]. intros u Hu. by eapply next_apart.
  - pose proof Hpass as [Hok Ha Hnext Hx _].
    assert (within x T) as Hwx by (apply (ok_within _ _ Hok), elem_of_app; right; by left).
    assert (x <> T) as HxT.
    { destruct next as [|f next]; [by destruct Hne as (? & [= ->] & ?)|].
      rewrite Forall_cons in Hnext. destruct Hnext as [Hf _].
      apply nodes_ok_app in Hok as (Hokn & _ & Hb). apply nodes_ok_cons in Hokn as (Hwf & _).
      specialize (Hb f x ltac:(left) ltac:(left)). intros ->.
      by apply (before_not_within n Hn1 f T Hwf (within_refl _)); [left|]. }
    destruct (has_parent _ _ Hwx HxT) as (p & s & b & Hp & Hc).
    destruct (children_ids _ _ _ _ Hp Hc) as (Epar & Esib & _).
    cbn [fmap list_fmap math.last_node]. rewrite Epar, Esib. cbn [mbind outcome_bind].
    destruct next as [|f next]; cbn [fmap list_fmap].
    + destruct (last_moves _ _ _ _ _ _ _ _ Hpass Hp Hc ltac:(done)) as (j' & Hj & Hpass').
      exists j', [p], (out ++ [s]). split_and!; [by rewrite fmap_app|done..].
    + rewrite Forall_cons in Hnext. destruct Hnext as [Hf Hnext].
      assert (within f T) as Hwf by (apply (ok_within _ _ Hok); by left).
      rewrite !level_tid, Hf by done. cbn [mbind outcome_bind]. destruct (Nat.ltb_spec (S j) (tlvl p)).
      * exists (S j), (f :: next ++ [x]), out. split_and!; [by rewrite fmap_cons, fmap_app|by apply (last_stays _ _ _ (f :: next) _ _ _ _ Hpass Hp Hc)|lia|done].
      * assert (j < tlvl p)%nat.
        { apply (Ha x); [apply elem_of_app; right; by left|done| |]; [by apply (children_within _ _ _ _ Hc)|].
          intros ->. by apply (parent_not_within n Hn1 _ _ _ _ Hp Hc), within_refl. }
        destruct (last_moves _ _ _ _ _ _ _ _ Hpass Hp Hc ltac:(lia)) as (j' & Hj & Hpass').
        exists j', (f :: next ++ [p]), (out ++ [s]). split_and!; [by rewrite fmap_cons, !fmap_app|done..].
Qed.

Lemma copath_levels_ok fuel j (S0 : list ltree) ns out :
  pass j S0 ns [] out -> ns <> [] -> (tlvl T <= fuel + j)%nat ->
  exists ids, @math.copath_levels E fuel (tid <$> ns) (tid T) n (tid <$> out) = Ok (tid <$> ids) /\
    ids ≡ₚ uncovered S0 T.
Proof.
  revert j ns out. induction fuel as [|fuel IH]; intros j ns out Hpass Hne Hfuel;
    pose proof Hpass as [Hok Ha _ _ Hout]; cbn [app] in *.
  all: assert (forall x, x ∈ ns -> x <> T -> (j < tlvl T)%nat) as Hlow by
    (intros x Hx HxT; apply (Ha x Hx); [apply within_refl|by apply (ok_within _ _ Hok)|done]).
  all: assert (math.is_root (tid <$> ns) (tid T) = true -> ns = [T]) as Hroot by
    (destruct ns as [|x [|]]; try done; cbn; intros ->%Z.eqb_eq%tid_inj; try done;
     [apply (ok_within _ _ Hok); by left|apply within_refl]).
  all: cbn [math.copath_levels]; destruct (math.is_root _ _) eqn:Eroot.
  1, 3: rewrite (Hroot eq_refl) in Hout; exists out; split; [done|];
    by rewrite <- Hout, uncovered_in, app_nil_r by (by left).
  - exfalso. destruct ns as [|x ns]; [done|]. destruct (decide (x = T)) as [->|HxT].
    + destruct ns as [|y ns]; [cbn in Eroot; by rewrite Z.eqb_refl in Eroot|].
      by destruct (before_last T y ns [] Hok) as (_ & ? & _).
    + specialize (Hlow x ltac:(left) HxT). lia.
  - destruct (combine_level_ok j S0 _ ns [] out (le_n _) Hpass) as (ns1 & next & out1 & Heq & Hpass1 & Hlen & Hcase).
    cbn [fmap list_fmap] in Heq. rewrite Heq. cbn [mbind outcome_bind].
    destruct (last_node_ok j S0 ns1 next out1 Hpass1 Hlen) as (j' & ns2 & out2 & Heq2 & Hpass2 & Hj & Hne2).
    { intros ->. destruct Hcase as [(Hl & -> & _)|?]; [|done]. destruct ns as [|x [|]]; [done| |cbn in Hl; lia].
      exists x. split; [done|]. intros ->. cbn in Eroot. by rewrite Z.eqb_refl in Eroot. }
    rewrite Heq2. cbn [mbind outcome_bind]. apply (IH j'); [done..|lia].
Qed.
End passes.

(** ** The proofs *)

Lemma increasing_sorted (l : list Z) : increasing id l -> StronglySorted Z.le l.
Proof.
  induction l as [|x l IH]; [constructor|]. intros [Hx Hi]%increasing_cons.
  constructor; [by apply IH|]. by apply Forall_forall.
Qed.

Lemma sorted_lt_le (l : list Z) : StronglySorted Z.lt l -> StronglySorted Z.le l.
Proof.
  induction 1 as [|x l Hl IH Hx]; [constructor|]. constructor; [done|].
  eapply Forall_impl; [done|]. cbn. lia.
Qed.

Lemma sort_by_key_unique (l l' : list Z) : StronglySorted Z.lt l -> l' ≡ₚ l -> sort_by_key id l' = l.
Proof.
  intros Hl Hp. apply (StronglySorted_unique Z.le); [|by apply sorted_lt_le|].
  - apply increasing_sorted, sort_by_key_increasing.
  - by rewrite sort_by_key_perm.
Qed.

Lemma strictly_sorted_spec (x : list Z) : strictly_sorted x = true <-> StronglySorted Z.lt x.
Proof.
  induction x as [|a x IH]; [by split; [constructor|]|]. rewrite StronglySorted_cons, <- IH.
  destruct x as [|b x]; [by split|]. cbn [strictly_sorted]. rewrite andb_true_iff, Z.ltb_lt.
  split; [|by intros [Ha Hs]; apply Forall_cons in Ha as [? _]].
  intros [Hab Hs]. split; [|done]. apply IH, StronglySorted_cons in Hs as [Hb _].
  constructor; [done|]. eapply Forall_impl; [done|]. cbn. lia.
Qed.

(** The nodes that [insert_merged] inserts, in order. *)
Fixpoint merged (fuel : nat) (xs cs : list (Z * Hash)) : list (Z * Hash) :=
  match fuel with
  | O => []
  | S fuel =>
      match xs, cs with
      | [], [] => []
      | (x, v) :: xs', [] => (2 * x, v) :: merged fuel xs' cs
      | [], (c, p) :: cs' => (c, p) :: merged fuel xs cs'
      | (x, v) :: xs', (c, p) :: cs' =>
          if 2 * x <? c then (2 * x, v) :: merged fuel xs' cs else (c, p) :: merged fuel xs cs'
      end
  end.

Definition leaf_pair (p : Z * Hash) : Z * Hash := (2 * p.1, p.2).

Lemma insert_merged_eq `{Sha256} fuel xs cs calc :
  (forall p, p ∈ xs -> 0 <= p.1) -> insert_merged fuel xs cs calc = insert_all (merged fuel xs cs) calc.
Proof.
  assert (forall x, 0 <= x -> level (2 * x) = O) as Hl.
  { intros x Hx. replace (2 * x) with (node 0 x) by (unfold node; cbn; lia). by apply level_node. }
  revert xs cs calc. induction fuel as [|fuel IH]; intros xs cs calc Hx; [done|].
  destruct xs as [|[x v] xs], cs as [|[c p] cs]; cbn [insert_merged merged]; try done.
  - by rewrite IH.
  - rewrite IH by (intros q Hq; apply Hx; by right). cbn. rewrite Hl; [done|]. by apply (Hx (x, v)); left.
  - destruct (_ <? _); rewrite IH; try done; [|by intros q Hq; apply Hx; right].
    cbn. rewrite Hl; [done|]. by apply (Hx (x, v)); left.
Qed.

Lemma merged_perm fuel xs cs : (length xs + length cs <= fuel)%nat -> merged fuel xs cs ≡ₚ (leaf_pair <$> xs) ++ cs.
Proof.
  revert xs cs. induction fuel as [|fuel IH]; intros xs cs Hf;
    destruct xs as [|[x v] xs], cs as [|[c p] cs]; try done; try (cbn in Hf; lia); cbn [merged].
  - rewrite IH by (cbn in *; lia). done.
  - rewrite IH by (cbn in *; lia). done.
  - destruct (_ <? _); rewrite IH by (cbn in *; lia); [done|]. cbn [fmap list_fmap].
    by rewrite <- Permutation_middle.
Qed.

Lemma merged_sorted fuel xs cs : (length xs + length cs <= fuel)%nat ->
  StronglySorted Z.lt xs.*1 -> StronglySorted Z.lt cs.*1 -> StronglySorted Z.le (merged fuel xs cs).*1.
Proof.
  assert (forall (fuel : nat) (h : Z) xs cs, (length xs + length cs <= fuel)%nat -> StronglySorted Z.le (merged fuel xs cs).*1 ->
    (forall x, x ∈ xs.*1 -> h <= 2 * x) -> (forall c, c ∈ cs.*1 -> h <= c) ->
    StronglySorted Z.le (h :: (merged fuel xs cs).*1)) as Hcons.
  { clear. intros f h xs cs Hf Hs Hx Hc. constructor; [done|]. rewrite (merged_perm f xs cs Hf), fmap_app, Forall_app.
    split; apply Forall_forall; [|done]. intros i Hi. rewrite <- list_fmap_compose in Hi.
    apply list_elem_of_fmap in Hi as (q & -> & Hq). apply Hx, list_elem_of_fmap. by exists q. }
  revert xs cs. induction fuel as [|fuel IH]; intros xs cs Hf Hxs Hcs; [constructor|].
  assert (forall (a : Z) (l : list Z), StronglySorted Z.lt (a :: l) -> forall y, y ∈ a :: l -> a <= y) as Hhead.
  { intros a l [Ha _]%StronglySorted_cons y [->|Hy]%elem_of_cons; [lia|]. rewrite Forall_forall in Ha.
    specialize (Ha y Hy). lia. }
  destruct xs as [|[x v] xs], cs as [|[c p] cs]; cbn [merged]; [constructor|..].
  - cbn [fmap list_fmap fst] in Hcs. apply StronglySorted_cons in Hcs as Hcs'. destruct Hcs' as [_ Hcs'].
    apply Hcons; [cbn in *; lia|apply IH; [cbn in *; lia|done..]|by intros y ?%not_elem_of_nil|].
    intros y Hy. by apply (Hhead _ _ Hcs); right.
  - cbn [fmap list_fmap fst] in Hxs. apply StronglySorted_cons in Hxs as Hxs'. destruct Hxs' as [_ Hxs'].
    apply Hcons; [cbn in *; lia|apply IH; [cbn in *; lia|done..]| |by intros y ?%not_elem_of_nil].
    intros y Hy. pose proof (Hhead _ _ Hxs y ltac:(by right)). cbn [fst]. lia.
  - cbn [fmap list_fmap fst] in Hxs, Hcs. pose proof (Hhead _ _ Hxs) as Hx. pose proof (Hhead _ _ Hcs) as Hc.
    apply StronglySorted_cons in Hxs as Hxs'. destruct Hxs' as [_ Hxs'].
    apply StronglySorted_cons in Hcs as Hcs'. destruct Hcs' as [_ Hcs'].
    destruct (Z.ltb_spec (2 * x) c); apply Hcons; try (cbn in *; lia); try (by apply IH; [cbn in *; lia|..]).
    + intros y Hy. specialize (Hx y ltac:(by right)). cbn [fst]. lia.
    + intros y Hy. specialize (Hc y Hy). cbn [fst]. lia.
    + intros y Hy. specialize (Hx y Hy). cbn [fst]. lia.
    + intros y Hy. by apply Hc; right.
Qed.

Section batch_proofs.
Context `{Sha256}.
Implicit Types (t u v s l r : ltree) (N : list ltree) (L : list Hash).

Lemma filter_cover N t : filter (fun u => u ∉ N) (cover N t) = uncovered N t.
Proof.
  induction t as [lo|lo m l IHl r IHr]; cbn [cover uncovered];
    (case_bool_decide as Hin; [by rewrite filter_cons_False, filter_nil by tauto|]);
    destruct (existsb _ _); try (by rewrite filter_cons_True, filter_nil).
  by rewrite filter_app, IHl, IHr.
Qed.

Lemma cover_cut N t : cut_of t (cover N t).
Proof.
  induction t as [lo|lo m l IHl r IHr]; cbn [cover]; case_bool_decide; try apply cut_whole;
    destruct (existsb _ _); try apply cut_whole. by apply cut_split.
Qed.

Section nodes.
Context (n : Z) (Hn : 1 <= n).

Lemma cut_nodes_ok t ls : cut_of t ls -> within t (log_tree n) -> nodes_ok n ls.
Proof.
  induction 1 as [t|lo m l r a b Ha IHa Hb IHb]; intros Ht; [by apply nodes_ok_singleton|].
  destruct (node_bounds n Hn _ _ _ _ Ht) as (_ & _ & E1 & E2 & _ & _ & _ & _ & Hl & Hr).
  apply nodes_ok_app. split_and!; auto. intros u v Hu Hv.
  pose proof (within_bounds n Hn _ _ Hl (cut_of_within _ _ _ Ha Hu)).
  pose proof (within_bounds n Hn _ _ Hr (cut_of_within _ _ _ Hb Hv)). unfold before. lia.
Qed.

(** Nodes from left to right have increasing ids. *)
Lemma nodes_ids_sorted N : nodes_ok n N -> StronglySorted Z.lt (tid <$> N).
Proof.
  induction N as [|u N IH]; [constructor|]. intros (Hu & HN & Hb)%nodes_ok_cons. cbn.
  constructor; [by apply IH|]. apply Forall_fmap, Forall_forall. intros v Hv. cbn. specialize (Hb v Hv).
  pose proof (tid_range _ _ _ _ (within_subtree n Hn _ Hu)).
  pose proof (tid_range _ _ _ _ (within_subtree n Hn _ (ok_within _ _ HN v Hv))).
  unfold before, tend in Hb. lia.
Qed.

(** Every node of [N] is in the cover. *)
Lemma in_cover N u t : nodes_ok n N -> u ∈ N -> within t (log_tree n) -> within u t -> u ∈ cover N t.
Proof.
  intros HN Hu. assert (forall v, v ∈ N -> within u v -> u = v) as Hanti.
  { intros v Hv Hw. destruct (decide (u = v)) as [|Hne]; [done|].
    apply list_elem_of_split in Hv as (A & B & ->).
    assert (u ∈ A ++ B) as Hu' by (apply elem_of_app in Hu as [?|[?|?]%elem_of_cons]; [..|done|]; apply elem_of_app; tauto).
    by destruct (others_disjoint n Hn A v B u HN Hu') as (_ & _ & _ & ? & _). }
  induction t as [lo|lo m l IHl r IHr]; intros Ht Hw; cbn [cover]; case_bool_decide as Hin.
  1, 3: rewrite (Hanti _ Hin Hw); by left.
  - destruct Hw as [->|[]]. done.
  - assert (existsb (fun v => inside v (LNode lo m l r)) N = true) as ->.
    { apply existsb_exists. exists u. split; [by apply list_elem_of_In|]. apply (inside_within n Hn); [|done|done].
      by apply (ok_within _ _ HN). }
    destruct (node_bounds n Hn _ _ _ _ Ht) as (_ & _ & _ & _ & _ & _ & _ & _ & Hl & Hr).
    destruct Hw as [->|[Hw|Hw]]; [done|apply elem_of_app; left; auto|apply elem_of_app; right; auto].
Qed.

Lemma nodes_NoDup N : nodes_ok n N -> NoDup N.
Proof.
  induction N as [|u N IH]; [constructor|]. intros (Hu & HN & Hb)%nodes_ok_cons. constructor; [|by apply IH].
  intros Hin. specialize (Hb u Hin). pose proof (tsize_pos n Hn u Hu). unfold before, tend in Hb. lia.
Qed.

(** The cover consists of [N] and what [N] leaves uncovered. *)
Lemma cover_perm N : nodes_ok n N -> cover N (log_tree n) ≡ₚ N ++ uncovered N (log_tree n).
Proof.
  intros HN. pose proof (cut_nodes_ok _ _ (cover_cut N (log_tree n)) (within_refl _)) as Hc.
  rewrite <- filter_cover. apply NoDup_Permutation.
  - by apply nodes_NoDup.
  - apply NoDup_app. split_and!; [by apply nodes_NoDup| |by apply NoDup_filter, nodes_NoDup].
    intros u Hu [Hni _]%list_elem_of_filter. done.
  - intros u. rewrite elem_of_app, list_elem_of_filter. destruct (decide (u ∈ N)) as [Hu|Hu]; [|tauto].
    split; [tauto|]. intros _. apply in_cover; [done..|apply within_refl|by apply (ok_within _ _ HN)].
Qed.

Lemma leaf_within lo m t x : wf_tree n lo m t -> lo <= x < lo + m -> within (LLeaf x) t.
Proof.
  induction 1 as [lo Hs|lo m l r Hs Hm Hl IHl Hr IHr]; intros Hx.
  - replace x with lo by lia. apply within_refl.
  - pose proof (split_bounds m Hm). right. destruct (Z.lt_ge_cases x (lo + split m)); [left; apply IHl|right; apply IHr]; lia.
Qed.
End nodes.

(** The ids that the source asks for. *)
Definition leaves (x : list Z) : list ltree := LLeaf <$> x.
Definition copath_ids (x : list Z) (n : Z) : list Z := tid <$> uncovered (leaves x) (log_tree n).

Section requested.
Context (n : Z) (Hn : 1 <= n <= MAX_LEAVES) (x : list Z).
Context (Hsorted : StronglySorted Z.lt x) (Hne : x <> []) (Hx : Forall (fun i => 0 <= i < n) x).

Lemma leaves_ok : nodes_ok n (leaves x).
Proof.
  pose proof (log_tree_wf n ltac:(lia)) as Hwf. unfold leaves. clear Hne.
  induction Hsorted as [|i y Hy IH Hi]; cbn; [split; [by intros u ?%not_elem_of_nil|constructor]|].
  apply Forall_cons in Hx as [Hi' Hy']. apply nodes_ok_cons. split_and!.
  - apply (leaf_within n 0 n); [done|lia].
  - by apply IH.
  - intros v (j & -> & Hj)%list_elem_of_fmap. rewrite Forall_forall in Hi. specialize (Hi j Hj).
    unfold before, tend. cbn. lia.
Qed.

Lemma tid_leaf i : 0 <= i < n -> tid (LLeaf i) = 2 * i.
Proof.
  intros Hi. unfold tid, nid. cbn [tlo tsize]. rewrite lvl_1 by lia. unfold node. cbn. rewrite Z.div_1_r. lia.
Qed.

Lemma leaves_ids : tid <$> leaves x = Z.mul 2 <$> x.
Proof.
  unfold leaves. rewrite <- list_fmap_compose. apply list_fmap_ext. intros k i Hi. cbn -[Z.mul].
  apply list_elem_of_lookup_2 in Hi. rewrite Forall_forall in Hx. by apply tid_leaf, Hx.
Qed.

Lemma leaves_pass : pass n 0 (leaves x) (leaves x) [] [].
Proof.
  assert (forall u, u ∈ leaves x -> tlvl u = O) as Hl.
  { intros u (i & -> & Hi)%list_elem_of_fmap. unfold tlvl. cbn. by rewrite lvl_1 by lia. }
  split; cbn [app]; [by apply leaves_ok| |done| |done].
  - intros u Hu. apply (apart_level n Hn); [by apply leaves_ok|lia].
  - apply level_nodes_all, Forall_forall. exact Hl.
Qed.

Lemma uncovered_sorted : StronglySorted Z.lt (copath_ids x n).
Proof.
  unfold copath_ids. rewrite <- filter_cover. assert (1 <= n) as Hn' by lia.
  apply (nodes_ids_sorted n Hn').
  pose proof (cut_nodes_ok n Hn' _ _ (cover_cut (leaves x) (log_tree n)) (within_refl _)) as [Hw Hs].
  split; [by intros u [_ Hu]%list_elem_of_filter; apply Hw|].
  induction Hs as [|u N HN IH Hu]; [constructor|]. rewrite filter_cons. destruct (decide _).
  - constructor; [apply IH; intros v Hv; apply Hw; by right|]. apply Forall_forall. intros v [_ Hv]%list_elem_of_filter.
    rewrite Forall_forall in Hu. by apply Hu.
  - apply IH. intros v Hv. apply Hw. by right.
Qed.

(** [math::batch_copath] ends and returns exactly the ids of the subtrees
    that are needed: for strictly increasing leaf numbers, the highest subtrees
    of the log tree that hold none of these leaves, from left to right. *)
Lemma batch_copath_ok {E} : @math.batch_copath E x n = Ok (copath_ids x n).
Proof.
  unfold math.batch_copath. rewrite (mapM_Ok _ (Z.mul 2)).
  2: { intros i Hi. rewrite Forall_forall in Hx. specialize (Hx i Hi). apply u64_mul_ok.
       unfold u64_max, MAX_LEAVES in *. lia. }
  cbn [mbind outcome_bind]. rewrite <- leaves_ids.
  rewrite (sort_by_key_unique (tid <$> leaves x)); [|apply (nodes_ids_sorted n ltac:(lia)), leaves_ok|done].
  rewrite root_ok by done. cbn [mbind outcome_bind].
  destruct (wf_tree_id _ _ _ _ (log_tree_wf n ltac:(lia))) as [<- Hlvl].
  destruct (copath_levels_ok (E:=E) n Hn 65 0 _ _ _ leaves_pass) as (ids & Heq & Hp).
  { unfold leaves. by destruct x. }
  { rewrite Hlvl. pose proof (lvl_63 n ltac:(lia)). lia. }
  cbn [fmap list_fmap] in Heq. rewrite Heq. cbn [mbind outcome_bind]. f_equal.
  apply sort_by_key_unique; [by apply uncovered_sorted|]. unfold copath_ids. by rewrite Hp.
Qed.

(** What the verifier inserts: a cut through the log. *)
Definition batch_nodes (values proof : list Hash) : list (Z * Hash) :=
  merged (length x + length (copath_ids x n)) (zip x values) (zip (copath_ids x n) proof).

Lemma batch_nodes_perm values proof :
  length values = length x -> length proof = length (copath_ids x n) ->
  batch_nodes values proof ≡ₚ (leaf_pair <$> zip x values) ++ zip (copath_ids x n) proof.
Proof.
  intros Hv Hp. apply merged_perm. rewrite !length_zip_with. lia.
Qed.

Lemma batch_nodes_ids values proof :
  length values = length x -> length proof = length (copath_ids x n) ->
  (batch_nodes values proof).*1 = tid <$> cover (leaves x) (log_tree n).
Proof.
  intros Hv Hp. assert (1 <= n) as Hn' by lia. apply (StronglySorted_unique Z.le).
  - apply merged_sorted; [rewrite !length_zip_with; lia| |]; rewrite fst_zip by lia; [done|apply uncovered_sorted].
  - apply sorted_lt_le, (nodes_ids_sorted n Hn'). apply (cut_nodes_ok n Hn' (log_tree n)); [apply cover_cut|apply within_refl].
  - rewrite (batch_nodes_perm _ _ Hv Hp), fmap_app, fst_zip by lia.
    rewrite (cover_perm n Hn') by apply leaves_ok. rewrite fmap_app, leaves_ids.
    rewrite <- list_fmap_compose. replace (fst ∘ leaf_pair) with (Z.mul 2 ∘ @fst Z Hash) by done.
    by rewrite list_fmap_compose, fst_zip by lia.
Qed.

Lemma evaluate_batch_eq values proof :
  length values = length x -> length proof = length (copath_ids x n) ->
  exists nd strs, evaluates (log_tree n) (batch_nodes values proof) nd strs /\
    evaluate_batch_proof x n values proof = Ok (nd_value nd).
Proof.
  intros Hv Hp. pose proof (batch_nodes_ids _ _ Hv Hp) as Hids.
  destruct (cut_evaluates (log_tree n) _ (batch_nodes values proof).*2 (cover_cut (leaves x) _)) as (nd & strs & Hev).
  { rewrite length_fmap, <- (length_fmap fst), Hids. by rewrite length_fmap. }
  rewrite <- Hids, zip_fst_snd in Hev. exists nd, strs. split; [done|].
  unfold evaluate_batch_proof. rewrite Hv, Nat.eqb_refl, (proj2 (strictly_sorted_spec x) Hsorted). cbn [negb].
  destruct (list.last x) as [i|] eqn:Elast; [|by apply last_None in Elast]. cbn [ok_or mbind outcome_bind].
  pose proof (proj1 (Forall_forall _ _) Hx) as Hb. apply last_Some_elem_of in Elast.
  pose proof (Hb i Elast) as Hi. cbn in Hi.
  rewrite (proj2 (Z.leb_gt _ _)) by lia.
  rewrite batch_copath_ok. cbn [mbind outcome_bind]. rewrite Hp, Nat.eqb_refl. cbn [negb].
  rewrite insert_merged_eq; [exact (calc_evaluates _ _ _ _ _ _ Hev (log_tree_wf n ltac:(lia)))|].
  intros [j v] Hj%elem_of_zip_l. cbn. by apply Hb.
Qed.
End requested.

Lemma requested_ok n x (values proof : list Hash) (root : Hash) :
  n <= MAX_LEAVES -> Forall (fun i => 0 <= i) x -> evaluate_batch_proof x n values proof = Ok root ->
  1 <= n /\ StronglySorted Z.lt x /\ x <> [] /\ Forall (fun i => 0 <= i < n) x /\
  length values = length x /\ length proof = length (copath_ids x n).
Proof.
  intros Hn Hx. unfold evaluate_batch_proof. destruct (Nat.eqb_spec (length x) (length values)) as [Hv|]; [|done].
  destruct (strictly_sorted x) eqn:Es; [|done]. apply strictly_sorted_spec in Es. cbn [negb].
  destruct (list.last x) as [i|] eqn:El; [|done]. cbn [ok_or mbind outcome_bind].
  destruct (Z.leb_spec n i) as [|Hi]; [done|]. apply last_Some in El as [y ->].
  assert (Forall (fun j => 0 <= j < n) (y ++ [i])) as Hb.
  { apply StronglySorted_app in Es as (Hy & _ & _). rewrite Forall_forall in *. intros j Hj. specialize (Hx j Hj).
    cbn in Hx. apply elem_of_app in Hj as [Hj| ->%list_elem_of_singleton]; [|lia].
    specialize (Hy j i Hj ltac:(by left)). lia. }
  assert (0 <= i) by (rewrite Forall_forall in Hx; apply Hx, elem_of_app; right; by left).
  assert (y ++ [i] <> []) as Hne by (by destruct y).
  rewrite (batch_copath_ok n ltac:(lia) _ Es Hne Hb). cbn [mbind outcome_bind].
  destruct (Nat.eqb_spec (length proof) (length (copath_ids (y ++ [i]) n))); [|done].
  intros _. split_and!; try done. lia.
Qed.

(** C27: an honest batch inclusion proof is accepted: for strictly increasing
    leaf numbers of a log of at most 2^63 leaves, [math::batch_copath] returns a
    list of node ids, and with the leaves and the hashes of those nodes
    [evaluate_batch_proof] returns the root of the log. *)
Theorem batch_complete L x :
  let n := Z.of_nat (length L) in
  n <= MAX_LEAVES -> strictly_sorted x = true -> x <> [] -> Forall (fun i => 0 <= i < n) x ->
  exists ids, @math.batch_copath LogError x n = Ok ids /\
    evaluate_batch_proof x n (leaf_of L <$> x) (honest_hashes L ids) = Ok (log_root L).
Proof.
  intros n Hn Hs%strictly_sorted_spec Hne Hx.
  assert (1 <= n <= MAX_LEAVES) as Hn'.
  { split; [|done]. destruct x as [|i x]; [done|]. apply Forall_cons in Hx as [? _]. lia. }
  pose proof (log_tree_wf n ltac:(lia)) as Hwf. exists (copath_ids x n). split; [by apply batch_copath_ok|].
  set (proof := honest_hashes _ _).
  assert (length (leaf_of L <$> x) = length x) as Hv by apply length_fmap.
  assert (length proof = length (copath_ids x n)) as Hp by apply length_fmap.
  destruct (evaluate_batch_eq n Hn' x Hs Hne Hx _ proof Hv Hp) as (nd & strs & Hev & ->).
  pose proof (batch_nodes_ids n Hn' x Hs Hx _ _ Hv Hp) as Hids.
  pose proof (cover_cut (leaves x) (log_tree n)) as Hcut.
  assert (forall p, p ∈ batch_nodes n x (leaf_of L <$> x) proof -> p.2 = node_hash (leaf_of L) (log_tree n) p.1) as Hall.
  { intros [i v]. rewrite (batch_nodes_perm n x _ _ Hv Hp), elem_of_app. cbn [fst snd]. intros [Hin|Hin].
    - apply list_elem_of_fmap in Hin as ([j w] & [= -> ->] & Hin). apply list_elem_of_lookup in Hin as [k Hk].
      apply lookup_zip_with_Some in Hk as (? & ? & [= <- <-] & Hj & Hw). rewrite list_lookup_fmap, Hj in Hw.
      injection Hw as <-. apply list_elem_of_lookup_2 in Hj. rewrite Forall_forall in Hx. specialize (Hx j Hj).
      rewrite <- (tid_leaf n) by done. by rewrite (node_hash_within n 0 n); [|done|apply (leaf_within n 0 n); [done|lia]].
    - apply list_elem_of_lookup in Hin as [k Hk]. apply lookup_zip_with_Some in Hk as (? & ? & [= <- <-] & Hj & Hw).
      unfold proof, honest_hashes in Hw. rewrite list_lookup_fmap, Hj in Hw. by injection Hw as <-. }
  destruct (evaluates_honest n 0 n _ _ (leaf_of L) Hcut Hwf) as [strs' Hev'].
  replace (batch_nodes n x (leaf_of L <$> x) proof) with
    (zip (tid <$> cover (leaves x) (log_tree n)) ((fun s => nd_value (thash (leaf_of L) s)) <$> cover (leaves x) (log_tree n))) in Hev.
  - by rewrite (evaluates_functional _ _ _ _ _ _ _ _ _ Hev Hev' Hwf).
  - rewrite <- (honest_nodes n _ _ _ Hwf) by (intros s; by apply cut_of_within). rewrite <- Hids.
    revert Hall. generalize (batch_nodes n x (leaf_of L <$> x) proof). intros l Hl.
    induction l as [|[i v] l IH]; [done|]. cbn. f_equal.
    + f_equal. symmetry. apply (Hl (i, v)). by left.
    + apply IH. intros p Hp'. apply Hl. by right.
Qed.

(** The strings the verifier hashes. *)
Definition batch_strings n (x : list Z) (values proof : list Hash) : list bytes :=
  cut_strings (log_tree n) (batch_nodes n x values proof).

(** The values are read off the log. *)
Lemma accepted_values_are_leaves L x values proof :
  let n := Z.of_nat (length L) in
  n <= MAX_LEAVES -> Forall (fun i => 0 <= i) x ->
  evaluate_batch_proof x n values proof = Ok (log_root L) ->
  values = leaf_of L <$> x \/ collision (batch_strings n x values proof ++ log_strings L).
Proof.
  intros n Hn Hx0 Heval. destruct (requested_ok _ _ _ _ _ Hn Hx0 Heval) as (Hn1 & Hs & Hne & Hx & Hv & Hp).
  assert (1 <= n <= MAX_LEAVES) as Hn' by lia. pose proof (log_tree_wf n ltac:(lia)) as Hwf.
  destruct (evaluate_batch_eq n Hn' x Hs Hne Hx _ proof Hv Hp) as (nd & strs & Hev & Heq).
  rewrite Heq in Heval. injection Heval as Hroot. unfold batch_strings. rewrite (evaluates_strings _ _ _ _ _ _ _ Hev Hwf).
  destruct (evaluates_sound n (leaf_of L) _ _ _ _ _ _ Hev Hwf Hroot) as [HA|HA]; [|by right].
  left. apply list_eq_same_length with (n := length x); [by rewrite length_fmap|done|].
  intros k v w Hk Hkv Hkw. apply list_lookup_fmap_Some in Hkw as (i & -> & Hi).
  rewrite Forall_forall in HA. pose proof (proj1 (Forall_forall _ _) Hx i (list_elem_of_lookup_2 _ _ _ Hi)) as Hib.
  cbn in Hib.
  destruct (HA (2 * i, v)) as (s & Hw & Hid & Hval).
  { rewrite (batch_nodes_perm n x _ _ Hv Hp). apply elem_of_app. left. apply list_elem_of_fmap. exists (i, v).
    split; [done|]. apply list_elem_of_lookup. exists k. apply lookup_zip_with_Some. by exists i, v. }
  cbn [fst snd] in Hid, Hval. rewrite <- (tid_leaf n) in Hid by done.
  rewrite <- (tid_inj n Hn' (LLeaf i) s) in Hval; [done|apply (leaf_within n 0 n); [done|lia]|done|done].
Qed.

(** C26: an accepted batch proof shows that the values are leaves of the log: if
    [evaluate_batch_proof] returns the root of a log, whatever the proof, each
    value is the leaf of the log at its index, or two different strings that
    the verifier or the log hash have the same SHA-256. *)
Theorem batch_sound L x values proof :
  let n := Z.of_nat (length L) in
  n <= MAX_LEAVES -> Forall (fun i => 0 <= i) x ->
  evaluate_batch_proof x n values proof = Ok (log_root L) ->
  values = leaf_of L <$> x \/ collision (batch_strings n x values proof ++ log_strings L).
Proof. exact (accepted_values_are_leaves L x values proof). Qed.
End batch_proofs.
