(* ===== verification/ServiceId.v ===== *)
(** * ServiceId: service identifiers and phone numbers
    (rust/core/src/address.rs, first half; rust/core/src/e164.rs)

    A [ServiceId] is a UUID in the name space of accounts ([Aci]) or of phone
    numbers ([Pni]), with a variable-width, a fixed-width and a string
    encoding.  Printing and parsing a bare UUID is the [uuid] crate's and a
    parameter ([UuidFmt]).  [E164] is a non-zero u64 with a decimal encoding;
    the integer parser is the standard library's and is written out. *)

From S2P Require Import Prelude Types Primitives.
From Stdlib Require Import Ascii.
Open Scope string_scope.
Open Scope list_scope.
Open Scope Z_scope.

(** ** The uuid crate *)

Class UuidFmt := {
  uuid_to_string : Uuid -> string;
  uuid_try_parse : string -> option Uuid
}.

Definition HYPHENATED_LENGTH : nat := 36.

(** The characters of the hyphenated form. *)
Definition hyphenated_char (c : ascii) : bool :=
  let n := Z.of_nat (nat_of_ascii c) in
  (n =? 45) || ((48 <=? n) && (n <=? 57)) || ((97 <=? n) && (n <=? 102)).

(** [Display for Uuid] prints the hyphenated form in lower case, 36 characters
    long, and [try_parse] reads it back. *)
Class UuidFmtLaws `{UuidFmt} := {
  uuid_string_length : forall u, String.length (uuid_to_string u) = HYPHENATED_LENGTH;
  uuid_string_chars : forall u,
    forallb hyphenated_char (String.list_ascii_of_string (uuid_to_string u)) = true;
  uuid_parse_string : forall u, uuid_try_parse (uuid_to_string u) = Some u
}.

(** ** Kinds and service ids *)

Inductive ServiceIdKind := KindAci | KindPni.
#[export] Instance ServiceIdKind_eq_dec : EqDecision ServiceIdKind.
Proof. solve_decision. Defined.

(** [value as u8] and the derived [TryFrom<u8>]. *)
Definition ServiceIdKind_to_u8 (k : ServiceIdKind) : byte :=
  match k with KindAci => Byte.x00 | KindPni => Byte.x01 end.
Definition ServiceIdKind_try_from (v : byte) : option ServiceIdKind :=
  match v with Byte.x00 => Some KindAci | Byte.x01 => Some KindPni | _ => None end.

Definition ServiceIdKind_display (k : ServiceIdKind) : string :=
  match k with KindAci => "ACI" | KindPni => "PNI" end.

Record WrongKindOfServiceIdError := mkWrongKind {
  wk_expected : ServiceIdKind;
  wk_actual : ServiceIdKind
}.

(** [SpecificServiceId<KIND>(Uuid)]. *)
Record SpecificServiceId (KIND : byte) := mkSpecific { specific_uuid : Uuid }.
Arguments mkSpecific {KIND} _.
Arguments specific_uuid {KIND} _.

#[export] Instance SpecificServiceId_eq_dec KIND : EqDecision (SpecificServiceId KIND).
Proof. solve_decision. Defined.

Definition Aci : Type := SpecificServiceId (ServiceIdKind_to_u8 KindAci).
Definition Pni : Type := SpecificServiceId (ServiceIdKind_to_u8 KindPni).
#[export] Instance Aci_eq_dec : EqDecision Aci := SpecificServiceId_eq_dec _.
#[export] Instance Pni_eq_dec : EqDecision Pni := SpecificServiceId_eq_dec _.

Inductive ServiceId := SAci (a : Aci) | SPni (p : Pni).
#[export] Instance ServiceId_eq_dec : EqDecision ServiceId.
Proof. solve_decision. Defined.

Definition from_uuid {KIND} (u : Uuid) : SpecificServiceId KIND := mkSpecific u.
Definition from_uuid_bytes {KIND} (b : array 16) : SpecificServiceId KIND := from_uuid b.

Definition ServiceId_kind (s : ServiceId) : ServiceIdKind :=
  match s with SAci _ => KindAci | SPni _ => KindPni end.

Definition raw_uuid (s : ServiceId) : Uuid :=
  match s with SAci a => specific_uuid a | SPni p => specific_uuid p end.

Section encodings.
Context `{UuidFmt}.

Lemma fixed_width_length (k : ServiceIdKind) (u : Uuid) :
  Nat.eqb (length (ServiceIdKind_to_u8 k :: arr u)) 17 = true.
Proof. apply Nat.eqb_eq. cbn. by rewrite array_length. Qed.

Definition service_id_fixed_width_binary (s : ServiceId) : array 17 :=
  Array (ServiceIdKind_to_u8 (ServiceId_kind s) :: arr (raw_uuid s)) (fixed_width_length _ _).

Definition service_id_binary (s : ServiceId) : bytes :=
  match s with
  | SAci aci => arr (specific_uuid aci)
  | SPni _ => arr (service_id_fixed_width_binary s)
  end.

Definition service_id_string (s : ServiceId) : string :=
  match s with
  | SAci aci => uuid_to_string (specific_uuid aci)
  | SPni _ => ServiceIdKind_display (ServiceId_kind s) +:+ ":" +:+ uuid_to_string (raw_uuid s)
  end.

(** [Debug for ServiceId]. *)
Definition ServiceId_debug (s : ServiceId) : string :=
  "<" +:+ ServiceIdKind_display (ServiceId_kind s) +:+ ":" +:+ uuid_to_string (raw_uuid s) +:+ ">".

Definition parse_from_service_id_fixed_width_binary (b : array 17) : option ServiceId :=
  match arr b with
  | kind :: rest =>
      uuid ← try_array 16 rest;
      kind ← ServiceIdKind_try_from kind;
      match kind with
      | KindAci => Some (SAci (from_uuid uuid))
      | KindPni => Some (SPni (from_uuid uuid))
      end
  | [] => None
  end.

Definition parse_from_service_id_binary (b : bytes) : option ServiceId :=
  if (length b =? 16)%nat then uuid ← try_array 16 b; Some (SAci (from_uuid uuid))
  else if (length b =? 17)%nat then
    b ← try_array 17 b;
    result ← parse_from_service_id_fixed_width_binary b;
    match ServiceId_kind result with
    | KindAci => None
    | KindPni => Some result
    end
  else None.

Definition try_parse_hyphenated (input : string) : option Uuid :=
  if negb (String.length input =? HYPHENATED_LENGTH)%nat then None else uuid_try_parse input.

(** [str::strip_prefix]. *)
Definition strip_prefix (prefix input : string) : option string :=
  if String.prefix prefix input
  then Some (String.substring (String.length prefix) (String.length input - String.length prefix) input)
  else None.

Definition parse_from_service_id_string (input : string) : option ServiceId :=
  match strip_prefix "PNI:" input with
  | Some uuid_string => uuid ← try_parse_hyphenated uuid_string; Some (SPni (from_uuid uuid))
  | None => uuid ← try_parse_hyphenated input; Some (SAci (from_uuid uuid))
  end.

Definition to_protocol_address (s : ServiceId) (device_id : DeviceId) : ProtocolAddress :=
  mkProtocolAddress (service_id_string s) device_id.

(** [TryFrom<ServiceId> for SpecificServiceId<KIND>]. *)
Definition SpecificServiceId_try_from (KIND : byte) (value : ServiceId)
  : outcome WrongKindOfServiceIdError (SpecificServiceId KIND) :=
  if bool_decide (ServiceIdKind_to_u8 (ServiceId_kind value) = KIND)
  then Ok (from_uuid (raw_uuid value))
  else expected ← expect (ServiceIdKind_try_from KIND);
       Err (mkWrongKind expected (ServiceId_kind value)).
End encodings.

(** The encodings of a specific id, for the kinds that convert to
    [ServiceId]: [where ServiceId: From<Self>, Self: TryFrom<ServiceId>]. *)
Class IsServiceId (KIND : byte) := to_service_id : SpecificServiceId KIND -> ServiceId.
#[export] Instance Aci_is_service_id : IsServiceId (ServiceIdKind_to_u8 KindAci) := SAci.
#[export] Instance Pni_is_service_id : IsServiceId (ServiceIdKind_to_u8 KindPni) := SPni.

Section specific.
Context {U : UuidFmt} {KIND : byte} {I : IsServiceId KIND}.

Definition specific_binary (s : SpecificServiceId KIND) : bytes := service_id_binary (to_service_id s).
Definition specific_fixed_width_binary (s : SpecificServiceId KIND) : array 17 :=
  service_id_fixed_width_binary (to_service_id s).
Definition specific_string (s : SpecificServiceId KIND) : string := service_id_string (to_service_id s).

(** [.try_into().ok()]. *)
Definition specific_of (s : option ServiceId) : option (SpecificServiceId KIND) :=
  s ← s; match SpecificServiceId_try_from KIND s with Ok a => Some a | _ => None end.
Definition specific_parse_binary (b : bytes) := specific_of (parse_from_service_id_binary b).
Definition specific_parse_fixed_width_binary (b : array 17) :=
  specific_of (parse_from_service_id_fixed_width_binary b).
Definition specific_parse_string (s : string) := specific_of (parse_from_service_id_string s).
End specific.

(** ** E.164 numbers (e164.rs)

    [ParseIntError], [u64::from_str] and [NonZeroU64::from_str] are the
    standard library's. *)

Inductive IntErrorKind := IntEmpty | IntInvalidDigit | IntPosOverflow | IntZero.

Definition char_digit (c : ascii) : option Z :=
  let n := Z.of_nat (nat_of_ascii c) in
  if (48 <=? n) && (n <=? 57) then Some (n - 48) else None.

(** One digit after the other: the digit is looked at first, then the
    overflows of the multiplication and of the addition. *)
Fixpoint parse_digits (result : Z) (s : string) : outcome IntErrorKind Z :=
  match s with
  | EmptyString => Ok result
  | String c s =>
      x ← ok_or IntInvalidDigit (char_digit c);
      if u64_max <? result * 10 then Err IntPosOverflow
      else if u64_max <? result * 10 + x then Err IntPosOverflow
      else parse_digits (result * 10 + x) s
  end.

(** [u64::from_str]: a leading plus is allowed when something follows it. *)
Definition u64_from_str (s : string) : outcome IntErrorKind Z :=
  match s with
  | EmptyString => Err IntEmpty
  | String "+" EmptyString | String "-" EmptyString => Err IntInvalidDigit
  | String "+" digits => parse_digits 0 digits
  | _ => parse_digits 0 s
  end.

Definition nonzero_u64_from_str (s : string) : outcome IntErrorKind Z :=
  n ← u64_from_str s; if n =? 0 then Err IntZero else Ok n.

(** [E164(NonZeroU64)]. *)
Record E164 := mkE164 { e164_number : Z }.
Definition E164_wf (e : E164) : Prop := 0 < e164_number e <= u64_max.

Definition E164_to_be_bytes (e : E164) : bytes := be_bytes 8 (e164_number e).
Definition E164_from_be_bytes (b : array 8) : option E164 :=
  let n := from_be_bytes b in if n =? 0 then None else Some (mkE164 n).

Definition E164_from_str (s : string) : outcome IntErrorKind E164 :=
  let s := default s (strip_prefix "+" s) in
  n ← nonzero_u64_from_str s; Ok (mkE164 n).

Definition E164_display (e : E164) : string := "+" +:+ pretty (e164_number e).

(** ** Round trips of service ids *)

Lemma kind_round_trip k : ServiceIdKind_try_from (ServiceIdKind_to_u8 k) = Some k.
Proof. by destruct k. Qed.

Lemma kind_try_from_Some b k : ServiceIdKind_try_from b = Some k -> b = ServiceIdKind_to_u8 k.
Proof. destruct b; cbn; try done; by intros [= <-]. Qed.

Lemma from_raw_uuid s :
  match ServiceId_kind s with
  | KindAci => SAci (from_uuid (raw_uuid s))
  | KindPni => SPni (from_uuid (raw_uuid s))
  end = s.
Proof. by destruct s as [[u]|[u]]. Qed.

Lemma substring_all s : String.substring 0 (String.length s) s = s.
Proof. induction s as [|c s IH]; cbn; [done|by rewrite IH]. Qed.

Lemma substring_suffix p s :
  String.substring (String.length p) (String.length (p +:+ s) - String.length p) (p +:+ s) = s.
Proof.
  induction p as [|c p IH].
  - cbn [String.length String.append]. rewrite Nat.sub_0_r. apply substring_all.
  - apply IH.
Qed.

Lemma prefix_app p s : String.prefix p (p +:+ s) = true.
Proof.
  induction p as [|c p IH]; [by destruct s|]. change (String c p +:+ s)%string with (String c (p +:+ s)). cbn.
  destruct (Ascii.ascii_dec c c) as [_|Hc]; [exact IH|by destruct Hc].
Qed.

Lemma strip_prefix_app p s : strip_prefix p (p +:+ s) = Some s.
Proof. unfold strip_prefix. by rewrite prefix_app, substring_suffix. Qed.

Section service_id_laws.
Context `{UuidFmt}.

Lemma parse_fixed_width_spec b s :
  parse_from_service_id_fixed_width_binary b = Some s <-> b = service_id_fixed_width_binary s.
Proof.
  unfold parse_from_service_id_fixed_width_binary. split.
  - destruct b as [[|kind rest] Hb]; [done|]. cbn [arr].
    destruct (try_array 16 rest) as [u|] eqn:Hu; [cbn [mbind option_bind]|done].
    destruct (ServiceIdKind_try_from kind) as [k|] eqn:Hk; [cbn|done].
    apply kind_try_from_Some in Hk as ->. apply try_array_Some in Hu.
    intros Hs. apply array_eq. cbn [arr service_id_fixed_width_binary]. rewrite <- Hu.
    by destruct k; injection Hs as <-.
  - intros ->. cbn [arr service_id_fixed_width_binary]. rewrite try_array_arr, kind_round_trip.
    by destruct s as [[u]|[u]].
Qed.

Lemma parse_binary_spec b s : parse_from_service_id_binary b = Some s <-> b = service_id_binary s.
Proof.
  unfold parse_from_service_id_binary. split.
  - destruct (Nat.eqb_spec (length b) 16).
    + destruct (try_array 16 b) as [u|] eqn:Hu; [cbn|done]. intros [= <-].
      by apply try_array_Some in Hu.
    + destruct (Nat.eqb_spec (length b) 17); [|done].
      destruct (try_array 17 b) as [v|] eqn:Hv; [cbn [mbind option_bind]|done].
      apply try_array_Some in Hv as <-.
      destruct (parse_from_service_id_fixed_width_binary v) as [r|] eqn:Hr; [cbn [mbind option_bind]|done].
      apply parse_fixed_width_spec in Hr as ->. destruct r; cbn [ServiceId_kind]; [done|by intros [= <-]].
  - intros ->. destruct s as [[u]|p]; cbn [service_id_binary specific_uuid].
    + rewrite array_length, Nat.eqb_refl, try_array_arr. done.
    + rewrite array_length. cbn [Nat.eqb]. rewrite try_array_arr. cbn [mbind option_bind].
      by rewrite (proj2 (parse_fixed_width_spec _ (SPni p)) eq_refl).
Qed.

(** No UUID starts with the marker of phone number ids. *)
Lemma uuid_string_no_prefix `{!UuidFmtLaws} u : strip_prefix "PNI:" (uuid_to_string u) = None.
Proof.
  pose proof (uuid_string_chars u) as Hc. unfold strip_prefix.
  destruct (uuid_to_string u) as [|c s]; [done|]. cbn [String.prefix].
  destruct (Ascii.ascii_dec "P" c) as [<-|]; [|done]. by vm_compute in Hc.
Qed.

Lemma try_parse_hyphenated_display `{!UuidFmtLaws} u :
  try_parse_hyphenated (uuid_to_string u) = Some u.
Proof.
  unfold try_parse_hyphenated. rewrite uuid_string_length, Nat.eqb_refl. apply uuid_parse_string.
Qed.

Lemma parse_string_display `{!UuidFmtLaws} s : parse_from_service_id_string (service_id_string s) = Some s.
Proof.
  unfold parse_from_service_id_string. destruct s as [[u]|[u]]; cbn [service_id_string specific_uuid].
  - by rewrite uuid_string_no_prefix, try_parse_hyphenated_display.
  - cbn [ServiceId_kind raw_uuid ServiceIdKind_display specific_uuid].
    change ("PNI" +:+ ":" +:+ uuid_to_string u)%string with ("PNI:" +:+ uuid_to_string u)%string.
    by rewrite strip_prefix_app, try_parse_hyphenated_display.
Qed.

Lemma specific_try_from_spec KIND s :
  is_Some (ServiceIdKind_try_from KIND) ->
  SpecificServiceId_try_from KIND s =
    if bool_decide (ServiceIdKind_to_u8 (ServiceId_kind s) = KIND) then Ok (from_uuid (raw_uuid s))
    else Err (mkWrongKind (default KindAci (ServiceIdKind_try_from KIND)) (ServiceId_kind s)).
Proof. intros [k Hk]. unfold SpecificServiceId_try_from. case_bool_decide; [done|]. by rewrite Hk. Qed.
End service_id_laws.

(** The binary encodings are exact: a byte string parses to an id if and
    only if it is its encoding, so there is one encoding per id; the string
    form parses back; and an id only converts to its own kind, the
    error naming both kinds. *)
Theorem service_id_encodings `{U : UuidFmt} `{!UuidFmtLaws} s :
  (forall b, parse_from_service_id_binary b = Some s <-> b = service_id_binary s) /\
  (forall b, parse_from_service_id_fixed_width_binary b = Some s <-> b = service_id_fixed_width_binary s) /\
  parse_from_service_id_string (service_id_string s) = Some s /\
  (forall a, SpecificServiceId_try_from (ServiceIdKind_to_u8 KindAci) s = Ok a <-> s = SAci a) /\
  (forall p, SpecificServiceId_try_from (ServiceIdKind_to_u8 KindPni) s = Ok p <-> s = SPni p) /\
  (forall k e, SpecificServiceId_try_from (ServiceIdKind_to_u8 k) s = Err e <->
     k <> ServiceId_kind s /\ e = mkWrongKind k (ServiceId_kind s)).
Proof.
  split_and!; [intros; apply parse_binary_spec|intros; apply parse_fixed_width_spec|
    apply parse_string_display| | |].
  - intros [u]. destruct s as [[v]|[v]]; cbn; split; try done; intros [= ->]; done.
  - intros [u]. destruct s as [[v]|[v]]; cbn; split; try done; intros [= ->]; done.
  - intros k e. rewrite specific_try_from_spec by (rewrite kind_round_trip; eauto).
    rewrite kind_round_trip. cbn [default from_option id].
    destruct s, k; cbn; split; try done; try (by intros [? ->]); try (by intros [= <-]).
Qed.

(** ** Round trips of phone numbers *)

Lemma char_digit_pretty d : (d < 10)%N -> char_digit (pretty_N_char d) = Some (Z.of_N d).
Proof.
  intros Hd. assert (d = 0 \/ d = 1 \/ d = 2 \/ d = 3 \/ d = 4 \/ d = 5 \/ d = 6 \/ d = 7 \/ d = 8 \/ d = 9)%N
    as Hcases by lia.
  repeat destruct Hcases as [->|Hcases]; [by vm_compute..|]. by subst d; vm_compute.
Qed.

(** Reading the digits printed for [x] yields [x]. *)
Lemma parse_digits_pretty (x : N) s :
  Z.of_N x <= u64_max -> parse_digits 0 (pretty_N_go x s) = parse_digits (Z.of_N x) s.
Proof.
  revert s. induction (N.lt_wf_0 x) as [x _ IH]. intros s Hx.
  destruct (decide (0 < x)%N) as [Hpos|Hz]; [|by replace x with 0%N by lia].
  rewrite pretty_N_go_step by done.
  pose proof (N.div_lt x 10 ltac:(lia) ltac:(lia)). pose proof (N.mod_lt x 10 ltac:(lia)).
  pose proof (N.div_mod x 10 ltac:(lia)) as Hdm.
  rewrite IH by lia. cbn [parse_digits]. rewrite char_digit_pretty by done. cbn [ok_or mbind outcome_bind].
  replace (Z.of_N (x / 10) * 10 + Z.of_N (x mod 10)) with (Z.of_N x) by lia.
  destruct (Z.ltb_spec u64_max (Z.of_N (x / 10) * 10)) as [Hl|_]; [exfalso|].
  { revert Hdm Hl Hx. generalize (x / 10)%N (x mod 10)%N. lia. }
  by destruct (Z.ltb_spec u64_max (Z.of_N x)); [lia|].
Qed.

(** A non-empty string of digits is not cut by the signs that are looked for. *)
Lemma from_str_digits s n :
  s <> "" -> parse_digits 0 s = Ok n -> u64_from_str s = Ok n /\ strip_prefix "+" s = None.
Proof.
  destruct s as [|c s]; [done|]. intros _ Hp.
  assert (is_Some (char_digit c)) as [d Hd].
  { cbn [parse_digits] in Hp. destruct (char_digit c); [eauto|done]. }
  split.
  - unfold u64_from_str. rewrite <- Hp.
    destruct c as [[] [] [] [] [] [] [] []]; try reflexivity; vm_compute in Hd; discriminate Hd.
  - unfold strip_prefix. cbn [String.prefix]. destruct (Ascii.ascii_dec "+" c) as [<-|]; [vm_compute in Hd; discriminate Hd|done].
Qed.

Lemma parse_digits_display n : 0 < n <= u64_max -> pretty n <> "" /\ parse_digits 0 (pretty n) = Ok n.
Proof.
  intros Hn. destruct n as [|p|p]; [lia| |lia].
  change (pretty (Z.pos p)) with (pretty (N.pos p)).
  assert (pretty (N.pos p) = pretty_N_go (N.pos p) "") as Hp by done. rewrite Hp.
  assert (parse_digits 0 (pretty_N_go (N.pos p) "") = Ok (Z.pos p)) as Hd
    by (rewrite parse_digits_pretty by lia; done).
  split; [|done]. intros E. rewrite E in Hd. discriminate Hd.
Qed.

(** A phone number is recovered from its bytes and from its text, with or
    without the plus sign, and whatever is parsed is a non-zero u64. *)
Theorem e164_round_trip e :
  E164_wf e ->
  E164_from_be_bytes (to_array 8 (E164_to_be_bytes e)) = Some e /\
  E164_from_str (E164_display e) = Ok e /\ E164_from_str (pretty (e164_number e)) = Ok e.
Proof.
  destruct e as [n]. unfold E164_wf, E164_from_be_bytes, E164_to_be_bytes, E164_from_str, E164_display.
  cbn [e164_number]. intros Hn. destruct (parse_digits_display n Hn) as [Hne Hp].
  destruct (from_str_digits _ _ Hne Hp) as [Hu Hs].
  split_and!.
  - rewrite to_array_arr by apply be_bytes_length. rewrite from_be_to_be by (unfold u64_max in *; lia).
    by destruct (Z.eqb_spec n 0); [lia|].
  - rewrite strip_prefix_app. cbn [default from_option id]. unfold nonzero_u64_from_str. rewrite Hu. cbn.
    by destruct (Z.eqb_spec n 0); [lia|].
  - rewrite Hs. cbn [default from_option id]. unfold nonzero_u64_from_str. rewrite Hu. cbn.
    by destruct (Z.eqb_spec n 0); [lia|].
Qed.

Lemma parse_digits_range s : forall r n, 0 <= r -> parse_digits r s = Ok n -> r <= u64_max -> 0 <= n <= u64_max.
Proof.
  induction s as [|c s IH]; cbn [parse_digits]; intros r n Hr; [by intros [= <-]|].
  destruct (char_digit c) as [x|] eqn:Hc; [cbn [ok_or mbind outcome_bind]|done].
  assert (0 <= x) as Hx.
  { revert Hc. unfold char_digit. destruct (48 <=? _) eqn:Hl; [|done]. destruct (_ <=? 57); [|done].
    intros [= <-]. lia. }
  destruct (u64_max <? _); [done|]. destruct (Z.ltb_spec u64_max (r * 10 + x)); [done|].
  intros Hp _. apply (IH (r * 10 + x) n); [lia|done|done].
Qed.

Theorem e164_parsed_wf s e : E164_from_str s = Ok e -> E164_wf e.
Proof.
  unfold E164_from_str, nonzero_u64_from_str. set (t := default s _).
  intros (n & Hn & [= <-])%bind_Ok. apply bind_Ok in Hn as (m & Hm & Hz).
  destruct (Z.eqb_spec m 0); [done|]. injection Hz as <-. unfold E164_wf. cbn.
  enough (0 <= m <= u64_max) by lia.
  assert (exists d, parse_digits 0 d = Ok m) as [d Hd].
  { unfold u64_from_str in Hm. repeat case_match; try discriminate Hm; eauto. }
  by eapply parse_digits_range in Hd.
Qed.
