(* ===== verification/Ristretto.v ===== *)
(** * Ristretto: the prime-order group of the anonymous credentials

    What poksho, usernames, zkcredential and zkgroup call of curve25519-dalek:
    scalars modulo the order [l] of the group and points.  All of it is a
    parameter ([Ristretto]); [RistrettoLaws] states what its documentation says:
    scalars are the integers modulo [l], points form a cyclic group of that order
    generated by the base point, encodings are canonical.  Every identity
    between points then reduces to one between scalars: [group] replaces each
    point by a multiple [pt x] of the base point and calls [ring]. *)

From S2P Require Import Prelude.
From Stdlib Require Import Ring.
Open Scope list_scope.
Open Scope Z_scope.

Class Ristretto := {
  RScalar : Type;
  RPoint : Type;
  rscalar_eq_dec :: EqDecision RScalar;
  rpoint_eq_dec :: EqDecision RPoint;
  s_zero : RScalar;
  s_one : RScalar;
  s_add : RScalar -> RScalar -> RScalar;
  s_sub : RScalar -> RScalar -> RScalar;
  s_mul : RScalar -> RScalar -> RScalar;
  s_neg : RScalar -> RScalar;
  s_invert : RScalar -> RScalar;
  (** [Scalar::from] of a [u8] or a [u64]. *)
  s_from : Z -> RScalar;
  s_from_bytes_mod_order : array 32 -> RScalar;
  s_from_bytes_mod_order_wide : array 64 -> RScalar;
  s_from_canonical_bytes : array 32 -> option RScalar;
  s_to_bytes : RScalar -> array 32;
  p_identity : RPoint;
  (** [RISTRETTO_BASEPOINT_POINT]. *)
  p_base : RPoint;
  p_add : RPoint -> RPoint -> RPoint;
  p_sub : RPoint -> RPoint -> RPoint;
  p_neg : RPoint -> RPoint;
  p_mul : RScalar -> RPoint -> RPoint;
  (** [multiscalar_mul] and [vartime_multiscalar_mul], of the zipped iterators. *)
  multiscalar_mul : list (RScalar * RPoint) -> RPoint;
  p_compress : RPoint -> array 32;
  p_decompress : array 32 -> option RPoint;
  double_and_compress_batch : list RPoint -> list (array 32);
  p_from_uniform_bytes : array 64 -> RPoint
}.

Declare Scope ristretto_scope.
Notation "a +s b" := (s_add a b) (at level 50, left associativity) : ristretto_scope.
Notation "a -s b" := (s_sub a b) (at level 50, left associativity) : ristretto_scope.
Notation "a *s b" := (s_mul a b) (at level 40, left associativity) : ristretto_scope.
Notation "-s a" := (s_neg a) (at level 35, right associativity) : ristretto_scope.
Notation "P +p Q" := (p_add P Q) (at level 50, left associativity) : ristretto_scope.
Notation "P -p Q" := (p_sub P Q) (at level 50, left associativity) : ristretto_scope.
Notation "-p P" := (p_neg P) (at level 35, right associativity) : ristretto_scope.
Notation "a *p P" := (p_mul a P) (at level 41, right associativity) : ristretto_scope.
Open Scope ristretto_scope.

(** The order of the group. *)
Definition RISTRETTO_ORDER : Z := 2 ^ 252 + 27742317777372353535851937790883648493.

(** Sum of a list of points ([Iterator::sum]). *)
Definition p_sum `{Ristretto} (l : list RPoint) : RPoint := foldr p_add p_identity l.

Class RistrettoLaws `{R : Ristretto} := {
  scalar_value : RScalar -> Z;
  value_range : forall a, 0 <= scalar_value a < RISTRETTO_ORDER;
  value_inj : forall a b, scalar_value a = scalar_value b -> a = b;
  value_zero : scalar_value s_zero = 0;
  value_one : scalar_value s_one = 1;
  value_add : forall a b, scalar_value (a +s b) = (scalar_value a + scalar_value b) mod RISTRETTO_ORDER;
  value_sub : forall a b, scalar_value (a -s b) = (scalar_value a - scalar_value b) mod RISTRETTO_ORDER;
  value_mul : forall a b, scalar_value (a *s b) = (scalar_value a * scalar_value b) mod RISTRETTO_ORDER;
  value_neg : forall a, scalar_value (-s a) = (- scalar_value a) mod RISTRETTO_ORDER;
  value_from : forall n, 0 <= n <= u64_max -> scalar_value (s_from n) = n;
  scalar_bytes_round_trip : forall a, s_from_canonical_bytes (s_to_bytes a) = Some a;
  scalar_bytes_canonical : forall b a, s_from_canonical_bytes b = Some a -> s_to_bytes a = b;
  point_dlog : forall P, exists x, P = x *p p_base;
  base_order : forall a b, a *p p_base = b *p p_base -> a = b;
  p_mul_one : forall P, s_one *p P = P;
  p_mul_zero : forall P, s_zero *p P = p_identity;
  p_mul_add : forall a b P, (a +s b) *p P = a *p P +p b *p P;
  p_mul_mul : forall a b P, (a *s b) *p P = a *p b *p P;
  p_neg_mul : forall P, -p P = (-s s_one) *p P;
  p_sub_add : forall P Q, P -p Q = P +p (-p Q);
  multiscalar_mul_sum : forall l, multiscalar_mul l = p_sum ((fun x => x.1 *p x.2) <$> l);
  point_bytes_round_trip : forall P, p_decompress (p_compress P) = Some P;
  point_bytes_canonical : forall b P, p_decompress b = Some P -> p_compress P = b
}.

Section scalars.
Context `{RistrettoLaws}.

Lemma order_pos : 1 < RISTRETTO_ORDER.
Proof. by vm_compute. Qed.

(** An equation between scalars is one between integers modulo the order. *)
Lemma s_ring : ring_theory s_zero s_one s_add s_mul s_sub s_neg (=).
Proof.
  assert (Hv : forall a, scalar_value a mod RISTRETTO_ORDER = scalar_value a)
    by (intros a; apply Z.mod_small, value_range).
  constructor; intros; apply value_inj;
    rewrite ?value_add, ?value_mul, ?value_sub, ?value_neg, ?value_zero, ?value_one,
      ?value_add, ?value_mul, ?value_sub, ?value_neg.
  - rewrite Z.add_0_l. apply Hv.
  - f_equal; lia.
  - rewrite Zplus_mod_idemp_r, Zplus_mod_idemp_l. f_equal; lia.
  - rewrite Z.mul_1_l. apply Hv.
  - f_equal; lia.
  - rewrite Zmult_mod_idemp_r, Zmult_mod_idemp_l. f_equal; lia.
  - rewrite Zmult_mod_idemp_l, <- Zplus_mod. f_equal; lia.
  - rewrite Zplus_mod_idemp_r. f_equal; lia.
  - rewrite Zplus_mod_idemp_r. by rewrite Z.add_opp_diag_r.
Qed.

Add Ring scalars : s_ring.

(** ** Points as multiples of the base point *)

Definition pt (x : RScalar) : RPoint := x *p p_base.

Lemma pt_dlog P : exists x, P = pt x.
Proof. apply point_dlog. Qed.
Lemma pt_inj a b : pt a = pt b -> a = b.
Proof. apply base_order. Qed.
Lemma pt_base : p_base = pt s_one.
Proof. unfold pt. by rewrite p_mul_one. Qed.
Lemma pt_identity : p_identity = pt s_zero.
Proof. unfold pt. by rewrite p_mul_zero. Qed.
Lemma pt_mul a x : a *p pt x = pt (a *s x).
Proof. unfold pt. by rewrite p_mul_mul. Qed.
Lemma pt_add x y : pt x +p pt y = pt (x +s y).
Proof. unfold pt. by rewrite p_mul_add. Qed.
Lemma pt_neg x : -p pt x = pt (-s x).
Proof. rewrite p_neg_mul, pt_mul. f_equal. ring. Qed.
Lemma pt_sub x y : pt x -p pt y = pt (x -s y).
Proof. rewrite p_sub_add, pt_neg, pt_add. f_equal. ring. Qed.
End scalars.

(** Name the discrete logarithms of the atoms of a point expression. *)
Ltac dlog_atoms P :=
  lazymatch P with
  | p_add ?A ?B => dlog_atoms A; dlog_atoms B
  | p_sub ?A ?B => dlog_atoms A; dlog_atoms B
  | p_neg ?A => dlog_atoms A
  | p_mul _ ?A => dlog_atoms A
  | p_identity => idtac
  | p_base => idtac
  | pt _ => idtac
  | _ => let x := fresh "x" in let Hx := fresh "Hx" in
         destruct (pt_dlog P) as [x Hx]; rewrite ?Hx; clear Hx
  end.

Ltac fold_points :=
  rewrite ?pt_base, ?pt_identity;
  repeat first [rewrite pt_mul | rewrite pt_add | rewrite pt_sub | rewrite pt_neg].

(** Prove an equation between points by the ring of scalars. *)
Ltac group :=
  match goal with |- ?P = ?Q => dlog_atoms P end;
  match goal with |- ?P = ?Q => dlog_atoms Q end;
  fold_points; f_equal; try ring.
