(* ===== verification/Sho.v ===== *)
(** * Sho: stateful hash objects
    (rust/poksho/src/shoapi.rs, shohmacsha256.rs, shosha256.rs,
    rust/zkcredential/src/sho.rs)

    A [Sho] absorbs data, ratchets, and squeezes output of any length.  There
    are two implementations of the trait [ShoApi], over HMAC-SHA256 and over
    SHA-256.  A hasher is the data it was fed so far; the hash functions
    themselves are parameters. *)

From S2P Require Import Prelude Types Primitives Ristretto.
Open Scope string_scope.
Open Scope list_scope.
Open Scope Z_scope.

(** ** The trait *)

Class ShoApi (S : Type) := {
  sho_new : bytes -> S;
  absorb : bytes -> S -> S;
  ratchet : S -> S;
  (** [squeeze_and_ratchet], [squeeze_and_ratchet_into] and
      [squeeze_and_ratchet_as_array]: they differ in who owns the buffer. *)
  squeeze_and_ratchet : forall {E} (outlen : nat), M S E (array outlen)
}.

Section provided.
Context {S : Type} `{ShoApi S}.

Definition absorb_and_ratchet (input : bytes) (sho : S) : S := ratchet (absorb input sho).

Definition shohash {E} (label input : bytes) (outlen : nat) : outcome E (array outlen) :=
  (squeeze_and_ratchet outlen (absorb_and_ratchet input (sho_new label))).1.

(** [ShoExt::get_point] and [ShoExt::get_scalar]. *)
Context {R : Ristretto}.

Definition get_point {E} : M S E RPoint :=
  point_bytes ← squeeze_and_ratchet 64; mret (p_from_uniform_bytes point_bytes).
Definition get_scalar {E} : M S E RScalar :=
  scalar_bytes ← squeeze_and_ratchet 64; mret (s_from_bytes_mod_order_wide scalar_bytes).
End provided.

Definition HASH_LEN : nat := 32.
Definition BLOCK_LEN : nat := 64.

Inductive Mode := ABSORBING | RATCHETED.
#[export] Instance Mode_eq_dec : EqDecision Mode.
Proof. solve_decision. Defined.

(** The output loop: block [i] is the start of the [i]-th digest; [fuel] is
    above the number of blocks. *)
Fixpoint output_blocks (fuel i outlen : nat) (digest : nat -> bytes) : bytes :=
  match fuel with
  | O => []
  | S fuel =>
      if (i * HASH_LEN <? outlen)%nat then
        take (Nat.min HASH_LEN (outlen - i * HASH_LEN)) (digest i) ++ output_blocks fuel (S i) outlen digest
      else []
  end.

Lemma output_blocks_length fuel i outlen digest :
  (forall i, length (digest i) = HASH_LEN) -> (outlen <= (fuel + i) * HASH_LEN)%nat ->
  length (output_blocks fuel i outlen digest) = (outlen - i * HASH_LEN)%nat.
Proof.
  intros Hd. unfold HASH_LEN in *. revert i. induction fuel as [|fuel IH]; intros i Hf; cbn [output_blocks length].
  - lia.
  - unfold HASH_LEN. destruct (Nat.ltb_spec (i * 32) outlen); [|cbn; lia].
    rewrite length_app, length_take, Hd, IH by lia. lia.
Qed.

(** ** ShoHmacSha256 *)

Module hmac.
Section hmac.
Context {P : Primitives}.

(** [Hmac<Sha256>]: a key and the data so far. *)
Record Hasher := mkHasher { key : bytes; data : bytes }.
Definition update (input : bytes) (h : Hasher) : Hasher := mkHasher (key h) (data h ++ input).
Definition finalize (h : Hasher) : array 32 := hmac_sha256_mac (key h) (data h).
Definition reset (h : Hasher) : Hasher := mkHasher (key h) [].

Record ShoHmacSha256 := mkSho { hasher : Hasher; cv : array 32; mode : Mode }.

Definition sho_absorb (input : bytes) (s : ShoHmacSha256) : ShoHmacSha256 :=
  let s := match mode s with
           | RATCHETED => mkSho (mkHasher (arr (cv s)) []) (cv s) ABSORBING
           | ABSORBING => s
           end in
  mkSho (update input (hasher s)) (cv s) (mode s).

Definition sho_ratchet (s : ShoHmacSha256) : ShoHmacSha256 :=
  match mode s with
  | RATCHETED => s
  | ABSORBING =>
      let h := update [Byte.x00] (hasher s) in
      mkSho (reset h) (finalize h) RATCHETED
  end.

Definition initial : ShoHmacSha256 := mkSho (mkHasher (arr (zeros 32)) []) (zeros 32) RATCHETED.
Definition sho_new (label : bytes) : ShoHmacSha256 := sho_ratchet (sho_absorb label initial).

Definition output_digest (cv : array 32) (i : nat) : bytes :=
  arr (finalize (mkHasher (arr cv) (be_bytes 8 (Z.of_nat i) ++ [Byte.x01]))).

Definition sho_squeeze {E} (outlen : nat) : M ShoHmacSha256 E (array outlen) := fun s =>
  if bool_decide (mode s = RATCHETED) then
    let out := output_blocks (S outlen) 0 outlen (output_digest (cv s)) in
    let next := finalize (mkHasher (arr (cv s)) (be_bytes 8 (Z.of_nat outlen) ++ [Byte.x02])) in
    (Ok (to_array outlen out), mkSho (hasher s) next RATCHETED)
  else (Panic, s).

Lemma hmac_squeeze_length outlen c :
  length (output_blocks (S outlen) 0 outlen (output_digest c)) = outlen.
Proof.
  rewrite output_blocks_length; [lia| |unfold HASH_LEN; lia].
  intros i. unfold output_digest. by rewrite array_length.
Qed.
End hmac.
#[export] Instance sho_api `{Primitives} : ShoApi ShoHmacSha256 := {
  sho_new := sho_new;
  absorb := sho_absorb;
  ratchet := sho_ratchet;
  squeeze_and_ratchet E := sho_squeeze
}.
End hmac.
Export (hints) hmac.
Abbreviation ShoHmacSha256 := hmac.ShoHmacSha256.

(** ** ShoSha256 *)

Module sha.
Section sha.
Context {H : Sha256}.

Record ShoSha256 := mkSho { hasher : bytes; cv : array 32; mode : Mode }.

Definition sho_absorb (input : bytes) (s : ShoSha256) : ShoSha256 :=
  let s := match mode s with
           | RATCHETED => mkSho (hasher s ++ replicate BLOCK_LEN Byte.x00 ++ arr (cv s)) (cv s) ABSORBING
           | ABSORBING => s
           end in
  mkSho (hasher s ++ input) (cv s) (mode s).

(** [finalize_reset] leaves an empty hasher; the digest is hashed once more. *)
Definition sho_ratchet (s : ShoSha256) : ShoSha256 :=
  match mode s with
  | RATCHETED => s
  | ABSORBING => mkSho [] (sha256 (arr (sha256 (hasher s)))) RATCHETED
  end.

Definition initial : ShoSha256 := mkSho [] (zeros 32) RATCHETED.
Definition sho_new (label : bytes) : ShoSha256 := sho_ratchet (sho_absorb label initial).

Definition output_digest (cv : array 32) (i : nat) : bytes :=
  arr (sha256 (replicate (BLOCK_LEN - 1) Byte.x00 ++ [Byte.x01] ++ arr cv ++ be_bytes 8 (Z.of_nat i))).

Definition sho_squeeze {E} (outlen : nat) : M ShoSha256 E (array outlen) := fun s =>
  if bool_decide (mode s = RATCHETED) then
    let out := output_blocks (S outlen) 0 outlen (output_digest (cv s)) in
    let next := sha256 (replicate (BLOCK_LEN - 1) Byte.x00 ++ [Byte.x02] ++ arr (cv s)
                          ++ be_bytes 8 (Z.of_nat outlen)) in
    (Ok (to_array outlen out), mkSho (hasher s) next RATCHETED)
  else (Panic, s).

Lemma sha_squeeze_length outlen c :
  length (output_blocks (S outlen) 0 outlen (output_digest c)) = outlen.
Proof.
  rewrite output_blocks_length; [lia| |unfold HASH_LEN; lia].
  intros i. unfold output_digest. by rewrite array_length.
Qed.
End sha.
#[export] Instance sho_api `{Sha256} : ShoApi ShoSha256 := {
  sho_new := sho_new;
  absorb := sho_absorb;
  ratchet := sho_ratchet;
  squeeze_and_ratchet E := sho_squeeze
}.
End sha.
Export (hints) sha.
Abbreviation ShoSha256 := sha.ShoSha256.

(** ** Squeezing works after a ratchet *)

(** An object that can be squeezed: every squeeze succeeds and leaves one. *)
Class ShoLaws (S : Type) `{ShoApi S} := {
  ratcheted : S -> Prop;
  ratchet_ratcheted : forall s, ratcheted (ratchet s);
  new_ratcheted : forall label, ratcheted (sho_new label);
  squeeze_ratcheted : forall E n s, ratcheted s ->
    exists b s', squeeze_and_ratchet (E:=E) n s = (Ok b, s') /\ ratcheted s'
}.

#[export] Instance hmac_sho_laws `{Primitives} : ShoLaws ShoHmacSha256.
Proof.
  apply (Build_ShoLaws _ _ (fun s => hmac.mode s = RATCHETED)).
  - intros s. cbn. unfold hmac.sho_ratchet. by destruct (hmac.mode s) eqn:E.
  - intros label. done.
  - intros E n s Hs. cbn. unfold hmac.sho_squeeze. rewrite bool_decide_true by done. eauto.
Defined.

#[export] Instance sha_sho_laws `{Sha256} : ShoLaws ShoSha256.
Proof.
  apply (Build_ShoLaws _ _ (fun s => sha.mode s = RATCHETED)).
  - intros s. cbn. unfold sha.sho_ratchet. by destruct (sha.mode s) eqn:E.
  - intros label. done.
  - intros E n s Hs. cbn. unfold sha.sho_squeeze. rewrite bool_decide_true by done. eauto.
Defined.

Section sho_lemmas.
Context {S : Type} `{ShoLaws S} {R : Ristretto}.

Lemma absorb_and_ratchet_ratcheted input s : ratcheted (absorb_and_ratchet input s).
Proof. apply ratchet_ratcheted. Qed.

Lemma get_point_ok {E} s : ratcheted s -> exists P s', get_point (E:=E) s = (Ok P, s') /\ ratcheted s'.
Proof.
  intros Hs. unfold get_point. destruct (squeeze_ratcheted E 64 s Hs) as (b & s' & Hq & Hs').
  rewrite M_bind_eq, Hq. eauto.
Qed.

Lemma get_scalar_ok {E} s : ratcheted s -> exists a s', get_scalar (E:=E) s = (Ok a, s') /\ ratcheted s'.
Proof.
  intros Hs. unfold get_scalar. destruct (squeeze_ratcheted E 64 s Hs) as (b & s' & Hq & Hs').
  rewrite M_bind_eq, Hq. eauto.
Qed.
End sho_lemmas.

#[export] Hint Resolve ratchet_ratcheted new_ratcheted absorb_and_ratchet_ratcheted : sho.
