(* ===== verification/Poksho.v ===== *)
(** * Poksho: proofs of knowledge of linear relations
    (rust/poksho/src/args.rs, errors.rs, proof.rs, statement.rs, sign.rs)

    A [Statement] is a list of equations between points, [P = s1 P1 + s2 P2 + ...],
    over named scalars and points; a [Proof] is a compact Schnorr proof of
    knowledge of the scalars.  This file is the code; PokshoSpec proves that
    proofs are accepted when the equations hold, that verification never panics,
    and that two proofs for one commitment reveal the scalars. *)

From S2P Require Import Prelude Types Primitives Ristretto Sho.
Open Scope string_scope.
Open Scope list_scope.
Open Scope Z_scope.

Inductive PokshoError :=
| BadArgs
| BadArgsWrongNumberOfScalarArgs
| BadArgsWrongNumberOfPointArgs
| BadArgsMissingScalarArg
| BadArgsMissingPointArg
| VerificationFailure
| ProofCreationVerificationFailure.

#[export] Instance PokshoError_eq_dec : EqDecision PokshoError.
Proof. solve_decision. Defined.

(** ** Statements

    Indices are [u8]s: new ones are checked with [try_into]. *)

Record Term := mkTerm { scalar : nat; point : nat }.
Record Equation := mkEquation { lhs : nat; rhs : list Term }.

Record Statement := mkStatement {
  equations : list Equation;
  scalar_map : gmap string nat;
  scalar_vec : list string;
  point_map : gmap string nat;
  point_vec : list string
}.

Definition Statement_new : Statement := mkStatement [] ∅ [] {["G" := 0%nat]} ["G"].

Definition u8_try_from (n : nat) : option nat := if (n <=? 255)%nat then Some n else None.

Definition add_scalar (scalar_name : string) : M Statement PokshoError nat := fun st =>
  match scalar_map st !! scalar_name with
  | Some index => (Ok index, st)
  | None =>
      if negb (size (scalar_map st) =? length (scalar_vec st))%nat then (Panic, st)
      else match u8_try_from (size (scalar_map st)) with
           | None => (Err BadArgs, st)
           | Some new_index =>
               (Ok new_index,
                mkStatement (equations st) (<[scalar_name := new_index]> (scalar_map st))
                  (scalar_vec st ++ [scalar_name]) (point_map st) (point_vec st))
           end
  end.

Definition add_point (point_name : string) : M Statement PokshoError nat := fun st =>
  match point_map st !! point_name with
  | Some index => (Ok index, st)
  | None =>
      if negb (size (point_map st) =? length (point_vec st))%nat then (Panic, st)
      else match u8_try_from (size (point_map st)) with
           | None => (Err BadArgs, st)
           | Some new_index =>
               (Ok new_index,
                mkStatement (equations st) (scalar_map st) (scalar_vec st)
                  (<[point_name := new_index]> (point_map st)) (point_vec st ++ [point_name]))
           end
  end.

(** [.expect(..)] of a call that also changes the state. *)
Definition expect_M {S E F A} (m : M S E A) : M S F A := fun s => let '(r, s) := m s in (expect_ok r, s).

(** The loop over the pairs. *)
Fixpoint add_terms {E} (rhs_pairs : list (string * string)) : M Statement E (list Term) :=
  match rhs_pairs with
  | [] => mret []
  | (s, p) :: rhs_pairs =>
      if bool_decide (s = "") || bool_decide (p = "") then lift Panic
      else
        scalar ← expect_M (add_scalar s);
        point ← expect_M (add_point p);
        rest ← add_terms rhs_pairs;
        mret (mkTerm scalar point :: rest)
  end.

Definition add {E} (lhs_str : string) (rhs_pairs : list (string * string)) : M Statement E unit :=
  num_equations ← gets (fun st => length (equations st));
  if bool_decide (lhs_str = "") || bool_decide (rhs_pairs = [])
     || (255 <? length rhs_pairs)%nat || (255 <=? num_equations)%nat
  then lift Panic
  else
    lhs ← expect_M (add_point lhs_str);
    rhs ← add_terms rhs_pairs;
    modify (fun st => mkStatement (equations st ++ [mkEquation lhs rhs]) (scalar_map st) (scalar_vec st)
                        (point_map st) (point_vec st)).

(** [let mut st = Statement::new(); st.add(..); st.add(..); ...]. *)
Fixpoint add_all {E} (equations : list (string * list (string * string))) : M Statement E unit :=
  match equations with
  | [] => mret tt
  | (l, r) :: equations => _ ← add l r; add_all equations
  end.
Definition build {E} (equations : list (string * list (string * string))) : outcome E Statement :=
  '(_, st) ← run_local Statement_new (add_all equations); Ok st.

Definition u8_expect {E} (n : nat) : outcome E nat := expect (u8_try_from n).

Definition assert {E} (b : bool) : outcome E unit := if b then Ok tt else Panic.

Definition byte_of (n : nat) : byte := as_u8 (Z.of_nat n).

Definition term_to_bytes {E} (scalar_count point_count : nat) (t : Term) : outcome E bytes :=
  _ ← assert (scalar t <? scalar_count)%nat;
  _ ← assert (point t <? point_count)%nat;
  Ok [byte_of (scalar t); byte_of (point t)].

Definition equation_to_bytes {E} (scalar_count point_count : nat) (e : Equation) : outcome E bytes :=
  _ ← assert (lhs e <=? point_count)%nat;
  term_count ← u8_expect (length (rhs e));
  terms ← mapM (term_to_bytes scalar_count point_count) (rhs e);
  Ok (byte_of (lhs e) :: byte_of term_count :: concat terms).

Definition Statement_to_bytes {E} (st : Statement) : outcome E bytes :=
  equation_count ← u8_expect (length (equations st));
  scalar_count ← u8_expect (size (scalar_map st));
  point_count ← u8_expect (size (point_map st));
  equations ← mapM (equation_to_bytes scalar_count point_count) (equations st);
  Ok (byte_of equation_count :: concat equations).

(** ** Arguments: maps from names ([ScalarArgs(HashMap<..>)]) *)

Abbreviation ScalarArgs := (gmap string RScalar).
Abbreviation PointArgs := (gmap string RPoint).

Section proofs.
Context {P : Primitives} {R : Ristretto}.

Definition args_add {A} (s : string) (val : A) (args : gmap string A) : gmap string A := <[s := val]> args.

(** ** Proof encoding *)

Record Proof := mkProof { challenge : RScalar; response : list RScalar }.

(** [chunks_exact(32)] and its remainder. *)
Definition Proof_from_slice (b : bytes) : option Proof :=
  if negb (length b mod 32 =? 0)%nat then None
  else
    match (fun chunk => s_from_canonical_bytes (to_array 32 chunk)) <$> chunks 32 b with
    | [] => None
    | first :: rest =>
        challenge ← first;
        if (256 <? length rest)%nat then None
        else
          response ← mapM id rest;
          if bool_decide (response = []) then None else Some (mkProof challenge response)
    end.

Definition Proof_to_bytes (p : Proof) : bytes :=
  concat ((fun s => arr (s_to_bytes s)) <$> (challenge p :: response p)).

(** ** Proving and verifying *)

Definition sort_scalars (st : Statement) (scalar_args : ScalarArgs) : outcome PokshoError (list RScalar) :=
  if negb (size scalar_args =? length (scalar_vec st))%nat then Err BadArgsWrongNumberOfScalarArgs
  else mapM (fun name => ok_or BadArgsMissingScalarArg (scalar_args !! name)) (scalar_vec st).

Definition sort_points (st : Statement) (point_args : PointArgs) : outcome PokshoError (list RPoint) :=
  if (length (point_vec st) =? 0)%nat then Panic
  else if negb (size point_args =? length (point_vec st) - 1)%nat then Err BadArgsWrongNumberOfPointArgs
  else
    points ← mapM (fun name => ok_or BadArgsMissingPointArg (point_args !! name)) (drop 1 (point_vec st));
    Ok (p_base :: points).

(** One equation of the homomorphism; the iterators are lazy and an index out of
    range panics. *)
Definition apply_equation {E} (g1 : list RScalar) (all_points : list RPoint) (challenge : option RScalar)
    (e : Equation) : outcome E RPoint :=
  terms ← mapM (fun t =>
      s ← expect (g1 !! scalar t);
      p ← expect (all_points !! point t);
      Ok (s, p)) (rhs e);
  last ← match challenge with
         | None => Ok []
         | Some h => p ← expect (all_points !! lhs e); Ok [(-s h, p)]
         end;
  Ok (multiscalar_mul (terms ++ last)).

Definition homomorphism_with_subtraction {E} (st : Statement) (g1 : list RScalar) (all_points : list RPoint)
    (challenge : option RScalar) : outcome E (list RPoint) :=
  mapM (apply_equation g1 all_points challenge) (equations st).

Definition LABEL : bytes := byte_str "POKSHO_Ristretto_SHOHMACSHA256".

Definition absorb_points (points : list RPoint) (sho : ShoHmacSha256) : ShoHmacSha256 :=
  foldl (fun sho point => absorb (arr (p_compress point)) sho) sho points.
Definition absorb_scalars (scalars : list RScalar) (sho : ShoHmacSha256) : ShoHmacSha256 :=
  foldl (fun sho s => absorb (arr (s_to_bytes s)) sho) sho scalars.

(** The label L, the description D and the point values A. *)
Definition start_sho {E} (st : Statement) (all_points : list RPoint) : outcome E ShoHmacSha256 :=
  description ← Statement_to_bytes st;
  Ok (ratchet (absorb_points all_points (absorb description (sho_new LABEL)))).

(** The commitment R and the message M give the challenge. *)
Definition compute_challenge {E} (commitment : list RPoint) (message : bytes) (sho : ShoHmacSha256)
  : outcome E RScalar :=
  let sho := absorb_and_ratchet message (absorb_points commitment sho) in
  b ← (squeeze_and_ratchet 64 sho).1;
  Ok (s_from_bytes_mod_order_wide b).

Definition verify_proof (st : Statement) (proof_bytes : bytes) (point_args : PointArgs) (message : bytes)
  : outcome PokshoError unit :=
  proof ← ok_or VerificationFailure (Proof_from_slice proof_bytes);
  if negb (length (response proof) =? length (scalar_vec st))%nat then Err VerificationFailure
  else
    all_points ← sort_points st point_args;
    sho ← start_sho st all_points;
    commitment ← homomorphism_with_subtraction st (response proof) all_points (Some (challenge proof));
    challenge_ ← compute_challenge commitment message sho;
    if bool_decide (challenge_ = challenge proof) then Ok tt else Err VerificationFailure.

(** The synthetic nonce, from the randomness Z, the witness a and the message. *)
Definition make_nonce {E} (g1 : list RScalar) (message randomness : bytes) (sho : ShoHmacSha256)
  : outcome E (list RScalar) :=
  let sho2 := ratchet (absorb_scalars g1 (absorb randomness sho)) in
  let sho2 := absorb_and_ratchet message sho2 in
  blinding_scalar_bytes ← (squeeze_and_ratchet (length g1 * 64) sho2).1;
  Ok ((fun chunk => s_from_bytes_mod_order_wide (to_array 64 chunk)) <$> chunks 64 (arr blinding_scalar_bytes)).

Definition prove (st : Statement) (scalar_args : ScalarArgs) (point_args : PointArgs)
    (message randomness : bytes) : outcome PokshoError bytes :=
  if negb (length randomness =? 32)%nat then Err BadArgs
  else
    g1 ← sort_scalars st scalar_args;
    all_points ← sort_points st point_args;
    sho ← start_sho st all_points;
    nonce ← make_nonce g1 message randomness sho;
    commitment ← homomorphism_with_subtraction st nonce all_points None;
    challenge ← compute_challenge commitment message sho;
    let response := zip_with (fun nonce g1 => nonce +s (g1 *s challenge)) nonce g1 in
    let proof_bytes := Proof_to_bytes (mkProof challenge response) in
    match verify_proof st proof_bytes point_args message with
    | Err VerificationFailure => Err ProofCreationVerificationFailure
    | Err e => Err e
    | Panic => Panic
    | Ok _ => Ok proof_bytes
    end.

(** ** Signatures (sign.rs) *)

Definition signature_equations : list (string * list (string * string)) :=
  [("public_key", [("private_key", "G")])].

Definition sign (private_key : RScalar) (public_key : RPoint) (message randomness : bytes)
  : outcome PokshoError bytes :=
  st ← build signature_equations;
  prove st (args_add "private_key" private_key ∅) (args_add "public_key" public_key ∅) message randomness.

Definition verify_signature (signature : bytes) (public_key : RPoint) (message : bytes)
  : outcome PokshoError unit :=
  st ← build signature_equations;
  verify_proof st signature (args_add "public_key" public_key ∅) message.
End proofs.

(** The encodings of the source's tests. *)
Example encoding1 : (st ← build [("A", [("a", "G")])]; Statement_to_bytes st)
  = @Ok unit _ (byte_of <$> [1; 1; 1; 0; 0]%nat).
Proof. by vm_compute. Qed.
Example encoding2 : (st ← build [("A", [("a", "G"); ("b", "H"); ("c", "I")]); ("B", [("c", "H"); ("d", "I")])];
    Statement_to_bytes st)
  = @Ok unit _ (byte_of <$> [2; 1; 3; 0; 0; 1; 2; 2; 3; 4; 2; 2; 2; 3; 3]%nat).
Proof. by vm_compute. Qed.
