(* ===== verification/PokshoSpec.v ===== *)
(** * PokshoSpec: what the proofs of poksho guarantee

    A statement built from named equations represents them ([represents]): names
    and indices correspond, and the encoding of the statement is defined.  For
    such a statement [verify_proof] is a total function with a closed form
    ([verify_spec]), [prove] makes accepted proofs whenever the equations hold,
    and two accepted proofs with one commitment give a solution. *)

From S2P Require Import Prelude Types Primitives Ristretto Sho Poksho.
From Stdlib Require Import Ring.
Open Scope string_scope.
Open Scope list_scope.
Open Scope Z_scope.

(** ** Statements and the equations they were built from *)

Abbreviation named_equation := (string * list (string * string))%type.

Definition scalars_of (eqs : list named_equation) : gset string :=
  list_to_set (concat ((fun e => e.2.*1) <$> eqs)).
Definition points_of (eqs : list named_equation) : gset string :=
  {["G"]} ∪ list_to_set (concat ((fun e => e.1 :: e.2.*2) <$> eqs)).

Definition good_equation (e : named_equation) : Prop :=
  e.1 <> "" /\ e.2 <> [] /\ (length e.2 <= 255)%nat /\ Forall (fun p => p.1 <> "" /\ p.2 <> "") e.2.

(** What [add] and the encoding of a statement ask for. *)
Definition good_statement (eqs : list named_equation) : Prop :=
  Forall good_equation eqs /\ (length eqs <= 255)%nat /\
  (size (scalars_of eqs) <= 255)%nat /\ (size (points_of eqs) <= 255)%nat.

#[export] Instance good_equation_dec e : Decision (good_equation e).
Proof. unfold good_equation. apply _. Defined.
#[export] Instance good_statement_dec eqs : Decision (good_statement eqs).
Proof. unfold good_statement. apply _. Defined.

(** A map from names to positions in a vector of names. *)
Definition table (m : gmap string nat) (v : list string) : Prop :=
  forall n i, m !! n = Some i <-> v !! i = Some n.

Lemma table_size m v : table m v -> size m = length v.
Proof.
  intros Ht. assert (NoDup v) as Hnd.
  { apply NoDup_alt. intros i j n Hi Hj. apply Ht in Hi, Hj. congruence. }
  assert (dom m = list_to_set v) as Hd.
  { apply set_eq. intros n. rewrite elem_of_dom, elem_of_list_to_set, list_elem_of_lookup.
    split; intros [i Hi]; exists i; by apply Ht. }
  rewrite <- size_dom, Hd. by apply size_list_to_set.
Qed.

Lemma table_insert m v n : table m v -> m !! n = None -> table (<[n := length v]> m) (v ++ [n]).
Proof.
  intros Ht Hn k i. destruct (decide (k = n)) as [->|Hk].
  - rewrite lookup_insert_eq. split.
    + intros [= <-]. by apply list_lookup_middle.
    + intros [Hi|[Hl Hi]]%lookup_app_Some; [apply Ht in Hi; congruence|].
      destruct (i - length v)%nat as [|d] eqn:E; [f_equal; lia|]. by apply lookup_lt_Some in Hi; cbn in Hi; lia.
  - rewrite lookup_insert_ne, (Ht k i : _ <-> _) by done. split; [by apply lookup_app_l_Some|].
    intros [Hi|[Hl Hi]]%lookup_app_Some; [done|].
    destruct (i - length v)%nat; cbn in Hi; [congruence|done].
Qed.

Lemma table_lt m v n i : table m v -> m !! n = Some i -> (i < size m)%nat.
Proof. intros Ht Hi. rewrite (table_size m v) by done. apply Ht in Hi. by apply lookup_lt_Some in Hi. Qed.

Record tables (st : Statement) : Prop := {
  scalar_table : table (scalar_map st) (scalar_vec st);
  point_table : table (point_map st) (point_vec st);
  base_first : point_vec st !! 0%nat = Some "G"
}.

(** The terms and equations with their names. *)
Definition term_named (st : Statement) (t : Term) (p : string * string) : Prop :=
  scalar_map st !! p.1 = Some (scalar t) /\ point_map st !! p.2 = Some (point t).
Definition equation_named (st : Statement) (e : Equation) (n : named_equation) : Prop :=
  point_map st !! n.1 = Some (lhs e) /\ Forall2 (term_named st) (rhs e) n.2.

Record represents (st : Statement) (eqs : list named_equation) : Prop := {
  rep_tables : tables st;
  rep_equations : Forall2 (equation_named st) (equations st) eqs;
  rep_scalars : dom (scalar_map st) = scalars_of eqs;
  rep_points : dom (point_map st) = points_of eqs
}.

(** *** Adding equations *)

Definition extends (st st' : Statement) : Prop :=
  equations st' = equations st /\ scalar_map st ⊆ scalar_map st' /\ point_map st ⊆ point_map st'.

Lemma extends_trans st1 st2 st3 : extends st1 st2 -> extends st2 st3 -> extends st1 st3.
Proof. intros (? & ? & ?) (? & ? & ?). split_and!; [congruence|by etrans..]. Qed.

Lemma term_named_mono st st' t p : extends st st' -> term_named st t p -> term_named st' t p.
Proof. intros (_ & Hs & Hp) []. split; by eapply lookup_weaken. Qed.

Lemma equation_named_mono st st' e n : extends st st' -> equation_named st e n -> equation_named st' e n.
Proof.
  intros Hx [Hl Hr]. split; [destruct Hx as (_ & _ & Hp); by eapply lookup_weaken|].
  eapply Forall2_impl; [exact Hr|]. intros. by eapply term_named_mono.
Qed.

Lemma u8_try_from_Some n : (n <= 255)%nat -> u8_try_from n = Some n.
Proof. unfold u8_try_from. intros Hn. by rewrite (proj2 (Nat.leb_le n 255)). Qed.

Lemma add_scalar_spec n st :
  tables st -> (size (dom (scalar_map st) ∪ {[n]}) <= 255)%nat ->
  exists i st', add_scalar n st = (Ok i, st') /\ tables st' /\ extends st st' /\
    scalar_map st' !! n = Some i /\ dom (scalar_map st') = dom (scalar_map st) ∪ {[n]} /\
    point_map st' = point_map st.
Proof.
  intros [Hs Hp Hb] Hsz. unfold add_scalar. destruct (scalar_map st !! n) as [i|] eqn:Hn.
  - exists i, st. split_and!; try done. apply elem_of_dom_2 in Hn. set_solver.
  - rewrite (table_size _ _ Hs), Nat.eqb_refl. cbn [negb].
    assert (size (scalar_map st) <= 255)%nat.
    { rewrite <- size_dom. etrans; [apply subseteq_size|exact Hsz]. set_solver. }
    rewrite u8_try_from_Some by (by rewrite <- (table_size _ _ Hs)).
    eexists _, _. split; [reflexivity|]. cbn. split_and!; try done.
    + split; cbn; [by apply table_insert|done..].
    + split_and!; try done; by apply insert_subseteq.
    + apply lookup_insert_eq.
    + rewrite dom_insert_L. set_solver.
Qed.

Lemma add_point_spec n st :
  tables st -> (size (dom (point_map st) ∪ {[n]}) <= 255)%nat ->
  exists i st', add_point n st = (Ok i, st') /\ tables st' /\ extends st st' /\
    point_map st' !! n = Some i /\ dom (point_map st') = dom (point_map st) ∪ {[n]} /\
    scalar_map st' = scalar_map st.
Proof.
  intros [Hs Hp Hb] Hsz. unfold add_point. destruct (point_map st !! n) as [i|] eqn:Hn.
  - exists i, st. split_and!; try done. apply elem_of_dom_2 in Hn. set_solver.
  - rewrite (table_size _ _ Hp), Nat.eqb_refl. cbn [negb].
    assert (size (point_map st) <= 255)%nat.
    { rewrite <- size_dom. etrans; [apply subseteq_size|exact Hsz]. set_solver. }
    rewrite u8_try_from_Some by (by rewrite <- (table_size _ _ Hp)).
    eexists _, _. split; [reflexivity|]. cbn. split_and!; try done.
    + split; cbn; [done|by apply table_insert|]. by apply lookup_app_l_Some.
    + split_and!; try done; by apply insert_subseteq.
    + apply lookup_insert_eq.
    + rewrite dom_insert_L. set_solver.
Qed.

Lemma tables_extend_size (X Y : gset string) n :
  X ⊆ Y -> (size Y <= n)%nat -> (size X <= n)%nat.
Proof. intros HX HY. etrans; [by apply subseteq_size|done]. Qed.

Lemma add_terms_spec {E} r st :
  tables st -> Forall (fun p => p.1 <> "" /\ p.2 <> "") r ->
  (size (dom (scalar_map st) ∪ list_to_set r.*1) <= 255)%nat ->
  (size (dom (point_map st) ∪ list_to_set r.*2) <= 255)%nat ->
  exists ts st', add_terms (E:=E) r st = (Ok ts, st') /\ tables st' /\ extends st st' /\
    Forall2 (term_named st') ts r /\
    dom (scalar_map st') = dom (scalar_map st) ∪ list_to_set r.*1 /\
    dom (point_map st') = dom (point_map st) ∪ list_to_set r.*2.
Proof.
  revert st. induction r as [|[s p] r IH]; intros st Ht Hne Hs Hp.
  { exists [], st. cbn in *. split_and!; try done; set_solver. }
  apply Forall_cons in Hne as [[Hs1 Hp1] Hne]. cbn [fmap list_fmap fst snd list_to_set] in *.
  destruct (add_scalar_spec s st Ht) as (i & st1 & Ha & Ht1 & Hx1 & Hi & Hd1 & Hpm1).
  { eapply tables_extend_size; [|exact Hs]. set_solver. }
  destruct (add_point_spec p st1 Ht1) as (j & st2 & Hb & Ht2 & Hx2 & Hj & Hd2 & Hsm2).
  { rewrite Hpm1. eapply tables_extend_size; [|exact Hp]. set_solver. }
  destruct (IH st2 Ht2 Hne) as (ts & st3 & Hc & Ht3 & Hx3 & Hts & Hd3 & Hd3').
  { rewrite Hsm2, Hd1. eapply tables_extend_size; [|exact Hs]. set_solver. }
  { rewrite Hd2, Hpm1. eapply tables_extend_size; [|exact Hp]. set_solver. }
  exists (mkTerm i j :: ts), st3. split.
  - cbn [add_terms]. rewrite !bool_decide_false by done. cbn [orb].
    rewrite M_bind_eq. unfold expect_M at 1. rewrite Ha. cbn [expect_ok].
    rewrite M_bind_eq. unfold expect_M at 1. rewrite Hb. cbn [expect_ok].
    by rewrite M_bind_eq, Hc.
  - split_and!; [done|by do 2 (eapply extends_trans; [done|])| | |].
    + constructor; [|done]. destruct Hx3 as (_ & ? & ?). split; cbn [fst snd scalar point].
      * eapply lookup_weaken; [|done]. by rewrite Hsm2.
      * by eapply lookup_weaken.
    + rewrite Hd3, Hsm2, Hd1. set_solver.
    + rewrite Hd3', Hd2, Hpm1. set_solver.
Qed.

Lemma add_spec {E} l r st eqs :
  represents st eqs -> good_statement (eqs ++ [(l, r)]) ->
  exists st', add (E:=E) l r st = (Ok tt, st') /\ represents st' (eqs ++ [(l, r)]).
Proof.
  intros [Ht He Hs Hp] (Hall & Hlen & Hss & Hsp).
  apply Forall_app in Hall as [_ [(Hl & Hr & Hrl & Hne) _]%Forall_cons_1].
  cbn [fst snd] in *. rewrite length_app in Hlen. cbn [length] in Hlen.
  assert (scalars_of (eqs ++ [(l, r)]) = scalars_of eqs ∪ list_to_set r.*1) as Es.
  { unfold scalars_of. rewrite fmap_app, concat_app. cbn. rewrite app_nil_r. set_solver. }
  assert (points_of (eqs ++ [(l, r)]) = points_of eqs ∪ {[l]} ∪ list_to_set r.*2) as Ep.
  { unfold points_of. rewrite fmap_app, concat_app. cbn. rewrite app_nil_r. set_solver. }
  rewrite Es in Hss. rewrite Ep in Hsp.
  destruct (add_point_spec l st Ht) as (i & st1 & Ha & Ht1 & Hx1 & Hi & Hd1 & Hsm1).
  { rewrite Hp. eapply tables_extend_size; [|exact Hsp]. set_solver. }
  destruct (add_terms_spec (E:=E) r st1 Ht1 Hne) as (ts & st2 & Hb & Ht2 & Hx2 & Hts & Hd2 & Hd2').
  { by rewrite Hsm1, Hs. }
  { by rewrite Hd1, Hp. }
  eexists. split.
  - unfold add. rewrite M_bind_eq. unfold gets at 1. cbv beta iota.
    pose proof (Forall2_length _ _ _ He).
    rewrite !bool_decide_false by done. rewrite (proj2 (Nat.ltb_ge 255 (length r))) by done.
    rewrite (proj2 (Nat.leb_gt 255 _)) by lia. cbn [orb].
    rewrite M_bind_eq. unfold expect_M. rewrite Ha. cbn [expect_ok].
    rewrite M_bind_eq, Hb. unfold modify. reflexivity.
  - assert (Hx := extends_trans _ _ _ Hx1 Hx2). destruct Hx as (Heq & Hsm & Hpm).
    destruct Ht2 as [? ? ?]. split; cbn [scalar_map point_map equations].
    + by split.
    + rewrite Heq. apply Forall2_app.
      * eapply Forall2_impl; [exact He|]. intros e n [Hn1 Hn2]. split; [by eapply lookup_weaken|].
        eapply Forall2_impl; [exact Hn2|]. intros t p []. split; by eapply lookup_weaken.
      * constructor; [|done]. split; [destruct Hx2 as (_ & _ & ?); by eapply lookup_weaken|].
        eapply Forall2_impl; [exact Hts|]. intros t p []. by split.
    + by rewrite Hd2, Hsm1, Hs, Es.
    + by rewrite Hd2', Hd1, Hp, Ep.
Qed.

Lemma good_statement_prefix eqs eqs' : good_statement (eqs ++ eqs') -> good_statement eqs.
Proof.
  intros (Ha & Hl & Hs & Hp). split_and!.
  - by apply Forall_app in Ha as [? _].
  - rewrite length_app in Hl. lia.
  - eapply tables_extend_size; [|exact Hs]. unfold scalars_of. rewrite fmap_app, concat_app. set_solver.
  - eapply tables_extend_size; [|exact Hp]. unfold points_of. rewrite fmap_app, concat_app. set_solver.
Qed.

Lemma add_all_spec {E} eqs st eqs0 :
  represents st eqs0 -> good_statement (eqs0 ++ eqs) ->
  exists st', add_all (E:=E) eqs st = (Ok tt, st') /\ represents st' (eqs0 ++ eqs).
Proof.
  revert st eqs0. induction eqs as [|[l r] eqs IH]; intros st eqs0 Hr Hg.
  { exists st. by rewrite app_nil_r. }
  assert (eqs0 ++ (l, r) :: eqs = (eqs0 ++ [(l, r)]) ++ eqs) as Eq by by rewrite <- app_assoc.
  rewrite Eq in Hg |- *.
  destruct (add_spec (E:=E) l r st eqs0 Hr) as (st1 & Ha & Hr1); [by eapply good_statement_prefix|].
  destruct (IH st1 _ Hr1 Hg) as (st' & Hb & Hr'). exists st'. split; [|done].
  cbn [add_all]. by rewrite M_bind_eq, Ha.
Qed.

Lemma represents_new : represents Statement_new [].
Proof.
  split; cbn.
  - split; cbn; [|  |done].
    + intros n i. by rewrite lookup_empty, lookup_nil.
    + intros n i. rewrite lookup_singleton_Some. destruct i as [|i]; cbn; [naive_solver|].
      naive_solver.
  - constructor.
  - by rewrite dom_empty_L.
  - unfold points_of. cbn. rewrite dom_singleton_L. set_solver.
Qed.

(** A good list of equations makes a statement that represents it. *)
Lemma build_spec {E} eqs :
  good_statement eqs -> exists st, build (E:=E) eqs = Ok st /\ represents st eqs.
Proof.
  intros Hg. destruct (add_all_spec (E:=E) eqs Statement_new [] represents_new Hg) as (st & Ha & Hr).
  exists st. split; [|done]. unfold build, run_local. by rewrite Ha.
Qed.

Lemma mapM_defined {E A B} (f : A -> outcome E B) (l : list A) :
  (forall x, x ∈ l -> is_ok (f x)) -> is_ok (mapM f l).
Proof.
  unfold is_ok. induction l as [|x l IH]; intros Hf; [by eexists|]. cbn.
  destruct (Hf x) as [y ->]; [by left|]. destruct IH as [ys Hys]; [intros; apply Hf; by right|].
  cbn in Hys |- *. rewrite Hys. by eexists.
Qed.

Lemma rep_scalar_index st eqs n i :
  represents st eqs -> scalar_map st !! n = Some i -> (i < size (scalar_map st))%nat.
Proof. intros [[]] ?. by eapply table_lt. Qed.
Lemma rep_point_index st eqs n i :
  represents st eqs -> point_map st !! n = Some i -> (i < size (point_map st))%nat.
Proof. intros [[]] ?. by eapply table_lt. Qed.

Lemma rep_sizes st eqs :
  represents st eqs -> size (scalar_map st) = size (scalars_of eqs) /\ size (point_map st) = size (points_of eqs).
Proof. intros []. by rewrite <- !size_dom, rep_scalars0, rep_points0. Qed.

(** The description of a statement can always be encoded. *)
Lemma to_bytes_defined {E} st eqs :
  represents st eqs -> good_statement eqs -> is_ok (Statement_to_bytes (E:=E) st).
Proof.
  intros Hr (Hall & Hlen & Hss & Hsp). pose proof (rep_sizes _ _ Hr) as [Hs Hp].
  pose proof (rep_equations _ _ Hr) as He. pose proof (Forall2_length _ _ _ He).
  unfold Statement_to_bytes, u8_expect. rewrite !u8_try_from_Some by lia. cbn [expect mbind outcome_bind].
  enough (is_ok (mapM (equation_to_bytes (E:=E) (size (scalar_map st)) (size (point_map st))) (equations st)))
    as [x ->] by (by eexists).
  apply mapM_defined. intros e Hin.
  apply list_elem_of_lookup in Hin as [k Hk]. destruct (Forall2_lookup_l _ _ _ _ _ He Hk) as ([l r] & Hk' & Hl & Ht).
  cbn [fst snd] in *. assert (good_equation (l, r)) as (_ & _ & Hlr & _) by (eapply Forall_lookup_1; eauto).
  pose proof (rep_point_index _ _ _ _ Hr Hl). pose proof (Forall2_length _ _ _ Ht). cbn [snd] in *.
  unfold equation_to_bytes, assert. rewrite (proj2 (Nat.leb_le _ _)) by lia. cbn [mbind outcome_bind].
  unfold u8_expect. rewrite u8_try_from_Some by lia. cbn [expect mbind outcome_bind].
  enough (is_ok (mapM (term_to_bytes (E:=E) (size (scalar_map st)) (size (point_map st))) (rhs e)))
    as [x ->] by (by eexists).
  apply mapM_defined. intros t Hin.
  apply list_elem_of_lookup in Hin as [j Hj]. destruct (Forall2_lookup_l _ _ _ _ _ Ht Hj) as (p & _ & Hts & Htp).
  unfold term_to_bytes, assert. apply (rep_scalar_index _ _ _ _ Hr) in Hts. apply (rep_point_index _ _ _ _ Hr) in Htp.
  rewrite (proj2 (Nat.ltb_lt _ _) Hts), (proj2 (Nat.ltb_lt _ _) Htp). by eexists.
Qed.

(** ** Arguments by name *)

Section arguments.
Context {P : Primitives} `{L : RistrettoLaws}.
Add Ring scalars : s_ring.

(** The point a name stands for, and a right-hand side under an assignment [f]
    of the scalars. *)
Definition point_of (pargs : PointArgs) (n : string) : RPoint :=
  if bool_decide (n = "G") then p_base else default p_identity (pargs !! n).
Definition image (f : string -> RScalar) (pargs : PointArgs) (r : list (string * string)) : RPoint :=
  p_sum ((fun p => f p.1 *p point_of pargs p.2) <$> r).
Definition scalar_of (sargs : ScalarArgs) (n : string) : RScalar := default s_zero (sargs !! n).
Definition satisfied (eqs : list named_equation) (sargs : ScalarArgs) (pargs : PointArgs) : Prop :=
  Forall (fun e => point_of pargs e.1 = image (scalar_of sargs) pargs e.2) eqs.

(** The arguments name exactly the scalars, or points other than the base point,
    of the equations. *)
Definition scalars_given (eqs : list named_equation) (sargs : ScalarArgs) : Prop := dom sargs = scalars_of eqs.
Definition points_given (eqs : list named_equation) (pargs : PointArgs) : Prop :=
  dom pargs = points_of eqs ∖ {["G"]}.

Lemma mapM_lookup {E A} (e : E) (m : gmap string A) (d : A) v :
  (forall n, n ∈ v -> n ∈ dom m) ->
  mapM (fun n => ok_or e (m !! n)) v = Ok ((fun n => default d (m !! n)) <$> v).
Proof.
  intros Hv. apply mapM_Ok. intros n [x Hx]%Hv%elem_of_dom. by rewrite Hx.
Qed.

Lemma sort_scalars_spec st eqs sargs :
  represents st eqs -> scalars_given eqs sargs ->
  sort_scalars st sargs = Ok (scalar_of sargs <$> scalar_vec st).
Proof.
  intros Hr Hg. pose proof (scalar_table _ (rep_tables _ _ Hr)) as Ht. unfold sort_scalars.
  rewrite <- (size_dom (D:=gset string) sargs), Hg, <- (rep_scalars _ _ Hr), size_dom, (table_size _ _ Ht), Nat.eqb_refl.
  apply mapM_lookup. intros n [i Hi]%list_elem_of_lookup. apply Ht in Hi.
  rewrite Hg, <- (rep_scalars _ _ Hr). by eapply elem_of_dom_2.
Qed.

Lemma sort_points_spec st eqs pargs :
  represents st eqs -> points_given eqs pargs ->
  sort_points st pargs = Ok (point_of pargs <$> point_vec st).
Proof.
  intros Hr Hg. destruct (rep_tables _ _ Hr) as [_ Ht Hb]. unfold sort_points.
  pose proof (table_size _ _ Ht) as Hsz. destruct (point_vec st) as [|g v] eqn:Hv; [done|].
  injection Hb as ->. cbn [length Nat.eqb drop fmap list_fmap] in *.
  assert (forall n, n ∈ v -> n <> "G") as Hne.
  { intros n [i Hi]%list_elem_of_lookup ->. assert (point_map st !! "G" = Some (S i)) as H1 by by apply Ht.
    assert (point_map st !! "G" = Some 0%nat) as H0 by by apply Ht. congruence. }
  assert (size pargs = length v) as ->.
  { rewrite <- (size_dom (D:=gset string) pargs), Hg, <- (rep_points _ _ Hr), size_difference, size_dom, Hsz, size_singleton; [cbn; lia|].
    intros n ->%elem_of_singleton. apply elem_of_dom. exists 0%nat. by apply Ht. }
  rewrite Nat.sub_succ, Nat.sub_0_r, Nat.eqb_refl. cbn [negb].
  rewrite (mapM_lookup _ _ p_identity).
  - cbn. unfold point_of at 1. rewrite bool_decide_true by done. do 2 f_equal.
    apply list_fmap_ext. intros i n Hi. unfold point_of. rewrite bool_decide_false; [done|].
    apply Hne. by eapply list_elem_of_lookup_2.
  - intros n Hn. rewrite Hg. pose proof (Hne n Hn). apply list_elem_of_lookup in Hn as [i Hi].
    apply elem_of_difference. split; [|set_solver]. rewrite <- (rep_points _ _ Hr). apply elem_of_dom.
    exists (S i). by apply Ht.
Qed.

(** ** The homomorphism by name *)

Lemma p_sum_cons Q l : p_sum (Q :: l) = Q +p p_sum l.
Proof. done. Qed.

Lemma p_sum_app l1 l2 : p_sum (l1 ++ l2) = p_sum l1 +p p_sum l2.
Proof.
  induction l1 as [|Q l1 IH]; [change (p_sum []) with p_identity; cbn [app]; group|].
  cbn [app]. rewrite !p_sum_cons, IH. group.
Qed.

Definition commitment_of (eqs : list named_equation) (f : string -> RScalar) (pargs : PointArgs)
    (challenge : option RScalar) : list RPoint :=
  (fun e => match challenge with
            | None => image f pargs e.2
            | Some h => image f pargs e.2 -p h *p point_of pargs e.1
            end) <$> eqs.

Lemma homomorphism_spec {E} st eqs f pargs challenge :
  represents st eqs ->
  homomorphism_with_subtraction (E:=E) st (f <$> scalar_vec st) (point_of pargs <$> point_vec st) challenge
    = Ok (commitment_of eqs f pargs challenge).
Proof.
  intros Hr. destruct (rep_tables _ _ Hr) as [Hts Htp _]. pose proof (rep_equations _ _ Hr) as He.
  assert (Hpt : forall n i, point_map st !! n = Some i ->
            (point_of pargs <$> point_vec st) !! i = Some (point_of pargs n)).
  { intros n i Hi. rewrite list_lookup_fmap. apply Htp in Hi. by rewrite Hi. }
  assert (Hsc : forall n i, scalar_map st !! n = Some i -> (f <$> scalar_vec st) !! i = Some (f n)).
  { intros n i Hi. rewrite list_lookup_fmap. apply Hts in Hi. by rewrite Hi. }
  unfold homomorphism_with_subtraction, commitment_of. clear Hr.
  induction He as [|e [l r] es eqs' [Hl Ht] He IH]; [done|]. cbn [mapM fmap list_fmap].
  cbn [fst snd] in *. cbn in IH |- *. rewrite IH. clear IH. unfold apply_equation.
  assert (mapM (M:=outcome E) (fun t => s ← expect ((f <$> scalar_vec st) !! scalar t);
             p ← expect ((point_of pargs <$> point_vec st) !! point t); Ok (s, p)) (rhs e)
          = Ok ((fun p => (f p.1, point_of pargs p.2)) <$> r)) as ->.
  { induction Ht as [|t [s p] ts r' [Hs1 Hp1] Ht IH]; [done|]. cbn [mapM fmap list_fmap].
    rewrite (Hsc _ _ Hs1), (Hpt _ _ Hp1). cbn in IH |- *. by rewrite IH. }
  cbn. destruct challenge as [h|]; cbn; [rewrite (Hpt _ _ Hl)|]; cbn; do 2 f_equal;
    rewrite multiscalar_mul_sum, fmap_app, <- list_fmap_compose, p_sum_app; unfold image, compose; cbn.
  - set (X := p_sum _). group.
  - set (X := p_sum _). group.
Qed.

(** ** Proof encoding *)

Lemma mapM_Some_id {A} (l : list A) : mapM id (Some <$> l) = Some l.
Proof. induction l as [|x l IH]; [done|]. cbn in *. by rewrite IH. Qed.

Lemma proof_round_trip pf :
  response pf <> [] -> (length (response pf) <= 256)%nat -> Proof_from_slice (Proof_to_bytes pf) = Some pf.
Proof.
  intros Hne Hlen. unfold Proof_from_slice, Proof_to_bytes.
  assert (Forall (fun l => length l = 32%nat) ((fun s => arr (s_to_bytes s)) <$> challenge pf :: response pf)) as Hl.
  { apply Forall_fmap, Forall_forall. intros s _. apply array_length. }
  rewrite chunks_concat by (lia || done).
  assert (length (concat ((fun s => arr (s_to_bytes s)) <$> challenge pf :: response pf)) mod 32 = 0)%nat as ->.
  { clear -Hl. induction Hl as [|l ls Hl _ IH]; [done|]. cbn [concat]. rewrite length_app, Hl.
    rewrite <- Nat.Div0.add_mod_idemp_r, IH. done. }
  cbn [Nat.eqb negb fmap list_fmap]. rewrite to_array_id, scalar_bytes_round_trip. cbn [mbind option_bind].
  rewrite <- list_fmap_compose, !length_fmap, (proj2 (Nat.ltb_ge 256 _)) by done.
  assert ((fun chunk => s_from_canonical_bytes (to_array 32 chunk)) ∘ (fun s => arr (s_to_bytes s)) <$> response pf
          = Some <$> response pf) as E.
  { apply list_fmap_ext. intros i s _. cbn. by rewrite to_array_id, scalar_bytes_round_trip. }
  cbn in E |- *. rewrite E, mapM_Some_id. cbn. rewrite bool_decide_false by done. by destruct pf.
Qed.

(** A parsed proof has between 1 and 256 responses and is the encoding of its
    scalars. *)
Lemma mapM_id_Some {A} (l : list (option A)) l' : mapM id l = Some l' -> l = Some <$> l'.
Proof.
  revert l'. induction l as [|o l IH]; intros l' Hm; cbn in Hm; [by injection Hm as <-|].
  destruct o as [x|]; [|done]. cbn in Hm. destruct (mapM id l) as [l1|] eqn:E; [|done].
  cbn in Hm. injection Hm as <-. by rewrite (IH l1 eq_refl).
Qed.

(** ** Verification as a function of the proof *)

Definition challenge_of (commitment : list RPoint) (message : bytes) (sho : ShoHmacSha256) : RScalar :=
  let sho := absorb_and_ratchet message (absorb_points commitment sho) in
  s_from_bytes_mod_order_wide (to_array 64 (output_blocks 65 0 64 (hmac.output_digest (hmac.cv sho)))).

Lemma ratchet_mode (s : ShoHmacSha256) : hmac.mode (ratchet s) = RATCHETED.
Proof. cbn. unfold hmac.sho_ratchet. by destruct (hmac.mode s) eqn:E. Qed.

Lemma squeeze_hmac {E} n (s : ShoHmacSha256) :
  hmac.mode s = RATCHETED -> exists b s', squeeze_and_ratchet (E:=E) n s = (Ok b, s').
Proof. intros Hs. cbn. unfold hmac.sho_squeeze. rewrite bool_decide_true by done. eauto. Qed.

Lemma compute_challenge_spec {E} commitment message sho :
  compute_challenge (E:=E) commitment message sho = Ok (challenge_of commitment message sho).
Proof.
  unfold compute_challenge, challenge_of. cbn [squeeze_and_ratchet hmac.sho_api]. unfold hmac.sho_squeeze.
  rewrite bool_decide_true by apply ratchet_mode. done.
Qed.

Definition sho_of (st : Statement) (pargs : PointArgs) : ShoHmacSha256 :=
  match start_sho (E:=PokshoError) st (point_of pargs <$> point_vec st) with Ok s => s | _ => hmac.initial end.

Lemma start_sho_spec st eqs pargs :
  represents st eqs -> good_statement eqs ->
  start_sho st (point_of pargs <$> point_vec st) = Ok (E:=PokshoError) (sho_of st pargs).
Proof.
  intros Hr Hg. unfold sho_of, start_sho. by destruct (to_bytes_defined (E:=PokshoError) st eqs Hr Hg) as [d ->].
Qed.

(** The response to a named scalar. *)
Definition response_of (st : Statement) (pf : Proof) (n : string) : RScalar :=
  default s_zero (i ← scalar_map st !! n; response pf !! i).

Lemma response_by_name st pf :
  tables st -> length (response pf) = length (scalar_vec st) ->
  response pf = response_of st pf <$> scalar_vec st.
Proof.
  intros [Ht _ _] Hlen. apply list_eq. intros i. rewrite list_lookup_fmap.
  destruct (scalar_vec st !! i) as [n|] eqn:Hn; cbn.
  - unfold response_of. apply Ht in Hn as Hm. rewrite Hm. cbn.
    apply lookup_lt_Some in Hn. rewrite <- Hlen in Hn. by apply lookup_lt_is_Some in Hn as [x ->].
  - apply lookup_ge_None in Hn. apply lookup_ge_None. lia.
Qed.

Definition commitment (st : Statement) (eqs : list named_equation) (pargs : PointArgs) (pf : Proof) : list RPoint :=
  commitment_of eqs (response_of st pf) pargs (Some (challenge pf)).

Definition accepted (st : Statement) (eqs : list named_equation) (pargs : PointArgs) (message : bytes) (pf : Proof)
  : Prop :=
  length (response pf) = size (scalars_of eqs) /\
  challenge pf = challenge_of (commitment st eqs pargs pf) message (sho_of st pargs).
#[export] Instance accepted_dec st eqs pargs message pf : Decision (accepted st eqs pargs message pf).
Proof. unfold accepted. apply _. Defined.

Lemma rep_scalar_length st eqs : represents st eqs -> length (scalar_vec st) = size (scalars_of eqs).
Proof. intros Hr. rewrite <- (proj1 (rep_sizes _ _ Hr)). symmetry. apply table_size, Hr. Qed.

Lemma verify_spec st eqs b pargs message :
  represents st eqs -> good_statement eqs -> points_given eqs pargs ->
  verify_proof st b pargs message =
    match Proof_from_slice b with
    | Some pf => if decide (accepted st eqs pargs message pf) then Ok tt else Err VerificationFailure
    | None => Err VerificationFailure
    end.
Proof.
  intros Hr Hg Hp. unfold verify_proof. destruct (Proof_from_slice b) as [pf|]; [cbn [ok_or mbind outcome_bind]|done].
  rewrite (rep_scalar_length _ _ Hr). destruct (Nat.eqb_spec (length (response pf)) (size (scalars_of eqs))) as [Hl|Hl]; cbn [negb].
  - rewrite (sort_points_spec st eqs) by done. cbn [mbind outcome_bind].
    rewrite (start_sho_spec st eqs) by done. cbn [mbind outcome_bind].
    rewrite (response_by_name st pf) by (apply Hr || by rewrite (rep_scalar_length _ _ Hr)).
    rewrite (homomorphism_spec st eqs) by done. cbn [mbind outcome_bind]. rewrite compute_challenge_spec.
    cbn [mbind outcome_bind]. fold (commitment st eqs pargs pf). unfold accepted.
    case_bool_decide; case_decide; naive_solver.
  - rewrite decide_False by by intros []. done.
Qed.

(** ** Completeness *)

Lemma image_ext f g pargs r : (forall p, p ∈ r -> f p.1 = g p.1) -> image f pargs r = image g pargs r.
Proof.
  intros Hfg. unfold image. f_equal. apply list_fmap_ext. intros i p Hp. rewrite (Hfg p); [done|].
  by eapply list_elem_of_lookup_2.
Qed.

Lemma image_cons f pargs p r : image f pargs (p :: r) = f p.1 *p point_of pargs p.2 +p image f pargs r.
Proof. done. Qed.

Lemma image_linear f g c pargs r :
  image (fun n => f n +s g n *s c) pargs r = image f pargs r +p c *p image g pargs r.
Proof.
  induction r as [|p r IH]; [change (image ?h pargs []) with p_identity; group|].
  rewrite !image_cons, IH. group.
Qed.

Lemma zip_with_fmap {A B C D} (h : B -> C -> D) (f : A -> B) (g : A -> C) l :
  zip_with h (f <$> l) (g <$> l) = (fun x => h (f x) (g x)) <$> l.
Proof. induction l as [|x l IH]; [done|]. cbn. by f_equal. Qed.

Lemma make_nonce_spec {E} g1 message randomness sho :
  exists nonce, make_nonce (E:=E) g1 message randomness sho = Ok nonce /\ length nonce = length g1.
Proof.
  unfold make_nonce. cbv zeta.
  destruct (squeeze_hmac (E:=E) (length g1 * 64)
    (absorb_and_ratchet message (ratchet (absorb_scalars g1 (absorb randomness sho))))) as (b & s' & ->);
    [apply ratchet_mode|]. cbn [fst mbind outcome_bind].
  eexists. split; [done|]. rewrite length_fmap. apply chunks_length; [lia|]. apply array_length.
Qed.

(** The scalars and points of the equations are in the tables. *)
Lemma rep_scalar_known st eqs e p :
  represents st eqs -> e ∈ eqs -> p ∈ e.2 -> is_Some (scalar_map st !! p.1).
Proof.
  intros Hr [k He]%list_elem_of_lookup [j Hj]%list_elem_of_lookup.
  destruct (Forall2_lookup_r _ _ _ _ _ (rep_equations _ _ Hr) He) as (e' & _ & _ & Ht).
  destruct (Forall2_lookup_r _ _ _ _ _ Ht Hj) as (t & _ & Hs & _). eauto.
Qed.

(** The response [nonce + witness * challenge] recovers the commitment. *)
Lemma commitment_recovered st eqs sargs pargs f c :
  represents st eqs -> satisfied eqs sargs pargs ->
  let pf := mkProof c ((fun n => f n +s scalar_of sargs n *s c) <$> scalar_vec st) in
  commitment st eqs pargs pf = commitment_of eqs f pargs None.
Proof.
  intros Hr Hsat pf. unfold commitment, commitment_of. apply list_fmap_ext. intros i e He.
  apply list_elem_of_lookup_2 in He. rewrite (image_ext _ (fun n => f n +s scalar_of sargs n *s c)).
  - rewrite image_linear. unfold satisfied in Hsat. rewrite Forall_forall in Hsat.
    rewrite (Hsat e He). cbn [challenge pf]. set (X := image f _ _). set (Y := image _ _ _). group.
  - intros p Hp. destruct (rep_scalar_known _ _ _ _ Hr He Hp) as [k Hk].
    unfold response_of. rewrite Hk. cbn [mbind option_bind response pf].
    apply (scalar_table _ (rep_tables _ _ Hr)) in Hk. rewrite list_lookup_fmap, Hk. done.
Qed.

Lemma scalars_nonempty eqs : good_statement eqs -> eqs <> [] -> size (scalars_of eqs) <> 0%nat.
Proof.
  intros (Hall & _) Hne. destruct eqs as [|[l r] eqs]; [done|]. apply Forall_cons in Hall as [(_ & Hr & _) _].
  cbn in Hr. destruct r as [|[s p] r]; [done|]. unfold scalars_of. cbn.
  intros Hz%size_empty_inv. set_solver.
Qed.

(** The statement, the arguments and the equations of a proof that can be made. *)
Record provable (st : Statement) (eqs : list named_equation) (sargs : ScalarArgs) (pargs : PointArgs) : Prop := {
  pv_represents : represents st eqs;
  pv_good : good_statement eqs;
  pv_nonempty : eqs <> [];
  pv_scalars : scalars_given eqs sargs;
  pv_points : points_given eqs pargs;
  pv_satisfied : satisfied eqs sargs pargs
}.

Lemma prove_accepted st eqs sargs pargs message randomness :
  provable st eqs sargs pargs -> length randomness = 32%nat ->
  exists proof, prove st sargs pargs message randomness = Ok proof /\
    verify_proof st proof pargs message = Ok tt.
Proof.
  intros [Hr Hg Hne Hs Hp Hsat] Hrnd. unfold prove. rewrite Hrnd. cbn [Nat.eqb negb].
  rewrite (sort_scalars_spec st eqs), (sort_points_spec st eqs) by done. cbn [mbind outcome_bind].
  rewrite (start_sho_spec st eqs) by done. cbn [mbind outcome_bind].
  destruct (make_nonce_spec (E:=PokshoError) (scalar_of sargs <$> scalar_vec st) message randomness
    (sho_of st pargs)) as (nonce & -> & Hn). cbn [mbind outcome_bind]. rewrite length_fmap in Hn.
  pose proof (response_by_name st (mkProof s_zero nonce) (rep_tables _ _ Hr) Hn) as Hnonce.
  cbn [response] in Hnonce. set (f := response_of st (mkProof s_zero nonce)) in *. rewrite Hnonce.
  rewrite (homomorphism_spec st eqs) by done. cbn [mbind outcome_bind]. rewrite compute_challenge_spec.
  cbn [mbind outcome_bind]. set (c := challenge_of _ _ _). cbv zeta. rewrite zip_with_fmap.
  set (pf := mkProof c _).
  enough (verify_proof st (Proof_to_bytes pf) pargs message = Ok tt) as Hv by (rewrite Hv; eauto).
  rewrite (verify_spec st eqs) by done. rewrite proof_round_trip.
  - rewrite decide_True; [done|]. split.
    + cbn [response pf]. rewrite length_fmap. by apply rep_scalar_length.
    + pose proof (commitment_recovered st eqs sargs pargs f c Hr Hsat) as Hc. cbv zeta in Hc.
      fold pf in Hc. rewrite Hc. done.
  - cbn [response pf]. intros Hz%fmap_nil_inv. apply (scalars_nonempty eqs); [done..|].
    by rewrite <- (rep_scalar_length _ _ Hr), Hz.
  - cbn [response pf]. rewrite length_fmap, (rep_scalar_length _ _ Hr). destruct Hg as (_ & _ & ? & _). lia.
Qed.

(** Proofs are complete.  For equations within the size limits, [add] builds a
    statement; when the arguments are for exactly its scalars and points and the
    equations hold, [prove] returns a proof, and anyone with the same points
    and message accepts it. *)
Theorem proofs_complete eqs sargs pargs message randomness :
  good_statement eqs -> eqs <> [] ->
  scalars_given eqs sargs -> points_given eqs pargs -> satisfied eqs sargs pargs ->
  length randomness = 32%nat ->
  exists st proof, build (E:=PokshoError) eqs = Ok st /\
    prove st sargs pargs message randomness = Ok proof /\
    verify_proof st proof pargs message = Ok tt.
Proof.
  intros Hg Hne Hs Hp Hsat Hrnd. destruct (build_spec (E:=PokshoError) eqs Hg) as (st & Hb & Hr).
  destruct (prove_accepted st eqs sargs pargs message randomness) as (proof & ? & ?); [by split|done|eauto].
Qed.

(** ** Verification is total *)

Lemma mapM_ok_or_inv {E A B} (e : E) (f : A -> option B) l ys :
  mapM (fun x => ok_or e (f x)) l = Ok ys -> forall x, x ∈ l -> is_Some (f x).
Proof.
  revert ys. induction l as [|x l IH]; intros ys Hm y Hy; [by apply not_elem_of_nil in Hy|].
  cbn in Hm. destruct (f x) as [z|] eqn:Hf; [cbn in Hm|done].
  destruct (mapM _ l) as [zs| |] eqn:Hl; [|done..]. apply elem_of_cons in Hy as [->|Hy]; eauto.
Qed.

Lemma mapM_ok_or_cases {E A B} (e : E) (f : A -> option B) l :
  (exists ys, mapM (fun x => ok_or e (f x)) l = Ok ys) \/ mapM (fun x => ok_or e (f x)) l = Err e.
Proof.
  induction l as [|x l [[ys Hys]|Hl]]; cbn in *; [by left; eexists| |].
  - destruct (f x); cbn; [rewrite Hys; left; by eexists|by right].
  - destruct (f x); cbn; [rewrite Hl|]; by right.
Qed.

(** [sort_points] fails exactly when the arguments do not fit. *)
Lemma sort_points_cases st eqs pargs :
  represents st eqs ->
  points_given eqs pargs \/ sort_points st pargs = Err BadArgsWrongNumberOfPointArgs \/
  sort_points st pargs = Err BadArgsMissingPointArg.
Proof.
  intros Hr. destruct (rep_tables _ _ Hr) as [_ Ht Hb]. pose proof (table_size _ _ Ht) as Hsz.
  unfold sort_points. destruct (point_vec st) as [|g v] eqn:Hv; [done|]. injection Hb as ->.
  cbn [length Nat.eqb drop]. rewrite Nat.sub_succ, Nat.sub_0_r.
  destruct (Nat.eqb_spec (size pargs) (length v)) as [Hl|]; cbn [negb]; [|by right; left].
  destruct (mapM_ok_or_cases BadArgsMissingPointArg (fun n => pargs !! n) v) as [[ys Hys]|He]; cycle 1.
  { right; right. by rewrite drop_0, He. }
  left. unfold points_given. symmetry. apply set_subseteq_size_eq.
  - intros n [Hn Hg]%elem_of_difference. rewrite <- (rep_points _ _ Hr), elem_of_dom in Hn.
    destruct Hn as [i Hi]. apply Ht in Hi. apply elem_of_dom.
    apply (mapM_ok_or_inv BadArgsMissingPointArg (fun m => pargs !! m) v ys Hys).
    destruct i as [|i]; cbn in Hi; [injection Hi as <-; set_solver|by eapply list_elem_of_lookup_2].
  - rewrite <- (rep_points _ _ Hr), size_difference, !size_dom, Hsz, size_singleton, Hl; [cbn; lia|].
    intros n ->%elem_of_singleton. apply elem_of_dom. exists 0%nat. by apply Ht.
Qed.

(** Verification is total: no proof bytes and no arguments make it panic.
    With the points of the statement it answers yes or [VerificationFailure];
    another error says that the arguments do not fit the statement. *)
Theorem verify_proof_total eqs st b pargs message :
  good_statement eqs -> build (E:=PokshoError) eqs = Ok st ->
  (points_given eqs pargs ->
     verify_proof st b pargs message = Ok tt \/ verify_proof st b pargs message = Err VerificationFailure) /\
  (~ points_given eqs pargs ->
     verify_proof st b pargs message ∈ [Err VerificationFailure; Err BadArgsWrongNumberOfPointArgs;
                                        Err BadArgsMissingPointArg]).
Proof.
  intros Hg Hb. destruct (build_spec (E:=PokshoError) eqs Hg) as (st' & Hb' & Hr).
  rewrite Hb in Hb'. injection Hb' as <-. split.
  - intros Hp. rewrite (verify_spec st eqs) by done.
    destruct (Proof_from_slice b); [case_decide|]; auto.
  - intros Hp. unfold verify_proof. destruct (Proof_from_slice b) as [pf|]; cbn; [|by left].
    destruct (negb _); [by left|].
    destruct (sort_points_cases st eqs pargs Hr) as [?|[->| ->]]; [done|cbn; set_solver..].
Qed.

(** ** Special soundness *)

(** The scalars that two proofs with one commitment reveal; [d] inverts the
    difference of their challenges. *)
Definition extracted (st : Statement) (eqs : list named_equation) (pf1 pf2 : Proof) (d : RScalar) : ScalarArgs :=
  set_to_map (fun n => (n, d *s (response_of st pf1 n -s response_of st pf2 n))) (scalars_of eqs).

Lemma extracted_lookup st eqs pf1 pf2 d n :
  n ∈ scalars_of eqs ->
  scalar_of (extracted st eqs pf1 pf2 d) n = d *s (response_of st pf1 n -s response_of st pf2 n).
Proof.
  intros Hn. unfold scalar_of, extracted. erewrite (proj2 (lookup_set_to_map _ _ _ _ _)); [done|].
  eexists. split; [exact Hn|done].
  Unshelve. intros x y _ _ Hxy. exact Hxy.
Qed.

Lemma extracted_given st eqs pf1 pf2 d : scalars_given eqs (extracted st eqs pf1 pf2 d).
Proof.
  unfold scalars_given, extracted. apply set_eq. intros n. rewrite elem_of_dom. split.
  - intros [x Hx]. apply lookup_set_to_map in Hx as (m & Hm & Heq); [|by intros ? ? _ _ ?]. by injection Heq as -> _.
  - intros Hn. eexists. apply lookup_set_to_map; [by intros ? ? _ _ ?|]. eauto.
Qed.

Lemma image_difference f g d pargs r :
  image (fun n => d *s (f n -s g n)) pargs r = d *p (image f pargs r -p image g pargs r).
Proof.
  induction r as [|p r IH]; [change (image ?h pargs []) with p_identity; group|].
  rewrite !image_cons, IH. group.
Qed.

(** C20: special soundness.  Two responses of the right length to different challenges
    for which the verifier recomputes the same commitment reveal scalars that
    satisfy all the equations: the difference of the responses divided by that
    of the challenges.  So whoever can answer two challenges knows a solution. *)
Theorem special_soundness eqs st pargs points pf1 pf2 d :
  good_statement eqs -> build (E:=PokshoError) eqs = Ok st -> points_given eqs pargs ->
  sort_points st pargs = Ok points ->
  length (response pf1) = length (scalar_vec st) -> length (response pf2) = length (scalar_vec st) ->
  homomorphism_with_subtraction (E:=PokshoError) st (response pf1) points (Some (challenge pf1)) =
    homomorphism_with_subtraction st (response pf2) points (Some (challenge pf2)) ->
  d *s (challenge pf1 -s challenge pf2) = s_one ->
  scalars_given eqs (extracted st eqs pf1 pf2 d) /\ satisfied eqs (extracted st eqs pf1 pf2 d) pargs.
Proof.
  intros Hg Hb Hp Hpts Hl1 Hl2 Hhom Hd.
  destruct (build_spec (E:=PokshoError) eqs Hg) as (st' & Hb' & Hr). rewrite Hb in Hb'. injection Hb' as <-.
  rewrite (sort_points_spec st eqs) in Hpts by done. injection Hpts as <-.
  rewrite (response_by_name st pf1), (response_by_name st pf2) in Hhom by (done || apply Hr).
  rewrite !(homomorphism_spec st eqs) in Hhom by done. injection Hhom as Hcom.
  split; [apply extracted_given|].
  unfold satisfied. rewrite Forall_forall. intros e He.
  assert (image (response_of st pf1) pargs e.2 -p challenge pf1 *p point_of pargs e.1
          = image (response_of st pf2) pargs e.2 -p challenge pf2 *p point_of pargs e.1) as Heq.
  { unfold commitment_of in Hcom. apply list_elem_of_lookup in He as [i Hi].
    pose proof (f_equal (.!! i) Hcom) as H. cbn beta in H. rewrite !list_lookup_fmap, Hi in H. by injection H. }
  rewrite (image_ext _ (fun n => d *s (response_of st pf1 n -s response_of st pf2 n))).
  - rewrite image_difference. revert Heq. set (X := image _ _ _). set (Y := image _ _ _). set (Q := point_of _ _).
    destruct (pt_dlog X) as [x ->], (pt_dlog Y) as [y ->], (pt_dlog Q) as [q ->]. fold_points.
    intros Heq%pt_inj. f_equal.
    transitivity (d *s ((x -s challenge pf1 *s q) -s (y -s challenge pf2 *s q))
                  +s (d *s (challenge pf1 -s challenge pf2)) *s q); [rewrite Heq, Hd; ring|ring].
  - intros p Hin. apply extracted_lookup. unfold scalars_of. apply elem_of_list_to_set, list_elem_of_In, in_concat.
    exists (e.2.*1). split; apply list_elem_of_In; apply list_elem_of_fmap; eauto.
Qed.
End arguments.
