(* ===== verification/KtPrefix.v ===== *)
(** * KtPrefix: the prefix tree and commitments of key transparency
    (rust/keytrans/src/prefix.rs, commitments.rs)

    Each entry of the log commits to the root of a tree of depth 256, keyed by
    the bits of a search key's index, that holds for every key the number of
    its versions so far and the position of its first entry.  [evaluate]
    computes the root from a claimed counter and the siblings on the path.
    Section [prefix_tree] shows that the siblings of a tree's path give its
    root, and that one root admits one counter and position for a key.
    Section [commitments] is the commitment to a key's value. *)

From S2P Require Import Prelude Types Primitives KtLog KtMerkle.
Open Scope string_scope.
Open Scope list_scope.
Open Scope Z_scope.

Definition KEY_LENGTH : nat := 32.

(** "Malformed proof". *)
Inductive MalformedProof := MkMalformedProof.

(** [proto::PrefixProof]. *)
Record PrefixProof := mkPrefixProof { pp_proof : list bytes; pp_counter : Z }.

Section prefix.
Context `{Sha256}.

(** The strings that are hashed. *)
Definition leaf_string (key : array 32) (ctr pos : Z) : bytes :=
  [Byte.x00] ++ arr key ++ be_bytes 4 ctr ++ be_bytes 8 pos.
Definition parent_string (left right : array 32) : bytes := [Byte.x01] ++ arr left ++ arr right.

Definition leaf_hash (key : array 32) (ctr pos : Z) : array 32 := sha256 (leaf_string key ctr pos).
Definition parent_hash (left right : array 32) : array 32 := sha256 (parent_string left right).

(** [key[n / 8] & (1 << (7 - n % 8))] is not 0, for [n < 256]. *)
Definition key_bit (key : array 32) (n : nat) : bool :=
  negb (Z.land (u8 (default Byte.x00 (arr key !! (n / 8)%nat))) (Z.shiftl 1 (7 - Z.of_nat n mod 8)) =? 0).

(** The loop: [n = proof.len() - i - 1] is the number of elements that follow. *)
Fixpoint evaluate_path (key value : array 32) (proof : list bytes) : outcome MalformedProof (array 32) :=
  match proof with
  | [] => Ok value
  | p :: proof =>
      sibling ← ok_or MkMalformedProof (try_array 32 p);
      let b := key_bit key (length proof) in
      let value := if negb b then parent_hash value sibling else parent_hash sibling value in
      evaluate_path key value proof
  end.
Definition evaluate_proof (key value : array 32) (proof : list bytes) : outcome MalformedProof (array 32) :=
  if negb (length proof =? 8 * KEY_LENGTH)%nat then Err MkMalformedProof
  else evaluate_path key value proof.

Definition evaluate (key : array 32) (pos : Z) (res : PrefixProof) : outcome MalformedProof (array 32) :=
  evaluate_proof key (leaf_hash key (pp_counter res) pos) (pp_proof res).
End prefix.

Section prefix_tree.
Context `{Sha256}.
Implicit Types (key value h : array 32) (proof : list bytes).

(** The strings hashed on the way from a leaf to the root. *)
Fixpoint path_strings key value proof : list bytes :=
  match proof with
  | [] => []
  | p :: proof =>
      let sibling := to_array 32 p in
      let s := if negb (key_bit key (length proof)) then parent_string value sibling
               else parent_string sibling value in
      s :: path_strings key (sha256 s) proof
  end.
Definition prefix_strings key pos (res : PrefixProof) : list bytes :=
  leaf_string key (pp_counter res) pos ::
  path_strings key (leaf_hash key (pp_counter res) pos) (pp_proof res).

Lemma parent_string_inj h1 h2 h3 h4 : parent_string h1 h2 = parent_string h3 h4 -> h1 = h3 /\ h2 = h4.
Proof.
  unfold parent_string. intros [= Heq]. apply app_inj_1 in Heq as [H1 H2]; [|by rewrite !array_length].
  split; by apply array_eq.
Qed.

Lemma leaf_string_inj key ctr pos ctr' pos' :
  is_u32 ctr -> is_u32 ctr' -> is_u64 pos -> is_u64 pos' ->
  leaf_string key ctr pos = leaf_string key ctr' pos' -> ctr = ctr' /\ pos = pos'.
Proof.
  unfold leaf_string, is_u32, is_u64, u32_max, u64_max. intros Hc Hc' Hp Hp' Heq.
  do 2 apply app_inv_head in Heq. apply app_inj_1 in Heq as [H1 H2]; [|by rewrite !be_bytes_length].
  split; (eapply be_bytes_inj; [..|done]); cbn; lia.
Qed.

(** Going up from equal roots, the values on two paths agree. *)
Lemma evaluate_path_binding key proof proof' value value' root :
  length proof = length proof' ->
  evaluate_path key value proof = Ok root -> evaluate_path key value' proof' = Ok root ->
  value = value' \/ collision (path_strings key value proof ++ path_strings key value' proof').
Proof.
  revert proof' value value'. induction proof as [|p proof IH]; intros [|p' proof'] value value' Hlen; try done.
  - cbn. intros [= ->] [= ->]. by left.
  - cbn [evaluate_path path_strings]. intros (s & Hs%ok_or_Ok & He)%bind_Ok (s' & Hs'%ok_or_Ok & He')%bind_Ok.
    injection Hlen as Hlen. unfold to_array. rewrite Hs, Hs'. cbn [default from_option id].
    rewrite <- Hlen in *. set (b := key_bit key (length proof)) in *.
    destruct (IH proof' _ _ Hlen He He') as [Heq|Hc].
    + set (a := if negb b then parent_string value s else parent_string s value) in *.
      set (a' := if negb b then parent_string value' s' else parent_string s' value') in *.
      destruct (decide (a = a')) as [Haa|Haa].
      * left. unfold a, a' in Haa. destruct b; by apply parent_string_inj in Haa as [? ?].
      * right. exists a, a'. split_and!; [by left|apply elem_of_app; right; by left|done|].
        unfold a, a', parent_hash in *. by destruct b.
    + right. eapply collision_incl; [|done]. unfold parent_hash in *. intros x.
      rewrite !elem_of_app, !elem_of_cons. destruct b; cbn [negb]; tauto.
Qed.

(** A prefix tree root determines what it says of a key: if two search
    results for the same key are both valid for the same root, they have the
    same counter and the same first position, or two of the strings hashed on
    the way have the same SHA-256. *)
Theorem prefix_binding key pos pos' res res' root :
  is_u64 pos -> is_u64 pos' -> is_u32 (pp_counter res) -> is_u32 (pp_counter res') ->
  evaluate key pos res = Ok root -> evaluate key pos' res' = Ok root ->
  (pp_counter res = pp_counter res' /\ pos = pos') \/
  collision (prefix_strings key pos res ++ prefix_strings key pos' res').
Proof.
  intros Hp Hp' Hc Hc'. unfold evaluate, evaluate_proof, prefix_strings.
  destruct (Nat.eqb_spec (length (pp_proof res)) (8 * KEY_LENGTH)) as [Hl|]; [|done].
  destruct (Nat.eqb_spec (length (pp_proof res')) (8 * KEY_LENGTH)) as [Hl'|]; [|done]. cbn [negb].
  intros He He'. set (a := leaf_string key (pp_counter res) pos). set (a' := leaf_string key (pp_counter res') pos').
  destruct (evaluate_path_binding _ _ _ _ _ _ (eq_trans Hl (eq_sym Hl')) He He') as [Heq|Hcol].
  - destruct (decide (a = a')) as [Haa|Haa]; [left; by apply (leaf_string_inj key)|right].
    exists a, a'. split_and!; [by left|apply elem_of_app; right; by left|done|done].
  - right. eapply collision_incl; [|done]. intros x. rewrite !elem_of_app, !elem_of_cons. tauto.
Qed.

(** A prefix tree; [PHash] is a leaf, or a subtree of which only the hash is
    known. *)
Inductive ptree := PHash (h : array 32) | PNode (l r : ptree).
Fixpoint phash (t : ptree) : array 32 :=
  match t with PHash h => h | PNode l r => parent_hash (phash l) (phash r) end.

(** The siblings on the path along the bits [from, from + 1, ..] of a key, from
    the bottom, and the hash the path ends at. *)
Fixpoint ppath (key : array 32) (from : nat) (t : ptree) : list bytes * array 32 :=
  match t with
  | PHash h => ([], h)
  | PNode l r =>
      let b := key_bit key from in
      let '(proof, h) := if b then ppath key (S from) r else ppath key (S from) l in
      (proof ++ [arr (phash (if b then l else r))], h)
  end.

Lemma ppath_evaluates key t from proof h rest root :
  ppath key from t = (proof, h) -> length rest = from ->
  evaluate_path key (phash t) rest = Ok root -> evaluate_path key h (proof ++ rest) = Ok root.
Proof.
  revert from proof h rest. induction t as [g|l IHl r IHr]; intros from proof h rest; cbn [ppath phash].
  - by intros [= <- <-].
  - set (b := key_bit key from). intros Hp Hlen He.
    assert (evaluate_path key (phash (if b then r else l)) (arr (phash (if b then l else r)) :: rest) = Ok root) as Hnext.
    { cbn [evaluate_path]. rewrite try_array_arr. cbn [ok_or mbind outcome_bind]. rewrite Hlen. fold b. by destruct b. }
    destruct (if b then ppath key (S from) r else ppath key (S from) l) as [proof' h'] eqn:Ep.
    injection Hp as <- <-. rewrite <- app_assoc. cbn [app].
    destruct b; [eapply IHr|eapply IHl]; try done; cbn; lia.
Qed.

(** The siblings of a path through a prefix tree are a valid proof: if the
    path of the key's 256 bits ends at the leaf for a counter and a position,
    [evaluate] returns the root of the tree. *)
Theorem prefix_complete key pos t res :
  ppath key 0 t = (pp_proof res, leaf_hash key (pp_counter res) pos) ->
  length (pp_proof res) = 256%nat -> evaluate key pos res = Ok (phash t).
Proof.
  intros Hp Hlen. unfold evaluate, evaluate_proof. rewrite Hlen. cbn [negb Nat.eqb].
  rewrite <- (app_nil_r (pp_proof res)). by eapply ppath_evaluates.
Qed.
End prefix_tree.

(** ** Commitments *)

Section commitments.
Context {P : Primitives}.

Definition FIXED_KEY : bytes :=
  as_u8 <$> [0xd8; 0x21; 0xf8; 0x79; 0x0d; 0x97; 0x70; 0x97; 0x96; 0xb4; 0xd7; 0x90; 0x33; 0x57; 0xc3; 0xf5].

(** What the MAC is over. *)
Definition commit_string (search_key data : bytes) (nonce : array 16) : bytes :=
  arr nonce ++ be_bytes 2 (Z.of_nat (length search_key)) ++ search_key ++
  be_bytes 4 (Z.of_nat (length data)) ++ data.

(** The lengths must fit in a [u16] and a [u32]. *)
Definition commit {E} (search_key data : bytes) (nonce : array 16) : outcome E bytes :=
  if negb (Z.of_nat (length search_key) <? 2 ^ 16) then Panic
  else if negb (Z.of_nat (length data) <? 2 ^ 32) then Panic
  else Ok (arr (hmac_sha256_mac FIXED_KEY (commit_string search_key data nonce))).

Definition commitments_verify {E} (search_key commitment data : bytes) (nonce : array 16) : outcome E bool :=
  c ← commit search_key data nonce; Ok (bool_decide (c = commitment)).

Lemma commit_string_inj k d n k' d' n' :
  Z.of_nat (length k) < 2 ^ 16 -> Z.of_nat (length k') < 2 ^ 16 ->
  commit_string k d n = commit_string k' d' n' -> k = k' /\ d = d' /\ n = n'.
Proof.
  intros Hk Hk'. unfold commit_string. intros Heq.
  apply app_inj_1 in Heq as [Hn Heq]; [|by rewrite !array_length]. apply array_eq in Hn as ->.
  apply app_inj_1 in Heq as [Hl Heq]; [|by rewrite !be_bytes_length].
  apply be_bytes_inj in Hl; [|cbn; lia..].
  apply app_inj_1 in Heq as [-> Heq]; [|lia].
  by apply app_inj_1 in Heq as [_ ->]; [|by rewrite !be_bytes_length].
Qed.

(** A commitment binds its search key, value and nonce: two openings that
    verify against the same commitment are the same, or HMAC-SHA256 under the
    fixed key gives the same MAC for two different strings. *)
Theorem commitment_binding {E} k d n k' d' n' c :
  @commitments_verify E k c d n = Ok true -> @commitments_verify E k' c d' n' = Ok true ->
  (k = k' /\ d = d' /\ n = n') \/
  (commit_string k d n <> commit_string k' d' n' /\
   hmac_sha256_mac FIXED_KEY (commit_string k d n) = hmac_sha256_mac FIXED_KEY (commit_string k' d' n')).
Proof.
  unfold commitments_verify, commit.
  destruct (Z.ltb_spec (Z.of_nat (length k)) (2 ^ 16)) as [Hk|]; [|done].
  destruct (Z.ltb_spec (Z.of_nat (length k')) (2 ^ 16)) as [Hk'|]; [|done].
  destruct (Z.ltb_spec (Z.of_nat (length d)) (2 ^ 32)) as [Hd|]; [|done].
  destruct (Z.ltb_spec (Z.of_nat (length d')) (2 ^ 32)) as [Hd'|]; [|done].
  cbn -[commit_string]. intros [= H1%bool_decide_eq_true] [= H2%bool_decide_eq_true].
  destruct (decide (commit_string k d n = commit_string k' d' n')) as [Heq|Hne].
  - left. by apply commit_string_inj.
  - right. split; [done|]. apply array_eq. by rewrite H1, H2.
Qed.
End commitments.
