(* ===== verification/KtVrf.v ===== *)
(** * KtVrf: the verifiable random function of key transparency
    (rust/keytrans/src/vrf.rs)

    ECVRF-EDWARDS25519-SHA512-TAI: [proof_to_hash] checks a proof that a search
    key has a certain index.  The curve operations are curve25519-dalek's. *)

From S2P Require Import Prelude Types Primitives.
Open Scope string_scope.
Open Scope list_scope.
Open Scope Z_scope.

(** What vrf.rs calls of curve25519-dalek beyond [Primitives]. *)
Class VrfPrimitives {P : Primitives} := {
  (** [CompressedEdwardsY(b).decompress()]. *)
  point_decompress : array 32 -> option EdwardsPoint;
  mul_by_cofactor : EdwardsPoint -> EdwardsPoint;
  point_is_identity : EdwardsPoint -> bool;
  point_is_small_order : EdwardsPoint -> bool;
  scalar_from_canonical_bytes : array 32 -> option Scalar;
  scalar_neg : Scalar -> Scalar;
  (** [vartime_multiscalar_mul]: the sum of the products. *)
  multiscalar_mul : list (Scalar * EdwardsPoint) -> EdwardsPoint
}.

Inductive VrfError := InvalidCurvePoint | InvalidProof.
Definition VrfError_display (e : VrfError) : string :=
  match e with
  | InvalidCurvePoint => "Invalid point on curve"
  | InvalidProof => "Invalid VRF proof"
  end.

Definition SUITE_ID : byte := Byte.x03.
Definition DOMAIN_SEPARATOR_ENCODE : byte := Byte.x01.
Definition DOMAIN_SEPARATOR_CHALLENGE : byte := Byte.x02.
Definition DOMAIN_SEPARATOR_PROOF : byte := Byte.x03.
Definition DOMAIN_SEPARATOR_BACK : byte := Byte.x00.

Section vrf.
Context {P : Primitives} {VP : VrfPrimitives}.

(** The first 32 bytes of a SHA-512 hash. *)
Definition hash_32 (s : bytes) : array 32 := to_array 32 (slice 0 32 (arr (sha512 s))).

(** One turn of the loop. *)
Definition try_encode (salt data : bytes) (i : Z) : option EdwardsPoint :=
  let r := hash_32 ([SUITE_ID; DOMAIN_SEPARATOR_ENCODE] ++ salt ++ data ++ [as_u8 i; DOMAIN_SEPARATOR_BACK]) in
  pt ← point_decompress r;
  let res := mul_by_cofactor pt in
  if negb (point_is_identity res) then Some res else None.

(** [for i in 0u8..=u8::MAX]; the loop panics when it runs out. *)
Fixpoint encode_from {E} (tries : list Z) (salt data : bytes) : outcome E EdwardsPoint :=
  match tries with
  | [] => Panic
  | i :: tries => match try_encode salt data i with
                  | Some p => Ok p
                  | None => encode_from tries salt data
                  end
  end.
Definition encode_to_curve_try_and_increment {E} (salt data : bytes) : outcome E EdwardsPoint :=
  encode_from (seqZ 0 256) salt data.

Definition generate_challenge (pts : list (array 32)) : array 16 :=
  to_array 16 (slice 0 16 (arr (sha512
    ([SUITE_ID; DOMAIN_SEPARATOR_CHALLENGE] ++ concat (arr <$> pts) ++ [DOMAIN_SEPARATOR_BACK])))).

Definition gamma_to_hash (gamma : EdwardsPoint) : array 32 :=
  hash_32 ([SUITE_ID; DOMAIN_SEPARATOR_PROOF] ++ arr (point_compress (mul_by_cofactor gamma)) ++
           [DOMAIN_SEPARATOR_BACK]).

(** [vrf::PublicKey]. *)
Record VrfPublicKey := mkVrfPublicKey { compressed : array 32; decompressed : EdwardsPoint }.

Definition VrfPublicKey_try_from (public_key : array 32) : outcome VrfError VrfPublicKey :=
  match point_decompress public_key with
  | None => Err InvalidCurvePoint
  | Some pt => if point_is_small_order pt then Err InvalidCurvePoint
               else Ok (mkVrfPublicKey public_key pt)
  end.

(** [PublicKey::proof_to_hash]: the proof is gamma, c and s. *)
Definition proof_to_hash (self : VrfPublicKey) (m : bytes) (proof : array 80) : outcome VrfError (array 32) :=
  let gamma_bytes := to_array 32 (slice 0 32 proof) in
  let c_bytes := slice 32 48 proof in
  gamma ← ok_or InvalidProof (point_decompress gamma_bytes);
  c ← ok_or InvalidProof (scalar_from_canonical_bytes (to_array 32 (c_bytes ++ replicate 16 Byte.x00)));
  let c := scalar_neg c in
  s ← ok_or InvalidProof (scalar_from_canonical_bytes (to_array 32 (slice 48 80 proof)));
  h ← encode_to_curve_try_and_increment (arr (compressed self)) m;
  let u := double_scalar_mul_basepoint c (decompressed self) s in
  let v := multiscalar_mul [(s, h); (c, gamma)] in
  let c_prime := generate_challenge
    [compressed self; point_compress h; gamma_bytes; point_compress u; point_compress v] in
  if negb (bool_decide (c_bytes = arr c_prime)) then Err InvalidProof
  else Ok (gamma_to_hash gamma).
End vrf.
