(* ===== verification/KtTypes.v ===== *)
(** * KtTypes: tree heads, the configuration and the messages of key
    transparency (rust/keytrans/src/lib.rs, proto/wire.proto)

    The records are the generated protobuf messages, whose fields wire.proto
    declares, and the library's own types.  [to_signable_header] is what the
    signatures of tree heads are over. *)

From S2P Require Import Prelude Types Primitives KtTree KtLog KtPrefix KtVrf.
Open Scope string_scope.
Open Scope list_scope.
Open Scope Z_scope.

(** [verify::Error]. *)
Inductive KtError :=
| RequiredFieldMissing (name : string)
| BadData (what : string)
| VerificationFailed (what : string).

(** [ed25519_dalek]: a key, its bytes, and whether it accepts a signature. *)
Class Ed25519 := {
  VerifyingKey : Type;
  vk_bytes : VerifyingKey -> array 32;
  ed25519_verify : VerifyingKey -> bytes -> array 64 -> bool
}.

(** ** Messages *)

Record Signature := mkSignature { sig_auditor_public_key : bytes; sig_signature : bytes }.
Record TreeHead := mkTreeHead { th_tree_size : Z; th_timestamp : Z; th_signatures : list Signature }.
Record AuditorTreeHead := mkAuditorTreeHead {
  ath_tree_size : Z; ath_timestamp : Z; ath_signature : bytes }.
Record FullAuditorTreeHead := mkFullAuditorTreeHead {
  fath_tree_head : option AuditorTreeHead;
  fath_root_value : option bytes;
  fath_consistency : list bytes;
  fath_public_key : bytes }.
Record FullTreeHead := mkFullTreeHead {
  fth_tree_head : option TreeHead;
  fth_last : list bytes;
  fth_distinguished : list bytes;
  fth_full_auditor_tree_heads : list FullAuditorTreeHead }.
Record ProofStep := mkProofStep { ps_prefix : option PrefixProof; ps_commitment : bytes }.
Record SearchProof := mkSearchProof {
  sp_pos : Z; sp_steps : list ProofStep; sp_inclusion : list bytes }.
Record Consistency := mkConsistency { cons_last : option Z; cons_distinguished : option Z }.
(** [UpdateValue] has the one field [value]. *)
Record CondensedTreeSearchResponse := mkCondensed {
  cr_vrf_proof : bytes;
  cr_search : option SearchProof;
  cr_opening : bytes;
  cr_value : option bytes }.
Record MonitorKey := mkMonitorKey {
  mk_search_key : bytes; mk_entry_position : Z; mk_commitment_index : bytes }.
Record MonitorRequest := mkMonitorRequest {
  mreq_keys : list MonitorKey; mreq_consistency : option Consistency }.
Record MonitorProof := mkMonitorProof { mp_steps : list ProofStep }.
Record MonitorResponse := mkMonitorResponse {
  mres_tree_head : option FullTreeHead;
  mres_proofs : list MonitorProof;
  mres_inclusion : list bytes }.

Definition LastTreeHead : Type := TreeHead * Hash.

(** [proto::StoredTreeHead]. *)
Record StoredTreeHead := mkStoredTreeHead { sth_tree_head : option TreeHead; sth_root : bytes }.

Definition into_last_tree_head (s : StoredTreeHead) : option LastTreeHead :=
  tree_head ← sth_tree_head s; root ← try_array 32 (sth_root s); Some (tree_head, root).
Definition StoredTreeHead_from (h : LastTreeHead) : StoredTreeHead :=
  mkStoredTreeHead (Some h.1) (arr h.2).

(** [slice::Iter::find]. *)
Definition find_first {A} (p : A -> bool) (l : list A) : option A := snd <$> list_find (fun a => Is_true (p a)) l.

(** [find_matching]: the debug assertion, then the loop. *)
Fixpoint match_all {A B C} (xs : list A) (ys : list B) (eq : A -> B -> bool) (project : A -> B -> C)
  : option (list C) :=
  match xs with
  | [] => Some []
  | x :: xs => match find_first (eq x) ys with
               | Some y => (project x y ::.) <$> match_all xs ys eq project
               | None => None
               end
  end.
Definition find_matching {E A B C} (xs : list A) (ys : list B) (eq : A -> B -> bool) (project : A -> B -> C)
  : outcome E (option (list C)) :=
  if negb (length xs <=? 10)%nat then Panic else Ok (match_all xs ys eq project).

Example find_matching_extra :
  @find_matching unit _ _ _ [1; 2; 3] [10; 20; 30; 40] (fun a b => a * 10 =? b) Z.add = Ok (Some [11; 22; 33]).
Proof. done. Qed.
Example find_matching_none :
  @find_matching unit _ _ _ [1] [] (fun a b => a * 10 =? b) Z.add = Ok None.
Proof. done. Qed.

Section config.
Context {P : Primitives} {Ed : Ed25519}.

Inductive DeploymentMode :=
| ContactMonitoring
| ThirdPartyManagement (keys : list VerifyingKey)
| ThirdPartyAuditing (keys : list VerifyingKey).

Definition mode_byte (m : DeploymentMode) : byte :=
  match m with
  | ContactMonitoring => Byte.x01
  | ThirdPartyManagement _ => Byte.x02
  | ThirdPartyAuditing _ => Byte.x03
  end.
Definition has_associated_keys (m : DeploymentMode) : bool :=
  match m with ContactMonitoring => false | _ => true end.
Definition get_associated_keys (m : DeploymentMode) : list VerifyingKey :=
  match m with ContactMonitoring => [] | ThirdPartyManagement keys | ThirdPartyAuditing keys => keys end.

Record PublicConfig := mkPublicConfig {
  mode : DeploymentMode;
  signature_key : VerifyingKey;
  vrf_key : VrfPublicKey
}.

(** [VerifyingKey::eq] compares the bytes. *)
Definition VerifyingKey_eq (a b : VerifyingKey) : bool := bool_decide (vk_bytes a = vk_bytes b).

(** ** Signed headers *)

(** [serialize_key], and what it appends. *)
Definition serialize_key {E} (key_material : bytes) : outcome E bytes :=
  let len := Z.of_nat (length key_material) in
  if negb (len <? 2 ^ 16) then Panic else Ok (be_bytes 2 len ++ key_material).

(** The trait [VerifiableTreeHead]. *)
Class VerifiableTreeHead (H : Type) := {
  head_tree_size : H -> Z;
  head_timestamp : H -> Z;
  signature_bytes : forall {E}, H -> outcome E bytes
}.

(** A [TreeHead] with exactly one signature. *)
Record SingleSignatureTreeHead := mkSingle { single_head : TreeHead }.
#[export] Instance SingleSignatureTreeHead_verifiable : VerifiableTreeHead SingleSignatureTreeHead := {
  head_tree_size h := th_tree_size (single_head h);
  head_timestamp h := th_timestamp (single_head h);
  signature_bytes E h := sig_signature <$> expect (head (th_signatures (single_head h)))
}.
#[export] Instance AuditorTreeHead_verifiable : VerifiableTreeHead AuditorTreeHead := {
  head_tree_size := ath_tree_size;
  head_timestamp := ath_timestamp;
  signature_bytes E h := Ok (ath_signature h)
}.

Definition to_signable_header {H E} `{VerifiableTreeHead H} (self : H) (root : Hash) (config : PublicConfig)
    (maybe_auditor_key : option VerifyingKey) : outcome E bytes :=
  let buf := [Byte.x00; Byte.x00] ++ [mode_byte (mode config)] in
  k ← serialize_key (arr (vk_bytes (signature_key config)));
  v ← serialize_key (arr (compressed (vrf_key config)));
  _ ← (if Bool.eqb (bool_decide (is_Some maybe_auditor_key)) (has_associated_keys (mode config))
       then Ok tt else Panic);
  a ← (match maybe_auditor_key with
       | Some key =>
           if existsb (VerifyingKey_eq key) (get_associated_keys (mode config))
           then serialize_key (arr (vk_bytes key)) else Panic
       | None => Ok []
       end);
  Ok (buf ++ k ++ v ++ a ++ be_bytes 8 (head_tree_size self) ++ be_bytes 8 (head_timestamp self) ++ arr root).

Definition to_single_signature_tree_heads {E} (self : TreeHead) (config : PublicConfig)
  : outcome E (option (list (VerifyingKey * SingleSignatureTreeHead))) :=
  find_matching (get_associated_keys (mode config)) (th_signatures self)
    (fun key sig => bool_decide (arr (vk_bytes key) = sig_auditor_public_key sig))
    (fun key sig => (key, mkSingle (mkTreeHead (th_tree_size self) (th_timestamp self) [sig]))).

Definition select_auditor_tree_head (self : FullTreeHead) (public_key : VerifyingKey) : option FullAuditorTreeHead :=
  find_first (fun h => bool_decide (fath_public_key h = arr (vk_bytes public_key)))
    (fth_full_auditor_tree_heads self).

Definition auditor_tree_heads {E} (self : FullTreeHead) (keys : list VerifyingKey)
  : outcome E (option (list (VerifyingKey * FullAuditorTreeHead))) :=
  find_matching keys (fth_full_auditor_tree_heads self)
    (fun key h => bool_decide (fath_public_key h = arr (vk_bytes key))) pair.

(** ** Properties *)

Lemma find_first_Some {A} (p : A -> bool) (l : list A) a : find_first p l = Some a -> a ∈ l /\ p a = true.
Proof.
  unfold find_first. rewrite fmap_Some. intros ([i b] & (Hi & Hp & _)%list_find_Some & ->).
  split; [by eapply list_elem_of_lookup_2|]. cbn. by destruct (p b).
Qed.

(** A match for every element, in order. *)
Lemma match_all_Some {A B C} (xs : list A) (ys : list B) eq (project : A -> B -> C) l :
  match_all xs ys eq project = Some l ->
  Forall2 (fun x c => exists y, y ∈ ys /\ eq x y = true /\ c = project x y) xs l.
Proof.
  revert l. induction xs as [|x xs IH]; intros l; cbn [match_all]; [intros [= <-]; constructor|].
  destruct (find_first (eq x) ys) as [y|] eqn:Ef; [|done]. intros (l' & Hl & ->)%fmap_Some.
  apply find_first_Some in Ef as [Hy He]. constructor; [by exists y|by apply IH].
Qed.

Lemma serialize_key_array {E n} (a : array n) :
  Z.of_nat n < 2 ^ 16 -> @serialize_key E (arr a) = Ok (be_bytes 2 (Z.of_nat n) ++ arr a).
Proof.
  intros Hn. unfold serialize_key. rewrite array_length. by rewrite (proj2 (Z.ltb_lt _ _)) by done.
Qed.

(** The bytes that name the auditor. *)
Definition auditor_bytes (key : option VerifyingKey) : bytes :=
  match key with Some key => be_bytes 2 32 ++ arr (vk_bytes key) | None => [] end.

Lemma to_signable_header_Ok {H E} `{VerifiableTreeHead H} (h : H) root config key buf :
  @to_signable_header H E _ h root config key = Ok buf ->
  bool_decide (is_Some key) = has_associated_keys (mode config) /\
  exists prefix, length prefix = 71%nat /\
    prefix = [Byte.x00; Byte.x00] ++ [mode_byte (mode config)] ++
             (be_bytes 2 32 ++ arr (vk_bytes (signature_key config))) ++
             be_bytes 2 32 ++ arr (compressed (vrf_key config)) /\
    buf = prefix ++ auditor_bytes key ++
          be_bytes 8 (head_tree_size h) ++ be_bytes 8 (head_timestamp h) ++ arr root.
Proof.
  unfold to_signable_header. rewrite !serialize_key_array by done. cbn [mbind outcome_bind].
  intros ([] & Hk & Hrest)%bind_Ok. destruct (Bool.eqb _ _) eqn:He in Hk; [|done]. apply eqb_prop in He.
  split; [done|]. apply bind_Ok in Hrest as (a & Ha & [= <-]).
  assert (a = auditor_bytes key) as ->.
  { destruct key as [k|]; [|by injection Ha]. destruct (existsb _ _); [|done].
    rewrite serialize_key_array in Ha by done. by injection Ha. }
  eexists. split_and!; [|done|by rewrite <- !app_assoc].
  by rewrite !length_app, !be_bytes_length, !array_length.
Qed.

(** A signed header binds what it is about: under one configuration, two
    tree heads with the same bytes to be signed have the same size, timestamp
    and root hash, and name the same auditor. *)
Theorem signable_header_binding {H H' E} `{VerifiableTreeHead H} `{VerifiableTreeHead H'}
    (h : H) (h' : H') root root' config key key' buf :
  is_u64 (head_tree_size h) -> is_u64 (head_tree_size h') ->
  - 2 ^ 63 <= head_timestamp h < 2 ^ 63 -> - 2 ^ 63 <= head_timestamp h' < 2 ^ 63 ->
  @to_signable_header H E _ h root config key = Ok buf ->
  @to_signable_header H' E _ h' root' config key' = Ok buf ->
  head_tree_size h = head_tree_size h' /\ head_timestamp h = head_timestamp h' /\ root = root' /\
  vk_bytes <$> key = vk_bytes <$> key'.
Proof.
  unfold is_u64, u64_max. intros Hs Hs' Ht Ht'.
  intros (Hk & p & Hl & Hp & ->)%to_signable_header_Ok (Hk' & p' & Hl' & Hp' & Heq)%to_signable_header_Ok.
  rewrite <- Hp in Hp'. subst p'. apply app_inv_head in Heq.
  apply app_inj_1 in Heq as [Ha Heq].
  2: { destruct key, key'; cbn [auditor_bytes]; rewrite ?length_app, ?be_bytes_length, ?array_length; try done;
       by rewrite <- Hk' in Hk. }
  apply app_inj_1 in Heq as [Hsz Heq]; [|by rewrite !be_bytes_length].
  apply app_inj_1 in Heq as [Hts Hroot]; [|by rewrite !be_bytes_length].
  split_and!.
  - eapply be_bytes_inj; [..|exact Hsz]; cbn; lia.
  - by apply be_bytes_signed_inj.
  - by apply array_eq.
  - destruct key, key'; cbn [auditor_bytes] in Ha; try done. cbn. apply app_inv_head in Ha.
    f_equal. by apply array_eq.
Qed.
End config.
