(* ===== verification/KtTreeHead.v ===== *)
(** * KtTreeHead: when a tree head is accepted
    (rust/keytrans/src/verify.rs, first half)

    [verify_full_tree_head] checks a tree head with the root that a search or a
    monitoring response gave: consistency with the stored heads, the service's
    signatures, the age, and the auditors' heads.  Section [accepted] shows that
    an accepted head extends the stored ones and what was signed. *)

From S2P Require Import Prelude Types Primitives KtTree KtLog KtMerkle KtLogProofs KtPrefix KtVrf KtTypes.
Open Scope string_scope.
Open Scope list_scope.
Open Scope Z_scope.

(** ** Error conversions *)

Definition KtError_from_log (e : LogError) : KtError := VerificationFailed (LogError_display e).
Definition KtError_from_vrf (e : VrfError) : KtError := VerificationFailed (VrfError_display e).
Definition KtError_from_prefix (e : MalformedProof) : KtError := VerificationFailed "Malformed proof".

Definition get_proto_field {T} (field : option T) (name : string) : outcome KtError T :=
  ok_or (RequiredFieldMissing name) field.

Definition get_hash_proof (proof : list bytes) : outcome KtError (list Hash) :=
  mapM (fun elem => ok_or (BadData "proof element is wrong size") (try_array 32 elem)) proof.

(** ** Timestamps *)

(** Durations are in nanoseconds. *)
Record TimestampRange := mkTimestampRange { max_behind : Z; max_ahead : Z }.
Definition ALLOWED_TIMESTAMP_RANGE : TimestampRange :=
  mkTimestampRange (Duration_from_secs (24 * 60 * 60)) (Duration_from_secs 60).
Definition ALLOWED_AUDITOR_TIMESTAMP_RANGE : TimestampRange :=
  mkTimestampRange (Duration_from_secs (7 * 24 * 60 * 60)) (Duration_from_secs 60).
Definition ENTRIES_MAX_BEHIND : Z := 10000000.

Definition as_millis (d : Z) : Z := d / 1000000.

Inductive Qualifier := Server | Validator.
Definition Qualifier_display (q : Qualifier) : string :=
  match q with Server => "Server" | Validator => "Validator" end.

(** [duration_since(UNIX_EPOCH)] fails for a time before the epoch; the
    arithmetic is on [i128]. *)
Definition verify_timestamp (qualifier : Qualifier) (timestamp : Z) (allowed_range : TimestampRange) (now : Z)
  : outcome KtError unit :=
  if now <? 0 then Panic
  else
    let delta := as_millis now - timestamp in
    if as_millis (max_behind allowed_range) <? delta then
      Err (BadData (Qualifier_display qualifier +:+ " timestamp is too far behind current time (delta: "
                    +:+ pretty delta +:+ " ms)"))
    else if as_millis (max_ahead allowed_range) <? - delta then
      Err (BadData (Qualifier_display qualifier +:+ " timestamp is too far ahead of current time (delta: "
                    +:+ pretty delta +:+ " ms)"))
    else Ok tt.

Section tree_heads.
Context {P : Primitives} {Ed : Ed25519} `{Sha256}.

(** ** Consistency *)

(** The closure returned is the verification that remains to be run. *)
Definition check_consistency_metadata (current : TreeHead * Hash) (proof : list Hash) (baseline : option LastTreeHead)
  : outcome KtError (option (unit -> outcome KtError unit)) :=
  let '(current_head, current_root) := current in
  match baseline with
  | None =>
      if bool_decide (proof <> []) then Err (BadData "consistency proof provided when not expected")
      else Ok None
  | Some (last, last_root) =>
      if th_tree_size last =? th_tree_size current_head then
        if negb (bool_decide (current_root = last_root)) then
          Err (BadData "root is different but tree size is same")
        else if negb (th_timestamp current_head =? th_timestamp last) then
          Err (BadData "tree size is the same but timestamps differ")
        else if bool_decide (proof <> []) then
          Err (BadData "consistency proof provided when not expected")
        else Ok None
      else if th_tree_size current_head <? th_tree_size last then
        Err (BadData "current tree size is less than previous tree size")
      else if th_timestamp current_head <? th_timestamp last then
        Err (BadData "current timestamp is less than previous timestamp")
      else
        Ok (Some (fun _ => map_err KtError_from_log
          (verify_consistency_proof (th_tree_size last) (th_tree_size current_head) proof last_root current_root)))
  end.

(** [if let Some(verify) = check_consistency_metadata(..)? { verify()? }]. *)
Definition check_consistency (current : TreeHead * Hash) (proof : list bytes) (baseline : option LastTreeHead)
  : outcome KtError unit :=
  proof ← get_hash_proof proof;
  verify ← check_consistency_metadata current proof baseline;
  match verify with Some verify => verify tt | None => Ok tt end.

(** ** Signatures *)

(** [Signature::from_slice] fails for a wrong length only. *)
Definition verify_tree_head_signature {T} `{VerifiableTreeHead T} (config : PublicConfig) (head : T) (root : Hash)
    (verifying_key : VerifyingKey) (maybe_auditor_key : option VerifyingKey) : outcome KtError unit :=
  to_be_signed ← to_signable_header head root config maybe_auditor_key;
  sig ← signature_bytes head;
  signature ← ok_or (BadData "signature has wrong size") (try_array 64 sig);
  if ed25519_verify verifying_key to_be_signed signature then Ok tt
  else Err (VerificationFailed "failed to verify tree head signature").

Fixpoint for_each {A E} (l : list A) (f : A -> outcome E unit) : outcome E unit :=
  match l with [] => Ok tt | a :: l => _ ← f a; for_each l f end.

(** ** The whole tree head *)

(** The body of the loop over the auditors. *)
Definition verify_auditor_head (config : PublicConfig) (tree_head : TreeHead) (root : Hash) (now : Z)
    (pair : VerifyingKey * FullAuditorTreeHead) : outcome KtError unit :=
  let '(verifying_key, auditor_tree_head) := pair in
  auditor_head ← get_proto_field (fath_tree_head auditor_tree_head) "tree_head";
  _ ← verify_timestamp Validator (ath_timestamp auditor_head) ALLOWED_AUDITOR_TIMESTAMP_RANGE now;
  if th_tree_size tree_head <? ath_tree_size auditor_head then
    Err (BadData "auditor tree head may not be further along than service tree head")
  else
    behind ← u64_sub (th_tree_size tree_head) (ath_tree_size auditor_head);
    if ENTRIES_MAX_BEHIND <? behind then
      Err (BadData "auditor tree head is too far behind service tree head")
    else if ath_tree_size auditor_head <? th_tree_size tree_head then
      auditor_root ← get_proto_field (fath_root_value auditor_tree_head) "root_value";
      auditor_root ← ok_or (BadData "auditor tree head is malformed") (try_array 32 auditor_root);
      proof ← get_hash_proof (fath_consistency auditor_tree_head);
      _ ← map_err KtError_from_log
            (verify_consistency_proof (ath_tree_size auditor_head) (th_tree_size tree_head) proof auditor_root root);
      verify_tree_head_signature config auditor_head auditor_root verifying_key (Some verifying_key)
    else if bool_decide (fath_consistency auditor_tree_head <> []) then
      Err (BadData "consistency proof provided when not expected")
    else if bool_decide (is_Some (fath_root_value auditor_tree_head)) then
      Err (BadData "explicit root value provided when not expected")
    else verify_tree_head_signature config auditor_head root verifying_key (Some verifying_key).

Definition verify_full_tree_head (config : PublicConfig) (fth : FullTreeHead) (root : Hash)
    (last_tree_head last_distinguished_tree_head : option LastTreeHead) (now : Z) : outcome KtError LastTreeHead :=
  tree_head ← get_proto_field (fth_tree_head fth) "tree_head";
  _ ← check_consistency (tree_head, root) (fth_last fth) last_tree_head;
  _ ← check_consistency (tree_head, root) (fth_distinguished fth) last_distinguished_tree_head;
  heads ← to_single_signature_tree_heads tree_head config;
  heads ← ok_or (BadData "server signatures are either missing or not available for all auditors") heads;
  _ ← for_each heads (fun '(key, head) =>
        verify_tree_head_signature config head root (signature_key config) (Some key));
  _ ← verify_timestamp Server (th_timestamp tree_head) ALLOWED_TIMESTAMP_RANGE now;
  _ ← (match mode config with
       | ThirdPartyAuditing auditor_keys =>
           pairs ← auditor_tree_heads fth auditor_keys;
           pairs ← ok_or (BadData "auditor tree heads are either missing or not available for all auditors") pairs;
           for_each pairs (verify_auditor_head config tree_head root now)
       | _ => Ok tt
       end);
  Ok (tree_head, root).

Definition verify_distinguished (fth : FullTreeHead) (last_tree_head : option LastTreeHead)
    (last_distinguished_tree_head : LastTreeHead) : outcome KtError unit :=
  tree_head ← get_proto_field (fth_tree_head fth) "tree_head";
  let tree_size := th_tree_size tree_head in
  match last_tree_head with
  | None => Ok tt
  | Some (tree_head, root) =>
      if th_tree_size tree_head =? tree_size then
        let '(distinguished, distinguished_root) := last_distinguished_tree_head in
        if tree_size =? th_tree_size distinguished then
          if bool_decide (root = distinguished_root) then Ok tt
          else Err (BadData "root hash does not match expected value")
        else
          proof ← get_hash_proof (fth_distinguished fth);
          map_err KtError_from_log
            (verify_consistency_proof (th_tree_size distinguished) tree_size proof distinguished_root root)
      else Err (BadData "expected tree head not found in storage")
  end.

(** ** Properties *)

Lemma for_each_Ok {A E} (l : list A) (f : A -> outcome E unit) :
  for_each l f = Ok tt <-> Forall (fun a => f a = Ok tt) l.
Proof.
  induction l as [|a l IH]; cbn [for_each]; [by split; [constructor|]|].
  rewrite bind_Ok, Forall_cons, <- IH. split; [by intros ([] & ? & ?)|by intros [? ?]; exists tt].
Qed.

(** A timestamp is accepted exactly within the allowed range, to the
    millisecond: not older than [max_behind] and not newer than [max_ahead]. *)
Theorem verify_timestamp_spec q timestamp range now :
  0 <= now ->
  verify_timestamp q timestamp range now = Ok tt <->
  as_millis now - as_millis (max_behind range) <= timestamp <= as_millis now + as_millis (max_ahead range).
Proof.
  intros Hn. unfold verify_timestamp. rewrite (proj2 (Z.ltb_ge _ _)) by lia.
  destruct (Z.ltb_spec (as_millis (max_behind range)) (as_millis now - timestamp)); [split; [done|lia]|].
  destruct (Z.ltb_spec (as_millis (max_ahead range)) (- (as_millis now - timestamp))); [split; [done|lia]|].
  split; [lia|done].
Qed.

(** The strings hashed to check [head] against [baseline]. *)
Definition baseline_strings (head : TreeHead) (baseline : LastTreeHead) (proof : list bytes) : list bytes :=
  match get_hash_proof proof with
  | Ok proof => consistency_strings (th_tree_size baseline.1) (th_tree_size head) baseline.2 proof
  | _ => []
  end.

(** The older of two consistent logs is a prefix of the newer. *)
Definition extends (L L' : list Hash) : Prop := L = take (length L) L'.

Lemma log_root_inj L L' : length L = length L' -> log_root L = log_root L' ->
  L = L' \/ collision (log_strings L ++ log_strings L').
Proof.
  intros Hlen. unfold log_root, log_strings. rewrite <- Hlen. set (n := Z.of_nat (length L)). intros Heq.
  destruct (Z.eq_dec n 0) as [Hz|Hz].
  { left. destruct L; [by destruct L'|]. cbn in n. lia. }
  pose proof (log_tree_wf n ltac:(lia)) as Hwf.
  assert (thash (leaf_of L) (log_tree n) = thash (leaf_of L') (log_tree n)) as Ht.
  { pose proof (thash_interior n (leaf_of L) 0 n _ Hwf). pose proof (thash_interior n (leaf_of L') 0 n _ Hwf).
    destruct (thash (leaf_of L) _), (thash (leaf_of L') _). cbn in *. congruence. }
  destruct (thash_inj n _ _ 0 n _ Hwf Ht) as [Hi|Hc]; [left|by right].
  rewrite (leaf_of_eq L L' n); [|lia|lia|intros i Hi'; apply Hi; lia]. rewrite firstn_all2; [done|lia].
Qed.

Lemma check_consistency_sound head root proof base L L' :
  th_tree_size head <= MAX_LEAVES -> Z.of_nat (length L') = th_tree_size head -> log_root L' = root ->
  Z.of_nat (length L) = th_tree_size base.1 -> log_root L = base.2 ->
  check_consistency (head, root) proof (Some base) = Ok tt ->
  th_timestamp base.1 <= th_timestamp head /\
  (extends L L' \/ collision (baseline_strings head base proof ++ log_strings L ++ log_strings L')).
Proof.
  intros Hmax HL' Hr' HL Hr. unfold check_consistency, baseline_strings.
  intros (pr & Hpr & (v & Hv & Hrun)%bind_Ok)%bind_Ok. rewrite Hpr. destruct base as [last last_root].
  unfold check_consistency_metadata in Hv. cbn [fst snd] in *.
  destruct (Z.eqb_spec (th_tree_size last) (th_tree_size head)) as [Heq|Hne].
  - case_bool_decide as Hroot; [|done]. cbn [negb] in Hv.
    destruct (Z.eqb_spec (th_timestamp head) (th_timestamp last)) as [Ht|]; [|done]. split; [lia|].
    destruct (log_root_inj L L') as [->|Hc]; [lia|congruence|left|right].
    + unfold extends. by rewrite firstn_all.
    + eapply collision_incl; [|done]. intros a. rewrite !elem_of_app. tauto.
  - destruct (Z.ltb_spec (th_tree_size head) (th_tree_size last)); [done|].
    destruct (Z.ltb_spec (th_timestamp head) (th_timestamp last)); [done|]. injection Hv as <-.
    split; [lia|]. apply map_err_Ok in Hrun. rewrite <- HL, <- HL', <- Hr, <- Hr' in *.
    by apply accepted_consistency_is_prefix; [lia|].
Qed.

(** C7: an accepted tree head extends the stored ones.  If
    [verify_full_tree_head] returns a head, it is the response's head with the
    given root; and for the logs behind a stored head and the new root, the
    stored log is a prefix of the new one and its timestamp is not newer, or
    two different strings hashed in the check or by the logs have the same
    SHA-256.  So a client is never moved to a fork of the log it has seen. *)
Theorem tree_head_extends config fth root last dist now head root' (base : LastTreeHead) proof L L' :
  verify_full_tree_head config fth root last dist now = Ok (head, root') ->
  (last = Some base /\ proof = fth_last fth \/ dist = Some base /\ proof = fth_distinguished fth) ->
  th_tree_size head <= MAX_LEAVES ->
  Z.of_nat (length L') = th_tree_size head -> log_root L' = root' ->
  Z.of_nat (length L) = th_tree_size base.1 -> log_root L = base.2 ->
  fth_tree_head fth = Some head /\ root' = root /\ th_timestamp base.1 <= th_timestamp head /\
  (extends L L' \/ collision (baseline_strings head base proof ++ log_strings L ++ log_strings L')).
Proof.
  unfold verify_full_tree_head.
  intros (h & Hh%ok_or_Ok & ([] & Hlast & ([] & Hdist & Hrest)%bind_Ok)%bind_Ok)%bind_Ok.
  assert (h = head /\ root = root') as [-> ->].
  { repeat (apply bind_Ok in Hrest as (? & _ & Hrest)). by injection Hrest. }
  intros Hbase Hmax HL' Hr' HL Hr. split_and!; [done|done|..];
    (destruct Hbase as [[-> ->]|[-> ->]];
     [eapply (check_consistency_sound head root' (fth_last fth))|eapply (check_consistency_sound head root' (fth_distinguished fth))]; done).
Qed.

(** What [key] signed: the head for [root], naming [auditor]. *)
Definition signed {T} `{VerifiableTreeHead T} (config : PublicConfig) (head : T) (root : Hash) (key auditor : VerifyingKey) : Prop :=
  exists buf sig signature,
    to_signable_header (E:=KtError) head root config (Some auditor) = Ok buf /\
    signature_bytes (E:=KtError) head = Ok sig /\ try_array 64 sig = Some signature /\
    ed25519_verify key buf signature = true.

Lemma verify_tree_head_signature_Ok {T} `{VerifiableTreeHead T} config (head : T) root key auditor :
  verify_tree_head_signature config head root key (Some auditor) = Ok tt <-> signed config head root key auditor.
Proof.
  unfold verify_tree_head_signature, signed. split.
  - intros (buf & Hb & (sig & Hs & (signature & Hsig%ok_or_Ok & Hv)%bind_Ok)%bind_Ok)%bind_Ok.
    exists buf, sig, signature. split_and!; try done. by destruct (ed25519_verify _ _ _).
  - intros (buf & sig & signature & Hb & Hs & Hsig & Hv). by rewrite Hb, Hs; cbn; rewrite Hsig; cbn; rewrite Hv.
Qed.

(** What an accepted auditor's head is. *)
Definition auditor_ok (config : PublicConfig) (head : TreeHead) (root : Hash) (now : Z) (auditor : VerifyingKey)
    (fath : FullAuditorTreeHead) : Prop :=
  exists ath root',
    fath_tree_head fath = Some ath /\ signed config ath root' auditor auditor /\
    verify_timestamp Validator (ath_timestamp ath) ALLOWED_AUDITOR_TIMESTAMP_RANGE now = Ok tt /\
    ath_tree_size ath <= th_tree_size head <= ath_tree_size ath + ENTRIES_MAX_BEHIND /\
    forall L L', Z.of_nat (length L') = th_tree_size head -> log_root L' = root ->
      Z.of_nat (length L) = ath_tree_size ath -> log_root L = root' ->
      extends L L' \/ exists proof, get_hash_proof (fath_consistency fath) = Ok proof /\
        collision (consistency_strings (ath_tree_size ath) (th_tree_size head) root' proof ++
                   log_strings L ++ log_strings L').

Lemma verify_auditor_head_Ok config head root now auditor fath :
  verify_auditor_head config head root now (auditor, fath) = Ok tt -> th_tree_size head <= MAX_LEAVES ->
  auditor_ok config head root now auditor fath.
Proof.
  unfold verify_auditor_head. intros (ath & Hath%ok_or_Ok & ([] & Hts & Hv)%bind_Ok)%bind_Ok Hmax.
  destruct (Z.ltb_spec (th_tree_size head) (ath_tree_size ath)) as [|Hle]; [done|].
  rewrite u64_sub_ok in Hv by lia. cbn [mbind outcome_bind] in Hv.
  destruct (Z.ltb_spec ENTRIES_MAX_BEHIND (th_tree_size head - ath_tree_size ath)) as [|Hb]; [done|].
  destruct (Z.ltb_spec (ath_tree_size ath) (th_tree_size head)) as [Hlt|Hge].
  - apply bind_Ok in Hv as (rb & _ & (r & _ & (pr & Hpr & ([] & Hc%map_err_Ok & Hsig)%bind_Ok)%bind_Ok)%bind_Ok).
    apply verify_tree_head_signature_Ok in Hsig. exists ath, r. split_and!; [done..|lia|lia|].
    intros L L' HL' <- HL <-. rewrite <- HL', <- HL in *.
    destruct (accepted_consistency_is_prefix L L' pr ltac:(lia) Hc) as [He|Hcol]; [by left|right]. by exists pr.
  - case_bool_decide as Hcons; [done|]. case_bool_decide as Hroot; [done|].
    apply verify_tree_head_signature_Ok in Hv. exists ath, root. split_and!; [done..|lia|lia|].
    intros L L' HL' Hr' HL Hr.
    destruct (log_root_inj L L') as [->|Hcol]; [lia|congruence|left; unfold extends; by rewrite firstn_all|right].
    exists []. rewrite Hcons. split; [done|].
    eapply collision_incl; [|done]. intros a. rewrite !elem_of_app. tauto.
Qed.

(** What an accepted tree head is signed by.  For every auditor key of the
    configuration the service signed this very root, size and timestamp; with
    third-party auditing every auditor itself signed a recent head that is at
    most ten million entries behind and whose log is a prefix of the new one,
    or two strings hashed in the check collide. *)
Theorem tree_head_signed config fth root last dist now head :
  verify_full_tree_head config fth root last dist now = Ok head -> th_tree_size head.1 <= MAX_LEAVES ->
  Forall (fun auditor => exists sig, sig ∈ th_signatures head.1 /\
            sig_auditor_public_key sig = arr (vk_bytes auditor) /\
            signed config (mkSingle (mkTreeHead (th_tree_size head.1) (th_timestamp head.1) [sig]))
              root (signature_key config) auditor)
    (get_associated_keys (mode config)) /\
  match mode config with
  | ThirdPartyAuditing keys =>
      Forall (fun auditor => exists fath, fath ∈ fth_full_auditor_tree_heads fth /\
                fath_public_key fath = arr (vk_bytes auditor) /\
                auditor_ok config head.1 root now auditor fath) keys
  | _ => True
  end.
Proof.
  unfold verify_full_tree_head, to_single_signature_tree_heads, auditor_tree_heads, find_matching.
  intros (h & _ & ([] & _ & ([] & _ & Hrest)%bind_Ok)%bind_Ok)%bind_Ok.
  destruct (negb _) in Hrest; [done|]. cbn [mbind outcome_bind] in Hrest.
  apply bind_Ok in Hrest as (heads & Hheads%ok_or_Ok%match_all_Some & ([] & Hsigs%for_each_Ok & ([] & _ & ([] & Haud & [= <-])%bind_Ok)%bind_Ok)%bind_Ok).
  cbn [fst]. intros Hmax. split.
  - apply Forall_forall. intros auditor [i Hi]%list_elem_of_lookup.
    destruct (Forall2_lookup_l _ _ _ _ _ Hheads Hi) as (c & Hc & sig & Hin & Heq%bool_decide_eq_true & ->).
    apply list_elem_of_lookup_2 in Hc. exists sig. split_and!; [done..|].
    apply verify_tree_head_signature_Ok. exact (proj1 (Forall_forall _ _) Hsigs _ Hc).
  - destruct (mode config) as [|keys|keys]; [done..|]. destruct (negb _) in Haud; [done|].
    cbn [mbind outcome_bind] in Haud.
    apply bind_Ok in Haud as (pairs & Hpairs%ok_or_Ok%match_all_Some & Hall%for_each_Ok).
    apply Forall_forall. intros auditor [i Hi]%list_elem_of_lookup.
    destruct (Forall2_lookup_l _ _ _ _ _ Hpairs Hi) as (c & Hc & fath & Hin & Heq%bool_decide_eq_true & ->).
    apply list_elem_of_lookup_2 in Hc. exists fath. split_and!; [done..|].
    apply verify_auditor_head_Ok; [|done]. exact (proj1 (Forall_forall _ _) Hall _ Hc).
Qed.

(** In contact monitoring mode no signature is checked: there is no auditor
    key to go through, so any head that is consistent and recent is accepted,
    whatever signatures it carries. *)
Theorem contact_monitoring_unsigned config fth root last dist now h sigs :
  mode config = ContactMonitoring -> fth_tree_head fth = Some h ->
  let unsigned := mkTreeHead (th_tree_size h) (th_timestamp h) sigs in
  is_ok (verify_full_tree_head config fth root last dist now) ->
  verify_full_tree_head config
    (mkFullTreeHead (Some unsigned) (fth_last fth) (fth_distinguished fth) (fth_full_auditor_tree_heads fth))
    root last dist now = Ok (unsigned, root).
Proof.
  intros Hmode Hh unsigned [head Hok]. revert Hok.
  unfold verify_full_tree_head, to_single_signature_tree_heads, find_matching. rewrite Hmode, Hh. cbn -[check_consistency verify_timestamp].
  intros ([] & Hl & ([] & Hd & ([] & Ht & _)%bind_Ok)%bind_Ok)%bind_Ok.
  assert (forall p b, check_consistency (unsigned, root) p b = check_consistency (h, root) p b) as Hsame by done.
  fold unsigned. rewrite !Hsame, Hl, Hd. cbn -[verify_timestamp]. by rewrite Ht.
Qed.
End tree_heads.
