(* ===== verification/KtMonitor.v ===== *)
(** * KtMonitor: the monitoring data of a search key
    (rust/keytrans/src/lib.rs [MonitoringData]; verify.rs
    [MonitoringDataWrapper], [VersionExtractor], [into_sorted_pairs])

    A client keeps, for each key it monitors, log positions with the version it
    observed there.  [update] moves them up the monitoring path;
    [check_search_consistency] compares a search result with them.  Section
    [update] shows what happens to each stored position: it moves to an
    ancestor on its right or stays, and its version never decreases. *)

From stdpp Require Import sorting.
From S2P Require Import Prelude Types Primitives KtTree KtImplicit KtLog KtPrefix KtVrf KtTypes KtTreeHead.
Open Scope string_scope.
Open Scope list_scope.
Open Scope Z_scope.

(** The order in which a [HashMap] is iterated over is unspecified. *)
Class HashIter := {
  hash_iter : forall {A}, gmap Z A -> list (Z * A);
  hash_iter_perm : forall {A} (m : gmap Z A), hash_iter m ≡ₚ map_to_list m
}.

Record MonitoringData := mkMonitoringData {
  md_index : array 32;
  md_pos : Z;
  md_ptrs : gmap Z Z;
  md_owned : bool
}.
Definition set_ptrs (ptrs : gmap Z Z) (d : MonitoringData) : MonitoringData :=
  mkMonitoringData (md_index d) (md_pos d) ptrs (md_owned d).
Definition set_owned (owned : bool) (d : MonitoringData) : MonitoringData :=
  mkMonitoringData (md_index d) (md_pos d) (md_ptrs d) owned.

(** [iter().max()]. *)
Definition maximum (l : list Z) : option Z :=
  match l with [] => None | x :: l => Some (fold_left Z.max l x) end.

(** ** The wrapper *)

Definition MonitoringDataWrapper : Type := option MonitoringData.

Definition start_monitoring (index : array 32) (zero_pos ver_pos version : Z) (owned : bool)
    (inner : MonitoringDataWrapper) : MonitoringDataWrapper :=
  match inner with
  | None => Some (mkMonitoringData index zero_pos {[ver_pos := version]} owned)
  | Some _ => inner
  end.

Definition low_version : KtError := VerificationFailed "prefix tree has unexpectedly low version counter".

(** [find_map(|x| data.ptrs.get(&x))]. *)
Fixpoint find_ptr (path : list (outcome KtError Z)) (ptrs : gmap Z Z) : outcome KtError (option Z) :=
  match path with
  | [] => Ok None
  | x :: path => x ← x; match ptrs !! x with Some ver => Ok (Some ver) | None => find_ptr path ptrs end
  end.

Definition check_search_consistency (tree_size : Z) (index : array 32) (zero_pos ver_pos version : Z) (owned : bool)
    (inner : MonitoringDataWrapper) : outcome KtError MonitoringDataWrapper :=
  match inner with
  | None => Ok None
  | Some data =>
      if negb (bool_decide (index = md_index data)) then
        Err (VerificationFailed "given search key index does not match database")
      else if negb (zero_pos =? md_pos data) then
        Err (VerificationFailed "given search start position does not match database")
      else
        data ← (match md_ptrs data !! ver_pos with
                | Some ver =>
                    if negb (ver =? version)
                    then Err (VerificationFailed "different versions of key recorded at same position")
                    else Ok data
                | None =>
                    path ← monitoring_path ver_pos zero_pos tree_size;
                    found ← find_ptr path (md_ptrs data);
                    match found with
                    | Some ver => if ver <? version then Err low_version else Ok data
                    | None => Ok (set_ptrs (<[ver_pos := version]> (md_ptrs data)) data)
                    end
                end);
        Ok (Some (if negb (md_owned data) && owned then set_owned true data else data))
  end.

(** [VersionExtractor::get]. *)
Definition VersionExtractor_get (steps : gmap Z ProofStep) (key : Z) : outcome KtError (option Z) :=
  match steps !! key with
  | None => Ok None
  | Some step => prefix ← get_proto_field (ps_prefix step) "prefix"; Ok (Some (pp_counter prefix))
  end.

(** The loop up the monitoring path. *)
Fixpoint bubble_up (path : list (outcome KtError Z)) (get_version : Z -> outcome KtError (option Z))
    (stored_ver : Z) (updated : option (Z * Z)) : outcome KtError (option (Z * Z)) :=
  match path with
  | [] => Ok updated
  | pos :: path =>
      pos ← pos;
      v ← get_version pos;
      match v with
      | None => Ok updated
      | Some new_version =>
          if new_version <? stored_ver then Err low_version
          else bubble_up path get_version stored_ver (Some (pos, new_version))
      end
  end.
Definition find_updated_mapping (stored : Z * Z) (first_pos tree_size : Z)
    (get_version : Z -> outcome KtError (option Z)) : outcome KtError (option (Z * Z)) :=
  path ← monitoring_path stored.1 first_pos tree_size;
  bubble_up path get_version stored.2 None.

(** One turn of [collect_ensuring_consistency]. *)
Definition collect_mapping (out : gmap Z Z) (mapping : Z * Z) : outcome KtError (gmap Z Z) :=
  match out !! mapping.1 with
  | Some existing => if negb (mapping.2 =? existing)
                     then Err (VerificationFailed "inconsistent versions found") else Ok out
  | None => Ok (<[mapping.1 := mapping.2]> out)
  end.

(** [collect_ensuring_consistency] over [process_results]: the first failing
    mapping ends the loop with its error. *)
Fixpoint collect_ensuring_consistency (out : gmap Z Z) (mappings : list (outcome KtError (Z * Z)))
  : outcome KtError (gmap Z Z) :=
  match mappings with
  | [] => Ok out
  | m :: mappings => m ← m; out ← collect_mapping out m; collect_ensuring_consistency out mappings
  end.

Section wrapper.
Context {HI : HashIter}.

Definition update (tree_size : Z) (entries : gmap Z ProofStep) (inner : MonitoringDataWrapper)
  : outcome KtError MonitoringDataWrapper :=
  match inner with
  | None => Ok None
  | Some data =>
      ptrs ← collect_ensuring_consistency ∅
        ((fun p => default p <$> find_updated_mapping p (md_pos data) tree_size (VersionExtractor_get entries))
           <$> hash_iter (md_ptrs data));
      Ok (Some (set_ptrs ptrs data))
  end.

Definition into_sorted_pairs {V} (map : gmap Z V) : list Z * list V :=
  let pairs := sort_by_key fst (hash_iter map) in (pairs.*1, pairs.*2).

(** ** [MonitoringData] *)

Definition entries (d : MonitoringData) : list Z := sort_by_key id (hash_iter (md_ptrs d)).*1.
Definition MonitoringData_next_monitor {E} (d : MonitoringData) : outcome E Z := next_monitor (entries d).
Definition latest_log_position {E} (d : MonitoringData) : outcome E Z := expect (maximum (hash_iter (md_ptrs d)).*1).
Definition greatest_version {E} (d : MonitoringData) : outcome E Z := expect (maximum (hash_iter (md_ptrs d)).*2).
End wrapper.

(** ** Stored forms (proto/store.proto) *)

Record StoredMonitoringData := mkStoredMonitoringData {
  smd_index : bytes; smd_pos : Z; smd_ptrs : gmap Z Z; smd_owned : bool }.
Definition StoredMonitoringData_from (d : MonitoringData) : StoredMonitoringData :=
  mkStoredMonitoringData (arr (md_index d)) (md_pos d) (md_ptrs d) (md_owned d).
Definition MonitoringData_from {E} (s : StoredMonitoringData) : outcome E MonitoringData :=
  index ← expect (try_array 32 (smd_index s));
  Ok (mkMonitoringData index (smd_pos s) (smd_ptrs s) (smd_owned s)).

Record StoredAccountData := mkStoredAccountData {
  sad_aci : option StoredMonitoringData;
  sad_e164 : option StoredMonitoringData;
  sad_username_hash : option StoredMonitoringData;
  sad_last_tree_head : option StoredTreeHead }.
Record AccountData := mkAccountData {
  ad_aci : MonitoringData;
  ad_e164 : option MonitoringData;
  ad_username_hash : option MonitoringData;
  ad_last_tree_head : LastTreeHead }.

(** [o.map(f)] for an [f] that can panic. *)
Definition map_opt {E A B} (f : A -> outcome E B) (o : option A) : outcome E (option B) :=
  match o with Some a => b ← f a; Ok (Some b) | None => Ok None end.

Definition AccountData_try_from (stored : StoredAccountData) : outcome KtError AccountData :=
  last_tree_head ← ok_or (RequiredFieldMissing "last_tree_head") (sad_last_tree_head stored);
  aci ← map_opt MonitoringData_from (sad_aci stored);
  aci ← ok_or (RequiredFieldMissing "aci") aci;
  e164 ← map_opt MonitoringData_from (sad_e164 stored);
  username_hash ← map_opt MonitoringData_from (sad_username_hash stored);
  last_tree_head ← expect (into_last_tree_head last_tree_head);
  Ok (mkAccountData aci e164 username_hash last_tree_head).
Definition StoredAccountData_from (acc : AccountData) : StoredAccountData :=
  mkStoredAccountData (Some (StoredMonitoringData_from (ad_aci acc)))
    (StoredMonitoringData_from <$> ad_e164 acc)
    (StoredMonitoringData_from <$> ad_username_hash acc)
    (Some (StoredTreeHead_from (ad_last_tree_head acc))).

Lemma MonitoringData_round_trip {E} d : @MonitoringData_from E (StoredMonitoringData_from d) = Ok d.
Proof. unfold MonitoringData_from, StoredMonitoringData_from. cbn. rewrite try_array_arr. by destruct d. Qed.

(** Stored account data reads back: converting account data to its stored
    form and back gives the same data. *)
Theorem account_data_round_trip acc : AccountData_try_from (StoredAccountData_from acc) = Ok acc.
Proof.
  destruct acc as [aci e164 uh [head root]]. unfold AccountData_try_from, StoredAccountData_from.
  cbn -[MonitoringData_from]. rewrite MonitoringData_round_trip. cbn -[MonitoringData_from].
  assert (forall o, @map_opt KtError _ _ MonitoringData_from (StoredMonitoringData_from <$> o) = Ok o) as Hopt.
  { intros [d|]; [|done]. cbn -[MonitoringData_from]. by rewrite MonitoringData_round_trip. }
  cbn -[MonitoringData_from] in Hopt. rewrite (Hopt e164). cbn -[MonitoringData_from]. rewrite (Hopt uh).
  cbn. unfold into_last_tree_head. cbn. by rewrite try_array_arr.
Qed.

(** ** Updating *)

Section update.
Context {HI : HashIter}.
Implicit Types (pos ver n : Z) (get_version : Z -> outcome KtError (option Z)).

Lemma bubble_up_spec path get_version ver upd r :
  bubble_up (Ok <$> path) get_version ver upd = Ok r ->
  r = upd \/ exists p v, r = Some (p, v) /\ p ∈ path /\ get_version p = Ok (Some v) /\ ver <= v.
Proof.
  revert upd. induction path as [|p path IH]; intros upd; cbn [fmap list_fmap bubble_up]; [intros [= ->]; by left|].
  intros (? & [= <-] & (v & Hv & Hr)%bind_Ok)%bind_Ok. destruct v as [v|]; [|injection Hr as ->; by left].
  destruct (Z.ltb_spec v ver); [done|]. right.
  destruct (IH _ Hr) as [->|(p' & v' & -> & Hp & Hg & Hle)].
  - exists p, v. split_and!; [done|left|done|lia].
  - exists p', v'. split_and!; [done|by right|done|lia].
Qed.

(** What becomes of an observed version [v] at position [p]. *)
Definition moves n (entries : gmap Z ProofStep) (m m' : Z * Z) : Prop :=
  m' = m \/ m.1 < m'.1 < n /\ ancestor m'.1 m.1 /\ m.2 <= m'.2 /\
           VersionExtractor_get entries m'.1 = Ok (Some m'.2).

Lemma find_updated_mapping_spec n entries first m r :
  0 <= first <= m.1 -> m.1 < n -> n <= u64_max ->
  find_updated_mapping m first n (VersionExtractor_get entries) = Ok r -> moves n entries m (default m r).
Proof.
  intros Hf Hm Hn. unfold find_updated_mapping.
  destruct (@monitoring_path_spec KtError m.1 first n Hf Hm Hn) as (l & -> & _ & Hmem). cbn [mbind outcome_bind].
  intros [->|(p & v & -> & Hp & Hg & Hv)]%bubble_up_spec; [by left|right]. cbn. apply Hmem in Hp as [? ?].
  split_and!; done || lia.
Qed.

Lemma find_updated_mapping_total n entries first m :
  0 <= first <= m.1 -> m.1 < n -> n <= u64_max ->
  find_updated_mapping m first n (VersionExtractor_get entries) <> Panic.
Proof.
  intros Hf Hm Hn. unfold find_updated_mapping.
  destruct (@monitoring_path_spec KtError m.1 first n Hf Hm Hn) as (l & -> & _ & _). cbn [mbind outcome_bind].
  assert (forall p, VersionExtractor_get entries p <> Panic) as Hget.
  { intros p. unfold VersionExtractor_get. destruct (entries !! p) as [[[pr|] c]|]; done. }
  generalize (None : option (Z * Z)). induction l as [|p l IH]; intros u; [done|]. cbn [fmap list_fmap bubble_up mbind outcome_bind].
  specialize (Hget p). destruct (VersionExtractor_get entries p) as [[v|]|e|]; try done. cbn.
  destruct (_ <? _); [done|]. apply IH.
Qed.

Lemma collect_spec out mappings out' :
  collect_ensuring_consistency out mappings = Ok out' ->
  out ⊆ out' /\
  (forall m, m ∈ mappings -> exists p v, m = Ok (p, v) /\ out' !! p = Some v) /\
  (forall p v, out' !! p = Some v -> out !! p = Some v \/ Ok (p, v) ∈ mappings).
Proof.
  revert out. induction mappings as [|m mappings IH]; intros out; cbn [collect_ensuring_consistency].
  - intros [= ->]. split_and!; [done|by intros m ?%not_elem_of_nil|by left].
  - intros ([p v] & -> & (out1 & Hc & Hr)%bind_Ok)%bind_Ok. destruct (IH _ Hr) as (Hsub & Hall & Hback).
    unfold collect_mapping in Hc. cbn [fst snd] in Hc. destruct (out !! p) as [w|] eqn:Hp.
    + destruct (Z.eqb_spec v w) as [->|]; [|done]. injection Hc as <-. split_and!; [done| |].
      * intros m' [->|Hm]%elem_of_cons; [|by apply Hall]. exists p, w. split; [done|]. by eapply lookup_weaken.
      * intros p' v' Hp'. destruct (Hback _ _ Hp'); [by left|right; by right].
    + injection Hc as <-. split_and!.
      * etrans; [by apply insert_subseteq|done].
      * intros m' [->|Hm]%elem_of_cons; [|by apply Hall]. exists p, v. split; [done|].
        eapply lookup_weaken; [apply lookup_insert_eq|done].
      * intros p' v' Hp'. destruct (Hback _ _ Hp') as [Ho|?]; [|right; by right].
        apply lookup_insert_Some in Ho as [[<- <-]|[_ Ho]]; [right; left|by left].
Qed.

Lemma collect_total out mappings :
  (forall m, m ∈ mappings -> m <> Panic) -> collect_ensuring_consistency out mappings <> Panic.
Proof.
  revert out. induction mappings as [|m mappings IH]; intros out Hm; [done|]. cbn [collect_ensuring_consistency].
  pose proof (Hm m ltac:(left)). destruct m as [m|e|]; try done. cbn [mbind outcome_bind]. unfold collect_mapping.
  assert (forall o, collect_ensuring_consistency o mappings <> Panic) as Hrest by (intros o; apply IH; intros m' ?; apply Hm; by right).
  destruct (out !! m.1); [destruct (negb _)|]; cbn; done || apply Hrest.
Qed.

Lemma elem_of_hash_iter {A} (m : gmap Z A) p v : (p, v) ∈ hash_iter m <-> m !! p = Some v.
Proof. rewrite hash_iter_perm. apply elem_of_map_to_list. Qed.

(** Monitoring data of a tree with [n] entries. *)
Definition data_ok n (d : MonitoringData) : Prop :=
  0 <= md_pos d /\ forall p v, md_ptrs d !! p = Some v -> md_pos d <= p < n.

(** What it does: *)
Definition updates n entries (d d' : MonitoringData) : Prop :=
  md_index d' = md_index d /\ md_pos d' = md_pos d /\ md_owned d' = md_owned d /\ data_ok n d' /\
  (forall p v, md_ptrs d !! p = Some v -> exists p' v', md_ptrs d' !! p' = Some v' /\ moves n entries (p, v) (p', v')) /\
  (forall p' v', md_ptrs d' !! p' = Some v' -> exists p v, md_ptrs d !! p = Some v /\ moves n entries (p, v) (p', v')).

Lemma update_updates n entries d :
  data_ok n d -> n <= u64_max ->
  update n entries (Some d) <> Panic /\ forall d', update n entries (Some d) = Ok (Some d') -> updates n entries d d'.
Proof.
  intros [Hpos Hptrs] Hn. unfold update.
  set (f := fun p : Z * Z => default p <$> find_updated_mapping p (md_pos d) n (VersionExtractor_get entries)).
  assert (forall p v, md_ptrs d !! p = Some v -> f (p, v) <> Panic) as Htotal.
  { intros p v Hp. specialize (Hptrs p v Hp).
    pose proof (find_updated_mapping_total n entries (md_pos d) (p, v)) as Ht. cbn in Ht. unfold f.
    destruct (find_updated_mapping _ _ _ _); try done. exfalso. apply Ht; [lia|lia|done|done]. }
  assert (forall p v m, md_ptrs d !! p = Some v -> f (p, v) = Ok m -> moves n entries (p, v) m) as Hmoves.
  { intros p v m Hp Hf. specialize (Hptrs p v Hp). unfold f in Hf.
    destruct (find_updated_mapping _ _ _ _) as [r|?|] eqn:E; try done. injection Hf as <-.
    eapply (find_updated_mapping_spec n entries (md_pos d) (p, v)); cbn; [lia|lia|done|done]. }
  split.
  - pose proof (collect_total ∅ (f <$> hash_iter (md_ptrs d))) as Ht.
    destruct (collect_ensuring_consistency _ _); try done. exfalso. apply Ht; [|done].
    intros m ([p v] & -> & Hin)%list_elem_of_fmap. by apply Htotal, elem_of_hash_iter.
  - intros d' (ptrs & Hc & [= <-])%bind_Ok. apply collect_spec in Hc as (_ & Hall & Hback). unfold updates. cbn.
    assert (forall p' v', ptrs !! p' = Some v' -> exists p v, md_ptrs d !! p = Some v /\ moves n entries (p, v) (p', v')) as Hb.
    { intros p' v' Hp'. destruct (Hback _ _ Hp') as [Ho|Hin]; [by rewrite lookup_empty in Ho|].
      apply list_elem_of_fmap in Hin as ([p v] & Hf & Hin%elem_of_hash_iter). exists p, v. split; [done|]. by apply Hmoves. }
    split_and!; try done.
    + split; [done|]. intros p' v' (p & v & Hp & [[= -> ->]|[? _]])%Hb; [by eapply Hptrs|]. specialize (Hptrs p v Hp). cbn in *. lia.
    + intros p v Hp. destruct (Hall (f (p, v))) as (p' & v' & Hf & Hp').
      { apply list_elem_of_fmap. exists (p, v). split; [done|]. by apply elem_of_hash_iter. }
      exists p', v'. split; [done|]. by apply Hmoves.
Qed.

(** C36: what [update] does to monitoring data.  Over a tree of which all stored
    positions are entries it never panics; when it succeeds, every stored
    position stays with its version or moves to an ancestor on its right, inside
    the tree, with the version that a proof step reports there, which is not
    lower; and there are no other positions than these. *)
Theorem update_moves n entries d :
  data_ok n d -> n <= u64_max ->
  update n entries (Some d) <> Panic /\
  forall d', update n entries (Some d) = Ok (Some d') ->
    md_index d' = md_index d /\ md_pos d' = md_pos d /\ md_owned d' = md_owned d /\ data_ok n d' /\
    (forall p v, md_ptrs d !! p = Some v -> exists p' v', md_ptrs d' !! p' = Some v' /\ moves n entries (p, v) (p', v')) /\
    (forall p' v', md_ptrs d' !! p' = Some v' -> exists p v, md_ptrs d !! p = Some v /\ moves n entries (p, v) (p', v')).
Proof. apply update_updates. Qed.

Lemma maximum_Some (l : list Z) x : maximum l = Some x <-> x ∈ l /\ forall y, y ∈ l -> y <= x.
Proof.
  assert (forall (l : list Z) a, (fold_left Z.max l a ∈ a :: l) /\ forall y, y ∈ a :: l -> y <= fold_left Z.max l a) as Hf.
  { clear. induction l as [|b l IH]; intros a; cbn.
    - split; [left|]. intros y ->%list_elem_of_singleton. lia.
    - destruct (IH (Z.max a b)) as [H1 H2]. split.
      + apply elem_of_cons in H1 as [H1|H1]; [|by do 2 right]. rewrite H1.
        destruct (Z.max_spec a b) as [[_ ->]|[_ ->]]; [right|]; left.
      + intros y Hy. pose proof (H2 (Z.max a b) ltac:(left)) as Hab.
        apply elem_of_cons in Hy as [->|[->|Hy]%elem_of_cons]; [lia..|]. apply H2. by right. }
  destruct l as [|a l]; cbn; [split; [done|by intros [?%not_elem_of_nil _]]|].
  destruct (Hf l a) as [H1 H2]. split.
  - intros [= <-]. done.
  - intros [Hx Hy]. f_equal. specialize (Hy _ H1). specialize (H2 _ Hx). lia.
Qed.

(** Monitoring never forgets a version: after a successful [update] the
    greatest version on record is not lower, and neither is the position that
    is furthest along the log. *)
Theorem update_monotone n entries d d' v p :
  data_ok n d -> n <= u64_max -> update n entries (Some d) = Ok (Some d') ->
  @greatest_version _ KtError d = Ok v -> @latest_log_position _ KtError d = Ok p ->
  exists v' p', @greatest_version _ KtError d' = Ok v' /\ @latest_log_position _ KtError d' = Ok p' /\ v <= v' /\ p <= p'.
Proof.
  intros Hok Hn Hup. unfold greatest_version, latest_log_position.
  rewrite !expect_Ok, !maximum_Some. intros [([p1 w1] & -> & Hin1)%list_elem_of_fmap _] [([p2 w2] & -> & Hin2)%list_elem_of_fmap _].
  apply elem_of_hash_iter in Hin1, Hin2. cbn [fst snd].
  destruct (update_updates n entries d Hok Hn) as [_ Hm]. destruct (Hm d' Hup) as (_ & _ & _ & _ & Hfwd & _). clear Hm.
  destruct (Hfwd _ _ Hin1) as (q1 & x1 & Hq1 & Hm1), (Hfwd _ _ Hin2) as (q2 & x2 & Hq2 & Hm2).
  apply elem_of_hash_iter in Hq1, Hq2.
  destruct (hash_iter (md_ptrs d')) as [|h t] eqn:Eh; [by apply not_elem_of_nil in Hq1|]. rewrite <- Eh in *.
  assert (exists v', maximum (hash_iter (md_ptrs d')).*2 = Some v') as [v' Hv'] by (rewrite Eh; by eexists).
  assert (exists p', maximum (hash_iter (md_ptrs d')).*1 = Some p') as [p' Hp'] by (rewrite Eh; by eexists).
  exists v', p'. rewrite Hv', Hp'. split; [done|]. split; [done|].
  apply maximum_Some in Hv' as [_ Hv'], Hp' as [_ Hp'].
  specialize (Hv' x1). specialize (Hp' q2). unfold moves in *. cbn in *. split.
  - transitivity x1; [destruct Hm1 as [[= -> ->]|(_ & _ & ? & _)]; lia|]. apply Hv', list_elem_of_fmap. by exists (q1, x1).
  - transitivity q2; [destruct Hm2 as [[= -> ->]|(? & _)]; lia|]. apply Hp', list_elem_of_fmap. by exists (q2, x2).
Qed.
End update.
