(* ===== verification/KtVerify.v ===== *)
(** * KtVerify: verifying search and monitoring responses
    (rust/keytrans/src/verify.rs, second half; the API of lib.rs)

    [verify_search_internal] follows the binary search of KtGuide over the proof
    steps of the response, hashes them into log leaves, computes the root from
    the inclusion proof and has KtTreeHead check it; [verify_monitor] does the
    same with the monitoring paths of several keys. *)

From S2P Require Import Prelude Types Primitives KtTree KtImplicit KtGuide KtLog KtMerkle KtPrefix KtVrf KtTypes KtTreeHead KtMonitor.
Open Scope string_scope.
Open Scope list_scope.
Open Scope Z_scope.

Definition KtError_from_guide (e : InvalidState) : KtError :=
  VerificationFailed "Set of counters is not monotonic".

(** ** Contexts, requests and results *)

Record SearchContext := mkSearchContext {
  sc_last_tree_head : option LastTreeHead;
  sc_last_distinguished_tree_head : option LastTreeHead;
  sc_data : option MonitoringData }.
Record MonitorContext := mkMonitorContext {
  mc_last_tree_head : option LastTreeHead;
  mc_last_distinguished_tree_head : LastTreeHead;
  mc_data : gmap bytes MonitoringData }.
Record SlimSearchRequest := mkSlimSearchRequest { sr_search_key : bytes; sr_request_version : option Z }.
Definition SlimSearchRequest_new (search_key : bytes) : SlimSearchRequest := mkSlimSearchRequest search_key None.
Record FullSearchResponse := mkFullSearchResponse {
  fsr_condensed : CondensedTreeSearchResponse; fsr_tree_head : FullTreeHead }.
Record LocalStateUpdate (T : Type) := mkLocalStateUpdate {
  lsu_tree_head : TreeHead; lsu_tree_root : Hash; lsu_monitoring_data : T }.
Arguments mkLocalStateUpdate {T}.
Arguments lsu_tree_head {T}.
Arguments lsu_tree_root {T}.
Arguments lsu_monitoring_data {T}.
Record VerifiedSearchResult := mkVerifiedSearchResult {
  vsr_value : bytes; vsr_state_update : LocalStateUpdate (option MonitoringData) }.

Definition are_all_roots_equal (self : VerifiedSearchResult) (tail : list (option VerifiedSearchResult)) : bool :=
  fold_left (fun all other => all &&
      bool_decide (lsu_tree_root (vsr_state_update self) = lsu_tree_root (vsr_state_update other)))
    (omap id tail) true.

Definition DISTINGUISHED : bytes :=
  [Byte.x64; Byte.x69; Byte.x73; Byte.x74; Byte.x69; Byte.x6e; Byte.x67; Byte.x75; Byte.x69; Byte.x73; Byte.x68;
   Byte.x65; Byte.x64].

Definition marshal_update_value (value : bytes) : outcome KtError bytes :=
  let len := Z.of_nat (length value) in
  if negb (len <? 2 ^ 32) then Err (BadData "value too long to be encoded")
  else Ok (be_bytes 4 len ++ value).

Section verify.
Context {P : Primitives} {VP : VrfPrimitives} {Ed : Ed25519} `{Sha256} {HI : HashIter}.

Definition log_leaf_string (prefix_root commitment : array 32) : bytes := arr prefix_root ++ arr commitment.
Definition log_leaf_hash (prefix_root commitment : array 32) : Hash :=
  sha256 (log_leaf_string prefix_root commitment).

Definition evaluate_vrf_proof (proof : bytes) (vrf_key : VrfPublicKey) (search_key : bytes) : outcome KtError (array 32) :=
  proof ← map_err KtError_from_prefix (ok_or MkMalformedProof (try_array 80 proof));
  map_err KtError_from_vrf (proof_to_hash vrf_key search_key proof).

(** The leaf of a proof step: the prefix root it gives, with its commitment. *)
Definition step_leaf (index : array 32) (pos : Z) (prefix_proof : PrefixProof) (step : ProofStep) : outcome KtError Hash :=
  prefix_root ← map_err KtError_from_prefix (evaluate index pos prefix_proof);
  commitment ← map_err KtError_from_prefix (ok_or MkMalformedProof (try_array 32 (ps_commitment step)));
  Ok (log_leaf_hash prefix_root commitment).

(** ** Search *)

(** What the closure of [consume] captures: the number of steps used, and the
    leaf and the step at each position. *)
Record SearchState := mkSearchState { ss_i : nat; ss_leaves : gmap Z Hash; ss_steps : gmap Z ProofStep }.

Definition search_step (index : array 32) (search_proof : SearchProof) (next_id : Z)
  : M (ProofGuide * SearchState) KtError unit :=
  i ← gets (fun s => ss_i s.2);
  step ← lift (ok_or (VerificationFailed "unexpected number of steps in search proof") (sp_steps search_proof !! i));
  prefix_proof ← lift (get_proto_field (ps_prefix step) "prefix");
  _ ← modify (fun s => (ProofGuide_insert next_id (pp_counter prefix_proof) s.1, s.2));
  leaf ← lift (step_leaf index (sp_pos search_proof) prefix_proof step);
  modify (fun s => (s.1, mkSearchState (S i) (<[next_id := leaf]> (ss_leaves s.2)) (<[next_id := step]> (ss_steps s.2)))).

(** The binary search over the proof: the result and what was collected. *)
Definition run_search (index : array 32) (version : option Z) (search_proof : SearchProof) (tree_size : Z)
  : outcome KtError (option (nat * Z) * SearchState) :=
  guide ← map_err KtError_from_guide (ProofGuide_new version (sp_pos search_proof) tree_size);
  run_local (mkSearchState 0 ∅ ∅) (consume KtError_from_guide (search_step index search_proof) guide).

Definition inclusion_root (leaves : gmap Z Hash) (tree_size : Z) (inclusion : list bytes) : outcome KtError Hash :=
  inclusion_proof ← get_hash_proof inclusion;
  let '(ids, values) := into_sorted_pairs leaves in
  map_err KtError_from_log (evaluate_batch_proof ids tree_size values inclusion_proof).

Definition verify_opening (search_key : bytes) (step : ProofStep) (value opening : bytes) : outcome KtError unit :=
  value ← marshal_update_value value;
  opening ← ok_or (VerificationFailed "malformed opening") (try_array 16 opening);
  opens ← commitments_verify search_key (ps_commitment step) value opening;
  if negb opens then Err (VerificationFailed "failed to verify commitment opening") else Ok tt.

(** The monitoring data after a search that found [ver] at [result_id]. *)
Definition update_after_search (config : PublicConfig) (monitor : bool) (size : Z) (index : array 32)
    (pos result_id ver : Z) (steps : gmap Z ProofStep) (data : option MonitoringData)
  : outcome KtError (option MonitoringData) :=
  let mdw := if monitor || negb (has_associated_keys (mode config))
             then start_monitoring index pos result_id ver monitor data else data in
  mdw ← check_search_consistency size index pos result_id ver monitor mdw;
  update size steps mdw.

Definition verify_search_internal (config : PublicConfig) (req : SlimSearchRequest) (res : FullSearchResponse)
    (context : SearchContext) (monitor : bool) (now : Z) : outcome KtError (LocalStateUpdate (option MonitoringData)) :=
  let search_key := sr_search_key req in
  let full_tree_head := fsr_tree_head res in
  index ← evaluate_vrf_proof (cr_vrf_proof (fsr_condensed res)) (vrf_key config) search_key;
  tree_head ← get_proto_field (fth_tree_head full_tree_head) "tree_head";
  let tree_size := th_tree_size tree_head in
  search_proof ← get_proto_field (cr_search (fsr_condensed res)) "search";
  '(result, st) ← run_search index (sr_request_version req) search_proof tree_size;
  if negb (ss_i st =? length (sp_steps search_proof))%nat then
    Err (VerificationFailed "unexpected number of steps in search proof")
  else
    root ← inclusion_root (ss_leaves st) tree_size (sp_inclusion search_proof);
    '(result_i, result_id) ← ok_or (VerificationFailed "failed to find expected version of key") result;
    result_step ← expect (sp_steps search_proof !! result_i);
    value ← get_proto_field (cr_value (fsr_condensed res)) "value";
    _ ← verify_opening search_key result_step value (cr_opening (fsr_condensed res));
    updated_tree_head ← verify_full_tree_head config full_tree_head root
      (sc_last_tree_head context) (sc_last_distinguished_tree_head context) now;
    size ← (if bool_decide (search_key = DISTINGUISHED) then u64_add result_id 1 else Ok tree_size);
    prefix ← get_proto_field (ps_prefix result_step) "prefix";
    data ← update_after_search config monitor size index (sp_pos search_proof) result_id (pp_counter prefix)
             (ss_steps st) (sc_data context);
    Ok (mkLocalStateUpdate updated_tree_head.1 updated_tree_head.2 data).

(** [KeyTransparency::verify_search]. *)
Definition verify_search (config : PublicConfig) (request : SlimSearchRequest) (response : FullSearchResponse)
    (context : SearchContext) (force_monitor : bool) (now : Z) : outcome KtError VerifiedSearchResult :=
  let unverified_value := cr_value (fsr_condensed response) in
  state_update ← verify_search_internal config request response context force_monitor now;
  verified_value ← ok_or (RequiredFieldMissing "update value") unverified_value;
  Ok (mkVerifiedSearchResult verified_value state_update).

(** ** Monitoring *)

Record MonitorProofAcc := mkMonitorProofAcc {
  mpa_tree_size : Z; mpa_leaves : gmap Z Hash; mpa_entries : list (gmap Z ProofStep) }.

(** The loop over the proof steps of one key. *)
Fixpoint process_steps (data : MonitoringData) (entries : list Z) (proof_steps : list ProofStep)
    (leaves : gmap Z Hash) (steps : gmap Z ProofStep) : outcome KtError (gmap Z Hash * gmap Z ProofStep) :=
  match entries, proof_steps with
  | entry :: entries, step :: proof_steps =>
      prefix_proof ← get_proto_field (ps_prefix step) "prefix";
      leaf ← step_leaf (md_index data) (md_pos data) prefix_proof step;
      leaves ← (match leaves !! entry with
                | Some other =>
                    if negb (bool_decide (leaf = other)) then
                      Err (VerificationFailed "monitoring response is malformed: multiple values for same leaf")
                    else Ok leaves
                | None => Ok (<[entry := leaf]> leaves)
                end);
      process_steps data entries proof_steps leaves (<[entry := step]> steps)
  | _, _ => Ok (leaves, steps)
  end.

Definition MonitorProofAcc_process (monitoring_data : gmap bytes MonitoringData) (key : MonitorKey) (proof : MonitorProof)
    (self : MonitorProofAcc) : outcome KtError MonitorProofAcc :=
  data ← ok_or (BadData "unable to process monitoring response for unknown search key")
           (monitoring_data !! mk_search_key key);
  entries ← full_monitoring_path (mk_entry_position key) (md_pos data) (mpa_tree_size self);
  if negb (length entries =? length (mp_steps proof))%nat then
    Err (VerificationFailed "monitoring response is malformed: wrong number of proof steps")
  else
    '(leaves, steps) ← process_steps data entries (mp_steps proof) (mpa_leaves self) ∅;
    Ok (mkMonitorProofAcc (mpa_tree_size self) leaves (mpa_entries self ++ [steps])).

Fixpoint process_all (monitoring_data : gmap bytes MonitoringData) (l : list (MonitorKey * MonitorProof))
    (acc : MonitorProofAcc) : outcome KtError MonitorProofAcc :=
  match l with
  | [] => Ok acc
  | (key, proof) :: l => acc ← MonitorProofAcc_process monitoring_data key proof acc; process_all monitoring_data l acc
  end.

Definition monitor_root (leaves : gmap Z Hash) (tree_size : Z) (inclusion : list bytes) : outcome KtError Hash :=
  inclusion_proof ← get_hash_proof inclusion;
  if bool_decide (leaves = ∅) then
    match inclusion_proof with
    | [root] => Ok root
    | _ => Err (VerificationFailed "monitoring response is malformed: inclusion proof should be root")
    end
  else
    let '(ids, values) := into_sorted_pairs leaves in
    map_err KtError_from_log (evaluate_batch_proof ids tree_size values inclusion_proof).

Fixpoint update_all (consistency : option Consistency) (tree_size : Z) (monitoring_data : gmap bytes MonitoringData)
    (l : list (MonitorKey * gmap Z ProofStep)) (data_updates : gmap bytes MonitoringData)
  : outcome KtError (gmap bytes MonitoringData) :=
  match l with
  | [] => Ok data_updates
  | (key, entry) :: l =>
      size ← (if bool_decide (mk_search_key key = DISTINGUISHED)
              then ok_or (RequiredFieldMissing "consistency field when monitoring distinguished key")
                     (c ← consistency; cons_last c)
              else Ok tree_size);
      mdw ← update size entry (monitoring_data !! mk_search_key key);
      let data_updates := match mdw with
                          | Some data_update => <[mk_search_key key := data_update]> data_updates
                          | None => data_updates
                          end in
      update_all consistency tree_size monitoring_data l data_updates
  end.

Definition verify_monitor (config : PublicConfig) (req : MonitorRequest) (res : MonitorResponse)
    (context : MonitorContext) (now : Z) : outcome KtError (LocalStateUpdate (gmap bytes MonitoringData)) :=
  if negb (length (mreq_keys req) =? length (mres_proofs res))%nat then
    Err (BadData "monitoring response is malformed: wrong number of key proofs")
  else
    full_tree_head ← get_proto_field (mres_tree_head res) "tree_head";
    tree_head ← get_proto_field (fth_tree_head full_tree_head) "tree_head";
    let tree_size := th_tree_size tree_head in
    mpa ← process_all (mc_data context) (zip (mreq_keys req) (mres_proofs res)) (mkMonitorProofAcc tree_size ∅ []);
    root ← monitor_root (mpa_leaves mpa) tree_size (mres_inclusion res);
    updated_tree_head ← verify_full_tree_head config full_tree_head root
      (mc_last_tree_head context) (Some (mc_last_distinguished_tree_head context)) now;
    data_updates ← update_all (mreq_consistency req) tree_size (mc_data context)
      (zip (mreq_keys req) (mpa_entries mpa)) ∅;
    Ok (mkLocalStateUpdate updated_tree_head.1 updated_tree_head.2 data_updates).
End verify.
