(* ===== verification/KtSearch.v ===== *)
(** * KtSearch: what a verified search establishes

    The composition of the key transparency components: the search of KtGuide,
    the prefix trees of KtPrefix, the inclusion proof of KtBatch and the checks
    of KtVerify.  [verify_search_sound] relates an accepted response to the log
    behind the root it was accepted for; [out_of_range_panics] shows what
    happens for a position outside of the tree. *)

From stdpp Require Import sorting.
From S2P Require Import Prelude Types Primitives KtTree KtImplicit KtGuide KtLog KtMerkle KtLogProofs KtBatch KtPrefix KtVrf KtTypes KtTreeHead KtMonitor KtVerify.
Open Scope string_scope.
Open Scope list_scope.
Open Scope Z_scope.

(** ** A position outside of the tree *)

Section out_of_range.
Context {E : Type}.

Lemma left_step_result x : (exists y, @left_step E x = Ok y) \/ @left_step E x = Panic.
Proof. unfold left_step, u64_shl. destruct (level x); [by right|]. destruct (_ <? _); cbn; eauto. Qed.
Lemma right_step_result x : (exists y, @right_step E x = Ok y) \/ @right_step E x = Panic.
Proof. unfold right_step, u64_shl. destruct (level x); [by right|]. destruct (_ <? _); cbn; eauto. Qed.

Lemma move_within_out fuel x start n : n <= start -> @move_within_loop E fuel x start n = Panic.
Proof.
  intros Hn. revert x. induction fuel as [|fuel IH]; intros x; cbn [move_within_loop];
    (destruct (in_range start n x) eqn:Ei; [apply in_range_true in Ei; lia|]); [done|].
  destruct (x <? start).
  - destruct (right_step_result x) as [[y ->]| ->]; [apply IH|done].
  - destruct (left_step_result x) as [[y ->]| ->]; [apply IH|done].
Qed.

Lemma root_out start n : n <= start -> @root E start n = Panic.
Proof.
  intros Hn. unfold root, move_within, u64_shl, u64_sub. destruct (_ <? _); [|done]. cbn [mbind outcome_bind].
  destruct (_ <=? _); [|done]. cbn [mbind outcome_bind]. by apply move_within_out.
Qed.
End out_of_range.

Lemma ProofGuide_new_out version pos n : n <= pos -> ProofGuide_new version pos n = Panic.
Proof.
  intros Hn. destruct version; cbn; unfold ProofGuide_for_version, ProofGuide_for_most_recent, frontier;
    by rewrite root_out.
Qed.

Section search.
Context {P : Primitives} {VP : VrfPrimitives} {Ed : Ed25519} `{Sha256} {HI : HashIter}.
Implicit Types (tr : list (Z * Z)) (st : SearchState) (sp : SearchProof) (index : array 32).

(** C40: A search response whose position is not inside its own tree makes the
    verifier panic: once the VRF proof is accepted, nothing checks [search.pos]
    against the tree size before the binary search is set up. *)
Theorem out_of_range_panics config req res context monitor now index head sp :
  evaluate_vrf_proof (cr_vrf_proof (fsr_condensed res)) (vrf_key config) (sr_search_key req) = Ok index ->
  fth_tree_head (fsr_tree_head res) = Some head -> cr_search (fsr_condensed res) = Some sp ->
  th_tree_size head <= sp_pos sp ->
  verify_search config req res context monitor now = Panic.
Proof.
  intros Hvrf Hhead Hsp Hpos. unfold verify_search, verify_search_internal, run_search.
  rewrite Hvrf, Hhead, Hsp. cbn. by rewrite ProofGuide_new_out.
Qed.

(** ** What the search collects *)

(** Step [k] of the proof belongs to the [k]-th lookup, and the leaves and steps
    collected are those of the positions looked up. *)
Record collected index sp tr st : Prop := {
  col_i : ss_i st = length tr;
  col_leaves : forall x lf, ss_leaves st !! x = Some lf -> x ∈ tr.*1;
  col_steps : forall k x c, tr !! k = Some (x, c) -> exists step pp lf,
    sp_steps sp !! k = Some step /\ ps_prefix step = Some pp /\ pp_counter pp = c /\
    step_leaf index (sp_pos sp) pp step = Ok lf /\
    ss_leaves st !! x = Some lf /\ ss_steps st !! x = Some step
}.

Lemma evaluate_total key pos res : evaluate key pos res <> Panic.
Proof.
  unfold evaluate, evaluate_proof. destruct (negb _); [done|]. generalize (leaf_hash key (pp_counter res) pos).
  induction (pp_proof res) as [|p proof IH]; intros v; [done|]. cbn [evaluate_path].
  destruct (try_array 32 p); cbn; [apply IH|done].
Qed.

Lemma step_leaf_total index pos pp step : step_leaf index pos pp step <> Panic.
Proof.
  unfold step_leaf. pose proof (evaluate_total index pos pp). destruct (evaluate index pos pp); try done. cbn.
  by destruct (try_array 32 _).
Qed.

Lemma search_step_spec index sp x g st r g' st' tr :
  collected index sp tr st -> x ∉ tr.*1 -> search_step index sp x (g, st) = (r, (g', st')) ->
  r <> Panic /\ (r = Ok tt -> exists c, g' = ProofGuide_insert x c g /\ collected index sp (tr ++ [(x, c)]) st').
Proof.
  intros [Hi Hl Hs] Hx. unfold search_step. rewrite M_bind_eq. cbn [gets fst snd]. rewrite lift_bind.
  destruct (sp_steps sp !! ss_i st) as [step|] eqn:Estep; cbn [ok_or]; [|intros [= <- <- <-]; done].
  rewrite lift_bind. destruct (ps_prefix step) as [pp|] eqn:Epp; cbn [get_proto_field ok_or]; [|by intros [= <- <- <-]].
  rewrite M_bind_eq. cbn [modify fst snd]. rewrite lift_bind.
  pose proof (step_leaf_total index (sp_pos sp) pp step). destruct (step_leaf _ _ _ _) as [lf|e|] eqn:Elf; [|by intros [= <- <- <-]|done].
  intros [= <- <- <-]. split; [done|]. intros _. exists (pp_counter pp). split; [done|]. split; cbn.
  - rewrite length_app, Hi. cbn. lia.
  - intros y l. rewrite fmap_app, elem_of_app. intros [[<- _]|[_ ?]]%lookup_insert_Some; [right; by left|left; by eapply Hl].
  - intros k y c [Hk|[Hge Hk]]%lookup_app_Some.
    + destruct (Hs k y c Hk) as (step' & pp' & lf' & ?&?&?&?&?&?). exists step', pp', lf'.
      assert (x <> y) as Hne.
      { intros ->. apply Hx, list_elem_of_fmap. exists (y, c). split; [done|by eapply list_elem_of_lookup_2]. }
      rewrite !lookup_insert_ne by done. done.
    + apply list_lookup_singleton_Some in Hk as [Hk [= <- <-]]. exists step, pp, lf. rewrite !lookup_insert_eq.
      split_and!; try done. rewrite <- Estep, Hi. f_equal. lia.
Qed.

Lemma run_search_Ok index version sp n r st :
  run_search index version sp n = Ok (r, st) -> 0 <= sp_pos sp -> n <= u64_max ->
  sp_pos sp < n /\ exists tr, collected index sp tr st /\ search_result (sp_pos sp) n version tr r.
Proof.
  intros Hrun Hpos Hn. unfold run_search in Hrun.
  destruct (Z.lt_ge_cases (sp_pos sp) n) as [Hlt|Hge].
  2: { by rewrite ProofGuide_new_out in Hrun. }
  split; [done|].
  destruct (consume_spec KtError_from_guide (search_step index sp) (sp_pos sp) n version (collected index sp)
              ltac:(lia) Hn) with (s := mkSearchState 0 ∅ ∅) as (g & Hg & Hc).
  { intros x g s r' g' s' tr _ Hcol Hx Hstep. by eapply search_step_spec. }
  { split; cbn; [done|by intros x lf ?%lookup_empty_Some|by intros k x c ?]. }
  rewrite Hg in Hrun. cbn [map_err mbind outcome_bind] in Hrun. unfold run_local in Hrun.
  destruct (consume _ _ _ _) as [[r'|e|] st']; try done. injection Hrun as <- <-. destruct Hc as (tr & ? & ?). by exists tr.
Qed.

(** ** The log behind the root *)

(** What an honest log says of one search key: the position of its first entry,
    and for every entry of the log its prefix tree root and commitment, with the
    prefix tree's proof of the number of versions of the key. *)
Record LogView := mkLogView {
  lv_first : Z;
  lv_prefix_root : Z -> array 32;
  lv_commitment : Z -> array 32;
  lv_proof : Z -> PrefixProof
}.
Definition version_at (v : LogView) (x : Z) : Z := pp_counter (lv_proof v x).

Record describes (v : LogView) index (L : list Hash) : Prop := {
  desc_first : 0 <= lv_first v < Z.of_nat (length L);
  desc_leaf : forall x, 0 <= x < Z.of_nat (length L) ->
    leaf_of L x = log_leaf_hash (lv_prefix_root v x) (lv_commitment v x);
  desc_proof : forall x, lv_first v <= x < Z.of_nat (length L) ->
    is_u32 (version_at v x) /\ evaluate index (lv_first v) (lv_proof v x) = Ok (lv_prefix_root v x);
  desc_monotone : forall x y, lv_first v <= x -> x <= y < Z.of_nat (length L) -> version_at v x <= version_at v y
}.

(** The strings hashed by the verifier for a step of the proof, by the verifier
    in all, and by the log. *)
Definition step_strings index pos (step : ProofStep) : list bytes :=
  match ps_prefix step with
  | Some pp =>
      prefix_strings index pos pp ++
      match evaluate index pos pp, try_array 32 (ps_commitment step) with
      | Ok r, Some c => [log_leaf_string r c]
      | _, _ => []
      end
  | None => []
  end.
Definition verifier_strings index version sp n : list bytes :=
  match run_search index version sp n, get_hash_proof (sp_inclusion sp) with
  | Ok (_, st), Ok proof =>
      let '(ids, values) := into_sorted_pairs (ss_leaves st) in batch_strings n ids values proof
  | _, _ => []
  end ++ concat (step_strings index (sp_pos sp) <$> sp_steps sp).
Definition view_strings (v : LogView) index (L : list Hash) : list bytes :=
  log_strings L ++
  concat ((fun x => log_leaf_string (lv_prefix_root v x) (lv_commitment v x) ::
                    prefix_strings index (lv_first v) (lv_proof v x))
          <$> seqZ (lv_first v) (Z.of_nat (length L) - lv_first v)).
Definition all_strings v index version sp (L : list Hash) : list bytes :=
  verifier_strings index version sp (Z.of_nat (length L)) ++ view_strings v index L.

Lemma step_strings_in v index version sp L k step a :
  sp_steps sp !! k = Some step -> a ∈ step_strings index (sp_pos sp) step -> a ∈ all_strings v index version sp L.
Proof.
  intros Hk Ha. unfold all_strings, verifier_strings. rewrite !elem_of_app. left. right.
  apply list_elem_of_In, in_concat. exists (step_strings index (sp_pos sp) step).
  split; apply list_elem_of_In; [|done]. apply list_elem_of_fmap. exists step. split; [done|by eapply list_elem_of_lookup_2].
Qed.

Lemma view_strings_in v index version sp L x a :
  lv_first v <= x < Z.of_nat (length L) ->
  a ∈ log_leaf_string (lv_prefix_root v x) (lv_commitment v x) :: prefix_strings index (lv_first v) (lv_proof v x) ->
  a ∈ all_strings v index version sp L.
Proof.
  intros Hx Ha. unfold all_strings, view_strings. rewrite !elem_of_app. right. right.
  apply list_elem_of_In, in_concat. eexists. split; apply list_elem_of_In; [|exact Ha].
  apply list_elem_of_fmap. exists x. split; [done|]. apply elem_of_seqZ. lia.
Qed.

Lemma log_leaf_string_inj r c r' c' : log_leaf_string r c = log_leaf_string r' c' -> r = r' /\ c = c'.
Proof.
  intros Heq. apply app_inj_1 in Heq as [H1 H2]; [|by rewrite !array_length]. split; by apply array_eq.
Qed.

(** The leaves that the inclusion proof is for are the log's. *)
Lemma inclusion_leaves st n incl L root :
  inclusion_root (ss_leaves st) n incl = Ok root -> n = Z.of_nat (length L) -> n <= MAX_LEAVES -> log_root L = root ->
  (forall x lf, ss_leaves st !! x = Some lf -> 0 <= x) ->
  exists proof, get_hash_proof incl = Ok proof /\
    ((forall x lf, ss_leaves st !! x = Some lf -> lf = leaf_of L x) \/
     let '(ids, values) := into_sorted_pairs (ss_leaves st) in
     collision (batch_strings n ids values proof ++ log_strings L)).
Proof.
  unfold inclusion_root, into_sorted_pairs. intros (proof & Hp & Heval)%bind_Ok -> Hn <- Hx. exists proof.
  split; [done|]. cbv zeta in *. set (l := sort_by_key fst (hash_iter (ss_leaves st))) in *.
  assert (forall x lf, (x, lf) ∈ l <-> ss_leaves st !! x = Some lf) as Hl.
  { intros x lf. unfold l. rewrite sort_by_key_perm. apply elem_of_hash_iter. }
  apply map_err_Ok in Heval. destruct (accepted_values_are_leaves L l.*1 l.*2 proof Hn) as [Heq|Hc]; [|done| |by right].
  - apply Forall_forall. intros x ([x' lf] & -> & Hin)%list_elem_of_fmap. cbn. by eapply Hx, Hl.
  - left. intros x lf Hin%Hl. apply list_elem_of_lookup in Hin as [k Hk].
    assert (l.*2 !! k = Some lf) as H2 by (by rewrite list_lookup_fmap, Hk).
    rewrite Heq, !list_lookup_fmap, Hk in H2. by injection H2.
Qed.

(** A looked-up entry says what the log says. *)
Lemma lookup_bound v index version sp L tr st k x c :
  describes v index L -> collected index sp tr st -> is_u64 (sp_pos sp) -> Z.of_nat (length L) <= u64_max ->
  Forall (fun s => forall pp, ps_prefix s = Some pp -> is_u32 (pp_counter pp)) (sp_steps sp) ->
  (forall x lf, ss_leaves st !! x = Some lf -> lf = leaf_of L x) ->
  tr !! k = Some (x, c) -> lv_first v <= x < Z.of_nat (length L) ->
  (sp_pos sp = lv_first v /\ c = version_at v x /\
   exists step, sp_steps sp !! k = Some step /\ ps_commitment step = arr (lv_commitment v x)) \/
  collision (all_strings v index version sp L).
Proof.
  intros Hd [_ _ Hs] Hpos Hlen Hu32 Hleaves Hk Hx.
  destruct (Hs k x c Hk) as (step & pp & lf & Hstep & Hpp & <- & Hlf & Hlx & _).
  pose proof (Hleaves _ _ Hlx) as Heq. rewrite (desc_leaf _ _ _ Hd) in Heq by (pose proof (desc_first _ _ _ Hd); lia).
  unfold step_leaf in Hlf. apply bind_Ok in Hlf as (r & Hr%map_err_Ok & (cm & Hcm%map_err_Ok%ok_or_Ok & [= <-])%bind_Ok).
  assert (forall a, a ∈ prefix_strings index (sp_pos sp) pp ++ [log_leaf_string r cm] -> a ∈ all_strings v index version sp L) as Hin.
  { intros a Ha. eapply step_strings_in; [done|]. unfold step_strings. by rewrite Hpp, Hr, Hcm. }
  pose proof (view_strings_in v index version sp L x) as Hview.
  set (mine := log_leaf_string r cm) in *. set (theirs := log_leaf_string (lv_prefix_root v x) (lv_commitment v x)) in *.
  destruct (decide (mine = theirs)) as [Hsame|Hdiff].
  2: { right. exists mine, theirs. split_and!; [apply Hin, elem_of_app; right; left|by apply Hview; [|left]|done|done]. }
  apply log_leaf_string_inj in Hsame as [-> ->]. destruct (desc_proof _ _ _ Hd x Hx) as [Hv He].
  destruct (prefix_binding index (sp_pos sp) (lv_first v) pp (lv_proof v x) (lv_prefix_root v x) Hpos) with (5 := He) as [[Hc Hp]|Hcol]; try done.
  - unfold is_u64. pose proof (desc_first _ _ _ Hd). lia.
  - rewrite Forall_forall in Hu32. by eapply Hu32; [eapply list_elem_of_lookup_2|].
  - left. split_and!; [done|done|]. exists step. split; [done|]. symmetry. by apply try_array_Some.
  - right. eapply collision_incl; [|done]. intros a [Ha|Ha]%elem_of_app; [apply Hin, elem_of_app; by left|].
    apply Hview; [done|by right].
Qed.

(** What a search has shown: the claimed first position is right, the entry
    found is the first one with the version looked for, and the value opens the
    commitment of that entry. *)
Definition found_first (v : LogView) (n : Z) (version : option Z) (search_key value opening : bytes) (pos : Z) : Prop :=
  pos = lv_first v /\
  exists id, lv_first v <= id < n /\
    (let V := match version with Some w => w | None => version_at v (n - 1) end in
     version_at v id = V /\ forall y, lv_first v <= y < id -> version_at v y < V) /\
    exists data nonce, marshal_update_value value = Ok data /\ try_array 16 opening = Some nonce /\
      @commitments_verify _ KtError search_key (arr (lv_commitment v id)) data nonce = Ok true.

(** The key is already in the log before [lv_first], which then is not its first
    position: an earlier entry has a prefix tree that proves it. *)
Definition proved_earlier (v : LogView) index (L : list Hash) : Prop :=
  exists x pos pp r c, 0 <= x < lv_first v /\ leaf_of L x = log_leaf_hash r c /\ evaluate index pos pp = Ok r.

Lemma search_result_found v index version sp L tr st i id :
  describes v index L -> collected index sp tr st -> is_u64 (sp_pos sp) -> Z.of_nat (length L) <= u64_max ->
  Forall (fun s => forall pp, ps_prefix s = Some pp -> is_u32 (pp_counter pp)) (sp_steps sp) ->
  (forall x lf, ss_leaves st !! x = Some lf -> lf = leaf_of L x) ->
  search_result (sp_pos sp) (Z.of_nat (length L)) version tr (Some (i, id)) ->
  (sp_pos sp = lv_first v /\
   (let V := match version with Some w => w | None => version_at v (Z.of_nat (length L) - 1) end in
    lv_first v <= id < Z.of_nat (length L) /\ version_at v id = V /\ forall y, lv_first v <= y < id -> version_at v y < V) /\
   exists step, sp_steps sp !! i = Some step /\ ps_commitment step = arr (lv_commitment v id)) \/
  (version <> None /\ proved_earlier v index L) \/
  collision (all_strings v index version sp L).
Proof.
  intros Hd Hcol Hpos Hlen Hu32 Hleaves Hres.
  pose proof (lookup_bound v index version sp L tr st) as Hlook.
  assert (sp_pos sp = lv_first v \/ (version <> None /\ proved_earlier v index L) \/ collision (all_strings v index version sp L))
    as [Hp|[|]]; [| |by right; left|by right; right].
  { destruct version as [w|].
    { destruct (sr_version _ _ _ _ _ Hres) as (V & _ & _ & Hi & _). pose proof Hi as Hid%list_elem_of_lookup_2.
      pose proof (proj1 (Forall_forall _ _) (sr_range _ _ _ _ _ Hres) _ Hid) as Hr. cbn in Hr.
      destruct (Z.lt_ge_cases id (lv_first v)) as [Hlt|Hge].
      - right. left. split; [done|]. destruct (col_steps _ _ _ _ Hcol i id V Hi) as (step & pp & lf & _ & _ & _ & Hlf & Hlx & _).
        unfold step_leaf in Hlf. apply bind_Ok in Hlf as (r & Hev%map_err_Ok & (cm & _ & [= <-])%bind_Ok).
        exists id, (sp_pos sp), pp, r, cm. split_and!; [destruct Hpos; lia|done| |done]. symmetry. by apply Hleaves.
      - destruct (Hlook i _ _ Hd Hcol Hpos Hlen Hu32 Hleaves Hi) as [[? _]|]; [lia|by left|by right; right]. }
    destruct (sr_version _ _ _ _ _ Hres) as (V & HV & _).
    apply list_elem_of_lookup in HV as [k Hk]. pose proof (desc_first _ _ _ Hd).
    destruct (Hlook k _ _ Hd Hcol Hpos Hlen Hu32 Hleaves Hk) as [[? _]|]; [lia|by left|by right; right]. }
  destruct (all_or_one (fun p : Z * Z => p.2 = version_at v p.1 /\
              exists k step, tr !! k = Some p /\ sp_steps sp !! k = Some step /\ ps_commitment step = arr (lv_commitment v p.1))
              (collision (all_strings v index version sp L)) tr) as [Hall|]; [|left|by right; right].
  { intros [x c] Hin. cbn. pose proof (proj1 (Forall_forall _ _) (sr_range _ _ _ _ _ Hres) _ Hin) as Hr. cbn in Hr.
    pose proof Hin as [k Hk]%list_elem_of_lookup.
    destruct (Hlook k _ _ Hd Hcol Hpos Hlen Hu32 Hleaves Hk) as [(_ & -> & step & ?)|]; [lia|left|by right].
    split; [done|]. by exists k, step. }
  split; [done|].
  pose proof (search_result_first _ _ _ _ _ (version_at v) Hres) as Hf. cbv zeta in Hf.
  rewrite Hp in *. split.
  - cbv zeta. destruct Hf as (? & ? & ?); [|by apply (desc_monotone _ _ _ Hd)|done].
    intros x c Hin. by destruct (Hall _ Hin).
  - destruct (sr_version _ _ _ _ _ Hres) as (V & _ & _ & Hi & _). destruct (Hall (id, V)) as (_ & k & step & Hk & Hst); [by eapply list_elem_of_lookup_2|].
    replace i with k; [by exists step|]. pose proof (sr_nodup _ _ _ _ _ Hres) as Hnd.
    apply (NoDup_lookup tr.*1 k i id Hnd); by rewrite list_lookup_fmap, ?Hk, ?Hi.
Qed.

(** C4: what an accepted search establishes.  Let [L] be the log behind the
    accepted root, and [v] what this log says of the search key: with versions
    that never decrease.  If [verify_search] succeeds, the claimed first position
    is the key's, the entry found is the first of the log that has the version
    asked for (without one, the version of the last entry), and the value opens
    that entry's commitment; or a version was asked for and the log has, before the
    first position of [v], an entry whose prefix tree proves the key, so that [v] does not say
    where the key first appears; or two different strings that the verifier or the
    log hashed have the same SHA-256. *)
Theorem verify_search_sound config req res context monitor now result index head sp L v :
  verify_search config req res context monitor now = Ok result ->
  evaluate_vrf_proof (cr_vrf_proof (fsr_condensed res)) (vrf_key config) (sr_search_key req) = Ok index ->
  fth_tree_head (fsr_tree_head res) = Some head -> cr_search (fsr_condensed res) = Some sp ->
  is_u64 (sp_pos sp) -> th_tree_size head <= MAX_LEAVES ->
  Forall (fun s => forall pp, ps_prefix s = Some pp -> is_u32 (pp_counter pp)) (sp_steps sp) ->
  describes v index L -> Z.of_nat (length L) = th_tree_size head ->
  log_root L = lsu_tree_root (vsr_state_update result) ->
  found_first v (th_tree_size head) (sr_request_version req) (sr_search_key req) (vsr_value result)
    (cr_opening (fsr_condensed res)) (sp_pos sp) \/
  (sr_request_version req <> None /\ proved_earlier v index L) \/
  collision (all_strings v index (sr_request_version req) sp L).
Proof.
  intros Hver Hvrf Hhead Hsp Hpos Hmax Hu32 Hd HL Hroot. unfold verify_search, verify_search_internal in Hver.
  rewrite Hvrf, Hhead, Hsp in Hver. cbn [mbind outcome_bind get_proto_field ok_or] in Hver.
  apply bind_Ok in Hver as (upd & Hint & (value & Hval%ok_or_Ok & [= <-])%bind_Ok). cbn [vsr_value vsr_state_update] in *.
  apply bind_Ok in Hint as ([r st] & Hrun & Hint). destruct (negb _) in Hint; [done|].
  apply bind_Ok in Hint as (root & Hincl & ([i id] & Hr%ok_or_Ok & (step & Hstep%expect_Ok &
    (value' & Hval'%ok_or_Ok & ([] & Hopen & (upd' & Hhd & Hint)%bind_Ok)%bind_Ok)%bind_Ok)%bind_Ok)%bind_Ok).
  subst r. assert (value' = value) as -> by congruence. clear Hval Hval'.
  assert (upd'.2 = root) as Hupd.
  { unfold verify_full_tree_head in Hhd. repeat (apply bind_Ok in Hhd as (? & _ & Hhd)). by injection Hhd as <-. }
  repeat (apply bind_Ok in Hint as (? & _ & Hint)). injection Hint as <-. cbn [lsu_tree_root] in Hroot. rewrite Hupd in Hroot.
  destruct (run_search_Ok _ _ _ _ _ _ Hrun) as (Hlt & tr & Hcol & Hres); [by destruct Hpos|unfold u64_max, MAX_LEAVES in *; lia|].
  assert (forall x lf, ss_leaves st !! x = Some lf -> 0 <= x) as Hnn.
  { intros y lf Hy. apply (col_leaves _ _ _ _ Hcol), list_elem_of_fmap in Hy as ([z c] & -> & Hin).
    pose proof (proj1 (Forall_forall _ _) (sr_range _ _ _ _ _ Hres) _ Hin) as Hb. cbn in *. destruct Hpos. lia. }
  destruct (inclusion_leaves st _ _ L root Hincl) as (proof & Hproof & Hleaves); [done|done|done|done|].
  destruct Hleaves as [Hleaves|Hc].
  2: { right. right. unfold all_strings, verifier_strings. rewrite HL, Hrun, Hproof. destruct (into_sorted_pairs _) as [ids values].
       eapply collision_incl; [|done]. unfold view_strings. intros a. rewrite !elem_of_app. tauto. }
  rewrite <- HL in *.
  destruct (search_result_found v index (sr_request_version req) sp L tr st i id Hd Hcol Hpos) as [(Hp & (Hid & HV) & step' & Hst & Hcm)|]; try done;
    [unfold u64_max, MAX_LEAVES in *; lia| |by right].
  left. split; [done|]. exists id. split; [exact Hid|]. split; [exact HV|]. rewrite Hst in Hstep. injection Hstep as ->.
  unfold verify_opening in Hopen. rewrite Hcm in Hopen.
  apply bind_Ok in Hopen as (data & Hdata & (nonce & Hnonce%ok_or_Ok & (opens & Hopens & Hb)%bind_Ok)%bind_Ok).
  exists data, nonce. split_and!; [done|done|]. by destruct opens.
Qed.
End search.
