(* ===== verification/Proto.v ===== *)
(** * Proto: the protobuf messages of the protocol crate

    The structs prost generates from rust/protocol/src/proto/wire.proto,
    storage.proto, service.proto, fingerprint.proto and sealed_sender.proto: [optional] fields are
    options, proto3 scalar fields are plain values, [repeated] fields are
    lists.  [wf] predicates say that the integer fields are in the range of
    their Rust type; they are the condition under which prost's codecs are
    assumed to round-trip. *)

From S2P Require Import Prelude Types.
Open Scope string_scope.
Open Scope list_scope.
Open Scope Z_scope.

Definition opt_in_range (P : Z -> Prop) (o : option Z) : Prop :=
  match o with Some z => P z | None => True end.

(** ** wire.proto *)
Module wire.
Record SignalMessage := mkSignalMessage {
  sm_ratchet_key : option bytes;
  sm_counter : option Z;
  sm_previous_counter : option Z;
  sm_ciphertext : option bytes;
  sm_pq_ratchet : option bytes
}.
Definition SignalMessage_wf (m : SignalMessage) : Prop :=
  opt_in_range is_u32 (sm_counter m) /\ opt_in_range is_u32 (sm_previous_counter m).

Record PreKeySignalMessage := mkPreKeySignalMessage {
  pksm_registration_id : option Z;
  pksm_pre_key_id : option Z;
  pksm_signed_pre_key_id : option Z;
  pksm_kyber_pre_key_id : option Z;
  pksm_kyber_ciphertext : option bytes;
  pksm_base_key : option bytes;
  pksm_identity_key : option bytes;
  pksm_message : option bytes
}.
Definition PreKeySignalMessage_wf (m : PreKeySignalMessage) : Prop :=
  opt_in_range is_u32 (pksm_registration_id m) /\
  opt_in_range is_u32 (pksm_pre_key_id m) /\
  opt_in_range is_u32 (pksm_signed_pre_key_id m) /\
  opt_in_range is_u32 (pksm_kyber_pre_key_id m).

Record SenderKeyMessage := mkSenderKeyMessage {
  skm_distribution_uuid : option bytes;
  skm_chain_id : option Z;
  skm_iteration : option Z;
  skm_ciphertext : option bytes
}.
Definition SenderKeyMessage_wf (m : SenderKeyMessage) : Prop :=
  opt_in_range is_u32 (skm_chain_id m) /\ opt_in_range is_u32 (skm_iteration m).

Record SenderKeyDistributionMessage := mkSenderKeyDistributionMessage {
  skdm_distribution_uuid : option bytes;
  skdm_chain_id : option Z;
  skdm_iteration : option Z;
  skdm_chain_key : option bytes;
  skdm_signing_key : option bytes
}.
Definition SenderKeyDistributionMessage_wf (m : SenderKeyDistributionMessage) : Prop :=
  opt_in_range is_u32 (skdm_chain_id m) /\ opt_in_range is_u32 (skdm_iteration m).
End wire.

(** ** service.proto *)
Module service.
Record Content := mkContent {
  ct_data_message : option bytes;
  ct_sync_message : option bytes;
  ct_call_message : option bytes;
  ct_null_message : option bytes;
  ct_receipt_message : option bytes;
  ct_typing_message : option bytes;
  ct_sender_key_distribution_message : option bytes;
  ct_decryption_error_message : option bytes
}.
(** [Default::default()]. *)
Definition Content_default : Content :=
  mkContent None None None None None None None None.

Record DecryptionErrorMessage := mkDecryptionErrorMessage {
  dem_ratchet_key : option bytes;
  dem_timestamp : option Z;
  dem_device_id : option Z
}.
Definition DecryptionErrorMessage_wf (m : DecryptionErrorMessage) : Prop :=
  opt_in_range is_u64 (dem_timestamp m) /\ opt_in_range is_u32 (dem_device_id m).
End service.

(** ** storage.proto *)
Module storage.
(** [session_structure::chain::ChainKey]. *)
Record ChainKey := mkChainKey { ck_index : Z; ck_key : bytes }.
(** [session_structure::chain::MessageKey]. *)
Record MessageKey := mkMessageKey {
  mk_index : Z;
  mk_cipher_key : bytes;
  mk_mac_key : bytes;
  mk_iv : bytes;
  mk_seed : bytes
}.
(** [session_structure::Chain]. *)
Record Chain := mkChain {
  chain_sender_ratchet_key : bytes;
  chain_sender_ratchet_key_private : bytes;
  chain_chain_key : option ChainKey;
  chain_message_keys : list MessageKey
}.
Record PendingPreKey := mkPendingPreKey {
  ppk_pre_key_id : option Z;
  ppk_signed_pre_key_id : Z;   (* int32 *)
  ppk_base_key : bytes;
  ppk_timestamp : Z            (* uint64 *)
}.
Record PendingKyberPreKey := mkPendingKyberPreKey {
  pkpk_pre_key_id : Z;
  pkpk_ciphertext : bytes
}.
Record SessionStructure := mkSessionStructure {
  ss_session_version : Z;
  ss_local_identity_public : bytes;
  ss_remote_identity_public : bytes;
  ss_root_key : bytes;
  ss_previous_counter : Z;
  ss_sender_chain : option Chain;
  ss_receiver_chains : list Chain;
  ss_pending_pre_key : option PendingPreKey;
  ss_pending_kyber_pre_key : option PendingKyberPreKey;
  ss_remote_registration_id : Z;
  ss_local_registration_id : Z;
  ss_alice_base_key : bytes;
  ss_pq_ratchet_state : bytes
}.
Record RecordStructure := mkRecordStructure {
  rs_current_session : option SessionStructure;
  rs_previous_sessions : list bytes
}.
Record PreKeyRecordStructure := mkPreKeyRecordStructure {
  pkr_id : Z; pkr_public_key : bytes; pkr_private_key : bytes
}.
Record SignedPreKeyRecordStructure := mkSignedPreKeyRecordStructure {
  spkr_id : Z;
  spkr_public_key : bytes;
  spkr_private_key : bytes;
  spkr_signature : bytes;
  spkr_timestamp : Z
}.
Record IdentityKeyPairStructure := mkIdentityKeyPairStructure {
  ikp_public_key : bytes; ikp_private_key : bytes
}.
(** [sender_key_state_structure::{SenderChainKey, SenderMessageKey, SenderSigningKey}]. *)
Record SenderChainKey := mkSenderChainKey { sck_iteration : Z; sck_seed : bytes }.
Record SenderMessageKey := mkSenderMessageKey { smk_iteration : Z; smk_seed : bytes }.
Record SenderSigningKey := mkSenderSigningKey { ssk_public : bytes; ssk_private : bytes }.
Record SenderKeyStateStructure := mkSenderKeyStateStructure {
  sks_message_version : Z;
  sks_chain_id : Z;
  sks_sender_chain_key : option SenderChainKey;
  sks_sender_signing_key : option SenderSigningKey;
  sks_sender_message_keys : list SenderMessageKey
}.
Record SenderKeyRecordStructure := mkSenderKeyRecordStructure {
  skr_sender_key_states : list SenderKeyStateStructure
}.

Definition ChainKey_wf (c : ChainKey) : Prop := is_u32 (ck_index c).
Definition MessageKey_wf (m : MessageKey) : Prop := is_u32 (mk_index m).
Definition Chain_wf (c : Chain) : Prop :=
  match chain_chain_key c with Some ck => ChainKey_wf ck | None => True end /\
  Forall MessageKey_wf (chain_message_keys c).
Definition PendingPreKey_wf (p : PendingPreKey) : Prop :=
  opt_in_range is_u32 (ppk_pre_key_id p) /\
  - 2 ^ 31 <= ppk_signed_pre_key_id p < 2 ^ 31 /\ is_u64 (ppk_timestamp p).
Definition SessionStructure_wf (s : SessionStructure) : Prop :=
  is_u32 (ss_session_version s) /\ is_u32 (ss_previous_counter s) /\
  match ss_sender_chain s with Some c => Chain_wf c | None => True end /\
  Forall Chain_wf (ss_receiver_chains s) /\
  match ss_pending_pre_key s with Some p => PendingPreKey_wf p | None => True end /\
  match ss_pending_kyber_pre_key s with Some p => is_u32 (pkpk_pre_key_id p) | None => True end /\
  is_u32 (ss_remote_registration_id s) /\ is_u32 (ss_local_registration_id s).
Definition RecordStructure_wf (r : RecordStructure) : Prop :=
  match rs_current_session r with Some s => SessionStructure_wf s | None => True end.
Definition SenderKeyStateStructure_wf (s : SenderKeyStateStructure) : Prop :=
  is_u32 (sks_message_version s) /\ is_u32 (sks_chain_id s) /\
  match sks_sender_chain_key s with Some c => is_u32 (sck_iteration c) | None => True end /\
  Forall (fun k => is_u32 (smk_iteration k)) (sks_sender_message_keys s).
Definition SenderKeyRecordStructure_wf (r : SenderKeyRecordStructure) : Prop :=
  Forall SenderKeyStateStructure_wf (skr_sender_key_states r).
End storage.

(** ** fingerprint.proto *)
Module fingerprint.
(** [LogicalFingerprint { content }]. *)
Record LogicalFingerprint := mkLogicalFingerprint { lf_content : option bytes }.
Record CombinedFingerprints := mkCombinedFingerprints {
  cf_version : option Z;
  cf_local_fingerprint : option LogicalFingerprint;
  cf_remote_fingerprint : option LogicalFingerprint
}.
Definition CombinedFingerprints_wf (c : CombinedFingerprints) : Prop :=
  opt_in_range is_u32 (cf_version c).
End fingerprint.

(** ** sealed_sender.proto *)
Module sealed_sender.
(** [server_certificate::Certificate]. *)
Record ServerCertificateData := mkServerCertificateData {
  scd_id : option Z;
  scd_key : option bytes
}.
Record ServerCertificate := mkServerCertificate {
  svc_certificate : option bytes;
  svc_signature : option bytes
}.
(** The [oneof]s of [sender_certificate::Certificate]. *)
Inductive SenderUuid := UuidString (s : string) | UuidBytes (b : bytes).
Inductive Signer := SignerCertificate (b : bytes) | SignerId (id : Z).
(** [sender_certificate::Certificate]. *)
Record SenderCertificateData := mkSenderCertificateData {
  sdd_sender_e164 : option string;
  sdd_sender_uuid : option SenderUuid;
  sdd_sender_device : option Z;   (* uint32 *)
  sdd_expires : option Z;         (* fixed64 *)
  sdd_identity_key : option bytes;
  sdd_signer : option Signer
}.
Record SenderCertificate := mkSenderCertificate {
  sdc_certificate : option bytes;
  sdc_signature : option bytes
}.
(** [unidentified_sender_message::message::Type]: its values and [try_from(i32)]. *)
Inductive MessageType := PrekeyMessage | Message_ | SenderkeyMessage | PlaintextContent_.
Definition MessageType_value (t : MessageType) : Z :=
  match t with PrekeyMessage => 1 | Message_ => 2 | SenderkeyMessage => 7 | PlaintextContent_ => 8 end.
Definition MessageType_try_from (z : Z) : option MessageType :=
  if z =? 1 then Some PrekeyMessage else if z =? 2 then Some Message_
  else if z =? 7 then Some SenderkeyMessage else if z =? 8 then Some PlaintextContent_ else None.
(** [unidentified_sender_message::message::ContentHint]. *)
Inductive ProtoContentHint := ProtoResendable | ProtoImplicit.
Definition ProtoContentHint_value (h : ProtoContentHint) : Z :=
  match h with ProtoResendable => 1 | ProtoImplicit => 2 end.
Definition ProtoContentHint_try_from (z : Z) : option ProtoContentHint :=
  if z =? 1 then Some ProtoResendable else if z =? 2 then Some ProtoImplicit else None.
(** [unidentified_sender_message::Message]; enum fields are [i32]. *)
Record Message := mkMessage {
  usm_type : option Z;
  usm_sender_certificate : option bytes;
  usm_content : option bytes;
  usm_content_hint : option Z;
  usm_group_id : option bytes
}.
Record UnidentifiedSenderMessage := mkUnidentifiedSenderMessage {
  usm_ephemeral_public : option bytes;
  usm_encrypted_static : option bytes;
  usm_encrypted_message : option bytes
}.

Definition is_i32 (z : Z) : Prop := - 2 ^ 31 <= z < 2 ^ 31.
Definition ServerCertificateData_wf (c : ServerCertificateData) : Prop := opt_in_range is_u32 (scd_id c).
Definition SenderCertificateData_wf (c : SenderCertificateData) : Prop :=
  opt_in_range is_u32 (sdd_sender_device c) /\ opt_in_range is_u64 (sdd_expires c) /\
  match sdd_signer c with Some (SignerId id) => is_u32 id | _ => True end.
Definition Message_wf (m : Message) : Prop :=
  opt_in_range is_i32 (usm_type m) /\ opt_in_range is_i32 (usm_content_hint m).
End sealed_sender.
