(* ===== verification/Curve.v ===== *)
(** * Curve: elliptic-curve keys (rust/core/src/curve.rs and its submodules)

    Section [utils]: the constant-time byte comparison of curve/utils.rs.
    Section [curve25519]: key generation, agreement and the XEdDSA signatures
    of curve/curve25519.rs over the curve operations of [Primitives].
    Section [curve]: [PublicKey], [PrivateKey] and [KeyPair] of curve.rs. *)

From S2P Require Import Prelude Types Primitives.
Open Scope string_scope.
Open Scope list_scope.
Open Scope Z_scope.

(** ** curve/utils.rs: bytes are numbers in [0, 256) *)

Definition wrapping_sub_u8 (a b : Z) : Z := (a - b) mod 256.
Definition not_u8 (a : Z) : Z := 255 - a.

Definition expand_top_bit (a : Z) : Z := wrapping_sub_u8 0 (Z.shiftr a 7).

Definition ct_is_zero (a : Z) : Z :=
  expand_top_bit (Z.land (not_u8 a) (wrapping_sub_u8 a 1)).

Definition ct_is_eq (a b : Z) : Z := ct_is_zero (Z.lxor a b).

Definition ct_is_lt (a b : Z) : Z :=
  expand_top_bit (Z.lxor a (Z.lor (Z.lxor a b) (Z.lxor (wrapping_sub_u8 a b) a))).

Definition ct_select (mask a b : Z) : Z := Z.lxor b (Z.land mask (Z.lxor a b)).

(** One iteration of the loop of [constant_time_cmp], on bytes [a] and [b]. *)
Definition ct_cmp_step (result a b : Z) : Z :=
  ct_select (ct_is_eq a b) result (ct_select (ct_is_lt a b) 1 255).

(** The loop runs from the last byte to the first: a right fold over the
    pairs of bytes. *)
Fixpoint ct_cmp_loop (x y : bytes) : Z :=
  match x, y with
  | a :: x, b :: y => ct_cmp_step (ct_cmp_loop x y) (u8 a) (u8 b)
  | _, _ => 0
  end.

Definition constant_time_cmp (x y : bytes) : comparison :=
  if (length x <? length y)%nat then Lt
  else if (length y <? length x)%nat then Gt
  else let result := ct_cmp_loop x y in
       if result =? 0 then Eq else if result =? 1 then Lt else Gt.

(** ** curve/curve25519.rs *)

Section curve25519.
Context {P : Primitives}.

Definition AGREEMENT_LENGTH : nat := 32.
Definition PRIVATE_KEY_LENGTH : nat := 32.
Definition PUBLIC_KEY_LENGTH : nat := 32.
Definition SIGNATURE_LENGTH : nat := 64.

(** [PrivateKey { secret: StaticSecret }]: the stored 32 bytes. *)
Record SecretKey := mkSecretKey { secret : array 32 }.

Definition SecretKey_new (csprng : Rng) : SecretKey * Rng :=
  let '(b, csprng) := fill_bytes 32 csprng in
  (mkSecretKey (clamp_integer b), csprng).

Definition SecretKey_from (private_key : array 32) : SecretKey :=
  mkSecretKey (clamp_integer private_key).

Definition SecretKey_calculate_agreement (k : SecretKey) (their_public_key : array 32)
  : array 32 := x25519_agreement (secret k) their_public_key.

Definition derive_public_key_bytes (k : SecretKey) : array 32 := x25519_public (secret k).

Definition private_key_bytes (k : SecretKey) : array 32 := secret k.

(** Byte [i] of an array as a number. *)
Definition byte_at (i : nat) (l : bytes) : Z := u8 (default Byte.x00 (l !! i)).

(** [hash_prefix]: [0xFE] followed by 31 bytes [0xFF]. *)
Definition hash_prefix : bytes := Byte.xfe :: replicate 31 Byte.xff.

Definition SecretKey_calculate_signature (k : SecretKey) (csprng : Rng)
    (message : list bytes) : array 64 * Rng :=
  let '(random_bytes, csprng) := fill_bytes 64 csprng in
  let key_data := secret k in
  let a := scalar_from_bytes_mod_order key_data in
  let ed_public_key := point_compress (basepoint_mul a) in
  let sign_bit := Z.land (byte_at 31 ed_public_key) 128 in
  let r := scalar_from_hash
             (sha512 (hash_prefix ++ key_data ++ concat message ++ random_bytes)) in
  let cap_r := point_compress (basepoint_mul r) in
  let h := scalar_from_hash (sha512 (cap_r ++ ed_public_key ++ concat message)) in
  let s := scalar_add (scalar_mul h a) r in
  let result : bytes := cap_r ++ scalar_to_bytes s in
  let top := Z.lor (Z.land (byte_at 63 result) 127) sign_bit in
  (to_array 64 (<[63%nat := as_u8 top]> result), csprng).

Definition SecretKey_verify_signature (their_public_key : array 32)
    (message : list bytes) (signature : array 64) : bool :=
  match mont_to_edwards their_public_key
          (Z.shiftr (Z.land (byte_at 63 signature) 128) 7) with
  | None => false
  | Some ed_pub_key_point =>
      let cap_a := point_compress ed_pub_key_point in
      let cap_r := to_array 32 (slice 0 32 signature) in
      let s0 := slice 32 64 signature in
      let s := <[31%nat := as_u8 (Z.land (byte_at 31 s0) 127)]> s0 in
      if negb (Z.land (byte_at 31 s) 224 =? 0) then false
      else
        let minus_cap_a := point_neg ed_pub_key_point in
        let h := scalar_from_hash (sha512 (cap_r ++ cap_a ++ concat message)) in
        let cap_r_check_point :=
          double_scalar_mul_basepoint h minus_cap_a
            (scalar_from_bytes_mod_order (to_array 32 s)) in
        bool_decide (arr (point_compress cap_r_check_point) = arr cap_r)
  end.
End curve25519.

(** ** curve.rs *)

Definition KeyType_value (t : KeyType) : byte := match t with Djb => Byte.x05 end.

Definition KeyType_try_from (x : byte) : outcome CurveError KeyType :=
  if u8 x =? 5 then Ok Djb else Err (CurveBadKeyType (u8 x)).

(** [PublicKey { key: PublicKeyData::DjbPublicKey([u8; 32]) }]; equality of
    keys is equality of their type and bytes ([ConstantTimeEq]). *)
Inductive PublicKey := DjbPublicKey (k : array 32).
Inductive PrivateKey := DjbPrivateKey (k : array 32).

#[export] Instance PublicKey_eq_dec : EqDecision PublicKey.
Proof. solve_decision. Defined.
#[export] Instance PrivateKey_eq_dec : EqDecision PrivateKey.
Proof. solve_decision. Defined.

Definition PublicKey_key_type (k : PublicKey) : KeyType :=
  match k with DjbPublicKey _ => Djb end.

Definition key_data (k : PublicKey) : bytes := match k with DjbPublicKey v => arr v end.
Definition public_key_bytes (k : PublicKey) : bytes := match k with DjbPublicKey v => arr v end.

(** [ConstantTimeEq for PublicKey]; [PartialEq] is this test. *)
Definition PublicKey_eqb (a b : PublicKey) : bool :=
  bool_decide (PublicKey_key_type a = PublicKey_key_type b) &&
  bool_decide (key_data a = key_data b).

(** Trailing bytes after the key are accepted (and logged). *)
Definition PublicKey_deserialize (value : bytes) : outcome CurveError PublicKey :=
  match value with
  | [] => Err CurveNoKeyTypeIdentifier
  | key_type :: value =>
      key_type ← KeyType_try_from key_type;
      match key_type with
      | Djb =>
          if (length value <? PUBLIC_KEY_LENGTH)%nat
          then Err (CurveBadKeyLength Djb (length value + 1))
          else Ok (DjbPublicKey (to_array 32 (take PUBLIC_KEY_LENGTH value)))
      end
  end.

Definition from_djb_public_key_bytes (b : bytes) : outcome CurveError PublicKey :=
  match try_array PUBLIC_KEY_LENGTH b with
  | None => Err (CurveBadKeyLength Djb (length b))
  | Some key => Ok (DjbPublicKey key)
  end.

Definition PublicKey_serialize (k : PublicKey) : bytes :=
  match k with DjbPublicKey v => KeyType_value (PublicKey_key_type k) :: arr v end.

Definition scalar_is_in_range (k : PublicKey) : bool :=
  match k with
  | DjbPublicKey k =>
      negb (negb (Z.land (byte_at 31 k) 128 =? 0)
            || ((wrapping_sub_u8 0 19 <=? byte_at 0 k)
                && bool_decide (slice 1 31 k = replicate 30 Byte.xff)
                && (byte_at 31 k =? 127)))
  end.

(** [Ord for PublicKey]: by key type, then [constant_time_cmp] of the data. *)
Definition PublicKey_cmp (a b : PublicKey) : comparison :=
  match a, b with DjbPublicKey _, DjbPublicKey _ => constant_time_cmp (key_data a) (key_data b) end.

Definition PrivateKey_serialize (k : PrivateKey) : bytes :=
  match k with DjbPrivateKey v => arr v end.

Section curve.
Context {P : Primitives}.

Definition is_torsion_free (k : PublicKey) : bool :=
  match k with
  | DjbPublicKey k =>
      match mont_to_edwards k 0 with
      | Some ed => point_is_torsion_free ed
      | None => false
      end
  end.

Definition is_canonical (k : PublicKey) : bool := is_torsion_free k && scalar_is_in_range k.

Definition verify_signature_for_multipart_message (k : PublicKey)
    (message : list bytes) (signature : bytes) : bool :=
  match k with
  | DjbPublicKey pub_key =>
      match try_array SIGNATURE_LENGTH signature with
      | None => false
      | Some signature => SecretKey_verify_signature pub_key message signature
      end
  end.

Definition verify_signature (k : PublicKey) (message signature : bytes) : bool :=
  verify_signature_for_multipart_message k [message] signature.

Definition PrivateKey_deserialize (value : bytes) : outcome CurveError PrivateKey :=
  match try_array PRIVATE_KEY_LENGTH value with
  | None => Err (CurveBadKeyLength Djb (length value))
  | Some key => Ok (DjbPrivateKey (clamp_integer key))
  end.

Definition PrivateKey_public_key (k : PrivateKey) : outcome CurveError PublicKey :=
  match k with
  | DjbPrivateKey private_key =>
      Ok (DjbPublicKey (derive_public_key_bytes (SecretKey_from private_key)))
  end.

Definition calculate_signature_for_multipart_message (k : PrivateKey)
    (message : list bytes) : M Rng CurveError bytes := fun csprng =>
  match k with
  | DjbPrivateKey k =>
      let '(sig, csprng) := SecretKey_calculate_signature (SecretKey_from k) csprng message in
      (Ok (arr sig), csprng)
  end.

Definition calculate_signature (k : PrivateKey) (message : bytes) : M Rng CurveError bytes :=
  calculate_signature_for_multipart_message k [message].

Definition calculate_agreement (k : PrivateKey) (their_key : PublicKey)
  : outcome CurveError bytes :=
  match k, their_key with
  | DjbPrivateKey priv_key, DjbPublicKey pub_key =>
      Ok (arr (SecretKey_calculate_agreement (SecretKey_from priv_key) pub_key))
  end.

Record KeyPair := mkKeyPair { kp_public_key : PublicKey; kp_private_key : PrivateKey }.

Definition KeyPair_generate (csprng : Rng) : KeyPair * Rng :=
  let '(private_key, csprng) := SecretKey_new csprng in
  (mkKeyPair (DjbPublicKey (derive_public_key_bytes private_key))
             (DjbPrivateKey (private_key_bytes private_key)), csprng).

Definition KeyPair_from_public_and_private (public_key private_key : bytes)
  : outcome CurveError KeyPair :=
  public_key ← PublicKey_deserialize public_key;
  private_key ← PrivateKey_deserialize private_key;
  Ok (mkKeyPair public_key private_key).

(** [TryFrom<PrivateKey> for KeyPair]. *)
Definition KeyPair_try_from (value : PrivateKey) : outcome CurveError KeyPair :=
  public_key ← PrivateKey_public_key value;
  Ok (mkKeyPair public_key value).
End curve.

(** ** The constant-time comparison *)

(** All numbers of one byte, and reasoning by exhausting them. *)
Definition all_bytes : list Z := seqZ 0 256.

Lemma all_bytes_spec (p : Z -> bool) a :
  forallb p all_bytes = true -> 0 <= a < 256 -> p a = true.
Proof.
  intros Hp Ha. rewrite forallb_forall in Hp. apply Hp.
  apply list_elem_of_In, elem_of_seqZ. lia.
Qed.

Lemma all_byte_pairs_spec (p : Z -> Z -> bool) a b :
  forallb (fun a => forallb (p a) all_bytes) all_bytes = true ->
  0 <= a < 256 -> 0 <= b < 256 -> p a b = true.
Proof.
  intros Hp Ha Hb. apply (all_bytes_spec (p a)); [|done].
  by apply (all_bytes_spec (fun a => forallb (p a) all_bytes)).
Qed.

Lemma ct_is_eq_spec a b :
  0 <= a < 256 -> 0 <= b < 256 -> ct_is_eq a b = if a =? b then 255 else 0.
Proof.
  intros Ha Hb. apply Z.eqb_eq.
  apply (all_byte_pairs_spec (fun a b => ct_is_eq a b =? if a =? b then 255 else 0));
    [by vm_compute|done|done].
Qed.

Lemma ct_is_lt_spec a b :
  0 <= a < 256 -> 0 <= b < 256 -> ct_is_lt a b = if a <? b then 255 else 0.
Proof.
  intros Ha Hb. apply Z.eqb_eq.
  apply (all_byte_pairs_spec (fun a b => ct_is_lt a b =? if a <? b then 255 else 0));
    [by vm_compute|done|done].
Qed.

Lemma ct_select_ones a b : 0 <= a < 256 -> 0 <= b < 256 -> ct_select 255 a b = a.
Proof.
  intros Ha Hb. apply Z.eqb_eq.
  apply (all_byte_pairs_spec (fun a b => ct_select 255 a b =? a)); [by vm_compute|done|done].
Qed.

Lemma ct_select_zero a b : ct_select 0 a b = b.
Proof. unfold ct_select. by rewrite Z.land_0_l, Z.lxor_0_r. Qed.

Lemma ct_cmp_step_spec r a b :
  0 <= r < 256 -> 0 <= a < 256 -> 0 <= b < 256 ->
  ct_cmp_step r a b = if a =? b then r else if a <? b then 1 else 255.
Proof.
  intros Hr Ha Hb. unfold ct_cmp_step. rewrite ct_is_eq_spec, ct_is_lt_spec by done.
  destruct (Z.ltb_spec a b), (Z.eqb_spec a b); try lia.
  - by rewrite ct_select_zero, ct_select_ones by lia.
  - by rewrite ct_select_zero, ct_select_ones by lia.
  - by rewrite !ct_select_zero.
Qed.

(** Lexicographic comparison of equally long byte strings. *)
Fixpoint lex_cmp (x y : bytes) : comparison :=
  match x, y with
  | a :: x, b :: y =>
      match u8 a ?= u8 b with Eq => lex_cmp x y | c => c end
  | _, _ => Eq
  end.

Definition cmp_code (c : comparison) : Z := match c with Eq => 0 | Lt => 1 | Gt => 255 end.

Lemma ct_cmp_loop_spec x y : ct_cmp_loop x y = cmp_code (lex_cmp x y).
Proof.
  revert y. induction x as [|a x IH]; intros [|b y]; simpl; try done.
  rewrite IH. pose proof (u8_range a). pose proof (u8_range b).
  rewrite ct_cmp_step_spec; [|destruct (lex_cmp x y); simpl; lia|done|done].
  destruct (Z.compare_spec (u8 a) (u8 b)) as [E|E|E].
  - by rewrite E, Z.eqb_refl.
  - destruct (Z.eqb_spec (u8 a) (u8 b)); [lia|]. by destruct (Z.ltb_spec (u8 a) (u8 b)); [|lia].
  - destruct (Z.eqb_spec (u8 a) (u8 b)); [lia|]. by destruct (Z.ltb_spec (u8 a) (u8 b)); [lia|].
Qed.

(** The length first, then the bytes from the first one on. *)
Definition shortlex_cmp (x y : bytes) : comparison :=
  match Nat.compare (length x) (length y) with Eq => lex_cmp x y | c => c end.

(** The branch-free comparison computes the shortlex order: a shorter
    string is smaller, and strings of one length compare byte by byte. *)
Theorem constant_time_cmp_shortlex x y : constant_time_cmp x y = shortlex_cmp x y.
Proof.
  unfold constant_time_cmp, shortlex_cmp. rewrite ct_cmp_loop_spec.
  destruct (Nat.compare_spec (length x) (length y)) as [E|E|E].
  - destruct (Nat.ltb_spec (length x) (length y)); [lia|].
    destruct (Nat.ltb_spec (length y) (length x)); [lia|]. by destruct (lex_cmp x y).
  - by destruct (Nat.ltb_spec (length x) (length y)); [|lia].
  - destruct (Nat.ltb_spec (length x) (length y)); [lia|].
    by destruct (Nat.ltb_spec (length y) (length x)); [|lia].
Qed.

(** ** Serialization of keys *)

Lemma array_32_cases (k : array 32) : arr k <> [].
Proof. intros E. pose proof (array_length k) as H. by rewrite E in H. Qed.

Lemma PublicKey_serialize_length k : length (PublicKey_serialize k) = 33%nat.
Proof. destruct k as [v]. simpl. by rewrite array_length. Qed.

Lemma PublicKey_serialize_inj k1 k2 :
  PublicKey_serialize k1 = PublicKey_serialize k2 -> k1 = k2.
Proof. destruct k1, k2. simpl. intros [= H]. f_equal. by apply array_eq. Qed.

Lemma PublicKey_deserialize_serialize_app k tail :
  PublicKey_deserialize (PublicKey_serialize k ++ tail) = Ok k.
Proof.
  destruct k as [v]. cbn -[length Nat.ltb].
  rewrite length_app, array_length.
  destruct (Nat.ltb_spec (32 + length tail) PUBLIC_KEY_LENGTH) as [H|_];
    [unfold PUBLIC_KEY_LENGTH in H; lia|].
  do 2 f_equal. unfold PUBLIC_KEY_LENGTH. rewrite take_app_length' by (by rewrite array_length).
  apply to_array_id.
Qed.

Lemma PublicKey_deserialize_serialize k : PublicKey_deserialize (PublicKey_serialize k) = Ok k.
Proof. rewrite <- (app_nil_r (PublicKey_serialize k)). apply PublicKey_deserialize_serialize_app. Qed.

Lemma PublicKey_eqb_spec a b : PublicKey_eqb a b = bool_decide (a = b).
Proof.
  destruct a as [a], b as [b]. unfold PublicKey_eqb. simpl.
  apply bool_decide_ext.
  split; [intros; f_equal; by apply array_eq|by intros [= ->]].
Qed.

Lemma PublicKey_eqb_true a b : PublicKey_eqb a b = true <-> a = b.
Proof. rewrite PublicKey_eqb_spec. apply bool_decide_eq_true. Qed.

Lemma PublicKey_eqb_refl a : PublicKey_eqb a a = true.
Proof. by apply PublicKey_eqb_true. Qed.

Create HintDb rust.
#[export] Hint Rewrite PublicKey_deserialize_serialize PublicKey_eqb_refl : rust.

(** Deserializing a serialized key returns it, and bytes after the key
    are ignored; serialized keys are 33 bytes long. *)
Theorem public_key_round_trip k tail :
  PublicKey_deserialize (PublicKey_serialize k ++ tail) = Ok k /\
  length (PublicKey_serialize k) = 33%nat.
Proof.
  split; [apply PublicKey_deserialize_serialize_app|apply PublicKey_serialize_length].
Qed.

(** ** The canonical-coordinate test *)

Lemma land_128_spec b : 0 <= b < 256 -> (Z.land b 128 =? 0) = (b <? 128).
Proof.
  intros Hb. apply eqb_prop.
  by apply (all_bytes_spec (fun b => Bool.eqb (Z.land b 128 =? 0) (b <? 128))); [vm_compute|].
Qed.

Lemma le_value_ones n : le_value (replicate n Byte.xff) = 256 ^ Z.of_nat n - 1.
Proof.
  induction n as [|n IH]; [done|].
  cbn [replicate le_value]. rewrite IH, Nat2Z.inj_succ, Z.pow_succ_r by lia.
  change (u8 Byte.xff) with 255. lia.
Qed.

Lemma le_value_not_ones l :
  l <> replicate (length l) Byte.xff -> le_value l <= 256 ^ Z.of_nat (length l) - 2.
Proof.
  intros Hl. pose proof (le_value_bound l).
  destruct (decide (le_value l = 256 ^ Z.of_nat (length l) - 1)) as [E|E]; [|lia].
  exfalso. apply Hl. apply le_value_inj; [by rewrite length_replicate|].
  by rewrite le_value_ones.
Qed.

(** An array of 32 bytes as its first byte, the 30 in the middle and the last. *)
Lemma array_32_split (k : array 32) :
  exists b0 mid b31, arr k = b0 :: mid ++ [b31] /\ length mid = 30%nat.
Proof.
  pose proof (array_length k) as H.
  destruct (arr k) as [|b0 l]; [done|].
  destruct l as [|b31 mid _] using rev_ind; [done|].
  exists b0, mid, b31. split; [done|].
  simpl in H. rewrite length_app in H. simpl in H. lia.
Qed.

(** [scalar_is_in_range] accepts exactly the little-endian coordinates
    below the field prime 2^255 - 19. *)
Theorem scalar_is_in_range_spec (k : array 32) :
  scalar_is_in_range (DjbPublicKey k) = true <-> le_value (arr k) < 2 ^ 255 - 19.
Proof.
  destruct (array_32_split k) as (b0 & mid & b31 & Hk & Hmid).
  unfold scalar_is_in_range. rewrite Hk.
  assert (byte_at 31 (b0 :: mid ++ [b31]) = u8 b31) as ->.
  { unfold byte_at. rewrite lookup_cons_ne_0, lookup_app_r by lia. by rewrite Hmid. }
  assert (slice 1 31 (b0 :: mid ++ [b31]) = mid) as ->.
  { unfold slice. change (drop 1 (b0 :: mid ++ [b31])) with (mid ++ [b31]).
    change (31 - 1)%nat with 30%nat. by rewrite take_app_length' by lia. }
  change (byte_at 0 (b0 :: mid ++ [b31])) with (u8 b0).
  change (wrapping_sub_u8 0 19) with 237.
  cbn [le_value]. rewrite le_value_app, Hmid. cbn [le_value].
  pose proof (u8_range b0). pose proof (u8_range b31).
  pose proof (le_value_bound mid) as Hb. rewrite Hmid in Hb.
  rewrite land_128_spec by done.
  change (256 ^ Z.of_nat 30) with (2 ^ 240) in *. change (2 ^ 255) with (2 ^ 240 * 2 ^ 15).
  rewrite Z.mul_0_r, Z.add_0_r.
  rewrite negb_true_iff, orb_false_iff, negb_false_iff, !andb_false_iff.
  rewrite Z.ltb_lt, Z.leb_gt, bool_decide_eq_false, Z.eqb_neq.
  split.
  - intros [H31 [[?|Hne]|?]]; [lia| |lia].
    rewrite <- Hmid in Hne. apply le_value_not_ones in Hne. rewrite Hmid in Hne.
    change (256 ^ Z.of_nat 30) with (2 ^ 240) in Hne. lia.
  - intros Hlt. split; [lia|].
    destruct (decide (mid = replicate 30 Byte.xff)) as [->|]; [|by left; right].
    rewrite le_value_ones in Hlt. change (256 ^ Z.of_nat 30) with (2 ^ 240) in Hlt.
    destruct (decide (u8 b31 = 127)); [left; left; lia|by right].
Qed.

(** ** XEdDSA *)

Lemma byte_at_range i l : 0 <= byte_at i l < 256.
Proof. apply u8_range. Qed.

Lemma byte_at_app_r i (l1 l2 : bytes) :
  (length l1 <= i)%nat -> byte_at i (l1 ++ l2) = byte_at (i - length l1) l2.
Proof. intros. unfold byte_at. by rewrite lookup_app_r by done. Qed.

Lemma byte_at_insert i x (l : bytes) :
  (i < length l)%nat -> byte_at i (<[i := x]> l) = u8 x.
Proof. intros. unfold byte_at. by rewrite list_lookup_insert_eq by done. Qed.

Lemma insert_byte_at i (l : bytes) :
  (i < length l)%nat -> <[i := as_u8 (byte_at i l)]> l = l.
Proof.
  intros Hi. unfold byte_at. destruct (lookup_lt_is_Some_2 l i Hi) as [b Hb].
  rewrite Hb. simpl. rewrite as_u8_u8. by apply list_insert_id.
Qed.

(** The sign bit can be put in the top bit of a scalar byte below 32 and read
    back, and the scalar byte recovered. *)
Lemma sign_bit_pack s g :
  0 <= s < 32 -> 0 <= g < 256 ->
  let top := Z.lor (Z.land s 127) (Z.land g 128) in
  0 <= top < 256 /\ Z.land top 128 = Z.land g 128 /\ Z.land top 127 = s /\ Z.land s 224 = 0.
Proof.
  intros Hs Hg.
  pose (p := fun s g => implb (s <? 32)
    (let top := Z.lor (Z.land s 127) (Z.land g 128) in
     (0 <=? top) && (top <? 256) && (Z.land top 128 =? Z.land g 128)
     && (Z.land top 127 =? s) && (Z.land s 224 =? 0))).
  assert (Hp : p s g = true).
  { apply all_byte_pairs_spec; [by vm_compute|lia|done]. }
  unfold p in Hp. destruct (Z.ltb_spec s 32); [|lia]. simpl in Hp. simpl.
  rewrite !andb_true_iff in Hp. destruct Hp as [[[[? ?] ?] ?] ?].
  repeat split; lia.
Qed.

Section xeddsa.
Context {P : Primitives} {L : EdwardsLaws} {X : X25519Laws}.

(** Replacing the last byte of an appended 32-byte array. *)
Lemma insert_63 (r s : array 32) x : <[63%nat := x]> (arr r ++ arr s) = arr r ++ <[31%nat := x]> (arr s).
Proof. by rewrite insert_app_r_alt, array_length by (rewrite array_length; lia). Qed.

(** What the verifier reads back from a signature [r ++ s'] whose last byte
    carries the sign bit of [g]. *)
Lemma signature_parts (r s : array 32) g :
  byte_at 31 s < 32 -> 0 <= g < 256 ->
  let sig := to_array 64 (<[63%nat := as_u8 (Z.lor (Z.land (byte_at 63 (r ++ s)) 127)
                                            (Z.land g 128))]> (r ++ s)) in
  to_array 32 (slice 0 32 sig) = r /\
  Z.land (byte_at 63 sig) 128 = Z.land g 128 /\
  (let s0 := slice 32 64 sig in
   <[31%nat := as_u8 (Z.land (byte_at 31 s0) 127)]> s0 = arr s).
Proof.
  intros Hs Hg. pose proof (byte_at_range 31 s).
  rewrite byte_at_app_r, array_length by (rewrite array_length; lia).
  change (63 - 32)%nat with 31%nat.
  destruct (sign_bit_pack (byte_at 31 s) g ltac:(lia) Hg) as (Ht & H128 & H127 & _).
  set (top := Z.lor _ _) in *. cbv zeta.
  rewrite insert_63, to_array_arr
    by (rewrite length_app, length_insert, !array_length; done).
  set (s' := <[31%nat := as_u8 top]> (arr s)).
  assert (Hs' : length s' = 32%nat) by (unfold s'; by rewrite length_insert, array_length).
  assert (Htop : byte_at 31 s' = top).
  { unfold s'. rewrite byte_at_insert by (rewrite array_length; lia).
    rewrite u8_as_u8. apply Z.mod_small. lia. }
  assert (slice 32 64 (arr r ++ s') = s') as ->.
  { unfold slice. rewrite drop_app_length' by (by rewrite array_length).
    by rewrite take_ge by (rewrite Hs'; lia). }
  split_and!.
  - unfold slice. rewrite drop_0. simpl (32 - 0)%nat.
    rewrite take_app_length' by (by rewrite array_length). apply to_array_id.
  - rewrite byte_at_app_r by (rewrite array_length; lia).
    rewrite array_length. change (63 - 32)%nat with 31%nat. by rewrite Htop, H128.
  - rewrite Htop, H127. unfold s'. rewrite list_insert_insert_eq.
    apply insert_byte_at. rewrite array_length. lia.
Qed.

Lemma SecretKey_verify_calculate k csprng message :
  let key := SecretKey_from k in
  SecretKey_verify_signature (derive_public_key_bytes key) message
    (SecretKey_calculate_signature key csprng message).1 = true.
Proof.
  cbv zeta. unfold SecretKey_calculate_signature, derive_public_key_bytes, SecretKey_from.
  cbn [secret]. destruct (fill_bytes 64 csprng) as [random csprng']. cbv zeta. cbn [fst].
  set (a := scalar_from_bytes_mod_order (clamp_integer k)).
  set (A := basepoint_mul a).
  set (r := scalar_from_hash (sha512 (hash_prefix ++ _))).
  set (R := point_compress (basepoint_mul r)).
  set (h := scalar_from_hash (sha512 (R ++ point_compress A ++ concat message))).
  set (s := scalar_add (scalar_mul h a) r).
  pose proof (byte_at_range 31 (point_compress A)) as Hg.
  assert (Hs : byte_at 31 (scalar_to_bytes s) < 32) by apply scalar_bytes_top.
  destruct (signature_parts R (scalar_to_bytes s) _ Hs Hg) as (HR & Hsign & Hs0).
  unfold SecretKey_verify_signature. rewrite Hsign.
  pose proof (to_edwards_public k) as HA. cbv zeta in HA. fold a in HA. fold A in HA.
  unfold byte_at at 1. rewrite HA.
  cbv zeta in Hs0. cbv zeta. rewrite Hs0, HR, to_array_id, scalar_bytes_canonical.
  pose proof (byte_at_range 31 (scalar_to_bytes s)).
  destruct (sign_bit_pack (byte_at 31 (scalar_to_bytes s)) 0 ltac:(lia) ltac:(lia))
    as (_ & _ & _ & ->). cbn [negb Z.eqb].
  fold h. unfold s, A. rewrite double_scalar_cancel. by apply bool_decide_eq_true_2.
Qed.

(** A key pair as [KeyPair::generate] returns it. *)
Definition well_formed_pair (kp : KeyPair) : Prop :=
  exists a, kp = mkKeyPair (DjbPublicKey (x25519_public (clamp_integer a)))
                           (DjbPrivateKey (clamp_integer a)).

Lemma KeyPair_generate_well_formed csprng : well_formed_pair (KeyPair_generate csprng).1.
Proof.
  unfold KeyPair_generate, SecretKey_new.
  destruct (fill_bytes 32 csprng) as [b csprng']. by exists b.
Qed.

Lemma calculate_signature_verifies kp csprng parts parts' :
  well_formed_pair kp -> concat parts' = concat parts ->
  exists sig csprng',
    calculate_signature_for_multipart_message (kp_private_key kp) parts csprng
      = (Ok sig, csprng') /\
    verify_signature_for_multipart_message (kp_public_key kp) parts' sig = true /\
    length sig = 64%nat.
Proof.
  intros [b ->] Hparts. cbn -[SecretKey_calculate_signature SecretKey_verify_signature SecretKey_from].
  pose proof (SecretKey_verify_calculate (clamp_integer b) csprng parts) as Hv.
  cbv zeta in Hv.
  destruct (SecretKey_calculate_signature (SecretKey_from (clamp_integer b)) csprng parts)
    as [sig csprng2].
  cbn [fst] in Hv. exists (arr sig), csprng2. split_and!; [done| |apply array_length].
  unfold SIGNATURE_LENGTH. rewrite try_array_arr.
  unfold derive_public_key_bytes, SecretKey_from in Hv. cbn [secret] in Hv.
  rewrite clamp_idem in Hv. rewrite <- Hv.
  unfold SecretKey_verify_signature. by rewrite Hparts.
Qed.

(** XEdDSA signatures verify: what [PrivateKey::calculate_signature] of
    a generated key pair produces, [PublicKey::verify_signature] accepts, for
    every message, randomness and split of the message into parts. *)
Theorem xeddsa_sign_verify csprng csprng' parts parts' :
  concat parts' = concat parts ->
  let '(kp, _) := KeyPair_generate csprng in
  exists sig csprng'',
    calculate_signature_for_multipart_message (kp_private_key kp) parts csprng'
      = (Ok sig, csprng'') /\
    verify_signature_for_multipart_message (kp_public_key kp) parts' sig = true.
Proof.
  intros Hparts. pose proof (KeyPair_generate_well_formed csprng) as Hwf.
  destruct (KeyPair_generate csprng) as [kp c].
  destruct (calculate_signature_verifies kp csprng' parts parts' Hwf Hparts)
    as (sig & c' & ? & ? & _). eauto.
Qed.

(** Agreement between two generated key pairs. *)
Lemma agreement_comm kp1 kp2 :
  well_formed_pair kp1 -> well_formed_pair kp2 ->
  calculate_agreement (kp_private_key kp1) (kp_public_key kp2) =
  calculate_agreement (kp_private_key kp2) (kp_public_key kp1).
Proof.
  intros [a ->] [b ->]. cbn. unfold SecretKey_calculate_agreement. cbn.
  by rewrite !clamp_idem, x25519_comm.
Qed.

Lemma agreement_ok k pk : exists s, calculate_agreement k pk = Ok s.
Proof. destruct k, pk. eexists. done. Qed.

Lemma well_formed_pair_canonical kp :
  well_formed_pair kp -> is_canonical (kp_public_key kp) = true.
Proof.
  intros [a ->]. unfold is_canonical, is_torsion_free. cbn [kp_public_key].
  destruct (x25519_public_torsion_free a) as (p & -> & ->).
  rewrite (proj2 (scalar_is_in_range_spec _)); [done|]. apply x25519_public_reduced.
Qed.

(** A stored key pair reads back: private keys are clamped again. *)
Lemma KeyPair_read_back kp :
  well_formed_pair kp ->
  KeyPair_from_public_and_private (PublicKey_serialize (kp_public_key kp))
    (PrivateKey_serialize (kp_private_key kp)) = Ok kp.
Proof.
  intros [a ->]. unfold KeyPair_from_public_and_private. cbn [kp_public_key kp_private_key].
  rewrite PublicKey_deserialize_serialize. cbn -[PRIVATE_KEY_LENGTH].
  unfold PrivateKey_deserialize, PRIVATE_KEY_LENGTH. rewrite try_array_arr. cbn.
  by rewrite clamp_idem.
Qed.

Lemma PrivateKey_read_back kp :
  well_formed_pair kp ->
  PrivateKey_deserialize (PrivateKey_serialize (kp_private_key kp)) = Ok (kp_private_key kp).
Proof.
  intros [a ->]. cbn [kp_private_key PrivateKey_serialize].
  unfold PrivateKey_deserialize, PRIVATE_KEY_LENGTH. by rewrite try_array_arr, clamp_idem.
Qed.
End xeddsa.
