(* ===== verification/Kem.v ===== *)
(** * Kem: key encapsulation (rust/protocol/src/kem.rs, kem/kyber1024.rs)

    Keys and ciphertexts carry a type byte in front of the raw bytes of
    libcrux's Kyber1024, the only KEM the default features compile in.  The
    [Parameters] trait is the record [DynParameters] of its constants and
    functions, and [KeyType::parameters] selects the Kyber1024 instance. *)

From S2P Require Import Prelude Types Primitives.
Open Scope string_scope.
Open Scope list_scope.
Open Scope Z_scope.

Definition KemKeyType_value (t : KemKeyType) : byte := match t with Kyber1024 => Byte.x08 end.

Definition KemKeyType_try_from (x : byte) : Result KemKeyType :=
  if u8 x =? 8 then Ok Kyber1024 else Err (BadKEMKeyType (u8 x)).

Section kem.
Context {P : Primitives}.

(** [Parameters for kyber1024::Parameters] (kyber1024.rs): libcrux's keys and
    ciphertexts are arrays, so [try_from] a slice checks the length. *)
Definition Kyber1024_generate (csprng : Rng) : (bytes * bytes) * Rng :=
  let '(r, csprng) := random_array 64 csprng in
  let '(sk, pk) := kyber1024_generate_key_pair r in
  ((pk, sk), csprng).

(** [None] is [BadKEMKeyLength]. *)
Definition Kyber1024_encapsulate (pub_key : bytes) (csprng : Rng) : option (bytes * bytes) * Rng :=
  if (length pub_key =? kyber1024_public_key_length)%nat then
    let '(r, csprng) := random_array 32 csprng in
    let '(kyber_ct, kyber_ss) := kyber1024_encapsulate pub_key r in
    (Some (kyber_ss, kyber_ct), csprng)
  else (None, csprng).

Inductive DecapsulateError := BadKeyLength_ | BadCiphertext.

Definition Kyber1024_decapsulate (secret_key ciphertext : bytes) : outcome DecapsulateError bytes :=
  if (length secret_key =? kyber1024_secret_key_length)%nat then
    if (length ciphertext =? kyber1024_ciphertext_length)%nat then
      Ok (kyber1024_decapsulate secret_key ciphertext)
    else Err BadCiphertext
  else Err BadKeyLength_.

(** [DynParameters], with the error conversions of its blanket impl. *)
Record DynParameters := mkDynParameters {
  dp_public_key_length : nat;
  dp_secret_key_length : nat;
  dp_ciphertext_length : nat;
  dp_generate : Rng -> (bytes * bytes) * Rng;
  dp_encapsulate : bytes -> M Rng SignalProtocolError (bytes * bytes);
  dp_decapsulate : bytes -> bytes -> Result bytes
}.

Definition dyn_encapsulate (t : KemKeyType) (enc : bytes -> Rng -> option (bytes * bytes) * Rng)
    (pub_key : bytes) : M Rng SignalProtocolError (bytes * bytes) := fun csprng =>
  let '(r, csprng) := enc pub_key csprng in
  (ok_or (BadKEMKeyLength t (length pub_key)) r, csprng).

Definition dyn_decapsulate (t : KemKeyType)
    (dec : bytes -> bytes -> outcome DecapsulateError bytes)
    (secret_key ciphertext : bytes) : Result bytes :=
  map_err (fun e => match e with
                    | BadKeyLength_ => BadKEMKeyLength t (length secret_key)
                    | BadCiphertext => BadKEMCiphertextLength t (length ciphertext)
                    end) (dec secret_key ciphertext).

(** [KeyType::parameters]. *)
Definition parameters (t : KemKeyType) : DynParameters :=
  match t with
  | Kyber1024 =>
      mkDynParameters kyber1024_public_key_length kyber1024_secret_key_length
        kyber1024_ciphertext_length Kyber1024_generate
        (dyn_encapsulate Kyber1024 Kyber1024_encapsulate)
        (dyn_decapsulate Kyber1024 Kyber1024_decapsulate)
  end.

(** [KeyKind]: whether a [Key<T>] is public or secret. *)
Inductive KeyKind := Public | Secret.
Definition key_length (k : KeyKind) (t : KemKeyType) : nat :=
  match k with
  | Public => dp_public_key_length (parameters t)
  | Secret => dp_secret_key_length (parameters t)
  end.

(** [Key<T>]. *)
Record Key (k : KeyKind) := mkKey { key_type : KemKeyType; kem_key_data : bytes }.
Arguments mkKey {k} _ _.
Arguments key_type {k} _.
Arguments kem_key_data {k} _.
Definition KemPublicKey : Type := Key Public.
Definition KemSecretKey : Type := Key Secret.

Definition Key_deserialize (k : KeyKind) (value : bytes) : Result (Key k) :=
  match value with
  | [] => Err NoKeyTypeIdentifier
  | b :: data =>
      t ← KemKeyType_try_from b;
      if negb (length value =? key_length k t + 1)%nat
      then Err (BadKEMKeyLength t (length value))
      else Ok (mkKey t data)
  end.

Definition Key_serialize {k} (key : Key k) : bytes :=
  KemKeyType_value (key_type key) :: kem_key_data key.

(** [ConstantTimeEq for Key<Public>]. *)
Definition Key_eqb (a b : KemPublicKey) : bool :=
  if negb (bool_decide (key_type a = key_type b)) then false
  else bool_decide (kem_key_data a = kem_key_data b).

(** [Ciphertext]. *)
Record Ciphertext := mkCiphertext { ct_key_type : KemKeyType; ct_data : bytes }.

Definition Ciphertext_deserialize (value : bytes) : Result Ciphertext :=
  match value with
  | [] => Err NoKeyTypeIdentifier
  | b :: data =>
      t ← KemKeyType_try_from b;
      if negb (length value =? dp_ciphertext_length (parameters t) + 1)%nat
      then Err (BadKEMCiphertextLength t (length value))
      else Ok (mkCiphertext t data)
  end.

Definition Ciphertext_serialize (c : Ciphertext) : bytes :=
  KemKeyType_value (ct_key_type c) :: ct_data c.

(** [Key<Public>::encapsulate]: the shared secret and the ciphertext. *)
Definition Key_encapsulate (key : KemPublicKey)
  : M Rng SignalProtocolError (bytes * bytes) :=
  '(ss, ct) ← dp_encapsulate (parameters (key_type key)) (kem_key_data key);
  mret (ss, Ciphertext_serialize (mkCiphertext (key_type key) ct)).

(** [Key<Secret>::decapsulate]. *)
Definition Key_decapsulate (key : KemSecretKey) (ct_bytes : bytes) : Result bytes :=
  ct ← Ciphertext_deserialize ct_bytes;
  if negb (bool_decide (ct_key_type ct = key_type key))
  then Err (WrongKEMKeyType (u8 (KemKeyType_value (ct_key_type ct)))
                            (u8 (KemKeyType_value (key_type key))))
  else dp_decapsulate (parameters (key_type key)) (kem_key_data key) (ct_data ct).

(** [kem::KeyPair]. *)
Record KemKeyPair := mkKemKeyPair {
  kkp_public_key : KemPublicKey;
  kkp_secret_key : KemSecretKey
}.

Definition KemKeyPair_generate (t : KemKeyType) (csprng : Rng) : KemKeyPair * Rng :=
  let '((pk, sk), csprng) := dp_generate (parameters t) csprng in
  (mkKemKeyPair (mkKey t pk) (mkKey t sk), csprng).

(** [KeyPair::new] asserts that the types agree. *)
Definition KemKeyPair_new (pk : KemPublicKey) (sk : KemSecretKey)
  : Result KemKeyPair :=
  if bool_decide (key_type pk = key_type sk) then Ok (mkKemKeyPair pk sk) else Panic.

Definition KemKeyPair_from_public_and_private (public_key secret_key : bytes)
  : Result KemKeyPair :=
  pk ← Key_deserialize Public public_key;
  sk ← Key_deserialize Secret secret_key;
  if negb (bool_decide (key_type pk = key_type sk))
  then Err (WrongKEMKeyType (u8 (KemKeyType_value (key_type sk)))
                            (u8 (KemKeyType_value (key_type pk))))
  else Ok (mkKemKeyPair pk sk).
End kem.

Arguments mkKey {k} _ _.
Arguments key_type {k} _.
Arguments kem_key_data {k} _.

(** ** Facts *)

Section kem_facts.
Context {P : Primitives}.

(** A key whose data has the length of its type. *)
Definition key_ok {k} (key : Key k) : Prop :=
  length (kem_key_data key) = key_length k (key_type key).

Lemma Key_deserialize_serialize k (key : Key k) :
  key_ok key -> Key_deserialize k (Key_serialize key) = Ok key.
Proof.
  destruct key as [[] data]. unfold key_ok, Key_deserialize, Key_serialize.
  cbn -[Nat.eqb]. intros ->. by rewrite Nat.add_1_r, Nat.eqb_refl.
Qed.

Lemma Key_deserialize_ok k value (key : Key k) :
  Key_deserialize k value = Ok key -> key_ok key /\ Key_serialize key = value.
Proof.
  unfold Key_deserialize, KemKeyType_try_from, key_ok. destruct value as [|b data]; [done|].
  destruct (Z.eqb_spec (u8 b) 8) as [Hb|]; [|done]. cbn -[Nat.eqb].
  destruct (Nat.eqb_spec (S (length data)) (key_length k Kyber1024 + 1)) as [Hl|];
    [|destruct k; done].
  destruct k; intros [= <-]; cbn in *; (split; [lia|]); unfold Key_serialize; cbn;
    f_equal; by apply u8_inj.
Qed.

Context {L : KemLaws}.

(** A pair as [KeyPair::generate] returns it. *)
Definition generated_pair (kp : KemKeyPair) : Prop :=
  exists r, let '(sk, pk) := kyber1024_generate_key_pair r in
            kp = mkKemKeyPair (mkKey Kyber1024 pk) (mkKey Kyber1024 sk).

Lemma KemKeyPair_generate_generated t csprng : generated_pair (KemKeyPair_generate t csprng).1.
Proof.
  destruct t. unfold KemKeyPair_generate. cbn. unfold Kyber1024_generate.
  destruct (random_array 64 csprng) as [r c]. unfold generated_pair.
  destruct (kyber1024_generate_key_pair r) as [sk pk] eqn:E. exists r. by rewrite E.
Qed.

Lemma generated_pair_ok kp :
  generated_pair kp -> key_ok (kkp_public_key kp) /\ key_ok (kkp_secret_key kp).
Proof.
  intros [r Hr]. pose proof (kyber_key_lengths r) as [Hs Hp].
  destruct (kyber1024_generate_key_pair r) as [sk pk]. by subst kp.
Qed.

Lemma KemKeyPair_read_back kp :
  generated_pair kp ->
  KemKeyPair_from_public_and_private (Key_serialize (kkp_public_key kp))
    (Key_serialize (kkp_secret_key kp)) = Ok kp.
Proof.
  intros Hg. pose proof (generated_pair_ok kp Hg) as [Hp Hs].
  unfold KemKeyPair_from_public_and_private.
  rewrite (Key_deserialize_serialize _ _ Hp). cbn [mbind outcome_bind].
  rewrite (Key_deserialize_serialize _ _ Hs). cbn [mbind outcome_bind].
  destruct kp as [[[] pk] [[] sk]]. done.
Qed.

Lemma Ciphertext_deserialize_serialize t data :
  length data = dp_ciphertext_length (parameters t) ->
  Ciphertext_deserialize (Ciphertext_serialize (mkCiphertext t data)) = Ok (mkCiphertext t data).
Proof.
  destruct t. unfold Ciphertext_deserialize, Ciphertext_serialize. cbn -[Nat.eqb]. intros ->.
  by rewrite Nat.add_1_r, Nat.eqb_refl.
Qed.

(** The owner of a generated pair recovers the secret that was encapsulated
    to its public key. *)
Lemma kem_agreement kp csprng :
  generated_pair kp ->
  exists ss ct csprng',
    Key_encapsulate (kkp_public_key kp) csprng = (Ok (ss, ct), csprng') /\
    Key_decapsulate (kkp_secret_key kp) ct = Ok ss.
Proof.
  intros Hg. pose proof (generated_pair_ok kp Hg) as [Hp Hs]. destruct Hg as [r Hr].
  destruct (random_array 32 csprng) as [r' csprng'] eqn:Erng.
  pose proof (kyber_round_trip r r') as Hrt.
  destruct (kyber1024_generate_key_pair r) as [sk pk]. subst kp. unfold key_ok in *. cbn in *.
  pose proof (kyber_ciphertext_length pk r') as Hct.
  destruct (kyber1024_encapsulate pk r') as [ct ss] eqn:Eenc. cbn in Hct.
  exists ss, (Ciphertext_serialize (mkCiphertext Kyber1024 ct)), csprng'. split.
  - unfold Key_encapsulate. rewrite M_bind_eq. cbn -[Nat.eqb]. unfold dyn_encapsulate.
    unfold Kyber1024_encapsulate. by rewrite Hp, Nat.eqb_refl, Erng, Eenc.
  - unfold Key_decapsulate. rewrite Ciphertext_deserialize_serialize by done.
    cbn -[Nat.eqb]. unfold dyn_decapsulate, Kyber1024_decapsulate.
    rewrite Hs, Nat.eqb_refl, Hct, Nat.eqb_refl. cbn. by rewrite Hrt.
Qed.
(** Key encapsulation.  What is encapsulated to the public half of a
    generated pair is recovered with the secret half; and decapsulation with
    it succeeds on exactly the byte strings that are a type byte followed by a
    ciphertext of the right length; anything else is an error, not a panic. *)
Theorem kem_decapsulation_spec kp csprng :
  generated_pair kp ->
  (exists ss ct csprng', Key_encapsulate (kkp_public_key kp) csprng = (Ok (ss, ct), csprng') /\
     Key_decapsulate (kkp_secret_key kp) ct = Ok ss) /\
  (forall b, match Key_decapsulate (kkp_secret_key kp) b with
             | Ok _ => exists d, b = KemKeyType_value Kyber1024 :: d /\ length d = kyber1024_ciphertext_length
             | Err _ => ~ exists d, b = KemKeyType_value Kyber1024 :: d /\ length d = kyber1024_ciphertext_length
             | Panic => False
             end).
Proof.
  intros Hg. split; [by apply kem_agreement|]. intros b. pose proof (generated_pair_ok kp Hg) as [_ Hs].
  unfold Key_decapsulate, Ciphertext_deserialize. destruct b as [|x d]; [by intros (? & ? & _)|].
  destruct kp as [pk [[] sk]]. unfold key_ok in Hs. cbn in Hs.
  destruct (KemKeyType_try_from x) as [t| |] eqn:Et; cbn [mbind outcome_bind].
  - destruct t. assert (x = KemKeyType_value Kyber1024) as ->.
    { revert Et. destruct x; vm_compute; congruence. }
    cbn -[Nat.eqb kyber1024_ciphertext_length]. destruct (Nat.eqb_spec (S (length d)) (kyber1024_ciphertext_length + 1)) as [E|E].
    + cbn -[Nat.eqb]. unfold dyn_decapsulate, Kyber1024_decapsulate.
      rewrite Hs, Nat.eqb_refl. rewrite (proj2 (Nat.eqb_eq _ _)) by lia. cbn. exists d. split; [done|lia].
    + cbn. intros (d' & [= <-] & Hd). lia.
  - intros (d' & [= -> <-] & _). by vm_compute in Et.
  - revert Et. destruct x; vm_compute; congruence.
Qed.
End kem_facts.
