(* ===== verification/Crypto.v ===== *)
(** * Crypto: symmetric encryption (rust/crypto/src/aes_cbc.rs,
    rust/protocol/src/crypto.rs)

    AES-256-CBC as messages use it, and the AES-256-CTR with a truncated
    HMAC-SHA256 that sealed sender uses; keys and IVs arrive as slices and are
    rejected when their length is wrong. *)

From S2P Require Import Prelude Types Primitives.
Open Scope string_scope.
Open Scope list_scope.
Open Scope Z_scope.

Inductive EncryptionError := EncBadKeyOrIv.
Inductive DecryptionError := DecBadKeyOrIv | BadCiphertext_ (msg : string).

Section crypto.
Context {P : Primitives}.

(** [new_from_slices(key, iv)] of the AES-256 modes. *)
Definition key_iv (key iv : bytes) : option (array 32 * array 16) :=
  match try_array 32 key, try_array 16 iv with
  | Some key, Some iv => Some (key, iv)
  | _, _ => None
  end.

Definition aes_256_cbc_encrypt (ptext key iv : bytes) : outcome EncryptionError bytes :=
  '(key, iv) ← ok_or EncBadKeyOrIv (key_iv key iv);
  Ok (aes256_cbc_pkcs7_encrypt key iv ptext).

Definition aes_256_cbc_decrypt (ctext key iv : bytes) : outcome DecryptionError bytes :=
  if (length ctext =? 0)%nat || negb (length ctext mod 16 =? 0)%nat
  then Err (BadCiphertext_ "ciphertext length must be a non-zero multiple of 16")
  else
    '(key, iv) ← ok_or DecBadKeyOrIv (key_iv key iv);
    ok_or (BadCiphertext_ "failed to decrypt") (aes256_cbc_pkcs7_decrypt key iv ctext).

Definition aes_256_ctr_encrypt (ptext key : bytes) : outcome EncryptionError bytes :=
  key ← ok_or EncBadKeyOrIv (try_array 32 key);
  Ok (aes256_ctr32be key (zeros 16) ptext).

Definition aes_256_ctr_decrypt (ctext key : bytes) : outcome DecryptionError bytes :=
  map_err (fun 'EncBadKeyOrIv => DecBadKeyOrIv) (aes_256_ctr_encrypt ctext key).

Definition hmac_sha256 (key input : bytes) : array 32 := hmac_sha256_mac key input.

Definition aes256_ctr_hmacsha256_encrypt (msg cipher_key mac_key : bytes)
  : outcome EncryptionError bytes :=
  ctext ← aes_256_ctr_encrypt msg cipher_key;
  let mac := hmac_sha256 mac_key ctext in
  Ok (ctext ++ take 10 (arr mac)).

Definition aes256_ctr_hmacsha256_decrypt (ctext cipher_key mac_key : bytes)
  : outcome DecryptionError bytes :=
  if (length ctext <? 10)%nat then Err (BadCiphertext_ "truncated ciphertext")
  else
    let ptext_len := (length ctext - 10)%nat in
    let our_mac := hmac_sha256 mac_key (take ptext_len ctext) in
    if negb (bool_decide (take 10 (arr our_mac) = drop ptext_len ctext))
    then Err (BadCiphertext_ "MAC verification failed")
    else aes_256_ctr_decrypt (take ptext_len ctext) cipher_key.
End crypto.

Section crypto_facts.
Context {P : Primitives} {L : AesLaws}.

Lemma key_iv_arr (key : array 32) (iv : array 16) : key_iv key iv = Some (key, iv).
Proof. unfold key_iv. by rewrite !try_array_arr. Qed.

(** What CBC encrypts under a well-formed key, CBC decrypts. *)
Lemma aes_256_cbc_round_trip ptext (key : array 32) (iv : array 16) :
  exists ctext, aes_256_cbc_encrypt ptext key iv = Ok ctext /\
                aes_256_cbc_decrypt ctext key iv = Ok ptext.
Proof.
  unfold aes_256_cbc_encrypt, aes_256_cbc_decrypt. rewrite !key_iv_arr.
  cbn [ok_or mbind outcome_bind]. eexists. split; [done|].
  destruct (cbc_blocks key iv ptext) as [n Hn]. rewrite Hn.
  rewrite (Nat.mul_comm 16), Nat.Div0.mod_mul.
  destruct (Nat.eqb_spec (S n * 16) 0); [lia|]. cbn. by rewrite cbc_round_trip.
Qed.

(** Authenticated CTR encryption round-trips, and decryption accepts a
    ciphertext only when its last ten bytes are the truncated MAC of the
    rest. *)
Theorem aes256_ctr_hmac_round_trip msg (cipher_key : array 32) mac_key :
  exists ctext,
    aes256_ctr_hmacsha256_encrypt msg cipher_key mac_key = Ok ctext /\
    aes256_ctr_hmacsha256_decrypt ctext cipher_key mac_key = Ok msg /\
    forall ctext' msg',
      aes256_ctr_hmacsha256_decrypt ctext' cipher_key mac_key = Ok msg' ->
      exists body, ctext' = body ++ take 10 (arr (hmac_sha256 mac_key body)) /\
                   msg' = aes256_ctr32be cipher_key (zeros 16) body.
Proof.
  unfold aes256_ctr_hmacsha256_encrypt, aes256_ctr_hmacsha256_decrypt,
    aes_256_ctr_decrypt, aes_256_ctr_encrypt.
  rewrite !try_array_arr. cbn [ok_or mbind outcome_bind map_err].
  eexists. split_and!; [done| |].
  - set (c := aes256_ctr32be cipher_key (zeros 16) msg).
    assert (length (take 10 (arr (hmac_sha256 mac_key c))) = 10%nat) as Hl
      by (rewrite length_take, array_length; lia).
    rewrite length_app, Hl. destruct (Nat.ltb_spec (length c + 10) 10); [lia|].
    replace (length c + 10 - 10)%nat with (length c) by lia.
    rewrite take_app_length, drop_app_length, bool_decide_eq_true_2 by done. cbn [negb].
    unfold c. by rewrite ctr_round_trip.
  - intros ctext' msg'. destruct (Nat.ltb_spec (length ctext') 10); [done|].
    case_bool_decide as Hmac; [|done]. cbn [negb]. intros [= <-].
    exists (take (length ctext' - 10) ctext'). split; [|done].
    by rewrite Hmac, take_drop.
Qed.
End crypto_facts.
