(* ===== verification/Usernames.v ===== *)
(** * Usernames: validation, hashing and proofs of usernames; username links
    (rust/usernames/src/constants.rs, error.rs, username.rs, username_links.rs)

    A username is a nickname and a number (the discriminator).  It is encoded as
    three scalars, whose combination of three base points is its hash; a poksho
    proof shows that a hash is of some scalars.  A link is an encrypted and
    authenticated username.  UsernamesSpec has the theorems. *)

From S2P Require Import Prelude Types Primitives Ristretto Sho Poksho ServiceId Crypto.
From Stdlib Require Import Ascii.
Open Scope string_scope.
Open Scope list_scope.
Open Scope Z_scope.

(** ** Constants *)

Definition MAX_NICKNAME_LENGTH : nat := 48.

(** [Range<usize>]. *)
Record Range := mkRange { range_start : Z; range_end : Z }.

Definition DISCRIMINATOR_RANGES : list Range :=
  [mkRange 1 100; mkRange 100 1000; mkRange 1000 10000; mkRange 10000 100000;
   mkRange 100000 1000000; mkRange 1000000 10000000; mkRange 10000000 100000000;
   mkRange 100000000 1000000000].
Definition CANDIDATES_PER_RANGE : list nat := [4; 3; 3; 2; 2; 2; 2; 2]%nat.

Definition byte_array (l : list Z) : array 32 := to_array 32 (as_u8 <$> l).
Definition COMPRESSED_BASE_POINTS_RAW : list (array 32) := byte_array <$> [
  [0x60; 0xb9; 0x93; 0x66; 0x3a; 0x3d; 0xae; 0xcc; 0x4c; 0x85; 0x2f; 0x53; 0x35; 0x47; 0xe3;
   0x5; 0x38; 0x8c; 0x2a; 0x50; 0xa5; 0x83; 0x93; 0xea; 0x27; 0x7d; 0xe4; 0xab; 0xf3; 0xde;
   0x54; 0x3a];
  [0xf2; 0xb6; 0xf1; 0xc8; 0x26; 0xfa; 0x36; 0x40; 0x20; 0x6f; 0x3b; 0x58; 0xb2; 0x28; 0x6b;
   0xde; 0xfd; 0xfd; 0xa6; 0xa5; 0x4f; 0xf9; 0x2; 0xf2; 0x4; 0xa7; 0x2d; 0xe7; 0x37; 0xd2;
   0x61; 0x57];
  [0x6; 0x6; 0xbd; 0x3a; 0xbf; 0xce; 0x4e; 0x96; 0x17; 0xd4; 0x48; 0xfb; 0x2c; 0xae; 0xb6;
   0xcc; 0x2; 0x8e; 0xc9; 0xa2; 0xb6; 0x2b; 0x10; 0xb3; 0xd9; 0xeb; 0x29; 0x48; 0xda; 0x6f;
   0x3f; 0x53]].

Definition USERNAME_LINK_ENTROPY_SIZE : nat := 32.
Definition USERNAME_LINK_LABEL_ENCRYPTION_KEY : bytes := byte_str "Signal Username Link Encryption Key".
Definition USERNAME_LINK_LABEL_AUTHENTICATION_KEY : bytes := byte_str "Signal Username Link Authentication Key".
Definition USERNAME_LINK_HMAC_LEN : nat := 32.
Definition USERNAME_LINK_KEY_SIZE : nat := 32.
Definition USERNAME_LINK_IV_SIZE : nat := 16.

(** ** Errors *)

Inductive UsernameError :=
| MissingSeparator
| NicknameCannotBeEmpty
| NicknameCannotStartWithDigit
| BadNicknameCharacter
| NicknameTooShort
| NicknameTooLong
| DiscriminatorCannotBeEmpty
| DiscriminatorCannotBeZero
| DiscriminatorCannotBeSingleDigit
| DiscriminatorCannotHaveLeadingZeros
| BadDiscriminatorCharacter
| DiscriminatorTooLarge.

#[export] Instance UsernameError_eq_dec : EqDecision UsernameError.
Proof. solve_decision. Defined.

Inductive ProofVerificationFailure := UsernameNotVerified.

Inductive UsernameLinkError :=
| InputDataTooLong
| InvalidEntropyDataLength
| UsernameLinkDataTooShort
| HmacMismatch
| BadLinkCiphertext
| InvalidDecryptedDataStructure.

#[export] Instance UsernameLinkError_eq_dec : EqDecision UsernameLinkError.
Proof. solve_decision. Defined.

(** ** Validation

    A nickname is a UTF-8 string.  The bytes of a character above 127 are all
    above 127, so reading it byte by byte finds a disallowed character
    exactly when reading it character by character does. *)

Definition code (c : ascii) : Z := Z.of_nat (nat_of_ascii c).
Definition is_ascii_digit (c : ascii) : bool := (48 <=? code c) && (code c <=? 57).

Fixpoint string_map (f : ascii -> ascii) (s : string) : string :=
  match s with EmptyString => EmptyString | String c s => String (f c) (string_map f s) end.
Definition ascii_lower (c : ascii) : ascii :=
  if (65 <=? code c) && (code c <=? 90) then ascii_of_nat (nat_of_ascii c + 32) else c.
Definition to_ascii_lowercase (s : string) : string := string_map ascii_lower s.
Definition is_ascii (s : string) : bool := forallb (fun c => code c <? 128) (String.list_ascii_of_string s).

(** [RangeInclusive<usize>]. *)
Record NicknameLimits := mkNicknameLimits { min_len : nat; max_len : nat }.

Definition NicknameLimits_new {E} (min_len max_len : nat) : outcome E NicknameLimits :=
  if negb (max_len <=? MAX_NICKNAME_LENGTH)%nat then Panic
  else if negb (min_len <? max_len)%nat then Panic
  else Ok (mkNicknameLimits min_len max_len).

Definition NicknameLimits_default {E} : outcome E NicknameLimits := NicknameLimits_new 3 32.

Definition NicknameLimits_validate (limits : NicknameLimits) (n : nat) : outcome UsernameError unit :=
  if (n <? min_len limits)%nat then Err NicknameTooShort
  else if (max_len limits <? n)%nat then Err NicknameTooLong
  else Ok tt.

Definition char_to_byte (c : ascii) : option byte :=
  if bool_decide (c = "_"%char) then Some Byte.x01
  else if (97 <=? code c) && (code c <=? 122) then Some (as_u8 (code c - 97 + 2))
  else if is_ascii_digit c then Some (as_u8 (code c - 48 + 28))
  else None.

Definition validate_prefix (s : string) : outcome UsernameError unit :=
  match s with
  | EmptyString => Err NicknameCannotBeEmpty
  | String ch _ => if is_ascii_digit ch then Err NicknameCannotStartWithDigit else Ok tt
  end.

(** At the type [u64], the one usernames are made with. *)
Definition validate_discriminator (discriminator : string) : outcome UsernameError Z :=
  match discriminator with
  | EmptyString => Err DiscriminatorCannotBeEmpty
  | String first_ascii_char _ =>
      if negb (is_ascii_digit first_ascii_char) then Err BadDiscriminatorCharacter
      else
        n ← match u64_from_str discriminator with
            | Ok n => Ok n
            | Err IntEmpty => Panic
            | Err IntInvalidDigit => Err BadDiscriminatorCharacter
            | Err IntPosOverflow => Err DiscriminatorTooLarge
            | Err IntZero => Err DiscriminatorCannotBeZero
            | Panic => Panic
            end;
        if n =? 0 then Err DiscriminatorCannotBeZero
        else
          match String.length discriminator with
          | 0%nat => Panic
          | 1%nat => Err DiscriminatorCannotBeSingleDigit
          | 2%nat => Ok n
          | _ => if (49 <=? code first_ascii_char) && (code first_ascii_char <=? 57) then Ok n
                 else Err DiscriminatorCannotHaveLeadingZeros
          end
  end.

Definition validate_nickname (nickname : string) (limits : NicknameLimits) : outcome UsernameError unit :=
  _ ← validate_prefix nickname;
  let maybe_bytes := mapM char_to_byte (String.list_ascii_of_string (to_ascii_lowercase nickname)) in
  bytes ← ok_or BadNicknameCharacter maybe_bytes;
  NicknameLimits_validate limits (length bytes).

(** [str::rsplit_once]: around the last separator. *)
Fixpoint rsplit_once (sep : ascii) (s : string) : option (string * string) :=
  match s with
  | EmptyString => None
  | String c s =>
      match rsplit_once sep s with
      | Some (l, r) => Some (String c l, r)
      | None => if bool_decide (c = sep) then Some (EmptyString, s) else None
      end
  end.

(** [{:02}] and [{:0>2}] of a number. *)
Definition pad2 (n : Z) : string :=
  let s := pretty n in if (String.length s <? 2)%nat then String "0" s else s.

(** ** Usernames *)

Section usernames.
Context {P : Primitives} {R : Ristretto}.

Record Username := mkUsername { nickname : string; discriminator : Z; scalars : list RScalar }.

Definition format_parts (nickname : string) (discriminator : Z) : string :=
  nickname +:+ "." +:+ pad2 discriminator.
Definition Username_display (u : Username) : string :=
  nickname u +:+ "." +:+ pad2 (discriminator u).

Definition username_sha_scalar (nickname : string) (discriminator : Z) : RScalar :=
  s_from_bytes_mod_order_wide (sha512 (byte_str nickname ++ [Byte.x00] ++ be_bytes 8 discriminator)).

Definition to_base_37_scalar {E} (bytes : list byte) : outcome E RScalar :=
  if negb (length bytes <=? MAX_NICKNAME_LENGTH)%nat then Panic
  else
    let thirty_seven := s_from 37 in
    let scalar := foldl (fun scalar b => scalar *s thirty_seven +s s_from (u8 b)) s_zero (reverse (drop 1 bytes)) in
    b ← expect (bytes !! 0%nat);
    Ok (scalar *s s_from 27 +s s_from (u8 b)).

Definition nickname_scalar (nickname : string) : outcome UsernameError RScalar :=
  if bool_decide (nickname = EmptyString) then Panic
  else
    bytes ← ok_or BadNicknameCharacter (mapM char_to_byte (String.list_ascii_of_string nickname));
    if (MAX_NICKNAME_LENGTH <? length bytes)%nat then Err NicknameTooLong
    else to_base_37_scalar bytes.

Definition discriminator_scalar (discriminator : Z) : RScalar := s_from discriminator.

Definition make_scalars (nickname : string) (discriminator : Z) : outcome UsernameError (list RScalar) :=
  nickname_scalar ← nickname_scalar nickname;
  Ok [username_sha_scalar nickname discriminator; nickname_scalar; discriminator_scalar discriminator].

Definition from_parts_without_soft_limit (nickname discriminator : string) : outcome UsernameError Username :=
  _ ← validate_prefix nickname;
  discriminator ← validate_discriminator discriminator;
  scalars ← make_scalars (to_ascii_lowercase nickname) discriminator;
  Ok (mkUsername nickname discriminator scalars).

Definition Username_new (s : string) : outcome UsernameError Username :=
  '(nickname, discriminator) ← ok_or MissingSeparator (rsplit_once "." s);
  from_parts_without_soft_limit nickname discriminator.

Definition from_parts (nickname discriminator : string) (limits : NicknameLimits)
  : outcome UsernameError Username :=
  result ← from_parts_without_soft_limit nickname discriminator;
  if negb (is_ascii nickname) then Panic
  else
    _ ← NicknameLimits_validate limits (String.length nickname);
    Ok result.

(** ** Hashes and proofs *)

Definition BASE_POINTS {E} : outcome E (list RPoint) :=
  mapM (fun bytes => expect (p_decompress bytes)) COMPRESSED_BASE_POINTS_RAW.

Definition username_equations : list (string * list (string * string)) :=
  [("username_hash", [("username_sha_scalar", "G1"); ("nickname_scalar", "G2"); ("discriminator_scalar", "G3")])].
Definition PROOF_STATEMENT {E} : outcome E Statement := build username_equations.

(** [Iterator::reduce]. *)
Definition reduce {A} (f : A -> A -> A) (l : list A) : option A :=
  match l with [] => None | x :: l => Some (foldl f x l) end.

Definition hash_from_scalars {E} (scalars : list RScalar) : outcome E RPoint :=
  base_points ← BASE_POINTS;
  expect (reduce p_add (zip_with (fun point scalar => scalar *p point) base_points scalars)).

Definition make_scalar_args (scalars : list RScalar) : ScalarArgs :=
  foldl (fun args '(scalar, name) => args_add name scalar args) ∅
    (zip scalars ["username_sha_scalar"; "nickname_scalar"; "discriminator_scalar"]).

Definition make_point_args {E} (lhs : RPoint) : outcome E PointArgs :=
  base_points ← BASE_POINTS;
  let args := foldl (fun args '(idx, point) => args_add ("G" +:+ pretty (S idx)) point args) ∅
                (imap pair base_points) in
  Ok (args_add "username_hash" lhs args).

Definition hash {E} (u : Username) : outcome E (array 32) :=
  point ← hash_from_scalars (scalars u);
  Ok (p_compress point).

Definition proof (u : Username) (randomness : array 32) : outcome UsernameError bytes :=
  hash ← hash_from_scalars (scalars u);
  let scalar_args := make_scalar_args (scalars u) in
  point_args ← make_point_args hash;
  let message := arr (p_compress hash) in
  st ← PROOF_STATEMENT;
  match prove st scalar_args point_args message (arr randomness) with
  | Ok b => Ok b
  | Err _ | Panic => Panic
  end.

Definition verify_username_proof (proof : bytes) (hash : array 32) : outcome ProofVerificationFailure unit :=
  hash_point ← ok_or UsernameNotVerified (p_decompress hash);
  point_args ← make_point_args hash_point;
  st ← PROOF_STATEMENT;
  match verify_proof st proof point_args (arr hash) with
  | Ok _ => Ok tt
  | Err VerificationFailure => Err UsernameNotVerified
  | Err _ | Panic => Panic
  end.
End usernames.

(** ** Candidates *)

(** [rand::seq::index::sample]: distinct indices below a length; it panics
    when asked for more than there are. *)
Class IndexSample {P : Primitives} := {
  index_sample : forall {E} (len : Z) (amount : nat), M Rng E (list Z)
}.
Class IndexSampleLaws `{I : IndexSample} := {
  sample_ok : forall E len amount rng, Z.of_nat amount <= len ->
    exists l rng', index_sample (E:=E) len amount rng = (Ok l, rng') /\
      length l = amount /\ NoDup l /\ Forall (fun i => 0 <= i < len) l
}.

Section candidates.
Context {P : Primitives} {I : IndexSample}.

Definition gen_range {E} (range : Range) (amount : nat) : M Rng E (list Z) :=
  let len := range_end range - range_start range in
  indices ← index_sample len amount;
  mret ((fun i => range_start range + i) <$> indices).

Fixpoint gen_ranges {E} (pairs : list (nat * Range)) : M Rng E (list Z) :=
  match pairs with
  | [] => mret []
  | (n, range) :: pairs =>
      ds ← gen_range range n;
      rest ← gen_ranges pairs;
      mret (ds ++ rest)
  end.

Definition random_discriminators {E} (count_per_range : list nat) (ranges : list Range) : M Rng E (list Z) :=
  if negb (length count_per_range <=? length ranges)%nat then lift Panic
  else gen_ranges (zip count_per_range ranges).

Definition candidates_from (nickname : string) (limits : NicknameLimits)
  : M Rng UsernameError (list string) :=
  _ ← lift (validate_nickname nickname limits);
  ds ← random_discriminators CANDIDATES_PER_RANGE DISCRIMINATOR_RANGES;
  mret (format_parts nickname <$> ds).
End candidates.

(** ** Username links *)

(** The message of proto/username.proto. *)
Record UsernameData := mkUsernameData { ud_username : string; ud_padding : bytes }.

(** The length of an encoded message: an empty field is left out; a field of less than
    128 bytes has a tag and a length of one byte each, and no field is
    encoded in fewer bytes than it has. *)
Definition field_length (n : nat) : nat := if (n =? 0)%nat then 0 else (n + 2)%nat.
Class UsernameDataLaws `{Prost UsernameData} := {
  username_data_length : forall d,
    (String.length (ud_username d) < 128)%nat -> (length (ud_padding d) < 128)%nat ->
    length (encode_to_vec d) = (field_length (String.length (ud_username d)) + field_length (length (ud_padding d)))%nat;
  username_data_length_ge : forall d, (String.length (ud_username d) <= length (encode_to_vec d))%nat
}.

Section links.
Context {P : Primitives} `{Prost UsernameData}.

Definition link_hkdf (entropy : array 32) (label : bytes) : array 32 := hkdf_sha256 None (arr entropy) label 32.
Definition link_hmac (mac_key : array 32) (input : bytes) : bytes := arr (hmac_sha256_mac (arr mac_key) input).

Definition random_bytes {E} (n : nat) : M Rng E (array n) := fun rng => let '(b, rng) := fill_bytes n rng in (Ok b, rng).

Definition create_for_username (username : string) (entropy : option (array 32))
  : M Rng UsernameLinkError (array 32 * bytes) :=
  let padding := replicate (16 * 3 - String.length username) Byte.x00 in
  let ptext := encode_to_vec (mkUsernameData username padding) in
  if (16 * 4 <=? length ptext)%nat then lift (Err InputDataTooLong)
  else
    entropy ← match entropy with Some e => mret e | None => random_bytes USERNAME_LINK_ENTROPY_SIZE end;
    iv ← random_bytes USERNAME_LINK_IV_SIZE;
    let aes_key := link_hkdf entropy USERNAME_LINK_LABEL_ENCRYPTION_KEY in
    let mac_key := link_hkdf entropy USERNAME_LINK_LABEL_AUTHENTICATION_KEY in
    ctext ← lift (expect_ok (aes_256_cbc_encrypt ptext (arr aes_key) (arr iv)));
    let buf := arr iv ++ ctext in
    mret (entropy, buf ++ link_hmac mac_key buf).

Definition decrypt_username (entropy : array 32) (encrypted_username : bytes)
  : outcome UsernameLinkError string :=
  let len := length encrypted_username in
  if (len <=? USERNAME_LINK_IV_SIZE + USERNAME_LINK_HMAC_LEN)%nat then Err UsernameLinkDataTooShort
  else
    let mac_key := link_hkdf entropy USERNAME_LINK_LABEL_AUTHENTICATION_KEY in
    let iv_and_ctext := take (len - USERNAME_LINK_HMAC_LEN) encrypted_username in
    let expected_hash := drop (len - USERNAME_LINK_HMAC_LEN) encrypted_username in
    let actual_hash := link_hmac mac_key iv_and_ctext in
    if negb (bool_decide (expected_hash = actual_hash)) then Err HmacMismatch
    else
      let ctext := slice USERNAME_LINK_IV_SIZE (len - USERNAME_LINK_HMAC_LEN) encrypted_username in
      let aes_key := link_hkdf entropy USERNAME_LINK_LABEL_ENCRYPTION_KEY in
      let iv := take USERNAME_LINK_IV_SIZE encrypted_username in
      ptext ← map_err (fun _ => BadLinkCiphertext) (aes_256_cbc_decrypt ctext (arr aes_key) iv);
      username_data ← ok_or InvalidDecryptedDataStructure (decode_pb ptext);
      Ok (ud_username username_data).
End links.
