(* ===== verification/UsernamesSpec.v ===== *)
(** * UsernamesSpec: what the username code guarantees

    The strings [Username::new] accepts are the texts of well-formed usernames
    ([username_new_spec]); the scalars determine the username up to case; the
    proof of a username verifies against its hash, and verification never
    panics; candidates are valid; links decrypt to what they were made of. *)

From S2P Require Import Prelude Types Primitives Ristretto Sho Poksho PokshoSpec ServiceId Crypto Usernames.
From Stdlib Require Import Ascii Ring.
Open Scope string_scope.
Open Scope list_scope.
Open Scope Z_scope.

(** ** Decimal numbers *)

Lemma string_app_cons x (a b : string) : (String x a +:+ b = String x (a +:+ b))%string.
Proof. done. Qed.
Lemma string_length_app (a b : string) : String.length (a +:+ b)%string = (String.length a + String.length b)%nat.
Proof. induction a as [|x a IH]; [done|]. rewrite string_app_cons. cbn. by rewrite IH. Qed.

Lemma pretty_go_app (x : N) s : pretty_N_go x s = (pretty_N_go x "" +:+ s)%string.
Proof.
  revert s. induction (N.lt_wf_0 x) as [x _ IH]. intros s.
  destruct (decide (0 < x)%N) as [Hx|Hx]; [|by replace x with 0%N by lia].
  rewrite !(pretty_N_go_step x) by done. pose proof (N.div_lt x 10 Hx eq_refl).
  rewrite (IH (x / 10)%N) by done. rewrite (IH (x / 10)%N ltac:(done) (String _ "")).
  by rewrite string_app_assoc.
Qed.

Lemma pretty_Z_pos n : 0 < n -> pretty n = pretty_N_go (Z.to_N n) "".
Proof. intros Hn. destruct n as [|p|p]; [lia|done|lia]. Qed.

(** The last digit of a number. *)
Lemma pretty_snoc n d :
  0 < n -> 0 <= d < 10 -> pretty (n * 10 + d) = (pretty n +:+ String (pretty_N_char (Z.to_N d)) "")%string.
Proof.
  intros Hn Hd. rewrite !pretty_Z_pos by lia. rewrite pretty_N_go_step by lia.
  assert (Z.to_N (n * 10 + d) = Z.to_N n * 10 + Z.to_N d)%N as -> by lia.
  rewrite N.div_add_l, N.div_small, N.add_0_r by lia.
  rewrite (N.add_comm (Z.to_N n * 10)), N.Div0.mod_add, N.mod_small by lia. apply pretty_go_app.
Qed.

Lemma char_digit_range c d : char_digit c = Some d -> 0 <= d < 10 /\ c = pretty_N_char (Z.to_N d).
Proof.
  unfold char_digit. intros Hc.
  assert (forall c, match char_digit c with Some d => (0 <=? d) && (d <? 10) && bool_decide (c = pretty_N_char (Z.to_N d)) | None => true end = true) as Hall.
  { intros [[] [] [] [] [] [] [] []]; vm_compute; reflexivity. }
  specialize (Hall c). unfold char_digit in Hall. rewrite Hc in Hall.
  apply andb_prop in Hall as [Hr He%bool_decide_eq_true]. split; [lia|done].
Qed.

Lemma digit_char_digit c : is_ascii_digit c = true <-> is_Some (char_digit c).
Proof. unfold is_ascii_digit, code, char_digit. destruct (_ && _); split; first [done|by eauto|by intros []]. Qed.

(** Reading digits after a positive number appends them to its text. *)
Lemma parse_digits_text s r n :
  0 < r -> parse_digits r s = Ok n -> 0 < n <= Z.max r u64_max /\ pretty n = (pretty r +:+ s)%string.
Proof.
  revert r. induction s as [|c s IH]; intros r Hr Hp; cbn [parse_digits] in Hp.
  - injection Hp as <-. rewrite string_app_nil. split; [lia|done].
  - destruct (char_digit c) as [d|] eqn:Hc; cbn [ok_or mbind outcome_bind] in Hp; [|done].
    apply char_digit_range in Hc as [Hd ->].
    destruct (Z.ltb_spec u64_max (r * 10)); [done|]. destruct (Z.ltb_spec u64_max (r * 10 + d)); [done|].
    apply IH in Hp as [Hn ->]; [|lia]. split; [lia|].
    rewrite pretty_snoc by lia. by rewrite string_app_assoc.
Qed.

Lemma parse_digits_bound s r n : parse_digits r s = Ok n -> 0 <= r <= u64_max -> 0 <= n <= u64_max.
Proof.
  revert r. induction s as [|c s IH]; intros r Hp Hr; cbn [parse_digits] in Hp; [by injection Hp as <-|].
  destruct (char_digit c) as [d|] eqn:Hc; cbn [ok_or mbind outcome_bind] in Hp; [|done].
  apply char_digit_range in Hc as [Hd _].
  destruct (Z.ltb_spec u64_max (r * 10)); [done|]. destruct (Z.ltb_spec u64_max (r * 10 + d)); [done|].
  apply IH in Hp; lia.
Qed.

(** The text of a positive number is digits, the first of them not zero. *)
Lemma pretty_go_head (x : N) s : (0 < x)%N ->
  exists d s', pretty_N_go x s = String (pretty_N_char d) s' /\ (0 < d < 10)%N.
Proof.
  revert s. induction (N.lt_wf_0 x) as [x _ IH]. intros s Hx. rewrite pretty_N_go_step by done.
  destruct (N.eq_0_gt_0_cases (x / 10)) as [H0|Hq]; cycle 1.
  - apply IH; [by apply N.div_lt|done].
  - rewrite H0, pretty_N_go_0. eexists _, _. split; [done|].
    apply N.div_small_iff in H0; [|done]. rewrite N.mod_small by done. lia.
Qed.

Lemma pretty_head n : 0 < n -> exists d s, pretty n = String (pretty_N_char d) s /\ (0 < d < 10)%N.
Proof. intros Hn. rewrite pretty_Z_pos by done. apply pretty_go_head. lia. Qed.

Lemma digit_code d : (d < 10)%N -> code (pretty_N_char d) = 48 + Z.of_N d.
Proof.
  intros Hd. assert (d = 0 \/ d = 1 \/ d = 2 \/ d = 3 \/ d = 4 \/ d = 5 \/ d = 6 \/ d = 7 \/ d = 8 \/ d = 9)%N
    as Hcases by lia.
  repeat destruct Hcases as [->|Hcases]; [by vm_compute..|]. by subst d; vm_compute.
Qed.

Lemma small_pretty n : 0 < n < 10 -> pretty n = String (pretty_N_char (Z.to_N n)) "".
Proof.
  intros Hn. rewrite pretty_Z_pos, pretty_N_go_step by lia.
  by rewrite N.div_small, N.mod_small, pretty_N_go_0 by lia.
Qed.

Lemma large_pretty n : 10 <= n -> (2 <= String.length (pretty n))%nat.
Proof.
  intros Hn. destruct (pretty_head (n / 10)) as (d & s & Hs & _); [apply Z.div_str_pos; lia|].
  pose proof (Z.div_mod n 10 ltac:(lia)) as Hdm. pose proof (Z.mod_pos_bound n 10 ltac:(lia)).
  rewrite Hdm, (Z.mul_comm 10), pretty_snoc, Hs by (try apply Z.div_str_pos; lia).
  rewrite string_app_cons. cbn. rewrite string_length_app. cbn. lia.
Qed.

Lemma pad2_small n : 0 < n < 10 -> pad2 n = String "0" (String (pretty_N_char (Z.to_N n)) "").
Proof. intros Hn. unfold pad2. by rewrite small_pretty. Qed.
Lemma pad2_large n : 10 <= n -> pad2 n = pretty n.
Proof. intros Hn. unfold pad2. pose proof (large_pretty n Hn). by destruct (Nat.ltb_spec (String.length (pretty n)) 2); [lia|]. Qed.

(** ** Discriminators *)

Lemma u64_from_str_digit c s :
  is_ascii_digit c = true -> u64_from_str (String c s) = parse_digits 0 (String c s).
Proof. destruct c as [[] [] [] [] [] [] [] []]; intros Hc; try discriminate Hc; reflexivity. Qed.

Lemma pretty_pad2 c d s n :
  0 < d < 10 -> c = pretty_N_char (Z.to_N d) -> (2 <= String.length (String c s))%nat ->
  parse_digits d s = Ok n -> 0 < n <= u64_max /\ String c s = pad2 n.
Proof.
  intros Hd -> Hlen Hp. apply parse_digits_text in Hp as [Hn Ht]; [|lia].
  rewrite (small_pretty d) in Ht by lia. rewrite string_app_cons in Ht. change ("" +:+ s)%string with s in Ht.
  split; [unfold u64_max in *; lia|]. rewrite pad2_large; [done|].
  destruct (decide (10 <= n)) as [|Hs]; [done|]. rewrite small_pretty in Ht by lia.
  injection Ht as _ <-. cbn in Hlen. lia.
Qed.

Lemma validate_discriminator_spec d n :
  validate_discriminator d = Ok n <-> 0 < n <= u64_max /\ d = pad2 n.
Proof.
  split.
  - destruct d as [|c s]; [done|]. cbn [validate_discriminator].
    destruct (is_ascii_digit c) eqn:Hdig; cbn [negb]; [|done].
    rewrite u64_from_str_digit by done. cbn [parse_digits].
    apply digit_char_digit in Hdig as [v Hv]. rewrite Hv. cbn [ok_or mbind outcome_bind].
    apply char_digit_range in Hv as [Hr Hc]. rewrite Z.mul_0_l, Z.add_0_l.
    rewrite !(proj2 (Z.ltb_ge _ _)) by (unfold u64_max; lia).
    destruct (parse_digits v s) as [m|[]|] eqn:Hp; cbn [mbind outcome_bind]; try done.
    destruct (Z.eqb_spec m 0) as [|Hm]; [done|].
    assert (code c = 48 + v) as Hcode by (subst c; rewrite digit_code by lia; lia). rewrite Hcode.
    destruct (decide (v = 0)) as [->|Hv0].
    + destruct s as [|c2 [|c3 s]]; cbn [String.length]; try done. intros [= <-].
      cbn [parse_digits] in Hp. destruct (char_digit c2) as [w|] eqn:Hw; cbn [ok_or mbind outcome_bind] in Hp; [|done].
      rewrite !(proj2 (Z.ltb_ge _ _)) in Hp by (apply char_digit_range in Hw; unfold u64_max; lia).
      injection Hp as <-. apply char_digit_range in Hw as [Hw ->]. change (0 * 10 + w) with w in *.
      split; [unfold u64_max; lia|]. rewrite pad2_small by lia. by subst c.
    + intros Hres. assert (m = n /\ (2 <= String.length (String c s))%nat) as [-> Hlen].
      { destruct (String.length (String c s)) as [|[|[|k]]]; try done; [by injection Hres as <-; auto with lia|].
        destruct (_ && _); [|done]. injection Hres as <-. auto with lia. }
      apply (pretty_pad2 c v); [lia|done..].
  - intros [Hn ->]. destruct (decide (n < 10)) as [Hs|Hl].
    + rewrite pad2_small by lia.
      assert (n = 1 \/ n = 2 \/ n = 3 \/ n = 4 \/ n = 5 \/ n = 6 \/ n = 7 \/ n = 8 \/ n = 9) as Hcases by lia.
      repeat destruct Hcases as [->|Hcases]; [by vm_compute..|]. by subst n; vm_compute.
    + rewrite pad2_large by lia. destruct (parse_digits_display n Hn) as [Hne Hp].
      destruct (from_str_digits _ _ Hne Hp) as [Hu _]. pose proof (large_pretty n ltac:(lia)) as Hlen.
      destruct (pretty_head n) as (d & s & Hd & Hdr); [lia|]. rewrite Hd in *. cbn [validate_discriminator].
      assert (code (pretty_N_char d) = 48 + Z.of_N d) as Hcode by (apply digit_code; lia).
      unfold is_ascii_digit. rewrite Hcode, Hu.
      rewrite !(proj2 (Z.leb_le _ _)) by lia. cbn [andb negb mbind outcome_bind].
      destruct (Z.eqb_spec n 0); [lia|].
      destruct (String.length _) as [|[|[|k]]]; [lia|lia|done|done].
Qed.

(** ** Nicknames *)

(** The characters of a nickname. *)
Definition nickname_char (c : ascii) : bool :=
  bool_decide (c = "_"%char) || ((97 <=? code c) && (code c <=? 122)) ||
  ((65 <=? code c) && (code c <=? 90)) || is_ascii_digit c.

Definition valid_nickname (s : string) : bool :=
  match s with
  | EmptyString => false
  | String c _ => negb (is_ascii_digit c)
  end && forallb nickname_char (String.list_ascii_of_string s) && (String.length s <=? MAX_NICKNAME_LENGTH)%nat.

Definition nickname_bytes (s : string) : option (list byte) :=
  mapM char_to_byte (String.list_ascii_of_string (to_ascii_lowercase s)).

Lemma lower_chars s : String.list_ascii_of_string (to_ascii_lowercase s) = ascii_lower <$> String.list_ascii_of_string s.
Proof.
  induction s as [|c s IH]; [done|].
  change (ascii_lower c :: String.list_ascii_of_string (to_ascii_lowercase s)
          = ascii_lower c :: (ascii_lower <$> String.list_ascii_of_string s)). by rewrite IH.
Qed.

(** A fact about one character, checked on all of them. *)
Lemma ascii_forall (P : ascii -> bool) : forallb P (ascii_of_nat <$> seq 0 256) = true -> forall c, P c = true.
Proof.
  intros Hall c. rewrite forallb_forall in Hall. apply Hall, list_elem_of_In, list_elem_of_fmap.
  exists (nat_of_ascii c). split; [by rewrite ascii_nat_embedding|]. apply elem_of_seq.
  pose proof (nat_ascii_bounded c). lia.
Qed.

Lemma char_to_byte_lower c : bool_decide (is_Some (char_to_byte (ascii_lower c))) = nickname_char c.
Proof.
  enough (bool_decide (bool_decide (is_Some (char_to_byte (ascii_lower c))) = nickname_char c) = true) as H
    by by apply bool_decide_eq_true in H.
  revert c. apply ascii_forall. by vm_compute.
Qed.

Lemma list_ascii_length s : length (String.list_ascii_of_string s) = String.length s.
Proof. induction s as [|c s IH]; [done|]. cbn. by rewrite IH. Qed.

Lemma nickname_bytes_spec s :
  if forallb nickname_char (String.list_ascii_of_string s)
  then exists b, nickname_bytes s = Some b /\ length b = String.length s
  else nickname_bytes s = None.
Proof.
  unfold nickname_bytes. rewrite lower_chars, <- list_ascii_length.
  induction (String.list_ascii_of_string s) as [|c l IH]; [by eexists|].
  cbn [forallb fmap list_fmap mapM]. pose proof (char_to_byte_lower c) as Hc.
  destruct (nickname_char c); cbn [andb].
  - apply bool_decide_eq_true in Hc as [b ->]. cbn [mbind option_bind].
    destruct (forallb nickname_char l).
    + destruct IH as (bs & -> & Hl). eexists. split; [done|]. cbn. by rewrite Hl.
    + by rewrite IH.
  - apply bool_decide_eq_false, eq_None_not_Some in Hc. by rewrite Hc.
Qed.

Lemma valid_nickname_spec s :
  valid_nickname s = true <->
  validate_prefix s = Ok tt /\ exists b, nickname_bytes s = Some b /\ length b = String.length s /\
    (length b <= MAX_NICKNAME_LENGTH)%nat.
Proof.
  unfold valid_nickname. pose proof (nickname_bytes_spec s) as Hb. split.
  - intros [[Hp Hc]%andb_prop Hl]%andb_prop. rewrite Hc in Hb. destruct Hb as (b & Hb & Hlen). split.
    + destruct s as [|c s]; [done|]. cbn. by destruct (is_ascii_digit c).
    + exists b. apply Nat.leb_le in Hl. split_and!; [done..|lia].
  - intros (Hp & b & Hs & Hlen & Hl). destruct (forallb _ _); [|congruence]. cbn [andb].
    rewrite (proj2 (Nat.leb_le _ _)) by lia. destruct s as [|c s]; [done|]. cbn in Hp. by destruct (is_ascii_digit c).
Qed.

Lemma lowercase_nonempty s : to_ascii_lowercase s = "" <-> s = "".
Proof. by destruct s. Qed.

Lemma nickname_char_ascii s : forallb nickname_char (String.list_ascii_of_string s) = true -> is_ascii s = true.
Proof.
  unfold is_ascii. induction (String.list_ascii_of_string s) as [|c l IH]; [done|]. cbn [forallb].
  intros [Hc Hl]%andb_prop. rewrite IH by done. rewrite andb_true_r. revert Hc.
  assert (forall c, implb (nickname_char c) (code c <? 128) = true) as Hi by (apply ascii_forall; by vm_compute).
  specialize (Hi c). by destruct (nickname_char c).
Qed.

(** ** Splitting at the last dot *)

Lemma rsplit_None_no_sep a b :
  rsplit_once "." b = None -> rsplit_once "." (a +:+ String "." b)%string = Some (a, b).
Proof.
  intros Hb. induction a as [|c a IH].
  { change ("" +:+ String "." b)%string with (String "." b). cbn [rsplit_once]. by rewrite Hb. }
  rewrite string_app_cons. cbn [rsplit_once]. by rewrite IH.
Qed.

Lemma rsplit_Some s a b : rsplit_once "." s = Some (a, b) -> s = (a +:+ String "." b)%string.
Proof.
  revert a b. induction s as [|c s IH]; intros a b; cbn [rsplit_once]; [done|].
  destruct (rsplit_once "." s) as [[l r]|].
  - intros [= <- <-]. by rewrite (IH l r eq_refl).
  - case_bool_decide; [|done]. subst c. by intros [= <- <-].
Qed.

Lemma digits_no_dot r s n : parse_digits r s = Ok n -> rsplit_once "." s = None.
Proof.
  revert r. induction s as [|c s IH]; intros r Hp; [done|]. cbn [parse_digits] in Hp. cbn [rsplit_once].
  destruct (char_digit c) as [d|] eqn:Hc; cbn [ok_or mbind outcome_bind] in Hp; [|done].
  do 2 (destruct (_ <? _); [done|]). rewrite (IH _ Hp), bool_decide_false; [done|].
  intros ->. by vm_compute in Hc.
Qed.

Lemma pad2_no_dot n : 0 < n <= u64_max -> rsplit_once "." (pad2 n) = None.
Proof.
  intros Hn. destruct (parse_digits_display n Hn) as [_ Hp]. unfold pad2.
  destruct (_ <? _)%nat; [cbn [rsplit_once]|]; by rewrite (digits_no_dot _ _ _ Hp).
Qed.

(** ** Parsing *)

Section usernames.
Context {P : Primitives} `{L : RistrettoLaws}.
Add Ring scalars : s_ring.

(** A username as [Username::new] makes it. *)
Record wf_username (u : Username) : Prop := {
  wf_nickname : valid_nickname (nickname u) = true;
  wf_discriminator : 0 < discriminator u <= u64_max;
  wf_scalars : make_scalars (to_ascii_lowercase (nickname u)) (discriminator u) = Ok (scalars u)
}.

(** The digits of a nickname, the first of them excepted. *)
Definition base_37 (l : list byte) : Z := foldr (fun b acc => acc * 37 + u8 b) 0 l.
Definition nickname_value (l : list byte) : Z :=
  base_37 (drop 1 l) * 27 + u8 (default Byte.x00 (l !! 0%nat)).

Lemma base_37_bound l : Forall (fun b => u8 b <= 37) l -> 0 <= 36 * base_37 l <= 37 * (37 ^ Z.of_nat (length l) - 1).
Proof.
  induction 1 as [|b l Hb _ IH]; [done|]. cbn [base_37 foldr length]. fold (base_37 l).
  rewrite Nat2Z.inj_succ, Z.pow_succ_r by lia. pose proof (u8_range b). lia.
Qed.

(** A nickname within the limit fits: [37 * 37^47 < 36 * (l / 27 - 1)]. *)
Lemma base_37_fits l :
  Forall (fun b => u8 b <= 37) l -> (length l < MAX_NICKNAME_LENGTH)%nat ->
  0 <= base_37 l /\ base_37 l * 37 + 37 < RISTRETTO_ORDER /\ base_37 l * 27 + 255 < RISTRETTO_ORDER.
Proof.
  intros Hl Hlen. pose proof (base_37_bound l Hl) as Hb. unfold MAX_NICKNAME_LENGTH in Hlen.
  assert (37 ^ Z.of_nat (length l) <= 37 ^ 47) as Hp by (apply Z.pow_le_mono_r; lia).
  assert (37 * (37 * 37 ^ 47) < 36 * (RISTRETTO_ORDER - 1000)) as Ho by by vm_compute.
  lia.
Qed.

Lemma s_from_u8 b : scalar_value (s_from (u8 b)) = u8 b.
Proof. apply value_from. pose proof (u8_range b). unfold u64_max. lia. Qed.

Lemma base_37_scalar_tail l :
  Forall (fun b => u8 b <= 37) l -> (length l < MAX_NICKNAME_LENGTH)%nat ->
  scalar_value (foldl (fun scalar b => scalar *s s_from 37 +s s_from (u8 b)) s_zero (reverse l)) = base_37 l.
Proof.
  induction 1 as [|b l Hb Hl IH]; intros Hlen; [apply value_zero|].
  rewrite reverse_cons, foldl_app. cbn [foldl base_37 foldr]. fold (base_37 l). cbn [length] in Hlen. destruct (base_37_fits l Hl) as (H0 & H1 & _); [lia|].
  pose proof (u8_range b).
  rewrite value_add, value_mul, IH, s_from_u8, value_from by (unfold u64_max; lia).
  rewrite (Z.mod_small (base_37 l * 37)), Z.mod_small by lia. done.
Qed.

Lemma to_base_37_scalar_value {E} l :
  l <> [] -> Forall (fun b => u8 b <= 37) l -> (length l <= MAX_NICKNAME_LENGTH)%nat ->
  exists x, to_base_37_scalar (E:=E) l = Ok x /\ scalar_value x = nickname_value l.
Proof.
  intros Hne Hl Hlen. unfold to_base_37_scalar, nickname_value. rewrite (proj2 (Nat.leb_le _ _)) by done. cbn [negb].
  destruct l as [|b l]; [done|]. cbn [drop lookup list_lookup expect mbind outcome_bind default from_option id].
  rewrite drop_0. apply Forall_cons in Hl as [Hb Hl]. cbn [length] in Hlen.
  eexists. split; [done|]. destruct (base_37_fits l Hl) as (H0 & H1 & H2); [lia|]. pose proof (u8_range b).
  rewrite value_add, value_mul, base_37_scalar_tail, s_from_u8, value_from by (done || unfold u64_max; lia).
  rewrite (Z.mod_small (base_37 l * 27)), Z.mod_small by lia. done.
Qed.

Lemma char_to_byte_bound c b : char_to_byte c = Some b -> 1 <= u8 b <= 37.
Proof.
  assert (forall c, match char_to_byte c with Some b => (1 <=? u8 b) && (u8 b <=? 37) | None => true end = true) as Hb
    by (apply ascii_forall; by vm_compute).
  specialize (Hb c). intros Hc. rewrite Hc in Hb. lia.
Qed.

Lemma char_bytes_bound l bs : mapM char_to_byte l = Some bs -> Forall (fun b => 1 <= u8 b <= 37) bs.
Proof. intros Hm. apply mapM_Some in Hm. induction Hm; constructor; eauto using char_to_byte_bound. Qed.

Lemma nickname_scalar_spec s :
  s <> "" ->
  match nickname_bytes s with
  | None => nickname_scalar (to_ascii_lowercase s) = Err BadNicknameCharacter
  | Some b =>
      if (MAX_NICKNAME_LENGTH <? length b)%nat then nickname_scalar (to_ascii_lowercase s) = Err NicknameTooLong
      else exists x, nickname_scalar (to_ascii_lowercase s) = Ok x /\ scalar_value x = nickname_value b
  end.
Proof.
  intros Hs. unfold nickname_scalar. rewrite bool_decide_false by by rewrite lowercase_nonempty.
  fold (nickname_bytes s). pose proof (nickname_bytes_spec s) as Hb.
  destruct (nickname_bytes s) as [b|] eqn:E; cbn [ok_or mbind outcome_bind]; [|done].
  destruct (Nat.ltb_spec MAX_NICKNAME_LENGTH (length b)); [done|].
  apply to_base_37_scalar_value; [|eapply Forall_impl; [by eapply char_bytes_bound|by intros ? []]|lia].
  destruct (forallb _ _); [|done]. destruct Hb as (? & [= <-] & Hl). destruct b; [|done]. by destruct s.
Qed.

Lemma make_scalars_valid s n :
  valid_nickname s = true -> exists x b, nickname_bytes s = Some b /\ scalar_value x = nickname_value b /\
    make_scalars (to_ascii_lowercase s) n = Ok [username_sha_scalar (to_ascii_lowercase s) n; x; s_from n].
Proof.
  intros (Hp & b & Hb & _ & Hl)%valid_nickname_spec. pose proof (nickname_scalar_spec s) as Hn. rewrite Hb in Hn.
  rewrite (proj2 (Nat.ltb_ge _ _) Hl) in Hn. destruct Hn as (x & Hx & Hv); [by intros ->|].
  exists x, b. unfold make_scalars. by rewrite Hx.
Qed.

(** Parsing, by cases: the prefix, the discriminator, the characters, the length. *)
Lemma from_parts_inner_spec nick d u :
  from_parts_without_soft_limit nick d = Ok u <->
  wf_username u /\ nick = nickname u /\ d = pad2 (discriminator u).
Proof.
  unfold from_parts_without_soft_limit. split.
  - destruct (validate_prefix nick) as [[]| |] eqn:Hp; cbn [mbind outcome_bind]; [|done..].
    destruct (validate_discriminator d) as [n| |] eqn:Hd; cbn [mbind outcome_bind]; [|done..].
    apply validate_discriminator_spec in Hd as [Hn ->].
    destruct (make_scalars _ n) as [l| |] eqn:Hm; cbn [mbind outcome_bind]; [|done..].
    intros [= <-]. split; [|done]. split; cbn [nickname discriminator scalars]; [|done..].
    apply valid_nickname_spec. split; [done|]. unfold make_scalars in Hm.
    assert (nick <> "") as Hne by by intros ->.
    pose proof (nickname_scalar_spec nick Hne) as Hs. pose proof (nickname_bytes_spec nick) as Hb.
    destruct (nickname_bytes nick) as [b|]; [|by rewrite Hs in Hm].
    destruct (Nat.ltb_spec MAX_NICKNAME_LENGTH (length b)); [by rewrite Hs in Hm|].
    destruct (forallb _ _); [|done]. destruct Hb as (? & [= <-] & Hlen). eauto.
  - intros ([Hv Hn Hm] & -> & ->). apply valid_nickname_spec in Hv as (-> & _). cbn [mbind outcome_bind].
    rewrite (proj2 (validate_discriminator_spec _ (discriminator u))) by done. cbn [mbind outcome_bind].
    rewrite Hm. by destruct u.
Qed.

(** C34: [Username::new] accepts exactly the texts of well-formed usernames: a
    nickname of 1 to 48 letters, digits and underscores that does not start with
    a digit, a dot, and a number from 1 to [u64::MAX] in decimal, padded to two
    digits.  It returns that username, so printing and parsing are inverses. *)
Theorem username_new_spec s u :
  Username_new s = Ok u <-> wf_username u /\ s = Username_display u.
Proof.
  unfold Username_new, Username_display. split.
  - destruct (rsplit_once "." s) as [[a b]|] eqn:Hs; cbn [ok_or mbind outcome_bind]; [|done].
    apply rsplit_Some in Hs as ->. intros (Hwf & -> & ->)%from_parts_inner_spec. done.
  - intros [Hwf ->]. change ("." +:+ pad2 (discriminator u))%string with (String "." (pad2 (discriminator u))).
    rewrite rsplit_None_no_sep by apply pad2_no_dot, Hwf. cbn [ok_or mbind outcome_bind].
    by apply from_parts_inner_spec.
Qed.

Lemma nickname_checks nick d n limits lo hi :
  NicknameLimits_new (E:=UsernameError) lo hi = Ok limits -> validate_discriminator d = Ok n ->
  (_ ← from_parts nick d limits; Ok tt) = validate_nickname nick limits.
Proof.
  unfold NicknameLimits_new. destruct (Nat.leb_spec hi MAX_NICKNAME_LENGTH); [cbn [negb]|done].
  destruct (Nat.ltb_spec lo hi); [cbn [negb]|done]. intros [= <-] Hd.
  unfold from_parts, from_parts_without_soft_limit, validate_nickname.
  destruct (validate_prefix nick) as [[]|e|] eqn:Hp; cbn [mbind outcome_bind]; [|done..].
  rewrite Hd. cbn [mbind outcome_bind]. unfold make_scalars.
  assert (nick <> "") as Hne by by intros ->.
  pose proof (nickname_scalar_spec nick Hne) as Hs. pose proof (nickname_bytes_spec nick) as Hb.
  pose proof (nickname_char_ascii nick) as Ha. fold (nickname_bytes nick).
  destruct (nickname_bytes nick) as [b|]; cbn [ok_or mbind outcome_bind]; [|by rewrite Hs].
  destruct (forallb _ _); [|done]. destruct Hb as (? & [= <-] & Hlen). rewrite Hlen in *.
  unfold NicknameLimits_validate. cbn [min_len max_len].
  destruct (Nat.ltb_spec MAX_NICKNAME_LENGTH (String.length nick)).
  - rewrite Hs. cbn [mbind outcome_bind]. rewrite (proj2 (Nat.ltb_ge _ lo)), (proj2 (Nat.ltb_lt hi _)) by lia. done.
  - destruct Hs as (x & -> & _). cbn [mbind outcome_bind]. rewrite Ha by done. cbn [negb].
    by destruct (_ <? lo)%nat; [|destruct (hi <? _)%nat].
Qed.

(** [validate_nickname] and [from_parts] make the same checks, as their comments
    ask: with a valid discriminator, they give the same answer, error
    included, whatever the limits are. *)
Theorem nickname_checks_agree nick d n limits lo hi :
  NicknameLimits_new (E:=UsernameError) lo hi = Ok limits -> validate_discriminator d = Ok n ->
  (_ ← from_parts nick d limits; Ok tt) = validate_nickname nick limits.
Proof. apply nickname_checks. Qed.

(** ** The encoding determines the username *)

Lemma base_37_inj l l' :
  Forall (fun b => 1 <= u8 b <= 37) l -> Forall (fun b => 1 <= u8 b <= 37) l' -> base_37 l = base_37 l' -> l = l'.
Proof.
  assert (forall l, Forall (fun b => 1 <= u8 b <= 37) l -> 0 <= base_37 l) as Hpos.
  { intros k. induction 1; cbn [base_37 foldr]; [lia|]. fold (base_37 l0). lia. }
  intros Hl. revert l'. induction Hl as [|b l Hb Hl IH]; intros l' Hl' Heq;
    destruct Hl' as [|b' l' Hb' Hl']; cbn [base_37 foldr] in Heq; fold base_37 in Heq; try done;
    try fold (base_37 l) in Heq; try fold (base_37 l') in Heq.
  - pose proof (Hpos _ Hl'). lia.
  - pose proof (Hpos _ Hl). lia.
  - assert (base_37 l = base_37 l' /\ u8 b = u8 b') as [H1 H2] by lia.
    apply u8_inj in H2 as ->. by rewrite (IH l' Hl' H1).
Qed.

Lemma char_to_byte_inj c c' b : char_to_byte c = Some b -> char_to_byte c' = Some b -> c = c'.
Proof.
  assert (forall c, match char_to_byte c with
                    | Some b => bool_decide (c = if u8 b =? 1 then "_"%char else if u8 b <=? 27 then ascii_of_nat (Z.to_nat (u8 b + 95))
                                                 else ascii_of_nat (Z.to_nat (u8 b + 20)))
                    | None => true end = true) as Hinv by (apply ascii_forall; by vm_compute).
  intros Hc Hc'. pose proof (Hinv c) as H1. pose proof (Hinv c') as H2. rewrite Hc in H1. rewrite Hc' in H2.
  apply bool_decide_eq_true in H1, H2. congruence.
Qed.

Lemma nickname_bytes_inj s s' b :
  nickname_bytes s = Some b -> nickname_bytes s' = Some b -> to_ascii_lowercase s = to_ascii_lowercase s'.
Proof.
  unfold nickname_bytes. intros Hs Hs'.
  enough (String.list_ascii_of_string (to_ascii_lowercase s) = String.list_ascii_of_string (to_ascii_lowercase s')) as H.
  { by rewrite <- (String.string_of_list_ascii_of_string (to_ascii_lowercase s)), H, String.string_of_list_ascii_of_string. }
  apply mapM_Some in Hs, Hs'. revert Hs'. generalize (String.list_ascii_of_string (to_ascii_lowercase s')).
  induction Hs as [|c b0 l bs Hc _ IH]; intros l' Hl'; inversion Hl' as [|c' b1 l1 bs1 Hc' Hl1]; subst; [done|].
  f_equal; [by eapply char_to_byte_inj|by apply IH].
Qed.

(** The first character is a letter or an underscore, so its digit is at most 27. *)
Lemma first_digit s b :
  valid_nickname s = true -> nickname_bytes s = Some b -> exists d l, b = d :: l /\ 1 <= u8 d <= 27 /\
    Forall (fun x => 1 <= u8 x <= 37) l.
Proof.
  intros Hv Hb. pose proof (char_bytes_bound _ _ Hb) as Hall. unfold nickname_bytes in Hb.
  destruct s as [|c s]; [done|]. cbn [to_ascii_lowercase string_map] in Hb.
  change (String.list_ascii_of_string _) with (ascii_lower c :: String.list_ascii_of_string (string_map ascii_lower s)) in Hb.
  cbn [mapM] in Hb. destruct (char_to_byte (ascii_lower c)) as [d|] eqn:Hd; cbn [mbind option_bind] in Hb; [|done].
  destruct (mapM char_to_byte _) as [l|]; cbn in Hb; [|done]. injection Hb as <-.
  apply Forall_cons in Hall as [? Hl]. exists d, l. split; [done|]. split; [|done].
  assert (forall c, match char_to_byte (ascii_lower c) with
                    | Some b => implb (negb (is_ascii_digit c)) ((1 <=? u8 b) && (u8 b <=? 27)) | None => true end = true)
    as Hf by (apply ascii_forall; by vm_compute).
  specialize (Hf c). rewrite Hd in Hf. unfold valid_nickname in Hv. destruct (is_ascii_digit c); [done|]. cbn in Hf. lia.
Qed.

(** The encoding as scalars is injective: two usernames have the same scalars
    exactly when they are the same up to case.  The base-37 number of a
    nickname of up to 48 characters does not overflow the group order, and
    the first digit is in base 27 because it cannot be a decimal digit. *)
Theorem username_scalars_injective u u' :
  wf_username u -> wf_username u' ->
  scalars u = scalars u' <->
  to_ascii_lowercase (nickname u) = to_ascii_lowercase (nickname u') /\ discriminator u = discriminator u'.
Proof.
  intros [Hv Hd Hs] [Hv' Hd' Hs']. split.
  - intros Heq. destruct (make_scalars_valid _ (discriminator u) Hv) as (x & b & Hb & Hx & Hm).
    destruct (make_scalars_valid _ (discriminator u') Hv') as (x' & b' & Hb' & Hx' & Hm').
    rewrite Hs in Hm. rewrite Hs' in Hm'. injection Hm as Hm. injection Hm' as Hm'.
    rewrite Hm, Hm' in Heq. injection Heq as _ Hxx Hdd.
    assert (discriminator u = discriminator u') as Hdisc.
    { rewrite <- (value_from (discriminator u)), <- (value_from (discriminator u')) by lia. by rewrite Hdd. }
    split; [|done]. assert (nickname_value b = nickname_value b') as Hval by congruence.
    destruct (first_digit _ _ Hv Hb) as (c & l & -> & Hc & Hl).
    destruct (first_digit _ _ Hv' Hb') as (c' & l' & -> & Hc' & Hl').
    unfold nickname_value in Hval. cbn [drop lookup list_lookup default from_option id] in Hval.
    rewrite !drop_0 in Hval.
    assert (base_37 l = base_37 l' /\ u8 c = u8 c') as [Hll Hcc] by lia.
    apply base_37_inj in Hll as <-; [|done..]. apply u8_inj in Hcc as <-. by eapply nickname_bytes_inj.
  - intros [Hn Hdd]. rewrite Hn, Hdd, Hs' in Hs. by injection Hs.
Qed.
End usernames.

(** ** Hashes and proofs *)

(** The base points are encodings of points (the source generates them from a hash
    and tests that they are). *)
Class BasePoints `{Ristretto} := {
  base_points_decompress : Forall (fun b => is_Some (p_decompress b)) COMPRESSED_BASE_POINTS_RAW
}.

Section proofs.
Context {P : Primitives} `{L : RistrettoLaws} {B : BasePoints}.
Add Ring scalars : s_ring.

Lemma base_points_ok : exists P1 P2 P3, forall E, BASE_POINTS (E:=E) = Ok [P1; P2; P3].
Proof.
  pose proof base_points_decompress as Hall. unfold BASE_POINTS, COMPRESSED_BASE_POINTS_RAW in *.
  cbn [fmap list_fmap mapM] in *.
  apply Forall_cons in Hall as [[P1 ->] Hall]. apply Forall_cons in Hall as [[P2 ->] Hall].
  apply Forall_cons in Hall as [[P3 ->] _]. by exists P1, P2, P3.
Qed.

Lemma username_statement_good : good_statement username_equations.
Proof. apply (bool_decide_eq_true_1 _). by vm_compute. Qed.

Lemma statement_ok : exists st, represents st username_equations /\ forall E, PROOF_STATEMENT (E:=E) = Ok st.
Proof.
  destruct (build_spec (E:=unit) username_equations username_statement_good) as (st & Hb & Hr).
  exists st. split; [done|]. intros E. unfold PROOF_STATEMENT. by vm_compute in Hb |- *; injection Hb as <-.
Qed.

(** The arguments of the statement, by name. *)
Lemma point_args_ok P1 P2 P3 lhs :
  (forall E, BASE_POINTS (E:=E) = Ok [P1; P2; P3]) ->
  exists pargs, (forall E, make_point_args (E:=E) lhs = Ok pargs) /\ points_given username_equations pargs /\
    point_of pargs "username_hash" = lhs /\ point_of pargs "G1" = P1 /\ point_of pargs "G2" = P2 /\ point_of pargs "G3" = P3.
Proof.
  intros Hb. eexists. split_and!.
  - intros E. unfold make_point_args. rewrite Hb. done.
  - unfold points_given. cbn. unfold args_add. rewrite !dom_insert_L, dom_empty_L.
    apply (bool_decide_eq_true_1 _). by vm_compute.
  - by vm_compute.
  - by vm_compute.
  - by vm_compute.
  - by vm_compute.
Qed.

Lemma wf_scalars_three u : wf_username u -> exists a b c, scalars u = [a; b; c].
Proof.
  intros [Hv _ Hs]. destruct (make_scalars_valid _ (discriminator u) Hv) as (x & b & _ & _ & Hm).
  rewrite Hs in Hm. injection Hm as ->. eauto.
Qed.

Lemma scalar_args_ok a b c :
  let sargs := make_scalar_args [a; b; c] in
  scalars_given username_equations sargs /\ scalar_of sargs "username_sha_scalar" = a /\
  scalar_of sargs "nickname_scalar" = b /\ scalar_of sargs "discriminator_scalar" = c.
Proof.
  cbv zeta. split_and!; [|by vm_compute..]. unfold scalars_given. cbn. unfold args_add.
  rewrite !dom_insert_L, dom_empty_L. apply (bool_decide_eq_true_1 _). by vm_compute.
Qed.

(** Verification as a function of the proof and the hash. *)
Lemma verify_username_cases b h :
  verify_username_proof b h = Err UsernameNotVerified \/
  exists st Q pargs, p_decompress h = Some Q /\ (forall E, PROOF_STATEMENT (E:=E) = Ok st) /\
    (forall E, make_point_args (E:=E) Q = Ok pargs) /\ represents st username_equations /\
    points_given username_equations pargs /\
    (verify_username_proof b h = Ok tt <-> verify_proof st b pargs (arr h) = Ok tt) /\
    (verify_username_proof b h = Ok tt \/ verify_username_proof b h = Err UsernameNotVerified).
Proof.
  unfold verify_username_proof. destruct (p_decompress h) as [Q|] eqn:Hq; cbn [ok_or mbind outcome_bind]; [right|by left].
  destruct base_points_ok as (P1 & P2 & P3 & Hb). destruct statement_ok as (st & Hr & Hst).
  destruct (point_args_ok P1 P2 P3 Q Hb) as (pargs & Hpa & Hg & _).
  exists st, Q, pargs. rewrite Hpa, Hst. cbn [mbind outcome_bind]. split_and!; try done.
  - rewrite (verify_spec st username_equations) by (done || apply username_statement_good).
    destruct (Proof_from_slice b); [case_decide|]; done.
  - rewrite (verify_spec st username_equations) by (done || apply username_statement_good).
    destruct (Proof_from_slice b); [case_decide|]; auto.
Qed.

(** A well-formed username has a hash, and a proof made for it with any
    randomness is verified against that hash; for any bytes and any hash,
    verification answers yes or [ProofVerificationFailure] and never panics. *)
Theorem username_proofs_verify u randomness :
  wf_username u ->
  (exists h pf, hash (E:=UsernameError) u = Ok h /\ proof u randomness = Ok pf /\ verify_username_proof pf h = Ok tt) /\
  (forall b h, verify_username_proof b h = Ok tt \/ verify_username_proof b h = Err UsernameNotVerified).
Proof.
  intros Hwf. split; cycle 1.
  { intros b h. destruct (verify_username_cases b h) as [?|(? & ? & ? & _ & _ & _ & _ & _ & _ & ?)]; auto. }
  destruct (wf_scalars_three u Hwf) as (a & b & c & Hs).
  destruct base_points_ok as (P1 & P2 & P3 & Hb). destruct statement_ok as (st & Hr & Hst).
  set (Q := (a *p P1 +p b *p P2) +p c *p P3).
  destruct (point_args_ok P1 P2 P3 Q Hb) as (pargs & Hpa & Hg & HQ & H1 & H2 & H3).
  destruct (scalar_args_ok a b c) as (Hsg & Ha & Hb' & Hc).
  assert (forall E, hash_from_scalars (E:=E) [a; b; c] = Ok Q) as HQs by (intros E; unfold hash_from_scalars; by rewrite Hb).
  destruct (prove_accepted st username_equations (make_scalar_args [a; b; c]) pargs (arr (p_compress Q)) (arr randomness))
    as (pf & Hpf & Hv).
  { split; [done|apply username_statement_good|done|done|done|]. apply Forall_singleton. cbn [fst snd].
    rewrite HQ. unfold image. cbn [fmap list_fmap fst snd p_sum foldr]. rewrite Ha, Hb', Hc, H1, H2, H3.
    unfold Q. group. }
  { apply array_length. }
  exists (p_compress Q), pf. unfold hash, proof, verify_username_proof. rewrite Hs, !HQs. cbn [mbind outcome_bind].
  rewrite Hpa, Hst. cbn [mbind outcome_bind]. rewrite Hpf, point_bytes_round_trip. cbn [ok_or mbind outcome_bind].
  rewrite Hpa. cbn [mbind outcome_bind]. rewrite Hst. cbn [mbind outcome_bind]. by rewrite Hv.
Qed.
End proofs.

(** ** Candidates *)

Section candidates.
Context {P : Primitives} `{IL : IndexSampleLaws} `{L : RistrettoLaws}.

Lemma validate_nickname_no_panic nick limits : validate_nickname nick limits <> Panic.
Proof.
  unfold validate_nickname, NicknameLimits_validate, validate_prefix.
  destruct nick as [|c s]; [done|]. destruct (is_ascii_digit c); [done|]. cbn [mbind outcome_bind].
  destruct (mapM _ _); [cbn [ok_or mbind outcome_bind]|done]. by do 2 (destruct (_ <? _)%nat; [done|]).
Qed.

Lemma from_parts_inner nick d limits u : from_parts nick d limits = Ok u -> from_parts_without_soft_limit nick d = Ok u.
Proof.
  unfold from_parts. destruct (from_parts_without_soft_limit nick d); cbn [mbind outcome_bind]; [|done..].
  destruct (negb _); [done|]. destruct (NicknameLimits_validate _ _); [|done..]. by intros [= <-].
Qed.

Lemma gen_ranges_ok {E} pairs rng :
  Forall (fun p => Z.of_nat p.1 <= range_end p.2 - range_start p.2) pairs ->
  exists ds rng', gen_ranges (E:=E) pairs rng = (Ok ds, rng') /\
    length ds = sum_list (pairs.*1) /\
    Forall (fun d => exists p, p ∈ pairs /\ range_start p.2 <= d < range_end p.2) ds.
Proof.
  revert rng. induction pairs as [|[n r] pairs IH]; intros rng Hp; [by exists [], rng|].
  apply Forall_cons in Hp as [Hn Hp]. cbn [fst snd] in Hn. cbn [gen_ranges]. unfold gen_range.
  destruct (sample_ok E _ n rng Hn) as (l & rng1 & Hl & Hlen & _ & Hin).
  rewrite M_bind_eq, M_bind_eq, Hl. cbn [mret M_ret].
  destruct (IH rng1 Hp) as (ds & rng2 & Hds & Hdl & Hdin). rewrite M_bind_eq, Hds.
  eexists _, _. split; [done|]. rewrite length_app, length_fmap, Hlen, Hdl. split; [done|].
  apply Forall_app_2.
  - apply Forall_fmap. eapply Forall_impl; [done|]. intros i Hi. exists (n, r). cbn beta in Hi. cbn [fst snd]. split; [constructor|lia].
  - eapply Forall_impl; [done|]. intros d (p & Hpin & Hd). exists p. split; [by constructor|done].
Qed.

(** A nickname within the limits gets twenty candidates, whatever the random
    numbers are; each of them is accepted as a username with that nickname and a
    discriminator of at most nine digits.  A nickname outside them gets the error of
    the validation. *)
Theorem candidates_valid nick limits rng lo hi :
  NicknameLimits_new (E:=UsernameError) lo hi = Ok limits ->
  match validate_nickname nick limits with
  | Ok _ => exists cs rng', candidates_from nick limits rng = (Ok cs, rng') /\ length cs = 20%nat /\
      Forall (fun c => exists u, Username_new c = Ok u /\ nickname u = nick /\ 1 <= discriminator u < 10 ^ 9 /\
                                 from_parts nick (pad2 (discriminator u)) limits = Ok u) cs
  | Err e => candidates_from nick limits rng = (Err e, rng)
  | Panic => False
  end.
Proof.
  intros Hl. unfold candidates_from. rewrite lift_bind.
  destruct (validate_nickname nick limits) as [[]| |] eqn:Hv; cycle 1.
  - done.
  - by apply (validate_nickname_no_panic nick limits).
  - destruct (gen_ranges_ok (E:=UsernameError) (zip CANDIDATES_PER_RANGE DISCRIMINATOR_RANGES) rng)
      as (ds & rng' & Hds & Hlen & Hin); [by repeat constructor|].
    rewrite M_bind_eq. unfold random_discriminators. change (negb _) with false. cbv iota. rewrite Hds.
    eexists _, _. split; [done|]. rewrite length_fmap. split; [done|].
    apply Forall_fmap. eapply Forall_impl; [done|]. intros d (p & Hp & Hd). cbn [compose].
    assert (0 < d < 10 ^ 9) as Hrange.
    { cbn [zip zip_with CANDIDATES_PER_RANGE DISCRIMINATOR_RANGES] in Hp.
      repeat (apply elem_of_cons in Hp as [->|Hp]; [cbn [fst snd range_start range_end] in Hd; lia|]).
      by apply not_elem_of_nil in Hp. }
    assert (validate_discriminator (pad2 d) = Ok d) as Hdisc
      by (apply validate_discriminator_spec; unfold u64_max; split; [lia|done]).
    pose proof (nickname_checks nick (pad2 d) d limits lo hi Hl Hdisc) as Hc. rewrite Hv in Hc.
    destruct (from_parts nick (pad2 d) limits) as [u| |] eqn:Hu; [|done..].
    exists u. pose proof (from_parts_inner _ _ _ _ Hu) as Hi. pose proof (proj1 (from_parts_inner_spec _ _ _) Hi) as (Hwf & Hn & Hp2).
    assert (discriminator u = d) as Hdu.
    { rewrite Hp2 in Hdisc. rewrite (proj2 (validate_discriminator_spec _ (discriminator u))) in Hdisc; [by injection Hdisc|].
      split; [apply Hwf|done]. }
    split_and!; [|done|lia|lia|by rewrite Hdu].
    unfold Username_new, format_parts. change ("." +:+ pad2 d)%string with (String "." (pad2 d)).
    rewrite rsplit_None_no_sep by (apply pad2_no_dot; unfold u64_max; lia). done.
Qed.
End candidates.

(** ** Links *)

Section links.
Context {P : Primitives} {A : AesLaws} `{Prost UsernameData} {wf : UsernameData -> Prop}.
Context {PL : ProstLaws UsernameData wf} {UL : UsernameDataLaws}.

Definition link_data (username : string) : UsernameData :=
  mkUsernameData username (replicate (16 * 3 - String.length username) Byte.x00).

(** The padded message fits in four blocks up to 61 bytes. *)
Lemma link_data_length username :
  (length (encode_to_vec (link_data username)) < 64)%nat <-> (String.length username <= 61)%nat.
Proof.
  unfold link_data. destruct (decide (String.length username < 128)%nat) as [Hs|Hl].
  - rewrite username_data_length by (cbn [ud_username ud_padding]; rewrite ?length_replicate; lia).
    cbn [ud_username ud_padding]. rewrite length_replicate.
    change (16 * 3)%nat with 48%nat. unfold field_length. destruct (Nat.eqb_spec (String.length username) 0), (Nat.eqb_spec (48 - String.length username) 0); cbv iota; lia.
  - pose proof (username_data_length_ge (mkUsernameData username (replicate (16 * 3 - String.length username) Byte.x00))) as Hge.
    cbn [ud_username] in Hge. lia.
Qed.

(** Links round-trip.  A link is created for exactly the texts of up to 61
    bytes, for the entropy given if there is one; with its entropy it decrypts to the
    text.  What decrypts ends in the MAC of the rest under that entropy, and
    decryption does not panic. *)
Theorem username_links_round_trip username entropy rng :
  wf (link_data username) ->
  ((String.length username <= 61)%nat -> exists e buf rng',
     create_for_username username entropy rng = (Ok (e, buf), rng') /\
     (forall e', entropy = Some e' -> e = e') /\ decrypt_username e buf = Ok username) /\
  ((61 < String.length username)%nat -> create_for_username username entropy rng = (Err InputDataTooLong, rng)) /\
  (forall e buf, decrypt_username e buf <> Panic) /\
  (forall e buf s, decrypt_username e buf = Ok s -> exists body,
     buf = body ++ link_hmac (link_hkdf e USERNAME_LINK_LABEL_AUTHENTICATION_KEY) body).
Proof.
  intros Hwf. pose proof (link_data_length username) as Hlen. unfold create_for_username.
  fold (link_data username). split_and!.
  - intros Hs. apply Hlen in Hs. rewrite (proj2 (Nat.leb_gt _ _)) by lia.
    assert (exists e rng1, (match entropy with Some e => mret e | None => random_bytes USERNAME_LINK_ENTROPY_SIZE end
                 : M Rng UsernameLinkError (array 32)) rng = (Ok e, rng1) /\ (forall e', entropy = Some e' -> e = e'))
      as (e & rng1 & He & Hent).
    { destruct entropy as [e|]; [exists e, rng; split; [done|by intros ? [= ->]]|]. unfold random_bytes, USERNAME_LINK_ENTROPY_SIZE.
      destruct (fill_bytes 32 rng) as [b rng1]. by exists b, rng1. }
    rewrite M_bind_eq, He. unfold random_bytes at 1. rewrite M_bind_eq. unfold USERNAME_LINK_IV_SIZE at 1.
    destruct (fill_bytes 16 rng1) as [iv rng2].
    destruct (aes_256_cbc_round_trip (encode_to_vec (link_data username))
      (link_hkdf e USERNAME_LINK_LABEL_ENCRYPTION_KEY) iv) as (ct & Henc & Hdec).
    change (arr (n:=USERNAME_LINK_IV_SIZE)) with (arr (n:=16)). rewrite Henc, lift_bind. cbn [expect_ok]. exists e. eexists _, _. split; [done|]. split; [done|].
    unfold decrypt_username. set (body := arr iv ++ ct). set (mac := link_hmac _ body).
    assert (length mac = 32%nat) as Hmac by apply array_length.
    assert (0 < length ct)%nat as Hct.
    { destruct ct; [|cbn; lia]. unfold aes_256_cbc_decrypt in Hdec. by cbn in Hdec. }
    assert (length body = 16 + length ct)%nat as Hbody by (unfold body; by rewrite length_app, array_length).
    unfold USERNAME_LINK_IV_SIZE, USERNAME_LINK_HMAC_LEN. rewrite length_app, Hmac.
    rewrite (proj2 (Nat.leb_gt _ _)) by lia. replace (length body + 32 - 32)%nat with (length body) by lia.
    rewrite take_app_length, drop_app_length. fold mac. rewrite bool_decide_true by done. cbn [negb].
    assert (slice 16 (length body) (body ++ mac) = ct) as ->.
    { unfold slice, body. rewrite <- app_assoc, drop_app_length' by by rewrite array_length.
      apply take_app_length'. rewrite length_app, array_length. lia. }
    assert (take 16 (body ++ mac) = arr iv) as ->.
    { unfold body. rewrite <- app_assoc. apply take_app_length'. by rewrite array_length. }
    rewrite Hdec. cbn [map_err mbind outcome_bind]. by rewrite decode_encode_pb.
  - intros Hs. rewrite (proj2 (Nat.leb_le _ _)); [done|]. apply Nat.le_ngt. rewrite Hlen. lia.
  - intros e buf. unfold decrypt_username, aes_256_cbc_decrypt. destruct (_ <=? _)%nat; [done|].
    destruct (negb _); [done|]. destruct (_ || _); [done|].
    destruct (key_iv _ _) as [[]|]; [cbn [ok_or mbind outcome_bind]|done].
    destruct (aes256_cbc_pkcs7_decrypt _ _ _) as [p|]; [cbn [ok_or map_err mbind outcome_bind]|done].
    by destruct (decode_pb p).
  - intros e buf s. unfold decrypt_username. destruct (_ <=? _)%nat; [done|].
    case_bool_decide as Hm; [|done]. intros _. eexists. by rewrite <- Hm, take_drop.
Qed.
End links.
