(* ===== verification/ZkAttributes.v ===== *)
(** * ZkAttributes: attributes of credentials and their encryption
    (rust/zkcredential/src/attributes.rs)

    An attribute is a pair of points, which a client encrypts under a key pair
    of a domain; a public attribute is only hashed; a revealed attribute is one
    point.  Domains are types in the source and values here. *)

From S2P Require Import Prelude Types Primitives Ristretto Sho.
From Stdlib Require Import Ring.
Open Scope string_scope.
Open Scope list_scope.
Open Scope Z_scope.

(** [zkcredential::VerificationFailure] and the length of the randomness. *)
Inductive ZkError := ZkVerificationFailure.
#[export] Instance ZkError_eq_dec : EqDecision ZkError.
Proof. solve_decision. Defined.
Definition RANDOMNESS_LEN : nat := 32.

Section public_attributes.
Context {S : Type} `{ShoApi S}.

(** [PublicAttribute::hash_into], for bytes and for numbers. *)
Definition PublicAttribute : Type := S -> S.
Definition public_bytes (b : bytes) : PublicAttribute := absorb_and_ratchet b.
Definition public_u32 (n : Z) : PublicAttribute := public_bytes (be_bytes 4 n).
Definition public_u64 (n : Z) : PublicAttribute := public_bytes (be_bytes 8 n).
End public_attributes.

Section attributes.
Context {P : Primitives} {R : Ristretto}.

Class Attribute (A : Type) := as_points : A -> RPoint * RPoint.
#[export] Instance points_attribute : Attribute (RPoint * RPoint) := fun p => p.

Class RevealedAttribute (A : Type) := as_point : A -> RPoint.
#[export] Instance point_revealed : RevealedAttribute RPoint := fun p => p.

Record Domain := mkDomain { domain_ID : string; domain_G_a : RPoint * RPoint }.

(** The points a domain derives from its ID; the storage caches them. *)
Definition derive_impl {E} (ID : string) : outcome E (RPoint * RPoint) :=
  let sho := absorb_and_ratchet (byte_str ID) (sho_new (S:=ShoHmacSha256) (byte_str "Signal_ZKCredential_Domain_20231011")) in
  '(G_a1, sho) ← run_local sho get_point;
  '(G_a2, sho) ← run_local sho get_point;
  Ok (G_a1, G_a2).
Definition derive_default_generator_points {E} (ID : string) (storage : option (RPoint * RPoint))
  : outcome E (RPoint * RPoint) :=
  match storage with Some points => Ok points | None => derive_impl ID end.

Record PublicKey (D : Domain) := mkPublicKey { pk_A : RPoint }.
Record KeyPair (D : Domain) := mkKeyPair { kp_a1 : RScalar; kp_a2 : RScalar; kp_public : PublicKey D }.
Record Ciphertext (D : Domain) := mkCiphertext { E_A1 : RPoint; E_A2 : RPoint }.

#[export] Instance ciphertext_attribute D : Attribute (Ciphertext D) := fun c => (E_A1 D c, E_A2 D c).

Definition from_scalars (D : Domain) (a1 a2 : RScalar) : KeyPair D :=
  let '(G_a1, G_a2) := domain_G_a D in
  mkKeyPair D a1 a2 (mkPublicKey D (a1 *p G_a1 +p a2 *p G_a2)).

Definition derive_from {E} {S : Type} `{ShoApi S} (D : Domain) : M S E (KeyPair D) :=
  a1 ← get_scalar;
  a2 ← get_scalar;
  mret (from_scalars D a1 a2).

Definition inverse_of {E} (D : Domain) {D2 : Domain} (other : KeyPair D2) : outcome E (KeyPair D) :=
  if bool_decide (domain_ID D = domain_ID D2) then Panic
  else
    let a1 := s_invert (kp_a1 D2 other) in
    let a2 := -s (kp_a1 D2 other *s kp_a2 D2 other) in
    Ok (from_scalars D a1 a2).

Definition encrypt_arbitrary_attribute {D : Domain} (D2 : Domain) {A} `{!Attribute A} (k : KeyPair D) (attr : A)
  : Ciphertext D2 :=
  let '(M1, M2) := as_points attr in
  let E_A1 := kp_a1 D k *p M1 in
  let E_A2 := kp_a2 D k *p E_A1 +p M2 in
  mkCiphertext D2 E_A1 E_A2.

Definition encrypt {D : Domain} {A} `{!Attribute A} (k : KeyPair D) (attr : A) : Ciphertext D :=
  encrypt_arbitrary_attribute D k attr.

Definition decrypt_to_second_point {D : Domain} (k : KeyPair D) (c : Ciphertext D) : outcome ZkError RPoint :=
  if bool_decide (E_A1 D c = p_base) then Err ZkVerificationFailure
  else Ok (E_A2 D c -p kp_a2 D k *p E_A1 D c).
End attributes.

Section proofs.
Context {P : Primitives} `{L : RistrettoLaws}.
Add Ring scalars : s_ring.

Lemma mul_inverse a b (Q : RPoint) : a *s b = s_one -> b *p a *p Q = Q.
Proof.
  intros Hab. destruct (pt_dlog Q) as [q ->]. fold_points. f_equal.
  transitivity ((a *s b) *s q); [ring|rewrite Hab; ring].
Qed.

(** Attribute encryption.  The second point is recovered from a ciphertext, whose
    first point must not be the base point; when [a1] has the inverse the code
    computes, encryption loses nothing and encrypting the ciphertext under
    the inverse key, in any other domain, gives the attribute back, while the same
    domain is refused. *)
Theorem attribute_encryption {D D2 : Domain} (k : KeyPair D) (attr : RPoint * RPoint) :
  let c := encrypt k attr in
  decrypt_to_second_point k c = (if bool_decide (kp_a1 D k *p attr.1 = p_base) then Err ZkVerificationFailure else Ok attr.2) /\
  (kp_a1 D k *s s_invert (kp_a1 D k) = s_one ->
     (forall attr', encrypt k attr' = c -> attr' = attr) /\
     match inverse_of (E:=ZkError) D2 k with
     | Ok k_inv => domain_ID D2 <> domain_ID D /\ as_points (encrypt_arbitrary_attribute D2 k_inv c) = attr
     | Err _ => False
     | Panic => domain_ID D2 = domain_ID D
     end).
Proof.
  destruct attr as [M1 M2], k as [a1 a2 pk]. cbv zeta.
  unfold encrypt, encrypt_arbitrary_attribute, decrypt_to_second_point, inverse_of, from_scalars.
  cbn [as_points points_attribute kp_a1 kp_a2 E_A1 E_A2 fst snd ciphertext_attribute]. split.
  - case_bool_decide; [done|]. f_equal. group.
  - intros Hinv. split.
    + intros [M1' M2'] [= H1 H2]. assert (M1' = M1) as ->.
      { rewrite <- (mul_inverse a1 (s_invert a1) M1'), <- (mul_inverse a1 (s_invert a1) M1) by done. by rewrite H1. }
      f_equal. clear H1 Hinv. revert H2. destruct (pt_dlog M1) as [m ->], (pt_dlog M2) as [n ->], (pt_dlog M2') as [n' ->].
      fold_points. intros H%pt_inj. f_equal.
      transitivity ((a2 *s (a1 *s m) +s n') -s a2 *s (a1 *s m)); [ring|rewrite H; ring].
    + case_bool_decide; [done|]. destruct (domain_G_a D2) as [G1 G2]. cbn [kp_a1 kp_a2]. split; [done|].
      unfold as_points, ciphertext_attribute. cbn [E_A1 E_A2]. rewrite (mul_inverse a1 (s_invert a1) M1) by done. f_equal. group.
Qed.
End proofs.
