(* ===== verification/ZkEndorsements.v ===== *)
(** * ZkEndorsements: issuing, receiving and redeeming endorsements
    (rust/zkcredential/src/endorsements.rs)

    A server endorses hidden points by multiplying them with a key derived from
    public information; a poksho proof over a weighted sum covers the whole
    batch.  The client combines endorsements, unblinds them and hashes them
    to tokens, which the server recomputes. *)

From S2P Require Import Prelude Types Primitives Ristretto Sho Poksho PokshoSpec ZkAttributes.
From Stdlib Require Import Ring.
Open Scope string_scope.
Open Scope list_scope.
Open Scope Z_scope.

Section endorsements.
Context {P : Primitives} {H256 : Sha256} {R : Ristretto}.

Record ServerRootKeyPair := mkServerRoot { sk : RScalar; root_PK : RPoint }.
(** [sk_prime] and the derived public key. *)
Record ServerDerivedKeyPair := mkServerDerived { sk_prime : RScalar; derived_PK : RPoint }.
Record ClientDecryptionKey := mkClientDecryptionKey { a_inv : RScalar }.
Record EndorsementResponse := mkEndorsementResponse { er_R : list (array 32); er_proof : bytes }.
Record ReceivedEndorsements := mkReceived { compressed : list (array 32); decompressed : list RPoint }.

Definition TOKEN_LEN : nat := 16.

Definition from_blinding_scalar (scalar : RScalar) : ClientDecryptionKey := mkClientDecryptionKey (s_invert scalar).
Definition for_first_point_of_attribute {D : Domain} (k : KeyPair D) : ClientDecryptionKey :=
  from_blinding_scalar (kp_a1 D k).

Definition root_from_raw (sk : RScalar) : ServerRootKeyPair := mkServerRoot sk (sk *p p_base).
Definition root_generate {E} (randomness : array 32) : outcome E ServerRootKeyPair :=
  let sho := absorb_and_ratchet (arr randomness)
    (sho_new (S:=ShoHmacSha256) (byte_str "Signal_ZKCredential_Endorsements_ServerRootKeyPair_generate_20240207")) in
  '(sk, sho) ← run_local sho get_scalar;
  Ok (root_from_raw sk).

Definition derive_key_from_tag_scalar (PK : RPoint) (t : RScalar) : RPoint := PK +p t *p p_base.
Definition derive_key {E} {S : Type} `{ShoApi S} (root : ServerRootKeyPair) (tag_info : S)
  : outcome E ServerDerivedKeyPair :=
  '(t, sho) ← run_local tag_info get_scalar;
  Ok (mkServerDerived (s_invert (sk root +s t)) (derive_key_from_tag_scalar (root_PK root) t)).
Definition derive_public_key {E} {S : Type} `{ShoApi S} (PK : RPoint) (tag_info : S) : outcome E RPoint :=
  '(t, sho) ← run_local tag_info get_scalar;
  Ok (derive_key_from_tag_scalar PK t).

(** ** The batch proof *)

Definition endorsement_equations : list (string * list (string * string)) :=
  [("weighted_sum(R)", [("sk_prime", "weighted_sum(E)")]); ("G", [("sk_prime", "PK_prime")])].
Definition endorsement_point_args (sum_E sum_R PK_prime : RPoint) : PointArgs :=
  args_add "PK_prime" PK_prime (args_add "weighted_sum(R)" sum_R (args_add "weighted_sum(E)" sum_E ∅)).

Definition SMALL_SCALAR_BYTES : nat := 16.

(** The chunk at the start of 32 zero bytes, its top bit cleared. *)
Definition small_scalar (chunk : bytes) : RScalar :=
  let b := take 15 chunk ++ (match chunk !! 15%nat with Some x => [as_u8 (Z.land (u8 x) 127)] | None => [] end) in
  s_from_bytes_mod_order (to_array 32 (b ++ replicate 16 Byte.x00)).

(** [E.len() - 1] wraps around for an empty list, and the allocation of that many
    bytes panics. *)
Definition generate_weights_for_proof {Er} (PK_prime : RPoint) (E : list RPoint) (R : list (array 32))
  : outcome Er (list RScalar) :=
  let hasher := sho_new (S:=ShoHmacSha256) (byte_str "Signal_ZKCredential_Endorsements_EndorsementResponse_ProofWeights_20240207") in
  let hasher := absorb (arr (p_compress PK_prime)) hasher in
  let compressed_double_Es := double_and_compress_batch E in
  let hasher := foldl (fun h b => absorb (arr b) h) hasher compressed_double_Es in
  let hasher := foldl (fun h b => absorb (arr b) h) hasher R in
  let hasher := ratchet hasher in
  if (length E =? 0)%nat then Panic
  else
    randomness ← (squeeze_and_ratchet ((length E - 1) * SMALL_SCALAR_BYTES) hasher).1;
    Ok (small_scalar <$> chunks SMALL_SCALAR_BYTES (arr randomness)).

(** [points[0] + multiscalar_mul(weights, points[1..])]. *)
Definition weighted_sum {E} (weights : list RScalar) (points : list RPoint) : outcome E RPoint :=
  match points with
  | [] => Panic
  | first :: rest => Ok (first +p multiscalar_mul (zip weights rest))
  end.

Definition issue {E} (hidden_attribute_points : list RPoint) (private_key : ServerDerivedKeyPair) (randomness : array 32)
  : outcome E EndorsementResponse :=
  let points := hidden_attribute_points in
  let R := (fun E_i => p_compress (sk_prime private_key *p E_i)) <$> points in
  weights_for_proof ← generate_weights_for_proof (derived_PK private_key) points R;
  sum_E ← weighted_sum weights_for_proof points;
  let sum_R := sk_prime private_key *p sum_E in
  let point_args := endorsement_point_args sum_E sum_R (derived_PK private_key) in
  let scalar_args := args_add "sk_prime" (sk_prime private_key) ∅ in
  statement ← build endorsement_equations;
  proof ← expect_ok (prove statement scalar_args point_args [] (arr randomness));
  Ok (mkEndorsementResponse R proof).

Definition receive (self : EndorsementResponse) (hidden_attribute_points : list RPoint) (PK_prime : RPoint)
  : outcome ZkError ReceivedEndorsements :=
  if negb (length hidden_attribute_points =? length (er_R self))%nat then Err ZkVerificationFailure
  else
    weights_for_proof ← generate_weights_for_proof PK_prime hidden_attribute_points (er_R self);
    let R := (fun R_i => default p_identity (p_decompress R_i)) <$> er_R self in
    sum_R ← weighted_sum weights_for_proof R;
    sum_E ← weighted_sum weights_for_proof hidden_attribute_points;
    statement ← build endorsement_equations;
    let point_args := endorsement_point_args sum_E sum_R PK_prime in
    _ ← map_err (fun _ => ZkVerificationFailure) (verify_proof statement (er_proof self) point_args []);
    Ok (mkReceived (er_R self) R).

(** ** Endorsements and tokens *)

(** [Endorsement<CompressedRistretto>::decompress] and [compress]. *)
Definition endorsement_decompress (b : array 32) : outcome ZkError RPoint := ok_or ZkVerificationFailure (p_decompress b).
Definition endorsement_compress (e : RPoint) : array 32 := p_compress e.
Definition endorsement_default : RPoint := p_identity.

Definition combine (endorsements : list RPoint) : RPoint := p_sum endorsements.
Definition combine_with (self other : RPoint) : RPoint := self +p other.
Definition remove (self other : RPoint) : RPoint := self -p other.

Definition to_token_raw (unblinded_endorsement : RPoint) : bytes :=
  take TOKEN_LEN (arr (sha256 (arr (p_compress unblinded_endorsement)))).
Definition to_token (self : RPoint) (client_key : ClientDecryptionKey) : bytes :=
  to_token_raw (a_inv client_key *p self).

Definition verify_token (key : ServerDerivedKeyPair) (point : RPoint) (token : bytes) : outcome ZkError unit :=
  let expected := to_token_raw (sk_prime key *p point) in
  if bool_decide (token = expected) then Ok tt else Err ZkVerificationFailure.
End endorsements.

(** ** What endorsements guarantee *)

Section proofs.
Context {P : Primitives} {H256 : Sha256} `{L : RistrettoLaws}.
Add Ring scalars : s_ring.

(** The key pair that [derive_key] makes when [sk + t] has an inverse. *)
Definition good_key (k : ServerDerivedKeyPair) : Prop := sk_prime k *p derived_PK k = p_base.

Lemma derived_key_good sk t : (sk +s t) *s s_invert (sk +s t) = s_one ->
  good_key (mkServerDerived (s_invert (sk +s t)) (derive_key_from_tag_scalar (root_PK (root_from_raw sk)) t)).
Proof.
  intros Hinv. unfold good_key. cbn [sk_prime derived_PK root_PK root_from_raw]. unfold derive_key_from_tag_scalar.
  set (i := s_invert _) in *. fold_points. f_equal.
  transitivity ((sk +s t) *s i); [ring|done].
Qed.

Lemma endorsement_statement_good : good_statement endorsement_equations.
Proof. apply (bool_decide_eq_true_1 _). by vm_compute. Qed.

Lemma endorsement_statement_ok :
  exists st, represents st endorsement_equations /\ forall E, build (E:=E) endorsement_equations = Ok st.
Proof.
  destruct (build_spec (E:=unit) endorsement_equations endorsement_statement_good) as (st & Hb & Hr).
  exists st. split; [done|]. intros E. by vm_compute in Hb |- *; injection Hb as <-.
Qed.

Lemma endorsement_points sum_E sum_R PK :
  let pargs := endorsement_point_args sum_E sum_R PK in
  points_given endorsement_equations pargs /\ point_of pargs "weighted_sum(E)" = sum_E /\
  point_of pargs "weighted_sum(R)" = sum_R /\ point_of pargs "PK_prime" = PK /\ point_of pargs "G" = p_base.
Proof.
  cbv zeta. split_and!; [|by vm_compute..]. unfold points_given, endorsement_point_args, args_add.
  rewrite !dom_insert_L, dom_empty_L. apply (bool_decide_eq_true_1 _). by vm_compute.
Qed.

Lemma weights_ok PK Es Rs :
  Es <> [] -> exists w, (forall Er, generate_weights_for_proof (Er:=Er) PK Es Rs = Ok w) /\
    length w = (length Es - 1)%nat.
Proof.
  intros Hne. unfold generate_weights_for_proof. cbv zeta. rewrite (proj2 (Nat.eqb_neq _ _)) by by destruct Es.
  match goal with |- context [squeeze_and_ratchet ?n ?s] => set (sho := s); set (n0 := n) end.
  assert (exists b s', forall F, squeeze_and_ratchet (E:=F) n0 sho = (Ok b, s')) as (b & s' & Hb).
  { cbn. unfold hmac.sho_squeeze. rewrite bool_decide_true by apply ratchet_mode. eauto. }
  exists (small_scalar <$> chunks SMALL_SCALAR_BYTES (arr b)).
  split; [by intros F; rewrite Hb|].
  rewrite length_fmap. apply chunks_length; [unfold SMALL_SCALAR_BYTES; lia|]. apply array_length.
Qed.

Lemma p_sum_mul k (l : list RPoint) : p_sum ((fun X => k *p X) <$> l) = k *p p_sum l.
Proof.
  induction l as [|X l IH]; [change (p_sum _) with p_identity; group|].
  change (p_sum ((fun X => k *p X) <$> X :: l)) with (k *p X +p p_sum ((fun X => k *p X) <$> l)).
  rewrite IH, p_sum_cons. set (S1 := p_sum l). group.
Qed.

Lemma weighted_sum_mul {E} k w points Q :
  weighted_sum (E:=E) w points = Ok Q -> weighted_sum (E:=E) w ((fun X => k *p X) <$> points) = Ok (k *p Q).
Proof.
  destruct points as [|X points]; [done|]. intros [= <-].
  change (Ok (E:=E) (k *p X +p multiscalar_mul (zip w ((fun X => k *p X) <$> points)))
          = Ok (k *p (X +p multiscalar_mul (zip w points)))). f_equal.
  rewrite !multiscalar_mul_sum.
  assert ((fun x : RScalar * RPoint => x.1 *p x.2) <$> zip w ((fun X => k *p X) <$> points)
          = (fun X => k *p X) <$> ((fun x => x.1 *p x.2) <$> zip w points)) as ->.
  { revert points. induction w as [|a w IH]; intros [|Y points]; [done..|]. cbn. f_equal; [group|apply IH]. }
  rewrite p_sum_mul. set (S1 := p_sum _). group.
Qed.

Lemma decompressed_endorsements k (points : list RPoint) :
  (fun R_i => default p_identity (p_decompress R_i)) <$> ((fun E_i => p_compress (k *p E_i)) <$> points)
  = (fun X => k *p X) <$> points.
Proof. rewrite <- list_fmap_compose. apply list_fmap_ext. intros i X _. cbn. by rewrite point_bytes_round_trip. Qed.

(** What a server with a derived key issues, a client with its public key
    receives: for a non-empty list of points [issue] succeeds, and [receive]
    accepts the response for the same points and returns [sk' E] for each
    point [E], compressed and not.  A list of another length is refused. *)
Theorem endorsements_received key points randomness :
  good_key key -> points <> [] ->
  exists response, issue (E:=ZkError) points key randomness = Ok response /\
    receive response points (derived_PK key) =
      Ok (mkReceived ((fun X => p_compress (sk_prime key *p X)) <$> points) ((fun X => sk_prime key *p X) <$> points)) /\
    forall points', length points' <> length points -> receive response points' (derived_PK key) = Err ZkVerificationFailure.
Proof.
  intros Hkey Hne. destruct key as [k PK]. cbn [sk_prime derived_PK] in *. unfold good_key in Hkey. cbn in Hkey.
  destruct (weights_ok PK points ((fun X => p_compress (k *p X)) <$> points) Hne) as (w & Hw & _).
  assert (exists Q, forall E, weighted_sum (E:=E) w points = Ok Q) as [Q HQ] by (destruct points; [done|by eexists]).
  destruct endorsement_statement_ok as (st & Hr & Hst).
  destruct (endorsement_points Q (k *p Q) PK) as (Hg & H1 & H2 & H3 & H4).
  destruct (prove_accepted st endorsement_equations (args_add "sk_prime" k ∅) (endorsement_point_args Q (k *p Q) PK) [] (arr randomness))
    as (pf & Hpf & Hv).
  { split; [done|apply endorsement_statement_good|done| |done|].
    - unfold scalars_given, args_add. rewrite dom_insert_L, dom_empty_L. apply (bool_decide_eq_true_1 _). by vm_compute.
    - unfold satisfied, endorsement_equations, image. repeat constructor; cbn [fmap list_fmap fst snd p_sum foldr];
        rewrite ?H1, ?H2, ?H3, ?H4; change (scalar_of _ "sk_prime") with k; [group|].
      rewrite Hkey. symmetry. destruct (pt_dlog p_base) as [g ->]. fold_points. f_equal. ring. }
  { apply array_length. }
  eexists. unfold issue. cbn [sk_prime derived_PK]. rewrite Hw. cbn [mbind outcome_bind]. rewrite HQ. cbn [mbind outcome_bind].
  rewrite Hst. cbn [mbind outcome_bind]. rewrite Hpf. split; [done|]. unfold receive. cbn [er_R er_proof].
  rewrite length_fmap. split.
  - rewrite Nat.eqb_refl. cbn [negb]. rewrite Hw. cbn [mbind outcome_bind].
    rewrite decompressed_endorsements, (weighted_sum_mul k w points Q) by apply HQ. cbn [mbind outcome_bind].
    rewrite HQ. cbn [mbind outcome_bind]. rewrite Hst. cbn [mbind outcome_bind]. by rewrite Hv.
  - intros points' Hl. by rewrite (proj2 (Nat.eqb_neq _ _)) by done.
Qed.

(** Without points there is no first weight: both sides panic, where the comments
    speak of an error. *)
Lemma empty_endorsements_panic key response randomness :
  er_R response = [] ->
  issue (E:=ZkError) [] key randomness = Panic /\ receive response [] (derived_PK key) = Panic.
Proof.
  intros HR. split; [done|]. unfold receive. by rewrite HR.
Qed.

(** C33: tokens.  The endorsement of a blinded point, unblinded by the client, is the
    token the server recomputes for the plain point; combining endorsements endorses
    the sum of the points and removing one its difference, in any order; any other
    string is refused as a token. *)
Theorem endorsement_tokens key a (points : list RPoint) (removed : RPoint) :
  a *s s_invert a = s_one ->
  let hidden := (fun X => a *p X) <$> points in
  let endorsements := (fun X => sk_prime key *p X) <$> hidden in
  let e := remove (combine endorsements) (sk_prime key *p a *p removed) in
  verify_token key (p_sum points -p removed) (to_token e (from_blinding_scalar a)) = Ok tt /\
  (forall token, verify_token key (p_sum points -p removed) token =
     if bool_decide (token = to_token e (from_blinding_scalar a)) then Ok tt else Err ZkVerificationFailure) /\
  (forall l l', l ≡ₚ l' -> combine l = combine l') /\
  (forall l x, combine (l ++ [x]) = combine_with (combine l) x) /\
  (forall x y, remove (combine_with x y) y = x /\ combine_with x endorsement_default = x).
Proof.
  intros Hinv. cbv zeta. set (e := remove _ _).
  assert (to_token e (from_blinding_scalar a) = to_token_raw (sk_prime key *p (p_sum points -p removed))) as Htok.
  { unfold to_token. f_equal. unfold e, remove, combine, from_blinding_scalar. cbn [a_inv].
    assert (p_sum ((fun X => sk_prime key *p X) <$> ((fun X => a *p X) <$> points)) = sk_prime key *p a *p p_sum points) as ->.
    { by rewrite !p_sum_mul. }
    destruct (pt_dlog (p_sum points)) as [s ->], (pt_dlog removed) as [r ->]. fold_points. f_equal.
    transitivity (sk_prime key *s ((a *s s_invert a) *s (s -s r))); [ring|rewrite Hinv; ring]. }
  unfold verify_token. cbv zeta. rewrite <- Htok. split_and!.
  - by rewrite bool_decide_true.
  - done.
  - unfold combine. intros l l' Hp. induction Hp as [|x l l' _ IH|x y l|]; [done| | |congruence].
    + by rewrite !p_sum_cons, IH.
    + rewrite !p_sum_cons. set (S1 := p_sum l). group.
  - intros l x. unfold combine, combine_with. rewrite p_sum_app, p_sum_cons. change (p_sum []) with p_identity.
    set (S1 := p_sum l). group.
  - intros x y. unfold remove, combine_with, endorsement_default. split; group.
Qed.
End proofs.
