(* ===== verification/ZkCredentials.v ===== *)
(** * ZkCredentials: keyed-verification credentials and their issuance
    (rust/zkcredential/src/credentials.rs, issuance.rs, issuance/blind.rs)

    A credential is a MAC [(t, U, V)] over up to seven points, the first of
    which hashes the public attributes.  The server issues it with a proof that
    it used the key it published; with blind issuance some of the points are
    encrypted under a key of the client, and so is the credential. *)

From S2P Require Import Prelude Types Primitives Ristretto Sho Poksho ZkAttributes.
From stdpp Require Import vector.
Open Scope string_scope.
Open Scope list_scope.
Open Scope Z_scope.

Section credentials.
Context {P : Primitives} {H256 : Sha256} {R : Ristretto}.

(** ** Parameters and keys (credentials.rs) *)

Definition NUM_SUPPORTED_ATTRS : nat := 7.

Record SystemParams := mkSystemParams {
  G_w : RPoint; G_wprime : RPoint; G_x0 : RPoint; G_x1 : RPoint; G_V : RPoint; G_z : RPoint;
  G_y : vec RPoint NUM_SUPPORTED_ATTRS
}.

(** [[(); N].map(|_| f())]. *)
Fixpoint repeat_M {S E A} (n : nat) (f : M S E A) : M S E (vec A n) :=
  match n with
  | O => mret (vnil)
  | S n => x ← f; xs ← repeat_M n f; mret (vcons x xs)
  end.

(** The source's [SYSTEM_PARAMS] is the result of this; the functions below take
    any parameters as an argument. *)
Definition SystemParams_generate {E} : outcome E SystemParams :=
  let sho := sho_new (S:=ShoSha256) (byte_str "Signal_ZKCredential_ConstantSystemParams_generate_20230410") in
  '(params, _) ← run_local sho (
    G_w ← get_point; G_wprime ← get_point;
    G_x0 ← get_point; G_x1 ← get_point;
    G_V ← get_point; G_z ← get_point;
    G_y ← repeat_M NUM_SUPPORTED_ATTRS get_point;
    mret (mkSystemParams G_w G_wprime G_x0 G_x1 G_V G_z G_y));
  Ok params.

Record Credential := mkCredential { cred_t : RScalar; cred_U : RPoint; cred_V : RPoint }.

Record CredentialPrivateKey := mkPrivateKey {
  w : RScalar; wprime : RScalar; W : RPoint; x0 : RScalar; x1 : RScalar;
  y : vec RScalar NUM_SUPPORTED_ATTRS
}.

Definition PrivateKey_generate {E} (system : SystemParams) (randomness : array 32) : outcome E CredentialPrivateKey :=
  let sho := absorb_and_ratchet (arr randomness)
    (sho_new (S:=ShoHmacSha256) (byte_str "Signal_ZKCredential_CredentialPrivateKey_generate_20230410")) in
  '(key, _) ← run_local sho (
    w ← get_scalar;
    let W := w *p G_w system in
    wprime ← get_scalar;
    x0 ← get_scalar;
    x1 ← get_scalar;
    y ← repeat_M NUM_SUPPORTED_ATTRS get_scalar;
    mret (mkPrivateKey w wprime W x0 x1 y));
  Ok key.

Definition credential_core {E} (key : CredentialPrivateKey) (M : list RPoint) : Prelude.M ShoHmacSha256 E Credential :=
  if negb (length M <=? NUM_SUPPORTED_ATTRS)%nat then lift Panic
  else
    t ← get_scalar;
    U ← get_point;
    let V := W key +p (x0 key +s x1 key *s t) *p U in
    let V := foldl (fun V '(yn, Mn) => V +p yn *p Mn) V (zip (vec_to_list (y key)) M) in
    mret (mkCredential t U V).

Record CredentialPublicKey := mkCredentialPublicKey { C_W : RPoint; I_points : list RPoint }.

(** [self.I[num_attrs - 2]]: the subtraction wraps around below two, and the index
    is then out of range. *)
Definition I_for {E} (key : CredentialPublicKey) (num_attrs : nat) : outcome E RPoint :=
  if (num_attrs <? 2)%nat then Panic else expect (I_points key !! (num_attrs - 2)%nat).

(** The value of [I_i] after each of the remaining pairs. *)
Fixpoint I_values (I_i : RPoint) (pairs : list (RScalar * RPoint)) : list RPoint :=
  match pairs with
  | [] => []
  | (yn, G_yn) :: pairs => let I_i := I_i -p yn *p G_yn in I_i :: I_values I_i pairs
  end.

Definition PublicKey_from (system : SystemParams) (key : CredentialPrivateKey) : CredentialPublicKey :=
  let C_W := W key +p wprime key *p G_wprime system in
  let I_i := G_V system -p x0 key *p G_x0 system -p x1 key *p G_x1 system in
  match zip (vec_to_list (y key)) (vec_to_list (G_y system)) with
  | (y0, G_y0) :: rest => mkCredentialPublicKey C_W (I_values (I_i -p y0 *p G_y0) rest)
  | [] => mkCredentialPublicKey C_W []
  end.

Record CredentialKeyPair := mkCredentialKeyPair { private_key : CredentialPrivateKey; public_key : CredentialPublicKey }.
Definition CredentialKeyPair_from (system : SystemParams) (key : CredentialPrivateKey) : CredentialKeyPair :=
  mkCredentialKeyPair key (PublicKey_from system key).
Definition CredentialKeyPair_generate {E} (system : SystemParams) (randomness : array 32) : outcome E CredentialKeyPair :=
  key ← PrivateKey_generate system randomness; Ok (CredentialKeyPair_from system key).

(** ** Issuance (issuance.rs) *)

Record IssuanceProof := mkIssuanceProof { ip_credential : Credential; ip_poksho_proof : bytes }.

Record IssuanceProofBuilder := mkBuilder {
  public_attrs : ShoHmacSha256;
  attr_points : list RPoint;
  authenticated_message : bytes
}.

Definition with_authenticated_message (label message : bytes) : IssuanceProofBuilder :=
  mkBuilder (sho_new label) [p_identity] message.
Definition IssuanceProofBuilder_new (label : bytes) : IssuanceProofBuilder := with_authenticated_message label [].

Definition add_public_attribute (self : IssuanceProofBuilder) (attr : PublicAttribute (S:=ShoHmacSha256)) : IssuanceProofBuilder :=
  mkBuilder (ratchet (attr (public_attrs self))) (attr_points self) (authenticated_message self).

Definition add_attribute {E A} `{!Attribute A} (self : IssuanceProofBuilder) (attr : A) : outcome E IssuanceProofBuilder :=
  let '(M1, M2) := as_points attr in
  let points := attr_points self ++ [M1; M2] in
  if (length points <=? NUM_SUPPORTED_ATTRS)%nat
  then Ok (mkBuilder (public_attrs self) points (authenticated_message self))
  else Panic.

(** [&l[..n]] and [&l[n..]]. *)
Definition slice_to {E A} (n : nat) (l : list A) : outcome E (list A) :=
  if (n <=? length l)%nat then Ok (take n l) else Panic.
Definition slice_from {E A} (n : nat) (l : list A) : outcome E (list A) :=
  if (n <=? length l)%nat then Ok (drop n l) else Panic.

Definition G_V_minus_I_terms : list (string * string) :=
  [("x0", "G_x0"); ("x1", "G_x1"); ("y0", "G_y0"); ("y1", "G_y1"); ("y2", "G_y2"); ("y3", "G_y3");
   ("y4", "G_y4"); ("y5", "G_y5"); ("y6", "G_y6")].
Definition V_terms : list (string * string) :=
  [("w", "G_w"); ("x0", "U"); ("x1", "tU"); ("y0", "M0"); ("y1", "M1"); ("y2", "M2"); ("y3", "M3");
   ("y4", "M4"); ("y5", "M5"); ("y6", "M6")].

Definition issuance_equations {E} (n : nat) : outcome E (list (string * list (string * string))) :=
  I_terms ← slice_to (2 + n) G_V_minus_I_terms;
  V_terms ← slice_to (3 + n) V_terms;
  Ok [("C_W", [("w", "G_w"); ("wprime", "G_wprime")]); ("G_V-I", I_terms); ("V", V_terms)].
Definition get_poksho_statement {E} (self : IssuanceProofBuilder) : outcome E Statement :=
  equations ← issuance_equations (length (attr_points self)); build equations.

Definition finalize_public_attrs {E} (self : IssuanceProofBuilder) : outcome E IssuanceProofBuilder :=
  '(point, sho) ← run_local (public_attrs self) get_point;
  Ok (mkBuilder sho (<[0%nat := point]> (attr_points self)) (authenticated_message self)).

Definition args_add_all {A} (pairs : list (string * A)) (args : gmap string A) : gmap string A :=
  foldl (fun args '(name, value) => args_add name value args) args pairs.

Definition y_names : list string := ["y0"; "y1"; "y2"; "y3"; "y4"; "y5"; "y6"].
Definition G_y_names : list string := ["G_y0"; "G_y1"; "G_y2"; "G_y3"; "G_y4"; "G_y5"; "G_y6"].
Definition M_names : list string := ["M0"; "M1"; "M2"; "M3"; "M4"; "M5"; "M6"].

Definition prepare_scalar_args {E} (key_pair : CredentialKeyPair) (total_attr_count : nat) : outcome E ScalarArgs :=
  let key := private_key key_pair in
  if negb (total_attr_count <=? NUM_SUPPORTED_ATTRS)%nat then Panic
  else
    Ok (args_add_all (zip (take total_attr_count y_names) (vec_to_list (y key)))
          (args_add_all [("w", w key); ("wprime", wprime key); ("x0", x0 key); ("x1", x1 key)] ∅)).

Definition prepare_point_args {E} (system : SystemParams) (self : IssuanceProofBuilder) (key : CredentialPublicKey)
    (total_attr_count : nat) (credential : option Credential) : outcome E PointArgs :=
  if negb (total_attr_count <=? NUM_SUPPORTED_ATTRS)%nat then Panic
  else
    I ← I_for key total_attr_count;
    let args := args_add_all [("C_W", C_W key); ("G_w", G_w system); ("G_wprime", G_wprime system); ("G_V-I", G_V system -p I);
                              ("G_x0", G_x0 system); ("G_x1", G_x1 system)] ∅ in
    let args := args_add_all (zip (take total_attr_count G_y_names) (vec_to_list (G_y system))) args in
    let args := match credential with
                | Some c => args_add_all [("V", cred_V c); ("U", cred_U c); ("tU", cred_t c *p cred_U c)] args
                | None => args
                end in
    Ok (args_add_all (zip M_names (attr_points self)) args).

Definition issue_credential {E} (system : SystemParams) (self : IssuanceProofBuilder) (key_pair : CredentialKeyPair)
    (randomness : array 32) : outcome E IssuanceProof :=
  self ← finalize_public_attrs self;
  let sho := absorb_and_ratchet (arr randomness) (sho_new (S:=ShoHmacSha256) (byte_str "Signal_ZKCredential_Issuance_20230410")) in
  '(credential, sho) ← run_local sho (credential_core (private_key key_pair) (attr_points self));
  scalar_args ← prepare_scalar_args key_pair (length (attr_points self));
  point_args ← prepare_point_args system self (public_key key_pair) (length (attr_points self)) (Some credential);
  statement ← get_poksho_statement self;
  '(proof_randomness, _) ← run_local sho (squeeze_and_ratchet RANDOMNESS_LEN);
  poksho_proof ← expect_ok (prove statement scalar_args point_args (authenticated_message self) (arr proof_randomness));
  Ok (mkIssuanceProof credential poksho_proof).

Definition verify_issuance (system : SystemParams) (self : IssuanceProofBuilder) (public_key : CredentialPublicKey)
    (proof : IssuanceProof) : outcome ZkError Credential :=
  self ← finalize_public_attrs self;
  point_args ← prepare_point_args system self public_key (length (attr_points self)) (Some (ip_credential proof));
  statement ← get_poksho_statement self;
  match verify_proof statement (ip_poksho_proof proof) point_args (authenticated_message self) with
  | Err _ => Err ZkVerificationFailure
  | Ok _ => Ok (ip_credential proof)
  | Panic => Panic
  end.

(** ** Blind issuance (blind.rs) *)

(** With and without the nonce [r]. *)
Record BlindedPointWithNonce := mkBlindedWithNonce { bpn_r : RScalar; bpn_D1 : RPoint; bpn_D2 : RPoint }.
Record BlindedPoint := mkBlinded { D1 : RPoint; D2 : RPoint }.
Definition without_nonce (p : BlindedPointWithNonce) : BlindedPoint := mkBlinded (bpn_D1 p) (bpn_D2 p).

Record BlindingKeyPair := mkBlindingKeyPair { blinding_y : RScalar; blinding_Y : RPoint }.
Definition BlindingKeyPair_from (y : RScalar) : BlindingKeyPair := mkBlindingKeyPair y (y *p p_base).
Definition BlindingKeyPair_generate {S E} `{ShoApi S} : Prelude.M S E BlindingKeyPair :=
  y ← get_scalar; mret (BlindingKeyPair_from y).

Definition blind {S E A} `{ShoApi S} `{!RevealedAttribute A} (self : BlindingKeyPair) (attr : A)
  : Prelude.M S E BlindedPointWithNonce :=
  r ← get_scalar;
  mret (mkBlindedWithNonce r (r *p p_base) (r *p blinding_Y self +p as_point attr)).

Definition blind_attribute {S E A} `{ShoApi S} `{!Attribute A} (self : BlindingKeyPair) (attr : A)
  : Prelude.M S E (BlindedPointWithNonce * BlindedPointWithNonce) :=
  let '(M1, M2) := as_points attr in
  p1 ← blind self M1;
  p2 ← blind self M2;
  mret (p1, p2).

Record BlindedCredential := mkBlindedCredential { bc_t : RScalar; bc_U : RPoint; bc_S1 : RPoint; bc_S2 : RPoint }.
Record BlindedIssuanceProof := mkBlindedProof { bip_credential : BlindedCredential; bip_poksho_proof : bytes }.

Record BlindedIssuanceProofBuilder := mkBlindedBuilder {
  inner : IssuanceProofBuilder;
  blinded_attr_points : list BlindedPoint
}.

Definition add_blinded_revealed_attribute {E} (self : BlindedIssuanceProofBuilder) (attr : BlindedPoint)
  : outcome E BlindedIssuanceProofBuilder :=
  let points := blinded_attr_points self ++ [attr] in
  if (length (attr_points (inner self)) + length points <=? NUM_SUPPORTED_ATTRS)%nat
  then Ok (mkBlindedBuilder (inner self) points) else Panic.

Definition add_blinded_attribute {E} (self : BlindedIssuanceProofBuilder) (attr : BlindedPoint * BlindedPoint)
  : outcome E BlindedIssuanceProofBuilder :=
  self ← add_blinded_revealed_attribute self attr.1;
  add_blinded_revealed_attribute self attr.2.

(** The methods of the plain builder that switch over. *)
Definition to_blinded (self : IssuanceProofBuilder) : BlindedIssuanceProofBuilder := mkBlindedBuilder self [].

Definition S1_terms : list (string * string) :=
  [("y0", "D1_0"); ("y1", "D1_1"); ("y2", "D1_2"); ("y3", "D1_3"); ("y4", "D1_4"); ("y5", "D1_5"); ("y6", "D1_6")].
Definition S2_terms : list (string * string) :=
  [("y0", "D2_0"); ("y1", "D2_1"); ("y2", "D2_2"); ("y3", "D2_3"); ("y4", "D2_4"); ("y5", "D2_5"); ("y6", "D2_6")].
Definition V_terms_with_rprime : list (string * string) := ("rprime", "Y") :: V_terms.
Definition D_names : list (string * string) :=
  [("D1_0", "D2_0"); ("D1_1", "D2_1"); ("D1_2", "D2_2"); ("D1_3", "D2_3"); ("D1_4", "D2_4"); ("D1_5", "D2_5"); ("D1_6", "D2_6")].

Definition blinded_equations {E} (n b : nat) : outcome E (list (string * list (string * string))) :=
  I_terms ← slice_to (2 + n + b) G_V_minus_I_terms;
  S1 ← (l ← slice_from n S1_terms; slice_to b l);
  S2 ← slice_to (4 + n) V_terms_with_rprime;
  S2' ← (l ← slice_from n S2_terms; slice_to b l);
  Ok [("C_W", [("w", "G_w"); ("wprime", "G_wprime")]); ("G_V-I", I_terms);
      ("S1", S1 ++ [("rprime", "G")]); ("S2", S2 ++ S2')].
Definition get_blinded_statement {E} (self : BlindedIssuanceProofBuilder) : outcome E Statement :=
  equations ← blinded_equations (length (attr_points (inner self))) (length (blinded_attr_points self));
  build equations.

Definition total_points (self : BlindedIssuanceProofBuilder) : nat :=
  (length (attr_points (inner self)) + length (blinded_attr_points self))%nat.

Definition finalize_blinded {E} (self : BlindedIssuanceProofBuilder) : outcome E BlindedIssuanceProofBuilder :=
  inner ← finalize_public_attrs (inner self); Ok (mkBlindedBuilder inner (blinded_attr_points self)).

Definition prepare_blinded_scalar_args {E} (self : BlindedIssuanceProofBuilder) (key_pair : CredentialKeyPair) (rprime : RScalar)
  : outcome E ScalarArgs :=
  scalar_args ← prepare_scalar_args key_pair (total_points self);
  Ok (args_add "rprime" rprime scalar_args).

Definition prepare_blinded_point_args {E} (system : SystemParams) (self : BlindedIssuanceProofBuilder) (key : CredentialPublicKey)
    (blinding_key : RPoint) (c : BlindedCredential) : outcome E PointArgs :=
  args ← prepare_point_args system (inner self) key (total_points self) None;
  let pairs := zip (drop (length (attr_points (inner self))) D_names) (blinded_attr_points self) in
  let args := foldl (fun args '((d1_name, d2_name), p) => args_add d2_name (D2 p) (args_add d1_name (D1 p) args)) args pairs in
  Ok (args_add_all [("S1", bc_S1 c); ("S2", bc_S2 c); ("U", bc_U c); ("tU", bc_t c *p bc_U c); ("Y", blinding_key)] args).

(** [y.iter().skip(n).zip(points).map(|(yn, Dn)| yn * f(Dn)).sum()]. *)
Definition sum_blinded (key : CredentialPrivateKey) (n : nat) (points : list RPoint) : RPoint :=
  p_sum ((fun x => x.1 *p x.2) <$> zip (drop n (vec_to_list (y key))) points).

Definition issue_blinded {E} (system : SystemParams) (self : BlindedIssuanceProofBuilder) (key_pair : CredentialKeyPair)
    (blinding_key : RPoint) (randomness : array 32) : outcome E BlindedIssuanceProof :=
  self ← finalize_blinded self;
  let key := private_key key_pair in
  let n := length (attr_points (inner self)) in
  let sho := absorb_and_ratchet (arr randomness) (sho_new (S:=ShoHmacSha256) (byte_str "Signal_ZKCredential_BlindIssuance_20230410")) in
  '(rprime, sho) ← run_local sho get_scalar;
  let S1 := rprime *p p_base +p sum_blinded key n (D1 <$> blinded_attr_points self) in
  '(base_credential, sho) ← run_local sho (credential_core key (attr_points (inner self)));
  let S2 := rprime *p blinding_key +p cred_V base_credential +p sum_blinded key n (D2 <$> blinded_attr_points self) in
  let credential := mkBlindedCredential (cred_t base_credential) (cred_U base_credential) S1 S2 in
  scalar_args ← prepare_blinded_scalar_args self key_pair rprime;
  point_args ← prepare_blinded_point_args system self (public_key key_pair) blinding_key credential;
  statement ← get_blinded_statement self;
  '(proof_randomness, _) ← run_local sho (squeeze_and_ratchet RANDOMNESS_LEN);
  poksho_proof ← expect_ok (prove statement scalar_args point_args (authenticated_message (inner self)) (arr proof_randomness));
  Ok (mkBlindedProof credential poksho_proof).

Definition verify_blinded (system : SystemParams) (self : BlindedIssuanceProofBuilder) (public_key : CredentialPublicKey)
    (blinding_key : BlindingKeyPair) (proof : BlindedIssuanceProof) : outcome ZkError Credential :=
  self ← finalize_blinded self;
  let c := bip_credential proof in
  point_args ← prepare_blinded_point_args system self public_key (blinding_Y blinding_key) c;
  statement ← get_blinded_statement self;
  _ ← map_err (fun _ => ZkVerificationFailure)
        (verify_proof statement (bip_poksho_proof proof) point_args (authenticated_message (inner self)));
  Ok (mkCredential (bc_t c) (bc_U c) (bc_S2 c -p blinding_y blinding_key *p bc_S1 c)).
End credentials.
