(* ===== verification/ZkIssuanceSpec.v ===== *)
(** * ZkIssuanceSpec: issuance of credentials, plain and blind

    The MAC equation of a credential ([valid_credential]) makes the issuance
    statement true, so the client accepts what the server issues, and what a
    client decrypts from a blinded issuance is a credential on the plain
    points. *)

From stdpp Require Import vector.
From Stdlib Require Import Ring.
From S2P Require Import Prelude Types Primitives Ristretto Sho Poksho PokshoSpec ZkAttributes ZkCredentials.

(** ** Issued credentials are received and valid

    The MAC equation of a credential ([valid_credential]) makes the issuance
    statement true, so the client accepts what the server issues; and what a
    client decrypts from a blinded issuance is a credential on the plain
    points. *)
Open Scope string_scope.
Open Scope list_scope.
Open Scope Z_scope.

Section products.
Context {R : Ristretto}.

Definition sum_products (l : list RScalar) (Ms : list RPoint) : RPoint := p_sum ((fun x => x.1 *p x.2) <$> zip l Ms).

Lemma image_products f pargs r : image f pargs r = sum_products (f <$> r.*1) (point_of pargs <$> r.*2).
Proof.
  unfold image, sum_products. f_equal. induction r as [|[s n] r IH]; [done|]. cbn. f_equal. exact IH.
Qed.

End products.

(** Look the names of an equation up: [v] is the value of its left-hand side, [ss] and
    [ps] are the scalars and points of its terms. *)
Ltac named_equation v ss ps :=
  cbn [fst snd]; rewrite image_products;
  match goal with
  | |- ?l = sum_products ?s ?p =>
      replace l with v by (vm_compute; reflexivity);
      replace s with ss by (vm_compute; reflexivity);
      replace p with ps by (vm_compute; reflexivity)
  end.
Ltac products :=
  unfold sum_products; cbn [zip zip_with fmap list_fmap p_sum foldr foldl fst snd app length take drop firstn skipn Nat.add]; group.

Ltac decided := unfold scalars_given, points_given; apply (bool_decide_eq_true_1 _); vm_compute; reflexivity.

(** One number of attributes: the sets of names are computed, and each equation is
    looked up and proved by the ring. *)
Ltac issuance_case w wp x0 x1 ys Gw Gwp Gx0 Gx1 GV Gs t U Ms :=
  let n := constr:(length Ms) in
  eexists _, _, _; split; [reflexivity|]; split; [reflexivity|]; split; [reflexivity|]; split;
    [decided|done|decided|decided|];
  unfold satisfied; apply Forall_cons; split; [|apply Forall_cons; split; [|apply Forall_singleton]];
  [named_equation (w *p Gw +p wp *p Gwp) [w; wp] [Gw; Gwp]; products
  |named_equation (GV -p foldl (fun I '(yn, G) => I -p yn *p G) (GV -p x0 *p Gx0 -p x1 *p Gx1) (take n (zip ys Gs)))
     (x0 :: x1 :: take n ys) (Gx0 :: Gx1 :: take n Gs); products
  |named_equation (w *p Gw +p (x0 +s x1 *s t) *p U +p sum_products ys Ms) (w :: x0 :: x1 :: take n ys) (Gw :: U :: t *p U :: Ms);
   products].

Section issuance.
Context {P : Primitives} {H256 : Sha256} `{L : RistrettoLaws}.
Add Ring scalars : s_ring.

(** The MAC equation. *)
Definition valid_credential (key : CredentialPrivateKey) (Ms : list RPoint) (c : Credential) : Prop :=
  cred_V c = W key +p (x0 key +s x1 key *s cred_t c) *p cred_U c +p sum_products (vec_to_list (y key)) Ms.

(** [W] is computed from [w] when a key is generated. *)
Definition good_private_key (system : SystemParams) (key : CredentialPrivateKey) : Prop := W key = w key *p G_w system.

Lemma fold_products l (Ms : list RPoint) V :
  foldl (fun V '(yn, Mn) => V +p yn *p Mn) V (zip l Ms) = V +p sum_products l Ms.
Proof.
  unfold sum_products. revert V Ms. induction l as [|a l IH]; intros V [|X Ms];
    [change (p_sum _) with p_identity; cbn [zip zip_with foldl]; group..|].
  cbn [zip zip_with foldl]. rewrite IH. set (S1 := p_sum _).
  change (p_sum _) with (a *p X +p S1) at 1. group.
Qed.

Lemma credential_core_ok {E} key Ms s :
  (length Ms <= NUM_SUPPORTED_ATTRS)%nat -> ratcheted s ->
  exists c s', credential_core (E:=E) key Ms s = (Ok c, s') /\ valid_credential key Ms c /\ ratcheted s'.
Proof.
  intros Hlen Hs. unfold credential_core. rewrite (proj2 (Nat.leb_le _ _)) by done. cbn [negb].
  destruct (get_scalar_ok (E:=E) s Hs) as (t & s1 & Ht & Hs1). rewrite M_bind_eq, Ht.
  destruct (get_point_ok (E:=E) s1 Hs1) as (U & s2 & HU & Hs2). rewrite M_bind_eq, HU.
  eexists _, s2. split; [done|]. split; [|done]. unfold valid_credential. cbn [cred_V cred_U cred_t]. by rewrite fold_products.
Qed.

Lemma vec_seven {A} (v : vec A 7) : exists a b c d e f g, v = [# a; b; c; d; e; f; g].
Proof.
  inv_vec v. intros a b c d e f g. by exists a, b, c, d, e, f, g.
Qed.

(** The arguments that fit a statement. *)
Record fitting (eqs : list named_equation) (sargs : ScalarArgs) (pargs : PointArgs) : Prop := {
  ft_good : good_statement eqs;
  ft_nonempty : eqs <> [];
  ft_scalars : scalars_given eqs sargs;
  ft_points : points_given eqs pargs;
  ft_satisfied : satisfied eqs sargs pargs
}.

Lemma issuance_fitting system key Ms c sho msg :
  (2 <= length Ms <= NUM_SUPPORTED_ATTRS)%nat -> good_private_key system key -> valid_credential key Ms c ->
  exists eqs sargs pargs,
    issuance_equations (E:=ZkError) (length Ms) = Ok eqs /\
    prepare_scalar_args (E:=ZkError) (CredentialKeyPair_from system key) (length Ms) = Ok sargs /\
    prepare_point_args (E:=ZkError) system (mkBuilder sho Ms msg) (PublicKey_from system key) (length Ms) (Some c) = Ok pargs /\
    fitting eqs sargs pargs.
Proof.
  intros Hlen Hkey Hc. unfold good_private_key in Hkey. unfold valid_credential in Hc.
  destruct key as [w' wp W' x0' x1' y'], c as [t U V], system as [Gw Gwp Gx0 Gx1 GV Gz Gy].
  cbn [W w x0 x1 y cred_V cred_U cred_t G_w] in *. subst W' V.
  destruct (vec_seven y') as (y0' & y1' & y2' & y3' & y4' & y5' & y6' & ->).
  destruct (vec_seven Gy) as (G0 & G1 & G2 & G3 & G4 & G5 & G6 & ->).
    destruct Ms as [|M0 [|M1 [|M2 [|M3 [|M4 [|M5 [|M6 [|M7 Ms]]]]]]]]; [exfalso; unfold NUM_SUPPORTED_ATTRS in Hlen; cbn [length] in Hlen; lia..|idtac|idtac|idtac|idtac|idtac|idtac|exfalso; unfold NUM_SUPPORTED_ATTRS in Hlen; cbn [length] in Hlen; lia];
    match goal with |- context [mkBuilder _ ?Ms _] =>
      issuance_case w' wp x0' x1' [y0'; y1'; y2'; y3'; y4'; y5'; y6'] Gw Gwp Gx0 Gx1 GV [G0; G1; G2; G3; G4; G5; G6] t U Ms end.
Qed.

(** ** Plain issuance *)

(** A builder made by the methods: its hash was ratcheted, it has the point of the
    public attributes and at most six others. *)
Record builder_ok (b : IssuanceProofBuilder) : Prop := {
  bo_ratcheted : ratcheted (public_attrs b);
  bo_points : (1 <= length (attr_points b) <= NUM_SUPPORTED_ATTRS)%nat
}.

Lemma builder_new label message : builder_ok (with_authenticated_message label message).
Proof. split; [apply new_ratcheted|cbn; unfold NUM_SUPPORTED_ATTRS; lia]. Qed.
Lemma builder_add_public b attr : builder_ok b -> builder_ok (add_public_attribute b attr).
Proof. intros [_ Hl]. split; [apply ratchet_ratcheted|done]. Qed.
Lemma builder_add_attribute {E} b (attr : RPoint * RPoint) b' :
  builder_ok b -> add_attribute (E:=E) b attr = Ok b' ->
  builder_ok b' /\ attr_points b' = attr_points b ++ [attr.1; attr.2].
Proof.
  intros [Hr Hl]. unfold add_attribute. destruct attr as [M1 M2]. cbn [as_points points_attribute].
  destruct (Nat.leb_spec (length (attr_points b ++ [M1; M2])) NUM_SUPPORTED_ATTRS) as [Hle|]; [|done]. intros [= <-].
  split; [|done]. split; [done|]. cbn [attr_points]. rewrite length_app in *. cbn in *. lia.
Qed.

(** The points with the hash of the public attributes in front. *)
Definition all_points (b : IssuanceProofBuilder) : list RPoint :=
  match finalize_public_attrs (E:=ZkError) b with Ok b => attr_points b | _ => [] end.

Lemma finalize_ok b : builder_ok b -> exists sho,
  finalize_public_attrs (E:=ZkError) b = Ok (mkBuilder sho (all_points b) (authenticated_message b)) /\
  length (all_points b) = length (attr_points b).
Proof.
  intros [Hr _]. unfold all_points, finalize_public_attrs.
  destruct (get_point_ok (E:=ZkError) _ Hr) as (Q & sho & HQ & _). unfold run_local. rewrite HQ.
  exists sho. cbn. split; [done|]. by rewrite length_insert.
Qed.

Lemma issuance_points system key n c Ms sho msg :
  n = length Ms -> (2 <= n <= NUM_SUPPORTED_ATTRS)%nat -> length (I_points key) = 6%nat ->
  exists eqs pargs, issuance_equations (E:=ZkError) n = Ok eqs /\ good_statement eqs /\
    prepare_point_args (E:=ZkError) system (mkBuilder sho Ms msg) key n (Some c) = Ok pargs /\ points_given eqs pargs.
Proof.
  intros -> Hlen HI. destruct system as [Gw Gwp Gx0 Gx1 GV Gz Gy], key as [CW Is]. cbn [I_points] in HI.
  destruct (vec_seven Gy) as (G0 & G1 & G2 & G3 & G4 & G5 & G6 & ->).
  destruct Is as [|I0 [|I1 [|I2 [|I3 [|I4 [|I5 [|I6 Is]]]]]]]; try discriminate HI.
  destruct Ms as [|M0 [|M1 [|M2 [|M3 [|M4 [|M5 [|M6 [|M7 Ms]]]]]]]]; [exfalso; unfold NUM_SUPPORTED_ATTRS in Hlen; cbn [length] in Hlen; lia..|idtac|idtac|idtac|idtac|idtac|idtac|exfalso; unfold NUM_SUPPORTED_ATTRS in Hlen; cbn [length] in Hlen; lia];
    eexists _, _; (split; [reflexivity|]); (split; [decided|]); (split; [reflexivity|decided]).
Qed.

Lemma I_points_length system key : length (I_points (PublicKey_from system key)) = 6%nat.
Proof.
  destruct key as [w' wp W' x0' x1' y'], system as [Gw Gwp Gx0 Gx1 GV Gz Gy].
  destruct (vec_seven y') as (? & ? & ? & ? & ? & ? & ? & ->). by destruct (vec_seven Gy) as (? & ? & ? & ? & ? & ? & ? & ->).
Qed.

(** The proof of a statement whose arguments fit is accepted. *)
Lemma fitting_accepted eqs sargs pargs message randomness :
  fitting eqs sargs pargs -> length randomness = 32%nat ->
  exists st proof, build (E:=ZkError) eqs = Ok st /\ prove st sargs pargs message randomness = Ok proof /\
    verify_proof st proof pargs message = Ok tt.
Proof.
  intros [Hg Hne Hs Hp Hsat] Hr. destruct (build_spec (E:=ZkError) eqs Hg) as (st & Hb & Hrep).
  destruct (prove_accepted st eqs sargs pargs message randomness) as (pf & Hpf & Hv); [by split|done|]. eauto.
Qed.

Lemma squeezed_randomness s : ratcheted (S:=ShoHmacSha256) s ->
  exists r s', run_local (E:=ZkError) s (squeeze_and_ratchet RANDOMNESS_LEN) = Ok (r, s').
Proof.
  intros Hs. destruct (squeeze_ratcheted ZkError RANDOMNESS_LEN s Hs) as (r & s' & Hq & _).
  exists r, s'. unfold run_local. by rewrite Hq.
Qed.

(** C22: issuance.  For a builder with at least one attribute besides the public ones,
    the server issues a credential that satisfies the MAC equation on all the
    points; a client with the same builder and the public key accepts it;
    and on any response at all the client returns the credential in
    it or [VerificationFailure], without panicking. *)
Theorem credential_issued system key b randomness :
  good_private_key system key -> builder_ok b -> (2 <= length (attr_points b))%nat ->
  let kp := CredentialKeyPair_from system key in
  (exists proof, issue_credential (E:=ZkError) system b kp randomness = Ok proof /\
     verify_issuance system b (public_key kp) proof = Ok (ip_credential proof) /\
     valid_credential key (all_points b) (ip_credential proof)) /\
  (forall proof, verify_issuance system b (public_key kp) proof = Ok (ip_credential proof) \/
                 verify_issuance system b (public_key kp) proof = Err ZkVerificationFailure).
Proof.
  intros Hkey Hb Hlen kp. destruct (finalize_ok b Hb) as (sho & Hf & Hl).
  assert (2 <= length (all_points b) <= NUM_SUPPORTED_ATTRS)%nat as Hn by (destruct Hb; lia). split.
  - set (sho1 := absorb_and_ratchet (S:=ShoHmacSha256) (arr randomness) (sho_new (byte_str "Signal_ZKCredential_Issuance_20230410"))).
    destruct (credential_core_ok (E:=ZkError) key (all_points b) sho1) as (c & sho2 & Hc & Hv & Hs2);
      [lia|apply absorb_and_ratchet_ratcheted|].
    destruct (issuance_fitting system key (all_points b) c sho (authenticated_message b) Hn Hkey Hv)
      as (eqs & sargs & pargs & Heq & Hsa & Hpa & Hfit).
    destruct (squeezed_randomness sho2 Hs2) as (r & s' & Hr).
    destruct (fitting_accepted eqs sargs pargs (authenticated_message b) (arr r) Hfit) as (st & pf & Hst & Hpf & Hvp);
      [apply array_length|].
    exists (mkIssuanceProof c pf). unfold issue_credential, verify_issuance. rewrite Hf. cbn [mbind outcome_bind].
    cbv zeta. match goal with |- context [run_local ?x (credential_core _ _)] => change x with sho1 end.
    cbn [private_key public_key kp CredentialKeyPair_from attr_points authenticated_message].
    match goal with |- context [run_local sho1 ?m] => assert (run_local sho1 m = Ok (c, sho2)) as -> by (unfold run_local; by rewrite Hc) end.
    cbn [mbind outcome_bind]. unfold get_poksho_statement. cbn [attr_points ip_credential ip_poksho_proof].
    fold kp in Hsa. rewrite Hsa. cbn [mbind outcome_bind]. rewrite Hpa. cbn [mbind outcome_bind]. rewrite Heq. cbn [mbind outcome_bind].
    rewrite Hst. cbn [mbind outcome_bind]. rewrite Hr. cbn [mbind outcome_bind]. rewrite Hpf. split; [done|]. by rewrite Hvp.
  - intros [c pf]. destruct (issuance_points system (public_key kp) _ c (all_points b) sho (authenticated_message b) eq_refl Hn)
      as (eqs & pargs & Heq & Hg & Hpa & Hp); [apply I_points_length|].
    unfold verify_issuance. rewrite Hf. cbn [mbind outcome_bind attr_points ip_credential ip_poksho_proof authenticated_message].
    rewrite Hpa. cbn [mbind outcome_bind]. unfold get_poksho_statement. cbn [attr_points]. rewrite Heq. cbn [mbind outcome_bind].
    destruct (build_spec (E:=ZkError) eqs Hg) as (st & -> & Hr). cbn [mbind outcome_bind].
    rewrite (verify_spec st eqs) by done. destruct (Proof_from_slice pf); [case_decide|]; auto.
Qed.
End issuance.

Open Scope string_scope.
Open Scope list_scope.
Open Scope Z_scope.

Section blind.
Context {P : Primitives} {H256 : Sha256} `{L : RistrettoLaws}.
Add Ring scalars : s_ring.

(** What [issue_blinded] makes of a plain credential over the plain points. *)
Definition blinded_credential (key : CredentialPrivateKey) (n : nat) (Y : RPoint) (rprime : RScalar) (c : Credential)
    (Ds : list BlindedPoint) : BlindedCredential :=
  mkBlindedCredential (cred_t c) (cred_U c)
    (rprime *p p_base +p sum_blinded key n (D1 <$> Ds))
    (rprime *p Y +p cred_V c +p sum_blinded key n (D2 <$> Ds)).

(** One pair of numbers of points. *)
Ltac blinded_case w wp x0 x1 ys Gw Gwp Gx0 Gx1 GV Gs t U Y rprime Ms Ds :=
  let n := constr:(length Ms) in
  let b := constr:(length Ds) in
  eexists _, _, _; split; [reflexivity|]; split; [reflexivity|]; split; [reflexivity|]; split;
    [decided|done|decided|decided|];
  unfold satisfied; apply Forall_cons; split; [|apply Forall_cons; split; [|apply Forall_cons; split; [|apply Forall_singleton]]];
  [named_equation (w *p Gw +p wp *p Gwp) [w; wp] [Gw; Gwp]; products
  |named_equation (GV -p foldl (fun I '(yn, G) => I -p yn *p G) (GV -p x0 *p Gx0 -p x1 *p Gx1) (take (n + b) (zip ys Gs)))
     (x0 :: x1 :: take (n + b) ys) (Gx0 :: Gx1 :: take (n + b) Gs); products
  |named_equation (rprime *p p_base +p sum_products (drop n ys) (D1 <$> Ds))
     (take b (drop n ys) ++ [rprime]) ((D1 <$> Ds) ++ [p_base]); products
  |named_equation (rprime *p Y +p (w *p Gw +p (x0 +s x1 *s t) *p U +p sum_products ys Ms) +p sum_products (drop n ys) (D2 <$> Ds))
     ((rprime :: w :: x0 :: x1 :: take n ys) ++ take b (drop n ys)) (Y :: Gw :: U :: t *p U :: Ms ++ (D2 <$> Ds));
   products].

Lemma blinded_fitting system key Ms c sho msg Ds Y rprime :
  (1 <= length Ms)%nat -> (2 <= length Ms + length Ds <= NUM_SUPPORTED_ATTRS)%nat ->
  good_private_key system key -> valid_credential key Ms c ->
  let self := mkBlindedBuilder (mkBuilder sho Ms msg) Ds in
  exists eqs sargs pargs,
    blinded_equations (E:=ZkError) (length Ms) (length Ds) = Ok eqs /\
    prepare_blinded_scalar_args (E:=ZkError) self (CredentialKeyPair_from system key) rprime = Ok sargs /\
    prepare_blinded_point_args (E:=ZkError) system self (PublicKey_from system key) Y
      (blinded_credential key (length Ms) Y rprime c Ds) = Ok pargs /\
    fitting eqs sargs pargs.
Proof.
  intros H1 Hlen Hkey Hc self. subst self. unfold good_private_key in Hkey. unfold valid_credential in Hc.
  destruct key as [w' wp W' x0' x1' y'], c as [t U V], system as [Gw Gwp Gx0 Gx1 GV Gz Gy].
  cbn [W w x0 x1 y cred_V cred_U cred_t G_w] in *. subst W' V.
  destruct (vec_seven y') as (y0' & y1' & y2' & y3' & y4' & y5' & y6' & ->).
  destruct (vec_seven Gy) as (G0 & G1 & G2 & G3 & G4 & G5 & G6 & ->).
  unfold NUM_SUPPORTED_ATTRS in Hlen.
  destruct Ms as [|M0 [|M1 [|M2 [|M3 [|M4 [|M5 [|M6 [|M7 Ms]]]]]]]]; try (exfalso; cbn [length] in H1, Hlen; lia);
  destruct Ds as [|[D10 D20] [|[D11 D21] [|[D12 D22] [|[D13 D23] [|[D14 D24] [|[D15 D25] [|[D16 D26] Ds]]]]]]];
    try (exfalso; cbn [length] in Hlen; lia).
  all: match goal with |- context [mkBlindedBuilder (mkBuilder _ ?Ms _) ?Ds] =>
      blinded_case w' wp x0' x1' [y0'; y1'; y2'; y3'; y4'; y5'; y6'] Gw Gwp Gx0 Gx1 GV [G0; G1; G2; G3; G4; G5; G6] t U Y rprime Ms Ds end.
Qed.

(** ** Decryption *)

(** What [blind] makes of a point. *)
Definition blinds (kp : BlindingKeyPair) (D : BlindedPoint) (X : RPoint) : Prop :=
  exists r, D = mkBlinded (r *p p_base) (r *p blinding_Y kp +p X).

Lemma blind_ok {S E} `{ShoLaws S} kp (X : RPoint) (sho : S) : ratcheted sho ->
  exists p sho', blind (E:=E) kp X sho = (Ok p, sho') /\ blinds kp (without_nonce p) X /\ ratcheted sho'.
Proof.
  intros Hs. unfold blind. destruct (get_scalar_ok (E:=E) sho Hs) as (r & s' & Hr & Hs').
  rewrite M_bind_eq, Hr. eexists _, s'. split; [done|]. split; [|done]. by exists r.
Qed.

Lemma blind_attribute_ok {S E} `{ShoLaws S} kp (attr : RPoint * RPoint) (sho : S) : ratcheted sho ->
  exists p1 p2 sho', blind_attribute (E:=E) kp attr sho = (Ok (p1, p2), sho') /\
    blinds kp (without_nonce p1) attr.1 /\ blinds kp (without_nonce p2) attr.2.
Proof.
  intros Hs. destruct attr as [M1 M2]. unfold blind_attribute. cbn [as_points points_attribute fst snd].
  destruct (blind_ok (E:=E) kp M1 sho Hs) as (p1 & s1 & H1 & Hb1 & Hs1). rewrite M_bind_eq, H1.
  destruct (blind_ok (E:=E) kp M2 s1 Hs1) as (p2 & s2 & H2 & Hb2 & _). rewrite M_bind_eq, H2.
  by exists p1, p2, s2.
Qed.

Lemma sum_products_app l Ms Ms' : (length Ms <= length l)%nat ->
  sum_products l (Ms ++ Ms') = sum_products l Ms +p sum_products (drop (length Ms) l) Ms'.
Proof.
  unfold sum_products. revert Ms. induction l as [|a l IH]; intros [|X Ms] Hlen; cbn [length] in Hlen; try lia.
  - change (p_sum ((fun x => x.1 *p x.2) <$> zip [] [])) with p_identity. cbn [app drop length]. set (S1 := p_sum _). group.
  - change (p_sum ((fun x => x.1 *p x.2) <$> zip (a :: l) [])) with p_identity. cbn [app length]. rewrite drop_0. set (S1 := p_sum _). group.
  - change (p_sum ((fun x => x.1 *p x.2) <$> zip (a :: l) ((X :: Ms) ++ Ms')))
      with (a *p X +p p_sum ((fun x => x.1 *p x.2) <$> zip l (Ms ++ Ms'))).
    change (p_sum ((fun x => x.1 *p x.2) <$> zip (a :: l) (X :: Ms)))
      with (a *p X +p p_sum ((fun x => x.1 *p x.2) <$> zip l Ms)).
    cbn [length drop]. rewrite IH by lia. set (S1 := p_sum _). set (S2 := p_sum _). group.
Qed.

(** [sum (y D2) - y' sum (y D1) = sum (y M)]. *)
Lemma unblinded_sum yb l Ds Ms :
  Forall2 (blinds (BlindingKeyPair_from yb)) Ds Ms ->
  sum_products l (D2 <$> Ds) = yb *p sum_products l (D1 <$> Ds) +p sum_products l Ms.
Proof.
  unfold sum_products. intros H. revert l. induction H as [|D X Ds Ms [r ->] _ IH]; intros [|a l];
    [change (p_sum _) with p_identity; group..|].
  change (a *p (r *p (yb *p p_base) +p X) +p p_sum ((fun x => x.1 *p x.2) <$> zip l (D2 <$> Ds))
          = yb *p (a *p (r *p p_base) +p p_sum ((fun x => x.1 *p x.2) <$> zip l (D1 <$> Ds)))
            +p (a *p X +p p_sum ((fun x => x.1 *p x.2) <$> zip l Ms))).
  rewrite IH. set (S1 := p_sum _). set (S2 := p_sum _). group.
Qed.

Lemma unblinded_valid key yb Ms c Ds Ms' rprime :
  (length Ms <= NUM_SUPPORTED_ATTRS)%nat -> valid_credential key Ms c ->
  Forall2 (blinds (BlindingKeyPair_from yb)) Ds Ms' ->
  let bc := blinded_credential key (length Ms) (yb *p p_base) rprime c Ds in
  valid_credential key (Ms ++ Ms') (mkCredential (bc_t bc) (bc_U bc) (bc_S2 bc -p yb *p bc_S1 bc)).
Proof.
  intros Hlen Hc Hd. cbv zeta. unfold valid_credential, blinded_credential in *. cbn [cred_V cred_U cred_t bc_t bc_U bc_S1 bc_S2].
  rewrite sum_products_app by by rewrite length_vec_to_list. rewrite Hc. unfold sum_blinded.
  fold (sum_products (drop (length Ms) (vec_to_list (y key))) (D1 <$> Ds)).
  fold (sum_products (drop (length Ms) (vec_to_list (y key))) (D2 <$> Ds)).
  rewrite (unblinded_sum yb _ Ds Ms') by done. set (S1 := sum_products _ _). set (S2 := sum_products _ _). set (S3 := sum_products _ _).
  group.
Qed.

Lemma finalize_blinded_ok b Ds : builder_ok b -> exists sho,
  finalize_blinded (E:=ZkError) (mkBlindedBuilder b Ds) =
    Ok (mkBlindedBuilder (mkBuilder sho (all_points b) (authenticated_message b)) Ds) /\
  length (all_points b) = length (attr_points b).
Proof.
  intros Hb. destruct (finalize_ok b Hb) as (sho & Hf & Hl). exists sho. unfold finalize_blinded. cbn [inner]. by rewrite Hf.
Qed.

(** C23: blind issuance.  The server issues a blinded credential over plain points and
    points the client blinded with its key pair, without seeing the latter; the
    client accepts it, and what it decrypts satisfies the MAC equation on the
    plain points followed by the points it had blinded. *)
Theorem blinded_credential_issued system key b yb Ds Ms' randomness :
  good_private_key system key -> builder_ok b -> (2 <= length (attr_points b) + length Ds <= NUM_SUPPORTED_ATTRS)%nat ->
  Forall2 (blinds (BlindingKeyPair_from yb)) Ds Ms' ->
  let kp := CredentialKeyPair_from system key in
  let self := mkBlindedBuilder b Ds in
  exists proof c, issue_blinded (E:=ZkError) system self kp (yb *p p_base) randomness = Ok proof /\
    verify_blinded system self (public_key kp) (BlindingKeyPair_from yb) proof = Ok c /\
    valid_credential key (all_points b ++ Ms') c.
Proof.
  intros Hkey Hb Hlen Hd kp self. destruct (finalize_blinded_ok b Ds Hb) as (sho & Hf & Hl).
  assert (1 <= length (all_points b) <= NUM_SUPPORTED_ATTRS)%nat as Hn by (destruct Hb; lia).
  set (sho1 := absorb_and_ratchet (S:=ShoHmacSha256) (arr randomness) (sho_new (byte_str "Signal_ZKCredential_BlindIssuance_20230410"))).
  destruct (get_scalar_ok (E:=ZkError) sho1) as (rprime & sho2 & Hrp & Hs2); [apply absorb_and_ratchet_ratcheted|].
  destruct (credential_core_ok (E:=ZkError) key (all_points b) sho2) as (c & sho3 & Hc & Hv & Hs3); [lia|done|].
  destruct (blinded_fitting system key (all_points b) c sho (authenticated_message b) Ds (yb *p p_base) rprime)
    as (eqs & sargs & pargs & Heq & Hsa & Hpa & Hfit); [lia..|done|done|].
  destruct (squeezed_randomness sho3 Hs3) as (r & s' & Hr).
  destruct (fitting_accepted eqs sargs pargs (authenticated_message b) (arr r) Hfit) as (st & pf & Hst & Hpf & Hvp);
    [apply array_length|].
  set (bc := blinded_credential key (length (all_points b)) (yb *p p_base) rprime c Ds) in *.
  exists (mkBlindedProof bc pf). eexists. split; [|split].
  - unfold issue_blinded, self. rewrite Hf. cbn [mbind outcome_bind]. cbv zeta.
    match goal with |- context [run_local ?x get_scalar] => change x with sho1 end.
    cbn [private_key public_key kp CredentialKeyPair_from inner attr_points authenticated_message blinded_attr_points].
    assert (run_local (E:=ZkError) sho1 get_scalar = Ok (rprime, sho2)) as -> by (unfold run_local; by rewrite Hrp).
    cbn [mbind outcome_bind].
    match goal with |- context [run_local sho2 ?m] => assert (run_local sho2 m = Ok (c, sho3)) as -> by (unfold run_local; by rewrite Hc) end.
    cbn [mbind outcome_bind]. fold (blinded_credential key (length (all_points b)) (yb *p p_base) rprime c Ds). fold bc.
    fold kp in Hsa. rewrite Hsa. cbn [mbind outcome_bind]. rewrite Hpa. cbn [mbind outcome_bind].
    unfold get_blinded_statement. cbn [inner attr_points blinded_attr_points]. rewrite Heq. cbn [mbind outcome_bind].
    rewrite Hst. cbn [mbind outcome_bind]. rewrite Hr. cbn [mbind outcome_bind]. by rewrite Hpf.
  - unfold verify_blinded, self. rewrite Hf. cbn [mbind outcome_bind bip_credential bip_poksho_proof inner authenticated_message].
    cbv zeta. cbn [blinding_Y BlindingKeyPair_from blinding_y public_key kp CredentialKeyPair_from]. rewrite Hpa. cbn [mbind outcome_bind].
    unfold get_blinded_statement. cbn [inner attr_points blinded_attr_points]. rewrite Heq. cbn [mbind outcome_bind].
    rewrite Hst. cbn [mbind outcome_bind]. by rewrite Hvp.
  - apply (unblinded_valid key yb (all_points b) c Ds Ms' rprime); [lia|done|done].
Qed.
End blind.
