(* ===== verification/ZkPresentation.v ===== *)
(** * ZkPresentation: presenting credentials
    (rust/zkcredential/src/presentation.rs)

    The client shows that it holds a credential on attributes of which the verifying
    server sees only the ciphertexts.  Both sides add the same attributes in the
    same order to a core, which builds the statement. *)

From S2P Require Import Prelude Types Primitives Ristretto Sho Poksho ZkAttributes ZkCredentials.
From stdpp Require Import vector.
Open Scope string_scope.
Open Scope list_scope.
Open Scope Z_scope.

Section presentation.
Context {P : Primitives} {H256 : Sha256} {R : Ristretto}.

Record PresentationProofCommitments := mkCommitments {
  C_x0 : RPoint; C_x1 : RPoint; C_V : RPoint; C_y : list RPoint
}.
Record PresentationProof := mkPresentationProof { commitments : PresentationProofCommitments; pp_poksho_proof : bytes }.

Record AttributeRef := mkAttributeRef {
  key_index : option nat; first_point_index : nat; second_point_index : nat
}.

Record AnyPublicKey := mkAnyPublicKey { apk_id : string; apk_G_a : RPoint * RPoint; apk_A : RPoint }.
Definition any_public_key {D : Domain} (k : PublicKey D) : AnyPublicKey :=
  mkAnyPublicKey (domain_ID D) (domain_G_a D) (pk_A D k).

Inductive PublicKeyOrId := OfPublicKey (k : AnyPublicKey) | OfId (id : string).

Class MayHavePublicKey (T : Type) := {
  key_id : T -> string;
  key_public : T -> option AnyPublicKey
}.
#[export] Instance PublicKeyOrId_may : MayHavePublicKey PublicKeyOrId := {
  key_id k := match k with OfPublicKey k => apk_id k | OfId id => id end;
  key_public k := match k with OfPublicKey k => Some k | OfId _ => None end
}.

Record AnyKeyPair := mkAnyKeyPair { akp_a1 : RScalar; akp_a2 : RScalar; public_key_or_id : PublicKeyOrId }.
Definition without_public_key (k : AnyKeyPair) : AnyKeyPair :=
  mkAnyKeyPair (akp_a1 k) (akp_a2 k) (OfId (key_id (public_key_or_id k))).
Definition any_key_pair {D : Domain} (k : KeyPair D) : AnyKeyPair :=
  mkAnyKeyPair (kp_a1 D k) (kp_a2 D k) (OfPublicKey (any_public_key (kp_public D k))).
#[export] Instance AnyKeyPair_may : MayHavePublicKey AnyKeyPair := {
  key_id k := key_id (public_key_or_id k);
  key_public k := key_public (public_key_or_id k)
}.

(** ** The core *)

Record Core (T : Type) := mkCore {
  encryption_keys : list T;
  attributes : list AttributeRef;
  core_points : list RPoint;
  core_message : bytes
}.
Arguments mkCore {T} _ _ _ _.
Arguments encryption_keys {T} _.
Arguments attributes {T} _.
Arguments core_points {T} _.
Arguments core_message {T} _.

Section core.
Context {T : Type} `{!MayHavePublicKey T}.

Definition Core_new (message : bytes) : Core T := mkCore [] [] [p_identity] message.

Definition core_add_attribute {E} (self : Core T) (points : list RPoint) (key : option T) : outcome E (Core T) :=
  let first_index := length (core_points self) in
  let all := core_points self ++ points in
  if negb (length all <=? NUM_SUPPORTED_ATTRS)%nat then Panic
  else
    let '(key_index, keys) :=
      match key with
      | None => (None, encryption_keys self)
      | Some key =>
          match position (fun k => String.eqb (key_id k) (key_id key)) (encryption_keys self) with
          | Some idx => (Some idx, encryption_keys self)
          | None => (Some (length (encryption_keys self)), encryption_keys self ++ [key])
          end
      end in
    Ok (mkCore keys (attributes self ++ [mkAttributeRef key_index first_index (first_index + length points - 1)])
          all (core_message self)).

(** The two equations and the terms of the sum that a key adds. *)
Definition key_equation (key : T) : string * list (string * string) :=
  ("0", [("z1_" +:+ key_id key, "I"); ("a1_" +:+ key_id key, "Z")]).
Definition key_sum_terms (key : T) : list (string * string) :=
  match key_public key with
  | Some _ => [("a1_" +:+ key_id key, "G_a1_" +:+ key_id key); ("a2_" +:+ key_id key, "G_a2_" +:+ key_id key)]
  | None => []
  end.

Definition attribute_equations {E} (keys : list T) (attr : AttributeRef) : outcome E (list (string * list (string * string))) :=
  let first := pretty (first_point_index attr) in
  let second := pretty (second_point_index attr) in
  match key_index attr with
  | Some key_index =>
      key ← expect (keys !! key_index);
      Ok [("E_A" +:+ first, [("a1_" +:+ key_id key, "C_y" +:+ first); ("z1_" +:+ key_id key, "G_y" +:+ first)]);
          ("C_y" +:+ second +:+ "-E_A" +:+ second, [("z", "G_y" +:+ second); ("a2_" +:+ key_id key, "-E_A" +:+ first)])]
  | None => Ok [("C_y" +:+ first, [("z", "G_y" +:+ first)])]
  end.

Definition presentation_equations {E} (self : Core T) : outcome E (list (string * list (string * string))) :=
  let encryption_sum_terms := concat (key_sum_terms <$> encryption_keys self) in
  attrs ← mapM (attribute_equations (encryption_keys self)) (attributes self);
  Ok ([("Z", [("z", "I")]); ("C_x1", [("t", "C_x0"); ("z0", "G_x0"); ("z", "G_x1")])]
      ++ (key_equation <$> encryption_keys self)
      ++ (if bool_decide (encryption_sum_terms = []) then [] else [("sum(A)", encryption_sum_terms)])
      ++ concat attrs ++ [("C_y0", [("z", "G_y0")])]).
Definition presentation_statement {E} (self : Core T) : outcome E Statement :=
  equations ← presentation_equations self; build equations.

(** The points of the keys' domains and the sum of the public keys. *)
Definition key_point_args (args_sum : PointArgs * RPoint) (key : T) : PointArgs * RPoint :=
  let '(args, sum_A) := args_sum in
  match key_public key with
  | Some pk =>
      (args_add ("G_a2_" +:+ apk_id pk) (apk_G_a pk).2 (args_add ("G_a1_" +:+ apk_id pk) (apk_G_a pk).1 args), sum_A +p apk_A pk)
  | None => (args, sum_A)
  end.

Definition prepare_non_attribute_point_args {E} (system : SystemParams) (self : Core T) (I : RPoint)
    (c : PresentationProofCommitments) : outcome E PointArgs :=
  let args := args_add_all [("I", I); ("C_x0", C_x0 c); ("C_x1", C_x1 c); ("G_x0", G_x0 system); ("G_x1", G_x1 system)] ∅ in
  let args :=
    if bool_decide (length (encryption_keys self) = 0%nat) then args
    else
      let '(args, sum_A) := foldl key_point_args (args_add "0" p_identity args, p_identity) (encryption_keys self) in
      if bool_decide (sum_A = p_identity) then args else args_add "sum(A)" sum_A args in
  let args := args_add_all (zip (take (length (core_points self)) G_y_names) (vec_to_list (G_y system))) args in
  C_y0 ← expect (C_y c !! 0%nat);
  Ok (args_add "C_y0" C_y0 args).
End core.

(** ** The client *)

Definition PresentationProofBuilder : Type := Core AnyKeyPair.

Definition PresentationProofBuilder_new (label message : bytes) : PresentationProofBuilder := Core_new message.
Definition builder_add_attribute {E A} `{!Attribute A} {D : Domain} (self : PresentationProofBuilder) (attr : A) (key : KeyPair D)
  : outcome E PresentationProofBuilder :=
  core_add_attribute self [(as_points attr).1; (as_points attr).2] (Some (any_key_pair key)).
Definition builder_add_attribute_without_verified_key {E A} `{!Attribute A} {D : Domain} (self : PresentationProofBuilder)
    (attr : A) (key : KeyPair D) : outcome E PresentationProofBuilder :=
  core_add_attribute self [(as_points attr).1; (as_points attr).2] (Some (without_public_key (any_key_pair key))).
(** Public attributes are only for symmetry with issuance and verification. *)
Definition builder_add_public_attribute (self : PresentationProofBuilder) (attr : PublicAttribute (S:=ShoHmacSha256)) : PresentationProofBuilder := self.
Definition builder_add_revealed_attribute {E} (self : PresentationProofBuilder) : outcome E PresentationProofBuilder :=
  core_add_attribute self [p_identity] None.

(** The arguments for one attribute. *)
Definition client_attribute_args {E} (self : PresentationProofBuilder) (C_y : list RPoint) (args : PointArgs) (attr : AttributeRef)
  : outcome E PointArgs :=
  let first := first_point_index attr in
  let second := second_point_index attr in
  C_first ← expect (C_y !! first);
  let args := args_add ("C_y" +:+ pretty first) C_first args in
  match key_index attr with
  | Some key_index =>
      key ← expect (encryption_keys self !! key_index);
      M1 ← expect (core_points self !! first);
      let E_A1 := akp_a1 key *p M1 in
      M2 ← expect (core_points self !! second);
      let E_A2 := akp_a2 key *p E_A1 +p M2 in
      C_second ← expect (C_y !! second);
      Ok (args_add_all [("E_A" +:+ pretty first, E_A1); ("-E_A" +:+ pretty first, -p E_A1);
                        ("C_y" +:+ pretty second +:+ "-E_A" +:+ pretty second, C_second -p E_A2)] args)
  | None => Ok args
  end.

Fixpoint fold_args {E A} (f : PointArgs -> A -> outcome E PointArgs) (args : PointArgs) (l : list A) : outcome E PointArgs :=
  match l with [] => Ok args | x :: l => args ← f args x; fold_args f args l end.

Definition key_scalar_args (z : RScalar) (args : ScalarArgs) (key : AnyKeyPair) : ScalarArgs :=
  args_add_all [("a1_" +:+ key_id key, akp_a1 key); ("a2_" +:+ key_id key, akp_a2 key); ("z1_" +:+ key_id key, -s z *s akp_a1 key)] args.

Definition present {E} (system : SystemParams) (self : PresentationProofBuilder) (public_key : CredentialPublicKey)
    (credential : Credential) (randomness : array 32) : outcome E PresentationProof :=
  let sho := absorb_and_ratchet (arr randomness) (sho_new (S:=ShoHmacSha256) (byte_str "Signal_ZKCredential_Presentation_20230410")) in
  '(z, sho) ← run_local sho get_scalar;
  let C_y := (fun '(G_yn, Mn) => z *p G_yn +p Mn) <$> zip (vec_to_list (G_y system)) (core_points self) in
  let C_x0 := z *p G_x0 system +p cred_U credential in
  let C_V := z *p G_V system +p cred_V credential in
  let C_x1 := z *p G_x1 system +p cred_t credential *p cred_U credential in
  let commitments := mkCommitments C_x0 C_x1 C_V C_y in
  let z0 := -s z *s cred_t credential in
  I ← I_for public_key (length (core_points self));
  let Z := z *p I in
  let scalar_args := foldl (key_scalar_args z) (args_add_all [("z", z); ("t", cred_t credential); ("z0", z0)] ∅) (encryption_keys self) in
  point_args ← prepare_non_attribute_point_args system self I commitments;
  let point_args := args_add "Z" Z point_args in
  point_args ← fold_args (client_attribute_args self C_y) point_args (attributes self);
  statement ← presentation_statement self;
  '(proof_randomness, _) ← run_local sho (squeeze_and_ratchet RANDOMNESS_LEN);
  poksho_proof ← expect_ok (prove statement scalar_args point_args (core_message self) (arr proof_randomness));
  Ok (mkPresentationProof commitments poksho_proof).

(** ** The verifying server *)

Record PresentationProofVerifier := mkVerifier { v_core : Core PublicKeyOrId; v_public_attrs : ShoHmacSha256 }.

Definition verifier_new (label message : bytes) : PresentationProofVerifier := mkVerifier (Core_new message) (sho_new label).
Definition verifier_add_public_attribute (self : PresentationProofVerifier) (attr : PublicAttribute (S:=ShoHmacSha256))
  : PresentationProofVerifier :=
  mkVerifier (v_core self) (ratchet (attr (v_public_attrs self))).
Definition verifier_add {E} (self : PresentationProofVerifier) (points : list RPoint) (key : option PublicKeyOrId)
  : outcome E PresentationProofVerifier :=
  core ← core_add_attribute (v_core self) points key; Ok (mkVerifier core (v_public_attrs self)).
Definition verifier_add_attribute {E A} `{!Attribute A} {D : Domain} (self : PresentationProofVerifier) (attr : A) (key : PublicKey D)
  : outcome E PresentationProofVerifier :=
  verifier_add self [(as_points attr).1; (as_points attr).2] (Some (OfPublicKey (any_public_key key))).
Definition verifier_add_attribute_without_verified_key {E A} `{!Attribute A} (self : PresentationProofVerifier) (attr : A)
    (key_id : string) : outcome E PresentationProofVerifier :=
  verifier_add self [(as_points attr).1; (as_points attr).2] (Some (OfId key_id)).
Definition verifier_add_revealed_attribute {E A} `{!RevealedAttribute A} (self : PresentationProofVerifier) (attr : A)
  : outcome E PresentationProofVerifier :=
  verifier_add self [as_point attr] None.

Definition verifier_finalize {E} (self : PresentationProofVerifier) : outcome E (Core PublicKeyOrId) :=
  '(point, _) ← run_local (v_public_attrs self) get_point;
  let core := v_core self in
  Ok (mkCore (encryption_keys core) (attributes core) (<[0%nat := point]> (core_points core)) (core_message core)).

(** The arguments for one attribute, and what a revealed one takes from [Z]. *)
Definition verifier_attribute_args {E} (core : Core PublicKeyOrId) (C_y : list RPoint) (args : PointArgs) (attr : AttributeRef)
  : outcome E PointArgs :=
  let first := first_point_index attr in
  let second := second_point_index attr in
  C_first ← expect (C_y !! first);
  let args := args_add ("C_y" +:+ pretty first) C_first args in
  match key_index attr with
  | Some _ =>
      E1 ← expect (core_points core !! first);
      C_second ← expect (C_y !! second);
      E2 ← expect (core_points core !! second);
      Ok (args_add_all [("E_A" +:+ pretty first, E1); ("-E_A" +:+ pretty first, -p E1);
                        ("C_y" +:+ pretty second +:+ "-E_A" +:+ pretty second, C_second -p E2)] args)
  | None => Ok args
  end.
Fixpoint subtract_revealed {E} (key : CredentialPrivateKey) (core : Core PublicKeyOrId) (Z : RPoint) (attrs : list AttributeRef)
  : outcome E RPoint :=
  match attrs with
  | [] => Ok Z
  | attr :: attrs =>
      match key_index attr with
      | Some _ => subtract_revealed key core Z attrs
      | None =>
          yn ← expect (vec_to_list (y key) !! first_point_index attr);
          Mn ← expect (core_points core !! first_point_index attr);
          subtract_revealed key core (Z -p yn *p Mn) attrs
      end
  end.

Definition verify_presentation (system : SystemParams) (self : PresentationProofVerifier) (key_pair : CredentialKeyPair)
    (proof : PresentationProof) : outcome ZkError unit :=
  core ← verifier_finalize self;
  let c := commitments proof in
  if negb (length (C_y c) =? length (core_points core))%nat then Err ZkVerificationFailure
  else
    let key := private_key key_pair in
    let Z := C_V c -p W key -p x0 key *p C_x0 c -p x1 key *p C_x1 c in
    let Z := foldl (fun Z '(yn, C_yn) => Z -p yn *p C_yn) Z (zip (vec_to_list (y key)) (C_y c)) in
    y0 ← expect (vec_to_list (y key) !! 0%nat);
    M0 ← expect (core_points core !! 0%nat);
    let Z := Z -p y0 *p M0 in
    I ← I_for (public_key key_pair) (length (core_points core));
    point_args ← prepare_non_attribute_point_args system core I c;
    point_args ← fold_args (verifier_attribute_args core (C_y c)) point_args (attributes core);
    Z ← subtract_revealed key core Z (attributes core);
    let point_args := args_add "Z" Z point_args in
    statement ← presentation_statement core;
    match verify_proof statement (pp_poksho_proof proof) point_args (core_message core) with
    | Err _ => Err ZkVerificationFailure
    | Ok _ => Ok tt
    | Panic => Panic
    end.
End presentation.
Arguments mkCore {R T} _ _ _ _.
Arguments encryption_keys {R T} _.
Arguments attributes {R T} _.
Arguments core_points {R T} _.
Arguments core_message {R T} _.
