(* ===== verification/ZkPresentationSpec.v ===== *)
(** * ZkPresentationSpec: presentations of valid credentials are accepted

    The cores of the client and of the server are computed from the list of the
    attributes shown ([core_shows]); the equations and arguments are those of named
    statements ([named_given]), whose equations hold when the credential is valid. *)

From stdpp Require Import vector.
From Stdlib Require Import Ring.
From S2P Require Import Prelude Types Primitives Ristretto Sho Poksho PokshoSpec ZkAttributes ZkCredentials ZkIssuanceSpec ZkPresentation.

(** ** Statements over structured names

    The equations and arguments of a presentation use names made from key ids and
    indices.  Here names are data, [render] makes the strings, and a statement
    fits its arguments when this holds for the names: [named_given], [named_satisfied]. *)
Open Scope string_scope.
Open Scope list_scope.
Open Scope Z_scope.

(** Arguments given by a function of the name. *)
Definition rendered {N A} (render : N -> string) (value : N -> A) (ns : list N) : list (string * A) :=
  (fun n => (render n, value n)) <$> ns.

Section rendered.
Context {N A : Type} (render : N -> string) (value : N -> A).

Lemma args_rendered ns s v :
  (forall n m, n ∈ ns -> m ∈ ns -> render n = render m -> n = m) ->
  args_add_all (rendered render value ns) ∅ !! s = Some v <-> exists n, n ∈ ns /\ render n = s /\ value n = v.
Proof.
  intros Hinj.
  enough (forall m, args_add_all (rendered render value ns) m !! s = Some v <->
            (exists n, n ∈ ns /\ render n = s /\ value n = v) \/ (~ (exists n, n ∈ ns /\ render n = s) /\ m !! s = Some v)) as He.
  { rewrite He, lookup_empty. split; [intros [?|[_ ?]]; done|by left]. }
  induction ns as [|n ns IH]; intros m.
  - change (args_add_all (rendered render value []) m) with m. split.
    + intros Hm. right. split; [|done]. intros (k & Hk & _). by apply not_elem_of_nil in Hk.
    + intros [(k & Hk & _)|[_ ?]]; [by apply not_elem_of_nil in Hk|done].
  - change (args_add_all (rendered render value (n :: ns)) m)
      with (args_add_all (rendered render value ns) (<[render n := value n]> m)).
    rewrite IH by (intros; apply Hinj; [by right..|done]). clear IH. split.
    + intros [(k & Hk & ? & ?)|[Hno Hl]]; [left; exists k; split; [by right|done]|].
      destruct (decide (render n = s)) as [<-|Hne].
      * rewrite lookup_insert_eq in Hl. injection Hl as <-. left. exists n. split; [by left|done].
      * rewrite lookup_insert_ne in Hl by done. right. split; [|done].
        intros (k & Hk & Hr). apply elem_of_cons in Hk as [->|Hk]; [done|]. apply Hno. eauto.
    + intros [(k & Hk & Hr & Hv)|[Hno Hl]].
      * destruct (decide (s ∈ render <$> ns)) as [(j & Hrj & Hj)%list_elem_of_fmap|Hno].
        -- left. exists j. split; [done|]. split; [done|]. assert (j = k) as ->; [|done].
           apply Hinj; [by right|done|congruence].
        -- right. split; [intros (j & Hj & Hrj); apply Hno, list_elem_of_fmap; eauto|].
           apply elem_of_cons in Hk as [->|Hk]; [|exfalso; apply Hno, list_elem_of_fmap; eauto].
           rewrite Hr, Hv. apply lookup_insert_eq.
      * right. split; [intros (k & Hk & Hr); apply Hno; exists k; split; [by right|done]|].
        rewrite lookup_insert_ne; [done|]. intros Hr. apply Hno. exists n. split; [by left|done].
Qed.

Lemma args_rendered_dom ns : dom (args_add_all (rendered render value ns) ∅) = list_to_set (C:=gset string) (render <$> ns).
Proof.
  unfold rendered. enough (forall m : gmap string A, dom (args_add_all ((fun n => (render n, value n)) <$> ns) m)
    = list_to_set (C:=gset string) (render <$> ns) ∪ dom m) as He.
  { rewrite He, dom_empty_L. set_solver. }
  induction ns as [|n ns IH]; intros m; [set_solver|].
  change (dom (args_add_all ((fun n => (render n, value n)) <$> ns) (<[render n := value n]> m))
    = list_to_set (C:=gset string) (render n :: (render <$> ns)) ∪ dom m).
  rewrite IH, dom_insert_L. set_solver.
Qed.

(** The order of the arguments does not matter. *)
Lemma args_rendered_perm ns ns' :
  (forall n, n ∈ ns <-> n ∈ ns') -> (forall n m, n ∈ ns -> m ∈ ns -> render n = render m -> n = m) ->
  args_add_all (rendered render value ns) ∅ = args_add_all (rendered render value ns') ∅.
Proof.
  intros Hiff Hinj. apply map_eq. intros s. apply option_eq. intros v.
  rewrite !args_rendered; [|by setoid_rewrite <- Hiff|done]. by setoid_rewrite Hiff.
Qed.
End rendered.

Section fitting.
Context {P : Primitives} {H256 : Sha256} `{L : RistrettoLaws}.
Context {Sn Pn : Type} (rs : Sn -> string) (rp : Pn -> string) (sv : Sn -> RScalar) (pv : Pn -> RPoint).

Abbreviation neq := (Pn * list (Sn * Pn))%type.
Definition render_equation (e : neq) : named_equation := (rp e.1, (fun t => (rs t.1, rp t.2)) <$> e.2).
Definition scalar_names (eqs : list neq) : list Sn := concat ((fun e => e.2.*1) <$> eqs).
Definition point_names (eqs : list neq) : list Pn := concat ((fun e => e.1 :: e.2.*2) <$> eqs).

Lemma scalars_of_render eqs : scalars_of (render_equation <$> eqs) = list_to_set (rs <$> scalar_names eqs).
Proof.
  unfold scalars_of, scalar_names. f_equal. induction eqs as [|[l r] eqs IH]; [done|].
  cbn [fmap list_fmap concat] in *. rewrite fmap_app. f_equal; [|exact IH].
  unfold render_equation. cbn [snd]. rewrite <- !list_fmap_compose. done.
Qed.

Lemma points_of_render eqs : points_of (render_equation <$> eqs) = {["G"]} ∪ list_to_set (rp <$> point_names eqs).
Proof.
  unfold points_of, point_names. do 2 f_equal. induction eqs as [|[l r] eqs IH]; [done|].
  cbn [fmap list_fmap concat] in *. rewrite fmap_app. cbn [fmap list_fmap]. f_equal; [|exact IH].
  unfold render_equation. cbn [fst snd]. f_equal. rewrite <- !list_fmap_compose. done.
Qed.

Lemma list_to_set_same (l l' : list string) : (forall x, x ∈ l <-> x ∈ l') -> list_to_set l = (list_to_set l' : gset string).
Proof. intros H. apply set_eq. intros x. rewrite !elem_of_list_to_set. apply H. Qed.

Lemma elem_of_render {N} (r : N -> string) (ns ns' : list N) x : (forall n, n ∈ ns <-> n ∈ ns') -> x ∈ r <$> ns <-> x ∈ r <$> ns'.
Proof. intros H. rewrite !list_elem_of_fmap. by setoid_rewrite H. Qed.

(** An equation that holds for the values of the names. *)
Definition named_holds (e : neq) : Prop := pv e.1 = p_sum ((fun t => sv t.1 *p pv t.2) <$> e.2).

Lemma size_union_bound (X Y : gset string) : (size (X ∪ Y) <= size X + size Y)%nat.
Proof.
  rewrite size_union_alt. apply Nat.add_le_mono_l, subseteq_size. set_solver.
Qed.

(** The statement is built and the points are given, whatever the values. *)
Lemma list_to_set_size (l : list string) : (size (list_to_set (C:=gset string) l) <= length l)%nat.
Proof.
  induction l as [|x l IH]; [by vm_compute|]. cbn [list_to_set length].
  etrans; [apply size_union_bound|]. rewrite size_singleton. lia.
Qed.

Lemma named_given eqs ss ns :
  (forall n, rs n <> "") -> (forall n, rp n <> "" /\ rp n <> "G") ->
  (forall n, n ∈ ss <-> n ∈ scalar_names eqs) -> (forall n, n ∈ ns <-> n ∈ point_names eqs) ->
  (length eqs <= 255)%nat -> (length ss <= 255)%nat -> (length ns <= 254)%nat ->
  Forall (fun e => e.2 <> [] /\ (length e.2 <= 255)%nat) eqs ->
  good_statement (render_equation <$> eqs) /\
  scalars_given (render_equation <$> eqs) (args_add_all (rendered rs sv ss) ∅) /\
  points_given (render_equation <$> eqs) (args_add_all (rendered rp pv ns) ∅).
Proof.
  intros Hs Hp Hss Hns Hleq Hlss Hlns Hsmall.
  assert (scalars_of (render_equation <$> eqs) = list_to_set (rs <$> ss)) as Hsc.
  { rewrite scalars_of_render. apply list_to_set_same. intros x. symmetry. by apply elem_of_render. }
  assert (points_of (render_equation <$> eqs) = {["G"]} ∪ list_to_set (rp <$> ns)) as Hpc.
  { rewrite points_of_render. f_equal. apply list_to_set_same. intros x. symmetry. by apply elem_of_render. }
  unfold good_statement. split_and!.
  - apply Forall_fmap. rewrite Forall_forall in Hsmall |- *. intros e He. destruct (Hsmall e He) as [Hr Hl].
    unfold good_equation, compose, render_equation. cbn [fst snd]. split_and!; [apply Hp| |by rewrite length_fmap|].
    + by intros ?%fmap_nil_inv.
    + apply Forall_fmap, Forall_forall. intros t _. cbn. split; [apply Hs|apply Hp].
  - by rewrite length_fmap.
  - rewrite Hsc. etrans; [apply list_to_set_size|]. by rewrite length_fmap.
  - rewrite Hpc. etrans; [apply size_union_bound|]. rewrite size_singleton. pose proof (list_to_set_size (rp <$> ns)) as H.
    rewrite length_fmap in H. lia.
  - unfold scalars_given. by rewrite args_rendered_dom, Hsc.
  - unfold points_given. rewrite args_rendered_dom, Hpc. apply set_eq. intros x.
    rewrite elem_of_difference, elem_of_union, elem_of_singleton. split; [|intros [[?|?] ?]; done].
    intros Hx. split; [by right|]. intros ->. apply elem_of_list_to_set, list_elem_of_fmap in Hx as (n & Hn & _).
    by apply (Hp n).
Qed.

(** The values of equations that hold satisfy the statement. *)
Lemma named_satisfied eqs ss ns :
  (forall n m, n ∈ ss -> m ∈ ss -> rs n = rs m -> n = m) -> (forall n m, n ∈ ns -> m ∈ ns -> rp n = rp m -> n = m) ->
  (forall n, rp n <> "G") ->
  (forall n, n ∈ ss <-> n ∈ scalar_names eqs) -> (forall n, n ∈ ns <-> n ∈ point_names eqs) -> Forall named_holds eqs ->
  satisfied (render_equation <$> eqs) (args_add_all (rendered rs sv ss) ∅) (args_add_all (rendered rp pv ns) ∅).
Proof.
  intros Hsinj Hpinj Hp Hss Hns Hholds.
  assert (forall n, n ∈ ns -> point_of (args_add_all (rendered rp pv ns) ∅) (rp n) = pv n) as Hpoint.
  { intros n Hn. unfold point_of. rewrite bool_decide_false by apply Hp.
    rewrite (proj2 (args_rendered rp pv ns (rp n) (pv n) Hpinj)); [done|eauto]. }
  assert (forall n, n ∈ ss -> scalar_of (args_add_all (rendered rs sv ss) ∅) (rs n) = sv n) as Hscalar.
  { intros n Hn. unfold scalar_of. rewrite (proj2 (args_rendered rs sv ss (rs n) (sv n) Hsinj)); [done|eauto]. }
  unfold satisfied. apply Forall_fmap. rewrite Forall_forall in Hholds |- *. intros e He. unfold compose, render_equation.
  cbn [fst snd]. rewrite Hpoint, (Hholds e He).
  - unfold image. f_equal. rewrite <- list_fmap_compose. apply list_fmap_ext. intros i t Ht. cbn [compose fst snd].
    apply list_elem_of_lookup_2 in Ht. rewrite Hscalar, Hpoint; [done| |].
    + apply Hns. unfold point_names. apply list_elem_of_In, in_concat. exists (e.1 :: e.2.*2).
      split; apply list_elem_of_In; [apply list_elem_of_fmap; eauto|]. right. apply list_elem_of_fmap. eauto.
    + apply Hss. unfold scalar_names. apply list_elem_of_In, in_concat. exists (e.2.*1).
      split; apply list_elem_of_In; apply list_elem_of_fmap; eauto.
  - apply Hns. unfold point_names. apply list_elem_of_In, in_concat. exists (e.1 :: e.2.*2).
    split; apply list_elem_of_In; [apply list_elem_of_fmap; eauto|]. by left.
Qed.
End fitting.

Open Scope string_scope.
Open Scope list_scope.
Open Scope Z_scope.

(** ** Names *)

Inductive sname := Sz | St | Sz0 | Sa1 (id : string) | Sa2 (id : string) | Sz1 (id : string).
Inductive pname :=
| NI | NZ | NCx0 | NCx1 | NGx0 | NGx1 | Nzero | NSum
| NGa1 (id : string) | NGa2 (id : string)
| NGy (i : nat) | NCy (i : nat) | NEA (i : nat) | NnegEA (i : nat) | NCyEA (i : nat).

Definition render_s (n : sname) : string :=
  match n with
  | Sz => "z" | St => "t" | Sz0 => "z0"
  | Sa1 id => "a1_" +:+ id | Sa2 id => "a2_" +:+ id | Sz1 id => "z1_" +:+ id
  end.
Definition render_p (n : pname) : string :=
  match n with
  | NI => "I" | NZ => "Z" | NCx0 => "C_x0" | NCx1 => "C_x1" | NGx0 => "G_x0" | NGx1 => "G_x1" | Nzero => "0" | NSum => "sum(A)"
  | NGa1 id => "G_a1_" +:+ id | NGa2 id => "G_a2_" +:+ id
  | NGy i => "G_y" +:+ pretty i | NCy i => "C_y" +:+ pretty i
  | NEA i => "E_A" +:+ pretty i | NnegEA i => "-E_A" +:+ pretty i
  | NCyEA i => "C_y" +:+ pretty i +:+ "-E_A" +:+ pretty i
  end.

Definition name_index (n : pname) : nat :=
  match n with NGy i | NCy i | NEA i | NnegEA i | NCyEA i => i | _ => 0 end.

Lemma pretty_no_dash (i j : nat) : (i < 7)%nat -> (j < 7)%nat -> pretty i <> (pretty j +:+ "-E_A" +:+ pretty j)%string.
Proof.
  intros Hi Hj. do 7 (destruct i as [|i]; [do 7 (destruct j as [|j]; [by vm_compute|]); lia|]). lia.
Qed.

Lemma render_s_inj n m : render_s n = render_s m -> n = m.
Proof. destruct n, m; cbv [render_s String.append]; intros H; try discriminate H; try reflexivity; by injection H as ->. Qed.

Lemma render_p_inj n m : (name_index n < 7)%nat -> (name_index m < 7)%nat -> render_p n = render_p m -> n = m.
Proof.
  intros Hn Hm. destruct n, m; cbn [render_p name_index] in *; try reflexivity;
    match goal with
    | |- ("C_y" +:+ pretty ?i)%string = ("C_y" +:+ pretty ?j +:+ _)%string -> _ =>
        intros H; exfalso; apply (pretty_no_dash i j Hn Hm); by injection H
    | |- ("C_y" +:+ pretty ?i +:+ _)%string = ("C_y" +:+ pretty ?j)%string -> _ =>
        intros H; exfalso; apply (pretty_no_dash j i Hm Hn); by injection H
    | |- ("C_y" +:+ pretty ?i +:+ _)%string = ("C_y" +:+ pretty ?j +:+ _)%string -> _ => idtac
    | _ => cbv [String.append]; intros H; try discriminate H; injection H as H; by (apply (inj pretty) in H as -> || subst)
    end.
  intros H. destruct (decide (i = i0)) as [->|Hne]; [done|]. exfalso. revert H Hne.
  do 7 (destruct i as [|i]; [do 7 (destruct i0 as [|i0]; [vm_compute; congruence|]); lia|]). lia.
Qed.

Lemma render_s_nonempty n : render_s n <> "".
Proof. by destruct n. Qed.
Lemma render_p_ok n : render_p n <> "" /\ render_p n <> "G".
Proof. by destruct n. Qed.

(** ** What is shown, and the cores it makes *)

Section shows.
Context {P : Primitives} {H256 : Sha256} {R : Ristretto}.

(** An attribute under a key pair, or a revealed one. *)
Inductive Show := ShowAttribute (M1 M2 : RPoint) (k : AnyKeyPair) | ShowRevealed (X : RPoint).

Definition show_key (s : Show) : option AnyKeyPair := match s with ShowAttribute _ _ k => Some k | ShowRevealed _ => None end.
(** The points the client adds, those the server adds, and those of the credential. *)
Definition client_points (s : Show) : list RPoint :=
  match s with ShowAttribute M1 M2 _ => [M1; M2] | ShowRevealed _ => [p_identity] end.
Definition server_points (s : Show) : list RPoint :=
  match s with ShowAttribute M1 M2 k => [akp_a1 k *p M1; akp_a2 k *p akp_a1 k *p M1 +p M2] | ShowRevealed X => [X] end.
Definition plain_points (s : Show) : list RPoint :=
  match s with ShowAttribute M1 M2 _ => [M1; M2] | ShowRevealed X => [X] end.
Definition show_length (s : Show) : nat := match s with ShowAttribute _ _ _ => 2 | ShowRevealed _ => 1 end.
Definition total_length (l : list Show) : nat := sum_list (show_length <$> l).

Fixpoint client_adds {E} (self : PresentationProofBuilder) (l : list Show) : outcome E PresentationProofBuilder :=
  match l with
  | [] => Ok self
  | s :: l => self ← core_add_attribute self (client_points s) (show_key s); client_adds self l
  end.
Fixpoint server_adds {E} (self : PresentationProofVerifier) (l : list Show) : outcome E PresentationProofVerifier :=
  match l with
  | [] => Ok self
  | s :: l => self ← verifier_add self (server_points s) (public_key_or_id <$> show_key s); server_adds self l
  end.

Definition same_id (id : string) (k : AnyKeyPair) : bool := String.eqb (key_id k) id.

(** The keys after the attributes. *)
Definition add_key (keys : list AnyKeyPair) (s : Show) : list AnyKeyPair :=
  match show_key s with
  | None => keys
  | Some k => match position (same_id (key_id k)) keys with Some _ => keys | None => keys ++ [k] end
  end.
Definition add_keys (keys : list AnyKeyPair) (l : list Show) : list AnyKeyPair := foldl add_key keys l.

(** References to attributes that start at an index, into the final keys. *)
Fixpoint refs (keys : list AnyKeyPair) (j : nat) (l : list Show) : list AttributeRef :=
  match l with
  | [] => []
  | s :: l =>
      mkAttributeRef (k ← show_key s; position (same_id (key_id k)) keys) j (j + show_length s - 1)
        :: refs keys (j + show_length s) l
  end.

Lemma position_app {A} (p : A -> bool) l l' i : position p l = Some i -> position p (l ++ l') = Some i.
Proof.
  unfold position. rewrite !fmap_Some. intros ([j x] & Hx & ->). exists (j, x). split; [|done]. by apply list_find_app_l.
Qed.
Lemma position_snoc {A} (p : A -> bool) l x : position p l = None -> p x = true -> position p (l ++ [x]) = Some (length l).
Proof.
  unfold position. rewrite fmap_None, fmap_Some. intros Hl Hx. exists (length l, x). split; [|done].
  rewrite list_find_app_r by done. cbn. by rewrite decide_True by by apply Is_true_true.
Qed.
Lemma position_public (id : string) keys :
  position (fun k => String.eqb (key_id k) id) (public_key_or_id <$> keys) = position (same_id id) keys.
Proof.
  unfold position. rewrite list_find_fmap. unfold same_id, compose. by destruct (list_find _ keys) as [[i k]|].
Qed.

(** Adding a key keeps the positions of the others and gives it one. *)
Lemma add_key_position keys s id i : position (same_id id) keys = Some i -> position (same_id id) (add_key keys s) = Some i.
Proof.
  unfold add_key. destruct (show_key s) as [k|]; [|done]. destruct (position (same_id (key_id k)) keys); [done|]. apply position_app.
Qed.
Lemma add_keys_position l keys id i : position (same_id id) keys = Some i -> position (same_id id) (add_keys keys l) = Some i.
Proof. revert keys. induction l as [|s l IH]; intros keys Hk; [done|]. apply IH. by apply add_key_position. Qed.

Lemma same_id_refl k : same_id (key_id k) k = true.
Proof. apply String.eqb_refl. Qed.

Lemma add_key_has keys s k : show_key s = Some k -> position (same_id (key_id k)) (add_key keys s) =
  Some (match position (same_id (key_id k)) keys with Some i => i | None => length keys end).
Proof.
  intros Hs. unfold add_key. rewrite Hs. destruct (position _ keys) as [i|] eqn:E; [done|].
  apply position_snoc; [done|apply same_id_refl].
Qed.

(** One step of a core whose keys are a list of key pairs, as the client or the
    server sees them. *)
Lemma core_add_show {E T} `{!MayHavePublicKey T} (g : AnyKeyPair -> T) keys l attrs points msg s pts :
  (forall id ks, position (fun k => String.eqb (key_id k) id) (g <$> ks) = position (same_id id) ks) ->
  (forall k, key_id (g k) = key_id k) ->
  length pts = show_length s -> (length points + show_length s <= NUM_SUPPORTED_ATTRS)%nat ->
  core_add_attribute (E:=E) (mkCore (T:=T) (g <$> keys) attrs points msg) pts (g <$> show_key s) =
    Ok (mkCore (T:=T) (g <$> add_key keys s)
          (attrs ++ [mkAttributeRef (k ← show_key s; position (same_id (key_id k)) (add_keys (add_key keys s) l))
                       (length points) (length points + show_length s - 1)])
          (points ++ pts) msg).
Proof.
  intros Hpos Hid Hpts Hlen. unfold core_add_attribute. cbn [core_points encryption_keys attributes core_message].
  rewrite length_app, Hpts. rewrite (proj2 (Nat.leb_le _ _)) by done. cbn [negb].
  destruct (show_key s) as [k|] eqn:Hs; cbn [fmap option_fmap option_map mbind option_bind].
  - rewrite Hid, Hpos. rewrite (add_keys_position _ _ _ _ (add_key_has keys s k Hs)). unfold add_key. rewrite Hs.
    destruct (position (same_id (key_id k)) keys); [done|]. by rewrite fmap_app, length_fmap.
  - unfold add_key. by rewrite Hs.
Qed.

Lemma client_points_length s : length (client_points s) = show_length s.
Proof. by destruct s. Qed.
Lemma server_points_length s : length (server_points s) = show_length s.
Proof. by destruct s. Qed.
Lemma concat_points_length (f : Show -> list RPoint) l :
  (forall s, length (f s) = show_length s) -> length (concat (f <$> l)) = total_length l.
Proof.
  intros Hf. unfold total_length. induction l as [|s l IH]; [done|]. cbn. rewrite length_app, Hf. f_equal. apply IH.
Qed.

Lemma client_adds_spec {E} l keys attrs points msg :
  (length points + total_length l <= NUM_SUPPORTED_ATTRS)%nat ->
  client_adds (E:=E) (mkCore (T:=AnyKeyPair) keys attrs points msg) l =
    Ok (mkCore (T:=AnyKeyPair) (add_keys keys l) (attrs ++ refs (add_keys keys l) (length points) l)
          (points ++ concat (client_points <$> l)) msg).
Proof.
  revert keys attrs points. induction l as [|s l IH]; intros keys attrs points Hlen.
  - cbn. by rewrite !app_nil_r.
  - change (total_length (s :: l)) with (show_length s + total_length l)%nat in Hlen. cbn [client_adds].
    pose proof (core_add_show (E:=E) id keys l attrs points msg s (client_points s)) as Hc.
    rewrite !list_fmap_id in Hc. assert (id <$> show_key s = show_key s) as Hid by by destruct (show_key s).
    rewrite Hid in Hc. rewrite Hc; [| |done|apply client_points_length|lia].
    + cbn [mbind outcome_bind]. rewrite IH by (rewrite length_app, client_points_length; lia).
      rewrite length_app, client_points_length, <- !app_assoc. done.
    + intros i ks. by rewrite list_fmap_id.
Qed.

Lemma server_adds_spec {E} l keys attrs points msg sho :
  (length points + total_length l <= NUM_SUPPORTED_ATTRS)%nat ->
  server_adds (E:=E) (mkVerifier (mkCore (T:=PublicKeyOrId) (public_key_or_id <$> keys) attrs points msg) sho) l =
    Ok (mkVerifier (mkCore (T:=PublicKeyOrId) (public_key_or_id <$> add_keys keys l)
          (attrs ++ refs (add_keys keys l) (length points) l) (points ++ concat (server_points <$> l)) msg) sho).
Proof.
  revert keys attrs points. induction l as [|s l IH]; intros keys attrs points Hlen.
  - cbn. by rewrite !app_nil_r.
  - change (total_length (s :: l)) with (show_length s + total_length l)%nat in Hlen. cbn [server_adds].
    unfold verifier_add. cbn [v_core v_public_attrs].
    rewrite (core_add_show public_key_or_id keys l); [|intros; apply position_public|done|apply server_points_length|lia].
    cbn [mbind outcome_bind]. rewrite IH by (rewrite length_app, server_points_length; lia).
    rewrite length_app, server_points_length, <- !app_assoc. done.
Qed.
End shows.

(** ** The statement *)

Section statement.
Context {P : Primitives} {H256 : Sha256} {R : Ristretto}.

Definition attribute_neqs (j : nat) (s : Show) : list (pname * list (sname * pname)) :=
  match s with
  | ShowAttribute _ _ k =>
      [(NEA j, [(Sa1 (key_id k), NCy j); (Sz1 (key_id k), NGy j)]);
       (NCyEA (j + 2 - 1), [(Sz, NGy (j + 2 - 1)); (Sa2 (key_id k), NnegEA j)])]
  | ShowRevealed _ => [(NCy j, [(Sz, NGy j)])]
  end.
Fixpoint shows_neqs (j : nat) (l : list Show) : list (pname * list (sname * pname)) :=
  match l with [] => [] | s :: l => attribute_neqs j s ++ shows_neqs (j + show_length s) l end.

Definition key_neq (k : AnyKeyPair) : pname * list (sname * pname) :=
  (Nzero, [(Sz1 (key_id k), NI); (Sa1 (key_id k), NZ)]).
Definition key_terms (k : AnyKeyPair) : list (sname * pname) :=
  match key_public k with
  | Some _ => [(Sa1 (key_id k), NGa1 (key_id k)); (Sa2 (key_id k), NGa2 (key_id k))]
  | None => []
  end.
Definition sum_terms (keys : list AnyKeyPair) : list (sname * pname) := concat (key_terms <$> keys).

Definition presentation_neqs (keys : list AnyKeyPair) (l : list Show) : list (pname * list (sname * pname)) :=
  [(NZ, [(Sz, NI)]); (NCx1, [(St, NCx0); (Sz0, NGx0); (Sz, NGx1)])]
  ++ (key_neq <$> keys)
  ++ (if bool_decide (sum_terms keys = []) then [] else [(NSum, sum_terms keys)])
  ++ shows_neqs 1 l ++ [(NCy 0, [(Sz, NGy 0)])].

Abbreviation render := (render_equation render_s render_p).

(** The keys of the shows, by id. *)
Definition keys_known (keys : list AnyKeyPair) (l : list Show) : Prop :=
  forall s k, s ∈ l -> show_key s = Some k -> exists i, position (same_id (key_id k)) keys = Some i /\ keys !! i = Some k.

Lemma attribute_equations_spec {E T} `{!MayHavePublicKey T} (g : AnyKeyPair -> T) keys j l :
  (forall k, key_id (g k) = key_id k) -> keys_known keys l ->
  exists attrs, mapM (attribute_equations (E:=E) (g <$> keys)) (refs keys j l) = Ok attrs /\
    concat attrs = render <$> shows_neqs j l.
Proof.
  intros Hid. revert j. induction l as [|s l IH]; intros j Hk; [by exists []|].
  destruct (IH (j + show_length s)%nat) as (attrs & Ha & Hc).
  { intros s' k Hs'. apply Hk. by right. }
  cbn [refs mapM shows_neqs]. rewrite Ha, fmap_app, <- Hc.
  destruct s as [M1 M2 k|X]; unfold attribute_equations at 1; cbn [show_key key_index first_point_index second_point_index mbind option_bind].
  - destruct (Hk (ShowAttribute M1 M2 k) k) as (i & -> & Hi); [by left|done|].
    rewrite list_lookup_fmap, Hi. cbn [expect fmap option_fmap option_map mbind outcome_bind]. rewrite Hid.
    eexists. split; [reflexivity|]. done.
  - eexists. split; [reflexivity|]. done.
Qed.

Lemma key_sum_terms_spec {T} `{!MayHavePublicKey T} (g : AnyKeyPair -> T) (keys : list AnyKeyPair) :
  (forall k, key_id (g k) = key_id k) -> (forall k, key_public (g k) = key_public k) ->
  concat (key_sum_terms <$> (g <$> keys)) = (fun t => (render_s t.1, render_p t.2)) <$> sum_terms keys.
Proof.
  intros Hid Hpk. unfold sum_terms. induction keys as [|k keys IH]; [done|].
  change (key_sum_terms (g k) ++ concat (key_sum_terms <$> (g <$> keys))
          = (fun t => (render_s t.1, render_p t.2)) <$> (key_terms k ++ concat (key_terms <$> keys))).
  rewrite fmap_app, IH. f_equal. unfold key_sum_terms, key_terms. rewrite Hid, Hpk. by destruct (key_public k).
Qed.

Lemma key_equations_spec {T} `{!MayHavePublicKey T} (g : AnyKeyPair -> T) (keys : list AnyKeyPair) :
  (forall k, key_id (g k) = key_id k) -> key_equation <$> (g <$> keys) = render <$> (key_neq <$> keys).
Proof.
  intros Hid. rewrite <- !list_fmap_compose. apply list_fmap_ext. intros i k _. cbn [compose].
  unfold key_equation, key_neq, render_equation. by rewrite Hid.
Qed.

Lemma presentation_equations_spec {E T} `{!MayHavePublicKey T} (g : AnyKeyPair -> T) keys l points msg :
  (forall k, key_id (g k) = key_id k) -> (forall k, key_public (g k) = key_public k) -> keys_known keys l ->
  presentation_equations (E:=E) (mkCore (g <$> keys) (refs keys 1 l) points msg) = Ok (render <$> presentation_neqs keys l).
Proof.
  intros Hid Hpk Hk. unfold presentation_equations. cbn [encryption_keys attributes].
  destruct (attribute_equations_spec (E:=E) g keys 1 l Hid Hk) as (attrs & -> & Hc). cbn [mbind outcome_bind].
  rewrite key_sum_terms_spec, key_equations_spec by done. f_equal. unfold presentation_neqs.
  rewrite !fmap_app, Hc. do 2 f_equal. f_equal.
  destruct (sum_terms keys) as [|t ts]; [by rewrite !bool_decide_true|]. by rewrite !bool_decide_false.
Qed.

(** Every key of the list comes from a show, and consistent keys are known. *)
Definition consistent (l : list Show) : Prop :=
  forall s s' k k', s ∈ l -> s' ∈ l -> show_key s = Some k -> show_key s' = Some k' -> key_id k = key_id k' -> k = k'.

Lemma add_keys_from l keys k : k ∈ add_keys keys l -> k ∈ keys \/ exists s, s ∈ l /\ show_key s = Some k.
Proof.
  revert keys. induction l as [|s l IH]; intros keys Hk; [by left|]. cbn [add_keys foldl] in Hk.
  destruct (IH (add_key keys s) Hk) as [Hin|(s' & ? & ?)]; [|right; exists s'; split; [by right|done]].
  unfold add_key in Hin. destruct (show_key s) as [k'|] eqn:Hs; [|by left].
  destruct (position _ keys); [by left|]. apply elem_of_app in Hin as [?|Hin%list_elem_of_singleton]; [by left|].
  subst. right. exists s. split; [by left|done].
Qed.

Lemma add_keys_has l keys s k : s ∈ l -> show_key s = Some k -> exists i, position (same_id (key_id k)) (add_keys keys l) = Some i.
Proof.
  revert keys. induction l as [|s' l IH]; intros keys Hin Hs; [by apply not_elem_of_nil in Hin|].
  apply elem_of_cons in Hin as [->|Hin]; [|by apply IH].
  eexists. apply (add_keys_position l (add_key keys s')), add_key_has. done.
Qed.

Lemma keys_known_ok l : consistent l -> keys_known (add_keys [] l) l.
Proof.
  intros Hc s k Hs Hk. destruct (add_keys_has l [] s k Hs Hk) as [i Hi]. exists i. split; [done|].
  apply position_Some in Hi as (k' & Hk' & Hid & _). rewrite Hk'. f_equal.
  destruct (add_keys_from l [] k') as [Hn|(s' & Hs' & Hsk)]; [by eapply list_elem_of_lookup_2|by apply not_elem_of_nil in Hn|].
  apply (Hc s' s k' k); [done..|]. by apply String.eqb_eq in Hid.
Qed.

(** The key with an id. *)
Definition key_of (keys : list AnyKeyPair) (id : string) : option AnyKeyPair :=
  i ← position (same_id id) keys; keys !! i.

Lemma key_of_show keys l s k : keys_known keys l -> s ∈ l -> show_key s = Some k -> key_of keys (key_id k) = Some k.
Proof. intros Hk Hs Hsk. unfold key_of. destruct (Hk s k Hs Hsk) as (i & -> & Hi). done. Qed.
Lemma key_of_key l k : consistent l -> k ∈ add_keys [] l -> key_of (add_keys [] l) (key_id k) = Some k.
Proof.
  intros Hc Hk. destruct (add_keys_from l [] k Hk) as [Hn|(s & Hs & Hsk)]; [by apply not_elem_of_nil in Hn|].
  by eapply key_of_show; [apply keys_known_ok|..].
Qed.
End statement.

(** ** The arguments *)

Section arguments.
Context {P : Primitives} {H256 : Sha256} {R : Ristretto}.
Context (system : SystemParams) (com : PresentationProofCommitments) (I Z : RPoint).
Context (keys : list AnyKeyPair) (Es : list RPoint).

Definition domain_points (id : string) : RPoint * RPoint :=
  match k ← key_of keys id; key_public k with
  | Some pk => apk_G_a pk
  | None => (p_identity, p_identity)
  end.
Definition add_A (s : RPoint) (k : AnyKeyPair) : RPoint := match key_public k with Some pk => s +p apk_A pk | None => s end.
Definition sum_A : RPoint := foldl add_A p_identity keys.

(** The value of a name. *)
Definition point_value (n : pname) : RPoint :=
  match n with
  | NI => I | NZ => Z | NCx0 => C_x0 com | NCx1 => C_x1 com | NGx0 => G_x0 system | NGx1 => G_x1 system
  | Nzero => p_identity | NSum => sum_A
  | NGa1 id => (domain_points id).1 | NGa2 id => (domain_points id).2
  | NGy i => default p_identity (vec_to_list (G_y system) !! i)
  | NCy i => default p_identity (C_y com !! i)
  | NEA i => default p_identity (Es !! i)
  | NnegEA i => -p default p_identity (Es !! i)
  | NCyEA i => default p_identity (C_y com !! i) -p default p_identity (Es !! i)
  end.

Abbreviation args := (rendered render_p point_value).

Definition key_points (k : AnyKeyPair) : list pname :=
  match key_public k with Some _ => [NGa1 (key_id k); NGa2 (key_id k)] | None => [] end.
Definition keys_points : list pname :=
  if bool_decide (length keys = 0%nat) then []
  else Nzero :: concat (key_points <$> keys) ++ (if bool_decide (sum_A = p_identity) then [] else [NSum]).
Definition base_points (n : nat) : list pname :=
  [NI; NCx0; NCx1; NGx0; NGx1] ++ keys_points ++ (NGy <$> seq 0 n) ++ [NCy 0].

Definition show_points (j : nat) (s : Show) : list pname :=
  match s with
  | ShowAttribute _ _ _ => [NCy j; NEA j; NnegEA j; NCyEA (j + 2 - 1)]
  | ShowRevealed _ => [NCy j]
  end.
Fixpoint shows_points (j : nat) (l : list Show) : list pname :=
  match l with [] => [] | s :: l => show_points j s ++ shows_points (j + show_length s) l end.

Lemma args_app {A} (l l' : list (string * A)) m : args_add_all l' (args_add_all l m) = args_add_all (l ++ l') m.
Proof. unfold args_add_all. by rewrite foldl_app. Qed.
Lemma args_one {A} n (v : A) m : args_add n v m = args_add_all [(n, v)] m.
Proof. done. Qed.
Lemma rendered_app l l' : args (l ++ l') = args l ++ args l'.
Proof. apply fmap_app. Qed.

Lemma public_key_id (k : AnyKeyPair) pk : key_public k = Some pk -> apk_id pk = key_id k.
Proof. destruct k as [a1 a2 [pk'|id]]; [by intros [= ->]|done]. Qed.

Lemma key_point_args_spec {T} `{!MayHavePublicKey T} (g : AnyKeyPair -> T) ks m s :
  (forall k, key_public (g k) = key_public k) -> (forall k, k ∈ ks -> key_of keys (key_id k) = Some k) ->
  foldl key_point_args (m, s) (g <$> ks) = (args_add_all (args (concat (key_points <$> ks))) m, foldl add_A s ks).
Proof.
  intros Hpk. revert m s. induction ks as [|k ks IH]; intros m s Hk; [done|].
  change (foldl key_point_args (key_point_args (m, s) (g k)) (g <$> ks)
          = (args_add_all (args (key_points k ++ concat (key_points <$> ks))) m, foldl add_A (add_A s k) ks)).
  rewrite rendered_app, <- args_app. unfold key_point_args at 2, add_A at 2. rewrite Hpk.
  destruct (key_public k) as [pk|] eqn:Epk.
  - assert (key_points k = [NGa1 (key_id k); NGa2 (key_id k)]) as -> by (unfold key_points; by rewrite Epk).
    rewrite IH by (intros; apply Hk; by right). rewrite (public_key_id k pk) by done. f_equal. f_equal.
    unfold rendered. cbn [fmap list_fmap render_p point_value]. unfold domain_points.
    rewrite Hk by by left. cbn [mbind option_bind]. by rewrite Epk.
  - assert (key_points k = []) as -> by (unfold key_points; by rewrite Epk). apply IH. intros. apply Hk. by right.
Qed.

Lemma G_y_args n : (n <= NUM_SUPPORTED_ATTRS)%nat ->
  zip (take n G_y_names) (vec_to_list (G_y system)) = args (NGy <$> seq 0 n).
Proof.
  unfold NUM_SUPPORTED_ATTRS. destruct (vec_seven (G_y system)) as (G0 & G1 & G2 & G3 & G4 & G5 & G6 & Hv).
  unfold rendered, point_value. rewrite Hv. intros Hn.
  do 8 (destruct n as [|n]; [reflexivity|]). lia.
Qed.

Lemma prepare_spec {E T} `{!MayHavePublicKey T} (g : AnyKeyPair -> T) attrs points msg :
  (forall k, key_public (g k) = key_public k) -> (forall k, k ∈ keys -> key_of keys (key_id k) = Some k) ->
  (0 < length points <= NUM_SUPPORTED_ATTRS)%nat -> length (C_y com) = length points ->
  prepare_non_attribute_point_args (E:=E) system (mkCore (g <$> keys) attrs points msg) I com =
    Ok (args_add_all (args (base_points (length points))) ∅).
Proof.
  intros Hpk Hk Hn Hy. unfold prepare_non_attribute_point_args. cbn [encryption_keys core_points].
  rewrite length_fmap, G_y_args by lia. rewrite key_point_args_spec by done. fold sum_A.
  destruct (C_y com) as [|C0 Cs] eqn:HC; [cbn in Hy; lia|]. cbn [lookup list_lookup expect mbind outcome_bind].
  f_equal. unfold base_points, keys_points. rewrite !rendered_app, <- !args_app.
  assert (args [NCy 0] = [("C_y0", C0)]) as -> by (unfold rendered, point_value; cbn; by rewrite HC).
  change (args_add "C_y0" C0 ?m) with (args_add_all [("C_y0", C0)] m). f_equal. f_equal.
  case_bool_decide; [done|]. change (Nzero :: ?a ++ ?b) with ([Nzero] ++ a ++ b).
  rewrite !rendered_app, <- !args_app. by case_bool_decide.
Qed.

(** The arguments for the shows, from their points at an offset. *)
Lemma client_args_spec {E} l pre pre' attrs msg m :
  length pre' = length pre -> Es = pre' ++ concat (server_points <$> l) -> keys_known keys l ->
  length (C_y com) = (length pre + total_length l)%nat ->
  fold_args (E:=E) (client_attribute_args (mkCore keys attrs (pre ++ concat (client_points <$> l)) msg) (C_y com)) m
    (refs keys (length pre) l) = Ok (args_add_all (args (shows_points (length pre) l)) m).
Proof.
  revert pre pre' m. induction l as [|s l IH]; intros pre pre' m Hpre HE Hk Hlen; [done|].
  change (total_length (s :: l)) with (show_length s + total_length l)%nat in Hlen.
  cbn [refs fold_args shows_points]. rewrite rendered_app, <- args_app.
  assert (forall i, (i < show_length s)%nat -> exists C, C_y com !! (length pre + i)%nat = Some C) as HC.
  { intros i Hi. apply lookup_lt_is_Some. lia. }
  assert (client_attribute_args (E:=E) (mkCore keys attrs (pre ++ concat (client_points <$> s :: l)) msg) (C_y com) m
      (mkAttributeRef (k ← show_key s; position (same_id (key_id k)) keys) (length pre) (length pre + show_length s - 1))
    = Ok (args_add_all (args (show_points (length pre) s)) m)) as ->.
  { unfold client_attribute_args. cbn [first_point_index second_point_index key_index core_points encryption_keys].
    destruct (HC 0%nat) as [C0 HC0]; [destruct s; cbn; lia|]. rewrite Nat.add_0_r in HC0. rewrite HC0.
    cbn [expect mbind outcome_bind]. destruct s as [M1 M2 k|X]; cbn [show_key mbind option_bind].
    - destruct (Hk (ShowAttribute M1 M2 k) k) as (i & -> & ->); [by left|done|]. cbn [expect mbind outcome_bind].
      change (concat (client_points <$> ShowAttribute M1 M2 k :: l)) with (M1 :: M2 :: concat (client_points <$> l)).
      change (concat (server_points <$> ShowAttribute M1 M2 k :: l))
        with (akp_a1 k *p M1 :: (akp_a2 k *p akp_a1 k *p M1 +p M2) :: concat (server_points <$> l)) in HE.
      destruct (HC 1%nat) as [C1 HC1]; [cbn; lia|]. cbn [show_length].
      assert (length pre + 2 - 1 = length pre + 1)%nat as Hj by lia. rewrite Hj, HC1.
      rewrite (list_lookup_middle pre _ M1 (length pre)) by done. rewrite lookup_app_r by lia.
      replace (length pre + 1 - length pre)%nat with 1%nat by lia.
      cbn [lookup list_lookup expect mbind outcome_bind]. f_equal. rewrite args_one, args_app. f_equal.
      unfold rendered, show_points. cbn [fmap list_fmap render_p point_value app]. rewrite Hj, HC0, HC1, HE.
      rewrite <- Hpre, (list_lookup_middle pre' _ (akp_a1 k *p M1) (length pre')) by done. rewrite lookup_app_r by lia.
      replace (length pre' + 1 - length pre')%nat with 1%nat by lia. done.
    - unfold rendered, show_points. cbn [fmap list_fmap render_p point_value]. by rewrite HC0. }
  cbn [mbind outcome_bind].
  assert (pre ++ concat (client_points <$> s :: l) = (pre ++ client_points s) ++ concat (client_points <$> l)) as ->
    by by rewrite <- app_assoc.
  replace (length pre + show_length s)%nat with (length (pre ++ client_points s)) by by rewrite length_app, client_points_length.
  apply (IH _ (pre' ++ server_points s)).
  - by rewrite !length_app, client_points_length, server_points_length, Hpre.
  - by rewrite HE, <- app_assoc.
  - intros s' k Hs'. apply Hk. by right.
  - rewrite length_app, client_points_length. lia.
Qed.

Lemma server_args_spec {E} l pre pre' ks attrs msg m :
  length pre' = length pre -> Es = pre' ++ concat (server_points <$> l) -> keys_known keys l ->
  length (C_y com) = (length pre + total_length l)%nat ->
  fold_args (E:=E) (verifier_attribute_args (mkCore ks attrs (pre ++ concat (server_points <$> l)) msg) (C_y com)) m
    (refs keys (length pre) l) = Ok (args_add_all (args (shows_points (length pre) l)) m).
Proof.
  revert pre pre' m. induction l as [|s l IH]; intros pre pre' m Hpre HE Hk Hlen; [done|].
  change (total_length (s :: l)) with (show_length s + total_length l)%nat in Hlen.
  cbn [refs fold_args shows_points]. rewrite rendered_app, <- args_app.
  assert (forall i, (i < show_length s)%nat -> exists C, C_y com !! (length pre + i)%nat = Some C) as HC.
  { intros i Hi. apply lookup_lt_is_Some. lia. }
  assert (verifier_attribute_args (E:=E) (mkCore ks attrs (pre ++ concat (server_points <$> s :: l)) msg) (C_y com) m
      (mkAttributeRef (k ← show_key s; position (same_id (key_id k)) keys) (length pre) (length pre + show_length s - 1))
    = Ok (args_add_all (args (show_points (length pre) s)) m)) as ->.
  { unfold verifier_attribute_args. cbn [first_point_index second_point_index key_index core_points].
    destruct (HC 0%nat) as [C0 HC0]; [destruct s; cbn; lia|]. rewrite Nat.add_0_r in HC0. rewrite HC0.
    cbn [expect mbind outcome_bind]. destruct s as [M1 M2 k|X]; cbn [show_key mbind option_bind].
    - destruct (Hk (ShowAttribute M1 M2 k) k) as (i & -> & _); [by left|done|].
      change (concat (server_points <$> ShowAttribute M1 M2 k :: l))
        with (akp_a1 k *p M1 :: (akp_a2 k *p akp_a1 k *p M1 +p M2) :: concat (server_points <$> l)) in HE |- *.
      destruct (HC 1%nat) as [C1 HC1]; [cbn; lia|]. cbn [show_length].
      assert (length pre + 2 - 1 = length pre + 1)%nat as Hj by lia. rewrite Hj, HC1.
      rewrite (list_lookup_middle pre _ (akp_a1 k *p M1) (length pre)) by done. rewrite lookup_app_r by lia.
      replace (length pre + 1 - length pre)%nat with 1%nat by lia.
      cbn [lookup list_lookup expect mbind outcome_bind]. f_equal. rewrite args_one, args_app. f_equal.
      unfold rendered, show_points. cbn [fmap list_fmap render_p point_value app]. rewrite Hj, HC0, HC1, HE.
      rewrite <- Hpre, (list_lookup_middle pre' _ (akp_a1 k *p M1) (length pre')) by done. rewrite lookup_app_r by lia.
      replace (length pre' + 1 - length pre')%nat with 1%nat by lia. done.
    - unfold rendered, show_points. cbn [fmap list_fmap render_p point_value]. by rewrite HC0. }
  cbn [mbind outcome_bind].
  assert (pre ++ concat (server_points <$> s :: l) = (pre ++ server_points s) ++ concat (server_points <$> l)) as ->
    by by rewrite <- app_assoc.
  replace (length pre + show_length s)%nat with (length (pre ++ server_points s)) by by rewrite length_app, server_points_length.
  apply (IH _ (pre' ++ server_points s)).
  - by rewrite !length_app, Hpre.
  - by rewrite HE, <- app_assoc.
  - intros s' k Hs'. apply Hk. by right.
  - rewrite length_app, server_points_length. lia.
Qed.
End arguments.

(** ** The names that occur *)

Section occurrences.
Context {P : Primitives} {H256 : Sha256} {R : Ristretto}.
Context (system : SystemParams) (keys : list AnyKeyPair) (l : list Show).
Hypothesis keys_l : keys = add_keys [] l.
Hypothesis l_consistent : consistent l.
(** The verified public keys do not cancel. *)
Hypothesis sum_terms_iff : sum_terms keys = [] <-> sum_A keys = p_identity.

Abbreviation eqs := (presentation_neqs keys l).

Definition client_scalars : list sname :=
  [Sz; St; Sz0] ++ concat ((fun k : AnyKeyPair => [Sa1 (key_id k); Sa2 (key_id k); Sz1 (key_id k)]) <$> keys).
Definition all_point_names (n : nat) : list pname := base_points keys n ++ [NZ] ++ shows_points 1 l.

Lemma point_names_app (e1 e2 : list (pname * list (sname * pname))) : point_names (e1 ++ e2) = point_names e1 ++ point_names e2.
Proof. unfold point_names. by rewrite fmap_app, concat_app. Qed.
Lemma scalar_names_app (e1 e2 : list (pname * list (sname * pname))) : scalar_names (e1 ++ e2) = scalar_names e1 ++ scalar_names e2.
Proof. unfold scalar_names. by rewrite fmap_app, concat_app. Qed.

(** The points of the shows' equations are their arguments and the points [G_y]. *)
Lemma shows_occurrences j m n :
  n ∈ point_names (shows_neqs j m) <-> n ∈ shows_points j m \/ n ∈ NGy <$> seq j (total_length m).
Proof.
  revert j. induction m as [|s m IH]; intros j; [cbn; set_solver|].
  change (total_length (s :: m)) with (show_length s + total_length m)%nat.
  cbn [shows_neqs shows_points]. rewrite point_names_app, seq_app, fmap_app, !elem_of_app, IH.
  destruct s as [M1 M2 k|X]; cbn [attribute_neqs show_points show_length seq fmap list_fmap].
  - replace (j + 2 - 1)%nat with (S j) by lia. unfold point_names. cbn. set_solver.
  - unfold point_names. cbn. set_solver.
Qed.

Lemma key_occurrences ks n : n ∈ point_names (key_neq <$> ks) <-> ks <> [] /\ n ∈ [Nzero; NI; NZ].
Proof.
  induction ks as [|k ks IH]; [cbn; set_solver|].
  change (key_neq <$> k :: ks) with ([key_neq k] ++ (key_neq <$> ks)). rewrite point_names_app, elem_of_app, IH.
  unfold point_names. cbn. set_solver.
Qed.

Lemma sum_term_points ks : (sum_terms ks).*2 = concat (key_points <$> ks).
Proof.
  unfold sum_terms. induction ks as [|k ks IH]; [done|].
  change ((key_terms k ++ concat (key_terms <$> ks)).*2 = key_points k ++ concat (key_points <$> ks)).
  rewrite fmap_app, IH. f_equal. unfold key_terms, key_points. by destruct (key_public k).
Qed.

Lemma point_occurrences n : n ∈ all_point_names (S (total_length l)) <-> n ∈ point_names eqs.
Proof.
  unfold all_point_names, base_points, presentation_neqs, keys_points.
  rewrite !point_names_app, !elem_of_app, shows_occurrences, key_occurrences.
  change (seq 0 (S (total_length l))) with (0%nat :: seq 1 (total_length l)). rewrite fmap_cons, elem_of_cons.
  assert (n ∈ point_names (if bool_decide (sum_terms keys = []) then [] else [(NSum, sum_terms keys)])
          <-> n ∈ concat (key_points <$> keys) ++ (if bool_decide (sum_A keys = p_identity) then [] else [NSum])) as ->.
  { rewrite <- sum_term_points. case_bool_decide as Hs.
    - rewrite Hs, bool_decide_true by by apply sum_terms_iff. done.
    - rewrite bool_decide_false by by rewrite <- sum_terms_iff. unfold point_names. cbn [fmap list_fmap concat fst snd].
      rewrite app_nil_r. set_solver. }
  destruct keys as [|k ks].
  - rewrite (bool_decide_true (length [] = 0%nat)) by done. unfold sum_A. cbn [foldl]. rewrite bool_decide_true by done.
    unfold point_names. cbn. set_solver.
  - rewrite (bool_decide_false (length (k :: ks) = 0%nat)) by done. unfold point_names at 1 2. cbn [fmap list_fmap concat fst snd app].
    rewrite !elem_of_cons, !elem_of_app. set_solver.
Qed.

Lemma shows_scalars j m n :
  n ∈ scalar_names (shows_neqs j m) <->
  (m <> [] /\ n = Sz) \/ exists s k, s ∈ m /\ show_key s = Some k /\ n ∈ [Sa1 (key_id k); Sz1 (key_id k); Sa2 (key_id k)].
Proof.
  revert j. induction m as [|s m IH]; intros j; [cbn; set_solver|].
  cbn [shows_neqs]. rewrite scalar_names_app, elem_of_app, IH. clear IH. destruct s as [M1 M2 k|X].
  - unfold scalar_names. cbn [attribute_neqs fmap list_fmap concat fst snd app]. split.
    + intros [Hn|[[_ ->]|(s & k' & Hs & Hk)]]; [|by left|right; exists s, k'; split; [by right|done]].
      rewrite !elem_of_cons in Hn. assert (n = Sz \/ n ∈ [Sa1 (key_id k); Sz1 (key_id k); Sa2 (key_id k)]) as [->|Hn']
        by set_solver; [by left|]. right. exists (ShowAttribute M1 M2 k), k. split; [by left|done].
    + intros [[_ ->]|(s & k' & Hs & Hk & Hn)]; [left; set_solver|].
      apply elem_of_cons in Hs as [->|Hs]; [injection Hk as ->; left; set_solver|right; right; eauto].
  - unfold scalar_names. cbn [attribute_neqs fmap list_fmap concat fst snd app]. split.
    + intros [Hn|[[_ ->]|(s & k' & Hs & Hk)]]; [left|by left|right; exists s, k'; split; [by right|done]].
      split; [done|]. set_solver.
    + intros [[_ ->]|(s & k' & Hs & Hk & Hn)]; [left; set_solver|].
      apply elem_of_cons in Hs as [->|Hs]; [done|right; right; eauto].
Qed.

Lemma key_scalars ks n : n ∈ scalar_names (key_neq <$> ks) <-> exists k, k ∈ ks /\ n ∈ [Sz1 (key_id k); Sa1 (key_id k)].
Proof.
  induction ks as [|k ks IH]; [cbn; set_solver|].
  change (key_neq <$> k :: ks) with ([key_neq k] ++ (key_neq <$> ks)). rewrite scalar_names_app, elem_of_app, IH.
  unfold scalar_names. cbn. set_solver.
Qed.

Lemma sum_scalars ks n : n ∈ (sum_terms ks).*1 -> exists k, k ∈ ks /\ n ∈ [Sa1 (key_id k); Sa2 (key_id k)].
Proof.
  unfold sum_terms. induction ks as [|k ks IH]; [cbn; set_solver|].
  change ((sum_terms (k :: ks)).*1) with ((key_terms k ++ concat (key_terms <$> ks)).*1).
  change (concat (key_terms <$> k :: ks)) with (key_terms k ++ concat (key_terms <$> ks)).
  rewrite fmap_app, elem_of_app. intros [Hn|Hn].
  - exists k. split; [by left|]. unfold key_terms in Hn. destruct (key_public k); [done|by apply not_elem_of_nil in Hn].
  - destruct (IH Hn) as (k' & Hk & ?). exists k'. split; [by right|done].
Qed.

Lemma concat_names {A B} (f : A -> list B) ks n : n ∈ concat (f <$> ks) <-> exists k, k ∈ ks /\ n ∈ f k.
Proof.
  rewrite list_elem_of_In, in_concat. split.
  - intros (x & Hx & Hn). apply list_elem_of_In, list_elem_of_fmap in Hx as (k & Hk0 & Hk). subst x.
    exists k. split; [done|]. by apply list_elem_of_In.
  - intros (k & Hk & Hn). exists (f k). split; apply list_elem_of_In; [|done]. apply list_elem_of_fmap. eauto.
Qed.

Lemma scalar_occurrences n : n ∈ client_scalars <-> n ∈ scalar_names eqs.
Proof.
  unfold client_scalars, presentation_neqs. rewrite !scalar_names_app, !elem_of_app, shows_scalars, key_scalars, concat_names.
  assert (n ∈ scalar_names [(NZ, [(Sz, NI)]); (NCx1, [(St, NCx0); (Sz0, NGx0); (Sz, NGx1)])] <-> n ∈ [Sz; St; Sz0]) as ->
    by (unfold scalar_names; cbn; set_solver).
  assert (n ∈ scalar_names [(NCy 0, [(Sz, NGy 0)])] <-> n = Sz) as -> by (unfold scalar_names; cbn; set_solver).
  split.
  - intros [?|(k & Hk & Hn)]; [by left|]. right. assert (exists s, s ∈ l /\ show_key s = Some k) as (s & Hs & Hsk).
    { rewrite keys_l in Hk. apply add_keys_from in Hk as [Hk|?]; [by apply not_elem_of_nil in Hk|done]. }
    right. right. left. right. exists s, k. split; [done|]. split; [done|]. set_solver.
  - intros [?|[(k & Hk & Hn)|[Hn|[[[_ ->]|(s & k & Hs & Hsk & Hn)]| ->]]]]; [by left| | |left; set_solver| |left; set_solver].
    + right. exists k. split; [done|]. set_solver.
    + assert (n ∈ (sum_terms keys).*1) as Hin.
      { revert Hn. case_bool_decide; [intros Hn; by apply not_elem_of_nil in Hn|]. unfold scalar_names. cbn. by rewrite app_nil_r. }
      right. destruct (sum_scalars _ _ Hin) as (k & ? & ?). exists k. split; [done|]. set_solver.
    + right. exists k. split; [|set_solver]. destruct (keys_known_ok l l_consistent s k Hs Hsk) as (i & _ & Hi).
      rewrite keys_l. by eapply list_elem_of_lookup_2.
Qed.
End occurrences.
