(* ===== verification/ZkPresentationProof.v ===== *)
(** * ZkPresentationProof: the theorem about presentations

    The equations of the statement hold for the values of their names, the server
    recomputes the client's point [Z] from a valid credential, and so the server
    accepts the presentation. *)

From S2P Require Import Prelude Types Primitives Ristretto Sho Poksho PokshoSpec ZkAttributes ZkCredentials ZkIssuanceSpec ZkPresentation ZkPresentationSpec.
From stdpp Require Import vector.
From Stdlib Require Import Ring.
Open Scope string_scope.
Open Scope list_scope.
Open Scope Z_scope.

Section presentation.
Context {P : Primitives} {H256 : Sha256} `{L : RistrettoLaws}.
Add Ring scalars : s_ring.

(** ** The server's [Z] *)

Lemma sum_products_cons a l X (Ms : list RPoint) : sum_products (a :: l) (X :: Ms) = a *p X +p sum_products l Ms.
Proof. done. Qed.
Lemma sum_products_nil_r l : sum_products l [] = p_identity.
Proof. by destruct l. Qed.

Lemma I_for_spec system key n : (2 <= n <= NUM_SUPPORTED_ATTRS)%nat -> forall E,
  I_for (E:=E) (PublicKey_from system key) n =
    Ok (G_V system -p x0 key *p G_x0 system -p x1 key *p G_x1 system
        -p sum_products (vec_to_list (y key)) (take n (vec_to_list (G_y system)))).
Proof.
  unfold NUM_SUPPORTED_ATTRS. destruct key as [w' wp W' x0' x1' y'], system as [Gw Gwp Gx0 Gx1 GV Gz Gy]. cbn [y G_y x0 x1 G_V G_x0 G_x1].
  destruct (vec_seven y') as (y0' & y1' & y2' & y3' & y4' & y5' & y6' & ->).
  destruct (vec_seven Gy) as (G0 & G1 & G2 & G3 & G4 & G5 & G6 & ->). intros Hn E.
  do 8 (destruct n as [|n]; [try lia; change (Ok (E:=E) ?a = Ok ?b) with (Ok (E:=E) a = Ok b); cbn -[sum_products p_sub p_add p_mul]; f_equal; products|]). lia.
Qed.

Lemma fold_minus_products l (Cs : list RPoint) Z :
  foldl (fun Z '(yn, C_yn) => Z -p yn *p C_yn) Z (zip l Cs) = Z -p sum_products l Cs.
Proof.
  revert Z Cs. induction l as [|a l IH]; intros Z [|C Cs]; try (change (sum_products _ _) with p_identity; cbn [zip zip_with foldl]; group).
  cbn [zip zip_with foldl]. rewrite IH, sum_products_cons. set (S1 := sum_products _ _). group.
Qed.

Definition blinded_points (z : RScalar) (Gs Ms : list RPoint) : list RPoint := (fun '(G, X) => z *p G +p X) <$> zip Gs Ms.

Lemma blinded_products z l Gs Ms :
  (length Ms <= length l)%nat -> (length Ms <= length Gs)%nat ->
  sum_products l (blinded_points z Gs Ms) = z *p sum_products l (take (length Ms) Gs) +p sum_products l Ms.
Proof.
  unfold blinded_points. revert l Gs. induction Ms as [|X Ms IH]; intros [|a l] [|G Gs] Hl Hg; cbn [length] in *; try lia;
    try (rewrite zip_with_nil_r || idtac; change (sum_products _ _) with p_identity; group).
  change ((fun '(G, X) => z *p G +p X) <$> zip (G :: Gs) (X :: Ms)) with ((z *p G +p X) :: ((fun '(G, X) => z *p G +p X) <$> zip Gs Ms)).
  cbn [take firstn]. rewrite !sum_products_cons, IH by lia. set (S1 := sum_products _ _). set (S2 := sum_products l Ms). group.
Qed.

(** The revealed points, weighted. *)
Fixpoint revealed_sum (ys : list RScalar) (j : nat) (l : list Show) : RPoint :=
  match l with
  | [] => p_identity
  | ShowAttribute _ _ _ :: l => revealed_sum ys (j + 2) l
  | ShowRevealed X :: l => default s_zero (ys !! j) *p X +p revealed_sum ys (j + 1) l
  end.

Lemma plain_split ys j l :
  (j + total_length l <= length ys)%nat ->
  sum_products (drop j ys) (concat (plain_points <$> l)) =
    sum_products (drop j ys) (concat (client_points <$> l)) +p revealed_sum ys j l.
Proof.
  revert j. induction l as [|s l IH]; intros j Hlen.
  { change (concat (plain_points <$> [])) with (@nil RPoint). change (concat (client_points <$> [])) with (@nil RPoint).
    rewrite sum_products_nil_r. cbn [revealed_sum]. group. }
  change (total_length (s :: l)) with (show_length s + total_length l)%nat in Hlen.
  destruct s as [M1 M2 k|X]; cbn [show_length] in Hlen; cbn [revealed_sum].
  - destruct (lookup_lt_is_Some_2 ys j) as [a Ha]; [lia|]. destruct (lookup_lt_is_Some_2 ys (S j)) as [b Hb]; [lia|].
    rewrite (drop_S ys a j), (drop_S ys b (S j)) by done.
    change (concat (plain_points <$> ShowAttribute M1 M2 k :: l)) with (M1 :: M2 :: concat (plain_points <$> l)).
    change (concat (client_points <$> ShowAttribute M1 M2 k :: l)) with (M1 :: M2 :: concat (client_points <$> l)).
    rewrite !sum_products_cons. replace (S (S j)) with (j + 2)%nat by lia. rewrite IH by lia.
    set (S1 := sum_products _ _). set (S2 := revealed_sum _ _ _). group.
  - destruct (lookup_lt_is_Some_2 ys j) as [a Ha]; [lia|]. rewrite (drop_S ys a j), Ha by done.
    change (concat (plain_points <$> ShowRevealed X :: l)) with (X :: concat (plain_points <$> l)).
    change (concat (client_points <$> ShowRevealed X :: l)) with (p_identity :: concat (client_points <$> l)).
    rewrite !sum_products_cons. replace (S j) with (j + 1)%nat by lia. rewrite IH by lia. cbn [default from_option id].
    set (S1 := sum_products _ _). set (S2 := revealed_sum _ _ _). group.
Qed.

Lemma subtract_revealed_spec {E} key keys ks attrs msg l pre Z :
  keys_known keys l -> (length pre + total_length l <= NUM_SUPPORTED_ATTRS)%nat ->
  subtract_revealed (E:=E) key (mkCore ks attrs (pre ++ concat (server_points <$> l)) msg) Z (refs keys (length pre) l)
    = Ok (Z -p revealed_sum (vec_to_list (y key)) (length pre) l).
Proof.
  revert pre Z. induction l as [|s l IH]; intros pre Z Hk Hlen; [cbn; f_equal; group|].
  change (total_length (s :: l)) with (show_length s + total_length l)%nat in Hlen.
  assert (keys_known keys l) as Hk' by (intros s' k' Hs'; apply Hk; by right).
  cbn [refs subtract_revealed key_index first_point_index core_points].
  assert (pre ++ concat (server_points <$> s :: l) = (pre ++ server_points s) ++ concat (server_points <$> l)) as Hpre
    by by rewrite <- app_assoc.
  destruct s as [M1 M2 k|X]; cbn [show_key mbind option_bind show_length] in *.
  - destruct (Hk (ShowAttribute M1 M2 k) k) as (i & -> & _); [by left|done|].
    rewrite Hpre. replace (length pre + 2)%nat with (length (pre ++ server_points (ShowAttribute M1 M2 k)))
      by by rewrite length_app.
    rewrite IH by (done || rewrite length_app; cbn; lia). rewrite length_app. done.
  - assert (exists a, vec_to_list (y key) !! length pre = Some a) as [a Ha].
    { apply lookup_lt_is_Some. rewrite length_vec_to_list. lia. }
    rewrite Ha. cbn [expect mbind outcome_bind].
    assert ((pre ++ concat (server_points <$> ShowRevealed X :: l)) !! length pre = Some X) as -> by by apply list_lookup_middle.
    cbn [expect mbind outcome_bind].
    rewrite Hpre. replace (length pre + 1)%nat with (length (pre ++ server_points (ShowRevealed X))) by by rewrite length_app.
    rewrite IH by (done || rewrite length_app; cbn; lia). f_equal. rewrite length_app. cbn [revealed_sum].
    change (length (server_points (ShowRevealed X))) with 1%nat. rewrite Ha. cbn [default from_option id].
    set (S2 := revealed_sum _ _ _). group.
Qed.

(** For a valid credential the server computes [z I]. *)
Lemma server_Z key system c z l P0 I :
  (S (total_length l) <= NUM_SUPPORTED_ATTRS)%nat ->
  valid_credential key (P0 :: concat (plain_points <$> l)) c ->
  I = G_V system -p x0 key *p G_x0 system -p x1 key *p G_x1 system
      -p sum_products (vec_to_list (y key)) (take (S (total_length l)) (vec_to_list (G_y system))) ->
  let ys := vec_to_list (y key) in
  (z *p G_V system +p cred_V c) -p W key -p x0 key *p (z *p G_x0 system +p cred_U c)
    -p x1 key *p (z *p G_x1 system +p cred_t c *p cred_U c)
    -p sum_products ys (blinded_points z (vec_to_list (G_y system)) (p_identity :: concat (client_points <$> l)))
    -p default s_zero (ys !! 0%nat) *p P0 -p revealed_sum ys 1 l = z *p I.
Proof.
  intros Hlen Hc -> ys. unfold valid_credential in Hc. rewrite Hc. clear Hc.
  assert (length (concat (client_points <$> l)) = total_length l) as Hcl
    by (apply concat_points_length, client_points_length).
  rewrite blinded_products by (cbn [length]; rewrite Hcl; unfold ys; rewrite ?length_vec_to_list; lia).
  cbn [length]. rewrite Hcl.
  assert (exists a rest, ys = a :: rest /\ length rest = 6%nat) as (a & rest & Hys & Hrest).
  { unfold ys. destruct (vec_seven (y key)) as (y0' & ? & ? & ? & ? & ? & ? & ->). eexists _, _. split; [reflexivity|done]. }
  fold ys. set (S1 := sum_products ys (take _ _)).
  pose proof (plain_split ys 1 l) as Hsplit. rewrite Hys in *. cbn [drop length lookup list_lookup default from_option id] in *.
  rewrite drop_0 in Hsplit. rewrite !sum_products_cons, Hsplit by (unfold NUM_SUPPORTED_ATTRS in Hlen; lia).
  set (S2 := sum_products rest _). set (S3 := revealed_sum _ _ _). group.
Qed.

(** ** The equations hold *)

Section holds.
Context (system : SystemParams) (c : Credential) (z : RScalar) (I P0 : RPoint) (l : list Show).
Hypothesis l_consistent : consistent l.
Hypothesis l_length : (S (total_length l) <= NUM_SUPPORTED_ATTRS)%nat.

Let keys : list AnyKeyPair := add_keys [] l.
Let client : list RPoint := p_identity :: concat (client_points <$> l).
Let server : list RPoint := P0 :: concat (server_points <$> l).
Let com : PresentationProofCommitments :=
  mkCommitments (z *p G_x0 system +p cred_U c) (z *p G_x1 system +p cred_t c *p cred_U c)
    (z *p G_V system +p cred_V c) (blinded_points z (vec_to_list (G_y system)) client).

(** A verified public key is that of its scalars. *)
Definition key_verified (k : AnyKeyPair) : Prop :=
  match key_public k with
  | Some pk => apk_A pk = akp_a1 k *p (apk_G_a pk).1 +p akp_a2 k *p (apk_G_a pk).2
  | None => True
  end.
Hypothesis keys_verified : forall k, k ∈ keys -> key_verified k.

Definition scalar_value_of (n : sname) : RScalar :=
  match n with
  | Sz => z | St => cred_t c | Sz0 => -s z *s cred_t c
  | Sa1 id => match key_of keys id with Some k => akp_a1 k | None => s_zero end
  | Sa2 id => match key_of keys id with Some k => akp_a2 k | None => s_zero end
  | Sz1 id => match key_of keys id with Some k => -s z *s akp_a1 k | None => s_zero end
  end.
Abbreviation pv := (point_value system com I (z *p I) keys server).
Abbreviation holds := (named_holds scalar_value_of pv).

Ltac named := unfold named_holds; cbn [fst snd fmap list_fmap p_sum foldr].

Lemma key_neq_holds k : k ∈ keys -> holds (key_neq k).
Proof.
  intros Hk. named. cbn [key_neq fst snd fmap list_fmap p_sum foldr scalar_value_of point_value].
  assert (key_of keys (key_id k) = Some k) as -> by by apply key_of_key. group.
Qed.

Lemma sum_holds : holds (NSum, sum_terms keys).
Proof.
  unfold named_holds. cbn [fst snd point_value]. unfold sum_A, sum_terms.
  assert (forall ks s, (forall k, k ∈ ks -> k ∈ keys) -> foldl add_A s ks =
    s +p p_sum ((fun t => scalar_value_of t.1 *p pv t.2) <$> concat (key_terms <$> ks))) as He.
  { induction ks as [|k ks IH]; intros s Hks.
    - change (p_sum _) with p_identity. cbn [foldl]. group.
    - change (concat (key_terms <$> k :: ks)) with (key_terms k ++ concat (key_terms <$> ks)).
      cbn [foldl]. rewrite IH by (intros; apply Hks; by right). rewrite fmap_app, p_sum_app. set (S1 := p_sum (_ <$> concat _)).
      pose proof (keys_verified k (Hks k ltac:(by left))) as Hv. unfold key_verified in Hv. unfold add_A, key_terms.
      assert (key_of keys (key_id k) = Some k) as Hko by (apply key_of_key; [done|apply Hks; by left]).
      destruct (key_public k) as [pk|] eqn:Epk; [|change (p_sum (_ <$> [])) with p_identity; group].
      cbn [fmap list_fmap p_sum foldr fst snd scalar_value_of point_value]. unfold domain_points. rewrite Hko. cbn [mbind option_bind].
      rewrite Epk, Hv. group. }
  rewrite He by done. set (S1 := p_sum _). group.
Qed.

Lemma C_y_value i M : (i < NUM_SUPPORTED_ATTRS)%nat -> client !! i = Some M -> pv (NCy i) = z *p pv (NGy i) +p M.
Proof.
  intros Hi HM. cbn [point_value com C_y].
  destruct (lookup_lt_is_Some_2 (vec_to_list (G_y system)) i) as [G HG]; [by rewrite length_vec_to_list|].
  unfold blinded_points. rewrite list_lookup_fmap, lookup_zip_with, HG, HM. done.
Qed.

(** The equations of the shows, at an offset into the points. *)
Lemma shows_hold m pre pre' :
  (forall s, s ∈ m -> s ∈ l) ->
  client = pre ++ concat (client_points <$> m) -> server = pre' ++ concat (server_points <$> m) -> length pre' = length pre ->
  (length pre + total_length m <= NUM_SUPPORTED_ATTRS)%nat -> Forall holds (shows_neqs (length pre) m).
Proof.
  revert pre pre'. induction m as [|s m IH]; intros pre pre' Hm Hc Hs Hpre Hlen; [constructor|].
  change (total_length (s :: m)) with (show_length s + total_length m)%nat in Hlen. cbn [shows_neqs]. apply Forall_app_2.
  - destruct s as [M1 M2 k|X]; cbn [attribute_neqs show_length] in *.
    + change (concat (client_points <$> ShowAttribute M1 M2 k :: m)) with (M1 :: M2 :: concat (client_points <$> m)) in Hc.
      change (concat (server_points <$> ShowAttribute M1 M2 k :: m))
        with (akp_a1 k *p M1 :: (akp_a2 k *p akp_a1 k *p M1 +p M2) :: concat (server_points <$> m)) in Hs.
      assert (key_of keys (key_id k) = Some k) as Hko.
      { apply (key_of_show keys l (ShowAttribute M1 M2 k)); [by apply keys_known_ok|apply Hm; by left|done]. }
      assert (client !! length pre = Some M1) as H1 by (rewrite Hc; by apply list_lookup_middle).
      assert (client !! (length pre + 2 - 1)%nat = Some M2) as H2.
      { rewrite Hc, lookup_app_r by lia. by replace (length pre + 2 - 1 - length pre)%nat with 1%nat by lia. }
      assert (pv (NEA (length pre)) = akp_a1 k *p M1) as H3 by (cbn [point_value]; rewrite Hs, list_lookup_middle; done).
      assert (pv (NnegEA (length pre)) = -p (akp_a1 k *p M1)) as H4 by (cbn [point_value]; rewrite Hs, list_lookup_middle; done).
      assert (pv (NCyEA (length pre + 2 - 1)) = pv (NCy (length pre + 2 - 1)) -p (akp_a2 k *p akp_a1 k *p M1 +p M2)) as H5.
      { cbn [point_value]. f_equal. rewrite Hs, lookup_app_r by lia.
        by replace (length pre + 2 - 1 - length pre')%nat with 1%nat by lia. }
      repeat constructor; unfold named_holds; cbn [fst snd fmap list_fmap p_sum foldr scalar_value_of]; rewrite Hko.
      * rewrite H3, (C_y_value _ M1) by (done || lia). set (G := pv (NGy _)). group.
      * rewrite H4, H5, (C_y_value _ M2) by (done || lia). set (G := pv (NGy _)). group.
    + change (concat (client_points <$> ShowRevealed X :: m)) with (p_identity :: concat (client_points <$> m)) in Hc.
      apply Forall_singleton. unfold named_holds. cbn [fst snd fmap list_fmap p_sum foldr scalar_value_of].
      rewrite (C_y_value _ p_identity); [set (G := pv (NGy _)); group|lia|]. rewrite Hc. by apply list_lookup_middle.
  - replace (length pre + show_length s)%nat with (length (pre ++ client_points s)) by by rewrite length_app, client_points_length.
    apply (IH _ (pre' ++ server_points s)).
    + intros s' Hs'. apply Hm. by right.
    + by rewrite Hc, <- app_assoc.
    + by rewrite Hs, <- app_assoc.
    + by rewrite !length_app, client_points_length, server_points_length, Hpre.
    + rewrite length_app, client_points_length. lia.
Qed.

Lemma presentation_holds : Forall holds (presentation_neqs keys l).
Proof.
  unfold presentation_neqs. repeat apply Forall_app_2.
  - repeat constructor; named; cbn [scalar_value_of point_value com C_x0 C_x1]; group.
  - apply Forall_fmap, Forall_forall. intros k Hk. by apply key_neq_holds.
  - case_bool_decide; [constructor|]. apply Forall_singleton, sum_holds.
  - apply (shows_hold l [p_identity] [P0]); done.
  - apply Forall_singleton. named. cbn [scalar_value_of].
    rewrite (C_y_value 0 p_identity); [set (G := pv (NGy _)); group|unfold NUM_SUPPORTED_ATTRS; lia|done].
Qed.
End holds.
End presentation.

(** ** Sizes *)

Section sizes.
Context {P : Primitives} {H256 : Sha256} {R : Ristretto}.

Lemma shows_length (l : list Show) : (length l <= total_length l)%nat.
Proof.
  induction l as [|s l IH]; [done|]. change (total_length (s :: l)) with (show_length s + total_length l)%nat.
  destruct s; cbn; lia.
Qed.
Lemma add_keys_length l keys : (length (add_keys keys l) <= length keys + length l)%nat.
Proof.
  revert keys. induction l as [|s l IH]; intros keys; [cbn; lia|]. cbn [add_keys foldl length]. etrans; [apply IH|].
  unfold add_key. destruct (show_key s); [|lia]. destruct (position _ _); [lia|]. rewrite length_app. cbn. lia.
Qed.
Lemma shows_neqs_length j l : length (shows_neqs j l) = total_length l.
Proof.
  revert j. induction l as [|s l IH]; intros j; [done|]. change (total_length (s :: l)) with (show_length s + total_length l)%nat.
  cbn [shows_neqs]. rewrite length_app, IH. by destruct s.
Qed.
Lemma shows_points_length j l : (length (shows_points j l) <= 4 * total_length l)%nat.
Proof.
  revert j. induction l as [|s l IH]; intros j; [cbn; lia|]. change (total_length (s :: l)) with (show_length s + total_length l)%nat.
  cbn [shows_points]. rewrite length_app. specialize (IH (j + show_length s)%nat). destruct s; cbn [show_points show_length length] in *; lia.
Qed.
Lemma sum_terms_length ks : (length (sum_terms ks) <= 2 * length ks)%nat.
Proof.
  unfold sum_terms. induction ks as [|k ks IH]; [done|]. change (concat (key_terms <$> k :: ks)) with (key_terms k ++ concat (key_terms <$> ks)).
  rewrite length_app. unfold key_terms at 1. destruct (key_public k); cbn [length] in *; lia.
Qed.
Lemma client_scalars_length ks : length (client_scalars ks) = (3 + 3 * length ks)%nat.
Proof.
  unfold client_scalars. rewrite length_app. cbn [length]. f_equal. induction ks as [|k ks IH]; [done|].
  change (length (?a :: ?b)) with (S (length b)). cbn [fmap list_fmap concat length app] in *. lia.
Qed.
Lemma all_point_names_length ks l n :
  (length (all_point_names ks l n) <= 9 + 2 * length ks + n + 4 * total_length l)%nat.
Proof.
  unfold all_point_names, base_points, keys_points. rewrite !length_app, length_fmap, length_seq.
  pose proof (shows_points_length 1 l). pose proof (sum_terms_length ks) as Hs.
  rewrite <- (length_fmap snd), sum_term_points in Hs.
  case_bool_decide; [|case_bool_decide]; cbn [length]; rewrite ?length_app; cbn [length]; lia.
Qed.

Lemma shows_neqs_small j l : Forall (fun e => e.2 <> [] /\ (length e.2 <= 255)%nat) (shows_neqs j l).
Proof.
  revert j. induction l as [|s l IH]; intros j; [constructor|]. cbn [shows_neqs]. apply Forall_app_2; [|apply IH].
  destruct s; repeat apply Forall_cons_2; try constructor; cbn; (done || lia).
Qed.

(** The indices in names are those of points. *)
Lemma shows_points_index j l n : n ∈ shows_points j l -> (name_index n < j + total_length l)%nat.
Proof.
  revert j. induction l as [|s l IH]; intros j; [intros Hn; by apply not_elem_of_nil in Hn|].
  change (total_length (s :: l)) with (show_length s + total_length l)%nat. cbn [shows_points].
  intros [Hn|Hn]%elem_of_app; [|specialize (IH _ Hn); lia].
  destruct s; cbn [show_points show_length] in *;
    repeat (apply elem_of_cons in Hn as [->|Hn]; [cbn [name_index]; lia|]); by apply not_elem_of_nil in Hn.
Qed.
Lemma all_point_names_index ks l n : n ∈ all_point_names ks l (S (total_length l)) -> (name_index n < S (total_length l))%nat.
Proof.
  unfold all_point_names, base_points. rewrite !elem_of_app. intros [[Hn|[Hn|[Hn|Hn]]]|[Hn|Hn]].
  - repeat (apply elem_of_cons in Hn as [->|Hn]; [cbn; lia|]). by apply not_elem_of_nil in Hn.
  - unfold keys_points in Hn. case_bool_decide; [by apply not_elem_of_nil in Hn|].
    apply elem_of_cons in Hn as [->|Hn]; [cbn; lia|]. apply elem_of_app in Hn as [Hn|Hn].
    + apply concat_names in Hn as (k & _ & Hn). unfold key_points in Hn.
      destruct (key_public k); repeat (apply elem_of_cons in Hn as [->|Hn]; [cbn; lia|]); by apply not_elem_of_nil in Hn.
    + case_bool_decide; [by apply not_elem_of_nil in Hn|]. apply list_elem_of_singleton in Hn as ->. cbn. lia.
  - apply list_elem_of_fmap in Hn as (i & -> & Hi%elem_of_seq). cbn [name_index]. lia.
  - apply list_elem_of_singleton in Hn as ->. cbn. lia.
  - apply list_elem_of_singleton in Hn as ->. cbn. lia.
  - apply shows_points_index in Hn. lia.
Qed.
End sizes.

(** ** The client and the server run *)

Section runs.
Context {P : Primitives} {H256 : Sha256} `{L : RistrettoLaws}.
Context (system : SystemParams) (key : CredentialPrivateKey) (l : list Show) (message : bytes) (P0 : RPoint).
Hypothesis l_consistent : consistent l.
Hypothesis l_length : (S (total_length l) <= NUM_SUPPORTED_ATTRS)%nat.
Hypothesis l_some : l <> [].

Definition shown_keys : list AnyKeyPair := add_keys [] l.
(** The keys that the server checks do not cancel. *)
Hypothesis keys_independent : sum_terms shown_keys = [] <-> sum_A shown_keys = p_identity.

Definition shown_n : nat := S (total_length l).
Definition shown_equations := render_equation render_s render_p <$> presentation_neqs shown_keys l.
Definition shown_I : RPoint :=
  G_V system -p x0 key *p G_x0 system -p x1 key *p G_x1 system
  -p sum_products (vec_to_list (y key)) (take shown_n (vec_to_list (G_y system))).
Definition shown_points (com : PresentationProofCommitments) (Z : RPoint) : PointArgs :=
  args_add_all (rendered render_p (point_value system com shown_I Z shown_keys (P0 :: concat (server_points <$> l)))
    (all_point_names shown_keys l shown_n)) ∅.
Definition shown_scalars (c : Credential) (z : RScalar) : ScalarArgs :=
  args_add_all (rendered render_s (scalar_value_of c z l) (client_scalars shown_keys)) ∅.

Lemma shown_n_range : (2 <= shown_n <= NUM_SUPPORTED_ATTRS)%nat.
Proof. unfold shown_n. pose proof (shows_length l). destruct l; cbn [length] in *; [done|lia]. Qed.

(** The sizes of the statement. *)
Lemma shown_keys_length : (length shown_keys <= 6)%nat.
Proof.
  unfold shown_keys. pose proof (add_keys_length l []) as H. pose proof (shows_length l). unfold NUM_SUPPORTED_ATTRS in l_length.
  cbn [length] in H. lia.
Qed.

Lemma shown_given com c z Z :
  good_statement shown_equations /\ scalars_given shown_equations (shown_scalars c z) /\
  points_given shown_equations (shown_points com Z).
Proof.
  pose proof shown_keys_length as Hk. assert (total_length l <= 6)%nat as Ht by (unfold NUM_SUPPORTED_ATTRS in l_length; lia).
  apply named_given; [apply render_s_nonempty|apply render_p_ok| | | | | |].
  - intros n. by apply scalar_occurrences.
  - intros n. by apply point_occurrences.
  - unfold presentation_neqs. rewrite !length_app, length_fmap, shows_neqs_length. case_bool_decide; cbn [length]; lia.
  - rewrite client_scalars_length. lia.
  - etrans; [apply all_point_names_length|]. unfold shown_n. lia.
  - unfold presentation_neqs. repeat apply Forall_app_2.
    + repeat apply Forall_cons_2; try constructor; cbn; (done || lia).
    + apply Forall_fmap, Forall_forall. intros k _. cbn. split; [done|lia].
    + case_bool_decide; [constructor|]. apply Forall_singleton. split; [done|]. cbn [snd].
      etrans; [apply sum_terms_length|]. lia.
    + apply shows_neqs_small.
    + apply Forall_singleton. cbn. split; [done|lia].
Qed.

Lemma shown_names_inj n m :
  n ∈ all_point_names shown_keys l shown_n -> m ∈ all_point_names shown_keys l shown_n -> render_p n = render_p m -> n = m.
Proof.
  intros Hn Hm. unfold NUM_SUPPORTED_ATTRS in l_length. apply all_point_names_index in Hn, Hm. apply render_p_inj; lia.
Qed.

Lemma shown_key_of k : k ∈ shown_keys -> key_of shown_keys (key_id k) = Some k.
Proof. by apply key_of_key. Qed.

Definition server_core : Core PublicKeyOrId :=
  mkCore (public_key_or_id <$> shown_keys) (refs shown_keys 1 l) (P0 :: concat (server_points <$> l)) message.
Definition client_core : Core AnyKeyPair :=
  mkCore shown_keys (refs shown_keys 1 l) (p_identity :: concat (client_points <$> l)) message.

(** What the server takes for [Z]. *)
Definition server_point (com : PresentationProofCommitments) : RPoint :=
  C_V com -p W key -p x0 key *p C_x0 com -p x1 key *p C_x1 com -p sum_products (vec_to_list (y key)) (C_y com)
  -p default s_zero (vec_to_list (y key) !! 0%nat) *p P0 -p revealed_sum (vec_to_list (y key)) 1 l.

Lemma server_core_length : length (core_points server_core) = shown_n.
Proof. cbn [server_core core_points length]. by rewrite (concat_points_length server_points) by apply server_points_length. Qed.
Lemma client_core_length : length (core_points client_core) = shown_n.
Proof. cbn [client_core core_points length]. by rewrite (concat_points_length client_points) by apply client_points_length. Qed.

Lemma server_prepare Z com : length (C_y com) = shown_n ->
  prepare_non_attribute_point_args (E:=ZkError) system server_core shown_I com =
    Ok (args_add_all (rendered render_p (point_value system com shown_I Z shown_keys (P0 :: concat (server_points <$> l)))
          (base_points shown_keys shown_n)) ∅).
Proof.
  intros Hy. pose proof server_core_length as E. unfold server_core in *. cbn [core_points] in E.
  rewrite <- E. apply (prepare_spec system com shown_I Z shown_keys _ public_key_or_id);
    [done|apply shown_key_of|rewrite E; pose proof shown_n_range; lia|congruence].
Qed.

Lemma server_shows Z com m : length (C_y com) = shown_n ->
  fold_args (E:=ZkError) (verifier_attribute_args server_core (C_y com)) m (attributes server_core) =
    Ok (args_add_all (rendered render_p (point_value system com shown_I Z shown_keys (P0 :: concat (server_points <$> l)))
          (shows_points 1 l)) m).
Proof.
  intros Hy. apply (server_args_spec system com shown_I Z shown_keys _ l [P0] [P0]); [done|done|by apply keys_known_ok|by rewrite Hy].
Qed.
Lemma server_subtracts Z :
  subtract_revealed (E:=ZkError) key server_core Z (attributes server_core) = Ok (Z -p revealed_sum (vec_to_list (y key)) 1 l).
Proof. apply (subtract_revealed_spec key shown_keys _ _ message l [P0]); [by apply keys_known_ok|done]. Qed.
Lemma server_equations : presentation_equations (E:=ZkError) server_core = Ok shown_equations.
Proof. apply (presentation_equations_spec public_key_or_id); [done..|by apply keys_known_ok]. Qed.

Lemma verify_run v st com pf :
  verifier_finalize (E:=ZkError) v = Ok server_core -> length (C_y com) = shown_n -> build (E:=ZkError) shown_equations = Ok st ->
  verify_presentation system v (CredentialKeyPair_from system key) (mkPresentationProof com pf) =
    match verify_proof st pf (shown_points com (server_point com)) message with
    | Err _ => Err ZkVerificationFailure | Ok _ => Ok tt | Panic => Panic
    end.
Proof.
  intros Hv Hy Hst. unfold verify_presentation. rewrite Hv. cbn [mbind outcome_bind commitments pp_poksho_proof private_key public_key CredentialKeyPair_from].
  rewrite server_core_length, Hy, Nat.eqb_refl. cbn [negb].
  assert (exists a, vec_to_list (y key) !! 0%nat = Some a) as [y0 Hy0].
  { apply lookup_lt_is_Some. rewrite length_vec_to_list. unfold NUM_SUPPORTED_ATTRS. lia. }
  rewrite Hy0. cbn [expect mbind outcome_bind]. change (core_points server_core !! 0%nat) with (Some P0). cbn [expect mbind outcome_bind].
  rewrite (I_for_spec system key shown_n shown_n_range). fold shown_I. cbn [mbind outcome_bind].
  rewrite (server_prepare (server_point com) com Hy). cbn [mbind outcome_bind].
  rewrite (server_shows (server_point com) com _ Hy). cbn [mbind outcome_bind]. rewrite server_subtracts.
  cbn [mbind outcome_bind]. unfold presentation_statement. rewrite server_equations.
  cbn [mbind outcome_bind]. rewrite Hst.
  cbn [mbind outcome_bind]. rewrite fold_minus_products, args_one, !args_app. 
  match goal with |- match verify_proof _ _ ?m _ with _ => _ end = _ => assert (m = shown_points com (server_point com)) as ->; [|done] end.
  unfold shown_points. rewrite args_rendered_perm with (ns' := base_points shown_keys shown_n ++ shows_points 1 l ++ [NZ]);
    [|intros n; unfold all_point_names; rewrite !elem_of_app; tauto|apply shown_names_inj].
  rewrite !rendered_app. do 3 f_equal. unfold rendered. cbn [fmap list_fmap render_p point_value].
  unfold server_point. by rewrite Hy0.
Qed.

Definition client_commitments (c : Credential) (z : RScalar) : PresentationProofCommitments :=
  mkCommitments (z *p G_x0 system +p cred_U c) (z *p G_x1 system +p cred_t c *p cred_U c) (z *p G_V system +p cred_V c)
    (blinded_points z (vec_to_list (G_y system)) (p_identity :: concat (client_points <$> l))).

Lemma client_commitments_length c z : length (C_y (client_commitments c z)) = shown_n.
Proof.
  cbn [client_commitments C_y]. unfold blinded_points. pose proof shown_n_range as Hn. pose proof client_core_length as E.
  cbn [client_core core_points] in E. rewrite length_fmap, length_zip_with, length_vec_to_list, E. lia.
Qed.

Lemma client_prepare Z com : length (C_y com) = shown_n ->
  prepare_non_attribute_point_args (E:=ZkError) system client_core shown_I com =
    Ok (args_add_all (rendered render_p (point_value system com shown_I Z shown_keys (P0 :: concat (server_points <$> l)))
          (base_points shown_keys shown_n)) ∅).
Proof.
  intros Hy. pose proof client_core_length as E. unfold client_core in *. cbn [core_points] in E.
  pose proof (prepare_spec (E:=ZkError) system com shown_I Z shown_keys (P0 :: concat (server_points <$> l)) id
    (refs shown_keys 1 l) (p_identity :: concat (client_points <$> l)) message) as H. rewrite list_fmap_id, E in H.
  apply H; [done|apply shown_key_of|pose proof shown_n_range; lia|done].
Qed.
Lemma client_shows Z com m : length (C_y com) = shown_n ->
  fold_args (E:=ZkError) (client_attribute_args client_core (C_y com)) m (attributes client_core) =
    Ok (args_add_all (rendered render_p (point_value system com shown_I Z shown_keys (P0 :: concat (server_points <$> l)))
          (shows_points 1 l)) m).
Proof.
  intros Hy. apply (client_args_spec system com shown_I Z shown_keys _ l [p_identity] [P0]); [done|done|by apply keys_known_ok|by rewrite Hy].
Qed.
Lemma client_equations : presentation_equations (E:=ZkError) client_core = Ok shown_equations.
Proof.
  pose proof (presentation_equations_spec (E:=ZkError) id shown_keys l (p_identity :: concat (client_points <$> l)) message) as H.
  rewrite list_fmap_id in H. apply H; [done..|by apply keys_known_ok].
Qed.

Lemma key_scalars_spec c z ks m :
  (forall k, k ∈ ks -> k ∈ shown_keys) ->
  foldl (key_scalar_args z) m ks =
    args_add_all (rendered render_s (scalar_value_of c z l)
      (concat ((fun k : AnyKeyPair => [Sa1 (key_id k); Sa2 (key_id k); Sz1 (key_id k)]) <$> ks))) m.
Proof.
  revert m. induction ks as [|k ks IH]; intros m Hks; [done|].
  change (concat (?f <$> k :: ks)) with (f k ++ concat (f <$> ks)). cbn [foldl].
  unfold rendered at 1. rewrite fmap_app, <- args_app, IH by (intros; apply Hks; by right). f_equal.
  cbn [fmap list_fmap scalar_value_of render_s]. fold shown_keys. by rewrite shown_key_of by (apply Hks; by left).
Qed.

Definition presentation_sho (randomness : array 32) : ShoHmacSha256 :=
  absorb_and_ratchet (arr randomness) (sho_new (S:=ShoHmacSha256) (byte_str "Signal_ZKCredential_Presentation_20230410")).

Lemma present_run c z randomness sho r sho' st pf :
  run_local (presentation_sho randomness) (get_scalar (E:=ZkError)) = Ok (z, sho) ->
  run_local (E:=ZkError) sho (squeeze_and_ratchet RANDOMNESS_LEN) = Ok (r, sho') ->
  build (E:=ZkError) shown_equations = Ok st ->
  prove st (shown_scalars c z) (shown_points (client_commitments c z) (z *p shown_I)) message (arr r) = Ok pf ->
  present (E:=ZkError) system client_core (PublicKey_from system key) c randomness =
    Ok (mkPresentationProof (client_commitments c z) pf).
Proof.
  intros Hz Hr Hst Hpf. unfold present. cbv zeta. fold (presentation_sho randomness). rewrite Hz. cbn [mbind outcome_bind]. rewrite client_core_length.
  rewrite (I_for_spec system key shown_n shown_n_range). fold shown_I. cbn [mbind outcome_bind].
  match goal with |- context [mkCommitments ?a ?b ?d ?e] => change (mkCommitments a b d e) with (client_commitments c z) end.
  rewrite (client_prepare (z *p shown_I)) by apply client_commitments_length. cbn [mbind outcome_bind].
  rewrite (client_shows (z *p shown_I) (client_commitments c z)) by apply client_commitments_length. cbn [mbind outcome_bind].
  unfold presentation_statement. rewrite client_equations. cbn [mbind outcome_bind]. rewrite Hst. cbn [mbind outcome_bind].
  rewrite Hr. cbn [mbind outcome_bind]. change (encryption_keys client_core) with shown_keys.
  rewrite (key_scalars_spec c) by done. rewrite args_one, !args_app.
  match goal with |- context [prove st ?sa ?pa _ _] =>
    change sa with (shown_scalars c z); assert (pa = shown_points (client_commitments c z) (z *p shown_I)) as -> end.
  { unfold shown_points, all_point_names. by rewrite !rendered_app. }
  change (core_message client_core) with message. by rewrite Hpf.
Qed.
(** For a valid credential the server's [Z] is the client's. *)
Lemma server_point_client c z :
  valid_credential key (P0 :: concat (plain_points <$> l)) c -> server_point (client_commitments c z) = z *p shown_I.
Proof. intros Hc. unfold server_point, client_commitments. cbn [C_V C_x0 C_x1 C_y]. by apply server_Z. Qed.

Lemma presented_accepted v c randomness st :
  verifier_finalize (E:=ZkError) v = Ok server_core -> (forall k, k ∈ shown_keys -> key_verified k) ->
  build (E:=ZkError) shown_equations = Ok st -> represents st shown_equations ->
  valid_credential key (P0 :: concat (plain_points <$> l)) c ->
  exists proof, present (E:=ZkError) system client_core (PublicKey_from system key) c randomness = Ok proof /\
    verify_presentation system v (CredentialKeyPair_from system key) proof = Ok tt.
Proof.
  intros Hv Hver Hst Hrep Hc.
  destruct (get_scalar_ok (E:=ZkError) (presentation_sho randomness)) as (z & sho1 & Hz & Hr1); [apply absorb_and_ratchet_ratcheted|].
  destruct (squeezed_randomness sho1 Hr1) as (r & sho2 & Hr).
  destruct (shown_given (client_commitments c z) c z (z *p shown_I)) as (Hg & Hs & Hp).
  destruct (prove_accepted st shown_equations (shown_scalars c z) (shown_points (client_commitments c z) (z *p shown_I))
    message (arr r)) as (pf & Hpf & Hvp); [|apply array_length|].
  - split; [done..|]. apply named_satisfied; [intros ????; apply render_s_inj|apply shown_names_inj|apply render_p_ok| | |].
    + intros n. by apply scalar_occurrences.
    + intros n. by apply point_occurrences.
    + by apply presentation_holds.
  - exists (mkPresentationProof (client_commitments c z) pf). split.
    + assert (run_local (E:=ZkError) (presentation_sho randomness) get_scalar = Ok (z, sho1)) as Hz' by (unfold run_local; by rewrite Hz).
      exact (present_run c z randomness sho1 r sho2 st pf Hz' Hr Hst Hpf).
    + rewrite (verify_run v st (client_commitments c z) pf Hv (client_commitments_length c z) Hst).
      by rewrite server_point_client, Hvp.
Qed.
End runs.

(** ** Acceptance *)

Section accepted.
Context {P : Primitives} {H256 : Sha256} `{L : RistrettoLaws}.

(** A verifier after its public attributes, and the point it computes from them. *)
Definition public_verifier (label message : bytes) (attrs : list (PublicAttribute (S:=ShoHmacSha256))) : PresentationProofVerifier :=
  foldl verifier_add_public_attribute (verifier_new label message) attrs.
Definition public_point (label : bytes) (attrs : list (PublicAttribute (S:=ShoHmacSha256))) : RPoint :=
  match verifier_finalize (E:=ZkError) (public_verifier label [] attrs) with
  | Ok core => default p_identity (core_points core !! 0%nat)
  | _ => p_identity
  end.

Lemma public_verifier_spec label message attrs :
  v_core (public_verifier label message attrs) = Core_new message /\ ratcheted (v_public_attrs (public_verifier label message attrs)) /\
  v_public_attrs (public_verifier label message attrs) = v_public_attrs (public_verifier label [] attrs).
Proof.
  unfold public_verifier. assert (forall v v0, ratcheted (v_public_attrs v) -> v_public_attrs v = v_public_attrs v0 ->
    v_core (foldl verifier_add_public_attribute v attrs) = v_core v /\
    ratcheted (v_public_attrs (foldl verifier_add_public_attribute v attrs)) /\
    v_public_attrs (foldl verifier_add_public_attribute v attrs) = v_public_attrs (foldl verifier_add_public_attribute v0 attrs)) as H.
  { induction attrs as [|a attrs IH]; intros v v0 Hv He; [done|]. cbn [foldl].
    apply (IH (verifier_add_public_attribute v a) (verifier_add_public_attribute v0 a)).
    - apply ratchet_ratcheted.
    - unfold verifier_add_public_attribute. cbn. by rewrite He. }
  apply H; [apply new_ratcheted|done].
Qed.

(** C3: presentations.  Let the client and the server add the same attributes [l], the
    client in plain and the server as ciphertexts under the client's key pairs or
    as revealed values, each key id with one key, each public key that of its
    scalars, at most 6 attribute points in all, and the public keys not summing to the identity (unless there are
    none).  If the client's credential satisfies the MAC equation on the hash of
    the public attributes and the plain attributes, [present] returns a proof
    which the server accepts for the same label, message and public attributes; and
    given any other proof the server returns [Ok] or [VerificationFailure],
    without panicking. *)
Theorem presentation_accepted {E} system key c l label message attrs randomness :
  l <> [] -> (S (total_length l) <= NUM_SUPPORTED_ATTRS)%nat -> consistent l ->
  (forall k, k ∈ shown_keys l -> key_verified k) ->
  (sum_terms (shown_keys l) = [] <-> sum_A (shown_keys l) = p_identity) ->
  exists b v,
    client_adds (E:=E) (PresentationProofBuilder_new label message) l = Ok b /\
    server_adds (E:=E) (public_verifier label message attrs) l = Ok v /\
    (valid_credential key (public_point label attrs :: concat (plain_points <$> l)) c ->
     exists proof, present (E:=ZkError) system b (PublicKey_from system key) c randomness = Ok proof /\
       verify_presentation system v (CredentialKeyPair_from system key) proof = Ok tt) /\
    (forall proof, verify_presentation system v (CredentialKeyPair_from system key) proof = Ok tt \/
                   verify_presentation system v (CredentialKeyPair_from system key) proof = Err ZkVerificationFailure).
Proof.
  intros Hne Hlen Hcons Hver Hsum.
  destruct (public_verifier_spec label message attrs) as (Hcore & Hrat & Hpub).
  destruct (get_point_ok (E:=ZkError) _ Hrat) as (P0 & sho0 & HP0 & _).
  assert (public_point label attrs = P0) as HP.
  { unfold public_point, verifier_finalize, run_local. rewrite <- Hpub, HP0.
    by rewrite (proj1 (public_verifier_spec label [] attrs)). }
  set (b := client_core l message).
  set (v := mkVerifier (mkCore (public_key_or_id <$> shown_keys l) (refs (shown_keys l) 1 l)
    (p_identity :: concat (server_points <$> l)) message) (v_public_attrs (public_verifier label message attrs))).
  assert (verifier_finalize (E:=ZkError) v = Ok (server_core l message P0)) as Hfin.
  { unfold verifier_finalize, run_local. cbn [v v_public_attrs v_core]. by rewrite HP0. }
  destruct (shown_given system key l P0 Hcons Hlen Hsum (mkCommitments p_identity p_identity p_identity []) c s_zero p_identity)
    as (Hgood & _ & _).
  destruct (build_spec (E:=ZkError) _ Hgood) as (st & Hst & Hrep).
  exists b, v. split_and!.
  - unfold PresentationProofBuilder_new, Core_new. by rewrite client_adds_spec.
  - destruct (public_verifier label message attrs) as [core sho]. cbn [v_core] in Hcore. subst core.
    apply (server_adds_spec l [] [] [p_identity]). done.
  - rewrite HP. intros Hc. by eapply presented_accepted.
  - intros [com pf]. destruct (decide (length (C_y com) = shown_n l)) as [Hy|Hy].
    + rewrite (verify_run system key l message P0 Hcons Hlen Hne Hsum v st com pf Hfin Hy Hst).
      destruct (shown_given system key l P0 Hcons Hlen Hsum com c s_zero (server_point key l P0 com)) as (_ & _ & Hp).
      rewrite (verify_spec st (shown_equations l)) by done. destruct (Proof_from_slice pf); [case_decide|]; auto.
    + right. unfold verify_presentation. rewrite Hfin. cbn [mbind outcome_bind commitments].
      rewrite server_core_length by done. by rewrite (proj2 (Nat.eqb_neq _ _)).
Qed.
End accepted.
