(* ===== verification/IdentityKey.v ===== *)
(** * IdentityKey: long-term identities (rust/protocol/src/identity_key.rs) *)

From S2P Require Import Prelude Types Primitives Proto Curve Crypto.
Open Scope string_scope.
Open Scope list_scope.
Open Scope Z_scope.

Definition ALTERNATE_IDENTITY_SIGNATURE_PREFIX_1 : bytes := replicate 32 Byte.xff.
Definition ALTERNATE_IDENTITY_SIGNATURE_PREFIX_2 : bytes := byte_str "Signal_PNI_Signature".

Record IdentityKey := mkIdentityKey { ik_public_key : PublicKey }.

#[export] Instance IdentityKey_eq_dec : EqDecision IdentityKey.
Proof. solve_decision. Defined.

(** The derived [PartialEq]. *)
Definition IdentityKey_eqb (a b : IdentityKey) : bool :=
  PublicKey_eqb (ik_public_key a) (ik_public_key b).

Definition IdentityKey_serialize (k : IdentityKey) : bytes := PublicKey_serialize (ik_public_key k).

Definition IdentityKey_decode (value : bytes) : Result IdentityKey :=
  pk ← map_err from_CurveError (PublicKey_deserialize value);
  Ok (mkIdentityKey pk).

Record IdentityKeyPair := mkIdentityKeyPair {
  ikp_identity_key : IdentityKey;
  ikp_private : PrivateKey
}.

Section identity.
Context {P : Primitives} `{!Prost storage.IdentityKeyPairStructure}.

Definition verify_alternate_identity (self other : IdentityKey) (signature : bytes)
  : Result bool :=
  Ok (verify_signature_for_multipart_message (ik_public_key self)
        [ALTERNATE_IDENTITY_SIGNATURE_PREFIX_1; ALTERNATE_IDENTITY_SIGNATURE_PREFIX_2;
         IdentityKey_serialize other] signature).

Definition IdentityKeyPair_public_key (k : IdentityKeyPair) : PublicKey :=
  ik_public_key (ikp_identity_key k).

Definition IdentityKeyPair_generate (csprng : Rng) : IdentityKeyPair * Rng :=
  let '(keypair, csprng) := KeyPair_generate csprng in
  (mkIdentityKeyPair (mkIdentityKey (kp_public_key keypair)) (kp_private_key keypair), csprng).

Definition IdentityKeyPair_serialize (k : IdentityKeyPair) : bytes :=
  encode_to_vec (storage.mkIdentityKeyPairStructure
                   (IdentityKey_serialize (ikp_identity_key k))
                   (PrivateKey_serialize (ikp_private k))).

Definition sign_alternate_identity (k : IdentityKeyPair) (other : IdentityKey)
  : M Rng SignalProtocolError bytes :=
  map_err_M from_CurveError
    (calculate_signature_for_multipart_message (ikp_private k)
       [ALTERNATE_IDENTITY_SIGNATURE_PREFIX_1; ALTERNATE_IDENTITY_SIGNATURE_PREFIX_2;
        IdentityKey_serialize other]).

Definition IdentityKeyPair_try_from (value : bytes) : Result IdentityKeyPair :=
  structure ← ok_or InvalidProtobufEncoding (decode_pb value);
  identity_key ← IdentityKey_decode (storage.ikp_public_key structure);
  private_key ← map_err from_CurveError
                  (PrivateKey_deserialize (storage.ikp_private_key structure));
  Ok (mkIdentityKeyPair identity_key private_key).

(** [TryFrom<PrivateKey>], [From<KeyPair>] and [Into<KeyPair>]. *)
Definition IdentityKeyPair_from_private (private_key : PrivateKey) : Result IdentityKeyPair :=
  pk ← map_err from_CurveError (PrivateKey_public_key private_key);
  Ok (mkIdentityKeyPair (mkIdentityKey pk) private_key).

Definition IdentityKeyPair_from_KeyPair (value : KeyPair) : IdentityKeyPair :=
  mkIdentityKeyPair (mkIdentityKey (kp_public_key value)) (kp_private_key value).

Definition KeyPair_from_IdentityKeyPair (value : IdentityKeyPair) : KeyPair :=
  mkKeyPair (ik_public_key (ikp_identity_key value)) (ikp_private value).
End identity.

Lemma IdentityKey_decode_serialize k : IdentityKey_decode (IdentityKey_serialize k) = Ok k.
Proof.
  destruct k as [pk]. unfold IdentityKey_decode, IdentityKey_serialize. cbn [ik_public_key].
  by rewrite PublicKey_deserialize_serialize.
Qed.

Lemma IdentityKey_eqb_true a b : IdentityKey_eqb a b = true <-> a = b.
Proof.
  unfold IdentityKey_eqb. rewrite PublicKey_eqb_true. destruct a, b; simpl.
  split; [by intros ->|by intros [= ->]].
Qed.

Lemma IdentityKey_eqb_refl a : IdentityKey_eqb a a = true.
Proof. by apply IdentityKey_eqb_true. Qed.

#[export] Hint Rewrite IdentityKey_decode_serialize IdentityKey_eqb_refl : rust.

Section identity_facts.
Context {P : Primitives} {X : X25519Laws}
  `{!Prost storage.IdentityKeyPairStructure}
  {L : ProstLaws storage.IdentityKeyPairStructure (fun _ => True)}.

(** An identity as [generate] returns it. *)
Definition generated_identity (k : IdentityKeyPair) : Prop :=
  well_formed_pair (KeyPair_from_IdentityKeyPair k).

Lemma IdentityKeyPair_generate_ok csprng :
  generated_identity (IdentityKeyPair_generate csprng).1.
Proof.
  unfold IdentityKeyPair_generate. pose proof (KeyPair_generate_well_formed csprng) as H.
  destruct (KeyPair_generate csprng) as [[pk sk] c]. done.
Qed.

(** A generated identity is read back from its serialization. *)
Lemma IdentityKeyPair_round_trip k :
  generated_identity k -> IdentityKeyPair_try_from (IdentityKeyPair_serialize k) = Ok k.
Proof.
  intros Hk. unfold IdentityKeyPair_try_from, IdentityKeyPair_serialize.
  rewrite decode_encode_pb by done. cbn [ok_or mbind outcome_bind].
  cbn [storage.ikp_public_key storage.ikp_private_key].
  rewrite IdentityKey_decode_serialize. cbn [mbind outcome_bind].
  pose proof (PrivateKey_read_back _ Hk) as Hr. cbn [kp_private_key KeyPair_from_IdentityKeyPair] in Hr.
  rewrite Hr. by destruct k.
Qed.
End identity_facts.
