(* ===== verification/SealedCert.v ===== *)
(** * SealedCert: the certificates of sealed sender
    (rust/protocol/src/sealed_sender.rs, first part)

    A sender certificate names the sender of a message and is signed by a
    server, whose own certificate is signed by a trust root.  [validate] is what a
    receiver checks.  The server certificates built into the crate can be
    referred to by their number. *)

From S2P Require Import Prelude Types Primitives Proto ServiceId Curve Crypto.
From Stdlib Require Import Ascii.
Open Scope string_scope.
Open Scope list_scope.
Open Scope Z_scope.

(** [const_str::hex!]: two hexadecimal digits per byte. *)
Definition hex_digit (c : ascii) : Z :=
  let n := Z.of_nat (nat_of_ascii c) in if n <=? 57 then n - 48 else n - 87.
Fixpoint hex (s : string) : bytes :=
  match s with
  | String a (String b s) => as_u8 (16 * hex_digit a + hex_digit b) :: hex s
  | _ => []
  end.

Record ServerCertificate := mkServerCertificate {
  svc_serialized : bytes;
  svc_key_id : Z;
  svc_key : PublicKey;
  svc_certificate : bytes;
  svc_signature : bytes
}.

Definition REVOKED_SERVER_CERTIFICATE_KEY_IDS : list Z := [0xDEADC357].

(** [(id, trust root, certificate)]; the trust roots, base64 in the source, are
    decoded. *)
Definition KNOWN_SERVER_CERTIFICATES : list (Z * bytes * bytes) := [
  (2, hex "058854ead3e3a8fe3a286644cd1b3538be14dfd5797653c9fd7d3d85ae2b12b926",
   hex "0a25080212210539450d63ebd0752c0fd4038b9d07a916f5e174b756d409b5ca79f4c97400631e124064c5a38b1e927497d3d4786b101a623ab34a7da3954fae126b04dba9d7a3604ed88cdc8550950f0d4a9134ceb7e19b94139151d2c3d6e1c81e9d1128aafca806");
  (3, hex "054918d08fbdfa83e00c29f8f8073a22ef35df2bea903aff81af03ccbc45c6e93a",
   hex "0a250803122105bc9d1d290be964810dfa7e94856480a3f7060d004c9762c24c575a1522353a5a1240c11ec3c401eb0107ab38f8600e8720a63169e0e2eb8a3fae24f63099f85ea319c3c1c46d3454706ae2a679d1fee690a488adda98a2290b66c906bb60295ed781");
  (0x7357C357, hex "052fe57da347cd62431528daac5fbb290730fff684afc4cfc2ed90995f58cb3b74",
   hex "0a2908d786df9a07122105847c0d2c375234f365e660955187a3735a0f7613d1609d3a6a4d8c53aeaa5a221240e0b9ebacdfc3aa2827f7924b697784d1c25e44ca05dd433e1a38dc6382eb2730d419ca9a250b1be9d5a9463e61efd6781777a91b83c97b844d014206e2829785")].

Inductive SenderCertificateSigner :=
| Embedded (cert : ServerCertificate)
| Reference (id : Z).

Record SenderCertificate := mkSenderCertificate {
  sdc_signer : SenderCertificateSigner;
  sdc_key : PublicKey;
  sdc_sender_device_id : DeviceId;
  sdc_sender_uuid : string;
  sdc_sender_e164 : option string;
  sdc_expiration : Timestamp;
  sdc_serialized : bytes;
  sdc_certificate : bytes;
  sdc_signature : bytes
}.

Section certificates.
Context {P : Primitives} {U : UuidFmt}.
Context `{!Prost sealed_sender.ServerCertificate, !Prost sealed_sender.ServerCertificateData}.
Context `{!Prost sealed_sender.SenderCertificate, !Prost sealed_sender.SenderCertificateData}.

(** A field that must be there. *)
Definition present {A} (o : option A) : Result A := ok_or InvalidProtobufEncoding o.

Definition decode_key (b : bytes) : Result PublicKey := map_err from_CurveError (PublicKey_deserialize b).

Definition ServerCertificate_deserialize (data : bytes) : Result ServerCertificate :=
  pb ← present (decode_pb data);
  certificate ← present (sealed_sender.svc_certificate pb);
  signature ← present (sealed_sender.svc_signature pb);
  certificate_data ← present (decode_pb certificate);
  key ← present (sealed_sender.scd_key certificate_data);
  key ← decode_key key;
  key_id ← present (sealed_sender.scd_id certificate_data);
  Ok (mkServerCertificate data key_id key certificate signature).

Definition ServerCertificate_new (key_id : Z) (key : PublicKey) (trust_root : PrivateKey)
  : M Rng SignalProtocolError ServerCertificate :=
  let certificate := encode_to_vec
    (sealed_sender.mkServerCertificateData (Some key_id) (Some (PublicKey_serialize key))) in
  signature ← map_err_M from_CurveError (calculate_signature trust_root certificate);
  let serialized := encode_to_vec
    (sealed_sender.mkServerCertificate (Some certificate) (Some signature)) in
  mret (mkServerCertificate serialized key_id key certificate signature).

Definition ServerCertificate_validate (c : ServerCertificate) (trust_root : PublicKey) : Result bool :=
  if bool_decide (svc_key_id c ∈ REVOKED_SERVER_CERTIFICATE_KEY_IDS) then Ok false
  else Ok (verify_signature trust_root (svc_certificate c) (svc_signature c)).

Definition decode_signer (s : sealed_sender.Signer) : Result SenderCertificateSigner :=
  match s with
  | sealed_sender.SignerCertificate encoded => c ← ServerCertificate_deserialize encoded; Ok (Embedded c)
  | sealed_sender.SignerId id => Ok (Reference id)
  end.

Definition decode_sender_uuid (u : sealed_sender.SenderUuid) : Result string :=
  match u with
  | sealed_sender.UuidString s => Ok s
  | sealed_sender.UuidBytes raw => uuid ← present (try_array 16 raw); Ok (uuid_to_string uuid)
  end.

Definition SenderCertificate_deserialize (data : bytes) : Result SenderCertificate :=
  pb ← present (decode_pb data);
  certificate ← present (sealed_sender.sdc_certificate pb);
  signature ← present (sealed_sender.sdc_signature pb);
  certificate_data ← present (decode_pb certificate);
  device ← present (sealed_sender.sdd_sender_device certificate_data);
  sender_device_id ← map_err (fun _ => InvalidProtobufEncoding) (DeviceId_try_from_int device);
  expiration ← present (sealed_sender.sdd_expires certificate_data);
  signer ← present (sealed_sender.sdd_signer certificate_data);
  signer ← decode_signer signer;
  sender_uuid ← present (sealed_sender.sdd_sender_uuid certificate_data);
  sender_uuid ← decode_sender_uuid sender_uuid;
  key ← present (sealed_sender.sdd_identity_key certificate_data);
  key ← decode_key key;
  Ok (mkSenderCertificate signer key sender_device_id sender_uuid
        (sealed_sender.sdd_sender_e164 certificate_data) expiration data certificate signature).

Definition SenderCertificate_new (sender_uuid : string) (sender_e164 : option string) (key : PublicKey)
    (sender_device_id : DeviceId) (expiration : Timestamp) (signer : ServerCertificate)
    (signer_key : PrivateKey) : M Rng SignalProtocolError SenderCertificate :=
  let certificate := encode_to_vec (sealed_sender.mkSenderCertificateData sender_e164
    (Some (sealed_sender.UuidString sender_uuid)) (Some (DeviceId_to_u32 sender_device_id))
    (Some expiration) (Some (PublicKey_serialize key))
    (Some (sealed_sender.SignerCertificate (svc_serialized signer)))) in
  signature ← map_err_M from_CurveError (calculate_signature signer_key certificate);
  let serialized := encode_to_vec
    (sealed_sender.mkSenderCertificate (Some certificate) (Some signature)) in
  mret (mkSenderCertificate (Embedded signer) key sender_device_id sender_uuid sender_e164 expiration
          serialized certificate signature).

(** [CERT_MAP], built on first use. *)
Definition cert_map : Result (gmap Z (PublicKey * ServerCertificate)) :=
  entries ← mapM (fun '(id, trust_root, cert) =>
      root ← expect_ok (PublicKey_deserialize trust_root);
      cert ← expect_ok (ServerCertificate_deserialize cert);
      Ok (id, (root, cert))) KNOWN_SERVER_CERTIFICATES;
  Ok (foldl (fun m '(id, v) => <[id := v]> m) ∅ entries).

Definition sender_signer (c : SenderCertificate) : Result ServerCertificate :=
  match sdc_signer c with
  | Embedded cert => Ok cert
  | Reference id =>
      m ← cert_map;
      match m !! id with
      | Some (_, cert) => Ok cert
      | None => Err (UnknownSealedSenderServerCertificateId id)
      end
  end.

(** The loop over the trust roots: all of them are tried. *)
Fixpoint any_root_valid (signer : ServerCertificate) (trust_roots : list PublicKey) (any_valid : bool)
  : Result bool :=
  match trust_roots with
  | [] => Ok any_valid
  | root :: trust_roots =>
      ok ← ServerCertificate_validate signer root;
      any_root_valid signer trust_roots (any_valid || ok)
  end.

Definition validate_with_trust_roots (c : SenderCertificate) (trust_roots : list PublicKey)
    (validation_time : Timestamp) : Result bool :=
  signer ← sender_signer c;
  any_valid ← any_root_valid signer trust_roots false;
  if negb any_valid then Ok false
  else if negb (verify_signature (svc_key signer) (sdc_certificate c) (sdc_signature c)) then Ok false
  else if sdc_expiration c <? validation_time then Ok false
  else Ok true.

Definition SenderCertificate_validate (c : SenderCertificate) (trust_root : PublicKey)
    (validation_time : Timestamp) : Result bool :=
  validate_with_trust_roots c [trust_root] validation_time.
End certificates.

(** ** What validation means *)

Section validation.
Context {P : Primitives} `{!Prost sealed_sender.ServerCertificate, !Prost sealed_sender.ServerCertificateData}.
Implicit Types (c : SenderCertificate) (signer : ServerCertificate) (roots : list PublicKey).

(** A server certificate that a trust root vouches for. *)
Definition vouched (signer : ServerCertificate) (roots : list PublicKey) : Prop :=
  svc_key_id signer ∉ REVOKED_SERVER_CERTIFICATE_KEY_IDS /\
  exists root, root ∈ roots /\ verify_signature root (svc_certificate signer) (svc_signature signer) = true.

Lemma ServerCertificate_validate_Ok signer root :
  ServerCertificate_validate signer root =
    Ok (negb (bool_decide (svc_key_id signer ∈ REVOKED_SERVER_CERTIFICATE_KEY_IDS)) &&
        verify_signature root (svc_certificate signer) (svc_signature signer)).
Proof. unfold ServerCertificate_validate. by case_bool_decide. Qed.

Lemma any_root_valid_spec signer roots : forall b,
  exists r, any_root_valid signer roots b = Ok r /\ (r = true <-> b = true \/ vouched signer roots).
Proof.
  unfold vouched. induction roots as [|root roots IH]; intros b; cbn [any_root_valid].
  { exists b. split; [done|]. split; [by left|]. intros [|(_ & ? & H%elem_of_nil & _)]; done. }
  rewrite ServerCertificate_validate_Ok. cbn [mbind outcome_bind].
  destruct (IH (b || (negb (bool_decide (svc_key_id signer ∈ REVOKED_SERVER_CERTIFICATE_KEY_IDS)) &&
    verify_signature root (svc_certificate signer) (svc_signature signer)))) as (r & -> & Hr).
  exists r. split; [done|]. rewrite Hr, orb_true_iff, andb_true_iff, negb_true_iff, bool_decide_eq_false.
  setoid_rewrite elem_of_cons. naive_solver.
Qed.

Lemma mapM_no_Err {E A B} (f : A -> outcome E B) l e :
  (forall a e, f a <> Err e) -> mapM f l <> Err e.
Proof.
  intros Hf. induction l as [|a l IH]; cbn; [done|].
  destruct (f a) as [b|e'|] eqn:Ha; cbn; [|by apply Hf in Ha|done]. by destruct (mapM f l).
Qed.

Lemma cert_map_no_Err e : cert_map <> Err e.
Proof.
  unfold cert_map. intros [Hm|(l & _ & Hm)]%bind_Err; [|done]. revert Hm. apply mapM_no_Err.
  intros [[id root] cert] e'. destruct (PublicKey_deserialize root); cbn; [|done|done].
  by destruct (ServerCertificate_deserialize cert).
Qed.

(** A sender certificate is valid exactly when its server certificate is
    known, is not revoked and is signed by one of the trust roots, the server's
    key signed the sender's certificate, and it has not expired; validation
    fails with an error only for an unknown server certificate number. *)
Theorem validate_with_trust_roots_spec c roots now :
  match sender_signer c with
  | Ok signer =>
      exists valid, validate_with_trust_roots c roots now = Ok valid /\
        (valid = true <-> vouched signer roots /\
           verify_signature (svc_key signer) (sdc_certificate c) (sdc_signature c) = true /\
           now <= sdc_expiration c)
  | Err e => validate_with_trust_roots c roots now = Err e /\
             exists id, sdc_signer c = Reference id /\ e = UnknownSealedSenderServerCertificateId id
  | Panic => validate_with_trust_roots c roots now = Panic
  end.
Proof.
  unfold validate_with_trust_roots. destruct (sender_signer c) as [signer|e|] eqn:Hs; cbn [mbind outcome_bind].
  - destruct (any_root_valid_spec signer roots false) as (v & -> & Hv). cbn [mbind outcome_bind].
    destruct v; cbn [negb]; [|exists false; naive_solver].
    destruct (verify_signature _ _ _); cbn [negb]; [|exists false; naive_solver].
    destruct (Z.ltb_spec (sdc_expiration c) now); [exists false|exists true]; split; try done; naive_solver lia.
  - split; [done|]. revert Hs. unfold sender_signer.
    destruct (sdc_signer c) as [|id]; [done|]. destruct cert_map as [m|e'|] eqn:Hm; cbn; [|exfalso|done].
    + destruct (m !! id) as [[]|]; [done|]. intros [= <-]. eauto.
    + by apply cert_map_no_Err in Hm.
  - done.
Qed.
End validation.

(** ** Certificates that are made here are accepted *)

Section issue.
Context {P : Primitives} {U : UuidFmt} {X : X25519Laws} {Ed : EdwardsLaws}.
Context `{!Prost sealed_sender.ServerCertificate, !Prost sealed_sender.ServerCertificateData}.
Context `{!Prost sealed_sender.SenderCertificate, !Prost sealed_sender.SenderCertificateData}.
Context `{!ProstLaws sealed_sender.ServerCertificate (fun _ => True)}.
Context `{!ProstLaws sealed_sender.ServerCertificateData sealed_sender.ServerCertificateData_wf}.
Context `{!ProstLaws sealed_sender.SenderCertificate (fun _ => True)}.
Context `{!ProstLaws sealed_sender.SenderCertificateData sealed_sender.SenderCertificateData_wf}.

Lemma decode_key_serialize k : decode_key (PublicKey_serialize k) = Ok k.
Proof. unfold decode_key. by rewrite PublicKey_deserialize_serialize. Qed.

Lemma calculate_signature_ok kp msg rng :
  well_formed_pair kp ->
  exists sig rng', map_err_M from_CurveError (calculate_signature (kp_private_key kp) msg) rng = (Ok sig, rng') /\
    verify_signature (kp_public_key kp) msg sig = true.
Proof.
  intros Hwf. destruct (calculate_signature_verifies kp rng [msg] [msg] Hwf eq_refl) as (sig & rng' & Hs & Hv & _).
  exists sig, rng'. split; [|done]. unfold map_err_M, calculate_signature. by rewrite Hs.
Qed.

Lemma ServerCertificate_new_ok id key root rng :
  is_u32 id -> well_formed_pair root ->
  exists c rng', ServerCertificate_new id key (kp_private_key root) rng = (Ok c, rng') /\
    svc_key_id c = id /\ svc_key c = key /\ ServerCertificate_deserialize (svc_serialized c) = Ok c /\
    verify_signature (kp_public_key root) (svc_certificate c) (svc_signature c) = true.
Proof.
  intros Hid Hwf. unfold ServerCertificate_new.
  set (cert := encode_to_vec (sealed_sender.mkServerCertificateData _ _)).
  destruct (calculate_signature_ok root cert rng Hwf) as (sig & rng' & Hs & Hv).
  rewrite M_bind_eq, Hs. do 2 eexists. split; [done|]. cbn. split_and!; [done|done| |done].
  unfold ServerCertificate_deserialize. rewrite decode_encode_pb by done. cbn.
  unfold cert. rewrite decode_encode_pb by done. cbn. by rewrite decode_key_serialize.
Qed.

Lemma SenderCertificate_new_ok uuid e164 key device expiration signer signer_key rng :
  is_u64 expiration -> 1 <= device_id_value device <= 127 ->
  ServerCertificate_deserialize (svc_serialized signer) = Ok signer -> well_formed_pair signer_key ->
  exists c rng', SenderCertificate_new uuid e164 key device expiration signer (kp_private_key signer_key) rng
      = (Ok c, rng') /\
    sender_signer c = Ok signer /\ sdc_key c = key /\ sdc_sender_uuid c = uuid /\
    sdc_sender_e164 c = e164 /\ sdc_sender_device_id c = device /\ sdc_expiration c = expiration /\
    SenderCertificate_deserialize (sdc_serialized c) = Ok c /\
    verify_signature (kp_public_key signer_key) (sdc_certificate c) (sdc_signature c) = true.
Proof.
  intros He Hd Hsigner Hwf. unfold SenderCertificate_new.
  set (cert := encode_to_vec (sealed_sender.mkSenderCertificateData _ _ _ _ _ _)).
  destruct (calculate_signature_ok signer_key cert rng Hwf) as (sig & rng' & Hs & Hv).
  rewrite M_bind_eq, Hs. do 2 eexists. split; [done|]. cbn. split_and!; try done.
  unfold SenderCertificate_deserialize. rewrite decode_encode_pb by done. cbn.
  unfold cert. rewrite decode_encode_pb.
  2: { split_and!; cbn; [|done|done]. unfold is_u32, u32_max, DeviceId_to_u32. lia. }
  cbn. rewrite DeviceId_try_from_int_spec. unfold DeviceId_to_u32.
  destruct (Z.leb_spec 1 (device_id_value device)); [|lia].
  destruct (Z.leb_spec (device_id_value device) 127); [|lia]. cbn.
  rewrite Hsigner. cbn. rewrite decode_key_serialize. by destruct device.
Qed.

(** The chain of certificates works: a server certificate issued under a
    trust root and a sender certificate issued under it are decoded as they
    were made, and the sender certificate is valid under the trust root until it
    expires, unless the server certificate's number is revoked. *)
Theorem issued_certificates_validate id uuid e164 key device expiration root server rng now :
  is_u32 id -> is_u64 expiration -> 1 <= device_id_value device <= 127 ->
  well_formed_pair root -> well_formed_pair server ->
  exists signer rng1 c rng2,
    ServerCertificate_new id (kp_public_key server) (kp_private_key root) rng = (Ok signer, rng1) /\
    SenderCertificate_new uuid e164 key device expiration signer (kp_private_key server) rng1 = (Ok c, rng2) /\
    ServerCertificate_deserialize (svc_serialized signer) = Ok signer /\
    SenderCertificate_deserialize (sdc_serialized c) = Ok c /\
    SenderCertificate_validate c (kp_public_key root) now =
      Ok (negb (bool_decide (id ∈ REVOKED_SERVER_CERTIFICATE_KEY_IDS)) && (now <=? expiration)).
Proof.
  intros Hid He Hd Hroot Hserver.
  destruct (ServerCertificate_new_ok id (kp_public_key server) root rng Hid Hroot)
    as (signer & rng1 & Hnew & <- & Hkey & Hdec & Hsig).
  destruct (SenderCertificate_new_ok uuid e164 key device expiration signer server rng1 He Hd Hdec Hserver)
    as (c & rng2 & Hc & Hsg & _ & _ & _ & _ & <- & Hcd & Hcs).
  exists signer, rng1, c, rng2. split_and!; try done.
  unfold SenderCertificate_validate, validate_with_trust_roots. rewrite Hsg. cbn [mbind outcome_bind any_root_valid].
  rewrite ServerCertificate_validate_Ok, Hsig. cbn [mbind outcome_bind].
  rewrite andb_true_r, orb_false_l. case_bool_decide; cbn [negb]; [done|].
  rewrite Hkey, Hcs. cbn [negb]. rewrite Z.ltb_antisym. by destruct (now <=? sdc_expiration c).
Qed.
End issue.
