(* ===== verification/SealedMessage.v ===== *)
(** * SealedMessage: the content of a sealed sender message and its wire forms
    (rust/protocol/src/sealed_sender.rs, second part)

    [UnidentifiedSenderMessageContent] is what is encrypted: the inner message,
    its type and the sender's certificate.  [UnidentifiedSenderMessage] is what is
    received, in one of two versions. *)

From S2P Require Import Prelude Types Primitives Proto ServiceId Curve Crypto SealedCert.
Open Scope string_scope.
Open Scope list_scope.
Open Scope Z_scope.

Import sealed_sender (MessageType, MessageType_value, MessageType_try_from, PrekeyMessage, Message_, SenderkeyMessage, PlaintextContent_, ProtoResendable, ProtoImplicit, ProtoContentHint_value, ProtoContentHint_try_from).

(** [From<ProtoMessageType> for CiphertextMessageType] and back; the
    assertions tie the discriminants together. *)
Definition CiphertextMessageType_from {E} (t : MessageType) : outcome E CiphertextMessageType :=
  let result := match t with
                | Message_ => Whisper
                | PrekeyMessage => PreKey
                | SenderkeyMessage => SenderKey
                | PlaintextContent_ => Plaintext
                end in
  if bool_decide (result = PreKey) || (MessageType_value t =? CiphertextMessageType_value result)
  then Ok result else Panic.

Definition ProtoMessageType_from {E} (t : CiphertextMessageType) : outcome E MessageType :=
  let result := match t with
                | PreKey => PrekeyMessage
                | Whisper => Message_
                | SenderKey => SenderkeyMessage
                | Plaintext => PlaintextContent_
                end in
  if match result with PrekeyMessage => true | _ => false end
     || (CiphertextMessageType_value t =? MessageType_value result)
  then Ok result else Panic.

Inductive ContentHint := HintDefault | Resendable | Implicit_ | HintUnknown (value : Z).
#[export] Instance ContentHint_eq_dec : EqDecision ContentHint.
Proof. solve_decision. Defined.

Definition ContentHint_to_u32 (h : ContentHint) : Z :=
  match h with
  | HintDefault => 0
  | Resendable => ProtoContentHint_value ProtoResendable
  | Implicit_ => ProtoContentHint_value ProtoImplicit
  | HintUnknown value => value
  end.

Definition ContentHint_to_proto (h : ContentHint) : option Z :=
  if bool_decide (h = HintDefault) then None else Some (as_i32 (ContentHint_to_u32 h)).

(** [From<u32> for ContentHint]; [ProtoContentHint::is_valid(0)] is false. *)
Definition ContentHint_from (raw_value : Z) : ContentHint :=
  match ProtoContentHint_try_from (as_i32 raw_value) with
  | None => if raw_value =? 0 then HintDefault else HintUnknown raw_value
  | Some ProtoResendable => Resendable
  | Some ProtoImplicit => Implicit_
  end.

Record UnidentifiedSenderMessageContent := mkUSMC {
  usmc_serialized : bytes;
  usmc_contents : bytes;
  usmc_sender : SenderCertificate;
  usmc_msg_type : CiphertextMessageType;
  usmc_content_hint : ContentHint;
  usmc_group_id : option bytes
}.

Section content.
Context {P : Primitives} {U : UuidFmt}.
Context `{!Prost sealed_sender.ServerCertificate, !Prost sealed_sender.ServerCertificateData}.
Context `{!Prost sealed_sender.SenderCertificate, !Prost sealed_sender.SenderCertificateData}.
Context `{!Prost sealed_sender.Message, !Prost sealed_sender.UnidentifiedSenderMessage}.

Definition USMC_deserialize (data : bytes) : Result UnidentifiedSenderMessageContent :=
  pb ← present (decode_pb data);
  t ← present (sealed_sender.usm_type pb ≫= MessageType_try_from);
  msg_type ← CiphertextMessageType_from t;
  sender ← present (sealed_sender.usm_sender_certificate pb);
  contents ← present (sealed_sender.usm_content pb);
  let content_hint := match sealed_sender.usm_content_hint pb with
                      | Some raw => ContentHint_from (as_u32 raw)
                      | None => HintDefault
                      end in
  sender ← SenderCertificate_deserialize sender;
  Ok (mkUSMC data contents sender msg_type content_hint (sealed_sender.usm_group_id pb)).

Definition USMC_new (msg_type : CiphertextMessageType) (sender : SenderCertificate) (contents : bytes)
    (content_hint : ContentHint) (group_id : option bytes) : Result UnidentifiedSenderMessageContent :=
  proto_msg_type ← ProtoMessageType_from msg_type;
  let msg := sealed_sender.mkMessage (Some (MessageType_value proto_msg_type))
    (Some (sdc_serialized sender)) (Some contents) (ContentHint_to_proto content_hint)
    (buf ← group_id; if (length buf =? 0)%nat then None else Some buf) in
  Ok (mkUSMC (encode_to_vec msg) contents sender msg_type content_hint group_id).

(** ** The two wire forms *)

Definition MESSAGE_KEY_LEN : nat := 32.
Definition CIPHER_KEY_LEN : nat := 32.
Definition AUTH_TAG_LEN : nat := 16.
Definition SSV2_PUBLIC_KEY_LEN : nat := 32.

Inductive UnidentifiedSenderMessage :=
| V1 (ephemeral_public : PublicKey) (encrypted_static encrypted_message : bytes)
| V2 (ephemeral_public : PublicKey) (encrypted_message_key : array 32)
     (authentication_tag : array 16) (encrypted_message : bytes).

Definition SEALED_SENDER_V1_MAJOR_VERSION : Z := 1.
Definition SEALED_SENDER_V1_FULL_VERSION : byte := Byte.x11.
Definition SEALED_SENDER_V2_MAJOR_VERSION : Z := 2.
Definition SEALED_SENDER_V2_UUID_FULL_VERSION : byte := Byte.x22.
Definition SEALED_SENDER_V2_SERVICE_ID_FULL_VERSION : byte := Byte.x23.

Definition UnidentifiedSenderMessage_deserialize (data : bytes) : Result UnidentifiedSenderMessage :=
  match data with
  | [] => Err (InvalidSealedSenderMessage "Message was empty")
  | version_byte :: remaining =>
      let version := Z.shiftr (u8 version_byte) 4 in
      if (version =? 0) || (version =? SEALED_SENDER_V1_MAJOR_VERSION) then
        pb ← present (decode_pb remaining);
        ephemeral_public ← present (sealed_sender.usm_ephemeral_public pb);
        encrypted_static ← present (sealed_sender.usm_encrypted_static pb);
        encrypted_message ← present (sealed_sender.usm_encrypted_message pb);
        ephemeral_public ← decode_key ephemeral_public;
        Ok (V1 ephemeral_public encrypted_static encrypted_message)
      else if version =? SEALED_SENDER_V2_MAJOR_VERSION then
        if (length remaining <? MESSAGE_KEY_LEN + AUTH_TAG_LEN + SSV2_PUBLIC_KEY_LEN)%nat
        then Err InvalidProtobufEncoding
        else
          let encrypted_message_key := to_array 32 (slice 0 32 remaining) in
          let encrypted_authentication_tag := to_array 16 (slice 32 48 remaining) in
          ephemeral_public ← map_err from_CurveError (from_djb_public_key_bytes (slice 48 80 remaining));
          Ok (V2 ephemeral_public encrypted_message_key encrypted_authentication_tag (drop 80 remaining))
      else Err (UnknownSealedSenderVersion version)
  end.
End content.

(** ** Round trip of the content *)

Lemma CiphertextMessageType_round_trip {E F} t :
  exists p, @ProtoMessageType_from E t = Ok p /\ @CiphertextMessageType_from F p = Ok t /\
            MessageType_try_from (MessageType_value p) = Some p.
Proof. destruct t; by eexists. Qed.

Lemma as_i32_range x : sealed_sender.is_i32 (as_i32 x).
Proof.
  unfold sealed_sender.is_i32, as_i32. pose proof (Z.mod_pos_bound x (2 ^ 32) ltac:(lia)).
  destruct (Z.ltb_spec (x mod 2 ^ 32) (2 ^ 31)); lia.
Qed.

Definition ContentHint_wf (h : ContentHint) : Prop :=
  match h with HintUnknown v => is_u32 v | _ => True end.

(** The hint and group id that a receiver sees: an unknown hint with a known
    number is that known hint, and an empty group id is absent. *)
Definition received_hint (h : ContentHint) : ContentHint := ContentHint_from (ContentHint_to_u32 h).
Definition received_group_id (g : option bytes) : option bytes :=
  buf ← g; if (length buf =? 0)%nat then None else Some buf.

Lemma ContentHint_round_trip h :
  ContentHint_wf h ->
  match ContentHint_to_proto h with
  | Some raw => ContentHint_from (as_u32 raw)
  | None => HintDefault
  end = received_hint h.
Proof.
  unfold ContentHint_to_proto, received_hint. intros Hwf.
  case_bool_decide as Hh; [by subst h|]. rewrite as_u32_as_i32; [done|].
  destruct h; [done|by vm_compute|by vm_compute|exact Hwf].
Qed.

Section content_round_trip.
Context {P : Primitives} {U : UuidFmt}.
Context `{!Prost sealed_sender.ServerCertificate, !Prost sealed_sender.ServerCertificateData}.
Context `{!Prost sealed_sender.SenderCertificate, !Prost sealed_sender.SenderCertificateData}.
Context `{!Prost sealed_sender.Message} `{!ProstLaws sealed_sender.Message sealed_sender.Message_wf}.

Definition received (u : UnidentifiedSenderMessageContent) : UnidentifiedSenderMessageContent :=
  mkUSMC (usmc_serialized u) (usmc_contents u) (usmc_sender u) (usmc_msg_type u)
    (received_hint (usmc_content_hint u)) (received_group_id (usmc_group_id u)).

Lemma USMC_new_ok t sender contents h g :
  exists u, USMC_new t sender contents h g = Ok u /\ usmc_sender u = sender /\ usmc_contents u = contents /\
    usmc_msg_type u = t /\ usmc_content_hint u = h /\ usmc_group_id u = g.
Proof.
  unfold USMC_new. destruct (@CiphertextMessageType_round_trip SignalProtocolError SignalProtocolError t)
    as (p & -> & _). by eexists.
Qed.

Lemma USMC_deserialize_new t sender contents h g u :
  SenderCertificate_deserialize (sdc_serialized sender) = Ok sender -> ContentHint_wf h ->
  USMC_new t sender contents h g = Ok u -> USMC_deserialize (usmc_serialized u) = Ok (received u).
Proof.
  intros Hs Hh. unfold USMC_new.
  destruct (@CiphertextMessageType_round_trip SignalProtocolError SignalProtocolError t) as (p & -> & Hp & Ht).
  cbn [mbind outcome_bind]. intros [= <-]. unfold USMC_deserialize. cbn [usmc_serialized].
  rewrite decode_encode_pb.
  2: { split; cbn; [by destruct p; vm_compute|]. unfold ContentHint_to_proto.
       case_bool_decide; [done|]. apply as_i32_range. }
  cbn -[ContentHint_from]. rewrite Ht. cbn -[ContentHint_from]. rewrite Hp. cbn -[ContentHint_from].
  rewrite Hs. cbn -[ContentHint_from]. by rewrite ContentHint_round_trip.
Qed.
End content_round_trip.
