(* ===== verification/IncrementalMac.v ===== *)
(** * IncrementalMac: MACs of the prefixes of a stream
    (rust/protocol/src/incremental_mac.rs)

    [Incremental] emits a MAC of everything read so far after each whole chunk;
    [Validating] compares them with a list that was computed before.  The
    theorems show that neither depends on how the stream is cut into pieces:
    the MACs emitted are those of the specification [chunk_macs], and a
    validation succeeds exactly when the expected list is that of the data
    read, the final MAC included.  Lengths ([usize]) are [nat]: they are
    lengths of slices in memory.  The iterator that [update] returns is lazy;
    the model is of a caller that consumes it, as [Validating] does. *)

From S2P Require Import Prelude.
Open Scope list_scope.
Open Scope Z_scope.

(** The [Mac] of the digest crate: a state that absorbs bytes. *)
Class MacOps := {
  MacState : Type;
  mac_update : MacState -> bytes -> MacState;
  mac_finalize : MacState -> bytes
}.
Class MacLaws `{MacOps} := {
  mac_update_nil : forall m, mac_update m [] = m;
  mac_update_app : forall m a b, mac_update (mac_update m a) b = mac_update m (a ++ b)
}.

(** ** The size of the chunks *)

Definition MINIMUM_CHUNK_SIZE : Z := 64 * 1024.
Definition MAXIMUM_CHUNK_SIZE : Z := 2 * 1024 * 1024.
Definition TARGET_TOTAL_DIGEST_SIZE : Z := 8 * 1024.

(** [usize::div_ceil]. *)
Definition div_ceil (a b : Z) : Z := if a mod b =? 0 then a / b else a / b + 1.

Definition calculate_chunk_size {E} (output_size data_size : Z) : outcome E Z :=
  if negb (0 =? TARGET_TOTAL_DIGEST_SIZE mod output_size) then Panic
  else
    let target_chunk_count := TARGET_TOTAL_DIGEST_SIZE / output_size in
    if data_size <? target_chunk_count * MINIMUM_CHUNK_SIZE then Ok MINIMUM_CHUNK_SIZE
    else if data_size <? target_chunk_count * MAXIMUM_CHUNK_SIZE
    then Ok (div_ceil data_size target_chunk_count)
    else Ok MAXIMUM_CHUNK_SIZE.

(** ** The state machines *)

(** [sha2::digest::MacError]. *)
Inductive MacError := MkMacError.

Section incremental.
Context `{MacOps}.

Record Incremental := mkIncremental { mac : MacState; chunk_size : nat; unused_length : nat }.
(** [expected] is in reversed order. *)
Record Validating := mkValidating { incremental : Incremental; expected : list bytes }.

Definition Incremental_new {E} (m : MacState) (chunk_size : nat) : outcome E Incremental :=
  if (0 <? chunk_size)%nat then Ok (mkIncremental m chunk_size chunk_size) else Panic.

Definition validating (macs : list bytes) (i : Incremental) : Validating :=
  mkValidating i (reverse macs).

Definition update_chunk (b : bytes) : M Incremental MacError (option bytes) :=
  unused ← gets unused_length;
  _ ← assert_M (length b <=? unused)%nat;
  _ ← modify (fun i => mkIncremental (mac_update (mac i) b) (chunk_size i)
                         (unused_length i - length b));
  unused ← gets unused_length;
  if (unused =? 0)%nat then
    _ ← modify (fun i => mkIncremental (mac i) (chunk_size i) (chunk_size i));
    m ← gets mac;
    mret (Some (mac_finalize m))
  else mret None.

(** [flat_map] over the chunks. *)
Fixpoint update_chunks (cs : list bytes) : M Incremental MacError (list bytes) :=
  match cs with
  | [] => mret []
  | c :: cs =>
      m ← update_chunk c;
      ms ← update_chunks cs;
      mret (option_list m ++ ms)
  end.

Definition Incremental_update (b : bytes) : M Incremental MacError (list bytes) :=
  unused ← gets unused_length;
  n ← gets chunk_size;
  let split_point := Nat.min (length b) unused in
  update_chunks (take split_point b :: chunks n (drop split_point b)).

Definition Incremental_finalize (i : Incremental) : bytes := mac_finalize (mac i).

Definition pending_bytes_size (i : Incremental) : nat := (chunk_size i - unused_length i)%nat.

(** The loop of [Validating::update]: whole chunks, no mismatch so far, and
    what is left of the expected MACs. *)
Fixpoint check_macs (macs : list bytes) (whole_chunks : nat) (ok : bool) (expected : list bytes)
  : nat * bool * list bytes :=
  match macs with
  | [] => (whole_chunks, ok, expected)
  | m :: macs =>
      match last expected with
      | Some e => if bool_decide (e = m) then check_macs macs (S whole_chunks) ok (vec_pop expected)
                  else check_macs macs whole_chunks false expected
      | None => check_macs macs whole_chunks false expected
      end
  end.

Definition Validating_update (b : bytes) : M Validating MacError nat :=
  macs ← zoom incremental (fun i v => mkValidating i (expected v)) (Incremental_update b);
  v ← get;
  let '(whole_chunks, ok, expected) := check_macs macs 0 true (expected v) in
  _ ← put (mkValidating (incremental v) expected);
  if (ok : bool) then mret (whole_chunks * chunk_size (incremental v))%nat else throw MkMacError.

Definition Validating_finalize (v : Validating) : outcome MacError nat :=
  let pending := pending_bytes_size (incremental v) in
  let m := Incremental_finalize (incremental v) in
  match expected v with
  | [e] => if bool_decide (e = m) then Ok pending else Err MkMacError
  | _ => Err MkMacError
  end.
End incremental.

Open Scope nat_scope.

(** ** The specification *)

Section incremental_spec.
Context `{MacLaws} (m0 : MacState) (n : nat).

(** The MAC of the first [k] chunks of [d], and all those of whole chunks. *)
Definition prefix_mac (d : bytes) (k : nat) : bytes := mac_finalize (mac_update m0 (take (k * n) d)).
Definition chunk_macs (d : bytes) : list bytes := prefix_mac d <$> seq 1 (length d / n).
Definition whole_mac (d : bytes) : bytes := mac_finalize (mac_update m0 d).

(** The MACs of the chunks that [b] completes after [d]. *)
Definition completed (d b : bytes) : list bytes :=
  prefix_mac (d ++ b) <$> seq (S (length d / n)) (length (d ++ b) / n - length d / n).

(** [i] has read [d]. *)
Definition has_read (i : Incremental) (d : bytes) : Prop :=
  mac i = mac_update m0 d /\ chunk_size i = n /\ unused_length i = (n - length d mod n)%nat.

Context (n_pos : (0 < n)%nat).

Lemma div_length_app (d b : bytes) : (length d / n <= length (d ++ b) / n)%nat.
Proof. apply Nat.Div0.div_le_mono. rewrite length_app. lia. Qed.

Lemma prefix_mac_app d b k : (k <= length d / n)%nat -> prefix_mac (d ++ b) k = prefix_mac d k.
Proof.
  intros Hk. unfold prefix_mac. rewrite take_app_le; [done|].
  pose proof (Nat.Div0.mul_div_le (length d) n). nia.
Qed.

Lemma completed_app d b1 b2 : completed d (b1 ++ b2) = completed d b1 ++ completed (d ++ b1) b2.
Proof.
  unfold completed. pose proof (div_length_app d b1). pose proof (div_length_app (d ++ b1) b2).
  rewrite app_assoc in *.
  replace (length ((d ++ b1) ++ b2) / n - length d / n)%nat
    with ((length (d ++ b1) / n - length d / n) + (length ((d ++ b1) ++ b2) / n - length (d ++ b1) / n))%nat
    by lia.
  rewrite seq_app, fmap_app. f_equal.
  - apply list_fmap_ext. intros i k Hk. apply prefix_mac_app.
    apply lookup_seq in Hk as [-> Hk]. lia.
  - do 2 f_equal. lia.
Qed.

Lemma chunk_macs_completed d : chunk_macs d = completed [] d.
Proof. unfold chunk_macs, completed. cbn [length app]. by rewrite Nat.Div0.div_0_l, Nat.sub_0_r. Qed.

Lemma chunk_macs_app d b : chunk_macs (d ++ b) = chunk_macs d ++ completed d b.
Proof. by rewrite !chunk_macs_completed, completed_app. Qed.

(** A piece that ends before, or at, the next boundary. *)
Lemma completed_piece d b :
  (length b <= n - length d mod n)%nat ->
  completed d b = (if (length b =? n - length d mod n)%nat then [whole_mac (d ++ b)] else []) /\
  length (d ++ b) mod n = (if (length b =? n - length d mod n)%nat then 0 else length d mod n + length b)%nat.
Proof.
  intros Hb. pose proof (Nat.mod_upper_bound (length d) n ltac:(lia)) as Hm.
  pose proof (Nat.div_mod (length d) n ltac:(lia)) as Hd.
  destruct (Nat.eqb_spec (length b) (n - length d mod n)) as [E|E].
  - assert (Hl : length (d ++ b) = (S (length d / n) * n)%nat) by (rewrite length_app; nia).
    split; [|by rewrite Hl, Nat.Div0.mod_mul].
    unfold completed. rewrite Hl, Nat.div_mul by lia.
    replace (S (length d / n) - length d / n)%nat with 1%nat by lia. cbn [seq fmap list_fmap].
    unfold prefix_mac, whole_mac. by rewrite take_ge by lia.
  - assert (Hl : length (d ++ b) = (n * (length d / n) + (length d mod n + length b))%nat)
      by (rewrite length_app; lia).
    assert (Hq : (length (d ++ b) / n = length d / n)%nat) by (symmetry; eapply Nat.div_unique; [|exact Hl]; lia).
    split; [|symmetry; eapply Nat.mod_unique; [|exact Hl]; lia].
    unfold completed. by rewrite Hq, Nat.sub_diag.
Qed.

(** ** [Incremental] implements it *)

Lemma update_chunk_eq i d b :
  has_read i d -> (length b <= n - length d mod n)%nat ->
  exists o i', update_chunk b i = (Ok o, i') /\ option_list o = completed d b /\ has_read i' (d ++ b).
Proof.
  intros (Hm & Hn & Hu) Hb. destruct (completed_piece d b Hb) as [-> Hmod].
  pose proof (Nat.mod_upper_bound (length d) n ltac:(lia)).
  unfold update_chunk. rewrite M_bind_eq. unfold gets at 1. rewrite Hu. unfold assert_M.
  rewrite (proj2 (Nat.leb_le _ _) Hb), lift_bind, M_bind_eq. unfold modify at 1. rewrite M_bind_eq.
  unfold gets at 1. cbn [unused_length]. rewrite Hu.
  assert ((n - length d mod n - length b =? 0) = (length b =? n - length d mod n))%nat as ->.
  { destruct (Nat.eqb_spec (n - length d mod n - length b) 0), (Nat.eqb_spec (length b) (n - length d mod n)); lia. }
  unfold has_read. rewrite Hmod.
  destruct (length b =? n - length d mod n)%nat.
  - eexists _, _. split; [done|]. cbn. unfold whole_mac. rewrite Hm, mac_update_app, Hn.
    split; [done|]. split; [done|]. split; [done|]. lia.
  - eexists _, _. split; [done|]. cbn. rewrite Hm, mac_update_app, Hn. split; [done|].
    split; [done|]. split; [done|]. lia.
Qed.

Lemma update_chunks_full fuel : forall i d b,
  (length b <= fuel)%nat -> (length d mod n = 0)%nat -> has_read i d ->
  exists i', update_chunks (chunks_fuel fuel n b) i = (Ok (completed d b), i') /\ has_read i' (d ++ b).
Proof.
  assert (Hnil : forall d, completed d [] = []).
  { intros d. unfold completed. by rewrite app_nil_r, Nat.sub_diag. }
  induction fuel as [|fuel IH]; intros i d b Hf Hd Hi.
  { destruct b; [|cbn in Hf; lia]. exists i. cbn. by rewrite Hnil, app_nil_r. }
  destruct b as [|x b]; [exists i; cbn; by rewrite Hnil, app_nil_r|].
  cbn [chunks_fuel update_chunks]. set (l := x :: b) in *.
  destruct (update_chunk_eq i d (take n l) Hi) as (o & i' & Hu & Ho & Hi').
  { rewrite length_take. lia. }
  destruct (completed_piece d (take n l)) as [_ Hmod]; [rewrite length_take; lia|].
  rewrite M_bind_eq, Hu, M_bind_eq.
  rewrite Hd, Nat.sub_0_r in Hmod.
  destruct (decide (n <= length l)%nat) as [Hle|Hgt].
  - rewrite length_take, Nat.min_l, Nat.eqb_refl in Hmod by lia.
    destruct (IH i' (d ++ take n l) (drop n l)) as (i'' & Hus & Hi''); [rewrite length_drop; lia|done|done|].
    exists i''. rewrite Hus. rewrite <- app_assoc, take_drop in Hi''. split; [|done].
    rewrite Ho, <- completed_app, take_drop. done.
  - rewrite drop_ge by lia. exists i'. rewrite take_ge in * by lia. destruct fuel; cbn; by rewrite Ho, app_nil_r.
Qed.

Lemma Incremental_update_eq i d b :
  has_read i d ->
  exists i', Incremental_update b i = (Ok (completed d b), i') /\ has_read i' (d ++ b).
Proof.
  intros Hi. pose proof Hi as (Hm & Hn & Hu). unfold Incremental_update. rewrite M_bind_eq.
  unfold gets at 1. rewrite M_bind_eq. unfold gets at 1. rewrite Hn, Hu.
  pose proof (Nat.mod_upper_bound (length d) n ltac:(lia)).
  set (k := Nat.min _ _). cbn [update_chunks].
  assert (Hk : length (take k b) = k) by (rewrite length_take; lia).
  destruct (update_chunk_eq i d (take k b) Hi) as (o & i' & Hu1 & Ho & Hi'); [lia|].
  destruct (completed_piece d (take k b)) as [_ Hmod]; [lia|]. rewrite Hk in Hmod.
  rewrite M_bind_eq, Hu1, M_bind_eq. unfold chunks.
  destruct (decide (length b <= n - length d mod n)%nat) as [Hle|Hgt].
  - rewrite (drop_ge b k) by lia. exists i'. rewrite take_ge in * by lia. cbn. by rewrite Ho, app_nil_r.
  - replace k with (n - length d mod n)%nat in * by lia. rewrite Nat.eqb_refl in Hmod.
    destruct (update_chunks_full (length (drop (n - length d mod n) b)) i' (d ++ take (n - length d mod n) b)
      (drop (n - length d mod n) b)) as (i'' & Hus & Hi''); [done|done|done|].
    exists i''. rewrite Hus. rewrite <- app_assoc, take_drop in Hi''. split; [|done].
    rewrite Ho, <- completed_app, take_drop. done.
Qed.
End incremental_spec.

(** ** Streams *)

Section streams.
Context `{MacLaws} (m0 : MacState) (n : nat) (n_pos : 0 < n).

(** A run of [update]s. *)
Fixpoint feed (bs : list bytes) : M Incremental MacError (list bytes) :=
  match bs with
  | [] => mret []
  | b :: bs => ms ← Incremental_update b; rest ← feed bs; mret (ms ++ rest)
  end.

Lemma feed_eq bs : forall i d,
  has_read m0 n i d ->
  exists i', feed bs i = (Ok (completed m0 n d (concat bs)), i') /\ has_read m0 n i' (d ++ concat bs).
Proof.
  induction bs as [|b bs IH]; intros i d Hi.
  - exists i. cbn. unfold completed. by rewrite app_nil_r, Nat.sub_diag.
  - destruct (Incremental_update_eq m0 n n_pos i d b Hi) as (i1 & Hu & Hi1).
    destruct (IH i1 (d ++ b) Hi1) as (i2 & Hf & Hi2). exists i2. cbn [feed concat].
    rewrite M_bind_eq, Hu, M_bind_eq, Hf, completed_app by done.
    by rewrite <- app_assoc in Hi2.
Qed.

Lemma new_has_read : has_read m0 n (mkIncremental m0 n n) [].
Proof. unfold has_read. cbn. rewrite mac_update_nil, Nat.Div0.mod_0_l, Nat.sub_0_r. done. Qed.

(** Incremental MACs do not depend on how the stream is cut.  However data
    is split over calls of [update] (empty pieces included), the MACs emitted
    are those of the prefixes that end at a multiple of the chunk size, in
    order, and [finalize] gives the MAC of all of it. *)
Theorem incremental_macs_spec bs :
  exists i i', Incremental_new (E := MacError) m0 n = Ok i /\ feed bs i = (Ok (chunk_macs m0 n (concat bs)), i') /\
    Incremental_finalize i' = whole_mac m0 (concat bs) /\
    pending_bytes_size i' = length (concat bs) mod n.
Proof.
  destruct (feed_eq bs _ [] new_has_read) as (i' & Hf & Hm & Hn & Hu).
  eexists _, i'. unfold Incremental_new. rewrite (proj2 (Nat.ltb_lt _ _) n_pos). split; [done|].
  rewrite Hf, chunk_macs_completed. split; [done|]. split.
  - unfold Incremental_finalize. by rewrite Hm.
  - unfold pending_bytes_size. rewrite Hn, Hu. cbn [app].
    pose proof (Nat.mod_upper_bound (length (concat bs)) n ltac:(lia)). lia.
Qed.

(** *** Validation *)

Lemma vec_pop_reverse {A} (x : A) l : vec_pop (reverse (x :: l)) = reverse l.
Proof.
  unfold vec_pop. rewrite reverse_cons, length_app, take_app_length'; [done|]. cbn. lia.
Qed.

Lemma check_macs_false macs w e : (check_macs macs w false e).1.2 = false.
Proof.
  revert w e. induction macs as [|m macs IH]; intros w e; [done|]. cbn [check_macs].
  destruct (last e); [case_bool_decide|]; apply IH.
Qed.

Lemma check_macs_spec macs : forall w rest,
  if bool_decide (macs `prefix_of` rest)
  then check_macs macs w true (reverse rest) = (w + length macs, true, reverse (drop (length macs) rest))
  else (check_macs macs w true (reverse rest)).1.2 = false.
Proof.
  induction macs as [|m macs IH]; intros w rest.
  - rewrite bool_decide_eq_true_2 by apply prefix_nil. cbn. by rewrite Nat.add_0_r.
  - destruct rest as [|e rest].
    + rewrite bool_decide_eq_false_2 by (intros [? [=]]). apply check_macs_false.
    + cbn [check_macs]. rewrite reverse_cons, last_snoc, <- reverse_cons, vec_pop_reverse.
      destruct (decide (e = m)) as [->|Hne].
      * rewrite (bool_decide_eq_true_2 (m = m)) by done. specialize (IH (S w) rest).
        assert (bool_decide (m :: macs `prefix_of` m :: rest) = bool_decide (macs `prefix_of` rest)) as ->.
        { apply bool_decide_ext. split; [apply prefix_cons_inv_2|apply prefix_cons]. }
        case_bool_decide; [|done]. rewrite IH. cbn [length drop]. do 2 f_equal. lia.
      * rewrite (bool_decide_eq_false_2 (e = m)) by done.
        rewrite bool_decide_eq_false_2 by (intros ?%prefix_cons_inv_1; congruence).
        apply check_macs_false.
Qed.

(** [v] has read [d], and so far all was as expected in [ms]. *)
Definition validated (ms : list bytes) (v : Validating) (d : bytes) : Prop :=
  has_read m0 n (incremental v) d /\ chunk_macs m0 n d `prefix_of` ms /\
  expected v = reverse (drop (length d / n) ms).

Lemma chunk_macs_length d : length (chunk_macs m0 n d) = length d / n.
Proof. unfold chunk_macs. by rewrite length_fmap, length_seq. Qed.

Lemma Validating_update_eq ms v d b :
  validated ms v d ->
  if bool_decide (chunk_macs m0 n (d ++ b) `prefix_of` ms)
  then exists v', Validating_update b v = (Ok ((length (d ++ b) / n - length d / n) * n), v') /\
                  validated ms v' (d ++ b)
  else exists v', Validating_update b v = (Err MkMacError, v').
Proof.
  intros (Hi & [rest ->] & He). rewrite <- (chunk_macs_length d), drop_app_length in He.
  destruct (Incremental_update_eq m0 n n_pos _ d b Hi) as (i' & Hu & Hi').
  unfold Validating_update. rewrite M_bind_eq, zoom_eq, Hu. cbn [fst snd]. rewrite M_bind_eq.
  unfold get. cbn [expected incremental]. rewrite He.
  pose proof (check_macs_spec (completed m0 n d b) 0 rest) as Hc.
  assert (Hl : length (completed m0 n d b) = length (d ++ b) / n - length d / n)
    by (unfold completed; by rewrite length_fmap, length_seq).
  rewrite (chunk_macs_app m0 n n_pos d b).
  assert (bool_decide (chunk_macs m0 n d ++ completed m0 n d b `prefix_of` chunk_macs m0 n d ++ rest) =
          bool_decide (completed m0 n d b `prefix_of` rest)) as ->.
  { apply bool_decide_ext. split; [apply prefix_app_inv|apply prefix_app]. }
  case_bool_decide as Hpre.
  - rewrite Hc. rewrite M_bind_eq. unfold put. cbn [Nat.add]. eexists. split.
    + rewrite (proj1 (proj2 Hi')), Hl. done.
    + split; [done|]. split.
      * rewrite (chunk_macs_app m0 n n_pos d b). by apply prefix_app.
      * cbn [expected]. rewrite <- (chunk_macs_length (d ++ b)), (chunk_macs_app m0 n n_pos d b), length_app.
        rewrite drop_app_add. do 2 f_equal. rewrite (chunk_macs_length d). lia.
  - destruct (check_macs _ _ _ _) as [[w ok] e]. cbn in Hc. subst ok. by eexists.
Qed.

(** A run of [update]s that stops at the first error, and then [finalize]:
    the number of bytes validated. *)
Fixpoint validate_pieces (bs : list bytes) : M Validating MacError nat :=
  match bs with
  | [] => mret 0
  | b :: bs => k ← Validating_update b; rest ← validate_pieces bs; mret (k + rest)
  end.
Definition validate (bs : list bytes) (v : Validating) : outcome MacError nat :=
  '(k, v) ← run_local v (validate_pieces bs); p ← Validating_finalize v; Ok (k + p).

Lemma validate_pieces_eq ms bs : forall v d,
  validated ms v d ->
  if bool_decide (chunk_macs m0 n (d ++ concat bs) `prefix_of` ms)
  then exists v', validate_pieces bs v = (Ok ((length (d ++ concat bs) / n - length d / n) * n), v') /\
                  validated ms v' (d ++ concat bs)
  else exists v', validate_pieces bs v = (Err MkMacError, v').
Proof.
  induction bs as [|b bs IH]; intros v d Hv; cbn [concat validate_pieces].
  - rewrite app_nil_r, Nat.sub_diag, bool_decide_eq_true_2 by apply Hv. by exists v.
  - pose proof (Validating_update_eq ms v d b Hv) as Hu. rewrite app_assoc.
    case_bool_decide as Hpre.
    + destruct Hu as (v1 & Hu & Hv1). specialize (IH v1 (d ++ b) Hv1). rewrite M_bind_eq, Hu.
      case_bool_decide as Hpre2; destruct IH as (v2 & Hf); rewrite M_bind_eq.
      * destruct Hf as [-> Hv2]. exists v2. split; [|done].
        pose proof (div_length_app n n_pos d b) as H1. pose proof (div_length_app n n_pos (d ++ b) (concat bs)) as H2.
        unfold mret, M_ret. do 2 f_equal. nia.
      * rewrite Hf. by exists v2.
    + rewrite bool_decide_eq_false_2.
      * destruct Hu as (v1 & Hu). rewrite M_bind_eq, Hu. by exists v1.
      * intros Hp. apply Hpre. rewrite (chunk_macs_app m0 n n_pos (d ++ b)) in Hp. by eapply prefix_app_l.
Qed.

(** Validation accepts exactly the data the list was made for.  With the
    expected MACs [ms], reading any pieces and then finalizing returns the
    number of bytes read if [ms] is the list of MACs of the whole chunks
    followed by the MAC of everything, and [MacError] otherwise; how the data
    is cut into pieces does not matter. *)
Theorem validating_spec ms bs :
  validate bs (validating ms (mkIncremental m0 n n)) =
    if bool_decide (ms = chunk_macs m0 n (concat bs) ++ [whole_mac m0 (concat bs)])
    then Ok (length (concat bs)) else Err MkMacError.
Proof.
  assert (Hv : validated ms (validating ms (mkIncremental m0 n n)) []).
  { split; [apply new_has_read|]. cbn [length validating expected]. rewrite Nat.Div0.div_0_l.
    split; [|done]. unfold chunk_macs. cbn [length]. rewrite Nat.Div0.div_0_l. apply prefix_nil. }
  pose proof (validate_pieces_eq ms bs _ [] Hv) as H1. cbn [app length] in H1.
  rewrite Nat.Div0.div_0_l, Nat.sub_0_r in H1. unfold validate, run_local.
  set (d := concat bs) in *. case_bool_decide as Hpre.
  - destruct H1 as (v' & -> & (Hm & Hn & Hu) & [rest Hms] & He). cbn [fmap outcome_fmap mbind outcome_bind].
    unfold Validating_finalize, Incremental_finalize, pending_bytes_size. rewrite He, Hms.
    rewrite <- (chunk_macs_length d), drop_app_length, Hm, Hn, Hu. fold (whole_mac m0 d).
    pose proof (Nat.mod_upper_bound (length d) n ltac:(lia)).
    pose proof (Nat.div_mod (length d) n ltac:(lia)).
    assert (Hiff : bool_decide (chunk_macs m0 n d ++ rest = chunk_macs m0 n d ++ [whole_mac m0 d]) =
                   bool_decide (rest = [whole_mac m0 d])).
    { apply bool_decide_ext. split; [apply app_inv_head|by intros ->]. }
    rewrite Hiff. destruct rest as [|e [|e2 rest]].
    + rewrite bool_decide_eq_false_2 by done. done.
    + change (reverse [e]) with [e]. assert (bool_decide ([e] = [whole_mac m0 d]) = bool_decide (e = whole_mac m0 d)) as ->
        by (apply bool_decide_ext; split; congruence).
      destruct (bool_decide (e = whole_mac m0 d)); [|done]. cbn [mbind outcome_bind].
      rewrite chunk_macs_length. f_equal. lia.
    + rewrite (bool_decide_eq_false_2 (_ :: _ :: _ = _)) by done.
      rewrite !reverse_cons. destruct (reverse rest) as [|x [|y l]]; done.
  - rewrite bool_decide_eq_false_2.
    + destruct H1 as [v' ->]. done.
    + intros ->. apply Hpre. by apply prefix_app_r.
Qed.
End streams.

(** The chunk size: it panics when the digest size does not divide the
    8 KiB budget; otherwise it lies between 64 KiB and 2 MiB, and the MACs of
    all chunks of up to the largest file that the budget allows for fit in it. *)
Theorem calculate_chunk_size_spec (output_size data_size : Z) :
  (0 < output_size -> 0 <= data_size ->
   match @calculate_chunk_size MacError output_size data_size with
   | Ok c => (output_size | TARGET_TOTAL_DIGEST_SIZE) /\ MINIMUM_CHUNK_SIZE <= c <= MAXIMUM_CHUNK_SIZE /\
             (data_size <= (TARGET_TOTAL_DIGEST_SIZE / output_size) * MAXIMUM_CHUNK_SIZE ->
              div_ceil data_size c * output_size <= TARGET_TOTAL_DIGEST_SIZE)
   | Err _ => False
   | Panic => ~ (output_size | TARGET_TOTAL_DIGEST_SIZE)
   end)%Z.
Proof.
  intros Ho Hd. unfold calculate_chunk_size.
  destruct (Z.eqb_spec 0 (TARGET_TOTAL_DIGEST_SIZE mod output_size)) as [Hm|Hm]; cbn [negb].
  2: { intros Hdiv. apply Hm. symmetry. by apply Z.mod_divide; [lia|]. }
  assert (Hdiv : (output_size | TARGET_TOTAL_DIGEST_SIZE)%Z) by (apply Z.mod_divide; lia).
  pose proof (Z.div_mod TARGET_TOTAL_DIGEST_SIZE output_size ltac:(lia)) as Hq.
  rewrite <- Hm, Z.add_0_r in Hq. set (q := (TARGET_TOTAL_DIGEST_SIZE / output_size)%Z) in *.
  assert (Hceil : forall a b, (0 < b -> a <= b * div_ceil a b /\ b * (div_ceil a b - 1) < a)%Z).
  { intros a b Hb. unfold div_ceil.
    pose proof (Z.div_mod a b ltac:(lia)). pose proof (Z.mod_pos_bound a b Hb).
    destruct (Z.eqb_spec (a mod b) 0); split; nia. }
  assert (Hq0 : (0 < q)%Z) by (unfold TARGET_TOTAL_DIGEST_SIZE in *; nia).
  assert (Hfits : forall c, (0 < c -> data_size <= q * c -> div_ceil data_size c * output_size <= TARGET_TOTAL_DIGEST_SIZE)%Z).
  { intros c Hc Hle. destruct (Hceil data_size c Hc) as [_ H2].
    assert (div_ceil data_size c <= q)%Z.
    { destruct (Z.le_gt_cases (div_ceil data_size c) q) as [|Hgt]; [done|].
      pose proof (Z.mul_le_mono_nonneg_l q (div_ceil data_size c - 1) c ltac:(lia) ltac:(lia)). lia. }
    pose proof (Z.mul_le_mono_nonneg_r (div_ceil data_size c) q output_size ltac:(lia) ltac:(lia)). lia. }
  unfold MINIMUM_CHUNK_SIZE, MAXIMUM_CHUNK_SIZE in *.
  destruct (Z.ltb_spec data_size (q * (64 * 1024))).
  { split; [done|]. split; [lia|]. intros _. apply Hfits; lia. }
  destruct (Z.ltb_spec data_size (q * (2 * 1024 * 1024))).
  - destruct (Hceil data_size q Hq0) as [H1 H2]. split; [done|]. split; [nia|].
    intros _. apply Hfits; [nia|lia].
  - split; [done|]. split; [lia|]. intros Hle. apply Hfits; lia.
Qed.
