(* ===== verification/Fingerprint.v ===== *)
(** * Fingerprint: safety numbers (rust/protocol/src/fingerprint.rs)

    The fingerprint of an identity, its displayable form (sixty digits) and
    its scannable form (a protobuf message two devices compare).  The theorems
    show that both devices compute the same number, that scanning compares
    exactly the two pairs of fingerprints, and that the scannable form reads
    back. *)

From S2P Require Import Prelude Types Primitives Proto Curve IdentityKey.
Open Scope string_scope.
Open Scope list_scope.
Open Scope Z_scope.

(** [fingerprint::Error]. *)
Inductive FingerprintError :=
| VersionMismatch (theirs ours : Z)
| ParsingError (s : string)
| InvalidIterationCount (n : Z).

Abbreviation FResult := (outcome FingerprintError).

(** ** Displayable fingerprints *)

Record DisplayableFingerprint := mkDisplayableFingerprint { local : string; remote : string }.

(** [Display for DisplayableFingerprint]: the smaller string first. *)
Definition DisplayableFingerprint_fmt (d : DisplayableFingerprint) : string :=
  if String.ltb (local d) (remote d) then local d +:+ remote d else remote d +:+ local d.

(** One step of the fold over [u64]: [(acc << 8) | x]. *)
Definition push_byte (acc : Z) (x : byte) : Z := Z.lor (Z.shiftl acc 8 mod 2 ^ 64) (u8 x).

Definition read5_mod_100k (fprint : bytes) : FResult Z :=
  if negb (length fprint =? 5)%nat then Panic
  else Ok (foldl push_byte 0 fprint mod 100000).

(** [{n:05}] of a number below 100000. *)
Definition digit (n : Z) : Ascii.ascii := Ascii.ascii_of_N (Z.to_N (48 + n mod 10)).
Definition format_05 (n : Z) : string :=
  String (digit (n / 10000)) (String (digit (n / 1000)) (String (digit (n / 100))
    (String (digit (n / 10)) (String (digit n) "")))).

(** The first [k] items of [chunks_exact(5)]. *)
Fixpoint chunks_5 (k : nat) (l : bytes) : list bytes :=
  match k with
  | O => []
  | S k => if (5 <=? length l)%nat then take 5 l :: chunks_5 k (drop 5 l) else []
  end.

(** The fold that appends each number to the string. *)
Fixpoint write_all (s : string) (cs : list bytes) : FResult string :=
  match cs with
  | [] => Ok s
  | c :: cs => n ← read5_mod_100k c; write_all (s +:+ format_05 n) cs
  end.

Definition get_encoded_string (fprint : bytes) : FResult string :=
  if (length fprint <? 30)%nat
  then Err (ParsingError "DisplayableFingerprint created with short encoding")
  else write_all "" (chunks_5 6 fprint).

Definition DisplayableFingerprint_new (local remote : bytes) : FResult DisplayableFingerprint :=
  l ← get_encoded_string local; r ← get_encoded_string remote;
  Ok (mkDisplayableFingerprint l r).

(** ** Scannable fingerprints *)

Record ScannableFingerprint := mkScannableFingerprint {
  version : Z; local_fingerprint : bytes; remote_fingerprint : bytes
}.

(** [v[..32]]. *)
Definition first_32 (v : bytes) : FResult bytes :=
  if (length v <? 32)%nat then Panic else Ok (take 32 v).

Definition ScannableFingerprint_new (version : Z) (local_fprint remote_fprint : bytes)
  : FResult ScannableFingerprint :=
  l ← first_32 local_fprint; r ← first_32 remote_fprint;
  Ok (mkScannableFingerprint version l r).

(** [f.and_then(|m| m.content)]. *)
Definition content (f : option fingerprint.LogicalFingerprint) : option bytes :=
  m ← f; fingerprint.lf_content m.

Section fingerprint.
Context {P : Primitives} `{!Prost fingerprint.CombinedFingerprints}.

Definition ScannableFingerprint_deserialize (protobuf : bytes) : FResult ScannableFingerprint :=
  f ← ok_or (ParsingError "failed to decode protobuf") (decode_pb protobuf);
  v ← ok_or (ParsingError "missing version") (fingerprint.cf_version f);
  l ← ok_or (ParsingError "missing local fingerprint") (content (fingerprint.cf_local_fingerprint f));
  r ← ok_or (ParsingError "missing remote fingerprint") (content (fingerprint.cf_remote_fingerprint f));
  Ok (mkScannableFingerprint v l r).

Definition combined (f : ScannableFingerprint) : fingerprint.CombinedFingerprints :=
  fingerprint.mkCombinedFingerprints (Some (version f))
    (Some (fingerprint.mkLogicalFingerprint (Some (local_fingerprint f))))
    (Some (fingerprint.mkLogicalFingerprint (Some (remote_fingerprint f)))).
Definition ScannableFingerprint_serialize (f : ScannableFingerprint) : FResult bytes :=
  Ok (encode_to_vec (combined f)).

Definition ScannableFingerprint_compare (self : ScannableFingerprint) (combined : bytes)
  : FResult bool :=
  c ← ok_or (ParsingError "failed to decode their protobuf") (decode_pb combined);
  let their_version := default 0 (fingerprint.cf_version c) in
  if negb (their_version =? version self)
  then Err (VersionMismatch their_version (version self))
  else
    l ← ok_or (ParsingError "missing their local fingerprint")
          (content (fingerprint.cf_local_fingerprint c));
    let same1 := bool_decide (l = remote_fingerprint self) in
    r ← ok_or (ParsingError "missing their remote fingerprint")
          (content (fingerprint.cf_remote_fingerprint c));
    let same2 := bool_decide (r = local_fingerprint self) in
    Ok (same1 && same2).

(** ** Fingerprints of identities *)

Record Fingerprint := mkFingerprint { display : DisplayableFingerprint; scannable : ScannableFingerprint }.

(** [for _i in 1..iterations]. *)
Fixpoint rehash (k : nat) (buf key_bytes : bytes) : bytes :=
  match k with O => buf | S k => rehash k (arr (sha512 (buf ++ key_bytes))) key_bytes end.

Definition get_fingerprint (iterations : Z) (local_id : bytes) (local_key : IdentityKey)
  : FResult bytes :=
  if (iterations <=? 1) || (1000000 <? iterations) then Err (InvalidIterationCount iterations)
  else
    let fingerprint_version := [Byte.x00; Byte.x00] in
    let key_bytes := IdentityKey_serialize local_key in
    let buf := arr (sha512 (fingerprint_version ++ key_bytes ++ local_id ++ key_bytes)) in
    Ok (rehash (Z.to_nat (iterations - 1)) buf key_bytes).

Definition Fingerprint_new (version iterations : Z) (local_id : bytes) (local_key : IdentityKey)
    (remote_id : bytes) (remote_key : IdentityKey) : FResult Fingerprint :=
  local_fingerprint ← get_fingerprint iterations local_id local_key;
  remote_fingerprint ← get_fingerprint iterations remote_id remote_key;
  display ← DisplayableFingerprint_new local_fingerprint remote_fingerprint;
  scannable ← ScannableFingerprint_new version local_fingerprint remote_fingerprint;
  Ok (mkFingerprint display scannable).

Definition display_string (f : Fingerprint) : FResult string :=
  Ok (DisplayableFingerprint_fmt (display f)).
End fingerprint.

(** ** Encoding *)

Fixpoint be_value (l : bytes) (acc : Z) : Z :=
  match l with [] => acc | x :: l => be_value l (acc * 256 + u8 x) end.

(** No bit is lost: five bytes fit in a [u64]. *)
Lemma push_byte_eq acc x : 0 <= acc < 2 ^ 56 -> push_byte acc x = acc * 256 + u8 x.
Proof.
  intros H. unfold push_byte. pose proof (u8_range x). rewrite Z.shiftl_mul_pow2 by lia.
  change (2 ^ 8) with 256. rewrite Z.mod_small by lia.
  rewrite <- Z.add_lor_land. enough (Z.land (acc * 256) (u8 x) = 0) as -> by lia.
  apply Z.bits_inj'. intros n Hn. rewrite Z.land_spec, Z.bits_0.
  destruct (Z.lt_ge_cases n 8) as [Hlt|Hge].
  - change 256 with (2 ^ 8). rewrite Z.mul_pow2_bits_low by lia. done.
  - apply andb_false_iff. right.
    destruct (Z.eq_dec (u8 x) 0) as [->|]; [apply Z.bits_0|].
    apply Z.bits_above_log2; [lia|]. apply Z.log2_lt_pow2; [lia|].
    apply Z.lt_le_trans with (2 ^ 8); [lia|]. apply Z.pow_le_mono_r; lia.
Qed.

Lemma read5_value l : length l = 5%nat -> read5_mod_100k l = Ok (be_value l 0 mod 100000).
Proof.
  intros Hl. unfold read5_mod_100k. rewrite Hl. cbn [negb Nat.eqb].
  destruct l as [|a [|b [|c [|d [|e [|]]]]]]; try done. cbn [foldl be_value].
  pose proof (u8_range a). pose proof (u8_range b). pose proof (u8_range c). pose proof (u8_range d).
  rewrite (push_byte_eq 0), (push_byte_eq (_ * 256 + u8 a)), (push_byte_eq (_ * 256 + u8 b)),
    (push_byte_eq (_ * 256 + u8 c)), (push_byte_eq (_ * 256 + u8 d)) by lia. done.
Qed.

(** The six groups of five bytes. *)
Definition group (f : bytes) (k : nat) : bytes := take 5 (drop (5 * k) f).
Definition group_digits (f : bytes) (k : nat) : string := format_05 (be_value (group f k) 0 mod 100000).

Definition encoded (f : bytes) : string :=
  group_digits f 0 +:+ group_digits f 1 +:+ group_digits f 2 +:+ group_digits f 3 +:+
  group_digits f 4 +:+ group_digits f 5.

Lemma chunks_5_eq f : (30 <= length f)%nat -> chunks_5 6 f = group f <$> seq 0 6.
Proof.
  intros Hf. unfold group. cbn [seq fmap list_fmap Nat.mul Nat.add].
  cbn [chunks_5]. rewrite !length_drop.
  repeat match goal with |- context [(5 <=? ?x)%nat] => rewrite (proj2 (Nat.leb_le 5 x)) by lia end.
  by rewrite !drop_drop.
Qed.

Lemma write_all_cons s c cs :
  length c = 5%nat -> write_all s (c :: cs) = write_all (s +:+ format_05 (be_value c 0 mod 100000)) cs.
Proof. intros Hc. cbn [write_all]. by rewrite read5_value. Qed.

Lemma get_encoded_string_eq f :
  get_encoded_string f = if (length f <? 30)%nat
    then Err (ParsingError "DisplayableFingerprint created with short encoding") else Ok (encoded f).
Proof.
  unfold get_encoded_string. destruct (Nat.ltb_spec (length f) 30) as [|Hf]; [done|].
  rewrite chunks_5_eq by done. cbn [seq fmap list_fmap].
  rewrite !write_all_cons by (unfold group; rewrite length_take, length_drop; lia). cbn [write_all].
  unfold encoded, group_digits. change ("" +:+ ?x) with x. by rewrite !string_app_assoc.
Qed.

(** Thirty decimal digits. *)
Fixpoint all_digits (s : string) : Prop :=
  match s with
  | EmptyString => True
  | String a s => (exists d, 0 <= d < 10 /\ a = digit d) /\ all_digits s
  end.

Lemma all_digits_app s t : all_digits s -> all_digits t -> all_digits (s +:+ t).
Proof. induction s as [|a s IH]; [done|]. cbn. intros [H1 H2] H3. split; [done|]. by apply IH. Qed.

Lemma format_05_digits n : all_digits (format_05 n).
Proof.
  assert (H : forall z, exists d, 0 <= d < 10 /\ digit z = digit d).
  { intros z. exists (z mod 10). split; [apply Z.mod_pos_bound; lia|]. unfold digit. by rewrite Z.mod_mod. }
  cbn. split_and!; (done || apply H).
Qed.

Lemma length_app_string s t : String.length (s +:+ t) = (String.length s + String.length t)%nat.
Proof. induction s as [|a s IH]; [done|]. change (S (String.length (s +:+ t)) = S (String.length s + String.length t)). by rewrite IH. Qed.

Lemma encoded_digits f : all_digits (encoded f) /\ String.length (encoded f) = 30%nat.
Proof.
  unfold encoded, group_digits. split.
  - repeat apply all_digits_app; apply format_05_digits.
  - by rewrite !length_app_string.
Qed.

Lemma display_symmetric l r :
  DisplayableFingerprint_fmt (mkDisplayableFingerprint l r) =
  DisplayableFingerprint_fmt (mkDisplayableFingerprint r l).
Proof.
  unfold DisplayableFingerprint_fmt, String.ltb. cbn [local remote].
  rewrite (String.compare_antisym r l). destruct (String.compare l r) eqn:E; cbn [CompOpp]; [|done|done].
  apply String.compare_eq_iff in E. by subst.
Qed.

(** ** What two devices see *)

Section fingerprint_facts.
Context {P : Primitives} `{!Prost fingerprint.CombinedFingerprints}
  {L : ProstLaws fingerprint.CombinedFingerprints fingerprint.CombinedFingerprints_wf}.

Lemma rehash_length k : forall buf key, length buf = 64%nat -> length (rehash k buf key) = 64%nat.
Proof. induction k as [|k IH]; intros buf key Hb; [done|]. apply IH, array_length. Qed.

Lemma get_fingerprint_ok it id k :
  1 < it <= 1000000 -> exists f, get_fingerprint it id k = Ok f /\ length f = 64%nat.
Proof.
  intros Hit. unfold get_fingerprint. rewrite (proj2 (Z.leb_gt _ _)), (proj2 (Z.ltb_ge _ _)) by lia.
  cbn [orb]. eexists. split; [done|]. apply rehash_length, array_length.
Qed.

Lemma compare_combined f g :
  is_u32 (version g) ->
  ScannableFingerprint_compare f (encode_to_vec (combined g)) =
    if bool_decide (version g = version f)
    then Ok (bool_decide (local_fingerprint g = remote_fingerprint f /\ remote_fingerprint g = local_fingerprint f))
    else Err (VersionMismatch (version g) (version f)).
Proof.
  intros Hv. unfold ScannableFingerprint_compare. rewrite decode_encode_pb by done.
  cbn -[Z.eqb bool_decide]. destruct (Z.eqb_spec (version g) (version f)) as [E|E].
  - rewrite (bool_decide_eq_true_2 _ E). cbn [negb]. f_equal.
    repeat case_bool_decide; cbn; naive_solver.
  - by rewrite (bool_decide_eq_false_2 _ E).
Qed.

(** Both devices see the same safety number.  With an iteration count in
    range, the two devices compute fingerprints whose displayed form is the
    same sixty decimal digits and whose scannable forms, once serialized, match
    each other and read back; with any other count both fail. *)
Theorem safety_numbers_agree v it ida ka idb kb :
  is_u32 v ->
  if bool_decide (1 < it <= 1000000)
  then exists fa fb s da db,
    Fingerprint_new v it ida ka idb kb = Ok fa /\ Fingerprint_new v it idb kb ida ka = Ok fb /\
    display_string fa = Ok s /\ display_string fb = Ok s /\
    String.length s = 60%nat /\ all_digits s /\
    ScannableFingerprint_serialize (scannable fa) = Ok da /\
    ScannableFingerprint_serialize (scannable fb) = Ok db /\
    ScannableFingerprint_compare (scannable fa) db = Ok true /\
    ScannableFingerprint_compare (scannable fb) da = Ok true /\
    ScannableFingerprint_deserialize da = Ok (scannable fa)
  else Fingerprint_new v it ida ka idb kb = Err (InvalidIterationCount it).
Proof.
  intros Hv. case_bool_decide as Hit.
  2: { unfold Fingerprint_new, get_fingerprint.
       destruct (Z.leb_spec it 1), (Z.ltb_spec 1000000 it); cbn [orb]; done || lia. }
  destruct (get_fingerprint_ok it ida ka Hit) as (a & Ha & Hla).
  destruct (get_fingerprint_ok it idb kb Hit) as (b & Hb & Hlb).
  unfold Fingerprint_new, DisplayableFingerprint_new, ScannableFingerprint_new, first_32.
  rewrite Ha, Hb. cbn [mbind outcome_bind]. rewrite !get_encoded_string_eq, Hla, Hlb.
  cbn [mbind outcome_bind Nat.ltb Nat.leb].
  eexists _, _, _, _, _. split; [done|]. split; [done|]. split; [done|]. unfold display_string. cbn [display].
  split; [by rewrite display_symmetric|].
  destruct (encoded_digits a) as [Hda Hna]. destruct (encoded_digits b) as [Hdb Hnb].
  split; [|split].
  - unfold DisplayableFingerprint_fmt. cbn [local remote]. by case_match; rewrite length_app_string, Hna, Hnb.
  - unfold DisplayableFingerprint_fmt. cbn [local remote]. by case_match; apply all_digits_app.
  - split; [done|]. split; [done|]. cbn [scannable]. rewrite !compare_combined by done.
    cbn [version local_fingerprint remote_fingerprint]. rewrite !bool_decide_eq_true_2 by done.
    split; [done|]. split; [done|]. unfold ScannableFingerprint_deserialize. by rewrite decode_encode_pb.
Qed.

(** Scanning compares both fingerprints.  Comparing with another device's
    serialized fingerprint fails when the versions differ, and otherwise says
    whether their local fingerprint is our remote one and their remote one our
    local one; bytes that do not decode, or miss a fingerprint, are an error,
    never a mismatch. *)
Theorem scannable_compare_spec f data :
  match ScannableFingerprint_compare f data with
  | Ok same => exists c l r, decode_pb data = Some c /\
      default 0 (fingerprint.cf_version c) = version f /\
      content (fingerprint.cf_local_fingerprint c) = Some l /\
      content (fingerprint.cf_remote_fingerprint c) = Some r /\
      (same = true <-> l = remote_fingerprint f /\ r = local_fingerprint f)
  | Err (VersionMismatch theirs ours) => exists c, decode_pb data = Some c /\
      theirs = default 0 (fingerprint.cf_version c) /\ ours = version f /\ theirs <> ours
  | Err (ParsingError _) => decode_pb data = None \/ exists c, decode_pb data = Some c /\
      (content (fingerprint.cf_local_fingerprint c) = None \/
       content (fingerprint.cf_remote_fingerprint c) = None)
  | Err (InvalidIterationCount _) | Panic => False
  end.
Proof.
  unfold ScannableFingerprint_compare. destruct (decode_pb data) as [c|]; cbn -[Z.eqb content bool_decide];
    [|by left].
  destruct (Z.eqb_spec (default 0 (fingerprint.cf_version c)) (version f)) as [E|E]; cbn -[content bool_decide].
  2: { exists c. done. }
  destruct (content (fingerprint.cf_local_fingerprint c)) as [l|] eqn:El; cbn -[content bool_decide].
  2: { right. exists c. split; [done|]. by left. }
  destruct (content (fingerprint.cf_remote_fingerprint c)) as [r|] eqn:Er; cbn -[content bool_decide].
  2: { right. exists c. split; [done|]. by right. }
  exists c, l, r. rewrite andb_true_iff, !bool_decide_eq_true. done.
Qed.
End fingerprint_facts.
