(* ===== verification/RatchetKeys.v ===== *)
(** * RatchetKeys: the keys of the Double Ratchet (rust/protocol/src/ratchet/keys.rs)

    A [RootKey] yields a new root key and a chain from a Diffie-Hellman
    agreement; a [ChainKey] steps through its indices by HMAC and yields one
    message-key seed per index; message keys are derived from a seed, salted
    with the post-quantum ratchet's key when there is one. *)

From S2P Require Import Prelude Types Primitives Proto Curve Crypto.
Open Scope string_scope.
Open Scope list_scope.
Open Scope Z_scope.

Record MessageKeys := mkMessageKeys {
  cipher_key : array 32;
  mac_key : array 32;
  iv : array 16;
  counter : Z
}.

Inductive MessageKeyGenerator :=
| Keys (k : MessageKeys)
| Seed (seed : bytes) (counter : Z).

(** [new_from_seed]. *)
Definition new_from_seed (seed : bytes) (counter : Z) : MessageKeyGenerator := Seed seed counter.

(** [into_pb]. *)
Definition into_pb (g : MessageKeyGenerator) : storage.MessageKey :=
  match g with
  | Keys k => storage.mkMessageKey (counter k) (arr (cipher_key k)) (arr (mac_key k)) (arr (iv k)) []
  | Seed seed counter => storage.mkMessageKey counter [] [] [] seed
  end.

(** [from_pb]: the error is the static message. *)
Definition from_pb (pb : storage.MessageKey) : outcome string MessageKeyGenerator :=
  if (length (storage.mk_seed pb) =? 0)%nat then
    cipher_key ← ok_or "invalid message cipher key" (try_array 32 (storage.mk_cipher_key pb));
    mac_key ← ok_or "invalid message MAC key" (try_array 32 (storage.mk_mac_key pb));
    iv ← ok_or "invalid message IV" (try_array 16 (storage.mk_iv pb));
    Ok (Keys (mkMessageKeys cipher_key mac_key iv (storage.mk_index pb)))
  else Ok (Seed (storage.mk_seed pb) (storage.mk_index pb)).

Record ChainKey := mkChainKey { chain_key_key : array 32; chain_key_index : Z }.
Record RootKey := mkRootKey { root_key_key : array 32 }.

Section keys.
Context {P : Primitives}.

(** The 80 bytes of [DerivedSecretBytes] are cut into the three keys. *)
Definition derive_keys (input_key_material : bytes) (optional_salt : option bytes) (counter : Z)
  : MessageKeys :=
  let okm := hkdf_sha256 optional_salt input_key_material (byte_str "WhisperMessageKeys") 80 in
  mkMessageKeys (to_array 32 (slice 0 32 okm)) (to_array 32 (slice 32 64 okm))
    (to_array 16 (slice 64 80 okm)) counter.

(** [generate_keys]: keys stored in full come from sessions older than the
    post-quantum ratchet, so a post-quantum key for them is a bug. *)
Definition generate_keys {E} (g : MessageKeyGenerator) (pqr_key : option bytes)
  : outcome E MessageKeys :=
  match g with
  | Seed seed counter => Ok (derive_keys seed pqr_key counter)
  | Keys k => match pqr_key with None => Ok k | Some _ => Panic end
  end.

Definition MESSAGE_KEY_SEED : bytes := [Byte.x01].
Definition CHAIN_KEY_SEED : bytes := [Byte.x02].

Definition calculate_base_material (c : ChainKey) (seed : bytes) : array 32 :=
  hmac_sha256 (chain_key_key c) seed.

(** The index is a [u32] without an overflow check. *)
Definition next_chain_key (c : ChainKey) : ChainKey :=
  mkChainKey (calculate_base_material c CHAIN_KEY_SEED) (u32_add (chain_key_index c) 1).

Definition message_keys (c : ChainKey) : MessageKeyGenerator :=
  new_from_seed (arr (calculate_base_material c MESSAGE_KEY_SEED)) (chain_key_index c).

(** [RootKey::create_chain]. *)
Definition create_chain (r : RootKey) (their_ratchet_key : PublicKey)
    (our_ratchet_key : PrivateKey) : Result (RootKey * ChainKey) :=
  shared_secret ← map_err from_CurveError (calculate_agreement our_ratchet_key their_ratchet_key);
  let derived_secret_bytes :=
    hkdf_sha256 (Some (arr (root_key_key r))) shared_secret (byte_str "WhisperRatchet") 64 in
  Ok (mkRootKey (to_array 32 (slice 0 32 derived_secret_bytes)),
      mkChainKey (to_array 32 (slice 32 64 derived_secret_bytes)) 0).
End keys.

(** ** The chain as a stream

    The abstract view of a chain: its key after [n] steps, and the message-key
    seed of each step. *)

Section stream.
Context {P : Primitives}.

Definition chain_after (n : nat) (k : array 32) : array 32 :=
  Nat.iter n (fun k : array 32 => hmac_sha256 k CHAIN_KEY_SEED) k.

Definition seed_at (k : array 32) (n : nat) : bytes :=
  arr (hmac_sha256 (chain_after n k) MESSAGE_KEY_SEED).

Lemma chain_after_S n (k : array 32) : chain_after (S n) k = chain_after n (hmac_sha256 k CHAIN_KEY_SEED).
Proof. unfold chain_after. by rewrite Nat.iter_succ_r. Qed.

Lemma chain_after_add n m k : chain_after (n + m) k = chain_after n (chain_after m k).
Proof. unfold chain_after. by rewrite Nat.iter_add. Qed.

Lemma seed_at_S (k : array 32) n : seed_at (hmac_sha256 k CHAIN_KEY_SEED) n = seed_at k (S n).
Proof. unfold seed_at. by rewrite chain_after_S. Qed.

Lemma seed_at_length k n : length (seed_at k n) = 32%nat.
Proof. apply array_length. Qed.

Lemma next_chain_key_iter n c :
  0 <= chain_key_index c -> chain_key_index c + Z.of_nat n <= u32_max ->
  Nat.iter n next_chain_key c =
    mkChainKey (chain_after n (chain_key_key c)) (chain_key_index c + Z.of_nat n).
Proof.
  intros H0 Hmax. induction n as [|n IH].
  - destruct c. simpl. f_equal. lia.
  - rewrite Nat.iter_succ, IH by lia.
    unfold next_chain_key, calculate_base_material. cbn [chain_key_key chain_key_index].
    rewrite u32_add_small by lia. unfold chain_after. rewrite Nat.iter_succ.
    f_equal. lia.
Qed.

Lemma message_keys_eq c :
  message_keys c = Seed (seed_at (chain_key_key c) 0) (chain_key_index c).
Proof. done. Qed.

Lemma generate_keys_seed {E} seed n pqr :
  @generate_keys P E (Seed seed n) pqr = Ok (derive_keys seed pqr n).
Proof. done. Qed.
End stream.

(** Message keys survive storage, except that a seed must not be empty. *)
Lemma from_pb_into_pb g :
  match g with Seed [] _ => False | _ => True end -> from_pb (into_pb g) = Ok g.
Proof.
  destruct g as [[ck mk i c]|seed c]; unfold from_pb; cbn [into_pb storage.mk_seed
    storage.mk_cipher_key storage.mk_mac_key storage.mk_iv storage.mk_index
    cipher_key mac_key iv counter].
  - intros _. cbn [length Nat.eqb]. by rewrite !try_array_arr.
  - destruct seed; [done|]. done.
Qed.

Lemma from_pb_seed seed c :
  seed <> [] -> from_pb (storage.mkMessageKey c [] [] [] seed) = Ok (Seed seed c).
Proof. intros H. apply (from_pb_into_pb (Seed seed c)). by destruct seed. Qed.

(** Two parties that derive a chain from the same root key and matching
    ratchet keys get the same root key and the same chain. *)
Lemma create_chain_comm {P : Primitives} {X : X25519Laws} r kp1 kp2 :
  well_formed_pair kp1 -> well_formed_pair kp2 ->
  create_chain r (kp_public_key kp1) (kp_private_key kp2) =
  create_chain r (kp_public_key kp2) (kp_private_key kp1).
Proof.
  intros H1 H2. unfold create_chain. by rewrite (agreement_comm kp2 kp1).
Qed.

Lemma create_chain_ok {P : Primitives} r their ours :
  exists r' c, create_chain r their ours = Ok (r', mkChainKey c 0).
Proof.
  unfold create_chain. destruct (agreement_ok ours their) as [s ->]. cbn. eauto.
Qed.
