(* ===== verification/Messages.v ===== *)
(** * Messages: the wire messages (rust/protocol/src/protocol.rs)

    Each message is a struct that keeps its own serialization; [new] builds
    both, [try_from] parses bytes.  A serialization is a version byte, the
    protobuf encoding, and, for [SignalMessage], a truncated MAC, or, for
    [SenderKeyMessage], a signature. *)

From S2P Require Import Prelude Types Primitives Proto Curve Crypto IdentityKey.
Open Scope string_scope.
Open Scope list_scope.
Open Scope Z_scope.

Definition CIPHERTEXT_MESSAGE_CURRENT_VERSION : Z := 4.
Definition CIPHERTEXT_MESSAGE_PRE_KYBER_VERSION : Z := 3.
Definition SENDERKEY_MESSAGE_CURRENT_VERSION : Z := 3.

(** [((message_version & 0xF) << 4) | low]. *)
Definition version_byte (message_version low : Z) : byte :=
  as_u8 (Z.lor (Z.shiftl (Z.land message_version 15) 4) low).

(** [value[0] >> 4]. *)
Definition version_of (b : byte) : Z := Z.shiftr (u8 b) 4.

(** The two version checks each parser makes. *)
Definition check_version (lowest highest v : Z) : Result unit :=
  if v <? lowest then Err (LegacyCiphertextVersion v)
  else if highest <? v then Err (UnrecognizedCiphertextVersion v)
  else Ok tt.

(** [&v[..v.len() - n]] and [&v[v.len() - n..]]: a shorter vector panics. *)
Definition split_tail (n : nat) (v : bytes) : Result (bytes * bytes) :=
  if (length v <? n)%nat then Panic
  else Ok (take (length v - n) v, drop (length v - n) v).

Record SignalMessage := mkSignalMessage {
  sm_message_version : Z;
  sm_sender_ratchet_key : PublicKey;
  sm_counter : Z;
  sm_previous_counter : Z;
  sm_ciphertext : bytes;
  sm_pq_ratchet : bytes;
  sm_serialized : bytes
}.

Record KyberPayload := mkKyberPayload { kyb_pre_key_id : Z; kyb_ciphertext : bytes }.

Record PreKeySignalMessage := mkPreKeySignalMessage {
  pk_message_version : Z;
  pk_registration_id : Z;
  pk_pre_key_id : option Z;
  pk_signed_pre_key_id : Z;
  pk_kyber_payload : option KyberPayload;
  pk_base_key : PublicKey;
  pk_identity_key : IdentityKey;
  pk_message : SignalMessage;
  pk_serialized : bytes
}.

Record SenderKeyMessage := mkSenderKeyMessage {
  sk_message_version : Z;
  sk_distribution_id : Uuid;
  sk_chain_id : Z;
  sk_iteration : Z;
  sk_ciphertext : bytes;
  sk_serialized : bytes
}.

Record SenderKeyDistributionMessage := mkSenderKeyDistributionMessage {
  skd_message_version : Z;
  skd_distribution_id : Uuid;
  skd_chain_id : Z;
  skd_iteration : Z;
  skd_chain_key : bytes;
  skd_signing_key : PublicKey;
  skd_serialized : bytes
}.

Record PlaintextContent := mkPlaintextContent { pc_serialized : bytes }.

Record DecryptionErrorMessage := mkDecryptionErrorMessage {
  de_ratchet_key : option PublicKey;
  de_timestamp : Z;
  de_device_id : Z;
  de_serialized : bytes
}.

Inductive CiphertextMessage :=
| CMSignalMessage (m : SignalMessage)
| CMPreKeySignalMessage (m : PreKeySignalMessage)
| CMSenderKeyMessage (m : SenderKeyMessage)
| CMPlaintextContent (m : PlaintextContent).

Definition message_type (m : CiphertextMessage) : CiphertextMessageType :=
  match m with
  | CMSignalMessage _ => Whisper
  | CMPreKeySignalMessage _ => PreKey
  | CMSenderKeyMessage _ => SenderKey
  | CMPlaintextContent _ => Plaintext
  end.

Definition CiphertextMessage_serialize (m : CiphertextMessage) : bytes :=
  match m with
  | CMSignalMessage x => sm_serialized x
  | CMPreKeySignalMessage x => pk_serialized x
  | CMSenderKeyMessage x => sk_serialized x
  | CMPlaintextContent x => pc_serialized x
  end.

(** ** SignalMessage *)

Section signal_message.
Context {P : Primitives} `{!Prost wire.SignalMessage}.

Definition MAC_LENGTH : nat := 8.

Definition compute_mac (sender_identity_key receiver_identity_key : IdentityKey)
    (mac_key message : bytes) : Result bytes :=
  if negb (length mac_key =? 32)%nat then Err (InvalidMacKeyLength (length mac_key))
  else Ok (take MAC_LENGTH
             (arr (hmac_sha256_mac mac_key
                     (PublicKey_serialize (ik_public_key sender_identity_key) ++
                      PublicKey_serialize (ik_public_key receiver_identity_key) ++ message)))).

Definition SignalMessage_new (message_version : Z) (mac_key : bytes)
    (sender_ratchet_key : PublicKey) (counter previous_counter : Z) (ciphertext : bytes)
    (sender_identity_key receiver_identity_key : IdentityKey) (pq_ratchet : bytes)
  : Result SignalMessage :=
  let message := wire.mkSignalMessage
    (Some (PublicKey_serialize sender_ratchet_key)) (Some counter) (Some previous_counter)
    (Some ciphertext) (if (length pq_ratchet =? 0)%nat then None else Some pq_ratchet) in
  let serialized :=
    version_byte message_version CIPHERTEXT_MESSAGE_CURRENT_VERSION :: encode_to_vec message in
  mac ← compute_mac sender_identity_key receiver_identity_key mac_key serialized;
  Ok (mkSignalMessage message_version sender_ratchet_key counter previous_counter ciphertext
        pq_ratchet (serialized ++ mac)).

Definition verify_mac (m : SignalMessage) (sender_identity_key receiver_identity_key : IdentityKey)
    (mac_key : bytes) : Result bool :=
  '(body, their_mac) ← split_tail MAC_LENGTH (sm_serialized m);
  our_mac ← compute_mac sender_identity_key receiver_identity_key mac_key body;
  Ok (bool_decide (our_mac = their_mac)).

Definition SignalMessage_try_from (value : bytes) : Result SignalMessage :=
  if (length value <? MAC_LENGTH + 1)%nat then Err (CiphertextMessageTooShort (length value))
  else
    let message_version := version_of (default Byte.x00 (head value)) in
    _ ← check_version CIPHERTEXT_MESSAGE_PRE_KYBER_VERSION
                      CIPHERTEXT_MESSAGE_CURRENT_VERSION message_version;
    proto_structure ← ok_or InvalidProtobufEncoding
      (decode_pb (A := wire.SignalMessage) (slice 1 (length value - MAC_LENGTH) value));
    sender_ratchet_key ← ok_or InvalidProtobufEncoding (wire.sm_ratchet_key proto_structure);
    sender_ratchet_key ← map_err from_CurveError (PublicKey_deserialize sender_ratchet_key);
    counter ← ok_or InvalidProtobufEncoding (wire.sm_counter proto_structure);
    let previous_counter := default 0 (wire.sm_previous_counter proto_structure) in
    ciphertext ← ok_or InvalidProtobufEncoding (wire.sm_ciphertext proto_structure);
    Ok (mkSignalMessage message_version sender_ratchet_key counter previous_counter ciphertext
          (default [] (wire.sm_pq_ratchet proto_structure)) value).
End signal_message.

(** ** PreKeySignalMessage *)

Section pre_key_signal_message.
Context {P : Primitives} `{!Prost wire.SignalMessage, !Prost wire.PreKeySignalMessage}.

Definition PreKeySignalMessage_new (message_version registration_id : Z)
    (pre_key_id : option Z) (signed_pre_key_id : Z) (kyber_payload : option KyberPayload)
    (base_key : PublicKey) (identity_key : IdentityKey) (message : SignalMessage)
  : Result PreKeySignalMessage :=
  let proto_message := wire.mkPreKeySignalMessage
    (Some registration_id) pre_key_id (Some signed_pre_key_id)
    (kyb_pre_key_id <$> kyber_payload) (kyb_ciphertext <$> kyber_payload)
    (Some (PublicKey_serialize base_key)) (Some (IdentityKey_serialize identity_key))
    (Some (sm_serialized message)) in
  Ok (mkPreKeySignalMessage message_version registration_id pre_key_id signed_pre_key_id
        kyber_payload base_key identity_key message
        (version_byte message_version CIPHERTEXT_MESSAGE_CURRENT_VERSION
           :: encode_to_vec proto_message)).

Definition kyber_pre_key_id (m : PreKeySignalMessage) : option Z :=
  kyb_pre_key_id <$> pk_kyber_payload m.
Definition kyber_ciphertext (m : PreKeySignalMessage) : option bytes :=
  kyb_ciphertext <$> pk_kyber_payload m.

Definition PreKeySignalMessage_try_from (value : bytes) : Result PreKeySignalMessage :=
  match value with
  | [] => Err (CiphertextMessageTooShort (length value))
  | first :: rest =>
      let message_version := version_of first in
      _ ← check_version CIPHERTEXT_MESSAGE_PRE_KYBER_VERSION
                        CIPHERTEXT_MESSAGE_CURRENT_VERSION message_version;
      proto_structure ← ok_or InvalidProtobufEncoding
        (decode_pb (A := wire.PreKeySignalMessage) rest);
      base_key ← ok_or InvalidProtobufEncoding (wire.pksm_base_key proto_structure);
      identity_key ← ok_or InvalidProtobufEncoding (wire.pksm_identity_key proto_structure);
      message ← ok_or InvalidProtobufEncoding (wire.pksm_message proto_structure);
      signed_pre_key_id ←
        ok_or InvalidProtobufEncoding (wire.pksm_signed_pre_key_id proto_structure);
      base_key ← map_err from_CurveError (PublicKey_deserialize base_key);
      kyber_payload ←
        match wire.pksm_kyber_pre_key_id proto_structure,
              wire.pksm_kyber_ciphertext proto_structure with
        | Some id, Some ct => Ok (Some (mkKyberPayload id ct))
        | None, None =>
            if message_version <=? CIPHERTEXT_MESSAGE_PRE_KYBER_VERSION then Ok None
            else Err (InvalidMessage PreKey
                        "Kyber pre key must be present for this session version")
        | _, _ => Err (InvalidMessage PreKey
                    "Both or neither kyber pre_key_id and kyber_ciphertext can be present")
        end;
      identity_key ← IdentityKey_decode identity_key;
      message ← SignalMessage_try_from message;
      Ok (mkPreKeySignalMessage message_version
            (default 0 (wire.pksm_registration_id proto_structure))
            (wire.pksm_pre_key_id proto_structure) signed_pre_key_id kyber_payload base_key
            identity_key message value)
  end.
End pre_key_signal_message.

(** ** Sender key messages *)

(** [Uuid::from_slice(bytes).ok()]. *)
Definition Uuid_from_slice (b : bytes) : option Uuid := try_array 16 b.

Section sender_key_messages.
Context {P : Primitives}
  `{!Prost wire.SenderKeyMessage, !Prost wire.SenderKeyDistributionMessage}.

Definition SIGNATURE_LEN : nat := 64.

(** The message keeps the current version, whatever version it is built
    for. *)
Definition SenderKeyMessage_new (message_version : Z) (distribution_id : Uuid)
    (chain_id iteration : Z) (ciphertext : bytes) (signature_key : PrivateKey)
  : M Rng SignalProtocolError SenderKeyMessage :=
  let proto_message := wire.mkSenderKeyMessage (Some (arr distribution_id)) (Some chain_id)
                         (Some iteration) (Some ciphertext) in
  let serialized :=
    version_byte message_version SENDERKEY_MESSAGE_CURRENT_VERSION
      :: encode_to_vec proto_message in
  signature ← map_err_M from_CurveError (calculate_signature signature_key serialized);
  mret (mkSenderKeyMessage SENDERKEY_MESSAGE_CURRENT_VERSION distribution_id chain_id iteration
          ciphertext (serialized ++ signature)).

Definition SenderKeyMessage_verify_signature (m : SenderKeyMessage) (signature_key : PublicKey)
  : Result bool :=
  '(body, signature) ← split_tail SIGNATURE_LEN (sk_serialized m);
  Ok (verify_signature signature_key body signature).

Definition SenderKeyMessage_try_from (value : bytes) : Result SenderKeyMessage :=
  if (length value <? 1 + SIGNATURE_LEN)%nat then Err (CiphertextMessageTooShort (length value))
  else
    let message_version := version_of (default Byte.x00 (head value)) in
    _ ← check_version SENDERKEY_MESSAGE_CURRENT_VERSION
                      SENDERKEY_MESSAGE_CURRENT_VERSION message_version;
    proto_structure ← ok_or InvalidProtobufEncoding
      (decode_pb (A := wire.SenderKeyMessage) (slice 1 (length value - SIGNATURE_LEN) value));
    distribution_id ← ok_or InvalidProtobufEncoding
      (wire.skm_distribution_uuid proto_structure ≫= Uuid_from_slice);
    chain_id ← ok_or InvalidProtobufEncoding (wire.skm_chain_id proto_structure);
    iteration ← ok_or InvalidProtobufEncoding (wire.skm_iteration proto_structure);
    ciphertext ← ok_or InvalidProtobufEncoding (wire.skm_ciphertext proto_structure);
    Ok (mkSenderKeyMessage message_version distribution_id chain_id iteration ciphertext value).

Definition SenderKeyDistributionMessage_new (message_version : Z) (distribution_id : Uuid)
    (chain_id iteration : Z) (chain_key : bytes) (signing_key : PublicKey)
  : Result SenderKeyDistributionMessage :=
  let proto_message := wire.mkSenderKeyDistributionMessage (Some (arr distribution_id))
    (Some chain_id) (Some iteration) (Some chain_key)
    (Some (PublicKey_serialize signing_key)) in
  Ok (mkSenderKeyDistributionMessage message_version distribution_id chain_id iteration
        chain_key signing_key
        (version_byte message_version SENDERKEY_MESSAGE_CURRENT_VERSION
           :: encode_to_vec proto_message)).

Definition SenderKeyDistributionMessage_try_from (value : bytes)
  : Result SenderKeyDistributionMessage :=
  if (length value <? 1 + 32 + 32)%nat then Err (CiphertextMessageTooShort (length value))
  else
    let message_version := version_of (default Byte.x00 (head value)) in
    _ ← check_version SENDERKEY_MESSAGE_CURRENT_VERSION
                      SENDERKEY_MESSAGE_CURRENT_VERSION message_version;
    proto_structure ← ok_or InvalidProtobufEncoding
      (decode_pb (A := wire.SenderKeyDistributionMessage) (tail value));
    distribution_id ← ok_or InvalidProtobufEncoding
      (wire.skdm_distribution_uuid proto_structure ≫= Uuid_from_slice);
    chain_id ← ok_or InvalidProtobufEncoding (wire.skdm_chain_id proto_structure);
    iteration ← ok_or InvalidProtobufEncoding (wire.skdm_iteration proto_structure);
    chain_key ← ok_or InvalidProtobufEncoding (wire.skdm_chain_key proto_structure);
    signing_key ← ok_or InvalidProtobufEncoding (wire.skdm_signing_key proto_structure);
    if negb (length chain_key =? 32)%nat || negb (length signing_key =? 33)%nat
    then Err InvalidProtobufEncoding
    else
      signing_key ← map_err from_CurveError (PublicKey_deserialize signing_key);
      Ok (mkSenderKeyDistributionMessage message_version distribution_id chain_id iteration
            chain_key signing_key value).
End sender_key_messages.

(** ** Plaintext content and decryption errors *)

Definition PLAINTEXT_CONTEXT_IDENTIFIER_BYTE : byte := Byte.xc0.
Definition PADDING_BOUNDARY_BYTE : byte := Byte.x80.

(** [&self.serialized[1..]]. *)
Definition PlaintextContent_body (m : PlaintextContent) : Result bytes :=
  match pc_serialized m with [] => Panic | _ :: body => Ok body end.

Section plaintext.
Context {P : Primitives}
  `{!Prost wire.SignalMessage, !Prost wire.PreKeySignalMessage,
    !Prost service.Content, !Prost service.DecryptionErrorMessage}.

(** [From<DecryptionErrorMessage> for PlaintextContent]. *)
Definition PlaintextContent_from (message : DecryptionErrorMessage) : PlaintextContent :=
  let proto_structure := service.mkContent None None None None None None None
                           (Some (de_serialized message)) in
  mkPlaintextContent
    ([PLAINTEXT_CONTEXT_IDENTIFIER_BYTE] ++ encode_to_vec proto_structure
       ++ [PADDING_BOUNDARY_BYTE]).

Definition PlaintextContent_try_from (value : bytes) : Result PlaintextContent :=
  match value with
  | [] => Err (CiphertextMessageTooShort 0)
  | b :: _ =>
      if negb (bool_decide (b = PLAINTEXT_CONTEXT_IDENTIFIER_BYTE))
      then Err (UnrecognizedMessageVersion (u8 b))
      else Ok (mkPlaintextContent value)
  end.

Definition for_original (original_bytes : bytes) (original_type : CiphertextMessageType)
    (original_timestamp original_sender_device_id : Z) : Result DecryptionErrorMessage :=
  ratchet_key ←
    match original_type with
    | Whisper => m ← SignalMessage_try_from original_bytes; Ok (Some (sm_sender_ratchet_key m))
    | PreKey => m ← PreKeySignalMessage_try_from original_bytes;
                Ok (Some (sm_sender_ratchet_key (pk_message m)))
    | SenderKey => Ok None
    | Plaintext => Err (InvalidArgument
        "cannot create a DecryptionErrorMessage for plaintext content; it is not encrypted")
    end;
  let proto_message := service.mkDecryptionErrorMessage
    (PublicKey_serialize <$> ratchet_key) (Some original_timestamp)
    (Some original_sender_device_id) in
  Ok (mkDecryptionErrorMessage ratchet_key original_timestamp original_sender_device_id
        (encode_to_vec proto_message)).

Definition DecryptionErrorMessage_try_from (value : bytes) : Result DecryptionErrorMessage :=
  proto_structure ← ok_or InvalidProtobufEncoding
    (decode_pb (A := service.DecryptionErrorMessage) value);
  timestamp ← ok_or InvalidProtobufEncoding (service.dem_timestamp proto_structure);
  ratchet_key ← match service.dem_ratchet_key proto_structure with
                | None => Ok None
                | Some k => k ← map_err from_CurveError (PublicKey_deserialize k); Ok (Some k)
                end;
  let device_id := default 0 (service.dem_device_id proto_structure) in
  Ok (mkDecryptionErrorMessage ratchet_key timestamp device_id value).

Definition extract_decryption_error_message_from_serialized_content (b : bytes)
  : Result DecryptionErrorMessage :=
  if negb (bool_decide (last b = Some PADDING_BOUNDARY_BYTE)) then Err InvalidProtobufEncoding
  else
    content ← ok_or InvalidProtobufEncoding (decode_pb (A := service.Content) (vec_pop b));
    inner ← ok_or (InvalidArgument
              "Content does not contain DecryptionErrorMessage")
              (service.ct_decryption_error_message content);
    DecryptionErrorMessage_try_from inner.
End plaintext.

(** The encoding of a distribution message holds the bytes of its chain key and
    of its signing key, which the parser's length check relies on. *)
Class SkdmEncodingLength `{Prost wire.SenderKeyDistributionMessage} := {
  skdm_encoding_length : forall m chain_key signing_key,
    wire.skdm_chain_key m = Some chain_key -> wire.skdm_signing_key m = Some signing_key ->
    (length chain_key + length signing_key <= length (encode_to_vec m))%nat
}.

(** ** Version bytes and parts of a serialization *)

Lemma version_of_version_byte mv low :
  0 <= mv < 16 -> 0 <= low < 16 -> version_of (version_byte mv low) = mv.
Proof.
  intros Hm Hl. unfold version_of, version_byte. rewrite u8_as_u8.
  set (p := fun mv low => implb ((mv <? 16) && (low <? 16))
    (Z.shiftr (Z.lor (Z.shiftl (Z.land mv 15) 4) low mod 256) 4 =? mv)).
  assert (Hp : p mv low = true) by (apply all_byte_pairs_spec; [by vm_compute|lia|lia]).
  unfold p in Hp. rewrite (proj2 (Z.ltb_lt mv 16)), (proj2 (Z.ltb_lt low 16)) in Hp by lia.
  by apply Z.eqb_eq in Hp.
Qed.

Lemma check_version_ok lo hi v : check_version lo hi v = Ok tt <-> lo <= v <= hi.
Proof.
  unfold check_version. destruct (Z.ltb_spec v lo), (Z.ltb_spec hi v);
    (split; [try done; intros; lia|intros; try done; lia]).
Qed.

Lemma split_tail_app n a b : length b = n -> split_tail n (a ++ b) = Ok (a, b).
Proof.
  intros <-. unfold split_tail. rewrite length_app.
  destruct (Nat.ltb_spec (length a + length b) (length b)); [lia|].
  replace (length a + length b - length b)%nat with (length a) by lia.
  by rewrite take_app_length, drop_app_length.
Qed.

(** The middle of a serialization: what lies between the version byte and an
    [n]-byte trailer. *)
Lemma slice_body v (body tl : bytes) n :
  length tl = n -> slice 1 (length (v :: body ++ tl) - n) (v :: body ++ tl) = body.
Proof.
  intros <-. unfold slice. cbn [drop length]. rewrite length_app.
  replace (S (length body + length tl) - length tl - 1)%nat with (length body) by lia.
  apply take_app_length.
Qed.

Lemma head_default (b : byte) l : default Byte.x00 (head (b :: l)) = b.
Proof. done. Qed.

Lemma option_nil_pq (pq : bytes) :
  default [] (if (length pq =? 0)%nat then None else Some pq) = pq.
Proof. by destruct pq. Qed.

(** ** SignalMessage: what [new] builds, [try_from] parses *)

Section signal_message_facts.
Context {P : Primitives} `{!Prost wire.SignalMessage}
  {L : ProstLaws wire.SignalMessage wire.SignalMessage_wf}.

Lemma compute_mac_ok s r k m :
  length k = 32%nat -> exists mac, compute_mac s r k m = Ok mac /\ length mac = 8%nat.
Proof.
  intros Hk. unfold compute_mac. rewrite Hk. cbn [negb Nat.eqb]. eexists. split; [done|].
  rewrite length_take, array_length. done.
Qed.

(** A message as [new] builds it parses to itself, and its MAC verifies
    under the same key and identities. *)
Lemma SignalMessage_new_spec v k rk c pc ct s r pq :
  length k = 32%nat -> 3 <= v <= 4 -> is_u32 c -> is_u32 pc ->
  exists m,
    SignalMessage_new v k rk c pc ct s r pq = Ok m /\
    m = mkSignalMessage v rk c pc ct pq (sm_serialized m) /\
    SignalMessage_try_from (sm_serialized m) = Ok m /\
    verify_mac m s r k = Ok true.
Proof.
  intros Hk Hv Hc Hpc. unfold SignalMessage_new.
  set (w := wire.mkSignalMessage _ _ _ _ _). set (vb := version_byte _ _).
  destruct (compute_mac_ok s r k (vb :: encode_to_vec w) Hk) as (mac & Hmac & Hl).
  assert (Hvb : version_of vb = v)
    by (unfold vb; rewrite version_of_version_byte;
        unfold CIPHERTEXT_MESSAGE_CURRENT_VERSION; lia).
  clearbody vb.
  rewrite Hmac. cbn [mbind outcome_bind]. eexists. split_and!; [done|done| |].
  - cbn [sm_serialized]. change ((vb :: encode_to_vec w) ++ mac) with (vb :: encode_to_vec w ++ mac).
    unfold SignalMessage_try_from. rewrite slice_body by done.
    destruct (Nat.ltb_spec (length (vb :: encode_to_vec w ++ mac)) (MAC_LENGTH + 1)) as [H|_].
    { cbn [length] in H. rewrite length_app in H. unfold MAC_LENGTH in H. lia. }
    rewrite head_default, Hvb.
    rewrite (proj2 (check_version_ok _ _ _))
      by (unfold CIPHERTEXT_MESSAGE_CURRENT_VERSION, CIPHERTEXT_MESSAGE_PRE_KYBER_VERSION; lia).
    rewrite decode_encode_pb by done. subst w.
    cbn [mbind outcome_bind ok_or wire.sm_ratchet_key wire.sm_counter wire.sm_previous_counter
         wire.sm_ciphertext wire.sm_pq_ratchet].
    rewrite PublicKey_deserialize_serialize. cbn [mbind outcome_bind map_err from_option default].
    by rewrite option_nil_pq.
  - unfold verify_mac. cbn [sm_serialized]. rewrite split_tail_app by done.
    cbn [mbind outcome_bind]. rewrite Hmac. cbn [mbind outcome_bind].
    by rewrite bool_decide_eq_true_2.
Qed.

(** A [SignalMessage] built for a supported version parses back from its
    serialization, field by field, and its MAC verifies under the key and the
    identities it was built with; a MAC that verifies is the truncated HMAC
    of the two identities and everything before it. *)
Theorem signal_message_round_trip v k rk c pc ct s r pq :
  length k = 32%nat -> 3 <= v <= 4 -> is_u32 c -> is_u32 pc ->
  (exists m,
    SignalMessage_new v k rk c pc ct s r pq = Ok m /\
    SignalMessage_try_from (sm_serialized m) = Ok m /\
    verify_mac m s r k = Ok true /\
    sm_message_version m = v /\ sm_sender_ratchet_key m = rk /\ sm_counter m = c /\
    sm_previous_counter m = pc /\ sm_ciphertext m = ct /\ sm_pq_ratchet m = pq) /\
  (forall m s' r',
    verify_mac m s' r' k = Ok true ->
    exists body, sm_serialized m = body ++ take 8 (arr (hmac_sha256_mac k
      (PublicKey_serialize (ik_public_key s') ++ PublicKey_serialize (ik_public_key r') ++ body)))).
Proof.
  intros Hk Hv Hc Hpc. split.
  - destruct (SignalMessage_new_spec v k rk c pc ct s r pq Hk Hv Hc Hpc)
      as (m & Hnew & Hm & Hparse & Hmac).
    exists m. split_and!; try done; by rewrite Hm.
  - intros m s' r'. unfold verify_mac, split_tail, compute_mac. rewrite Hk.
    destruct (Nat.ltb_spec (length (sm_serialized m)) MAC_LENGTH); [done|].
    cbn -[take]. intros [= Heq%bool_decide_eq_true].
    exists (take (length (sm_serialized m) - MAC_LENGTH) (sm_serialized m)).
    unfold MAC_LENGTH in *. by rewrite Heq, take_drop.
Qed.

(** Every parse error of a [SignalMessage]'s envelope, in the order the code
    checks. *)
Lemma SignalMessage_try_from_rejects value :
  ((length value < 9)%nat ->
     SignalMessage_try_from value = Err (CiphertextMessageTooShort (length value))) /\
  (forall b rest, value = b :: rest -> (9 <= length value)%nat ->
     (version_of b < 3 -> SignalMessage_try_from value = Err (LegacyCiphertextVersion (version_of b))) /\
     (4 < version_of b ->
        SignalMessage_try_from value = Err (UnrecognizedCiphertextVersion (version_of b)))).
Proof.
  unfold SignalMessage_try_from, MAC_LENGTH. split.
  - intros H. destruct (Nat.ltb_spec (length value) (8 + 1)); [done|lia].
  - intros b rest -> Hl. destruct (Nat.ltb_spec (length (b :: rest)) (8 + 1)); [lia|].
    rewrite head_default. unfold check_version, CIPHERTEXT_MESSAGE_PRE_KYBER_VERSION,
      CIPHERTEXT_MESSAGE_CURRENT_VERSION.
    split; intros Hv.
    + by rewrite (proj2 (Z.ltb_lt _ _)) by done.
    + destruct (Z.ltb_spec (version_of b) 3); [lia|].
      by rewrite (proj2 (Z.ltb_lt _ _)) by done.
Qed.
End signal_message_facts.

(** ** PreKeySignalMessage *)

Section pre_key_facts.
Context {P : Primitives} `{!Prost wire.SignalMessage, !Prost wire.PreKeySignalMessage}
  {L : ProstLaws wire.PreKeySignalMessage wire.PreKeySignalMessage_wf}.

Definition kyber_payload_ok (v : Z) (p : option KyberPayload) : Prop :=
  match p with Some p => is_u32 (kyb_pre_key_id p) | None => v = 3 end.

(** A pre-key message around a parseable inner message parses to itself; the
    Kyber payload may be missing only in version 3. *)
Lemma PreKeySignalMessage_new_spec v reg pk spk kyb bk ik inner :
  3 <= v <= 4 -> is_u32 reg -> opt_in_range is_u32 pk -> is_u32 spk ->
  kyber_payload_ok v kyb ->
  SignalMessage_try_from (sm_serialized inner) = Ok inner ->
  exists m,
    PreKeySignalMessage_new v reg pk spk kyb bk ik inner = Ok m /\
    m = mkPreKeySignalMessage v reg pk spk kyb bk ik inner (pk_serialized m) /\
    PreKeySignalMessage_try_from (pk_serialized m) = Ok m.
Proof.
  intros Hv Hreg Hpk Hspk Hkyb Hinner. unfold PreKeySignalMessage_new.
  eexists. split_and!; [done|done|]. cbn [pk_serialized]. unfold PreKeySignalMessage_try_from.
  rewrite version_of_version_byte by (unfold CIPHERTEXT_MESSAGE_CURRENT_VERSION; lia).
  rewrite (proj2 (check_version_ok _ _ _))
    by (unfold CIPHERTEXT_MESSAGE_CURRENT_VERSION, CIPHERTEXT_MESSAGE_PRE_KYBER_VERSION; lia).
  rewrite decode_encode_pb.
  2: { split_and!; [done|done|done|]. by destruct kyb. }
  cbn [mbind outcome_bind ok_or wire.pksm_base_key wire.pksm_identity_key wire.pksm_message
       wire.pksm_signed_pre_key_id wire.pksm_kyber_pre_key_id wire.pksm_kyber_ciphertext
       wire.pksm_registration_id wire.pksm_pre_key_id default from_option].
  rewrite PublicKey_deserialize_serialize. cbn [mbind outcome_bind map_err].
  destruct kyb as [[id ct]|]; cbn [fmap option_fmap option_map kyb_pre_key_id kyb_ciphertext
    mbind outcome_bind kyber_payload_ok] in *.
  - by rewrite IdentityKey_decode_serialize; cbn [mbind outcome_bind]; rewrite Hinner.
  - subst v. unfold CIPHERTEXT_MESSAGE_PRE_KYBER_VERSION. cbn [Z.leb Z.compare Pos.compare Pos.compare_cont].
    cbn [mbind outcome_bind].
    by rewrite IdentityKey_decode_serialize; cbn [mbind outcome_bind]; rewrite Hinner.
Qed.

(** A pre-key message parses back from its serialization with the message
    inside it, whatever ids are present: with a Kyber payload in a current
    version, without one only in version 3; and in the current version the
    parser accepts nothing without a Kyber payload. *)
Theorem pre_key_message_round_trip v reg pk spk kyb bk ik inner :
  3 <= v <= 4 -> is_u32 reg -> opt_in_range is_u32 pk -> is_u32 spk ->
  kyber_payload_ok v kyb ->
  SignalMessage_try_from (sm_serialized inner) = Ok inner ->
  (exists m, PreKeySignalMessage_new v reg pk spk kyb bk ik inner = Ok m /\
     PreKeySignalMessage_try_from (pk_serialized m) = Ok m /\ pk_message m = inner /\
     pk_pre_key_id m = pk /\ pk_signed_pre_key_id m = spk /\ pk_kyber_payload m = kyb /\
     pk_base_key m = bk /\ pk_identity_key m = ik /\ pk_registration_id m = reg) /\
  (forall data m, PreKeySignalMessage_try_from data = Ok m ->
     3 <= pk_message_version m <= 4 /\ (pk_message_version m = 4 -> is_Some (pk_kyber_payload m))).
Proof.
  intros Hv Hreg Hpk Hspk Hkyb Hinner. split.
  - destruct (PreKeySignalMessage_new_spec v reg pk spk kyb bk ik inner Hv Hreg Hpk Hspk Hkyb Hinner)
      as (m & Hnew & Hm & Hparse).
    exists m. split; [done|]. split; [done|]. by rewrite Hm.
  - intros data m H. unfold PreKeySignalMessage_try_from in H. destruct data as [|b rest]; [done|].
    cbv zeta in H. inv_M. cbn [pk_message_version pk_kyber_payload].
    match goal with H : check_version _ _ _ = Ok ?u |- _ =>
      destruct u; apply check_version_ok in H; unfold CIPHERTEXT_MESSAGE_PRE_KYBER_VERSION,
        CIPHERTEXT_MESSAGE_CURRENT_VERSION in H end.
    split; [done|]. intros Hv4. repeat case_match; simplify_eq; try done.
    match goal with H : (_ <=? _) = true |- _ => rewrite Hv4 in H; done end.
Qed.
End pre_key_facts.

(** ** Sender key messages *)

Section sender_key_facts.
Context {P : Primitives} {X : X25519Laws} {Ed : EdwardsLaws}
  `{!Prost wire.SenderKeyMessage, !Prost wire.SenderKeyDistributionMessage}
  {L : ProstLaws wire.SenderKeyMessage wire.SenderKeyMessage_wf}
  {LD : ProstLaws wire.SenderKeyDistributionMessage wire.SenderKeyDistributionMessage_wf}
  {LL : SkdmEncodingLength}.

Lemma sender_key_version : version_of (version_byte 3 SENDERKEY_MESSAGE_CURRENT_VERSION) = 3.
Proof. done. Qed.

Lemma SenderKeyMessage_new_spec did chain it ct kp rng :
  well_formed_pair kp -> is_u32 chain -> is_u32 it ->
  exists m rng',
    SenderKeyMessage_new 3 did chain it ct (kp_private_key kp) rng = (Ok m, rng') /\
    m = mkSenderKeyMessage 3 did chain it ct (sk_serialized m) /\
    SenderKeyMessage_try_from (sk_serialized m) = Ok m /\
    SenderKeyMessage_verify_signature m (kp_public_key kp) = Ok true.
Proof.
  intros Hkp Hchain Hit. unfold SenderKeyMessage_new. rewrite M_bind_eq.
  set (w := wire.mkSenderKeyMessage _ _ _ _). set (vb := version_byte _ _).
  destruct (calculate_signature_verifies kp rng [vb :: encode_to_vec w] [vb :: encode_to_vec w] Hkp eq_refl)
    as (sig & rng' & Hsig & Hver & Hlen).
  unfold map_err_M, calculate_signature. rewrite Hsig. cbn [map_err].
  eexists _, rng'. split_and!; [done|done| |].
  - cbn [sk_serialized]. change ((vb :: encode_to_vec w) ++ sig) with (vb :: encode_to_vec w ++ sig).
    unfold SenderKeyMessage_try_from. rewrite slice_body by done.
    destruct (Nat.ltb_spec (length (vb :: encode_to_vec w ++ sig)) (1 + SIGNATURE_LEN)) as [H|_].
    { cbn [length] in H. rewrite length_app in H. unfold SIGNATURE_LEN in H. lia. }
    assert (Hvb : version_of vb = 3) by apply sender_key_version. rewrite head_default, Hvb.
    rewrite (proj2 (check_version_ok _ _ _)) by (unfold SENDERKEY_MESSAGE_CURRENT_VERSION; lia).
    rewrite decode_encode_pb by done. subst w.
    cbn [mbind outcome_bind ok_or wire.skm_distribution_uuid wire.skm_chain_id wire.skm_iteration
         wire.skm_ciphertext option_bind].
    unfold Uuid_from_slice. by rewrite try_array_arr.
  - unfold SenderKeyMessage_verify_signature. cbn [sk_serialized].
    rewrite split_tail_app by done. cbn [mbind outcome_bind]. unfold verify_signature. by rewrite Hver.
Qed.

Lemma SenderKeyDistributionMessage_new_spec did chain it ck pk :
  is_u32 chain -> is_u32 it -> length ck = 32%nat ->
  exists m,
    SenderKeyDistributionMessage_new 3 did chain it ck pk = Ok m /\
    m = mkSenderKeyDistributionMessage 3 did chain it ck pk (skd_serialized m) /\
    SenderKeyDistributionMessage_try_from (skd_serialized m) = Ok m.
Proof.
  intros Hchain Hit Hck. unfold SenderKeyDistributionMessage_new.
  set (w := wire.mkSenderKeyDistributionMessage _ _ _ _ _).
  eexists. split_and!; [done|done|]. cbn [skd_serialized].
  unfold SenderKeyDistributionMessage_try_from.
  pose proof (skdm_encoding_length w ck (PublicKey_serialize pk) eq_refl eq_refl) as Hlen.
  rewrite Hck, PublicKey_serialize_length in Hlen. cbn [length].
  destruct (Nat.ltb_spec (S (length (encode_to_vec w))) (1 + 32 + 32)); [lia|].
  rewrite head_default, sender_key_version.
  rewrite (proj2 (check_version_ok _ _ _)) by (unfold SENDERKEY_MESSAGE_CURRENT_VERSION; lia).
  cbn [tail]. rewrite decode_encode_pb by done. subst w.
  cbn [mbind outcome_bind ok_or wire.skdm_distribution_uuid wire.skdm_chain_id wire.skdm_iteration
       wire.skdm_chain_key wire.skdm_signing_key option_bind].
  unfold Uuid_from_slice. rewrite try_array_arr. cbn [ok_or mbind outcome_bind].
  rewrite Hck, PublicKey_serialize_length. cbn [Nat.eqb negb orb].
  by rewrite PublicKey_deserialize_serialize.
Qed.

(** Group messages and sender-key distribution messages parse back from
    their serialization, and the signature of a group message verifies under
    the key pair that signed it. *)
Theorem sender_key_messages_round_trip did chain it ct ck kp rng :
  well_formed_pair kp -> is_u32 chain -> is_u32 it -> length ck = 32%nat ->
  (exists m rng',
    SenderKeyMessage_new 3 did chain it ct (kp_private_key kp) rng = (Ok m, rng') /\
    SenderKeyMessage_try_from (sk_serialized m) = Ok m /\
    SenderKeyMessage_verify_signature m (kp_public_key kp) = Ok true) /\
  (exists m,
    SenderKeyDistributionMessage_new 3 did chain it ck (kp_public_key kp) = Ok m /\
    SenderKeyDistributionMessage_try_from (skd_serialized m) = Ok m).
Proof.
  intros Hkp Hc Hi Hck. split.
  - destruct (SenderKeyMessage_new_spec did chain it ct kp rng) as (m & rng' & ? & _ & ? & ?);
      naive_solver.
  - destruct (SenderKeyDistributionMessage_new_spec did chain it ck (kp_public_key kp))
      as (m & ? & _ & ?); naive_solver.
Qed.
End sender_key_facts.

(** ** Decryption error messages *)

Section decryption_error_facts.
Context {P : Primitives}
  `{!Prost wire.SignalMessage, !Prost wire.PreKeySignalMessage,
    !Prost service.Content, !Prost service.DecryptionErrorMessage}
  {LC : ProstLaws service.Content (fun _ => True)}
  {L : ProstLaws service.DecryptionErrorMessage service.DecryptionErrorMessage_wf}.

Lemma vec_pop_snoc {A} (l : list A) x : vec_pop (l ++ [x]) = l.
Proof.
  unfold vec_pop. rewrite length_app. cbn [length].
  replace (length l + 1 - 1)%nat with (length l) by lia. apply take_app_length.
Qed.

(** The decryption error built for any encrypted original parses back,
    directly and from the plaintext content that carries it; it names the
    original's ratchet key, and none is built for plaintext content. *)
Theorem decryption_error_round_trip original_bytes original_type ts dev :
  is_u64 ts -> is_u32 dev ->
  (forall m, for_original original_bytes original_type ts dev = Ok m ->
    DecryptionErrorMessage_try_from (de_serialized m) = Ok m /\
    (exists body, PlaintextContent_body (PlaintextContent_from m) = Ok body /\
       extract_decryption_error_message_from_serialized_content body = Ok m) /\
    PlaintextContent_try_from (pc_serialized (PlaintextContent_from m)) =
      Ok (PlaintextContent_from m) /\
    original_type <> Plaintext /\
    (original_type = Whisper -> exists sm, SignalMessage_try_from original_bytes = Ok sm /\
       de_ratchet_key m = Some (sm_sender_ratchet_key sm))).
Proof.
  intros Hts Hdev m Hm. unfold for_original in Hm. inv_M. rename x into rk.
  match goal with |- context [de_serialized ?m0] => set (m := m0) end.
  assert (Hback : DecryptionErrorMessage_try_from (de_serialized m) = Ok m).
  { unfold DecryptionErrorMessage_try_from. cbn [m de_serialized].
    rewrite decode_encode_pb by done.
    cbn [ok_or mbind outcome_bind service.dem_timestamp service.dem_ratchet_key
         service.dem_device_id default from_option].
    destruct rk as [rk|]; cbn [fmap option_fmap option_map mbind outcome_bind]; [|done].
    by rewrite PublicKey_deserialize_serialize. }
  split_and!; [done| |done| |].
  - unfold PlaintextContent_body, PlaintextContent_from. cbn [pc_serialized app].
    eexists. split; [done|]. unfold extract_decryption_error_message_from_serialized_content.
    rewrite last_snoc, bool_decide_eq_true_2 by done. cbn [negb].
    rewrite vec_pop_snoc, decode_encode_pb by done. done.
  - intros ->. done.
  - intros ->. destruct (SignalMessage_try_from original_bytes) as [sm| |]; [|done|done].
    exists sm. split; [done|]. cbn in H. injection H as <-. done.
Qed.
End decryption_error_facts.
