(* ===== verification/SessionState.v ===== *)
(** * SessionState: one ratchet session (rust/protocol/src/state/session.rs)

    [SessionState] wraps the stored [SessionStructure]; its methods are the
    functions below, those taking [&mut self] as [M SessionState].  Receiver
    chains are a vector searched by ratchet key, at most
    [MAX_RECEIVER_CHAINS] of them, each with at most [MAX_MESSAGE_KEYS] stored
    message keys, newest first. *)

From S2P Require Import Prelude Types Primitives Proto Curve Crypto IdentityKey RatchetKeys Messages.
Open Scope string_scope.
Open Scope list_scope.
Open Scope Z_scope.

(** ** Field updates of the stored structures *)

Module Upd.
Import storage.
Definition put_previous_counter v s := mkSessionStructure (ss_session_version s)
  (ss_local_identity_public s) (ss_remote_identity_public s) (ss_root_key s) v
  (ss_sender_chain s) (ss_receiver_chains s) (ss_pending_pre_key s) (ss_pending_kyber_pre_key s)
  (ss_remote_registration_id s) (ss_local_registration_id s) (ss_alice_base_key s)
  (ss_pq_ratchet_state s).
Definition put_root_key v s := mkSessionStructure (ss_session_version s)
  (ss_local_identity_public s) (ss_remote_identity_public s) v (ss_previous_counter s)
  (ss_sender_chain s) (ss_receiver_chains s) (ss_pending_pre_key s) (ss_pending_kyber_pre_key s)
  (ss_remote_registration_id s) (ss_local_registration_id s) (ss_alice_base_key s)
  (ss_pq_ratchet_state s).
Definition put_sender_chain v s := mkSessionStructure (ss_session_version s)
  (ss_local_identity_public s) (ss_remote_identity_public s) (ss_root_key s)
  (ss_previous_counter s) v (ss_receiver_chains s) (ss_pending_pre_key s)
  (ss_pending_kyber_pre_key s) (ss_remote_registration_id s) (ss_local_registration_id s)
  (ss_alice_base_key s) (ss_pq_ratchet_state s).
Definition put_receiver_chains v s := mkSessionStructure (ss_session_version s)
  (ss_local_identity_public s) (ss_remote_identity_public s) (ss_root_key s)
  (ss_previous_counter s) (ss_sender_chain s) v (ss_pending_pre_key s)
  (ss_pending_kyber_pre_key s) (ss_remote_registration_id s) (ss_local_registration_id s)
  (ss_alice_base_key s) (ss_pq_ratchet_state s).
Definition put_pending_pre_key v s := mkSessionStructure (ss_session_version s)
  (ss_local_identity_public s) (ss_remote_identity_public s) (ss_root_key s)
  (ss_previous_counter s) (ss_sender_chain s) (ss_receiver_chains s) v
  (ss_pending_kyber_pre_key s) (ss_remote_registration_id s) (ss_local_registration_id s)
  (ss_alice_base_key s) (ss_pq_ratchet_state s).
Definition put_pending_kyber_pre_key v s := mkSessionStructure (ss_session_version s)
  (ss_local_identity_public s) (ss_remote_identity_public s) (ss_root_key s)
  (ss_previous_counter s) (ss_sender_chain s) (ss_receiver_chains s) (ss_pending_pre_key s) v
  (ss_remote_registration_id s) (ss_local_registration_id s) (ss_alice_base_key s)
  (ss_pq_ratchet_state s).
Definition put_remote_registration_id v s := mkSessionStructure (ss_session_version s)
  (ss_local_identity_public s) (ss_remote_identity_public s) (ss_root_key s)
  (ss_previous_counter s) (ss_sender_chain s) (ss_receiver_chains s) (ss_pending_pre_key s)
  (ss_pending_kyber_pre_key s) v (ss_local_registration_id s) (ss_alice_base_key s)
  (ss_pq_ratchet_state s).
Definition put_local_registration_id v s := mkSessionStructure (ss_session_version s)
  (ss_local_identity_public s) (ss_remote_identity_public s) (ss_root_key s)
  (ss_previous_counter s) (ss_sender_chain s) (ss_receiver_chains s) (ss_pending_pre_key s)
  (ss_pending_kyber_pre_key s) (ss_remote_registration_id s) v (ss_alice_base_key s)
  (ss_pq_ratchet_state s).
Definition put_pq_ratchet_state v s := mkSessionStructure (ss_session_version s)
  (ss_local_identity_public s) (ss_remote_identity_public s) (ss_root_key s)
  (ss_previous_counter s) (ss_sender_chain s) (ss_receiver_chains s) (ss_pending_pre_key s)
  (ss_pending_kyber_pre_key s) (ss_remote_registration_id s) (ss_local_registration_id s)
  (ss_alice_base_key s) v.
Definition put_chain_key v c := mkChain (chain_sender_ratchet_key c)
  (chain_sender_ratchet_key_private c) v (chain_message_keys c).
Definition put_message_keys v c := mkChain (chain_sender_ratchet_key c)
  (chain_sender_ratchet_key_private c) (chain_chain_key c) v.
End Upd.

(** ** SessionState *)

Record SessionState := mkSessionState { session : storage.SessionStructure }.

(** Result of the [pub(crate)] methods, and those that also mutate. *)
Abbreviation SResult := (outcome InvalidSessionError).
Abbreviation SM := (M SessionState InvalidSessionError).
Abbreviation ISE := mkInvalidSessionError.

Definition upd (f : storage.SessionStructure -> storage.SessionStructure) (s : SessionState)
  : SessionState := mkSessionState (f (session s)).

(** [UnacknowledgedPreKeyMessageItems]. *)
Record UnacknowledgedPreKeyMessageItems := mkUnacknowledgedPreKeyMessageItems {
  un_pre_key_id : option Z;
  un_signed_pre_key_id : Z;
  un_base_key : PublicKey;
  un_kyber_pre_key_id : option Z;
  un_kyber_ciphertext : option bytes;
  un_timestamp : Z
}.

(** [UnacknowledgedPreKeyMessageItems::new]. *)
Definition Unacknowledged_new (pre_key_id : option Z) (signed_pre_key_id : Z)
    (base_key : PublicKey) (pending_kyber_pre_key : option storage.PendingKyberPreKey)
    (timestamp : Z) : UnacknowledgedPreKeyMessageItems :=
  mkUnacknowledgedPreKeyMessageItems pre_key_id signed_pre_key_id base_key
    (storage.pkpk_pre_key_id <$> pending_kyber_pre_key)
    (storage.pkpk_ciphertext <$> pending_kyber_pre_key) timestamp.

(** [SessionUsabilityRequirements], a [bitflags] over [u32]. *)
Definition SessionUsabilityRequirements := Z.
Definition NotStale : SessionUsabilityRequirements := Z.shiftl 1 0.
Definition EstablishedWithPqxdh : SessionUsabilityRequirements := Z.shiftl 1 1.
Definition SpqrRequired : SessionUsabilityRequirements := Z.shiftl 1 2.
Definition requirements_contains (r flag : SessionUsabilityRequirements) : bool :=
  Z.land r flag =? flag.

Definition SessionState_new (version : Z) (our_identity their_identity : IdentityKey)
    (root_key : RootKey) (alice_base_key : PublicKey) (pq_ratchet_state : bytes) : SessionState :=
  mkSessionState (storage.mkSessionStructure version
    (PublicKey_serialize (ik_public_key our_identity)) (IdentityKey_serialize their_identity)
    (arr (root_key_key root_key)) 0 None [] None None 0 0
    (PublicKey_serialize alice_base_key) pq_ratchet_state).

Definition alice_base_key (s : SessionState) : bytes := storage.ss_alice_base_key (session s).

Definition session_version (s : SessionState) : SResult Z :=
  if storage.ss_session_version (session s) =? 0 then Ok 2
  else Ok (storage.ss_session_version (session s)).

(** [.map_err(|_| InvalidSessionError(msg))]. *)
Definition or_ise {E A} (msg : string) (r : outcome E A) : SResult A :=
  map_err (fun _ => ISE msg) r.

Definition remote_identity_key (s : SessionState) : SResult (option IdentityKey) :=
  if (length (storage.ss_remote_identity_public (session s)) =? 0)%nat then Ok None
  else k ← or_ise "invalid remote identity key"
             (IdentityKey_decode (storage.ss_remote_identity_public (session s)));
       Ok (Some k).

Definition remote_identity_key_bytes (s : SessionState) : SResult (option bytes) :=
  k ← remote_identity_key s; Ok (fmap (M := option) IdentityKey_serialize k).

Definition local_identity_key (s : SessionState) : SResult IdentityKey :=
  or_ise "invalid local identity key"
    (IdentityKey_decode (storage.ss_local_identity_public (session s))).

Definition local_identity_key_bytes (s : SessionState) : SResult bytes :=
  k ← local_identity_key s; Ok (IdentityKey_serialize k).

Definition session_with_self (s : SessionState) : SResult bool :=
  remote ← remote_identity_key_bytes s;
  match remote : option bytes with
  | Some remote_id =>
      local_id ← local_identity_key_bytes s;
      Ok (bool_decide (remote_id = local_id))
  | None => Ok false
  end.

Definition previous_counter (s : SessionState) : Z := storage.ss_previous_counter (session s).
Definition set_previous_counter (ctr : Z) : SM unit := modify (upd (Upd.put_previous_counter ctr)).

Definition root_key (s : SessionState) : SResult RootKey :=
  b ← ok_or (ISE "invalid root key") (try_array 32 (storage.ss_root_key (session s)));
  Ok (mkRootKey b).
Definition set_root_key (k : RootKey) : SM unit :=
  modify (upd (Upd.put_root_key (arr (root_key_key k)))).

Definition sender_ratchet_key (s : SessionState) : SResult PublicKey :=
  match storage.ss_sender_chain (session s) with
  | None => Err (ISE "missing sender chain")
  | Some c => or_ise "invalid sender chain ratchet key"
                (PublicKey_deserialize (storage.chain_sender_ratchet_key c))
  end.

Definition sender_ratchet_private_key `{Primitives} (s : SessionState) : SResult PrivateKey :=
  match storage.ss_sender_chain (session s) with
  | None => Err (ISE "missing sender chain")
  | Some c => or_ise "invalid sender chain private ratchet key"
                (PrivateKey_deserialize (storage.chain_sender_ratchet_key_private c))
  end.

Definition pq_ratchet_state (s : SessionState) : bytes := storage.ss_pq_ratchet_state (session s).

Definition has_usable_sender_chain (now : Z) (requirements : SessionUsabilityRequirements)
    (s : SessionState) : SResult bool :=
  match storage.ss_sender_chain (session s) with
  | None => Ok false
  | Some _ =>
      stale ←
        (if requirements_contains requirements NotStale then
           match storage.ss_pending_pre_key (session s) with
           | Some pending_pre_key =>
               creation_timestamp ←
                 system_time_add 0 (Duration_from_secs (storage.ppk_timestamp pending_pre_key));
               expiry ← system_time_add creation_timestamp MAX_UNACKNOWLEDGED_SESSION_AGE;
               Ok (expiry <? now)
           | None => Ok false
           end
         else Ok false);
      if (stale : bool) then Ok false
      else
        pre_kyber ←
          (if requirements_contains requirements EstablishedWithPqxdh then
             v ← session_version s; Ok (v <=? CIPHERTEXT_MESSAGE_PRE_KYBER_VERSION)
           else Ok false);
        if (pre_kyber : bool) then Ok false
        else if requirements_contains requirements SpqrRequired
                && (length (pq_ratchet_state s) =? 0)%nat then Ok false
        else Ok true
  end.

(** The loop of [get_receiver_chain]. *)
Fixpoint find_receiver_chain (idx : nat) (chains : list storage.Chain) (sender : PublicKey)
  : SResult (option (storage.Chain * nat)) :=
  match chains with
  | [] => Ok None
  | chain :: chains =>
      chain_ratchet_key ← or_ise "invalid receiver chain ratchet key"
        (PublicKey_deserialize (storage.chain_sender_ratchet_key chain));
      if PublicKey_eqb chain_ratchet_key sender then Ok (Some (chain, idx))
      else find_receiver_chain (S idx) chains sender
  end.

Definition get_receiver_chain (s : SessionState) (sender : PublicKey)
  : SResult (option (storage.Chain * nat)) :=
  find_receiver_chain 0 (storage.ss_receiver_chains (session s)) sender.

Definition get_receiver_chain_key (s : SessionState) (sender : PublicKey)
  : SResult (option ChainKey) :=
  found ← get_receiver_chain s sender;
  match found : option (storage.Chain * nat) with
  | None => Ok None
  | Some (chain, _) =>
      match storage.chain_chain_key chain with
      | None => Err (ISE "missing receiver chain key")
      | Some c =>
          b ← ok_or (ISE "invalid receiver chain key") (try_array 32 (storage.ck_key c));
          Ok (Some (mkChainKey b (storage.ck_index c)))
      end
  end.

(** The stored form of a chain key. *)
Definition chain_key_pb (c : ChainKey) : storage.ChainKey :=
  storage.mkChainKey (chain_key_index c) (arr (chain_key_key c)).

Definition add_receiver_chain_state (sender : PublicKey) (chain_key : ChainKey) (s : SessionState)
  : SessionState :=
  let chain := storage.mkChain (PublicKey_serialize sender) [] (Some (chain_key_pb chain_key)) [] in
  let chains := storage.ss_receiver_chains (session s) ++ [chain] in
  let chains := if (MAX_RECEIVER_CHAINS <? length chains)%nat then tail chains else chains in
  upd (Upd.put_receiver_chains chains) s.

(** [add_receiver_chain] and the consuming [with_receiver_chain]. *)
Definition add_receiver_chain (sender : PublicKey) (chain_key : ChainKey) : SM unit :=
  modify (add_receiver_chain_state sender chain_key).
Definition with_receiver_chain (s : SessionState) (sender : PublicKey) (chain_key : ChainKey)
  : SessionState := add_receiver_chain_state sender chain_key s.

Definition set_sender_chain_state (sender : KeyPair) (next_chain_key : ChainKey) (s : SessionState)
  : SessionState :=
  let new_chain := storage.mkChain (PublicKey_serialize (kp_public_key sender))
    (PrivateKey_serialize (kp_private_key sender)) (Some (chain_key_pb next_chain_key)) [] in
  upd (Upd.put_sender_chain (Some new_chain)) s.

Definition set_sender_chain (sender : KeyPair) (next_chain_key : ChainKey) : SM unit :=
  modify (set_sender_chain_state sender next_chain_key).
Definition with_sender_chain (s : SessionState) (sender : KeyPair) (next_chain_key : ChainKey)
  : SessionState := set_sender_chain_state sender next_chain_key s.

Definition get_sender_chain_key (s : SessionState) : SResult ChainKey :=
  sender_chain ← ok_or (ISE "missing sender chain") (storage.ss_sender_chain (session s));
  chain_key ← ok_or (ISE "missing sender chain key") (storage.chain_chain_key sender_chain);
  b ← ok_or (ISE "invalid sender chain key") (try_array 32 (storage.ck_key chain_key));
  Ok (mkChainKey b (storage.ck_index chain_key)).

Definition get_sender_chain_key_bytes (s : SessionState) : SResult bytes :=
  k ← get_sender_chain_key s; Ok (arr (chain_key_key k)).

Definition set_sender_chain_key (next_chain_key : ChainKey) : SM unit :=
  modify (fun s =>
    let chain_key := chain_key_pb next_chain_key in
    let new_chain :=
      match storage.ss_sender_chain (session s) with
      | None => storage.mkChain [] [] (Some chain_key) []
      | Some c => Upd.put_chain_key (Some chain_key) c
      end in
    upd (Upd.put_sender_chain (Some new_chain)) s).

(** [self.session.receiver_chains[idx] = chain]. *)
Definition put_receiver_chain (idx : nat) (chain : storage.Chain) : SM unit :=
  chains ← reads (fun s => expect (vec_set idx chain (storage.ss_receiver_chains (session s))));
  modify (upd (Upd.put_receiver_chains chains)).

Definition get_message_keys (sender : PublicKey) (counter : Z)
  : SM (option MessageKeyGenerator) :=
  found ← reads (fun s => get_receiver_chain s sender);
  match found : option (storage.Chain * nat) with
  | Some (chain, idx) =>
      match position (fun m => storage.mk_index m =? counter) (storage.chain_message_keys chain) with
      | Some pos =>
          message_key ← lift (expect (storage.chain_message_keys chain !! pos));
          let chain := Upd.put_message_keys (delete pos (storage.chain_message_keys chain)) chain in
          keys ← lift (map_err ISE (from_pb message_key));
          _ ← put_receiver_chain idx chain;
          mret (Some keys)
      | None => mret None
      end
  | None => mret None
  end.

Definition set_message_keys (sender : PublicKey) (message_keys : MessageKeyGenerator) : SM unit :=
  found ← reads (fun s => get_receiver_chain s sender);
  '(chain, idx) ← lift (expect found);
  let keys := into_pb message_keys :: storage.chain_message_keys chain in
  let keys := if (MAX_MESSAGE_KEYS <? length keys)%nat then vec_pop keys else keys in
  put_receiver_chain idx (Upd.put_message_keys keys chain).

Definition set_receiver_chain_key (sender : PublicKey) (chain_key : ChainKey) : SM unit :=
  found ← reads (fun s => get_receiver_chain s sender);
  '(chain, idx) ← lift (expect found);
  put_receiver_chain idx (Upd.put_chain_key (Some (chain_key_pb chain_key)) chain).

Definition set_unacknowledged_pre_key_message (pre_key_id : option Z) (signed_ec_pre_key_id : Z)
    (base_key : PublicKey) (now : Z) : SM unit :=
  let pending := storage.mkPendingPreKey pre_key_id (as_i32 signed_ec_pre_key_id)
                   (PublicKey_serialize base_key) (secs_since_epoch now) in
  modify (upd (Upd.put_pending_pre_key (Some pending))).

Definition set_kyber_ciphertext_state (ciphertext : bytes) (s : SessionState) : SessionState :=
  upd (Upd.put_pending_kyber_pre_key (Some (storage.mkPendingKyberPreKey u32_max ciphertext))) s.
Definition set_kyber_ciphertext (ciphertext : bytes) : SM unit :=
  modify (set_kyber_ciphertext_state ciphertext).

Definition set_unacknowledged_kyber_pre_key_id (id : Z) : SM unit :=
  pending ← reads (fun s => expect (storage.ss_pending_kyber_pre_key (session s)));
  modify (upd (Upd.put_pending_kyber_pre_key
    (Some (storage.mkPendingKyberPreKey id (storage.pkpk_ciphertext pending))))).

Definition unacknowledged_pre_key_message_items (s : SessionState)
  : SResult (option UnacknowledgedPreKeyMessageItems) :=
  match storage.ss_pending_pre_key (session s) with
  | Some pending_pre_key =>
      base_key ← or_ise "invalid pending PreKey message base key"
                   (PublicKey_deserialize (storage.ppk_base_key pending_pre_key));
      timestamp ← system_time_add 0 (Duration_from_secs (storage.ppk_timestamp pending_pre_key));
      Ok (Some (Unacknowledged_new (storage.ppk_pre_key_id pending_pre_key)
                  (as_u32 (storage.ppk_signed_pre_key_id pending_pre_key)) base_key
                  (storage.ss_pending_kyber_pre_key (session s)) timestamp))
  | None => Ok None
  end.

Definition clear_unacknowledged_pre_key_message_state (s : SessionState) : SessionState :=
  upd (fun s => Upd.put_pending_kyber_pre_key None (Upd.put_pending_pre_key None s)) s.
Definition clear_unacknowledged_pre_key_message : SM unit :=
  modify clear_unacknowledged_pre_key_message_state.

Definition set_remote_registration_id (id : Z) : SM unit :=
  modify (upd (Upd.put_remote_registration_id id)).
Definition remote_registration_id (s : SessionState) : Z :=
  storage.ss_remote_registration_id (session s).
Definition set_local_registration_id (id : Z) : SM unit :=
  modify (upd (Upd.put_local_registration_id id)).
Definition local_registration_id (s : SessionState) : Z :=
  storage.ss_local_registration_id (session s).

Definition get_kyber_ciphertext (s : SessionState) : option bytes :=
  storage.pkpk_ciphertext <$> storage.ss_pending_kyber_pre_key (session s).

Section pq.
Context {P : Primitives}.

Definition pq_ratchet_recv (msg : bytes) : M SessionState SpqrError (option bytes) :=
  r ← reads (fun s => spqr_recv (pq_ratchet_state s) msg);
  _ ← modify (upd (Upd.put_pq_ratchet_state (recv_state r)));
  mret (recv_key r).

(** [pq_ratchet_send], on the session and the random number generator. *)
Definition pq_ratchet_send : M (SessionState * Rng) SpqrError (bytes * option bytes) :=
  fun '(s, csprng) =>
    match spqr_send (pq_ratchet_state s) csprng with
    | (Ok r, csprng) =>
        (Ok (send_msg r, send_key r), (upd (Upd.put_pq_ratchet_state (send_state r)) s, csprng))
    | (Err e, csprng) => (Err e, (s, csprng))
    | (Panic, csprng) => (Panic, (s, csprng))
    end.
End pq.

(** ** The receiver chains as a map from ratchet keys *)

Lemma find_receiver_chain_Some idx chains sender c i :
  find_receiver_chain idx chains sender = Ok (Some (c, i)) ->
  (idx <= i)%nat /\ chains !! (i - idx)%nat = Some c /\
  PublicKey_deserialize (storage.chain_sender_ratchet_key c) = Ok sender.
Proof.
  revert idx. induction chains as [|c0 chains IH]; intros idx; cbn; [done|].
  destruct (PublicKey_deserialize (storage.chain_sender_ratchet_key c0)) as [k| |] eqn:Ek; cbn; try done.
  destruct (PublicKey_eqb k sender) eqn:E.
  - intros [= -> ->]. apply PublicKey_eqb_true in E as ->. by rewrite Nat.sub_diag.
  - intros (? & Hl & ?)%IH. split; [lia|]. split; [|done].
    replace (i - idx)%nat with (S (i - S idx)) by lia. done.
Qed.

(** Replacing the chain found for [sender] by one with the same ratchet key. *)
Lemma find_receiver_chain_update idx chains sender c i c' :
  find_receiver_chain idx chains sender = Ok (Some (c, i)) ->
  storage.chain_sender_ratchet_key c' = storage.chain_sender_ratchet_key c ->
  find_receiver_chain idx (<[(i - idx)%nat := c']> chains) sender = Ok (Some (c', i)) /\
  forall other, other <> sender ->
    find_receiver_chain idx (<[(i - idx)%nat := c']> chains) other =
    find_receiver_chain idx chains other.
Proof.
  intros Hf Hk. revert idx Hf. induction chains as [|c0 chains IH]; intros idx; cbn; [done|].
  destruct (PublicKey_deserialize (storage.chain_sender_ratchet_key c0)) as [k| |] eqn:Ek; cbn; try done.
  destruct (PublicKey_eqb k sender) eqn:E.
  - intros [= -> ->]. rewrite Nat.sub_diag. cbn. rewrite Hk, Ek. cbn. rewrite E.
    split; [done|]. intros other Hne.
    apply PublicKey_eqb_true in E as ->.
    destruct (PublicKey_eqb sender other) eqn:E2; [|done].
    by apply PublicKey_eqb_true in E2.
  - intros Hf. pose proof (find_receiver_chain_Some _ _ _ _ _ Hf) as (Hle & _ & _).
    replace (i - idx)%nat with (S (i - S idx)) by lia. cbn. rewrite Ek. cbn. rewrite E.
    destruct (IH _ Hf) as [H1 H2]. split; [done|]. intros other Hne.
    destruct (PublicKey_eqb k other); [done|]. by apply H2.
Qed.

(** [s] holds chain [c] for [sender] at index [i]. *)
Definition has_chain (s : SessionState) (sender : PublicKey) (c : storage.Chain) (i : nat) : Prop :=
  get_receiver_chain s sender = Ok (Some (c, i)).

Definition set_chain (i : nat) (c : storage.Chain) (s : SessionState) : SessionState :=
  upd (Upd.put_receiver_chains (<[i := c]> (storage.ss_receiver_chains (session s)))) s.

Lemma put_receiver_chain_eq s sender c i c' :
  has_chain s sender c i -> put_receiver_chain i c' s = (Ok tt, set_chain i c' s).
Proof.
  intros H. apply find_receiver_chain_Some in H as (_ & H & _). rewrite Nat.sub_0_r in H.
  unfold put_receiver_chain, vec_set. rewrite M_bind_eq. unfold reads.
  by rewrite H.
Qed.

Lemma has_chain_set s sender c i c' :
  has_chain s sender c i ->
  storage.chain_sender_ratchet_key c' = storage.chain_sender_ratchet_key c ->
  has_chain (set_chain i c' s) sender c' i /\
  forall other, other <> sender ->
    get_receiver_chain (set_chain i c' s) other = get_receiver_chain s other.
Proof.
  intros H Hk. destruct (find_receiver_chain_update 0 _ sender c i c' H Hk) as [H1 H2].
  rewrite Nat.sub_0_r in *. done.
Qed.

Lemma set_chain_twice i c c' s : set_chain i c (set_chain i c' s) = set_chain i c s.
Proof.
  unfold set_chain, upd, Upd.put_receiver_chains. cbn. by rewrite list_insert_insert_eq.
Qed.

(** The vector of stored message keys after a push at the front. *)
Definition push_message_key (k : storage.MessageKey) (keys : list storage.MessageKey)
  : list storage.MessageKey := take MAX_MESSAGE_KEYS (k :: keys).

Lemma push_or_pop k keys :
  (length keys <= MAX_MESSAGE_KEYS)%nat ->
  (if (MAX_MESSAGE_KEYS <? length (k :: keys))%nat then vec_pop (k :: keys) else k :: keys)
  = push_message_key k keys.
Proof.
  intros Hl. unfold push_message_key, vec_pop.
  destruct (Nat.ltb_spec MAX_MESSAGE_KEYS (length (k :: keys))) as [H|H].
  - f_equal. cbn [length] in *. lia.
  - by rewrite take_ge by lia.
Qed.

Section chain_ops.
Context (s : SessionState) (sender : PublicKey) (c : storage.Chain) (i : nat)
  (Hc : has_chain s sender c i).

Lemma set_message_keys_eq g :
  (length (storage.chain_message_keys c) <= MAX_MESSAGE_KEYS)%nat ->
  set_message_keys sender g s =
    (Ok tt, set_chain i (Upd.put_message_keys
              (push_message_key (into_pb g) (storage.chain_message_keys c)) c) s).
Proof.
  intros Hl. unfold set_message_keys. M_step. rewrite Hc. M_step. cbv zeta.
  rewrite push_or_pop by done.
  by eapply put_receiver_chain_eq.
Qed.

Lemma set_receiver_chain_key_eq k :
  set_receiver_chain_key sender k s =
    (Ok tt, set_chain i (Upd.put_chain_key (Some (chain_key_pb k)) c) s).
Proof.
  unfold set_receiver_chain_key. M_step. rewrite Hc. M_step. by eapply put_receiver_chain_eq.
Qed.

Lemma get_receiver_chain_key_eq k :
  storage.chain_chain_key c = Some (chain_key_pb k) ->
  get_receiver_chain_key s sender = Ok (Some k).
Proof.
  intros Hk. unfold get_receiver_chain_key. rewrite Hc. cbn. rewrite Hk. cbn.
  rewrite try_array_arr. by destruct k.
Qed.

Lemma get_message_keys_None n :
  (forall m, m ∈ storage.chain_message_keys c -> storage.mk_index m <> n) ->
  get_message_keys sender n s = (Ok None, s).
Proof.
  intros Hn. unfold get_message_keys. M_step. rewrite Hc. cbv beta iota. rewrite (proj2 (position_None _ _)); [done|].
  intros m Hm. specialize (Hn m Hm). lia.
Qed.

Lemma get_message_keys_Some n j seed :
  storage.chain_message_keys c !! j = Some (into_pb (Seed seed n)) ->
  seed <> [] ->
  (forall j' m, storage.chain_message_keys c !! j' = Some m -> (j' < j)%nat ->
                storage.mk_index m <> n) ->
  get_message_keys sender n s =
    (Ok (Some (Seed seed n)),
     set_chain i (Upd.put_message_keys (delete j (storage.chain_message_keys c)) c) s).
Proof.
  intros Hj Hs Hlt. unfold get_message_keys. M_step. rewrite Hc. cbv beta iota.
  rewrite (proj2 (position_Some _ _ j)).
  2: { eexists. split_and!; [done|cbn; lia|]. intros j' m Hm Hjj. specialize (Hlt j' m Hm Hjj). lia. }
  rewrite Hj. M_step. cbv zeta. M_step. rewrite from_pb_into_pb by (by destruct seed). cbn [map_err].
  cbv iota beta. M_step. by erewrite put_receiver_chain_eq.
Qed.
End chain_ops.

(** ** Reading stored keys back *)

Lemma local_identity_key_eq s k :
  storage.ss_local_identity_public (session s) = IdentityKey_serialize k ->
  local_identity_key s = Ok k.
Proof. intros H. unfold local_identity_key. by rewrite H, IdentityKey_decode_serialize. Qed.

Lemma remote_identity_key_eq s k :
  storage.ss_remote_identity_public (session s) = IdentityKey_serialize k ->
  remote_identity_key s = Ok (Some k).
Proof.
  intros H. unfold remote_identity_key. rewrite H.
  unfold IdentityKey_serialize at 1. rewrite PublicKey_serialize_length. cbn [Nat.eqb].
  by rewrite IdentityKey_decode_serialize.
Qed.

Lemma session_with_self_eq s local remote :
  storage.ss_local_identity_public (session s) = IdentityKey_serialize local ->
  storage.ss_remote_identity_public (session s) = IdentityKey_serialize remote ->
  session_with_self s = Ok (bool_decide (remote = local)).
Proof.
  intros Hl Hr. unfold session_with_self, remote_identity_key_bytes, local_identity_key_bytes.
  rewrite (remote_identity_key_eq s remote Hr), (local_identity_key_eq s local Hl).
  cbn. f_equal. apply bool_decide_ext. destruct remote, local. unfold IdentityKey_serialize. cbn.
  split; [by intros ->%PublicKey_serialize_inj|by intros [= ->]].
Qed.

Lemma sender_chain_eq s kp k :
  storage.ss_sender_chain (session s) =
    Some (storage.mkChain (PublicKey_serialize (kp_public_key kp))
            (PrivateKey_serialize (kp_private_key kp)) (Some (chain_key_pb k)) []) ->
  sender_ratchet_key s = Ok (kp_public_key kp) /\ get_sender_chain_key s = Ok k.
Proof.
  intros H. unfold sender_ratchet_key, get_sender_chain_key. rewrite H.
  cbn [storage.chain_sender_ratchet_key]. rewrite PublicKey_deserialize_serialize.
  split; [done|]. cbn. rewrite try_array_arr. by destruct k.
Qed.

Lemma root_key_eq s k :
  storage.ss_root_key (session s) = arr (root_key_key k) -> root_key s = Ok k.
Proof. intros H. unfold root_key. rewrite H, try_array_arr. by destruct k. Qed.

(** ** Bounds on what a session stores *)

Definition bounded (s : SessionState) : Prop :=
  (length (storage.ss_receiver_chains (session s)) <= MAX_RECEIVER_CHAINS)%nat /\
  Forall (fun c => (length (storage.chain_message_keys c) <= MAX_MESSAGE_KEYS)%nat)
    (storage.ss_receiver_chains (session s)).

Lemma bounded_same_chains f s :
  storage.ss_receiver_chains (f (session s)) = storage.ss_receiver_chains (session s) ->
  bounded s -> bounded (upd f s).
Proof. unfold bounded, upd. cbn. by intros ->. Qed.

Lemma bounded_add_receiver_chain sender k s :
  bounded s -> bounded (add_receiver_chain_state sender k s).
Proof.
  unfold bounded, add_receiver_chain_state, upd. cbn -[MAX_RECEIVER_CHAINS MAX_MESSAGE_KEYS Nat.ltb].
  intros [Hl Hf]. set (chains := storage.ss_receiver_chains (session s)) in *.
  assert (Hf' : Forall (fun c => (length (storage.chain_message_keys c) <= MAX_MESSAGE_KEYS)%nat)
            (chains ++ [storage.mkChain (PublicKey_serialize sender) [] (Some (chain_key_pb k)) []])).
  { apply Forall_app. split; [done|]. constructor; [|done]. cbn. lia. }
  destruct (Nat.ltb_spec MAX_RECEIVER_CHAINS
    (length (chains ++ [storage.mkChain (PublicKey_serialize sender) [] (Some (chain_key_pb k)) []]))).
  - split; [|by apply Forall_tail].
    rewrite length_app in *. destruct chains; cbn [tail app length] in *; [lia|].
    rewrite length_app. cbn [length]. lia.
  - done.
Qed.

Lemma bounded_set_chain i c s :
  (length (storage.chain_message_keys c) <= MAX_MESSAGE_KEYS)%nat ->
  bounded s -> bounded (set_chain i c s).
Proof.
  unfold bounded, set_chain, upd. cbn -[MAX_RECEIVER_CHAINS MAX_MESSAGE_KEYS].
  intros Hc [Hl Hf]. rewrite length_insert. split; [done|]. by apply Forall_insert.
Qed.

Lemma bounded_chain s sender c i :
  bounded s -> has_chain s sender c i ->
  (length (storage.chain_message_keys c) <= MAX_MESSAGE_KEYS)%nat.
Proof.
  intros [_ Hf] (_ & Hl & _)%find_receiver_chain_Some. rewrite Nat.sub_0_r in Hl.
  rewrite Forall_lookup in Hf. by eapply Hf.
Qed.

Section bounded_ops.
Lemma preserves_bounded_upd {E} f :
  (forall s, storage.ss_receiver_chains (f s) = storage.ss_receiver_chains s) ->
  preserves bounded (modify (E := E) (upd f)).
Proof. intros Hf. apply preserves_modify. intros s. by apply bounded_same_chains. Qed.

Lemma bounded_set_sender_chain kp k : preserves bounded (set_sender_chain kp k).
Proof. apply preserves_modify. intros s. by apply bounded_same_chains. Qed.
Lemma bounded_set_previous_counter n : preserves bounded (set_previous_counter n).
Proof. by apply preserves_bounded_upd. Qed.
Lemma bounded_set_root_key k : preserves bounded (set_root_key k).
Proof. by apply preserves_bounded_upd. Qed.
Lemma bounded_set_sender_chain_key k : preserves bounded (set_sender_chain_key k).
Proof. apply preserves_modify. intros s. by apply bounded_same_chains. Qed.
Lemma bounded_clear : preserves bounded clear_unacknowledged_pre_key_message.
Proof. apply preserves_modify. intros s. by apply bounded_same_chains. Qed.
Lemma bounded_add sender k : preserves bounded (add_receiver_chain sender k).
Proof. apply preserves_modify. intros s. by apply bounded_add_receiver_chain. Qed.

Lemma bounded_pq_recv `{Primitives} msg : preserves bounded (pq_ratchet_recv msg).
Proof.
  unfold pq_ratchet_recv. solve_preserves. by apply preserves_bounded_upd.
Qed.

Lemma bounded_set_message_keys sender g : preserves bounded (set_message_keys sender g).
Proof.
  intros s Hb. destruct (get_receiver_chain s sender) as [[[c i]|]| |] eqn:E.
  - pose proof (bounded_chain _ _ _ _ Hb E) as Hl.
    rewrite (set_message_keys_eq s sender c i E g Hl). cbn [snd].
    apply bounded_set_chain; [|done]. cbn [Upd.put_message_keys storage.chain_message_keys].
    unfold push_message_key. rewrite length_take. lia.
  - unfold set_message_keys. M_step. by rewrite E.
  - unfold set_message_keys. M_step. by rewrite E.
  - unfold set_message_keys. M_step. by rewrite E.
Qed.

Lemma bounded_set_receiver_chain_key sender k :
  preserves bounded (set_receiver_chain_key sender k).
Proof.
  intros s Hb. destruct (get_receiver_chain s sender) as [[[c i]|]| |] eqn:E.
  - pose proof (bounded_chain _ _ _ _ Hb E) as Hl.
    rewrite (set_receiver_chain_key_eq s sender c i E k). by apply bounded_set_chain.
  - unfold set_receiver_chain_key. M_step. by rewrite E.
  - unfold set_receiver_chain_key. M_step. by rewrite E.
  - unfold set_receiver_chain_key. M_step. by rewrite E.
Qed.

Lemma bounded_get_message_keys sender n : preserves bounded (get_message_keys sender n).
Proof.
  intros s Hb. unfold get_message_keys. M_step.
  destruct (get_receiver_chain s sender) as [[[c i]|]| |] eqn:E; try done.
  cbv beta iota. destruct (position _ _) as [j|]; [|done]. M_step.
  destruct (storage.chain_message_keys c !! j) as [m|]; [|done]. cbv zeta. M_step.
  destruct (map_err ISE (from_pb m)) as [k| |]; [|done|done]. M_step.
  rewrite (put_receiver_chain_eq s sender c i _ E). cbn [snd]. apply bounded_set_chain; [|done].
  pose proof (bounded_chain _ _ _ _ Hb E). cbn [Upd.put_message_keys storage.chain_message_keys].
  match goal with |- context [delete ?j ?l] => pose proof (length_delete_le l j) end. lia.
Qed.
End bounded_ops.

#[export] Hint Resolve bounded_set_sender_chain bounded_set_previous_counter bounded_set_root_key
  bounded_set_sender_chain_key bounded_clear bounded_add bounded_pq_recv bounded_set_message_keys
  bounded_set_receiver_chain_key bounded_get_message_keys : pres.

(** ** Usability of a session *)

Lemma system_time_add_ok {E} t d :
  (t + d) / NANOS_PER_SEC < 2 ^ 63 -> @system_time_add E t d = Ok (t + d).
Proof. intros H. unfold system_time_add. by rewrite (proj2 (Z.ltb_lt _ _)). Qed.

(** The staleness test does not panic for a creation time that fits a
    [SystemTime]. *)
Lemma expiry_ok {E} ts :
  0 <= ts -> ts + 60 * 60 * 24 * 30 < 2 ^ 63 ->
  (t ← @system_time_add E 0 (Duration_from_secs ts);
   system_time_add t MAX_UNACKNOWLEDGED_SESSION_AGE) =
  Ok ((ts + 60 * 60 * 24 * 30) * NANOS_PER_SEC).
Proof.
  intros H0 H1. unfold MAX_UNACKNOWLEDGED_SESSION_AGE, Duration_from_secs.
  assert (Hn : NANOS_PER_SEC <> 0) by done.
  rewrite system_time_add_ok; rewrite Z.add_0_l; [|by rewrite Z.div_mul by done; lia].
  cbn [mbind outcome_bind]. rewrite Z.mul_add_distr_r.
  rewrite system_time_add_ok; [done|]. rewrite <- Z.mul_add_distr_r. by rewrite Z.div_mul by done.
Qed.

(** A session is usable exactly when it has a sender chain and meets each
    requirement that was asked for: not older than thirty days while
    unacknowledged, established with PQXDH, carrying a post-quantum ratchet.
    The creation time must be one that a [SystemTime] can hold. *)
Theorem has_usable_sender_chain_spec now req s :
  (forall p, storage.ss_pending_pre_key (session s) = Some p ->
     0 <= storage.ppk_timestamp p /\ storage.ppk_timestamp p + 60 * 60 * 24 * 30 < 2 ^ 63) ->
  exists b, has_usable_sender_chain now req s = Ok b /\
   (b = true <->
     storage.ss_sender_chain (session s) <> None /\
     (Z.land req 1 = 1 -> forall p, storage.ss_pending_pre_key (session s) = Some p ->
        now <= (storage.ppk_timestamp p + 60 * 60 * 24 * 30) * NANOS_PER_SEC) /\
     (Z.land req 2 = 2 -> 3 < storage.ss_session_version (session s)) /\
     (Z.land req 4 = 4 -> storage.ss_pq_ratchet_state (session s) <> [])).
Proof.
  intros Hts. unfold has_usable_sender_chain, requirements_contains, session_version, pq_ratchet_state.
  change NotStale with 1. change EstablishedWithPqxdh with 2. change SpqrRequired with 4.
  destruct (storage.ss_sender_chain (session s)) as [c|]; [|exists false; naive_solver].
  match goal with |- context [mbind _ ?m] =>
    match m with (if _ then _ else _) => set (stale := m) end end.
  assert (exists b, stale = Ok b /\ (b = true <-> Z.land req 1 = 1 /\ exists p,
    storage.ss_pending_pre_key (session s) = Some p /\
    (storage.ppk_timestamp p + 60 * 60 * 24 * 30) * NANOS_PER_SEC < now)) as (b & -> & Hb).
  { unfold stale. destruct (Z.eqb_spec (Z.land req 1) 1); [|exists false; naive_solver].
    destruct (storage.ss_pending_pre_key (session s)) as [p|]; [|exists false; naive_solver].
    destruct (Hts p eq_refl) as [H0 H1].
    pose proof (@expiry_ok InvalidSessionError _ H0 H1) as Hexp.
    apply bind_Ok in Hexp as (t & -> & Ht). cbn [mbind outcome_bind]. rewrite Ht.
    eexists. split; [done|]. rewrite Z.ltb_lt. naive_solver. }
  cbn [mbind outcome_bind]. destruct b.
  { exists false. split; [done|]. split; [done|]. intros (_ & H & _).
    destruct (proj1 Hb eq_refl) as (H1 & p & Hp & Hlt). specialize (H H1 p Hp). lia. }
  assert (Hfresh : Z.land req 1 = 1 -> forall p, storage.ss_pending_pre_key (session s) = Some p ->
            now <= (storage.ppk_timestamp p + 60 * 60 * 24 * 30) * NANOS_PER_SEC).
  { intros H1 p Hp. destruct (Z.le_gt_cases now ((storage.ppk_timestamp p + 60 * 60 * 24 * 30) * NANOS_PER_SEC)); [done|].
    assert (false = true) by (apply Hb; naive_solver). done. }
  unfold CIPHERTEXT_MESSAGE_PRE_KYBER_VERSION.
  destruct (Z.eqb_spec (Z.land req 2) 2), (Z.eqb_spec (storage.ss_session_version (session s)) 0);
    cbn [mbind outcome_bind];
    try (destruct (Z.leb_spec (storage.ss_session_version (session s)) 3));
    try (exists false; split; [done|]; split; [done|]; intros (_ & _ & ? & _); lia);
    destruct (Z.eqb_spec (Z.land req 4) 4), (storage.ss_pq_ratchet_state (session s));
    cbn [length Nat.eqb andb]; cbn; eexists; (split; [done|]); split; try done;
    intros; try done; repeat split; try done; try lia; naive_solver.
Qed.
