(* ===== verification/SessionRecord.v ===== *)
(** * SessionRecord: current and archived sessions (rust/protocol/src/state/session.rs)

    A record holds the current session and the encodings of the previous ones,
    newest first and at most [ARCHIVED_STATES_MAX_LENGTH]. *)

From S2P Require Import Prelude Types Primitives Proto Curve IdentityKey RatchetKeys SessionState.
Open Scope string_scope.
Open Scope list_scope.
Open Scope Z_scope.

Record SessionRecord := mkSessionRecord {
  current_session : option SessionState;
  previous_sessions : list bytes
}.

Abbreviation RM := (M SessionRecord InvalidSessionError).

Definition new_fresh : SessionRecord := mkSessionRecord None [].
Definition SessionRecord_new (state : SessionState) : SessionRecord :=
  mkSessionRecord (Some state) [].

(** [ok_or_else(|| InvalidState(call, "No current session"))]. *)
Definition current_or (call : string) (r : SessionRecord) : Result SessionState :=
  ok_or (InvalidState call "No current session") (current_session r).

Definition set_session_state (s : SessionState) (r : SessionRecord) : SessionRecord :=
  mkSessionRecord (Some s) (previous_sessions r).

Section record.
Context `{!Prost storage.SessionStructure, !Prost storage.RecordStructure}.

Definition SessionRecord_deserialize (b : bytes) : Result SessionRecord :=
  record ← ok_or (from_InvalidSessionError (ISE "failed to decode session record protobuf"))
             (decode_pb b);
  Ok (mkSessionRecord (mkSessionState <$> storage.rs_current_session record)
        (storage.rs_previous_sessions record)).

Definition SessionRecord_serialize (r : SessionRecord) : Result bytes :=
  Ok (encode_to_vec (storage.mkRecordStructure (session <$> current_session r)
                       (previous_sessions r))).

(** One item of [previous_session_states]. *)
Definition previous_session_state (b : bytes) : SResult SessionState :=
  s ← ok_or (ISE "failed to decode previous session protobuf") (decode_pb b);
  Ok (mkSessionState s).

Definition previous_session_states (r : SessionRecord) : list (SResult SessionState) :=
  previous_session_state <$> previous_sessions r.

(** [archive_current_state_inner]: [true] if there was a session to archive. *)
Definition archive_current_state_inner {E} : M SessionRecord E bool := fun r =>
  match current_session r with
  | Some cur =>
      let prev := if (ARCHIVED_STATES_MAX_LENGTH <=? length (previous_sessions r))%nat
                  then vec_pop (previous_sessions r) else previous_sessions r in
      let cur := clear_unacknowledged_pre_key_message_state cur in
      (Ok true, mkSessionRecord None (encode_to_vec (session cur) :: prev))
  | None => (Ok false, r)
  end.

Definition promote_state {E} (new_state : SessionState) : M SessionRecord E unit :=
  _ ← archive_current_state_inner;
  modify (set_session_state new_state).

(** [self.previous_sessions.remove(i)] panics out of range. *)
Definition promote_old_session {E} (old_session : nat) (updated_session : SessionState)
  : M SessionRecord E unit :=
  _ ← reads (fun r => expect (previous_sessions r !! old_session));
  _ ← modify (fun r => mkSessionRecord (current_session r)
                         (delete old_session (previous_sessions r)));
  promote_state updated_session.

Definition archive_current_state : M SessionRecord SignalProtocolError unit :=
  _ ← archive_current_state_inner; mret tt.

(** The loop of [promote_matching_session] over the archived sessions. *)
Fixpoint find_matching (version : Z) (base_key : bytes) (i : nat)
    (states : list (SResult SessionState)) : SResult (option (nat * SessionState)) :=
  match states with
  | [] => Ok None
  | previous :: states =>
      previous ← previous;
      v ← session_version previous;
      if (v =? version) && bool_decide (base_key = alice_base_key previous)
      then Ok (Some (i, previous))
      else find_matching version base_key (S i) states
  end.

Definition promote_matching_session (version : Z) (base_key : bytes) : RM bool :=
  is_current ← reads (fun r =>
    match current_session r with
    | Some current =>
        v ← session_version current;
        Ok ((v =? version) && bool_decide (base_key = alice_base_key current))
    | None => Ok false
    end);
  if (is_current : bool) then mret true
  else
    session_to_promote ←
      reads (fun r => find_matching version base_key 0 (previous_session_states r));
    match session_to_promote : option (nat * SessionState) with
    | Some (i, state) => _ ← promote_old_session i state; mret true
    | None => mret false
    end.

Definition current_pq_state (r : SessionRecord) : option bytes :=
  pq_ratchet_state <$> current_session r.

Definition record_remote_registration_id (r : SessionRecord) : Result Z :=
  s ← current_or "remote_registration_id" r; Ok (remote_registration_id s).
Definition record_local_registration_id (r : SessionRecord) : Result Z :=
  s ← current_or "local_registration_id" r; Ok (local_registration_id s).
Definition record_session_version (r : SessionRecord) : Result Z :=
  s ← current_or "session_version" r; map_err from_InvalidSessionError (session_version s).
Definition record_local_identity_key_bytes (r : SessionRecord) : Result bytes :=
  s ← current_or "local_identity_key_bytes" r;
  map_err from_InvalidSessionError (local_identity_key_bytes s).
Definition record_remote_identity_key_bytes (r : SessionRecord) : Result (option bytes) :=
  s ← current_or "remote_identity_key_bytes" r;
  map_err from_InvalidSessionError (remote_identity_key_bytes s).

Definition record_has_usable_sender_chain (now : Z) (req : SessionUsabilityRequirements)
    (r : SessionRecord) : Result bool :=
  match current_session r with
  | Some s => map_err from_InvalidSessionError (has_usable_sender_chain now req s)
  | None => Ok false
  end.

Definition record_alice_base_key (r : SessionRecord) : Result bytes :=
  s ← current_or "alice_base_key" r; Ok (alice_base_key s).

Definition record_get_receiver_chain_key_bytes (r : SessionRecord) (sender : PublicKey)
  : Result (option bytes) :=
  s ← current_or "get_receiver_chain_key" r;
  c ← map_err from_InvalidSessionError (get_receiver_chain_key s sender);
  Ok (fmap (M := option) (fun k => arr (chain_key_key k)) c).

Definition record_get_sender_chain_key_bytes (r : SessionRecord) : Result bytes :=
  s ← current_or "get_sender_chain_key_bytes" r;
  map_err from_InvalidSessionError (get_sender_chain_key_bytes s).

Definition current_ratchet_key_matches (r : SessionRecord) (key : PublicKey) : Result bool :=
  match current_session r with
  | Some s => k ← map_err from_InvalidSessionError (sender_ratchet_key s);
              Ok (PublicKey_eqb k key)
  | None => Ok false
  end.

Definition record_get_kyber_ciphertext (r : SessionRecord) : Result (option bytes) :=
  s ← current_or "get_kyber_ciphertext" r; Ok (get_kyber_ciphertext s).
End record.

(** ** Archiving *)

Section record_facts.
Context `{!Prost storage.SessionStructure, !Prost storage.RecordStructure}.

(** At most [ARCHIVED_STATES_MAX_LENGTH] archived sessions. *)
Definition record_bounded (r : SessionRecord) : Prop :=
  (length (previous_sessions r) <= ARCHIVED_STATES_MAX_LENGTH)%nat.

(** The archive after a session was put in front of it. *)
Definition archived (cur : option SessionState) (prev : list bytes) : list bytes :=
  match cur with
  | Some cur =>
      take ARCHIVED_STATES_MAX_LENGTH
        (encode_to_vec (session (clear_unacknowledged_pre_key_message_state cur)) :: prev)
  | None => prev
  end.

Lemma pop_then_push {A} (x : A) l n :
  (length l <= S n)%nat ->
  x :: (if (S n <=? length l)%nat then vec_pop l else l) = take (S n) (x :: l).
Proof.
  intros Hl. cbn [take]. f_equal. unfold vec_pop. destruct (Nat.leb_spec (S n) (length l)).
  - f_equal. lia.
  - by rewrite take_ge by lia.
Qed.

Lemma archive_current_state_eq {E} r :
  record_bounded r ->
  exists b, archive_current_state_inner (E := E) r =
    (Ok b, mkSessionRecord None (archived (current_session r) (previous_sessions r))).
Proof.
  destruct r as [[cur|] prev]; unfold record_bounded, archive_current_state_inner; cbn [current_session previous_sessions archived].
  - intros Hb. eexists. do 3 f_equal. unfold ARCHIVED_STATES_MAX_LENGTH in *. by apply pop_then_push.
  - intros _. by eexists.
Qed.

Lemma promote_state_eq {E} s r :
  record_bounded r ->
  promote_state (E := E) s r =
    (Ok tt, mkSessionRecord (Some s) (archived (current_session r) (previous_sessions r))).
Proof.
  intros Hb. unfold promote_state. rewrite M_bind_eq.
  destruct (archive_current_state_eq (E := E) r Hb) as [b ->]. done.
Qed.

Lemma promote_old_session_eq {E} i s r :
  (i < length (previous_sessions r))%nat -> record_bounded r ->
  promote_old_session (E := E) i s r =
    (Ok tt, mkSessionRecord (Some s)
              (archived (current_session r) (delete i (previous_sessions r)))).
Proof.
  intros Hi Hb. unfold promote_old_session. M_step.
  destruct (lookup_lt_is_Some_2 _ _ Hi) as [b ->]. M_step. apply promote_state_eq.
  unfold record_bounded in *. cbn [previous_sessions].
  pose proof (length_delete_le (previous_sessions r) i). lia.
Qed.

Lemma archived_bounded cur prev :
  (length prev <= ARCHIVED_STATES_MAX_LENGTH)%nat ->
  (length (archived cur prev) <= ARCHIVED_STATES_MAX_LENGTH)%nat.
Proof. destruct cur; cbn -[take ARCHIVED_STATES_MAX_LENGTH]; [rewrite length_take|]; lia. Qed.

Lemma record_bounded_promote_state {E} s : preserves record_bounded (promote_state (E := E) s).
Proof. intros r Hb. rewrite promote_state_eq by done. by apply archived_bounded. Qed.

Lemma record_bounded_promote_old {E} i s : preserves record_bounded (promote_old_session (E := E) i s).
Proof.
  intros r Hb. unfold promote_old_session. M_step.
  destruct (previous_sessions r !! i); [|done]. M_step. apply record_bounded_promote_state.
  unfold record_bounded in *. cbn [previous_sessions].
  pose proof (length_delete_le (previous_sessions r) i). lia.
Qed.

Lemma record_bounded_archive : preserves record_bounded archive_current_state.
Proof.
  intros r Hb. unfold archive_current_state. rewrite M_bind_eq.
  destruct (archive_current_state_eq (E := SignalProtocolError) r Hb) as [b ->].
  by apply archived_bounded.
Qed.

(** ** promote_matching_session *)

Lemma find_matching_Some v k i states j s :
  find_matching v k i states = Ok (Some (j, s)) ->
  (i <= j)%nat /\ states !! (j - i)%nat = Some (Ok s) /\
  session_version s = Ok v /\ k = alice_base_key s.
Proof.
  revert i. induction states as [|p states IH]; intros i; cbn; [done|].
  destruct p as [p| |]; cbn; try done.
  destruct (session_version p) as [v'| |] eqn:Ev; cbn; try done.
  destruct (Z.eqb_spec v' v); cbn.
  - subst v'. case_bool_decide as Hk.
    + intros [= <- <-]. by rewrite Nat.sub_diag.
    + intros (? & Hl & ?)%IH. split; [lia|]. split; [|done].
      by replace (j - i)%nat with (S (j - S i)) by lia.
  - intros (? & Hl & ?)%IH. split; [lia|]. split; [|done].
    by replace (j - i)%nat with (S (j - S i)) by lia.
Qed.

Lemma find_matching_None v k i states :
  find_matching v k i states = Ok None ->
  forall p, p ∈ states -> exists s, p = Ok s /\ (session_version s <> Ok v \/ k <> alice_base_key s).
Proof.
  revert i. induction states as [|p states IH]; intros i; cbn.
  - intros _ p Hp. by apply not_elem_of_nil in Hp.
  - destruct p as [p| |]; cbn; try done.
    destruct (session_version p) as [v'| |] eqn:Ev; cbn; try done.
    destruct ((v' =? v) && bool_decide (k = alice_base_key p)) eqn:Em; [done|].
    intros H q [->|Hq]%elem_of_cons; [|by eapply IH].
    exists p. split; [done|]. rewrite Ev. apply andb_false_iff in Em as [Em|Em].
    + left. intros [= ->]. by rewrite Z.eqb_refl in Em.
    + right. by apply bool_decide_eq_false in Em.
Qed.
End record_facts.

#[export] Hint Resolve record_bounded_promote_state record_bounded_promote_old
  record_bounded_archive : pres.

Section promote.
Context `{!Prost storage.SessionStructure, !Prost storage.RecordStructure}.

Definition session_matches (v : Z) (k : bytes) (s : SessionState) : Prop :=
  session_version s = Ok v /\ k = alice_base_key s.

Lemma matches_bool v k s v' :
  session_version s = Ok v' ->
  (v' =? v) && bool_decide (k = alice_base_key s) = true <-> session_matches v k s.
Proof.
  intros Hv. unfold session_matches. rewrite Hv, andb_true_iff, Z.eqb_eq, bool_decide_eq_true.
  naive_solver.
Qed.

Lemma session_version_ok s : exists v, session_version s = Ok v.
Proof. unfold session_version. case_match; eauto. Qed.

Lemma find_matching_no_panic v k i l : find_matching v k i (previous_session_state <$> l) <> Panic.
Proof.
  revert i. induction l as [|b l IH]; intros i; cbn; [done|].
  destruct (previous_session_state b) as [s| |] eqn:Eb; cbn; [|done|].
  - destruct (session_version_ok s) as [v' ->]. cbn. by case_match.
  - unfold previous_session_state in Eb. by destruct (decode_pb b).
Qed.

(** [promote_matching_session] returns [true] exactly when it leaves a
    current session with the given version and base key: the current one
    stays, or an archived one takes its place, the old current one is
    archived in front of the others, and the promoted one leaves the archive.
    When it returns [false] no session matches and nothing changes, and on an
    undecodable session it reports the error and changes nothing. *)
Theorem promote_matching_session_spec v k r :
  record_bounded r ->
  match promote_matching_session v k r with
  | (Ok true, r') =>
      exists s, current_session r' = Some s /\ session_matches v k s /\
      (r' = r \/
       exists i b, previous_sessions r !! i = Some b /\ previous_session_state b = Ok s /\
         previous_sessions r' = archived (current_session r) (delete i (previous_sessions r)))
  | (Ok false, r') =>
      r' = r /\
      (forall s, current_session r = Some s -> ~ session_matches v k s) /\
      (forall b, b ∈ previous_sessions r ->
         exists s, previous_session_state b = Ok s /\ ~ session_matches v k s)
  | (Err _, r') => r' = r
  | (Panic, _) => False
  end.
Proof.
  intros Hb. unfold promote_matching_session. M_step.
  assert (exists b, match current_session r with
    | Some current => v0 ← session_version current;
        Ok ((v0 =? v) && bool_decide (k = alice_base_key current))
    | None => @Ok InvalidSessionError _ false end = Ok b /\
    (b = true <-> exists s, current_session r = Some s /\ session_matches v k s)) as (b & -> & Hcur).
  { destruct (current_session r) as [s|]; [|exists false; naive_solver].
    destruct (session_version_ok s) as [v' Hv]. rewrite Hv. cbn. eexists. split; [done|].
    rewrite (matches_bool v k s v' Hv). naive_solver. }
  cbv beta iota. destruct b.
  { destruct (proj1 Hcur eq_refl) as (s & ? & ?). exists s. naive_solver. }
  M_step. pose proof (find_matching_no_panic v k 0 (previous_sessions r)) as Hnp.
  unfold previous_session_states. 
  destruct (find_matching v k 0 (previous_session_state <$> previous_sessions r))
    as [[[i s]|]| |] eqn:Ef; [| |done|done].
  - apply find_matching_Some in Ef as (_ & Hl & Hv & Hk). rewrite Nat.sub_0_r in Hl.
    apply list_lookup_fmap_Some in Hl as (b & Hs & Hi).
    cbv beta iota. rewrite M_bind_eq, promote_old_session_eq;
      [|by eapply lookup_lt_Some|done].
    exists s. split_and!; [done|done|]. right. by exists i, b.
  - split; [done|]. split.
    + intros s Hs Hm. assert (false = true) by (apply Hcur; eauto). done.
    + intros b Hbin. destruct (find_matching_None _ _ _ _ Ef (previous_session_state b)) as (s & Hs & Hn).
      { by apply list_elem_of_fmap_2. }
      exists s. split; [done|]. unfold session_matches. naive_solver.
Qed.

End promote.
