(* ===== verification/Ratchet.v ===== *)
(** * Ratchet: PQXDH session setup (rust/protocol/src/ratchet.rs, ratchet/params.rs)

    Alice's and Bob's parameters and the two functions that turn them into a
    first session state.  Section [agreement] shows that the two sides agree on
    the secrets, so that Bob's session is the mirror of Alice's. *)

From S2P Require Import Prelude Types Primitives Proto Curve Kem Crypto IdentityKey RatchetKeys Messages SessionState SessionRecord.
Open Scope string_scope.
Open Scope list_scope.
Open Scope Z_scope.

(** ** Parameters (params.rs) *)

Section parameters.
Context {P : Primitives}.

Record AliceSignalProtocolParameters := mkAliceParameters {
  a_our_identity_key_pair : IdentityKeyPair;
  a_our_base_key_pair : KeyPair;
  a_their_identity_key : IdentityKey;
  a_their_signed_pre_key : PublicKey;
  a_their_one_time_pre_key : option PublicKey;
  a_their_ratchet_key : PublicKey;
  a_their_kyber_pre_key : KemPublicKey
}.

Definition Alice_new (our_identity_key_pair : IdentityKeyPair) (our_base_key_pair : KeyPair)
    (their_identity_key : IdentityKey) (their_signed_pre_key their_ratchet_key : PublicKey)
    (their_kyber_pre_key : KemPublicKey) : AliceSignalProtocolParameters :=
  mkAliceParameters our_identity_key_pair our_base_key_pair their_identity_key
    their_signed_pre_key None their_ratchet_key their_kyber_pre_key.

Definition set_their_one_time_pre_key (ec_public : PublicKey)
    (p : AliceSignalProtocolParameters) : AliceSignalProtocolParameters :=
  mkAliceParameters (a_our_identity_key_pair p) (a_our_base_key_pair p)
    (a_their_identity_key p) (a_their_signed_pre_key p) (Some ec_public)
    (a_their_ratchet_key p) (a_their_kyber_pre_key p).

Record BobSignalProtocolParameters := mkBobParameters {
  b_our_identity_key_pair : IdentityKeyPair;
  b_our_signed_pre_key_pair : KeyPair;
  b_our_one_time_pre_key_pair : option KeyPair;
  b_our_ratchet_key_pair : KeyPair;
  b_our_kyber_pre_key_pair : KemKeyPair;
  b_their_identity_key : IdentityKey;
  b_their_base_key : PublicKey;
  b_their_kyber_ciphertext : bytes
}.
End parameters.

(** ** Session setup (ratchet.rs) *)

Section ratchet.
Context {P : Primitives}.

Definition ratchet_derive_keys_with_label (label secret_input : bytes)
  : RootKey * ChainKey * array 32 :=
  let secrets := hkdf_sha256 None secret_input label 96 in
  (mkRootKey (to_array 32 (slice 0 32 secrets)),
   mkChainKey (to_array 32 (slice 32 64 secrets)) 0,
   to_array 32 (slice 64 96 secrets)).

Definition ratchet_derive_keys (secret_input : bytes) : RootKey * ChainKey * array 32 :=
  ratchet_derive_keys_with_label
    (byte_str "WhisperText_X25519_SHA-256_CRYSTALS-KYBER-1024") secret_input.

Definition spqr_chain_params (self_connection : bool) : SpqrChainParams :=
  mkSpqrChainParams (if self_connection then u32_max else MAX_FORWARD_JUMPS)
    (Z.of_nat MAX_MESSAGE_KEYS).

(** "discontinuity bytes" *)
Definition discontinuity_bytes : bytes := replicate 32 Byte.xff.

Definition agree (k : PrivateKey) (pk : PublicKey) : Result bytes :=
  map_err from_CurveError (calculate_agreement k pk).

Definition initial_pqr_state (name : string) (pqr_key : array 32) (direction : SpqrDirection)
    (self_session : bool) : Result bytes :=
  map_err (fun e => InvalidArgument
             (("post-quantum ratchet: error creating initial " +:+ name +:+ " state: "
               +:+ spqr_error_display e))%string)
    (spqr_initial_state (mkSpqrParams pqr_key V1 direction V0 (spqr_chain_params self_session))).

Definition initialize_alice_session (parameters : AliceSignalProtocolParameters)
  : M Rng SignalProtocolError SessionState :=
  let local_identity := ikp_identity_key (a_our_identity_key_pair parameters) in
  let our_base_private_key := kp_private_key (a_our_base_key_pair parameters) in
  s1 ← lift (agree (ikp_private (a_our_identity_key_pair parameters))
               (a_their_signed_pre_key parameters));
  s2 ← lift (agree our_base_private_key (ik_public_key (a_their_identity_key parameters)));
  s3 ← lift (agree our_base_private_key (a_their_signed_pre_key parameters));
  s4 ← lift (match a_their_one_time_pre_key parameters with
             | Some their_one_time_prekey => agree our_base_private_key their_one_time_prekey
             | None => Ok []
             end);
  '(ss, kyber_ct) ← Key_encapsulate (a_their_kyber_pre_key parameters);
  let secrets := discontinuity_bytes ++ s1 ++ s2 ++ s3 ++ s4 ++ ss in
  let '(root_key, chain_key, pqr_key) := ratchet_derive_keys secrets in
  sending_ratchet_key ← (fun csprng => let '(kp, csprng) := KeyPair_generate csprng in
                                       (Ok kp, csprng));
  '(sending_chain_root_key, sending_chain_chain_key) ←
    lift (create_chain root_key (a_their_ratchet_key parameters)
            (kp_private_key sending_ratchet_key));
  let self_session := IdentityKey_eqb local_identity (a_their_identity_key parameters) in
  pqr_state ← lift (initial_pqr_state "A2B" pqr_key A2B self_session);
  let session := SessionState_new CIPHERTEXT_MESSAGE_CURRENT_VERSION local_identity
    (a_their_identity_key parameters) sending_chain_root_key
    (kp_public_key (a_our_base_key_pair parameters)) pqr_state in
  let session := with_receiver_chain session (a_their_ratchet_key parameters) chain_key in
  let session := with_sender_chain session sending_ratchet_key sending_chain_chain_key in
  mret (set_kyber_ciphertext_state kyber_ct session).

Definition initialize_bob_session (parameters : BobSignalProtocolParameters)
  : Result SessionState :=
  if negb (is_canonical (b_their_base_key parameters))
  then Err (InvalidMessage PreKey "incoming base key is invalid")
  else
    let local_identity := ikp_identity_key (b_our_identity_key_pair parameters) in
    let our_signed_private := kp_private_key (b_our_signed_pre_key_pair parameters) in
    s1 ← agree our_signed_private (ik_public_key (b_their_identity_key parameters));
    s2 ← agree (ikp_private (b_our_identity_key_pair parameters)) (b_their_base_key parameters);
    s3 ← agree our_signed_private (b_their_base_key parameters);
    s4 ← match b_our_one_time_pre_key_pair parameters with
         | Some our_one_time => agree (kp_private_key our_one_time) (b_their_base_key parameters)
         | None => Ok []
         end;
    ss ← Key_decapsulate (kkp_secret_key (b_our_kyber_pre_key_pair parameters))
           (b_their_kyber_ciphertext parameters);
    let secrets := discontinuity_bytes ++ s1 ++ s2 ++ s3 ++ s4 ++ ss in
    let '(root_key, chain_key, pqr_key) := ratchet_derive_keys secrets in
    let self_session := IdentityKey_eqb local_identity (b_their_identity_key parameters) in
    pqr_state ← initial_pqr_state "B2A" pqr_key B2A self_session;
    let session := SessionState_new CIPHERTEXT_MESSAGE_CURRENT_VERSION local_identity
      (b_their_identity_key parameters) root_key (b_their_base_key parameters) pqr_state in
    Ok (with_sender_chain session (b_our_ratchet_key_pair parameters) chain_key).

Definition initialize_alice_session_record (parameters : AliceSignalProtocolParameters)
  : M Rng SignalProtocolError SessionRecord :=
  s ← initialize_alice_session parameters; mret (SessionRecord_new s).

Definition initialize_bob_session_record (parameters : BobSignalProtocolParameters)
  : Result SessionRecord :=
  s ← initialize_bob_session parameters; Ok (SessionRecord_new s).
End ratchet.

(** The post-quantum ratchet accepts its parameters, and its first message
    gives both sides the same key. *)
Class SpqrLaws {P : Primitives} := {
  spqr_initial_ok : forall p, exists st, spqr_initial_state p = Ok st;
  spqr_first_message : forall auth chain sa sb csprng,
    spqr_initial_state (mkSpqrParams auth V1 A2B V0 chain) = Ok sa ->
    spqr_initial_state (mkSpqrParams auth V1 B2A V0 chain) = Ok sb ->
    exists snd rcv csprng',
      spqr_send sa csprng = (Ok snd, csprng') /\
      spqr_recv sb (send_msg snd) = Ok rcv /\ recv_key rcv = send_key snd
}.

(** ** Agreement *)

Section agreement.
Context {P : Primitives} {X : X25519Laws} {K : KemLaws} {S : SpqrLaws}.

Lemma agree_pairs kp1 kp2 :
  well_formed_pair kp1 -> well_formed_pair kp2 ->
  agree (kp_private_key kp1) (kp_public_key kp2) = agree (kp_private_key kp2) (kp_public_key kp1).
Proof. intros H1 H2. unfold agree. by rewrite (agreement_comm kp1 kp2). Qed.

Lemma agree_ok k pk : exists b, agree k pk = Ok b.
Proof. unfold agree. destruct (agreement_ok k pk) as [s ->]. by exists s. Qed.

(** Bob's keys, and Alice's parameters made of their public halves. *)
Record bob_keys := mkBobKeys {
  bk_identity : IdentityKeyPair;
  bk_signed : KeyPair;
  bk_one_time : option KeyPair;
  bk_kyber : KemKeyPair
}.

Definition bob_keys_ok (b : bob_keys) : Prop :=
  generated_identity (bk_identity b) /\ well_formed_pair (bk_signed b) /\
  match bk_one_time b with Some kp => well_formed_pair kp | None => True end /\
  generated_pair (bk_kyber b).

(** The signed pre-key doubles as the first ratchet key. *)
Definition alice_parameters (a_id : IdentityKeyPair) (base : KeyPair) (b : bob_keys)
  : AliceSignalProtocolParameters :=
  mkAliceParameters a_id base (ikp_identity_key (bk_identity b)) (kp_public_key (bk_signed b))
    (kp_public_key <$> bk_one_time b) (kp_public_key (bk_signed b))
    (kkp_public_key (bk_kyber b)).

Definition bob_parameters (b : bob_keys) (a_id : IdentityKey) (base : PublicKey)
    (kyber_ct : bytes) : BobSignalProtocolParameters :=
  mkBobParameters (bk_identity b) (bk_signed b) (bk_one_time b) (bk_signed b) (bk_kyber b)
    a_id base kyber_ct.

(** What the two sessions look like, in terms of the values both sides
    derive: Alice's root key and sending chain come from one more
    Diffie-Hellman step, with the key pair she sends from. *)
Definition mirrored (a_id : IdentityKeyPair) (base : KeyPair) (b : bob_keys)
    (sa sb : SessionState) : Prop :=
  exists root chain pqr ratchet root' chain' qa qb,
    well_formed_pair ratchet /\
    create_chain root (kp_public_key (bk_signed b)) (kp_private_key ratchet) = Ok (root', chain') /\
    create_chain root (kp_public_key ratchet) (kp_private_key (bk_signed b)) = Ok (root', chain') /\
    let self := IdentityKey_eqb (ikp_identity_key a_id) (ikp_identity_key (bk_identity b)) in
    spqr_initial_state (mkSpqrParams pqr V1 A2B V0 (spqr_chain_params self)) = Ok qa /\
    spqr_initial_state (mkSpqrParams pqr V1 B2A V0 (spqr_chain_params self)) = Ok qb /\
    (exists ct, sa = set_kyber_ciphertext_state ct
      (with_sender_chain
        (with_receiver_chain
          (SessionState_new 4 (ikp_identity_key a_id) (ikp_identity_key (bk_identity b)) root'
             (kp_public_key base) qa)
          (kp_public_key (bk_signed b)) (mkChainKey chain 0))
        ratchet chain')) /\
    sb = with_sender_chain
      (SessionState_new 4 (ikp_identity_key (bk_identity b)) (ikp_identity_key a_id) root
         (kp_public_key base) qb)
      (bk_signed b) (mkChainKey chain 0).

Lemma IdentityKey_eqb_sym a b : IdentityKey_eqb a b = IdentityKey_eqb b a.
Proof.
  destruct (IdentityKey_eqb a b) eqn:E.
  - apply IdentityKey_eqb_true in E as ->. by rewrite IdentityKey_eqb_refl.
  - destruct (IdentityKey_eqb b a) eqn:E2; [|done].
    apply IdentityKey_eqb_true in E2 as ->. by rewrite IdentityKey_eqb_refl in E.
Qed.

Lemma agree_identity a_id kp :
  generated_identity a_id -> well_formed_pair kp ->
  agree (ikp_private a_id) (kp_public_key kp) =
  agree (kp_private_key kp) (ik_public_key (ikp_identity_key a_id)).
Proof. intros Ha Hk. apply (agree_pairs (KeyPair_from_IdentityKeyPair a_id) kp Ha Hk). Qed.

(** The optional one-time pre-key adds the same secret on both sides. *)
Lemma agree_one_time base one_time :
  well_formed_pair base ->
  match one_time with Some kp => well_formed_pair kp | None => True end ->
  exists s4,
    match kp_public_key <$> one_time with
    | Some k => agree (kp_private_key base) k | None => Ok [] end = Ok s4 /\
    match one_time with
    | Some kp => agree (kp_private_key kp) (kp_public_key base) | None => Ok [] end = Ok s4.
Proof.
  intros Hbase Hone. destruct one_time as [kp|]; cbn; [|by exists []].
  destruct (agree_ok (kp_private_key base) (kp_public_key kp)) as [s4 H4].
  exists s4. split; [done|]. by rewrite agree_pairs.
Qed.

(** The Diffie-Hellman secrets of the handshake: Alice computes them from her
    private keys, Bob from his. *)
Record shared_secrets (a_id : IdentityKeyPair) (base : KeyPair) (b : bob_keys)
    (s1 s2 s3 s4 : bytes) : Prop := {
  alice_s1 : agree (ikp_private a_id) (kp_public_key (bk_signed b)) = Ok s1;
  alice_s2 : agree (kp_private_key base) (ik_public_key (ikp_identity_key (bk_identity b))) = Ok s2;
  alice_s3 : agree (kp_private_key base) (kp_public_key (bk_signed b)) = Ok s3;
  alice_s4 : match kp_public_key <$> bk_one_time b with
             | Some k => agree (kp_private_key base) k | None => Ok [] end = Ok s4;
  bob_s1 : agree (kp_private_key (bk_signed b)) (ik_public_key (ikp_identity_key a_id)) = Ok s1;
  bob_s2 : agree (ikp_private (bk_identity b)) (kp_public_key base) = Ok s2;
  bob_s3 : agree (kp_private_key (bk_signed b)) (kp_public_key base) = Ok s3;
  bob_s4 : match bk_one_time b with
           | Some kp => agree (kp_private_key kp) (kp_public_key base) | None => Ok [] end = Ok s4
}.

Lemma shared_secrets_exist a_id base b :
  generated_identity a_id -> well_formed_pair base -> bob_keys_ok b ->
  exists s1 s2 s3 s4, shared_secrets a_id base b s1 s2 s3 s4.
Proof.
  intros Ha Hbase (Hid & Hsig & Hone & Hkyb).
  destruct (agree_ok (ikp_private a_id) (kp_public_key (bk_signed b))) as [s1 H1].
  destruct (agree_ok (kp_private_key base) (ik_public_key (ikp_identity_key (bk_identity b)))) as [s2 H2].
  destruct (agree_ok (kp_private_key base) (kp_public_key (bk_signed b))) as [s3 H3].
  destruct (agree_one_time base (bk_one_time b) Hbase Hone) as (s4 & H4 & H4').
  exists s1, s2, s3, s4. constructor; try done.
  - by rewrite <- (agree_identity a_id (bk_signed b)).
  - by rewrite (agree_identity (bk_identity b) base).
  - by rewrite <- (agree_pairs base (bk_signed b)).
Qed.

Definition pqxdh_input (s1 s2 s3 s4 ss : bytes) : bytes :=
  discontinuity_bytes ++ s1 ++ s2 ++ s3 ++ s4 ++ ss.

(** What Alice's setup computes, in terms of the secrets. *)
Lemma alice_runs a_id base b csprng s1 s2 s3 s4 ss ct csprng1 root c pqr ratchet csprng2
    root' chain' qa :
  shared_secrets a_id base b s1 s2 s3 s4 ->
  Key_encapsulate (kkp_public_key (bk_kyber b)) csprng = (Ok (ss, ct), csprng1) ->
  ratchet_derive_keys (pqxdh_input s1 s2 s3 s4 ss) = (root, c, pqr) ->
  KeyPair_generate csprng1 = (ratchet, csprng2) ->
  create_chain root (kp_public_key (bk_signed b)) (kp_private_key ratchet) = Ok (root', chain') ->
  initial_pqr_state "A2B" pqr A2B
    (IdentityKey_eqb (ikp_identity_key a_id) (ikp_identity_key (bk_identity b))) = Ok qa ->
  initialize_alice_session (alice_parameters a_id base b) csprng =
    (Ok (set_kyber_ciphertext_state ct
       (with_sender_chain
         (with_receiver_chain
           (SessionState_new 4 (ikp_identity_key a_id) (ikp_identity_key (bk_identity b)) root'
              (kp_public_key base) qa)
           (kp_public_key (bk_signed b)) c)
         ratchet chain')), csprng2).
Proof.
  intros [H1 H2 H3 H4 _ _ _ _] Henc Ekeys Egen Hcc Hqa.
  unfold initialize_alice_session. cbv zeta.
  cbn [alice_parameters a_our_identity_key_pair a_our_base_key_pair a_their_identity_key
       a_their_signed_pre_key a_their_one_time_pre_key a_their_ratchet_key a_their_kyber_pre_key].
  M_step. rewrite H1. cbv iota beta. M_step. rewrite H2. cbv iota beta. M_step.
  rewrite H3. cbv iota beta. M_step. rewrite H4. cbv iota beta. M_step. rewrite Henc.
  cbv iota beta. fold (pqxdh_input s1 s2 s3 s4 ss). rewrite Ekeys. M_step. rewrite Egen.
  cbv iota beta. M_step. rewrite Hcc. cbv iota beta. M_step. by rewrite Hqa.
Qed.

(** And what Bob's computes, from the public half of what Alice sends. *)
Lemma bob_runs a_id base b s1 s2 s3 s4 ss ct root c pqr qb :
  well_formed_pair base ->
  shared_secrets a_id base b s1 s2 s3 s4 ->
  Key_decapsulate (kkp_secret_key (bk_kyber b)) ct = Ok ss ->
  ratchet_derive_keys (pqxdh_input s1 s2 s3 s4 ss) = (root, c, pqr) ->
  initial_pqr_state "B2A" pqr B2A
    (IdentityKey_eqb (ikp_identity_key (bk_identity b)) (ikp_identity_key a_id)) = Ok qb ->
  initialize_bob_session (bob_parameters b (ikp_identity_key a_id) (kp_public_key base) ct) =
    Ok (with_sender_chain
      (SessionState_new 4 (ikp_identity_key (bk_identity b)) (ikp_identity_key a_id) root
         (kp_public_key base) qb)
      (bk_signed b) c).
Proof.
  intros Hbase [_ _ _ _ H1 H2 H3 H4] Hdec Ekeys Hqb.
  unfold initialize_bob_session.
  cbn [bob_parameters b_our_identity_key_pair b_our_signed_pre_key_pair
       b_our_one_time_pre_key_pair b_our_ratchet_key_pair b_our_kyber_pre_key_pair
       b_their_identity_key b_their_base_key b_their_kyber_ciphertext].
  rewrite (well_formed_pair_canonical base Hbase). cbn [negb]. cbv zeta.
  rewrite H1. cbn [mbind outcome_bind]. rewrite H2. cbn [mbind outcome_bind].
  rewrite H3. cbn [mbind outcome_bind]. rewrite H4. cbn [mbind outcome_bind].
  rewrite Hdec. cbn [mbind outcome_bind]. fold (pqxdh_input s1 s2 s3 s4 ss).
  rewrite Ekeys, Hqb. done.
Qed.

Lemma initial_pqr_state_ok name pqr direction self :
  exists q, spqr_initial_state (mkSpqrParams pqr V1 direction V0 (spqr_chain_params self)) = Ok q /\
            initial_pqr_state name pqr direction self = Ok q.
Proof.
  destruct (spqr_initial_ok (mkSpqrParams pqr V1 direction V0 (spqr_chain_params self))) as [q Hq].
  exists q. split; [done|]. unfold initial_pqr_state. by rewrite Hq.
Qed.

(** Alice's setup succeeds, and Bob's, run on her public values, gives the
    mirrored session. *)
Lemma pqxdh_mirrored a_id base b csprng :
  generated_identity a_id -> well_formed_pair base -> bob_keys_ok b ->
  exists sa csprng' ct sb,
    initialize_alice_session (alice_parameters a_id base b) csprng = (Ok sa, csprng') /\
    get_kyber_ciphertext sa = Some ct /\
    initialize_bob_session (bob_parameters b (ikp_identity_key a_id) (kp_public_key base) ct)
      = Ok sb /\
    mirrored a_id base b sa sb.
Proof.
  intros Ha Hbase Hb. pose proof Hb as (_ & Hsig & _ & Hkyb).
  destruct (kem_agreement (bk_kyber b) csprng Hkyb) as (ss & ct & csprng1 & Henc & Hdec).
  destruct (shared_secrets_exist a_id base b Ha Hbase Hb) as (s1 & s2 & s3 & s4 & Hs).
  destruct (ratchet_derive_keys (pqxdh_input s1 s2 s3 s4 ss)) as [[root chain] pqr] eqn:Ekeys.
  assert (exists c, chain = mkChainKey c 0) as [c ->] by (injection Ekeys as <- <- <-; eauto).
  pose proof (KeyPair_generate_well_formed csprng1) as Hr.
  destruct (KeyPair_generate csprng1) as [ratchet csprng2] eqn:Egen. cbn [fst] in Hr.
  destruct (create_chain_ok root (kp_public_key (bk_signed b)) (kp_private_key ratchet))
    as (root' & c' & Hcc).
  set (self := IdentityKey_eqb (ikp_identity_key a_id) (ikp_identity_key (bk_identity b))).
  destruct (initial_pqr_state_ok "A2B" pqr A2B self) as (qa & Hqa & Hqa').
  destruct (initial_pqr_state_ok "B2A" pqr B2A self) as (qb & Hqb & Hqb').
  eexists _, csprng2, ct, _. split_and!.
  - by eapply alice_runs.
  - reflexivity.
  - eapply bob_runs; try done. by rewrite IdentityKey_eqb_sym.
  - exists root, c, pqr, ratchet, root', (mkChainKey c' 0), qa, qb.
    cbv zeta. split_and!; try done.
    + by rewrite (create_chain_comm root ratchet (bk_signed b)).
    + by exists ct.
Qed.

(** C8: PQXDH agreement. For any generated keys, Alice's setup succeeds, Bob's
    setup on the public values of her first message succeeds, and the two
    sessions fit together: Bob's sending chain is Alice's receiving chain for
    his signed pre-key, and a Diffie-Hellman step of Bob's root key with
    Alice's ratchet key gives Alice's root key and her sending chain. *)
Theorem pqxdh_agreement a_id base b csprng :
  generated_identity a_id -> well_formed_pair base -> bob_keys_ok b ->
  exists sa csprng' ct sb,
    initialize_alice_session (alice_parameters a_id base b) csprng = (Ok sa, csprng') /\
    get_kyber_ciphertext sa = Some ct /\
    initialize_bob_session (bob_parameters b (ikp_identity_key a_id) (kp_public_key base) ct)
      = Ok sb /\
    (exists k, get_receiver_chain_key sa (kp_public_key (bk_signed b)) = Ok (Some k) /\
               get_sender_chain_key sb = Ok k) /\
    (exists their_ratchet root_b root_a chain_a,
       sender_ratchet_key sa = Ok their_ratchet /\ root_key sb = Ok root_b /\
       create_chain root_b their_ratchet (kp_private_key (bk_signed b)) = Ok (root_a, chain_a) /\
       root_key sa = Ok root_a /\ get_sender_chain_key sa = Ok chain_a) /\
    alice_base_key sa = alice_base_key sb /\
    local_identity_key sa = Ok (ikp_identity_key a_id) /\
    remote_identity_key sb = Ok (Some (ikp_identity_key a_id)) /\
    session_version sa = Ok 4 /\ session_version sb = Ok 4.
Proof.
  intros Ha Hbase Hb.
  destruct (pqxdh_mirrored a_id base b csprng Ha Hbase Hb)
    as (sa & csprng' & ct & sb & Halice & Hct & Hbob & Hm).
  exists sa, csprng', ct, sb. split_and!; [done|done|done| | | | | | |].
  all: destruct Hm as (root & chain & pqr & ratchet & root' & chain' & qa & qb & Hr & _ & Hcc & Hqa
    & Hqb & (ct' & ->) & ->).
  - exists (mkChainKey chain 0). split.
    + unfold get_receiver_chain_key, get_receiver_chain. cbn -[PublicKey_deserialize PublicKey_serialize].
      rewrite PublicKey_deserialize_serialize. cbn -[PublicKey_eqb]. rewrite PublicKey_eqb_refl. cbn.
      by rewrite try_array_arr.
    + by apply (sender_chain_eq _ (bk_signed b)).
  - exists (kp_public_key ratchet), root, root', chain'.
    split_and!; [by apply (sender_chain_eq _ _ chain')|by apply root_key_eq|done
                |by apply root_key_eq|by apply (sender_chain_eq _ ratchet)].
  - done.
  - by apply local_identity_key_eq.
  - by apply remote_identity_key_eq.
  - done.
  - done.
Qed.
End agreement.
