(* ===== verification/KeyStream.v ===== *)
(** * KeyStream: the abstract message-key stream of a ratchet chain

    What a receiving chain promises, independently of how its keys are
    derived and stored: counters below [next] were passed, of which those in
    [avail] can still be used once; asking for a later counter skips the ones
    in between, keeping the newest [MAX_MESSAGE_KEYS] of them.  The 1:1 ratchet
    (SessionCipher) and sender keys (GroupCipher) refine this specification. *)

From S2P Require Import Prelude Types.
Open Scope string_scope.
Open Scope list_scope.
Open Scope Z_scope.

Record stream := mkStream { next : Z; avail : list Z }.

Inductive verdict :=
| Granted                 (* the key of the counter, now used up *)
| Duplicate               (* passed, and no key is kept *)
| TooFar.                 (* more than [MAX_FORWARD_JUMPS] ahead *)

(** The counters from [from] up to, excluding, [to], newest first. *)
Definition skipped (from to : Z) : list Z := reverse (seqZ from (to - from)).

Definition keep (l : list Z) : list Z := take MAX_MESSAGE_KEYS l.

(** Asking for the key of [n]; [unlimited] lifts the limit on jumps. *)
Definition stream_get (unlimited : bool) (n : Z) (s : stream) : verdict * stream :=
  if n <? next s then
    if bool_decide (n ∈ avail s)
    then (Granted, mkStream (next s) (filter (fun m => m <> n) (avail s)))
    else (Duplicate, s)
  else if (MAX_FORWARD_JUMPS <? n - next s) && negb unlimited then (TooFar, s)
  else (Granted, mkStream (n + 1) (keep (skipped (next s) n ++ avail s))).

Definition stream_ok (s : stream) : Prop :=
  0 <= next s /\ NoDup (avail s) /\ Forall (fun n => 0 <= n < next s) (avail s) /\
  (length (avail s) <= MAX_MESSAGE_KEYS)%nat.

(** A run of requests: the verdicts, in order. *)
Fixpoint stream_run (unlimited : bool) (ns : list Z) (s : stream) : list verdict * stream :=
  match ns with
  | [] => ([], s)
  | n :: ns => let '(v, s) := stream_get unlimited n s in
               let '(vs, s) := stream_run unlimited ns s in (v :: vs, s)
  end.

(** ** Skipped counters *)

Lemma skipped_spec from to n : n ∈ skipped from to <-> from <= n < to.
Proof. unfold skipped. rewrite elem_of_reverse, elem_of_seqZ. lia. Qed.

Lemma skipped_NoDup from to : NoDup (skipped from to).
Proof. unfold skipped. rewrite reverse_Permutation. apply NoDup_seqZ. Qed.

Lemma skipped_length from to : length (skipped from to) = Z.to_nat (to - from).
Proof. unfold skipped. by rewrite length_reverse, length_seqZ. Qed.

Lemma skipped_empty n : skipped n n = [].
Proof. unfold skipped. by rewrite Z.sub_diag. Qed.

Lemma skipped_snoc from to : from < to -> skipped from to = skipped (from + 1) to ++ [from].
Proof.
  intros H. unfold skipped. rewrite seqZ_cons by lia. rewrite reverse_cons.
  rewrite Z.add_1_r. do 3 f_equal. lia.
Qed.

(** Pushing one counter and then the rest keeps the same newest ones. *)
Lemma keep_push from to l :
  from < to -> keep (skipped (from + 1) to ++ keep (from :: l)) = keep (skipped from to ++ l).
Proof.
  intros H. rewrite (skipped_snoc from to H), <- app_assoc. cbn [app]. unfold keep.
  rewrite !take_app. f_equal. rewrite take_take. f_equal. lia.
Qed.

Lemma filter_ne_absent (l : list Z) n : n ∉ l -> filter (fun m => m <> n) l = l.
Proof.
  induction l as [|m l IH]; [done|]. rewrite not_elem_of_cons. intros [Hne Hn].
  rewrite filter_cons_True by naive_solver. by rewrite IH.
Qed.

Lemma filter_ne_delete (l : list Z) j n :
  NoDup l -> l !! j = Some n -> delete j l = filter (fun m => m <> n) l.
Proof.
  revert j. induction l as [|m l IH]; intros j Hnd Hj; [done|].
  apply NoDup_cons in Hnd as [Hm Hnd]. destruct j as [|j]; cbn in Hj.
  - injection Hj as ->. cbn [delete list_delete]. rewrite filter_cons_False by naive_solver.
    symmetry. apply filter_ne_absent. done.
  - rewrite filter_cons_True.
    + cbn [delete list_delete]. f_equal. by apply IH.
    + intros ->. apply Hm. by eapply list_elem_of_lookup_2.
Qed.

(** ** Invariant *)

Lemma stream_get_ok unlimited n s :
  stream_ok s -> 0 <= n -> stream_ok (stream_get unlimited n s).2.
Proof.
  intros (H0 & Hnd & Hlt & Hlen) Hn. unfold stream_get.
  destruct (Z.ltb_spec n (next s)) as [Hlo|Hhi].
  - case_bool_decide; [|done]. split_and!; cbn; [done|by apply NoDup_filter| |].
    + rewrite Forall_forall in *. intros m Hm%list_elem_of_filter. naive_solver.
    + pose proof (length_filter (fun m => m <> n) (avail s)). lia.
  - case_match; [done|]. split_and!; cbn -[keep MAX_MESSAGE_KEYS]; [lia| | |].
    + unfold keep. eapply sublist_NoDup; [|apply sublist_take].
      apply NoDup_app. split_and!; [apply skipped_NoDup| |done].
      intros m Hm%skipped_spec Hin. rewrite Forall_forall in Hlt. specialize (Hlt m Hin). lia.
    + apply Forall_take, Forall_app. split.
      * apply Forall_forall. intros m Hm%skipped_spec. lia.
      * eapply Forall_impl; [done|]. cbn. lia.
    + unfold keep. rewrite length_take. lia.
Qed.

(** A granted counter is never granted again. *)
Lemma stream_no_replay unlimited n s s' :
  stream_ok s -> stream_get unlimited n s = (Granted, s') ->
  n < next s' /\ n ∉ avail s' /\ stream_get unlimited n s' = (Duplicate, s').
Proof.
  intros (H0 & Hnd & Hlt & Hlen). unfold stream_get at 1.
  assert (Hdup : forall s'', n < next s'' -> n ∉ avail s'' ->
            n < next s'' /\ n ∉ avail s'' /\ stream_get unlimited n s'' = (Duplicate, s'')).
  { intros s'' ? ?. split_and!; [done|done|]. unfold stream_get.
    rewrite (proj2 (Z.ltb_lt _ _)) by done. by rewrite bool_decide_eq_false_2. }
  destruct (Z.ltb_spec n (next s)) as [Hlo|Hhi].
  - case_bool_decide; [|done]. intros [= <-]. apply Hdup; cbn; [done|].
    rewrite list_elem_of_filter. naive_solver.
  - case_match; [done|]. intros [= <-]. apply Hdup; cbn -[keep]; [lia|].
    intros Hin%elem_of_take. destruct Hin as (i & Hin & _).
    apply list_elem_of_lookup_2, elem_of_app in Hin as [Hin%skipped_spec|Hin]; [lia|].
    rewrite Forall_forall in Hlt. specialize (Hlt n Hin). lia.
Qed.

(** ** Delivery in any order *)

(** The stream that starts at [n0], after the counters [used] were granted and
    while no key was dropped. *)
Definition delivered (n0 : Z) (used : list Z) (s : stream) : Prop :=
  n0 <= next s <= n0 + Z.of_nat MAX_MESSAGE_KEYS /\ NoDup (avail s) /\
  Forall (fun n => n0 <= n < next s) used /\
  forall n, n ∈ avail s <-> n0 <= n < next s /\ n ∉ used.

Lemma delivered_fresh n0 : delivered n0 [] (mkStream n0 []).
Proof.
  split_and!; cbn -[MAX_MESSAGE_KEYS]; [lia|lia|constructor|constructor|].
  intros n. rewrite elem_of_nil. lia.
Qed.

Lemma short_range (l : list Z) a b :
  NoDup l -> (forall n, n ∈ l -> a <= n < b) -> (length l <= Z.to_nat (b - a))%nat.
Proof.
  intros Hnd Hin. rewrite <- (skipped_length a b). apply submseteq_length.
  apply NoDup_submseteq; [done|]. intros n Hn. by apply skipped_spec, Hin.
Qed.

Lemma delivered_step unlimited n0 used s n :
  delivered n0 used s -> n ∉ used -> n0 <= n < n0 + Z.of_nat MAX_MESSAGE_KEYS ->
  exists s', stream_get unlimited n s = (Granted, s') /\ delivered n0 (n :: used) s'.
Proof.
  intros (Hn0 & Hnd & Hused & Hav) Hfresh Hn. unfold stream_get.
  destruct (Z.ltb_spec n (next s)) as [Hlo|Hhi].
  - rewrite bool_decide_eq_true_2 by (apply Hav; split; [lia|done]).
    eexists. split; [done|]. split_and!; cbn -[MAX_MESSAGE_KEYS];
      [lia|lia|by apply NoDup_filter|constructor; [lia|done]|].
    intros m. rewrite list_elem_of_filter, Hav, not_elem_of_cons. naive_solver.
  - assert (Hjump : MAX_FORWARD_JUMPS <? n - next s = false).
    { apply Z.ltb_ge. unfold MAX_FORWARD_JUMPS, MAX_MESSAGE_KEYS in *. lia. }
    rewrite Hjump. cbn [andb]. eexists. split; [done|].
    assert (Hall : NoDup (skipped (next s) n ++ avail s)).
    { apply NoDup_app. split_and!; [apply skipped_NoDup| |done].
      intros m Hm%skipped_spec Hm'%Hav. lia. }
    assert (Hkeep : keep (skipped (next s) n ++ avail s) = skipped (next s) n ++ avail s).
    { unfold keep. apply take_ge.
      assert (length (skipped (next s) n ++ avail s) <= Z.to_nat (n - n0))%nat; [|lia].
      apply short_range; [done|]. intros m [Hm%skipped_spec|Hm%Hav]%elem_of_app; lia. }
    rewrite Hkeep. split_and!; cbn -[MAX_MESSAGE_KEYS]; [lia|lia|done| |].
    + constructor; [lia|]. eapply Forall_impl; [done|]. cbn. lia.
    + intros m. rewrite elem_of_app, skipped_spec, Hav, not_elem_of_cons.
      rewrite Forall_forall in Hused. split.
      * intros [Hm|[Hm Hu]]; [|by split_and!; [lia|lia|lia|]].
        split_and!; [lia|lia|lia|]. intros Hin%Hused. lia.
      * intros (Hm & Hne & Hu). destruct (Z.lt_ge_cases m (next s)); [right|left]; lia || auto with lia.
Qed.

(** Distinct counters within one window are all granted, whatever the order in
    which they arrive. *)
Lemma stream_run_fresh unlimited n0 ns :
  NoDup ns -> Forall (fun n => n0 <= n < n0 + Z.of_nat MAX_MESSAGE_KEYS) ns ->
  (stream_run unlimited ns (mkStream n0 [])).1 = replicate (length ns) Granted.
Proof.
  intros Hnd Hwin.
  enough (forall used s, delivered n0 used s -> (forall n, n ∈ ns -> n ∉ used) ->
            (stream_run unlimited ns s).1 = replicate (length ns) Granted) as H.
  { apply (H [] (mkStream n0 [])); [apply delivered_fresh|]. intros n _ Hn. by apply elem_of_nil in Hn. }
  induction ns as [|n ns IH]; intros used s Hd Hu; [done|].
  apply NoDup_cons in Hnd as [Hn Hnd]. apply Forall_cons in Hwin as [Hw Hwin].
  destruct (delivered_step unlimited n0 used s n Hd) as (s' & Hget & Hd'); [apply Hu; left|done|].
  cbn [stream_run]. rewrite Hget.
  specialize (IH Hnd Hwin (n :: used) s' Hd').
  destruct (stream_run unlimited ns s') as [vs s'']. cbn. f_equal. apply IH.
  intros m Hm. apply not_elem_of_cons. split; [by intros ->|]. apply Hu. by right.
Qed.
