(* ===== verification/SenderKeys.v ===== *)
(** * SenderKeys: group ratchet state (rust/protocol/src/sender_keys.rs)

    A sender key state holds a chain key, the signing key and the message keys
    that were skipped, oldest first; a record holds up to
    [MAX_SENDER_KEY_STATES] states, the most recently added first. *)

From S2P Require Import Prelude Types Primitives Proto Curve Crypto KeyStream.
Open Scope string_scope.
Open Scope list_scope.
Open Scope Z_scope.

Record SenderMessageKey := mkSenderMessageKey {
  smk_iteration : Z;
  smk_iv : bytes;
  smk_cipher_key : bytes;
  smk_seed : bytes
}.

Record SenderChainKey := mkSenderChainKey { sck_iteration : Z; sck_chain_key : bytes }.

Record SenderKeyState := mkSenderKeyState { sks : storage.SenderKeyStateStructure }.

Record SenderKeyRecord := mkSenderKeyRecord { states : list SenderKeyState }.

Section sender_keys.
Context {P : Primitives}.

(** [SenderMessageKey::new]: 48 bytes cut into the IV and the key. *)
Definition SenderMessageKey_new (iteration : Z) (seed : bytes) : SenderMessageKey :=
  let derived := hkdf_sha256 None seed (byte_str "WhisperGroup") 48 in
  mkSenderMessageKey iteration (slice 0 16 derived) (slice 16 48 derived) seed.

Definition SenderMessageKey_from_protobuf (smk : storage.SenderMessageKey) : SenderMessageKey :=
  SenderMessageKey_new (storage.smk_iteration smk) (storage.smk_seed smk).

Definition SenderMessageKey_as_protobuf (k : SenderMessageKey) : storage.SenderMessageKey :=
  storage.mkSenderMessageKey (smk_iteration k) (smk_seed k).

Definition SENDER_MESSAGE_KEY_SEED : byte := Byte.x01.
Definition SENDER_CHAIN_KEY_SEED : byte := Byte.x02.

Definition get_derivative (k : SenderChainKey) (label : byte) : bytes :=
  arr (hmac_sha256 (sck_chain_key k) [label]).

(** [SenderChainKey::next]: the iteration is checked for overflow. *)
Definition SenderChainKey_next (k : SenderChainKey) : Result SenderChainKey :=
  new_iteration ← ok_or (InvalidState "sender_chain_key_next" "Sender chain is too long")
                    (u32_checked_add (sck_iteration k) 1);
  Ok (mkSenderChainKey new_iteration (get_derivative k SENDER_CHAIN_KEY_SEED)).

Definition sender_message_key (k : SenderChainKey) : SenderMessageKey :=
  SenderMessageKey_new (sck_iteration k) (get_derivative k SENDER_MESSAGE_KEY_SEED).

Definition SenderChainKey_as_protobuf (k : SenderChainKey) : storage.SenderChainKey :=
  storage.mkSenderChainKey (sck_iteration k) (sck_chain_key k).

(** ** SenderKeyState *)

Definition SenderKeyState_new (message_version chain_id iteration : Z) (chain_key : bytes)
    (signature_key : PublicKey) (signature_private_key : option PrivateKey) : SenderKeyState :=
  mkSenderKeyState (storage.mkSenderKeyStateStructure message_version chain_id
    (Some (SenderChainKey_as_protobuf (mkSenderChainKey iteration chain_key)))
    (Some (storage.mkSenderSigningKey (PublicKey_serialize signature_key)
             match signature_private_key with
             | None => []
             | Some k => PrivateKey_serialize k
             end))
    []).

Definition sks_message_version (s : SenderKeyState) : Z :=
  if storage.sks_message_version (sks s) =? 0 then 3 else storage.sks_message_version (sks s).

Definition sks_chain_id (s : SenderKeyState) : Z := storage.sks_chain_id (sks s).

Definition sender_chain_key (s : SenderKeyState) : option SenderChainKey :=
  sender_chain ← storage.sks_sender_chain_key (sks s);
  Some (mkSenderChainKey (storage.sck_iteration sender_chain) (storage.sck_seed sender_chain)).

Definition set_sender_chain_key_state (k : SenderChainKey) (s : SenderKeyState) : SenderKeyState :=
  mkSenderKeyState (storage.mkSenderKeyStateStructure (storage.sks_message_version (sks s))
    (storage.sks_chain_id (sks s)) (Some (SenderChainKey_as_protobuf k))
    (storage.sks_sender_signing_key (sks s)) (storage.sks_sender_message_keys (sks s))).

Definition set_sender_message_keys (keys : list storage.SenderMessageKey) (s : SenderKeyState)
  : SenderKeyState :=
  mkSenderKeyState (storage.mkSenderKeyStateStructure (storage.sks_message_version (sks s))
    (storage.sks_chain_id (sks s)) (storage.sks_sender_chain_key (sks s))
    (storage.sks_sender_signing_key (sks s)) keys).

Definition signing_key_public (s : SenderKeyState) : outcome InvalidSessionError PublicKey :=
  match storage.sks_sender_signing_key (sks s) with
  | Some signing_key =>
      map_err (fun _ => mkInvalidSessionError "invalid public signing key")
        (PublicKey_deserialize (storage.ssk_public signing_key))
  | None => Err (mkInvalidSessionError "missing signing key")
  end.

Definition signing_key_private (s : SenderKeyState) : outcome InvalidSessionError PrivateKey :=
  match storage.sks_sender_signing_key (sks s) with
  | Some signing_key =>
      map_err (fun _ => mkInvalidSessionError "invalid private signing key")
        (PrivateKey_deserialize (storage.ssk_private signing_key))
  | None => Err (mkInvalidSessionError "missing signing key")
  end.

(** [while keys.len() > MAX_MESSAGE_KEYS { keys.remove(0) }]. *)
Fixpoint trim_front {A} (keys : list A) : list A :=
  match keys with
  | [] => []
  | _ :: rest => if (MAX_MESSAGE_KEYS <? length keys)%nat then trim_front rest else keys
  end.

Definition add_sender_message_key (k : SenderMessageKey) (s : SenderKeyState) : SenderKeyState :=
  set_sender_message_keys
    (trim_front (storage.sks_sender_message_keys (sks s) ++ [SenderMessageKey_as_protobuf k])) s.

Definition remove_sender_message_key (iteration : Z) (s : SenderKeyState)
  : option SenderMessageKey * SenderKeyState :=
  let keys := storage.sks_sender_message_keys (sks s) in
  match position (fun x => storage.smk_iteration x =? iteration) keys with
  | Some index =>
      (SenderMessageKey_from_protobuf <$> (keys !! index),
       set_sender_message_keys (delete index keys) s)
  | None => (None, s)
  end.

(** ** SenderKeyRecord *)

Definition new_empty : SenderKeyRecord := mkSenderKeyRecord [].

Context `{!Prost storage.SenderKeyRecordStructure}.

Definition SenderKeyRecord_deserialize (buf : bytes) : Result SenderKeyRecord :=
  skr ← ok_or InvalidProtobufEncoding (decode_pb buf);
  Ok (mkSenderKeyRecord (mkSenderKeyState <$> storage.skr_sender_key_states skr)).

Definition SenderKeyRecord_serialize (r : SenderKeyRecord) : Result bytes :=
  Ok (encode_to_vec (storage.mkSenderKeyRecordStructure (sks <$> states r))).

(** [sender_key_state] and [sender_key_state_mut]: the first state. *)
Definition sender_key_state (r : SenderKeyRecord) : outcome InvalidSessionError SenderKeyState :=
  match states r with
  | s :: _ => Ok s
  | [] => Err (mkInvalidSessionError "empty sender key state")
  end.

(** [sender_key_state_for_chain_id]: the index of the state, through which
    the caller mutates it. *)
Definition sender_key_state_for_chain_id (r : SenderKeyRecord) (chain_id : Z)
  : option (nat * SenderKeyState) :=
  i ← position (fun s => sks_chain_id s =? chain_id) (states r);
  s ← states r !! i;
  Some (i, s).

Definition set_state (i : nat) (s : SenderKeyState) (r : SenderKeyRecord) : SenderKeyRecord :=
  mkSenderKeyRecord (<[i := s]> (states r)).

(** [remove_state]: the first state with this chain id and signing key. *)
Definition remove_state (chain_id : Z) (signature_key : PublicKey) (l : list SenderKeyState)
  : option SenderKeyState * list SenderKeyState :=
  match position (fun s => (sks_chain_id s =? chain_id) &&
                           match ok (signing_key_public s) with
                           | Some k => PublicKey_eqb k signature_key
                           | None => false
                           end) l with
  | Some index => (l !! index, delete index l)
  | None => (None, l)
  end.

Definition remove_states_with_chain_id (chain_id : Z) (l : list SenderKeyState)
  : list SenderKeyState :=
  filter (fun s => sks_chain_id s <> chain_id) l.

(** [while states.len() >= MAX_SENDER_KEY_STATES { states.pop_back(); }]. *)
Fixpoint pop_back_until (fuel : nat) (l : list SenderKeyState) : list SenderKeyState :=
  match fuel with
  | O => l
  | S fuel => if (MAX_SENDER_KEY_STATES <=? length l)%nat then pop_back_until fuel (vec_pop l) else l
  end.

Definition add_sender_key_state (message_version chain_id iteration : Z) (chain_key : bytes)
    (signature_key : PublicKey) (signature_private_key : option PrivateKey)
    (r : SenderKeyRecord) : SenderKeyRecord :=
  let '(existing_state, l) := remove_state chain_id signature_key (states r) in
  let l := remove_states_with_chain_id chain_id l in
  let state :=
    match existing_state with
    | None => SenderKeyState_new message_version chain_id iteration chain_key signature_key
                signature_private_key
    | Some state => state
    end in
  mkSenderKeyRecord (state :: pop_back_until (length l) l).
End sender_keys.

(** ** The vector of skipped keys *)

Lemma trim_front_eq {A} (l : list A) :
  trim_front l = drop (length l - MAX_MESSAGE_KEYS) l.
Proof.
  induction l as [|x l IH]; [done|]. cbn -[MAX_MESSAGE_KEYS Nat.ltb Nat.sub].
  destruct (Nat.ltb_spec MAX_MESSAGE_KEYS (S (length l))) as [H|H].
  - rewrite IH. replace (S (length l) - MAX_MESSAGE_KEYS)%nat
      with (S (length l - MAX_MESSAGE_KEYS)) by lia. done.
  - replace (S (length l) - MAX_MESSAGE_KEYS)%nat with O by lia. done.
Qed.

Lemma drop_reverse {A} (l : list A) n : drop (length l - n) (reverse l) = reverse (take n l).
Proof.
  destruct (Nat.le_gt_cases (length l) n).
  - rewrite take_ge by done. by replace (length l - n)%nat with O by lia.
  - rewrite <- (take_drop n l) at 2. rewrite reverse_app, drop_app_length'; [done|].
    rewrite length_reverse, length_drop. done.
Qed.

(** Oldest-first storage trims the reverse of what newest-first storage keeps. *)
Lemma trim_front_reverse {A} (l : list A) :
  trim_front (reverse l) = reverse (take MAX_MESSAGE_KEYS l).
Proof. by rewrite trim_front_eq, length_reverse, drop_reverse. Qed.

(** ** The states of a record *)

Lemma pop_back_until_eq fuel l :
  (length l <= fuel)%nat -> pop_back_until fuel l = take (MAX_SENDER_KEY_STATES - 1) l.
Proof.
  revert l. induction fuel as [|fuel IH]; intros l Hl.
  - destruct l; [by rewrite take_nil|cbn in Hl; lia].
  - cbn -[MAX_SENDER_KEY_STATES Nat.leb]. destruct (Nat.leb_spec MAX_SENDER_KEY_STATES (length l)).
    + rewrite IH by (rewrite vec_pop_length; unfold MAX_SENDER_KEY_STATES in *; lia).
      unfold vec_pop. rewrite take_take. f_equal. unfold MAX_SENDER_KEY_STATES in *. lia.
    + rewrite take_ge; [done|]. unfold MAX_SENDER_KEY_STATES in *. lia.
Qed.

(** At most [MAX_SENDER_KEY_STATES] states, with different chain ids. *)
Definition record_ok (r : SenderKeyRecord) : Prop :=
  (length (states r) <= MAX_SENDER_KEY_STATES)%nat /\ NoDup (sks_chain_id <$> states r).

Lemma new_empty_ok : record_ok new_empty.
Proof. split; cbn; [lia|constructor]. Qed.

(** [l] without the states of one chain. *)
Lemma fmap_filter_NoDup chain_id l :
  NoDup (sks_chain_id <$> l) ->
  NoDup (sks_chain_id <$> remove_states_with_chain_id chain_id l) /\
  chain_id ∉ sks_chain_id <$> remove_states_with_chain_id chain_id l.
Proof.
  intros Hnd. split.
  - eapply sublist_NoDup; [done|]. apply fmap_sublist, sublist_filter.
  - intros (s & -> & Hs)%list_elem_of_fmap. by apply list_elem_of_filter in Hs as [? _].
Qed.

Lemma remove_states_delete chain_id i l s :
  l !! i = Some s -> sks_chain_id s = chain_id ->
  remove_states_with_chain_id chain_id (delete i l) = remove_states_with_chain_id chain_id l.
Proof.
  unfold remove_states_with_chain_id. revert i. induction l as [|x l IH]; intros i Hi Hs; [done|].
  destruct i as [|i]; cbn in Hi.
  - injection Hi as ->. cbn [delete list_delete]. by rewrite filter_cons_False by naive_solver.
  - cbn [delete list_delete]. rewrite !filter_cons. case_decide; [f_equal|]; by apply IH.
Qed.

(** Adding a sender key keeps a record well formed (at most five states,
    one per chain), puts the chain's state first, and keeps the four most
    recent other chains in order.  A chain that is already known with the same
    signing key keeps its state, so an old distribution message cannot rewind
    it; any other chain starts from the given key. *)
Theorem add_sender_key_state_spec v chain_id it ck pk sk r :
  record_ok r ->
  let r' := add_sender_key_state v chain_id it ck pk sk r in
  record_ok r' /\
  exists s, states r' = s :: take 4 (filter (fun s => sks_chain_id s <> chain_id) (states r)) /\
    sks_chain_id s = chain_id /\
    ((s ∈ states r /\ signing_key_public s = Ok pk) \/
     (s = SenderKeyState_new v chain_id it ck pk sk /\
      forall s', s' ∈ states r -> sks_chain_id s' = chain_id -> signing_key_public s' <> Ok pk)).
Proof.
  intros [Hlen Hnd]. unfold add_sender_key_state. cbv zeta.
  match goal with |- context [remove_state ?c ?k ?l] => destruct (remove_state c k l) as [ex l'] eqn:E end.
  assert (Hl' : remove_states_with_chain_id chain_id l' = remove_states_with_chain_id chain_id (states r) /\
    match ex with
    | Some s => s ∈ states r /\ sks_chain_id s = chain_id /\ signing_key_public s = Ok pk
    | None => forall s', s' ∈ states r -> sks_chain_id s' = chain_id -> signing_key_public s' <> Ok pk
    end).
  { unfold remove_state in E. destruct (position _ (states r)) as [i|] eqn:Ep.
    - apply position_Some in Ep as (s & Hs & Hb & _). injection E as <- <-. rewrite Hs.
      apply andb_true_iff in Hb as [Hid%Z.eqb_eq Hk].
      split; [by eapply remove_states_delete|]. split_and!; [by eapply list_elem_of_lookup_2|done|].
      destruct (signing_key_public s) as [k| |]; cbn in Hk; [|done|done].
      apply PublicKey_eqb_true in Hk. by subst.
    - injection E as <- <-. split; [done|]. intros s' Hs' Hid Hk.
      rewrite position_None in Ep. specialize (Ep s' Hs'). rewrite Hk in Ep. cbn in Ep.
      rewrite PublicKey_eqb_refl, andb_true_r in Ep. lia. }
  destruct Hl' as [-> Hex]. rewrite pop_back_until_eq by done.
  destruct (fmap_filter_NoDup chain_id _ Hnd) as [Hnd' Hnin].
  match goal with |- record_ok (mkSenderKeyRecord (?st :: _)) /\ _ => set (s := st) end.
  assert (Hs : sks_chain_id s = chain_id) by (unfold s; destruct ex; naive_solver).
  split.
  - split; cbn -[take MAX_SENDER_KEY_STATES].
    + rewrite length_take. unfold MAX_SENDER_KEY_STATES. lia.
    + rewrite Hs, fmap_take. apply NoDup_cons. split.
      * intros (i & Hi & _)%elem_of_take. apply Hnin. by eapply list_elem_of_lookup_2.
      * eapply sublist_NoDup; [done|apply sublist_take].
  - exists s. split; [done|]. split; [done|]. unfold s. destruct ex; [left|right]; naive_solver.
Qed.
