(* ===== verification/Stores.v ===== *)
(** * Stores: pre-keys, bundles and the storage interfaces
    (rust/protocol/src/state, rust/protocol/src/storage)

    The pre-key records, [PreKeyBundle], the store traits as classes over the
    type of the store, and the in-memory stores as instances.  The clients
    (Session, SessionCipher, GroupCipher) are written against the classes;
    what their theorems need of a store are the law classes, which the
    in-memory stores satisfy. *)

From S2P Require Import Prelude Types Primitives Proto Curve Kem Crypto IdentityKey SessionState SessionRecord SenderKeys.
Open Scope string_scope.
Open Scope list_scope.
Open Scope Z_scope.

(** ** Pre-key records (state/prekey.rs, signed_prekey.rs, kyber_prekey.rs) *)

Record PreKeyRecord := mkPreKeyRecord { pre_key : storage.PreKeyRecordStructure }.
Record SignedPreKeyRecord := mkSignedPreKeyRecord {
  signed_pre_key : storage.SignedPreKeyRecordStructure
}.
Record KyberPreKeyRecord := mkKyberPreKeyRecord {
  kyber_signed_pre_key : storage.SignedPreKeyRecordStructure
}.

Section prekeys.
Context {P : Primitives} `{!Prost storage.PreKeyRecordStructure,
  !Prost storage.SignedPreKeyRecordStructure}.

Definition PreKeyRecord_new (id : Z) (key : KeyPair) : PreKeyRecord :=
  mkPreKeyRecord (storage.mkPreKeyRecordStructure id (PublicKey_serialize (kp_public_key key))
                    (PrivateKey_serialize (kp_private_key key))).

Definition PreKeyRecord_deserialize (data : bytes) : Result PreKeyRecord :=
  s ← ok_or InvalidProtobufEncoding (decode_pb data); Ok (mkPreKeyRecord s).

Definition PreKeyRecord_id (r : PreKeyRecord) : Result Z := Ok (storage.pkr_id (pre_key r)).

Definition PreKeyRecord_key_pair (r : PreKeyRecord) : Result KeyPair :=
  map_err from_CurveError
    (KeyPair_from_public_and_private (storage.pkr_public_key (pre_key r))
       (storage.pkr_private_key (pre_key r))).

Definition PreKeyRecord_public_key (r : PreKeyRecord) : Result PublicKey :=
  map_err from_CurveError (PublicKey_deserialize (storage.pkr_public_key (pre_key r))).

Definition PreKeyRecord_private_key (r : PreKeyRecord) : Result PrivateKey :=
  map_err from_CurveError (PrivateKey_deserialize (storage.pkr_private_key (pre_key r))).

Definition PreKeyRecord_serialize (r : PreKeyRecord) : Result bytes :=
  Ok (encode_to_vec (pre_key r)).

(** [KeySerde] and [KeyPairSerde]: key pairs that signed records can hold. *)
Class KeyPairSerde (KP PK : Type) := {
  serde_from_public_and_private : bytes -> bytes -> Result KP;
  serde_public_deserialize : bytes -> Result PK;
  serde_get_public : KP -> bytes;
  serde_get_private : KP -> bytes
}.

#[export] Instance KeyPairSerde_ec : KeyPairSerde KeyPair PublicKey := {
  serde_from_public_and_private pub priv :=
    map_err from_CurveError (KeyPair_from_public_and_private pub priv);
  serde_public_deserialize b := map_err from_CurveError (PublicKey_deserialize b);
  serde_get_public kp := PublicKey_serialize (kp_public_key kp);
  serde_get_private kp := PrivateKey_serialize (kp_private_key kp)
}.

#[export] Instance KeyPairSerde_kem : KeyPairSerde KemKeyPair KemPublicKey := {
  serde_from_public_and_private := KemKeyPair_from_public_and_private;
  serde_public_deserialize := Key_deserialize Public;
  serde_get_public kp := Key_serialize (kkp_public_key kp);
  serde_get_private kp := Key_serialize (kkp_secret_key kp)
}.

(** [GenericSignedPreKey], over the two record types. *)
Class GenericSignedPreKey (R KP PK : Type) `{KeyPairSerde KP PK} := {
  get_storage : R -> storage.SignedPreKeyRecordStructure;
  from_storage : storage.SignedPreKeyRecordStructure -> R
}.

#[export] Instance SignedPreKeyRecord_generic : GenericSignedPreKey SignedPreKeyRecord KeyPair PublicKey := {
  get_storage := signed_pre_key;
  from_storage := mkSignedPreKeyRecord
}.
#[export] Instance KyberPreKeyRecord_generic : GenericSignedPreKey KyberPreKeyRecord KemKeyPair KemPublicKey := {
  get_storage := kyber_signed_pre_key;
  from_storage := mkKyberPreKeyRecord
}.

Section generic.
Context {R KP PK : Type} `{GenericSignedPreKey R KP PK}.

Definition spk_new (id timestamp : Z) (key_pair : KP) (signature : bytes) : R :=
  from_storage (storage.mkSignedPreKeyRecordStructure id (serde_get_public key_pair)
                  (serde_get_private key_pair) signature timestamp).
Definition spk_serialize (r : R) : Result bytes := Ok (encode_to_vec (get_storage r)).
Definition spk_deserialize (data : bytes) : Result R :=
  s ← ok_or InvalidProtobufEncoding (decode_pb data); Ok (from_storage s).
Definition spk_id (r : R) : Result Z := Ok (storage.spkr_id (get_storage r)).
Definition spk_timestamp (r : R) : Result Z := Ok (storage.spkr_timestamp (get_storage r)).
Definition spk_signature (r : R) : Result bytes := Ok (storage.spkr_signature (get_storage r)).
Definition spk_public_key (r : R) : Result PK :=
  serde_public_deserialize (storage.spkr_public_key (get_storage r)).
Definition spk_key_pair (r : R) : Result KP :=
  serde_from_public_and_private (storage.spkr_public_key (get_storage r))
    (storage.spkr_private_key (get_storage r)).
End generic.

Definition SignedPreKeyRecord_private_key (r : SignedPreKeyRecord) : Result PrivateKey :=
  map_err from_CurveError (PrivateKey_deserialize (storage.spkr_private_key (signed_pre_key r))).

Definition KyberPreKeyRecord_secret_key (r : KyberPreKeyRecord) : Result KemSecretKey :=
  Key_deserialize Secret (storage.spkr_private_key (kyber_signed_pre_key r)).

(** [KyberPreKeyRecord::generate]; the clock is an argument, and the
    milliseconds must fit the [u64] of a [Timestamp]. *)
Definition KyberPreKeyRecord_generate (kyber_key_type : KemKeyType) (id : Z)
    (signing_key : PrivateKey) (now : Z) : M Rng SignalProtocolError KyberPreKeyRecord :=
  key_pair ← (fun rng => let '(kp, rng) := KemKeyPair_generate kyber_key_type rng in (Ok kp, rng));
  signature ← map_err_M from_CurveError
    (calculate_signature signing_key (Key_serialize (kkp_public_key key_pair)));
  let timestamp := now / 1000000 in
  _ ← assert_M ((0 <=? now) && (timestamp <=? u64_max));
  mret (spk_new (R := KyberPreKeyRecord) id timestamp key_pair signature).
End prekeys.

#[export] Existing Instances KeyPairSerde_ec KeyPairSerde_kem SignedPreKeyRecord_generic
  KyberPreKeyRecord_generic.

(** ** Reading pre-key records back *)

Section prekey_facts.
Context {P : Primitives} {X : X25519Laws} {K : KemLaws}
  `{!Prost storage.PreKeyRecordStructure, !Prost storage.SignedPreKeyRecordStructure}
  {L : ProstLaws storage.PreKeyRecordStructure (fun s => is_u32 (storage.pkr_id s))}
  {LS : ProstLaws storage.SignedPreKeyRecordStructure
          (fun s => is_u32 (storage.spkr_id s) /\ is_u64 (storage.spkr_timestamp s))}.

Lemma PreKeyRecord_read_back id kp :
  well_formed_pair kp -> PreKeyRecord_key_pair (PreKeyRecord_new id kp) = Ok kp.
Proof. intros Hk. unfold PreKeyRecord_key_pair. cbn. by rewrite KeyPair_read_back. Qed.

Lemma SignedPreKeyRecord_read_back id ts kp sig :
  well_formed_pair kp -> spk_key_pair (spk_new (R := SignedPreKeyRecord) id ts kp sig) = Ok kp.
Proof. intros Hk. unfold spk_key_pair. cbn. by rewrite KeyPair_read_back. Qed.

Lemma KyberPreKeyRecord_read_back id ts kp sig :
  generated_pair kp -> spk_key_pair (spk_new (R := KyberPreKeyRecord) id ts kp sig) = Ok kp.
Proof. intros Hk. unfold spk_key_pair. by apply KemKeyPair_read_back. Qed.

(** Stored pre-keys are read back.  A one-time, a signed and a Kyber
    pre-key record, serialized and deserialized, are the records they were,
    and give back the id, the key pair, its two halves and the signature they
    were made of. *)
Theorem pre_key_records_round_trip id ts kp kem sig :
  is_u32 id -> is_u64 ts -> well_formed_pair kp -> generated_pair kem ->
  (let r := PreKeyRecord_new id kp in
   (data ← PreKeyRecord_serialize r; PreKeyRecord_deserialize data) = Ok r /\
   PreKeyRecord_id r = Ok id /\ PreKeyRecord_key_pair r = Ok kp /\
   PreKeyRecord_public_key r = Ok (kp_public_key kp) /\
   PreKeyRecord_private_key r = Ok (kp_private_key kp)) /\
  (let r := spk_new (R := SignedPreKeyRecord) id ts kp sig in
   (data ← spk_serialize r; spk_deserialize data) = Ok r /\
   spk_id r = Ok id /\ spk_timestamp r = Ok ts /\ spk_signature r = Ok sig /\
   spk_key_pair r = Ok kp /\ spk_public_key r = Ok (kp_public_key kp) /\
   SignedPreKeyRecord_private_key r = Ok (kp_private_key kp)) /\
  (let r := spk_new (R := KyberPreKeyRecord) id ts kem sig in
   (data ← spk_serialize r; spk_deserialize data) = Ok r /\
   spk_id r = Ok id /\ spk_timestamp r = Ok ts /\ spk_signature r = Ok sig /\
   spk_key_pair r = Ok kem /\ spk_public_key r = Ok (kkp_public_key kem) /\
   KyberPreKeyRecord_secret_key r = Ok (kkp_secret_key kem)).
Proof.
  intros Hid Hts Hk Hkem. cbv zeta. pose proof (generated_pair_ok kem Hkem) as [Hp Hs].
  split_and!; try done; try (by apply PreKeyRecord_read_back);
    try (by apply SignedPreKeyRecord_read_back); try (by apply KyberPreKeyRecord_read_back).
  - cbn. unfold PreKeyRecord_deserialize. by rewrite decode_encode_pb.
  - unfold PreKeyRecord_public_key. cbn -[PublicKey_deserialize PublicKey_serialize].
    by rewrite PublicKey_deserialize_serialize.
  - unfold PreKeyRecord_private_key. cbn -[PrivateKey_deserialize PrivateKey_serialize].
    by rewrite PrivateKey_read_back.
  - cbn. unfold spk_deserialize. by rewrite decode_encode_pb.
  - unfold spk_public_key. cbn -[PublicKey_deserialize PublicKey_serialize].
    by rewrite PublicKey_deserialize_serialize.
  - unfold SignedPreKeyRecord_private_key. cbn -[PrivateKey_deserialize PrivateKey_serialize].
    by rewrite PrivateKey_read_back.
  - cbn -[Key_serialize]. unfold spk_deserialize. by rewrite decode_encode_pb.
  - unfold spk_public_key. cbn -[Key_deserialize Key_serialize].
    destruct kem as [[[] pk] sk]. by apply Key_deserialize_serialize.
  - unfold KyberPreKeyRecord_secret_key. cbn -[Key_deserialize Key_serialize].
    destruct kem as [pk [[] sk]]. by apply Key_deserialize_serialize.
Qed.
End prekey_facts.

(** ** PreKeyBundle (state/bundle.rs) *)

Section bundle.
Context {P : Primitives}.

Record SignedPreKey := mkSignedPreKey {
  spk_b_id : Z; spk_b_public_key : PublicKey; spk_b_signature : bytes
}.
Record KyberPreKey := mkKyberPreKey {
  kpk_b_id : Z; kpk_b_public_key : KemPublicKey; kpk_b_signature : bytes
}.

Record PreKeyBundleContent := mkPreKeyBundleContent {
  c_registration_id : option Z;
  c_device_id : option DeviceId;
  c_pre_key_id : option Z;
  c_pre_key_public : option PublicKey;
  c_signed_pre_key_id : option Z;
  c_signed_pre_key_public : option PublicKey;
  c_signed_pre_key_signature : option bytes;
  c_identity_key : option IdentityKey;
  c_kyber_pre_key_id : option Z;
  c_kyber_pre_key_public : option KemPublicKey;
  c_kyber_pre_key_signature : option bytes
}.

Record PreKeyBundle := mkPreKeyBundle {
  b_registration_id : Z;
  b_device_id : DeviceId;
  b_pre_key_id : option Z;
  b_pre_key_public : option PublicKey;
  b_ec_signed_pre_key : SignedPreKey;
  b_identity_key : IdentityKey;
  b_kyber_pre_key : KyberPreKey
}.

Definition PreKeyBundle_new (registration_id : Z) (device_id : DeviceId)
    (pre_key : option (Z * PublicKey)) (signed_pre_key_id : Z)
    (signed_pre_key_public : PublicKey) (signed_pre_key_signature : bytes)
    (kyber_pre_key_id : Z) (kyber_pre_key_public : KemPublicKey)
    (kyber_pre_key_signature : bytes) (identity_key : IdentityKey) : Result PreKeyBundle :=
  let '(pre_key_id, pre_key_public) :=
    match pre_key with
    | None => (None, None)
    | Some (id, key) => (Some id, Some key)
    end in
  Ok (mkPreKeyBundle registration_id device_id pre_key_id pre_key_public
        (mkSignedPreKey signed_pre_key_id signed_pre_key_public signed_pre_key_signature)
        identity_key
        (mkKyberPreKey kyber_pre_key_id kyber_pre_key_public kyber_pre_key_signature)).

Definition PreKeyBundleContent_from (b : PreKeyBundle) : PreKeyBundleContent :=
  mkPreKeyBundleContent (Some (b_registration_id b)) (Some (b_device_id b)) (b_pre_key_id b)
    (b_pre_key_public b) (Some (spk_b_id (b_ec_signed_pre_key b)))
    (Some (spk_b_public_key (b_ec_signed_pre_key b)))
    (Some (spk_b_signature (b_ec_signed_pre_key b))) (Some (b_identity_key b))
    (Some (kpk_b_id (b_kyber_pre_key b))) (Some (kpk_b_public_key (b_kyber_pre_key b)))
    (Some (kpk_b_signature (b_kyber_pre_key b))).

(** [ok_or_else(|| InvalidArgument("... is required"))]. *)
Definition required {A} (name : string) (o : option A) : Result A :=
  ok_or (InvalidArgument (name +:+ " is required")%string) o.

Definition PreKeyBundle_try_from (c : PreKeyBundleContent) : Result PreKeyBundle :=
  registration_id ← required "registration_id" (c_registration_id c);
  device_id ← required "device_id" (c_device_id c);
  let pre_key : option (Z * PublicKey) :=
    match c_pre_key_id c, c_pre_key_public c with
    | Some id, Some public => Some (id, public)
    | _, _ => None
    end in
  signed_pre_key_id ← required "signed_pre_key_id" (c_signed_pre_key_id c);
  signed_pre_key_public ← required "signed_pre_key_public" (c_signed_pre_key_public c);
  signed_pre_key_signature ← required "signed_pre_key_signature" (c_signed_pre_key_signature c);
  kyber_pre_key_id ← required "kyber_pre_key_id" (c_kyber_pre_key_id c);
  kyber_pre_key_public ← required "kyber_pre_key_public" (c_kyber_pre_key_public c);
  kyber_pre_key_signature ← required "kyber_pre_key_signature" (c_kyber_pre_key_signature c);
  identity_key ← required "identity_key" (c_identity_key c);
  PreKeyBundle_new registration_id device_id pre_key signed_pre_key_id signed_pre_key_public
    signed_pre_key_signature kyber_pre_key_id kyber_pre_key_public kyber_pre_key_signature
    identity_key.

Definition PreKeyBundle_modify (b : PreKeyBundle)
    (modify : PreKeyBundleContent -> PreKeyBundleContent) : Result PreKeyBundle :=
  PreKeyBundle_try_from (modify (PreKeyBundleContent_from b)).
End bundle.

(** ** The store traits (storage/traits.rs)

    A read is a function of the store; [&mut self] methods are [M]. *)

Abbreviation StoreM S := (M S SignalProtocolError).

(** [IdentityChange::from_changed]. *)
Definition from_changed (changed : bool) : IdentityChange :=
  if changed then ReplacedExisting else NewOrUnchanged.

Class IdentityKeyStore (S : Type) := {
  get_identity_key_pair : S -> Result IdentityKeyPair;
  get_local_registration_id : S -> Result Z;
  save_identity : ProtocolAddress -> IdentityKey -> StoreM S IdentityChange;
  is_trusted_identity : ProtocolAddress -> IdentityKey -> Direction -> S -> Result bool;
  get_identity : ProtocolAddress -> S -> Result (option IdentityKey)
}.
Class PreKeyStore (S : Type) := {
  get_pre_key : Z -> S -> Result PreKeyRecord;
  save_pre_key : Z -> PreKeyRecord -> StoreM S unit;
  remove_pre_key : Z -> StoreM S unit
}.
Class SignedPreKeyStore (S : Type) := {
  get_signed_pre_key : Z -> S -> Result SignedPreKeyRecord;
  save_signed_pre_key : Z -> SignedPreKeyRecord -> StoreM S unit
}.
Class KyberPreKeyStore (S : Type) := {
  get_kyber_pre_key : Z -> S -> Result KyberPreKeyRecord;
  save_kyber_pre_key : Z -> KyberPreKeyRecord -> StoreM S unit;
  mark_kyber_pre_key_used : Z -> Z -> PublicKey -> StoreM S unit
}.
Class SessionStore (S : Type) := {
  load_session : ProtocolAddress -> S -> Result (option SessionRecord);
  store_session : ProtocolAddress -> SessionRecord -> StoreM S unit
}.
Class SenderKeyStore (S : Type) := {
  store_sender_key : ProtocolAddress -> Uuid -> SenderKeyRecord -> StoreM S unit;
  load_sender_key : ProtocolAddress -> Uuid -> StoreM S (option SenderKeyRecord)
}.

(** What a client may rely on: reads return what was stored. *)
Class SessionStoreLaws (S : Type) `{SessionStore S} := {
  store_session_ok : forall a r s, exists s',
    store_session a r s = (Ok tt, s') /\ load_session a s' = Ok (Some r) /\
    forall a', a' <> a -> load_session a' s' = load_session a' s
}.
Class IdentityKeyStoreLaws (S : Type) `{IdentityKeyStore S} := {
  save_identity_ok : forall a k s, exists c s',
    save_identity a k s = (Ok c, s') /\ get_identity a s' = Ok (Some k) /\
    get_identity_key_pair s' = get_identity_key_pair s /\
    get_local_registration_id s' = get_local_registration_id s;
  save_identity_trusted : forall a k d s c s',
    save_identity a k s = (Ok c, s') -> is_trusted_identity a k d s' = Ok true
}.
Class SenderKeyStoreLaws (S : Type) `{SenderKeyStore S} := {
  store_sender_key_ok : forall a d r s, exists s',
    store_sender_key a d r s = (Ok tt, s') /\
    exists s'', load_sender_key a d s' = (Ok (Some r), s'');
  load_sender_key_pure : forall a d s, exists r, load_sender_key a d s = (r, s)
}.

(** ** The in-memory stores (storage/inmem.rs) *)

Record InMemIdentityKeyStore := mkInMemIdentityKeyStore {
  im_key_pair : IdentityKeyPair;
  im_registration_id : Z;
  im_known_keys : gmap ProtocolAddress IdentityKey
}.
Record InMemPreKeyStore := mkInMemPreKeyStore { im_pre_keys : gmap Z PreKeyRecord }.
Record InMemSignedPreKeyStore := mkInMemSignedPreKeyStore {
  im_signed_pre_keys : gmap Z SignedPreKeyRecord
}.
Record InMemKyberPreKeyStore := mkInMemKyberPreKeyStore {
  im_kyber_pre_keys : gmap Z KyberPreKeyRecord;
  im_base_keys_seen : gmap (Z * Z) (list PublicKey)
}.
Record InMemSessionStore := mkInMemSessionStore { im_sessions : gmap ProtocolAddress SessionRecord }.
Record InMemSenderKeyStore := mkInMemSenderKeyStore {
  im_keys : gmap (ProtocolAddress * bytes) SenderKeyRecord
}.

Definition InMemIdentityKeyStore_new (key_pair : IdentityKeyPair) (registration_id : Z) :=
  mkInMemIdentityKeyStore key_pair registration_id ∅.
Definition InMemIdentityKeyStore_reset (s : InMemIdentityKeyStore) : InMemIdentityKeyStore :=
  mkInMemIdentityKeyStore (im_key_pair s) (im_registration_id s) ∅.

Definition inmem_save_identity (address : ProtocolAddress) (identity : IdentityKey)
  : StoreM InMemIdentityKeyStore IdentityChange := fun s =>
  let inserted := mkInMemIdentityKeyStore (im_key_pair s) (im_registration_id s)
                    (<[address := identity]> (im_known_keys s)) in
  match im_known_keys s !! address with
  | None => (Ok NewOrUnchanged, inserted)
  | Some k => if IdentityKey_eqb k identity then (Ok NewOrUnchanged, s)
              else (Ok ReplacedExisting, inserted)
  end.

Definition inmem_is_trusted_identity (address : ProtocolAddress) (identity : IdentityKey)
    (direction : Direction) (s : InMemIdentityKeyStore) : Result bool :=
  match im_known_keys s !! address with
  | None => Ok true
  | Some k => Ok (IdentityKey_eqb k identity)
  end.

#[export] Instance InMemIdentityKeyStore_store : IdentityKeyStore InMemIdentityKeyStore := {
  get_identity_key_pair s := Ok (im_key_pair s);
  get_local_registration_id s := Ok (im_registration_id s);
  save_identity := inmem_save_identity;
  is_trusted_identity := inmem_is_trusted_identity;
  get_identity address s := Ok (im_known_keys s !! address)
}.

#[export] Instance InMemPreKeyStore_store : PreKeyStore InMemPreKeyStore := {
  get_pre_key id s := ok_or InvalidPreKeyId (im_pre_keys s !! id);
  save_pre_key id record := modify (fun s => mkInMemPreKeyStore (<[id := record]> (im_pre_keys s)));
  remove_pre_key id := modify (fun s => mkInMemPreKeyStore (delete id (im_pre_keys s)))
}.

#[export] Instance InMemSignedPreKeyStore_store : SignedPreKeyStore InMemSignedPreKeyStore := {
  get_signed_pre_key id s := ok_or InvalidSignedPreKeyId (im_signed_pre_keys s !! id);
  save_signed_pre_key id record :=
    modify (fun s => mkInMemSignedPreKeyStore (<[id := record]> (im_signed_pre_keys s)))
}.

Definition inmem_mark_kyber_pre_key_used (kyber_prekey_id ec_prekey_id : Z) (base_key : PublicKey)
  : StoreM InMemKyberPreKeyStore unit := fun s =>
  let seen := default [] (im_base_keys_seen s !! (kyber_prekey_id, ec_prekey_id)) in
  let with_seen l := mkInMemKyberPreKeyStore (im_kyber_pre_keys s)
                       (<[(kyber_prekey_id, ec_prekey_id) := l]> (im_base_keys_seen s)) in
  if existsb (fun k => PublicKey_eqb k base_key) seen
  then (Err (InvalidMessage PreKey "reused base key"), with_seen seen)
  else (Ok tt, with_seen (seen ++ [base_key])).

#[export] Instance InMemKyberPreKeyStore_store : KyberPreKeyStore InMemKyberPreKeyStore := {
  get_kyber_pre_key id s := ok_or InvalidKyberPreKeyId (im_kyber_pre_keys s !! id);
  save_kyber_pre_key id record := modify (fun s =>
    mkInMemKyberPreKeyStore (<[id := record]> (im_kyber_pre_keys s)) (im_base_keys_seen s));
  mark_kyber_pre_key_used := inmem_mark_kyber_pre_key_used
}.

#[export] Instance InMemSessionStore_store : SessionStore InMemSessionStore := {
  load_session address s := Ok (im_sessions s !! address);
  store_session address record := modify (fun s =>
    mkInMemSessionStore (<[address := record]> (im_sessions s)))
}.

(** [load_existing_sessions]: collecting stops at the first missing one. *)
Fixpoint load_existing_sessions (addresses : list ProtocolAddress) (s : InMemSessionStore)
  : Result (list SessionRecord) :=
  match addresses with
  | [] => Ok []
  | address :: addresses =>
      r ← ok_or (SessionNotFound address) (im_sessions s !! address);
      rs ← load_existing_sessions addresses s;
      Ok (r :: rs)
  end.

#[export] Instance InMemSenderKeyStore_store : SenderKeyStore InMemSenderKeyStore := {
  store_sender_key sender distribution_id record := modify (fun s =>
    mkInMemSenderKeyStore (<[(sender, arr distribution_id) := record]> (im_keys s)));
  load_sender_key sender distribution_id := gets (fun s => im_keys s !! (sender, arr distribution_id))
}.

(** [InMemSignalProtocolStore::new]. *)
Record InMemSignalProtocolStore := mkInMemSignalProtocolStore {
  im_session_store : InMemSessionStore;
  im_pre_key_store : InMemPreKeyStore;
  im_signed_pre_key_store : InMemSignedPreKeyStore;
  im_kyber_pre_key_store : InMemKyberPreKeyStore;
  im_identity_store : InMemIdentityKeyStore;
  im_sender_key_store : InMemSenderKeyStore
}.
Definition InMemSignalProtocolStore_new (key_pair : IdentityKeyPair) (registration_id : Z)
  : Result InMemSignalProtocolStore :=
  Ok (mkInMemSignalProtocolStore (mkInMemSessionStore ∅) (mkInMemPreKeyStore ∅)
        (mkInMemSignedPreKeyStore ∅) (mkInMemKyberPreKeyStore ∅ ∅)
        (InMemIdentityKeyStore_new key_pair registration_id) (mkInMemSenderKeyStore ∅)).

(** ** The in-memory stores keep the laws *)

#[export] Instance InMemSessionStore_laws : SessionStoreLaws InMemSessionStore.
Proof.
  constructor. intros a r s. eexists. split; [done|]. cbn. split.
  - by rewrite lookup_insert_eq.
  - intros a' Hne. by rewrite lookup_insert_ne by done.
Qed.

#[export] Instance InMemIdentityKeyStore_laws : IdentityKeyStoreLaws InMemIdentityKeyStore.
Proof.
  assert (H : forall a k s, exists c s',
    save_identity a k s = (Ok c, s') /\ im_known_keys s' !! a = Some k /\
    im_key_pair s' = im_key_pair s /\ im_registration_id s' = im_registration_id s).
  { intros a k s. cbn. unfold inmem_save_identity.
    destruct (im_known_keys s !! a) as [k'|] eqn:E.
    - destruct (IdentityKey_eqb k' k) eqn:Ek; eexists _, _; (split; [done|]); cbn.
      + apply IdentityKey_eqb_true in Ek as ->. by rewrite E.
      + by rewrite lookup_insert_eq.
    - eexists _, _. split; [done|]. cbn. by rewrite lookup_insert_eq. }
  constructor.
  - intros a k s. destruct (H a k s) as (c & s' & Hs & Hk & Hp & Hr). exists c, s'.
    cbn in *. by rewrite Hk, Hp, Hr.
  - intros a k d s c s' Hs. destruct (H a k s) as (c' & s2 & Hs' & Hk & _).
    rewrite Hs in Hs'. injection Hs' as -> ->. cbn. unfold inmem_is_trusted_identity.
    by rewrite Hk, IdentityKey_eqb_refl.
Qed.

#[export] Instance InMemSenderKeyStore_laws : SenderKeyStoreLaws InMemSenderKeyStore.
Proof.
  constructor.
  - intros a d r s. eexists. split; [done|]. eexists. cbn. unfold gets. cbn.
    by rewrite lookup_insert_eq.
  - intros a d s. by eexists.
Qed.

(** The last-resort check of Kyber pre-keys: the first use of a base key
    with a pair of pre-keys is recorded, and any later use of the same base key
    with the same pair is rejected, however many other uses come in between. *)
Theorem mark_kyber_pre_key_used_once kid sid base uses s s1 s2 :
  mark_kyber_pre_key_used (S := InMemKyberPreKeyStore) kid sid base s = (Ok tt, s1) ->
  s2 = foldl (fun s '(kid', sid', base') =>
                (mark_kyber_pre_key_used (S := InMemKyberPreKeyStore) kid' sid' base' s).2) s1 uses ->
  exists s3, mark_kyber_pre_key_used kid sid base s2
             = (Err (InvalidMessage PreKey "reused base key"), s3) /\
             im_kyber_pre_keys s3 = im_kyber_pre_keys s.
Proof.
  set (seen := fun s : InMemKyberPreKeyStore => base ∈ default [] (im_base_keys_seen s !! (kid, sid))).
  assert (Hstep : forall kid' sid' base' t,
    im_kyber_pre_keys (inmem_mark_kyber_pre_key_used kid' sid' base' t).2 = im_kyber_pre_keys t /\
    (seen t -> seen (inmem_mark_kyber_pre_key_used kid' sid' base' t).2)).
  { intros kid' sid' base' t. unfold inmem_mark_kyber_pre_key_used, seen. cbv zeta.
    case_match; cbn [snd im_kyber_pre_keys im_base_keys_seen]; (split; [done|]);
      (destruct (decide ((kid', sid') = (kid, sid))) as [[= -> ->]|Hne];
       [rewrite lookup_insert_eq|by rewrite lookup_insert_ne]).
    - done.
    - cbn [default from_option]. intros Hin. apply elem_of_app. by left. }
  intros Hfirst ->. cbn in Hfirst.
  assert (H1 : seen s1 /\ im_kyber_pre_keys s1 = im_kyber_pre_keys s).
  { unfold inmem_mark_kyber_pre_key_used in Hfirst. cbv zeta in Hfirst. case_match; [done|].
    injection Hfirst as <-. split; [|done]. unfold seen. cbn [im_base_keys_seen].
    rewrite lookup_insert_eq. cbn. apply elem_of_app. right. by apply list_elem_of_singleton. }
  clear Hfirst.
  assert (H2 : forall t, seen t /\ im_kyber_pre_keys t = im_kyber_pre_keys s ->
    let t' := foldl (fun s '(kid', sid', base') =>
                (mark_kyber_pre_key_used (S := InMemKyberPreKeyStore) kid' sid' base' s).2) t uses in
    seen t' /\ im_kyber_pre_keys t' = im_kyber_pre_keys s).
  { induction uses as [|[[kid' sid'] base'] uses IH]; [done|]. intros t [Ht Hk]. cbn. apply IH.
    destruct (Hstep kid' sid' base' t) as [Hs1 Hs2]. split; [by apply Hs2|]. congruence. }
  destruct (H2 s1 H1) as [Hseen Hk]. clear H2.
  set (t := foldl _ s1 uses) in *. cbn. unfold inmem_mark_kyber_pre_key_used. cbv zeta.
  assert (existsb (fun k => PublicKey_eqb k base)
            (default [] (im_base_keys_seen t !! (kid, sid))) = true) as ->.
  { apply existsb_exists. exists base. split; [by apply list_elem_of_In|apply PublicKey_eqb_refl]. }
  eexists. split; [done|]. done.
Qed.
