(* ===== verification/Session.v ===== *)
(** * Session: processing pre-keys (rust/protocol/src/session.rs)

    [process_prekey] sets up Bob's session from a pre-key message;
    [process_prekey_bundle] sets up Alice's from a bundle.  The stores and the
    random number generator a client has are the record [Env]; a call on one
    store is [zoom]ed into it.  Logging is not modelled. *)

From S2P Require Import Prelude Types Primitives Proto Curve Kem Crypto IdentityKey RatchetKeys Messages SessionState SessionRecord Ratchet SenderKeys Stores.
Open Scope string_scope.
Open Scope list_scope.
Open Scope Z_scope.

(** ** The stores of a client *)

Record Env {P : Primitives} (SS IS PS SPS KS : Type) := mkEnv {
  session_store : SS;
  identity_store : IS;
  pre_key_store : PS;
  signed_pre_key_store : SPS;
  kyber_pre_key_store : KS;
  csprng : Rng
}.
Arguments mkEnv {P SS IS PS SPS KS} _ _ _ _ _ _.
Arguments session_store {P SS IS PS SPS KS} _.
Arguments identity_store {P SS IS PS SPS KS} _.
Arguments pre_key_store {P SS IS PS SPS KS} _.
Arguments signed_pre_key_store {P SS IS PS SPS KS} _.
Arguments kyber_pre_key_store {P SS IS PS SPS KS} _.
Arguments csprng {P SS IS PS SPS KS} _.

Abbreviation EM SS IS PS SPS KS := (M (Env SS IS PS SPS KS) SignalProtocolError).

Section env.
Context {P : Primitives} {SS IS PS SPS KS : Type}.
Implicit Types e : Env SS IS PS SPS KS.

Definition set_session_store (v : SS) e := mkEnv v (identity_store e) (pre_key_store e)
  (signed_pre_key_store e) (kyber_pre_key_store e) (csprng e).
Definition set_identity_store (v : IS) e := mkEnv (session_store e) v (pre_key_store e)
  (signed_pre_key_store e) (kyber_pre_key_store e) (csprng e).
Definition set_pre_key_store (v : PS) e := mkEnv (session_store e) (identity_store e) v
  (signed_pre_key_store e) (kyber_pre_key_store e) (csprng e).
Definition set_kyber_pre_key_store (v : KS) e := mkEnv (session_store e) (identity_store e)
  (pre_key_store e) (signed_pre_key_store e) v (csprng e).
Definition set_csprng (v : Rng) e := mkEnv (session_store e) (identity_store e) (pre_key_store e)
  (signed_pre_key_store e) (kyber_pre_key_store e) v.

Definition with_sessions {A} (m : StoreM SS A) : EM SS IS PS SPS KS A := zoom session_store set_session_store m.
Definition with_identities {A} (m : StoreM IS A) : EM SS IS PS SPS KS A :=
  zoom identity_store set_identity_store m.
Definition with_pre_keys {A} (m : StoreM PS A) : EM SS IS PS SPS KS A := zoom pre_key_store set_pre_key_store m.
Definition with_kyber {A} (m : StoreM KS A) : EM SS IS PS SPS KS A :=
  zoom kyber_pre_key_store set_kyber_pre_key_store m.
Definition with_rng {A} (m : M Rng SignalProtocolError A) : EM SS IS PS SPS KS A := zoom csprng set_csprng m.

(** A call on a local value and the random number generator. *)
Definition with_local_rng {L A} (l : L) (m : M (L * Rng) SignalProtocolError A) : EM SS IS PS SPS KS (A * L) :=
  with_local l (zoom (fun '(l, e) => (l, csprng e))
                     (fun '(l, rng) '(_, e) => (l, set_csprng rng e)) m).

(** An infallible draw of a key pair. *)
Definition generate_key_pair : M Rng SignalProtocolError KeyPair :=
  fun rng => let '(kp, rng) := KeyPair_generate rng in (Ok kp, rng).
End env.

Record PreKeysUsed := mkPreKeysUsed {
  one_time_ec_pre_key_id : option Z;
  signed_ec_pre_key_id : Z;
  used_kyber_pre_key_id : option Z
}.

Record IdentityToSave := mkIdentityToSave {
  its_remote_address : ProtocolAddress;
  its_their_identity_key : IdentityKey
}.

Section session.
Context {P : Primitives} {SS IS PS SPS KS : Type}
  `{!SessionStore SS, !IdentityKeyStore IS, !PreKeyStore PS, !SignedPreKeyStore SPS,
    !KyberPreKeyStore KS}
  `{!Prost storage.SessionStructure, !Prost storage.RecordStructure}.
Abbreviation E := (Env SS IS PS SPS KS).
Abbreviation RecM := (M SessionRecord SignalProtocolError).

Definition process_prekey_impl (e : E) (message : PreKeySignalMessage)
    (remote_address : ProtocolAddress) : RecM (option PreKeysUsed) :=
  promoted ← map_err_M from_InvalidSessionError
    (promote_matching_session (pk_message_version message)
       (PublicKey_serialize (pk_base_key message)));
  if (promoted : bool) then mret None
  else if pk_message_version message =? CIPHERTEXT_MESSAGE_PRE_KYBER_VERSION
  then throw (InvalidMessage PreKey "X3DH no longer supported")
  else
    signed_record ← lift (get_signed_pre_key (pk_signed_pre_key_id message)
                            (signed_pre_key_store e));
    our_signed_pre_key_pair ← lift (spk_key_pair signed_record);
    our_kyber_pre_key_pair ←
      match kyber_pre_key_id message with
      | Some id =>
          r ← lift (get_kyber_pre_key id (kyber_pre_key_store e));
          lift (spk_key_pair r)
      | None => throw (InvalidMessage PreKey "missing pq pre-key ID")
      end;
    kyber_ct ← lift (ok_or (InvalidMessage PreKey "missing pq ciphertext")
                       (kyber_ciphertext message));
    our_one_time_pre_key_pair ←
      match pk_pre_key_id message with
      | Some id =>
          r ← lift (get_pre_key id (pre_key_store e));
          kp ← lift (PreKeyRecord_key_pair r);
          mret (Some kp)
      | None => mret None
      end;
    our_identity ← lift (get_identity_key_pair (identity_store e));
    let parameters := mkBobParameters our_identity our_signed_pre_key_pair
      our_one_time_pre_key_pair our_signed_pre_key_pair our_kyber_pre_key_pair
      (pk_identity_key message) (pk_base_key message) kyber_ct in
    new_session ← lift (initialize_bob_session parameters);
    local_id ← lift (get_local_registration_id (identity_store e));
    let new_session := upd (Upd.put_local_registration_id local_id) new_session in
    let new_session :=
      upd (Upd.put_remote_registration_id (pk_registration_id message)) new_session in
    _ ← promote_state new_session;
    mret (Some (mkPreKeysUsed (pk_pre_key_id message) (pk_signed_pre_key_id message)
                  (kyber_pre_key_id message))).

Definition process_prekey (e : E) (message : PreKeySignalMessage)
    (remote_address : ProtocolAddress) : RecM (option PreKeysUsed * IdentityToSave) :=
  let their_identity_key := pk_identity_key message in
  trusted ← lift (is_trusted_identity remote_address their_identity_key Receiving
                    (identity_store e));
  if negb trusted then throw (UntrustedIdentity remote_address)
  else
    pre_keys_used ← process_prekey_impl e message remote_address;
    mret (pre_keys_used, mkIdentityToSave remote_address their_identity_key).

Definition process_prekey_bundle (remote_address : ProtocolAddress) (bundle : PreKeyBundle)
    (now : Z) : EM SS IS PS SPS KS unit :=
  let their_identity_key := b_identity_key bundle in
  let their_signed_prekey := spk_b_public_key (b_ec_signed_pre_key bundle) in
  let their_kyber_prekey := kpk_b_public_key (b_kyber_pre_key bundle) in
  trusted ← reads (fun e => is_trusted_identity remote_address their_identity_key Sending
                              (identity_store e));
  if negb trusted then throw (UntrustedIdentity remote_address)
  else if negb (verify_signature (ik_public_key their_identity_key)
                  (PublicKey_serialize their_signed_prekey)
                  (spk_b_signature (b_ec_signed_pre_key bundle)))
  then throw SignatureValidationFailed
  else if negb (verify_signature (ik_public_key their_identity_key)
                  (Key_serialize their_kyber_prekey)
                  (kpk_b_signature (b_kyber_pre_key bundle)))
  then throw SignatureValidationFailed
  else
    loaded ← reads (fun e => load_session remote_address (session_store e));
    let session_record := default new_fresh loaded in
    our_base_key_pair ← with_rng generate_key_pair;
    our_identity_key_pair ← reads (fun e => get_identity_key_pair (identity_store e));
    let parameters := Alice_new our_identity_key_pair our_base_key_pair their_identity_key
      their_signed_prekey their_signed_prekey their_kyber_prekey in
    let parameters := match b_pre_key_public bundle with
                      | Some key => set_their_one_time_pre_key key parameters
                      | None => parameters
                      end in
    session ← with_rng (initialize_alice_session parameters);
    '(_, session) ← lift (map_err from_InvalidSessionError (run_local session
      (_ ← set_unacknowledged_pre_key_message (b_pre_key_id bundle)
             (spk_b_id (b_ec_signed_pre_key bundle)) (kp_public_key our_base_key_pair) now;
       set_unacknowledged_kyber_pre_key_id (kpk_b_id (b_kyber_pre_key bundle)))));
    local_id ← reads (fun e => get_local_registration_id (identity_store e));
    let session := upd (Upd.put_local_registration_id local_id) session in
    let session := upd (Upd.put_remote_registration_id (b_registration_id bundle)) session in
    _ ← with_identities (save_identity remote_address their_identity_key);
    '(_, session_record) ← lift (run_local session_record (promote_state session));
    with_sessions (store_session remote_address session_record).
End session.
