(* ===== verification/SessionCipher.v ===== *)
(** * SessionCipher: encrypting and decrypting 1:1 messages
    (rust/protocol/src/session_cipher.rs)

    Section [ratchet_step]: finding or creating the receiving chain and the
    message key, and decrypting with one session.  Section [cipher]:
    decrypting with a record (the current session, then the archived ones),
    and the exported operations on the stores.  Logging is not modelled; the
    [expect]s in its arguments are, as if the log level were enabled. *)

From S2P Require Import Prelude Types Primitives Proto Curve Kem Crypto IdentityKey RatchetKeys Messages SessionState SessionRecord Ratchet KeyStream SenderKeys Stores Session.
Open Scope string_scope.
Open Scope list_scope.
Open Scope Z_scope.

Abbreviation StM := (M SessionState SignalProtocolError).
(** On a session and the random number generator. *)
Abbreviation StRngM P := (M (SessionState * @Rng P) SignalProtocolError).

(** [?] on a session method: the error is converted. *)
Definition sess {S A} (m : M S InvalidSessionError A) : M S SignalProtocolError A :=
  map_err_M from_InvalidSessionError m.
Definition sess_get {S A} (f : S -> SResult A) : M S SignalProtocolError A :=
  reads (fun s => map_err from_InvalidSessionError (f s)).

Section ratchet_step.
Context {P : Primitives}.

(** A call on the session, or on the generator, of a pair. *)
Definition on_state {E A} (m : M SessionState E A) : M (SessionState * Rng) E A :=
  zoom fst (fun s '(_, rng) => (s, rng)) m.
Definition on_rng {E A} (m : M Rng E A) : M (SessionState * Rng) E A :=
  zoom snd (fun rng '(s, _) => (s, rng)) m.

Definition get_or_create_chain_key (their_ephemeral : PublicKey) : StRngM P ChainKey :=
  existing ← on_state (sess_get (fun s => get_receiver_chain_key s their_ephemeral));
  match existing : option ChainKey with
  | Some chain => mret chain
  | None =>
      root ← on_state (sess_get root_key);
      our_ephemeral ← on_state (sess_get sender_ratchet_private_key);
      receiver_chain ← lift (create_chain root their_ephemeral our_ephemeral);
      our_new_ephemeral ← on_rng generate_key_pair;
      sender_chain ← lift (create_chain receiver_chain.1 their_ephemeral
                             (kp_private_key our_new_ephemeral));
      _ ← on_state (sess (set_root_key sender_chain.1));
      _ ← on_state (sess (add_receiver_chain their_ephemeral receiver_chain.2));
      current ← on_state (sess_get get_sender_chain_key);
      let current_index := chain_key_index current in
      let previous_index := if 0 <? current_index then current_index - 1 else 0 in
      _ ← on_state (sess (set_previous_counter previous_index));
      _ ← on_state (sess (set_sender_chain our_new_ephemeral sender_chain.2));
      mret receiver_chain.2
  end.

(** The [while] loop of [get_or_create_message_key]; the caller gives as
    much fuel as there are counters to skip. *)
Fixpoint skip_message_keys (fuel : nat) (their_ephemeral : PublicKey) (counter : Z)
    (chain_key : ChainKey) : StM ChainKey :=
  if chain_key_index chain_key <? counter then
    match fuel with
    | O => lift Panic
    | S fuel =>
        _ ← sess (set_message_keys their_ephemeral (message_keys chain_key));
        skip_message_keys fuel their_ephemeral counter (next_chain_key chain_key)
    end
  else mret chain_key.

Definition get_or_create_message_key (their_ephemeral : PublicKey)
    (original_message_type : CiphertextMessageType) (chain_key : ChainKey) (counter : Z)
  : StM MessageKeyGenerator :=
  let chain_index := chain_key_index chain_key in
  if counter <? chain_index then
    found ← sess (get_message_keys their_ephemeral counter);
    match found : option MessageKeyGenerator with
    | Some keys => mret keys
    | None => throw (DuplicatedMessage chain_index counter)
    end
  else
    let jump := counter - chain_index in
    too_far ← (if MAX_FORWARD_JUMPS <? jump then
                 self ← sess_get session_with_self; mret (negb self)
               else mret false);
    if (too_far : bool)
    then throw (InvalidMessage original_message_type "message from too far into the future")
    else
      chain_key ← skip_message_keys (Z.to_nat jump) their_ephemeral counter chain_key;
      _ ← sess (set_receiver_chain_key their_ephemeral (next_chain_key chain_key));
      mret (message_keys chain_key).

Definition pq_recv_error (original_message_type : CiphertextMessageType) (e : SpqrError)
  : SignalProtocolError :=
  if spqr_is_StateDecode e
  then InvalidState "decrypt_message_with_state"
         ("post-quantum ratchet error: " +:+ spqr_error_display e)%string
  else InvalidMessage original_message_type "post-quantum ratchet error".

Definition decrypt_message_with_state (ciphertext : SignalMessage)
    (original_message_type : CiphertextMessageType) : StRngM P bytes :=
  _ ← on_state (reads (fun s => map_err
        (fun _ => InvalidMessage original_message_type "No session available to decrypt")
        (root_key s)));
  let ciphertext_version := sm_message_version ciphertext in
  version ← on_state (sess_get session_version);
  if negb (ciphertext_version =? version)
  then throw (UnrecognizedMessageVersion ciphertext_version)
  else
    let their_ephemeral := sm_sender_ratchet_key ciphertext in
    let counter := sm_counter ciphertext in
    chain_key ← get_or_create_chain_key their_ephemeral;
    message_key_gen ← on_state (get_or_create_message_key their_ephemeral
                                  original_message_type chain_key counter);
    pqr_key ← on_state (map_err_M (pq_recv_error original_message_type)
                          (pq_ratchet_recv (sm_pq_ratchet ciphertext)));
    keys ← lift (generate_keys message_key_gen pqr_key);
    remote ← on_state (sess_get remote_identity_key);
    their_identity_key ← lift (ok_or (InvalidSessionStructure
                                 "cannot decrypt without remote identity key") remote);
    our_identity_key ← on_state (sess_get local_identity_key);
    mac_valid ← lift (verify_mac ciphertext their_identity_key our_identity_key
                        (arr (mac_key keys)));
    if negb mac_valid
    then throw (InvalidMessage original_message_type "MAC verification failed")
    else
      ptext ← lift (map_err (fun e => match e with
            | DecBadKeyOrIv => InvalidSessionStructure "invalid receiver chain message keys"
            | BadCiphertext_ _ => InvalidMessage original_message_type "failed to decrypt"
            end)
          (aes_256_cbc_decrypt (sm_ciphertext ciphertext) (arr (cipher_key keys))
             (arr (iv keys))));
      _ ← on_state (sess clear_unacknowledged_pre_key_message);
      mret ptext.

(** The part of [message_encrypt] that works on the current session: the
    message, and the identity it is for. *)
Context `{!Prost wire.SignalMessage, !Prost wire.PreKeySignalMessage}.

Definition encrypt_with_state (ptext : bytes) (remote_address : ProtocolAddress) (now : Z)
  : StRngM P (CiphertextMessage * IdentityKey) :=
  chain_key ← on_state (sess_get get_sender_chain_key);
  '(pqr_msg, pqr_key) ← map_err_M (fun e => InvalidState "message_encrypt"
      ("post-quantum ratchet send error: " +:+ spqr_error_display e)%string) pq_ratchet_send;
  keys ← lift (generate_keys (message_keys chain_key) pqr_key);
  sender_ephemeral ← on_state (sess_get sender_ratchet_key);
  previous ← on_state (gets previous_counter);
  version ← on_state (sess_get session_version);
  version ← lift (if version <? 256 then Ok version
                  else Err (InvalidSessionStructure "version does not fit in u8"));
  local_identity_key ← on_state (sess_get local_identity_key);
  remote ← on_state (sess_get remote_identity_key);
  their_identity_key ← lift (ok_or (InvalidState "message_encrypt"
      ("no remote identity key for " +:+ ProtocolAddress_display remote_address)%string) remote);
  ctext ← lift (map_err (fun _ => InvalidSessionStructure "invalid sender chain message keys")
                  (aes_256_cbc_encrypt ptext (arr (cipher_key keys)) (arr (iv keys))));
  items ← on_state (sess_get unacknowledged_pre_key_message_items);
  message ←
    match items : option UnacknowledgedPreKeyMessageItems with
    | Some items =>
        expiry ← lift (system_time_add (un_timestamp items) MAX_UNACKNOWLEDGED_SESSION_AGE);
        if expiry <? now then throw (SessionNotFound remote_address)
        else
          local_registration_id ← on_state (gets local_registration_id);
          message ← lift (SignalMessage_new version (arr (mac_key keys)) sender_ephemeral
            (chain_key_index chain_key) previous ctext local_identity_key their_identity_key
            pqr_msg);
          let kyber_payload :=
            match un_kyber_pre_key_id items, un_kyber_ciphertext items with
            | Some id, Some ct => Some (mkKyberPayload id ct)
            | _, _ => None
            end in
          m ← lift (PreKeySignalMessage_new version local_registration_id (un_pre_key_id items)
                (un_signed_pre_key_id items) kyber_payload (un_base_key items)
                local_identity_key message);
          mret (CMPreKeySignalMessage m)
    | None =>
        m ← lift (SignalMessage_new version (arr (mac_key keys)) sender_ephemeral
          (chain_key_index chain_key) previous ctext local_identity_key their_identity_key
          pqr_msg);
        mret (CMSignalMessage m)
    end;
  _ ← on_state (sess (set_sender_chain_key (next_chain_key chain_key)));
  mret (message, their_identity_key).
End ratchet_step.

(** ** Running the steps of [decrypt_message_with_state] and [encrypt_with_state] *)

Section stepping.
Context {P : Primitives} {A B : Type} (s : SessionState) (rng : Rng).

Lemma step_get (f : SessionState -> SResult A) (k : A -> StRngM P B) :
  (on_state (sess_get f) ≫= k) (s, rng) =
    match f s with
    | Ok a => k a (s, rng)
    | Err e => (Err (from_InvalidSessionError e), (s, rng))
    | Panic => (Panic, (s, rng))
    end.
Proof. rewrite M_bind_eq. unfold on_state. rewrite zoom_eq. cbn. by destruct (f s). Qed.

Lemma step_reads (f : SessionState -> Result A) (k : A -> StRngM P B) :
  (on_state (reads f) ≫= k) (s, rng) =
    match f s with
    | Ok a => k a (s, rng)
    | Err e => (Err e, (s, rng))
    | Panic => (Panic, (s, rng))
    end.
Proof. rewrite M_bind_eq. unfold on_state. rewrite zoom_eq. cbn. by destruct (f s). Qed.

Lemma step_state (m : M SessionState SignalProtocolError A) (k : A -> StRngM P B) :
  (on_state m ≫= k) (s, rng) =
    match m s with
    | (Ok a, s') => k a (s', rng)
    | (Err e, s') => (Err e, (s', rng))
    | (Panic, s') => (Panic, (s', rng))
    end.
Proof. rewrite M_bind_eq. unfold on_state. rewrite zoom_eq. cbn. by destruct (m s) as [[]]. Qed.

Lemma step_rng (m : M Rng SignalProtocolError A) (k : A -> StRngM P B) :
  (on_rng m ≫= k) (s, rng) =
    match m rng with
    | (Ok a, rng') => k a (s, rng')
    | (Err e, rng') => (Err e, (s, rng'))
    | (Panic, rng') => (Panic, (s, rng'))
    end.
Proof. rewrite M_bind_eq. unfold on_rng. rewrite zoom_eq. cbn. by destruct (m rng) as [[]]. Qed.

Lemma step_lift (m : Result A) (k : A -> StRngM P B) :
  (lift m ≫= k) (s, rng) =
    match m with
    | Ok a => k a (s, rng)
    | Err e => (Err e, (s, rng))
    | Panic => (Panic, (s, rng))
    end.
Proof. rewrite M_bind_eq. unfold lift. by destruct m. Qed.

Lemma step_modify (f : SessionState -> SessionState) (k : unit -> StRngM P B) :
  (on_state (sess (modify f)) ≫= k) (s, rng) = k tt (f s, rng).
Proof. done. Qed.
End stepping.

Section cipher.
Context {P : Primitives} {SS IS PS SPS KS : Type}
  `{!SessionStore SS, !IdentityKeyStore IS, !PreKeyStore PS, !SignedPreKeyStore SPS,
    !KyberPreKeyStore KS}
  `{!Prost storage.SessionStructure, !Prost storage.RecordStructure,
    !Prost wire.SignalMessage, !Prost wire.PreKeySignalMessage}.

(** On a record and the random number generator. *)
Abbreviation RecRngM := (M (SessionRecord * Rng) SignalProtocolError).
Definition on_record {E A} (m : M SessionRecord E A) : M (SessionRecord * Rng) E A :=
  zoom fst (fun r '(_, rng) => (r, rng)) m.

(** One attempt with a copy of a session: the record is not touched, the
    generator is. *)
Definition try_state (state : SessionState) (ciphertext : SignalMessage)
    (original_message_type : CiphertextMessageType)
  : M (SessionRecord * Rng) SignalProtocolError
      (outcome SignalProtocolError bytes * SessionState) :=
  fun '(record, rng) =>
    let '(result, (state, rng)) :=
      decrypt_message_with_state ciphertext original_message_type (state, rng) in
    match result with
    | Panic => (Panic, (record, rng))
    | _ => (Ok (result, state), (record, rng))
    end.

(** [state.sender_ratchet_key_for_logging().expect(..)]. *)
Definition expect_base_key {S} (state : SessionState) : M S SignalProtocolError unit :=
  _ ← lift (expect_ok (sender_ratchet_key state)); mret tt.

(** The loop over the archived sessions. *)
Fixpoint try_previous (ciphertext : SignalMessage) (original_message_type : CiphertextMessageType)
    (idx : nat) (previous : list (SResult SessionState))
  : RecRngM (option (bytes * nat * SessionState)) :=
  match previous with
  | [] => mret None
  | p :: rest =>
      state ← lift (map_err from_InvalidSessionError p);
      '(result, state) ← try_state state ciphertext original_message_type;
      match result : outcome SignalProtocolError bytes with
      | Ok ptext =>
          _ ← expect_base_key state;
          mret (Some (ptext, idx, state))
      | Err (DuplicatedMessage a b) => throw (DuplicatedMessage a b)
      | _ => try_previous ciphertext original_message_type (S idx) rest
      end
  end.

Definition try_old_sessions (ciphertext : SignalMessage)
    (original_message_type : CiphertextMessageType) : RecRngM bytes :=
  previous ← gets (fun '(record, _) => previous_session_states record);
  updated_session ← try_previous ciphertext original_message_type 0 previous;
  match updated_session : option (bytes * nat * SessionState) with
  | Some (ptext, idx, updated_session) =>
      _ ← on_record (promote_old_session idx updated_session);
      mret ptext
  | None => throw (InvalidMessage original_message_type "decryption failed")
  end.

Definition decrypt_message_with_record (ciphertext : SignalMessage)
    (original_message_type : CiphertextMessageType) : RecRngM bytes :=
  current ← gets (fun '(record, _) => current_session record);
  match current : option SessionState with
  | None => try_old_sessions ciphertext original_message_type
  | Some current_state =>
      '(result, current_state) ← try_state current_state ciphertext original_message_type;
      match result : outcome SignalProtocolError bytes with
      | Ok ptext =>
          _ ← expect_base_key current_state;
          _ ← on_record (modify (set_session_state current_state));
          mret ptext
      | Err (DuplicatedMessage a b) => throw (DuplicatedMessage a b)
      | _ =>
          match original_message_type with
          | PreKey => throw (InvalidMessage original_message_type "decryption failed")
          | Whisper => try_old_sessions ciphertext original_message_type
          | SenderKey | Plaintext => lift Panic
          end
      end
  end.

(** ** The exported operations *)

Definition message_encrypt (ptext : bytes) (remote_address : ProtocolAddress) (now : Z)
  : EM SS IS PS SPS KS CiphertextMessage :=
  loaded ← reads (fun e => load_session remote_address (session_store e));
  session_record ← lift (ok_or (SessionNotFound remote_address) loaded);
  session_state ← lift (ok_or (SessionNotFound remote_address) (current_session session_record));
  '(message, their_identity_key, session_state) ←
    with_local_rng session_state (encrypt_with_state ptext remote_address now);
  trusted ← reads (fun e => is_trusted_identity remote_address their_identity_key Sending
                              (identity_store e));
  if negb trusted then throw (UntrustedIdentity remote_address)
  else
    _ ← with_identities (save_identity remote_address their_identity_key);
    _ ← with_sessions (store_session remote_address
                         (set_session_state session_state session_record));
    mret message.

Definition message_decrypt_prekey (ciphertext : PreKeySignalMessage)
    (remote_address : ProtocolAddress) : EM SS IS PS SPS KS bytes :=
  loaded ← reads (fun e => load_session remote_address (session_store e));
  let session_record := default new_fresh loaded in
  e ← get;
  '(pre_key_used, identity_to_save, session_record) ←
    lift (run_local session_record (process_prekey e ciphertext remote_address));
  '(ptext, session_record) ←
    with_local_rng session_record (decrypt_message_with_record (pk_message ciphertext) PreKey);
  _ ← with_identities (save_identity (its_remote_address identity_to_save)
                         (its_their_identity_key identity_to_save));
  _ ← match pre_key_used : option PreKeysUsed with
      | Some pre_key_used =>
          _ ← match used_kyber_pre_key_id pre_key_used with
              | Some id => with_kyber (mark_kyber_pre_key_used id
                  (signed_ec_pre_key_id pre_key_used) (pk_base_key ciphertext))
              | None => mret tt
              end;
          match one_time_ec_pre_key_id pre_key_used with
          | Some id => with_pre_keys (remove_pre_key id)
          | None => mret tt
          end
      | None => mret tt
      end;
  _ ← with_sessions (store_session remote_address session_record);
  mret ptext.

Definition message_decrypt_signal (ciphertext : SignalMessage)
    (remote_address : ProtocolAddress) : EM SS IS PS SPS KS bytes :=
  loaded ← reads (fun e => load_session remote_address (session_store e));
  session_record ← lift (ok_or (SessionNotFound remote_address) loaded);
  '(ptext, session_record) ←
    with_local_rng session_record (decrypt_message_with_record ciphertext Whisper);
  state ← lift (expect (current_session session_record));
  remote ← lift (expect_ok (remote_identity_key state));
  their_identity_key ← lift (expect remote);
  trusted ← reads (fun e => is_trusted_identity remote_address their_identity_key Receiving
                              (identity_store e));
  if negb trusted then throw (UntrustedIdentity remote_address)
  else
    _ ← with_identities (save_identity remote_address their_identity_key);
    _ ← with_sessions (store_session remote_address session_record);
    mret ptext.

(** [format!("{:?}", message_type)]. *)
Definition message_type_debug (t : CiphertextMessageType) : string :=
  match t with
  | Whisper => "Whisper" | PreKey => "PreKey" | SenderKey => "SenderKey" | Plaintext => "Plaintext"
  end.

Definition message_decrypt (ciphertext : CiphertextMessage) (remote_address : ProtocolAddress)
  : EM SS IS PS SPS KS bytes :=
  match ciphertext with
  | CMSignalMessage m => message_decrypt_signal m remote_address
  | CMPreKeySignalMessage m => message_decrypt_prekey m remote_address
  | _ => throw (InvalidArgument ("message_decrypt cannot be used to decrypt " +:+
           message_type_debug (message_type ciphertext) +:+ " messages")%string)
  end.
End cipher.
