(* ===== verification/SealedSender.v ===== *)
(** * SealedSender: encrypting and decrypting without naming the sender
    (rust/protocol/src/sealed_sender.rs, third part)

    Section [v1]: the keys and the encryption for a single recipient.  Section
    [v2]: the keys of the multi-recipient form, where one random message key is
    encrypted to every recipient.  Section [decrypt]: opening both forms, and
    the exported operations on the stores. *)

From S2P Require Import Prelude Types Primitives Proto ServiceId Curve Crypto IdentityKey SealedCert SealedMessage Messages SessionState SessionRecord Stores Session SessionCipher.
Open Scope string_scope.
Open Scope list_scope.
Open Scope Z_scope.

Section v1.
Context {P : Primitives}.

(** [calculate_agreement] with [?] in the protocol crate. *)
Definition agreement (private_key : PrivateKey) (their_key : PublicKey) : Result bytes :=
  map_err from_CurveError (calculate_agreement private_key their_key).

Record EphemeralKeys := mkEphemeralKeys {
  ek_chain_key : array 32;
  ek_cipher_key : array 32;
  ek_mac_key : array 32
}.

Definition SALT_PREFIX : bytes := byte_str "UnidentifiedDelivery".

(** Three keys of 32 bytes from one output of HKDF. *)
Definition DerivedValues (salt secret : bytes) : array 32 * array 32 * array 32 :=
  let derived_values := hkdf_sha256 (Some salt) secret [] 96 in
  (to_array 32 (slice 0 32 derived_values), to_array 32 (slice 32 64 derived_values),
   to_array 32 (slice 64 96 derived_values)).

Definition EphemeralKeys_calculate (our_keys : KeyPair) (their_public : PublicKey) (direction : Direction)
  : Result EphemeralKeys :=
  let our_pub_key := PublicKey_serialize (kp_public_key our_keys) in
  let their_pub_key := PublicKey_serialize their_public in
  let ephemeral_salt := match direction with
                        | Sending => SALT_PREFIX ++ their_pub_key ++ our_pub_key
                        | Receiving => SALT_PREFIX ++ our_pub_key ++ their_pub_key
                        end in
  shared_secret ← agreement (kp_private_key our_keys) their_public;
  let '(chain_key, cipher_key, mac_key) := DerivedValues ephemeral_salt shared_secret in
  Ok (mkEphemeralKeys chain_key cipher_key mac_key).

Record StaticKeys := mkStaticKeys { sk_cipher_key : array 32; sk_mac_key : array 32 }.

(** The first third of the output is not used. *)
Definition StaticKeys_calculate (our_keys : IdentityKeyPair) (their_key : PublicKey)
    (chain_key : array 32) (ctext : bytes) : Result StaticKeys :=
  let salt := arr chain_key ++ ctext in
  shared_secret ← agreement (ikp_private our_keys) their_key;
  let '(_, cipher_key, mac_key) := DerivedValues salt shared_secret in
  Ok (mkStaticKeys cipher_key mac_key).

Context `{!Prost sealed_sender.UnidentifiedSenderMessage}.
Context {IS : Type} `{!IdentityKeyStore IS}.

Definition sealed_sender_encrypt_from_usmc (destination : ProtocolAddress)
    (usmc : UnidentifiedSenderMessageContent) (identity_store : IS) : M Rng SignalProtocolError bytes :=
  our_identity ← lift (get_identity_key_pair identity_store);
  found ← lift (get_identity destination identity_store);
  their_identity ← lift (ok_or (SessionNotFound destination) found);
  ephemeral ← generate_key_pair;
  eph_keys ← lift (EphemeralKeys_calculate ephemeral (ik_public_key their_identity) Sending);
  static_key_ctext ← lift (expect_ok (aes256_ctr_hmacsha256_encrypt
    (PublicKey_serialize (IdentityKeyPair_public_key our_identity))
    (arr (ek_cipher_key eph_keys)) (arr (ek_mac_key eph_keys))));
  static_keys ← lift (StaticKeys_calculate our_identity (ik_public_key their_identity)
    (ek_chain_key eph_keys) static_key_ctext);
  message_data ← lift (expect_ok (aes256_ctr_hmacsha256_encrypt (usmc_serialized usmc)
    (arr (sk_cipher_key static_keys)) (arr (sk_mac_key static_keys))));
  let pb := sealed_sender.mkUnidentifiedSenderMessage
    (Some (PublicKey_serialize (kp_public_key ephemeral))) (Some static_key_ctext) (Some message_data) in
  mret (SEALED_SENDER_V1_FULL_VERSION :: encode_to_vec pb).
End v1.

Section v2.
Context {P : Primitives}.

Definition LABEL_R : bytes := byte_str "Sealed Sender v2: r (2023-08)".
Definition LABEL_K : bytes := byte_str "Sealed Sender v2: K".
Definition LABEL_DH : bytes := byte_str "Sealed Sender v2: DH".
Definition LABEL_DH_S : bytes := byte_str "Sealed Sender v2: DH-sender".

(** [DerivedKeys { kdf }]: HKDF keyed with the message key [m]. *)
Record DerivedKeys := mkDerivedKeys { kdf : bytes }.
Definition DerivedKeys_new (m : bytes) : DerivedKeys := mkDerivedKeys m.

Definition derive_e {E} (k : DerivedKeys) : outcome E KeyPair :=
  let r := hkdf_sha256 None (kdf k) LABEL_R 32 in
  e ← expect_ok (PrivateKey_deserialize (arr r));
  expect_ok (KeyPair_try_from e).

Definition derive_k (k : DerivedKeys) : array 32 := hkdf_sha256 None (kdf k) LABEL_K 32.

Definition xor_bytes (a b : bytes) : bytes := zip_with (fun x y => as_u8 (Z.lxor (u8 x) (u8 y))) a b.

Definition apply_agreement_xor (our_keys : KeyPair) (their_key : PublicKey) (direction : Direction)
    (input : array 32) : Result (array 32) :=
  agreed ← agreement (kp_private_key our_keys) their_key;
  let agreement_key_input := match direction with
    | Sending => agreed ++ PublicKey_serialize (kp_public_key our_keys) ++ PublicKey_serialize their_key
    | Receiving => agreed ++ PublicKey_serialize their_key ++ PublicKey_serialize (kp_public_key our_keys)
    end in
  Ok (to_array 32 (xor_bytes (hkdf_sha256 None agreement_key_input LABEL_DH 32) input)).

Definition compute_authentication_tag (our_keys : IdentityKeyPair) (their_key : IdentityKey)
    (direction : Direction) (ephemeral_pub_key : PublicKey) (encrypted_message_key : array 32)
  : Result (array 16) :=
  agreed ← agreement (ikp_private our_keys) (ik_public_key their_key);
  let agreement_key_input :=
    agreed ++ PublicKey_serialize ephemeral_pub_key ++ arr encrypted_message_key ++
    match direction with
    | Sending => PublicKey_serialize (IdentityKeyPair_public_key our_keys) ++ IdentityKey_serialize their_key
    | Receiving => IdentityKey_serialize their_key ++ PublicKey_serialize (IdentityKeyPair_public_key our_keys)
    end in
  Ok (hkdf_sha256 None agreement_key_input LABEL_DH_S 16).
End v2.

Section decrypt.
Context {P : Primitives} {U : UuidFmt} {G : AesGcmSiv}.
Context `{!Prost sealed_sender.ServerCertificate, !Prost sealed_sender.ServerCertificateData}.
Context `{!Prost sealed_sender.SenderCertificate, !Prost sealed_sender.SenderCertificateData}.
Context `{!Prost sealed_sender.Message, !Prost sealed_sender.UnidentifiedSenderMessage}.

(** Decryption with keys that were just derived: [BadKeyOrIv] is [unreachable!]. *)
Definition open_v1 (what : string) (ctext : bytes) (cipher_key mac_key : array 32) : Result bytes :=
  match aes256_ctr_hmacsha256_decrypt ctext (arr cipher_key) (arr mac_key) with
  | Ok plaintext => Ok plaintext
  | Err DecBadKeyOrIv => Panic
  | Err (BadCiphertext_ _) =>
      Err (InvalidSealedSenderMessage ("failed to decrypt sealed sender v1 message " +:+ what))
  | Panic => Panic
  end.

Definition decrypt_v1 (our_identity : IdentityKeyPair) (ephemeral_public : PublicKey)
    (encrypted_static encrypted_message : bytes) : Result UnidentifiedSenderMessageContent :=
  eph_keys ← EphemeralKeys_calculate (KeyPair_from_IdentityKeyPair our_identity) ephemeral_public Receiving;
  message_key_bytes ← open_v1 "key" encrypted_static (ek_cipher_key eph_keys) (ek_mac_key eph_keys);
  static_key ← decode_key message_key_bytes;
  static_keys ← StaticKeys_calculate our_identity static_key (ek_chain_key eph_keys) encrypted_static;
  message_bytes ← open_v1 "contents" encrypted_message (sk_cipher_key static_keys) (sk_mac_key static_keys);
  usmc ← USMC_deserialize message_bytes;
  if negb (bool_decide (message_key_bytes = PublicKey_serialize (sdc_key (usmc_sender usmc))))
  then Err (InvalidSealedSenderMessage "sender certificate key does not match message key")
  else Ok usmc.

Definition decrypt_v2 (our_identity : IdentityKeyPair) (ephemeral_public : PublicKey)
    (encrypted_message_key : array 32) (authentication_tag : array 16) (encrypted_message : bytes)
  : Result UnidentifiedSenderMessageContent :=
  m ← apply_agreement_xor (KeyPair_from_IdentityKeyPair our_identity) ephemeral_public Receiving
        encrypted_message_key;
  let keys := DerivedKeys_new (arr m) in
  e ← derive_e keys;
  if negb (PublicKey_eqb (kp_public_key e) ephemeral_public)
  then Err (InvalidSealedSenderMessage "derived ephemeral key did not match key provided in message")
  else
    message_bytes ← ok_or (InvalidSealedSenderMessage ("failed to decrypt inner message: " +:+ gcm_siv_error))
      (gcm_siv_decrypt (derive_k keys) (zeros 12) [] encrypted_message);
    usmc ← USMC_deserialize message_bytes;
    at_ ← compute_authentication_tag our_identity (mkIdentityKey (sdc_key (usmc_sender usmc))) Receiving
            ephemeral_public encrypted_message_key;
    if negb (bool_decide (authentication_tag = at_))
    then Err (InvalidSealedSenderMessage "sender certificate key does not match authentication tag")
    else Ok usmc.

Definition sealed_sender_decrypt_to_usmc {IS} `{!IdentityKeyStore IS} (ciphertext : bytes)
    (identity_store : IS) : Result UnidentifiedSenderMessageContent :=
  our_identity ← get_identity_key_pair identity_store;
  message ← UnidentifiedSenderMessage_deserialize ciphertext;
  match message with
  | V1 ephemeral_public encrypted_static encrypted_message =>
      decrypt_v1 our_identity ephemeral_public encrypted_static encrypted_message
  | V2 ephemeral_public encrypted_message_key authentication_tag encrypted_message =>
      decrypt_v2 our_identity ephemeral_public encrypted_message_key authentication_tag encrypted_message
  end.
End decrypt.

(** ** The exported operations *)

Record SealedSenderDecryptionResult := mkSealedSenderDecryptionResult {
  res_sender_uuid : string;
  res_sender_e164 : option string;
  res_device_id : DeviceId;
  res_message : bytes
}.

Section operations.
Context {P : Primitives} {U : UuidFmt} {G : AesGcmSiv}.
Context `{!Prost sealed_sender.ServerCertificate, !Prost sealed_sender.ServerCertificateData}.
Context `{!Prost sealed_sender.SenderCertificate, !Prost sealed_sender.SenderCertificateData}.
Context `{!Prost sealed_sender.Message, !Prost sealed_sender.UnidentifiedSenderMessage}.
Context `{!Prost wire.SignalMessage, !Prost wire.PreKeySignalMessage}.
Context `{!Prost storage.SessionStructure} `{!Prost storage.PreKeyRecordStructure}.
Context `{!Prost storage.SignedPreKeyRecordStructure}.
Context {SS IS PS SPS KS : Type}.
Context `{!SessionStore SS, !IdentityKeyStore IS, !PreKeyStore PS, !SignedPreKeyStore SPS, !KyberPreKeyStore KS}.

Definition sealed_sender_encrypt (destination : ProtocolAddress) (sender_cert : SenderCertificate)
    (ptext : bytes) (now : Z) : EM SS IS PS SPS KS bytes :=
  message ← message_encrypt ptext destination now;
  usmc ← lift (USMC_new (message_type message) sender_cert (CiphertextMessage_serialize message)
                 HintDefault None);
  e ← get;
  with_rng (sealed_sender_encrypt_from_usmc destination usmc (identity_store e)).

(** The sender is this very device. *)
Definition is_self_send (sender : SenderCertificate) (local_e164 : option string) (local_uuid : string)
    (local_device_id : DeviceId) : bool :=
  let is_local_uuid := bool_decide (local_uuid = sdc_sender_uuid sender) in
  let is_local_e164 := match local_e164, sdc_sender_e164 sender with
                       | Some l, Some s => bool_decide (l = s)
                       | _, _ => false
                       end in
  (is_local_e164 || is_local_uuid) && bool_decide (sdc_sender_device_id sender = local_device_id).

Definition sealed_sender_decrypt (ciphertext : bytes) (trust_root : PublicKey) (timestamp : Timestamp)
    (local_e164 : option string) (local_uuid : string) (local_device_id : DeviceId)
  : EM SS IS PS SPS KS SealedSenderDecryptionResult :=
  usmc ← reads (fun e => sealed_sender_decrypt_to_usmc ciphertext (identity_store e));
  let sender := usmc_sender usmc in
  valid ← lift (SenderCertificate_validate sender trust_root timestamp);
  if negb valid then throw (InvalidSealedSenderMessage "trust root validation failed")
  else if is_self_send sender local_e164 local_uuid local_device_id then throw SealedSenderSelfSend
  else
    let remote_address := mkProtocolAddress (sdc_sender_uuid sender) (sdc_sender_device_id sender) in
    message ← match usmc_msg_type usmc with
              | Whisper =>
                  ctext ← lift (SignalMessage_try_from (usmc_contents usmc));
                  message_decrypt_signal ctext remote_address
              | PreKey =>
                  ctext ← lift (PreKeySignalMessage_try_from (usmc_contents usmc));
                  message_decrypt_prekey ctext remote_address
              | msg_type => throw (InvalidMessage msg_type "unexpected message type for sealed_sender_decrypt")
              end;
    mret (mkSealedSenderDecryptionResult (sdc_sender_uuid sender) (sdc_sender_e164 sender)
            (sdc_sender_device_id sender) message).
End operations.
