(* ===== verification/SealedMulti.v ===== *)
(** * SealedMulti: sealed sender messages for many recipients
    (rust/protocol/src/sealed_sender.rs, fourth part)

    Section [encrypt]: one ciphertext, and for each recipient the message key
    encrypted to it with the list of its devices.  Section [parse]: the view a
    server has of such a message, which it cuts into one message per
    recipient.  Slices of the message carry their address, because the code
    computes offsets from addresses. *)

From S2P Require Import Prelude Types Primitives Proto ServiceId Curve Crypto IdentityKey SealedCert SealedMessage SessionState SessionRecord Stores Session SessionCipher SealedSender.
Open Scope string_scope.
Open Scope list_scope.
Open Scope Z_scope.

(** Valid registration ids fit in 14 bits. *)
Definition VALID_REGISTRATION_ID_MASK : Z := 0x3FFF.

(** [Itertools::chunk_by] on the enumerated destinations, by name: the groups
    of consecutive elements with the same key. *)
Class ChunkBy := chunk_by_name : list (nat * ProtocolAddress) -> list (list (nat * ProtocolAddress)).
Class ChunkByLaws `{ChunkBy} := {
  chunk_by_concat : forall l, concat (chunk_by_name l) = l;
  chunk_by_same_name : forall l g, g ∈ chunk_by_name l ->
    g <> [] /\ forall x y, x ∈ g -> y ∈ g -> pa_name x.2 = pa_name y.2
}.

Section encrypt.
Context {P : Primitives} {U : UuidFmt} {G : AesGcmSiv} {D : LengthDelimiter} {C : ChunkBy}.
Context {IS : Type} `{!IdentityKeyStore IS}.

Definition seal_content (keys : DerivedKeys) (serialized : bytes) : Result bytes :=
  '(ciphertext, symmetric_authentication_tag) ←
    expect (gcm_siv_encrypt (derive_k keys) (zeros 12) [] serialized);
  Ok (ciphertext ++ arr symmetric_authentication_tag).

(** The identity key of a group of destinations, and its range. *)
Definition identity_key_and_range (identity_store : IS) (next_group : list (nat * ProtocolAddress))
  : Result (IdentityKey * (nat * nat)) :=
  match next_group with
  | [] => Panic
  | (i, destination) :: rest =>
      let count := (1 + length rest)%nat in
      found ← get_identity destination identity_store;
      their_identity ← ok_or (SessionNotFound destination) found;
      Ok (their_identity, (i, (i + count)%nat))
  end.

(** The device list of one recipient. *)
Fixpoint serialize_devices (destinations_and_sessions : list (ProtocolAddress * SessionRecord))
  : Result bytes :=
  match destinations_and_sessions with
  | [] => Ok []
  | (destination, session) :: rest =>
      id ← map_err (fun _ => InvalidState "sealed_sender_multi_recipient_encrypt"
             ("cannot get registration ID from session with " +:+ ProtocolAddress_display destination +:+
              " (maybe it was recently archived)")) (record_remote_registration_id session);
      if negb (Z.land id VALID_REGISTRATION_ID_MASK =? id) then Err (InvalidRegistrationId destination id)
      else
        id ← (if id <=? 65535 then Ok id else Panic);
        let id := match rest with [] => id | _ => Z.lor id 0x8000 end in
        out ← serialize_devices rest;
        Ok (as_u8 (device_id_value (pa_device_id destination)) :: be_bytes 2 id ++ out)
  end.

(** [serialize_recipient_destinations_into]; the first three arguments are what the
    closure captures. *)
Definition serialize_recipient (our_identity : IdentityKeyPair) (e : KeyPair) (m : array 32)
    (destinations : list ProtocolAddress) (sessions : list SessionRecord) (their_identity : IdentityKey)
  : Result bytes :=
  first ← expect (destinations !! 0%nat);
  their_service_id ← ok_or (InvalidArgument
      ("multi-recipient sealed sender requires recipients' ServiceId (not " +:+ pa_name first +:+ ")"))
    (parse_from_service_id_string (pa_name first));
  devices ← serialize_devices (zip destinations sessions);
  c_i ← apply_agreement_xor e (ik_public_key their_identity) Sending m;
  at_i ← compute_authentication_tag our_identity their_identity Sending (kp_public_key e) c_i;
  Ok (arr (service_id_fixed_width_binary their_service_id) ++ devices ++ arr c_i ++ arr at_i).

(** [&list[range]]. *)
Definition slice_range {A} (range : nat * nat) (l : list A) : Result (list A) :=
  if (range.1 <=? range.2)%nat && (range.2 <=? length l)%nat
  then Ok (take (range.2 - range.1) (drop range.1 l)) else Panic.

Definition process_chunk (our_identity : IdentityKeyPair) (e : KeyPair) (m : array 32)
    (destinations : list ProtocolAddress) (destination_sessions : list SessionRecord)
    (chunk : list (IdentityKey * (nat * nat))) : Result bytes :=
  outs ← mapM (fun '(their_identity, destination_range) =>
      these_destinations ← slice_range destination_range destinations;
      these_sessions ← slice_range destination_range destination_sessions;
      serialize_recipient our_identity e m these_destinations these_sessions their_identity) chunk;
  Ok (concat outs).

(** The work on several threads: all chunks are processed, a panic of any
    of them is propagated, then the first error in the order of the chunks. *)
Definition process_in_parallel {A} (process : list A -> Result bytes) (parallelism : nat) (all : list A)
  : Result bytes :=
  let chunk_size := Nat.max 6 ((length all + parallelism - 1) / parallelism) in
  if (parallelism =? 1)%nat || (length all <=? chunk_size)%nat then process all
  else
    match chunks chunk_size all with
    | [] => Panic
    | first_chunk :: rest =>
        let outputs := process <$> rest in
        let first := process first_chunk in
        if existsb (fun o => match o with Panic => true | _ => false end) (first :: outputs) then Panic
        else
          first ← first;
          outs ← mapM (fun o => o) outputs;
          Ok (first ++ concat outs)
    end.

(** [parallelism] is the number of threads of the machine, 1 when it is not known. *)
Definition sealed_sender_multi_recipient_encrypt (parallelism : nat) (destinations : list ProtocolAddress)
    (destination_sessions : list SessionRecord) (excluded_recipients : list ServiceId)
    (usmc : UnidentifiedSenderMessageContent) (identity_store : IS) : M Rng SignalProtocolError bytes :=
  if negb (length destinations =? length destination_sessions)%nat
  then throw (InvalidArgument "must have the same number of destination sessions as addresses")
  else
    our_identity ← lift (get_identity_key_pair identity_store);
    m ← (fun rng => let '(m, rng) := random_array 32 rng in (Ok m, rng));
    let keys := DerivedKeys_new (arr m) in
    e ← lift (derive_e keys);
    ciphertext ← lift (seal_content keys (usmc_serialized usmc));
    identity_keys_and_ranges ← lift (mapM (identity_key_and_range identity_store)
      (chunk_by_name (imap pair destinations)));
    let count_of_recipients := (length identity_keys_and_ranges + length excluded_recipients)%nat in
    recipients ← lift (process_in_parallel
      (process_chunk our_identity e m destinations destination_sessions) parallelism identity_keys_and_ranges);
    let excluded := concat ((fun excluded => arr (service_id_fixed_width_binary excluded) ++ [Byte.x00])
                              <$> excluded_recipients) in
    mret (SEALED_SENDER_V2_SERVICE_ID_FULL_VERSION
            :: encode_length_delimiter (Z.of_nat count_of_recipients)
            ++ recipients ++ excluded ++ public_key_bytes (kp_public_key e) ++ ciphertext).
End encrypt.

(** ** The server's view *)

(** A slice with its address. *)
Record Slice := mkSlice { sl_addr : Z; sl_data : bytes }.

Definition split_slice (n : nat) (s : Slice) : Slice * Slice :=
  (mkSlice (sl_addr s) (take n (sl_data s)), mkSlice (sl_addr s + Z.of_nat n) (drop n (sl_data s))).

Record SealedSenderV2SentMessageRecipient := mkRecipient {
  devices : list (DeviceId * Z);
  c_and_at : Slice
}.

(** [IndexMap]: in the order of insertion. *)
Record SealedSenderV2SentMessage := mkSentMessage {
  full_message : Slice;
  version : byte;
  recipients : list (ServiceId * SealedSenderV2SentMessageRecipient);
  shared_bytes : Slice
}.

Section parse.
Context {D : LengthDelimiter} {U : UuidFmt}.

Definition advance (n : nat) (buf : Slice) : Result (Slice * Slice) :=
  if (length (sl_data buf) <? n)%nat then Err InvalidProtobufEncoding else Ok (split_slice n buf).

Definition decode_varint (buf : Slice) : Result (Z * Slice) :=
  result ← ok_or InvalidProtobufEncoding (decode_length_delimiter (sl_data buf));
  let n := length_delimiter_len result in
  if (length (sl_data buf) <? n)%nat then Panic
  else if u32_max <? result then Err InvalidProtobufEncoding
  else Ok (result, (split_slice n buf).2).

Definition parse_service_id (version : byte) (remaining : Slice) : Result (ServiceId * Slice) :=
  if bool_decide (version = SEALED_SENDER_V2_UUID_FULL_VERSION) then
    '(b, remaining) ← advance 16 remaining;
    Ok (SAci (from_uuid_bytes (to_array 16 (sl_data b))), remaining)
  else
    '(b, remaining) ← advance 17 remaining;
    id ← ok_or InvalidProtobufEncoding (parse_from_service_id_fixed_width_binary (to_array 17 (sl_data b)));
    Ok (id, remaining).

(** The loop over a recipient's devices; every round takes at least a byte. *)
Fixpoint parse_devices (fuel : nat) (devices : list (DeviceId * Z)) (remaining : Slice)
  : Result (list (DeviceId * Z) * Slice) :=
  match fuel with
  | O => Panic
  | S fuel =>
      '(b, remaining) ← advance 1 remaining;
      device_id ← expect (sl_data b !! 0%nat);
      if u8 device_id =? 0 then
        if bool_decide (devices <> []) then Err InvalidProtobufEncoding else Ok (devices, remaining)
      else
        device_id ← map_err (fun _ => InvalidProtobufEncoding) (DeviceId_new device_id);
        '(b, remaining) ← advance 2 remaining;
        let registration_id_and_has_more := from_be_bytes (sl_data b) in
        let devices := devices ++ [(device_id, Z.land registration_id_and_has_more VALID_REGISTRATION_ID_MASK)] in
        if Z.land registration_id_and_has_more 0x8000 =? 0 then Ok (devices, remaining)
        else parse_devices fuel devices remaining
  end.

(** [recipients.entry(service_id)]. *)
Fixpoint add_recipient (service_id : ServiceId) (devices_ : list (DeviceId * Z)) (c_and_at_ : Slice)
    (recipients : list (ServiceId * SealedSenderV2SentMessageRecipient))
  : Result (list (ServiceId * SealedSenderV2SentMessageRecipient)) :=
  match recipients with
  | [] => Ok [(service_id, mkRecipient devices_ c_and_at_)]
  | (id, existing) :: recipients =>
      if bool_decide (id = service_id) then
        if bool_decide (devices existing = []) || bool_decide (devices_ = [])
        then Err (InvalidSealedSenderMessage "recipient redundantly encoded as empty")
        else Ok ((id, mkRecipient (devices existing ++ devices_) (c_and_at existing)) :: recipients)
      else
        recipients ← add_recipient service_id devices_ c_and_at_ recipients;
        Ok ((id, existing) :: recipients)
  end.

(** The empty slice [&[]]; its address is never looked at. *)
Definition empty_slice : Slice := mkSlice 0 [].

Definition parse_recipient (version : byte) (remaining : Slice)
    (recipients : list (ServiceId * SealedSenderV2SentMessageRecipient))
  : Result (list (ServiceId * SealedSenderV2SentMessageRecipient) * Slice) :=
  '(service_id, remaining) ← parse_service_id version remaining;
  '(devices, remaining) ← parse_devices (S (length (sl_data remaining))) [] remaining;
  '(c_and_at, remaining) ←
    (if bool_decide (devices = []) then Ok (empty_slice, remaining)
     else advance (MESSAGE_KEY_LEN + AUTH_TAG_LEN) remaining);
  recipients ← add_recipient service_id devices c_and_at recipients;
  Ok (recipients, remaining).

Fixpoint parse_recipients (recipient_count : nat) (version : byte) (remaining : Slice)
    (recipients : list (ServiceId * SealedSenderV2SentMessageRecipient))
  : Result (list (ServiceId * SealedSenderV2SentMessageRecipient) * Slice) :=
  match recipient_count with
  | O => Ok (recipients, remaining)
  | S recipient_count =>
      '(recipients, remaining) ← parse_recipient version remaining recipients;
      parse_recipients recipient_count version remaining recipients
  end.

Definition SentMessage_parse (data : Slice) : Result SealedSenderV2SentMessage :=
  match sl_data data with
  | [] => Err (InvalidSealedSenderMessage "Message was empty")
  | version :: _ =>
      if negb (bool_decide (version = SEALED_SENDER_V2_UUID_FULL_VERSION)
               || bool_decide (version = SEALED_SENDER_V2_SERVICE_ID_FULL_VERSION))
      then Err (UnknownSealedSenderVersion (u8 version))
      else
        '(recipient_count, remaining) ← decode_varint (split_slice 1 data).2;
        '(recipients, remaining) ← parse_recipients (Z.to_nat recipient_count) version remaining [];
        if (length (sl_data remaining) <? SSV2_PUBLIC_KEY_LEN)%nat then Err InvalidProtobufEncoding
        else Ok (mkSentMessage data version recipients remaining)
  end.

(** The slices that, concatenated, are the message for [recipient]. *)
Definition received_message_parts_for_recipient (m : SealedSenderV2SentMessage)
    (recipient : SealedSenderV2SentMessageRecipient) : list bytes :=
  [[SEALED_SENDER_V2_UUID_FULL_VERSION]; sl_data (c_and_at recipient); sl_data (shared_bytes m)].

(** [usize] addresses wrap. *)
Definition offset_within_full_message (m : SealedSenderV2SentMessage) (addr : Z) : option Z :=
  let offset := (addr - sl_addr (full_message m)) mod 2 ^ 64 in
  if offset <=? Z.of_nat (length (sl_data (full_message m))) then Some offset else None.

Definition range_for_recipient_key_material {E} (m : SealedSenderV2SentMessage)
    (recipient : SealedSenderV2SentMessageRecipient) : outcome E (Z * Z) :=
  if bool_decide (sl_data (c_and_at recipient) = []) then Ok (0, 0)
  else
    offset ← expect (offset_within_full_message m (sl_addr (c_and_at recipient)));
    let end_offset := Z.min u64_max (offset + Z.of_nat (length (sl_data (c_and_at recipient)))) in
    if end_offset <=? Z.of_nat (length (sl_data (full_message m))) then Ok (offset, end_offset) else Panic.

Definition offset_of_shared_bytes {E} (m : SealedSenderV2SentMessage) : outcome E Z :=
  expect (offset_within_full_message m (sl_addr (shared_bytes m))).
End parse.
