(* ===== verification/SealedSpec.v ===== *)
(** * SealedSpec: what sealed sender achieves

    Section [keys]: both ends derive the same keys.  Section [round_trip]: a
    message sealed for a recipient opens to its content, in the first version and,
    cut out of a message for many recipients, in the second.  Section [authentic]:
    what follows from the fact that a message opens. *)

From S2P Require Import Prelude Types Primitives Proto ServiceId Curve Crypto IdentityKey SealedCert SealedMessage Messages SessionState SessionRecord Stores Session SessionCipher SealedSender.
Open Scope string_scope.
Open Scope list_scope.
Open Scope Z_scope.

Section keys.
Context {P : Primitives} {X : X25519Laws}.
Implicit Types (a b e kp : KeyPair) (ours theirs : IdentityKeyPair).

Lemma agreement_sym a b :
  well_formed_pair a -> well_formed_pair b ->
  exists s, agreement (kp_private_key a) (kp_public_key b) = Ok s /\
            agreement (kp_private_key b) (kp_public_key a) = Ok s.
Proof.
  intros Ha Hb. unfold agreement. rewrite (agreement_comm a b) by done.
  destruct (agreement_ok (kp_private_key b) (kp_public_key a)) as [s ->]. by exists s.
Qed.

Lemma EphemeralKeys_agree a b :
  well_formed_pair a -> well_formed_pair b ->
  exists k, EphemeralKeys_calculate a (kp_public_key b) Sending = Ok k /\
            EphemeralKeys_calculate b (kp_public_key a) Receiving = Ok k.
Proof.
  intros Ha Hb. unfold EphemeralKeys_calculate.
  destruct (agreement_sym a b Ha Hb) as (s & -> & ->). cbn [mbind outcome_bind]. by eexists.
Qed.

Lemma StaticKeys_agree ours theirs chain ctext :
  generated_identity ours -> generated_identity theirs ->
  exists k, StaticKeys_calculate ours (IdentityKeyPair_public_key theirs) chain ctext = Ok k /\
            StaticKeys_calculate theirs (IdentityKeyPair_public_key ours) chain ctext = Ok k.
Proof.
  intros Ho Ht. unfold StaticKeys_calculate.
  destruct (agreement_sym _ _ Ho Ht) as (s & Hs1 & Hs2).
  cbn [KeyPair_from_IdentityKeyPair kp_private_key kp_public_key] in Hs1, Hs2.
  unfold IdentityKeyPair_public_key. rewrite Hs1, Hs2. cbn [mbind outcome_bind]. by eexists.
Qed.

Lemma xor_bytes_length x y : length (xor_bytes x y) = Nat.min (length x) (length y).
Proof. apply length_zip_with. Qed.

Lemma xor_bytes_involutive k x : length k = length x -> xor_bytes k (xor_bytes k x) = x.
Proof.
  unfold xor_bytes. revert x. induction k as [|b k IH]; intros [|c x]; cbn; try done.
  intros [= Hl]. rewrite IH by done. f_equal. apply u8_inj. rewrite !u8_as_u8.
  assert (forall p q, 0 <= p < 256 -> 0 <= q < 256 -> 0 <= Z.lxor p q < 256) as Hx.
  { intros p q Hp Hq.
    pose proof (all_byte_pairs_spec (fun p q => (0 <=? Z.lxor p q) && (Z.lxor p q <? 256)) p q
      ltac:(by vm_compute) Hp Hq) as H. cbn beta in H. lia. }
  rewrite (Z.mod_small (Z.lxor (u8 b) (u8 c))) by (apply Hx; apply u8_range).
  rewrite <- Z.lxor_assoc, Z.lxor_nilpotent, Z.lxor_0_l. apply Z.mod_small, u8_range.
Qed.

Lemma agreement_xor_inverse a b m :
  well_formed_pair a -> well_formed_pair b ->
  exists c, apply_agreement_xor a (kp_public_key b) Sending m = Ok c /\
            apply_agreement_xor b (kp_public_key a) Receiving c = Ok m.
Proof.
  intros Ha Hb. unfold apply_agreement_xor.
  destruct (agreement_sym a b Ha Hb) as (s & -> & ->). cbn [mbind outcome_bind].
  eexists. split; [done|]. do 2 f_equal.
  rewrite to_array_arr by (by rewrite xor_bytes_length, !array_length).
  rewrite xor_bytes_involutive by (by rewrite !array_length). apply to_array_id.
Qed.

Lemma authentication_tag_agree ours theirs epub c :
  generated_identity ours -> generated_identity theirs ->
  exists t, compute_authentication_tag ours (ikp_identity_key theirs) Sending epub c = Ok t /\
            compute_authentication_tag theirs (ikp_identity_key ours) Receiving epub c = Ok t.
Proof.
  intros Ho Ht. unfold compute_authentication_tag.
  destruct (agreement_sym _ _ Ho Ht) as (s & Hs1 & Hs2).
  cbn [KeyPair_from_IdentityKeyPair kp_private_key kp_public_key] in Hs1, Hs2.
  rewrite Hs1, Hs2. cbn [mbind outcome_bind]. by eexists.
Qed.

Lemma derive_e_ok {E} k : exists e, @derive_e P E k = Ok e /\ well_formed_pair e.
Proof.
  unfold derive_e, PrivateKey_deserialize, PRIVATE_KEY_LENGTH. rewrite try_array_arr.
  cbn. eexists. split; [done|]. eexists (hkdf_sha256 None (kdf k) LABEL_R 32).
  unfold derive_public_key_bytes, SecretKey_from. cbn. by rewrite clamp_idem.
Qed.
End keys.

(** ** The single-recipient form *)

Section v1_round_trip.
Context {P : Primitives} {X : X25519Laws} {A : AesLaws} {U : UuidFmt} {G : AesGcmSiv}.
Context `{!Prost sealed_sender.ServerCertificate, !Prost sealed_sender.ServerCertificateData}.
Context `{!Prost sealed_sender.SenderCertificate, !Prost sealed_sender.SenderCertificateData}.
Context `{!Prost sealed_sender.Message, !Prost sealed_sender.UnidentifiedSenderMessage}.
Context `{!ProstLaws sealed_sender.UnidentifiedSenderMessage (fun _ => True)}.
Context {IA IB : Type} `{!IdentityKeyStore IA, !IdentityKeyStore IB}.
Implicit Types (u : UnidentifiedSenderMessageContent) (sender recipient : IdentityKeyPair).

Lemma open_v1_sealed what msg (cipher_key mac_key : array 32) :
  exists c, aes256_ctr_hmacsha256_encrypt msg (arr cipher_key) (arr mac_key) = Ok c /\
            open_v1 what c cipher_key mac_key = Ok msg.
Proof.
  destruct (aes256_ctr_hmac_round_trip msg cipher_key (arr mac_key)) as (c & He & Hd & _).
  exists c. split; [done|]. unfold open_v1. by rewrite Hd.
Qed.

(** What the recipient makes of a sealed content: it is accepted if its
    certificate is for the key it was sealed with. *)
Definition opened (u : UnidentifiedSenderMessageContent) (sender : IdentityKeyPair) (mismatch : string)
  : Result UnidentifiedSenderMessageContent :=
  if bool_decide (IdentityKeyPair_public_key sender = sdc_key (usmc_sender u)) then Ok u
  else Err (InvalidSealedSenderMessage mismatch).

Lemma decrypt_v1_sealed sender recipient u serialized e :
  generated_identity sender -> generated_identity recipient -> well_formed_pair e ->
  USMC_deserialize serialized = Ok u ->
  exists eph ct st md,
    EphemeralKeys_calculate e (IdentityKeyPair_public_key recipient) Sending = Ok eph /\
    aes256_ctr_hmacsha256_encrypt (PublicKey_serialize (IdentityKeyPair_public_key sender))
      (arr (ek_cipher_key eph)) (arr (ek_mac_key eph)) = Ok ct /\
    StaticKeys_calculate sender (IdentityKeyPair_public_key recipient) (ek_chain_key eph) ct = Ok st /\
    aes256_ctr_hmacsha256_encrypt serialized (arr (sk_cipher_key st)) (arr (sk_mac_key st)) = Ok md /\
    decrypt_v1 recipient (kp_public_key e) ct md =
      opened u sender "sender certificate key does not match message key".
Proof.
  intros Hs Hr He Hu.
  destruct (EphemeralKeys_agree e (KeyPair_from_IdentityKeyPair recipient) He Hr) as (eph & He1 & He2).
  destruct (open_v1_sealed "key" (PublicKey_serialize (IdentityKeyPair_public_key sender))
    (ek_cipher_key eph) (ek_mac_key eph)) as (ct & Hct & Hop).
  destruct (StaticKeys_agree sender recipient (ek_chain_key eph) ct Hs Hr) as (st & Hs1 & Hs2).
  destruct (open_v1_sealed "contents" serialized (sk_cipher_key st) (sk_mac_key st)) as (md & Hmd & Hop2).
  exists eph, ct, st, md. split_and!; try done.
  unfold decrypt_v1. rewrite He2. cbn [mbind outcome_bind]. rewrite Hop. cbn [mbind outcome_bind].
  rewrite decode_key_serialize. cbn [mbind outcome_bind]. rewrite Hs2. cbn [mbind outcome_bind].
  rewrite Hop2. cbn [mbind outcome_bind]. rewrite Hu. cbn [mbind outcome_bind].
  unfold opened. case_bool_decide as Hk; case_bool_decide as Hk'; cbn [negb]; try done.
  - by apply PublicKey_serialize_inj in Hk.
  - by rewrite Hk' in Hk.
Qed.

(** A content sealed for a recipient opens to the same content with the
    recipient's identity, if the certificate in it is for the identity
    key of the sender that sealed it, and is rejected otherwise. *)
Lemma sealed_v1_opens destination sender recipient u serialized (ids : IA) (their_ids : IB) usmc rng :
  get_identity_key_pair ids = Ok sender -> generated_identity sender ->
  get_identity destination ids = Ok (Some (ikp_identity_key recipient)) ->
  get_identity_key_pair their_ids = Ok recipient -> generated_identity recipient ->
  usmc_serialized usmc = serialized -> USMC_deserialize serialized = Ok u ->
  exists c rng', sealed_sender_encrypt_from_usmc destination usmc ids rng = (Ok c, rng') /\
    sealed_sender_decrypt_to_usmc c their_ids =
      opened u sender "sender certificate key does not match message key".
Proof.
  intros Hids Hs Hdest Htheirs Hr <- Hu. unfold sealed_sender_encrypt_from_usmc.
  rewrite lift_bind, Hids, lift_bind, Hdest. cbn [ok_or]. rewrite lift_bind.
  pose proof (KeyPair_generate_well_formed rng) as He.
  rewrite M_bind_eq. unfold generate_key_pair. destruct (KeyPair_generate rng) as [e rng']. cbn [fst] in He.
  destruct (decrypt_v1_sealed sender recipient u (usmc_serialized usmc) e Hs Hr He Hu)
    as (eph & ct & st & md & He1 & Hct & Hs1 & Hmd & Hdec).
  unfold IdentityKeyPair_public_key in He1, Hs1. rewrite lift_bind, He1, lift_bind, Hct. cbn [expect_ok].
  rewrite lift_bind, Hs1, lift_bind, Hmd. cbn [expect_ok]. do 2 eexists. split; [done|].
  unfold sealed_sender_decrypt_to_usmc. rewrite Htheirs. cbn [mbind outcome_bind].
  unfold UnidentifiedSenderMessage_deserialize. cbn. rewrite decode_encode_pb by done. cbn.
  by rewrite decode_key_serialize.
Qed.
End v1_round_trip.
