(* ===== verification/SealedParse.v ===== *)
(** * SealedParse: the server's view of a message for many recipients

    Section [total]: [parse] answers every byte string without a panic, and the
    offsets it gives for a recipient and for the shared part select what they
    should.  Section [round_trip]: it reads back any list of entries. *)

From S2P Require Import Prelude Types Primitives Proto ServiceId Curve Crypto IdentityKey SealedCert SealedMessage SealedSender SealedMulti.
Open Scope string_scope.
Open Scope list_scope.
Open Scope Z_scope.

Section total.
Context {U : UuidFmt} `{L : LengthDelimiterLaws}.
Implicit Types (full s r : Slice) (rs : list (ServiceId * SealedSenderV2SentMessageRecipient)).

(** A slice of the full message. *)
Definition within full s : Prop :=
  exists k, sl_addr s = sl_addr full + Z.of_nat k /\ (k + length (sl_data s) <= length (sl_data full))%nat /\
            sl_data s = take (length (sl_data s)) (drop k (sl_data full)).
(** One that goes up to its end. *)
Definition suffix_of full s : Prop :=
  exists k, (k <= length (sl_data full))%nat /\ s = (split_slice k full).2.

Lemma suffix_within full s : suffix_of full s -> within full s.
Proof.
  intros (k & Hk & ->). exists k. unfold split_slice. cbn [snd sl_addr sl_data].
  rewrite length_drop. split_and!; [done|lia|]. by rewrite firstn_all2 by (rewrite length_drop; lia).
Qed.

Lemma split_suffix full s n :
  suffix_of full s -> (n <= length (sl_data s))%nat ->
  within full (split_slice n s).1 /\ suffix_of full (split_slice n s).2.
Proof.
  intros (k & Hk & ->). unfold split_slice. cbn [fst snd sl_addr sl_data]. rewrite length_drop. intros Hn.
  split.
  - exists k. cbn [sl_addr sl_data]. rewrite length_take, length_drop. split_and!; [done|lia|].
    by replace (n `min` (length (sl_data full) - k))%nat with n by lia.
  - exists (k + n)%nat. split; [lia|]. unfold split_slice. cbn [snd]. rewrite drop_drop. f_equal. lia.
Qed.

Lemma advance_spec full n s :
  suffix_of full s ->
  match advance n s with
  | Ok (p, r) => within full p /\ length (sl_data p) = n /\ suffix_of full r /\
                 (length (sl_data s) = n + length (sl_data r))%nat
  | Err e => e = InvalidProtobufEncoding
  | Panic => False
  end.
Proof.
  intros Hs. unfold advance. destruct (Nat.ltb_spec (length (sl_data s)) n) as [|Hn]; [done|].
  destruct (split_suffix full s n Hs Hn) as [H1 H2]. cbn [fst snd] in *.
  split_and!; [done| |done|]; cbn [split_slice fst snd sl_data]; rewrite ?length_take, ?length_drop; lia.
Qed.

(** A result that is no panic, and whose rest is a suffix. *)
Definition advances {A} full (m : Result (A * Slice)) (Q : A -> Prop) : Prop :=
  match m with Ok (a, r) => Q a /\ suffix_of full r | Err _ => True | Panic => False end.

Lemma parse_service_id_advances full v s :
  suffix_of full s -> advances full (parse_service_id v s) (fun _ => True).
Proof.
  intros Hs. unfold parse_service_id. case_bool_decide.
  - pose proof (advance_spec full 16 s Hs) as Ha. destruct (advance 16 s) as [[p r]|e|]; cbn; [naive_solver|done|done].
  - pose proof (advance_spec full 17 s Hs) as Ha. destruct (advance 17 s) as [[p r]|e|]; cbn; [|done|done].
    destruct (parse_from_service_id_fixed_width_binary _); cbn; [naive_solver|done].
Qed.

Lemma parse_devices_advances full fuel : forall ds s,
  suffix_of full s -> (length (sl_data s) < fuel)%nat ->
  advances full (parse_devices fuel ds s) (fun _ => True).
Proof.
  induction fuel as [|fuel IH]; intros ds s Hs Hf; [lia|]. cbn [parse_devices].
  pose proof (advance_spec full 1 s Hs) as Ha. destruct (advance 1 s) as [[p r]|e|]; cbn [mbind outcome_bind]; [|done|done].
  destruct Ha as (_ & Hp & Hr & Hl). destruct (sl_data p) as [|b []]; [done| |done]. cbn [lookup list_lookup expect mbind outcome_bind].
  destruct (u8 b =? 0); [case_bool_decide; [done|by split]|].
  rewrite DeviceId_new_spec. destruct (_ && _); cbn [map_err mbind outcome_bind]; [|done].
  pose proof (advance_spec full 2 r Hr) as Ha. destruct (advance 2 r) as [[p2 r2]|e|]; cbn [mbind outcome_bind]; [|done|done].
  destruct Ha as (_ & _ & Hr2 & Hl2). destruct (Z.land _ 32768 =? 0); [by split|]. apply IH; [done|lia].
Qed.

Definition well_placed full rs : Prop :=
  Forall (fun x => sl_data (c_and_at x.2) = [] \/ within full (c_and_at x.2)) rs.

Lemma add_recipient_ok full id ds c rs :
  well_placed full rs -> sl_data c = [] \/ within full c ->
  match add_recipient id ds c rs with Ok rs' => well_placed full rs' | Err _ => True | Panic => False end.
Proof.
  intros Hrs Hc. induction Hrs as [|[id' r] rs Hr Hrs IH]; cbn [add_recipient].
  { by apply Forall_singleton. }
  case_bool_decide; [destruct (_ || _); [done|]|].
  - constructor; [exact Hr|done].
  - destruct (add_recipient id ds c rs); cbn; [by constructor|done|done].
Qed.

Lemma parse_recipient_advances full v s rs :
  suffix_of full s -> well_placed full rs -> advances full (parse_recipient v s rs) (well_placed full).
Proof.
  intros Hs Hrs. unfold parse_recipient.
  pose proof (parse_service_id_advances full v s Hs) as Ha.
  destruct (parse_service_id v s) as [[id s1]|e|]; cbn [mbind outcome_bind]; [|done|done]. destruct Ha as [_ Hs1].
  pose proof (parse_devices_advances full (S (length (sl_data s1))) [] s1 Hs1 ltac:(lia)) as Ha.
  destruct (parse_devices _ _ _) as [[ds s2]|e|]; cbn [mbind outcome_bind]; [|done|done]. destruct Ha as [_ Hs2].
  assert (advances full (if bool_decide (ds = []) then Ok (empty_slice, s2)
            else advance (MESSAGE_KEY_LEN + AUTH_TAG_LEN) s2) (fun c => sl_data c = [] \/ within full c)) as Hc.
  { case_bool_decide; [split; [by left|done]|].
    pose proof (advance_spec full (MESSAGE_KEY_LEN + AUTH_TAG_LEN) s2 Hs2) as Ha.
    destruct (advance _ s2) as [[p r]|e|]; cbn; [|done|done]. destruct Ha as (? & _ & ? & _). split; [by right|done]. }
  destruct (if bool_decide (ds = []) then _ else _) as [[c s3]|e|]; cbn [mbind outcome_bind]; [|done|done].
  destruct Hc as [Hc Hs3]. pose proof (add_recipient_ok full id ds c rs Hrs Hc) as Ha.
  destruct (add_recipient id ds c rs); cbn; [by split|done|done].
Qed.

Lemma parse_recipients_advances full n v : forall s rs,
  suffix_of full s -> well_placed full rs -> advances full (parse_recipients n v s rs) (well_placed full).
Proof.
  induction n as [|n IH]; intros s rs Hs Hrs; cbn [parse_recipients]; [by split|].
  pose proof (parse_recipient_advances full v s rs Hs Hrs) as Ha.
  destruct (parse_recipient v s rs) as [[rs' s']|e|]; cbn [mbind outcome_bind]; [|done|done].
  destruct Ha as [Hrs' Hs']. by apply IH.
Qed.

Lemma decode_varint_advances full s :
  suffix_of full s -> advances full (decode_varint s) (fun n => 0 <= n <= u32_max).
Proof.
  intros Hs. unfold decode_varint. destruct (decode_length_delimiter (sl_data s)) as [n|] eqn:Hn; [|done].
  destruct (decode_length_fits _ _ Hn) as [Hr Hl]. cbn [ok_or mbind outcome_bind].
  destruct (Nat.ltb_spec (length (sl_data s)) (length_delimiter_len n)); [lia|].
  destruct (Z.ltb_spec u32_max n); [done|]. split; [unfold is_u64 in Hr; lia|]. by apply split_suffix.
Qed.

(** What a parsed message says of the bytes it came from. *)
Definition located full (m : SealedSenderV2SentMessage) : Prop :=
  full_message m = full /\ well_placed full (recipients m) /\ suffix_of full (shared_bytes m) /\
  (SSV2_PUBLIC_KEY_LEN <= length (sl_data (shared_bytes m)))%nat.

Lemma SentMessage_parse_located full :
  match SentMessage_parse full with Ok m => located full m | Err _ => True | Panic => False end.
Proof.
  unfold SentMessage_parse. destruct (sl_data full) as [|v rest] eqn:Hd; [done|].
  destruct (negb _); [done|].
  assert (suffix_of full (split_slice 1 full).2) as Hs by (exists 1%nat; split; [rewrite Hd; cbn; lia|done]).
  pose proof (decode_varint_advances full _ Hs) as Ha.
  destruct (decode_varint _) as [[n s]|e|]; cbn [mbind outcome_bind]; [|done|done]. destruct Ha as [_ Hs1].
  pose proof (parse_recipients_advances full (Z.to_nat n) v s [] Hs1 ltac:(by constructor)) as Ha.
  destruct (parse_recipients _ _ _ _) as [[rs r]|e|]; cbn [mbind outcome_bind]; [|done|done]. destruct Ha as [Hrs Hr].
  destruct (Nat.ltb_spec (length (sl_data r)) SSV2_PUBLIC_KEY_LEN); [done|]. by split_and!.
Qed.

Lemma offset_within m s full k :
  full_message m = full -> sl_addr s = sl_addr full + Z.of_nat k -> (k <= length (sl_data full))%nat ->
  Z.of_nat (length (sl_data full)) < 2 ^ 64 -> offset_within_full_message m (sl_addr s) = Some (Z.of_nat k).
Proof.
  intros Hf Ha Hk Hl. unfold offset_within_full_message. rewrite Hf, Ha.
  replace (sl_addr full + Z.of_nat k - sl_addr full) with (Z.of_nat k) by lia.
  rewrite Z.mod_small by lia. by destruct (Z.leb_spec (Z.of_nat k) (Z.of_nat (length (sl_data full)))); [|lia].
Qed.

(** C29: no byte string makes the server's parser panic; and for a parsed
    message the offsets that are computed for a recipient and for the shared
    part are inside the message and select the bytes that were parsed. *)
Theorem sent_message_offsets full :
  Z.of_nat (length (sl_data full)) < 2 ^ 64 ->
  match SentMessage_parse full with
  | Panic => False
  | Err _ => True
  | Ok m =>
      (exists k : nat, offset_of_shared_bytes (E:=SignalProtocolError) m = Ok (Z.of_nat k) /\
                 sl_data (shared_bytes m) = drop k (sl_data full)) /\
      (forall id rc, (id, rc) ∈ recipients m ->
         exists i j : nat, range_for_recipient_key_material (E:=SignalProtocolError) m rc = Ok (Z.of_nat i, Z.of_nat j) /\
           (i <= j <= length (sl_data full))%nat /\ sl_data (c_and_at rc) = slice i j (sl_data full))
  end.
Proof.
  intros Hl. pose proof (SentMessage_parse_located full) as Hp.
  destruct (SentMessage_parse full) as [m|e|]; [|done|done]. destruct Hp as (Hf & Hrs & (k & Hk & Hsh) & _).
  split.
  - exists k. unfold offset_of_shared_bytes. rewrite (offset_within m _ full k) by (try done; by rewrite Hsh).
    split; [done|]. by rewrite Hsh.
  - intros id rc Hin. pose proof (proj1 (Forall_forall _ _) Hrs _ Hin) as Hr. cbn [snd] in Hr.
    unfold range_for_recipient_key_material. case_bool_decide as He.
    { exists 0%nat, 0%nat. split_and!; [done|lia|lia|]. by rewrite He. }
    destruct Hr as [|(i & Ha & Hlen & Hd)]; [done|].
    rewrite (offset_within m _ full i) by (try done; lia). cbn [expect mbind outcome_bind]. rewrite Hf.
    exists i, (i + length (sl_data (c_and_at rc)))%nat.
    rewrite Z.min_r by (unfold u64_max; lia). rewrite <- Nat2Z.inj_add.
    destruct (Z.leb_spec (Z.of_nat (i + length (sl_data (c_and_at rc)))) (Z.of_nat (length (sl_data full)))); [|lia].
    split_and!; [done|lia|lia|]. unfold slice. by replace (i + length (sl_data (c_and_at rc)) - i)%nat
      with (length (sl_data (c_and_at rc))) by lia.
Qed.
End total.

(** ** Reading back a list of entries *)

(** All numbers of [n] bits, by exhaustion. *)
Lemma below_spec n (p : Z -> bool) x : forallb p (seqZ 0 n) = true -> 0 <= x < n -> p x = true.
Proof.
  intros Hp Hx. rewrite forallb_forall in Hp. apply Hp. apply list_elem_of_In, elem_of_seqZ. lia.
Qed.

(** The 14 bits of a registration id with the flag for more devices. *)
Lemma registration_id_bits id :
  0 <= id <= VALID_REGISTRATION_ID_MASK ->
  Z.land id VALID_REGISTRATION_ID_MASK = id /\ Z.land id 0x8000 = 0 /\ 0 <= Z.lor id 0x8000 < 65536 /\
  Z.land (Z.lor id 0x8000) VALID_REGISTRATION_ID_MASK = id /\ Z.land (Z.lor id 0x8000) 0x8000 <> 0.
Proof.
  intros Hid.
  pose proof (below_spec 16384 (fun id => (Z.land id VALID_REGISTRATION_ID_MASK =? id) && (Z.land id 0x8000 =? 0)
    && (0 <=? Z.lor id 0x8000) && (Z.lor id 0x8000 <? 65536)
    && (Z.land (Z.lor id 0x8000) VALID_REGISTRATION_ID_MASK =? id)
    && negb (Z.land (Z.lor id 0x8000) 0x8000 =? 0)) id ltac:(by vm_compute)
    ltac:(unfold VALID_REGISTRATION_ID_MASK in Hid; lia)) as H.
  cbn beta in H. lia.
Qed.

Definition device_ok (d : DeviceId * Z) : Prop :=
  1 <= device_id_value d.1 <= 127 /\ 0 <= d.2 <= VALID_REGISTRATION_ID_MASK.

Fixpoint encode_devices (ds : list (DeviceId * Z)) : bytes :=
  match ds with
  | [] => []
  | (d, id) :: ds =>
      as_u8 (device_id_value d) :: be_bytes 2 (match ds with [] => id | _ => Z.lor id 0x8000 end)
        ++ encode_devices ds
  end.

(** An entry of the list of recipients: an id with its devices and key
    material, which is empty for an excluded recipient. *)
Record Entry := mkEntry { en_id : ServiceId; en_devices : list (DeviceId * Z); en_key_material : bytes }.
Definition entry_ok (x : Entry) : Prop :=
  Forall device_ok (en_devices x) /\
  length (en_key_material x) = if bool_decide (en_devices x = []) then 0%nat else 48%nat.

Definition encode_entry `{UuidFmt} (x : Entry) : bytes :=
  arr (service_id_fixed_width_binary (en_id x)) ++
  (if bool_decide (en_devices x = []) then [Byte.x00] else encode_devices (en_devices x)) ++ en_key_material x.

Section round_trip.
Context {U : UuidFmt} `{L : LengthDelimiterLaws}.
Implicit Types (a : Z) (tail : bytes).

Lemma advance_app n l tail a :
  length l = n -> advance n (mkSlice a (l ++ tail)) = Ok (mkSlice a l, mkSlice (a + Z.of_nat n) tail).
Proof.
  intros <-. unfold advance. cbn [sl_data]. rewrite length_app.
  destruct (Nat.ltb_spec (length l + length tail) (length l)); [lia|].
  unfold split_slice. cbn [sl_addr sl_data]. by rewrite take_app_length, drop_app_length.
Qed.

Lemma parse_device_step fuel acc d n tail a :
  1 <= device_id_value d <= 127 -> 0 <= n < 65536 ->
  parse_devices (S fuel) acc (mkSlice a (as_u8 (device_id_value d) :: be_bytes 2 n ++ tail)) =
    let ds := acc ++ [(d, Z.land n VALID_REGISTRATION_ID_MASK)] in
    if Z.land n 0x8000 =? 0 then Ok (ds, mkSlice (a + 3) tail)
    else parse_devices fuel ds (mkSlice (a + 3) tail).
Proof.
  intros Hd Hn. cbn [parse_devices]. destruct d as [d]. cbn [device_id_value] in *.
  change (as_u8 d :: be_bytes 2 n ++ tail) with ([as_u8 d] ++ (be_bytes 2 n ++ tail)).
  rewrite advance_app by done. cbn [mbind outcome_bind sl_data lookup list_lookup expect].
  rewrite u8_as_u8, Z.mod_small by lia. destruct (Z.eqb_spec d 0); [lia|].
  rewrite DeviceId_new_spec, u8_as_u8, Z.mod_small by lia.
  destruct (Z.leb_spec 1 d); [|lia]. destruct (Z.leb_spec d 127); [|lia]. cbn [andb map_err mbind outcome_bind].
  rewrite advance_app by apply be_bytes_length. cbn [mbind outcome_bind sl_data].
  rewrite from_be_to_be by (cbn; lia). by replace (a + Z.of_nat 1 + Z.of_nat 2) with (a + 3) by lia.
Qed.

Lemma parse_devices_encode ds : forall fuel acc tail a,
  Forall device_ok ds -> ds <> [] -> (length ds <= fuel)%nat ->
  parse_devices fuel acc (mkSlice a (encode_devices ds ++ tail)) =
    Ok (acc ++ ds, mkSlice (a + Z.of_nat (length (encode_devices ds))) tail).
Proof.
  induction ds as [|[d id] ds IH]; intros fuel acc tail a Hok Hne Hf; [done|].
  apply Forall_cons in Hok as [[Hd Hid] Hok]. cbn [fst snd] in Hd, Hid. cbn [length] in Hf.
  destruct fuel as [|fuel]; [lia|]. destruct (registration_id_bits id Hid) as (Hb1 & Hb2 & Hb3 & Hb4 & Hb5).
  destruct (decide (ds = [])) as [->|Hds].
  - cbn [encode_devices app]. rewrite app_nil_r, parse_device_step
      by (unfold VALID_REGISTRATION_ID_MASK in *; lia). cbv zeta. rewrite Hb1, Hb2. cbn [Z.eqb].
    cbn [length]. by rewrite be_bytes_length.
  - replace (encode_devices ((d, id) :: ds)) with
      (as_u8 (device_id_value d) :: be_bytes 2 (Z.lor id 0x8000) ++ encode_devices ds) by (by destruct ds).
    cbn [app]. rewrite <- app_assoc, parse_device_step by done. cbv zeta. rewrite Hb4.
    destruct (Z.eqb_spec (Z.land (Z.lor id 0x8000) 0x8000) 0); [done|].
    rewrite IH by (done || lia). rewrite <- app_assoc. cbn [app].
    do 3 f_equal. cbn [length]. rewrite length_app, be_bytes_length. lia.
Qed.

Lemma encode_devices_length ds : (length ds <= length (encode_devices ds))%nat.
Proof.
  induction ds as [|[d id] ds IH]; [done|]. cbn [encode_devices length]. rewrite length_app. lia.
Qed.

(** What is made of an entry that starts at address [a]. *)
Definition recipient_at (a : Z) (x : Entry) : ServiceId * SealedSenderV2SentMessageRecipient :=
  (en_id x, mkRecipient (en_devices x)
     (if bool_decide (en_devices x = []) then empty_slice
      else mkSlice (a + Z.of_nat (17 + length (encode_devices (en_devices x)))) (en_key_material x))).

Lemma add_recipient_new id ds c rs : id ∉ rs.*1 -> add_recipient id ds c rs = Ok (rs ++ [(id, mkRecipient ds c)]).
Proof.
  induction rs as [|[id' r] rs IH]; cbn; [done|]. intros Hid%not_elem_of_cons.
  rewrite bool_decide_eq_false_2 by naive_solver. by rewrite IH by naive_solver.
Qed.

Lemma parse_recipient_entry x tail a rs :
  entry_ok x -> en_id x ∉ rs.*1 ->
  parse_recipient SEALED_SENDER_V2_SERVICE_ID_FULL_VERSION (mkSlice a (encode_entry x ++ tail)) rs =
    Ok (rs ++ [recipient_at a x], mkSlice (a + Z.of_nat (length (encode_entry x))) tail).
Proof.
  intros [Hds Hkm] Hid. unfold parse_recipient, parse_service_id, encode_entry.
  rewrite bool_decide_eq_false_2 by done. rewrite <- app_assoc, advance_app by apply array_length.
  cbn [mbind outcome_bind sl_data]. rewrite to_array_id.
  rewrite (proj2 (parse_fixed_width_spec _ (en_id x)) eq_refl). cbn [ok_or mbind outcome_bind].
  unfold recipient_at. destruct (decide (en_devices x = [])) as [He|He].
  - rewrite (bool_decide_eq_true_2 (en_devices x = [])) in * by done.
    apply nil_length_inv in Hkm. rewrite Hkm. rewrite !app_nil_r.
    cbn [parse_devices]. rewrite advance_app by done.
    cbn [mbind outcome_bind sl_data lookup list_lookup expect]. change (u8 Byte.x00 =? 0) with true. cbn iota.
    rewrite bool_decide_eq_false_2 by (by intros H0; apply H0). cbn [mbind outcome_bind].
    rewrite bool_decide_eq_true_2 by done. cbn [mbind outcome_bind].
    rewrite add_recipient_new by done. cbn [mbind outcome_bind]. rewrite He.
    rewrite length_app, array_length. cbn [length]. do 3 f_equal. lia.
  - rewrite (bool_decide_eq_false_2 (en_devices x = [])) in * by done.
    rewrite <- app_assoc. rewrite parse_devices_encode; [|done|done|].
    2: { cbn [sl_data]. rewrite length_app. pose proof (encode_devices_length (en_devices x)). lia. }
    cbn [mbind outcome_bind app]. rewrite bool_decide_eq_false_2 by done.
    rewrite advance_app by done. cbn [mbind outcome_bind].
    rewrite add_recipient_new by done. cbn [mbind outcome_bind].
    rewrite !length_app, array_length, Hkm, !Nat2Z.inj_add, !Z.add_assoc.
    do 3 f_equal. change (Z.of_nat 48) with (Z.of_nat MESSAGE_KEY_LEN + Z.of_nat AUTH_TAG_LEN). lia.
Qed.

Fixpoint recipients_at (a : Z) (xs : list Entry) : list (ServiceId * SealedSenderV2SentMessageRecipient) :=
  match xs with
  | [] => []
  | x :: xs => recipient_at a x :: recipients_at (a + Z.of_nat (length (encode_entry x))) xs
  end.

Lemma recipients_at_ids a xs : (recipients_at a xs).*1 = en_id <$> xs.
Proof. revert a. induction xs as [|x xs IH]; intros a; cbn; [done|by rewrite IH]. Qed.

Lemma parse_recipients_entries xs : forall tail a rs,
  Forall entry_ok xs -> NoDup (rs.*1 ++ (en_id <$> xs)) ->
  parse_recipients (length xs) SEALED_SENDER_V2_SERVICE_ID_FULL_VERSION
    (mkSlice a (concat (encode_entry <$> xs) ++ tail)) rs =
    Ok (rs ++ recipients_at a xs, mkSlice (a + Z.of_nat (length (concat (encode_entry <$> xs)))) tail).
Proof.
  induction xs as [|x xs IH]; intros tail a rs Hok Hnd; cbn [fmap list_fmap concat length parse_recipients].
  { cbn. by rewrite app_nil_r, Z.add_0_r. }
  apply Forall_cons in Hok as [Hx Hok]. cbn [fmap list_fmap] in Hnd.
  assert (en_id x ∉ rs.*1) as Hid.
  { apply NoDup_app in Hnd as (_ & Hd & _). intros Hin. apply (Hd _ Hin). by left. }
  rewrite <- app_assoc, parse_recipient_entry by done. cbn [mbind outcome_bind].
  rewrite IH; [|done|].
  - rewrite <- app_assoc. cbn [app recipients_at]. rewrite length_app. do 2 f_equal. f_equal. lia.
  - rewrite fmap_app. cbn [fmap list_fmap recipient_at fst]. by rewrite <- app_assoc.
Qed.

(** The bytes of a whole message. *)
Definition encode_sent (xs : list Entry) (tail : bytes) : bytes :=
  SEALED_SENDER_V2_SERVICE_ID_FULL_VERSION :: encode_length_delimiter (Z.of_nat (length xs))
    ++ concat (encode_entry <$> xs) ++ tail.

Lemma SentMessage_parse_encoded xs tail a :
  Forall entry_ok xs -> NoDup (en_id <$> xs) -> Z.of_nat (length xs) <= u32_max ->
  (SSV2_PUBLIC_KEY_LEN <= length tail)%nat ->
  exists start shared,
    SentMessage_parse (mkSlice a (encode_sent xs tail)) =
      Ok (mkSentMessage (mkSlice a (encode_sent xs tail)) SEALED_SENDER_V2_SERVICE_ID_FULL_VERSION
            (recipients_at start xs) (mkSlice shared tail)).
Proof.
  intros Hok Hnd Hn Ht. unfold SentMessage_parse, encode_sent. cbn [sl_data].
  rewrite bool_decide_eq_false_2, bool_decide_eq_true_2 by done. cbn [orb negb].
  unfold split_slice at 1. cbn [snd sl_addr sl_data drop]. rewrite drop_0. unfold decode_varint. cbn [sl_data].
  assert (is_u64 (Z.of_nat (length xs))) as Hu by (unfold is_u64, u32_max, u64_max in *; lia).
  rewrite decode_encode_length by done. cbn [ok_or mbind outcome_bind]. rewrite length_delimiter_len_ok by done.
  rewrite length_app. destruct (Nat.ltb_spec (length (encode_length_delimiter (Z.of_nat (length xs)))
    + length (concat (encode_entry <$> xs) ++ tail)) (length (encode_length_delimiter (Z.of_nat (length xs))))); [lia|].
  destruct (Z.ltb_spec u32_max (Z.of_nat (length xs))); [lia|]. cbn [mbind outcome_bind].
  unfold split_slice. cbn [snd sl_addr sl_data]. rewrite drop_app_length, Nat2Z.id.
  rewrite parse_recipients_entries by done. cbn [mbind outcome_bind sl_data app].
  destruct (Nat.ltb_spec (length tail) SSV2_PUBLIC_KEY_LEN); [lia|]. eauto.
Qed.
End round_trip.
