(* ===== verification/SealedMultiSpec.v ===== *)
(** * SealedMultiSpec: a message for many recipients reaches each of them

    Section [parallel]: spreading the work over threads changes nothing.
    Section [entries]: what the encryption writes for a group of destinations.
    Section [delivery]: the composition of encryption, the server's parser and
    decryption. *)

From S2P Require Import Prelude Types Primitives Proto ServiceId Curve Crypto IdentityKey SealedCert SealedMessage SessionState SessionRecord Stores Session SessionCipher SealedSender SealedMulti SealedSpec SealedParse.
Open Scope string_scope.
Open Scope list_scope.
Open Scope Z_scope.

(** ** Threads *)

Section parallel.
Context {A : Type} (f : A -> Result bytes).

(** A chunk of work: the outputs of its elements, one after the other. *)
Definition sequentially (l : list A) : Result bytes := outs ← mapM f l; Ok (concat outs).

Lemma sequentially_cons x l : sequentially (x :: l) = (a ← f x; b ← sequentially l; Ok (a ++ b)).
Proof. unfold sequentially. cbn. destruct (f x); cbn; [|done|done]. by destruct (mapM f l). Qed.

Lemma sequentially_app l1 l2 :
  sequentially (l1 ++ l2) = (a ← sequentially l1; b ← sequentially l2; Ok (a ++ b)).
Proof.
  induction l1 as [|x l1 IH]; cbn [app]; [by cbn; destruct (sequentially l2)|].
  rewrite !sequentially_cons, IH. destruct (f x); cbn; [|done|done].
  destruct (sequentially l1); cbn; [|done|done]. destruct (sequentially l2); cbn; [|done|done].
  by rewrite app_assoc.
Qed.

Lemma sequentially_no_panic l : (forall x, x ∈ l -> f x <> Panic) -> sequentially l <> Panic.
Proof.
  induction l as [|x l IH]; intros Hl; [done|]. rewrite sequentially_cons.
  pose proof (Hl x ltac:(by left)) as Hx. destruct (f x); cbn; [|done|done].
  assert (sequentially l <> Panic) as Hr by (apply IH; intros y Hy; apply Hl; by right).
  by destruct (sequentially l).
Qed.

Lemma sequentially_concat ls :
  (outs ← mapM (fun o => o) (sequentially <$> ls); Ok (concat outs)) = sequentially (concat ls).
Proof.
  induction ls as [|l ls IH]; [done|]. cbn [concat]. rewrite sequentially_app, <- IH, fmap_cons.
  cbn [mapM]. destruct (sequentially l); cbn; [|done|done]. by destruct (mapM _ _).
Qed.

Lemma process_in_parallel_eq par all :
  (forall x, x ∈ all -> f x <> Panic) -> process_in_parallel sequentially par all = sequentially all.
Proof.
  intros Hall. unfold process_in_parallel. set (n := Nat.max 6 _).
  destruct (_ || _) eqn:Hc; [done|]. apply orb_false_iff in Hc as [_ Hn]. apply Nat.leb_gt in Hn.
  pose proof (concat_chunks n all ltac:(unfold n; lia)) as Hcat.
  destruct (chunks n all) as [|first rest]; [cbn in Hcat; subst all; cbn in Hn; lia|].
  replace (existsb _ _) with false.
  2: { symmetry. apply not_true_is_false. intros (o & Ho & Hp)%existsb_exists. destruct o; try done.
       change (sequentially first :: (sequentially <$> rest)) with (sequentially <$> first :: rest) in Ho.
       apply list_elem_of_In, list_elem_of_fmap in Ho as (l & Ho & Hl). symmetry in Ho. revert Ho.
       apply sequentially_no_panic. intros x Hx. apply Hall. rewrite <- Hcat.
       apply list_elem_of_In, in_concat. exists l. by rewrite <- !list_elem_of_In. }
  rewrite <- Hcat. cbn [concat]. rewrite sequentially_app, <- sequentially_concat.
  destruct (sequentially first); cbn; [|done|done]. by destruct (mapM _ _).
Qed.
End parallel.

(** ** What is written for a group of destinations *)

Section entries.
Context {P : Primitives} {X : X25519Laws} {U : UuidFmt}.
Context {IA : Type} `{!IdentityKeyStore IA}.
Implicit Types (zs : list (ProtocolAddress * SessionRecord)) (d : ProtocolAddress) (s : SessionRecord).

Definition registration_id s : Z := match record_remote_registration_id s with Ok id => id | _ => 0 end.
Definition device_entry (ds : ProtocolAddress * SessionRecord) : DeviceId * Z :=
  (pa_device_id ds.1, registration_id ds.2).

(** A destination that can be sent to: a service id, a device, and a session
    with a registration id of 14 bits; the recipient's identity is known. *)
Definition sendable (ids : IA) (pair_of : string -> IdentityKeyPair) d s : Prop :=
  is_Some (parse_from_service_id_string (pa_name d)) /\
  1 <= device_id_value (pa_device_id d) <= 127 /\
  (exists id, record_remote_registration_id s = Ok id /\ 0 <= id <= VALID_REGISTRATION_ID_MASK) /\
  get_identity d ids = Ok (Some (ikp_identity_key (pair_of (pa_name d)))) /\
  generated_identity (pair_of (pa_name d)).

Lemma serialize_devices_ok ids pair_of zs :
  Forall (fun z => sendable ids pair_of z.1 z.2) zs ->
  serialize_devices zs = Ok (encode_devices (device_entry <$> zs)) /\ Forall device_ok (device_entry <$> zs).
Proof.
  induction zs as [|[d s] zs IH]; intros Hzs; [by split; [|constructor]|].
  apply Forall_cons in Hzs as [(_ & Hd & (id & Hid & Hr) & _) Hzs]. destruct (IH Hzs) as [He Hok]. cbn [fst snd] in *.
  assert (registration_id s = id) as Hreg by (unfold registration_id; by rewrite Hid).
  destruct (registration_id_bits id Hr) as (Hb1 & _).
  split.
  - cbn [serialize_devices]. rewrite Hid. cbn [map_err mbind outcome_bind]. rewrite Hb1, Z.eqb_refl. cbn [negb].
    destruct (Z.leb_spec id 65535); [|unfold VALID_REGISTRATION_ID_MASK in Hr; lia]. cbn [mbind outcome_bind].
    rewrite He. cbn [mbind outcome_bind]. rewrite fmap_cons. unfold device_entry at 2. cbn [fst snd]. rewrite Hreg.
    by destruct zs.
  - rewrite fmap_cons. constructor; [|done]. unfold device_entry, device_ok. cbn [fst snd]. by rewrite Hreg.
Qed.

(** The entry [x] is what a group of destinations with their sessions is
    sent: its devices, and the message key [m] encrypted to its identity. *)
Definition entry_for (sender : IdentityKeyPair) (e : KeyPair) (m : array 32) (pair_of : string -> IdentityKeyPair)
    zs (x : Entry) : Prop :=
  exists d s rest c tag,
    zs = (d, s) :: rest /\ parse_from_service_id_string (pa_name d) = Some (en_id x) /\
    en_devices x = device_entry <$> zs /\ en_key_material x = arr c ++ arr tag /\
    apply_agreement_xor e (IdentityKeyPair_public_key (pair_of (pa_name d))) Sending m = Ok c /\
    compute_authentication_tag sender (ikp_identity_key (pair_of (pa_name d))) Sending (kp_public_key e) c = Ok tag.

Lemma entry_for_ok ids sender e m pair_of zs x :
  Forall (fun z => sendable ids pair_of z.1 z.2) zs -> entry_for sender e m pair_of zs x -> entry_ok x.
Proof.
  intros Hzs (d & s & rest & c & tag & -> & _ & Hd & Hk & _). split.
  - rewrite Hd. by eapply serialize_devices_ok.
  - rewrite Hd, Hk, bool_decide_eq_false_2 by done. by rewrite length_app, !array_length.
Qed.

Lemma serialize_recipient_ok ids sender e m pair_of d s rest :
  generated_identity sender -> well_formed_pair e ->
  Forall (fun z => sendable ids pair_of z.1 z.2) ((d, s) :: rest) ->
  exists x, entry_for sender e m pair_of ((d, s) :: rest) x /\
    serialize_recipient sender e m (((d, s) :: rest).*1) (((d, s) :: rest).*2) (ikp_identity_key (pair_of (pa_name d)))
      = Ok (encode_entry x).
Proof.
  intros Hs He Hzs. pose proof (Forall_inv Hzs) as ((sid & Hsid) & _ & _ & _ & Hgen). cbn [fst] in Hsid, Hgen.
  destruct (agreement_xor_inverse e (KeyPair_from_IdentityKeyPair (pair_of (pa_name d))) m He Hgen) as (c & Hc & _).
  cbn [KeyPair_from_IdentityKeyPair kp_public_key] in Hc.
  destruct (authentication_tag_agree sender (pair_of (pa_name d)) (kp_public_key e) c Hs Hgen) as (t & Ht & _).
  exists (mkEntry sid (device_entry <$> (d, s) :: rest) (arr c ++ arr t)). split.
  { exists d, s, rest, c, t. by split_and!. }
  unfold serialize_recipient. cbn [fmap list_fmap lookup list_lookup expect fst snd mbind outcome_bind]. rewrite Hsid.
  cbn [ok_or mbind outcome_bind].
  change (zip (d :: rest.*1) (s :: rest.*2)) with (zip ((d, s) :: rest).*1 ((d, s) :: rest).*2).
  rewrite zip_fst_snd, (proj1 (serialize_devices_ok ids pair_of _ Hzs)). cbn [mbind outcome_bind].
  rewrite Hc. cbn [mbind outcome_bind]. rewrite Ht. cbn [mbind outcome_bind].
  unfold encode_entry. cbn [en_id en_devices en_key_material]. by rewrite bool_decide_eq_false_2.
Qed.
End entries.

(** ** The groups of destinations *)

Section groups.
Context {P : Primitives} {X : X25519Laws} {U : UuidFmt} `{CL : ChunkByLaws}.
Context {IA : Type} `{!IdentityKeyStore IA}.
Context (ids : IA) (sender : IdentityKeyPair) (e : KeyPair) (m : array 32) (pair_of : string -> IdentityKeyPair).
Context (Hsender : generated_identity sender) (He : well_formed_pair e).
Implicit Types (gs : list (list (nat * ProtocolAddress))) (zs : list (ProtocolAddress * SessionRecord)).

(** The work of one recipient: the body of the loop of [process_chunk]. *)
Definition recipient_bytes (destinations : list ProtocolAddress) (sessions : list SessionRecord)
    (x : IdentityKey * (nat * nat)) : Result bytes :=
  let '(their_identity, range) := x in
  ds ← slice_range range destinations; ss ← slice_range range sessions;
  serialize_recipient sender e m ds ss their_identity.

Lemma process_chunk_sequentially destinations sessions :
  process_chunk sender e m destinations sessions = sequentially (recipient_bytes destinations sessions).
Proof. done. Qed.

(** One group, at its place between the destinations before and after. *)
Lemma slice_middle {A} (before l after : list A) k n :
  length before = k -> length l = n -> slice_range (k, (k + n)%nat) (before ++ l ++ after) = Ok l.
Proof.
  intros <- <-. unfold slice_range. cbn [fst snd]. rewrite !length_app.
  destruct (Nat.leb_spec (length before) (length before + length l)); [|lia].
  destruct (Nat.leb_spec (length before + length l) (length before + (length l + length after))); [|lia]. cbn [andb].
  rewrite drop_app_length. f_equal. apply take_app_length'. lia.
Qed.

Lemma groups_ok gs : forall before zs,
  Forall (fun g => g <> []) gs ->
  concat gs = imap (fun i z => ((length before + i)%nat, z.1)) zs ->
  Forall (fun z => sendable ids pair_of z.1 z.2) zs ->
  let all := before ++ zs in
  exists irs zss xs,
    mapM (identity_key_and_range ids) gs = Ok irs /\
    zs = concat zss /\ Forall2 (fun g zg => g.*2 = zg.*1) gs zss /\
    Forall2 (entry_for sender e m pair_of) zss xs /\
    Forall2 (fun ir x => recipient_bytes all.*1 all.*2 ir = Ok (encode_entry x)) irs xs.
Proof.
  induction gs as [|g gs IH]; intros before zs Hne Hcat Hzs; cbv zeta.
  { cbn in Hcat. destruct zs; [|done]. exists [], [], []. by split_and!. }
  apply Forall_cons in Hne as [Hg Hne]. cbn [concat] in Hcat.
  set (n := length g). set (zg := take n zs). set (zr := drop n zs).
  assert (zs = zg ++ zr) as Hsplit by (symmetry; apply take_drop).
  assert (n <= length zs)%nat as Hn.
  { apply (f_equal length) in Hcat. rewrite length_app, length_imap in Hcat. unfold n. lia. }
  assert (length zg = n) as Hlg by (unfold zg; rewrite length_take; lia).
  rewrite Hsplit, imap_app in Hcat. apply app_inj_1 in Hcat as [Hgeq Hrest].
  2: { by rewrite length_imap, Hlg. }
  rewrite Hsplit, Forall_app in Hzs. destruct Hzs as [Hzg Hzr].
  destruct (IH (before ++ zg) zr Hne) as (irs & zss & xs & Hm & Hcz & Hgz & Hex & Hby).
  { rewrite Hrest. apply imap_ext. intros i z _. cbn. rewrite length_app. f_equal. lia. }
  { done. }
  clearbody zg zr. destruct zg as [|[d s] zt]; [cbn in Hlg; destruct g; [done|by cbn in Hlg]|].
  destruct (serialize_recipient_ok ids sender e m pair_of d s zt Hsender He Hzg) as (x & Hx & Hb).
  exists ((ikp_identity_key (pair_of (pa_name d)), (length before, (length before + n)%nat)) :: irs),
    (((d, s) :: zt) :: zss), (x :: xs).
  assert (g.*2 = ((d, s) :: zt).*1) as Hg2.
  { rewrite Hgeq, fmap_imap. apply list_eq. intros i. rewrite list_lookup_imap, list_lookup_fmap.
    by destruct (_ !! i). }
  split_and!.
  - cbn [mapM]. rewrite Hgeq. cbn [imap identity_key_and_range]. cbn [fst].
    pose proof (Forall_inv Hzg) as (_ & _ & _ & Hid & _). cbn [fst] in Hid. rewrite Hid. cbn [ok_or mbind outcome_bind].
    rewrite Hm. cbn [mbind outcome_bind]. rewrite Nat.add_0_r. do 5 f_equal.
    rewrite length_imap. cbn [length] in Hlg. lia.
  - by rewrite Hsplit, Hcz.
  - constructor; [done|done].
  - by constructor.
  - constructor.
    + unfold recipient_bytes. rewrite Hsplit, !fmap_app.
      rewrite (slice_middle _ (((d, s) :: zt).*1)) by (rewrite length_fmap; done). cbn [mbind outcome_bind].
      rewrite (slice_middle _ (((d, s) :: zt).*2)) by (rewrite length_fmap; done). exact Hb.
    + rewrite Hsplit. by rewrite app_assoc.
Qed.
End groups.

(** ** Delivery *)

Section delivery.
Context {P : Primitives} {X : X25519Laws} {U : UuidFmt} `{GL : AesGcmSivLaws} `{DL : LengthDelimiterLaws} `{CL : ChunkByLaws}.
Context `{!Prost sealed_sender.ServerCertificate, !Prost sealed_sender.ServerCertificateData}.
Context `{!Prost sealed_sender.SenderCertificate, !Prost sealed_sender.SenderCertificateData}.
Context `{!Prost sealed_sender.Message, !Prost sealed_sender.UnidentifiedSenderMessage}.
Context {IA IB : Type} `{!IdentityKeyStore IA, !IdentityKeyStore IB}.

Lemma decrypt_v2_sealed sender recipient (m : array 32) e c tag serialized ct u :
  generated_identity sender -> generated_identity recipient ->
  derive_e (E:=SignalProtocolError) (DerivedKeys_new (arr m)) = Ok e -> well_formed_pair e ->
  apply_agreement_xor e (IdentityKeyPair_public_key recipient) Sending m = Ok c ->
  compute_authentication_tag sender (ikp_identity_key recipient) Sending (kp_public_key e) c = Ok tag ->
  seal_content (DerivedKeys_new (arr m)) serialized = Ok ct ->
  USMC_deserialize serialized = Ok u -> sdc_key (usmc_sender u) = IdentityKeyPair_public_key sender ->
  decrypt_v2 recipient (kp_public_key e) c tag ct = Ok u.
Proof.
  intros Hs Hr He Hwf Hc Ht Hct Hu Hk. unfold decrypt_v2.
  destruct (agreement_xor_inverse e (KeyPair_from_IdentityKeyPair recipient) m Hwf Hr) as (c' & Hc' & Hm).
  cbn [KeyPair_from_IdentityKeyPair kp_public_key] in Hc'. unfold IdentityKeyPair_public_key in Hc.
  rewrite Hc in Hc'. injection Hc' as <-. rewrite Hm. cbn [mbind outcome_bind]. rewrite He. cbn [mbind outcome_bind].
  rewrite PublicKey_eqb_refl. cbn [negb].
  unfold seal_content in Hct. destruct (gcm_siv_encrypt _ _ _ _) as [[ctext gtag]|] eqn:Henc; [|done].
  cbn in Hct. injection Hct as <-. rewrite (gcm_siv_round_trip _ _ _ _ _ _ Henc). cbn [ok_or mbind outcome_bind].
  rewrite Hu. cbn [mbind outcome_bind]. rewrite Hk.
  destruct (authentication_tag_agree sender recipient (kp_public_key e) c Hs Hr) as (t & Ht1 & Ht2).
  rewrite Ht in Ht1. injection Ht1 as <-.
  replace (mkIdentityKey (IdentityKeyPair_public_key sender)) with (ikp_identity_key sender)
    by (unfold IdentityKeyPair_public_key; by destruct (ikp_identity_key sender)).
  rewrite Ht2. cbn [mbind outcome_bind]. by rewrite bool_decide_eq_true_2.
Qed.

(** The pieces that the server puts together are read as the second form. *)
Lemma deserialize_received k (c : array 32) (tag : array 16) ct `{!Prost sealed_sender.UnidentifiedSenderMessage} :
  UnidentifiedSenderMessage_deserialize
    (concat [[SEALED_SENDER_V2_UUID_FULL_VERSION]; arr c ++ arr tag; public_key_bytes k ++ ct]) = Ok (V2 k c tag ct).
Proof.
  destruct k as [k]. cbn [concat public_key_bytes app]. rewrite app_nil_r.
  unfold UnidentifiedSenderMessage_deserialize.
  change (Z.shiftr (u8 SEALED_SENDER_V2_UUID_FULL_VERSION) 4) with 2. cbn [Z.eqb orb SEALED_SENDER_V1_MAJOR_VERSION SEALED_SENDER_V2_MAJOR_VERSION Pos.eqb].
  pose proof (array_length c) as Hlc. pose proof (array_length tag) as Hlt. pose proof (array_length k) as Hlk.
  rewrite !length_app, Hlc, Hlt, Hlk. unfold MESSAGE_KEY_LEN, AUTH_TAG_LEN, SSV2_PUBLIC_KEY_LEN.
  destruct (Nat.ltb_spec (32 + 16 + (32 + length ct)) (32 + 16 + 32)); [lia|].
  assert (forall n l (a : array n) b, slice (length l) (length l + n) (l ++ arr a ++ b) = arr a) as Hsl.
  { intros n l a b. unfold slice. rewrite drop_app_length. apply take_app_length'. rewrite array_length. lia. }
  pose proof (Hsl 32%nat [] c (arr tag ++ arr k ++ ct)) as Hsl1.
  pose proof (Hsl 16%nat (arr c) tag (arr k ++ ct)) as Hsl2. rewrite Hlc in Hsl2.
  pose proof (Hsl 32%nat (arr c ++ arr tag) k ct) as Hsl3. rewrite length_app, Hlc, Hlt in Hsl3.
  cbn [length app Nat.add] in Hsl1, Hsl2, Hsl3. rewrite <- !app_assoc in *. rewrite Hsl1, Hsl2, Hsl3.
  unfold from_djb_public_key_bytes, PUBLIC_KEY_LENGTH. rewrite try_array_arr. cbn [map_err mbind outcome_bind].
  rewrite !to_array_id. do 2 f_equal.
  replace (arr c ++ arr tag ++ arr k ++ ct) with ((arr c ++ arr tag ++ arr k) ++ ct) by (by rewrite <- !app_assoc).
  apply drop_app_length'. by rewrite !length_app, Hlc, Hlt, Hlk.
Qed.

(** An excluded recipient. *)
Definition excluded_entry (s : ServiceId) : Entry := mkEntry s [] [].

(** The service id of a group. *)
Definition group_id (g : list (nat * ProtocolAddress)) : option ServiceId :=
  '(_, d) ← head g; parse_from_service_id_string (pa_name d).

Lemma encode_excluded excluded :
  concat ((fun excluded => arr (service_id_fixed_width_binary excluded) ++ [Byte.x00]) <$> excluded)
  = concat (encode_entry <$> (excluded_entry <$> excluded)).
Proof.
  induction excluded as [|s excluded IH]; [done|]. cbn [fmap list_fmap concat]. rewrite IH. f_equal.
Qed.

(** All that the encryption writes, for destinations that can be sent to. *)
Lemma multi_recipient_encrypt_ok (ids : IA) sender pair_of par destinations sessions excluded usmc rng :
  get_identity_key_pair ids = Ok sender -> generated_identity sender ->
  Forall2 (sendable ids pair_of) destinations sessions ->
  Z.of_nat (length (usmc_serialized usmc)) <= GCM_SIV_P_MAX ->
  let '(m, rng') := random_array 32 rng in
  exists e ct zss xs,
    derive_e (E:=SignalProtocolError) (DerivedKeys_new (arr m)) = Ok e /\ well_formed_pair e /\
    seal_content (DerivedKeys_new (arr m)) (usmc_serialized usmc) = Ok ct /\
    zip destinations sessions = concat zss /\
    Forall2 (fun g zg => g.*2 = zg.*1) (chunk_by_name (imap pair destinations)) zss /\
    Forall2 (entry_for sender e m pair_of) zss xs /\
    sealed_sender_multi_recipient_encrypt par destinations sessions excluded usmc ids rng =
      (Ok (encode_sent (xs ++ (excluded_entry <$> excluded)) (public_key_bytes (kp_public_key e) ++ ct)), rng').
Proof.
  intros Hids Hs Hds Hlen. destruct (random_array 32 rng) as [m rng'] eqn:Hrng.
  destruct (@derive_e_ok P X SignalProtocolError (DerivedKeys_new (arr m))) as (e & He & Hwf).
  destruct (gcm_siv_encrypts (derive_k (DerivedKeys_new (arr m))) (zeros 12) [] _ Hlen) as [[c gt] Henc].
  assert (seal_content (DerivedKeys_new (arr m)) (usmc_serialized usmc) = Ok (c ++ arr gt)) as Hct
    by (unfold seal_content; by rewrite Henc).
  pose proof (Forall2_length _ _ _ Hds) as Hl.
  assert (Forall (fun z => sendable ids pair_of z.1 z.2) (zip destinations sessions)) as Hz.
  { clear -Hds. induction Hds; cbn; by constructor. }
  assert ((zip destinations sessions).*1 = destinations) as Hz1 by (apply fst_zip; lia).
  assert ((zip destinations sessions).*2 = sessions) as Hz2 by (apply snd_zip; lia).
  destruct (groups_ok ids sender e m pair_of Hs Hwf (chunk_by_name (imap pair destinations)) []
    (zip destinations sessions)) as (irs & zss & xs & Hm & Hcat & Hg & Hx & Hb).
  { apply Forall_forall. intros g Hin. by apply chunk_by_same_name in Hin as [? _]. }
  { rewrite chunk_by_concat. rewrite <- Hz1 at 1. apply list_eq. intros i.
    rewrite !list_lookup_imap, list_lookup_fmap. by destruct (_ !! i). }
  { done. }
  cbv zeta in Hb. cbn [app] in Hb. rewrite Hz1, Hz2 in Hb.
  exists e, (c ++ arr gt), zss, xs. split_and!; try done.
  unfold sealed_sender_multi_recipient_encrypt. rewrite Hl, Nat.eqb_refl. cbn [negb].
  rewrite lift_bind, Hids, M_bind_eq, Hrng, lift_bind, He, lift_bind, Hct, lift_bind, Hm.
  rewrite process_chunk_sequentially, process_in_parallel_eq.
  2: { intros ir Hin. apply list_elem_of_lookup in Hin as [i Hi].
       destruct (Forall2_lookup_l _ _ _ _ _ Hb Hi) as (x & _ & ->). done. }
  assert (sequentially (recipient_bytes sender e m destinations sessions) irs = Ok (concat (encode_entry <$> xs))) as ->.
  { unfold sequentially. assert (mapM (recipient_bytes sender e m destinations sessions) irs = Ok (encode_entry <$> xs)) as ->.
    { clear -Hb. induction Hb as [|ir x irs xs H Hb IH]; [done|]. cbn [mapM]. by rewrite H, IH. }
    done. }
  rewrite lift_bind. unfold mret, M_ret. f_equal.
  unfold encode_sent. rewrite encode_excluded, length_app, length_fmap, fmap_app, concat_app.
  rewrite (Forall2_length _ _ _ Hb). by rewrite <- !app_assoc.
Qed.

(** The entry of a destination. *)
Lemma group_same_name (gs : list (list (nat * ProtocolAddress))) (zss : list (list (ProtocolAddress * SessionRecord))) zg d d' :
  Forall2 (fun g zg => g.*2 = zg.*1) gs zss ->
  (forall g, g ∈ gs -> forall x y, x ∈ g -> y ∈ g -> pa_name x.2 = pa_name y.2) ->
  zg ∈ zss -> d ∈ zg.*1 -> d' ∈ zg.*1 -> pa_name d = pa_name d'.
Proof.
  intros Hg Hname [i Hi]%list_elem_of_lookup. destruct (Forall2_lookup_r _ _ _ _ _ Hg Hi) as (g & Hgi & <-).
  intros (x & -> & Hx)%list_elem_of_fmap (y & -> & Hy)%list_elem_of_fmap. apply (Hname g); [by eapply list_elem_of_lookup_2|done|done].
Qed.
Lemma destination_entry zss (gs : list (list (nat * ProtocolAddress))) xs (sender : IdentityKeyPair) e m pair_of d s :
  Forall2 (fun g zg => g.*2 = zg.*1) gs zss ->
  (forall g, g ∈ gs -> forall x y, x ∈ g -> y ∈ g -> pa_name x.2 = pa_name y.2) ->
  Forall2 (entry_for sender e m pair_of) zss xs -> (d, s) ∈ concat zss ->
  exists x c tag, x ∈ xs /\ parse_from_service_id_string (pa_name d) = Some (en_id x) /\
    device_entry (d, s) ∈ en_devices x /\ en_key_material x = arr c ++ arr tag /\
    apply_agreement_xor e (IdentityKeyPair_public_key (pair_of (pa_name d))) Sending m = Ok c /\
    compute_authentication_tag sender (ikp_identity_key (pair_of (pa_name d))) Sending (kp_public_key e) c = Ok tag.
Proof.
  intros Hg Hname Hx Hin. apply list_elem_of_In, in_concat in Hin as (zg & Hzg & Hin).
  apply list_elem_of_In in Hzg, Hin. apply list_elem_of_lookup in Hzg as [i Hi].
  destruct (Forall2_lookup_l _ _ _ _ _ Hx Hi) as (x & Hxi & (d0 & s0 & rest & c & tag & Hz & Hsid & Hdev & Hk & Hc & Ht)).
  assert (pa_name d0 = pa_name d) as Hn.
  { eapply (group_same_name gs zss zg); try done; [by eapply list_elem_of_lookup_2|rewrite Hz; by left|].
    apply list_elem_of_fmap. by exists (d, s). }
  exists x, c, tag. rewrite <- Hn. split_and!; try done; [by eapply list_elem_of_lookup_2|].
  rewrite Hdev. apply list_elem_of_fmap. by exists (d, s).
Qed.

Lemma group_ids zss (gs : list (list (nat * ProtocolAddress))) xs (sender : IdentityKeyPair) e m pair_of :
  Forall2 (fun g zg => g.*2 = zg.*1) gs zss -> Forall2 (entry_for sender e m pair_of) zss xs ->
  group_id <$> gs = Some <$> (en_id <$> xs).
Proof.
  intros Hg. revert xs. induction Hg as [|g zg gs zss Hgz Hg IH]; intros xs Hx; [by inversion Hx|].
  apply Forall2_cons_inv_l in Hx as (x & xs' & (d & s & rest & c & tag & -> & Hsid & _) & Hx & ->).
  cbn [fmap list_fmap]. rewrite (IH _ Hx). f_equal.
  destruct g as [|[i d'] g]; [done|]. cbn in Hgz. injection Hgz as -> _. exact Hsid.
Qed.

Lemma all_entries_ok (ids : IA) sender e m pair_of zss xs excluded :
  Forall (fun z => sendable ids pair_of z.1 z.2) (concat zss) -> Forall2 (entry_for sender e m pair_of) zss xs ->
  Forall entry_ok (xs ++ (excluded_entry <$> excluded)).
Proof.
  intros Hsend Hx. rewrite Forall_app. split.
  - induction Hx as [|zg x zss xs Hzx Hx IH]; [done|]. cbn [concat] in Hsend.
    apply Forall_app in Hsend as [Hzg Hsend]. constructor; [|by apply IH].
    by apply (entry_for_ok ids sender e m pair_of zg).
  - apply Forall_fmap, Forall_true. intros sid. split; [by constructor|done].
Qed.

Lemma entries_le sender e m pair_of zss xs :
  Forall2 (entry_for sender e m pair_of) zss xs -> (length xs <= length (concat zss))%nat.
Proof.
  intros Hx. induction Hx as [|zg x zss xs (d & s & rest & ? & ? & -> & _) Hx IH]; cbn; [done|].
  rewrite length_app. lia.
Qed.

Lemma recipients_at_elem xs x a :
  x ∈ xs -> exists b, recipient_at b x ∈ recipients_at a xs.
Proof.
  intros Hx. revert a. induction Hx as [x xs|x y xs Hx IH]; intros a; cbn [recipients_at].
  - exists a. by left.
  - destruct (IH (a + Z.of_nat (length (encode_entry y)))) as [b Hb]. exists b. by right.
Qed.

Lemma recipients_at_entry xs a y : y ∈ recipients_at a xs -> exists x b, x ∈ xs /\ y = recipient_at b x.
Proof.
  revert a. induction xs as [|x xs IH]; intros a; cbn [recipients_at]; [by intros ?%elem_of_nil|].
  intros [->|(x' & b & ? & ?)%IH]%elem_of_cons; [exists x, a|exists x', b]; (split; [|done]); [by left|by right].
Qed.

(** The destinations of a recipient, in their order. *)
Definition sent_to (sid : ServiceId) (zs : list (ProtocolAddress * SessionRecord)) : list (ProtocolAddress * SessionRecord) :=
  filter (fun z => parse_from_service_id_string (pa_name z.1) = Some sid) zs.

Lemma sent_to_all sid zs : Forall (fun z => parse_from_service_id_string (pa_name z.1) = Some sid) zs -> sent_to sid zs = zs.
Proof. unfold sent_to. induction 1 as [|z zs Hz _ IH]; [done|]. by rewrite filter_cons_True, IH. Qed.
Lemma sent_to_none sid sid' zs : Forall (fun z => parse_from_service_id_string (pa_name z.1) = Some sid') zs -> sid' <> sid -> sent_to sid zs = [].
Proof. unfold sent_to. induction 1 as [|z zs Hz _ IH]; intros Hne; [done|]. rewrite filter_cons_False; [by apply IH|congruence]. Qed.
Lemma sent_to_other sid zss xs :
  Forall2 (fun zg x => Forall (fun z => parse_from_service_id_string (pa_name z.1) = Some (en_id x)) zg) zss xs ->
  sid ∉ en_id <$> xs -> sent_to sid (concat zss) = [].
Proof.
  induction 1 as [|zg x zss xs Hzg _ IH]; [done|]. cbn [fmap list_fmap concat]. rewrite not_elem_of_cons. intros [Hne Hin].
  unfold sent_to in *. rewrite filter_app, IH by done. change (sent_to sid zg ++ [] = []). by rewrite (sent_to_none sid (en_id x) zg).
Qed.
Lemma sent_to_group zss xs i zg x :
  Forall2 (fun zg x => Forall (fun z => parse_from_service_id_string (pa_name z.1) = Some (en_id x)) zg) zss xs ->
  NoDup (en_id <$> xs) -> zss !! i = Some zg -> xs !! i = Some x -> sent_to (en_id x) (concat zss) = zg.
Proof.
  intros Hzx. revert i. induction Hzx as [|zg' x' zss xs Hzg Hall IH]; intros i; [done|]. cbn [fmap list_fmap concat].
  rewrite NoDup_cons. intros [Hx Hnd]. unfold sent_to. rewrite filter_app. destruct i as [|i]; cbn.
  - intros [= ->] [= ->]. change (sent_to (en_id x) zg ++ sent_to (en_id x) (concat zss) = zg).
    by rewrite (sent_to_other _ zss xs), sent_to_all, app_nil_r.
  - intros Hi Hxi. change (sent_to (en_id x) zg' ++ sent_to (en_id x) (concat zss) = zg).
    rewrite (sent_to_none (en_id x) (en_id x') zg'); [by eapply IH|done|].
    intros Heq. apply Hx. rewrite Heq. apply list_elem_of_fmap. exists x. split; [done|by eapply list_elem_of_lookup_2].
Qed.
(** What an entry's destinations have in common. *)
Lemma group_names zss (gs : list (list (nat * ProtocolAddress))) xs (sender : IdentityKeyPair) e m pair_of :
  Forall2 (fun g zg => g.*2 = zg.*1) gs zss ->
  (forall g, g ∈ gs -> forall x y, x ∈ g -> y ∈ g -> pa_name x.2 = pa_name y.2) ->
  Forall2 (entry_for sender e m pair_of) zss xs ->
  Forall2 (fun zg x => Forall (fun z => parse_from_service_id_string (pa_name z.1) = Some (en_id x)) zg) zss xs.
Proof.
  intros Hg Hname Hx. apply Forall2_same_length_lookup. split; [by eapply Forall2_length|]. intros i zg x Hzi Hxi.
  destruct (Forall2_lookup_l _ _ _ _ _ Hx Hzi) as (x0 & Hx0 & (d0 & s0 & rest & c & tag & Hz & Hsid & _)).
  rewrite Hxi in Hx0. injection Hx0 as <-. apply Forall_forall. intros [d s] Hin. rewrite <- Hsid. cbn. f_equal.
  symmetry. eapply (group_same_name gs zss zg d0 d); try done; [by eapply list_elem_of_lookup_2|rewrite Hz; by left|].
  apply list_elem_of_fmap. by exists (d, s).
Qed.

(** C19: a message sealed for many recipients reaches each of them.  For
    destinations whose sessions and identities are known, at most one group of
    destinations per service id, and excluded recipients that are not among
    them, encryption succeeds on any number of threads; the server parses the
    result into these recipients in order, each with exactly the devices and registration
    ids of its destinations, in their order; what the server cuts out
    for a recipient opens, with the recipient's identity, to the content; and
    an excluded recipient has no devices. *)
Theorem multi_recipient_delivers (ids : IA) sender pair_of par destinations sessions excluded usmc u rng a :
  get_identity_key_pair ids = Ok sender -> generated_identity sender ->
  Forall2 (sendable ids pair_of) destinations sessions ->
  NoDup ((group_id <$> chunk_by_name (imap pair destinations)) ++ (Some <$> excluded)) ->
  Z.of_nat (length destinations + length excluded) <= u32_max ->
  Z.of_nat (length (usmc_serialized usmc)) <= GCM_SIV_P_MAX ->
  USMC_deserialize (usmc_serialized usmc) = Ok u ->
  sdc_key (usmc_sender u) = IdentityKeyPair_public_key sender ->
  exists c rng' sent,
    sealed_sender_multi_recipient_encrypt par destinations sessions excluded usmc ids rng = (Ok c, rng') /\
    SentMessage_parse (mkSlice a c) = Ok sent /\
    Some <$> (recipients sent).*1 = (group_id <$> chunk_by_name (imap pair destinations)) ++ (Some <$> excluded) /\
    (forall sid r, (sid, r) ∈ recipients sent -> devices r = device_entry <$> sent_to sid (zip destinations sessions)) /\
    (forall d s, (d, s) ∈ zip destinations sessions ->
       exists sid r, parse_from_service_id_string (pa_name d) = Some sid /\ (sid, r) ∈ recipients sent /\
         (pa_device_id d, registration_id s) ∈ devices r /\
         forall store : IB, get_identity_key_pair store = Ok (pair_of (pa_name d)) ->
           sealed_sender_decrypt_to_usmc (concat (received_message_parts_for_recipient sent r)) store = Ok u) /\
    (forall sid, sid ∈ excluded -> exists r, (sid, r) ∈ recipients sent /\ devices r = []).
Proof.
  intros Hids Hs Hds Hnd Hcount Hlen Hu Hk.
  pose proof (multi_recipient_encrypt_ok ids sender pair_of par destinations sessions excluded usmc rng
    Hids Hs Hds Hlen) as Henc.
  destruct (random_array 32 rng) as [m rng']. destruct Henc as (e & ct & zss & xs & He & Hwf & Hct & Hz & Hg & Hx & Henc).
  rewrite (group_ids _ _ _ _ _ _ _ Hg Hx) in Hnd |- *.
  assert (Forall (fun z => sendable ids pair_of z.1 z.2) (concat zss)) as Hsend.
  { rewrite <- Hz. clear -Hds. induction Hds; cbn; by constructor. }
  set (all := xs ++ (excluded_entry <$> excluded)).
  assert (Some <$> (en_id <$> all) = (Some <$> (en_id <$> xs)) ++ (Some <$> excluded)) as Hidall.
  { unfold all. rewrite !fmap_app, <- (list_fmap_compose excluded_entry). by rewrite list_fmap_id. }
  destruct (SentMessage_parse_encoded all (public_key_bytes (kp_public_key e) ++ ct) a) as (start & shared & Hparse).
  { by apply (all_entries_ok ids sender e m pair_of zss). }
  { apply (NoDup_fmap_1 Some). by rewrite Hidall. }
  { unfold all. rewrite length_app, length_fmap.
    pose proof (entries_le _ _ _ _ _ _ Hx) as Hle.
    rewrite <- Hz, length_zip in Hle. lia. }
  { rewrite length_app. destruct (kp_public_key e) as [k]. cbn. rewrite array_length. unfold SSV2_PUBLIC_KEY_LEN. lia. }
  eexists _, rng', _. split_and!; [exact Henc|exact Hparse| | | |].
  - cbn [recipients]. rewrite recipients_at_ids. exact Hidall.
  - cbn [recipients]. intros sid r (x & b & Hxall & [= -> ->])%recipients_at_entry. cbn [devices recipient_at snd]. rewrite Hz.
    assert (NoDup (en_id <$> all)) as Hall by (apply (NoDup_fmap_1 Some); by rewrite Hidall).
    unfold all in Hall. rewrite fmap_app, NoDup_app, <- list_fmap_compose in Hall. destruct Hall as (Hndx & Hdis & _).
    assert (Forall2 (fun zg x => Forall (fun z => parse_from_service_id_string (pa_name z.1) = Some (en_id x)) zg) zss xs) as Hnames.
    { eapply group_names; [exact Hg|intros g Hgin; by apply chunk_by_same_name in Hgin as [_ ?]|exact Hx]. }
    apply elem_of_app in Hxall as [[i Hi]%list_elem_of_lookup|(sid & -> & Hin)%list_elem_of_fmap].
    + destruct (Forall2_lookup_r _ _ _ _ _ Hx Hi) as (zg & Hzg & (? & ? & ? & ? & ? & _ & _ & Hdev & _)).
      by rewrite (sent_to_group zss xs i zg x).
    + rewrite (sent_to_other _ zss xs); [done|done|]. intros Hc. apply (Hdis _ Hc). apply list_elem_of_fmap. by exists sid.
  - intros d s Hin. rewrite Hz in Hin.
    destruct (destination_entry zss _ xs sender e m pair_of d s Hg) as (x & c & tag & Hxin & Hsid & Hdev & Hkm & Hc & Ht);
      [intros g Hgin; by apply chunk_by_same_name in Hgin as [_ ?]|done|done|].
    destruct (recipients_at_elem all x start) as [b Hb]; [apply elem_of_app; by left|].
    exists (en_id x), (recipient_at b x).2. split_and!; [done|exact Hb|done|].
    intros store Hstore. unfold received_message_parts_for_recipient, recipient_at. cbn [snd c_and_at shared_bytes sl_data].
    rewrite bool_decide_eq_false_2 by (intros E0; rewrite E0 in Hdev; by apply elem_of_nil in Hdev).
    cbn [sl_data]. rewrite Hkm. unfold sealed_sender_decrypt_to_usmc. rewrite Hstore. cbn [mbind outcome_bind].
    rewrite deserialize_received. cbn [mbind outcome_bind].
    pose proof (proj1 (Forall_forall _ _) Hsend _ Hin) as (_ & _ & _ & _ & Hgen). cbn [fst] in Hgen.
    by apply (decrypt_v2_sealed sender (pair_of (pa_name d)) m e c tag (usmc_serialized usmc) ct u).
  - intros sid Hin. destruct (recipients_at_elem all (excluded_entry sid) start) as [b Hb].
    { apply elem_of_app. right. apply list_elem_of_fmap. eauto. }
    by exists (recipient_at b (excluded_entry sid)).2.
Qed.
End delivery.

(** ** The number of threads does not matter *)

Section threads.
Context {P : Primitives} {U : UuidFmt} {G : AesGcmSiv} {D : LengthDelimiter} `{CL : ChunkByLaws}.
Context {IA : Type} `{!IdentityKeyStore IA}.
Implicit Types (destinations : list ProtocolAddress) (sessions : list SessionRecord).

Lemma record_id_no_panic s : record_remote_registration_id s <> Panic.
Proof. unfold record_remote_registration_id, current_or. by destruct (current_session s). Qed.

Lemma agreement_no_panic k pk : agreement k pk <> Panic.
Proof. unfold agreement. destruct (agreement_ok k pk) as [x ->]. done. Qed.

Lemma masked_fits id : Z.land id VALID_REGISTRATION_ID_MASK = id -> id <= 65535.
Proof.
  intros <-. change VALID_REGISTRATION_ID_MASK with (Z.ones 14). rewrite Z.land_ones by lia.
  pose proof (Z.mod_pos_bound id (2 ^ 14) ltac:(lia)). lia.
Qed.

Lemma serialize_devices_no_panic zs : serialize_devices zs <> Panic.
Proof.
  induction zs as [|[d s] zs IH]; [done|]. cbn [serialize_devices].
  pose proof (record_id_no_panic s) as Hs. destruct (record_remote_registration_id s) as [id|e|];
    cbn [map_err mbind outcome_bind]; [|done|done].
  destruct (Z.eqb_spec (Z.land id VALID_REGISTRATION_ID_MASK) id) as [Hid%masked_fits|]; cbn [negb]; [|done].
  destruct (Z.leb_spec id 65535); [|lia]. cbn [mbind outcome_bind].
  destruct (serialize_devices zs); cbn; done.
Qed.

Lemma serialize_recipient_no_panic sender e m ds ss k : ds <> [] -> serialize_recipient sender e m ds ss k <> Panic.
Proof.
  destruct ds as [|d ds]; [done|]. intros _. unfold serialize_recipient. cbn [lookup list_lookup expect mbind outcome_bind].
  destruct (parse_from_service_id_string _); cbn [ok_or mbind outcome_bind]; [|done].
  pose proof (serialize_devices_no_panic (zip (d :: ds) ss)) as Hd.
  destruct (serialize_devices _); cbn [mbind outcome_bind]; [|done|done].
  unfold apply_agreement_xor, compute_authentication_tag.
  pose proof (agreement_no_panic (kp_private_key e) (ik_public_key k)) as H1.
  destruct (agreement (kp_private_key e) _); cbn [mbind outcome_bind]; [|done|done].
  pose proof (agreement_no_panic (ikp_private sender) (ik_public_key k)) as H2.
  by destruct (agreement (ikp_private sender) _).
Qed.

(** The ranges of the groups are not empty and inside the destinations. *)
Lemma ranges_inside (ids : IA) gs : forall n (l : list ProtocolAddress) irs,
  Forall (fun g => g <> []) gs -> concat gs = imap (fun i d => ((n + i)%nat, d)) l ->
  mapM (identity_key_and_range ids) gs = Ok irs ->
  Forall (fun ir => (ir.2.1 < ir.2.2)%nat /\ (ir.2.2 <= n + length l)%nat) irs.
Proof.
  induction gs as [|g gs IH]; intros n l irs Hne Hcat; cbn [mapM]; [by intros [= <-]|].
  apply Forall_cons in Hne as [Hg Hne]. intros (ir & Hir & (irs' & Hirs & [= <-])%bind_Ok)%bind_Ok.
  cbn [concat] in Hcat. pose proof (f_equal length Hcat) as Hl. rewrite length_app, length_imap in Hl.
  rewrite <- (take_drop (length g) l), imap_app in Hcat.
  apply app_inj_1 in Hcat as [Hgeq Hrest]; [|rewrite length_imap, length_take; lia].
  constructor.
  - destruct g as [|[i d] g]; [done|]. cbn [identity_key_and_range] in Hir.
    apply bind_Ok in Hir as (k & _ & (k' & _ & [= <-])%bind_Ok). cbn [fst snd].
    assert (i = n) as ->; [|cbn [length] in Hl; lia].
    destruct l as [|x l]; [cbn in Hl; lia|]. cbn in Hgeq. injection Hgeq as -> _ _. lia.
  - eapply Forall_impl; [apply (IH (n + length g)%nat (drop (length g) l) irs' Hne)|].
    + rewrite Hrest. apply imap_ext. intros i d _. cbn. f_equal. rewrite length_take. lia.
    + exact Hirs.
    + cbn beta. intros x [? ?]. rewrite length_drop in *. lia.
Qed.

Lemma recipient_bytes_no_panic sender e m destinations sessions ir :
  length destinations = length sessions ->
  (ir.2.1 < ir.2.2)%nat /\ (ir.2.2 <= length destinations)%nat ->
  recipient_bytes sender e m destinations sessions ir <> Panic.
Proof.
  destruct ir as [k [i j]]. cbn [fst snd]. intros Hl [Hij Hj]. unfold recipient_bytes, slice_range. cbn [fst snd].
  rewrite <- Hl. destruct (Nat.leb_spec i j); [|lia]. destruct (Nat.leb_spec j (length destinations)); [|lia].
  cbn [andb mbind outcome_bind]. apply serialize_recipient_no_panic.
  intros E0. apply (f_equal length) in E0. rewrite length_take, length_drop in E0. cbn in E0. lia.
Qed.

(** The number of threads never matters: on any input, successful or not,
    the result and the error are those of a single thread. *)
Theorem parallelism_irrelevant par destinations sessions excluded usmc (ids : IA) rng :
  sealed_sender_multi_recipient_encrypt par destinations sessions excluded usmc ids rng =
  sealed_sender_multi_recipient_encrypt 1 destinations sessions excluded usmc ids rng.
Proof.
  unfold sealed_sender_multi_recipient_encrypt.
  destruct (Nat.eqb_spec (length destinations) (length sessions)) as [Hl|]; [cbn [negb]|done].
  rewrite !lift_bind. destruct (get_identity_key_pair ids) as [sender| |]; [|done|done].
  rewrite !M_bind_eq. destruct (random_array 32 rng) as [m rng'].
  rewrite !lift_bind. destruct (derive_e _) as [e| |]; [|done|done].
  rewrite !lift_bind. destruct (seal_content _ _) as [ct| |]; [|done|done].
  rewrite !lift_bind. destruct (mapM _ _) as [irs| |] eqn:Hm; [|done|done].
  rewrite !lift_bind, process_chunk_sequentially, !process_in_parallel_eq; [done|..].
  all: intros ir Hin; apply recipient_bytes_no_panic; [done|].
  all: pose proof (ranges_inside ids (chunk_by_name (imap pair destinations)) 0 destinations irs) as Hr.
  all: apply (proj1 (Forall_forall _ _) (Hr ltac:(apply Forall_forall; intros g Hg; by apply chunk_by_same_name in Hg as [? _])
         ltac:(by rewrite chunk_by_concat) Hm) _ Hin).
Qed.
End threads.
