(* ===== verification/ChainRefinement.v ===== *)
(** * ChainRefinement: the receiving chain implements the key stream

    [refines s pk b st] says that session [s] stores, for ratchet key [pk], the
    chain that starts from chain key [b] and stands where the abstract stream
    [st] stands.  [get_or_create_message_key] then does what [stream_get] does:
    the key it grants is the one derived from [b] at that counter, and the new
    session refines the new stream. *)

From S2P Require Import Prelude Types Primitives Proto Curve IdentityKey RatchetKeys SessionState KeyStream SessionCipher.
Open Scope string_scope.
Open Scope list_scope.
Open Scope Z_scope.

Section refinement.
Context {P : Primitives}.

(** The chain key at counter [n] of the chain that starts at [b], and the
    stored form of the message key there. *)
Definition chain_key_at (b : array 32) (n : Z) : ChainKey :=
  mkChainKey (chain_after (Z.to_nat n) b) n.
Definition message_key_at (b : array 32) (n : Z) : MessageKeyGenerator :=
  Seed (seed_at b (Z.to_nat n)) n.
Definition stored_key (b : array 32) (n : Z) : storage.MessageKey := into_pb (message_key_at b n).

Definition chain_stream (b : array 32) (c : storage.Chain) (st : stream) : Prop :=
  storage.chain_chain_key c = Some (chain_key_pb (chain_key_at b (next st))) /\
  storage.chain_message_keys c = stored_key b <$> avail st.

Definition refines (s : SessionState) (pk : PublicKey) (b : array 32) (st : stream) : Prop :=
  stream_ok st /\ exists c i, has_chain s pk c i /\ chain_stream b c st.

Lemma message_keys_at b n : message_keys (chain_key_at b n) = message_key_at b n.
Proof. done. Qed.

Lemma next_chain_key_at b n :
  0 <= n < u32_max -> next_chain_key (chain_key_at b n) = chain_key_at b (n + 1).
Proof.
  intros Hn. unfold next_chain_key, chain_key_at, calculate_base_material.
  cbn [chain_key_key chain_key_index]. rewrite u32_add_small by lia.
  replace (Z.to_nat (n + 1)) with (S (Z.to_nat n)) by lia. done.
Qed.

Lemma set_chain_same s pk c i : has_chain s pk c i -> set_chain i c s = s.
Proof.
  intros (_ & Hl & _)%find_receiver_chain_Some. rewrite Nat.sub_0_r in Hl.
  unfold set_chain, upd, Upd.put_receiver_chains. rewrite list_insert_id by done. by destruct s as [[]].
Qed.

Lemma set_message_keys_same c : Upd.put_message_keys (storage.chain_message_keys c) c = c.
Proof. by destruct c. Qed.

Lemma stored_key_push b n l :
  push_message_key (into_pb (message_key_at b n)) (stored_key b <$> l) =
  stored_key b <$> keep (n :: l).
Proof. unfold push_message_key, keep. by rewrite fmap_take. Qed.

Lemma keep_length l : (length (keep l) <= MAX_MESSAGE_KEYS)%nat.
Proof. unfold keep. rewrite length_take. lia. Qed.

Lemma keep_id l : (length l <= MAX_MESSAGE_KEYS)%nat -> keep l = l.
Proof. intros. unfold keep. by rewrite take_ge. Qed.

(** The loop ends with the chain key of [n] and stores the skipped keys. *)
Lemma skip_message_keys_eq b pk i n : forall d k l s c,
  n = k + Z.of_nat d -> 0 <= k -> n <= u32_max ->
  has_chain s pk c i -> storage.chain_message_keys c = stored_key b <$> l ->
  (length l <= MAX_MESSAGE_KEYS)%nat ->
  skip_message_keys d pk n (chain_key_at b k) s =
    (Ok (chain_key_at b n),
     set_chain i (Upd.put_message_keys (stored_key b <$> keep (skipped k n ++ l)) c) s).
Proof.
  induction d as [|d IH]; intros k l s c Hn Hk Hmax Hc Hl Hlen.
  - replace n with k by lia. cbn [skip_message_keys chain_key_index chain_key_at].
    rewrite Z.ltb_irrefl, skipped_empty. cbn [app]. rewrite keep_id, <- Hl by done.
    by rewrite set_message_keys_same, (set_chain_same s pk).
  - cbn [skip_message_keys]. cbn [chain_key_index chain_key_at].
    destruct (Z.ltb_spec k n); [|lia]. rewrite M_bind_eq. unfold sess, map_err_M.
    rewrite (set_message_keys_eq s pk c i Hc) by (by rewrite Hl, length_fmap).
    cbn [map_err]. rewrite message_keys_at, Hl, stored_key_push.
    set (c' := Upd.put_message_keys (stored_key b <$> keep (k :: l)) c).
    destruct (has_chain_set s pk c i c' Hc eq_refl) as [Hc' _].
    change (mkChainKey (chain_after (Z.to_nat k) b) k) with (chain_key_at b k).
    rewrite next_chain_key_at by lia.
    rewrite (IH (k + 1) (keep (k :: l)) (set_chain i c' s) c') by (try done; try lia; apply keep_length).
    rewrite set_chain_twice, keep_push by lia. done.
Qed.

(** ** The refinement *)

Lemma get_message_keys_avail s pk c i b l n :
  has_chain s pk c i -> storage.chain_message_keys c = stored_key b <$> l -> NoDup l ->
  get_message_keys pk n s =
    if bool_decide (n ∈ l)
    then (Ok (Some (message_key_at b n)),
          set_chain i (Upd.put_message_keys (stored_key b <$> filter (fun m => m <> n) l) c) s)
    else (Ok None, s).
Proof.
  intros Hc Hl Hnd. case_bool_decide as Hin.
  - apply list_elem_of_lookup_1 in Hin as [j Hj].
    rewrite (get_message_keys_Some s pk c i Hc n j (seed_at b (Z.to_nat n))).
    + rewrite Hl. do 3 f_equal. rewrite <- (filter_ne_delete l j n Hnd Hj).
      by rewrite list_fmap_delete.
    + rewrite Hl, list_lookup_fmap, Hj. done.
    + intros E. pose proof (seed_at_length b (Z.to_nat n)) as HL. by rewrite E in HL.
    + intros j' m Hm Hlt. rewrite Hl, list_lookup_fmap in Hm.
      apply fmap_Some in Hm as (m' & Hm' & ->). cbn. intros ->.
      pose proof (proj1 (NoDup_alt l) Hnd j j' n Hj Hm'). lia.
  - apply (get_message_keys_None s pk c i Hc). intros m Hm. rewrite Hl in Hm.
    apply list_elem_of_fmap in Hm as (m' & -> & Hm'). cbn. by intros ->.
Qed.

(** One request, as the code answers it and as the stream does. *)
Lemma get_or_create_message_key_stream s pk b st self mt n c i :
  has_chain s pk c i -> chain_stream b c st -> stream_ok st ->
  (MAX_FORWARD_JUMPS < n - next st -> session_with_self s = Ok self) -> 0 <= n < u32_max ->
  match stream_get self n st with
  | (Granted, st') => exists c',
      get_or_create_message_key pk mt (chain_key_at b (next st)) n s =
        (Ok (message_key_at b n), set_chain i c' s) /\
      storage.chain_sender_ratchet_key c' = storage.chain_sender_ratchet_key c /\
      chain_stream b c' st'
  | (Duplicate, _) =>
      get_or_create_message_key pk mt (chain_key_at b (next st)) n s =
        (Err (DuplicatedMessage (next st) n), s)
  | (TooFar, _) =>
      get_or_create_message_key pk mt (chain_key_at b (next st)) n s =
        (Err (InvalidMessage mt "message from too far into the future"), s)
  end.
Proof.
  intros Hc [Hck Hmk] (H0 & Hnd & Hlt & Hlen) Hself Hn.
  unfold stream_get, get_or_create_message_key. cbn [chain_key_index chain_key_at]. cbv zeta.
  destruct (Z.ltb_spec n (next st)) as [Hlo|Hhi].
  - rewrite M_bind_eq. unfold sess, map_err_M.
    rewrite (get_message_keys_avail s pk c i b (avail st) n Hc Hmk Hnd).
    case_bool_decide; cbn [map_err].
    + eexists. split; [done|]. split; [done|]. split; [done|]. done.
    + done.
  - rewrite M_bind_eq.
    assert (Hfar : (if MAX_FORWARD_JUMPS <? n - next st
       then self0 ← sess_get session_with_self; mret (negb self0) else mret false) s
       = (@Ok SignalProtocolError _ ((MAX_FORWARD_JUMPS <? n - next st) && negb self), s)).
    { destruct (Z.ltb_spec MAX_FORWARD_JUMPS (n - next st)) as [Hj|]; [|done]. rewrite M_bind_eq.
      unfold sess_get, reads. by rewrite (Hself Hj). }
    rewrite Hfar. destruct ((MAX_FORWARD_JUMPS <? n - next st) && negb self); [done|].
    change (mkChainKey (chain_after (Z.to_nat (next st)) b) (next st)) with (chain_key_at b (next st)).
    rewrite M_bind_eq, (skip_message_keys_eq b pk i n _ _ (avail st) s c)
      by (try done; lia).
    set (c1 := Upd.put_message_keys _ c).
    destruct (has_chain_set s pk c i c1 Hc eq_refl) as [Hc1 _].
    rewrite M_bind_eq. unfold sess, map_err_M. rewrite next_chain_key_at by lia.
    rewrite (set_receiver_chain_key_eq _ pk c1 i Hc1), set_chain_twice.
    eexists. split; [done|]. split; [done|]. split; done.
Qed.

(** The two steps [decrypt_message_with_state] takes to get a message key. *)
Definition message_key_request (pk : PublicKey) (mt : CiphertextMessageType) (n : Z)
  : StRngM P MessageKeyGenerator :=
  chain_key ← get_or_create_chain_key pk;
  on_state (get_or_create_message_key pk mt chain_key n).

Lemma existing_chain_key s pk b st rng c i :
  has_chain s pk c i -> chain_stream b c st ->
  get_or_create_chain_key pk (s, rng) = (Ok (chain_key_at b (next st)), (s, rng)).
Proof.
  intros Hc [Hck _]. unfold get_or_create_chain_key. rewrite M_bind_eq.
  unfold on_state. rewrite zoom_eq. cbn [fst snd]. unfold sess_get, reads. cbn [fst snd].
  by rewrite (get_receiver_chain_key_eq s pk c i Hc _ Hck).
Qed.

Lemma message_key_request_eq s pk b st rng mt n c i :
  has_chain s pk c i -> chain_stream b c st ->
  message_key_request pk mt n (s, rng) =
    (let '(r, s') := get_or_create_message_key pk mt (chain_key_at b (next st)) n s in
     (r, (s', rng))).
Proof.
  intros Hc Hst. unfold message_key_request. rewrite M_bind_eq.
  rewrite (existing_chain_key s pk b st rng c i Hc Hst). unfold on_state. rewrite zoom_eq.
  cbn [fst snd]. by destruct (get_or_create_message_key _ _ _ _ s).
Qed.

(** C10: the receiving chain implements the abstract key stream.  A request for
    the key of counter [n] is answered as the stream answers it: with the key
    derived from the chain at [n], with [DuplicatedMessage], or with the
    too-far error (unless the session is with ourselves); the new session
    refines the new stream, and every other chain is as before. *)
Theorem message_key_request_refines s pk b st self mt n rng :
  refines s pk b st -> session_with_self s = Ok self -> 0 <= n < u32_max ->
  exists r s', message_key_request pk mt n (s, rng) = (r, (s', rng)) /\
    refines s' pk b (stream_get self n st).2 /\
    r = match (stream_get self n st).1 with
        | Granted => Ok (message_key_at b n)
        | Duplicate => Err (DuplicatedMessage (next st) n)
        | TooFar => Err (InvalidMessage mt "message from too far into the future")
        end /\
    (forall other, other <> pk -> get_receiver_chain s' other = get_receiver_chain s other).
Proof.
  intros [Hok (c & i & Hc & Hst)] Hself Hn.
  rewrite (message_key_request_eq s pk b st rng mt n c i Hc Hst).
  pose proof (get_or_create_message_key_stream s pk b st self mt n c i Hc Hst Hok (fun _ => Hself) Hn) as H.
  pose proof (stream_get_ok self n st Hok (proj1 Hn)) as Hok'.
  destruct (stream_get self n st) as [v st'] eqn:E. cbn [snd fst] in *. destruct v.
  - destruct H as (c' & -> & Hk & Hst'). eexists _, _. split; [done|].
    destruct (has_chain_set s pk c i c' Hc Hk) as [Hc' Hother].
    split; [|done]. split; [done|]. by exists c', i.
  - rewrite H. eexists _, _. split; [done|].
    assert (st' = st) as ->.
    { unfold stream_get in E. repeat case_match; congruence. }
    split; [|done]. split; [done|]. by exists c, i.
  - rewrite H. eexists _, _. split; [done|].
    assert (st' = st) as ->.
    { unfold stream_get in E. repeat case_match; congruence. }
    split; [|done]. split; [done|]. by exists c, i.
Qed.

(** A run of requests on a session. *)
Fixpoint request_all (pk : PublicKey) (mt : CiphertextMessageType) (ns : list Z)
    (x : SessionState * Rng) : list (Result MessageKeyGenerator) :=
  match ns with
  | [] => []
  | n :: ns => let '(r, x) := message_key_request pk mt n x in r :: request_all pk mt ns x
  end.

Lemma session_with_self_set_chain i c s :
  session_with_self (set_chain i c s) = session_with_self s.
Proof. done. Qed.

Lemma request_all_stream pk b mt self rng : forall ns s st,
  refines s pk b st -> session_with_self s = Ok self ->
  Forall (fun n => 0 <= n < u32_max) ns ->
  (stream_run self ns st).1 = replicate (length ns) Granted ->
  request_all pk mt ns (s, rng) = (fun n => Ok (message_key_at b n)) <$> ns.
Proof.
  induction ns as [|n ns IH]; intros s st [Hok (c & i & Hc & Hst)] Hself Hns Hrun; [done|].
  apply Forall_cons in Hns as [Hn Hns]. cbn [request_all fmap list_fmap].
  rewrite (message_key_request_eq s pk b st rng mt n c i Hc Hst).
  pose proof (get_or_create_message_key_stream s pk b st self mt n c i Hc Hst Hok (fun _ => Hself) Hn) as H.
  pose proof (stream_get_ok self n st Hok (proj1 Hn)) as Hok'.
  cbn [stream_run] in Hrun. destruct (stream_get self n st) as [v st'].
  destruct (stream_run self ns st') as [vs st''] eqn:Erun. cbn in Hrun, Hok'. injection Hrun as -> Hvs.
  destruct H as (c' & -> & Hk & Hst'). f_equal. apply (IH _ st').
  - split; [done|]. exists c', i. by destruct (has_chain_set s pk c i c' Hc Hk).
  - by rewrite session_with_self_set_chain.
  - done.
  - by rewrite Erun.
Qed.

(** C31: delivery order does not matter.  Starting from a fresh chain, distinct
    messages with counters below [MAX_MESSAGE_KEYS] all get their keys,
    whatever the order in which they arrive, and each key depends on the
    counter alone. *)
Theorem delivery_in_any_order s pk b mt self rng ns :
  refines s pk b (mkStream 0 []) -> session_with_self s = Ok self ->
  NoDup ns -> Forall (fun n => 0 <= n < Z.of_nat MAX_MESSAGE_KEYS) ns ->
  request_all pk mt ns (s, rng) = (fun n => Ok (message_key_at b n)) <$> ns.
Proof.
  intros Hr Hself Hnd Hns. apply (request_all_stream pk b mt self rng ns s _ Hr Hself).
  - eapply Forall_impl; [done|]. cbn. unfold u32_max, MAX_MESSAGE_KEYS. lia.
  - apply stream_run_fresh; [done|]. eapply Forall_impl; [done|]. cbn -[MAX_MESSAGE_KEYS]. lia.
Qed.
End refinement.
