(* ===== verification/SessionInvariant.v ===== *)
(** * SessionInvariant: what holds of every session, and no replays

    [well_formed] is the invariant of sessions: at most
    [MAX_RECEIVER_CHAINS] receiving chains, each of which refines a key stream.
    The sessions set up by PQXDH have it, encryption and decryption keep it
    (failed decryptions too), and under it no message decrypts twice. *)

From S2P Require Import Prelude Types Primitives Proto Curve Kem Crypto IdentityKey RatchetKeys Messages SessionState SessionRecord Ratchet KeyStream SenderKeys Stores Session SessionCipher ChainRefinement.
Open Scope string_scope.
Open Scope list_scope.
Open Scope Z_scope.

Section invariant.
Context {P : Primitives}.

Definition chain_wf (c : storage.Chain) : Prop :=
  (exists pk, PublicKey_deserialize (storage.chain_sender_ratchet_key c) = Ok pk) /\
  exists b st, stream_ok st /\ next st <= u32_max /\ chain_stream b c st.

Definition well_formed (s : SessionState) : Prop :=
  (length (storage.ss_receiver_chains (session s)) <= MAX_RECEIVER_CHAINS)%nat /\
  Forall chain_wf (storage.ss_receiver_chains (session s)).

Lemma chain_wf_bounded c :
  chain_wf c -> (length (storage.chain_message_keys c) <= MAX_MESSAGE_KEYS)%nat.
Proof. intros (_ & b & st & (_ & _ & _ & Hl) & _ & _ & ->). by rewrite length_fmap. Qed.

Lemma well_formed_bounded s : well_formed s -> bounded s.
Proof.
  intros [Hl Hf]. split; [done|]. eapply Forall_impl; [done|]. apply chain_wf_bounded.
Qed.

Lemma well_formed_same s s' :
  storage.ss_receiver_chains (session s') = storage.ss_receiver_chains (session s) ->
  well_formed s -> well_formed s'.
Proof. unfold well_formed. by intros ->. Qed.

Lemma well_formed_chain s pk c i : well_formed s -> has_chain s pk c i -> chain_wf c.
Proof.
  intros [_ Hf] (_ & Hl & _)%find_receiver_chain_Some. rewrite Nat.sub_0_r in Hl.
  rewrite Forall_lookup in Hf. by eapply Hf.
Qed.

Lemma well_formed_set_chain i c s : chain_wf c -> well_formed s -> well_formed (set_chain i c s).
Proof.
  unfold well_formed, set_chain, upd. cbn -[MAX_RECEIVER_CHAINS]. intros Hc [Hl Hf].
  rewrite length_insert. split; [done|]. by apply Forall_insert.
Qed.

Lemma find_receiver_chain_total idx chains pk :
  Forall chain_wf chains -> exists r, find_receiver_chain idx chains pk = Ok r.
Proof.
  intros Hf. revert idx. induction Hf as [|c chains [[k Hk] _] Hf IH]; intros idx; cbn; [by eexists|].
  rewrite Hk. cbn. case_match; [by eexists|apply IH].
Qed.

Lemma find_receiver_chain_app idx chains pk c :
  find_receiver_chain idx chains pk = Ok None ->
  PublicKey_deserialize (storage.chain_sender_ratchet_key c) = Ok pk ->
  find_receiver_chain idx (chains ++ [c]) pk = Ok (Some (c, idx + length chains)%nat).
Proof.
  intros Hf Hc. revert idx Hf. induction chains as [|c0 chains IH]; intros idx; cbn.
  - rewrite Hc. cbn. rewrite PublicKey_eqb_refl. intros _. by rewrite Nat.add_0_r.
  - destruct (PublicKey_deserialize (storage.chain_sender_ratchet_key c0)) as [k| |]; cbn; try done.
    destruct (PublicKey_eqb k pk); [done|]. intros Hf. rewrite IH by done.
    do 3 f_equal. lia.
Qed.

Lemma find_receiver_chain_shift idx idx' chains pk :
  find_receiver_chain idx chains pk = Ok None -> find_receiver_chain idx' chains pk = Ok None.
Proof.
  revert idx idx'. induction chains as [|c chains IH]; intros idx idx'; cbn; [done|].
  destruct (PublicKey_deserialize _) as [k| |]; cbn; try done.
  destruct (PublicKey_eqb k pk); [done|]. apply IH.
Qed.

Definition fresh_chain (pk : PublicKey) (b : array 32) : storage.Chain :=
  storage.mkChain (PublicKey_serialize pk) [] (Some (chain_key_pb (mkChainKey b 0))) [].

Lemma fresh_chain_stream pk b : chain_stream b (fresh_chain pk b) (mkStream 0 []).
Proof. split; done. Qed.

Lemma fresh_stream_ok : stream_ok (mkStream 0 []).
Proof. split_and!; cbn; try lia; constructor. Qed.

Lemma fresh_chain_wf pk b : chain_wf (fresh_chain pk b).
Proof.
  split; [exists pk; apply PublicKey_deserialize_serialize|].
  exists b, (mkStream 0 []). split; [apply fresh_stream_ok|].
  split; [unfold u32_max; cbn; lia|apply fresh_chain_stream].
Qed.

(** A chain for a new ratchet key is added at the end, and found there. *)
Lemma well_formed_add s pk b :
  well_formed s -> get_receiver_chain s pk = Ok None ->
  well_formed (add_receiver_chain_state pk (mkChainKey b 0) s) /\
  exists i, has_chain (add_receiver_chain_state pk (mkChainKey b 0) s) pk (fresh_chain pk b) i.
Proof.
  intros [Hl Hf] Hnone. unfold well_formed, has_chain, get_receiver_chain, add_receiver_chain_state.
  cbv zeta. fold (fresh_chain pk b). unfold upd.
  cbn [session Upd.put_receiver_chains storage.ss_receiver_chains].
  unfold get_receiver_chain in Hnone. set (chains := storage.ss_receiver_chains (session s)) in *.
  pose proof (PublicKey_deserialize_serialize pk) as Hd.
  assert (Hf' : Forall chain_wf (chains ++ [fresh_chain pk b])).
  { apply Forall_app. split; [done|]. constructor; [apply fresh_chain_wf|constructor]. }
  destruct (Nat.ltb_spec MAX_RECEIVER_CHAINS (length (chains ++ [fresh_chain pk b]))) as [Hlt|Hge].
  - destruct chains as [|c0 chains]; [cbn in Hlt; unfold MAX_RECEIVER_CHAINS in Hlt; lia|].
    cbn [tail app] in *. apply Forall_cons in Hf' as [_ Hf']. split.
    + split; [|done]. cbn [length] in Hl. rewrite length_app. cbn [length]. lia.
    + cbn [find_receiver_chain] in Hnone.
      destruct (or_ise _ (PublicKey_deserialize (storage.chain_sender_ratchet_key c0))) as [k| |];
        cbn [mbind outcome_bind] in Hnone; [|done|done].
      destruct (PublicKey_eqb k pk); [done|].
      eexists. apply find_receiver_chain_app; [by eapply find_receiver_chain_shift|done].
  - split; [by split|]. eexists. by apply find_receiver_chain_app.
Qed.

(** ** One decryption step at a time *)

(** What later steps leave alone. *)
Definition core (s : SessionState) :=
  (storage.ss_session_version (session s), storage.ss_root_key (session s),
   storage.ss_receiver_chains (session s), storage.ss_local_identity_public (session s),
   storage.ss_remote_identity_public (session s), storage.ss_sender_chain (session s)).

(** [ck] is the current chain key of the chain [s] has for [pk]. *)
Definition current_chain (s : SessionState) (pk : PublicKey) (ck : ChainKey) : Prop :=
  exists b st c i, ck = chain_key_at b (next st) /\ has_chain s pk c i /\
    chain_stream b c st /\ stream_ok st /\ next st <= u32_max.

Lemma wf_current_chain s pk c i :
  well_formed s -> has_chain s pk c i ->
  exists ck, get_receiver_chain_key s pk = Ok (Some ck) /\ current_chain s pk ck.
Proof.
  intros Hwf Hc. destruct (well_formed_chain s pk c i Hwf Hc) as (_ & b & st & Hok & Hmax & Hst).
  exists (chain_key_at b (next st)). split; [|by exists b, st, c, i].
  apply (get_receiver_chain_key_eq s pk c i Hc). by destruct Hst.
Qed.

Lemma get_or_create_chain_key_wf pk s rng :
  well_formed s ->
  let '(r, (s1, rng1)) := get_or_create_chain_key pk (s, rng) in
  well_formed s1 /\
  (forall ck, r = Ok ck -> current_chain s1 pk ck /\
     storage.ss_session_version (session s1) = storage.ss_session_version (session s) /\
     ((exists k, root_key s = Ok k) -> exists k, root_key s1 = Ok k)).
Proof.
  intros Hwf. unfold get_or_create_chain_key. rewrite step_get.
  destruct (find_receiver_chain_total 0 _ pk (proj2 Hwf)) as [[[c i]|] Hf].
  - destruct (wf_current_chain s pk c i Hwf Hf) as (ck & -> & Hck).
    split; [done|]. intros ck' [= <-]. done.
  - unfold get_receiver_chain_key at 1. unfold get_receiver_chain at 1. rewrite Hf.
    cbn [mbind outcome_bind].
    rewrite step_get. destruct (root_key s) as [root| |] eqn:Eroot; [|done|done].
    rewrite step_get. destruct (sender_ratchet_private_key s) as [ours| |]; [|done|done].
    rewrite step_lift. destruct (create_chain_ok root pk ours) as (root' & cb & ->).
    rewrite step_rng. unfold generate_key_pair. destruct (KeyPair_generate rng) as [kp rng'].
    rewrite step_lift. cbn [fst].
    destruct (create_chain_ok root' pk (kp_private_key kp)) as (root'' & cb' & ->).
    unfold set_root_key, add_receiver_chain. rewrite !step_modify. cbn [fst snd].
    set (s' := upd _ s).
    assert (Hwf' : well_formed s') by (by apply (well_formed_same s)).
    destruct (well_formed_add s' pk cb Hwf' Hf) as [Hwf2 [i Hc]].
    rewrite step_get. destruct (get_sender_chain_key _) as [cur| |]; [|done|done].
    unfold set_previous_counter, set_sender_chain. rewrite !step_modify.
    split; [by eapply well_formed_same; [|exact Hwf2]|].
    intros ck [= <-]. split; [|split; [done|]].
    + exists cb, (mkStream 0 []), (fresh_chain pk cb), i.
      split_and!; [done|exact Hc|apply fresh_chain_stream|apply fresh_stream_ok|].
      cbn. unfold u32_max. lia.
    + intros _. exists root''. by apply root_key_eq.
Qed.

(** Counter [n] of the chain for [pk] was used and cannot be used again. *)
Definition used (s : SessionState) (pk : PublicKey) (n : Z) : Prop :=
  exists b st c i, has_chain s pk c i /\ chain_stream b c st /\ stream_ok st /\
    n < next st /\ n ∉ avail st.

Lemma get_or_create_message_key_wf pk mt ck n s :
  well_formed s -> current_chain s pk ck -> 0 <= n < u32_max ->
  let '(r, s') := get_or_create_message_key pk mt ck n s in
  well_formed s' /\
  (forall g, r = Ok g -> used s' pk n /\ (exists seed, g = Seed seed n) /\
    storage.ss_session_version (session s') = storage.ss_session_version (session s) /\
    storage.ss_root_key (session s') = storage.ss_root_key (session s)).
Proof.
  intros Hwf (b & st & c & i & -> & Hc & Hst & Hok & Hmax) Hn.
  destruct (well_formed_chain s pk c i Hwf Hc) as [Hpk _].
  destruct (decide (MAX_FORWARD_JUMPS < n - next st /\ forall self, session_with_self s <> Ok self))
    as [[Hj Hself]|Hself].
  { unfold get_or_create_message_key. cbn [chain_key_at chain_key_index]. cbv zeta.
    destruct (Z.ltb_spec n (next st)); [unfold MAX_FORWARD_JUMPS in Hj; lia|].
    rewrite M_bind_eq, (proj2 (Z.ltb_lt _ _) Hj), M_bind_eq. unfold sess_get, reads.
    destruct (session_with_self s) as [self| |]; [by destruct (Hself self)|done|done]. }
  assert (exists self, MAX_FORWARD_JUMPS < n - next st -> session_with_self s = Ok self) as [self Hs].
  { destruct (session_with_self s) as [self| |] eqn:E; [by exists self| |];
      exists true; intros Hj; exfalso; apply Hself; (split; [done|congruence]). }
  pose proof (get_or_create_message_key_stream s pk b st self mt n c i Hc Hst Hok Hs Hn) as H.
  pose proof (stream_get_ok self n st Hok (proj1 Hn)) as Hok'.
  destruct (stream_get self n st) as [v st'] eqn:E. cbn [snd] in Hok'. destruct v.
  - destruct H as (c' & -> & Hk & Hst').
    destruct (stream_no_replay self n st st' Hok E) as (Hlt & Hnin & _).
    assert (next st' <= u32_max) as Hmax'.
    { unfold stream_get in E. repeat case_match; simplify_eq; cbn; lia. }
    split.
    + apply well_formed_set_chain; [|done]. rewrite <- Hk in Hpk. split; [done|]. by exists b, st'.
    + intros g [= <-]. split; [|split; [by eexists|done]].
      exists b, st', c', i. by destruct (has_chain_set s pk c i c' Hc Hk).
  - rewrite H. split; [done|]. by intros.
  - rewrite H. split; [done|]. by intros.
Qed.

Lemma used_duplicate s pk n mt rng :
  used s pk n ->
  exists idx, message_key_request pk mt n (s, rng) = (Err (DuplicatedMessage idx n), (s, rng)).
Proof.
  intros (b & st & c & i & Hc & Hst & Hok & Hlt & Hnin). exists (next st).
  rewrite (message_key_request_eq s pk b st rng mt n c i Hc Hst).
  unfold get_or_create_message_key. cbn [chain_key_at chain_key_index]. cbv zeta.
  rewrite (proj2 (Z.ltb_lt _ _) Hlt), M_bind_eq. unfold sess, map_err_M.
  rewrite (get_message_keys_avail s pk c i b (avail st) n Hc (proj2 Hst)) by apply Hok.
  by rewrite bool_decide_eq_false_2.
Qed.

Lemma used_same s s' pk n :
  storage.ss_receiver_chains (session s') = storage.ss_receiver_chains (session s) ->
  used s pk n -> used s' pk n.
Proof.
  intros E (b & st & c & i & Hc & H). exists b, st, c, i. split; [|done].
  unfold has_chain, get_receiver_chain in *. by rewrite E.
Qed.

(** ** Decrypting with one session *)

(** The steps after the message key is known. *)
Definition decrypt_tail (ciphertext : SignalMessage) (mt : CiphertextMessageType)
    (gen : MessageKeyGenerator) : StRngM P bytes :=
  pqr_key ← on_state (map_err_M (pq_recv_error mt) (pq_ratchet_recv (sm_pq_ratchet ciphertext)));
  keys ← lift (generate_keys gen pqr_key);
  remote ← on_state (sess_get remote_identity_key);
  their_identity_key ← lift (ok_or (InvalidSessionStructure
                               "cannot decrypt without remote identity key") remote);
  our_identity_key ← on_state (sess_get local_identity_key);
  mac_valid ← lift (verify_mac ciphertext their_identity_key our_identity_key
                      (arr (mac_key keys)));
  if negb mac_valid
  then throw (InvalidMessage mt "MAC verification failed")
  else
    ptext ← lift (map_err (fun e => match e with
          | DecBadKeyOrIv => InvalidSessionStructure "invalid receiver chain message keys"
          | BadCiphertext_ _ => InvalidMessage mt "failed to decrypt"
          end)
        (aes_256_cbc_decrypt (sm_ciphertext ciphertext) (arr (cipher_key keys))
           (arr (iv keys))));
    _ ← on_state (sess clear_unacknowledged_pre_key_message);
    mret ptext.

Lemma decrypt_message_with_state_eq m mt s rng :
  decrypt_message_with_state m mt (s, rng) =
    match root_key s with
    | Ok _ =>
        match session_version s with
        | Ok version =>
            if negb (sm_message_version m =? version)
            then (Err (UnrecognizedMessageVersion (sm_message_version m)), (s, rng))
            else (message_key_request (sm_sender_ratchet_key m) mt (sm_counter m)
                    ≫= decrypt_tail m mt) (s, rng)
        | Err e => (Err (from_InvalidSessionError e), (s, rng))
        | Panic => (Panic, (s, rng))
        end
    | Err _ => (Err (InvalidMessage mt "No session available to decrypt"), (s, rng))
    | Panic => (Panic, (s, rng))
    end.
Proof.
  unfold decrypt_message_with_state. rewrite step_reads.
  destruct (root_key s); cbn [map_err]; [|done|done].
  rewrite step_get. destruct (session_version s) as [v| |]; [|done|done].
  cbv zeta. destruct (negb _); [done|]. unfold message_key_request. rewrite !M_bind_eq.
  by destruct (get_or_create_chain_key _ _) as [[ck| |] x].
Qed.

Definition same_core (v : Z * bytes * list storage.Chain * bytes * bytes * option storage.Chain)
    (x : SessionState * Rng) : Prop := core x.1 = v.

Lemma preserves_on_state_reads {A} v (f : SessionState -> Result A) :
  preserves (same_core v) (on_state (reads f) : StRngM P A).
Proof. intros [s rng] H. unfold on_state. rewrite zoom_eq. done. Qed.

Lemma preserves_on_state {E A} v (m : M SessionState E A) :
  preserves (fun s => core s = v) m -> preserves (same_core v) (on_state m).
Proof. intros Hm [s rng] H. unfold on_state. rewrite zoom_eq. by apply Hm. Qed.

Lemma preserves_upd_core {E} v f :
  (forall s, core (mkSessionState (f s)) = core (mkSessionState s)) ->
  preserves (fun s => core s = v) (modify (E := E) (upd f)).
Proof. intros Hf [s] H. cbn. unfold upd. cbn. by rewrite Hf. Qed.

Lemma decrypt_tail_core m mt g v : preserves (same_core v) (decrypt_tail m mt g).
Proof.
  unfold decrypt_tail. repeat first
    [ progress intros | apply preserves_bind | apply preserves_on_state_reads
    | apply preserves_on_state | apply preserves_map_err | solve [eauto with pres] | case_match ].
  - unfold pq_ratchet_recv. solve_preserves. by apply preserves_upd_core.
  - apply preserves_modify. by intros [s].
Qed.

Lemma message_key_request_wf pk mt n s rng :
  well_formed s -> 0 <= n < u32_max ->
  let '(r, (s', rng')) := message_key_request pk mt n (s, rng) in
  well_formed s' /\
  (forall g, r = Ok g -> used s' pk n /\ (exists seed, g = Seed seed n) /\
     storage.ss_session_version (session s') = storage.ss_session_version (session s) /\
     ((exists k, root_key s = Ok k) -> exists k, root_key s' = Ok k)).
Proof.
  intros Hwf Hn. unfold message_key_request. rewrite M_bind_eq.
  pose proof (get_or_create_chain_key_wf pk s rng Hwf) as H.
  destruct (get_or_create_chain_key pk (s, rng)) as [[ck| |] [s1 rng1]];
    [|split; [by apply H|done]|split; [by apply H|done]].
  destruct H as [Hwf1 H]. destruct (H ck eq_refl) as (Hck & Hv & Hr).
  pose proof (get_or_create_message_key_wf pk mt ck n s1 Hwf1 Hck Hn) as H2.
  unfold on_state. rewrite zoom_eq. cbn [fst snd].
  destruct (get_or_create_message_key pk mt ck n s1) as [r s2]. cbn [fst snd].
  destruct H2 as [Hwf2 H2]. split; [done|]. intros g Hg.
  destruct (H2 g Hg) as (Hu & Hseed & Hv2 & Hr2). split_and!; [done|done|congruence|].
  intros Hroot. destruct (Hr Hroot) as [k Hk]. exists k. unfold root_key in *. by rewrite Hr2.
Qed.

(** Decryption keeps the invariant, whatever it returns; when it succeeds,
    the message's counter is used up and the session can still be used. *)
Lemma decrypt_message_with_state_wf m mt s rng :
  well_formed s -> 0 <= sm_counter m < u32_max ->
  let '(r, (s', rng')) := decrypt_message_with_state m mt (s, rng) in
  well_formed s' /\
  (forall p, r = Ok p -> used s' (sm_sender_ratchet_key m) (sm_counter m) /\
     session_version s' = Ok (sm_message_version m) /\ exists k, root_key s' = Ok k).
Proof.
  intros Hwf Hn. rewrite decrypt_message_with_state_eq.
  destruct (root_key s) as [k| |] eqn:Ek; [|done|done].
  destruct (session_version s) as [v| |] eqn:Ev; [|done|done].
  destruct (Z.eqb_spec (sm_message_version m) v); cbn [negb]; [subst v|done].
  rewrite M_bind_eq.
  pose proof (message_key_request_wf (sm_sender_ratchet_key m) mt (sm_counter m) s rng Hwf Hn) as H.
  destruct (message_key_request _ mt _ (s, rng)) as [[g| |] [s1 rng1]];
    [|split; [by apply H|done]|split; [by apply H|done]].
  destruct H as [Hwf1 H]. destruct (H g eq_refl) as (Hu & _ & Hv & Hr).
  pose proof (decrypt_tail_core m mt g (core s1) (s1, rng1) eq_refl) as Hcore.
  destruct (decrypt_tail m mt g (s1, rng1)) as [r [s2 rng2]]. unfold same_core in Hcore.
  cbn [fst snd] in Hcore. unfold core in Hcore. injection Hcore as Ev2 Er2 Ec2 _ _ _.
  split; [by eapply well_formed_same|]. intros p ->. split_and!.
  - by eapply used_same.
  - unfold session_version in *. by rewrite Ev2, Hv.
  - destruct Hr as [k' Hk']; [by exists k|]. exists k'. unfold root_key in *. by rewrite Er2.
Qed.

(** The same message again: [DuplicatedMessage], and nothing changes. *)
Lemma decrypt_used m mt s rng :
  used s (sm_sender_ratchet_key m) (sm_counter m) ->
  session_version s = Ok (sm_message_version m) -> (exists k, root_key s = Ok k) ->
  exists idx, decrypt_message_with_state m mt (s, rng) =
                (Err (DuplicatedMessage idx (sm_counter m)), (s, rng)).
Proof.
  intros Hu Hv [k Hk]. rewrite decrypt_message_with_state_eq, Hk, Hv, Z.eqb_refl. cbn [negb].
  destruct (used_duplicate s _ _ mt rng Hu) as [idx Hdup]. exists idx.
  by rewrite M_bind_eq, Hdup.
Qed.
End invariant.

(** ** Reachable sessions *)

Section reachable.
Context {P : Primitives} `{!Prost wire.SignalMessage, !Prost wire.PreKeySignalMessage}.

(** The states a session can be in: set up by PQXDH, then changed by
    sending, by receiving (also when that fails half way), by archiving and
    by the settings that session setup makes.  The counter of a received
    message is any [u32] but the last one, at which the chain index wraps. *)
Inductive reachable : SessionState -> Prop :=
| reachable_alice params rng s rng' :
    initialize_alice_session params rng = (Ok s, rng') -> reachable s
| reachable_bob params s :
    initialize_bob_session params = Ok s -> reachable s
| reachable_encrypt ptext addr now s rng r s' rng' :
    reachable s -> encrypt_with_state ptext addr now (s, rng) = (r, (s', rng')) -> reachable s'
| reachable_decrypt m mt s rng r s' rng' :
    reachable s -> 0 <= sm_counter m < u32_max ->
    decrypt_message_with_state m mt (s, rng) = (r, (s', rng')) -> reachable s'
| reachable_archive s :
    reachable s -> reachable (clear_unacknowledged_pre_key_message_state s)
| reachable_registration_ids local remote s :
    reachable s ->
    reachable (upd (Upd.put_remote_registration_id remote) (upd (Upd.put_local_registration_id local) s))
| reachable_pre_key_message id signed_id base now kyber_id s s' :
    reachable s ->
    (_ ← set_unacknowledged_pre_key_message id signed_id base now;
     set_unacknowledged_kyber_pre_key_id kyber_id) s = (Ok tt, s') ->
    reachable s'.

Definition same_chains (v : list storage.Chain) (x : SessionState * Rng) : Prop :=
  storage.ss_receiver_chains (session x.1) = v.

Lemma same_chains_reads {A} v (f : SessionState -> Result A) :
  preserves (same_chains v) (on_state (reads f) : StRngM P A).
Proof. intros [s rng] H. unfold on_state. by rewrite zoom_eq. Qed.

Lemma same_chains_gets {A} v (f : SessionState -> A) :
  preserves (same_chains v) (on_state (gets f) : StRngM P A).
Proof. intros [s rng] H. unfold on_state. by rewrite zoom_eq. Qed.

Lemma encrypt_same_chains ptext addr now v :
  preserves (same_chains v) (encrypt_with_state ptext addr now).
Proof.
  unfold encrypt_with_state. repeat first
    [ progress intros | apply preserves_bind | apply same_chains_reads | apply same_chains_gets
    | apply preserves_map_err | solve [eauto with pres] | case_match ].
  - intros [s rng] ?. cbn. by destruct (spqr_send _ _) as [[r| |] rng2].
  - intros [s rng] ?. done.
Qed.

Lemma initialize_alice_well_formed params rng s rng' :
  initialize_alice_session params rng = (Ok s, rng') -> well_formed s.
Proof.
  unfold initialize_alice_session. intros H. inv_M.
  repeat match goal with
    | H : context [let '(_, _) := ?x in _] |- _ => destruct x eqn:?
    | H : _ |- _ => progress inv_M
    end; try discriminate.
  split.
  - apply Nat.leb_le. reflexivity.
  - match goal with Hk : ratchet_derive_keys _ = (_, ?c, _) |- _ =>
      assert (exists b, c = mkChainKey b 0) as [b ->] by (injection Hk as <- <- <-; eauto) end.
    constructor; [apply fresh_chain_wf|constructor].
Qed.

Lemma initialize_bob_well_formed params s : initialize_bob_session params = Ok s -> well_formed s.
Proof.
  unfold initialize_bob_session. destruct (negb _); [done|]. cbv zeta. intros H. inv_M.
  destruct (ratchet_derive_keys _) as [[root chain] pqr]. inv_M.
  split; cbn; [lia|constructor].
Qed.

Lemma reachable_well_formed s : reachable s -> well_formed s.
Proof.
  induction 1 as [params rng s rng' H|params s H|ptext addr now s rng r s' rng' _ IH H
    |m mt s rng r s' rng' _ IH Hc H|s _ IH|local remote s _ IH|id sid base now kid s s' _ IH H].
  - by eapply initialize_alice_well_formed.
  - by eapply initialize_bob_well_formed.
  - pose proof (encrypt_same_chains ptext addr now _ (s, rng) eq_refl) as E. rewrite H in E.
    by eapply well_formed_same.
  - pose proof (decrypt_message_with_state_wf m mt s rng IH Hc) as E. rewrite H in E. by apply E.
  - by eapply well_formed_same.
  - by eapply well_formed_same.
  - eapply well_formed_same; [|done]. inv_M. unfold set_unacknowledged_kyber_pre_key_id in *.
    unfold set_unacknowledged_pre_key_message in *. inv_M. done.
Qed.

(** C32: in every state a session can reach there are at most five receiving
    chains, each with at most 2000 stored message keys, all of different
    counters below the chain's index, each being the key derived at its
    counter from the chain's first key. *)
Theorem reachable_sessions_bounded s :
  reachable s ->
  (length (storage.ss_receiver_chains (session s)) <= 5)%nat /\
  forall c, c ∈ storage.ss_receiver_chains (session s) ->
    exists b n l,
      storage.chain_chain_key c = Some (chain_key_pb (chain_key_at b n)) /\
      storage.chain_message_keys c = stored_key b <$> l /\
      (length l <= 2000)%nat /\ NoDup l /\ Forall (fun i => 0 <= i < n) l.
Proof.
  intros Hr. destruct (reachable_well_formed s Hr) as [Hl Hf]. split; [done|].
  intros c Hc. rewrite Forall_forall in Hf.
  destruct (Hf c Hc) as (_ & b & [n l] & (H0 & Hnd & Hlt & Hlen) & _ & Hck & Hmk).
  by exists b, n, l.
Qed.
End reachable.
