(* ===== verification/CipherSpec.v ===== *)
(** * CipherSpec: what the exported 1:1 operations guarantee

    Decryption with a record changes it only on success, and then makes the
    session that decrypted the message the current one; no message is accepted
    twice; an operation that fails leaves the session store as it was. *)

From S2P Require Import Prelude Types Primitives Proto Curve Kem Crypto IdentityKey RatchetKeys Messages SessionState SessionRecord Ratchet KeyStream SenderKeys Stores Session SessionCipher ChainRefinement SessionInvariant.
Open Scope string_scope.
Open Scope list_scope.
Open Scope Z_scope.

Section record_spec.
Context {P : Primitives} `{!Prost storage.SessionStructure, !Prost storage.RecordStructure}.

Lemma try_state_step {B} state m mt r rng
    (k : outcome SignalProtocolError bytes * SessionState ->
         M (SessionRecord * Rng) SignalProtocolError B) :
  (try_state state m mt ≫= k) (r, rng) =
    let '(res, (state', rng')) := decrypt_message_with_state m mt (state, rng) in
    match res with
    | Panic => (Panic, (r, rng'))
    | _ => k (res, state') (r, rng')
    end.
Proof.
  rewrite M_bind_eq. unfold try_state.
  by destruct (decrypt_message_with_state m mt (state, rng)) as [[p|e|] [s' rng']].
Qed.

Lemma expect_base_key_step {S B} state (x : S) (k : unit -> M S SignalProtocolError B) :
  (expect_base_key state ≫= k) x =
    match sender_ratchet_key state with Ok _ => k tt x | _ => (Panic, x) end.
Proof. rewrite M_bind_eq. unfold expect_base_key. rewrite M_bind_eq. unfold lift, expect_ok. by destruct (sender_ratchet_key state). Qed.

Lemma try_previous_spec m mt r : forall l idx rng,
  let '(res, (r', rng')) := try_previous m mt idx l (r, rng) in
  r' = r /\
  forall p j s', res = Ok (Some (p, j, s')) ->
    (idx <= j)%nat /\ exists s rng1, l !! (j - idx)%nat = Some (Ok s) /\
      decrypt_message_with_state m mt (s, rng1) = (Ok p, (s', rng')).
Proof.
  induction l as [|q l IH]; intros idx rng; cbn [try_previous]; [done|].
  rewrite M_bind_eq. unfold lift at 1. destruct q as [s| |]; cbn [map_err]; [|done|done].
  rewrite try_state_step.
  destruct (decrypt_message_with_state m mt (s, rng)) as [[p|e|] [s1 rng1]] eqn:E; [| |done].
  - rewrite expect_base_key_step. destruct (sender_ratchet_key s1); [|done|done].
    split; [done|]. intros p' j s' [= <- <- <-]. split; [lia|].
    exists s, rng. by rewrite Nat.sub_diag.
  - assert (Hrec : forall g, let '(res, (r', rng')) := try_previous m mt (S idx) l (r, g) in
      r' = r /\ forall p j s', res = Ok (Some (p, j, s')) ->
        (idx <= j)%nat /\ exists s0 rng0, (Ok s :: l) !! (j - idx)%nat = Some (Ok s0) /\
          decrypt_message_with_state m mt (s0, rng0) = (Ok p, (s', rng'))).
    { intros g. specialize (IH (S idx) g).
      destruct (try_previous m mt (S idx) l (r, g)) as [res [r' rng']].
      destruct IH as [-> IH]. split; [done|]. intros p j s' Hres.
      destruct (IH p j s' Hres) as (Hle & s0 & g0 & Hl & Hd). split; [lia|].
      exists s0, g0. by replace (j - idx)%nat with (S (j - S idx)) by lia. }
    destruct e; try apply Hrec. done.
Qed.

(** What a successful decryption does to the record: [s] decrypted the
    message and became [s']. *)
Definition record_after (r : SessionRecord) (s s' : SessionState) (r' : SessionRecord) : Prop :=
  current_session r' = Some s' /\
  ((current_session r = Some s /\ previous_sessions r' = previous_sessions r) \/
   (exists i b, previous_sessions r !! i = Some b /\ previous_session_state b = Ok s /\
      previous_sessions r' = archived (current_session r) (delete i (previous_sessions r)))).

Lemma try_old_sessions_spec m mt r rng :
  record_bounded r ->
  match try_old_sessions m mt (r, rng) with
  | (Ok p, (r', rng')) => exists s s' rng1,
      decrypt_message_with_state m mt (s, rng1) = (Ok p, (s', rng')) /\ record_after r s s' r'
  | (_, (r', _)) => r' = r
  end.
Proof.
  intros Hb. unfold try_old_sessions. rewrite M_bind_eq. unfold gets at 1. rewrite M_bind_eq.
  pose proof (try_previous_spec m mt r (previous_session_states r) 0 rng) as H.
  destruct (try_previous m mt 0 (previous_session_states r) (r, rng))
    as [[[[[p j] s']|]| |] [r' rng']]; destruct H as [-> H]; [|done|done|done].
  destruct (H p j s' eq_refl) as (_ & s & rng1 & Hl & Hd). rewrite Nat.sub_0_r in Hl.
  apply list_lookup_fmap_Some in Hl as (b & Hs & Hj).
  rewrite M_bind_eq. unfold on_record. rewrite zoom_eq. cbn [fst snd].
  rewrite promote_old_session_eq; [|by eapply lookup_lt_Some|done]. cbn [fst snd].
  exists s, s', rng1. split; [done|]. split; [done|]. right. by exists j, b.
Qed.

Lemma decrypt_message_with_record_cases m mt r rng :
  record_bounded r ->
  match decrypt_message_with_record m mt (r, rng) with
  | (Ok p, (r', rng')) => exists s s' rng1,
      decrypt_message_with_state m mt (s, rng1) = (Ok p, (s', rng')) /\ record_after r s s' r'
  | (_, (r', _)) => r' = r
  end.
Proof.
  intros Hb. unfold decrypt_message_with_record. rewrite M_bind_eq. unfold gets at 1.
  destruct (current_session r) as [s|] eqn:Ecur; [|by apply try_old_sessions_spec].
  rewrite try_state_step.
  destruct (decrypt_message_with_state m mt (s, rng)) as [[p|e|] [s1 rng1]] eqn:E; [| |done].
  - rewrite expect_base_key_step. destruct (sender_ratchet_key s1); [|done|done].
    rewrite M_bind_eq. unfold on_record. rewrite zoom_eq. cbn [fst snd].
    exists s, s1, rng. split; [done|]. split; [done|]. by left.
  - destruct e; try done; destruct mt; try done; by apply try_old_sessions_spec.
Qed.

(** Decrypting with a record either fails and leaves the record as it was,
    or succeeds with one of its sessions, and then that session, updated, is
    the current one: either the current session decrypted, and the archive is
    unchanged, or an archived one did, and it swapped places with the current
    one. *)
Theorem decrypt_message_with_record_spec m mt r rng :
  record_bounded r ->
  match decrypt_message_with_record m mt (r, rng) with
  | (Ok p, (r', rng')) =>
      record_bounded r' /\
      exists s s' rng1,
        decrypt_message_with_state m mt (s, rng1) = (Ok p, (s', rng')) /\
        current_session r' = Some s' /\
        ((current_session r = Some s /\ previous_sessions r' = previous_sessions r) \/
         (exists i b, previous_sessions r !! i = Some b /\ previous_session_state b = Ok s /\
            previous_sessions r' = archived (current_session r) (delete i (previous_sessions r))))
  | (_, (r', _)) => r' = r
  end.
Proof.
  intros Hb. pose proof (decrypt_message_with_record_cases m mt r rng Hb) as H.
  destruct (decrypt_message_with_record m mt (r, rng)) as [[p| |] [r' rng']]; [|done|done].
  destruct H as (s & s' & rng1 & Hd & Hcur & Hprev). split; [|by exists s, s', rng1].
  unfold record_bounded in *. destruct Hprev as [[_ ->]|(i & b & _ & _ & ->)]; [done|].
  apply archived_bounded. pose proof (length_delete_le (previous_sessions r) i). lia.
Qed.

(** Every session of the record, current or archived, is well formed. *)
Definition record_wf (r : SessionRecord) : Prop :=
  record_bounded r /\ (forall s, current_session r = Some s -> well_formed s) /\
  forall b s, b ∈ previous_sessions r -> previous_session_state b = Ok s -> well_formed s.

(** After a success, the current session has used up the message. *)
Lemma decrypt_message_with_record_used m mt r rng p r' rng' :
  record_wf r -> 0 <= sm_counter m < u32_max ->
  decrypt_message_with_record m mt (r, rng) = (Ok p, (r', rng')) ->
  exists s', current_session r' = Some s' /\ well_formed s' /\
    used s' (sm_sender_ratchet_key m) (sm_counter m) /\
    session_version s' = Ok (sm_message_version m) /\ exists k, root_key s' = Ok k.
Proof.
  intros (Hb & Hwc & Hwp) Hn H. pose proof (decrypt_message_with_record_cases m mt r rng Hb) as Hc.
  rewrite H in Hc. destruct Hc as (s & s' & rng1 & Hd & Hcur & Hprev).
  assert (Hwf : well_formed s).
  { destruct Hprev as [[Hs _]|(i & b & Hi & Hs & _)]; [by apply Hwc|].
    eapply Hwp; [|done]. by eapply list_elem_of_lookup_2. }
  pose proof (decrypt_message_with_state_wf m mt s rng1 Hwf Hn) as Hd'. rewrite Hd in Hd'.
  destruct Hd' as [Hwf' Hu]. destruct (Hu p eq_refl) as (? & ? & ?). by exists s'.
Qed.

Lemma decrypt_record_duplicate m mt r s rng :
  current_session r = Some s -> used s (sm_sender_ratchet_key m) (sm_counter m) ->
  session_version s = Ok (sm_message_version m) -> (exists k, root_key s = Ok k) ->
  exists idx, decrypt_message_with_record m mt (r, rng) =
                (Err (DuplicatedMessage idx (sm_counter m)), (r, rng)).
Proof.
  intros Hcur Hu Hv Hk. destruct (decrypt_used m mt s rng Hu Hv Hk) as [idx Hd].
  exists idx. unfold decrypt_message_with_record. rewrite M_bind_eq. unfold gets at 1.
  rewrite Hcur, try_state_step, Hd. done.
Qed.
End record_spec.

(** ** The exported operations *)

Section env_steps.
Context {P : Primitives} {SS IS PS SPS KS : Type}.

Lemma env_reads {A B} (f : Env SS IS PS SPS KS -> Result A) (k : A -> EM SS IS PS SPS KS B) e :
  ((reads f : EM SS IS PS SPS KS A) ≫= k) e =
    match f e with Ok a => k a e | Err x => (Err x, e) | Panic => (Panic, e) end.
Proof. rewrite M_bind_eq. unfold reads. by destruct (f e). Qed.

Lemma env_lift {A B} (m : Result A) (k : A -> EM SS IS PS SPS KS B) e :
  ((lift m : EM SS IS PS SPS KS A) ≫= k) e =
    match m with Ok a => k a e | Err x => (Err x, e) | Panic => (Panic, e) end.
Proof. rewrite M_bind_eq. unfold lift. by destruct m. Qed.

Lemma env_local_rng {L A B} (l : L) (m : M (L * Rng) SignalProtocolError A)
    (k : A * L -> EM SS IS PS SPS KS B) e :
  (with_local_rng l m ≫= k) e =
    match m (l, csprng e) with
    | (Ok a, (l', rng)) => k (a, l') (set_csprng rng e)
    | (Err x, (_, rng)) => (Err x, set_csprng rng e)
    | (Panic, (_, rng)) => (Panic, set_csprng rng e)
    end.
Proof.
  rewrite M_bind_eq. unfold with_local_rng, with_local. rewrite zoom_eq.
  by destruct (m (l, csprng e)) as [[a|x|] [l' rng]].
Qed.

Lemma env_rng {A B} (m : M Rng SignalProtocolError A) (k : A -> EM SS IS PS SPS KS B) e :
  (with_rng m ≫= k) e =
    match m (csprng e) with
    | (Ok a, rng) => k a (set_csprng rng e)
    | (Err x, rng) => (Err x, set_csprng rng e)
    | (Panic, rng) => (Panic, set_csprng rng e)
    end.
Proof. rewrite M_bind_eq. unfold with_rng. rewrite zoom_eq. by destruct (m (csprng e)) as [[a|x|] rng]. Qed.

Lemma env_identities {A B} (m : StoreM IS A) (k : A -> EM SS IS PS SPS KS B) e :
  (with_identities m ≫= k) e =
    match m (identity_store e) with
    | (Ok a, i) => k a (set_identity_store i e)
    | (Err x, i) => (Err x, set_identity_store i e)
    | (Panic, i) => (Panic, set_identity_store i e)
    end.
Proof.
  rewrite M_bind_eq. unfold with_identities. rewrite zoom_eq.
  by destruct (m (identity_store e)) as [[a|x|] i].
Qed.

Lemma env_sessions {A B} (m : StoreM SS A) (k : A -> EM SS IS PS SPS KS B) e :
  (with_sessions m ≫= k) e =
    match m (session_store e) with
    | (Ok a, i) => k a (set_session_store i e)
    | (Err x, i) => (Err x, set_session_store i e)
    | (Panic, i) => (Panic, set_session_store i e)
    end.
Proof.
  rewrite M_bind_eq. unfold with_sessions. rewrite zoom_eq.
  by destruct (m (session_store e)) as [[a|x|] i].
Qed.

Lemma set_csprng_same (e : Env SS IS PS SPS KS) : set_csprng (csprng e) e = e.
Proof. by destruct e. Qed.
End env_steps.

Section no_replay.
Context {P : Primitives} {SS IS PS SPS KS : Type}
  `{!SessionStore SS, !IdentityKeyStore IS, !PreKeyStore PS, !SignedPreKeyStore SPS,
    !KyberPreKeyStore KS} {LS : SessionStoreLaws SS}
  `{!Prost storage.SessionStructure, !Prost storage.RecordStructure,
    !Prost wire.SignalMessage, !Prost wire.PreKeySignalMessage}.

(** Splitting a successful [message_decrypt_signal]. *)
Lemma message_decrypt_signal_Ok m addr (e e' : Env SS IS PS SPS KS) p :
  message_decrypt_signal m addr e = (Ok p, e') ->
  exists r r' rng' k,
    load_session addr (session_store e) = Ok (Some r) /\
    decrypt_message_with_record m Whisper (r, csprng e) = (Ok p, (r', rng')) /\
    (exists s, current_session r' = Some s /\ remote_identity_key s = Ok (Some k)) /\
    is_trusted_identity addr k Receiving (identity_store e) = Ok true /\
    load_session addr (session_store e') = Ok (Some r').
Proof.
  unfold message_decrypt_signal. rewrite env_reads.
  destruct (load_session addr (session_store e)) as [[r|]| |]; try done.
  all: rewrite env_lift; cbn [ok_or]; try done.
  rewrite env_local_rng.
  destruct (decrypt_message_with_record m Whisper (r, csprng e)) as [[p'| |] [r' rng']] eqn:Ed; try done.
  rewrite env_lift. unfold expect. destruct (current_session r') as [s|] eqn:Ecur; [|done].
  rewrite env_lift. unfold expect_ok. destruct (remote_identity_key s) as [k| |] eqn:Er; try done.
  rewrite env_lift. destruct k as [k|]; [|done]. rewrite env_reads. cbn [set_csprng identity_store].
  destruct (is_trusted_identity addr k Receiving (identity_store e)) as [[]| |] eqn:Et; try done.
  cbn [negb]. rewrite env_identities.
  destruct (save_identity addr k _) as [[c| |] i]; try done. rewrite env_sessions.
  destruct (store_session_ok addr r' (session_store (set_identity_store i (set_csprng rng' e))))
    as (ss' & -> & Hload & _).
  intros [= -> <-]. exists r, r', rng', k. split_and!; [done|done|by exists s|done|done].
Qed.

(** C11: no message is accepted twice.  Once [message_decrypt_signal] has
    accepted a message, offering it again to the same session store fails with
    [DuplicatedMessage], whatever happened to the other stores and the random
    number generator, and changes nothing. *)
Theorem no_replay m addr (e e' e2 : Env SS IS PS SPS KS) p :
  (forall r, load_session addr (session_store e) = Ok (Some r) -> record_wf r) ->
  0 <= sm_counter m < u32_max ->
  message_decrypt_signal m addr e = (Ok p, e') ->
  session_store e2 = session_store e' ->
  exists idx, message_decrypt_signal m addr e2
              = (Err (DuplicatedMessage idx (sm_counter m)), e2).
Proof.
  intros Hwf Hn H He2.
  destruct (message_decrypt_signal_Ok m addr e e' p H) as (r & r' & rng' & k & Hl & Hd & _ & _ & Hl').
  destruct (decrypt_message_with_record_used m Whisper r (csprng e) p r' rng' (Hwf r Hl) Hn Hd)
    as (s' & Hcur & _ & Hu & Hv & Hk).
  destruct (decrypt_record_duplicate m Whisper r' s' (csprng e2) Hcur Hu Hv Hk) as [idx Hdup].
  exists idx. unfold message_decrypt_signal. rewrite env_reads, He2, Hl', env_lift. cbn [ok_or].
  rewrite env_local_rng, Hdup. by rewrite set_csprng_same.
Qed.
End no_replay.

(** ** Failures leave the session store alone *)

Section failures.
Context {P : Primitives} {SS IS PS SPS KS : Type}
  `{!SessionStore SS, !IdentityKeyStore IS, !PreKeyStore PS, !SignedPreKeyStore SPS,
    !KyberPreKeyStore KS} {LS : SessionStoreLaws SS}
  `{!Prost storage.SessionStructure, !Prost storage.RecordStructure,
    !Prost wire.SignalMessage, !Prost wire.PreKeySignalMessage}.
Implicit Types e : Env SS IS PS SPS KS.

(** [m] never writes the session store; [m] writes it only if it succeeds. *)
Definition sessions_kept {A} (m : EM SS IS PS SPS KS A) : Prop :=
  forall e, session_store (m e).2 = session_store e.
Definition sessions_kept_on_failure {A} (m : EM SS IS PS SPS KS A) : Prop :=
  forall e, match m e with
            | (Ok _, _) => True
            | (_, e') => session_store e' = session_store e
            end.

Lemma kept_reads {A} (f : Env SS IS PS SPS KS -> Result A) : sessions_kept (reads f).
Proof. by intros e. Qed.
Lemma kept_get : sessions_kept get.
Proof. by intros e. Qed.
Lemma kept_lift {A} (m : Result A) : sessions_kept (lift m).
Proof. by intros e. Qed.
Lemma kept_ret {A} (a : A) : sessions_kept (mret a).
Proof. by intros e. Qed.
Lemma kept_identities {A} (m : StoreM IS A) : sessions_kept (with_identities m).
Proof. intros e. unfold with_identities. by rewrite zoom_eq. Qed.
Lemma kept_pre_keys {A} (m : StoreM PS A) : sessions_kept (with_pre_keys m).
Proof. intros e. unfold with_pre_keys. by rewrite zoom_eq. Qed.
Lemma kept_kyber {A} (m : StoreM KS A) : sessions_kept (with_kyber m).
Proof. intros e. unfold with_kyber. by rewrite zoom_eq. Qed.
Lemma kept_rng {A} (m : M Rng SignalProtocolError A) : sessions_kept (with_rng m).
Proof. intros e. unfold with_rng. by rewrite zoom_eq. Qed.
Lemma kept_local_rng {L A} (l : L) (m : M (L * Rng) SignalProtocolError A) :
  sessions_kept (with_local_rng l m).
Proof.
  intros e. unfold with_local_rng, with_local. rewrite zoom_eq.
  by destruct (m (l, csprng e)) as [r [l' rng]].
Qed.
Lemma kept_bind {A B} (m : EM SS IS PS SPS KS A) (k : A -> EM SS IS PS SPS KS B) :
  sessions_kept m -> (forall a, sessions_kept (k a)) -> sessions_kept (m ≫= k).
Proof.
  intros Hm Hk e. rewrite M_bind_eq. specialize (Hm e).
  destruct (m e) as [[a|x|] e1]; cbn in *; [|done|done]. by rewrite Hk.
Qed.

Lemma failure_kept {A} (m : EM SS IS PS SPS KS A) : sessions_kept m -> sessions_kept_on_failure m.
Proof. intros Hm e. specialize (Hm e). by destruct (m e) as [[a|x|] e1]. Qed.
Lemma failure_bind {A B} (m : EM SS IS PS SPS KS A) (k : A -> EM SS IS PS SPS KS B) :
  sessions_kept m -> (forall a, sessions_kept_on_failure (k a)) ->
  sessions_kept_on_failure (m ≫= k).
Proof.
  intros Hm Hk e. rewrite M_bind_eq. specialize (Hm e).
  destruct (m e) as [[a|x|] e1]; cbn in *; [|done|done].
  specialize (Hk a e1). destruct (k a e1) as [[b|x|] e2]; [done|congruence|congruence].
Qed.
Lemma failure_store a r : sessions_kept_on_failure (with_sessions (store_session a r)).
Proof.
  intros e. unfold with_sessions. rewrite zoom_eq.
  by destruct (store_session_ok a r (session_store e)) as (s' & -> & _).
Qed.
(** Once the record is stored, only a value is returned. *)
Lemma failure_store_last {A} a r (v : A) :
  sessions_kept_on_failure (_ ← with_sessions (store_session a r); mret v).
Proof.
  intros e. rewrite env_sessions.
  by destruct (store_session_ok a r (session_store e)) as (s' & -> & _).
Qed.

Ltac solve_kept := repeat first
  [ apply failure_store_last | apply failure_store
  | apply kept_reads | apply kept_get | apply kept_lift | apply kept_ret | apply kept_identities
  | apply kept_pre_keys | apply kept_kyber | apply kept_rng | apply kept_local_rng
  | apply kept_bind | apply failure_bind | progress intros | case_match
  | apply failure_kept ].

(** C37: an encryption, decryption or session setup that fails leaves the
    session store exactly as it was. *)
Theorem failures_keep_sessions :
  (forall ptext addr now, sessions_kept_on_failure (message_encrypt ptext addr now)) /\
  (forall c addr, sessions_kept_on_failure (message_decrypt c addr)) /\
  (forall addr bundle now, sessions_kept_on_failure (process_prekey_bundle addr bundle now)).
Proof.
  split_and!.
  - intros. unfold message_encrypt. solve_kept.
  - intros c addr. unfold message_decrypt, message_decrypt_signal, message_decrypt_prekey, throw.
    solve_kept.
  - intros. unfold process_prekey_bundle, throw. solve_kept.
Qed.
End failures.
