(* ===== verification/EndToEnd.v ===== *)
(** * EndToEnd: what is encrypted on one side is decrypted on the other

    [encrypt_with_state] advances the sending chain by one and seals the
    message under the key of its counter; a session whose receiving chain
    grants that counter opens it; and the first message to a fresh bundle
    passes through the whole stack, from [process_prekey_bundle] to
    [message_decrypt]. *)

From S2P Require Import Prelude Types Primitives Proto Curve Kem Crypto IdentityKey RatchetKeys Messages SessionState SessionRecord Ratchet KeyStream SenderKeys Stores Session SessionCipher ChainRefinement SessionInvariant CipherSpec.
Open Scope string_scope.
Open Scope list_scope.
Open Scope Z_scope.

Section sealing.
Context {P : Primitives} {A : AesLaws}
  `{!Prost wire.SignalMessage, !Prost wire.PreKeySignalMessage}
  {LS : ProstLaws wire.SignalMessage wire.SignalMessage_wf}
  {LP : ProstLaws wire.PreKeySignalMessage wire.PreKeySignalMessage_wf}.

(** [m] carries [p], from [from] to [to], under the keys of [g] and [pq]. *)
Definition sealed (m : SignalMessage) (g : MessageKeyGenerator) (pq : option bytes)
    (from to : IdentityKey) (p : bytes) : Prop :=
  exists keys : MessageKeys,
    @generate_keys P SignalProtocolError g pq = Ok keys /\
    verify_mac m from to (arr (mac_key keys)) = Ok true /\
    aes_256_cbc_decrypt (sm_ciphertext m) (arr (cipher_key keys)) (arr (iv keys)) = Ok p.

Lemma decrypt_tail_ok m mt g pq from to p s rng rcv :
  sealed m g pq from to p ->
  spqr_recv (pq_ratchet_state s) (sm_pq_ratchet m) = Ok rcv -> recv_key rcv = pq ->
  remote_identity_key s = Ok (Some from) -> local_identity_key s = Ok to ->
  decrypt_tail m mt g (s, rng) =
    (Ok p, (clear_unacknowledged_pre_key_message_state
              (upd (Upd.put_pq_ratchet_state (recv_state rcv)) s), rng)).
Proof.
  intros (keys & Hk & Hmac & Hd) Hrecv Hpq Hrem Hloc. unfold decrypt_tail. rewrite step_state.
  unfold map_err_M, pq_ratchet_recv. rewrite M_bind_eq. unfold reads. rewrite Hrecv.
  rewrite M_bind_eq. unfold modify, mret, M_ret. cbn [map_err]. rewrite Hpq.
  rewrite step_lift, Hk, step_get. 
  change (remote_identity_key (upd _ s)) with (remote_identity_key s). rewrite Hrem.
  rewrite step_lift. cbn [ok_or]. rewrite step_get.
  change (local_identity_key (upd _ s)) with (local_identity_key s). rewrite Hloc.
  rewrite step_lift, Hmac. cbn [negb]. rewrite step_lift, Hd. cbn [map_err].
  unfold clear_unacknowledged_pre_key_message. by rewrite step_modify.
Qed.

(** The inner message of what [message_encrypt] returns. *)
Definition inner_message (c : CiphertextMessage) : option SignalMessage :=
  match c with
  | CMSignalMessage m => Some m
  | CMPreKeySignalMessage m => Some (pk_message m)
  | _ => None
  end.

(** The session after a message was sent. *)
Definition after_send (ck : ChainKey) (pq : bytes) (s : SessionState) : SessionState :=
  (set_sender_chain_key (next_chain_key ck) (upd (Upd.put_pq_ratchet_state pq) s)).2.

Lemma seal v ck pq rk pc from to pqmsg p :
  3 <= v <= 4 -> is_u32 (chain_key_index ck) -> is_u32 pc ->
  exists keys ctext m,
    (forall E, @generate_keys P E (message_keys ck) pq = Ok keys) /\
    aes_256_cbc_encrypt p (arr (cipher_key keys)) (arr (iv keys)) = Ok ctext /\
    SignalMessage_new v (arr (mac_key keys)) rk (chain_key_index ck) pc ctext from to pqmsg = Ok m /\
    SignalMessage_try_from (sm_serialized m) = Ok m /\
    m = mkSignalMessage v rk (chain_key_index ck) pc ctext pqmsg (sm_serialized m) /\
    sealed m (message_keys ck) pq from to p.
Proof.
  intros Hv Hi Hpc. rewrite message_keys_eq.
  set (keys := derive_keys (seed_at (chain_key_key ck) 0) pq (chain_key_index ck)).
  destruct (aes_256_cbc_round_trip p (cipher_key keys) (iv keys)) as (ctext & Henc & Hdec).
  destruct (SignalMessage_new_spec v (arr (mac_key keys)) rk (chain_key_index ck) pc ctext from to
              pqmsg (array_length _) Hv Hi Hpc) as (m & Hnew & Hm & Hparse & Hmac).
  exists keys, ctext, m. split_and!; [done|done|done|done|done|].
  exists keys. split_and!; [done|done|]. by rewrite Hm.
Qed.

(** What a session needs to send: its chain key, its ratchet key, a version
    that is still supported and the two identities. *)
Definition can_send (s : SessionState) (ck : ChainKey) (rk : PublicKey) (v : Z)
    (from to : IdentityKey) : Prop :=
  get_sender_chain_key s = Ok ck /\ is_u32 (chain_key_index ck) /\
  sender_ratchet_key s = Ok rk /\ session_version s = Ok v /\ 3 <= v <= 4 /\
  local_identity_key s = Ok from /\ remote_identity_key s = Ok (Some to) /\
  is_u32 (previous_counter s).

Definition items_payload (items : UnacknowledgedPreKeyMessageItems) : option KyberPayload :=
  match un_kyber_pre_key_id items, un_kyber_ciphertext items with
  | Some id, Some ct => Some (mkKyberPayload id ct)
  | _, _ => None
  end.

(** The unacknowledged pre-key items are in range and not too old. *)
Definition items_ok (s : SessionState) (v now : Z)
    (items : option UnacknowledgedPreKeyMessageItems) : Prop :=
  match items with
  | None => True
  | Some it =>
      (exists expiry, (forall E, @system_time_add E (un_timestamp it) MAX_UNACKNOWLEDGED_SESSION_AGE
                                 = Ok expiry) /\ now <= expiry) /\
      is_u32 (local_registration_id s) /\ opt_in_range is_u32 (un_pre_key_id it) /\
      is_u32 (un_signed_pre_key_id it) /\ kyber_payload_ok v (items_payload it)
  end.

(** The message that goes with the items. *)
Definition wrapped (s : SessionState) (v : Z) (from : IdentityKey)
    (items : option UnacknowledgedPreKeyMessageItems) (m : SignalMessage)
    (c : CiphertextMessage) : Prop :=
  match items with
  | None => c = CMSignalMessage m
  | Some it => exists ser,
      let pm := mkPreKeySignalMessage v (local_registration_id s) (un_pre_key_id it)
                  (un_signed_pre_key_id it) (items_payload it) (un_base_key it) from m ser in
      c = CMPreKeySignalMessage pm /\ PreKeySignalMessage_try_from ser = Ok pm
  end.

Lemma encrypt_with_state_ok s ck rk v from to p addr now rng snd rng' items :
  can_send s ck rk v from to ->
  spqr_send (pq_ratchet_state s) rng = (Ok snd, rng') ->
  unacknowledged_pre_key_message_items s = Ok items -> items_ok s v now items ->
  exists c m,
    encrypt_with_state p addr now (s, rng) =
      (Ok (c, to), (after_send ck (send_state snd) s, rng')) /\
    wrapped s v from items m c /\ SignalMessage_try_from (sm_serialized m) = Ok m /\
    sealed m (message_keys ck) (send_key snd) from to p /\
    sm_message_version m = v /\ sm_sender_ratchet_key m = rk /\
    sm_counter m = chain_key_index ck /\ sm_pq_ratchet m = send_msg snd.
Proof.
  intros (Hck & Hi & Hrk & Hver & Hv & Hfrom & Hto & Hpc) Hsend Hitems Hok.
  destruct (seal v ck (send_key snd) rk (previous_counter s) from to (send_msg snd) p Hv Hi Hpc)
    as (keys & ctext & m & Hkeys & Henc & Hnew & Hparse & Hm & Hsealed).
  assert (Hrest : sm_message_version m = v /\ sm_sender_ratchet_key m = rk /\
    sm_counter m = chain_key_index ck /\ sm_pq_ratchet m = send_msg snd) by (by rewrite Hm).
  set (s1 := upd (Upd.put_pq_ratchet_state (send_state snd)) s).
  unfold encrypt_with_state. rewrite step_get, Hck, M_bind_eq. unfold map_err_M, pq_ratchet_send.
  rewrite Hsend. cbn [map_err]. fold s1. rewrite step_lift, Hkeys, step_get.
  change (sender_ratchet_key s1) with (sender_ratchet_key s). rewrite Hrk.
  rewrite M_bind_eq. cbn [on_state zoom gets fst]. 
  rewrite step_get. change (session_version s1) with (session_version s). rewrite Hver, step_lift.
  rewrite (proj2 (Z.ltb_lt v 256)) by lia. rewrite step_get.
  change (local_identity_key s1) with (local_identity_key s). rewrite Hfrom, step_get.
  change (remote_identity_key s1) with (remote_identity_key s). rewrite Hto, step_lift.
  cbn [ok_or]. rewrite step_lift, Henc. cbn [map_err]. rewrite step_get.
  change (unacknowledged_pre_key_message_items s1) with (unacknowledged_pre_key_message_items s).
  change (previous_counter s1) with (previous_counter s).
  rewrite Hitems. destruct items as [it|].
  - destruct Hok as ((expiry & Hexp & Hnow) & Hreg & Hpk & Hspk & Hkyb).
    destruct (PreKeySignalMessage_new_spec v (local_registration_id s) (un_pre_key_id it)
      (un_signed_pre_key_id it) (items_payload it) (un_base_key it) from m Hv Hreg Hpk Hspk Hkyb
      Hparse) as (pm & Hpm & Hpmeq & Hpmparse).
    exists (CMPreKeySignalMessage pm), m. split; [|split; [|done]].
    + rewrite M_bind_eq, step_lift, Hexp. rewrite (proj2 (Z.ltb_ge _ _)) by done.
      rewrite M_bind_eq. cbn [on_state zoom gets fst]. rewrite step_lift, Hnew, step_lift.
      change (local_registration_id s1) with (local_registration_id s).
      fold (items_payload it). by rewrite Hpm.
    + exists (pk_serialized pm). cbv zeta. rewrite <- Hpmeq. done.
  - exists (CMSignalMessage m), m. split; [|done]. rewrite M_bind_eq, step_lift, Hnew. done.
Qed.
End sealing.

(** ** The sending chain *)

Section advance.
Context {P : Primitives} `{!Prost wire.SignalMessage, !Prost wire.PreKeySignalMessage}.

Lemma set_sender_chain_key_reads s ck k rk pq :
  get_sender_chain_key s = Ok ck -> sender_ratchet_key s = Ok rk ->
  let s' := (set_sender_chain_key k (upd (Upd.put_pq_ratchet_state pq) s)).2 in
  get_sender_chain_key s' = Ok k /\ sender_ratchet_key s' = Ok rk.
Proof.
  unfold get_sender_chain_key at 1, sender_ratchet_key at 1. destruct s as [s]. cbn [session].
  destruct (storage.ss_sender_chain s) as [c|] eqn:Ec; [|done]. intros _ Hrk. cbv zeta.
  unfold get_sender_chain_key, sender_ratchet_key. cbn. rewrite Ec. cbn. rewrite try_array_arr.
  by destruct k.
Qed.

Lemma SignalMessage_new_fields v k rk c pc ct s r pq m :
  SignalMessage_new v k rk c pc ct s r pq = Ok m ->
  sm_counter m = c /\ sm_sender_ratchet_key m = rk /\ sm_previous_counter m = pc.
Proof. unfold SignalMessage_new. intros H. inv_M. done. Qed.

(** What one successful encryption did. *)
Definition advanced (s : SessionState) (c : CiphertextMessage) (to : IdentityKey)
    (s' : SessionState) : Prop :=
  exists ck rk m,
    get_sender_chain_key s = Ok ck /\ sender_ratchet_key s = Ok rk /\ inner_message c = Some m /\
    sm_counter m = chain_key_index ck /\ sm_sender_ratchet_key m = rk /\
    sm_previous_counter m = previous_counter s /\
    get_sender_chain_key s' = Ok (next_chain_key ck) /\ sender_ratchet_key s' = Ok rk /\
    remote_identity_key s = Ok (Some to) /\
    storage.ss_receiver_chains (session s') = storage.ss_receiver_chains (session s) /\
    storage.ss_root_key (session s') = storage.ss_root_key (session s) /\
    previous_counter s' = previous_counter s /\
    storage.ss_pending_pre_key (session s') = storage.ss_pending_pre_key (session s) /\
    (message_type c = PreKey <-> storage.ss_pending_pre_key (session s) <> None).

Lemma encrypt_with_state_advances p addr now s rng c to s' rng' :
  encrypt_with_state p addr now (s, rng) = (Ok (c, to), (s', rng')) -> advanced s c to s'.
Proof.
  unfold encrypt_with_state. rewrite step_get.
  destruct (get_sender_chain_key s) as [ck| |] eqn:Hck; [|done|done].
  rewrite M_bind_eq. unfold map_err_M, pq_ratchet_send.
  destruct (spqr_send _ rng) as [[snd| |] rng1]; [|done|done]. cbn [map_err].
  set (s1 := upd _ s). rewrite step_lift.
  destruct (generate_keys (message_keys ck) (send_key snd)) as [keys| |]; [|done|done].
  rewrite step_get. change (sender_ratchet_key s1) with (sender_ratchet_key s).
  destruct (sender_ratchet_key s) as [rk| |] eqn:Hrk; [|done|done].
  rewrite M_bind_eq. cbn [on_state zoom gets fst]. rewrite step_get.
  destruct (session_version s1) as [v| |]; [|done|done]. rewrite step_lift.
  destruct (v <? 256); [|done]. rewrite step_get.
  destruct (local_identity_key s1) as [from| |]; [|done|done]. rewrite step_get.
  change (remote_identity_key s1) with (remote_identity_key s).
  destruct (remote_identity_key s) as [to'| |] eqn:Hto; [|done|done]. rewrite step_lift.
  destruct to' as [to'|]; [|done]. cbn [ok_or]. rewrite step_lift.
  destruct (map_err _ (aes_256_cbc_encrypt p _ _)) as [ctext| |]; [|done|done]. rewrite step_get.
  change (unacknowledged_pre_key_message_items s1) with (unacknowledged_pre_key_message_items s).
  change (previous_counter s1) with (previous_counter s).
  destruct (set_sender_chain_key_reads s ck (next_chain_key ck) rk (send_state snd) Hck Hrk) as [Hn1 Hn2].
  assert (Hpend : forall items, unacknowledged_pre_key_message_items s = Ok items ->
    items <> None <-> storage.ss_pending_pre_key (session s) <> None).
  { unfold unacknowledged_pre_key_message_items. intros items.
    destruct (storage.ss_pending_pre_key (session s)); [|by intros [= <-]].
    intros H. inv_M. done. }
  destruct (unacknowledged_pre_key_message_items s) as [[it|]| |] eqn:Hit; [| |done|done].
  - rewrite M_bind_eq, step_lift.
    destruct (system_time_add _ _) as [expiry| |]; [|done|done].
    destruct (expiry <? now); [done|]. rewrite M_bind_eq. cbn [on_state zoom gets fst]. rewrite step_lift.
    destruct (SignalMessage_new _ _ _ _ _ _ _ _ _) as [m| |] eqn:Hm; [|done|done].
    rewrite step_lift. unfold PreKeySignalMessage_new. 
    intros [= <- <- <- <-]. exists ck, rk, m.
    destruct (SignalMessage_new_fields _ _ _ _ _ _ _ _ _ m Hm) as (? & ? & ?).
    split_and!; try done. split; [intros _; by apply (Hpend _ eq_refl)|done].
  - rewrite M_bind_eq, step_lift.
    destruct (SignalMessage_new _ _ _ _ _ _ _ _ _) as [m| |] eqn:Hm; [|done|done].
    intros [= <- <- <- <-]. exists ck, rk, m.
    destruct (SignalMessage_new_fields _ _ _ _ _ _ _ _ _ m Hm) as (? & ? & ?).
    split_and!; try done. split; [done|]. intros Hne. by apply (Hpend None eq_refl) in Hne.
Qed.

(** Sending a list of messages, stopping at the first failure. *)
Fixpoint encrypt_all (ps : list bytes) (addr : ProtocolAddress) (now : Z)
  : StRngM P (list CiphertextMessage) :=
  match ps with
  | [] => mret []
  | p :: ps =>
      '(c, _) ← encrypt_with_state p addr now;
      cs ← encrypt_all ps addr now;
      mret (c :: cs)
  end.

(** The messages of a sending chain are numbered consecutively from the
    chain's index, carry the same ratchet key, and leave the chain after the
    last of them; receiving chains and the root key are not touched.  The
    counters are [u32]s: the chain must end before they run out. *)
Theorem sent_counters_consecutive ps addr now : forall s rng cs s' rng' ck rk,
  encrypt_all ps addr now (s, rng) = (Ok cs, (s', rng')) ->
  get_sender_chain_key s = Ok ck -> sender_ratchet_key s = Ok rk ->
  0 <= chain_key_index ck -> chain_key_index ck + Z.of_nat (length ps) <= u32_max ->
  (fun c => sm_counter <$> inner_message c) <$> cs =
    Some <$> seqZ (chain_key_index ck) (Z.of_nat (length ps)) /\
  Forall (fun c => sm_sender_ratchet_key <$> inner_message c = Some rk) cs /\
  get_sender_chain_key s' =
    Ok (mkChainKey (chain_after (length ps) (chain_key_key ck))
          (chain_key_index ck + Z.of_nat (length ps))) /\
  storage.ss_receiver_chains (session s') = storage.ss_receiver_chains (session s) /\
  root_key s' = root_key s.
Proof.
  induction ps as [|p ps IH]; intros s rng cs s' rng' ck rk H Hck Hrk H0 Hmax.
  - cbn in H. injection H as <- <- <-. cbn. split; [done|]. split; [constructor|].
    split; [|done]. rewrite Hck, Z.add_0_r. by destruct ck.
  - cbn [encrypt_all] in H. rewrite M_bind_eq in H.
    destruct (encrypt_with_state p addr now (s, rng)) as [[[c to]| |] [s1 rng1]] eqn:Henc; [|done|done].
    rewrite M_bind_eq in H.
    destruct (encrypt_all ps addr now (s1, rng1)) as [[cs1| |] [s2 rng2]] eqn:Hall; [|done|done].
    injection H as <- <- <-.
    destruct (encrypt_with_state_advances p addr now s rng c to s1 rng1 Henc)
      as (ck' & rk' & m & Hck' & Hrk' & Hin & Hc & Hr & _ & Hck1 & Hrk1 & _ & Hch & Hroot & _).
    rewrite Hck in Hck'. injection Hck' as <-. rewrite Hrk in Hrk'. injection Hrk' as <-.
    cbn [length] in Hmax |- *.
    assert (Hi : chain_key_index (next_chain_key ck) = chain_key_index ck + 1).
    { unfold next_chain_key. cbn [chain_key_index]. apply u32_add_small. lia. }
    destruct (IH s1 rng1 cs1 s2 rng2 (next_chain_key ck) rk Hall Hck1 Hrk1) as (Hcs & Hf & Hlast & Hch2 & Hr2);
      [lia|lia|]. rewrite Hi in Hcs, Hlast. split_and!.
    + cbn [fmap list_fmap]. rewrite Hcs, Hin. cbn. rewrite Hc.
      rewrite (seqZ_cons (chain_key_index ck)) by lia. cbn [fmap list_fmap].
      f_equal. do 2 f_equal; lia.
    + constructor; [|done]. rewrite Hin. cbn. by rewrite Hr.
    + rewrite Hlast. do 2 f_equal; [|lia]. rewrite chain_after_S. done.
    + congruence.
    + rewrite Hr2. unfold root_key. by rewrite Hroot.
Qed.
End advance.

(** ** Messages within an established session *)

Section delivery.
Context {P : Primitives} {A : AesLaws}
  `{!Prost wire.SignalMessage, !Prost wire.PreKeySignalMessage}
  {LS : ProstLaws wire.SignalMessage wire.SignalMessage_wf}
  {LP : ProstLaws wire.PreKeySignalMessage wire.PreKeySignalMessage_wf}.

(** [r] can open what comes from [from] on the chain of [rk]. *)
Definition can_receive (r : SessionState) (rk : PublicKey) (b : array 32) (st : stream) (v : Z)
    (from to : IdentityKey) (self : bool) : Prop :=
  refines r rk b st /\ session_version r = Ok v /\ (exists k, root_key r = Ok k) /\
  remote_identity_key r = Ok (Some from) /\ local_identity_key r = Ok to /\
  session_with_self r = Ok self.

Lemma can_receive_core r r' rk b st v from to self :
  core r' = core r -> can_receive r rk b st v from to self -> can_receive r' rk b st v from to self.
Proof.
  destruct r as [[]], r' as [[]]. unfold core. cbn. intros [= -> -> -> -> -> ->]. done.
Qed.

(** Opening a sealed message: the stream decides. *)
Lemma open_sealed m mt r rk b st v from to self p pq rcv rng :
  can_receive r rk b st v from to self -> 0 <= sm_counter m < u32_max ->
  sm_sender_ratchet_key m = rk -> sm_message_version m = v ->
  (stream_get self (sm_counter m) st).1 = Granted ->
  sealed m (message_key_at b (sm_counter m)) pq from to p ->
  spqr_recv (pq_ratchet_state r) (sm_pq_ratchet m) = Ok rcv -> recv_key rcv = pq ->
  exists r', decrypt_message_with_state m mt (r, rng) = (Ok p, (r', rng)) /\
    can_receive r' rk b (stream_get self (sm_counter m) st).2 v from to self /\
    sender_ratchet_key r' = sender_ratchet_key r.
Proof.
  intros ([Hok (c & i & Hc & Hst)] & Hv & [k Hk] & Hrem & Hloc & Hself) Hn Hrk Hver Hget Hs Hrcv Hpq.
  rewrite decrypt_message_with_state_eq, Hk, Hv, Hver, Z.eqb_refl. cbn [negb]. rewrite M_bind_eq, Hrk.
  rewrite (message_key_request_eq r rk b st rng mt _ c i Hc Hst).
  pose proof (get_or_create_message_key_stream r rk b st self mt (sm_counter m) c i Hc Hst Hok
    (fun _ => Hself) Hn) as H.
  pose proof (stream_get_ok self (sm_counter m) st Hok (proj1 Hn)) as Hok'.
  destruct (stream_get self (sm_counter m) st) as [vd st']. cbn [fst snd] in *. subst vd.
  destruct H as (c' & -> & Hck & Hst').
  rewrite (decrypt_tail_ok m mt _ pq from to p (set_chain i c' r) rng rcv) by done.
  destruct (has_chain_set r rk c i c' Hc Hck) as [Hc' _].
  eexists. split; [done|]. split; [|done]. eapply (can_receive_core (set_chain i c' r)); [done|].
  split; [split; [done|by exists c', i]|]. split_and!; try done. by exists k.
Qed.

Lemma after_send_can_send s ck rk v from to pq :
  can_send s ck rk v from to -> chain_key_index ck < u32_max ->
  can_send (after_send ck pq s) (next_chain_key ck) rk v from to.
Proof.
  intros (Hck & Hi & Hrk & Hrest) Hlt. unfold after_send, can_send.
  unfold get_sender_chain_key in Hck. unfold sender_ratchet_key in Hrk.
  destruct s as [s]. cbn [session] in *.
  destruct (storage.ss_sender_chain s) as [c|] eqn:Ec; [|done].
  split.
  { unfold get_sender_chain_key. cbn. rewrite Ec. cbn. rewrite try_array_arr. done. }
  split.
  { unfold next_chain_key, is_u32 in *. cbn [chain_key_index]. rewrite u32_add_small by lia. lia. }
  split; [|done]. unfold sender_ratchet_key. cbn. by rewrite Ec.
Qed.

(** C9: messages of an established session arrive.  Let Alice's sending chain
    be at counter [n] of the chain that starts at [b], and let Bob's session
    hold that chain in a state that grants [n] (it was not used, and is at
    most 25000 ahead); let the post-quantum ratchets agree.  Then what Alice's
    session encrypts parses back and Bob's session decrypts it to the same
    plaintext, after which [n] is used up on his side and hers stands at
    [n + 1]: the two sessions are again as the theorem needs them. *)
Theorem established_session_delivers s r rk b n st v from to self p addr now mt rng rngb snd rng'
    rcv items :
  can_send s (chain_key_at b n) rk v from to -> 0 <= n < u32_max ->
  unacknowledged_pre_key_message_items s = Ok items -> items_ok s v now items ->
  can_receive r rk b st v from to self ->
  (stream_get self n st).1 = Granted ->
  spqr_send (pq_ratchet_state s) rng = (Ok snd, rng') ->
  spqr_recv (pq_ratchet_state r) (send_msg snd) = Ok rcv -> recv_key rcv = send_key snd ->
  exists c m s' r',
    encrypt_with_state p addr now (s, rng) = (Ok (c, to), (s', rng')) /\
    inner_message c = Some m /\ SignalMessage_try_from (sm_serialized m) = Ok m /\
    sm_counter m = n /\
    decrypt_message_with_state m mt (r, rngb) = (Ok p, (r', rngb)) /\
    can_receive r' rk b (stream_get self n st).2 v from to self /\
    can_send s' (chain_key_at b (n + 1)) rk v from to.
Proof.
  intros Hs Hn Hitems Hok Hr Hget Hsend Hrecv Hkey.
  destruct (encrypt_with_state_ok s _ rk v from to p addr now rng snd rng' items Hs Hsend Hitems Hok)
    as (c & m & Henc & Hwrap & Hparse & Hseal & Hver & Hrk & Hcount & Hpq).
  cbn [chain_key_at chain_key_index] in Hcount.
  rewrite message_keys_at, <- Hcount in Hseal. rewrite <- Hcount in Hget |- *.
  rewrite <- Hpq in Hrecv.
  destruct (open_sealed m mt r rk b st v from to self p (send_key snd) rcv rngb Hr
    ltac:(rewrite Hcount; lia) Hrk Hver Hget Hseal Hrecv Hkey) as (r' & Hdec & Hr' & _).
  exists c, m, (after_send (chain_key_at b n) (send_state snd) s), r'.
  split_and!; try done.
  - destruct items as [it|]; [destruct Hwrap as (ser & -> & _)|rewrite Hwrap]; done.
  - rewrite Hcount, <- next_chain_key_at by done. apply after_send_can_send; [done|]. cbn. lia.
Qed.
End delivery.

(** ** The first message *)

Section first_message.
Context {P : Primitives} {X : X25519Laws} {A : AesLaws} {K : KemLaws} {Q : SpqrLaws}.
Context {SS IS PS SPS KS : Type}
  `{!SessionStore SS, !IdentityKeyStore IS, !PreKeyStore PS, !SignedPreKeyStore SPS,
    !KyberPreKeyStore KS} {LSS : SessionStoreLaws SS} {LIS : IdentityKeyStoreLaws IS}
  `{!Prost storage.SessionStructure, !Prost storage.RecordStructure,
    !Prost wire.SignalMessage, !Prost wire.PreKeySignalMessage}
  {LS : ProstLaws wire.SignalMessage wire.SignalMessage_wf}
  {LP : ProstLaws wire.PreKeySignalMessage wire.PreKeySignalMessage_wf}.
Abbreviation E := (Env SS IS PS SPS KS).
Implicit Types (e f : E) (bundle : PreKeyBundle) (b : bob_keys).

(** [bundle] publishes the keys [b], signed by their identity. *)
Definition bundle_of bundle b : Prop :=
  b_identity_key bundle = ikp_identity_key (bk_identity b) /\
  spk_b_public_key (b_ec_signed_pre_key bundle) = kp_public_key (bk_signed b) /\
  kpk_b_public_key (b_kyber_pre_key bundle) = kkp_public_key (bk_kyber b) /\
  b_pre_key_public bundle = kp_public_key <$> bk_one_time b /\
  (is_Some (b_pre_key_id bundle) <-> is_Some (bk_one_time b)) /\
  verify_signature (ik_public_key (b_identity_key bundle))
    (PublicKey_serialize (spk_b_public_key (b_ec_signed_pre_key bundle)))
    (spk_b_signature (b_ec_signed_pre_key bundle)) = true /\
  verify_signature (ik_public_key (b_identity_key bundle))
    (Key_serialize (kpk_b_public_key (b_kyber_pre_key bundle)))
    (kpk_b_signature (b_kyber_pre_key bundle)) = true /\
  opt_in_range is_u32 (b_pre_key_id bundle) /\ is_u32 (spk_b_id (b_ec_signed_pre_key bundle)) /\
  is_u32 (kpk_b_id (b_kyber_pre_key bundle)).

(** Alice has an identity, trusts Bob's and has any record for him. *)
Definition alice_ready e (a_id : IdentityKeyPair) (reg : Z) (bob : ProtocolAddress)
    (bob_identity : IdentityKey) : Prop :=
  get_identity_key_pair (identity_store e) = Ok a_id /\ generated_identity a_id /\
  get_local_registration_id (identity_store e) = Ok reg /\ is_u32 reg /\
  is_trusted_identity bob bob_identity Sending (identity_store e) = Ok true /\
  exists loaded, load_session bob (session_store e) = Ok loaded /\
    record_bounded (default new_fresh loaded).

(** Alice's session once the bundle is processed. *)
Definition pending_session bundle (base : PublicKey) (now reg : Z) (ct : bytes)
    (s : SessionState) : SessionState :=
  upd (Upd.put_remote_registration_id (b_registration_id bundle))
    (upd (Upd.put_local_registration_id reg)
      (upd (Upd.put_pending_kyber_pre_key
              (Some (storage.mkPendingKyberPreKey (kpk_b_id (b_kyber_pre_key bundle)) ct)))
        (upd (Upd.put_pending_pre_key
                (Some (storage.mkPendingPreKey (b_pre_key_id bundle)
                         (as_i32 (spk_b_id (b_ec_signed_pre_key bundle)))
                         (PublicKey_serialize base) (secs_since_epoch now))))
           s))).

Lemma set_unacknowledged_eq id sid base now kid ct s :
  get_kyber_ciphertext s = Some ct ->
  run_local s (_ ← set_unacknowledged_pre_key_message id sid base now;
               set_unacknowledged_kyber_pre_key_id kid) =
  @Ok InvalidSessionError _ (tt,
    upd (Upd.put_pending_kyber_pre_key (Some (storage.mkPendingKyberPreKey kid ct)))
      (upd (Upd.put_pending_pre_key (Some (storage.mkPendingPreKey id (as_i32 sid)
         (PublicKey_serialize base) (secs_since_epoch now)))) s)).
Proof.
  unfold get_kyber_ciphertext. intros (p & Hp & ->)%fmap_Some. unfold run_local.
  rewrite M_bind_eq. unfold set_unacknowledged_pre_key_message at 1. unfold modify at 1.
  unfold set_unacknowledged_kyber_pre_key_id. rewrite M_bind_eq. unfold reads.
  cbn [upd session Upd.put_pending_pre_key storage.ss_pending_kyber_pre_key]. rewrite Hp. done.
Qed.

Lemma process_prekey_bundle_ok e a_id reg bob bundle b now :
  alice_ready e a_id reg bob (b_identity_key bundle) -> bundle_of bundle b -> bob_keys_ok b ->
  exists e1 base rng rng' sa ct sb r1,
    process_prekey_bundle bob bundle now e = (Ok tt, e1) /\
    well_formed_pair base /\
    initialize_alice_session (alice_parameters a_id base b) rng = (Ok sa, rng') /\
    get_kyber_ciphertext sa = Some ct /\
    initialize_bob_session (bob_parameters b (ikp_identity_key a_id) (kp_public_key base) ct) = Ok sb /\
    mirrored a_id base b sa sb /\
    load_session bob (session_store e1) = Ok (Some r1) /\
    current_session r1 = Some (pending_session bundle (kp_public_key base) now reg ct sa) /\
    is_trusted_identity bob (b_identity_key bundle) Sending (identity_store e1) = Ok true /\
    get_identity_key_pair (identity_store e1) = Ok a_id.
Proof.
  intros (Hid & Hgen & Hreg & _ & Htrust & loaded & Hload & Hb)
         (Hbid & Hbs & Hbk & Hbo & _ & Hsig & Hksig & _) Hkeys.
  unfold process_prekey_bundle. cbv zeta. rewrite env_reads, Htrust. cbn [negb].
  rewrite Hsig, Hksig. cbn [negb]. rewrite env_reads, Hload, env_rng. unfold generate_key_pair.
  pose proof (KeyPair_generate_well_formed (csprng e)) as Hbase.
  destruct (KeyPair_generate (csprng e)) as [base rng] eqn:Ebase. cbn [fst] in Hbase.
  destruct (pqxdh_mirrored a_id base b rng Hgen Hbase Hkeys)
    as (sa & rng' & ct & sb & Halice & Hct & Hbob & Hm).
  rewrite env_reads. cbn [set_csprng identity_store]. rewrite Hid, env_rng. cbn [set_csprng csprng].
  match goal with |- context [initialize_alice_session ?p] =>
    replace p with (alice_parameters a_id base b) end.
  2: { unfold alice_parameters. rewrite Hbid, Hbs, Hbk, Hbo. by destruct (bk_one_time b). }
  rewrite Halice, env_lift.
  rewrite (set_unacknowledged_eq _ _ _ now _ ct) by done. cbn [map_err].
  rewrite env_reads. cbn [set_csprng identity_store]. rewrite Hreg, env_identities.
  cbn [set_csprng identity_store].
  destruct (save_identity_ok bob (b_identity_key bundle) (identity_store e)) as (c & i & Hsave & _ & Hpair & _).
  rewrite Hsave, env_lift. unfold run_local. rewrite promote_state_eq by done. cbn [fmap outcome_fmap].
  unfold with_sessions. rewrite zoom_eq.
  match goal with |- context [store_session bob ?r ?s] =>
    destruct (store_session_ok bob r s) as (ss & Hst & Hld & _); set (r1 := r) in * end.
  rewrite Hst. cbn [fst snd].
  eexists _, base, rng, rng', sa, ct, sb, r1. split_and!; try done.
  - cbn. by eapply save_identity_trusted.
  - cbn. by rewrite Hpair.
Qed.

(** *** Alice's message *)

Definition pending_items bundle (base : PublicKey) (now : Z) (ct : bytes)
  : UnacknowledgedPreKeyMessageItems :=
  mkUnacknowledgedPreKeyMessageItems (b_pre_key_id bundle)
    (spk_b_id (b_ec_signed_pre_key bundle)) base (Some (kpk_b_id (b_kyber_pre_key bundle)))
    (Some ct) (secs_since_epoch now * NANOS_PER_SEC).

Lemma pending_items_eq bundle base now reg ct s :
  is_u32 (spk_b_id (b_ec_signed_pre_key bundle)) -> secs_since_epoch now < 2 ^ 63 ->
  unacknowledged_pre_key_message_items (pending_session bundle base now reg ct s) =
    Ok (Some (pending_items bundle base now ct)).
Proof.
  intros Hs Hnow. unfold unacknowledged_pre_key_message_items.
  cbn [pending_session upd session Upd.put_remote_registration_id Upd.put_local_registration_id
    Upd.put_pending_kyber_pre_key Upd.put_pending_pre_key storage.ss_pending_pre_key
    storage.ss_pending_kyber_pre_key storage.ppk_base_key storage.ppk_timestamp
    storage.ppk_pre_key_id storage.ppk_signed_pre_key_id].
  rewrite PublicKey_deserialize_serialize. cbn [or_ise map_err mbind outcome_bind].
  unfold Duration_from_secs. rewrite system_time_add_ok; rewrite Z.add_0_l.
  - cbn [mbind outcome_bind]. rewrite as_u32_as_i32 by done. done.
  - by rewrite Z.div_mul by done.
Qed.

(** The time of sending is within thirty days of the setup, in whole
    seconds, and within what a [SystemTime] holds. *)
Definition in_time (now later : Z) : Prop :=
  secs_since_epoch now + 60 * 60 * 24 * 30 < 2 ^ 63 /\
  later <= (secs_since_epoch now + 60 * 60 * 24 * 30) * NANOS_PER_SEC.

Lemma secs_nonneg now : 0 <= secs_since_epoch now.
Proof.
  unfold secs_since_epoch. destruct (Z.ltb_spec now 0); [done|].
  apply Z.div_pos; [done|]. unfold NANOS_PER_SEC. lia.
Qed.

Lemma pending_items_ok bundle base now later reg ct s b :
  bundle_of bundle b -> is_u32 reg -> in_time now later ->
  items_ok (pending_session bundle base now reg ct s) 4 later (Some (pending_items bundle base now ct)).
Proof.
  intros (_ & _ & _ & _ & _ & _ & _ & Hpk & Hspk & Hkyb) Hreg [Hmax Hlater].
  pose proof (secs_nonneg now) as H0. split_and!; [|done|done|done|done].
  exists ((secs_since_epoch now + 60 * 60 * 24 * 30) * NANOS_PER_SEC). split; [|done].
  intros E0. pose proof (@expiry_ok E0 _ H0 Hmax) as H. unfold Duration_from_secs in H at 1.
  rewrite system_time_add_ok in H; rewrite Z.add_0_l in *; [done|].
  rewrite Z.div_mul by done. lia.
Qed.

(** *** Bob's session *)

Definition incoming_session (local remote : Z) (s : SessionState) : SessionState :=
  upd (Upd.put_remote_registration_id remote) (upd (Upd.put_local_registration_id local) s).

(** The first message of a chain: once the chain is made, the session is one
    that holds it. *)
Lemma decrypt_new_chain m mt s rng s1 rng1 ck ck' k k1 :
  get_or_create_chain_key (sm_sender_ratchet_key m) (s, rng) = (Ok ck, (s1, rng1)) ->
  get_or_create_chain_key (sm_sender_ratchet_key m) (s1, rng1) = (Ok ck', (s1, rng1)) ->
  ck' = ck -> root_key s = Ok k -> root_key s1 = Ok k1 -> session_version s1 = session_version s ->
  decrypt_message_with_state m mt (s, rng) = 
    (if negb (match session_version s with Ok v => sm_message_version m =? v | _ => true end)
     then (Err (UnrecognizedMessageVersion (sm_message_version m)), (s, rng))
     else decrypt_message_with_state m mt (s1, rng1)).
Proof.
  intros H1 H2 -> Hk Hk1 Hv. rewrite !decrypt_message_with_state_eq, Hk, Hk1, Hv.
  destruct (session_version_ok s) as [v ->]. destruct (sm_message_version m =? v); [|done].
  cbn [negb]. rewrite !M_bind_eq. unfold message_key_request. by rewrite !M_bind_eq, H1, H2.
Qed.

Lemma incoming_creates_chain b a_id ratchet base root root' k chain qb local remote rng :
  well_formed_pair (bk_signed b) ->
  create_chain root (kp_public_key ratchet) (kp_private_key (bk_signed b)) = Ok (root', mkChainKey k 0) ->
  exists s1 rng1 k1,
    get_or_create_chain_key (kp_public_key ratchet)
      (incoming_session local remote (with_sender_chain
        (SessionState_new 4 (ikp_identity_key (bk_identity b)) (ikp_identity_key a_id) root base qb)
        (bk_signed b) (mkChainKey chain 0)), rng) = (Ok (chain_key_at k 0), (s1, rng1)) /\
    root_key s1 = Ok k1 /\ pq_ratchet_state s1 = qb /\
    (exists pk, sender_ratchet_key s1 = Ok pk) /\
    can_receive s1 (kp_public_key ratchet) k (mkStream 0 []) 4 (ikp_identity_key a_id)
      (ikp_identity_key (bk_identity b))
      (bool_decide (ikp_identity_key a_id = ikp_identity_key (bk_identity b))).
Proof.
  intros Hsig Hcc. set (s0 := incoming_session _ _ _). unfold get_or_create_chain_key.
  rewrite step_get. change (get_receiver_chain_key s0 (kp_public_key ratchet)) with (@Ok InvalidSessionError (option ChainKey) None).
  cbv iota. rewrite step_get, (root_key_eq s0 root eq_refl), step_get.
  assert (sender_ratchet_private_key s0 = Ok (kp_private_key (bk_signed b))) as ->.
  { unfold sender_ratchet_private_key. cbn -[PrivateKey_deserialize PrivateKey_serialize].
    by rewrite PrivateKey_read_back. }
  rewrite step_lift, Hcc, step_rng. unfold generate_key_pair.
  destruct (KeyPair_generate rng) as [kp rng1]. rewrite step_lift. cbn [fst snd].
  destruct (create_chain_ok root' (kp_public_key ratchet) (kp_private_key kp)) as (root2 & k2 & ->).
  unfold set_root_key, add_receiver_chain. rewrite !step_modify, step_get. cbn [fst snd].
  match goal with |- context [get_sender_chain_key ?s] => set (s' := s) end.
  destruct (sender_chain_eq s' (bk_signed b) (mkChainKey chain 0) eq_refl) as [_ ->].
  unfold set_previous_counter, set_sender_chain. rewrite !step_modify.
  eexists _, rng1, root2. split; [done|]. split; [by apply root_key_eq|]. split; [done|].
  split; [by eexists; apply (sender_chain_eq _ kp (mkChainKey k2 0))|]. split; [split; [apply fresh_stream_ok|]|].
  - exists (fresh_chain (kp_public_key ratchet) k), 0%nat. split; [|apply fresh_chain_stream].
    unfold has_chain, get_receiver_chain. cbn -[PublicKey_deserialize PublicKey_serialize PublicKey_eqb].
    rewrite PublicKey_deserialize_serialize. cbn -[PublicKey_eqb]. by rewrite PublicKey_eqb_refl.
  - split_and!; [done|exists root2; by apply root_key_eq|by apply remote_identity_key_eq
      |by apply local_identity_key_eq|by apply session_with_self_eq].
Qed.

(** *** The two ends fit *)

Lemma mirrored_delivers a_id base b sa sb bundle now reg ct :
  well_formed_pair (bk_signed b) -> mirrored a_id base b sa sb ->
  exists ratchet k,
    can_send (pending_session bundle (kp_public_key base) now reg ct sa) (chain_key_at k 0)
      (kp_public_key ratchet) 4 (ikp_identity_key a_id) (ikp_identity_key (bk_identity b)) /\
    forall rng, exists snd rng',
      spqr_send (pq_ratchet_state sa) rng = (Ok snd, rng') /\
      forall m mt p rngb local remote,
        sealed m (message_key_at k 0) (send_key snd) (ikp_identity_key a_id)
          (ikp_identity_key (bk_identity b)) p ->
        sm_message_version m = 4 -> sm_sender_ratchet_key m = kp_public_key ratchet ->
        sm_counter m = 0 -> sm_pq_ratchet m = send_msg snd ->
        exists s' rngb',
          decrypt_message_with_state m mt (incoming_session local remote sb, rngb) = (Ok p, (s', rngb')) /\
          can_receive s' (kp_public_key ratchet) k (mkStream 1 []) 4 (ikp_identity_key a_id)
            (ikp_identity_key (bk_identity b))
            (bool_decide (ikp_identity_key a_id = ikp_identity_key (bk_identity b))) /\
          exists pk, sender_ratchet_key s' = Ok pk.
Proof.
  intros Hsig (root & chain & pqr & ratchet & root' & chain' & qa & qb & Hr & Hcc & Hcc' & Hqa & Hqb
    & (ct' & ->) & ->).
  destruct (create_chain_ok root (kp_public_key (bk_signed b)) (kp_private_key ratchet)) as (r2 & k & Hk).
  rewrite Hcc in Hk. injection Hk as <- ->. exists ratchet, k. split.
  { unfold can_send. set (s := pending_session _ _ _ _ _ _).
    destruct (sender_chain_eq s ratchet (mkChainKey k 0) eq_refl) as [-> ->].
    rewrite (local_identity_key_eq s (ikp_identity_key a_id) eq_refl).
    rewrite (remote_identity_key_eq s (ikp_identity_key (bk_identity b)) eq_refl).
    split_and!; try done; cbn; unfold is_u32, u32_max; lia. }
  intros rng. destruct (spqr_first_message _ _ qa qb rng Hqa Hqb) as (snd & rcv & rng' & Hsend & Hrecv & Hkey).
  exists snd, rng'. split; [done|]. intros m mt p rngb local remote Hs Hv Hrk Hn Hpq.
  destruct (incoming_creates_chain b a_id ratchet (kp_public_key base) root root' k chain qb local
    remote rngb Hsig Hcc') as (s1 & rng1 & k1 & Hnew & Hk1 & Hqs & [pk Hpk] & Hcan).
  destruct Hcan as ([Hok (c & i & Hc & Hst)] & Hrest).
  rewrite (decrypt_new_chain m mt _ _ s1 rng1 (chain_key_at k 0) (chain_key_at k 0) root k1);
    [|by rewrite Hrk| |done|by apply root_key_eq|done|by rewrite (proj1 Hrest)].
  2: { rewrite Hrk. by rewrite (existing_chain_key s1 _ k (mkStream 0 []) rng1 c i Hc Hst). }
  change (session_version _) with (@Ok InvalidSessionError Z 4). rewrite Hv. cbn [negb Z.eqb Pos.eqb].
  assert (Hget : stream_get (bool_decide (ikp_identity_key a_id = ikp_identity_key (bk_identity b))) 0
    (mkStream 0 []) = (Granted, mkStream 1 [])) by (by case_bool_decide).
  rewrite <- Hn in Hs. 
  destruct (open_sealed m mt s1 (kp_public_key ratchet) k (mkStream 0 []) 4 (ikp_identity_key a_id)
    (ikp_identity_key (bk_identity b)) _ p (send_key snd) rcv rng1
    (conj (conj Hok (ex_intro _ c (ex_intro _ i (conj Hc Hst)))) Hrest)) as (r' & Hdec & Hr' & Hpk');
    [rewrite Hn; unfold u32_max; lia|done|done|by rewrite Hn, Hget|done|by rewrite Hqs, Hpq|done|].
  exists r', rng1. split; [done|]. split; [by rewrite Hn, Hget in Hr'|]. exists pk. by rewrite Hpk'.
Qed.

(** *** The exported operations *)

Lemma message_encrypt_ok e addr p now r s c to s' rng' :
  load_session addr (session_store e) = Ok (Some r) -> current_session r = Some s ->
  encrypt_with_state p addr now (s, csprng e) = (Ok (c, to), (s', rng')) ->
  is_trusted_identity addr to Sending (identity_store e) = Ok true ->
  exists e', message_encrypt p addr now e = (Ok c, e') /\
    load_session addr (session_store e') = Ok (Some (set_session_state s' r)) /\
    get_identity addr (identity_store e') = Ok (Some to) /\
    get_identity_key_pair (identity_store e') = get_identity_key_pair (identity_store e).
Proof.
  intros Hload Hcur Henc Htrust. unfold message_encrypt. rewrite env_reads, Hload, env_lift.
  cbn [ok_or]. rewrite env_lift, Hcur. cbn [ok_or]. rewrite env_local_rng, Henc.
  rewrite env_reads. cbn [set_csprng identity_store]. rewrite Htrust. cbn [negb].
  rewrite env_identities. cbn [set_csprng identity_store].
  destruct (save_identity_ok addr to (identity_store e)) as (ch & i & Hsave & Hget & Hpair & _). rewrite Hsave.
  rewrite env_sessions.
  match goal with |- context [store_session addr ?r ?x] =>
    destruct (store_session_ok addr r x) as (ss & Hst & Hld & _) end.
  rewrite Hst. eexists. by split_and!.
Qed.

(** Bob has the private halves of the bundle, trusts Alice, has no session
    with her, and has not seen the pre-keys used. *)
Definition bob_ready f b bundle (alice : ProtocolAddress) (alice_identity : IdentityKey) : Prop :=
  get_identity_key_pair (identity_store f) = Ok (bk_identity b) /\
  (exists reg, get_local_registration_id (identity_store f) = Ok reg) /\
  is_trusted_identity alice alice_identity Receiving (identity_store f) = Ok true /\
  load_session alice (session_store f) = Ok None /\
  (exists r, get_signed_pre_key (spk_b_id (b_ec_signed_pre_key bundle)) (signed_pre_key_store f) = Ok r /\
             spk_key_pair r = Ok (bk_signed b)) /\
  (exists r, get_kyber_pre_key (kpk_b_id (b_kyber_pre_key bundle)) (kyber_pre_key_store f) = Ok r /\
             spk_key_pair r = Ok (bk_kyber b)) /\
  match b_pre_key_id bundle with
  | Some id =>
      (exists r kp, get_pre_key id (pre_key_store f) = Ok r /\ PreKeyRecord_key_pair r = Ok kp /\
                    bk_one_time b = Some kp) /\
      exists ps, remove_pre_key id (pre_key_store f) = (Ok tt, ps)
  | None => bk_one_time b = None
  end /\
  forall k, exists ks, mark_kyber_pre_key_used (kpk_b_id (b_kyber_pre_key bundle))
    (spk_b_id (b_ec_signed_pre_key bundle)) k (kyber_pre_key_store f) = (Ok tt, ks).

Definition first_message bundle (reg : Z) (base : PublicKey) (id : IdentityKey) (ct : bytes)
    (m : SignalMessage) (ser : bytes) : PreKeySignalMessage :=
  mkPreKeySignalMessage 4 reg (b_pre_key_id bundle) (spk_b_id (b_ec_signed_pre_key bundle))
    (Some (mkKyberPayload (kpk_b_id (b_kyber_pre_key bundle)) ct)) base id m ser.

Lemma process_prekey_ok f b bundle alice id reg base ct m ser sb :
  bob_ready f b bundle alice id ->
  initialize_bob_session (bob_parameters b id base ct) = Ok sb ->
  exists used local,
    process_prekey f (first_message bundle reg base id ct m ser) alice new_fresh =
      (Ok (Some used, mkIdentityToSave alice id),
       SessionRecord_new (incoming_session local reg sb)) /\
    used = mkPreKeysUsed (b_pre_key_id bundle) (spk_b_id (b_ec_signed_pre_key bundle))
             (Some (kpk_b_id (b_kyber_pre_key bundle))).
Proof.
  intros (Hid & (local & Hreg) & Htrust & _ & (rs & Hs & Hsk) & (rk & Hk & Hkk) & Hone & _) Hbob.
  eexists _, local. split; [|done]. unfold process_prekey. rewrite lift_bind.
  cbn [pk_identity_key first_message]. rewrite Htrust. cbn [negb]. rewrite M_bind_eq.
  unfold process_prekey_impl. rewrite M_bind_eq. unfold map_err_M at 1.
  change (promote_matching_session _ _ _) with (@Ok InvalidSessionError bool false, new_fresh).
  cbn [map_err first_message pk_message_version pk_signed_pre_key_id pk_pre_key_id].
  change (4 =? CIPHERTEXT_MESSAGE_PRE_KYBER_VERSION) with false. cbv iota.
  rewrite lift_bind, Hs, lift_bind, Hsk.
  cbn [kyber_pre_key_id kyber_ciphertext pk_kyber_payload first_message fmap option_fmap option_map
    kyb_pre_key_id kyb_ciphertext ok_or pk_identity_key pk_base_key pk_registration_id].
  rewrite M_bind_eq, lift_bind, Hk. unfold lift at 1. rewrite Hkk, lift_bind.
  assert (Hpre : (match b_pre_key_id bundle with
      | Some id => r ← lift (get_pre_key id (pre_key_store f)); kp ← lift (PreKeyRecord_key_pair r);
                   mret (Some kp)
      | None => mret None
      end) new_fresh = (@Ok SignalProtocolError _ (bk_one_time b), new_fresh)).
  { destruct (b_pre_key_id bundle); [|by rewrite Hone].
    destruct Hone as [(r & kp & Hr & Hkp & ->) _]. by rewrite lift_bind, Hr, lift_bind, Hkp. }
  rewrite M_bind_eq, Hpre, lift_bind, Hid, lift_bind.
  change (mkBobParameters _ _ _ _ _ _ _ _) with (bob_parameters b id base ct). rewrite Hbob.
  rewrite lift_bind, Hreg, M_bind_eq, promote_state_eq by (unfold record_bounded; cbn; lia).
  done.
Qed.

Lemma message_decrypt_prekey_ok f b bundle alice id reg base ct m ser sb p :
  bob_ready f b bundle alice id ->
  initialize_bob_session (bob_parameters b id base ct) = Ok sb ->
  (forall local, exists s' rng',
     decrypt_message_with_state m PreKey (incoming_session local reg sb, csprng f) = (Ok p, (s', rng')) /\
     exists pk, sender_ratchet_key s' = Ok pk) ->
  exists f' local s' rng',
    message_decrypt (CMPreKeySignalMessage (first_message bundle reg base id ct m ser)) alice f
      = (Ok p, f') /\
    decrypt_message_with_state m PreKey (incoming_session local reg sb, csprng f) = (Ok p, (s', rng')) /\
    load_session alice (session_store f') = Ok (Some (SessionRecord_new s')) /\
    match b_pre_key_id bundle with
    | Some one_time => remove_pre_key one_time (pre_key_store f) = (Ok tt, pre_key_store f')
    | None => pre_key_store f' = pre_key_store f
    end.
Proof.
  intros Hready Hbob Hdec.
  destruct (process_prekey_ok f b bundle alice id reg base ct m ser sb Hready Hbob)
    as (used & local & Hproc & Hused).
  destruct Hready as (_ & _ & _ & Hload & _ & _ & Hone & Hmark).
  destruct (Hdec local) as (s' & rng' & Hd & [pk Hpk]).
  assert (Hrec : decrypt_message_with_record m PreKey
      (SessionRecord_new (incoming_session local reg sb), csprng f) =
      (Ok p, (SessionRecord_new s', rng'))).
  { unfold decrypt_message_with_record. rewrite M_bind_eq. unfold gets at 1.
    cbn [current_session SessionRecord_new].
    rewrite try_state_step, Hd, expect_base_key_step, Hpk. done. }
  unfold message_decrypt, message_decrypt_prekey. rewrite env_reads, Hload.
  rewrite M_bind_eq. unfold get at 1. cbn [default]. rewrite env_lift. unfold run_local.
  cbn [from_option]. rewrite Hproc. cbn [fmap outcome_fmap pk_message first_message].
  rewrite env_local_rng, Hrec, env_identities. cbn [its_remote_address its_their_identity_key].
  destruct (save_identity_ok alice id (identity_store (set_csprng rng' f))) as (c & i & Hsave & _).
  rewrite Hsave. subst used. cbn [used_kyber_pre_key_id signed_ec_pre_key_id one_time_ec_pre_key_id].
  rewrite M_bind_eq. rewrite (M_bind_eq (with_kyber _)). unfold with_kyber. rewrite zoom_eq.
  cbn [set_identity_store set_csprng kyber_pre_key_store pk_base_key first_message].
  destruct (Hmark base) as [ks Hks]. rewrite Hks. cbn [fst snd].
  destruct (b_pre_key_id bundle) as [one_time|].
  - destruct Hone as [_ [ps Hps]]. unfold with_pre_keys. rewrite zoom_eq. cbn [pre_key_store
    set_kyber_pre_key_store set_identity_store set_csprng].
    rewrite Hps. cbn [fst snd]. rewrite env_sessions.
    match goal with |- context [store_session alice ?r ?x] =>
      destruct (store_session_ok alice r x) as (ss & Hst & Hld & _) end.
    rewrite Hst. eexists _, local, s', rng'. split_and!; [done|done|exact Hld|done].
  - unfold mret at 1, M_ret at 1. rewrite env_sessions.
    match goal with |- context [store_session alice ?r ?x] =>
      destruct (store_session_ok alice r x) as (ss & Hst & Hld & _) end.
    rewrite Hst. eexists _, local, s', rng'. split_and!; [done|done|exact Hld|done].
Qed.

(** Everything that happens, with what Alice's identity store holds afterwards. *)
Lemma first_message_runs e f a_id reg b bundle alice bob now later p :
  alice_ready e a_id reg bob (b_identity_key bundle) ->
  bundle_of bundle b -> bob_keys_ok b ->
  bob_ready f b bundle alice (ikp_identity_key a_id) -> in_time now later ->
  exists e1 e2 m f' r',
    process_prekey_bundle bob bundle now e = (Ok tt, e1) /\
    message_encrypt p bob later e1 = (Ok (CMPreKeySignalMessage m), e2) /\
    get_identity bob (identity_store e2) = Ok (Some (b_identity_key bundle)) /\
    get_identity_key_pair (identity_store e2) = Ok a_id /\
    PreKeySignalMessage_try_from (pk_serialized m) = Ok m /\
    message_decrypt (CMPreKeySignalMessage m) alice f = (Ok p, f') /\
    load_session alice (session_store f') = Ok (Some r') /\
    match b_pre_key_id bundle with
    | Some one_time => remove_pre_key one_time (pre_key_store f) = (Ok tt, pre_key_store f')
    | None => pre_key_store f' = pre_key_store f
    end.
Proof.
  intros Ha Hbundle Hkeys Hb Htime.
  destruct (process_prekey_bundle_ok e a_id reg bob bundle b now Ha Hbundle Hkeys)
    as (e1 & base & rng & rng' & sa & ct & sb & r1 & Hproc & _ & _ & _ & Hbob & Hm & Hload & Hcur & Htrust & Hpair).
  destruct (mirrored_delivers a_id base b sa sb bundle now reg ct (proj1 (proj2 Hkeys)) Hm)
    as (ratchet & k & Hsend & Hdel).
  set (s := pending_session _ _ _ _ _ _) in *.
  assert (Hitems : unacknowledged_pre_key_message_items s =
            Ok (Some (pending_items bundle (kp_public_key base) now ct))).
  { apply pending_items_eq; [apply Hbundle|]. destruct Htime. lia. }
  pose proof (pending_items_ok bundle (kp_public_key base) now later reg ct sa b Hbundle
    (proj1 (proj2 (proj2 (proj2 Ha)))) Htime) as Hok.
  destruct (Hdel (csprng e1)) as (snd & rng2 & Hspqr & Hopen).
  destruct (encrypt_with_state_ok s (chain_key_at k 0) (kp_public_key ratchet) 4 _ _ p bob later
    (csprng e1) snd rng2 _ Hsend Hspqr Hitems Hok)
    as (c & m & Henc & (ser & Hc & Hparse) & Hmparse & Hseal & Hv & Hrk & Hn & Hpq).
  destruct (message_encrypt_ok e1 bob p later r1 s c _ _ _ Hload Hcur Henc) as (e2 & Hmenc & _ & Hget & Hpair2).
  { destruct Hbundle as [<- _]. done. }
  rewrite Hpair in Hpair2. rewrite <- (proj1 Hbundle) in Hget.
  cbv zeta in Hc, Hparse. subst c.
  destruct (message_decrypt_prekey_ok f b bundle alice (ikp_identity_key a_id) reg
    (kp_public_key base) ct m ser sb p Hb Hbob) as (f' & local & s' & rng3 & Hdec & _ & Hl & Hpk).
  { intros local. destruct (Hopen m PreKey p (csprng f) local reg) as (s' & rngb & Hd & _ & Hpk');
      [done|done|done|done|done|]. by exists s', rngb. }
  exists e1, e2. eexists _, f', _. split_and!; [done|exact Hmenc|exact Hget|exact Hpair2|exact Hparse|exact Hdec|exact Hl|done].
Qed.

(** C1: the first message arrives.  Whatever bundle Bob published with valid
    signatures, and whatever record Alice had for him: [process_prekey_bundle]
    succeeds; what she then encrypts within thirty days is a pre-key message
    that parses back from its serialization; and [message_decrypt] on Bob's
    side, given the private halves of the bundle, returns her plaintext,
    stores a session and removes the one-time pre-key. *)
Theorem first_message_delivered e f a_id reg b bundle alice bob now later p :
  alice_ready e a_id reg bob (b_identity_key bundle) ->
  bundle_of bundle b -> bob_keys_ok b ->
  bob_ready f b bundle alice (ikp_identity_key a_id) -> in_time now later ->
  exists e1 e2 m f' r',
    process_prekey_bundle bob bundle now e = (Ok tt, e1) /\
    message_encrypt p bob later e1 = (Ok (CMPreKeySignalMessage m), e2) /\
    PreKeySignalMessage_try_from (pk_serialized m) = Ok m /\
    message_decrypt (CMPreKeySignalMessage m) alice f = (Ok p, f') /\
    load_session alice (session_store f') = Ok (Some r') /\
    match b_pre_key_id bundle with
    | Some one_time => remove_pre_key one_time (pre_key_store f) = (Ok tt, pre_key_store f')
    | None => pre_key_store f' = pre_key_store f
    end.
Proof.
  intros Ha Hbundle Hkeys Hb Htime.
  destruct (first_message_runs e f a_id reg b bundle alice bob now later p Ha Hbundle Hkeys Hb Htime)
    as (e1 & e2 & m & f' & r' & H1 & H2 & _ & _ & H3). by exists e1, e2, m, f', r'.
Qed.
End first_message.
