(* ===== verification/SealedEnd.v ===== *)
(** * SealedEnd: sealed sender on top of sessions

    Section [authentic]: what a client may conclude from a message it opened.
    Section [transparent]: sealing a message of a session does not get in its
    way; with the first message of a session, from the bundle to the sealed
    message's plaintext. *)

From S2P Require Import Prelude Types Primitives Proto ServiceId Curve Kem Crypto IdentityKey RatchetKeys SealedCert SealedMessage Messages SessionState SessionRecord Ratchet Stores Session SessionCipher SealedSender SealedSpec EndToEnd.
Open Scope string_scope.
Open Scope list_scope.
Open Scope Z_scope.

Section authentic.
Context {P : Primitives} {U : UuidFmt} {G : AesGcmSiv} {A : AesLaws}.
Context `{!Prost sealed_sender.ServerCertificate, !Prost sealed_sender.ServerCertificateData}.
Context `{!Prost sealed_sender.SenderCertificate, !Prost sealed_sender.SenderCertificateData}.
Context `{!Prost sealed_sender.Message, !Prost sealed_sender.UnidentifiedSenderMessage}.

(** The message was made with the private key behind [key], or by the
    recipient: the first form is authenticated under keys from the agreement
    of [key] with the recipient's identity, the second by a tag from it. *)
Definition sealed_with (ours : IdentityKeyPair) (key : PublicKey) (message : UnidentifiedSenderMessage)
    (content : bytes) : Prop :=
  match message with
  | V1 ephemeral_public encrypted_static encrypted_message =>
      exists chain_key keys body,
        StaticKeys_calculate ours key chain_key encrypted_static = Ok keys /\
        encrypted_message = body ++ take 10 (arr (hmac_sha256 (arr (sk_mac_key keys)) body)) /\
        content = aes256_ctr32be (sk_cipher_key keys) (zeros 16) body
  | V2 ephemeral_public encrypted_message_key authentication_tag encrypted_message =>
      compute_authentication_tag ours (mkIdentityKey key) Receiving ephemeral_public encrypted_message_key
        = Ok authentication_tag /\
      exists m e, apply_agreement_xor (KeyPair_from_IdentityKeyPair ours) ephemeral_public Receiving
          encrypted_message_key = Ok m /\
        derive_e (E:=SignalProtocolError) (DerivedKeys_new (arr m)) = Ok e /\ kp_public_key e = ephemeral_public /\
        gcm_siv_decrypt (derive_k (DerivedKeys_new (arr m))) (zeros 12) [] encrypted_message = Some content
  end.

Lemma open_v1_Ok what ctext cipher_key mac_key msg :
  open_v1 what ctext cipher_key mac_key = Ok msg ->
  exists body, ctext = body ++ take 10 (arr (hmac_sha256 (arr mac_key) body)) /\
               msg = aes256_ctr32be cipher_key (zeros 16) body.
Proof.
  unfold open_v1. destruct (aes256_ctr_hmacsha256_decrypt _ _ _) as [p|[]|] eqn:Hd; try done. intros [= ->].
  destruct (aes256_ctr_hmac_round_trip [] cipher_key (arr mac_key)) as (_ & _ & _ & Hall).
  by apply Hall in Hd.
Qed.

Lemma decrypt_v1_authentic ours epub st md usmc :
  decrypt_v1 ours epub st md = Ok usmc ->
  exists content, USMC_deserialize content = Ok usmc /\
    sealed_with ours (sdc_key (usmc_sender usmc)) (V1 epub st md) content.
Proof.
  unfold decrypt_v1. intros (eph & _ & Hd)%bind_Ok.
  apply bind_Ok in Hd as (kb & Hkb & Hd). apply bind_Ok in Hd as (k & Hk & Hd).
  apply bind_Ok in Hd as (keys & Hkeys & Hd). apply bind_Ok in Hd as (content & Hc & Hd).
  apply bind_Ok in Hd as (u & Hu & Hd). case_bool_decide as Heq; cbn [negb] in Hd; [|done]. injection Hd as ->.
  apply open_v1_Ok in Hc as (body & -> & ->). exists (aes256_ctr32be (sk_cipher_key keys) (zeros 16) body).
  split; [done|]. exists (ek_chain_key eph), keys, body. split_and!; try done.
  enough (k = sdc_key (usmc_sender usmc)) as <- by done.
  rewrite Heq, decode_key_serialize in Hk. by injection Hk.
Qed.

Lemma decrypt_v2_authentic ours epub c tag md usmc :
  decrypt_v2 ours epub c tag md = Ok usmc ->
  exists content, USMC_deserialize content = Ok usmc /\
    sealed_with ours (sdc_key (usmc_sender usmc)) (V2 epub c tag md) content.
Proof.
  unfold decrypt_v2. intros (m & Hm & Hd)%bind_Ok. apply bind_Ok in Hd as (e & He & Hd).
  destruct (PublicKey_eqb _ _) eqn:Hpk; cbn [negb] in Hd; [|done]. apply PublicKey_eqb_true in Hpk.
  apply bind_Ok in Hd as (content & Hc%ok_or_Ok & Hd). apply bind_Ok in Hd as (u & Hu & Hd).
  apply bind_Ok in Hd as (t & Ht & Hd). case_bool_decide as Heq; cbn [negb] in Hd; [|done].
  injection Hd as ->. subst t. exists content. split; [done|]. split; [done|]. by exists m, e.
Qed.

Context `{!Prost wire.SignalMessage, !Prost wire.PreKeySignalMessage}.
Context `{!Prost storage.SessionStructure} `{!Prost storage.PreKeyRecordStructure}.
Context `{!Prost storage.SignedPreKeyRecordStructure}.
Context {SS IS PS SPS KS : Type}.
Context `{!SessionStore SS, !IdentityKeyStore IS, !PreKeyStore PS, !SignedPreKeyStore SPS, !KyberPreKeyStore KS}.
Implicit Types e : Env SS IS PS SPS KS.

(** C6: a plaintext that sealed sender delivers was sealed with the key in a
    sender certificate whose server certificate is not revoked and signed by the
    trust root, which is signed by that server and not expired, and which does
    not name this very device; the message inside was decrypted by the session
    with the sender that the certificate names, and the result
    names that sender. *)
Theorem sealed_sender_authentic ct root now le lu ld e res e' :
  sealed_sender_decrypt ct root now le lu ld e = (Ok res, e') ->
  exists ours message content usmc signer,
    get_identity_key_pair (identity_store e) = Ok ours /\
    UnidentifiedSenderMessage_deserialize ct = Ok message /\ USMC_deserialize content = Ok usmc /\
    let cert := usmc_sender usmc in
    sealed_with ours (sdc_key cert) message content /\
    sender_signer cert = Ok signer /\ vouched signer [root] /\
    verify_signature (svc_key signer) (sdc_certificate cert) (sdc_signature cert) = true /\
    now <= sdc_expiration cert /\ is_self_send cert le lu ld = false /\
    res_sender_uuid res = sdc_sender_uuid cert /\ res_sender_e164 res = sdc_sender_e164 cert /\
    res_device_id res = sdc_sender_device_id cert /\
    let remote := mkProtocolAddress (sdc_sender_uuid cert) (sdc_sender_device_id cert) in
    ((exists m, SignalMessage_try_from (usmc_contents usmc) = Ok m /\
                message_decrypt_signal m remote e = (Ok (res_message res), e')) \/
     (exists m, PreKeySignalMessage_try_from (usmc_contents usmc) = Ok m /\
                message_decrypt_prekey m remote e = (Ok (res_message res), e'))).
Proof.
  unfold sealed_sender_decrypt. intros (usmc & s1 & Husmc & Hd)%M_bind_Ok.
  unfold reads in Husmc. injection Husmc as Husmc <-.
  apply M_bind_Ok in Hd as (valid & s1 & Hvalid & Hd). unfold lift in Hvalid. injection Hvalid as Hvalid <-.
  destruct valid; cbn [negb] in Hd; [|done]. destruct (is_self_send _ _ _ _) eqn:Hself; [done|].
  apply M_bind_Ok in Hd as (p & s1 & Hdec & [= <- <-]).
  unfold sealed_sender_decrypt_to_usmc in Husmc. apply bind_Ok in Husmc as (ours & Hours & Husmc).
  apply bind_Ok in Husmc as (message & Hmsg & Husmc).
  assert (exists content, USMC_deserialize content = Ok usmc /\
    sealed_with ours (sdc_key (usmc_sender usmc)) message content) as (content & Hcontent & Hsealed).
  { destruct message; [by apply decrypt_v1_authentic|by apply decrypt_v2_authentic]. }
  pose proof (validate_with_trust_roots_spec (usmc_sender usmc) [root] now) as Hspec.
  unfold SenderCertificate_validate in Hvalid.
  destruct (sender_signer (usmc_sender usmc)) as [signer|?|] eqn:Hsigner;
    [|by rewrite (proj1 Hspec) in Hvalid|by rewrite Hspec in Hvalid].
  destruct Hspec as (v & Hv & Hiff). rewrite Hvalid in Hv. injection Hv as <-.
  destruct (proj1 Hiff eq_refl) as (Hvouched & Hsig & Hexp).
  exists ours, message, content, usmc, signer. cbv zeta. split_and!; try done. cbn [res_message].
  destruct (usmc_msg_type usmc); try done.
  - left. apply M_bind_Ok in Hdec as (m & s2 & Hm & Hdec). unfold lift in Hm. injection Hm as Hm <-. by exists m.
  - right. apply M_bind_Ok in Hdec as (m & s2 & Hm & Hdec). unfold lift in Hm. injection Hm as Hm <-. by exists m.
Qed.
End authentic.

(** ** Sealing what a session encrypts *)

Section transparent.
Context {P : Primitives} {X : X25519Laws} {A : AesLaws} {U : UuidFmt} {G : AesGcmSiv}.
Context `{!Prost sealed_sender.ServerCertificate, !Prost sealed_sender.ServerCertificateData}.
Context `{!Prost sealed_sender.SenderCertificate, !Prost sealed_sender.SenderCertificateData}.
Context `{!Prost sealed_sender.Message, !Prost sealed_sender.UnidentifiedSenderMessage}.
Context `{!ProstLaws sealed_sender.Message sealed_sender.Message_wf}.
Context `{!ProstLaws sealed_sender.UnidentifiedSenderMessage (fun _ => True)}.
Context `{!Prost wire.SignalMessage, !Prost wire.PreKeySignalMessage}.
Context `{!Prost storage.SessionStructure, !Prost storage.PreKeyRecordStructure, !Prost storage.SignedPreKeyRecordStructure}.
Context {SS IS PS SPS KS : Type}.
Context `{!SessionStore SS, !IdentityKeyStore IS, !PreKeyStore PS, !SignedPreKeyStore SPS, !KyberPreKeyStore KS}.
Implicit Types (e f : Env SS IS PS SPS KS) (cert : SenderCertificate).

(** A message that its receiver reads back from its serialization. *)
Definition readable (m : CiphertextMessage) : Prop :=
  match m with
  | CMSignalMessage m => SignalMessage_try_from (sm_serialized m) = Ok m
  | CMPreKeySignalMessage m => PreKeySignalMessage_try_from (pk_serialized m) = Ok m
  | _ => False
  end.

(** The certificate of a sender that a receiver accepts. *)
Definition accepted cert (sender : IdentityKeyPair) (root : PublicKey) (now : Timestamp)
    (local_e164 : option string) (local_uuid : string) (local_device_id : DeviceId) : Prop :=
  SenderCertificate_deserialize (sdc_serialized cert) = Ok cert /\
  sdc_key cert = IdentityKeyPair_public_key sender /\
  SenderCertificate_validate cert root now = Ok true /\
  is_self_send cert local_e164 local_uuid local_device_id = false.

Definition sender_address cert : ProtocolAddress := mkProtocolAddress (sdc_sender_uuid cert) (sdc_sender_device_id cert).

Lemma sealed_delivery e e2 f f' bob sender recipient cert p q m root t le lu ld now :
  message_encrypt p bob now e = (Ok m, e2) -> readable m ->
  get_identity_key_pair (identity_store e2) = Ok sender -> generated_identity sender ->
  get_identity bob (identity_store e2) = Ok (Some (ikp_identity_key recipient)) ->
  get_identity_key_pair (identity_store f) = Ok recipient -> generated_identity recipient ->
  accepted cert sender root t le lu ld ->
  message_decrypt m (sender_address cert) f = (Ok q, f') ->
  exists c rng,
    sealed_sender_encrypt bob cert p now e = (Ok c, set_csprng rng e2) /\
    sealed_sender_decrypt c root t le lu ld f =
      (Ok (mkSealedSenderDecryptionResult (sdc_sender_uuid cert) (sdc_sender_e164 cert)
             (sdc_sender_device_id cert) q), f').
Proof.
  intros Henc Hread Hpair Hs Hbob Hpairb Hr (Hcert & Hkey & Hvalid & Hself) Hdec.
  destruct (USMC_new_ok (message_type m) cert (CiphertextMessage_serialize m) HintDefault None)
    as (u & Hu & Husender & Hucont & Hutype & _).
  pose proof (USMC_deserialize_new (message_type m) cert (CiphertextMessage_serialize m) HintDefault None u Hcert I Hu)
    as Hud.
  destruct (SealedSpec.sealed_v1_opens bob sender recipient (received u) _ (identity_store e2) (identity_store f) u
    (csprng e2) Hpair Hs Hbob Hpairb Hr eq_refl Hud) as (c & rng & Hseal & Hopen).
  unfold opened in Hopen. cbn [received usmc_sender] in Hopen.
  rewrite Husender, bool_decide_eq_true_2 in Hopen by done.
  exists c, rng. split.
  - unfold sealed_sender_encrypt. rewrite M_bind_eq, Henc, lift_bind, Hu.
    unfold with_rng. rewrite M_bind_eq. unfold get. rewrite zoom_eq, Hseal. done.
  - unfold sealed_sender_decrypt. rewrite M_bind_eq. unfold reads. rewrite Hopen.
    cbn [received usmc_sender usmc_msg_type usmc_contents]. rewrite Husender, lift_bind, Hvalid. cbn [negb].
    rewrite Hself, Hutype, Hucont.
    destruct m as [m|m|m|m]; cbn [readable] in Hread; try done; cbn [message_type CiphertextMessage_serialize];
      cbn [message_decrypt] in Hdec; unfold sender_address in Hdec;
      rewrite M_bind_eq, lift_bind, Hread, Hdec; done.
Qed.
End transparent.

Section first_message.
Context {P : Primitives} {X : X25519Laws} {A : AesLaws} {K : KemLaws} {Q : SpqrLaws} {U : UuidFmt} {G : AesGcmSiv}.
Context `{!Prost sealed_sender.ServerCertificate, !Prost sealed_sender.ServerCertificateData}.
Context `{!Prost sealed_sender.SenderCertificate, !Prost sealed_sender.SenderCertificateData}.
Context `{!Prost sealed_sender.Message, !Prost sealed_sender.UnidentifiedSenderMessage}.
Context `{!ProstLaws sealed_sender.Message sealed_sender.Message_wf}.
Context `{!ProstLaws sealed_sender.UnidentifiedSenderMessage (fun _ => True)}.
Context {SS IS PS SPS KS : Type}.
Context `{!SessionStore SS, !IdentityKeyStore IS, !PreKeyStore PS, !SignedPreKeyStore SPS, !KyberPreKeyStore KS}.
Context {LSS : SessionStoreLaws SS} {LIS : IdentityKeyStoreLaws IS}.
Context `{!Prost storage.SessionStructure, !Prost storage.RecordStructure, !Prost storage.PreKeyRecordStructure}.
Context `{!Prost storage.SignedPreKeyRecordStructure}.
Context `{!Prost wire.SignalMessage, !Prost wire.PreKeySignalMessage}.
Context {LS : ProstLaws wire.SignalMessage wire.SignalMessage_wf}.
Context {LP : ProstLaws wire.PreKeySignalMessage wire.PreKeySignalMessage_wf}.
Implicit Types (e f : Env SS IS PS SPS KS) (cert : SenderCertificate).

(** C2: sealed sender works end to end.  Alice, who has fetched Bob's bundle and
    has a valid certificate for her identity, sets up a session and seals her
    first message; Bob, who knows nothing but his own keys and the trust root, opens
    it, learns who sent it and reads the plaintext, and has a session with
    the address in the certificate. *)
Theorem sealed_first_message_delivered e f a_id reg b bundle cert bob now later p root t le lu ld :
  alice_ready e a_id reg bob (b_identity_key bundle) -> bundle_of bundle b -> bob_keys_ok b ->
  bob_ready f b bundle (sender_address cert) (ikp_identity_key a_id) -> in_time now later ->
  accepted cert a_id root t le lu ld ->
  exists e1 c e2 f' r',
    process_prekey_bundle bob bundle now e = (Ok tt, e1) /\
    sealed_sender_encrypt bob cert p later e1 = (Ok c, e2) /\
    sealed_sender_decrypt c root t le lu ld f =
      (Ok (mkSealedSenderDecryptionResult (sdc_sender_uuid cert) (sdc_sender_e164 cert)
             (sdc_sender_device_id cert) p), f') /\
    load_session (sender_address cert) (session_store f') = Ok (Some r').
Proof.
  intros Ha Hbundle Hkeys Hb Htime Hcert.
  destruct (first_message_runs e f a_id reg b bundle (sender_address cert) bob now later p Ha Hbundle Hkeys Hb Htime)
    as (e1 & e2 & m & f' & r' & Hproc & Henc & Hget & Hpair & Hread & Hdec & Hload & _).
  rewrite (proj1 Hbundle) in Hget.
  destruct (sealed_delivery e1 e2 f f' bob a_id (bk_identity b) cert p p (CMPreKeySignalMessage m) root t le lu ld later
    Henc Hread Hpair (proj1 (proj2 Ha)) Hget (proj1 Hb) (proj1 Hkeys) Hcert Hdec) as (c & rng & Hseal & Hopen).
  exists e1, c, (set_csprng rng e2), f', r'. by split_and!.
Qed.
End first_message.
