(* ===== verification/Trust.v ===== *)
(** * Trust: what a success says about the other side

    A message is decrypted only if its MAC verifies under the keys of the
    session and its two identities, and the exported operations succeed only
    with an identity that the store trusts (section [trust]). *)

From S2P Require Import Prelude Types Primitives Proto Curve Kem Crypto IdentityKey RatchetKeys Messages SessionState SessionRecord Ratchet KeyStream SenderKeys Stores Session SessionCipher ChainRefinement SessionInvariant CipherSpec EndToEnd.
Open Scope string_scope.
Open Scope list_scope.
Open Scope Z_scope.

Section authentication.
Context {P : Primitives}.

(** The two identities of a session, which only its creation sets. *)
Definition identities (s : SessionState) :=
  (storage.ss_remote_identity_public (session s), storage.ss_local_identity_public (session s)).
Definition same_identities (v : bytes * bytes) (s : SessionState) : Prop := identities s = v.
Definition same_identities_rng (v : bytes * bytes) (x : SessionState * Rng) : Prop := identities x.1 = v.

Lemma identities_upd {E} v f :
  (forall s, identities (mkSessionState (f s)) = identities (mkSessionState s)) ->
  preserves (same_identities v) (modify (E := E) (upd f)).
Proof. intros Hf [s] H. unfold same_identities in *. cbn. unfold upd. cbn. by rewrite Hf. Qed.

Lemma identities_on_state {E A} v (m : M SessionState E A) :
  preserves (same_identities v) m -> preserves (same_identities_rng v) (on_state m).
Proof. intros Hm [s rng] H. unfold on_state. rewrite zoom_eq. by apply Hm. Qed.

Lemma identities_on_rng {E A} v (m : M Rng E A) : preserves (same_identities_rng v) (on_rng m).
Proof. intros [s rng] H. unfold on_rng. rewrite zoom_eq. done. Qed.

Lemma identities_put_receiver_chain v i c : preserves (same_identities v) (put_receiver_chain i c).
Proof. unfold put_receiver_chain. solve_preserves. by apply identities_upd. Qed.

Lemma identities_sess {A} v (m : M SessionState InvalidSessionError A) :
  preserves (same_identities v) m -> preserves (same_identities v) (sess m).
Proof. apply preserves_map_err. Qed.

Lemma identities_sess_get {A} v (f : SessionState -> SResult A) : preserves (same_identities v) (sess_get f).
Proof. intros s H. done. Qed.

Ltac solve_identities := repeat first
  [ match goal with |- forall _, _ => intro end
  | apply identities_put_receiver_chain | apply identities_sess_get | apply identities_on_rng
  | apply preserves_bind | apply identities_on_state | apply identities_sess
  | apply preserves_lift | apply preserves_ret | apply preserves_throw | apply preserves_reads
  | apply preserves_gets | (by apply identities_upd) | case_match ].

Lemma identities_skip pk n v fuel : forall ck, preserves (same_identities v) (skip_message_keys fuel pk n ck).
Proof.
  induction fuel as [|fuel IH]; intros ck; cbn [skip_message_keys]; case_match; solve_identities.
  apply IH.
Qed.

Lemma message_key_request_identities pk mt n v :
  preserves (same_identities_rng v) (message_key_request pk mt n).
Proof.
  unfold message_key_request. apply preserves_bind.
  - unfold get_or_create_chain_key, set_root_key, add_receiver_chain, set_previous_counter, set_sender_chain.
    solve_identities; intros [s] Hs; done.
  - intros ck. apply identities_on_state. unfold get_or_create_message_key, get_message_keys, set_receiver_chain_key.
    cbv zeta. solve_identities. apply identities_skip.
Qed.

(** C21: decryption is authenticated.  When [decrypt_message_with_state] returns a
    plaintext, the message's version is the session's, its MAC verifies, over
    the identities the session was created with, under the MAC key of the keys
    that also decrypt its body to that plaintext. *)
Theorem decryption_is_authenticated m mt s rng p s' rng' :
  decrypt_message_with_state m mt (s, rng) = (Ok p, (s', rng')) ->
  session_version s = Ok (sm_message_version m) /\
  exists from to (keys : MessageKeys),
    remote_identity_key s = Ok (Some from) /\ local_identity_key s = Ok to /\
    verify_mac m from to (arr (mac_key keys)) = Ok true /\
    aes_256_cbc_decrypt (sm_ciphertext m) (arr (cipher_key keys)) (arr (iv keys)) = Ok p.
Proof.
  rewrite decrypt_message_with_state_eq. destruct (root_key s); [|done|done].
  destruct (session_version s) as [v| |]; [|done|done].
  destruct (Z.eqb_spec (sm_message_version m) v) as [<-|]; [cbn [negb]|done].
  rewrite M_bind_eq.
  pose proof (message_key_request_identities (sm_sender_ratchet_key m) mt (sm_counter m) _ (s, rng) eq_refl) as Hid.
  destruct (message_key_request _ mt _ (s, rng)) as [[g| |] [s1 rng1]]; [|done|done].
  unfold same_identities_rng in Hid. cbn [fst snd] in Hid.
  intros H. split; [done|]. unfold decrypt_tail in H. rewrite step_state in H. unfold map_err_M in H.
  destruct (pq_ratchet_recv _ s1) as [[pq| |] s2] eqn:Hpq; cbn [map_err] in H; [|done|done].
  assert (Hid2 : identities s2 = identities s).
  { rewrite <- Hid. unfold pq_ratchet_recv in Hpq. rewrite M_bind_eq in Hpq. unfold reads in Hpq.
    destruct (spqr_recv _ _); [|done|done]. rewrite M_bind_eq in Hpq. injection Hpq as _ <-. by destruct s1. }
  rewrite step_lift in H. destruct (generate_keys g pq) as [keys| |]; [|done|done].
  rewrite step_get in H. unfold identities in Hid2. injection Hid2 as Hrem Hloc.
  assert (remote_identity_key s2 = remote_identity_key s) as E1
    by (unfold remote_identity_key; by rewrite Hrem).
  assert (local_identity_key s2 = local_identity_key s) as E2
    by (unfold local_identity_key; by rewrite Hloc).
  rewrite E1 in H. destruct (remote_identity_key s) as [from| |]; [|done|done].
  rewrite step_lift in H. destruct from as [from|]; cbn [ok_or] in H; [|done].
  rewrite step_get, E2 in H. destruct (local_identity_key s) as [to| |]; [|done|done].
  rewrite step_lift in H. destruct (verify_mac m from to _) as [[]| |] eqn:Hmac; cbn [negb] in H; try done.
  rewrite step_lift in H.
  destruct (aes_256_cbc_decrypt _ _ _) as [p'| |] eqn:Hdec; cbn [map_err] in H; [|by case_match|done].
  exists from, to, keys. split_and!; try done.
  unfold clear_unacknowledged_pre_key_message in H. rewrite step_modify in H. by injection H as -> _ _.
Qed.
End authentication.

Section trust.
Context {P : Primitives} {SS IS PS SPS KS : Type}
  `{!SessionStore SS, !IdentityKeyStore IS, !PreKeyStore PS, !SignedPreKeyStore SPS,
    !KyberPreKeyStore KS} {LS : SessionStoreLaws SS}
  `{!Prost storage.SessionStructure, !Prost wire.SignalMessage, !Prost wire.PreKeySignalMessage}.
Implicit Types e : Env SS IS PS SPS KS.

(** C30: nothing is sent to, accepted from or set up with an identity that the
    store does not trust.  Each exported operation, when it succeeds, was told
    by the identity store that the other side's identity key is trusted for
    that direction: the key of the bundle (whose two signatures also verify
    under it), the key of the session that encrypted, the key in the pre-key
    message, and the key of the session that decrypted. *)
Theorem only_trusted_identities addr e :
  (forall bundle now e', process_prekey_bundle addr bundle now e = (Ok tt, e') ->
     let k := b_identity_key bundle in
     is_trusted_identity addr k Sending (identity_store e) = Ok true /\
     verify_signature (ik_public_key k) (PublicKey_serialize (spk_b_public_key (b_ec_signed_pre_key bundle)))
       (spk_b_signature (b_ec_signed_pre_key bundle)) = true /\
     verify_signature (ik_public_key k) (Key_serialize (kpk_b_public_key (b_kyber_pre_key bundle)))
       (kpk_b_signature (b_kyber_pre_key bundle)) = true) /\
  (forall p now c e', message_encrypt p addr now e = (Ok c, e') ->
     exists r s k, load_session addr (session_store e) = Ok (Some r) /\ current_session r = Some s /\
       remote_identity_key s = Ok (Some k) /\
       is_trusted_identity addr k Sending (identity_store e) = Ok true) /\
  (forall m p e', message_decrypt_prekey m addr e = (Ok p, e') ->
     is_trusted_identity addr (pk_identity_key m) Receiving (identity_store e) = Ok true) /\
  (forall m p e', message_decrypt_signal m addr e = (Ok p, e') ->
     exists r s k, load_session addr (session_store e') = Ok (Some r) /\ current_session r = Some s /\
       remote_identity_key s = Ok (Some k) /\
       is_trusted_identity addr k Receiving (identity_store e) = Ok true).
Proof.
  split; [|split; [|split]].
  - intros bundle now e' H. cbv zeta. unfold process_prekey_bundle in H. cbv zeta in H.
    rewrite env_reads in H.
    destruct (is_trusted_identity _ _ _ _) as [[]| |]; cbn [negb] in H; try done.
    destruct (verify_signature _ (PublicKey_serialize _) _); cbn [negb] in H; [|done].
    by destruct (verify_signature _ (Key_serialize _) _).
  - intros p now c e' H. unfold message_encrypt in H. rewrite env_reads in H.
    destruct (load_session addr _) as [[r|]| |] eqn:Hl; [|done..]. rewrite env_lift in H. cbn [ok_or] in H.
    rewrite env_lift in H. destruct (current_session r) as [s|] eqn:Hs; cbn [ok_or] in H; [|done].
    rewrite env_local_rng in H.
    destruct (encrypt_with_state p addr now (s, csprng e)) as [[[c' to]| |] [s' rng']] eqn:He; try done.
    destruct (encrypt_with_state_advances p addr now s _ c' to s' rng' He)
      as (ck & rk & m & _ & _ & _ & _ & _ & _ & _ & _ & Hto & _).
    rewrite env_reads in H. cbn [set_csprng identity_store] in H.
    destruct (is_trusted_identity addr to Sending (identity_store e)) as [[]| |] eqn:Ht; cbn [negb] in H; try done.
    by exists r, s, to.
  - intros m p e' H. unfold message_decrypt_prekey in H. rewrite env_reads in H.
    destruct (load_session addr _) as [r| |]; try done. rewrite M_bind_eq in H. unfold get in H.
    rewrite env_lift in H. unfold run_local in H.
    destruct (process_prekey e m addr (default new_fresh r)) as [[x| |] r'] eqn:Hp; try done.
    unfold process_prekey in Hp. rewrite lift_bind in Hp.
    by destruct (is_trusted_identity addr (pk_identity_key m) Receiving (identity_store e)) as [[]| |].
  - intros m p e' H.
    destruct (message_decrypt_signal_Ok m addr e e' p H) as (r & r' & rng' & k & _ & _ & (s & Hs & Hk) & Ht & Hl).
    by exists r', s, k.
Qed.
End trust.
