(* ===== verification/GroupCipher.v ===== *)
(** * GroupCipher: group messages (rust/protocol/src/group_cipher.rs)

    A sender distributes its chain key once and then encrypts for the whole
    group; a receiver keeps the chain in its [SenderKeyState].  Section
    [group] holds the four exported operations and [get_sender_key]; section
    [group_refinement] shows that a receiver's chain is a key stream;
    section [group_delivery] that what one member encrypts the others
    decrypt.  Logging is not modelled. *)

From S2P Require Import Prelude Types Primitives Proto Curve Crypto Messages KeyStream SenderKeys Stores.
Open Scope string_scope.
Open Scope list_scope.
Open Scope Z_scope.

(** On the sender key store, and on it together with the generator. *)
Abbreviation SkStM := (M SenderKeyState SignalProtocolError).
Abbreviation GroupM P SKS := (M (SKS * @Rng P) SignalProtocolError).

Section group.
Context {P : Primitives} {SKS : Type} `{!SenderKeyStore SKS}
  `{!Prost wire.SenderKeyMessage, !Prost wire.SenderKeyDistributionMessage}.

Definition on_store {A} (m : M SKS SignalProtocolError A) : GroupM P SKS A :=
  zoom fst (fun s '(_, rng) => (s, rng)) m.
Definition on_group_rng {A} (m : M Rng SignalProtocolError A) : GroupM P SKS A :=
  zoom snd (fun rng '(s, _) => (s, rng)) m.

(** [map_err(|_| InvalidSenderKeySession { distribution_id })]. *)
Definition or_session {E A} (distribution_id : Uuid) (r : outcome E A) : Result A :=
  map_err (fun _ => InvalidSenderKeySession distribution_id) r.

(** [u32.try_into::<u8>()]. *)
Definition version_u8 (distribution_id : Uuid) (v : Z) : Result Z :=
  if v <? 256 then Ok v else Err (InvalidSenderKeySession distribution_id).

Definition group_encrypt (sender : ProtocolAddress) (distribution_id : Uuid) (plaintext : bytes)
  : GroupM P SKS SenderKeyMessage :=
  loaded ← on_store (load_sender_key sender distribution_id);
  record ← lift (ok_or (NoSenderKeyState distribution_id) loaded);
  state ← lift (or_session distribution_id (sender_key_state record));
  message_version ← lift (version_u8 distribution_id (sks_message_version state));
  chain_key ← lift (ok_or (InvalidSenderKeySession distribution_id) (sender_chain_key state));
  let message_keys := sender_message_key chain_key in
  ciphertext ← lift (or_session distribution_id
    (aes_256_cbc_encrypt plaintext (smk_cipher_key message_keys) (smk_iv message_keys)));
  signing_key ← lift (or_session distribution_id (signing_key_private state));
  skm ← on_group_rng (SenderKeyMessage_new message_version distribution_id (sks_chain_id state)
                        (smk_iteration message_keys) ciphertext signing_key);
  next ← lift (SenderChainKey_next chain_key);
  _ ← on_store (store_sender_key sender distribution_id
                  (set_state 0 (set_sender_chain_key_state next state) record));
  mret skm.

(** The [while] loop of [get_sender_key]; the caller gives as much fuel as
    there are iterations to skip. *)
Fixpoint skip_sender_keys (fuel : nat) (iteration : Z) (chain_key : SenderChainKey)
  : SkStM SenderChainKey :=
  if sck_iteration chain_key <? iteration then
    match fuel with
    | O => lift Panic
    | S fuel =>
        _ ← modify (add_sender_message_key (sender_message_key chain_key));
        next ← lift (SenderChainKey_next chain_key);
        skip_sender_keys fuel iteration next
    end
  else mret chain_key.

Definition get_sender_key (iteration : Z) (distribution_id : Uuid) : SkStM SenderMessageKey :=
  chain_key ← reads (fun s => ok_or (InvalidSenderKeySession distribution_id) (sender_chain_key s));
  let current_iteration := sck_iteration chain_key in
  if iteration <? current_iteration then
    found ← (fun s => let '(r, s) := remove_sender_message_key iteration s in (Ok r, s));
    match found : option SenderMessageKey with
    | Some smk => mret smk
    | None => throw (DuplicatedMessage current_iteration iteration)
    end
  else
    let jump := iteration - current_iteration in
    if MAX_FORWARD_JUMPS <? jump
    then throw (InvalidMessage SenderKey "message from too far into the future")
    else
      chain_key ← skip_sender_keys (Z.to_nat jump) iteration chain_key;
      next ← lift (SenderChainKey_next chain_key);
      _ ← modify (set_sender_chain_key_state next);
      mret (sender_message_key chain_key).

Definition group_decrypt (skm_bytes : bytes) (sender : ProtocolAddress)
  : M SKS SignalProtocolError bytes :=
  skm ← lift (SenderKeyMessage_try_from skm_bytes);
  let distribution_id := sk_distribution_id skm in
  let chain_id := sk_chain_id skm in
  loaded ← load_sender_key sender distribution_id;
  record ← lift (ok_or (NoSenderKeyState distribution_id) loaded);
  '(index, state) ← lift (ok_or (NoSenderKeyState distribution_id)
                            (sender_key_state_for_chain_id record chain_id));
  let message_version := sk_message_version skm in
  if negb (message_version =? sks_message_version state)
  then throw (UnrecognizedMessageVersion message_version)
  else
    signing_key ← lift (or_session distribution_id (signing_key_public state));
    valid ← lift (SenderKeyMessage_verify_signature skm signing_key);
    if negb valid then throw SignatureValidationFailed
    else
      '(sender_key, state) ← lift (run_local state
                                     (get_sender_key (sk_iteration skm) distribution_id));
      plaintext ← lift (map_err (fun e => match e with
            | DecBadKeyOrIv => InvalidSenderKeySession distribution_id
            | BadCiphertext_ _ => InvalidMessage SenderKey "decryption failed"
            end)
          (aes_256_cbc_decrypt (sk_ciphertext skm) (smk_cipher_key sender_key) (smk_iv sender_key)));
      _ ← store_sender_key sender distribution_id (set_state index state record);
      mret plaintext.

Definition process_sender_key_distribution_message (sender : ProtocolAddress)
    (skdm : SenderKeyDistributionMessage) : M SKS SignalProtocolError unit :=
  let distribution_id := skd_distribution_id skdm in
  loaded ← load_sender_key sender distribution_id;
  let record := default new_empty loaded in
  store_sender_key sender distribution_id
    (add_sender_key_state (skd_message_version skdm) (skd_chain_id skdm) (skd_iteration skdm)
       (skd_chain_key skdm) (skd_signing_key skdm) None record).

Definition create_sender_key_distribution_message (sender : ProtocolAddress)
    (distribution_id : Uuid) : GroupM P SKS SenderKeyDistributionMessage :=
  loaded ← on_store (load_sender_key sender distribution_id);
  record ←
    match loaded : option SenderKeyRecord with
    | Some record => mret record
    | None =>
        r ← on_group_rng (fun rng => let '(x, rng) := random_u32 rng in (Ok x, rng));
        let chain_id := Z.shiftr r 1 in
        key ← on_group_rng (fun rng => let '(x, rng) := random_array 32 rng in (Ok x, rng));
        signing_key ← on_group_rng (fun rng => let '(x, rng) := KeyPair_generate rng in (Ok x, rng));
        let record := add_sender_key_state SENDERKEY_MESSAGE_CURRENT_VERSION chain_id 0 (arr key)
          (kp_public_key signing_key) (Some (kp_private_key signing_key)) new_empty in
        _ ← on_store (store_sender_key sender distribution_id record);
        mret record
    end;
  state ← lift (or_session distribution_id (sender_key_state record));
  chain_key ← lift (ok_or (InvalidSenderKeySession distribution_id) (sender_chain_key state));
  message_version ← lift (version_u8 distribution_id (sks_message_version state));
  signing_key ← lift (or_session distribution_id (signing_key_public state));
  lift (SenderKeyDistributionMessage_new message_version distribution_id (sks_chain_id state)
          (sck_iteration chain_key) (sck_chain_key chain_key) signing_key).
End group.

(** ** A receiver's chain is a key stream *)

Section group_refinement.
Context {P : Primitives}.

(** The chain that starts with key [k] at iteration [it0]. *)
Definition group_chain_after (n : nat) (k : bytes) : bytes :=
  Nat.iter n (fun k => arr (hmac_sha256 k [SENDER_CHAIN_KEY_SEED])) k.
Definition sender_chain_at (it0 : Z) (k : bytes) (n : Z) : SenderChainKey :=
  mkSenderChainKey n (group_chain_after (Z.to_nat (n - it0)) k).
Definition sender_key_at (it0 : Z) (k : bytes) (n : Z) : SenderMessageKey :=
  sender_message_key (sender_chain_at it0 k n).
Definition stored_sender_key (it0 : Z) (k : bytes) (n : Z) : storage.SenderMessageKey :=
  SenderMessageKey_as_protobuf (sender_key_at it0 k n).

(** The state's chain key stands at the stream's next counter, and its
    stored keys are the available ones, oldest first. *)
Definition group_refines (s : SenderKeyState) (it0 : Z) (k : bytes) (st : stream) : Prop :=
  stream_ok st /\ 0 <= it0 <= next st /\
  sender_chain_key s = Some (sender_chain_at it0 k (next st)) /\
  storage.sks_sender_message_keys (sks s) = reverse (stored_sender_key it0 k <$> avail st).

Lemma sender_chain_next it0 k n :
  it0 <= n < u32_max -> 0 <= n -> SenderChainKey_next (sender_chain_at it0 k n) = Ok (sender_chain_at it0 k (n + 1)).
Proof.
  intros Hn H0. unfold SenderChainKey_next, u32_checked_add. cbn [sender_chain_at sck_iteration].
  rewrite (proj2 (Z.leb_le _ _)) by lia. cbn [ok_or mbind outcome_bind]. do 2 f_equal.
  unfold sender_chain_at, get_derivative, group_chain_after. cbn [sck_chain_key]. f_equal.
  by replace (Z.to_nat (n + 1 - it0)) with (S (Z.to_nat (n - it0))) by lia.
Qed.

Lemma sender_chain_ends it0 k :
  SenderChainKey_next (sender_chain_at it0 k u32_max) =
    Err (InvalidState "sender_chain_key_next" "Sender chain is too long").
Proof. done. Qed.

Lemma add_sender_key_stored it0 k n l s :
  storage.sks_sender_message_keys (sks s) = reverse (stored_sender_key it0 k <$> l) ->
  storage.sks_sender_message_keys
    (sks (add_sender_message_key (sender_message_key (sender_chain_at it0 k n)) s)) =
  reverse (stored_sender_key it0 k <$> keep (n :: l)).
Proof.
  intros Hl. unfold add_sender_message_key. cbn [set_sender_message_keys sks storage.sks_sender_message_keys].
  rewrite Hl. change [SenderMessageKey_as_protobuf _] with (reverse [stored_sender_key it0 k n]).
  rewrite <- reverse_app. cbn [app].
  change (stored_sender_key it0 k n :: (stored_sender_key it0 k <$> l))
    with (stored_sender_key it0 k <$> n :: l).
  by rewrite trim_front_reverse, <- fmap_take.
Qed.

(** What the loop does not touch. *)
Definition same_sender (s s' : SenderKeyState) : Prop :=
  storage.sks_sender_signing_key (sks s') = storage.sks_sender_signing_key (sks s) /\
  storage.sks_chain_id (sks s') = storage.sks_chain_id (sks s) /\
  storage.sks_message_version (sks s') = storage.sks_message_version (sks s).

Lemma skip_sender_keys_eq it0 k n : forall d i l s,
  n = i + Z.of_nat d -> it0 <= i -> 0 <= i -> n <= u32_max ->
  storage.sks_sender_message_keys (sks s) = reverse (stored_sender_key it0 k <$> l) ->
  (length l <= MAX_MESSAGE_KEYS)%nat ->
  exists s', skip_sender_keys d n (sender_chain_at it0 k i) s = (Ok (sender_chain_at it0 k n), s') /\
    storage.sks_sender_message_keys (sks s') = reverse (stored_sender_key it0 k <$> keep (skipped i n ++ l)) /\
    same_sender s s'.
Proof.
  induction d as [|d IH]; intros i l s Hn Hi H0 Hmax Hl Hlen.
  - replace n with i by lia. exists s. cbn [skip_sender_keys sender_chain_at sck_iteration].
    rewrite Z.ltb_irrefl, skipped_empty. cbn [app]. unfold keep. by rewrite take_ge.
  - cbn [skip_sender_keys]. cbn [sender_chain_at sck_iteration].
    destruct (Z.ltb_spec i n); [|lia]. rewrite M_bind_eq. unfold modify at 1. rewrite lift_bind.
    change (mkSenderChainKey i (group_chain_after (Z.to_nat (i - it0)) k)) with (sender_chain_at it0 k i).
    rewrite sender_chain_next by lia.
    destruct (IH (i + 1) (keep (i :: l)) (add_sender_message_key (sender_message_key (sender_chain_at it0 k i)) s))
      as (s' & Hs' & Hk' & Hsame); try lia.
    + by apply add_sender_key_stored.
    + unfold keep. rewrite length_take. lia.
    + exists s'. split; [done|]. rewrite keep_push in Hk' by lia. by split.
Qed.

Lemma reverse_stored it0 k l :
  reverse (stored_sender_key it0 k <$> l) = stored_sender_key it0 k <$> reverse l.
Proof. by rewrite fmap_reverse. Qed.

Lemma filter_ne_reverse (l : list Z) n :
  reverse (filter (fun m => m <> n) l) = filter (fun m => m <> n) (reverse l).
Proof.
  induction l as [|m l IH]; [done|]. rewrite reverse_cons, filter_app, <- IH, !filter_cons, filter_nil.
  case_decide; [by rewrite reverse_cons|by rewrite app_nil_r].
Qed.

Lemma remove_sender_key_avail it0 k l n s :
  storage.sks_sender_message_keys (sks s) = reverse (stored_sender_key it0 k <$> l) -> NoDup l ->
  remove_sender_message_key n s =
    if bool_decide (n ∈ l)
    then (Some (sender_key_at it0 k n),
          set_sender_message_keys (reverse (stored_sender_key it0 k <$> filter (fun m => m <> n) l)) s)
    else (None, s).
Proof.
  intros Hl Hnd. unfold remove_sender_message_key. cbv zeta. rewrite Hl, reverse_stored.
  assert (Hnd' : NoDup (reverse l)) by (by rewrite reverse_Permutation).
  case_bool_decide as Hin.
  - rewrite <- elem_of_reverse in Hin. apply list_elem_of_lookup_1 in Hin as [j Hj].
    assert (position (fun x => storage.smk_iteration x =? n) (stored_sender_key it0 k <$> reverse l) = Some j) as ->.
    { apply position_Some. exists (stored_sender_key it0 k n). rewrite list_lookup_fmap, Hj.
      split_and!; [done|apply Z.eqb_refl|]. intros j' m Hm Hlt. rewrite list_lookup_fmap in Hm.
      apply fmap_Some in Hm as (m' & Hm' & ->). cbn. apply Z.eqb_neq. intros ->.
      pose proof (proj1 (NoDup_alt (reverse l)) Hnd' j j' n Hj Hm'). lia. }
    rewrite list_lookup_fmap, Hj. cbn [fmap option_fmap option_map]. f_equal.
    by rewrite reverse_stored, filter_ne_reverse, <- (filter_ne_delete _ j n Hnd' Hj), list_fmap_delete.
  - rewrite (proj2 (position_None _ _)); [done|]. intros m Hm.
    apply list_elem_of_fmap in Hm as (m' & -> & Hm'). cbn. apply Z.eqb_neq. intros ->.
    apply Hin. by rewrite <- elem_of_reverse.
Qed.

Lemma get_sender_key_stream s it0 k st n did :
  group_refines s it0 k st -> 0 <= n < u32_max ->
  exists s', get_sender_key n did s =
    (match (stream_get false n st).1 with
     | Granted => Ok (sender_key_at it0 k n)
     | Duplicate => Err (DuplicatedMessage (next st) n)
     | TooFar => Err (InvalidMessage SenderKey "message from too far into the future")
     end, s') /\
    group_refines s' it0 k (stream_get false n st).2 /\ same_sender s s'.
Proof.
  intros (Hok & Hit0 & Hck & Hmk) Hn. pose proof (stream_get_ok false n st Hok (proj1 Hn)) as Hok'.
  assert (H0 : it0 <= next (stream_get false n st).2).
  { unfold stream_get. repeat case_match; cbn; lia. }
  destruct Hok as (Hn0 & Hnd & Hlt & Hlen). unfold get_sender_key. rewrite M_bind_eq. unfold reads.
  rewrite Hck. cbn [ok_or sender_chain_at sck_iteration]. unfold stream_get in Hok', H0 |- *.
  destruct (Z.ltb_spec n (next st)) as [Hlo|Hhi].
  - rewrite M_bind_eq, (remove_sender_key_avail it0 k (avail st) n s Hmk Hnd).
    case_bool_decide; (eexists; split; [done|]); (split; [|done]);
      refine (conj Hok' (conj _ (conj _ _))); cbn in *; done || lia.
  - rewrite andb_true_r in *.
    destruct (MAX_FORWARD_JUMPS <? n - next st); 
      [eexists; split; [done|]; split; [|done]; by refine (conj Hok' (conj _ (conj _ _)))|].
    destruct (skip_sender_keys_eq it0 k n (Z.to_nat (n - next st)) (next st) (avail st) s)
      as (s' & Hskip & Hkeys & Hsame); [lia|lia|lia|lia|done|done|].
    change (mkSenderChainKey (next st) _) with (sender_chain_at it0 k (next st)).
    rewrite M_bind_eq, Hskip, lift_bind, sender_chain_next by lia. rewrite M_bind_eq.
    eexists. split; [done|]. split; [|done].
    refine (conj Hok' (conj _ (conj _ _))); cbn -[keep] in *; done || lia.
Qed.

(** C39: a group receiver's chain is a key stream.  Asking for the message key
    of an iteration answers as the stream does: the derived key, once per
    iteration, [DuplicatedMessage] afterwards, and the error for messages from
    too far into the future; the state moves with the stream, and its signing
    key, chain id and version stay. *)
Theorem sender_key_request_refines s it0 k st n did :
  group_refines s it0 k st -> 0 <= n < u32_max ->
  exists s', get_sender_key n did s =
    (match (stream_get false n st).1 with
     | Granted => Ok (sender_key_at it0 k n)
     | Duplicate => Err (DuplicatedMessage (next st) n)
     | TooFar => Err (InvalidMessage SenderKey "message from too far into the future")
     end, s') /\
    group_refines s' it0 k (stream_get false n st).2 /\
    signing_key_public s' = signing_key_public s /\ sks_chain_id s' = sks_chain_id s /\
    sks_message_version s' = sks_message_version s.
Proof.
  intros Hr Hn. destruct (get_sender_key_stream s it0 k st n did Hr Hn) as (s' & Hs & Hr' & Hk & Hc & Hv).
  exists s'. split; [done|]. split; [done|].
  unfold signing_key_public, sks_chain_id, sks_message_version. by rewrite Hk, Hc, Hv.
Qed.
End group_refinement.

(** ** What one member encrypts, the others decrypt *)

Section group_delivery.
Context {P : Primitives} {R : RngLaws} {X : X25519Laws} {Ed : EdwardsLaws} {A : AesLaws}
  {SA SB : Type} `{!SenderKeyStore SA, !SenderKeyStore SB}
  {LA : SenderKeyStoreLaws SA} {LB : SenderKeyStoreLaws SB}
  `{!Prost wire.SenderKeyMessage, !Prost wire.SenderKeyDistributionMessage}
  {L : ProstLaws wire.SenderKeyMessage wire.SenderKeyMessage_wf}
  {LD : ProstLaws wire.SenderKeyDistributionMessage wire.SenderKeyDistributionMessage_wf}
  {LL : SkdmEncodingLength}.

(** The sender's current state: its chain stands at [n], and it can sign. *)
Definition sender_state (s : SenderKeyState) (cid it0 : Z) (k : bytes) (n : Z) (kp : KeyPair) : Prop :=
  sks_message_version s = 3 /\ sks_chain_id s = cid /\ is_u32 cid /\
  sender_chain_key s = Some (sender_chain_at it0 k n) /\
  signing_key_private s = Ok (kp_private_key kp) /\
  signing_key_public s = Ok (kp_public_key kp) /\ well_formed_pair kp /\
  length k = 32%nat /\ 0 <= it0 <= n.

(** A receiver's state for the chain. *)
Definition receiver_state (s : SenderKeyState) (cid it0 : Z) (k : bytes) (st : stream)
    (pk : PublicKey) : Prop :=
  sks_message_version s = 3 /\ sks_chain_id s = cid /\ group_refines s it0 k st /\
  signing_key_public s = Ok pk.

(** The store holds a sender's, or a receiver's, state. *)
Definition can_group_send `{!SenderKeyStore SA} (a : SA) (sender : ProtocolAddress) (did : Uuid)
    (cid it0 : Z) (k : bytes) (n : Z) (kp : KeyPair) : Prop :=
  exists r s, (load_sender_key sender did a).1 = Ok (Some r) /\ sender_key_state r = Ok s /\
    sender_state s cid it0 k n kp.
Definition can_group_receive `{!SenderKeyStore SB} (b : SB) (sender : ProtocolAddress) (did : Uuid)
    (cid it0 : Z) (k : bytes) (st : stream) (pk : PublicKey) : Prop :=
  exists r i s, (load_sender_key sender did b).1 = Ok (Some r) /\
    sender_key_state_for_chain_id r cid = Some (i, s) /\ receiver_state s cid it0 k st pk.

Lemma store_then_load {S} `{!SenderKeyStore S, !SenderKeyStoreLaws S} a d r (s : S) :
  exists s', store_sender_key a d r s = (Ok tt, s') /\ (load_sender_key a d s').1 = Ok (Some r).
Proof.
  destruct (store_sender_key_ok a d r s) as (s' & Hs & s'' & Hl). exists s'. by rewrite Hl.
Qed.

Lemma load_eq {S} `{!SenderKeyStore S, !SenderKeyStoreLaws S} a d (s : S) r :
  (load_sender_key a d s).1 = r -> load_sender_key a d s = (r, s).
Proof. destruct (load_sender_key_pure a d s) as [r' E]. rewrite E. by intros <-. Qed.

Lemma sender_key_cbc n seed p :
  let key := SenderMessageKey_new n seed in
  exists c, aes_256_cbc_encrypt p (smk_cipher_key key) (smk_iv key) = Ok c /\
            aes_256_cbc_decrypt c (smk_cipher_key key) (smk_iv key) = Ok p.
Proof.
  cbn [SenderMessageKey_new smk_cipher_key smk_iv].
  set (okm := hkdf_sha256 _ _ _ _).
  destruct (try_array_length 32 (slice 16 48 okm)) as (ck & _ & <-);
    [by rewrite slice_length by (rewrite array_length; lia)|].
  destruct (try_array_length 16 (slice 0 16 okm)) as (iv & _ & <-);
    [by rewrite slice_length by (rewrite array_length; lia)|].
  apply aes_256_cbc_round_trip.
Qed.

Lemma set_state_found cid r i s s' :
  sender_key_state_for_chain_id r cid = Some (i, s) -> sks_chain_id s' = cid ->
  sender_key_state_for_chain_id (set_state i s' r) cid = Some (i, s').
Proof.
  unfold sender_key_state_for_chain_id, set_state. cbn [states].
  intros H Hid. destruct (position _ (states r)) as [j|] eqn:Hp; [|done]. cbn in H.
  apply position_Some in Hp as (x & Hx & Hpx & Hlt). rewrite Hx in H. injection H as -> ->.
  assert (Hi : (i < length (states r))%nat) by (by eapply lookup_lt_Some).
  rewrite (proj2 (position_Some _ _ i)).
  - cbn. by rewrite list_lookup_insert_eq.
  - exists s'. rewrite list_lookup_insert_eq by done. split_and!; [done|by apply Z.eqb_eq|].
    intros j y Hy Hj. rewrite list_lookup_insert_ne in Hy by lia. by apply (Hlt j).
Qed.

Lemma group_encrypt_ok a sender did cid it0 k n kp p rng :
  can_group_send a sender did cid it0 k n kp -> n < u32_max ->
  exists m a' rng',
    group_encrypt sender did p (a, rng) = (Ok m, (a', rng')) /\
    SenderKeyMessage_try_from (sk_serialized m) = Ok m /\
    SenderKeyMessage_verify_signature m (kp_public_key kp) = Ok true /\
    aes_256_cbc_decrypt (sk_ciphertext m) (smk_cipher_key (sender_key_at it0 k n))
      (smk_iv (sender_key_at it0 k n)) = Ok p /\
    sk_message_version m = 3 /\ sk_distribution_id m = did /\ sk_chain_id m = cid /\
    sk_iteration m = n /\ can_group_send a' sender did cid it0 k (n + 1) kp.
Proof.
  intros (r & s & Hload & Hs & Hv & Hid & Hcid & Hck & Hsk & Hpk & Hkp & Hk & Hit) Hn.
  destruct (sender_key_cbc n (get_derivative (sender_chain_at it0 k n) SENDER_MESSAGE_KEY_SEED) p)
    as (c & Henc & Hdec).
  destruct (SenderKeyMessage_new_spec did cid n c kp rng Hkp Hcid ltac:(unfold is_u32; lia))
    as (m & rng' & Hnew & Hm & Hparse & Hver).
  unfold group_encrypt. rewrite M_bind_eq. unfold on_store at 1. rewrite zoom_eq. cbn [fst snd].
  rewrite (load_eq sender did a _ Hload). cbn [fst snd]. rewrite lift_bind. cbn [ok_or].
  rewrite lift_bind, Hs. cbn [or_session map_err]. rewrite lift_bind, Hv. cbn [version_u8 Z.ltb Z.compare Pos.compare Pos.compare_cont].
  rewrite lift_bind, Hck. cbn [ok_or]. rewrite lift_bind.
  change (sender_message_key (sender_chain_at it0 k n))
    with (SenderMessageKey_new n (get_derivative (sender_chain_at it0 k n) SENDER_MESSAGE_KEY_SEED)).
  rewrite Henc. cbn [or_session map_err]. rewrite lift_bind, Hsk. cbn [or_session map_err].
  rewrite M_bind_eq. unfold on_group_rng. rewrite zoom_eq. cbn [fst snd smk_iteration SenderMessageKey_new].
  rewrite Hid, Hnew. cbn [fst snd]. rewrite lift_bind, sender_chain_next by lia.
  rewrite M_bind_eq. unfold on_store. rewrite zoom_eq. cbn [fst snd].
  match goal with |- context [store_sender_key sender did ?r1 a] =>
    destruct (store_then_load sender did r1 a) as (a' & Hst & Hl); set (r' := r1) in * end.
  rewrite Hst. cbn [fst snd]. exists m, a', rng'. rewrite Hm in Hparse, Hver |- *.
  split_and!; try done. exists r', (set_sender_chain_key_state (sender_chain_at it0 k (n + 1)) s).
  split; [done|]. split; [|split_and!; try done; lia]. unfold sender_key_state in Hs |- *.
  unfold r', set_state. cbn [states]. destruct (states r); [discriminate Hs|reflexivity].
Qed.

Lemma group_decrypt_ok b sender did cid it0 k st pk m p :
  can_group_receive b sender did cid it0 k st pk -> SenderKeyMessage_try_from (sk_serialized m) = Ok m ->
  SenderKeyMessage_verify_signature m pk = Ok true -> sk_message_version m = 3 ->
  sk_distribution_id m = did -> sk_chain_id m = cid -> 0 <= sk_iteration m < u32_max ->
  (stream_get false (sk_iteration m) st).1 = Granted ->
  aes_256_cbc_decrypt (sk_ciphertext m) (smk_cipher_key (sender_key_at it0 k (sk_iteration m)))
    (smk_iv (sender_key_at it0 k (sk_iteration m))) = Ok p ->
  exists b', group_decrypt (sk_serialized m) sender b = (Ok p, b') /\
    can_group_receive b' sender did cid it0 k (stream_get false (sk_iteration m) st).2 pk.
Proof.
  intros (r & i & s & Hload & Hf & Hv & Hid & Hr & Hpk) Hparse Hver Hmv Hdid Hcid Hn Hget Hdec.
  destruct (get_sender_key_stream s it0 k st (sk_iteration m) did Hr Hn) as (s' & Hs & Hr' & Hk & Hc & Hv').
  rewrite Hget in Hs. unfold group_decrypt. rewrite lift_bind, Hparse, M_bind_eq, Hdid, Hcid.
  rewrite (load_eq sender did b _ Hload), lift_bind. cbn [ok_or]. rewrite lift_bind, Hf. cbn [ok_or].
  rewrite Hmv, Hv. cbn [Z.eqb Pos.eqb negb]. rewrite lift_bind, Hpk. cbn [or_session map_err].
  rewrite lift_bind, Hver. cbn [negb]. rewrite lift_bind. unfold run_local. rewrite Hs. cbn [fmap outcome_fmap].
  rewrite lift_bind, Hdec. cbn [map_err]. rewrite M_bind_eq.
  destruct (store_then_load sender did (set_state i s' r) b) as (b' & Hst & Hl). rewrite Hst.
  exists b'. split; [done|]. exists (set_state i s' r), i, s'. split; [done|].
  assert (Hid' : sks_chain_id s' = cid) by (unfold sks_chain_id; by rewrite Hc).
  split; [by eapply set_state_found|]. split_and!; [|done|done|].
  - unfold sks_message_version in *. by rewrite Hv'.
  - unfold signing_key_public in *. by rewrite Hk.
Qed.

(** Group messages arrive.  When the sender's chain stands at [n] and a
    receiver's state for that chain grants [n], what the sender encrypts the
    receiver decrypts, and both stores are again as the theorem needs them,
    one step further. *)
Theorem group_message_delivers a b sender did cid it0 k n st kp p rng :
  can_group_send a sender did cid it0 k n kp -> n < u32_max ->
  can_group_receive b sender did cid it0 k st (kp_public_key kp) ->
  (stream_get false n st).1 = Granted ->
  exists m a' rng' b',
    group_encrypt sender did p (a, rng) = (Ok m, (a', rng')) /\
    group_decrypt (sk_serialized m) sender b = (Ok p, b') /\
    can_group_send a' sender did cid it0 k (n + 1) kp /\
    can_group_receive b' sender did cid it0 k (stream_get false n st).2 (kp_public_key kp).
Proof.
  intros Ha Hn Hb Hget. assert (H0 : 0 <= n) by (destruct Ha as (r & s & _ & _ & Ha); destruct Ha as (_ & _ & _ & _ & _ & _ & _ & _ & ?); lia).
  destruct (group_encrypt_ok a sender did cid it0 k n kp p rng Ha Hn)
    as (m & a' & rng' & Henc & Hparse & Hver & Hdec & Hv & Hdid & Hcid & Hi & Ha').
  rewrite <- Hi in Hget, Hdec.
  destruct (group_decrypt_ok b sender did cid it0 k st _ m p Hb Hparse Hver Hv Hdid Hcid
    ltac:(rewrite Hi; lia) Hget Hdec) as (b' & Hd & Hb').
  exists m, a', rng', b'. rewrite Hi in Hb'. done.
Qed.

(** A receiver's view of one message: what [group_decrypt] did up to the key. *)
Lemma group_decrypt_request b sender did cid it0 k st pk data m :
  SenderKeyMessage_try_from data = Ok m -> sk_distribution_id m = did -> sk_chain_id m = cid ->
  0 <= sk_iteration m < u32_max -> can_group_receive b sender did cid it0 k st pk ->
  exists r i s', receiver_state s' cid it0 k (stream_get false (sk_iteration m) st).2 pk /\
    (load_sender_key sender did b).1 = Ok (Some r) /\
    (exists s, sender_key_state_for_chain_id r cid = Some (i, s)) /\
    group_decrypt data sender b =
      (if negb (sk_message_version m =? 3) then throw (UnrecognizedMessageVersion (sk_message_version m))
       else
         valid ← lift (SenderKeyMessage_verify_signature m pk);
         if negb valid then throw SignatureValidationFailed
         else match (stream_get false (sk_iteration m) st).1 with
              | Granted =>
                  plaintext ← lift (map_err (fun e => match e with
                        | DecBadKeyOrIv => InvalidSenderKeySession did
                        | BadCiphertext_ _ => InvalidMessage SenderKey "decryption failed"
                        end)
                      (aes_256_cbc_decrypt (sk_ciphertext m)
                         (smk_cipher_key (sender_key_at it0 k (sk_iteration m)))
                         (smk_iv (sender_key_at it0 k (sk_iteration m)))));
                  _ ← store_sender_key sender did (set_state i s' r);
                  mret plaintext
              | Duplicate => throw (DuplicatedMessage (next st) (sk_iteration m))
              | TooFar => throw (InvalidMessage SenderKey "message from too far into the future")
              end) b.
Proof.
  intros Hparse Hdid Hcid Hn (r & i & s & Hload & Hf & Hv & Hid & Hr & Hpk).
  destruct (get_sender_key_stream s it0 k st (sk_iteration m) did Hr Hn) as (s' & Hs & Hr' & Hk & Hc & Hv').
  exists r, i, s'. split.
  { split; [|split; [|split; [done|]]].
    - unfold sks_message_version in *. by rewrite Hv'.
    - unfold sks_chain_id in *. by rewrite Hc.
    - unfold signing_key_public in *. by rewrite Hk. }
  split; [done|]. split; [by exists s|].
  unfold group_decrypt. rewrite lift_bind, Hparse, M_bind_eq, Hdid, Hcid.
  rewrite (load_eq sender did b _ Hload), lift_bind. cbn [ok_or]. rewrite lift_bind, Hf. cbn [ok_or].
  rewrite Hv. destruct (sk_message_version m =? 3); cbn [negb]; [|done].
  rewrite lift_bind, Hpk. cbn [or_session map_err]. rewrite !lift_bind.
  destruct (SenderKeyMessage_verify_signature m pk) as [[]| |]; [|done..]. cbn [negb].
  rewrite lift_bind. unfold run_local. rewrite Hs.
  by destruct (stream_get false (sk_iteration m) st).1.
Qed.

(** Group messages are authenticated and accepted once.  When a receiver
    accepted a message, its signature verifies under the signing key stored for
    the chain; and the same bytes, offered again to the store that resulted,
    are refused with [DuplicatedMessage] and change nothing. *)
Theorem group_message_once b sender did cid it0 k st pk data m p b' :
  SenderKeyMessage_try_from data = Ok m -> sk_distribution_id m = did -> sk_chain_id m = cid ->
  0 <= sk_iteration m < u32_max -> can_group_receive b sender did cid it0 k st pk ->
  group_decrypt data sender b = (Ok p, b') ->
  SenderKeyMessage_verify_signature m pk = Ok true /\
  exists idx, group_decrypt data sender b' = (Err (DuplicatedMessage idx (sk_iteration m)), b').
Proof.
  intros Hparse Hdid Hcid Hn Hb H. pose proof Hb as (r0 & i0 & s0 & _ & _ & _ & _ & [Hok _] & _).
  destruct (group_decrypt_request b sender did cid it0 k st pk data m Hparse Hdid Hcid Hn Hb)
    as (r & i & s' & Hs' & Hload & [s Hf] & Heq).
  rewrite Heq in H. clear Heq.
  destruct (Z.eqb_spec (sk_message_version m) 3) as [Hv|]; cbn [negb] in H; [|done].
  rewrite lift_bind in H. destruct (SenderKeyMessage_verify_signature m pk) as [[]| |] eqn:Hver; cbn [negb] in H; try done.
  split; [done|]. destruct (stream_get false (sk_iteration m) st) as [[] st'] eqn:Hget; cbn [fst snd] in *; try done.
  rewrite lift_bind in H. destruct (aes_256_cbc_decrypt _ _ _) as [p'| |]; cbn [map_err] in H; [|done..].
  destruct (store_then_load sender did (set_state i s' r) b) as (b1 & Hst & Hl).
  rewrite M_bind_eq, Hst in H. injection H as _ <-.
  assert (Hb1 : can_group_receive b1 sender did cid it0 k st' pk).
  { exists (set_state i s' r), i, s'. split; [done|]. split; [|done].
    eapply set_state_found; [done|]. by destruct Hs' as (_ & ? & _). }
  destruct (group_decrypt_request b1 sender did cid it0 k st' pk data m Hparse Hdid Hcid Hn Hb1)
    as (r1 & i1 & s1 & _ & _ & _ & Heq). rewrite Heq. clear Heq. rewrite Hv, Hver.
  cbn [negb Z.eqb Pos.eqb]. rewrite lift_bind. cbn [negb].
  destruct (stream_no_replay false (sk_iteration m) st st' Hok Hget) as (_ & _ & Hdup).
  rewrite Hdup. cbn [fst]. by exists (next st').
Qed.

(** *** Distribution *)

Lemma group_chain_after_length n k : length k = 32%nat -> length (group_chain_after n k) = 32%nat.
Proof. intros Hk. destruct n; [done|]. unfold group_chain_after. rewrite Nat.iter_succ. apply array_length. Qed.

(** The chain that starts at [n] is the tail of the chain that starts before. *)
Lemma sender_chain_rebase it0 k n m :
  it0 <= n <= m ->
  sender_chain_at n (group_chain_after (Z.to_nat (n - it0)) k) m = sender_chain_at it0 k m.
Proof.
  intros H. unfold sender_chain_at, group_chain_after. f_equal. rewrite <- Nat.iter_add. f_equal. lia.
Qed.

Lemma add_new_chain v cid it ck pk sk r :
  (forall s, s ∈ states r -> sks_chain_id s <> cid) ->
  states (add_sender_key_state v cid it ck pk sk r) =
    SenderKeyState_new v cid it ck pk sk :: take (MAX_SENDER_KEY_STATES - 1) (states r).
Proof.
  intros Hnone. unfold add_sender_key_state, remove_state.
  rewrite (proj2 (position_None _ _)).
  2: { intros s Hs. specialize (Hnone s Hs). apply andb_false_iff. left. by apply Z.eqb_neq. }
  cbn [states]. f_equal. unfold remove_states_with_chain_id.
  assert (filter (fun s => sks_chain_id s <> cid) (states r) = states r) as ->.
  { revert Hnone. generalize (states r). intros l. induction l as [|s l IH]; intros Hl; [done|].
    rewrite filter_cons_True by (apply Hl, list_elem_of_here).
    f_equal. apply IH. intros s' Hs'. apply Hl. by apply list_elem_of_further. }
  by apply pop_back_until_eq.
Qed.

(** A distribution message for the chain at [n], as its recipients parse it. *)
Definition distributes (m : SenderKeyDistributionMessage) (did : Uuid) (cid n : Z) (k : bytes)
    (pk : PublicKey) : Prop :=
  m = mkSenderKeyDistributionMessage 3 did cid n k pk (skd_serialized m) /\
  SenderKeyDistributionMessage_try_from (skd_serialized m) = Ok m.

Lemma process_ok b rb sender did m cid n k pk :
  distributes m did cid n k pk -> 0 <= n ->
  (load_sender_key sender did b).1 = Ok rb ->
  (forall s, s ∈ states (default new_empty rb) -> sks_chain_id s <> cid) ->
  exists b', process_sender_key_distribution_message sender m b = (Ok tt, b') /\
    can_group_receive b' sender did cid n k (mkStream n []) pk.
Proof.
  intros [Hm _] Hn Hload Hnone. rewrite Hm. unfold process_sender_key_distribution_message.
  cbn [skd_message_version skd_distribution_id skd_chain_id skd_iteration skd_chain_key skd_signing_key].
  rewrite M_bind_eq, (load_eq sender did b _ Hload). cbv zeta.
  match goal with |- context [store_sender_key sender did ?r b] => set (r' := r) end.
  destruct (store_then_load sender did r' b) as (b' & Hst & Hl). exists b'. split; [done|].
  exists r', 0%nat, (SenderKeyState_new 3 cid n k pk None). split; [done|]. split.
  - unfold sender_key_state_for_chain_id, r'. rewrite add_new_chain by done.
    rewrite (proj2 (position_Some _ _ 0%nat)); [done|].
    exists (SenderKeyState_new 3 cid n k pk None). split_and!; [done|apply Z.eqb_refl|lia].
  - split_and!; [done|done| |].
    + split; [split_and!; cbn; (done || lia || constructor)|]. split; [cbn; lia|]. split; [|done].
      cbn. unfold sender_chain_at. by rewrite Z.sub_diag.
    + unfold signing_key_public. cbn -[PublicKey_deserialize PublicKey_serialize].
      by rewrite PublicKey_deserialize_serialize.
Qed.

Lemma create_existing (a : SA) r s did cid it0 k n kp (rng : Rng) :
  sender_key_state r = Ok s -> sender_state s cid it0 k n kp -> is_u32 n ->
  exists m,
    (state ← lift (or_session did (sender_key_state r));
     chain_key ← lift (ok_or (InvalidSenderKeySession did) (sender_chain_key state));
     message_version ← lift (version_u8 did (sks_message_version state));
     signing_key ← lift (or_session did (signing_key_public state));
     lift (SenderKeyDistributionMessage_new message_version did (sks_chain_id state)
             (sck_iteration chain_key) (sck_chain_key chain_key) signing_key)) (a, rng) = (Ok m, (a, rng)) /\
    distributes m did cid n (sck_chain_key (sender_chain_at it0 k n)) (kp_public_key kp).
Proof.
  intros Hs (Hv & Hid & Hcid & Hck & _ & Hpk & _ & Hk & _) Hn. rewrite lift_bind, Hs. cbn [or_session map_err].
  rewrite lift_bind, Hck. cbn [ok_or]. rewrite lift_bind, Hv. cbn [version_u8 Z.ltb Z.compare Pos.compare Pos.compare_cont].
  rewrite lift_bind, Hpk. cbn [or_session map_err]. rewrite Hid.
  destruct (SenderKeyDistributionMessage_new_spec did cid n (sck_chain_key (sender_chain_at it0 k n))
    (kp_public_key kp) Hcid Hn ltac:(by apply group_chain_after_length)) as (m & Hnew & Hm & Hp).
  exists m. unfold lift. cbn [sender_chain_at sck_iteration]. rewrite Hnew. split; [done|]. by split.
Qed.

(** The sender's state read as the chain that starts where it stands. *)
Lemma sender_state_rebase s cid it0 k n kp :
  sender_state s cid it0 k n kp ->
  sender_state s cid n (sck_chain_key (sender_chain_at it0 k n)) n kp.
Proof.
  intros (Hv & Hid & Hcid & Hck & Hsk & Hpk & Hkp & Hk & Hit). split_and!; try done; [| |lia].
  - rewrite Hck. f_equal. symmetry. apply sender_chain_rebase. lia.
  - by apply group_chain_after_length.
Qed.

Lemma create_ok a sender did rng :
  (load_sender_key sender did a).1 = Ok None \/
    (exists cid it0 k n kp, can_group_send a sender did cid it0 k n kp /\ n < u32_max) ->
  exists m a' rng' cid n k kp,
    create_sender_key_distribution_message sender did (a, rng) = (Ok m, (a', rng')) /\
    distributes m did cid n k (kp_public_key kp) /\
    can_group_send a' sender did cid n k n kp /\ 0 <= n < u32_max.
Proof.
  intros H. unfold create_sender_key_distribution_message. rewrite M_bind_eq. unfold on_store at 1.
  rewrite zoom_eq. cbn [fst snd]. destruct H as [Hload|(cid & it0 & k & n & kp & (r & s & Hload & Hs & Hsend) & Hn)].
  - rewrite (load_eq sender did a _ Hload). cbn [fst snd]. rewrite !M_bind_eq. unfold on_group_rng at 1.
    rewrite zoom_eq. cbn [fst snd]. pose proof (random_u32_range rng) as Hr.
    destruct (random_u32 rng) as [x rng1]. cbn [fst snd] in *.
    rewrite M_bind_eq. unfold on_group_rng at 1. rewrite zoom_eq. cbn [fst snd].
    destruct (random_array 32 rng1) as [key rng2]. cbn [fst snd].
    rewrite M_bind_eq. unfold on_group_rng at 1. rewrite zoom_eq. cbn [fst snd].
    pose proof (KeyPair_generate_well_formed rng2) as Hkp.
    destruct (KeyPair_generate rng2) as [kp rng3]. cbn [fst snd] in *.
    rewrite M_bind_eq. unfold on_store at 1. rewrite zoom_eq. cbn [fst snd].
    match goal with |- context [store_sender_key sender did ?x a] => set (r := x) in * end.
    destruct (store_then_load sender did r a) as (a' & Hst & Hl).
    rewrite Hst. cbn [fst snd]. unfold mret at 1, M_ret at 1.
    set (s := SenderKeyState_new 3 (Z.shiftr x 1) 0 (arr key) (kp_public_key kp) (Some (kp_private_key kp))).
    assert (Hs : sender_key_state r = Ok s) by done.
    assert (Hsend : sender_state s (Z.shiftr x 1) 0 (arr key) 0 kp).
    { unfold sender_state. split_and!; try done; try apply array_length.
      - rewrite Z.shiftr_div_pow2 by lia. change (2 ^ 1) with 2. unfold is_u32, u32_max in *.
        split; [apply Z.div_pos; lia|apply Z.div_le_upper_bound; lia].
      - unfold signing_key_private. cbn -[PrivateKey_deserialize PrivateKey_serialize].
        by rewrite PrivateKey_read_back.
      - unfold signing_key_public. cbn -[PublicKey_deserialize PublicKey_serialize].
        by rewrite PublicKey_deserialize_serialize. }
    destruct (create_existing a' r s did _ 0 (arr key) 0 kp rng3 Hs Hsend) as (m & Hm & Hd); [done|].
    rewrite Hm. exists m, a', rng3, (Z.shiftr x 1), 0, (arr key), kp.
    split_and!; try done. by exists r, s.
  - assert (H0 : 0 <= n) by (destruct Hsend as (_ & _ & _ & _ & _ & _ & _ & _ & ?); lia).
    rewrite (load_eq sender did a _ Hload). cbn [fst snd]. rewrite M_bind_eq. unfold mret at 1, M_ret at 1.
    destruct (create_existing a r s did _ it0 k n kp rng Hs Hsend) as (m & Hm & Hd);
      [unfold is_u32; lia|].
    rewrite Hm. eexists m, a, rng, cid, n, _, kp. split; [done|]. split; [exact Hd|].
    split; [|done].
    exists r, s. split; [done|]. split; [done|]. by eapply sender_state_rebase.
Qed.

(** C38: a group end to end.  A sender that has no key for a distribution yet,
    or one whose chain is under way, creates a distribution message, which
    parses back; a receiver that does not know the chain processes it; and
    every message the sender then encrypts for the group the receiver
    decrypts to the same plaintext. *)
Theorem distribution_then_delivery a sender did rng :
  (load_sender_key sender did a).1 = Ok None \/
    (exists cid it0 k n kp, can_group_send a sender did cid it0 k n kp /\ n < u32_max) ->
  exists m a1 rng1,
    create_sender_key_distribution_message sender did (a, rng) = (Ok m, (a1, rng1)) /\
    SenderKeyDistributionMessage_try_from (skd_serialized m) = Ok m /\
    forall b rb,
      (load_sender_key sender did b).1 = Ok rb ->
      (forall s, s ∈ states (default new_empty rb) -> sks_chain_id s <> skd_chain_id m) ->
      exists b1, process_sender_key_distribution_message sender m b = (Ok tt, b1) /\
        forall p, exists c a2 rng2 b2,
          group_encrypt sender did p (a1, rng1) = (Ok c, (a2, rng2)) /\
          group_decrypt (sk_serialized c) sender b1 = (Ok p, b2).
Proof.
  intros Ha. destruct (create_ok a sender did rng Ha)
    as (m & a1 & rng1 & cid & n & k & kp & Hcreate & Hm & Hsend & Hn).
  exists m, a1, rng1. split; [done|]. split; [by apply Hm|]. intros b rb Hb Hnone.
  destruct (process_ok b rb sender did m cid n k (kp_public_key kp) Hm (proj1 Hn) Hb) as (b1 & Hproc & Hrecv).
  { destruct Hm as [Hm _]. by rewrite Hm in Hnone. }
  exists b1. split; [done|]. intros p.
  destruct (group_encrypt_ok a1 sender did cid n k n kp p rng1 Hsend (proj2 Hn))
    as (c & a2 & rng2 & Henc & Hparse & Hver & Hdec & Hv & Hdid & Hcid & Hi & _).
  assert (Hget : stream_get false n (mkStream n []) = (Granted, mkStream (n + 1) [])).
  { unfold stream_get. cbn [next]. rewrite Z.ltb_irrefl, Z.sub_diag, skipped_empty. done. }
  destruct (group_decrypt_ok b1 sender did cid n k (mkStream n []) (kp_public_key kp) c p Hrecv Hparse
    Hver Hv Hdid Hcid) as (b2 & Hd & _); rewrite ?Hi, ?Hget; [done|done|done|].
  by exists c, a2, rng2, b2.
Qed.
End group_delivery.
