(* ===== verification/AccountKeys.v ===== *)
(** * AccountKeys: the account entropy pool and the keys derived from it
    (rust/account-keys/src, rust/message-backup/src/key.rs)

    Argon2, its string format and the sampling from a slice are parameters. *)

From S2P Require Import Prelude Types Primitives ServiceId Curve.
Open Scope string_scope.
Open Scope list_scope.
Open Scope Z_scope.

(** ** Text *)

(** The first [char] of a string given by its UTF-8 bytes, as its code point. *)
Definition is_continuation (b : byte) : bool := (128 <=? u8 b) && (u8 b <? 192).
Definition low6 (b : byte) : Z := Z.land (u8 b) 63.
Definition first_char (l : bytes) : option Z :=
  match l with
  | [] => None
  | b0 :: l =>
      if u8 b0 <? 128 then Some (u8 b0)
      else if u8 b0 <? 224 then
        match l with b1 :: _ => Some (Z.land (u8 b0) 31 * 64 + low6 b1) | _ => None end
      else if u8 b0 <? 240 then
        match l with b1 :: b2 :: _ => Some (Z.land (u8 b0) 15 * 4096 + low6 b1 * 64 + low6 b2) | _ => None end
      else
        match l with
        | b1 :: b2 :: b3 :: _ => Some (Z.land (u8 b0) 7 * 262144 + low6 b1 * 4096 + low6 b2 * 64 + low6 b3)
        | _ => None
        end
  end.

(** The bytes of a [&str]: sequences of a lead byte and its continuation bytes
    (overlong forms and surrogates, which [str] also excludes, make no difference
    here). *)
Fixpoint utf8_from (pending : nat) (l : bytes) : bool :=
  match l with
  | [] => (pending =? 0)%nat
  | b :: l =>
      match pending with
      | O =>
          if u8 b <? 128 then utf8_from 0 l
          else if u8 b <? 192 then false
          else if u8 b <? 224 then utf8_from 1 l
          else if u8 b <? 240 then utf8_from 2 l
          else if u8 b <? 248 then utf8_from 3 l
          else false
      | S pending => is_continuation b && utf8_from pending l
      end
  end.
Definition is_utf8 (l : bytes) : bool := utf8_from 0 l.

Section account_keys.
Context {P : Primitives}.

(** ** The entropy pool (lib.rs) *)

Definition SVR_KEY_LEN : nat := 32.
Definition POOL_LENGTH : nat := 64.
Definition ALPHABET : bytes := byte_str "0123456789abcdefghijklmnopqrstuvwxyz".

Record AccountEntropyPool := mkEntropyPool { entropy_pool : array 64 }.

(** [rand::distr::slice::Choose]. *)
Class SliceChoose := { slice_choose : bytes -> Rng -> byte * Rng }.
Class SliceChooseLaws `{SliceChoose} := {
  slice_choose_in : forall l rng, l <> [] -> (slice_choose l rng).1 ∈ l
}.

Fixpoint sample_many `{SliceChoose} (n : nat) (rng : Rng) : bytes * Rng :=
  match n with
  | O => ([], rng)
  | S n => let '(b, rng) := slice_choose ALPHABET rng in let '(l, rng) := sample_many n rng in (b :: l, rng)
  end.
Definition entropy_pool_generate `{SliceChoose} (rng : Rng) : AccountEntropyPool * Rng :=
  let '(l, rng) := sample_many POOL_LENGTH rng in (mkEntropyPool (to_array 64 l), rng).

Definition derive_svr_key (pool : AccountEntropyPool) : array 32 :=
  hkdf_sha256 None (arr (entropy_pool pool)) (byte_str "20240801_SIGNAL_SVR_MASTER_KEY") 32.

Definition entropy_pool_display {E} (pool : AccountEntropyPool) : outcome E bytes :=
  if is_utf8 (arr (entropy_pool pool)) then Ok (arr (entropy_pool pool)) else Panic.

Inductive InvalidAccountEntropyPool :=
| WrongLength (len : nat)
| InvalidCharacter (c : Z).

Definition is_ascii_digit_byte (b : byte) : bool := (48 <=? u8 b) && (u8 b <=? 57).
Definition is_ascii_lowercase_byte (b : byte) : bool := (97 <=? u8 b) && (u8 b <=? 122).

(** [FromStr]; the text is given as its bytes. *)
Definition entropy_pool_from_str (s : bytes) : outcome InvalidAccountEntropyPool AccountEntropyPool :=
  match try_array 64 s with
  | None => Err (WrongLength (length s))
  | Some pool =>
      match position (fun c => negb (is_ascii_digit_byte c) && negb (is_ascii_lowercase_byte c)) (arr pool) with
      | Some invalid_pos =>
          (* [s[invalid_pos..]] is a slice at a character boundary. *)
          match drop invalid_pos s with
          | b :: _ => if is_continuation b then Panic
                      else c ← expect (first_char (drop invalid_pos s)); Err (InvalidCharacter c)
          | [] => Panic
          end
      | None => Ok (mkEntropyPool pool)
      end
  end.

(** ** Backup keys (backup.rs) *)

Definition V1 : Z := 1.
Definition LATEST : Z := V1.
Definition BACKUP_KEY_LEN : nat := 32.
Definition MEDIA_ID_LEN : nat := 15.
Definition MEDIA_ENCRYPTION_KEY_LEN : nat := 64.
Definition BACKUP_FORWARD_SECRECY_TOKEN_LEN : nat := 32.

(** The version is a parameter of the type. *)
Record BackupKey (VERSION : Z) := mkBackupKey { backup_key : array 32 }.
Arguments mkBackupKey {VERSION} _.
Arguments backup_key {VERSION} _.
Record BackupId := mkBackupId { backup_id : array 16 }.
Record BackupForwardSecrecyToken := mkToken { forward_secrecy_token : array 32 }.
Record BackupForwardSecrecyPassword := mkPassword { forward_secrecy_password : array 32 }.
Record BackupForwardSecrecyEncryptionKey := mkFsEncryptionKey { fs_cipher_key : array 32; fs_hmac_key : array 32 }.

(** [expand_multi_info] expands the concatenation of its parts. *)
Definition expand_multi_info (key : array 32) (info : list bytes) (n : nat) : array n :=
  hkdf_sha256 None (arr key) (concat info) n.

Definition derive_from_account_entropy_pool (entropy : AccountEntropyPool) : BackupKey V1 :=
  mkBackupKey (hkdf_sha256 None (arr (entropy_pool entropy)) (byte_str "20240801_SIGNAL_BACKUP_KEY") 32).
Definition derive_ec_key {E} (k : BackupKey V1) (aci : Aci) : outcome E PrivateKey :=
  expect_ok (PrivateKey_deserialize
    (arr (expand_multi_info (backup_key k) [byte_str "20241024_SIGNAL_BACKUP_ID_KEYPAIR:"; service_id_binary (SAci aci)] 32))).
Definition derive_local_backup_metadata_key (k : BackupKey V1) : array 32 :=
  hkdf_sha256 None (arr (backup_key k)) (byte_str "20241011_SIGNAL_LOCAL_BACKUP_METADATA_KEY") 32.
Definition derive_media_id (k : BackupKey V1) (media_name : string) : array 15 :=
  expand_multi_info (backup_key k) [byte_str "20241007_SIGNAL_BACKUP_MEDIA_ID:"; byte_str media_name] 15.
Definition derive_media_encryption_key_data (k : BackupKey V1) (media_id : array 15) : array 64 :=
  expand_multi_info (backup_key k) [byte_str "20241007_SIGNAL_BACKUP_ENCRYPT_MEDIA:"; arr media_id] 64.
Definition derive_thumbnail_transit_encryption_key_data (k : BackupKey V1) (media_id : array 15) : array 64 :=
  expand_multi_info (backup_key k) [byte_str "20241030_SIGNAL_BACKUP_ENCRYPT_THUMBNAIL:"; arr media_id] 64.

Definition derive_backup_id {E V} (k : BackupKey V) (aci : Aci) : outcome E BackupId :=
  if V =? V1
  then Ok (mkBackupId (expand_multi_info (backup_key k) [byte_str "20241024_SIGNAL_BACKUP_ID:"; service_id_binary (SAci aci)] 16))
  else Panic.
Definition derive_forward_secrecy_password {V} (k : BackupKey V) (salt : bytes) : BackupForwardSecrecyPassword :=
  mkPassword (hkdf_sha256 (Some salt) (arr (backup_key k)) (byte_str "Signal Message Backup 20250627:SVR PIN") 32).
Definition derive_forward_secrecy_encryption_key {V} (k : BackupKey V) (salt : bytes) : BackupForwardSecrecyEncryptionKey :=
  let b := arr (hkdf_sha256 (Some salt) (arr (backup_key k))
                  (byte_str "Signal Message Backup 20250627:BackupForwardSecrecyToken Encryption Key") 64) in
  mkFsEncryptionKey (to_array 32 (take 32 b)) (to_array 32 (take 32 (drop 32 b))).

(** ** The key of a backup file (message-backup/src/key.rs) *)

Record MessageBackupKey := mkMessageBackupKey { mbk_hmac_key : array 32; mbk_aes_key : array 32 }.

Definition MessageBackupKey_derive {E V} (k : BackupKey V) (id : BackupId) (backup_nonce : option BackupForwardSecrecyToken)
  : outcome E MessageBackupKey :=
  if V =? LATEST then
    let '(salt, dst) :=
      match backup_nonce with
      | Some nonce => (Some (arr (forward_secrecy_token nonce)), byte_str "20250708_SIGNAL_BACKUP_ENCRYPT_MESSAGE_BACKUP:")
      | None => (None, byte_str "20241007_SIGNAL_BACKUP_ENCRYPT_MESSAGE_BACKUP:")
      end in
    let full_bytes := arr (hkdf_sha256 salt (arr (backup_key k)) (dst ++ arr (backup_id id)) 64) in
    Ok (mkMessageBackupKey (to_array 32 (take 32 full_bytes)) (to_array 32 (drop 32 full_bytes)))
  else Panic.

(** ** PIN hashes (hash.rs) *)

Inductive Argon2Algorithm := Argon2i | Argon2id.
Record Argon2Params := mkArgon2Params {
  algorithm : Argon2Algorithm; m_cost : Z; p_cost : Z; t_cost : Z; output_len : nat
}.
(** The argon2 crate: raw hashing, PHC strings, and verification, which reads the
    parameters of the hash from the string. *)
Class Argon2 := {
  Argon2Error : Type;
  PasswordHashError : Type;
  ParsedHash : Type;
  hash_password_into : Argon2Params -> bytes -> bytes -> outcome Argon2Error bytes;
  salt_generate : Rng -> string * Rng;
  hash_password : Argon2Params -> bytes -> string -> outcome PasswordHashError string;
  parse_hash : string -> outcome PasswordHashError ParsedHash;
  verify_password : bytes -> ParsedHash -> bool
}.
Class Argon2Laws `{Argon2} := {
  hash_length : forall p pin salt h, hash_password_into p pin salt = Ok h -> length h = output_len p;
  hash_verifies : forall p pin salt s, hash_password p pin salt = Ok s ->
    exists h, parse_hash s = Ok h /\ verify_password pin h = true
}.

Inductive AccountKeysError `{Argon2} :=
| Argon2Error_ (e : Argon2Error)
| DecodingError_ (e : PasswordHashError)
| MrenclaveLookupError.

Record PinHash := mkPinHash { encryption_key : array 32; access_key : array 32 }.

Section pins.
Context {A2 : Argon2}.

Definition PinHash_params : Argon2Params := mkArgon2Params Argon2id (1024 * 16) 1 32 64.
Definition PinHash_create (pin : bytes) (salt : array 32) : outcome AccountKeysError PinHash :=
  output_key_material ← map_err Argon2Error_ (hash_password_into PinHash_params pin (arr salt));
  Ok (mkPinHash (to_array 32 (take 32 output_key_material)) (to_array 32 (drop 32 output_key_material))).
Definition make_salt (username : string) (group_id : Z) : array 32 :=
  hkdf_sha256 (Some (be_bytes 8 group_id)) (byte_str username) [] 32.

Definition local_pin_params : Argon2Params := mkArgon2Params Argon2i 512 1 64 32.
Definition local_pin_hash_with_salt (pin : bytes) (salt : string) : outcome AccountKeysError string :=
  map_err DecodingError_ (hash_password local_pin_params pin salt).
Definition local_pin_hash (pin : bytes) : M Rng AccountKeysError string := fun rng =>
  let '(salt, rng) := salt_generate rng in (local_pin_hash_with_salt pin salt, rng).
Definition verify_local_pin_hash (encoded_hash : string) (pin : bytes) : outcome AccountKeysError bool :=
  parsed ← map_err DecodingError_ (parse_hash encoded_hash); Ok (verify_password pin parsed).
End pins.
End account_keys.
Arguments mkBackupKey {VERSION} _.
Arguments backup_key {VERSION} _.

(** ** What they guarantee *)

Section theorems.
Context {P : Primitives}.

Definition in_alphabet (b : byte) : bool := is_ascii_digit_byte b || is_ascii_lowercase_byte b.

Lemma in_alphabet_ALPHABET b : in_alphabet b = true <-> b ∈ ALPHABET.
Proof.
  assert (forallb (fun b => Bool.eqb (in_alphabet b) (bool_decide (b ∈ ALPHABET))) (as_u8 <$> (Z.of_nat <$> seq 0 256)) = true) as H
    by by vm_compute.
  rewrite forallb_forall in H. specialize (H b). rewrite Bool.eqb_true_iff in H. rewrite H; [apply bool_decide_eq_true|].
  apply list_elem_of_In, list_elem_of_fmap. exists (u8 b). split; [by rewrite as_u8_u8|].
  apply list_elem_of_fmap. exists (Z.to_nat (u8 b)). pose proof (u8_range b). split; [lia|]. apply elem_of_seq. lia.
Qed.

Lemma in_alphabet_spec b :
  negb (is_ascii_digit_byte b) && negb (is_ascii_lowercase_byte b) = negb (in_alphabet b).
Proof. unfold in_alphabet. by rewrite negb_orb. Qed.

Lemma in_alphabet_ascii b : in_alphabet b = true -> u8 b < 128.
Proof. unfold in_alphabet, is_ascii_digit_byte, is_ascii_lowercase_byte. lia. Qed.

(** The text after a prefix of ASCII characters is text. *)
Lemma utf8_drop i l :
  is_utf8 l = true -> (forall j b, l !! j = Some b -> (j < i)%nat -> in_alphabet b = true) ->
  is_utf8 (drop i l) = true.
Proof.
  revert l. induction i as [|i IH]; intros [|b l] Hu Hp; [done..|]. cbn [drop].
  apply IH; [|intros j c Hj Hlt; apply (Hp (S j) c Hj); lia].
  specialize (Hp O b eq_refl ltac:(lia)). apply in_alphabet_ascii in Hp.
  unfold is_utf8 in Hu. cbn in Hu. destruct (Z.ltb_spec (u8 b) 128); [done|lia].
Qed.

(** Text that is not empty has a first character. *)
Lemma utf8_first l b :
  is_utf8 (b :: l) = true -> is_continuation b = false /\ is_Some (first_char (b :: l)).
Proof.
  unfold is_utf8, is_continuation, first_char. cbn.
  destruct (Z.ltb_spec (u8 b) 128). { intros _. split; [lia|eauto]. }
  destruct (Z.ltb_spec (u8 b) 192); [done|]. intros Hu. split; [lia|].
  destruct (Z.ltb_spec (u8 b) 224), (Z.ltb_spec (u8 b) 240), (Z.ltb_spec (u8 b) 248); try lia; try done;
    repeat match type of Hu with utf8_from (S _) ?l = true => destruct l; [done|]; cbn in Hu; apply andb_true_iff in Hu as [_ Hu] end; eauto.
Qed.

Lemma utf8_alphabet l : Forall (fun b => in_alphabet b = true) l -> is_utf8 l = true.
Proof.
  unfold is_utf8. induction 1 as [|b l Hb Hl IH]; [done|]. cbn.
  apply in_alphabet_ascii in Hb. by destruct (Z.ltb_spec (u8 b) 128); [|lia].
Qed.

Lemma from_str_accepts (pool : array 64) :
  Forall (fun b => in_alphabet b = true) (arr pool) -> entropy_pool_from_str (arr pool) = Ok (mkEntropyPool pool).
Proof.
  intros Hp. unfold entropy_pool_from_str. rewrite try_array_arr.
  destruct (position _ _) as [i|] eqn:Hi; [|done]. exfalso.
  apply position_Some in Hi as (b & Hb & Hn & _). rewrite in_alphabet_spec in Hn.
  rewrite Forall_lookup in Hp. by rewrite (Hp i b Hb) in Hn.
Qed.

Lemma sample_many_in {SC : SliceChoose} {SL : SliceChooseLaws} n rng :
  length (sample_many n rng).1 = n /\ Forall (fun b => in_alphabet b = true) (sample_many n rng).1.
Proof.
  revert rng. induction n as [|n IH]; intros rng; [done|]. cbn [sample_many].
  pose proof (slice_choose_in ALPHABET rng ltac:(done)) as Hin. destruct (slice_choose ALPHABET rng) as [b rng1].
  specialize (IH rng1). destruct (sample_many n rng1) as [l rng2]. destruct IH as [Hl Ha]. cbn [fst length] in *.
  split; [by rewrite Hl|]. constructor; [by apply in_alphabet_ALPHABET|done].
Qed.

(** An account entropy pool is exactly 64 characters of the alphabet: the parser
    accepts such a text and gives a pool that displays as it; it refuses every
    other text, with its length or with its first character that is not in the
    alphabet, and never panics on text, not even where that character is not
    ASCII.  A generated pool displays as a text that parses to it. *)
Theorem entropy_pool_texts {SC : SliceChoose} {SL : SliceChooseLaws} (s : bytes) (rng : Rng) (Htext : is_utf8 s = true) :
  match entropy_pool_from_str s with
  | Ok pool => length s = 64%nat /\ (forall b, b ∈ s -> b ∈ ALPHABET) /\
      entropy_pool_display (E:=InvalidAccountEntropyPool) pool = Ok s
  | Err (WrongLength n) => n = length s /\ n <> 64%nat
  | Err (InvalidCharacter c) => length s = 64%nat /\ exists i b, s !! i = Some b /\ b ∉ ALPHABET /\
      (forall j b', (j < i)%nat -> s !! j = Some b' -> b' ∈ ALPHABET) /\ first_char (drop i s) = Some c
  | Panic => False
  end /\
  (length s = 64%nat -> (forall b, b ∈ s -> b ∈ ALPHABET) -> exists pool, entropy_pool_from_str s = Ok pool) /\
  (entropy_pool_display (entropy_pool_generate rng).1 ≫= entropy_pool_from_str) = Ok (entropy_pool_generate rng).1.
Proof.
  split; [|split].
  - unfold entropy_pool_from_str. destruct (try_array 64 s) as [pool|] eqn:Hs; [|by apply try_array_None in Hs].
    apply try_array_Some in Hs. pose proof (array_length pool) as Hlen. rewrite Hs in *.
    destruct (position _ s) as [i|] eqn:Hi.
    + apply position_Some in Hi as (b & Hb & Hn & Hlt). rewrite in_alphabet_spec in Hn.
      assert (forall j c, s !! j = Some c -> (j < i)%nat -> in_alphabet c = true) as Hpre.
      { intros j c Hj Hji. specialize (Hlt j c Hj Hji). rewrite in_alphabet_spec in Hlt. by apply negb_false_iff in Hlt. }
      pose proof (utf8_drop i s Htext Hpre) as Hu. pose proof (drop_S s b i Hb) as Hd. rewrite Hd in Hu |- *.
      destruct (utf8_first _ _ Hu) as [-> [c Hc]]. rewrite Hc. cbn [expect mbind outcome_bind]. split; [done|].
      exists i, b. split; [done|]. split; [|split; [|by rewrite Hd]].
      * rewrite <- in_alphabet_ALPHABET. by apply negb_true_iff in Hn as ->.
      * intros j c' Hj Hl. apply in_alphabet_ALPHABET. by apply (Hpre j).
    + pose proof (proj1 (position_None _ _) Hi) as Hall.
      assert (forall b, b ∈ s -> in_alphabet b = true) as Ha.
      { intros b Hb. specialize (Hall b Hb). cbn beta in Hall. rewrite in_alphabet_spec in Hall. by apply negb_false_iff in Hall. }
      split; [done|]. split; [intros b Hb; by apply in_alphabet_ALPHABET, Ha|].
      unfold entropy_pool_display. cbn [entropy_pool]. by rewrite Hs, Htext.
  - intros Hl Ha. destruct (try_array_length 64 s Hl) as (pool & _ & Hp). exists (mkEntropyPool pool).
    rewrite <- Hp. apply from_str_accepts. rewrite Hp. apply Forall_forall. intros b Hb. by apply in_alphabet_ALPHABET, Ha.
  - unfold entropy_pool_generate. destruct (sample_many_in 64 rng) as [Hl Ha].
    change POOL_LENGTH with 64%nat. destruct (sample_many 64 rng) as [l rng'] eqn:Hs. cbn [fst] in *.
    unfold entropy_pool_display. cbn [entropy_pool]. rewrite to_array_arr by done. rewrite utf8_alphabet by done.
    cbn [mbind outcome_bind]. pose proof (from_str_accepts (to_array 64 l)) as Hf. rewrite to_array_arr in Hf by done. exact (Hf Ha).
Qed.
End theorems.
