(* ===== verification/AsyncIo.v ===== *)
(** * AsyncIo: polling readers and streams

    The traits [AsyncRead] and [Stream] of the futures crate, as classes: a poll
    is pending or ready, and changes the state of what is polled.  The law classes
    say what a well-behaved reader or stream is by what it still has to give: its
    [content], how it ends, and a bound on the polls that make progress.  The
    adaptors of the message backup each promise this of themselves provided that
    what they wrap does. *)

From S2P Require Import Prelude.
Open Scope string_scope.
Open Scope list_scope.
Open Scope Z_scope.

Inductive Poll (A : Type) := Pending | Ready (a : A).
Arguments Pending {A}.
Arguments Ready {A} a.

(** The kinds of [io::Error] that the code distinguishes. *)
Inductive IoError := UnexpectedEof | InvalidData | OtherIo.
#[export] Instance IoError_eq_dec : EqDecision IoError.
Proof. solve_decision. Defined.

(** ** Readers *)

(** [AsyncRead]: the argument is the length of the buffer; the bytes that are
    returned are the ones written to its front. *)
Class AsyncRead (R : Type) := { poll_read : nat -> R -> Poll (outcome IoError bytes) * R }.

#[export] Hint Mode AsyncRead ! : typeclass_instances.

(** A bound on the polls after which a reader has come to its end. *)
Class Progress (R : Type) := { polls_left : R -> nat }.

Class ReaderLaws (R : Type) `{AsyncRead R, Progress R} := {
  rd_wf : R -> Prop;
  content : R -> bytes;
  (** [None]: the end of the file. *)
  ending : R -> option IoError;
  poll_read_law : forall n r, (0 < n)%nat -> rd_wf r ->
    match poll_read n r with
    | (Pending, r') => rd_wf r' /\ content r' = content r /\ ending r' = ending r /\ (polls_left r' < polls_left r)%nat
    | (Ready (Ok []), r') => content r = [] /\ ending r = None /\ rd_wf r' /\ content r' = [] /\ ending r' = None
    | (Ready (Ok l), r') => (length l <= n)%nat /\ rd_wf r' /\ content r = l ++ content r' /\ ending r' = ending r /\
        (polls_left r' < polls_left r)%nat
    | (Ready (Err e), _) => content r = [] /\ ending r = Some e
    | (Ready Panic, _) => False
    end
}.

#[export] Hint Mode ReaderLaws ! - - : typeclass_instances.

(** Some polls, pending or successful, and the bytes they gave. *)
Inductive polls {R} `{AsyncRead R} : R -> bytes -> R -> Prop :=
| polls_refl r : polls r [] r
| polls_pending n r r1 l r2 : (0 < n)%nat -> poll_read n r = (Pending, r1) -> polls r1 l r2 -> polls r l r2
| polls_ready n r a r1 l r2 : (0 < n)%nat -> poll_read n r = (Ready (Ok a), r1) -> polls r1 l r2 -> polls r (a ++ l) r2.

(** [reader.read(&mut buf).await] for a buffer of length [n]. *)
Fixpoint read_within {R} `{AsyncRead R} (fuel n : nat) (r : R) : outcome IoError bytes * R :=
  match poll_read n r with
  | (Ready o, r') => (o, r')
  | (Pending, r') => match fuel with S fuel => read_within fuel n r' | O => (Panic, r') end
  end.
Definition read {R} `{AsyncRead R, Progress R} (n : nat) : M R IoError bytes := fun r => read_within (polls_left r) n r.

(** Poll until the end, with buffers of the given sizes: the bytes that came, and
    how it ended, [None] when the sizes ran out. *)
Fixpoint drive {R} `{AsyncRead R} (sizes : list nat) (r : R) : bytes * option (outcome IoError ()) * R :=
  match sizes with
  | [] => ([], None, r)
  | n :: sizes =>
      match poll_read n r with
      | (Pending, r') => drive sizes r'
      | (Ready (Ok []), r') => ([], Some (Ok ()), r')
      | (Ready (Ok l), r') => let '(l', o, r'') := drive sizes r' in (l ++ l', o, r'')
      | (Ready (Err e), r') => ([], Some (Err e), r')
      | (Ready Panic, r') => ([], Some Panic, r')
      end
  end.

Definition outcome_of_ending (e : option IoError) : outcome IoError () :=
  match e with None => Ok () | Some e => Err e end.

Section reader_lemmas.
Context {R : Type} {AR : AsyncRead R} {PR : Progress R} {RL : ReaderLaws R}.

Lemma polls_trans (r1 r2 r3 : R) l1 l2 : polls r1 l1 r2 -> polls r2 l2 r3 -> polls r1 (l1 ++ l2) r3.
Proof.
  induction 1 as [r|n r r1 l r2 Hn Hp _ IH|n r a r1 l r2 Hn Hp _ IH]; intros H; [done|..].
  - eapply polls_pending; eauto.
  - rewrite <- app_assoc. eapply polls_ready; eauto.
Qed.

Lemma polls_last n (r r' : R) a : (0 < n)%nat -> poll_read n r = (Ready (Ok a), r') -> polls r a r'.
Proof. intros Hn Hp. rewrite <- (app_nil_r a). eapply polls_ready; [exact Hn|exact Hp|constructor]. Qed.

(** Polls take bytes from the front of the content. *)
Lemma polls_content (r r' : R) l :
  polls r l r' -> rd_wf r -> rd_wf r' /\ content r = l ++ content r' /\ ending r' = ending r.
Proof.
  induction 1 as [r|n r r1 l r2 Hn Hp _ IH|n r a r1 l r2 Hn Hp _ IH]; intros Hwf; [done|..].
  - pose proof (poll_read_law n r Hn Hwf) as Hl. rewrite Hp in Hl. destruct Hl as (Hwf1 & Hc & He & _).
    destruct (IH Hwf1) as (? & ? & ?). split_and!; congruence.
  - pose proof (poll_read_law n r Hn Hwf) as Hl. rewrite Hp in Hl. destruct a as [|b a].
    + destruct Hl as (Hc & He & Hwf1 & Hc1 & He1). destruct (IH Hwf1) as (? & ? & ?). split_and!; cbn; congruence.
    + destruct Hl as (_ & Hwf1 & Hc & He & _). destruct (IH Hwf1) as (? & Hc1 & ?).
      split_and!; [done| |congruence]. rewrite Hc, Hc1. by rewrite app_assoc.
Qed.

(** What awaiting a read of a reader gives. *)
Definition read_result (n : nat) (r : R) (res : outcome IoError bytes * R) : Prop :=
  match res with
  | (Ok [], r') => content r = [] /\ ending r = None /\ rd_wf r' /\ content r' = [] /\ ending r' = None /\ polls r [] r'
  | (Ok l, r') => (length l <= n)%nat /\ content r = l ++ content r' /\ rd_wf r' /\ ending r' = ending r /\
      (polls_left r' < polls_left r)%nat /\ polls r l r'
  | (Err e, _) => content r = [] /\ ending r = Some e
  | (Panic, _) => False
  end.

Lemma read_ready n (r r' : R) o :
  (0 < n)%nat -> rd_wf r -> poll_read n r = (Ready o, r') -> read_result n r (o, r').
Proof.
  intros Hn Hwf Hp. pose proof (poll_read_law n r Hn Hwf) as Hl. rewrite Hp in Hl. unfold read_result.
  destruct o as [[|b l]|e|]; [|destruct Hl as (? & ? & ? & ? & ?)|done|done]; [naive_solver eauto using polls_last|].
  split_and!; try done. by eapply polls_last.
Qed.

Lemma read_spec n (r : R) : (0 < n)%nat -> rd_wf r -> read_result n r (read n r).
Proof.
  intros Hn. unfold read. generalize (Nat.le_refl (polls_left r)). generalize (polls_left r) at 2 3 as fuel.
  intros fuel. revert r. induction fuel as [|fuel IH]; intros r Hf Hwf; cbn [read_within];
    destruct (poll_read n r) as [[|o] r1] eqn:Hp; try by apply read_ready.
  - pose proof (poll_read_law n r Hn Hwf) as Hl. rewrite Hp in Hl. lia.
  - pose proof (poll_read_law n r Hn Hwf) as Hl. rewrite Hp in Hl. destruct Hl as (Hwf1 & Hc & He & Hlt).
    specialize (IH r1 ltac:(lia) Hwf1). unfold read_result in *.
    destruct (read_within fuel n r1) as [[[|b l]|e|] r2]; [| | |done]; rewrite <- Hc, <- He; [| |done].
    + destruct IH as (?&?&?&?&?&?). split_and!; try done. by eapply polls_pending.
    + destruct IH as (?&?&?&?&?&?). split_and!; try done; [lia|]. by eapply polls_pending.
Qed.

(** Enough polls reach the end and give the content, whatever the buffers. *)
Lemma drive_content (sizes : list nat) (r : R) :
  Forall (fun n => 0 < n)%nat sizes -> rd_wf r -> (polls_left r < length sizes)%nat ->
  (drive sizes r).1 = (content r, Some (outcome_of_ending (ending r))).
Proof.
  intros Hs. revert r. induction Hs as [|n sizes Hn _ IH]; intros r Hwf Hf; [cbn in Hf; lia|].
  cbn [length drive] in *. pose proof (poll_read_law n r Hn Hwf) as Hl.
  destruct (poll_read n r) as [[|[l|e|]] r1] eqn:Hp; try done.
  - destruct Hl as (Hwf1 & <- & <- & Hlt). apply IH; [done|lia].
  - destruct l as [|b l].
    + destruct Hl as (-> & -> & _). done.
    + destruct Hl as (_ & Hwf1 & -> & <- & Hlt). specialize (IH r1 Hwf1 ltac:(lia)).
      destruct (drive sizes r1) as [[l' o] r2]. cbn [fst] in *. by injection IH as -> ->.
  - destruct Hl as [-> ->]. done.
Qed.
End reader_lemmas.

(** ** Streams *)

(** [Stream<Item = io::Result<I>>].  [W] is what the stream shares with others: the
    inside of an [Rc]. *)
Class Stream (W S I : Type) := { poll_next : S -> W -> Poll (option (outcome IoError I)) * (S * W) }.

#[export] Hint Mode Stream ! ! - : typeclass_instances.

Class StreamLaws (W S I : Type) `{Stream W S I} := {
  st_wf : S -> W -> Prop;
  items : S -> W -> list I;
  st_ending : S -> W -> option IoError;
  st_left : S -> W -> nat;
  poll_next_law : forall s w, st_wf s w ->
    let '(p, (s', w')) := poll_next s w in
    match p with
    | Pending => st_wf s' w' /\ items s' w' = items s w /\ st_ending s' w' = st_ending s w /\ (st_left s' w' < st_left s w)%nat
    | Ready None => items s w = [] /\ st_ending s w = None /\ st_wf s' w' /\ items s' w' = [] /\ st_ending s' w' = None
    | Ready (Some (Ok x)) => st_wf s' w' /\ items s w = x :: items s' w' /\ st_ending s' w' = st_ending s w /\
        (st_left s' w' < st_left s w)%nat
    | Ready (Some (Err e)) => items s w = [] /\ st_ending s w = Some e
    | Ready (Some Panic) => False
    end
}.

#[export] Hint Mode StreamLaws ! ! - - : typeclass_instances.

(** ** Handles *)

(** A reader behind a shared reference: the handle and the shared state. *)
Class AsyncReadIn (W H : Type) := { poll_read_in : nat -> H -> W -> Poll (outcome IoError bytes) * (H * W) }.
