(* ===== verification/BackupCipher.v ===== *)
(** * BackupCipher: decrypting a backup file as it is read
    (rust/message-backup/src/frame/{block_stream,cbc,unpad,aes_read,mac_read}.rs)

    A tower of adaptors: bytes are collected into blocks, the blocks are decrypted,
    the last one is unpadded, and the stream of blocks is read as bytes again.  The
    definitions come first.  Then each adaptor is shown to keep the promise of its
    class, and, together, reading through the tower, with any buffers and however
    the bytes arrive, to give what decrypting everything at once gives. *)

From S2P Require Import Prelude Types Primitives IncrementalMac AsyncIo.

Open Scope string_scope.
Open Scope list_scope.
Open Scope Z_scope.

(** ** Parameters *)

(** [cbc::Decryptor<Aes256>], one block at a time, and the unpadding of PKCS#7. *)
Class CbcDecryptor := {
  Decryptor : Type;
  decryptor_new : array 32 -> array 16 -> Decryptor;
  decrypt_block_mut : array 16 -> Decryptor -> array 16 * Decryptor;
  pkcs7_unpad : array 16 -> option bytes
}.

Fixpoint decrypt_blocks `{CbcDecryptor} (bs : list (array 16)) (d : Decryptor) : list (array 16) :=
  match bs with
  | [] => []
  | b :: bs => let '(b, d) := decrypt_block_mut b d in b :: decrypt_blocks bs d
  end.

(** Decrypting at once is decrypting block by block and unpadding the last. *)
Class CbcDecryptorLaws {P : Primitives} `{CbcDecryptor} := {
  cbc_one_shot : forall k iv bs b,
    match decrypt_blocks (bs ++ [b]) (decryptor_new k iv) with
    | [] => False
    | d :: ds => aes256_cbc_pkcs7_decrypt k iv (concat (arr <$> bs ++ [b])) =
        (tail ← pkcs7_unpad (List.last ds d); Some (concat (arr <$> removelast (d :: ds)) ++ tail))
    end;
  (** Not a positive number of blocks. *)
  cbc_ragged : forall k iv c, (c = [] \/ (length c mod 16 <> 0)%nat) -> aes256_cbc_pkcs7_decrypt k iv c = None
}.

(** futures' [IntoAsyncRead], which reads a stream of byte blocks. *)
Class IntoAsyncReads := {
  IntoAsyncRead : Type -> Type;
  into_async_read : forall {S}, S -> IntoAsyncRead S;
  poll_read_stream : forall {W S} `{Stream W S bytes}, nat -> IntoAsyncRead S -> W ->
    Poll (outcome IoError bytes) * (IntoAsyncRead S * W)
}.
(** What is left to read is the rest of a block and the items of the stream. *)
Class IntoAsyncReadLaws `{IntoAsyncReads} := {
  iar_wf : forall {W S} `{StreamLaws W S bytes}, IntoAsyncRead S -> W -> Prop;
  iar_content : forall {W S} `{StreamLaws W S bytes}, IntoAsyncRead S -> W -> bytes;
  iar_ending : forall {W S} `{StreamLaws W S bytes}, IntoAsyncRead S -> W -> option IoError;
  iar_left : forall {W S} `{StreamLaws W S bytes}, IntoAsyncRead S -> W -> nat;
  into_async_read_law : forall {W S} `{StreamLaws W S bytes} (s : S) (w : W), st_wf s w ->
    iar_wf (into_async_read s) w /\ iar_content (into_async_read s) w = concat (items s w) /\
    iar_ending (into_async_read s) w = st_ending s w;
  iar_poll_law : forall {W S} `{StreamLaws W S bytes} n (r : IntoAsyncRead S) (w : W), (0 < n)%nat -> iar_wf r w ->
    match poll_read_stream n r w with
    | (Pending, (r', w')) => iar_wf r' w' /\ iar_content r' w' = iar_content r w /\ iar_ending r' w' = iar_ending r w /\
        (iar_left r' w' < iar_left r w)%nat
    | (Ready (Ok []), (r', w')) => iar_content r w = [] /\ iar_ending r w = None /\ iar_wf r' w' /\
        iar_content r' w' = [] /\ iar_ending r' w' = None
    | (Ready (Ok l), (r', w')) => (length l <= n)%nat /\ iar_wf r' w' /\ iar_content r w = l ++ iar_content r' w' /\
        iar_ending r' w' = iar_ending r w /\ (iar_left r' w' < iar_left r w)%nat
    | (Ready (Err e), _) => iar_content r w = [] /\ iar_ending r w = Some e
    | (Ready Panic, _) => False
    end;
  (** It reaches what the stream shares only by polling the stream. *)
  iar_world : forall {W S} `{Stream W S bytes} (Q : W -> Prop),
    (forall (s : S) w, Q w -> Q (poll_next s w).2.2) ->
    forall n (r : IntoAsyncRead S) w, Q w -> Q (poll_read_stream n r w).2.2
}.

(** ** Blocks (block_stream.rs) *)

Record BlockStream (N : nat) (R : Type) := mkBlockStream { next_bytes : bytes; next_read : nat; reader : option R }.
Arguments mkBlockStream {N R} _ _ _.
Arguments next_bytes {N R} _.
Arguments next_read {N R} _.
Arguments reader {N R} _.

Definition BlockStream_new {N R} (r : R) : BlockStream N R := mkBlockStream (arr (zeros N)) 0 (Some r).

(** [buf[at..][..l.len()].copy_from_slice(l)]. *)
Definition write_at (i : nat) (l buf : bytes) : bytes := take i buf ++ l ++ drop (i + length l) buf.

Section block_stream.
Context {W H : Type} `{AsyncReadIn W H} {N : nat}.

(** The loop of [poll_next]; every round that goes on has read a byte, so that [N]
    rounds and the last are enough. *)
Fixpoint fill_block (fuel : nat) (buf : bytes) (at_ : nat) (h : H) (w : W)
  : Poll (outcome IoError ()) * (bytes * nat * H * W) :=
  if (at_ =? N)%nat then (Ready (Ok tt), (buf, at_, h, w))
  else if (N <? at_)%nat then (Ready Panic, (buf, at_, h, w)) (* the slice *)
  else match fuel with
  | O => (Ready Panic, (buf, at_, h, w))
  | S fuel =>
      match poll_read_in (N - at_) h w with
      | (Pending, (h, w)) => (Pending, (buf, at_, h, w))
      | (Ready (Err e), (h, w)) => (Ready (Err e), (buf, at_, h, w))
      | (Ready Panic, (h, w)) => (Ready Panic, (buf, at_, h, w))
      | (Ready (Ok l), (h, w)) =>
          if (length l =? 0)%nat then (Ready (Ok tt), (buf, at_, h, w))
          else fill_block fuel (write_at at_ l buf) (at_ + length l) h w
      end
  end.

Definition BlockStream_poll_next (s : BlockStream N H) (w : W)
  : Poll (option (outcome IoError bytes)) * (BlockStream N H * W) :=
  match reader s with
  | None => (Ready None, (s, w))
  | Some h =>
      if (next_read s =? N)%nat then (Ready (Some Panic), (s, w))
      else
      match fill_block (S N) (next_bytes s) (next_read s) h w with
      | (Pending, (buf, at_, h, w)) => (Pending, (mkBlockStream buf at_ (Some h), w))
      | (Ready (Err e), (buf, at_, h, w)) => (Ready (Some (Err e)), (mkBlockStream buf at_ (Some h), w))
      | (Ready Panic, (buf, at_, h, w)) => (Ready (Some Panic), (mkBlockStream buf at_ (Some h), w))
      | (Ready (Ok _), (block, at_, h, w)) =>
          if (at_ =? N)%nat
          then (Ready (Some (Ok block)), (mkBlockStream (arr (zeros N)) 0 (Some h), w))
          else (Ready (if (at_ =? 0)%nat then None else Some (Ok (take at_ block))),
                (mkBlockStream (arr (zeros N)) at_ None, w))
      end
  end.
#[export] Instance BlockStream_stream : Stream W (BlockStream N H) bytes := { poll_next := BlockStream_poll_next }.
End block_stream.

(** Blocks of exactly [N] bytes. *)
Record ExactBlockStream (N : nat) (S : Type) := mkExact { exact_inner : S }.
Arguments mkExact {N S} _.
Arguments exact_inner {N S} _.

Section exact.
Context {W S : Type} `{Stream W S bytes} {N : nat}.
Definition ExactBlockStream_poll_next (s : ExactBlockStream N S) (w : W)
  : Poll (option (outcome IoError (array N))) * (ExactBlockStream N S * W) :=
  let '(p, (s, w)) := poll_next (exact_inner s) w in
  (match p with
   | Pending => Pending
   | Ready None => Ready None
   | Ready (Some (Err e)) => Ready (Some (Err e))
   | Ready (Some Panic) => Ready (Some Panic)
   | Ready (Some (Ok block)) => Ready (Some (ok_or UnexpectedEof (try_array N block)))
   end, (mkExact s, w)).
#[export] Instance ExactBlockStream_stream : Stream W (ExactBlockStream N S) (array N) :=
  { poll_next := ExactBlockStream_poll_next }.
End exact.
Definition from_reader {N H} (r : H) : ExactBlockStream N (BlockStream N H) := mkExact (BlockStream_new r).

(** ** Decryption (cbc.rs) *)

Record CbcStreamDecryptor `{CbcDecryptor} (S : Type) := mkCbc { decryptor : Decryptor; source : S }.
Arguments mkCbc {_ S} _ _.
Arguments decryptor {_ S} _.
Arguments source {_ S} _.

Section cbc.
Context `{CbcDecryptor} {W S : Type} `{Stream W S (array 16)}.
Definition CbcStreamDecryptor_poll_next (s : CbcStreamDecryptor S) (w : W)
  : Poll (option (outcome IoError (array 16))) * (CbcStreamDecryptor S * W) :=
  let '(p, (src, w)) := poll_next (source s) w in
  match p with
  | Ready (Some (Ok block)) =>
      let '(block, d) := decrypt_block_mut block (decryptor s) in (Ready (Some (Ok block)), (mkCbc d src, w))
  | p => (p, (mkCbc (decryptor s) src, w))
  end.
#[export] Instance CbcStreamDecryptor_stream : Stream W (CbcStreamDecryptor S) (array 16) :=
  { poll_next := CbcStreamDecryptor_poll_next }.
End cbc.

(** ** Unpadding (unpad.rs) *)

Record UnpadLast (S : Type) := mkUnpad { maybe_stream : option S; maybe_buffer : option (array 16) }.
Arguments mkUnpad {S} _ _.
Arguments maybe_stream {S} _.
Arguments maybe_buffer {S} _.
Definition UnpadLast_new {S} (s : S) : UnpadLast S := mkUnpad (Some s) None.

Section unpad.
Context `{CbcDecryptor} {W S : Type} `{Stream W S (array 16)}.

(** The second half of [poll_next], with a block in the buffer. *)
Definition unpad_next (stream : S) (buffer : array 16) (w : W)
  : Poll (option (outcome IoError bytes)) * (UnpadLast S * W) :=
  let '(p, (stream, w)) := poll_next stream w in
  match p with
  | Pending => (Pending, (mkUnpad (Some stream) (Some buffer), w))
  | Ready (Some (Err e)) => (Ready (Some (Err e)), (mkUnpad (Some stream) (Some buffer), w))
  | Ready (Some Panic) => (Ready (Some Panic), (mkUnpad (Some stream) (Some buffer), w))
  | Ready (Some (Ok block)) => (Ready (Some (Ok (arr buffer))), (mkUnpad (Some stream) (Some block), w))
  | Ready None =>
      let s := mkUnpad None (Some buffer) in
      match pkcs7_unpad buffer with
      | None => (Ready (Some (Err InvalidData)), (s, w))
      | Some [] => (Ready None, (s, w))
      | Some tail => (Ready (Some (Ok tail)), (s, w))
      end
  end.

Definition UnpadLast_poll_next (s : UnpadLast S) (w : W)
  : Poll (option (outcome IoError bytes)) * (UnpadLast S * W) :=
  match maybe_stream s with
  | None => (Ready None, (s, w))
  | Some stream =>
      match maybe_buffer s with
      | Some buffer => unpad_next stream buffer w
      | None =>
          let '(p, (stream, w)) := poll_next stream w in
          let s := mkUnpad (Some stream) None in
          match p with
          | Pending => (Pending, (s, w))
          | Ready (Some (Err e)) => (Ready (Some (Err e)), (s, w))
          | Ready (Some Panic) => (Ready (Some Panic), (s, w))
          | Ready None => (Ready None, (s, w))
          | Ready (Some (Ok first_block)) => unpad_next stream first_block w
          end
      end
  end.
#[export] Instance UnpadLast_stream : Stream W (UnpadLast S) bytes := { poll_next := UnpadLast_poll_next }.
End unpad.

(** ** The reader (aes_read.rs) *)

(** [Rc<RefCell<R>>]: the handle that the tower holds.  Nobody else borrows while it
    polls. *)
Inductive RcReader := mkRcReader.
#[export] Instance RcReader_read {R} `{AsyncRead R} : AsyncReadIn R RcReader :=
  { poll_read_in n h r := let '(p, r) := poll_read n r in (p, (h, r)) }.

Section aes_read.
Context `{CbcDecryptor} `{IntoAsyncReads} {R : Type} `{AsyncRead R}.

Abbreviation BlockStreamOf := (ExactBlockStream 16 (BlockStream 16 RcReader)).
Definition Aes256CbcStream : Type := UnpadLast (CbcStreamDecryptor BlockStreamOf).

Record Aes256CbcReader := mkAesReader { aes_reader : IntoAsyncRead Aes256CbcStream; aes_inner : R }.

Definition aes_stream (key : array 32) (iv : array 16) : Aes256CbcStream :=
  UnpadLast_new (mkCbc (decryptor_new key iv) (from_reader mkRcReader)).
Definition Aes256CbcReader_new (key : array 32) (iv : array 16) (r : R) : Aes256CbcReader :=
  mkAesReader (into_async_read (aes_stream key iv)) r.
Definition Aes256CbcReader_into_inner (a : Aes256CbcReader) : R := aes_inner a.
#[export] Instance Aes256CbcStream_stream : Stream R Aes256CbcStream bytes := UnpadLast_stream.
#[export] Instance Aes256CbcReader_read : AsyncRead Aes256CbcReader := {
  poll_read n a := let '(p, (r, w)) := poll_read_stream n (aes_reader a) (aes_inner a) in (p, mkAesReader r w)
}.
End aes_read.
Arguments Aes256CbcReader {_ _} R.

(** ** MACs (mac_read.rs) *)

Record MacReader `{MacOps} (R : Type) := mkMacReader { mac_inner : R; mac_state : MacState }.
Arguments mkMacReader {_ R} _ _.
Arguments mac_inner {_ R} _.
Arguments mac_state {_ R} _.

Section mac_read.
Context `{MacOps} {R : Type} `{AsyncRead R}.
Definition MacReader_finalize (r : MacReader R) : bytes := mac_finalize (mac_state r).
#[export] Instance MacReader_read : AsyncRead (MacReader R) := {
  poll_read n r :=
    match poll_read n (mac_inner r) with
    | (Ready (Ok l), i) => (Ready (Ok l), mkMacReader i (mac_update (mac_state r) l))
    | (p, i) => (p, mkMacReader i (mac_state r))
    end
}.
#[export] Instance MacReader_progress `{Progress R} : Progress (MacReader R) := { polls_left r := polls_left (mac_inner r) }.
End mac_read.

Open Scope string_scope.
Open Scope list_scope.
Open Scope Z_scope.

(** ** Lists of blocks *)

Lemma chunks_nil {A} n : chunks n (@nil A) = [].
Proof. done. Qed.

Lemma chunks_cons {A} n (x l : list A) : (0 < n)%nat -> length x = n -> chunks n (x ++ l) = x :: chunks n l.
Proof.
  intros Hn Hx. unfold chunks. rewrite length_app.
  destruct x as [|a x]; [cbn in Hx; lia|]. cbn [length app Nat.add chunks_fuel].
  change (a :: x ++ l) with ((a :: x) ++ l). rewrite take_app_length', drop_app_length' by done. f_equal.
  enough (forall f (l : list A), (length l <= f)%nat -> chunks_fuel f n l = chunks_fuel (length l) n l) as He by (apply He; lia).
  clear l. induction f as [f IH] using lt_wf_ind. intros [|b l] Hf; [by destruct f|].
  destruct f as [|f]; [cbn in Hf; lia|]. cbn [length chunks_fuel]. f_equal. cbn [length] in Hf.
  assert (length (drop n (b :: l)) <= length l)%nat as Hd by (rewrite length_drop; cbn [length]; lia).
  rewrite (IH f) by lia. destruct (decide (length l = f)) as [->|]; [|rewrite (IH (length l)) by lia; done].
  by rewrite (IH f) by lia.
Qed.

Lemma chunks_short {A} n (l : list A) : l <> [] -> (length l <= n)%nat -> chunks n l = [l].
Proof.
  intros Hl Hn. destruct l as [|a l]; [done|]. unfold chunks. cbn [length chunks_fuel].
  rewrite take_ge, drop_ge by done. by destruct (length l).
Qed.

(** The blocks of full size. *)
Definition full_blocks (N : nat) (l : list bytes) : list bytes := filter (fun b => length b = N) l.

Lemma full_blocks_short N (b : bytes) : length b <> N -> full_blocks N [b] = [].
Proof. intros Hb. unfold full_blocks. by rewrite filter_cons_False. Qed.

Lemma write_at_take i l buf : (i <= length buf)%nat -> take (i + length l) (write_at i l buf) = take i buf ++ l.
Proof.
  intros Hi. unfold write_at. rewrite app_assoc. apply take_app_length'. rewrite length_app, length_take. lia.
Qed.
Lemma write_at_length i l buf : (i + length l <= length buf)%nat -> length (write_at i l buf) = length buf.
Proof. intros Hi. unfold write_at. rewrite !length_app, length_take, length_drop. lia. Qed.

(** ** Blocks *)

Section block_stream.
Context {R : Type} `{RL : ReaderLaws R} {N : nat} (N_pos : (0 < N)%nat).

Definition buffered (s : BlockStream N RcReader) (w : R) : bytes := take (next_read s) (next_bytes s) ++ content w.
Definition bs_wf (s : BlockStream N RcReader) (w : R) : Prop :=
  match reader s with
  | None => True
  | Some _ => length (next_bytes s) = N /\ (next_read s < N)%nat /\ rd_wf w
  end.
Definition bs_items (s : BlockStream N RcReader) (w : R) : list bytes :=
  match reader s with
  | None => []
  | Some _ =>
      match ending w with
      | None => chunks N (buffered s w)
      | Some _ => full_blocks N (chunks N (buffered s w))
      end
  end.
Definition bs_ending (s : BlockStream N RcReader) (w : R) : option IoError :=
  match reader s with None => None | Some _ => ending w end.
Definition bs_left (s : BlockStream N RcReader) (w : R) : nat :=
  match reader s with None => 0 | Some _ => S (polls_left w) end.

(** What the loop leaves. *)
Definition filled (buf : bytes) (at_ : nat) (w : R) (buf' : bytes) (at' : nat) (w' : R) : Prop :=
  length buf' = N /\ (at_ <= at' <= N)%nat /\ rd_wf w' /\ ending w' = ending w /\
  take at_ buf ++ content w = take at' buf' ++ content w' /\
  (at' = N -> polls_left w' <= polls_left w /\ (at_ < N -> polls_left w' < polls_left w))%nat.

Lemma filled_step buf at_ (w w1 w' : R) l buf' at' :
  length buf = N -> l <> [] -> (at_ + length l <= N)%nat -> content w = l ++ content w1 -> ending w1 = ending w ->
  (polls_left w1 < polls_left w)%nat ->
  filled (write_at at_ l buf) (at_ + length l) w1 buf' at' w' -> filled buf at_ w buf' at' w'.
Proof.
  intros Hb Hl Hle Hc He Hp (H1 & H2 & H3 & H4 & H5 & H6). unfold filled.
  rewrite write_at_take in H5 by lia. split_and!; try done; try lia; [congruence|].
  by rewrite <- H5, Hc, <- app_assoc.
Qed.

Lemma fill_block_spec fuel buf at_ h (w : R) :
  length buf = N -> (at_ <= N)%nat -> rd_wf w -> (N - at_ < fuel)%nat ->
  let '(p, (buf', at', h', w')) := fill_block (N:=N) fuel buf at_ h w in
  match p with
  | Ready (Err e) => ending w = Some e /\ (at_ + length (content w) < N)%nat
  | Ready Panic => False
  | Ready (Ok _) => filled buf at_ w buf' at' w' /\ (at' = N \/ content w' = [] /\ ending w' = None)
  | Pending => filled buf at_ w buf' at' w' /\ (at' < N)%nat /\ (polls_left w' < polls_left w)%nat
  end.
Proof.
  revert buf at_ h w. induction fuel as [|fuel IH]; intros buf at_ h w Hb Ha Hw Hf; [lia|]. cbn [fill_block].
  destruct (Nat.eqb_spec at_ N) as [->|Hne].
  { split; [|by left]. unfold filled. split_and!; try done; lia. }
  destruct (Nat.ltb_spec N at_) as [|_]; [lia|].
  cbn [poll_read_in RcReader_read]. pose proof (poll_read_law (N - at_) w ltac:(lia) Hw) as Hl.
  destruct (poll_read (N - at_) w) as [[|[l|e|]] w1]; [|destruct l as [|b l]| |done].
  - destruct Hl as (? & ? & ? & ?). unfold filled. split_and!; try done; try lia. by f_equal.
  - destruct Hl as (Hc & He & ? & ? & ?). cbn [length Nat.eqb].
    split; [|by right]. unfold filled. rewrite Hc. split_and!; try done; try lia; try congruence.
  - destruct Hl as (Hlen & Hw1 & Hc & He & Hp). cbn [Nat.eqb length].
    assert (at_ + length (b :: l) <= N)%nat as Hle by lia.
    specialize (IH (write_at at_ (b :: l) buf) (at_ + length (b :: l))%nat h w1).
    rewrite write_at_length in IH by lia. specialize (IH Hb Hle Hw1 ltac:(cbn [length]; lia)).
    change (S (length l)) with (length (b :: l)).
    destruct (fill_block fuel _ _ h w1) as [[|[|e|]] [[[buf' at'] h'] w']].
    + destruct IH as (Hfl & ? & ?). split_and!; [|done|lia]. by eapply (filled_step _ _ _ w1 _ (b :: l)).
    + destruct IH as (Hfl & Hor). split; [|done]. by eapply (filled_step _ _ _ w1 _ (b :: l)).
    + destruct IH as (He' & Hlt). split; [congruence|]. rewrite Hc, length_app. lia.
    + done.
  - destruct Hl as (-> & ->). split; [done|]. cbn. lia.
Qed.

#[export] Program Instance BlockStream_laws : StreamLaws R (BlockStream N RcReader) bytes := {
  st_wf := bs_wf; items := bs_items; st_ending := bs_ending; st_left := bs_left
}.
Next Obligation.
  intros [buf at_ [h|]] w Hwf; cbn [poll_next BlockStream_stream]; unfold BlockStream_poll_next; cbn [reader next_read next_bytes].
  2: { by repeat split. }
  destruct Hwf as (Hb & Ha & Hw). cbn [reader next_read next_bytes] in *.
  destruct (Nat.eqb_spec at_ N) as [|_]; [lia|].
  pose proof (fill_block_spec (S N) buf at_ h w Hb ltac:(lia) Hw ltac:(lia)) as Hfill.
  destruct (fill_block (S N) buf at_ h w) as [[|[[]|e|]] [[[buf' at'] h'] w']]; [| | |done].
  - destruct Hfill as ((Hb' & Ha' & Hw' & He & Hc & _) & Hlt & Hp).
    unfold bs_wf, bs_items, bs_ending, bs_left, buffered. cbn [reader next_read next_bytes]. rewrite He, Hc.
    split_and!; try done. lia.
  - destruct Hfill as ((Hb' & Ha' & Hw' & He & Hc & Hp) & Hor). destruct (Nat.eqb_spec at' N) as [->|Hne].
    + unfold bs_wf, bs_items, bs_ending, bs_left, buffered. cbn [reader next_read next_bytes take app].
      rewrite array_length, He, Hc, firstn_all2, chunks_cons by lia. unfold full_blocks. rewrite filter_cons_True by done.
      split_and!; try done; try lia. by destruct (ending w).
    + destruct Hor as [?|[Hc' He']]; [done|]. rewrite He' in He. rewrite Hc', app_nil_r in Hc.
      unfold bs_wf, bs_items, bs_ending, bs_left, buffered. cbn [reader next_read next_bytes]. rewrite <- He, Hc.
      destruct (Nat.eqb_spec at' 0) as [->|Hz]; [done|]. rewrite chunks_short; [by split_and!; try done; lia| |rewrite length_take; lia].
      intros Hn%(f_equal length). rewrite length_take in Hn. cbn in Hn. lia.
  - destruct Hfill as [He Hlt]. unfold bs_items, bs_ending, buffered. cbn [reader next_read next_bytes]. rewrite He. split; [|done].
    destruct (take at_ buf ++ content w) as [|b l] eqn:Hc; [done|].
    assert (length (b :: l) < N)%nat by (rewrite <- Hc, length_app, length_take; lia).
    rewrite chunks_short by (done || lia). apply full_blocks_short. lia.
Qed.
End block_stream.

Lemma chunks_ragged n k (l : bytes) :
  (0 < n)%nat -> (k < n)%nat -> k <> 0%nat -> forall m, length l = (m * n + k)%nat ->
  exists bs b, chunks n l = bs ++ [b] /\ Forall (fun b => length b = n) bs /\ length b = k.
Proof.
  intros Hn Hk Hz m. revert l. induction m as [|m IH]; intros l Hl.
  - exists [], l. split_and!; [|constructor|done]. apply chunks_short; [intros ->; cbn in Hl|]; lia.
  - destruct (IH (drop n l)) as (bs & b & Hb & Hf & Hbl); [rewrite length_drop; lia|].
    exists (take n l :: bs), b. split_and!; [|constructor; [rewrite length_take; lia|done]|done].
    rewrite <- (take_drop n l) at 1. rewrite chunks_cons by (try rewrite length_take; lia). by rewrite Hb.
Qed.

Lemma chunks_whole n (l : bytes) :
  (0 < n)%nat -> forall m, length l = (m * n)%nat -> Forall (fun b => length b = n) (chunks n l).
Proof.
  intros Hn m. revert l. induction m as [|m IH]; intros l Hl.
  - destruct l; [constructor|cbn in Hl; lia].
  - rewrite <- (take_drop n l), chunks_cons by (try rewrite length_take; lia).
    constructor; [rewrite length_take; lia|]. apply IH. rewrite length_drop. lia.
Qed.

Section exact.
Context {W S : Type} `{SL : StreamLaws W S bytes} {N : nat}.

(** The blocks up to the first of another length. *)
Fixpoint exact_blocks (l : list bytes) : list (array N) * bool :=
  match l with
  | [] => ([], true)
  | b :: l => match try_array N b with
              | Some a => let '(bs, o) := exact_blocks l in (a :: bs, o)
              | None => ([], false)
              end
  end.
Definition exact_ending (l : list bytes) (e : option IoError) : option IoError :=
  if (exact_blocks l).2 then e else Some UnexpectedEof.

Lemma exact_blocks_whole (l : list bytes) :
  Forall (fun b => length b = N) l -> (exact_blocks l).2 = true /\ arr <$> (exact_blocks l).1 = l.
Proof.
  induction 1 as [|b l Hb _ [IH1 IH2]]; [done|]. cbn [exact_blocks]. destruct (try_array_length N b Hb) as (a & -> & Ha).
  destruct (exact_blocks l) as [bs o]. cbn in *. split; [done|]. by f_equal.
Qed.
Lemma exact_blocks_ragged (l : list bytes) b :
  Forall (fun b => length b = N) l -> length b <> N -> (exact_blocks (l ++ [b])).2 = false.
Proof.
  intros Hl Hb. induction Hl as [|b' l Hb' _ IH]; cbn [exact_blocks app].
  - by apply try_array_None in Hb as ->.
  - destruct (try_array N b'); [|done]. by destruct (exact_blocks (l ++ [b])).
Qed.

#[export] Program Instance ExactBlockStream_laws : StreamLaws W (ExactBlockStream N S) (array N) := {
  st_wf s w := st_wf (exact_inner s) w;
  items s w := (exact_blocks (items (exact_inner s) w)).1;
  st_ending s w := exact_ending (items (exact_inner s) w) (st_ending (exact_inner s) w);
  st_left s w := st_left (exact_inner s) w
}.
Next Obligation.
  intros [s] w Hwf. cbn [poll_next ExactBlockStream_stream exact_inner] in *. unfold ExactBlockStream_poll_next. cbn [exact_inner].
  pose proof (poll_next_law s w Hwf) as Hl. destruct (poll_next s w) as [p [s' w']]. unfold exact_ending.
  destruct p as [|[[block|e|]|]]; cbn [exact_inner]; [| | |done|].
  - destruct Hl as (? & -> & -> & ?). done.
  - destruct Hl as (? & -> & -> & ?). cbn [exact_blocks]. destruct (try_array N block) as [a|]; cbn [ok_or]; [|done].
    by destruct (exact_blocks (items s' w')).
  - destruct Hl as (-> & ->). done.
  - destruct Hl as (-> & -> & ? & -> & ->). done.
Qed.
End exact.

Section cbc.
Context `{CbcDecryptor} {W S : Type} `{SL : StreamLaws W S (array 16)}.

#[export] Program Instance CbcStreamDecryptor_laws : StreamLaws W (CbcStreamDecryptor S) (array 16) := {
  st_wf s w := st_wf (source s) w;
  items s w := decrypt_blocks (items (source s) w) (decryptor s);
  st_ending s w := st_ending (source s) w;
  st_left s w := st_left (source s) w
}.
Next Obligation.
  intros [d s] w Hwf. cbn [poll_next CbcStreamDecryptor_stream source decryptor] in *. unfold CbcStreamDecryptor_poll_next.
  cbn [source decryptor]. pose proof (poll_next_law s w Hwf) as Hl. destruct (poll_next s w) as [p [s' w']].
  destruct p as [|[[block|e|]|]]; cbn [source decryptor]; [| | |done|].
  - destruct Hl as (? & -> & -> & ?). done.
  - destruct Hl as (? & Hi & <- & ?). rewrite Hi. cbn [decrypt_blocks].
    by destruct (decrypt_block_mut block d).
  - destruct Hl as (-> & ->). done.
  - destruct Hl as (-> & -> & ? & -> & ->). done.
Qed.
End cbc.

Section unpad.
Context `{CbcDecryptor} {W S : Type} `{SL : StreamLaws W S (array 16)}.

(** The padded blocks with the last one unpadded. *)
Definition unpadded (bs : list (array 16)) (e : option IoError) : list bytes :=
  (arr <$> removelast bs) ++
  match bs, e with
  | b :: bs, None => match pkcs7_unpad (List.last bs b) with None | Some [] => [] | Some tail => [tail] end
  | _, _ => []
  end.
Definition unpad_ending (bs : list (array 16)) (e : option IoError) : option IoError :=
  match bs, e with
  | b :: bs, None => match pkcs7_unpad (List.last bs b) with None => Some InvalidData | Some _ => None end
  | _, _ => e
  end.

Definition up_wf (s : UnpadLast S) (w : W) : Prop :=
  match maybe_stream s with None => True | Some stream => st_wf stream w end.
Definition up_blocks (s : UnpadLast S) (w : W) : list (array 16) :=
  match maybe_stream s with
  | None => []
  | Some stream => match maybe_buffer s with Some b => b :: items stream w | None => items stream w end
  end.
Definition up_end (s : UnpadLast S) (w : W) : option IoError :=
  match maybe_stream s with None => None | Some stream => st_ending stream w end.
Definition up_left (s : UnpadLast S) (w : W) : nat :=
  match maybe_stream s with None => 0 | Some stream => Datatypes.S (st_left stream w) end.

Lemma last_cons2 {A} (b' : A) bs b : List.last (b' :: bs) b = List.last bs b'.
Proof.
  revert b b'. induction bs as [|b'' bs IH]; intros b b'; [done|].
  transitivity (List.last (b'' :: bs) b); [done|]. by rewrite !IH.
Qed.
Lemma unpadded_cons2 b b' bs e : unpadded (b :: b' :: bs) e = arr b :: unpadded (b' :: bs) e.
Proof. unfold unpadded. by rewrite last_cons2. Qed.
Lemma unpad_ending_cons2 b b' bs e : unpad_ending (b :: b' :: bs) e = unpad_ending (b' :: bs) e.
Proof. unfold unpad_ending. by rewrite last_cons2. Qed.

Lemma unpad_next_law stream b w :
  st_wf stream w ->
  let '(p, (s', w')) := unpad_next stream b w in
  let s := mkUnpad (Some stream) (Some b) in
  let wf := up_wf s' w' in
  let its s w := unpadded (up_blocks s w) (up_end s w) in
  let ends s w := unpad_ending (up_blocks s w) (up_end s w) in
  match p with
  | Pending => wf /\ its s' w' = its s w /\ ends s' w' = ends s w /\ (up_left s' w' < up_left s w)%nat
  | Ready None => its s w = [] /\ ends s w = None /\ wf /\ its s' w' = [] /\ ends s' w' = None
  | Ready (Some (Ok x)) => wf /\ its s w = x :: its s' w' /\ ends s' w' = ends s w /\ (up_left s' w' < up_left s w)%nat
  | Ready (Some (Err e)) => its s w = [] /\ ends s w = Some e
  | Ready (Some Panic) => False
  end.
Proof.
  intros Hwf. unfold unpad_next, up_wf, up_blocks, up_end, up_left. cbn zeta. cbn [maybe_stream maybe_buffer].
  pose proof (poll_next_law stream w Hwf) as Hl. destruct (poll_next stream w) as [p [s' w']].
  destruct p as [|[[b'|e|]|]]; cbn [maybe_stream maybe_buffer].
  - destruct Hl as (? & -> & -> & ?). split_and!; try done. lia.
  - destruct Hl as (? & -> & -> & ?). rewrite unpadded_cons2, unpad_ending_cons2. split_and!; try done. lia.
  - destruct Hl as (-> & ->). done.
  - done.
  - destruct Hl as (-> & -> & ? & ? & ?). unfold unpadded, unpad_ending. cbn [List.last removelast fmap list_fmap app].
    destruct (pkcs7_unpad b) as [[|x tail]|]; cbn [maybe_stream]; try done.
    split_and!; try done. lia.
Qed.

#[export] Program Instance UnpadLast_laws : StreamLaws W (UnpadLast S) bytes := {
  st_wf := up_wf;
  items s w := unpadded (up_blocks s w) (up_end s w);
  st_ending s w := unpad_ending (up_blocks s w) (up_end s w);
  st_left := up_left
}.
Next Obligation.
  intros s w Hwf. cbn [poll_next UnpadLast_stream]. unfold UnpadLast_poll_next, up_wf in *.
  destruct s as [[stream|] buffer]; cbn [maybe_stream maybe_buffer] in *; [|done].
  destruct buffer as [b|]; [by apply unpad_next_law|].
  pose proof (poll_next_law stream w Hwf) as Hl. destruct (poll_next stream w) as [p [s' w']].
  unfold up_wf, up_blocks, up_end, up_left. destruct p as [|[[b|e|]|]]; cbn [maybe_stream maybe_buffer].
  - destruct Hl as (? & -> & -> & ?). split_and!; try done. lia.
  - destruct Hl as (Hwf' & -> & <- & Hlt). pose proof (unpad_next_law s' b w' Hwf') as Hn.
    destruct (unpad_next s' b w') as [[|[[x|e|]|]] [u' w'']]; try done; unfold up_wf, up_left, up_blocks, up_end in *; cbn [maybe_stream maybe_buffer] in *.
    + destruct Hn as (? & ? & ? & ?). split_and!; try done. lia.
    + destruct Hn as (? & ? & ? & ?). split_and!; try done. lia.
  - destruct Hl as (-> & ->). done.
  - done.
  - destruct Hl as (-> & -> & ? & -> & ->). done.
Qed.
End unpad.

(** ** What a stream does to what it shares *)

Definition kept {W} (Q : W -> Prop) (S : Type) {I} `{Stream W S I} : Prop := forall (s : S) w, Q w -> Q (poll_next s w).2.2.

Lemma BlockStream_kept {R} `{AsyncRead R} {N} (Q : R -> Prop) :
  (forall n r, (0 < n)%nat -> Q r -> Q (poll_read n r).2) -> kept Q (BlockStream N RcReader).
Proof.
  intros HQ [buf at_ [h|]] w Hw; cbn [poll_next BlockStream_stream]; unfold BlockStream_poll_next; cbn [reader next_read next_bytes]; [|done].
  destruct (at_ =? N)%nat; [done|].
  assert (forall fuel buf at_ h w, Q w -> Q (fill_block (N:=N) fuel buf at_ h w).2.2) as Hf.
  { clear -HQ. induction fuel as [|fuel IH]; intros buf at_ h w Hw; cbn [fill_block].
    { destruct (at_ =? N)%nat; [done|]. by destruct (N <? at_)%nat. }
    destruct (Nat.eqb_spec at_ N); [done|]. destruct (Nat.ltb_spec N at_); [done|].
    cbn [poll_read_in RcReader_read]. pose proof (HQ (N - at_)%nat w ltac:(lia) Hw) as Hw'.
    destruct (poll_read (N - at_) w) as [[|[l|e|]] w']; [done| |done..]. destruct (length l =? 0)%nat; [done|]. by apply IH. }
  specialize (Hf (S N) buf at_ h w Hw). destruct (fill_block (S N) buf at_ h w) as [[|[[]|e|]] [[[buf' at'] h'] w']]; try done.
  by destruct (at' =? N)%nat.
Qed.

Lemma ExactBlockStream_kept {W S} `{Stream W S bytes} {N} (Q : W -> Prop) : kept Q S -> kept Q (ExactBlockStream N S).
Proof.
  intros HQ [s] w Hw. cbn [poll_next ExactBlockStream_stream]. unfold ExactBlockStream_poll_next. cbn [exact_inner].
  specialize (HQ s w Hw). by destruct (poll_next s w) as [p [s' w']].
Qed.

Lemma CbcStreamDecryptor_kept `{CbcDecryptor} {W S} `{Stream W S (array 16)} (Q : W -> Prop) :
  kept Q S -> kept Q (CbcStreamDecryptor S).
Proof.
  intros HQ [d s] w Hw. cbn [poll_next CbcStreamDecryptor_stream]. unfold CbcStreamDecryptor_poll_next. cbn [source decryptor].
  specialize (HQ s w Hw). destruct (poll_next s w) as [[|[[b|e|]|]] [s' w']]; try done. by destruct (decrypt_block_mut b d).
Qed.

Lemma UnpadLast_kept `{CbcDecryptor} {W S} `{Stream W S (array 16)} (Q : W -> Prop) :
  kept Q S -> kept Q (UnpadLast S).
Proof.
  intros HQ. assert (forall (s : S) b w, Q w -> Q (unpad_next s b w).2.2) as Hn.
  { intros s b w Hw. unfold unpad_next. specialize (HQ s w Hw).
    destruct (poll_next s w) as [[|[[b'|e|]|]] [s' w']]; try done. by destruct (pkcs7_unpad b) as [[|]|]. }
  intros [[s|] b] w Hw; cbn [poll_next UnpadLast_stream]; unfold UnpadLast_poll_next; cbn [maybe_stream maybe_buffer]; [|done].
  destruct b as [b|]; [by apply Hn|]. specialize (HQ s w Hw).
  destruct (poll_next s w) as [[|[[b'|e|]|]] [s' w']]; try done. by apply Hn.
Qed.

(** ** MACs *)

Section mac_reader.
Context `{MacOps} {R : Type} `{RL : ReaderLaws R}.

#[export] Program Instance MacReader_laws : ReaderLaws (MacReader R) := {
  rd_wf r := rd_wf (mac_inner r);
  content r := content (mac_inner r);
  ending r := ending (mac_inner r)
}.
Next Obligation.
  intros n [r m] Hn Hwf. cbn [poll_read MacReader_read mac_inner mac_state polls_left MacReader_progress] in *.
  pose proof (poll_read_law n r Hn Hwf) as Hl. by destruct (poll_read n r) as [[|[[|b l]|e|]] r'].
Qed.

(** The MAC is of the bytes that were read. *)
Lemma MacReader_polls `{!MacLaws} (r r' : MacReader R) l :
  polls r l r' -> polls (mac_inner r) l (mac_inner r') /\ mac_state r' = mac_update (mac_state r) l.
Proof.
  induction 1 as [r|n [r m] r1 l r2 Hn Hp _ [IH1 IH2]|n [r m] a r1 l r2 Hn Hp _ [IH1 IH2]].
  - split; [constructor|by rewrite mac_update_nil].
  - cbn [poll_read MacReader_read mac_inner mac_state] in *. destruct (poll_read n r) as [[|[l'|e|]] i] eqn:Hi; try done.
    injection Hp as <-. split; [by eapply polls_pending|done].
  - cbn [poll_read MacReader_read mac_inner mac_state] in *. destruct (poll_read n r) as [[|[l'|e|]] i] eqn:Hi; try done.
    injection Hp as -> <-. cbn [mac_inner mac_state] in *. split; [by eapply polls_ready|]. by rewrite IH2, mac_update_app.
Qed.
End mac_reader.

(** ** The tower *)

Section aes_reader.
Context {P : Primitives} `{CL : !CbcDecryptorLaws (P:=P) (H:=CD)} `{IL : IntoAsyncReadLaws} {R : Type} `{RL : ReaderLaws R}.

Abbreviation Blocks := (ExactBlockStream 16 (BlockStream 16 RcReader)).
Lemma block_size_pos : (0 < 16)%nat.
Proof. lia. Qed.
#[export] Instance Blocks_laws : StreamLaws R Blocks (array 16) :=
  ExactBlockStream_laws (W := R) (S := BlockStream 16 RcReader) (SL := BlockStream_laws (R:=R) block_size_pos).
#[export] Instance Aes256CbcStream_laws : StreamLaws R (@Aes256CbcStream CD) bytes :=
  UnpadLast_laws (W := R) (S := CbcStreamDecryptor Blocks) (SL := CbcStreamDecryptor_laws (W := R) (S := Blocks)).

#[export] Instance Aes256CbcReader_progress : Progress (Aes256CbcReader R) :=
  { polls_left a := iar_left (aes_reader a) (aes_inner a) }.
#[export] Program Instance Aes256CbcReader_laws : ReaderLaws (Aes256CbcReader R) := {
  rd_wf a := iar_wf (aes_reader a) (aes_inner a);
  content a := iar_content (aes_reader a) (aes_inner a);
  ending a := iar_ending (aes_reader a) (aes_inner a)
}.
Next Obligation.
  intros n [a w] Hn Hwf. cbn [poll_read Aes256CbcReader_read aes_reader aes_inner polls_left Aes256CbcReader_progress] in *.
  pose proof (iar_poll_law n a w Hn Hwf) as Hl. by destruct (poll_read_stream n a w) as [[|[[|b l]|e|]] [a' w']].
Qed.

(** The blocks that are decrypted. *)
Definition cipher_blocks (r : R) : list bytes :=
  match ending r with None => chunks 16 (content r) | Some _ => full_blocks 16 (chunks 16 (content r)) end.

Lemma aes_new_spec key iv (r : R) :
  rd_wf r ->
  let bs := decrypt_blocks (exact_blocks (N:=16) (cipher_blocks r)).1 (decryptor_new key iv) in
  let e := exact_ending (N:=16) (cipher_blocks r) (ending r) in
  let a := Aes256CbcReader_new key iv r in
  rd_wf a /\ content a = concat (unpadded bs e) /\ ending a = unpad_ending bs e.
Proof.
  intros Hwf. cbn zeta. unfold Aes256CbcReader_new.
  destruct (into_async_read_law (aes_stream key iv) r) as (Hw & Hc & He).
  { split_and!; [by apply array_length|cbn; lia|done]. }
  cbn [rd_wf content ending Aes256CbcReader_laws aes_reader aes_inner]. by rewrite Hc, He.
Qed.

(** What the tower does to the reader below it are polls. *)
Lemma aes_world (Q : R -> Prop) :
  (forall n r, (0 < n)%nat -> Q r -> Q (poll_read n r).2) ->
  forall n (a : Aes256CbcReader R), Q (aes_inner a) -> Q (aes_inner (poll_read n a).2).
Proof.
  intros HQ n [a w] Hw. cbn [poll_read Aes256CbcReader_read aes_reader aes_inner] in *.
  pose proof (iar_world Q (S := @Aes256CbcStream CD)) as Hq.
  assert (kept Q (@Aes256CbcStream CD)) as Hs by by apply UnpadLast_kept, CbcStreamDecryptor_kept, ExactBlockStream_kept, BlockStream_kept.
  specialize (Hq Hs n a w Hw). by destruct (poll_read_stream n a w) as [p [a' w']].
Qed.

(** Decrypting a whole number of blocks through the tower is decrypting at once. *)
Lemma unpadded_one_shot key iv (bs : list (array 16)) :
  bs <> [] ->
  match aes256_cbc_pkcs7_decrypt key iv (concat (arr <$> bs)) with
  | Some p => concat (unpadded (decrypt_blocks bs (decryptor_new key iv)) None) = p /\
      unpad_ending (decrypt_blocks bs (decryptor_new key iv)) None = None
  | None => unpad_ending (decrypt_blocks bs (decryptor_new key iv)) None = Some InvalidData
  end.
Proof.
  intros Hbs. destruct (exists_last Hbs) as (bs' & b & ->). pose proof (cbc_one_shot key iv bs' b) as Hone.
  destruct (decrypt_blocks (bs' ++ [b]) (decryptor_new key iv)) as [|d ds]; [done|]. rewrite Hone.
  unfold unpadded, unpad_ending. destruct (pkcs7_unpad (List.last ds d)) as [[|t tail]|]; cbn [mbind option_bind]; [| |done].
  - split; [|done]. by rewrite !app_nil_r.
  - split; [|done]. rewrite concat_app. cbn [concat]. by rewrite app_nil_r.
Qed.

(** What the decrypting reader gives for a ciphertext, and how it ends. *)
Definition cbc_stream (key : array 32) (iv : array 16) (c : bytes) : bytes * option IoError :=
  let bs := decrypt_blocks (exact_blocks (N:=16) (chunks 16 c)).1 (decryptor_new key iv) in
  let e := exact_ending (N:=16) (chunks 16 c) None in
  (concat (unpadded bs e), unpad_ending bs e).

Lemma cbc_stream_one_shot key iv c :
  match aes256_cbc_pkcs7_decrypt key iv c with
  | Some p => cbc_stream key iv c = (p, None)
  | None => (cbc_stream key iv c).2 = if (length c =? 0)%nat then None
                                      else if (length c mod 16 =? 0)%nat then Some InvalidData else Some UnexpectedEof
  end.
Proof.
  destruct c as [|x l] eqn:Hcr; [by rewrite cbc_ragged by (by left)|].
  rewrite <- Hcr. destruct (Nat.eqb_spec (length c) 0) as [Hz|_]; [by rewrite Hcr in Hz|]. unfold cbc_stream.
  pose proof (Nat.div_mod_eq (length c) 16) as Hdiv. pose proof (Nat.mod_upper_bound (length c) 16 ltac:(lia)).
  destruct (Nat.eqb_spec (length c mod 16) 0) as [Hm|Hm].
  - destruct (exact_blocks_whole (N:=16) (chunks 16 c)) as [Ho Hb].
    { apply (chunks_whole 16 _ ltac:(lia) (length c / 16)). lia. }
    unfold exact_ending. rewrite Ho.
    assert ((exact_blocks (N:=16) (chunks 16 c)).1 <> []) as Hne.
    { intros Hn. rewrite Hn in Hb. apply (f_equal (@concat byte)) in Hb. rewrite concat_chunks in Hb by lia. by rewrite Hcr in Hb. }
    pose proof (unpadded_one_shot key iv _ Hne) as Hone. rewrite Hb, concat_chunks in Hone by lia.
    destruct (aes256_cbc_pkcs7_decrypt key iv c); [|by rewrite Hone]. by destruct Hone as [-> ->].
  - rewrite cbc_ragged by (by right).
    destruct (chunks_ragged 16 (length c mod 16) c ltac:(lia) ltac:(lia) Hm (length c / 16) ltac:(lia)) as (bs & b & -> & Hf & Hb).
    unfold exact_ending. rewrite exact_blocks_ragged by (done || lia). unfold unpad_ending. cbn [snd]. by case_match.
Qed.

Lemma aes_new_stream key iv (r : R) :
  rd_wf r -> ending r = None ->
  rd_wf (Aes256CbcReader_new key iv r) /\
  (content (Aes256CbcReader_new key iv r), ending (Aes256CbcReader_new key iv r)) = cbc_stream key iv (content r).
Proof.
  intros Hwf He. destruct (aes_new_spec key iv r Hwf) as (Hw & Hc & Hend).
  unfold cipher_blocks in *. rewrite He in *. split; [exact Hw|]. unfold cbc_stream. f_equal; [exact Hc|exact Hend].
Qed.

(** C18: reading a ciphertext through the decrypting reader ends, whatever the sizes
    of the buffers, the pieces in which the bytes arrive and the number of times the
    source is not ready, and gives what decrypting the whole content at once
    gives: the plaintext and the end of the file; [InvalidData] when the padding is
    wrong; [UnexpectedEof] when the last block is short.  Only an empty ciphertext
    differs: it reads as nothing, while decrypting at once fails.  No poll panics. *)
Theorem reading_decrypts key iv (r : R) (sizes : list nat) :
  rd_wf r -> ending r = None -> Forall (fun n => 0 < n)%nat sizes ->
  (polls_left (Aes256CbcReader_new key iv r) < length sizes)%nat ->
  let '(plaintext, result) := (drive sizes (Aes256CbcReader_new key iv r)).1 in
  match aes256_cbc_pkcs7_decrypt key iv (content r) with
  | Some p => plaintext = p /\ result = Some (Ok tt)
  | None => result = Some (if (length (content r) =? 0)%nat then Ok tt
                           else if (length (content r) mod 16 =? 0)%nat then Err InvalidData else Err UnexpectedEof)
  end.
Proof.
  intros Hwf He Hs Hp. destruct (aes_new_stream key iv r Hwf He) as (Hw & Hc).
  rewrite (drive_content sizes _ Hs Hw Hp). pose proof (cbc_stream_one_shot key iv (content r)) as Hone.
  rewrite <- Hc in Hone. destruct (aes256_cbc_pkcs7_decrypt key iv (content r)).
  { apply pair_equal_spec in Hone as [Hp' He']. split; [exact Hp'|]. by rewrite He'. }
  change (ending (Aes256CbcReader_new key iv r) =
    (if (length (content r) =? 0)%nat then None else if (length (content r) mod 16 =? 0)%nat then Some InvalidData else Some UnexpectedEof)) in Hone.
  rewrite Hone.
  destruct (length (content r) =? 0)%nat; [done|]. by destruct (length (content r) mod 16 =? 0)%nat.
Qed.
End aes_reader.
