(* ===== verification/BackupFrame.v ===== *)
(** * BackupFrame: opening a backup file

    The definitions, and the theorems on reading frames, metadata and whole files. *)

From S2P Require Import Prelude Types Primitives IncrementalMac AccountKeys AsyncIo BackupCipher.

(** ** The layers of a backup file
    (rust/message-backup/src/{parse,frame}.rs, frame/{forward_secrecy,reader_factory}.rs)

    A file is an optional block of unencrypted metadata, a ciphertext of compressed
    and length-delimited frames, and the MAC of the ciphertext.  It is read twice:
    once to check the MAC, once to decrypt while computing the MAC again. *)
Open Scope string_scope.
Open Scope list_scope.
Open Scope Z_scope.

(** ** Parameters *)

(** futures' [AsyncReadExt::read_exact], and [io::copy] into a sink. *)
Class AsyncReadExt := {
  read_exact : forall {R} `{AsyncRead R, Progress R}, nat -> M R IoError bytes;
  copy_to_sink : forall {R} `{AsyncRead R, Progress R}, M R IoError nat
}.
Class AsyncReadExtLaws `{AsyncReadExt} := {
  read_exact_law : forall {R} `{ReaderLaws R} n (r : R), rd_wf r ->
    match read_exact n r with
    | (Ok l, r') => (n <= length (content r))%nat /\ l = take n (content r) /\ polls r l r'
    | (Err e, _) => (length (content r) < n)%nat /\ e = default UnexpectedEof (ending r)
    | (Panic, _) => False
    end;
  copy_law : forall {R} `{ReaderLaws R} (r : R), rd_wf r ->
    match copy_to_sink r with
    | (Ok n, r') => ending r = None /\ n = length (content r) /\ polls r (content r) r'
    | (Err e, _) => ending r = Some e
    | (Panic, _) => False
    end
}.

(** futures' [Take<R>] and [Chain<Cursor<&[u8]>, R>]; [inner] is the reader that they
    borrow or own. *)
Class Adaptors := {
  Take : Type -> Type;
  take_new : forall {R}, R -> nat -> Take R;
  take_inner : forall {R}, Take R -> R;
  take_read :: forall {R} `{AsyncRead R}, AsyncRead (Take R);
  take_progress :: forall {R} `{Progress R}, Progress (Take R);
  Chain : Type -> Type;
  chain_new : forall {R}, bytes -> R -> Chain R;
  chain_inner : forall {R}, Chain R -> R;
  chain_read :: forall {R} `{AsyncRead R}, AsyncRead (Chain R);
  chain_progress :: forall {R} `{Progress R}, Progress (Chain R)
}.
Class AdaptorLaws `{Adaptors} := {
  take_laws :: forall {R} `{ReaderLaws R}, ReaderLaws (Take R);
  take_new_law : forall {R} `{ReaderLaws R} (r : R) n, rd_wf r ->
    rd_wf (take_new r n) /\ content (take_new r n) = take n (content r) /\
    ending (take_new r n) = (if (n <=? length (content r))%nat then None else ending r) /\ take_inner (take_new r n) = r;
  take_polls : forall {R} `{ReaderLaws R} (t t' : Take R) l, rd_wf t -> polls t l t' -> polls (take_inner t) l (take_inner t');
  chain_laws :: forall {R} `{ReaderLaws R}, ReaderLaws (Chain R);
  chain_new_law : forall {R} `{ReaderLaws R} (r : R) l, rd_wf r ->
    rd_wf (chain_new l r) /\ content (chain_new l r) = l ++ content r /\ ending (chain_new l r) = ending r /\
    chain_inner (chain_new l r) = r;
  (** The second reader is polled after the end of the first. *)
  chain_polls : forall {R} `{ReaderLaws R} (r : R) l l' (c' : Chain R), rd_wf r -> polls (chain_new l r) (l ++ l') c' ->
    polls r l' (chain_inner c')
}.

(** [GzipDecoder<BufReader<R>>]. *)
Class Gunzips := {
  Gunzip : Type -> Type;
  gunzip_new : forall {R}, R -> Gunzip R;
  gunzip_into_inner : forall {R}, Gunzip R -> R;
  gunzip_read :: forall {R} `{AsyncRead R}, AsyncRead (Gunzip R);
  gunzip_progress :: forall {R} `{Progress R}, Progress (Gunzip R)
}.
(** [gunzip]: what a compressed input and the way it ends decompress to. *)
Class GunzipLaws `{Gunzips} := {
  gunzip : bytes -> option IoError -> bytes * option IoError;
  gunzip_laws :: forall {R} `{ReaderLaws R}, ReaderLaws (Gunzip R);
  gunzip_new_law : forall {R} `{ReaderLaws R} (r : R), rd_wf r ->
    rd_wf (gunzip_new r) /\ (content (gunzip_new r), ending (gunzip_new r)) = gunzip (content r) (ending r) /\
    gunzip_into_inner (gunzip_new r) = r;
  gunzip_world : forall {R} `{AsyncRead R} (Q : R -> Prop),
    (forall n r, (0 < n)%nat -> Q r -> Q (poll_read n r).2) ->
    forall n (g : Gunzip R), (0 < n)%nat -> Q (gunzip_into_inner g) -> Q (gunzip_into_inner (poll_read n g).2)
}.

(** mediasan's [AsyncSkip]. *)
Class AsyncSkip (R : Type) := {
  skip : nat -> M R IoError ();
  stream_position : M R IoError nat;
  stream_len : M R IoError nat
}.
(** A reader of a file. *)
Class AsyncSkipLaws (R : Type) `{ReaderLaws R, !AsyncSkip R} := {
  whole : R -> bytes;
  at_byte : R -> nat;
  whole_content : forall r, content r = drop (at_byte r) (whole r);
  whole_at : forall r, rd_wf r -> (at_byte r <= length (whole r))%nat;
  whole_poll : forall n r, rd_wf r -> whole (poll_read n r).2 = whole r;
  skip_law : forall n r, rd_wf r ->
    match skip n r with
    | (Ok _, r') => rd_wf r' /\ ending r' = ending r /\ content r' = drop n (content r)
    | (Err _, _) => (length (content r) < n)%nat
    | (Panic, _) => False
    end;
  position_law : forall r, rd_wf r -> stream_position r = (Ok (at_byte r), r);
  len_law : forall r, rd_wf r -> stream_len r = (Ok (length (whole r)), r)
}.

(** rust-protobuf: [CodedInputStream::read_raw_varint32], with the number of bytes it
    takes and its error as an [io::Error]; [parse_from_bytes]. *)
Class Varint32 := {
  read_raw_varint32 : bytes -> outcome IoError (Z * nat);
  write_raw_varint32 : Z -> bytes
}.
Class Varint32Laws `{Varint32} := {
  varint_read_write : forall n tail, is_u32 n -> read_raw_varint32 (write_raw_varint32 n ++ tail) = Ok (n, length (write_raw_varint32 n));
  varint_write_length : forall n, is_u32 n -> (0 < length (write_raw_varint32 n) <= 5)%nat;
  varint_read_range : forall b, match read_raw_varint32 b with
    | Ok (n, pos) => is_u32 n /\ (0 < pos <= length b)%nat
    | Err _ => True
    | Panic => False
    end
}.
Class ProtobufParse (A : Type) := { parse_from_bytes : bytes -> option A }.

(** [Hmac::<Sha256>::new_from_slice]. *)
Class HmacSha256 `{MacOps} := { hmac_new : bytes -> MacState }.
Class HmacSha256Laws {P : Primitives} `{HmacSha256} := {
  hmac_one_shot : forall k m, mac_finalize (mac_update (hmac_new k) m) = arr (hmac_sha256_mac k m)
}.

(** ** Length-delimited frames (parse.rs) *)

Definition VARINT_MAX_LENGTH : nat := 10.

Record VarintDelimitedReader (R : Type) := mkVdReader { vd_reader : R; buffer : bytes }.
Arguments mkVdReader {R} _ _.
Arguments vd_reader {R} _.
Arguments buffer {R} _.

Definition VarintDelimitedReader_new {R} (r : R) : VarintDelimitedReader R := mkVdReader r [].

Section parse.
Context {R : Type} `{AsyncRead R, Progress R} `{AsyncReadExt} `{Varint32}.

Definition on_reader {A} : M R IoError A -> M (VarintDelimitedReader R) IoError A :=
  zoom vd_reader (fun r v => mkVdReader r (buffer v)).
Definition set_buffer (b : bytes) : M (VarintDelimitedReader R) IoError () := modify (fun v => mkVdReader (vd_reader v) b).

(** Every round that goes on has read a byte of the buffer. *)
Fixpoint fill_loop (fuel valid_bytes : nat) : M (VarintDelimitedReader R) IoError nat :=
  buf ← gets buffer;
  if (valid_bytes <? length buf)%nat then
    match fuel with
    | O => lift Panic
    | S fuel =>
        l ← on_reader (read (length buf - valid_bytes));
        if (length l =? 0)%nat then mret valid_bytes
        else
          _ ← set_buffer (write_at valid_bytes l buf);
          fill_loop fuel (valid_bytes + length l)
    end
  else mret valid_bytes.
Definition fill_buffer_from_reader : M (VarintDelimitedReader R) IoError () :=
  valid_bytes ← gets (fun v => length (buffer v));
  buf ← gets buffer;
  _ ← set_buffer (buf ++ replicate (VARINT_MAX_LENGTH - length buf) Byte.x00);
  valid_bytes ← fill_loop VARINT_MAX_LENGTH valid_bytes;
  buf ← gets buffer;
  set_buffer (take valid_bytes buf).

(** [buffer.drain(..n)]. *)
Definition drain (n : nat) : M (VarintDelimitedReader R) IoError () :=
  buf ← gets buffer;
  if (n <=? length buf)%nat then set_buffer (drop n buf) else lift Panic.

Definition read_next_varint : M (VarintDelimitedReader R) IoError (option nat) :=
  _ ← fill_buffer_from_reader;
  buf ← gets buffer;
  match buf with
  | [] => mret None
  | _ =>
      '(len, consumed_byte_count) ← lift (read_raw_varint32 buf);
      _ ← drain consumed_byte_count;
      mret (Some (Z.to_nat len))
  end.

Definition read_next : M (VarintDelimitedReader R) IoError (option bytes) :=
  len ← read_next_varint;
  match len with
  | None => mret None
  | Some len =>
      buf ← gets buffer;
      let buffered_byte_count := Nat.min len (length buf) in
      let out := take buffered_byte_count buf in
      _ ← drain buffered_byte_count;
      if (buffered_byte_count <? len)%nat then
        l ← on_reader (read_exact (len - buffered_byte_count));
        mret (Some (out ++ l))
      else mret (Some out)
  end.

Definition VarintDelimitedReader_into_inner {E} (v : VarintDelimitedReader R) : outcome E R :=
  if (length (buffer v) =? 0)%nat then Ok (vd_reader v) else Panic.
End parse.

(** ** Errors (frame.rs) *)

Inductive ValidationError :=
| Io (e : IoError)
| MissingMetadataField (field : string)
| InvalidLength (field : string) (expected actual : nat)
| TooManyForwardSecrecyPairs (n : nat)
| InvalidHmac (expected found : array 32).

Inductive VerifyHmacError :=
| VerifyIo (e : IoError)
| HmacMismatch (expected found : array 32).

(** ** Metadata (forward_secrecy.rs) *)

Record MetadataPair := mkMetadataPair { ct : bytes; pw_salt : bytes }.
Record MetadataPb := mkMetadataPb { pair : list MetadataPair; iv : bytes }.

(** The fields are copied from the input. *)
Class MetadataSize `{ProtobufParse MetadataPb} := {
  metadata_size : forall b m p, parse_from_bytes b = Some m -> p ∈ pair m -> (length (ct p) <= length b)%nat
}.

Definition MAGIC_NUMBER : bytes := byte_str "SBACKUP" ++ [Byte.x01].
Definition CT_MAC_LEN : nat := 16.
Definition BACKUP_METADATA_IV_LEN : nat := 12.

Section metadata.
Context {R : Type} `{AsyncRead R, Progress R} `{AsyncReadExt} `{Varint32} `{ProtobufParse MetadataPb}.

Definition verify_pair (p : MetadataPair) : outcome ValidationError () :=
  if (length (ct p) =? 0)%nat then Err (MissingMetadataField "pair.ct")
  else if negb (length (ct p) =? BACKUP_FORWARD_SECRECY_TOKEN_LEN + CT_MAC_LEN)%nat
  then Err (InvalidLength "pair.ct" (BACKUP_FORWARD_SECRECY_TOKEN_LEN + CT_MAC_LEN) (length (ct p)))
  else if (length (pw_salt p) =? 0)%nat then Err (MissingMetadataField "pair.pw_salt")
  else if negb (length (pw_salt p) =? 32)%nat then Err (InvalidLength "pair.pw_salt" 32 (length (pw_salt p)))
  else Ok tt.

Fixpoint verify_pairs (l : list MetadataPair) : outcome ValidationError () :=
  match l with [] => Ok tt | p :: l => _ ← verify_pair p; verify_pairs l end.

(** The checks of the parsed message. *)
Definition verify_fields (m : MetadataPb) : outcome ValidationError () :=
  _ ← match length (pair m) with
      | O => Err (MissingMetadataField "pair")
      | 1%nat | 2%nat => Ok tt
      | more => Err (TooManyForwardSecrecyPairs more)
      end;
  _ ← verify_pairs (pair m);
  if negb (length (iv m) =? BACKUP_METADATA_IV_LEN)%nat
  then Err (InvalidLength "iv" BACKUP_METADATA_IV_LEN (length (iv m)))
  else Ok tt.

(** Gives the reader back, as [into_inner] does. *)
Definition verify_metadata (r : R) : outcome ValidationError R :=
  '(metadata, v) ← map_err Io (run_local (VarintDelimitedReader_new r) read_next);
  metadata ← ok_or (Io UnexpectedEof) metadata;
  m ← ok_or (Io InvalidData) (parse_from_bytes metadata);
  _ ← verify_fields m;
  VarintDelimitedReader_into_inner v.
End metadata.

(** ** Reader factories (reader_factory.rs) *)

Class ReaderFactory (F R : Type) := { make_reader : M F IoError R }.

(** [CursorFactory]: a new cursor into the same buffer each time. *)
Record CursorFactory := mkCursorFactory { cursor_buffer : bytes }.
Class Cursors (R : Type) := { cursor_new : bytes -> R }.
#[export] Instance CursorFactory_factory {R} `{Cursors R} : ReaderFactory CursorFactory R :=
  { make_reader := reads (fun f => Ok (cursor_new (cursor_buffer f))) }.

(** [LimitedReaderFactory]: readers given in advance; the last of the list comes first. *)
Record LimitedReaderFactory (R : Type) := mkLimited { readers : list R }.
Arguments mkLimited {R} _.
Arguments readers {R} _.
Definition LimitedReaderFactory_new {R} (l : list R) : LimitedReaderFactory R := mkLimited (reverse l).
#[export] Instance LimitedReaderFactory_factory {R} : ReaderFactory (LimitedReaderFactory R) R := {
  make_reader f := match last (readers f) with
                   | Some r => (Ok r, mkLimited (vec_pop (readers f)))
                   | None => (Err OtherIo, f)
                   end
}.

(** ** Reading the file (frame.rs) *)

Definition HMAC_LEN : nat := 32.
Definition AES_IV_SIZE : nat := 16.

Section frame.
Context {P : Primitives} `{AsyncReadExt} `{Adaptors} `{Gunzips} `{Varint32} `{ProtobufParse MetadataPb}
  `{HmacSha256} `{CbcDecryptor} `{IntoAsyncReads}.
Context {R : Type} `{AsyncRead R, Progress R, AsyncSkip R}.

Record FramesReader := mkFramesReader {
  fr_reader : Gunzip (Aes256CbcReader (MacReader (Take R)));
  expected_hmac : array 32
}.

Definition MacReader_new_sha256 {T} (r : T) (hmac_key : bytes) : MacReader T := mkMacReader r (hmac_new hmac_key).

(** [hmac_sha256]; the reader is borrowed, and given back here. *)
Definition hmac_sha256 {T} `{AsyncRead T, Progress T} (hmac_key extra_bytes_to_hmac : bytes) (r : T)
  : outcome IoError (array 32 * T) :=
  '(_, m) ← run_local (MacReader_new_sha256 (chain_new extra_bytes_to_hmac r) hmac_key) copy_to_sink;
  Ok (to_array 32 (MacReader_finalize m), chain_inner (mac_inner m)).

Definition check_hmac (key : MessageBackupKey) (extra_bytes_to_hmac : bytes) (r : R)
  : outcome ValidationError (nat * array 32) :=
  '(position, r) ← map_err Io (run_local r stream_position);
  '(len, r) ← map_err Io (run_local r stream_len);
  content_len ← (if (position + HMAC_LEN <=? len)%nat then Ok (len - (position + HMAC_LEN))%nat else Err (Io UnexpectedEof));
  '(actual_hmac, t) ← map_err Io (hmac_sha256 (arr (mbk_hmac_key key)) extra_bytes_to_hmac (take_new r content_len));
  '(buf, _) ← map_err Io (run_local (take_inner t) (read_exact HMAC_LEN));
  let expected_hmac := to_array 32 buf in
  if decide (expected_hmac = actual_hmac)
  then Ok ((content_len + length extra_bytes_to_hmac)%nat, expected_hmac)
  else Err (InvalidHmac expected_hmac actual_hmac).

Definition with_separate_hmac (key : MessageBackupKey) (r : Take R) (expected_hmac : array 32)
  : outcome ValidationError FramesReader :=
  '(iv, content) ← map_err Io (run_local (MacReader_new_sha256 r (arr (mbk_hmac_key key))) (read_exact AES_IV_SIZE));
  Ok (mkFramesReader (gunzip_new (Aes256CbcReader_new (mbk_aes_key key) (to_array 16 iv) content)) expected_hmac).

(** The first part of [FramesReader::new]: the magic number and the metadata. *)
Definition read_start (r : R) : outcome ValidationError (nat * bytes * R) :=
  '(maybe_magic_number, r) ← map_err Io (run_local r (read_exact (length MAGIC_NUMBER)));
  if decide (maybe_magic_number = MAGIC_NUMBER) then
    r ← verify_metadata r;
    '(start_of_encrypted_data, r) ← map_err Io (run_local r stream_position);
    Ok (start_of_encrypted_data, [], r)
  else Ok (O, maybe_magic_number, r).

Definition FramesReader_new {F} `{ReaderFactory F R} (key : MessageBackupKey) : M F ValidationError FramesReader :=
  r ← map_err_M Io make_reader;
  '(start_of_encrypted_data, extra_bytes_to_hmac, r) ← lift (read_start r);
  '(content_len, hmac) ← lift (check_hmac key extra_bytes_to_hmac r);
  new_reader ← map_err_M Io make_reader;
  '(_, new_reader) ← lift (map_err Io (run_local new_reader (skip start_of_encrypted_data)));
  lift (with_separate_hmac key (take_new new_reader content_len) hmac).

#[export] Instance FramesReader_read : AsyncRead FramesReader :=
  { poll_read n f := let '(p, r) := poll_read n (fr_reader f) in (p, mkFramesReader r (expected_hmac f)) }.

Definition FramesReader_verify_hmac (f : FramesReader) : outcome VerifyHmacError () :=
  let r := Aes256CbcReader_into_inner (gunzip_into_inner (fr_reader f)) in
  '(_, r) ← map_err VerifyIo (run_local r copy_to_sink);
  let found := to_array 32 (MacReader_finalize r) in
  if decide (expected_hmac f = found) then Ok tt else Err (HmacMismatch (expected_hmac f) found).
End frame.
Arguments FramesReader {_ _ _ _ _} R.

(** [VerifyHmac], and a reader whose MAC is not checked. *)
Class VerifyHmac (R : Type) := { verify_hmac : R -> outcome VerifyHmacError () }.
Record UnvalidatedHmacReader (R : Type) := mkUnvalidated { unvalidated : R }.
Arguments mkUnvalidated {R} _.
Arguments unvalidated {R} _.
#[export] Instance UnvalidatedHmacReader_read {R} `{AsyncRead R} : AsyncRead (UnvalidatedHmacReader R) :=
  { poll_read n u := let '(p, r) := poll_read n (unvalidated u) in (p, mkUnvalidated r) }.
#[export] Instance UnvalidatedHmacReader_verify {R} : VerifyHmac (UnvalidatedHmacReader R) := { verify_hmac _ := Ok tt }.

Open Scope string_scope.
Open Scope list_scope.
Open Scope Z_scope.

(** ** Frames *)

(** The first frame of some bytes and what follows it. *)
Definition next_frame `{Varint32} (c : bytes) : outcome IoError (option (bytes * bytes)) :=
  let front := take VARINT_MAX_LENGTH c in
  if (length front =? 0)%nat then Ok None
  else
    '(n, pos) ← read_raw_varint32 front;
    let rest := drop pos c in
    if (length rest <? Z.to_nat n)%nat then Err UnexpectedEof
    else Ok (Some (take (Z.to_nat n) rest, drop (Z.to_nat n) rest)).

Section frames.
Context {R : Type} `{RL : ReaderLaws R} `{EL : AsyncReadExtLaws} `{VL : Varint32Laws}.

Definition vd_content (v : VarintDelimitedReader R) : bytes := buffer v ++ content (vd_reader v).
(** At rest: the source is a file without errors. *)
Definition vd_wf (v : VarintDelimitedReader R) : Prop :=
  (length (buffer v) <= VARINT_MAX_LENGTH)%nat /\ rd_wf (vd_reader v) /\ ending (vd_reader v) = None.

Lemma polls_keep (r r' : R) l : polls r l r' -> rd_wf r -> ending r = None -> rd_wf r' /\ ending r' = None /\ content r = l ++ content r'.
Proof. intros Hp Hw He. destruct (polls_content _ _ _ Hp Hw) as (? & ? & ?). split_and!; congruence. Qed.

Lemma fill_loop_spec fuel valid buf (r : R) :
  length buf = VARINT_MAX_LENGTH -> (VARINT_MAX_LENGTH <= valid + fuel)%nat -> (valid <= VARINT_MAX_LENGTH)%nat ->
  rd_wf r -> ending r = None ->
  exists k buf' r' l, fill_loop fuel valid (mkVdReader r buf) = (Ok k, mkVdReader r' buf') /\
    length buf' = VARINT_MAX_LENGTH /\ (k <= VARINT_MAX_LENGTH)%nat /\ take k buf' = take valid buf ++ l /\
    polls r l r' /\ (k = VARINT_MAX_LENGTH \/ content r' = []).
Proof.
  revert valid buf r. induction fuel as [|fuel IH]; intros valid buf r Hb Hf Hv Hw He; cbn [fill_loop];
    unfold gets; M_step; cbn [buffer]; rewrite Hb.
  - destruct (Nat.ltb_spec valid VARINT_MAX_LENGTH); [lia|]. exists valid, buf, r, [].
    split_and!; try done; [by rewrite app_nil_r|constructor|left; lia].
  - destruct (Nat.ltb_spec valid VARINT_MAX_LENGTH) as [Hlt|].
    2: { exists valid, buf, r, []. split_and!; try done; [by rewrite app_nil_r|constructor|left; lia]. }
    rewrite M_bind_eq. unfold on_reader, zoom. cbn [vd_reader].
    pose proof (read_spec (VARINT_MAX_LENGTH - valid) r ltac:(lia) Hw) as Hr. unfold read_result in Hr.
    destruct (read (VARINT_MAX_LENGTH - valid) r) as [[[|b l]|e|] r1]; [| |destruct Hr; congruence|done].
    + destruct Hr as (? & ? & ? & ? & ? & ?). exists valid, buf, r1, [].
      split_and!; try done; [by rewrite app_nil_r|by right].
    + destruct Hr as (Hlen & Hc & Hw1 & He1 & _ & Hp). cbn [length Nat.eqb]. unfold set_buffer, modify. M_step. cbn [vd_reader].
      cbn [length] in Hlen.
      destruct (IH (valid + S (length l))%nat (write_at valid (b :: l) buf) r1) as (k & buf' & r' & l' & Hloop & Hb' & Hk & Ht & Hp' & Hor);
        [rewrite write_at_length; [done|cbn [length]; lia]|lia|lia|done|congruence|].
      exists k, buf', r', ((b :: l) ++ l'). split_and!; try done.
      * change (S (length l)) with (length (b :: l)) in Ht. rewrite write_at_take in Ht by lia. by rewrite Ht, app_assoc.
      * by eapply polls_trans.
Qed.

Lemma fill_buffer_spec (v : VarintDelimitedReader R) :
  vd_wf v ->
  exists v' l, fill_buffer_from_reader v = (Ok tt, v') /\ vd_wf v' /\ vd_content v' = vd_content v /\
    polls (vd_reader v) l (vd_reader v') /\ (length (buffer v') = VARINT_MAX_LENGTH \/ content (vd_reader v') = []).
Proof.
  intros (Hb & Hw & He). destruct v as [r buf]. cbn [vd_reader buffer] in *.
  unfold fill_buffer_from_reader, gets, set_buffer, modify. M_step. M_step. M_step. cbn [vd_reader buffer].
  destruct (fill_loop_spec VARINT_MAX_LENGTH (length buf) (buf ++ replicate (VARINT_MAX_LENGTH - length buf) Byte.x00) r)
    as (k & buf' & r' & l & Hloop & Hb' & Hk & Ht & Hp & Hor); [rewrite length_app, length_replicate; lia|lia|done..|].
  rewrite M_bind_eq, Hloop. cbn [vd_reader buffer]. rewrite take_app_length in Ht.
  destruct (polls_keep _ _ _ Hp Hw He) as (Hw' & He' & Hc).
  exists (mkVdReader r' (take k buf')), l. split; [done|]. unfold vd_wf, vd_content. cbn [vd_reader buffer].
  rewrite length_take. split_and!; try done; [lia| |destruct Hor as [->|]; [left; lia|by right]].
  rewrite Ht, Hc. by rewrite app_assoc.
Qed.

Lemma drain_step n (r : R) buf : (n <= length buf)%nat -> drain n (mkVdReader r buf) = (Ok tt, mkVdReader r (drop n buf)).
Proof. intros Hn. unfold drain, gets. M_step. cbn [buffer]. by destruct (Nat.leb_spec n (length buf)); [|lia]. Qed.

(** The bytes of the length are all in the buffer. *)
Lemma take_filled (buf c : bytes) :
  (length buf <= VARINT_MAX_LENGTH)%nat -> length buf = VARINT_MAX_LENGTH \/ c = [] -> take VARINT_MAX_LENGTH (buf ++ c) = buf.
Proof. intros Hb [Hl| ->]; [by rewrite take_app_length'|]. rewrite app_nil_r. by apply take_ge. Qed.

(** Reading through the buffer is parsing the content. *)
Lemma read_next_spec (v : VarintDelimitedReader R) :
  vd_wf v ->
  match read_next v with
  | (Ok None, v') => vd_content v = [] /\ buffer v' = [] /\ vd_wf v' /\ vd_content v' = [] /\
      exists l, polls (vd_reader v) l (vd_reader v')
  | (Ok (Some m), v') => next_frame (vd_content v) = Ok (Some (m, vd_content v')) /\ vd_wf v' /\
      ((VARINT_MAX_LENGTH <= length m)%nat -> buffer v' = []) /\ exists l, polls (vd_reader v) l (vd_reader v')
  | (Err e, _) => next_frame (vd_content v) = Err e
  | (Panic, _) => False
  end.
Proof.
  intros Hv. destruct (fill_buffer_spec v Hv) as ([r buf] & l & Hfill & Hv1 & <- & Hp & Hor).
  destruct Hv as (_ & Hw0 & He0). unfold read_next, read_next_varint. rewrite M_bind_eq, M_bind_eq, Hfill. unfold gets. M_step.
  destruct Hv1 as (Hb & Hw & He). unfold vd_content. cbn [vd_reader buffer] in *. unfold next_frame.
  destruct buf as [|b0 bs] eqn:Hbuf.
  { destruct Hor as [Hn|Hc]; [done|]. rewrite Hc. cbn. rewrite Hc. unfold vd_wf. cbn [vd_reader buffer length]. split_and!; try done; eauto. }
  cbv beta iota. rewrite <- Hbuf in *. rewrite (take_filled buf (content r) Hb Hor). destruct (Nat.eqb_spec (length buf) 0) as [Hz|_]; [by rewrite Hbuf in Hz|].
  rewrite M_bind_eq. unfold lift. pose proof (varint_read_range buf) as Hrange.
  destruct (read_raw_varint32 buf) as [[n pos]|e|]; [|done|done]. destruct Hrange as [Hn Hpos]. cbn [mbind outcome_bind].
  rewrite M_bind_eq, drain_step by lia. M_step. M_step. cbn [buffer].
  rewrite drain_step by lia. rewrite drop_app_le by lia.
  set (rest := drop pos buf). assert (length rest < VARINT_MAX_LENGTH)%nat as Hrl by (unfold rest; rewrite length_drop; lia).
  set (len := Z.to_nat n). rewrite length_app.
  destruct (Nat.ltb_spec (Nat.min len (length rest)) len) as [Hlt|Hge].
  - rewrite (Nat.min_r len) by lia. rewrite M_bind_eq. unfold on_reader, zoom. cbn [vd_reader buffer].
    pose proof (read_exact_law (len - length rest) r Hw) as Hr.
    destruct (read_exact (len - length rest) r) as [[l'|e|] r'] eqn:Hre; [| |done].
    + destruct Hr as (Hle & -> & Hp'). destruct (polls_keep _ _ _ Hp' Hw He) as (Hw' & He' & Hc').
      destruct (Nat.ltb_spec (length rest + length (content r)) len); [lia|]. unfold mret, M_ret. cbn [vd_reader buffer].
      rewrite (drop_ge rest), (take_ge rest) by lia. split.
      * rewrite take_app_ge, drop_app_ge by lia. cbn [app].
        assert (drop (len - length rest) (content r) = content r') as -> by (rewrite Hc' at 1; rewrite drop_app_length'; [done|rewrite length_take; lia]).
        done.
      * split; [unfold vd_wf; cbn; split_and!; [unfold VARINT_MAX_LENGTH; lia|done|done]|]. split; [done|]. exists (l ++ take (len - length rest) (content r)).
        by eapply polls_trans.
    + destruct Hr as [Hlt' ->]. rewrite He. destruct (Nat.ltb_spec (length rest + length (content r)) len); [done|lia].
  - destruct (Nat.ltb_spec (length rest + length (content r)) len); [lia|]. unfold mret, M_ret. cbn [vd_reader buffer].
    rewrite (Nat.min_l len) by lia. rewrite take_app_le, drop_app_le by lia. split; [done|].
    split; [unfold vd_wf; cbn [vd_reader buffer]; rewrite length_drop; split_and!; [lia|done|done]|].
    split; [rewrite length_take; lia|]. by exists l.
Qed.
End frames.

(** ** Metadata *)

Definition valid_pair (p : MetadataPair) : Prop := length (ct p) = 48%nat /\ length (pw_salt p) = 32%nat.
Definition valid_metadata (m : MetadataPb) : Prop :=
  (length (pair m) = 1%nat \/ length (pair m) = 2%nat) /\ (forall p, p ∈ pair m -> valid_pair p) /\ length (iv m) = 12%nat.

Lemma verify_pair_spec p :
  match verify_pair p with Ok _ => valid_pair p | Err _ => ~ valid_pair p | Panic => False end.
Proof.
  unfold verify_pair, valid_pair. change (BACKUP_FORWARD_SECRECY_TOKEN_LEN + CT_MAC_LEN)%nat with 48%nat.
  repeat match goal with |- context [(?a =? ?b)%nat] => destruct (Nat.eqb_spec a b); cbn [negb] end; lia.
Qed.
Lemma verify_pairs_spec l :
  match verify_pairs l with
  | Ok _ => forall p, p ∈ l -> valid_pair p
  | Err _ => ~ forall p, p ∈ l -> valid_pair p
  | Panic => False
  end.
Proof.
  induction l as [|p l IH]; cbn [verify_pairs]; [by intros p Hp%elem_of_nil|].
  pose proof (verify_pair_spec p) as Hp. destruct (verify_pair p) as [[]|e|]; cbn [mbind outcome_bind]; [| |done].
  - destruct (verify_pairs l); [| |done].
    + intros p' [->|Hin]%elem_of_cons; [done|by apply IH].
    + intros Hall. apply IH. intros p' Hin. apply Hall. by right.
  - intros Hall. apply Hp, Hall. by left.
Qed.

Lemma verify_fields_spec m :
  match verify_fields m with Ok _ => valid_metadata m | Err _ => ~ valid_metadata m | Panic => False end.
Proof.
  unfold verify_fields, valid_metadata, BACKUP_METADATA_IV_LEN. pose proof (verify_pairs_spec (pair m)) as Hps.
  destruct (length (pair m)) as [|[|[|n]]]; cbn [mbind outcome_bind]; [lia| | |lia].
  all: destruct (verify_pairs (pair m)) as [[]|e|]; cbn [mbind outcome_bind]; [|tauto|done].
  all: destruct (Nat.eqb_spec (length (iv m)) 12); cbn [negb]; tauto.
Qed.

Section metadata.
Context {R : Type} `{RL : ReaderLaws R} `{EL : AsyncReadExtLaws} `{VL : Varint32Laws} `{ML : MetadataSize}.

(** The frame at the front of some bytes is valid metadata. *)
Definition has_metadata (c rest : bytes) : Prop :=
  exists b m, next_frame c = Ok (Some (b, rest)) /\ parse_from_bytes b = Some m /\ valid_metadata m.

(** The reader is left right after the metadata: the assertion that the buffer is
    empty cannot fail. *)
Lemma verify_metadata_spec (r : R) :
  rd_wf r -> ending r = None ->
  match verify_metadata r with
  | Ok r' => has_metadata (content r) (content r') /\ exists l, polls r l r'
  | Err _ => forall rest, ~ has_metadata (content r) rest
  | Panic => False
  end.
Proof.
  intros Hw He. unfold verify_metadata, run_local, has_metadata.
  pose proof (read_next_spec (VarintDelimitedReader_new r)) as Hr.
  destruct (read_next (VarintDelimitedReader_new r)) as [[[b|]|e|] v]; cbn [map_err fmap outcome_fmap mbind outcome_bind ok_or].
  - destruct Hr as (Hf & Hv & Hbuf & Hp); [unfold vd_wf; cbn; split_and!; [lia|done|done]|]. cbn in Hf. rewrite Hf.
    destruct (parse_from_bytes b) as [m|] eqn:Hm; cbn [ok_or mbind outcome_bind]; [|naive_solver].
    pose proof (verify_fields_spec m) as Hfs. destruct (verify_fields m) as [[]|e|]; cbn [mbind outcome_bind]; [| |done].
    + assert (buffer v = []) as Hnil.
      { apply Hbuf. pose proof Hfs as (Hl & Hp' & _). destruct (pair m) as [|p ps] eqn:Hpair; [cbn in Hl; lia|].
        pose proof (metadata_size b m p Hm) as Hsz. rewrite Hpair in Hsz. destruct (Hp' p) as [Hct _]; [by left|].
        specialize (Hsz ltac:(by left)). rewrite Hct in Hsz. unfold VARINT_MAX_LENGTH. lia. }
      unfold VarintDelimitedReader_into_inner. rewrite Hnil. cbn [length Nat.eqb]. split; [|done].
      exists b, m. split_and!; try done. unfold vd_content. by rewrite Hnil.
    + naive_solver.
  - destruct Hr as (Hc & _); [unfold vd_wf; cbn; split_and!; [lia|done|done]|]. cbn in Hc. rewrite Hc.
    intros rest (? & ? & Hf & _). discriminate Hf.
  - assert (next_frame (content r) = Err e) as -> by (apply Hr; unfold vd_wf; cbn; split_and!; [lia|done|done]). naive_solver.
  - apply Hr. unfold vd_wf; cbn; split_and!; [lia|done|done].
Qed.
End metadata.

(** ** Files *)

Section files.
Context {R : Type} `{SL : AsyncSkipLaws R} `{EL : AsyncReadExtLaws}.

(** Reading the file [w], at the byte [p]. *)
Definition reading (r : R) (w : bytes) (p : nat) : Prop :=
  rd_wf r /\ ending r = None /\ whole r = w /\ at_byte r = p.

Lemma reading_content r w p : reading r w p -> content r = drop p w /\ (p <= length w)%nat.
Proof. intros (Hw & _ & <- & <-). split; [apply whole_content|by apply whole_at]. Qed.

Lemma polls_whole (r r' : R) l : polls r l r' -> rd_wf r -> whole r' = whole r.
Proof.
  induction 1 as [r|n r r1 l r2 Hn Hp _ IH|n r a r1 l r2 Hn Hp _ IH]; intros Hw; [done|..].
  all: pose proof (whole_poll n r Hw) as Hwh; pose proof (poll_read_law n r Hn Hw) as Hl; rewrite Hp in Hwh, Hl; cbn in Hwh.
  all: rewrite <- Hwh; apply IH; destruct_and?; try done; by destruct a; destruct_and?.
Qed.

Lemma reading_polls r w p r' l :
  reading r w p -> polls r l r' -> reading r' w (p + length l)%nat /\ l = take (length l) (drop p w).
Proof.
  intros Hr Hp. destruct (reading_content _ _ _ Hr) as [Hc Hle]. destruct Hr as (Hw & He & Hwh & Hat).
  destruct (polls_content _ _ _ Hp Hw) as (Hw' & Hc' & He'). pose proof (polls_whole _ _ _ Hp Hw) as Hwh'.
  assert (content r = l ++ drop (at_byte r') w) as Hcc by (rewrite Hc', (whole_content r'), Hwh', Hwh; done).
  pose proof (whole_at r' Hw') as Hle'. rewrite Hwh', Hwh in Hle'.
  rewrite Hc in Hcc. split; [|by rewrite Hcc, take_app_length].
  split_and!; [done|congruence|congruence|]. apply (f_equal length) in Hcc. rewrite length_app, !length_drop in Hcc. lia.
Qed.

Lemma reading_exact n r w p :
  reading r w p ->
  match read_exact n r with
  | (Ok l, r') => (p + n <= length w)%nat /\ l = take n (drop p w) /\ reading r' w (p + n)
  | (Err e, _) => (length w < p + n)%nat /\ e = UnexpectedEof
  | (Panic, _) => False
  end.
Proof.
  intros Hr. destruct (reading_content _ _ _ Hr) as [Hc Hle]. pose proof Hr as (Hw & He & _ & _).
  pose proof (read_exact_law n r Hw) as Hl. rewrite Hc, length_drop in Hl.
  destruct (read_exact n r) as [[l|e|] r']; [|split; [lia|destruct Hl as [_ ->]; by rewrite He]|done].
  destruct Hl as (Hn & -> & Hp). destruct (reading_polls _ _ _ _ _ Hr Hp) as [Hr' _].
  rewrite length_take, length_drop in Hr'. split_and!; [lia|done|].
  by replace (p + n)%nat with (p + Nat.min n (length w - p))%nat by lia.
Qed.
End files.

#[export] Instance UnvalidatedHmacReader_progress {R} `{Progress R} : Progress (UnvalidatedHmacReader R) :=
  { polls_left u := polls_left (unvalidated u) }.
#[export] Program Instance UnvalidatedHmacReader_laws {R} `{ReaderLaws R} : ReaderLaws (UnvalidatedHmacReader R) := {
  rd_wf u := rd_wf (unvalidated u); content u := content (unvalidated u); ending u := ending (unvalidated u)
}.
Next Obligation.
  intros R HR HP HL n [r] Hn Hwf. cbn [poll_read UnvalidatedHmacReader_read unvalidated polls_left UnvalidatedHmacReader_progress] in *.
  pose proof (poll_read_law n r Hn Hwf) as Hl. by destruct (poll_read n r) as [[|[[|b l]|e|]] r'].
Qed.

(** ** The MAC of a file *)

Section frame.
Context {P : Primitives} `{EL : AsyncReadExtLaws} `{AL : AdaptorLaws} `{GL : GunzipLaws} `{VL : Varint32Laws}
  `{PM : ProtobufParse MetadataPb} `{MS : !MetadataSize}
  `{HS : HmacSha256} `{HL : !HmacSha256Laws} `{ML : !MacLaws} `{CL : !CbcDecryptorLaws (P:=P) (H:=CD)} `{IL : IntoAsyncReadLaws}.
Context {R : Type} `{SL : AsyncSkipLaws R}.

Lemma hmac_sha256_spec {T} `{ReaderLaws T} key extra (t : T) :
  rd_wf t -> ending t = None ->
  exists t', hmac_sha256 key extra t = Ok (hmac_sha256_mac key (extra ++ content t), t') /\ polls t (content t) t'.
Proof.
  intros Hw He. unfold hmac_sha256, run_local.
  destruct (chain_new_law t extra Hw) as (Hwc & Hcc & Hec & Hin).
  set (m := MacReader_new_sha256 (chain_new extra t) key).
  pose proof (copy_law m) as Hcopy. cbn [rd_wf content ending MacReader_laws] in Hcopy. specialize (Hcopy Hwc).
  destruct (copy_to_sink m) as [[n|e|] m'] eqn:Hm; [|exfalso|done].
  - destruct Hcopy as (_ & _ & Hp). destruct (MacReader_polls _ _ _ Hp) as [Hpi Hs]. cbn [mac_inner mac_state m MacReader_new_sha256] in *.
    rewrite Hcc in *. exists (chain_inner (mac_inner m')). cbn [fmap outcome_fmap mbind outcome_bind]. split.
    + do 2 f_equal. apply array_eq. unfold MacReader_finalize. rewrite Hs, hmac_one_shot. f_equal. apply to_array_id.
    + by apply (chain_polls t extra).
  - cbn [mac_inner m MacReader_new_sha256] in Hcopy. congruence.
Qed.

Lemma take_reading (r : R) c n :
  rd_wf r -> ending r = None -> content r = c ->
  rd_wf (take_new r n) /\ content (take_new r n) = take n c /\ ending (take_new r n) = None /\ take_inner (take_new r n) = r.
Proof.
  intros Hw He <-. destruct (take_new_law r n Hw) as (Hwt & Hct & Het & Hi). split_and!; try done.
  rewrite Het. by destruct (n <=? length (content r))%nat.
Qed.

Lemma check_hmac_spec key extra (r : R) w p :
  reading r w p ->
  let mac := hmac_sha256_mac (arr (mbk_hmac_key key)) (extra ++ slice p (length w - 32) w) in
  match check_hmac key extra r with
  | Ok (n, h) => (p + 32 <= length w)%nat /\ n = (length w - 32 - p + length extra)%nat /\
      arr h = drop (length w - 32) w /\ h = mac
  | Err (Io e) => (length w < p + 32)%nat /\ e = UnexpectedEof
  | Err (InvalidHmac expected found) => arr expected = drop (length w - 32) w /\ found = mac /\ expected <> found
  | _ => False
  end.
Proof.
  intros Hr. cbn zeta. unfold check_hmac, run_local. pose proof Hr as (Hw & _ & Hwh & Hat).
  rewrite (position_law r Hw), Hat. cbn [fmap outcome_fmap map_err mbind outcome_bind].
  rewrite (len_law r Hw), Hwh. cbn [fmap outcome_fmap map_err mbind outcome_bind]. change HMAC_LEN with 32%nat.
  destruct (Nat.leb_spec (p + 32) (length w)) as [Hle|Hgt]; cbn [mbind outcome_bind]; [|by split].
  set (n := (length w - (p + 32))%nat). destruct (take_reading r (drop p w) n) as (Hwt & Hct & Het & Hit); [done|apply Hr|by apply reading_content|].
  destruct (hmac_sha256_spec (arr (mbk_hmac_key key)) extra (take_new r n) Hwt Het) as (t' & -> & Hp).
  cbn [map_err mbind outcome_bind]. apply (take_polls _ _ _ Hwt) in Hp. rewrite Hit, Hct in Hp.
  destruct (reading_polls _ _ _ _ _ Hr Hp) as [Hr' _]. rewrite length_take, length_drop in Hr'.
  replace (p + Nat.min n (length w - p))%nat with (length w - 32)%nat in Hr' by (unfold n; lia).
  pose proof (reading_exact 32 _ _ _ Hr') as Hx. destruct (read_exact 32 (take_inner t')) as [[l|e|] r']; [|lia|done].
  destruct Hx as (_ & -> & _). cbn [fmap outcome_fmap map_err mbind outcome_bind].
  assert (arr (to_array 32 (take 32 (drop (length w - 32) w))) = drop (length w - 32) w) as Hh.
  { rewrite to_array_arr; [apply take_ge|rewrite length_take]; rewrite length_drop; lia. }
  assert (take n (drop p w) = slice p (length w - 32) w) as Hs by (unfold slice; f_equal; unfold n; lia).
  rewrite Hct, Hs. case_decide as Hd; [|done]. split_and!; [done|unfold n; lia|done|by rewrite Hd].
Qed.

#[export] Instance FramesReader_progress : Progress (FramesReader R) := { polls_left f := polls_left (fr_reader f) }.
#[export] Program Instance FramesReader_laws : ReaderLaws (FramesReader R) := {
  rd_wf f := rd_wf (fr_reader f); content f := content (fr_reader f); ending f := ending (fr_reader f)
}.
Next Obligation.
  intros n [r h] Hn Hwf. cbn [poll_read FramesReader_read fr_reader expected_hmac polls_left FramesReader_progress] in *.
  pose proof (poll_read_law n r Hn Hwf) as Hl. by destruct (poll_read n r) as [[|[[|b l]|e|]] r'].
Qed.

(** The MAC so far is of what the reader below has given of [body]. *)
Definition macs (key : MessageBackupKey) (body : bytes) (m : MacReader (Take R)) : Prop :=
  rd_wf m /\ ending m = None /\
  exists l, body = l ++ content m /\ mac_state m = mac_update (hmac_new (arr (mbk_hmac_key key))) l.
Definition mac_reader_of (f : FramesReader R) : MacReader (Take R) := aes_inner (gunzip_into_inner (fr_reader f)).

Lemma macs_polls key body m m' l : macs key body m -> polls m l m' -> macs key body m'.
Proof.
  intros (Hw & He & l0 & -> & Hs) Hp. destruct (polls_content _ _ _ Hp Hw) as (Hw' & Hc & He').
  destruct (MacReader_polls _ _ _ Hp) as [_ Hs']. split_and!; [done|congruence|]. exists (l0 ++ l).
  by rewrite Hc, Hs', Hs, mac_update_app, app_assoc.
Qed.
Lemma macs_poll key body n m : (0 < n)%nat -> macs key body m -> macs key body (poll_read n m).2.
Proof.
  intros Hn Hm. pose proof Hm as (Hw & He & _). pose proof (poll_read_law n m Hn Hw) as Hl.
  destruct (poll_read n m) as [[|[l|e|]] m'] eqn:Hp; cbn [snd].
  - eapply macs_polls; [done|]. eapply polls_pending; [done..|constructor].
  - eapply macs_polls; [done|]. by eapply polls_last.
  - destruct Hl; congruence.
  - done.
Qed.

Lemma frames_reader_macs key body (f f' : FramesReader R) l :
  polls f l f' -> macs key body (mac_reader_of f) -> macs key body (mac_reader_of f') /\ expected_hmac f' = expected_hmac f.
Proof.
  assert (forall n f, (0 < n)%nat -> macs key body (mac_reader_of f) ->
    macs key body (mac_reader_of (poll_read n f).2) /\ expected_hmac (poll_read n f).2 = expected_hmac f) as Hstep.
  { intros n [g h] Hn Hm. cbn [poll_read FramesReader_read]. unfold mac_reader_of in *. cbn [fr_reader expected_hmac] in *.
    pose proof (gunzip_world (fun a => macs key body (aes_inner a))) as Hg.
    specialize (Hg (fun n a Hn' => aes_world (macs key body) (fun n m Hn => macs_poll key body n m Hn) n a) n g Hn Hm).
    by destruct (poll_read n g) as [p g']. }
  induction 1 as [f|n f f1 l f2 Hn Hp _ IH|n f a f1 l f2 Hn Hp _ IH]; intros Hm; [done|..].
  all: destruct (Hstep n f Hn Hm) as [Hm1 He1]; rewrite Hp in Hm1, He1; destruct (IH Hm1) as [? ->]; done.
Qed.

Lemma verify_hmac_spec key body (f : FramesReader R) :
  macs key body (mac_reader_of f) ->
  FramesReader_verify_hmac f =
    let found := hmac_sha256_mac (arr (mbk_hmac_key key)) body in
    if decide (expected_hmac f = found) then Ok tt else Err (HmacMismatch (expected_hmac f) found).
Proof.
  intros (Hw & He & l & -> & Hs). unfold FramesReader_verify_hmac, Aes256CbcReader_into_inner, run_local.
  fold (mac_reader_of f). pose proof (copy_law (mac_reader_of f) Hw) as Hc.
  destruct (copy_to_sink (mac_reader_of f)) as [[n|e|] m'] eqn:Hcopy; [|congruence|done].
  destruct Hc as (_ & _ & Hp). destruct (MacReader_polls _ _ _ Hp) as [_ Hs'].
  cbn [fmap outcome_fmap map_err mbind outcome_bind]. unfold MacReader_finalize. rewrite Hs', Hs, mac_update_app, hmac_one_shot.
  by rewrite to_array_id.
Qed.

(** What is opened for a body: a MAC to compare with and the reader of its plaintext. *)
Definition plaintext_of (key : MessageBackupKey) (body : bytes) : bytes * option IoError :=
  let '(z, e) := cbc_stream (mbk_aes_key key) (to_array 16 (take 16 body)) (drop 16 body) in gunzip z e.
Definition opened (key : MessageBackupKey) (body : bytes) (h : array 32) (f : FramesReader R) : Prop :=
  (16 <= length body)%nat /\ expected_hmac f = h /\ macs key body (mac_reader_of f) /\ rd_wf f /\
  (content f, ending f) = plaintext_of key body.

Lemma with_separate_hmac_spec key (t : Take R) h :
  rd_wf t -> ending t = None ->
  match with_separate_hmac key t h with
  | Ok f => opened key (content t) h f
  | Err e => (length (content t) < 16)%nat /\ e = Io UnexpectedEof
  | Panic => False
  end.
Proof.
  intros Hw He. unfold with_separate_hmac, run_local, AES_IV_SIZE.
  set (m := MacReader_new_sha256 t (arr (mbk_hmac_key key))).
  assert (rd_wf m /\ ending m = None /\ content m = content t) as (Hwm & Hem & Hcm) by done.
  pose proof (read_exact_law 16 m Hwm) as Hr. rewrite Hcm in Hr.
  destruct (read_exact 16 m) as [[iv|e|] m'] eqn:Hre; cbn [fmap outcome_fmap map_err mbind outcome_bind];
    [|destruct Hr as [? ->]; rewrite Hem; done|done].
  destruct Hr as (Hlen & -> & Hp).
  assert (macs key (content t) m) as Hm.
  { split_and!; [done|done|]. exists []. split; [done|]. by rewrite mac_update_nil. }
  pose proof (macs_polls _ _ _ _ _ Hm Hp) as Hm'. destruct (polls_content _ _ _ Hp Hwm) as (Hw' & Hc' & He').
  rewrite Hcm in Hc'. assert (content m' = drop 16 (content t)) as Hcm'.
  { rewrite Hc' at 1. rewrite drop_app_length'; [done|rewrite length_take; lia]. }
  rewrite Hem in He'. destruct (aes_new_stream (mbk_aes_key key) (to_array 16 (take 16 (content t))) m' Hw' He') as [Hwa Hca].
  destruct (gunzip_new_law _ Hwa) as (Hwg & Hcg & Hig). unfold opened. cbn [expected_hmac]. split_and!; try done.
  - unfold mac_reader_of. cbn [fr_reader]. by rewrite Hig.
  - unfold plaintext_of. rewrite Hcm' in Hca. rewrite <- Hca. exact Hcg.
Qed.

(** Where the encrypted part of a file starts. *)
Definition file_start (w : bytes) (start : nat) : Prop :=
  if decide (take 8 w = MAGIC_NUMBER)
  then exists rest, has_metadata (drop 8 w) rest /\ (8 <= start)%nat /\ rest = drop start w /\ (start <= length w)%nat
  else start = O.

Lemma read_start_spec (r : R) w :
  reading r w 0 ->
  match read_start r with
  | Ok (start, extra, r') => file_start w start /\ extra = (if decide (take 8 w = MAGIC_NUMBER) then [] else take 8 w) /\
      reading r' w (Nat.max start 8)
  | Err _ => (length w < 8)%nat \/ forall start, ~ file_start w start
  | Panic => False
  end.
Proof.
  intros Hr. unfold read_start, run_local, file_start. change (length MAGIC_NUMBER) with 8%nat.
  pose proof (reading_exact 8 _ _ _ Hr) as Hx. destruct (read_exact 8 r) as [[l|e|] r1];
    cbn [fmap outcome_fmap map_err mbind outcome_bind]; [|left; lia|done].
  destruct Hx as (Hlen & -> & Hr1). rewrite drop_0. cbn [Nat.add] in *. case_decide as Hm; [|done].
  destruct (reading_content _ _ _ Hr1) as [Hc1 _]. pose proof Hr1 as (Hw1 & He1 & _).
  pose proof (verify_metadata_spec r1 Hw1 He1) as Hv. rewrite Hc1 in Hv.
  destruct (verify_metadata r1) as [r'|e|]; cbn [mbind outcome_bind]; [| |done].
  - destruct Hv as (Hmd & l & Hp). destruct (reading_polls _ _ _ _ _ Hr1 Hp) as [Hr' _].
    destruct (reading_content _ _ _ Hr') as [Hc' Hle']. pose proof Hr' as (Hw' & _ & _ & Hat).
    rewrite (position_law r' Hw'), Hat. cbn [fmap outcome_fmap map_err mbind outcome_bind].
    split; [|split; [done|by rewrite Nat.max_l by lia]]. exists (drop (8 + length l) w). rewrite <- Hc'. split_and!; try done; lia.
  - right. intros start (rest & Hrest & _). by apply (Hv rest).
Qed.

(** When a file can be opened, and what comes of it. *)
Definition acceptable (key : MessageBackupKey) (w1 w2 : bytes) (start : nat) : Prop :=
  file_start w1 start /\ (Nat.max start 8 + 32 <= length w1)%nat /\
  arr (hmac_sha256_mac (arr (mbk_hmac_key key)) (slice start (length w1 - 32) w1)) = drop (length w1 - 32) w1 /\
  (16 <= length (slice start (length w1 - 32) w2))%nat.

Lemma file_start_unique w s1 s2 : file_start w s1 -> file_start w s2 -> s1 = s2.
Proof.
  unfold file_start. case_decide; [|congruence].
  intros (rest1 & (b1 & m1 & Hn1 & _) & _ & Hr1 & Hl1) (rest2 & (b2 & m2 & Hn2 & _) & _ & Hr2 & Hl2).
  assert (rest1 = rest2) as <- by congruence. rewrite Hr1 in Hr2. apply (f_equal length) in Hr2. rewrite !length_drop in Hr2. lia.
Qed.

Lemma FramesReader_new_spec {F} `{ReaderFactory F R} key (f f1 f2 : F) (r1 r2 : R) w1 w2 :
  make_reader f = (Ok r1, f1) -> make_reader f1 = (Ok r2, f2) -> reading r1 w1 0 -> reading r2 w2 0 ->
  match FramesReader_new key f with
  | (Ok fr, f') => f' = f2 /\ exists start h, acceptable key w1 w2 start /\ arr h = drop (length w1 - 32) w1 /\
      opened key (slice start (length w1 - 32) w2) h fr
  | (Err _, _) => forall start, ~ acceptable key w1 w2 start
  | (Panic, _) => False
  end.
Proof.
  intros Hf1 Hf2 Hr1 Hr2. unfold FramesReader_new, map_err_M. rewrite M_bind_eq, Hf1. cbn [map_err].
  pose proof (read_start_spec r1 w1 Hr1) as Hst. rewrite lift_bind.
  destruct (read_start r1) as [[[start extra] r1']|e|]; [| |done].
  2: { intros start (Hfs & Hlen & _). destruct Hst as [|Hn]; [lia|by apply (Hn start)]. }
  destruct Hst as (Hfs & Hex & Hr1').
  assert (extra ++ slice (Nat.max start 8) (length w1 - 32) w1 = slice start (length w1 - 32) w1 \/ (length w1 < Nat.max start 8 + 32)%nat) as Hmac.
  { destruct (decide (length w1 < Nat.max start 8 + 32)%nat); [by right|left]. unfold file_start in Hfs. rewrite Hex.
    case_decide as Hm; [destruct Hfs as (? & _ & Hge & _); by rewrite Nat.max_l by lia|]. subst start. cbn [Nat.max].
    by rewrite <- (slice_app 0 8) by lia. }
  rewrite lift_bind. pose proof (check_hmac_spec key extra r1' w1 _ Hr1') as Hc. cbn zeta in Hc.
  destruct (check_hmac key extra r1') as [[n h]|e|]; [| |done].
  - destruct Hc as (Hlen & Hn & Hh & Hhm). destruct Hmac as [Hmac|]; [|lia]. rewrite Hmac in Hhm.
    rewrite M_bind_eq, Hf2. cbn [map_err]. rewrite lift_bind. unfold run_local.
    destruct (reading_content _ _ _ Hr2) as [Hc2 _]. destruct Hr2 as (Hw2 & He2 & _ & _).
    pose proof (skip_law start r2 Hw2) as Hsk. rewrite Hc2, drop_0 in Hsk.
    destruct (skip start r2) as [[[]|e|] r2']; cbn [fmap outcome_fmap map_err]; [| |done].
    2: { intros start' (Hfs' & _ & _ & Hle). rewrite (file_start_unique w1 start' start Hfs' Hfs) in Hle.
         unfold slice in Hle. rewrite length_take, length_drop in Hle. lia. }
    destruct Hsk as (Hw2' & He2' & Hc2'). rewrite He2 in He2'.
    destruct (take_reading r2' _ n Hw2' He2' Hc2') as (Hwt & Hct & Het & _). unfold lift.
    assert (n = length w1 - 32 - start)%nat as ->.
    { rewrite Hn, Hex. unfold file_start in Hfs. case_decide; [destruct Hfs as (? & _ & ? & _); cbn; lia|].
      subst start. rewrite length_take. lia. }
    pose proof (with_separate_hmac_spec key (take_new r2' (length w1 - 32 - start)) h Hwt Het) as Hsep. rewrite Hct in Hsep.
    fold (slice start (length w1 - 32) w2) in Hsep.
    destruct (with_separate_hmac key _ h) as [fr|e|]; [| |done].
    + split; [done|]. exists start, h. split; [|by split]. split_and!; [done|done|by rewrite <- Hhm|apply Hsep].
    + intros start' (Hfs' & _ & _ & Hle). rewrite (file_start_unique w1 start' start Hfs' Hfs) in Hle. lia.
  - intros start' (Hfs' & Hl & Hh & _). rewrite (file_start_unique w1 start' start Hfs' Hfs) in *.
    destruct Hmac as [Hmac|]; [|lia]. rewrite Hmac in Hc.
    destruct e as [| | | |e1 e2]; try done; [lia|]. destruct Hc as (He1 & -> & Hne). apply Hne, array_eq. congruence.
Qed.

(** C17: opening a backup file succeeds exactly when the file starts with valid
    metadata or with anything but the magic number, holds the HMAC of all that
    follows the metadata in its last 32 bytes, and has room for the IV; what is
    opened is then the decompressed decryption of what the second reader of the
    file finds between the metadata and the MAC.  Nothing panics: neither the
    arithmetic on positions and lengths nor the assertion that the metadata was
    read without reading ahead. *)
Theorem backup_opens_exactly {F} `{ReaderFactory F R} key (f f1 f2 : F) (r1 r2 : R) w1 w2 :
  make_reader f = (Ok r1, f1) -> make_reader f1 = (Ok r2, f2) -> reading r1 w1 0 -> reading r2 w2 0 ->
  match FramesReader_new key f with
  | (Ok fr, _) => exists start, acceptable key w1 w2 start /\
      arr (expected_hmac fr) = drop (length w1 - 32) w1 /\
      (content fr, ending fr) = plaintext_of key (slice start (length w1 - 32) w2)
  | (Err _, _) => forall start, ~ acceptable key w1 w2 start
  | (Panic, _) => False
  end.
Proof.
  intros Hf1 Hf2 Hr1 Hr2. pose proof (FramesReader_new_spec key f f1 f2 r1 r2 w1 w2 Hf1 Hf2 Hr1 Hr2) as Hs.
  destruct (FramesReader_new key f) as [[fr|e|] f']; [|done|done].
  destruct Hs as (_ & start & h & Hacc & Hh & (_ & Hex & _ & _ & Hpt)). exists start. split_and!; try done. by rewrite Hex.
Qed.

(** C16: what is read from a backup file is authentic even if the file changes between
    the two times it is read.  If a file opens, some of its plaintext is read
    in any pieces, and the final check of the MAC then succeeds, then what was read
    is the start of the decompressed decryption of bytes with the HMAC that
    the first reader found at the end of the file: of the second reader's bytes,
    those that were decrypted. *)
Theorem backup_is_authentic {F} `{ReaderFactory F R} key (f f1 f2 : F) (r1 r2 : R) w1 w2 (fr fr' : FramesReader R) f' read :
  make_reader f = (Ok r1, f1) -> make_reader f1 = (Ok r2, f2) -> reading r1 w1 0 -> reading r2 w2 0 ->
  FramesReader_new key f = (Ok fr, f') -> polls fr read fr' -> FramesReader_verify_hmac fr' = Ok tt ->
  exists body rest, (plaintext_of key body).1 = read ++ rest /\
    arr (hmac_sha256_mac (arr (mbk_hmac_key key)) body) = drop (length w1 - 32) w1 /\
    exists start, body = slice start (length w1 - 32) w2.
Proof.
  intros Hf1 Hf2 Hr1 Hr2 Hnew Hp Hv. pose proof (FramesReader_new_spec key f f1 f2 r1 r2 w1 w2 Hf1 Hf2 Hr1 Hr2) as Hs.
  rewrite Hnew in Hs. destruct Hs as (_ & start & h & Hacc & Hh & (_ & Hex & Hm & Hw & Hpt)).
  destruct (frames_reader_macs _ _ _ _ _ Hp Hm) as [Hm' He']. rewrite (verify_hmac_spec _ _ _ Hm') in Hv.
  cbn zeta in Hv. destruct (decide _) as [Hd|]; [|done]. destruct (polls_content _ _ _ Hp Hw) as (_ & Hc & _).
  exists (slice start (length w1 - 32) w2), (content fr'). split_and!; [|by rewrite <- Hd, He', Hex, Hh|by exists start].
  rewrite <- Hpt. cbn [fst]. exact Hc.
Qed.
End frame.
