(* ===== verification/BackupReader.v ===== *)
(** * BackupReader: reading all frames of a backup with two threads
    (rust/message-backup/src/lib.rs)

    One thread reads frames and puts them in a channel of 20 places, the other
    takes, parses and adds them.  The steps of the threads are functions on their
    shared state and a schedule says in which order they are taken. *)

From S2P Require Import Prelude Types Primitives AccountKeys IncrementalMac AsyncIo BackupCipher BackupFrame.
Open Scope string_scope.
Open Scope list_scope.
Open Scope Z_scope.

(** [Purpose] (backup.rs). *)
Inductive Purpose := DeviceTransfer | RemoteBackup | TakeoutExport.
#[export] Instance Purpose_eq_dec : EqDecision Purpose.
Proof. solve_decision. Defined.

(** What reading a backup needs of its contents: [PartialBackup<M>] and the
    [CompletedBackup<M>] that it becomes. *)
Class BackupContents (B : Type) := {
  BackupInfo : Type;
  Frame : Type;
  FrameError : Type;
  CompletionError : Type;
  Completed : Type;
  PartialBackup_new : BackupInfo -> Purpose -> outcome FrameError B;
  add_frame : Frame -> M B FrameError ();
  try_complete : B -> outcome CompletionError Completed
}.

(** unknown.rs: the places of a message where fields are not known. *)
Class UnknownFields (A : Type) := { UnknownField : Type; collect_unknown_fields : A -> list UnknownField }.
Arguments UnknownField A {_}.

Section read.
Context {B : Type} {BC : BackupContents B}.
Context `{ProtobufParse BackupInfo} `{ProtobufParse Frame}.
Context (UF : Type) (unknown_info : BackupInfo -> list UF) (unknown_frame : Frame -> list UF).

Inductive Error :=
| BackupValidation (e : FrameError)
| BackupCompletion (e : CompletionError)
| Parse (e : IoError)
| NoFrames
| InvalidProtobuf
| HmacMismatchError (expected found : array 32).

(** [From<VerifyHmacError>]. *)
Definition Error_of_verify (e : VerifyHmacError) : Error :=
  match e with HmacMismatch x f => HmacMismatchError x f | VerifyIo e => Parse e end.

Record FoundUnknownField := mkFound { frame_index : nat; found : UF }.
Definition add_found_unknown (l : list FoundUnknownField) (fields : list UF) (index : nat) : list FoundUnknownField :=
  l ++ (mkFound index <$> fields).

Record ReadResult (A : Type) := mkReadResult { result : outcome Error A; found_unknown_fields : list FoundUnknownField }.
Arguments mkReadResult {A} _ _.
Arguments result {A} _.
Arguments found_unknown_fields {A} _.
Definition and_then {A C} (f : A -> outcome Error C) (r : ReadResult A) : ReadResult C :=
  mkReadResult (result r ≫= f) (found_unknown_fields r).

(** [PartialBackup::parse_and_add_frame]. *)
Definition parse_and_add_frame (raw_frame : bytes) : M B Error (list UF) :=
  frame ← lift (ok_or InvalidProtobuf (parse_from_bytes raw_frame));
  let unknown_fields := unknown_frame frame in
  _ ← map_err_M BackupValidation (add_frame frame);
  mret unknown_fields.
(** [PartialBackup::by_parsing]. *)
Definition by_parsing (raw : bytes) (purpose : Purpose) : outcome Error B :=
  info ← ok_or InvalidProtobuf (parse_from_bytes raw);
  map_err BackupValidation (PartialBackup_new info purpose).

Definition FRAMES_IN_FLIGHT : nat := 20.

(** ** The two threads *)

Context {R : Type} `{AsyncRead R, Progress R, VerifyHmac R} `{AsyncReadExt} `{Varint32}.

(** The thread that reads: at the head of its loop, trying to send a frame, and
    after the sender is dropped. *)
Inductive ReaderThread :=
| Reading (v : VarintDelimitedReader R)
| SendingFrame (v : VarintDelimitedReader R) (buf : bytes)
| Joining (v : VarintDelimitedReader R)
| Finished (r : outcome Error (B * list FoundUnknownField)).
(** The thread that processes frames. *)
Inductive ProcessingThread :=
| Processing (backup : B) (unknown_fields : list FoundUnknownField) (frame_index : nat)
| Returned (r : outcome Error (B * list FoundUnknownField)).
Record Threads := mkThreads { reader_thread : ReaderThread; channel : list bytes; processing_thread : ProcessingThread }.

(** The end of [read_all_frames], after the other thread was joined. *)
Definition after_join (v : VarintDelimitedReader R) (r : outcome Error (B * list FoundUnknownField))
  : outcome Error (B * list FoundUnknownField) :=
  '(backup, inner_unknown_fields) ← r;
  r ← VarintDelimitedReader_into_inner v;
  _ ← map_err Error_of_verify (verify_hmac r);
  Ok (backup, inner_unknown_fields).

Definition reader_step (s : Threads) : Threads :=
  match reader_thread s with
  | Reading v =>
      match read_next v with
      | (Ok (Some buf), v) => mkThreads (SendingFrame v buf) (channel s) (processing_thread s)
      | (Ok None, v) => mkThreads (Joining v) (channel s) (processing_thread s)
      | (Err e, _) => mkThreads (Finished (Err (Parse e))) (channel s) (processing_thread s)
      | (Panic, _) => mkThreads (Finished Panic) (channel s) (processing_thread s)
      end
  | SendingFrame v buf =>
      (* [try_send] *)
      match processing_thread s with
      | Returned _ => mkThreads (Joining v) (channel s) (processing_thread s)
      | Processing _ _ _ =>
          if (length (channel s) <? FRAMES_IN_FLIGHT)%nat
          then mkThreads (Reading v) (channel s ++ [buf]) (processing_thread s)
          else s
      end
  | Joining v =>
      match processing_thread s with
      | Returned r => mkThreads (Finished (after_join v r)) (channel s) (processing_thread s)
      | Processing _ _ _ => s
      end
  | Finished _ => s
  end.

Definition sender_dropped (r : ReaderThread) : bool := match r with Joining _ | Finished _ => true | _ => false end.

Definition processing_step (s : Threads) : Threads :=
  match processing_thread s with
  | Returned _ => s
  | Processing backup unknown_fields index =>
      (* [try_recv] *)
      match channel s with
      | frame :: rest =>
          mkThreads (reader_thread s) rest
            match parse_and_add_frame frame backup with
            | (Ok these, backup) => Processing backup (add_found_unknown unknown_fields these index) (S index)
            | (Err e, _) => Returned (Err e)
            | (Panic, _) => Returned Panic
            end
      | [] => if sender_dropped (reader_thread s)
              then mkThreads (reader_thread s) [] (Returned (Ok (backup, unknown_fields)))
              else s
      end
  end.

Inductive Thread := TReader | TProcessing.
Definition step (t : Thread) : Threads -> Threads := match t with TReader => reader_step | TProcessing => processing_step end.
Definition run (schedule : list Thread) (s : Threads) : Threads := foldl (fun s t => step t s) s schedule.

(** ** Reading a backup *)

(** [read_all_frames]; [None] when the schedule ends before the threads. *)
Definition read_all_frames (schedule : list Thread) (purpose : Purpose) (v : VarintDelimitedReader R) : option (ReadResult B) :=
  match
    ('(first, v) ← map_err Parse (run_local v read_next);
     first ← ok_or NoFrames first;
     info ← ok_or InvalidProtobuf (parse_from_bytes first);
     Ok (info, v))
  with
  | Ok (info, v) =>
      let unknown := add_found_unknown [] (unknown_info info) 0 in
      match map_err BackupValidation (PartialBackup_new info purpose) with
      | Ok backup =>
          match reader_thread (run schedule (mkThreads (Reading v) [] (Processing backup [] 1))) with
          | Finished (Ok (backup, inner)) => Some (mkReadResult (Ok backup) (unknown ++ inner))
          | Finished (Err e) => Some (mkReadResult (Err e) unknown)
          | Finished Panic => Some (mkReadResult Panic unknown)
          | _ => None
          end
      | Err e => Some (mkReadResult (Err e) unknown)
      | Panic => Some (mkReadResult Panic unknown)
      end
  | Err e => Some (mkReadResult (Err e) [])
  | Panic => Some (mkReadResult Panic [])
  end.

(** [BackupReader]. *)
Record BackupReader := mkBackupReader { br_purpose : Purpose; br_reader : VarintDelimitedReader R }.
Definition collect_all (schedule : list Thread) (b : BackupReader) : option (ReadResult B) :=
  read_all_frames schedule (br_purpose b) (br_reader b).
Definition read_all (schedule : list Thread) (b : BackupReader) : option (ReadResult Completed) :=
  and_then (fun r => map_err BackupCompletion (try_complete r)) <$> collect_all schedule b.
Definition validate_all (schedule : list Thread) (b : BackupReader) : option (ReadResult ()) :=
  and_then (fun r => _ ← map_err BackupCompletion (try_complete r); Ok tt) <$> collect_all schedule b.
End read.
Arguments mkBackupReader {R} _ _.
Arguments br_purpose {R} _.
Arguments br_reader {R} _.

(** [BackupReader::new_unencrypted] and [new_encrypted_compressed]. *)
Definition new_unencrypted {R} (r : R) (purpose : Purpose) : BackupReader (R := UnvalidatedHmacReader R) :=
  mkBackupReader purpose (VarintDelimitedReader_new (mkUnvalidated r)).

Section encrypted.
Context {P : Primitives} `{AsyncReadExt} `{Adaptors} `{Gunzips} `{Varint32} `{ProtobufParse MetadataPb}
  `{HmacSha256} `{CbcDecryptor} `{IntoAsyncReads}.
Context {F R : Type} `{AsyncRead R, Progress R, AsyncSkip R} `{!ReaderFactory F R}.
Definition new_encrypted_compressed (key : MessageBackupKey) (purpose : Purpose)
  : M F ValidationError (BackupReader (R := FramesReader R)) :=
  r ← FramesReader_new key;
  mret (mkBackupReader purpose (VarintDelimitedReader_new r)).
#[export] Instance FramesReader_verify : VerifyHmac (FramesReader R) := { verify_hmac := FramesReader_verify_hmac }.
End encrypted.
