(* ===== verification/BackupReaderSpec.v ===== *)
(** * BackupReaderSpec: the threads that read a backup

    Any schedule gives what reading and processing one after the other gives, and
    every fair schedule comes to an end. *)

From S2P Require Import Prelude Types Primitives AccountKeys IncrementalMac AsyncIo BackupCipher BackupFrame BackupReader.
Open Scope string_scope.
Open Scope list_scope.
Open Scope Z_scope.

Section threads.
Context {B : Type} {BC : BackupContents B}.
Context `{ProtobufParse BackupInfo} {PF : ProtobufParse Frame}.
Context (UF : Type) (unknown_info : BackupInfo -> list UF) (unknown_frame : Frame -> list UF).
Context {R : Type} `{AsyncRead R, Progress R, VerifyHmac R} `{AsyncReadExt} `{Varint32}.

Abbreviation Threads := (Threads UF (B:=B) (R:=R)).
Abbreviation reader_step := (reader_step UF (B:=B) (R:=R)).
Abbreviation processing_step := (processing_step UF unknown_frame (B:=B) (R:=R)).
Abbreviation step := (step UF unknown_frame (B:=B) (R:=R)).
Abbreviation run := (run UF unknown_frame (B:=B) (R:=R)).

(** ** The reference: first read everything, then process everything *)

(** The frames that a reader gives, how it ends, and what is then left of it. *)
Inductive reads : VarintDelimitedReader R -> list bytes -> outcome IoError () -> VarintDelimitedReader R -> Prop :=
| reads_end v v' : read_next v = (Ok None, v') -> reads v [] (Ok tt) v'
| reads_error v e v' : read_next v = (Err e, v') -> reads v [] (Err e) v'
| reads_panic v v' : read_next v = (Panic, v') -> reads v [] Panic v'
| reads_more v m v1 l o v' : read_next v = (Ok (Some m), v1) -> reads v1 l o v' -> reads v (m :: l) o v'.

Fixpoint process (frames : list bytes) (b : B) (unknown : list (FoundUnknownField UF)) (index : nat)
  : outcome Error (B * list (FoundUnknownField UF)) :=
  match frames with
  | [] => Ok (b, unknown)
  | f :: frames =>
      match parse_and_add_frame UF unknown_frame f b with
      | (Ok these, b) => process frames b (add_found_unknown UF unknown these index) (S index)
      | (Err e, _) => Err e
      | (Panic, _) => Panic
      end
  end.

Definition read_failure (o : outcome IoError ()) : outcome Error (B * list (FoundUnknownField UF)) :=
  match o with Err e => Err (Parse e) | _ => Panic end.

(** The results that the reference allows.  When a frame is invalid and
    reading fails later, either error may be reported. *)
Definition allowed (frames : list bytes) (o : outcome IoError ()) (v' : VarintDelimitedReader R) (b : B)
  (r : outcome Error (B * list (FoundUnknownField UF))) : Prop :=
  match process frames b [] 1, o with
  | Ok x, Ok _ => r = after_join UF v' (Ok x)
  | Ok _, o => r = read_failure o
  | p, Ok _ => r = p
  | p, o => r = p \/ r = read_failure o
  end.

Lemma allowed_unique frames o v' b r1 r2 :
  o = Ok tt \/ (exists x, process frames b [] 1 = Ok x) -> allowed frames o v' b r1 -> allowed frames o v' b r2 -> r1 = r2.
Proof.
  unfold allowed. intros [->|[x ->]]; [|by destruct o; intros -> ->]. by destruct (process frames b [] 1); intros -> ->.
Qed.

Lemma process_app f1 f2 b u i :
  process (f1 ++ f2) b u i =
    match process f1 b u i with Ok (b, u) => process f2 b u (length f1 + i)%nat | r => r end.
Proof.
  revert b u i. induction f1 as [|f f1 IH]; intros b u i; [done|]. cbn [app process length].
  destruct (parse_and_add_frame UF unknown_frame f b) as [[these|e|] b']; [|done|done]. rewrite IH.
  destruct (process f1 b' _ (S i)) as [[b2 u2]|e|]; [|done|done]. f_equal. lia.
Qed.

Section one_reader.
Context (frames : list bytes) (o : outcome IoError ()) (vend : VarintDelimitedReader R) (b0 : B).
Let P := process frames b0 [] 1.

(** What the reading thread still has to do. *)
Definition reader_inv (rest : list bytes) (t : ReaderThread UF (B:=B) (R:=R)) : Prop :=
  match t with
  | Reading _ v => reads v rest o vend
  | SendingFrame _ v buf => exists rest', rest = buf :: rest' /\ reads v rest' o vend
  | Joining _ v => rest = [] /\ o = Ok tt /\ v = vend
  | Finished _ r => rest = [] /\ (forall u, o <> Ok u) /\ r = read_failure o
  end.
Definition reader_work (rest : list bytes) (t : ReaderThread UF (B:=B) (R:=R)) : nat :=
  match t with
  | Reading _ _ => 2 * length rest + 2
  | SendingFrame _ _ _ => 2 * length rest + 1
  | Joining _ _ => 1
  | Finished _ _ => 0
  end.

(** The invariant, with a bound [m] on the steps that change the state. *)
Definition inv (s : Threads) (m : nat) : Prop :=
  match processing_thread UF s with
  | Processing _ b u i => exists done rest,
      process done b0 [] 1 = Ok (b, u) /\ i = (length done + 1)%nat /\ frames = done ++ channel UF s ++ rest /\
      reader_inv rest (reader_thread UF s) /\
      m = (reader_work rest (reader_thread UF s) + (length (channel UF s) + length rest + 1))%nat
  | Returned _ r =>
      match reader_thread UF s with
      | Finished _ r' => allowed frames o vend b0 r' /\ m = O
      | t => r = P /\ exists rest, m = reader_work rest t /\
          match P with
          | Ok _ => reader_inv rest t /\ exists v, t = Joining _ v
          | _ => reader_inv rest t \/ exists v, t = Joining _ v
          end
      end
  end.

Lemma allowed_read_failure : (forall u, o <> Ok u) -> allowed frames o vend b0 (read_failure o).
Proof.
  intros Ho. unfold allowed. destruct o as [u|e|]; [by destruct (Ho u)| |]; destruct (process frames b0 [] 1); try done; by right.
Qed.

Lemma reads_inv v rest : reads v rest o vend ->
  match read_next v with
  | (Ok (Some f), v') => exists rest', rest = f :: rest' /\ reads v' rest' o vend
  | (Ok None, v') => rest = [] /\ o = Ok tt /\ v' = vend
  | (Err e, _) => rest = [] /\ o = Err e
  | (Panic, _) => rest = [] /\ o = Panic
  end.
Proof. intros Hr. inversion Hr as [? ? Hn|? ? ? Hn|? ? Hn|? ? ? ? ? ? Hn Hr']; subst; rewrite Hn; eauto. Qed.

(** A step of the reading thread alone. *)
Definition read_step (v : VarintDelimitedReader R) : ReaderThread UF (B:=B) (R:=R) :=
  match read_next v with
  | (Ok (Some buf), v) => SendingFrame UF v buf
  | (Ok None, v) => Joining UF v
  | (Err e, _) => Finished UF (Err (Parse e))
  | (Panic, _) => Finished UF Panic
  end.
Lemma read_step_inv v rest : reads v rest o vend ->
  reader_inv rest (read_step v) /\ (reader_work rest (read_step v) < 2 * length rest + 2)%nat.
Proof.
  intros Hr%reads_inv. unfold read_step. destruct (read_next v) as [[[f|]|e|] v']; cbn [reader_inv reader_work].
  - destruct Hr as (rest' & -> & Hr). split; [eauto|cbn [length]; lia].
  - destruct Hr as (-> & -> & ->). split; [done|cbn; lia].
  - destruct Hr as (-> & Ho). split; [by rewrite Ho|cbn; lia].
  - destruct Hr as (-> & Ho). split; [by rewrite Ho|cbn; lia].
Qed.
Lemma reader_step_reading v c p :
  reader_step (mkThreads UF (Reading UF v) c p) = mkThreads UF (read_step v) c p.
Proof. cbn. unfold read_step. by destruct (read_next v) as [[[f|]|e|] v']. Qed.

Lemma reader_step_inv s m : inv s m -> reader_step s = s \/ exists m', (m' < m)%nat /\ inv (reader_step s) m'.
Proof.
  destruct s as [[v|v buf|v|r'] c [b u i|r]]; unfold inv; cbn [processing_thread reader_thread channel].
  - rewrite reader_step_reading. intros (done & rest & Hp & Hi & Hf & Hr & ->). right. destruct (read_step_inv v rest Hr) as [Hr' Hw].
    eexists. split; [|exists done, rest; split_and!; [exact Hp|exact Hi|exact Hf|exact Hr'|reflexivity]].
    cbn [reader_work reader_thread channel]. lia.
  - rewrite reader_step_reading. intros (Hr & rest & -> & HP). right.
    assert ((forall x, P <> Ok x) /\ reads v rest o vend) as [HPn Hrd].
    { clearbody P. destruct P; [by destruct HP as [_ [? ?]]| |]; (destruct HP as [HP|[? ?]]; [by split|done]). }
    destruct (read_step_inv v rest Hrd) as [Hr' Hw]. cbn [channel processing_thread reader_thread].
    destruct (read_step v) as [v'|v' buf|v'|r'] eqn:Hs.
    4: { destruct Hr' as (_ & Hn & ->). exists O. split; [cbn; lia|]. split; [by apply allowed_read_failure|done]. }
    all: eexists; (split; [|split; [done|exists rest; split; [reflexivity|]]]); [cbn [reader_work] in *; lia|].
    all: clearbody P; destruct P; [by destruct (HPn a)|by left|by left].
  - intros (done & rest & Hp & Hi & Hf & (rest' & -> & Hr) & ->). cbn [reader_step BackupReader.reader_step reader_thread processing_thread channel].
    unfold BackupReader.reader_step. cbn [reader_thread processing_thread channel].
    destruct (length c <? FRAMES_IN_FLIGHT)%nat; [right|by left].
    eexists. split; [|exists done, rest'; cbn [processing_thread reader_thread channel]; split_and!; [exact Hp|exact Hi| |exact Hr|reflexivity]].
    + cbn [reader_work length reader_thread channel]. rewrite length_app. cbn [length]. lia.
    + by rewrite Hf, <- app_assoc.
  - intros (Hr & rest & -> & HP). right. unfold BackupReader.reader_step. cbn [reader_thread processing_thread channel].
    assert ((forall x, P <> Ok x) /\ (0 < length rest)%nat) as [HPn Hlen].
    { clearbody P. destruct P; [by destruct HP as [_ [? ?]]| |]; (destruct HP as [(? & -> & _)|[? ?]]; [cbn; split; [done|lia]|done]). }
    exists 1%nat. split; [cbn [reader_work]; lia|]. split; [done|]. exists [].
    split; [done|]. clearbody P. destruct P; [by destruct (HPn a)|right; by eexists|right; by eexists].
  - intros Hv. by left.
  - intros (Hr & rest & -> & HP). right. unfold BackupReader.reader_step. cbn [reader_thread processing_thread channel].
    exists O. split; [cbn; lia|]. split; [|done]. unfold allowed. fold P. rewrite Hr.
    clearbody P. destruct P as [x|e|]; [destruct HP as [(_ & -> & ->) _]; done| |]; destruct o; try done; by left.
  - intros Hv. by left.
  - intros Hv. by left.
Qed.

Lemma finished_returned s c p u :
  inv (mkThreads UF (Finished UF s) c p) u -> forall c' r, inv (mkThreads UF (Finished UF s) c' (Returned UF r)) 0.
Proof.
  unfold inv. cbn [processing_thread reader_thread channel]. destruct p as [b uf i|r0].
  - intros (done & rest & _ & _ & _ & (_ & Ho & ->) & _) c' r. split; [by apply allowed_read_failure|done].
  - intros [Ha _] c' r. done.
Qed.

Lemma failed_inv done f c rest b u t r :
  process done b0 [] 1 = Ok (b, u) -> frames = done ++ (f :: c) ++ rest -> reader_inv rest t ->
  (forall x, r <> Ok x) -> process [f] b u (length done + 1) = r ->
  exists m', (m' < reader_work rest t + (length (f :: c) + length rest + 1))%nat /\
    inv (mkThreads UF t c (Returned UF r)) m'.
Proof.
  intros Hp Hf Hr Hn Hx. assert (P = r) as HP.
  { unfold P. rewrite Hf, process_app, Hp. cbn [app]. change (f :: c ++ rest) with ([f] ++ c ++ rest).
    rewrite process_app, Hx. destruct r; [by destruct (Hn a)|done|done]. }
  destruct t as [v|v buf|v|r'].
  4: { destruct Hr as (_ & Ho & ->). exists O. split; [cbn; lia|]. split; [by apply allowed_read_failure|done]. }
  all: eexists; (split; [|split; [by rewrite HP|exists rest; split; [reflexivity|]]]); [cbn [reader_work length]; lia|].
  all: cbn [reader_thread]; rewrite HP; destruct r; [by destruct (Hn a)|by left|by left].
Qed.

Lemma processing_step_inv s m : inv s m -> processing_step s = s \/ exists m', (m' < m)%nat /\ inv (processing_step s) m'.
Proof.
  destruct s as [t c [b u i|r]]; [|by left]. intros Hinv. unfold BackupReader.processing_step. cbn [reader_thread processing_thread channel].
  pose proof Hinv as (done & rest & Hp & -> & Hf & Hr & ->). cbn [reader_thread processing_thread channel] in *.
  destruct c as [|f c].
  - destruct (sender_dropped UF t) eqn:Hs; [right|by left]. destruct t as [v|v buf|v|r']; try done.
    + destruct Hr as (-> & Ho & ->). rewrite !app_nil_r in Hf. exists 1%nat. split; [cbn; lia|]. unfold inv. cbn [reader_thread processing_thread channel].
      unfold P. rewrite Hf, Hp. split; [done|]. exists []. split; [done|]. split; [done|by eexists].
    + exists O. split; [cbn; lia|]. eapply finished_returned, Hinv.
  - right. destruct (parse_and_add_frame UF unknown_frame f b) as [[these|e|] b'] eqn:Ha.
    + eexists. split; [|exists (done ++ [f]), rest; cbn [reader_thread processing_thread channel]; split_and!; [| | |exact Hr|reflexivity]].
      * cbn [reader_thread channel length]. lia.
      * rewrite process_app, Hp. cbn [process]. by rewrite Ha.
      * rewrite length_app. cbn. lia.
      * by rewrite Hf, <- app_assoc.
    + apply (failed_inv done f c rest b u); [done|done|done|done|]. cbn [process]. by rewrite Ha.
    + apply (failed_inv done f c rest b u); [done|done|done|done|]. cbn [process]. by rewrite Ha.
Qed.

Definition start (v : VarintDelimitedReader R) : Threads := mkThreads UF (Reading UF v) [] (Processing UF b0 [] 1).

Lemma inv_start v : reads v frames o vend -> inv (start v) (3 * length frames + 3).
Proof.
  intros Hr. unfold inv, start. cbn [reader_thread processing_thread channel]. exists [], frames.
  split_and!; try done. cbn [reader_work length]. lia.
Qed.

Lemma step_inv t s m : inv s m -> step t s = s \/ exists m', (m' < m)%nat /\ inv (step t s) m'.
Proof. destruct t; [apply reader_step_inv|apply processing_step_inv]. Qed.

Lemma run_inv schedule s m : inv s m ->
  exists m', (m' <= m)%nat /\ inv (run schedule s) m' /\ (m' = m -> forall t, t ∈ schedule -> step t s = s).
Proof.
  revert s m. induction schedule as [|t schedule IH]; intros s m Hi.
  { exists m. split_and!; [done|done|]. by intros _ t Ht%elem_of_nil. }
  unfold BackupReader.run. cbn [foldl]. destruct (step_inv t s m Hi) as [He|(m1 & Hlt & Hi1)].
  - rewrite He. destruct (IH s m Hi) as (m' & Hle & Hi' & Hst). exists m'. split_and!; [done|done|].
    intros Hm t' [->|Ht]%elem_of_cons; [done|by apply Hst].
  - destruct (IH _ m1 Hi1) as (m' & Hle & Hi' & _). exists m'. split_and!; [lia|done|lia].
Qed.

(** When no thread can move, the reader has finished. *)
Lemma stuck_finished s m :
  inv s m -> reader_step s = s -> processing_step s = s -> exists r, reader_thread UF s = Finished UF r.
Proof.
  destruct s as [[v|v buf|v|r'] c p]; [| | |by eexists]; intros Hi Hr Hp.
  - rewrite reader_step_reading in Hr. injection Hr as Hr. exfalso. unfold read_step in Hr.
    by destruct (read_next v) as [[[f|]|e|] v'].
  - exfalso. destruct p as [b u i|r]; [|done]. unfold BackupReader.reader_step, BackupReader.processing_step in *.
    cbn [reader_thread processing_thread channel] in *. destruct (Nat.ltb_spec (length c) FRAMES_IN_FLIGHT); [done|].
    destruct c as [|f c]; [cbn in *; unfold FRAMES_IN_FLIGHT in *; lia|]. injection Hp as Hc _.
    apply (f_equal length) in Hc. cbn in Hc. lia.
  - exfalso. destruct p as [b u i|r]; [|done]. unfold BackupReader.processing_step in Hp.
    cbn [reader_thread processing_thread channel] in *. destruct c as [|f c]; [done|].
    injection Hp as Hc _. apply (f_equal length) in Hc. cbn in Hc. lia.
Qed.

Lemma finished_stays schedule s r : reader_thread UF s = Finished UF r -> reader_thread UF (run schedule s) = Finished UF r.
Proof.
  revert s. induction schedule as [|t schedule IH]; intros s Hs; [done|]. unfold BackupReader.run. cbn [foldl].
  apply IH. destruct t; cbn [BackupReader.step].
  - unfold BackupReader.reader_step. by rewrite Hs.
  - unfold BackupReader.processing_step. destruct (processing_thread UF s); [|done].
    rewrite Hs. destruct (channel UF s); done.
Qed.

(** A round of a schedule in which each thread has a turn. *)
Definition fair_round (round : list Thread) : Prop := TReader ∈ round /\ TProcessing ∈ round.

Lemma run_fair rounds s m :
  Forall fair_round rounds -> inv s m -> (m < length rounds)%nat ->
  exists r, reader_thread UF (run (concat rounds) s) = Finished UF r.
Proof.
  intros Hf. revert s m. induction Hf as [|round rounds [Ht1 Ht2] _ IH]; intros s m Hi Hm; [cbn in Hm; lia|].
  cbn [concat length] in *. unfold BackupReader.run. rewrite foldl_app. fold (run round s).
  destruct (run_inv round s m Hi) as (m' & Hle & Hi' & Hst).
  destruct (decide (m' = m)) as [->|].
  - destruct (stuck_finished s m Hi (Hst eq_refl _ Ht1) (Hst eq_refl _ Ht2)) as [r Hr].
    exists r. by apply finished_stays, finished_stays.
  - apply (IH _ m' Hi'). lia.
Qed.

Lemma finished_allowed s m r : inv s m -> reader_thread UF s = Finished UF r -> allowed frames o vend b0 r.
Proof.
  unfold inv. intros Hi Hr. rewrite Hr in Hi. destruct (processing_thread UF s) as [b u i|r0]; [|by destruct Hi].
  destruct Hi as (? & ? & _ & _ & _ & (_ & Ho & ->) & _). by apply allowed_read_failure.
Qed.
End one_reader.

Lemma threads_result schedule frames o v vend b0 r :
  reads v frames o vend -> reader_thread UF (run schedule (start b0 v)) = Finished UF r -> allowed frames o vend b0 r.
Proof.
  intros Hr Hf. destruct (run_inv frames o vend b0 schedule _ _ (inv_start frames o vend b0 v Hr)) as (m' & _ & Hi & _).
  by eapply finished_allowed.
Qed.

Lemma threads_finish rounds frames o v vend b0 :
  reads v frames o vend -> Forall fair_round rounds -> (3 * length frames + 3 < length rounds)%nat ->
  exists r, reader_thread UF (run (concat rounds) (start b0 v)) = Finished UF r /\ allowed frames o vend b0 r.
Proof.
  intros Hr Hf Hl. destruct (run_fair frames o vend b0 rounds _ _ Hf (inv_start frames o vend b0 v Hr) Hl) as [r Hfin].
  exists r. split; [done|]. by eapply threads_result.
Qed.
End threads.

(** ** The frames in some bytes *)

Inductive frames_of `{Varint32} : bytes -> list bytes -> outcome IoError () -> Prop :=
| frames_end c : next_frame c = Ok None -> frames_of c [] (Ok tt)
| frames_error c e : next_frame c = Err e -> frames_of c [] (Err e)
| frames_more c m rest l o : next_frame c = Ok (Some (m, rest)) -> frames_of rest l o -> frames_of c (m :: l) o.

(** A length and the bytes of a message. *)
Definition delimited `{Varint32} (m : bytes) : bytes := write_raw_varint32 (Z.of_nat (length m)) ++ m.

Section frames.
Context `{VL : Varint32Laws}.

Lemma next_frame_delimited m rest : is_u32 (Z.of_nat (length m)) -> next_frame (delimited m ++ rest) = Ok (Some (m, rest)).
Proof.
  intros Hm. unfold next_frame, delimited. pose proof (varint_write_length _ Hm) as Hl.
  set (e := write_raw_varint32 (Z.of_nat (length m))) in *. rewrite <- app_assoc.
  rewrite take_app_ge by (unfold VARINT_MAX_LENGTH; lia). rewrite length_app.
  destruct (Nat.eqb_spec (length e + length (take (VARINT_MAX_LENGTH - length e) (m ++ rest))) 0); [lia|].
  pose proof (varint_read_write _ (take (VARINT_MAX_LENGTH - length e) (m ++ rest)) Hm) as Hrw. fold e in Hrw. rewrite Hrw. cbn [mbind outcome_bind]. rewrite drop_app_length, Nat2Z.id, length_app.
  destruct (Nat.ltb_spec (length m + length rest) (length m)); [lia|]. by rewrite take_app_length, drop_app_length.
Qed.

Lemma frames_of_concat (l : list bytes) :
  Forall (fun m => is_u32 (Z.of_nat (length m))) l -> frames_of (concat (delimited <$> l)) l (Ok tt).
Proof.
  induction 1 as [|m l Hm _ IH]; [by apply frames_end|]. cbn [fmap list_fmap concat].
  eapply frames_more; [by apply next_frame_delimited|done].
Qed.

Lemma next_frame_shorter c m rest : next_frame c = Ok (Some (m, rest)) -> (length rest < length c)%nat.
Proof.
  unfold next_frame. destruct (length (take VARINT_MAX_LENGTH c) =? 0)%nat eqn:Hz; [done|].
  pose proof (varint_read_range (take VARINT_MAX_LENGTH c)) as Hr.
  destruct (read_raw_varint32 (take VARINT_MAX_LENGTH c)) as [[n pos]|e|]; cbn [mbind outcome_bind]; [|done|done].
  destruct Hr as [_ Hpos]. rewrite length_take in Hpos. destruct (_ <? _)%nat; [done|]. intros [= _ <-]. rewrite !length_drop. lia.
Qed.

(** Any bytes are some frames and then the end or an error. *)
Lemma frames_of_total c : exists l o, frames_of c l o.
Proof.
  induction c as [c IH] using (induction_ltof1 _ (@length byte)).
  destruct (next_frame c) as [[[m rest]|]|e|] eqn:Hn.
  - destruct (IH rest (next_frame_shorter _ _ _ Hn)) as (l & o & Hl). exists (m :: l), o. by eapply frames_more.
  - exists [], (Ok tt). by apply frames_end.
  - exists [], (Err e). by apply frames_error.
  - exfalso. unfold next_frame in Hn. destruct (length (take VARINT_MAX_LENGTH c) =? 0)%nat; [done|].
    pose proof (varint_read_range (take VARINT_MAX_LENGTH c)) as Hr.
    destruct (read_raw_varint32 (take VARINT_MAX_LENGTH c)) as [[n pos]|e|]; cbn [mbind outcome_bind] in Hn; [|done|done].
    by destruct (_ <? _)%nat.
Qed.

Context {R : Type} `{RL : ReaderLaws R} `{EL : AsyncReadExtLaws}.

Lemma reads_content (v : VarintDelimitedReader R) l o :
  frames_of (vd_content v) l o -> vd_wf v ->
  exists vend, reads v l o vend /\
    (o = Ok tt -> buffer vend = [] /\ content (vd_reader vend) = [] /\ exists b, polls (vd_reader v) b (vd_reader vend)).
Proof.
  intros Hf. remember (vd_content v) as c eqn:Hc. revert v Hc.
  induction Hf as [c Hn|c e Hn|c m rest l o Hn _ IH]; intros v -> Hv; pose proof (read_next_spec v Hv) as Hr;
    destruct (read_next v) as [[[m'|]|e'|] v'] eqn:Hrn; try done.
  - destruct Hr as [Hr _]. congruence.
  - destruct Hr as (Hc & Hb & _ & Hc' & Hp). exists v'. split; [by apply reads_end|]. intros _.
    unfold vd_content in Hc'. rewrite Hb in Hc'. done.
  - congruence.
  - destruct Hr as [Hr _]. congruence.
  - destruct Hr as [Hr _]. rewrite Hr in Hn. done.
  - exists v'. split; [|done]. rewrite Hr in Hn. injection Hn as ->. by eapply reads_error.
  - destruct Hr as (Hr & Hv' & _ & b1 & Hp1). rewrite Hr in Hn. injection Hn as -> Hrest.
    destruct (IH v' (eq_sym Hrest) Hv') as (vend & Hreads & Hend). exists vend. split; [by eapply reads_more|].
    intros Ho. destruct (Hend Ho) as (? & ? & b2 & Hp2). split_and!; try done. exists (b1 ++ b2). by eapply polls_trans.
  - destruct Hr as [Hr _]. rewrite Hr in Hn. done.
  - congruence.
Qed.
End frames.

(** ** Whole backups *)

Section backups.
Context {B : Type} {BC : BackupContents B}.
Context {PI : ProtobufParse BackupInfo} {PF : ProtobufParse Frame}.
Context (UF : Type) (unknown_info : BackupInfo -> list UF) (unknown_frame : Frame -> list UF).
Context `{VL : Varint32Laws} `{EL : AsyncReadExtLaws}.

Abbreviation read_all_frames := (read_all_frames UF unknown_info unknown_frame (B := B)).
Abbreviation process := (process UF unknown_frame (B := B)).
Abbreviation allowed := (allowed UF unknown_frame (B := B)).

Lemma read_all_frames_run {R} `{RL : ReaderLaws R} {VH : VerifyHmac R} purpose (v : VarintDelimitedReader R) first c info b0 :
  vd_wf v -> next_frame (vd_content v) = Ok (Some (first, c)) ->
  parse_from_bytes first = Some info -> PartialBackup_new info purpose = Ok b0 ->
  exists v1, vd_wf v1 /\ vd_content v1 = c /\ (exists l, polls (vd_reader v) l (vd_reader v1)) /\
    forall schedule, read_all_frames schedule purpose v =
      let unknown := add_found_unknown UF [] (unknown_info info) 0 in
      match reader_thread UF (run UF unknown_frame schedule (start UF b0 v1)) with
      | Finished _ (Ok (backup, inner)) => Some (mkReadResult UF B (Ok backup) (unknown ++ inner))
      | Finished _ (Err e) => Some (mkReadResult UF B (Err e) unknown)
      | Finished _ Panic => Some (mkReadResult UF B Panic unknown)
      | _ => None
      end.
Proof.
  intros Hv Hn Hp Hnew. pose proof (read_next_spec v Hv) as Hr. unfold BackupReader.read_all_frames, run_local.
  destruct (read_next v) as [[[m|]|e|] v1].
  - destruct Hr as (Hr & Hv1 & _ & Hpolls). rewrite Hn in Hr. injection Hr as <- ->. exists v1. split_and!; [done..|]. intros schedule.
    cbn [fmap outcome_fmap map_err mbind outcome_bind ok_or]. rewrite Hp. cbn [mbind outcome_bind ok_or]. by rewrite Hnew.
  - destruct Hr as (Hc & _). rewrite Hc in Hn. done.
  - congruence.
  - done.
Qed.

(** C12: whatever the order in which the two threads run, reading a backup gives what
    reading all frames first and then adding them in order gives: the same
    backup, the same unknown fields with the same frame numbers, the same error;
    only when a frame is invalid and reading fails after it can either of these two errors be
    reported.  So any two schedules give the same result if all frames are valid or
    reading does not fail.  And in every schedule in which both threads keep having turns, the
    threads finish: none waits forever for a place in the channel, a frame, or the
    other thread. *)
Theorem every_schedule_reads {R} `{RL : ReaderLaws R} {VH : VerifyHmac R} purpose (v : VarintDelimitedReader R) first c info b0 frames o :
  vd_wf v -> next_frame (vd_content v) = Ok (Some (first, c)) -> frames_of c frames o ->
  parse_from_bytes first = Some info -> PartialBackup_new info purpose = Ok b0 ->
  exists vend, (o = Ok tt -> buffer vend = [] /\ content (vd_reader vend) = []) /\
  (forall schedule res, read_all_frames schedule purpose v = Some res ->
     exists r, allowed frames o vend b0 r /\ result UF _ res = fst <$> r /\
       found_unknown_fields UF _ res =
         add_found_unknown UF [] (unknown_info info) 0 ++ match r with Ok (_, u) => u | _ => [] end) /\
  (forall s1 s2 r1 r2, o = Ok tt \/ (exists x, process frames b0 [] 1 = Ok x) ->
     read_all_frames s1 purpose v = Some r1 -> read_all_frames s2 purpose v = Some r2 -> r1 = r2) /\
  (forall rounds, Forall fair_round rounds -> (3 * length frames + 3 < length rounds)%nat ->
     is_Some (read_all_frames (concat rounds) purpose v)).
Proof.
  intros Hv Hn Hf Hp Hnew.
  destruct (read_all_frames_run purpose v first c info b0 Hv Hn Hp Hnew) as (v1 & Hv1 & Hc1 & _ & Hrun).
  rewrite <- Hc1 in Hf. destruct (reads_content v1 frames o Hf Hv1) as (vend & Hreads & Hend). exists vend.
  assert (forall schedule res, read_all_frames schedule purpose v = Some res ->
     exists r, allowed frames o vend b0 r /\ result UF _ res = fst <$> r /\
       found_unknown_fields UF _ res =
         add_found_unknown UF [] (unknown_info info) 0 ++ match r with Ok (_, u) => u | _ => [] end) as Hresult.
  { intros schedule res Hres. rewrite Hrun in Hres. cbn zeta in Hres.
    destruct (reader_thread UF _) as [?|?|?|r] eqn:Hfin; try done.
    pose proof (threads_result UF unknown_frame _ _ _ _ _ _ _ Hreads Hfin) as Hall. exists r.
    destruct r as [[b u]|e|]; injection Hres as <-; split_and!; try done; by rewrite app_nil_r. }
  split_and!; [intros Ho; by destruct (Hend Ho) as (? & ? & _)|exact Hresult| |].
  - intros s1 s2 [x1 f1] [x2 f2] Ho (r1 & Ha1 & Hx1 & Hf1)%Hresult (r2 & Ha2 & Hx2 & Hf2)%Hresult. cbn in *.
    by rewrite (allowed_unique UF unknown_frame _ _ _ _ _ _ Ho Ha1 Ha2) in *; subst.
  - intros rounds Hfair Hlen. rewrite Hrun. cbn zeta.
    destruct (threads_finish UF unknown_frame rounds _ _ _ _ b0 Hreads Hfair Hlen) as (r & Hfin & _). rewrite Hfin.
    destruct r as [[b u]|e|]; by eexists.
Qed.

(** ** Encrypted backups *)

Context {P : Primitives} `{AES : !AesLaws} `{AL : AdaptorLaws} `{GL : GunzipLaws}
  `{PM : ProtobufParse MetadataPb} `{MS : !MetadataSize}
  `{HS : HmacSha256} `{HL : !HmacSha256Laws} `{ML : !MacLaws} `{CL : !CbcDecryptorLaws (P:=P) (H:=CD)} `{IL : IntoAsyncReadLaws}.

(** A file as a client writes it: [mb] is the metadata, [z] the compressed frames. *)
Definition backup_file (key : MessageBackupKey) (mb : bytes) (iv : array 16) (z : bytes) : bytes :=
  let body := arr iv ++ aes256_cbc_pkcs7_encrypt (mbk_aes_key key) iv z in
  MAGIC_NUMBER ++ delimited mb ++ body ++ arr (hmac_sha256_mac (arr (mbk_hmac_key key)) body).

Lemma backup_file_parts key mb iv z :
  let body := arr iv ++ aes256_cbc_pkcs7_encrypt (mbk_aes_key key) iv z in
  let w := backup_file key mb iv z in
  let start := length (MAGIC_NUMBER ++ delimited mb) in
  take 8 w = MAGIC_NUMBER /\ drop 8 w = delimited mb ++ drop start w /\
  drop start w = body ++ arr (hmac_sha256_mac (arr (mbk_hmac_key key)) body) /\
  length w = (start + length body + 32)%nat /\ slice start (length w - 32) w = body /\
  drop (length w - 32) w = arr (hmac_sha256_mac (arr (mbk_hmac_key key)) body).
Proof.
  cbn zeta. unfold backup_file. set (body := arr iv ++ _). set (mac := arr (hmac_sha256_mac _ body)).
  assert (length mac = 32%nat) as Hmac by apply array_length.
  assert (length MAGIC_NUMBER = 8%nat) as Hm by done.
  set (w := MAGIC_NUMBER ++ delimited mb ++ body ++ mac). set (start := length (MAGIC_NUMBER ++ delimited mb)).
  assert (length w = start + length body + 32)%nat as Hlen.
  { unfold w, start. rewrite !length_app. lia. }
  assert (drop start w = body ++ mac) as Hd by (unfold w, start; by rewrite app_assoc, drop_app_length).
  split_and!; try done.
  - rewrite Hd. unfold w. by rewrite drop_app_length'.
  - unfold slice. rewrite Hd, Hlen. apply take_app_length'. lia.
  - rewrite Hlen. replace (start + length body + 32 - 32)%nat with (start + length body)%nat by lia.
    rewrite <- drop_drop, Hd. by apply drop_app_length'.
Qed.

Lemma backup_file_acceptable key mb m iv z :
  is_u32 (Z.of_nat (length mb)) -> parse_from_bytes mb = Some m -> valid_metadata m ->
  acceptable key (backup_file key mb iv z) (backup_file key mb iv z) (length (MAGIC_NUMBER ++ delimited mb)).
Proof.
  intros Hu Hm Hval. destruct (backup_file_parts key mb iv z) as (Ht & Hd8 & Hds & Hlen & Hsl & Hmac).
  set (w := backup_file key mb iv z) in *. set (start := length (MAGIC_NUMBER ++ delimited mb)) in *.
  assert (8 <= start)%nat as H8 by (unfold start; rewrite length_app; change (length MAGIC_NUMBER) with 8%nat; lia).
  unfold acceptable. rewrite Hsl, Hmac. split_and!; [| |done|].
  - unfold file_start. destruct (decide _); [|done]. exists (drop start w). split_and!; [|done|done|lia].
    exists mb, m. rewrite Hd8. split_and!; [by apply next_frame_delimited|done|done].
  - rewrite Hlen. lia.
  - rewrite length_app, array_length. lia.
Qed.

Lemma backup_file_plaintext key iv z :
  plaintext_of key (arr iv ++ aes256_cbc_pkcs7_encrypt (mbk_aes_key key) iv z) = gunzip z None.
Proof.
  unfold plaintext_of. rewrite take_app_length', drop_app_length', to_array_id by (by rewrite array_length).
  pose proof (cbc_stream_one_shot (mbk_aes_key key) iv (aes256_cbc_pkcs7_encrypt (mbk_aes_key key) iv z)) as Hc.
  rewrite cbc_round_trip in Hc. by rewrite Hc.
Qed.

(** C5: an encrypted backup is read back.  For a file of valid metadata, an IV, the
    encryption of compressed, length-delimited frames and the HMAC of IV and ciphertext,
    the reader opens, and in every fair schedule it gives the result of adding the
    frames in order to the backup that the first frame starts; the final
    check of the HMAC succeeds. *)
Theorem encrypted_backup_read_back {F R} `{SL : AsyncSkipLaws R} `{!ReaderFactory F R} key purpose (f f1 f2 : F) (r1 r2 : R)
    mb m iv z first info b0 frames b u rounds :
  is_u32 (Z.of_nat (length mb)) -> parse_from_bytes mb = Some m -> valid_metadata m ->
  Forall (fun m => is_u32 (Z.of_nat (length m))) (first :: frames) ->
  gunzip z None = (concat (delimited <$> first :: frames), None) ->
  parse_from_bytes first = Some info -> PartialBackup_new info purpose = Ok b0 -> process frames b0 [] 1 = Ok (b, u) ->
  make_reader f = (Ok r1, f1) -> make_reader f1 = (Ok r2, f2) ->
  reading r1 (backup_file key mb iv z) 0 -> reading r2 (backup_file key mb iv z) 0 ->
  Forall fair_round rounds -> (3 * length frames + 3 < length rounds)%nat ->
  exists reader, new_encrypted_compressed key purpose f = (Ok reader, f2) /\
    collect_all UF unknown_info unknown_frame (concat rounds) reader =
      Some (mkReadResult UF B (Ok b) (add_found_unknown UF [] (unknown_info info) 0 ++ u)).
Proof.
  intros Hu Hm Hval Hfs Hz Hfirst Hnew Hproc Hf1 Hf2 Hr1 Hr2 Hfair Hlen.
  pose proof (backup_file_acceptable key mb m iv z Hu Hm Hval) as Hacc.
  destruct (backup_file_parts key mb iv z) as (_ & _ & _ & _ & Hsl & Hmac).
  pose proof (FramesReader_new_spec key f f1 f2 r1 r2 _ _ Hf1 Hf2 Hr1 Hr2) as Hspec. unfold new_encrypted_compressed.
  rewrite M_bind_eq. destruct (FramesReader_new key f) as [[fr|e|] f'] eqn:Hopen; [|by destruct (Hspec _ Hacc)|done].
  destruct Hspec as (-> & start' & h & (Hst & _) & Hh & (_ & Hex & Hmacs & Hwf & Hpt)).
  rewrite (file_start_unique _ _ _ Hst (proj1 Hacc)), Hsl in *.
  rewrite backup_file_plaintext, Hz in Hpt. apply pair_equal_spec in Hpt as [Hc He].
  eexists. split; [reflexivity|]. unfold collect_all. cbn [br_purpose br_reader].
  apply Forall_cons_1 in Hfs as [Hf0 Hfr].
  destruct (read_all_frames_run purpose (VarintDelimitedReader_new fr) first (concat (delimited <$> frames)) info b0)
    as (v1 & Hv1 & Hc1 & [l1 Hp1] & Hrun); [split_and!; [cbn; lia|done|done]| |done|done|].
  { change (vd_content (VarintDelimitedReader_new fr)) with (content fr). rewrite Hc. by apply next_frame_delimited. }
  rewrite Hrun. cbn zeta. pose proof (frames_of_concat frames Hfr) as Hfo. rewrite <- Hc1 in Hfo.
  destruct (reads_content v1 frames (Ok tt) Hfo Hv1) as (vend & Hreads & Hend). destruct (Hend eq_refl) as (Hb & _ & l2 & Hp2).
  destruct (threads_finish UF unknown_frame rounds _ _ _ _ b0 Hreads Hfair Hlen) as (r & -> & Hall).
  unfold BackupReaderSpec.allowed in Hall. rewrite Hproc in Hall. unfold after_join, VarintDelimitedReader_into_inner in Hall.
  rewrite Hb in Hall. cbn [mbind outcome_bind length Nat.eqb] in Hall.
  pose proof (polls_trans _ _ _ _ _ Hp1 Hp2) as Hp. cbn [vd_reader VarintDelimitedReader_new] in Hp.
  destruct (frames_reader_macs _ _ _ _ _ Hp Hmacs) as [Hmacs' Hex'].
  cbn [verify_hmac FramesReader_verify] in Hall. rewrite (verify_hmac_spec _ _ _ Hmacs'), Hex', Hex in Hall. cbn zeta in Hall.
  rewrite decide_True in Hall by (apply array_eq; by rewrite Hh, Hmac). by rewrite Hall.
Qed.
End backups.
