(* ===== verification/BackupProto.v ===== *)
(** * BackupProto: the protobuf messages of a backup
    (rust/message-backup/src/proto/backup.proto)

    The structs that rust-protobuf generates, in the order of their dependencies.
    A field of a message type is a [MessageField], here an option; an enum field
    holds any i32 ([EnumOrUnknown]).  Fields that the sender knows and this
    version does not ([special_fields]) are kept only where the code compares them. *)

From Stdlib Require Import SpecFloat.
From S2P Require Import Prelude Types.
Open Scope string_scope.
Open Scope list_scope.
Open Scope Z_scope.

(** Generated enums, and [protobuf::EnumOrUnknown]. *)
Class ProtoEnum (E : Type) := { default_value : E; number : E -> Z }.
Inductive EnumOrUnknown (E : Type) := Known (e : E) | Unrecognized (value : Z).
Arguments Known {E} _.
Arguments Unrecognized {E} _.
Definition enum_value_or {E} (d : E) (e : EnumOrUnknown E) : E := match e with Known e => e | Unrecognized _ => d end.
Definition enum_value_or_default `{ProtoEnum E} (e : EnumOrUnknown E) : E := enum_value_or default_value e.
Definition enum_i32 `{ProtoEnum E} (e : EnumOrUnknown E) : Z := match e with Known e => number e | Unrecognized v => v end.

(** A field that is not in the schema. *)
Inductive UnknownValue :=
| Fixed32 (z : Z) | Fixed64 (z : Z) | Varint (z : Z) | LengthDelimited (b : bytes).
#[export] Instance UnknownValue_eq_dec : EqDecision UnknownValue.
Proof. solve_decision. Defined.

Module proto.
(** ** Enums *)

Inductive AccountData_PhoneNumberSharingMode := AccountData_PhoneNumberSharingMode_UNKNOWN | AccountData_PhoneNumberSharingMode_EVERYBODY | AccountData_PhoneNumberSharingMode_NOBODY.
#[global] Instance AccountData_PhoneNumberSharingMode_enum : ProtoEnum AccountData_PhoneNumberSharingMode := { default_value := AccountData_PhoneNumberSharingMode_UNKNOWN;
  number e := match e with AccountData_PhoneNumberSharingMode_UNKNOWN => 0 | AccountData_PhoneNumberSharingMode_EVERYBODY => 1 | AccountData_PhoneNumberSharingMode_NOBODY => 2 end }.
#[global] Instance AccountData_PhoneNumberSharingMode_eq_dec : EqDecision AccountData_PhoneNumberSharingMode.
Proof. solve_decision. Defined.
Inductive AccountData_UsernameLink_Color := AccountData_UsernameLink_Color_UNKNOWN | AccountData_UsernameLink_Color_BLUE | AccountData_UsernameLink_Color_WHITE | AccountData_UsernameLink_Color_GREY | AccountData_UsernameLink_Color_OLIVE | AccountData_UsernameLink_Color_GREEN | AccountData_UsernameLink_Color_ORANGE | AccountData_UsernameLink_Color_PINK | AccountData_UsernameLink_Color_PURPLE.
#[global] Instance AccountData_UsernameLink_Color_enum : ProtoEnum AccountData_UsernameLink_Color := { default_value := AccountData_UsernameLink_Color_UNKNOWN;
  number e := match e with AccountData_UsernameLink_Color_UNKNOWN => 0 | AccountData_UsernameLink_Color_BLUE => 1 | AccountData_UsernameLink_Color_WHITE => 2 | AccountData_UsernameLink_Color_GREY => 3 | AccountData_UsernameLink_Color_OLIVE => 4 | AccountData_UsernameLink_Color_GREEN => 5 | AccountData_UsernameLink_Color_ORANGE => 6 | AccountData_UsernameLink_Color_PINK => 7 | AccountData_UsernameLink_Color_PURPLE => 8 end }.
#[global] Instance AccountData_UsernameLink_Color_eq_dec : EqDecision AccountData_UsernameLink_Color.
Proof. solve_decision. Defined.
Inductive AccountData_SentMediaQuality := AccountData_SentMediaQuality_UNKNOWN_QUALITY | AccountData_SentMediaQuality_STANDARD | AccountData_SentMediaQuality_HIGH.
#[global] Instance AccountData_SentMediaQuality_enum : ProtoEnum AccountData_SentMediaQuality := { default_value := AccountData_SentMediaQuality_UNKNOWN_QUALITY;
  number e := match e with AccountData_SentMediaQuality_UNKNOWN_QUALITY => 0 | AccountData_SentMediaQuality_STANDARD => 1 | AccountData_SentMediaQuality_HIGH => 2 end }.
#[global] Instance AccountData_SentMediaQuality_eq_dec : EqDecision AccountData_SentMediaQuality.
Proof. solve_decision. Defined.
Inductive AccountData_AutoDownloadSettings_AutoDownloadOption := AccountData_AutoDownloadSettings_AutoDownloadOption_UNKNOWN | AccountData_AutoDownloadSettings_AutoDownloadOption_NEVER | AccountData_AutoDownloadSettings_AutoDownloadOption_WIFI | AccountData_AutoDownloadSettings_AutoDownloadOption_WIFI_AND_CELLULAR.
#[global] Instance AccountData_AutoDownloadSettings_AutoDownloadOption_enum : ProtoEnum AccountData_AutoDownloadSettings_AutoDownloadOption := { default_value := AccountData_AutoDownloadSettings_AutoDownloadOption_UNKNOWN;
  number e := match e with AccountData_AutoDownloadSettings_AutoDownloadOption_UNKNOWN => 0 | AccountData_AutoDownloadSettings_AutoDownloadOption_NEVER => 1 | AccountData_AutoDownloadSettings_AutoDownloadOption_WIFI => 2 | AccountData_AutoDownloadSettings_AutoDownloadOption_WIFI_AND_CELLULAR => 3 end }.
#[global] Instance AccountData_AutoDownloadSettings_AutoDownloadOption_eq_dec : EqDecision AccountData_AutoDownloadSettings_AutoDownloadOption.
Proof. solve_decision. Defined.
Inductive AccountData_AppTheme := AccountData_AppTheme_UNKNOWN_APP_THEME | AccountData_AppTheme_SYSTEM | AccountData_AppTheme_LIGHT | AccountData_AppTheme_DARK.
#[global] Instance AccountData_AppTheme_enum : ProtoEnum AccountData_AppTheme := { default_value := AccountData_AppTheme_UNKNOWN_APP_THEME;
  number e := match e with AccountData_AppTheme_UNKNOWN_APP_THEME => 0 | AccountData_AppTheme_SYSTEM => 1 | AccountData_AppTheme_LIGHT => 2 | AccountData_AppTheme_DARK => 3 end }.
#[global] Instance AccountData_AppTheme_eq_dec : EqDecision AccountData_AppTheme.
Proof. solve_decision. Defined.
Inductive AccountData_CallsUseLessDataSetting := AccountData_CallsUseLessDataSetting_UNKNOWN_CALL_DATA_SETTING | AccountData_CallsUseLessDataSetting_NEVER | AccountData_CallsUseLessDataSetting_MOBILE_DATA_ONLY | AccountData_CallsUseLessDataSetting_WIFI_AND_MOBILE_DATA.
#[global] Instance AccountData_CallsUseLessDataSetting_enum : ProtoEnum AccountData_CallsUseLessDataSetting := { default_value := AccountData_CallsUseLessDataSetting_UNKNOWN_CALL_DATA_SETTING;
  number e := match e with AccountData_CallsUseLessDataSetting_UNKNOWN_CALL_DATA_SETTING => 0 | AccountData_CallsUseLessDataSetting_NEVER => 1 | AccountData_CallsUseLessDataSetting_MOBILE_DATA_ONLY => 2 | AccountData_CallsUseLessDataSetting_WIFI_AND_MOBILE_DATA => 3 end }.
#[global] Instance AccountData_CallsUseLessDataSetting_eq_dec : EqDecision AccountData_CallsUseLessDataSetting.
Proof. solve_decision. Defined.
Inductive AccountData_AndroidSpecificSettings_NavigationBarSize := AccountData_AndroidSpecificSettings_NavigationBarSize_UNKNOWN_BAR_SIZE | AccountData_AndroidSpecificSettings_NavigationBarSize_NORMAL | AccountData_AndroidSpecificSettings_NavigationBarSize_COMPACT.
#[global] Instance AccountData_AndroidSpecificSettings_NavigationBarSize_enum : ProtoEnum AccountData_AndroidSpecificSettings_NavigationBarSize := { default_value := AccountData_AndroidSpecificSettings_NavigationBarSize_UNKNOWN_BAR_SIZE;
  number e := match e with AccountData_AndroidSpecificSettings_NavigationBarSize_UNKNOWN_BAR_SIZE => 0 | AccountData_AndroidSpecificSettings_NavigationBarSize_NORMAL => 1 | AccountData_AndroidSpecificSettings_NavigationBarSize_COMPACT => 2 end }.
#[global] Instance AccountData_AndroidSpecificSettings_NavigationBarSize_eq_dec : EqDecision AccountData_AndroidSpecificSettings_NavigationBarSize.
Proof. solve_decision. Defined.
Inductive AvatarColor := AvatarColor_A100 | AvatarColor_A110 | AvatarColor_A120 | AvatarColor_A130 | AvatarColor_A140 | AvatarColor_A150 | AvatarColor_A160 | AvatarColor_A170 | AvatarColor_A180 | AvatarColor_A190 | AvatarColor_A200 | AvatarColor_A210.
#[global] Instance AvatarColor_enum : ProtoEnum AvatarColor := { default_value := AvatarColor_A100;
  number e := match e with AvatarColor_A100 => 0 | AvatarColor_A110 => 1 | AvatarColor_A120 => 2 | AvatarColor_A130 => 3 | AvatarColor_A140 => 4 | AvatarColor_A150 => 5 | AvatarColor_A160 => 6 | AvatarColor_A170 => 7 | AvatarColor_A180 => 8 | AvatarColor_A190 => 9 | AvatarColor_A200 => 10 | AvatarColor_A210 => 11 end }.
#[global] Instance AvatarColor_eq_dec : EqDecision AvatarColor.
Proof. solve_decision. Defined.
Inductive Contact_IdentityState := Contact_IdentityState_DEFAULT | Contact_IdentityState_VERIFIED | Contact_IdentityState_UNVERIFIED.
#[global] Instance Contact_IdentityState_enum : ProtoEnum Contact_IdentityState := { default_value := Contact_IdentityState_DEFAULT;
  number e := match e with Contact_IdentityState_DEFAULT => 0 | Contact_IdentityState_VERIFIED => 1 | Contact_IdentityState_UNVERIFIED => 2 end }.
#[global] Instance Contact_IdentityState_eq_dec : EqDecision Contact_IdentityState.
Proof. solve_decision. Defined.
Inductive Contact_Visibility := Contact_Visibility_VISIBLE | Contact_Visibility_HIDDEN | Contact_Visibility_HIDDEN_MESSAGE_REQUEST.
#[global] Instance Contact_Visibility_enum : ProtoEnum Contact_Visibility := { default_value := Contact_Visibility_VISIBLE;
  number e := match e with Contact_Visibility_VISIBLE => 0 | Contact_Visibility_HIDDEN => 1 | Contact_Visibility_HIDDEN_MESSAGE_REQUEST => 2 end }.
#[global] Instance Contact_Visibility_eq_dec : EqDecision Contact_Visibility.
Proof. solve_decision. Defined.
Inductive Group_StorySendMode := Group_StorySendMode_DEFAULT | Group_StorySendMode_DISABLED | Group_StorySendMode_ENABLED.
#[global] Instance Group_StorySendMode_enum : ProtoEnum Group_StorySendMode := { default_value := Group_StorySendMode_DEFAULT;
  number e := match e with Group_StorySendMode_DEFAULT => 0 | Group_StorySendMode_DISABLED => 1 | Group_StorySendMode_ENABLED => 2 end }.
#[global] Instance Group_StorySendMode_eq_dec : EqDecision Group_StorySendMode.
Proof. solve_decision. Defined.
Inductive Group_Member_Role := Group_Member_Role_UNKNOWN | Group_Member_Role_DEFAULT | Group_Member_Role_ADMINISTRATOR.
#[global] Instance Group_Member_Role_enum : ProtoEnum Group_Member_Role := { default_value := Group_Member_Role_UNKNOWN;
  number e := match e with Group_Member_Role_UNKNOWN => 0 | Group_Member_Role_DEFAULT => 1 | Group_Member_Role_ADMINISTRATOR => 2 end }.
#[global] Instance Group_Member_Role_eq_dec : EqDecision Group_Member_Role.
Proof. solve_decision. Defined.
Inductive Group_AccessControl_AccessRequired := Group_AccessControl_AccessRequired_UNKNOWN | Group_AccessControl_AccessRequired_ANY | Group_AccessControl_AccessRequired_MEMBER | Group_AccessControl_AccessRequired_ADMINISTRATOR | Group_AccessControl_AccessRequired_UNSATISFIABLE.
#[global] Instance Group_AccessControl_AccessRequired_enum : ProtoEnum Group_AccessControl_AccessRequired := { default_value := Group_AccessControl_AccessRequired_UNKNOWN;
  number e := match e with Group_AccessControl_AccessRequired_UNKNOWN => 0 | Group_AccessControl_AccessRequired_ANY => 1 | Group_AccessControl_AccessRequired_MEMBER => 2 | Group_AccessControl_AccessRequired_ADMINISTRATOR => 3 | Group_AccessControl_AccessRequired_UNSATISFIABLE => 4 end }.
#[global] Instance Group_AccessControl_AccessRequired_eq_dec : EqDecision Group_AccessControl_AccessRequired.
Proof. solve_decision. Defined.
Inductive CallLink_Restrictions := CallLink_Restrictions_UNKNOWN | CallLink_Restrictions_NONE | CallLink_Restrictions_ADMIN_APPROVAL.
#[global] Instance CallLink_Restrictions_enum : ProtoEnum CallLink_Restrictions := { default_value := CallLink_Restrictions_UNKNOWN;
  number e := match e with CallLink_Restrictions_UNKNOWN => 0 | CallLink_Restrictions_NONE => 1 | CallLink_Restrictions_ADMIN_APPROVAL => 2 end }.
#[global] Instance CallLink_Restrictions_eq_dec : EqDecision CallLink_Restrictions.
Proof. solve_decision. Defined.
Inductive AdHocCall_State := AdHocCall_State_UNKNOWN_STATE | AdHocCall_State_GENERIC.
#[global] Instance AdHocCall_State_enum : ProtoEnum AdHocCall_State := { default_value := AdHocCall_State_UNKNOWN_STATE;
  number e := match e with AdHocCall_State_UNKNOWN_STATE => 0 | AdHocCall_State_GENERIC => 1 end }.
#[global] Instance AdHocCall_State_eq_dec : EqDecision AdHocCall_State.
Proof. solve_decision. Defined.
Inductive DistributionList_PrivacyMode := DistributionList_PrivacyMode_UNKNOWN | DistributionList_PrivacyMode_ONLY_WITH | DistributionList_PrivacyMode_ALL_EXCEPT | DistributionList_PrivacyMode_ALL.
#[global] Instance DistributionList_PrivacyMode_enum : ProtoEnum DistributionList_PrivacyMode := { default_value := DistributionList_PrivacyMode_UNKNOWN;
  number e := match e with DistributionList_PrivacyMode_UNKNOWN => 0 | DistributionList_PrivacyMode_ONLY_WITH => 1 | DistributionList_PrivacyMode_ALL_EXCEPT => 2 | DistributionList_PrivacyMode_ALL => 3 end }.
#[global] Instance DistributionList_PrivacyMode_eq_dec : EqDecision DistributionList_PrivacyMode.
Proof. solve_decision. Defined.
Inductive SendStatus_Failed_FailureReason := SendStatus_Failed_FailureReason_UNKNOWN | SendStatus_Failed_FailureReason_NETWORK | SendStatus_Failed_FailureReason_IDENTITY_KEY_MISMATCH.
#[global] Instance SendStatus_Failed_FailureReason_enum : ProtoEnum SendStatus_Failed_FailureReason := { default_value := SendStatus_Failed_FailureReason_UNKNOWN;
  number e := match e with SendStatus_Failed_FailureReason_UNKNOWN => 0 | SendStatus_Failed_FailureReason_NETWORK => 1 | SendStatus_Failed_FailureReason_IDENTITY_KEY_MISMATCH => 2 end }.
#[global] Instance SendStatus_Failed_FailureReason_eq_dec : EqDecision SendStatus_Failed_FailureReason.
Proof. solve_decision. Defined.
Inductive PaymentNotification_TransactionDetails_FailedTransaction_FailureReason := PaymentNotification_TransactionDetails_FailedTransaction_FailureReason_GENERIC | PaymentNotification_TransactionDetails_FailedTransaction_FailureReason_NETWORK | PaymentNotification_TransactionDetails_FailedTransaction_FailureReason_INSUFFICIENT_FUNDS.
#[global] Instance PaymentNotification_TransactionDetails_FailedTransaction_FailureReason_enum : ProtoEnum PaymentNotification_TransactionDetails_FailedTransaction_FailureReason := { default_value := PaymentNotification_TransactionDetails_FailedTransaction_FailureReason_GENERIC;
  number e := match e with PaymentNotification_TransactionDetails_FailedTransaction_FailureReason_GENERIC => 0 | PaymentNotification_TransactionDetails_FailedTransaction_FailureReason_NETWORK => 1 | PaymentNotification_TransactionDetails_FailedTransaction_FailureReason_INSUFFICIENT_FUNDS => 2 end }.
#[global] Instance PaymentNotification_TransactionDetails_FailedTransaction_FailureReason_eq_dec : EqDecision PaymentNotification_TransactionDetails_FailedTransaction_FailureReason.
Proof. solve_decision. Defined.
Inductive PaymentNotification_TransactionDetails_Transaction_Status := PaymentNotification_TransactionDetails_Transaction_Status_INITIAL | PaymentNotification_TransactionDetails_Transaction_Status_SUBMITTED | PaymentNotification_TransactionDetails_Transaction_Status_SUCCESSFUL.
#[global] Instance PaymentNotification_TransactionDetails_Transaction_Status_enum : ProtoEnum PaymentNotification_TransactionDetails_Transaction_Status := { default_value := PaymentNotification_TransactionDetails_Transaction_Status_INITIAL;
  number e := match e with PaymentNotification_TransactionDetails_Transaction_Status_INITIAL => 0 | PaymentNotification_TransactionDetails_Transaction_Status_SUBMITTED => 1 | PaymentNotification_TransactionDetails_Transaction_Status_SUCCESSFUL => 2 end }.
#[global] Instance PaymentNotification_TransactionDetails_Transaction_Status_eq_dec : EqDecision PaymentNotification_TransactionDetails_Transaction_Status.
Proof. solve_decision. Defined.
Inductive GiftBadge_State := GiftBadge_State_UNOPENED | GiftBadge_State_OPENED | GiftBadge_State_REDEEMED | GiftBadge_State_FAILED.
#[global] Instance GiftBadge_State_enum : ProtoEnum GiftBadge_State := { default_value := GiftBadge_State_UNOPENED;
  number e := match e with GiftBadge_State_UNOPENED => 0 | GiftBadge_State_OPENED => 1 | GiftBadge_State_REDEEMED => 2 | GiftBadge_State_FAILED => 3 end }.
#[global] Instance GiftBadge_State_eq_dec : EqDecision GiftBadge_State.
Proof. solve_decision. Defined.
Inductive ContactAttachment_Phone_Type := ContactAttachment_Phone_Type_UNKNOWN | ContactAttachment_Phone_Type_HOME | ContactAttachment_Phone_Type_MOBILE | ContactAttachment_Phone_Type_WORK | ContactAttachment_Phone_Type_CUSTOM.
#[global] Instance ContactAttachment_Phone_Type_enum : ProtoEnum ContactAttachment_Phone_Type := { default_value := ContactAttachment_Phone_Type_UNKNOWN;
  number e := match e with ContactAttachment_Phone_Type_UNKNOWN => 0 | ContactAttachment_Phone_Type_HOME => 1 | ContactAttachment_Phone_Type_MOBILE => 2 | ContactAttachment_Phone_Type_WORK => 3 | ContactAttachment_Phone_Type_CUSTOM => 4 end }.
#[global] Instance ContactAttachment_Phone_Type_eq_dec : EqDecision ContactAttachment_Phone_Type.
Proof. solve_decision. Defined.
Inductive ContactAttachment_Email_Type := ContactAttachment_Email_Type_UNKNOWN | ContactAttachment_Email_Type_HOME | ContactAttachment_Email_Type_MOBILE | ContactAttachment_Email_Type_WORK | ContactAttachment_Email_Type_CUSTOM.
#[global] Instance ContactAttachment_Email_Type_enum : ProtoEnum ContactAttachment_Email_Type := { default_value := ContactAttachment_Email_Type_UNKNOWN;
  number e := match e with ContactAttachment_Email_Type_UNKNOWN => 0 | ContactAttachment_Email_Type_HOME => 1 | ContactAttachment_Email_Type_MOBILE => 2 | ContactAttachment_Email_Type_WORK => 3 | ContactAttachment_Email_Type_CUSTOM => 4 end }.
#[global] Instance ContactAttachment_Email_Type_eq_dec : EqDecision ContactAttachment_Email_Type.
Proof. solve_decision. Defined.
Inductive ContactAttachment_PostalAddress_Type := ContactAttachment_PostalAddress_Type_UNKNOWN | ContactAttachment_PostalAddress_Type_HOME | ContactAttachment_PostalAddress_Type_WORK | ContactAttachment_PostalAddress_Type_CUSTOM.
#[global] Instance ContactAttachment_PostalAddress_Type_enum : ProtoEnum ContactAttachment_PostalAddress_Type := { default_value := ContactAttachment_PostalAddress_Type_UNKNOWN;
  number e := match e with ContactAttachment_PostalAddress_Type_UNKNOWN => 0 | ContactAttachment_PostalAddress_Type_HOME => 1 | ContactAttachment_PostalAddress_Type_WORK => 2 | ContactAttachment_PostalAddress_Type_CUSTOM => 3 end }.
#[global] Instance ContactAttachment_PostalAddress_Type_eq_dec : EqDecision ContactAttachment_PostalAddress_Type.
Proof. solve_decision. Defined.
Inductive MessageAttachment_Flag := MessageAttachment_Flag_NONE | MessageAttachment_Flag_VOICE_MESSAGE | MessageAttachment_Flag_BORDERLESS | MessageAttachment_Flag_GIF.
#[global] Instance MessageAttachment_Flag_enum : ProtoEnum MessageAttachment_Flag := { default_value := MessageAttachment_Flag_NONE;
  number e := match e with MessageAttachment_Flag_NONE => 0 | MessageAttachment_Flag_VOICE_MESSAGE => 1 | MessageAttachment_Flag_BORDERLESS => 2 | MessageAttachment_Flag_GIF => 3 end }.
#[global] Instance MessageAttachment_Flag_eq_dec : EqDecision MessageAttachment_Flag.
Proof. solve_decision. Defined.
Inductive Quote_Type := Quote_Type_UNKNOWN | Quote_Type_NORMAL | Quote_Type_GIFT_BADGE | Quote_Type_VIEW_ONCE | Quote_Type_POLL.
#[global] Instance Quote_Type_enum : ProtoEnum Quote_Type := { default_value := Quote_Type_UNKNOWN;
  number e := match e with Quote_Type_UNKNOWN => 0 | Quote_Type_NORMAL => 1 | Quote_Type_GIFT_BADGE => 2 | Quote_Type_VIEW_ONCE => 3 | Quote_Type_POLL => 4 end }.
#[global] Instance Quote_Type_eq_dec : EqDecision Quote_Type.
Proof. solve_decision. Defined.
Inductive BodyRange_Style := BodyRange_Style_NONE | BodyRange_Style_BOLD | BodyRange_Style_ITALIC | BodyRange_Style_SPOILER | BodyRange_Style_STRIKETHROUGH | BodyRange_Style_MONOSPACE.
#[global] Instance BodyRange_Style_enum : ProtoEnum BodyRange_Style := { default_value := BodyRange_Style_NONE;
  number e := match e with BodyRange_Style_NONE => 0 | BodyRange_Style_BOLD => 1 | BodyRange_Style_ITALIC => 2 | BodyRange_Style_SPOILER => 3 | BodyRange_Style_STRIKETHROUGH => 4 | BodyRange_Style_MONOSPACE => 5 end }.
#[global] Instance BodyRange_Style_eq_dec : EqDecision BodyRange_Style.
Proof. solve_decision. Defined.
Inductive IndividualCall_Type := IndividualCall_Type_UNKNOWN_TYPE | IndividualCall_Type_AUDIO_CALL | IndividualCall_Type_VIDEO_CALL.
#[global] Instance IndividualCall_Type_enum : ProtoEnum IndividualCall_Type := { default_value := IndividualCall_Type_UNKNOWN_TYPE;
  number e := match e with IndividualCall_Type_UNKNOWN_TYPE => 0 | IndividualCall_Type_AUDIO_CALL => 1 | IndividualCall_Type_VIDEO_CALL => 2 end }.
#[global] Instance IndividualCall_Type_eq_dec : EqDecision IndividualCall_Type.
Proof. solve_decision. Defined.
Inductive IndividualCall_Direction := IndividualCall_Direction_UNKNOWN_DIRECTION | IndividualCall_Direction_INCOMING | IndividualCall_Direction_OUTGOING.
#[global] Instance IndividualCall_Direction_enum : ProtoEnum IndividualCall_Direction := { default_value := IndividualCall_Direction_UNKNOWN_DIRECTION;
  number e := match e with IndividualCall_Direction_UNKNOWN_DIRECTION => 0 | IndividualCall_Direction_INCOMING => 1 | IndividualCall_Direction_OUTGOING => 2 end }.
#[global] Instance IndividualCall_Direction_eq_dec : EqDecision IndividualCall_Direction.
Proof. solve_decision. Defined.
Inductive IndividualCall_State := IndividualCall_State_UNKNOWN_STATE | IndividualCall_State_ACCEPTED | IndividualCall_State_NOT_ACCEPTED | IndividualCall_State_MISSED | IndividualCall_State_MISSED_NOTIFICATION_PROFILE.
#[global] Instance IndividualCall_State_enum : ProtoEnum IndividualCall_State := { default_value := IndividualCall_State_UNKNOWN_STATE;
  number e := match e with IndividualCall_State_UNKNOWN_STATE => 0 | IndividualCall_State_ACCEPTED => 1 | IndividualCall_State_NOT_ACCEPTED => 2 | IndividualCall_State_MISSED => 3 | IndividualCall_State_MISSED_NOTIFICATION_PROFILE => 4 end }.
#[global] Instance IndividualCall_State_eq_dec : EqDecision IndividualCall_State.
Proof. solve_decision. Defined.
Inductive GroupCall_State := GroupCall_State_UNKNOWN_STATE | GroupCall_State_GENERIC | GroupCall_State_JOINED | GroupCall_State_RINGING | GroupCall_State_ACCEPTED | GroupCall_State_DECLINED | GroupCall_State_MISSED | GroupCall_State_MISSED_NOTIFICATION_PROFILE | GroupCall_State_OUTGOING_RING.
#[global] Instance GroupCall_State_enum : ProtoEnum GroupCall_State := { default_value := GroupCall_State_UNKNOWN_STATE;
  number e := match e with GroupCall_State_UNKNOWN_STATE => 0 | GroupCall_State_GENERIC => 1 | GroupCall_State_JOINED => 2 | GroupCall_State_RINGING => 3 | GroupCall_State_ACCEPTED => 4 | GroupCall_State_DECLINED => 5 | GroupCall_State_MISSED => 6 | GroupCall_State_MISSED_NOTIFICATION_PROFILE => 7 | GroupCall_State_OUTGOING_RING => 8 end }.
#[global] Instance GroupCall_State_eq_dec : EqDecision GroupCall_State.
Proof. solve_decision. Defined.
Inductive SimpleChatUpdate_Type := SimpleChatUpdate_Type_UNKNOWN | SimpleChatUpdate_Type_JOINED_SIGNAL | SimpleChatUpdate_Type_IDENTITY_UPDATE | SimpleChatUpdate_Type_IDENTITY_VERIFIED | SimpleChatUpdate_Type_IDENTITY_DEFAULT | SimpleChatUpdate_Type_CHANGE_NUMBER | SimpleChatUpdate_Type_RELEASE_CHANNEL_DONATION_REQUEST | SimpleChatUpdate_Type_END_SESSION | SimpleChatUpdate_Type_CHAT_SESSION_REFRESH | SimpleChatUpdate_Type_BAD_DECRYPT | SimpleChatUpdate_Type_PAYMENTS_ACTIVATED | SimpleChatUpdate_Type_PAYMENT_ACTIVATION_REQUEST | SimpleChatUpdate_Type_UNSUPPORTED_PROTOCOL_MESSAGE | SimpleChatUpdate_Type_REPORTED_SPAM | SimpleChatUpdate_Type_BLOCKED | SimpleChatUpdate_Type_UNBLOCKED | SimpleChatUpdate_Type_MESSAGE_REQUEST_ACCEPTED.
#[global] Instance SimpleChatUpdate_Type_enum : ProtoEnum SimpleChatUpdate_Type := { default_value := SimpleChatUpdate_Type_UNKNOWN;
  number e := match e with SimpleChatUpdate_Type_UNKNOWN => 0 | SimpleChatUpdate_Type_JOINED_SIGNAL => 1 | SimpleChatUpdate_Type_IDENTITY_UPDATE => 2 | SimpleChatUpdate_Type_IDENTITY_VERIFIED => 3 | SimpleChatUpdate_Type_IDENTITY_DEFAULT => 4 | SimpleChatUpdate_Type_CHANGE_NUMBER => 5 | SimpleChatUpdate_Type_RELEASE_CHANNEL_DONATION_REQUEST => 6 | SimpleChatUpdate_Type_END_SESSION => 7 | SimpleChatUpdate_Type_CHAT_SESSION_REFRESH => 8 | SimpleChatUpdate_Type_BAD_DECRYPT => 9 | SimpleChatUpdate_Type_PAYMENTS_ACTIVATED => 10 | SimpleChatUpdate_Type_PAYMENT_ACTIVATION_REQUEST => 11 | SimpleChatUpdate_Type_UNSUPPORTED_PROTOCOL_MESSAGE => 12 | SimpleChatUpdate_Type_REPORTED_SPAM => 13 | SimpleChatUpdate_Type_BLOCKED => 14 | SimpleChatUpdate_Type_UNBLOCKED => 15 | SimpleChatUpdate_Type_MESSAGE_REQUEST_ACCEPTED => 16 end }.
#[global] Instance SimpleChatUpdate_Type_eq_dec : EqDecision SimpleChatUpdate_Type.
Proof. solve_decision. Defined.
Inductive GroupV2AccessLevel := GroupV2AccessLevel_UNKNOWN | GroupV2AccessLevel_ANY | GroupV2AccessLevel_MEMBER | GroupV2AccessLevel_ADMINISTRATOR | GroupV2AccessLevel_UNSATISFIABLE.
#[global] Instance GroupV2AccessLevel_enum : ProtoEnum GroupV2AccessLevel := { default_value := GroupV2AccessLevel_UNKNOWN;
  number e := match e with GroupV2AccessLevel_UNKNOWN => 0 | GroupV2AccessLevel_ANY => 1 | GroupV2AccessLevel_MEMBER => 2 | GroupV2AccessLevel_ADMINISTRATOR => 3 | GroupV2AccessLevel_UNSATISFIABLE => 4 end }.
#[global] Instance GroupV2AccessLevel_eq_dec : EqDecision GroupV2AccessLevel.
Proof. solve_decision. Defined.
Inductive ChatStyle_WallpaperPreset := ChatStyle_WallpaperPreset_UNKNOWN_WALLPAPER_PRESET | ChatStyle_WallpaperPreset_SOLID_BLUSH | ChatStyle_WallpaperPreset_SOLID_COPPER | ChatStyle_WallpaperPreset_SOLID_DUST | ChatStyle_WallpaperPreset_SOLID_CELADON | ChatStyle_WallpaperPreset_SOLID_RAINFOREST | ChatStyle_WallpaperPreset_SOLID_PACIFIC | ChatStyle_WallpaperPreset_SOLID_FROST | ChatStyle_WallpaperPreset_SOLID_NAVY | ChatStyle_WallpaperPreset_SOLID_LILAC | ChatStyle_WallpaperPreset_SOLID_PINK | ChatStyle_WallpaperPreset_SOLID_EGGPLANT | ChatStyle_WallpaperPreset_SOLID_SILVER | ChatStyle_WallpaperPreset_GRADIENT_SUNSET | ChatStyle_WallpaperPreset_GRADIENT_NOIR | ChatStyle_WallpaperPreset_GRADIENT_HEATMAP | ChatStyle_WallpaperPreset_GRADIENT_AQUA | ChatStyle_WallpaperPreset_GRADIENT_IRIDESCENT | ChatStyle_WallpaperPreset_GRADIENT_MONSTERA | ChatStyle_WallpaperPreset_GRADIENT_BLISS | ChatStyle_WallpaperPreset_GRADIENT_SKY | ChatStyle_WallpaperPreset_GRADIENT_PEACH.
#[global] Instance ChatStyle_WallpaperPreset_enum : ProtoEnum ChatStyle_WallpaperPreset := { default_value := ChatStyle_WallpaperPreset_UNKNOWN_WALLPAPER_PRESET;
  number e := match e with ChatStyle_WallpaperPreset_UNKNOWN_WALLPAPER_PRESET => 0 | ChatStyle_WallpaperPreset_SOLID_BLUSH => 1 | ChatStyle_WallpaperPreset_SOLID_COPPER => 2 | ChatStyle_WallpaperPreset_SOLID_DUST => 3 | ChatStyle_WallpaperPreset_SOLID_CELADON => 4 | ChatStyle_WallpaperPreset_SOLID_RAINFOREST => 5 | ChatStyle_WallpaperPreset_SOLID_PACIFIC => 6 | ChatStyle_WallpaperPreset_SOLID_FROST => 7 | ChatStyle_WallpaperPreset_SOLID_NAVY => 8 | ChatStyle_WallpaperPreset_SOLID_LILAC => 9 | ChatStyle_WallpaperPreset_SOLID_PINK => 10 | ChatStyle_WallpaperPreset_SOLID_EGGPLANT => 11 | ChatStyle_WallpaperPreset_SOLID_SILVER => 12 | ChatStyle_WallpaperPreset_GRADIENT_SUNSET => 13 | ChatStyle_WallpaperPreset_GRADIENT_NOIR => 14 | ChatStyle_WallpaperPreset_GRADIENT_HEATMAP => 15 | ChatStyle_WallpaperPreset_GRADIENT_AQUA => 16 | ChatStyle_WallpaperPreset_GRADIENT_IRIDESCENT => 17 | ChatStyle_WallpaperPreset_GRADIENT_MONSTERA => 18 | ChatStyle_WallpaperPreset_GRADIENT_BLISS => 19 | ChatStyle_WallpaperPreset_GRADIENT_SKY => 20 | ChatStyle_WallpaperPreset_GRADIENT_PEACH => 21 end }.
#[global] Instance ChatStyle_WallpaperPreset_eq_dec : EqDecision ChatStyle_WallpaperPreset.
Proof. solve_decision. Defined.
Inductive ChatStyle_BubbleColorPreset := ChatStyle_BubbleColorPreset_UNKNOWN_BUBBLE_COLOR_PRESET | ChatStyle_BubbleColorPreset_SOLID_ULTRAMARINE | ChatStyle_BubbleColorPreset_SOLID_CRIMSON | ChatStyle_BubbleColorPreset_SOLID_VERMILION | ChatStyle_BubbleColorPreset_SOLID_BURLAP | ChatStyle_BubbleColorPreset_SOLID_FOREST | ChatStyle_BubbleColorPreset_SOLID_WINTERGREEN | ChatStyle_BubbleColorPreset_SOLID_TEAL | ChatStyle_BubbleColorPreset_SOLID_BLUE | ChatStyle_BubbleColorPreset_SOLID_INDIGO | ChatStyle_BubbleColorPreset_SOLID_VIOLET | ChatStyle_BubbleColorPreset_SOLID_PLUM | ChatStyle_BubbleColorPreset_SOLID_TAUPE | ChatStyle_BubbleColorPreset_SOLID_STEEL | ChatStyle_BubbleColorPreset_GRADIENT_EMBER | ChatStyle_BubbleColorPreset_GRADIENT_MIDNIGHT | ChatStyle_BubbleColorPreset_GRADIENT_INFRARED | ChatStyle_BubbleColorPreset_GRADIENT_LAGOON | ChatStyle_BubbleColorPreset_GRADIENT_FLUORESCENT | ChatStyle_BubbleColorPreset_GRADIENT_BASIL | ChatStyle_BubbleColorPreset_GRADIENT_SUBLIME | ChatStyle_BubbleColorPreset_GRADIENT_SEA | ChatStyle_BubbleColorPreset_GRADIENT_TANGERINE.
#[global] Instance ChatStyle_BubbleColorPreset_enum : ProtoEnum ChatStyle_BubbleColorPreset := { default_value := ChatStyle_BubbleColorPreset_UNKNOWN_BUBBLE_COLOR_PRESET;
  number e := match e with ChatStyle_BubbleColorPreset_UNKNOWN_BUBBLE_COLOR_PRESET => 0 | ChatStyle_BubbleColorPreset_SOLID_ULTRAMARINE => 1 | ChatStyle_BubbleColorPreset_SOLID_CRIMSON => 2 | ChatStyle_BubbleColorPreset_SOLID_VERMILION => 3 | ChatStyle_BubbleColorPreset_SOLID_BURLAP => 4 | ChatStyle_BubbleColorPreset_SOLID_FOREST => 5 | ChatStyle_BubbleColorPreset_SOLID_WINTERGREEN => 6 | ChatStyle_BubbleColorPreset_SOLID_TEAL => 7 | ChatStyle_BubbleColorPreset_SOLID_BLUE => 8 | ChatStyle_BubbleColorPreset_SOLID_INDIGO => 9 | ChatStyle_BubbleColorPreset_SOLID_VIOLET => 10 | ChatStyle_BubbleColorPreset_SOLID_PLUM => 11 | ChatStyle_BubbleColorPreset_SOLID_TAUPE => 12 | ChatStyle_BubbleColorPreset_SOLID_STEEL => 13 | ChatStyle_BubbleColorPreset_GRADIENT_EMBER => 14 | ChatStyle_BubbleColorPreset_GRADIENT_MIDNIGHT => 15 | ChatStyle_BubbleColorPreset_GRADIENT_INFRARED => 16 | ChatStyle_BubbleColorPreset_GRADIENT_LAGOON => 17 | ChatStyle_BubbleColorPreset_GRADIENT_FLUORESCENT => 18 | ChatStyle_BubbleColorPreset_GRADIENT_BASIL => 19 | ChatStyle_BubbleColorPreset_GRADIENT_SUBLIME => 20 | ChatStyle_BubbleColorPreset_GRADIENT_SEA => 21 | ChatStyle_BubbleColorPreset_GRADIENT_TANGERINE => 22 end }.
#[global] Instance ChatStyle_BubbleColorPreset_eq_dec : EqDecision ChatStyle_BubbleColorPreset.
Proof. solve_decision. Defined.
Inductive NotificationProfile_DayOfWeek := NotificationProfile_DayOfWeek_UNKNOWN | NotificationProfile_DayOfWeek_MONDAY | NotificationProfile_DayOfWeek_TUESDAY | NotificationProfile_DayOfWeek_WEDNESDAY | NotificationProfile_DayOfWeek_THURSDAY | NotificationProfile_DayOfWeek_FRIDAY | NotificationProfile_DayOfWeek_SATURDAY | NotificationProfile_DayOfWeek_SUNDAY.
#[global] Instance NotificationProfile_DayOfWeek_enum : ProtoEnum NotificationProfile_DayOfWeek := { default_value := NotificationProfile_DayOfWeek_UNKNOWN;
  number e := match e with NotificationProfile_DayOfWeek_UNKNOWN => 0 | NotificationProfile_DayOfWeek_MONDAY => 1 | NotificationProfile_DayOfWeek_TUESDAY => 2 | NotificationProfile_DayOfWeek_WEDNESDAY => 3 | NotificationProfile_DayOfWeek_THURSDAY => 4 | NotificationProfile_DayOfWeek_FRIDAY => 5 | NotificationProfile_DayOfWeek_SATURDAY => 6 | NotificationProfile_DayOfWeek_SUNDAY => 7 end }.
#[global] Instance NotificationProfile_DayOfWeek_eq_dec : EqDecision NotificationProfile_DayOfWeek.
Proof. solve_decision. Defined.
Inductive ChatFolder_FolderType := ChatFolder_FolderType_UNKNOWN | ChatFolder_FolderType_ALL | ChatFolder_FolderType_CUSTOM.
#[global] Instance ChatFolder_FolderType_enum : ProtoEnum ChatFolder_FolderType := { default_value := ChatFolder_FolderType_UNKNOWN;
  number e := match e with ChatFolder_FolderType_UNKNOWN => 0 | ChatFolder_FolderType_ALL => 1 | ChatFolder_FolderType_CUSTOM => 2 end }.
#[global] Instance ChatFolder_FolderType_eq_dec : EqDecision ChatFolder_FolderType.
Proof. solve_decision. Defined.

(** ** Messages *)

Record BackupInfo := mkBackupInfo { BackupInfo_version : Z;
  BackupInfo_backupTimeMs : Z;
  BackupInfo_mediaRootBackupKey : bytes;
  BackupInfo_currentAppVersion : string;
  BackupInfo_firstAppVersion : string;
  BackupInfo_debugInfo : bytes }.
Record AccountData_UsernameLink := mkAccountData_UsernameLink { AccountData_UsernameLink_entropy : bytes;
  AccountData_UsernameLink_serverId : bytes;
  AccountData_UsernameLink_color : EnumOrUnknown AccountData_UsernameLink_Color }.
Record AccountData_AutoDownloadSettings := mkAccountData_AutoDownloadSettings { AccountData_AutoDownloadSettings_images : EnumOrUnknown AccountData_AutoDownloadSettings_AutoDownloadOption;
  AccountData_AutoDownloadSettings_audio : EnumOrUnknown AccountData_AutoDownloadSettings_AutoDownloadOption;
  AccountData_AutoDownloadSettings_video : EnumOrUnknown AccountData_AutoDownloadSettings_AutoDownloadOption;
  AccountData_AutoDownloadSettings_documents : EnumOrUnknown AccountData_AutoDownloadSettings_AutoDownloadOption }.
Inductive FilePointer_LocatorInfo_IntegrityCheck :=
| FilePointer_LocatorInfo_plaintextHash (_ : bytes)
| FilePointer_LocatorInfo_encryptedDigest (_ : bytes).
Record FilePointer_LocatorInfo := mkFilePointer_LocatorInfo { FilePointer_LocatorInfo_key : bytes;
  FilePointer_LocatorInfo_integrityCheck : option FilePointer_LocatorInfo_IntegrityCheck;
  FilePointer_LocatorInfo_size : Z;
  FilePointer_LocatorInfo_transitCdnKey : option string;
  FilePointer_LocatorInfo_transitCdnNumber : option Z;
  FilePointer_LocatorInfo_transitTierUploadTimestamp : option Z;
  FilePointer_LocatorInfo_mediaTierCdnNumber : option Z;
  FilePointer_LocatorInfo_localKey : option bytes;
  FilePointer_LocatorInfo_special_fields : list (Z * UnknownValue) }.
Record FilePointer := mkFilePointer { FilePointer_contentType : option string;
  FilePointer_incrementalMac : option bytes;
  FilePointer_incrementalMacChunkSize : option Z;
  FilePointer_fileName : option string;
  FilePointer_width : option Z;
  FilePointer_height : option Z;
  FilePointer_caption : option string;
  FilePointer_blurHash : option string;
  FilePointer_locatorInfo : option FilePointer_LocatorInfo }.
Record ChatStyle_AutomaticBubbleColor := mkChatStyle_AutomaticBubbleColor {}.
Inductive ChatStyle_Wallpaper :=
| ChatStyle_wallpaperPreset (_ : EnumOrUnknown ChatStyle_WallpaperPreset)
| ChatStyle_wallpaperPhoto (_ : FilePointer).
Inductive ChatStyle_BubbleColor :=
| ChatStyle_autoBubbleColor (_ : ChatStyle_AutomaticBubbleColor)
| ChatStyle_bubbleColorPreset (_ : EnumOrUnknown ChatStyle_BubbleColorPreset)
| ChatStyle_customColorId (_ : Z).
Record ChatStyle := mkChatStyle { ChatStyle_wallpaper : option ChatStyle_Wallpaper;
  ChatStyle_bubbleColor : option ChatStyle_BubbleColor;
  ChatStyle_dimWallpaperInDarkMode : bool }.
Record ChatStyle_Gradient := mkChatStyle_Gradient { ChatStyle_Gradient_angle : Z;
  ChatStyle_Gradient_colors : list Z;
  ChatStyle_Gradient_positions : list spec_float }.
Inductive ChatStyle_CustomChatColor_Color :=
| ChatStyle_CustomChatColor_solid (_ : Z)
| ChatStyle_CustomChatColor_gradient (_ : ChatStyle_Gradient).
Record ChatStyle_CustomChatColor := mkChatStyle_CustomChatColor { ChatStyle_CustomChatColor_id : Z;
  ChatStyle_CustomChatColor_color : option ChatStyle_CustomChatColor_Color }.
Record AccountData_AccountSettings := mkAccountData_AccountSettings { AccountData_AccountSettings_readReceipts : bool;
  AccountData_AccountSettings_sealedSenderIndicators : bool;
  AccountData_AccountSettings_typingIndicators : bool;
  AccountData_AccountSettings_linkPreviews : bool;
  AccountData_AccountSettings_notDiscoverableByPhoneNumber : bool;
  AccountData_AccountSettings_preferContactAvatars : bool;
  AccountData_AccountSettings_universalExpireTimerSeconds : Z;
  AccountData_AccountSettings_preferredReactionEmoji : list string;
  AccountData_AccountSettings_displayBadgesOnProfile : bool;
  AccountData_AccountSettings_keepMutedChatsArchived : bool;
  AccountData_AccountSettings_hasSetMyStoriesPrivacy : bool;
  AccountData_AccountSettings_hasViewedOnboardingStory : bool;
  AccountData_AccountSettings_storiesDisabled : bool;
  AccountData_AccountSettings_storyViewReceiptsEnabled : option bool;
  AccountData_AccountSettings_hasSeenGroupStoryEducationSheet : bool;
  AccountData_AccountSettings_hasCompletedUsernameOnboarding : bool;
  AccountData_AccountSettings_phoneNumberSharingMode : EnumOrUnknown AccountData_PhoneNumberSharingMode;
  AccountData_AccountSettings_defaultChatStyle : option ChatStyle;
  AccountData_AccountSettings_customChatColors : list ChatStyle_CustomChatColor;
  AccountData_AccountSettings_optimizeOnDeviceStorage : bool;
  AccountData_AccountSettings_backupTier : option Z;
  AccountData_AccountSettings_defaultSentMediaQuality : EnumOrUnknown AccountData_SentMediaQuality;
  AccountData_AccountSettings_autoDownloadSettings : option AccountData_AutoDownloadSettings;
  AccountData_AccountSettings_screenLockTimeoutMinutes : option Z;
  AccountData_AccountSettings_pinReminders : option bool;
  AccountData_AccountSettings_appTheme : EnumOrUnknown AccountData_AppTheme;
  AccountData_AccountSettings_callsUseLessDataSetting : EnumOrUnknown AccountData_CallsUseLessDataSetting }.
Record AccountData_SubscriberData := mkAccountData_SubscriberData { AccountData_SubscriberData_subscriberId : bytes;
  AccountData_SubscriberData_currencyCode : string;
  AccountData_SubscriberData_manuallyCancelled : bool }.
Inductive AccountData_IAPSubscriberData_IapSubscriptionId :=
| AccountData_IAPSubscriberData_purchaseToken (_ : string)
| AccountData_IAPSubscriberData_originalTransactionId (_ : Z).
Record AccountData_IAPSubscriberData := mkAccountData_IAPSubscriberData { AccountData_IAPSubscriberData_subscriberId : bytes;
  AccountData_IAPSubscriberData_iapSubscriptionId : option AccountData_IAPSubscriberData_IapSubscriptionId }.
Record AccountData_AndroidSpecificSettings := mkAccountData_AndroidSpecificSettings { AccountData_AndroidSpecificSettings_useSystemEmoji : bool;
  AccountData_AndroidSpecificSettings_screenshotSecurity : bool;
  AccountData_AndroidSpecificSettings_navigationBarSize : EnumOrUnknown AccountData_AndroidSpecificSettings_NavigationBarSize }.
Record AccountData := mkAccountData { AccountData_profileKey : bytes;
  AccountData_username : option string;
  AccountData_usernameLink : option AccountData_UsernameLink;
  AccountData_givenName : string;
  AccountData_familyName : string;
  AccountData_avatarUrlPath : string;
  AccountData_donationSubscriberData : option AccountData_SubscriberData;
  AccountData_accountSettings : option AccountData_AccountSettings;
  AccountData_backupsSubscriberData : option AccountData_IAPSubscriberData;
  AccountData_svrPin : string;
  AccountData_androidSpecificSettings : option AccountData_AndroidSpecificSettings;
  AccountData_bioText : string;
  AccountData_bioEmoji : string }.
Record Contact_Registered := mkContact_Registered {}.
Record Contact_NotRegistered := mkContact_NotRegistered { Contact_NotRegistered_unregisteredTimestamp : Z }.
Record Contact_Name := mkContact_Name { Contact_Name_given : string;
  Contact_Name_family : string }.
Inductive Contact_Registration :=
| Contact_registered (_ : Contact_Registered)
| Contact_notRegistered (_ : Contact_NotRegistered).
Record Contact := mkContact { Contact_aci : option bytes;
  Contact_pni : option bytes;
  Contact_username : option string;
  Contact_e164 : option Z;
  Contact_blocked : bool;
  Contact_visibility : EnumOrUnknown Contact_Visibility;
  Contact_registration : option Contact_Registration;
  Contact_profileKey : option bytes;
  Contact_profileSharing : bool;
  Contact_profileGivenName : option string;
  Contact_profileFamilyName : option string;
  Contact_hideStory : bool;
  Contact_identityKey : option bytes;
  Contact_identityState : EnumOrUnknown Contact_IdentityState;
  Contact_nickname : option Contact_Name;
  Contact_note : string;
  Contact_systemGivenName : string;
  Contact_systemFamilyName : string;
  Contact_systemNickname : string;
  Contact_avatarColor : option (EnumOrUnknown AvatarColor) }.
Inductive Group_GroupAttributeBlob_Content :=
| Group_GroupAttributeBlob_title (_ : string)
| Group_GroupAttributeBlob_avatar (_ : bytes)
| Group_GroupAttributeBlob_disappearingMessagesDuration (_ : Z)
| Group_GroupAttributeBlob_descriptionText (_ : string).
Record Group_GroupAttributeBlob := mkGroup_GroupAttributeBlob { Group_GroupAttributeBlob_content : option Group_GroupAttributeBlob_Content }.
Record Group_Member := mkGroup_Member { Group_Member_userId : bytes;
  Group_Member_role : EnumOrUnknown Group_Member_Role;
  Group_Member_joinedAtVersion : Z }.
Record Group_MemberPendingProfileKey := mkGroup_MemberPendingProfileKey { Group_MemberPendingProfileKey_member : option Group_Member;
  Group_MemberPendingProfileKey_addedByUserId : bytes;
  Group_MemberPendingProfileKey_timestamp : Z }.
Record Group_MemberPendingAdminApproval := mkGroup_MemberPendingAdminApproval { Group_MemberPendingAdminApproval_userId : bytes;
  Group_MemberPendingAdminApproval_timestamp : Z }.
Record Group_MemberBanned := mkGroup_MemberBanned { Group_MemberBanned_userId : bytes;
  Group_MemberBanned_timestamp : Z }.
Record Group_AccessControl := mkGroup_AccessControl { Group_AccessControl_attributes : EnumOrUnknown Group_AccessControl_AccessRequired;
  Group_AccessControl_members : EnumOrUnknown Group_AccessControl_AccessRequired;
  Group_AccessControl_addFromInviteLink : EnumOrUnknown Group_AccessControl_AccessRequired }.
Record Group_GroupSnapshot := mkGroup_GroupSnapshot { Group_GroupSnapshot_title : option Group_GroupAttributeBlob;
  Group_GroupSnapshot_description : option Group_GroupAttributeBlob;
  Group_GroupSnapshot_avatarUrl : string;
  Group_GroupSnapshot_disappearingMessagesTimer : option Group_GroupAttributeBlob;
  Group_GroupSnapshot_accessControl : option Group_AccessControl;
  Group_GroupSnapshot_version : Z;
  Group_GroupSnapshot_members : list Group_Member;
  Group_GroupSnapshot_membersPendingProfileKey : list Group_MemberPendingProfileKey;
  Group_GroupSnapshot_membersPendingAdminApproval : list Group_MemberPendingAdminApproval;
  Group_GroupSnapshot_inviteLinkPassword : bytes;
  Group_GroupSnapshot_announcements_only : bool;
  Group_GroupSnapshot_members_banned : list Group_MemberBanned }.
Record Group := mkGroup { Group_masterKey : bytes;
  Group_whitelisted : bool;
  Group_hideStory : bool;
  Group_storySendMode : EnumOrUnknown Group_StorySendMode;
  Group_snapshot : option Group_GroupSnapshot;
  Group_blocked : bool;
  Group_avatarColor : option (EnumOrUnknown AvatarColor) }.
Record Self_ := mkSelf_ { Self_avatarColor : option (EnumOrUnknown AvatarColor) }.
Record ReleaseNotes := mkReleaseNotes {}.
Record CallLink := mkCallLink { CallLink_rootKey : bytes;
  CallLink_adminKey : option bytes;
  CallLink_name : string;
  CallLink_restrictions : EnumOrUnknown CallLink_Restrictions;
  CallLink_expirationMs : Z;
  CallLink_epoch : option bytes }.
Record DistributionList := mkDistributionList { DistributionList_name : string;
  DistributionList_allowReplies : bool;
  DistributionList_privacyMode : EnumOrUnknown DistributionList_PrivacyMode;
  DistributionList_memberRecipientIds : list Z }.
Inductive DistributionListItem_Item :=
| DistributionListItem_deletionTimestamp (_ : Z)
| DistributionListItem_distributionList (_ : DistributionList).
Record DistributionListItem := mkDistributionListItem { DistributionListItem_distributionId : bytes;
  DistributionListItem_item : option DistributionListItem_Item }.
Inductive Recipient_Destination :=
| Recipient_contact (_ : Contact)
| Recipient_group (_ : Group)
| Recipient_distributionList (_ : DistributionListItem)
| Recipient_self (_ : Self_)
| Recipient_releaseNotes (_ : ReleaseNotes)
| Recipient_callLink (_ : CallLink).
Record Recipient := mkRecipient { Recipient_id : Z;
  Recipient_destination : option Recipient_Destination }.
Record Chat := mkChat { Chat_id : Z;
  Chat_recipientId : Z;
  Chat_archived : bool;
  Chat_pinnedOrder : option Z;
  Chat_expirationTimerMs : option Z;
  Chat_muteUntilMs : option Z;
  Chat_markedUnread : bool;
  Chat_dontNotifyForMentionsIfMuted : bool;
  Chat_style : option ChatStyle;
  Chat_expireTimerVersion : Z }.
Record AdHocCall := mkAdHocCall { AdHocCall_callId : Z;
  AdHocCall_recipientId : Z;
  AdHocCall_state : EnumOrUnknown AdHocCall_State;
  AdHocCall_callTimestamp : Z }.
Record ChatItem_IncomingMessageDetails := mkChatItem_IncomingMessageDetails { ChatItem_IncomingMessageDetails_dateReceived : Z;
  ChatItem_IncomingMessageDetails_dateServerSent : option Z;
  ChatItem_IncomingMessageDetails_read : bool;
  ChatItem_IncomingMessageDetails_sealedSender : bool }.
Record SendStatus_Pending := mkSendStatus_Pending {}.
Record SendStatus_Sent := mkSendStatus_Sent { SendStatus_Sent_sealedSender : bool }.
Record SendStatus_Delivered := mkSendStatus_Delivered { SendStatus_Delivered_sealedSender : bool }.
Record SendStatus_Read := mkSendStatus_Read { SendStatus_Read_sealedSender : bool }.
Record SendStatus_Viewed := mkSendStatus_Viewed { SendStatus_Viewed_sealedSender : bool }.
Record SendStatus_Skipped := mkSendStatus_Skipped {}.
Record SendStatus_Failed := mkSendStatus_Failed { SendStatus_Failed_reason : EnumOrUnknown SendStatus_Failed_FailureReason }.
Inductive SendStatus_DeliveryStatus :=
| SendStatus_pending (_ : SendStatus_Pending)
| SendStatus_sent (_ : SendStatus_Sent)
| SendStatus_delivered (_ : SendStatus_Delivered)
| SendStatus_read (_ : SendStatus_Read)
| SendStatus_viewed (_ : SendStatus_Viewed)
| SendStatus_skipped (_ : SendStatus_Skipped)
| SendStatus_failed (_ : SendStatus_Failed).
Record SendStatus := mkSendStatus { SendStatus_recipientId : Z;
  SendStatus_timestamp : Z;
  SendStatus_deliveryStatus : option SendStatus_DeliveryStatus }.
Record ChatItem_OutgoingMessageDetails := mkChatItem_OutgoingMessageDetails { ChatItem_OutgoingMessageDetails_sendStatus : list SendStatus;
  ChatItem_OutgoingMessageDetails_dateReceived : Z }.
Record ChatItem_DirectionlessMessageDetails := mkChatItem_DirectionlessMessageDetails {}.
Inductive BodyRange_AssociatedValue :=
| BodyRange_mentionAci (_ : bytes)
| BodyRange_style (_ : EnumOrUnknown BodyRange_Style).
Record BodyRange := mkBodyRange { BodyRange_start : Z;
  BodyRange_length : Z;
  BodyRange_associatedValue : option BodyRange_AssociatedValue }.
Record Text := mkText { Text_body : string;
  Text_bodyRanges : list BodyRange }.
Record LinkPreview := mkLinkPreview { LinkPreview_url : string;
  LinkPreview_title : option string;
  LinkPreview_image : option FilePointer;
  LinkPreview_description : option string;
  LinkPreview_date : option Z }.
Record MessageAttachment := mkMessageAttachment { MessageAttachment_pointer : option FilePointer;
  MessageAttachment_flag : EnumOrUnknown MessageAttachment_Flag;
  MessageAttachment_wasDownloaded : bool;
  MessageAttachment_clientUuid : option bytes }.
Record Quote_QuotedAttachment := mkQuote_QuotedAttachment { Quote_QuotedAttachment_contentType : option string;
  Quote_QuotedAttachment_fileName : option string;
  Quote_QuotedAttachment_thumbnail : option MessageAttachment }.
Record Quote := mkQuote { Quote_targetSentTimestamp : option Z;
  Quote_authorId : Z;
  Quote_text : option Text;
  Quote_attachments : list Quote_QuotedAttachment;
  Quote_type : EnumOrUnknown Quote_Type }.
Record Reaction := mkReaction { Reaction_emoji : string;
  Reaction_authorId : Z;
  Reaction_sentTimestamp : Z;
  Reaction_sortOrder : Z }.
Record StandardMessage := mkStandardMessage { StandardMessage_quote : option Quote;
  StandardMessage_text : option Text;
  StandardMessage_attachments : list MessageAttachment;
  StandardMessage_linkPreview : list LinkPreview;
  StandardMessage_longText : option FilePointer;
  StandardMessage_reactions : list Reaction }.
Record ContactAttachment_Name := mkContactAttachment_Name { ContactAttachment_Name_givenName : string;
  ContactAttachment_Name_familyName : string;
  ContactAttachment_Name_prefix : string;
  ContactAttachment_Name_suffix : string;
  ContactAttachment_Name_middleName : string;
  ContactAttachment_Name_nickname : string }.
Record ContactAttachment_Phone := mkContactAttachment_Phone { ContactAttachment_Phone_value : string;
  ContactAttachment_Phone_type : EnumOrUnknown ContactAttachment_Phone_Type;
  ContactAttachment_Phone_label : string }.
Record ContactAttachment_Email := mkContactAttachment_Email { ContactAttachment_Email_value : string;
  ContactAttachment_Email_type : EnumOrUnknown ContactAttachment_Email_Type;
  ContactAttachment_Email_label : string }.
Record ContactAttachment_PostalAddress := mkContactAttachment_PostalAddress { ContactAttachment_PostalAddress_type : EnumOrUnknown ContactAttachment_PostalAddress_Type;
  ContactAttachment_PostalAddress_label : string;
  ContactAttachment_PostalAddress_street : string;
  ContactAttachment_PostalAddress_pobox : string;
  ContactAttachment_PostalAddress_neighborhood : string;
  ContactAttachment_PostalAddress_city : string;
  ContactAttachment_PostalAddress_region : string;
  ContactAttachment_PostalAddress_postcode : string;
  ContactAttachment_PostalAddress_country : string }.
Record ContactAttachment := mkContactAttachment { ContactAttachment_name : option ContactAttachment_Name;
  ContactAttachment_number : list ContactAttachment_Phone;
  ContactAttachment_email : list ContactAttachment_Email;
  ContactAttachment_address : list ContactAttachment_PostalAddress;
  ContactAttachment_avatar : option FilePointer;
  ContactAttachment_organization : string }.
Record ContactMessage := mkContactMessage { ContactMessage_contact : option ContactAttachment;
  ContactMessage_reactions : list Reaction }.
Record DirectStoryReplyMessage_TextReply := mkDirectStoryReplyMessage_TextReply { DirectStoryReplyMessage_TextReply_text : option Text;
  DirectStoryReplyMessage_TextReply_longText : option FilePointer }.
Inductive DirectStoryReplyMessage_Reply :=
| DirectStoryReplyMessage_textReply (_ : DirectStoryReplyMessage_TextReply)
| DirectStoryReplyMessage_emoji (_ : string).
Record DirectStoryReplyMessage := mkDirectStoryReplyMessage { DirectStoryReplyMessage_reply : option DirectStoryReplyMessage_Reply;
  DirectStoryReplyMessage_reactions : list Reaction }.
Record PaymentNotification_TransactionDetails_FailedTransaction := mkPaymentNotification_TransactionDetails_FailedTransaction { PaymentNotification_TransactionDetails_FailedTransaction_reason : EnumOrUnknown PaymentNotification_TransactionDetails_FailedTransaction_FailureReason }.
Record PaymentNotification_TransactionDetails_MobileCoinTxoIdentification := mkPaymentNotification_TransactionDetails_MobileCoinTxoIdentification { PaymentNotification_TransactionDetails_MobileCoinTxoIdentification_publicKey : list bytes;
  PaymentNotification_TransactionDetails_MobileCoinTxoIdentification_keyImages : list bytes }.
Record PaymentNotification_TransactionDetails_Transaction := mkPaymentNotification_TransactionDetails_Transaction { PaymentNotification_TransactionDetails_Transaction_status : EnumOrUnknown PaymentNotification_TransactionDetails_Transaction_Status;
  PaymentNotification_TransactionDetails_Transaction_mobileCoinIdentification : option PaymentNotification_TransactionDetails_MobileCoinTxoIdentification;
  PaymentNotification_TransactionDetails_Transaction_timestamp : option Z;
  PaymentNotification_TransactionDetails_Transaction_blockIndex : option Z;
  PaymentNotification_TransactionDetails_Transaction_blockTimestamp : option Z;
  PaymentNotification_TransactionDetails_Transaction_transaction : option bytes;
  PaymentNotification_TransactionDetails_Transaction_receipt : option bytes }.
Inductive PaymentNotification_TransactionDetails_Payment :=
| PaymentNotification_TransactionDetails_transaction (_ : PaymentNotification_TransactionDetails_Transaction)
| PaymentNotification_TransactionDetails_failedTransaction (_ : PaymentNotification_TransactionDetails_FailedTransaction).
Record PaymentNotification_TransactionDetails := mkPaymentNotification_TransactionDetails { PaymentNotification_TransactionDetails_payment : option PaymentNotification_TransactionDetails_Payment }.
Record PaymentNotification := mkPaymentNotification { PaymentNotification_amountMob : option string;
  PaymentNotification_feeMob : option string;
  PaymentNotification_note : option string;
  PaymentNotification_transactionDetails : option PaymentNotification_TransactionDetails }.
Record GiftBadge := mkGiftBadge { GiftBadge_receiptCredentialPresentation : bytes;
  GiftBadge_state : EnumOrUnknown GiftBadge_State }.
Record ViewOnceMessage := mkViewOnceMessage { ViewOnceMessage_attachment : option MessageAttachment;
  ViewOnceMessage_reactions : list Reaction }.
Record Sticker := mkSticker { Sticker_packId : bytes;
  Sticker_packKey : bytes;
  Sticker_stickerId : Z;
  Sticker_emoji : option string;
  Sticker_data : option FilePointer }.
Record StickerMessage := mkStickerMessage { StickerMessage_sticker : option Sticker;
  StickerMessage_reactions : list Reaction }.
Record RemoteDeletedMessage := mkRemoteDeletedMessage {}.
Record Poll_PollOption_PollVote := mkPoll_PollOption_PollVote { Poll_PollOption_PollVote_voterId : Z;
  Poll_PollOption_PollVote_voteCount : Z }.
Record Poll_PollOption := mkPoll_PollOption { Poll_PollOption_option : string;
  Poll_PollOption_votes : list Poll_PollOption_PollVote }.
Record Poll := mkPoll { Poll_question : string;
  Poll_allowMultiple : bool;
  Poll_options : list Poll_PollOption;
  Poll_hasEnded : bool;
  Poll_reactions : list Reaction }.
Record IndividualCall := mkIndividualCall { IndividualCall_callId : option Z;
  IndividualCall_type : EnumOrUnknown IndividualCall_Type;
  IndividualCall_direction : EnumOrUnknown IndividualCall_Direction;
  IndividualCall_state : EnumOrUnknown IndividualCall_State;
  IndividualCall_startedCallTimestamp : Z;
  IndividualCall_read : bool }.
Record GroupCall := mkGroupCall { GroupCall_callId : option Z;
  GroupCall_state : EnumOrUnknown GroupCall_State;
  GroupCall_ringerRecipientId : option Z;
  GroupCall_startedCallRecipientId : option Z;
  GroupCall_startedCallTimestamp : Z;
  GroupCall_endedCallTimestamp : option Z;
  GroupCall_read : bool }.
Record SimpleChatUpdate := mkSimpleChatUpdate { SimpleChatUpdate_type : EnumOrUnknown SimpleChatUpdate_Type }.
Record ExpirationTimerChatUpdate := mkExpirationTimerChatUpdate { ExpirationTimerChatUpdate_expiresInMs : Z }.
Record ProfileChangeChatUpdate := mkProfileChangeChatUpdate { ProfileChangeChatUpdate_previousName : string;
  ProfileChangeChatUpdate_newName : string }.
Inductive LearnedProfileChatUpdate_PreviousName :=
| LearnedProfileChatUpdate_e164 (_ : Z)
| LearnedProfileChatUpdate_username (_ : string).
Record LearnedProfileChatUpdate := mkLearnedProfileChatUpdate { LearnedProfileChatUpdate_previousName : option LearnedProfileChatUpdate_PreviousName }.
Record ThreadMergeChatUpdate := mkThreadMergeChatUpdate { ThreadMergeChatUpdate_previousE164 : Z }.
Record SessionSwitchoverChatUpdate := mkSessionSwitchoverChatUpdate { SessionSwitchoverChatUpdate_e164 : Z }.
Record GenericGroupUpdate := mkGenericGroupUpdate { GenericGroupUpdate_updaterAci : option bytes }.
Record GroupCreationUpdate := mkGroupCreationUpdate { GroupCreationUpdate_updaterAci : option bytes }.
Record GroupNameUpdate := mkGroupNameUpdate { GroupNameUpdate_updaterAci : option bytes;
  GroupNameUpdate_newGroupName : option string }.
Record GroupAvatarUpdate := mkGroupAvatarUpdate { GroupAvatarUpdate_updaterAci : option bytes;
  GroupAvatarUpdate_wasRemoved : bool }.
Record GroupDescriptionUpdate := mkGroupDescriptionUpdate { GroupDescriptionUpdate_updaterAci : option bytes;
  GroupDescriptionUpdate_newDescription : option string }.
Record GroupMembershipAccessLevelChangeUpdate := mkGroupMembershipAccessLevelChangeUpdate { GroupMembershipAccessLevelChangeUpdate_updaterAci : option bytes;
  GroupMembershipAccessLevelChangeUpdate_accessLevel : EnumOrUnknown GroupV2AccessLevel }.
Record GroupAttributesAccessLevelChangeUpdate := mkGroupAttributesAccessLevelChangeUpdate { GroupAttributesAccessLevelChangeUpdate_updaterAci : option bytes;
  GroupAttributesAccessLevelChangeUpdate_accessLevel : EnumOrUnknown GroupV2AccessLevel }.
Record GroupAnnouncementOnlyChangeUpdate := mkGroupAnnouncementOnlyChangeUpdate { GroupAnnouncementOnlyChangeUpdate_updaterAci : option bytes;
  GroupAnnouncementOnlyChangeUpdate_isAnnouncementOnly : bool }.
Record GroupAdminStatusUpdate := mkGroupAdminStatusUpdate { GroupAdminStatusUpdate_updaterAci : option bytes;
  GroupAdminStatusUpdate_memberAci : bytes;
  GroupAdminStatusUpdate_wasAdminStatusGranted : bool }.
Record GroupMemberLeftUpdate := mkGroupMemberLeftUpdate { GroupMemberLeftUpdate_aci : bytes }.
Record GroupMemberRemovedUpdate := mkGroupMemberRemovedUpdate { GroupMemberRemovedUpdate_removerAci : option bytes;
  GroupMemberRemovedUpdate_removedAci : bytes }.
Record SelfInvitedToGroupUpdate := mkSelfInvitedToGroupUpdate { SelfInvitedToGroupUpdate_inviterAci : option bytes }.
Record SelfInvitedOtherUserToGroupUpdate := mkSelfInvitedOtherUserToGroupUpdate { SelfInvitedOtherUserToGroupUpdate_inviteeServiceId : bytes }.
Record GroupUnknownInviteeUpdate := mkGroupUnknownInviteeUpdate { GroupUnknownInviteeUpdate_inviterAci : option bytes;
  GroupUnknownInviteeUpdate_inviteeCount : Z }.
Record GroupInvitationAcceptedUpdate := mkGroupInvitationAcceptedUpdate { GroupInvitationAcceptedUpdate_inviterAci : option bytes;
  GroupInvitationAcceptedUpdate_newMemberAci : bytes }.
Record GroupInvitationDeclinedUpdate := mkGroupInvitationDeclinedUpdate { GroupInvitationDeclinedUpdate_inviterAci : option bytes;
  GroupInvitationDeclinedUpdate_inviteeAci : option bytes }.
Record GroupMemberJoinedUpdate := mkGroupMemberJoinedUpdate { GroupMemberJoinedUpdate_newMemberAci : bytes }.
Record GroupMemberAddedUpdate := mkGroupMemberAddedUpdate { GroupMemberAddedUpdate_updaterAci : option bytes;
  GroupMemberAddedUpdate_newMemberAci : bytes;
  GroupMemberAddedUpdate_hadOpenInvitation : bool;
  GroupMemberAddedUpdate_inviterAci : option bytes }.
Record GroupSelfInvitationRevokedUpdate := mkGroupSelfInvitationRevokedUpdate { GroupSelfInvitationRevokedUpdate_revokerAci : option bytes }.
Record GroupInvitationRevokedUpdate_Invitee := mkGroupInvitationRevokedUpdate_Invitee { GroupInvitationRevokedUpdate_Invitee_inviterAci : option bytes;
  GroupInvitationRevokedUpdate_Invitee_inviteeAci : option bytes;
  GroupInvitationRevokedUpdate_Invitee_inviteePni : option bytes }.
Record GroupInvitationRevokedUpdate := mkGroupInvitationRevokedUpdate { GroupInvitationRevokedUpdate_updaterAci : option bytes;
  GroupInvitationRevokedUpdate_invitees : list GroupInvitationRevokedUpdate_Invitee }.
Record GroupJoinRequestUpdate := mkGroupJoinRequestUpdate { GroupJoinRequestUpdate_requestorAci : bytes }.
Record GroupJoinRequestApprovalUpdate := mkGroupJoinRequestApprovalUpdate { GroupJoinRequestApprovalUpdate_requestorAci : bytes;
  GroupJoinRequestApprovalUpdate_updaterAci : option bytes;
  GroupJoinRequestApprovalUpdate_wasApproved : bool }.
Record GroupJoinRequestCanceledUpdate := mkGroupJoinRequestCanceledUpdate { GroupJoinRequestCanceledUpdate_requestorAci : bytes }.
Record GroupSequenceOfRequestsAndCancelsUpdate := mkGroupSequenceOfRequestsAndCancelsUpdate { GroupSequenceOfRequestsAndCancelsUpdate_requestorAci : bytes;
  GroupSequenceOfRequestsAndCancelsUpdate_count : Z }.
Record GroupInviteLinkResetUpdate := mkGroupInviteLinkResetUpdate { GroupInviteLinkResetUpdate_updaterAci : option bytes }.
Record GroupInviteLinkEnabledUpdate := mkGroupInviteLinkEnabledUpdate { GroupInviteLinkEnabledUpdate_updaterAci : option bytes;
  GroupInviteLinkEnabledUpdate_linkRequiresAdminApproval : bool }.
Record GroupInviteLinkAdminApprovalUpdate := mkGroupInviteLinkAdminApprovalUpdate { GroupInviteLinkAdminApprovalUpdate_updaterAci : option bytes;
  GroupInviteLinkAdminApprovalUpdate_linkRequiresAdminApproval : bool }.
Record GroupInviteLinkDisabledUpdate := mkGroupInviteLinkDisabledUpdate { GroupInviteLinkDisabledUpdate_updaterAci : option bytes }.
Record GroupMemberJoinedByLinkUpdate := mkGroupMemberJoinedByLinkUpdate { GroupMemberJoinedByLinkUpdate_newMemberAci : bytes }.
Record GroupV2MigrationUpdate := mkGroupV2MigrationUpdate {}.
Record GroupV2MigrationSelfInvitedUpdate := mkGroupV2MigrationSelfInvitedUpdate {}.
Record GroupV2MigrationInvitedMembersUpdate := mkGroupV2MigrationInvitedMembersUpdate { GroupV2MigrationInvitedMembersUpdate_invitedMembersCount : Z }.
Record GroupV2MigrationDroppedMembersUpdate := mkGroupV2MigrationDroppedMembersUpdate { GroupV2MigrationDroppedMembersUpdate_droppedMembersCount : Z }.
Record GroupExpirationTimerUpdate := mkGroupExpirationTimerUpdate { GroupExpirationTimerUpdate_expiresInMs : Z;
  GroupExpirationTimerUpdate_updaterAci : option bytes }.
Inductive GroupChangeChatUpdate_Update_Update :=
| GroupChangeChatUpdate_Update_genericGroupUpdate (_ : GenericGroupUpdate)
| GroupChangeChatUpdate_Update_groupCreationUpdate (_ : GroupCreationUpdate)
| GroupChangeChatUpdate_Update_groupNameUpdate (_ : GroupNameUpdate)
| GroupChangeChatUpdate_Update_groupAvatarUpdate (_ : GroupAvatarUpdate)
| GroupChangeChatUpdate_Update_groupDescriptionUpdate (_ : GroupDescriptionUpdate)
| GroupChangeChatUpdate_Update_groupMembershipAccessLevelChangeUpdate (_ : GroupMembershipAccessLevelChangeUpdate)
| GroupChangeChatUpdate_Update_groupAttributesAccessLevelChangeUpdate (_ : GroupAttributesAccessLevelChangeUpdate)
| GroupChangeChatUpdate_Update_groupAnnouncementOnlyChangeUpdate (_ : GroupAnnouncementOnlyChangeUpdate)
| GroupChangeChatUpdate_Update_groupAdminStatusUpdate (_ : GroupAdminStatusUpdate)
| GroupChangeChatUpdate_Update_groupMemberLeftUpdate (_ : GroupMemberLeftUpdate)
| GroupChangeChatUpdate_Update_groupMemberRemovedUpdate (_ : GroupMemberRemovedUpdate)
| GroupChangeChatUpdate_Update_selfInvitedToGroupUpdate (_ : SelfInvitedToGroupUpdate)
| GroupChangeChatUpdate_Update_selfInvitedOtherUserToGroupUpdate (_ : SelfInvitedOtherUserToGroupUpdate)
| GroupChangeChatUpdate_Update_groupUnknownInviteeUpdate (_ : GroupUnknownInviteeUpdate)
| GroupChangeChatUpdate_Update_groupInvitationAcceptedUpdate (_ : GroupInvitationAcceptedUpdate)
| GroupChangeChatUpdate_Update_groupInvitationDeclinedUpdate (_ : GroupInvitationDeclinedUpdate)
| GroupChangeChatUpdate_Update_groupMemberJoinedUpdate (_ : GroupMemberJoinedUpdate)
| GroupChangeChatUpdate_Update_groupMemberAddedUpdate (_ : GroupMemberAddedUpdate)
| GroupChangeChatUpdate_Update_groupSelfInvitationRevokedUpdate (_ : GroupSelfInvitationRevokedUpdate)
| GroupChangeChatUpdate_Update_groupInvitationRevokedUpdate (_ : GroupInvitationRevokedUpdate)
| GroupChangeChatUpdate_Update_groupJoinRequestUpdate (_ : GroupJoinRequestUpdate)
| GroupChangeChatUpdate_Update_groupJoinRequestApprovalUpdate (_ : GroupJoinRequestApprovalUpdate)
| GroupChangeChatUpdate_Update_groupJoinRequestCanceledUpdate (_ : GroupJoinRequestCanceledUpdate)
| GroupChangeChatUpdate_Update_groupInviteLinkResetUpdate (_ : GroupInviteLinkResetUpdate)
| GroupChangeChatUpdate_Update_groupInviteLinkEnabledUpdate (_ : GroupInviteLinkEnabledUpdate)
| GroupChangeChatUpdate_Update_groupInviteLinkAdminApprovalUpdate (_ : GroupInviteLinkAdminApprovalUpdate)
| GroupChangeChatUpdate_Update_groupInviteLinkDisabledUpdate (_ : GroupInviteLinkDisabledUpdate)
| GroupChangeChatUpdate_Update_groupMemberJoinedByLinkUpdate (_ : GroupMemberJoinedByLinkUpdate)
| GroupChangeChatUpdate_Update_groupV2MigrationUpdate (_ : GroupV2MigrationUpdate)
| GroupChangeChatUpdate_Update_groupV2MigrationSelfInvitedUpdate (_ : GroupV2MigrationSelfInvitedUpdate)
| GroupChangeChatUpdate_Update_groupV2MigrationInvitedMembersUpdate (_ : GroupV2MigrationInvitedMembersUpdate)
| GroupChangeChatUpdate_Update_groupV2MigrationDroppedMembersUpdate (_ : GroupV2MigrationDroppedMembersUpdate)
| GroupChangeChatUpdate_Update_groupSequenceOfRequestsAndCancelsUpdate (_ : GroupSequenceOfRequestsAndCancelsUpdate)
| GroupChangeChatUpdate_Update_groupExpirationTimerUpdate (_ : GroupExpirationTimerUpdate).
Record GroupChangeChatUpdate_Update := mkGroupChangeChatUpdate_Update { GroupChangeChatUpdate_Update_update : option GroupChangeChatUpdate_Update_Update }.
Record GroupChangeChatUpdate := mkGroupChangeChatUpdate { GroupChangeChatUpdate_updates : list GroupChangeChatUpdate_Update }.
Record PollTerminateUpdate := mkPollTerminateUpdate { PollTerminateUpdate_targetSentTimestamp : Z;
  PollTerminateUpdate_question : string }.
Inductive ChatUpdateMessage_Update :=
| ChatUpdateMessage_simpleUpdate (_ : SimpleChatUpdate)
| ChatUpdateMessage_groupChange (_ : GroupChangeChatUpdate)
| ChatUpdateMessage_expirationTimerChange (_ : ExpirationTimerChatUpdate)
| ChatUpdateMessage_profileChange (_ : ProfileChangeChatUpdate)
| ChatUpdateMessage_threadMerge (_ : ThreadMergeChatUpdate)
| ChatUpdateMessage_sessionSwitchover (_ : SessionSwitchoverChatUpdate)
| ChatUpdateMessage_individualCall (_ : IndividualCall)
| ChatUpdateMessage_groupCall (_ : GroupCall)
| ChatUpdateMessage_learnedProfileChange (_ : LearnedProfileChatUpdate)
| ChatUpdateMessage_pollTerminate (_ : PollTerminateUpdate).
Record ChatUpdateMessage := mkChatUpdateMessage { ChatUpdateMessage_update : option ChatUpdateMessage_Update }.
Inductive ChatItem_DirectionalDetails :=
| ChatItem_incoming (_ : ChatItem_IncomingMessageDetails)
| ChatItem_outgoing (_ : ChatItem_OutgoingMessageDetails)
| ChatItem_directionless (_ : ChatItem_DirectionlessMessageDetails).
Inductive ChatItem_Item :=
| ChatItem_standardMessage (_ : StandardMessage)
| ChatItem_contactMessage (_ : ContactMessage)
| ChatItem_stickerMessage (_ : StickerMessage)
| ChatItem_remoteDeletedMessage (_ : RemoteDeletedMessage)
| ChatItem_updateMessage (_ : ChatUpdateMessage)
| ChatItem_paymentNotification (_ : PaymentNotification)
| ChatItem_giftBadge (_ : GiftBadge)
| ChatItem_viewOnceMessage (_ : ViewOnceMessage)
| ChatItem_directStoryReplyMessage (_ : DirectStoryReplyMessage)
| ChatItem_poll (_ : Poll).
Inductive ChatItem := mkChatItem
  (chatId : Z)
  (authorId : Z)
  (dateSent : Z)
  (expireStartDate : option Z)
  (expiresInMs : option Z)
  (revisions : list ChatItem)
  (sms : bool)
  (directionalDetails : option ChatItem_DirectionalDetails)
  (item : option ChatItem_Item).
Record StickerPack := mkStickerPack { StickerPack_packId : bytes;
  StickerPack_packKey : bytes }.
Record NotificationProfile := mkNotificationProfile { NotificationProfile_name : string;
  NotificationProfile_emoji : option string;
  NotificationProfile_color : Z;
  NotificationProfile_createdAtMs : Z;
  NotificationProfile_allowAllCalls : bool;
  NotificationProfile_allowAllMentions : bool;
  NotificationProfile_allowedMembers : list Z;
  NotificationProfile_scheduleEnabled : bool;
  NotificationProfile_scheduleStartTime : Z;
  NotificationProfile_scheduleEndTime : Z;
  NotificationProfile_scheduleDaysEnabled : list (EnumOrUnknown NotificationProfile_DayOfWeek);
  NotificationProfile_id : bytes }.
Record ChatFolder := mkChatFolder { ChatFolder_name : string;
  ChatFolder_showOnlyUnread : bool;
  ChatFolder_showMutedChats : bool;
  ChatFolder_includeAllIndividualChats : bool;
  ChatFolder_includeAllGroupChats : bool;
  ChatFolder_folderType : EnumOrUnknown ChatFolder_FolderType;
  ChatFolder_includedRecipientIds : list Z;
  ChatFolder_excludedRecipientIds : list Z;
  ChatFolder_id : bytes }.
Inductive Frame_Item :=
| Frame_account (_ : AccountData)
| Frame_recipient (_ : Recipient)
| Frame_chat (_ : Chat)
| Frame_chatItem (_ : ChatItem)
| Frame_stickerPack (_ : StickerPack)
| Frame_adHocCall (_ : AdHocCall)
| Frame_notificationProfile (_ : NotificationProfile)
| Frame_chatFolder (_ : ChatFolder).
Record Frame := mkFrame { Frame_item : option Frame_Item }.
End proto.
