(* ===== verification/BackupData.v ===== *)
(** * BackupData: what the validators of backup frames share
    (rust/message-backup/src/backup/{time,frame,method,call,recipient}.rs, recipient/group.rs,
    recipient/group/members.rs, and the helpers of backup.rs)

    Timestamps and durations, recipients and groups, calls, and the interface
    between a validator and the way a backup is kept ([Method], [ReferencedTypes]):
    in full, or only as far as later frames need it.  Each [TryIntoWith] of the source is a
    function from a protobuf message to an [outcome]; the context is the lookup
    it uses.  Reports of unusual timestamps only produce log lines and are left out. *)

From Stdlib Require Import SpecFloat.
From stdpp Require Import strings.
From S2P Require Import Prelude Types Primitives ServiceId Curve IdentityKey Ristretto Sho Poksho Usernames BackupProto.
Open Scope string_scope.
Open Scope list_scope.
Open Scope Z_scope.

(** ** Helpers *)

(** [o.map(f).transpose()]. *)
Definition transpose_map {E A B} (f : A -> outcome E B) (o : option A) : outcome E (option B) :=
  match o with None => Ok None | Some a => Some <$> f a end.

(** [return Err(e)] under a condition. *)
Definition guard_err {E} (b : bool) (e : E) : outcome E () := if b then Err e else Ok tt.

Definition is_empty (s : string) : bool := String.eqb s "".
Definition no_elements {A} (l : list A) : bool := match l with [] => true | _ => false end.
Definition is_some {A} (o : option A) : bool := match o with Some _ => true | None => false end.

Definition NonZero_new (z : Z) : option Z := if z =? 0 then None else Some z.

(** [likely_empty] of backup.rs: an empty list is the default. *)
Definition likely_empty {E I A} (input : list I) (process : list I -> outcome E (list A)) : outcome E (list A) :=
  match input with [] => Ok [] | _ => process input end.

(** [IntMap] and its iterator: the keys are u64 and come in an unspecified order. *)
Class IntMapIter := {
  intmap_iter : forall {A}, gmap Z A -> list (Z * A);
  intmap_iter_perm : forall {A} (m : gmap Z A), intmap_iter m ≡ₚ map_to_list m
}.

(** Ids that are converted one after the other while the ones seen are recorded, as with
    [members_seen.insert(id, ())]; [dup] and [one] give the errors of a repeated and of a
    single id. *)
Fixpoint distinct_ids {E A} (dup : Z -> E) (one : Z -> outcome E A) (ids : list Z) (seen : gmap Z ()) : outcome E (list A) :=
  match ids with
  | [] => Ok []
  | id :: ids =>
      _ ← guard_err (is_some (seen !! id)) (dup id);
      a ← one id;
      l ← distinct_ids dup one ids (<[id := tt]> seen);
      Ok (a :: l)
  end.

(** ** time.rs *)

(** [SystemTime]: nanoseconds since the epoch. *)
Record Timestamp := mkTimestamp { system_time : Z }.
#[export] Instance Timestamp_eq_dec : EqDecision Timestamp.
Proof. solve_decision. Defined.
(** [std::time::Duration], in nanoseconds. *)
Record Duration := mkDuration { nanos : Z }.
#[export] Instance Duration_eq_dec : EqDecision Duration.
Proof. solve_decision. Defined.
Inductive TimestampOrForever := At (t : Timestamp) | Forever.

Record TimestampError := mkTimestampError { te_context : string; te_since_epoch : Z }.

Definition EXPECTED_RANGE_END_MS : Z := 4102444800000.
Definition MAX_SAFE_TIMESTAMP_MS : Z := 100000000 * 1000 * 60 * 60 * 24.
Definition NANOS_PER_MILLI : Z := 1000000.

Definition Timestamp_from_millis (since_epoch : Z) (context : string) : outcome TimestampError Timestamp :=
  _ ← guard_err ((EXPECTED_RANGE_END_MS <? since_epoch) && (MAX_SAFE_TIMESTAMP_MS <? since_epoch)) (mkTimestampError context since_epoch);
  t ← system_time_add 0 (since_epoch * NANOS_PER_MILLI);
  Ok (mkTimestamp t).

(** [as_millis]; both [expect]s. *)
Definition Timestamp_as_millis {E} (t : Timestamp) : outcome E Z :=
  if system_time t <? 0 then Panic
  else let millis := system_time t / NANOS_PER_MILLI in
       if millis <=? u64_max then Ok millis else Panic.

Definition FOREVER_MS : Z := 2 ^ 63 - 1.
Definition TimestampOrForever_from_millis (since_epoch : Z) (context : string) : outcome TimestampError TimestampOrForever :=
  if FOREVER_MS <=? since_epoch then Ok Forever else At <$> Timestamp_from_millis since_epoch context.

Definition Duration_ZERO : Duration := mkDuration 0.
Definition Duration_from_millis (millis : Z) : Duration := mkDuration (millis * NANOS_PER_MILLI).
(** [60 * mins] is a u64 multiplication, of a u32 at all callers. *)
Definition Duration_from_mins {E} (mins : Z) : outcome E Duration :=
  if 60 * mins <=? u64_max then Ok (mkDuration (60 * mins * NANOS_PER_SEC)) else Panic.
Definition Duration_from_hours (hours : Z) : Duration := mkDuration (60 * 60 * hours * NANOS_PER_SEC).
Definition Timestamp_add {E} (t : Timestamp) (d : Duration) : outcome E Timestamp :=
  mkTimestamp <$> system_time_add (system_time t) (nanos d).

(** ** frame.rs *)

Definition RecipientId : Type := Z.
Definition ChatId : Type := Z.

(** ** call.rs: call links *)

Definition CALL_LINK_ROOT_KEY_LEN : nat := 16.
Definition CALL_LINK_EPOCH_LEN : nat := 4.
Inductive CallLinkError :=
| CallLinkError_InvalidRootKey (n : nat) | CallLinkError_InvalidEpoch (n : nat)
| CallLinkError_InvalidAdminKey | CallLinkError_InvalidTimestamp (e : TimestampError).

Record CallLink := mkCallLink {
  cl_restrictions : proto.CallLink_Restrictions;
  cl_root_key : array 16;
  cl_epoch : option (array 4);
  cl_admin_key : option bytes;
  cl_expiration : Timestamp;
  cl_name : string
}.

Definition CallLink_try_from (self : proto.CallLink) : outcome CallLinkError CallLink :=
  let '(proto.mkCallLink rootKey adminKey name restrictions expirationMs epoch) := self in
  root_key ← ok_or (CallLinkError_InvalidRootKey (length rootKey)) (try_array CALL_LINK_ROOT_KEY_LEN rootKey);
  epoch ← transpose_map (fun epoch => ok_or (CallLinkError_InvalidEpoch (length epoch)) (try_array CALL_LINK_EPOCH_LEN epoch)) epoch;
  _ ← guard_err (bool_decide (adminKey = Some [])) CallLinkError_InvalidAdminKey;
  let restrictions := enum_value_or proto.CallLink_Restrictions_UNKNOWN restrictions in
  expiration ← map_err CallLinkError_InvalidTimestamp (Timestamp_from_millis expirationMs "CallLink.expirationMs");
  Ok (mkCallLink restrictions root_key epoch adminKey expiration name).

(** ** recipient/group/members.rs and recipient/group.rs *)

Inductive GroupError :=
| GroupError_InvalidMasterKey
| GroupError_MissingSnapshot
| GroupError_BlobMissingContent (which : string)
| GroupError_BlobWrongContent (which unexpected : string)
| GroupError_InvalidAccess (which : string) (access : proto.Group_AccessControl_AccessRequired)
| GroupError_MemberInvalidServiceId (which : string)
| GroupError_MemberInvalidAci (which : string) (found : ServiceIdKind)
| GroupError_MemberRoleUnknown
| GroupError_MemberInvalidProfileKey
| GroupError_MemberPendingProfileKeyMissingMember
| GroupError_MemberPendingProfileKeyHasProfileKey
| GroupError_MemberPendingProfileKeyWasInvitedBySelf
| GroupError_InvalidTimestamp (e : TimestampError).

Inductive Role := Role_Default | Role_Administrator.
Record GroupMember := mkGroupMember { gm_user_id : Aci; gm_role : Role; gm_joined_at_version : Z }.
Record GroupMemberPendingProfileKey := mkGroupMemberPendingProfileKey {
  gp_user_id : ServiceId; gp_role : Role; gp_joined_at_version : Z; gp_added_by_user_id : Aci; gp_timestamp : Timestamp }.
Record GroupMemberPendingAdminApproval := mkGroupMemberPendingAdminApproval { ga_user_id : Aci; ga_timestamp : Timestamp }.
Record GroupMemberBanned := mkGroupMemberBanned { gb_user_id : ServiceId; gb_timestamp : Timestamp }.

Definition member_service_id (which : string) (b : bytes) : outcome GroupError ServiceId :=
  ok_or (GroupError_MemberInvalidServiceId which) (parse_from_service_id_binary b).
Definition member_aci (which : string) (b : bytes) : outcome GroupError Aci :=
  id ← member_service_id which b;
  map_err (fun e => GroupError_MemberInvalidAci which (wk_actual e)) (SpecificServiceId_try_from _ id).
Definition Role_try_from (role : EnumOrUnknown proto.Group_Member_Role) : outcome GroupError Role :=
  match enum_value_or_default role with
  | proto.Group_Member_Role_UNKNOWN => Err GroupError_MemberRoleUnknown
  | proto.Group_Member_Role_DEFAULT => Ok Role_Default
  | proto.Group_Member_Role_ADMINISTRATOR => Ok Role_Administrator
  end.
Definition member_timestamp (millis : Z) (context : string) : outcome GroupError Timestamp :=
  map_err GroupError_InvalidTimestamp (Timestamp_from_millis millis context).

Definition GroupMember_try_from (value : proto.Group_Member) : outcome GroupError GroupMember :=
  let '(proto.mkGroup_Member userId role joinedAtVersion) := value in
  user_id ← member_aci "member" userId;
  role ← Role_try_from role;
  Ok (mkGroupMember user_id role joinedAtVersion).

Definition GroupMemberPendingProfileKey_try_from (self : proto.Group_MemberPendingProfileKey)
  : outcome GroupError GroupMemberPendingProfileKey :=
  let '(proto.mkGroup_MemberPendingProfileKey member addedByUserId timestamp) := self in
  '(proto.mkGroup_Member userId role joinedAtVersion) ← ok_or GroupError_MemberPendingProfileKeyMissingMember member;
  user_id ← member_service_id "invited member" userId;
  role ← Role_try_from role;
  added_by_user_id ← member_aci "inviter" addedByUserId;
  _ ← guard_err (bool_decide (SAci added_by_user_id = user_id)) GroupError_MemberPendingProfileKeyWasInvitedBySelf;
  timestamp ← member_timestamp timestamp "MemberPendingProfileKey";
  Ok (mkGroupMemberPendingProfileKey user_id role joinedAtVersion added_by_user_id timestamp).

Definition GroupMemberPendingAdminApproval_try_from (self : proto.Group_MemberPendingAdminApproval)
  : outcome GroupError GroupMemberPendingAdminApproval :=
  let '(proto.mkGroup_MemberPendingAdminApproval userId timestamp) := self in
  user_id ← member_aci "requesting member" userId;
  timestamp ← member_timestamp timestamp "MemberPendingAdminApproval";
  Ok (mkGroupMemberPendingAdminApproval user_id timestamp).

Definition GroupMemberBanned_try_from (self : proto.Group_MemberBanned) : outcome GroupError GroupMemberBanned :=
  let '(proto.mkGroup_MemberBanned userId timestamp) := self in
  user_id ← member_service_id "banned member" userId;
  timestamp ← member_timestamp timestamp "MemberBanned";
  Ok (mkGroupMemberBanned user_id timestamp).

(** *** The group itself *)

Definition Content_field_name (c : proto.Group_GroupAttributeBlob_Content) : string :=
  match c with
  | proto.Group_GroupAttributeBlob_title _ => "title"
  | proto.Group_GroupAttributeBlob_avatar _ => "avatar"
  | proto.Group_GroupAttributeBlob_disappearingMessagesDuration _ => "disappearingMessagesDuration"
  | proto.Group_GroupAttributeBlob_descriptionText _ => "descriptionText"
  end.

Record GroupSnapshot := mkGroupSnapshot {
  gs_title : option string;
  gs_description : option string;
  gs_avatar_url : string;
  gs_disappearing_messages_timer : option Duration;
  gs_access_control_attributes : proto.Group_AccessControl_AccessRequired;
  gs_access_control_members : proto.Group_AccessControl_AccessRequired;
  gs_access_control_add_from_invite_link : proto.Group_AccessControl_AccessRequired;
  gs_version : Z;
  gs_members : list GroupMember;
  gs_members_pending_profile_key : list GroupMemberPendingProfileKey;
  gs_members_pending_admin_approval : list GroupMemberPendingAdminApproval;
  gs_invite_link_password : bytes;
  gs_announcements_only : bool;
  gs_members_banned : list GroupMemberBanned
}.

Definition title_blob (blob : proto.Group_GroupAttributeBlob) : outcome GroupError string :=
  match proto.Group_GroupAttributeBlob_content blob with
  | Some (proto.Group_GroupAttributeBlob_title title) => Ok title
  | Some other => Err (GroupError_BlobWrongContent "title" (Content_field_name other))
  | None => Err (GroupError_BlobMissingContent "title")
  end.
Definition description_blob (blob : proto.Group_GroupAttributeBlob) : outcome GroupError string :=
  match proto.Group_GroupAttributeBlob_content blob with
  | Some (proto.Group_GroupAttributeBlob_descriptionText description) => Ok description
  | Some other => Err (GroupError_BlobWrongContent "description" (Content_field_name other))
  | None => Err (GroupError_BlobMissingContent "description")
  end.
Definition timer_blob (blob : proto.Group_GroupAttributeBlob) : outcome GroupError Duration :=
  match proto.Group_GroupAttributeBlob_content blob with
  | Some (proto.Group_GroupAttributeBlob_disappearingMessagesDuration duration) => Ok (Duration_from_millis duration)
  | Some other => Err (GroupError_BlobWrongContent "disappearingMessagesDuration" (Content_field_name other))
  | None => Err (GroupError_BlobMissingContent "disappearingMessagesDuration")
  end.

(** The access levels of attributes and members, and of the invite link. *)
Definition access_required (which : string) (access : EnumOrUnknown proto.Group_AccessControl_AccessRequired)
  : outcome GroupError proto.Group_AccessControl_AccessRequired :=
  match enum_value_or_default access with
  | (proto.Group_AccessControl_AccessRequired_UNKNOWN | proto.Group_AccessControl_AccessRequired_MEMBER
    | proto.Group_AccessControl_AccessRequired_ADMINISTRATOR) as access => Ok access
  | (proto.Group_AccessControl_AccessRequired_ANY | proto.Group_AccessControl_AccessRequired_UNSATISFIABLE) as access =>
      Err (GroupError_InvalidAccess which access)
  end.
Definition invite_link_access (access : EnumOrUnknown proto.Group_AccessControl_AccessRequired)
  : outcome GroupError proto.Group_AccessControl_AccessRequired :=
  match enum_value_or_default access with
  | (proto.Group_AccessControl_AccessRequired_UNKNOWN | proto.Group_AccessControl_AccessRequired_ANY
    | proto.Group_AccessControl_AccessRequired_ADMINISTRATOR | proto.Group_AccessControl_AccessRequired_UNSATISFIABLE) as access => Ok access
  | proto.Group_AccessControl_AccessRequired_MEMBER as access => Err (GroupError_InvalidAccess "addFromInviteLink" access)
  end.
Definition AccessControl_default : proto.Group_AccessControl :=
  proto.mkGroup_AccessControl (Known default_value) (Known default_value) (Known default_value).

Definition GroupSnapshot_try_from (self : proto.Group_GroupSnapshot) : outcome GroupError GroupSnapshot :=
  let '(proto.mkGroup_GroupSnapshot title description avatarUrl disappearingMessagesTimer accessControl version members
          membersPendingProfileKey membersPendingAdminApproval inviteLinkPassword announcements_only members_banned) := self in
  title ← transpose_map title_blob title;
  description ← transpose_map description_blob description;
  disappearing_messages_timer ← transpose_map timer_blob disappearingMessagesTimer;
  let '(proto.mkGroup_AccessControl attributes access_members addFromInviteLink) := default AccessControl_default accessControl in
  attributes ← access_required "attributes" attributes;
  access_members ← access_required "members" access_members;
  add_from_invite_link ← invite_link_access addFromInviteLink;
  members ← mapM GroupMember_try_from members;
  members_pending_profile_key ← likely_empty membersPendingProfileKey (mapM GroupMemberPendingProfileKey_try_from);
  members_pending_admin_approval ← likely_empty membersPendingAdminApproval (mapM GroupMemberPendingAdminApproval_try_from);
  members_banned ← likely_empty members_banned (mapM GroupMemberBanned_try_from);
  Ok (mkGroupSnapshot title description avatarUrl disappearing_messages_timer attributes access_members add_from_invite_link version
        members members_pending_profile_key members_pending_admin_approval inviteLinkPassword announcements_only members_banned).

Definition AvatarColor_or_default (c : option (EnumOrUnknown proto.AvatarColor)) : option proto.AvatarColor :=
  enum_value_or_default <$> c.

Record GroupData := mkGroupData {
  gd_master_key : array 32;
  gd_whitelisted : bool;
  gd_hide_story : bool;
  gd_story_send_mode : proto.Group_StorySendMode;
  gd_snapshot : GroupSnapshot;
  gd_blocked : bool;
  gd_avatar_color : option proto.AvatarColor
}.

Definition GroupData_try_from (self : proto.Group) : outcome GroupError GroupData :=
  let '(proto.mkGroup masterKey whitelisted hideStory storySendMode snapshot blocked avatarColor) := self in
  master_key ← ok_or GroupError_InvalidMasterKey (try_array 32 masterKey);
  let story_send_mode := enum_value_or_default storySendMode in
  let avatar_color := AvatarColor_or_default avatarColor in
  snapshot ← ok_or GroupError_MissingSnapshot snapshot;
  snapshot ← GroupSnapshot_try_from snapshot;
  Ok (mkGroupData master_key whitelisted hideStory story_send_mode snapshot blocked avatar_color).

(** ** recipient.rs *)

(** [E164(NonZeroU64)]. *)
Record E164 := mkE164 { e164_number : Z }.
#[export] Instance E164_eq_dec : EqDecision E164.
Proof. solve_decision. Defined.
Definition E164_try_from (value : Z) : option E164 := mkE164 <$> NonZero_new value.

Inductive MinimalRecipientData :=
| Minimal_Contact (e164 : option E164) (aci : option Aci) (pni : option Pni) (username : option string)
| Minimal_Group (master_key : array 32)
| Minimal_DistributionList (distribution_id : Uuid)
| Minimal_Self
| Minimal_ReleaseNotes
| Minimal_CallLink (root_key : array 16).

Inductive DestinationKind :=
| Kind_Contact | Kind_Group | Kind_DistributionList | Kind_Self | Kind_ReleaseNotes | Kind_CallLink.
#[export] Instance DestinationKind_eq_dec : EqDecision DestinationKind.
Proof. solve_decision. Defined.
Definition Minimal_kind (d : MinimalRecipientData) : DestinationKind :=
  match d with
  | Minimal_Contact _ _ _ _ => Kind_Contact
  | Minimal_Group _ => Kind_Group
  | Minimal_DistributionList _ => Kind_DistributionList
  | Minimal_Self => Kind_Self
  | Minimal_ReleaseNotes => Kind_ReleaseNotes
  | Minimal_CallLink _ => Kind_CallLink
  end.

Inductive ChatRecipientKind :=
| ChatRecipient_Self | ChatRecipient_ReleaseNotes | ChatRecipient_Contact (has_aci : bool) | ChatRecipient_Group.
Definition is_individual (k : ChatRecipientKind) : bool :=
  match k with ChatRecipient_Contact _ => true | ChatRecipient_Group => false | ChatRecipient_Self => true | ChatRecipient_ReleaseNotes => false end.
Definition ChatRecipientKind_is_contact_with_aci (k : ChatRecipientKind) : bool :=
  match k with ChatRecipient_Contact has_aci => has_aci | _ => false end.
Definition is_group (k : ChatRecipientKind) : bool := match k with ChatRecipient_Group => true | _ => false end.
Definition DestinationKind_from (k : ChatRecipientKind) : DestinationKind :=
  match k with
  | ChatRecipient_Self => Kind_Self | ChatRecipient_ReleaseNotes => Kind_ReleaseNotes
  | ChatRecipient_Group => Kind_Group | ChatRecipient_Contact _ => Kind_Contact
  end.
Definition ChatRecipientKind_try_from (d : MinimalRecipientData) : outcome DestinationKind ChatRecipientKind :=
  match d with
  | Minimal_Contact _ aci _ _ => Ok (ChatRecipient_Contact (is_some aci))
  | Minimal_Group _ => Ok ChatRecipient_Group
  | Minimal_Self => Ok ChatRecipient_Self
  | Minimal_ReleaseNotes => Ok ChatRecipient_ReleaseNotes
  | Minimal_DistributionList _ | Minimal_CallLink _ => Err (Minimal_kind d)
  end.

Inductive ChatItemAuthorKind :=
| Author_Self | Author_ReleaseNotes | Author_Contact (has_e164 has_aci : bool).
Definition is_valid_sender_account (k : ChatItemAuthorKind) : bool :=
  match k with Author_Contact has_e164 has_aci => has_e164 || has_aci | Author_Self => true | Author_ReleaseNotes => false end.
Definition ChatItemAuthorKind_is_contact_with_aci (k : ChatItemAuthorKind) : bool :=
  match k with Author_Contact _ has_aci => has_aci | _ => false end.
Definition is_release_notes (k : ChatItemAuthorKind) : bool := match k with Author_ReleaseNotes => true | _ => false end.

Inductive Registration := NotRegistered (unregistered_at : option Timestamp) | Registered.
Record ContactName := mkContactName { given_name : string; family_name : string }.

Record ContactData `{Primitives} := mkContactData {
  cd_aci : option Aci;
  cd_pni : option Pni;
  cd_profile_key : option (array 32);
  cd_username : option string;
  cd_registration : Registration;
  cd_e164 : option E164;
  cd_blocked : bool;
  cd_visibility : proto.Contact_Visibility;
  cd_profile_sharing : bool;
  cd_profile_given_name : option string;
  cd_profile_family_name : option string;
  cd_hide_story : bool;
  cd_identity_key : option IdentityKey;
  cd_identity_state : proto.Contact_IdentityState;
  cd_nickname : option ContactName;
  cd_note : string;
  cd_system_given_name : string;
  cd_system_family_name : string;
  cd_system_nickname : string;
  cd_avatar_color : option proto.AvatarColor
}.
Record SelfData := mkSelfData { sd_avatar_color : option proto.AvatarColor }.
Inductive PrivacyMode (RecipientList : Type) := OnlyWith (l : RecipientList) | AllExcept (l : RecipientList) | All_.
Arguments OnlyWith {_} _.
Arguments AllExcept {_} _.
Arguments All_ {_}.
Inductive DistributionListItem (Recipient : Type) :=
| DistributionListItem_Deleted (distribution_id : Uuid) (at_ : Timestamp)
| DistributionListItem_List (distribution_id : Uuid) (name : string) (allow_replies : bool)
    (privacy_mode : PrivacyMode (list Recipient)).
Arguments DistributionListItem_Deleted {_} _ _.
Arguments DistributionListItem_List {_} _ _ _ _.

Inductive Destination `{Primitives} (R : Type) :=
| Destination_Contact (c : ContactData)
| Destination_Group (g : GroupData)
| Destination_DistributionList (l : DistributionListItem R)
| Destination_Self (s : SelfData)
| Destination_ReleaseNotes
| Destination_CallLink (c : CallLink).
Arguments Destination_Contact {_ _} _.
Arguments Destination_Group {_ _} _.
Arguments Destination_DistributionList {_ _} _.
Arguments Destination_Self {_ _} _.
Arguments Destination_ReleaseNotes {_ _}.
Arguments Destination_CallLink {_ _} _.

(** [Arc<(MinimalRecipientData, Destination)>]: the number stands for the allocation, which
    [Arc::ptr_eq] compares. *)
Inductive FullRecipientData `{Primitives} :=
| mkFullRecipientData (arc : Z) (minimal : MinimalRecipientData) (destination : Destination FullRecipientData).

Definition MinimalRecipientData_from `{Primitives} {R} (value : Destination R) : MinimalRecipientData :=
  match value with
  | Destination_Contact c => Minimal_Contact (cd_e164 c) (cd_aci c) (cd_pni c) (cd_username c)
  | Destination_Group g => Minimal_Group (gd_master_key g)
  | Destination_DistributionList (DistributionListItem_Deleted id _ | DistributionListItem_List id _ _ _) => Minimal_DistributionList id
  | Destination_Self _ => Minimal_Self
  | Destination_ReleaseNotes => Minimal_ReleaseNotes
  | Destination_CallLink c => Minimal_CallLink (cl_root_key c)
  end.
Definition FullRecipientData_new `{Primitives} (arc : Z) (data : Destination FullRecipientData) : FullRecipientData :=
  mkFullRecipientData arc (MinimalRecipientData_from data) data.
Definition Full_minimal `{Primitives} (f : FullRecipientData) : MinimalRecipientData :=
  let 'mkFullRecipientData _ m _ := f in m.
Definition Full_arc `{Primitives} (f : FullRecipientData) : Z := let 'mkFullRecipientData a _ _ := f in a.
Definition Full_is_same_reference `{Primitives} (l r : FullRecipientData) : bool := Full_arc l =? Full_arc r.

Inductive RecipientError :=
| RecipientError_InvalidId
| RecipientError_DuplicateRecipient
| RecipientError_MissingDestination
| RecipientError_InvalidServiceId (kind : ServiceIdKind)
| RecipientError_InvalidE164
| RecipientError_InvalidProfileKey
| RecipientError_InvalidIdentityKey
| RecipientError_MissingIdentityKey (s : proto.Contact_IdentityState)
| RecipientError_NicknameIsPresentButEmpty
| RecipientError_InvalidDistributionId
| RecipientError_InvalidGroup (e : GroupError)
| RecipientError_ContactHasNoIdentifiers
| RecipientError_PniWithoutE164
| RecipientError_ContactRegistrationUnknown
| RecipientError_DistributionListPrivacyUnknown
| RecipientError_DistributionListPrivacyInvalid (p : proto.DistributionList_PrivacyMode)
| RecipientError_DistributionListPrivacyAllWithNonemptyMembers
| RecipientError_DistributionListPrivacyAllExceptWithEmptyMembers
| RecipientError_InvalidCallLink (e : CallLinkError)
| RecipientError_InvalidContactUsername
| RecipientError_CannotDeleteMyStory
| RecipientError_DistributionListItemMissing
| RecipientError_DistributionListMemberUnknown (id : RecipientId)
| RecipientError_DistributionListMemberDuplicate (id : RecipientId)
| RecipientError_DistributionListMemberWrongKind (id : RecipientId) (k : DestinationKind)
| RecipientError_DistributionListMemberHasNoServiceIds (id : RecipientId)
| RecipientError_InvalidTimestamp (e : TimestampError).

(** *** Recipient frames

    [lookup_pair] gives the minimal data and the reference of a recipient that the backup already has. *)

Section Recipients.
Context `{P : Primitives} {H256 : Sha256} {RI : Ristretto}.

Definition MY_STORY_UUID : Uuid := zeros 16.

Definition contact_username (username : string) : outcome RecipientError string :=
  _ ← map_err (fun _ => RecipientError_InvalidContactUsername) (Username_new username);
  Ok (to_ascii_lowercase username).

Definition contact_registration (registration : proto.Contact_Registration) : outcome RecipientError Registration :=
  match registration with
  | proto.Contact_notRegistered (proto.mkContact_NotRegistered unregisteredTimestamp) =>
      unregistered_at ← transpose_map
        (fun u => map_err RecipientError_InvalidTimestamp (Timestamp_from_millis u "Contact.notRegistered.unregisteredTimestamp"))
        (NonZero_new unregisteredTimestamp);
      Ok (NotRegistered unregistered_at)
  | proto.Contact_registered (proto.mkContact_Registered) => Ok Registered
  end.

Definition contact_identity_state (identityState : EnumOrUnknown proto.Contact_IdentityState) (identity_key : option IdentityKey)
  : outcome RecipientError proto.Contact_IdentityState :=
  match enum_value_or_default identityState with
  | proto.Contact_IdentityState_DEFAULT as v => Ok v
  | (proto.Contact_IdentityState_VERIFIED | proto.Contact_IdentityState_UNVERIFIED) as v =>
      if is_some identity_key then Ok v else Err (RecipientError_MissingIdentityKey v)
  end.

Definition contact_nickname (n : proto.Contact_Name) : outcome RecipientError ContactName :=
  let '(proto.mkContact_Name given family) := n in
  if is_empty given && is_empty family then Err RecipientError_NicknameIsPresentButEmpty else Ok (mkContactName given family).

Definition ContactData_try_from (self : proto.Contact) : outcome RecipientError ContactData :=
  let '(proto.mkContact aci pni username e164 blocked visibility registration profileKey profileSharing profileGivenName
          profileFamilyName hideStory identityKey identityState nickname note systemGivenName systemFamilyName systemNickname avatarColor) := self in
  aci ← transpose_map (fun b => ok_or (RecipientError_InvalidServiceId KindAci) (try_array 16 b)) aci;
  let aci : option Aci := from_uuid <$> aci in
  pni ← transpose_map (fun b => ok_or (RecipientError_InvalidServiceId KindPni) (try_array 16 b)) pni;
  let pni : option Pni := from_uuid <$> pni in
  username ← transpose_map contact_username username;
  profile_key ← transpose_map (fun b => ok_or RecipientError_InvalidProfileKey (try_array 32 b)) profileKey;
  registration ← ok_or RecipientError_ContactRegistrationUnknown registration;
  registration ← contact_registration registration;
  let visibility := enum_value_or_default visibility in
  e164 ← transpose_map (fun e => ok_or RecipientError_InvalidE164 (E164_try_from e)) e164;
  _ ← match aci, pni, e164 with
      | None, None, None => Err RecipientError_ContactHasNoIdentifiers
      | _, _, _ => Ok tt
      end;
  identity_key ← transpose_map (fun b => map_err (fun _ => RecipientError_InvalidIdentityKey) (IdentityKey_decode b)) identityKey;
  identity_state ← contact_identity_state identityState identity_key;
  nickname ← transpose_map contact_nickname nickname;
  let avatar_color := AvatarColor_or_default avatarColor in
  Ok (mkContactData _ aci pni profile_key username registration e164 blocked visibility profileSharing profileGivenName
        profileFamilyName hideStory identity_key identity_state nickname note systemGivenName systemFamilyName systemNickname avatar_color).

Section Context_.
Context {R : Type} (lookup_pair : RecipientId -> option (MinimalRecipientData * R)).

(** A member of a distribution list. *)
Definition list_member (id : RecipientId) : outcome RecipientError R :=
  '(recipient_data, recipient_reference) ← ok_or (RecipientError_DistributionListMemberUnknown id) (lookup_pair id);
  match recipient_data with
  | Minimal_Contact _ None None _ => Err (RecipientError_DistributionListMemberHasNoServiceIds id)
  | Minimal_Contact _ _ _ _ => Ok recipient_reference
  | Minimal_Group _ | Minimal_DistributionList _ | Minimal_Self | Minimal_ReleaseNotes | Minimal_CallLink _ =>
      Err (RecipientError_DistributionListMemberWrongKind id (Minimal_kind recipient_data))
  end.

Definition privacy_mode (privacyMode : EnumOrUnknown proto.DistributionList_PrivacyMode) (my_story : bool) (members : list R)
  : outcome RecipientError (PrivacyMode (list R)) :=
  match enum_value_or_default privacyMode, my_story with
  | proto.DistributionList_PrivacyMode_UNKNOWN, _ => Err RecipientError_DistributionListPrivacyUnknown
  | proto.DistributionList_PrivacyMode_ONLY_WITH, _ => Ok (OnlyWith members)
  | proto.DistributionList_PrivacyMode_ALL_EXCEPT, true =>
      if no_elements members then Err RecipientError_DistributionListPrivacyAllExceptWithEmptyMembers else Ok (AllExcept members)
  | proto.DistributionList_PrivacyMode_ALL, true =>
      if negb (no_elements members) then Err RecipientError_DistributionListPrivacyAllWithNonemptyMembers else Ok All_
  | privacy, false => Err (RecipientError_DistributionListPrivacyInvalid privacy)
  end.

Definition DistributionListItem_try_from (self : proto.DistributionListItem) : outcome RecipientError (DistributionListItem R) :=
  let '(proto.mkDistributionListItem distributionId item) := self in
  distribution_id ← ok_or RecipientError_InvalidDistributionId (try_array 16 distributionId);
  item ← ok_or RecipientError_DistributionListItemMissing item;
  match item with
  | proto.DistributionListItem_deletionTimestamp deletion_timestamp =>
      _ ← guard_err (bool_decide (distribution_id = MY_STORY_UUID)) RecipientError_CannotDeleteMyStory;
      at_ ← map_err RecipientError_InvalidTimestamp (Timestamp_from_millis deletion_timestamp "DistributionList.deletionTimestamp");
      Ok (DistributionListItem_Deleted distribution_id at_)
  | proto.DistributionListItem_distributionList (proto.mkDistributionList name allowReplies privacyMode memberRecipientIds) =>
      members ← distinct_ids RecipientError_DistributionListMemberDuplicate list_member memberRecipientIds ∅;
      privacy_mode ← privacy_mode privacyMode (bool_decide (distribution_id = MY_STORY_UUID)) members;
      Ok (DistributionListItem_List distribution_id name allowReplies privacy_mode)
  end.

Definition Destination_try_from (self : proto.Recipient) : outcome RecipientError (Destination R) :=
  let '(proto.mkRecipient _ destination) := self in
  destination ← ok_or RecipientError_MissingDestination destination;
  match destination with
  | proto.Recipient_contact contact => Destination_Contact <$> ContactData_try_from contact
  | proto.Recipient_group group => Destination_Group <$> map_err RecipientError_InvalidGroup (GroupData_try_from group)
  | proto.Recipient_distributionList l => Destination_DistributionList <$> DistributionListItem_try_from l
  | proto.Recipient_self (proto.mkSelf_ avatarColor) => Ok (Destination_Self (mkSelfData (AvatarColor_or_default avatarColor)))
  | proto.Recipient_releaseNotes (proto.mkReleaseNotes) => Ok Destination_ReleaseNotes
  | proto.Recipient_callLink call_link => Destination_CallLink <$> map_err RecipientError_InvalidCallLink (CallLink_try_from call_link)
  end.
End Context_.
End Recipients.

(** ** method.rs and [ReferencedTypes] of backup.rs *)

(** The two implementations of [Method]. *)
Inductive Method := ValidateOnly | Store.

(** [M::Value<T>], [M::BoxedValue<T>] and [M::List<T>]. *)
Inductive MValue (T : Type) : Method -> Type :=
| Discarded : MValue T ValidateOnly
| Kept (v : T) : MValue T Store.
Arguments Discarded {T}.
Arguments Kept {T} v.
Inductive MList (T : Type) : Method -> Type :=
| ValidateOnlyList : MList T ValidateOnly
| Vec (l : list T) : MList T Store.
Arguments ValidateOnlyList {T}.
Arguments Vec {T} l.

Definition value (M : Method) {T} (v : T) : MValue T M :=
  match M with ValidateOnly => Discarded | Store => Kept v end.
Definition boxed_value (M : Method) {T} (v : T) : MValue T M := value M v.
Definition MList_default (M : Method) {T} : MList T M :=
  match M with ValidateOnly => ValidateOnlyList | Store => Vec [] end.
Definition extend {M T} (l : MList T M) (iter : list T) : MList T M :=
  match l with ValidateOnlyList => ValidateOnlyList | Vec l => Vec (l ++ iter) end.
(** What a list holds. *)
Definition kept {M T} (l : MList T M) : list T := match l with ValidateOnlyList => [] | Vec l => l end.

(** [Color] of backup.rs and the custom colors of chat_style.rs. *)
Record Color := mkColor { argb : Z }.
Record BubbleGradientColor := mkBubbleGradientColor { bg_color : Color; bg_position : spec_float }.
Inductive CustomChatColor :=
| CustomChatColor_Gradient (angle : Z) (colors : list BubbleGradientColor)
| CustomChatColor_Solid (color : Color).
Definition CustomColorId : Type := Z.

(** What later frames need of a recipient or of a color, in each of the methods.  The number
    of [from_destination] is that of the allocation an [Arc] makes; nothing compares
    those of colors. *)
Class ReferencedTypes `{P : Primitives} (M : Method) := {
  RecipientReference : Type;
  RecipientData : Type;
  as_minimal : RecipientData -> MinimalRecipientData;
  from_destination : Z -> Destination RecipientReference -> RecipientData;
  CustomColorReference : Type;
  CustomColorData : Type;
  from_color : CustomChatColor -> CustomColorData;
  color_reference : CustomColorId -> CustomColorData -> CustomColorReference;
  recipient_reference : RecipientId -> RecipientData -> RecipientReference;
  is_same_reference : RecipientReference -> RecipientReference -> bool
}.
#[export] Instance Store_types `{P : Primitives} : ReferencedTypes Store := {|
  RecipientReference := FullRecipientData;
  RecipientData := FullRecipientData;
  as_minimal := Full_minimal;
  from_destination := FullRecipientData_new;
  CustomColorReference := CustomChatColor;
  CustomColorData := CustomChatColor;
  from_color c := c;
  color_reference _ data := data;
  recipient_reference _ data := data;
  is_same_reference := Full_is_same_reference
|}.
#[export] Instance ValidateOnly_types `{P : Primitives} : ReferencedTypes ValidateOnly := {|
  RecipientReference := RecipientId;
  RecipientData := MinimalRecipientData;
  as_minimal d := d;
  from_destination _ d := MinimalRecipientData_from d;
  CustomColorReference := CustomColorId;
  CustomColorData := ();
  from_color _ := tt;
  color_reference id _ := id;
  recipient_reference id _ := id;
  is_same_reference := Z.eqb
|}.

(** ** call.rs: calls *)

Definition CallId : Type := Z.
Inductive CallType := Audio | Video.
Inductive IndividualCallState := IndividualCall_Accepted | IndividualCall_NotAccepted | IndividualCall_MissedByNotificationProfile | IndividualCall_Missed.
Inductive GroupCallState :=
| GroupCall_Generic | GroupCall_Joined | GroupCall_Ringing | GroupCall_Accepted | GroupCall_Missed | GroupCall_Declined
| GroupCall_MissedByNotificationProfile | GroupCall_OutgoingRing.
Record AdHocCall (Recipient : Type) := mkAdHocCall { ah_id : CallId; ah_timestamp : Timestamp; ah_recipient : Recipient }.
Arguments mkAdHocCall {_} _ _ _.
Record IndividualCall := mkIndividualCall {
  ic_id : option CallId; ic_call_type : CallType; ic_state : IndividualCallState; ic_outgoing : bool; ic_started_at : Timestamp; ic_read : bool }.
Record GroupCall (Recipient : Type) := mkGroupCall {
  gc_id : option CallId; gc_state : GroupCallState; gc_started_call_recipient : option Recipient; gc_ringer_recipient : option Recipient;
  gc_started_at : Timestamp; gc_ended_at : option Timestamp; gc_read : bool }.
Arguments mkGroupCall {_} _ _ _ _ _ _ _.

Inductive CallError :=
| CallError_UnknownCallStarter (id : RecipientId)
| CallError_InvalidCallStarter (id : RecipientId) (k : DestinationKind)
| CallError_CallStarterHasNoAci (id : RecipientId)
| CallError_NoRingerRecipient (id : RecipientId)
| CallError_InvalidRingerRecipient (id : RecipientId) (k : DestinationKind)
| CallError_RingerHasNoAci (id : RecipientId)
| CallError_NoAdHocRecipient (id : RecipientId)
| CallError_InvalidAdHocRecipient (id : RecipientId)
| CallError_UnknownType
| CallError_UnknownState
| CallError_UnknownDirection
| CallError_InvalidTimestamp (e : TimestampError).

Definition IndividualCall_try_from (self : proto.IndividualCall) : outcome CallError IndividualCall :=
  let '(proto.mkIndividualCall callId type_ direction state startedCallTimestamp read) := self in
  outgoing ← match enum_value_or_default direction with
             | proto.IndividualCall_Direction_UNKNOWN_DIRECTION => Err CallError_UnknownDirection
             | proto.IndividualCall_Direction_INCOMING => Ok false
             | proto.IndividualCall_Direction_OUTGOING => Ok true
             end;
  call_type ← match enum_value_or_default type_ with
              | proto.IndividualCall_Type_UNKNOWN_TYPE => Err CallError_UnknownType
              | proto.IndividualCall_Type_AUDIO_CALL => Ok Audio
              | proto.IndividualCall_Type_VIDEO_CALL => Ok Video
              end;
  state ← match enum_value_or_default state with
          | proto.IndividualCall_State_UNKNOWN_STATE => Err CallError_UnknownState
          | proto.IndividualCall_State_ACCEPTED => Ok IndividualCall_Accepted
          | proto.IndividualCall_State_MISSED => Ok IndividualCall_Missed
          | proto.IndividualCall_State_NOT_ACCEPTED => Ok IndividualCall_NotAccepted
          | proto.IndividualCall_State_MISSED_NOTIFICATION_PROFILE => Ok IndividualCall_MissedByNotificationProfile
          end;
  started_at ← map_err CallError_InvalidTimestamp (Timestamp_from_millis startedCallTimestamp "Call.timestamp");
  Ok (mkIndividualCall callId call_type state outgoing started_at read).

Section Calls.
Context {R : Type} (lookup_pair : RecipientId -> option (MinimalRecipientData * R)).

Definition call_starter (id : RecipientId) : outcome CallError R :=
  '(starter_data, starter) ← ok_or (CallError_UnknownCallStarter id) (lookup_pair id);
  match starter_data with
  | Minimal_Contact _ None _ _ => Err (CallError_CallStarterHasNoAci id)
  | Minimal_Contact _ _ _ _ | Minimal_Self => Ok starter
  | Minimal_Group _ | Minimal_DistributionList _ | Minimal_ReleaseNotes | Minimal_CallLink _ =>
      Err (CallError_InvalidCallStarter id (Minimal_kind starter_data))
  end.
Definition call_ringer (id : RecipientId) : outcome CallError R :=
  '(ringer_data, ringer) ← ok_or (CallError_NoRingerRecipient id) (lookup_pair id);
  match ringer_data with
  | Minimal_Contact _ None _ _ => Err (CallError_RingerHasNoAci id)
  | Minimal_Contact _ _ _ _ | Minimal_Self => Ok ringer
  | Minimal_Group _ | Minimal_DistributionList _ | Minimal_ReleaseNotes | Minimal_CallLink _ =>
      Err (CallError_InvalidRingerRecipient id (Minimal_kind ringer_data))
  end.

Definition GroupCall_try_from (self : proto.GroupCall) : outcome CallError (GroupCall R) :=
  let '(proto.mkGroupCall callId state ringerRecipientId startedCallRecipientId startedCallTimestamp endedCallTimestamp read) := self in
  started_call_recipient ← transpose_map call_starter startedCallRecipientId;
  ringer_recipient ← transpose_map call_ringer ringerRecipientId;
  state ← match enum_value_or_default state with
          | proto.GroupCall_State_UNKNOWN_STATE => Err CallError_UnknownState
          | proto.GroupCall_State_MISSED => Ok GroupCall_Missed
          | proto.GroupCall_State_GENERIC => Ok GroupCall_Generic
          | proto.GroupCall_State_JOINED => Ok GroupCall_Joined
          | proto.GroupCall_State_RINGING => Ok GroupCall_Ringing
          | proto.GroupCall_State_ACCEPTED => Ok GroupCall_Accepted
          | proto.GroupCall_State_DECLINED => Ok GroupCall_Declined
          | proto.GroupCall_State_MISSED_NOTIFICATION_PROFILE => Ok GroupCall_MissedByNotificationProfile
          | proto.GroupCall_State_OUTGOING_RING => Ok GroupCall_OutgoingRing
          end;
  started_at ← map_err CallError_InvalidTimestamp (Timestamp_from_millis startedCallTimestamp "GroupCall.startedCallTimestamp");
  ended_at ← transpose_map (fun ended_at => map_err CallError_InvalidTimestamp (Timestamp_from_millis ended_at "GroupCall.endedCallTimestamp"))
               endedCallTimestamp;
  Ok (mkGroupCall callId state started_call_recipient ringer_recipient started_at ended_at read).

Definition AdHocCall_try_from (self : proto.AdHocCall) : outcome CallError (AdHocCall R) :=
  let '(proto.mkAdHocCall callId recipientId state callTimestamp) := self in
  '(recipient_data, reference) ← ok_or (CallError_NoAdHocRecipient recipientId) (lookup_pair recipientId);
  recipient ← match Minimal_kind recipient_data with
              | Kind_CallLink => Ok reference
              | Kind_Contact | Kind_DistributionList | Kind_Group | Kind_ReleaseNotes | Kind_Self =>
                  Err (CallError_InvalidAdHocRecipient recipientId)
              end;
  _ ← match enum_value_or_default state with
      | proto.AdHocCall_State_UNKNOWN_STATE => Err CallError_UnknownState
      | proto.AdHocCall_State_GENERIC => Ok tt
      end;
  timestamp ← map_err CallError_InvalidTimestamp (Timestamp_from_millis callTimestamp "AdHocCall.startedCallTimestamp");
  Ok (mkAdHocCall callId timestamp recipient).
End Calls.
