(* ===== verification/BackupMessages.v ===== *)
(** * BackupMessages: what a chat item of a backup can hold
    (rust/message-backup/src/backup/{file,sticker}.rs and backup/chat/{text,reactions,link,
    quote,contact_message,gift_badge,payment,poll,story_reply,sticker_message,view_once_message,
    voice_message,standard_message,group,update_message}.rs)

    Each message has the record of its validated form, the errors of its validation
    and the conversion, which sees the recipients of the backup through
    [lookup_pair].  Receipt credential presentations belong to zkgroup and
    are parsed by a parameter; the count of graphemes is Unicode's. *)

From Stdlib Require Import Ascii.
From stdpp Require Import strings.
From S2P Require Import Prelude Types Primitives ServiceId BackupReader BackupProto BackupData.
Open Scope string_scope.
Open Scope list_scope.
Open Scope Z_scope.

(** ** file.rs *)

Inductive IntegrityCheck := EncryptedDigest (digest : bytes) | PlaintextHash (plaintext_hash : bytes).
Definition is_plaintext_hash (c : IntegrityCheck) : bool := match c with PlaintextHash _ => true | EncryptedDigest _ => false end.
Record TransitTierLocator := mkTransitTierLocator { cdn_key : string; cdn_number : Z; upload_timestamp : option Timestamp }.
Record LocatorInfo := mkLocatorInfo {
  li_key : bytes;
  li_integrity_check : IntegrityCheck;
  li_plaintext_size : Z;
  li_transit : option TransitTierLocator;
  li_media_tier_cdn_number : option Z;
  li_local_key : option bytes
}.
Inductive Locator := Locator_LocatorInfo (i : LocatorInfo) | Locator_Invalid.

Inductive LocatorError :=
| LocatorError_MissingKey
| LocatorError_MissingIntegrityCheck
| LocatorError_UnexpectedLocalKey
| LocatorError_TransitCdnMismatch
| LocatorError_UnexpectedTransitCdnUploadTimestamp
| LocatorError_MissingTransitCdnKey
| LocatorError_UnexpectedMediaTierCdnNumber
| LocatorError_UnexpectedKey
| LocatorError_EncryptedDigestMissingTransitInfo
| LocatorError_InvalidTimestamp (e : TimestampError).

Definition TransitTierLocator_try_from (self : option string * option Z * option Z) : outcome LocatorError (option TransitTierLocator) :=
  match self with
  | (None, Some _, _) | (Some _, None, _) => Err LocatorError_TransitCdnMismatch
  | (None, None, Some _) => Err LocatorError_UnexpectedTransitCdnUploadTimestamp
  | (None, None, None) => Ok None
  | (Some cdn_key, Some cdn_number, upload_timestamp) =>
      _ ← guard_err (is_empty cdn_key) LocatorError_MissingTransitCdnKey;
      upload_timestamp ← transpose_map
        (fun t => map_err LocatorError_InvalidTimestamp (Timestamp_from_millis t "LocatorInfo.transitTierUploadTimestamp")) upload_timestamp;
      Ok (Some (mkTransitTierLocator cdn_key cdn_number upload_timestamp))
  end.

Definition integrity_check (integrityCheck : option proto.FilePointer_LocatorInfo_IntegrityCheck) (transit : option TransitTierLocator)
    (key : bytes) : outcome LocatorError IntegrityCheck :=
  match integrityCheck with
  | Some (proto.FilePointer_LocatorInfo_encryptedDigest digest) =>
      _ ← guard_err (no_elements digest) LocatorError_MissingIntegrityCheck;
      _ ← guard_err (negb (is_some transit) || no_elements key) LocatorError_EncryptedDigestMissingTransitInfo;
      Ok (EncryptedDigest digest)
  | Some (proto.FilePointer_LocatorInfo_plaintextHash hash) =>
      _ ← guard_err (no_elements hash) LocatorError_MissingIntegrityCheck;
      Ok (PlaintextHash hash)
  | None => Err LocatorError_MissingIntegrityCheck
  end.

Definition LocatorInfo_try_from (self : proto.FilePointer_LocatorInfo) : outcome LocatorError LocatorInfo :=
  let '(proto.mkFilePointer_LocatorInfo key integrityCheck plaintext_size transitCdnKey transitCdnNumber transitTierUploadTimestamp
          mediaTierCdnNumber localKey _) := self in
  transit ← TransitTierLocator_try_from (transitCdnKey, transitCdnNumber, transitTierUploadTimestamp);
  integrity_check ← integrity_check integrityCheck transit key;
  let has_content := is_some transit || is_plaintext_hash integrity_check in
  let has_key := negb (no_elements key) in
  _ ← match has_content, has_key with
      | true, false => Err LocatorError_MissingKey
      | false, true => Err LocatorError_UnexpectedKey
      | true, true => Ok tt
      | false, false => Ok tt
      end;
  _ ← if negb (is_plaintext_hash integrity_check) then
        _ ← guard_err (is_some localKey) LocatorError_UnexpectedLocalKey;
        guard_err (is_some mediaTierCdnNumber) LocatorError_UnexpectedMediaTierCdnNumber
      else Ok tt;
  Ok (mkLocatorInfo key integrity_check plaintext_size transit mediaTierCdnNumber localKey).

(** [self == LocatorInfo::default()]. *)
Definition LocatorInfo_is_default (self : proto.FilePointer_LocatorInfo) : bool :=
  match self with
  | proto.mkFilePointer_LocatorInfo [] None 0 None None None None None [] => true
  | _ => false
  end.
Definition Locator_try_from (self : proto.FilePointer_LocatorInfo) : outcome LocatorError Locator :=
  if LocatorInfo_is_default self then Ok Locator_Invalid else Locator_LocatorInfo <$> LocatorInfo_try_from self.

Record FilePointer := mkFilePointer {
  fp_locator_info : Locator;
  fp_content_type : option string;
  fp_incremental_mac : option bytes;
  fp_incremental_mac_chunk_size : option Z;
  fp_file_name : option string;
  fp_width : option Z;
  fp_height : option Z;
  fp_caption : option string;
  fp_blur_hash : option string
}.
Inductive FilePointerError :=
| FilePointerError_NoLocatorInfo
| FilePointerError_Locator (e : LocatorError)
| FilePointerError_MissingIncrementalMac
| FilePointerError_IncrementalMacMismatch.

Definition FilePointer_try_from (self : proto.FilePointer) : outcome FilePointerError FilePointer :=
  let '(proto.mkFilePointer contentType incrementalMac incrementalMacChunkSize fileName width height caption blurHash locatorInfo) := self in
  locator_info ← ok_or FilePointerError_NoLocatorInfo locatorInfo;
  locator_info ← map_err FilePointerError_Locator (Locator_try_from locator_info);
  _ ← guard_err (negb (Bool.eqb (is_some incrementalMac) (is_some incrementalMacChunkSize))) FilePointerError_IncrementalMacMismatch;
  _ ← guard_err (bool_decide (incrementalMac = Some [])) FilePointerError_MissingIncrementalMac;
  Ok (mkFilePointer locator_info contentType incrementalMac incrementalMacChunkSize fileName width height caption blurHash).

Record MessageAttachment := mkMessageAttachment {
  ma_pointer : FilePointer; ma_flag : proto.MessageAttachment_Flag; ma_client_uuid : option Uuid }.
Inductive MessageAttachmentError :=
| MessageAttachmentError_NoFilePointer
| MessageAttachmentError_FilePointer (e : FilePointerError)
| MessageAttachmentError_InvalidUuid.

Definition MessageAttachment_try_from (self : proto.MessageAttachment) : outcome MessageAttachmentError MessageAttachment :=
  let '(proto.mkMessageAttachment pointer flag _ clientUuid) := self in
  client_uuid ← transpose_map (fun b => ok_or MessageAttachmentError_InvalidUuid (try_array 16 b)) clientUuid;
  pointer ← ok_or MessageAttachmentError_NoFilePointer pointer;
  pointer ← map_err MessageAttachmentError_FilePointer (FilePointer_try_from pointer);
  Ok (mkMessageAttachment pointer (enum_value_or_default flag) client_uuid).

(** ** sticker.rs *)

Definition PackId : Type := array 16.
Definition Key : Type := array 32.
Record StickerPack (M : Method) := mkStickerPack { sp_key : MValue Key M }.
Arguments mkStickerPack {_} _.
Record MessageSticker := mkMessageSticker {
  ms_pack_id : PackId; ms_pack_key : Key; ms_sticker_id : Z; ms_emoji : option string; ms_data : FilePointer }.
Inductive StickerPackError := StickerPackError_InvalidKey.
Inductive MessageStickerError :=
| MessageStickerError_InvalidPackId
| MessageStickerError_InvalidPackKey
| MessageStickerError_MissingDataPointer
| MessageStickerError_DataPointer (e : FilePointerError).

Definition StickerPack_try_from (M : Method) (value : proto.StickerPack) : outcome StickerPackError (StickerPack M) :=
  let '(proto.mkStickerPack _ packKey) := value in
  key ← ok_or StickerPackError_InvalidKey (try_array 32 packKey);
  Ok (mkStickerPack (BackupData.value M key)).

Definition MessageSticker_try_from (self : proto.Sticker) : outcome MessageStickerError MessageSticker :=
  let '(proto.mkSticker packId packKey stickerId emoji data) := self in
  pack_id ← ok_or MessageStickerError_InvalidPackId (try_array 16 packId);
  pack_key ← ok_or MessageStickerError_InvalidPackKey (try_array 32 packKey);
  data ← ok_or MessageStickerError_MissingDataPointer data;
  data ← map_err MessageStickerError_DataPointer (FilePointer_try_from data);
  Ok (mkMessageSticker pack_id pack_key stickerId emoji data).

(** ** text.rs *)

Inductive TextEffect := MentionAci (a : Aci) | Style (s : proto.BodyRange_Style).
Record TextRange := mkTextRange { tr_start : Z; tr_length : Z; tr_effect : TextEffect }.
Record MessageText := mkMessageText { mt_text : string; mt_ranges : list TextRange }.
Inductive TextError :=
| TextError_EmptyBody
| TextError_TooLongBody (n : nat)
| TextError_TooLongBodyForLongText (n : nat)
| TextError_TooLongBodyForQuote (n : nat)
| TextError_MentionInvalidAci
| TextError_NoAssociatedValueForBodyRange.

Definition MAX_BODY_LENGTH : Z := 128 * 1024.
Definition MAX_BODY_LENGTH_WITH_LONG_TEXT_ATTACHMENT : Z := 2 * 1024.
Definition MAX_BODY_LENGTH_FOR_QUOTE : Z := 2 * 1024.

Definition check_length_with_long_text_attachment (t : MessageText) : outcome TextError () :=
  guard_err (MAX_BODY_LENGTH_WITH_LONG_TEXT_ATTACHMENT <? Z.of_nat (String.length (mt_text t)))
    (TextError_TooLongBodyForLongText (String.length (mt_text t))).
Definition check_length_for_quote (t : MessageText) : outcome TextError () :=
  guard_err (MAX_BODY_LENGTH_FOR_QUOTE <? Z.of_nat (String.length (mt_text t)))
    (TextError_TooLongBodyForQuote (String.length (mt_text t))).

(** [uuid_bytes_to_aci] of backup.rs. *)
Definition uuid_bytes_to_aci (b : bytes) : option Aci := from_uuid <$> try_array 16 b.

Definition TextRange_try_from (range : proto.BodyRange) : outcome TextError TextRange :=
  let '(proto.mkBodyRange start len associatedValue) := range in
  v ← ok_or TextError_NoAssociatedValueForBodyRange associatedValue;
  effect ← match v with
           | proto.BodyRange_mentionAci aci => MentionAci <$> ok_or TextError_MentionInvalidAci (uuid_bytes_to_aci aci)
           | proto.BodyRange_style style => Ok (Style (enum_value_or_default style))
           end;
  Ok (mkTextRange start len effect).

Definition MessageText_try_from (value : proto.Text) : outcome TextError MessageText :=
  let '(proto.mkText body bodyRanges) := value in
  let len := String.length body in
  _ ← (if (len =? 0)%nat then Err TextError_EmptyBody
       else if Z.of_nat len <=? MAX_BODY_LENGTH then Ok tt else Err (TextError_TooLongBody len));
  ranges ← likely_empty bodyRanges (mapM TextRange_try_from);
  Ok (mkMessageText body ranges).

(** ** link.rs *)

Record LinkPreview := mkLinkPreview {
  lp_url : string; lp_title : option string; lp_image : option FilePointer; lp_description : option string; lp_date : option Timestamp }.
Inductive LinkPreviewError :=
| LinkPreviewError_EmptyUrl | LinkPreviewError_Image (e : FilePointerError) | LinkPreviewError_InvalidTimestamp (e : TimestampError).

Definition LinkPreview_try_from (self : proto.LinkPreview) : outcome LinkPreviewError LinkPreview :=
  let '(proto.mkLinkPreview url title image description date) := self in
  _ ← guard_err (is_empty url) LinkPreviewError_EmptyUrl;
  date ← transpose_map (fun d => map_err LinkPreviewError_InvalidTimestamp (Timestamp_from_millis d "LinkPreview.date")) date;
  image ← transpose_map (fun file => map_err LinkPreviewError_Image (FilePointer_try_from file)) image;
  Ok (mkLinkPreview url title image description date).

(** ** gift_badge.rs *)

(** [zkgroup::receipts::ReceiptCredentialPresentation] and its [zkgroup::deserialize]. *)
Class ReceiptPresentations := {
  ReceiptCredentialPresentation : Type;
  deserialize_presentation : bytes -> option ReceiptCredentialPresentation
}.
Inductive GiftBadgeState := Unopened | Opened | Redeemed.
Inductive GiftBadge `{ReceiptPresentations} :=
| GiftBadge_Valid (receipt_credential_presentation : ReceiptCredentialPresentation) (state : GiftBadgeState)
| GiftBadge_Failed.
Inductive GiftBadgeError := GiftBadgeError_InvalidReceiptCredentialPresentation | GiftBadgeError_FailedStateWithNonEmptyPresentation.

Definition GiftBadge_try_from `{ReceiptPresentations} (value : proto.GiftBadge) : outcome GiftBadgeError GiftBadge :=
  let '(proto.mkGiftBadge receiptCredentialPresentation state) := value in
  let valid (state : GiftBadgeState) :=
    presentation ← ok_or GiftBadgeError_InvalidReceiptCredentialPresentation (deserialize_presentation receiptCredentialPresentation);
    Ok (GiftBadge_Valid presentation state) in
  match enum_value_or_default state with
  | proto.GiftBadge_State_UNOPENED => valid Unopened
  | proto.GiftBadge_State_OPENED => valid Opened
  | proto.GiftBadge_State_REDEEMED => valid Redeemed
  | proto.GiftBadge_State_FAILED =>
      if negb (no_elements receiptCredentialPresentation) then Err GiftBadgeError_FailedStateWithNonEmptyPresentation
      else Ok GiftBadge_Failed
  end.

(** ** payment.rs *)

Inductive Identification := Identification_Sent (key_images : list bytes) | Identification_Received (public_keys : list bytes).
Record Transaction := mkTransaction {
  tx_status : proto.PaymentNotification_TransactionDetails_Transaction_Status;
  tx_identification : option Identification;
  tx_timestamp : option Timestamp;
  tx_block_timestamp : option Timestamp;
  tx_block_index : option Z;
  tx_transaction : option bytes;
  tx_receipt : option bytes
}.
Record FailedTransaction := mkFailedTransaction {
  ft_reason : proto.PaymentNotification_TransactionDetails_FailedTransaction_FailureReason }.
Inductive TransactionDetails := TransactionDetails_Transaction (t : Transaction) | TransactionDetails_FailedTransaction (f : FailedTransaction).
Record MobAmount := mkMobAmount { amount_text : string }.
Record PaymentNotification := mkPaymentNotification {
  pn_amount : option MobAmount; pn_fee : option MobAmount; pn_note : option string; pn_details : option TransactionDetails }.
Inductive TransactionError :=
| TransactionError_EmptyIdentification | TransactionError_IdentificationContainsBoth | TransactionError_InvalidTimestamp (e : TimestampError).
Inductive PaymentError :=
| PaymentError_InvalidAmount | PaymentError_InvalidFee | PaymentError_NoTransactionDetailsPayment | PaymentError_Transaction (e : TransactionError).

(** [str::split_once]: around the first separator. *)
Fixpoint split_once (sep : ascii) (s : string) : option (string * string) :=
  match s with
  | EmptyString => None
  | String c s =>
      if Ascii.eqb c sep then Some ("", s)
      else '(a, b) ← split_once sep s; Some (String c a, b)
  end.
Definition is_digit (c : ascii) : bool := let n := Z.of_nat (nat_of_ascii c) in (48 <=? n) && (n <=? 57).

Definition MobAmount_try_from (s : string) : option MobAmount :=
  let '(integral, fractional) := default (s, "") (split_once "." s) in
  if is_empty integral && is_empty fractional then None
  else if forallb is_digit (String.list_ascii_of_string integral ++ String.list_ascii_of_string fractional) then Some (mkMobAmount s)
  else None.

Definition Identification_try_from (m : proto.PaymentNotification_TransactionDetails_MobileCoinTxoIdentification)
  : outcome TransactionError Identification :=
  let '(proto.mkPaymentNotification_TransactionDetails_MobileCoinTxoIdentification publicKey keyImages) := m in
  match no_elements keyImages, no_elements publicKey with
  | true, true => Err TransactionError_EmptyIdentification
  | false, true => Ok (Identification_Sent keyImages)
  | true, false => Ok (Identification_Received publicKey)
  | false, false => Err TransactionError_IdentificationContainsBoth
  end.

Definition Transaction_try_from (self : proto.PaymentNotification_TransactionDetails_Transaction) : outcome TransactionError Transaction :=
  let '(proto.mkPaymentNotification_TransactionDetails_Transaction status mobileCoinIdentification timestamp blockIndex blockTimestamp
          transaction receipt) := self in
  let status := enum_value_or_default status in
  identification ← transpose_map Identification_try_from mobileCoinIdentification;
  timestamp ← transpose_map (fun t => map_err TransactionError_InvalidTimestamp (Timestamp_from_millis t "Transaction.timestamp")) timestamp;
  block_timestamp ← transpose_map
    (fun t => map_err TransactionError_InvalidTimestamp (Timestamp_from_millis t "Transaction.blockTimestamp")) blockTimestamp;
  Ok (mkTransaction status identification timestamp block_timestamp blockIndex transaction receipt).

Definition FailedTransaction_try_from (value : proto.PaymentNotification_TransactionDetails_FailedTransaction)
  : outcome TransactionError FailedTransaction :=
  let '(proto.mkPaymentNotification_TransactionDetails_FailedTransaction reason) := value in
  Ok (mkFailedTransaction (enum_value_or_default reason)).

Definition TransactionDetails_try_from (d : proto.PaymentNotification_TransactionDetails) : outcome PaymentError TransactionDetails :=
  let '(proto.mkPaymentNotification_TransactionDetails payment) := d in
  payment ← ok_or PaymentError_NoTransactionDetailsPayment payment;
  map_err PaymentError_Transaction
    match payment with
    | proto.PaymentNotification_TransactionDetails_transaction t => TransactionDetails_Transaction <$> Transaction_try_from t
    | proto.PaymentNotification_TransactionDetails_failedTransaction f => TransactionDetails_FailedTransaction <$> FailedTransaction_try_from f
    end.

Definition PaymentNotification_try_from (self : proto.PaymentNotification) : outcome PaymentError PaymentNotification :=
  let '(proto.mkPaymentNotification amountMob feeMob note transactionDetails) := self in
  amount ← transpose_map (fun s => ok_or PaymentError_InvalidAmount (MobAmount_try_from s)) amountMob;
  fee ← transpose_map (fun s => ok_or PaymentError_InvalidFee (MobAmount_try_from s)) feeMob;
  details ← transpose_map TransactionDetails_try_from transactionDetails;
  Ok (mkPaymentNotification amount fee note details).

(** ** reactions.rs *)

Record Reaction (R : Type) := mkReaction { re_emoji : string; re_sort_order : Z; re_author : R; re_sent_timestamp : Timestamp }.
Arguments mkReaction {_} _ _ _ _.
Record ReactionSet (R : Type) := mkReactionSet { reactions : list (Reaction R) }.
Arguments mkReactionSet {_} _.
Arguments reactions {_} _.
Inductive ReactionError :=
| ReactionError_AuthorNotFound (id : RecipientId)
| ReactionError_InvalidAuthor (id : RecipientId) (k : DestinationKind)
| ReactionError_AuthorHasNoAciOrE164 (id : RecipientId)
| ReactionError_MultipleReactions (id : RecipientId)
| ReactionError_EmptyEmoji
| ReactionError_InvalidTimestamp (e : TimestampError).

Section Reactions.
Context {R : Type} (lookup_pair : RecipientId -> option (MinimalRecipientData * R)).

Definition reaction_author (author_id : RecipientId) : outcome ReactionError R :=
  '(author_data, author) ← ok_or (ReactionError_AuthorNotFound author_id) (lookup_pair author_id);
  match author_data with
  | Minimal_Contact None None _ _ => Err (ReactionError_AuthorHasNoAciOrE164 author_id)
  | Minimal_Contact _ _ _ _ | Minimal_Self => Ok author
  | Minimal_Group _ | Minimal_DistributionList _ | Minimal_ReleaseNotes | Minimal_CallLink _ =>
      Err (ReactionError_InvalidAuthor author_id (Minimal_kind author_data))
  end.

Definition Reaction_try_from (self : proto.Reaction) : outcome ReactionError (Reaction R) :=
  let '(proto.mkReaction emoji authorId sentTimestamp sortOrder) := self in
  _ ← guard_err (is_empty emoji) ReactionError_EmptyEmoji;
  author ← reaction_author authorId;
  sent_timestamp ← map_err ReactionError_InvalidTimestamp (Timestamp_from_millis sentTimestamp "Reaction.sentTimestamp");
  Ok (mkReaction emoji sortOrder author sent_timestamp).

(** The loop over the reactions; [existing] are the authors seen. *)
Fixpoint reactions_loop (items : list proto.Reaction) (existing : gmap Z ()) : outcome ReactionError (list (Reaction R)) :=
  match items with
  | [] => Ok []
  | item :: items =>
      let author_id := proto.Reaction_authorId item in
      _ ← guard_err (is_some (existing !! author_id)) (ReactionError_MultipleReactions author_id);
      r ← Reaction_try_from item;
      l ← reactions_loop items (<[author_id := tt]> existing);
      Ok (r :: l)
  end.
Definition ReactionSet_try_from (self : list proto.Reaction) : outcome ReactionError (ReactionSet R) :=
  mkReactionSet <$> reactions_loop self ∅.
End Reactions.

(** ** quote.rs *)

Inductive QuoteType := Quote_Normal | Quote_GiftBadge | Quote_ViewOnce | Quote_Poll.
Record QuotedAttachment := mkQuotedAttachment {
  qa_content_type : option string; qa_file_name : option string; qa_thumbnail : option MessageAttachment }.
Record Quote (R : Type) := mkQuote {
  q_author : R; q_quote_type : QuoteType; q_target_sent_timestamp : option Timestamp; q_attachments : list QuotedAttachment;
  q_text : option MessageText }.
Arguments mkQuote {_} _ _ _ _ _.
Inductive QuoteError :=
| QuoteError_AuthorNotFound (id : RecipientId)
| QuoteError_InvalidAuthor (id : RecipientId) (k : DestinationKind)
| QuoteError_AuthorHasNoAciOrE164 (id : RecipientId)
| QuoteError_TypeUnknown
| QuoteError_EmptyQuotedMessage
| QuoteError_Text (e : TextError)
| QuoteError_AttachmentThumbnail (e : MessageAttachmentError)
| QuoteError_AttachmentThumbnailWrongFlag (f : proto.MessageAttachment_Flag)
| QuoteError_InvalidTimestamp (e : TimestampError).

Definition QuotedAttachment_try_from (self : proto.Quote_QuotedAttachment) : outcome QuoteError QuotedAttachment :=
  let '(proto.mkQuote_QuotedAttachment contentType fileName thumbnail) := self in
  thumbnail ← transpose_map (fun t => map_err QuoteError_AttachmentThumbnail (MessageAttachment_try_from t)) thumbnail;
  _ ← match thumbnail with
      | Some thumbnail =>
          match ma_flag thumbnail with
          | proto.MessageAttachment_Flag_NONE | proto.MessageAttachment_Flag_BORDERLESS | proto.MessageAttachment_Flag_GIF => Ok tt
          | proto.MessageAttachment_Flag_VOICE_MESSAGE => Err (QuoteError_AttachmentThumbnailWrongFlag (ma_flag thumbnail))
          end
      | None => Ok tt
      end;
  Ok (mkQuotedAttachment contentType fileName thumbnail).

Section Quotes.
Context {R : Type} (lookup_pair : RecipientId -> option (MinimalRecipientData * R)).

Definition quote_author (author_id : RecipientId) : outcome QuoteError R :=
  '(author_data, author) ← ok_or (QuoteError_AuthorNotFound author_id) (lookup_pair author_id);
  match author_data with
  | Minimal_Contact None None _ _ => Err (QuoteError_AuthorHasNoAciOrE164 author_id)
  | Minimal_Contact _ _ _ _ => Ok author
  | Minimal_Self | Minimal_ReleaseNotes => Ok author
  | Minimal_Group _ | Minimal_DistributionList _ | Minimal_CallLink _ => Err (QuoteError_InvalidAuthor author_id (Minimal_kind author_data))
  end.

Definition Quote_try_from (self : proto.Quote) : outcome QuoteError (Quote R) :=
  let '(proto.mkQuote targetSentTimestamp authorId text attachments type_) := self in
  author ← quote_author authorId;
  target_sent_timestamp ← transpose_map
    (fun t => map_err QuoteError_InvalidTimestamp (Timestamp_from_millis t "Quote.targetSentTimestamp")) targetSentTimestamp;
  quote_type ← match enum_value_or_default type_ with
               | proto.Quote_Type_UNKNOWN => Err QuoteError_TypeUnknown
               | proto.Quote_Type_NORMAL =>
                   if negb (is_some text) && no_elements attachments then Err QuoteError_EmptyQuotedMessage else Ok Quote_Normal
               | proto.Quote_Type_GIFT_BADGE => Ok Quote_GiftBadge
               | proto.Quote_Type_VIEW_ONCE => Ok Quote_ViewOnce
               | proto.Quote_Type_POLL => Ok Quote_Poll
               end;
  text ← transpose_map (fun t => map_err QuoteError_Text (MessageText_try_from t)) text;
  _ ← transpose_map (fun t => map_err QuoteError_Text (check_length_for_quote t)) text;
  attachments ← likely_empty attachments (mapM QuotedAttachment_try_from);
  Ok (mkQuote author quote_type target_sent_timestamp attachments text).
End Quotes.

(** ** contact_message.rs: the attached card *)

Record ContactAttachment := mkContactAttachment {
  ca_name : option proto.ContactAttachment_Name;
  ca_number : list proto.ContactAttachment_Phone;
  ca_email : list proto.ContactAttachment_Email;
  ca_address : list proto.ContactAttachment_PostalAddress;
  ca_organization : string;
  ca_avatar : option FilePointer
}.
Inductive ContactAttachmentError :=
| ContactAttachmentError_Missing
| ContactAttachmentError_UnknownType (which : string)
| ContactAttachmentError_EmptyName
| ContactAttachmentError_PhoneNumberMissingValue (t : proto.ContactAttachment_Phone_Type)
| ContactAttachmentError_EmailMissingValue (t : proto.ContactAttachment_Email_Type)
| ContactAttachmentError_EmptyAddress (t : proto.ContactAttachment_PostalAddress_Type)
| ContactAttachmentError_Avatar (e : FilePointerError).

Definition card_name_check (name : proto.ContactAttachment_Name) : outcome ContactAttachmentError () :=
  let '(proto.mkContactAttachment_Name givenName familyName prefix suffix middleName nickname) := name in
  guard_err (is_empty givenName && is_empty familyName && is_empty prefix && is_empty suffix && is_empty middleName && is_empty nickname)
    ContactAttachmentError_EmptyName.
Definition card_phone_check (p : proto.ContactAttachment_Phone) : outcome ContactAttachmentError () :=
  let '(proto.mkContactAttachment_Phone value type_ _) := p in
  let type_ := enum_value_or_default type_ in
  _ ← guard_err (bool_decide (type_ = proto.ContactAttachment_Phone_Type_UNKNOWN)) (ContactAttachmentError_UnknownType "phone number");
  guard_err (is_empty value) (ContactAttachmentError_PhoneNumberMissingValue type_).
Definition card_email_check (e : proto.ContactAttachment_Email) : outcome ContactAttachmentError () :=
  let '(proto.mkContactAttachment_Email value type_ _) := e in
  let type_ := enum_value_or_default type_ in
  _ ← guard_err (bool_decide (type_ = proto.ContactAttachment_Email_Type_UNKNOWN)) (ContactAttachmentError_UnknownType "email");
  guard_err (is_empty value) (ContactAttachmentError_EmailMissingValue type_).
Definition card_address_check (a : proto.ContactAttachment_PostalAddress) : outcome ContactAttachmentError () :=
  let '(proto.mkContactAttachment_PostalAddress type_ _ street pobox neighborhood city region postcode country) := a in
  let type_ := enum_value_or_default type_ in
  _ ← guard_err (bool_decide (type_ = proto.ContactAttachment_PostalAddress_Type_UNKNOWN)) (ContactAttachmentError_UnknownType "address");
  guard_err (is_empty street && is_empty pobox && is_empty neighborhood && is_empty city && is_empty region && is_empty postcode
             && is_empty country) (ContactAttachmentError_EmptyAddress type_).

Definition ContactAttachment_try_from (self : proto.ContactAttachment) : outcome ContactAttachmentError ContactAttachment :=
  let '(proto.mkContactAttachment name number email address avatar organization) := self in
  _ ← transpose_map card_name_check name;
  _ ← mapM card_phone_check number;
  _ ← mapM card_email_check email;
  _ ← mapM card_address_check address;
  avatar ← transpose_map (fun file => map_err ContactAttachmentError_Avatar (FilePointer_try_from file)) avatar;
  Ok (mkContactAttachment name number email address organization avatar).

(** ** poll.rs *)

(** The extended grapheme clusters of a string, of the unicode-segmentation crate. *)
Class Graphemes := { grapheme_count : string -> nat }.

Record PollVote (R : Type) := mkPollVote { pv_voter : R; pv_vote_count : Z }.
Arguments mkPollVote {_} _ _.
Record PollOption (R : Type) := mkPollOption { po_option : string; po_votes : list (PollVote R) }.
Arguments mkPollOption {_} _ _.
Record Poll (R : Type) := mkPoll {
  poll_question : string; poll_allow_multiple : bool; poll_options : list (PollOption R); poll_has_ended : bool;
  poll_reactions : ReactionSet R }.
Arguments mkPoll {_} _ _ _ _ _.
Record PollTerminate := mkPollTerminate { pt_target_sent_timestamp : Timestamp; pt_question : string }.
Inductive PollError :=
| PollError_UnknownVoterId
| PollError_InvalidVoterId
| PollError_InvalidPollStringSize (which : string) (n : nat)
| PollError_TooFewOptions (n : nat)
| PollError_InvalidTimestamp (e : TimestampError)
| PollError_NonUniqueVoters (ids : list RecipientId)
| PollError_Reaction (e : ReactionError).

Definition MIN_POLL_OPTIONS : nat := 2.

Section Polls.
Context `{G : Graphemes} `{IM : IntMapIter} {R : Type} (lookup_pair : RecipientId -> option (MinimalRecipientData * R)).

Definition validate_poll_string_len (s description : string) : outcome PollError () :=
  let len := grapheme_count s in
  guard_err (negb ((1 <=? len) && (len <=? 100))%nat) (PollError_InvalidPollStringSize description len).

Fixpoint histogram (ids : list Z) (hist : gmap Z nat) : gmap Z nat :=
  match ids with
  | [] => hist
  | id :: ids => histogram ids (<[id := S (default 0%nat (hist !! id))]> hist)
  end.
Definition validate_unique_voters (ids : list Z) : outcome PollError () :=
  let non_unique_voters := omap (fun '(k, v) => if (1 <? v)%nat then Some k else None) (intmap_iter (histogram ids ∅)) in
  guard_err (negb (no_elements non_unique_voters)) (PollError_NonUniqueVoters non_unique_voters).

Definition PollVote_try_from (self : proto.Poll_PollOption_PollVote) : outcome PollError (PollVote R) :=
  let '(proto.mkPoll_PollOption_PollVote voterId voteCount) := self in
  '(voter_data, voter) ← ok_or PollError_UnknownVoterId (lookup_pair voterId);
  _ ← match voter_data with
      | Minimal_Self | Minimal_Contact _ _ _ _ => Ok tt
      | Minimal_Group _ | Minimal_DistributionList _ | Minimal_ReleaseNotes | Minimal_CallLink _ => Err PollError_InvalidVoterId
      end;
  Ok (mkPollVote voter voteCount).

Definition PollOption_try_from (self : proto.Poll_PollOption) : outcome PollError (PollOption R) :=
  let '(proto.mkPoll_PollOption option votes) := self in
  _ ← validate_poll_string_len option "poll option";
  _ ← validate_unique_voters (proto.Poll_PollOption_PollVote_voterId <$> votes);
  votes ← mapM PollVote_try_from votes;
  Ok (mkPollOption option votes).

Definition Poll_try_from (self : proto.Poll) : outcome PollError (Poll R) :=
  let '(proto.mkPoll question allow_multiple options has_ended reactions) := self in
  _ ← validate_poll_string_len question "poll question";
  _ ← guard_err (length options <? MIN_POLL_OPTIONS)%nat (PollError_TooFewOptions (length options));
  let all_voter_ids := options ≫= (fun opt => proto.Poll_PollOption_PollVote_voterId <$> proto.Poll_PollOption_votes opt) in
  options ← mapM PollOption_try_from options;
  _ ← if negb allow_multiple then validate_unique_voters all_voter_ids else Ok tt;
  reactions ← map_err PollError_Reaction (ReactionSet_try_from lookup_pair reactions);
  Ok (mkPoll question allow_multiple options has_ended reactions).

Definition PollTerminate_try_from (self : proto.PollTerminateUpdate) : outcome PollError PollTerminate :=
  let '(proto.mkPollTerminateUpdate targetSentTimestamp question) := self in
  _ ← validate_poll_string_len question "poll question";
  target_sent_timestamp ← map_err PollError_InvalidTimestamp (Timestamp_from_millis targetSentTimestamp "PollTerminateUpdate.targetSentTimestamp");
  Ok (mkPollTerminate target_sent_timestamp question).
End Polls.

(** ** group.rs: changes of a group *)

Inductive AccessLevel := AccessLevel_Any | AccessLevel_Member | AccessLevel_Administrator.
Record Invitee := mkInvitee { inviter : option Aci; invitee_aci : option Aci; invitee_pni : option Pni }.
Record NoValidation (T : Type) := mkNoValidation { no_validation : T }.
Arguments mkNoValidation {_} _.
Arguments no_validation {_} _.
Record NonZeroU32 := mkNonZeroU32 { non_zero : Z }.
Inductive InviteeError := InviteeError_InviterAci | InviteeError_InviteeAci | InviteeError_InviteePni.
Inductive GroupUpdateFieldError :=
| GroupUpdateFieldError_InvalidAci
| GroupUpdateFieldError_InvalidServiceId
| GroupUpdateFieldError_InvalidInvitee (e : InviteeError)
| GroupUpdateFieldError_AccessLevelInvalid (which : string)
| GroupUpdateFieldError_InviterMismatch
| GroupUpdateFieldError_CountMustBeNonzero.
Record GroupUpdateError := mkGroupUpdateError { gue_message : string; gue_field_name : string; gue_field_error : GroupUpdateFieldError }.

Inductive GroupChatUpdate :=
| GroupChatUpdate_GenericGroupUpdate (updaterAci : option Aci)
| GroupChatUpdate_GroupCreationUpdate (updaterAci : option Aci)
| GroupChatUpdate_GroupNameUpdate (updaterAci : option Aci) (newGroupName : NoValidation (option string))
| GroupChatUpdate_GroupAvatarUpdate (updaterAci : option Aci) (wasRemoved : NoValidation bool)
| GroupChatUpdate_GroupDescriptionUpdate (updaterAci : option Aci) (newDescription : NoValidation (option string))
| GroupChatUpdate_GroupMembershipAccessLevelChangeUpdate (updaterAci : option Aci) (accessLevel : AccessLevel)
| GroupChatUpdate_GroupAttributesAccessLevelChangeUpdate (updaterAci : option Aci) (accessLevel : AccessLevel)
| GroupChatUpdate_GroupAnnouncementOnlyChangeUpdate (updaterAci : option Aci) (isAnnouncementOnly : NoValidation bool)
| GroupChatUpdate_GroupAdminStatusUpdate (updaterAci : option Aci) (memberAci : Aci) (wasAdminStatusGranted : NoValidation bool)
| GroupChatUpdate_GroupMemberLeftUpdate (aci : Aci)
| GroupChatUpdate_GroupMemberRemovedUpdate (removerAci : option Aci) (removedAci : Aci)
| GroupChatUpdate_SelfInvitedToGroupUpdate (inviterAci : option Aci)
| GroupChatUpdate_SelfInvitedOtherUserToGroupUpdate (inviteeServiceId : ServiceId)
| GroupChatUpdate_GroupUnknownInviteeUpdate (inviterAci : option Aci) (inviteeCount : NonZeroU32)
| GroupChatUpdate_GroupInvitationAcceptedUpdate (inviterAci : option Aci) (newMemberAci : Aci)
| GroupChatUpdate_GroupInvitationDeclinedUpdate (inviterAci : option Aci) (inviteeAci : option Aci)
| GroupChatUpdate_GroupMemberJoinedUpdate (newMemberAci : Aci)
| GroupChatUpdate_GroupMemberAddedUpdate (updaterAci : option Aci) (newMemberAci : Aci) (inviterAci : option Aci) (hadOpenInvitation : NoValidation bool)
| GroupChatUpdate_GroupSelfInvitationRevokedUpdate (revokerAci : option Aci)
| GroupChatUpdate_GroupInvitationRevokedUpdate (updaterAci : option Aci) (invitees : list Invitee)
| GroupChatUpdate_GroupJoinRequestUpdate (requestorAci : Aci)
| GroupChatUpdate_GroupJoinRequestApprovalUpdate (requestorAci : Aci) (updaterAci : option Aci) (wasApproved : NoValidation bool)
| GroupChatUpdate_GroupJoinRequestCanceledUpdate (requestorAci : Aci)
| GroupChatUpdate_GroupInviteLinkResetUpdate (updaterAci : option Aci)
| GroupChatUpdate_GroupInviteLinkEnabledUpdate (updaterAci : option Aci) (linkRequiresAdminApproval : NoValidation bool)
| GroupChatUpdate_GroupInviteLinkAdminApprovalUpdate (updaterAci : option Aci) (linkRequiresAdminApproval : NoValidation bool)
| GroupChatUpdate_GroupInviteLinkDisabledUpdate (updaterAci : option Aci)
| GroupChatUpdate_GroupMemberJoinedByLinkUpdate (newMemberAci : Aci)
| GroupChatUpdate_GroupV2MigrationUpdate
| GroupChatUpdate_GroupV2MigrationSelfInvitedUpdate
| GroupChatUpdate_GroupV2MigrationInvitedMembersUpdate (invitedMembersCount : NonZeroU32)
| GroupChatUpdate_GroupV2MigrationDroppedMembersUpdate (droppedMembersCount : NonZeroU32)
| GroupChatUpdate_GroupSequenceOfRequestsAndCancelsUpdate (requestorAci : Aci) (count : NonZeroU32)
| GroupChatUpdate_GroupExpirationTimerUpdate (updaterAci : option Aci) (expiresInMs : Duration).

(** The trait [ValidateFrom] and its implementations. *)
Class ValidateFrom (T Self : Type) := validate_from : T -> outcome GroupUpdateFieldError Self.
#[export] Instance validate_option_aci : ValidateFrom (option bytes) (option Aci) := fun value =>
  transpose_map (fun b => ok_or GroupUpdateFieldError_InvalidAci (uuid_bytes_to_aci b)) value.
#[export] Instance validate_aci : ValidateFrom bytes Aci := fun value => ok_or GroupUpdateFieldError_InvalidAci (uuid_bytes_to_aci value).
#[export] Instance validate_service_id : ValidateFrom bytes ServiceId := fun value =>
  ok_or GroupUpdateFieldError_InvalidServiceId (parse_from_service_id_binary value).
#[export] Instance validate_nonzero : ValidateFrom Z NonZeroU32 := fun value =>
  ok_or GroupUpdateFieldError_CountMustBeNonzero (mkNonZeroU32 <$> NonZero_new value).
#[export] Instance validate_nothing {T} : ValidateFrom T (NoValidation T) := fun value => Ok (mkNoValidation value).
#[export] Instance validate_access_level : ValidateFrom (EnumOrUnknown proto.GroupV2AccessLevel) AccessLevel := fun value =>
  match enum_value_or_default value with
  | proto.GroupV2AccessLevel_UNKNOWN => Err (GroupUpdateFieldError_AccessLevelInvalid "UNKNOWN")
  | proto.GroupV2AccessLevel_UNSATISFIABLE => Err (GroupUpdateFieldError_AccessLevelInvalid "UNSATISFIABLE")
  | proto.GroupV2AccessLevel_ADMINISTRATOR => Ok AccessLevel_Administrator
  | proto.GroupV2AccessLevel_ANY => Ok AccessLevel_Any
  | proto.GroupV2AccessLevel_MEMBER => Ok AccessLevel_Member
  end.
Definition Invitee_try_from (value : proto.GroupInvitationRevokedUpdate_Invitee) : outcome InviteeError Invitee :=
  let '(proto.mkGroupInvitationRevokedUpdate_Invitee inviterAci inviteeAci inviteePni) := value in
  inviter ← transpose_map (fun b => ok_or InviteeError_InviterAci (uuid_bytes_to_aci b)) inviterAci;
  invitee_aci ← transpose_map (fun b => ok_or InviteeError_InviteeAci (uuid_bytes_to_aci b)) inviteeAci;
  invitee_pni ← transpose_map (fun b => ok_or InviteeError_InviteePni (from_uuid <$> try_array 16 b)) inviteePni;
  Ok (mkInvitee inviter invitee_aci invitee_pni).
#[export] Instance validate_invitees : ValidateFrom (list proto.GroupInvitationRevokedUpdate_Invitee) (list Invitee) := fun invitees =>
  _ ← guard_err (no_elements invitees) GroupUpdateFieldError_CountMustBeNonzero;
  map_err GroupUpdateFieldError_InvalidInvitee (mapM Invitee_try_from invitees).
#[export] Instance validate_duration : ValidateFrom Z Duration := fun value => Ok (Duration_from_millis value).

Definition field {T Self} `{V : ValidateFrom T Self} (message field_name : string) (value : T) : outcome GroupUpdateError Self :=
  map_err (mkGroupUpdateError message field_name) (validate_from value).

(** The conversions that [TryFromProto!] generates: the fields in the order of the variant. *)
Definition GenericGroupUpdate_try_from (message : proto.GenericGroupUpdate) : outcome GroupUpdateError GroupChatUpdate :=
  let '(proto.mkGenericGroupUpdate updaterAci) := message in
  updaterAci ← field "GenericGroupUpdate" "updaterAci" updaterAci;
  Ok (GroupChatUpdate_GenericGroupUpdate updaterAci).
Definition GroupCreationUpdate_try_from (message : proto.GroupCreationUpdate) : outcome GroupUpdateError GroupChatUpdate :=
  let '(proto.mkGroupCreationUpdate updaterAci) := message in
  updaterAci ← field "GroupCreationUpdate" "updaterAci" updaterAci;
  Ok (GroupChatUpdate_GroupCreationUpdate updaterAci).
Definition GroupNameUpdate_try_from (message : proto.GroupNameUpdate) : outcome GroupUpdateError GroupChatUpdate :=
  let '(proto.mkGroupNameUpdate updaterAci newGroupName) := message in
  updaterAci ← field "GroupNameUpdate" "updaterAci" updaterAci;
  newGroupName ← field "GroupNameUpdate" "newGroupName" newGroupName;
  Ok (GroupChatUpdate_GroupNameUpdate updaterAci newGroupName).
Definition GroupAvatarUpdate_try_from (message : proto.GroupAvatarUpdate) : outcome GroupUpdateError GroupChatUpdate :=
  let '(proto.mkGroupAvatarUpdate updaterAci wasRemoved) := message in
  updaterAci ← field "GroupAvatarUpdate" "updaterAci" updaterAci;
  wasRemoved ← field "GroupAvatarUpdate" "wasRemoved" wasRemoved;
  Ok (GroupChatUpdate_GroupAvatarUpdate updaterAci wasRemoved).
Definition GroupDescriptionUpdate_try_from (message : proto.GroupDescriptionUpdate) : outcome GroupUpdateError GroupChatUpdate :=
  let '(proto.mkGroupDescriptionUpdate updaterAci newDescription) := message in
  updaterAci ← field "GroupDescriptionUpdate" "updaterAci" updaterAci;
  newDescription ← field "GroupDescriptionUpdate" "newDescription" newDescription;
  Ok (GroupChatUpdate_GroupDescriptionUpdate updaterAci newDescription).
Definition GroupMembershipAccessLevelChangeUpdate_try_from (message : proto.GroupMembershipAccessLevelChangeUpdate) : outcome GroupUpdateError GroupChatUpdate :=
  let '(proto.mkGroupMembershipAccessLevelChangeUpdate updaterAci accessLevel) := message in
  updaterAci ← field "GroupMembershipAccessLevelChangeUpdate" "updaterAci" updaterAci;
  accessLevel ← field "GroupMembershipAccessLevelChangeUpdate" "accessLevel" accessLevel;
  Ok (GroupChatUpdate_GroupMembershipAccessLevelChangeUpdate updaterAci accessLevel).
Definition GroupAttributesAccessLevelChangeUpdate_try_from (message : proto.GroupAttributesAccessLevelChangeUpdate) : outcome GroupUpdateError GroupChatUpdate :=
  let '(proto.mkGroupAttributesAccessLevelChangeUpdate updaterAci accessLevel) := message in
  updaterAci ← field "GroupAttributesAccessLevelChangeUpdate" "updaterAci" updaterAci;
  accessLevel ← field "GroupAttributesAccessLevelChangeUpdate" "accessLevel" accessLevel;
  Ok (GroupChatUpdate_GroupAttributesAccessLevelChangeUpdate updaterAci accessLevel).
Definition GroupAnnouncementOnlyChangeUpdate_try_from (message : proto.GroupAnnouncementOnlyChangeUpdate) : outcome GroupUpdateError GroupChatUpdate :=
  let '(proto.mkGroupAnnouncementOnlyChangeUpdate updaterAci isAnnouncementOnly) := message in
  updaterAci ← field "GroupAnnouncementOnlyChangeUpdate" "updaterAci" updaterAci;
  isAnnouncementOnly ← field "GroupAnnouncementOnlyChangeUpdate" "isAnnouncementOnly" isAnnouncementOnly;
  Ok (GroupChatUpdate_GroupAnnouncementOnlyChangeUpdate updaterAci isAnnouncementOnly).
Definition GroupAdminStatusUpdate_try_from (message : proto.GroupAdminStatusUpdate) : outcome GroupUpdateError GroupChatUpdate :=
  let '(proto.mkGroupAdminStatusUpdate updaterAci memberAci wasAdminStatusGranted) := message in
  updaterAci ← field "GroupAdminStatusUpdate" "updaterAci" updaterAci;
  memberAci ← field "GroupAdminStatusUpdate" "memberAci" memberAci;
  wasAdminStatusGranted ← field "GroupAdminStatusUpdate" "wasAdminStatusGranted" wasAdminStatusGranted;
  Ok (GroupChatUpdate_GroupAdminStatusUpdate updaterAci memberAci wasAdminStatusGranted).
Definition GroupMemberLeftUpdate_try_from (message : proto.GroupMemberLeftUpdate) : outcome GroupUpdateError GroupChatUpdate :=
  let '(proto.mkGroupMemberLeftUpdate aci) := message in
  aci ← field "GroupMemberLeftUpdate" "aci" aci;
  Ok (GroupChatUpdate_GroupMemberLeftUpdate aci).
Definition GroupMemberRemovedUpdate_try_from (message : proto.GroupMemberRemovedUpdate) : outcome GroupUpdateError GroupChatUpdate :=
  let '(proto.mkGroupMemberRemovedUpdate removerAci removedAci) := message in
  removerAci ← field "GroupMemberRemovedUpdate" "removerAci" removerAci;
  removedAci ← field "GroupMemberRemovedUpdate" "removedAci" removedAci;
  Ok (GroupChatUpdate_GroupMemberRemovedUpdate removerAci removedAci).
Definition SelfInvitedToGroupUpdate_try_from (message : proto.SelfInvitedToGroupUpdate) : outcome GroupUpdateError GroupChatUpdate :=
  let '(proto.mkSelfInvitedToGroupUpdate inviterAci) := message in
  inviterAci ← field "SelfInvitedToGroupUpdate" "inviterAci" inviterAci;
  Ok (GroupChatUpdate_SelfInvitedToGroupUpdate inviterAci).
Definition SelfInvitedOtherUserToGroupUpdate_try_from (message : proto.SelfInvitedOtherUserToGroupUpdate) : outcome GroupUpdateError GroupChatUpdate :=
  let '(proto.mkSelfInvitedOtherUserToGroupUpdate inviteeServiceId) := message in
  inviteeServiceId ← field "SelfInvitedOtherUserToGroupUpdate" "inviteeServiceId" inviteeServiceId;
  Ok (GroupChatUpdate_SelfInvitedOtherUserToGroupUpdate inviteeServiceId).
Definition GroupUnknownInviteeUpdate_try_from (message : proto.GroupUnknownInviteeUpdate) : outcome GroupUpdateError GroupChatUpdate :=
  let '(proto.mkGroupUnknownInviteeUpdate inviterAci inviteeCount) := message in
  inviterAci ← field "GroupUnknownInviteeUpdate" "inviterAci" inviterAci;
  inviteeCount ← field "GroupUnknownInviteeUpdate" "inviteeCount" inviteeCount;
  Ok (GroupChatUpdate_GroupUnknownInviteeUpdate inviterAci inviteeCount).
Definition GroupInvitationAcceptedUpdate_try_from (message : proto.GroupInvitationAcceptedUpdate) : outcome GroupUpdateError GroupChatUpdate :=
  let '(proto.mkGroupInvitationAcceptedUpdate inviterAci newMemberAci) := message in
  inviterAci ← field "GroupInvitationAcceptedUpdate" "inviterAci" inviterAci;
  newMemberAci ← field "GroupInvitationAcceptedUpdate" "newMemberAci" newMemberAci;
  Ok (GroupChatUpdate_GroupInvitationAcceptedUpdate inviterAci newMemberAci).
Definition GroupInvitationDeclinedUpdate_try_from (message : proto.GroupInvitationDeclinedUpdate) : outcome GroupUpdateError GroupChatUpdate :=
  let '(proto.mkGroupInvitationDeclinedUpdate inviterAci inviteeAci) := message in
  inviterAci ← field "GroupInvitationDeclinedUpdate" "inviterAci" inviterAci;
  inviteeAci ← field "GroupInvitationDeclinedUpdate" "inviteeAci" inviteeAci;
  Ok (GroupChatUpdate_GroupInvitationDeclinedUpdate inviterAci inviteeAci).
Definition GroupMemberJoinedUpdate_try_from (message : proto.GroupMemberJoinedUpdate) : outcome GroupUpdateError GroupChatUpdate :=
  let '(proto.mkGroupMemberJoinedUpdate newMemberAci) := message in
  newMemberAci ← field "GroupMemberJoinedUpdate" "newMemberAci" newMemberAci;
  Ok (GroupChatUpdate_GroupMemberJoinedUpdate newMemberAci).
Definition GroupMemberAddedUpdate_try_from (message : proto.GroupMemberAddedUpdate) : outcome GroupUpdateError GroupChatUpdate :=
  let '(proto.mkGroupMemberAddedUpdate updaterAci newMemberAci hadOpenInvitation inviterAci) := message in
  updaterAci ← field "GroupMemberAddedUpdate" "updaterAci" updaterAci;
  newMemberAci ← field "GroupMemberAddedUpdate" "newMemberAci" newMemberAci;
  inviterAci ← field "GroupMemberAddedUpdate" "inviterAci" inviterAci;
  hadOpenInvitation ← field "GroupMemberAddedUpdate" "hadOpenInvitation" hadOpenInvitation;
  Ok (GroupChatUpdate_GroupMemberAddedUpdate updaterAci newMemberAci inviterAci hadOpenInvitation).
Definition GroupSelfInvitationRevokedUpdate_try_from (message : proto.GroupSelfInvitationRevokedUpdate) : outcome GroupUpdateError GroupChatUpdate :=
  let '(proto.mkGroupSelfInvitationRevokedUpdate revokerAci) := message in
  revokerAci ← field "GroupSelfInvitationRevokedUpdate" "revokerAci" revokerAci;
  Ok (GroupChatUpdate_GroupSelfInvitationRevokedUpdate revokerAci).
Definition GroupInvitationRevokedUpdate_try_from (message : proto.GroupInvitationRevokedUpdate) : outcome GroupUpdateError GroupChatUpdate :=
  let '(proto.mkGroupInvitationRevokedUpdate updaterAci invitees) := message in
  updaterAci ← field "GroupInvitationRevokedUpdate" "updaterAci" updaterAci;
  invitees ← field "GroupInvitationRevokedUpdate" "invitees" invitees;
  Ok (GroupChatUpdate_GroupInvitationRevokedUpdate updaterAci invitees).
Definition GroupJoinRequestUpdate_try_from (message : proto.GroupJoinRequestUpdate) : outcome GroupUpdateError GroupChatUpdate :=
  let '(proto.mkGroupJoinRequestUpdate requestorAci) := message in
  requestorAci ← field "GroupJoinRequestUpdate" "requestorAci" requestorAci;
  Ok (GroupChatUpdate_GroupJoinRequestUpdate requestorAci).
Definition GroupJoinRequestApprovalUpdate_try_from (message : proto.GroupJoinRequestApprovalUpdate) : outcome GroupUpdateError GroupChatUpdate :=
  let '(proto.mkGroupJoinRequestApprovalUpdate requestorAci updaterAci wasApproved) := message in
  requestorAci ← field "GroupJoinRequestApprovalUpdate" "requestorAci" requestorAci;
  updaterAci ← field "GroupJoinRequestApprovalUpdate" "updaterAci" updaterAci;
  wasApproved ← field "GroupJoinRequestApprovalUpdate" "wasApproved" wasApproved;
  Ok (GroupChatUpdate_GroupJoinRequestApprovalUpdate requestorAci updaterAci wasApproved).
Definition GroupJoinRequestCanceledUpdate_try_from (message : proto.GroupJoinRequestCanceledUpdate) : outcome GroupUpdateError GroupChatUpdate :=
  let '(proto.mkGroupJoinRequestCanceledUpdate requestorAci) := message in
  requestorAci ← field "GroupJoinRequestCanceledUpdate" "requestorAci" requestorAci;
  Ok (GroupChatUpdate_GroupJoinRequestCanceledUpdate requestorAci).
Definition GroupInviteLinkResetUpdate_try_from (message : proto.GroupInviteLinkResetUpdate) : outcome GroupUpdateError GroupChatUpdate :=
  let '(proto.mkGroupInviteLinkResetUpdate updaterAci) := message in
  updaterAci ← field "GroupInviteLinkResetUpdate" "updaterAci" updaterAci;
  Ok (GroupChatUpdate_GroupInviteLinkResetUpdate updaterAci).
Definition GroupInviteLinkEnabledUpdate_try_from (message : proto.GroupInviteLinkEnabledUpdate) : outcome GroupUpdateError GroupChatUpdate :=
  let '(proto.mkGroupInviteLinkEnabledUpdate updaterAci linkRequiresAdminApproval) := message in
  updaterAci ← field "GroupInviteLinkEnabledUpdate" "updaterAci" updaterAci;
  linkRequiresAdminApproval ← field "GroupInviteLinkEnabledUpdate" "linkRequiresAdminApproval" linkRequiresAdminApproval;
  Ok (GroupChatUpdate_GroupInviteLinkEnabledUpdate updaterAci linkRequiresAdminApproval).
Definition GroupInviteLinkAdminApprovalUpdate_try_from (message : proto.GroupInviteLinkAdminApprovalUpdate) : outcome GroupUpdateError GroupChatUpdate :=
  let '(proto.mkGroupInviteLinkAdminApprovalUpdate updaterAci linkRequiresAdminApproval) := message in
  updaterAci ← field "GroupInviteLinkAdminApprovalUpdate" "updaterAci" updaterAci;
  linkRequiresAdminApproval ← field "GroupInviteLinkAdminApprovalUpdate" "linkRequiresAdminApproval" linkRequiresAdminApproval;
  Ok (GroupChatUpdate_GroupInviteLinkAdminApprovalUpdate updaterAci linkRequiresAdminApproval).
Definition GroupInviteLinkDisabledUpdate_try_from (message : proto.GroupInviteLinkDisabledUpdate) : outcome GroupUpdateError GroupChatUpdate :=
  let '(proto.mkGroupInviteLinkDisabledUpdate updaterAci) := message in
  updaterAci ← field "GroupInviteLinkDisabledUpdate" "updaterAci" updaterAci;
  Ok (GroupChatUpdate_GroupInviteLinkDisabledUpdate updaterAci).
Definition GroupMemberJoinedByLinkUpdate_try_from (message : proto.GroupMemberJoinedByLinkUpdate) : outcome GroupUpdateError GroupChatUpdate :=
  let '(proto.mkGroupMemberJoinedByLinkUpdate newMemberAci) := message in
  newMemberAci ← field "GroupMemberJoinedByLinkUpdate" "newMemberAci" newMemberAci;
  Ok (GroupChatUpdate_GroupMemberJoinedByLinkUpdate newMemberAci).
Definition GroupV2MigrationUpdate_try_from (message : proto.GroupV2MigrationUpdate) : outcome GroupUpdateError GroupChatUpdate :=
  let '(proto.mkGroupV2MigrationUpdate) := message in
  Ok GroupChatUpdate_GroupV2MigrationUpdate.
Definition GroupV2MigrationSelfInvitedUpdate_try_from (message : proto.GroupV2MigrationSelfInvitedUpdate) : outcome GroupUpdateError GroupChatUpdate :=
  let '(proto.mkGroupV2MigrationSelfInvitedUpdate) := message in
  Ok GroupChatUpdate_GroupV2MigrationSelfInvitedUpdate.
Definition GroupV2MigrationInvitedMembersUpdate_try_from (message : proto.GroupV2MigrationInvitedMembersUpdate) : outcome GroupUpdateError GroupChatUpdate :=
  let '(proto.mkGroupV2MigrationInvitedMembersUpdate invitedMembersCount) := message in
  invitedMembersCount ← field "GroupV2MigrationInvitedMembersUpdate" "invitedMembersCount" invitedMembersCount;
  Ok (GroupChatUpdate_GroupV2MigrationInvitedMembersUpdate invitedMembersCount).
Definition GroupV2MigrationDroppedMembersUpdate_try_from (message : proto.GroupV2MigrationDroppedMembersUpdate) : outcome GroupUpdateError GroupChatUpdate :=
  let '(proto.mkGroupV2MigrationDroppedMembersUpdate droppedMembersCount) := message in
  droppedMembersCount ← field "GroupV2MigrationDroppedMembersUpdate" "droppedMembersCount" droppedMembersCount;
  Ok (GroupChatUpdate_GroupV2MigrationDroppedMembersUpdate droppedMembersCount).
Definition GroupSequenceOfRequestsAndCancelsUpdate_try_from (message : proto.GroupSequenceOfRequestsAndCancelsUpdate) : outcome GroupUpdateError GroupChatUpdate :=
  let '(proto.mkGroupSequenceOfRequestsAndCancelsUpdate requestorAci count) := message in
  requestorAci ← field "GroupSequenceOfRequestsAndCancelsUpdate" "requestorAci" requestorAci;
  count ← field "GroupSequenceOfRequestsAndCancelsUpdate" "count" count;
  Ok (GroupChatUpdate_GroupSequenceOfRequestsAndCancelsUpdate requestorAci count).
Definition GroupExpirationTimerUpdate_try_from (message : proto.GroupExpirationTimerUpdate) : outcome GroupUpdateError GroupChatUpdate :=
  let '(proto.mkGroupExpirationTimerUpdate expiresInMs updaterAci) := message in
  updaterAci ← field "GroupExpirationTimerUpdate" "updaterAci" updaterAci;
  expiresInMs ← field "GroupExpirationTimerUpdate" "expiresInMs" expiresInMs;
  Ok (GroupChatUpdate_GroupExpirationTimerUpdate updaterAci expiresInMs).

Definition GroupChatUpdate_try_from (item : proto.GroupChangeChatUpdate_Update_Update) : outcome GroupUpdateError GroupChatUpdate :=
  match item with
  | proto.GroupChangeChatUpdate_Update_genericGroupUpdate m => GenericGroupUpdate_try_from m
  | proto.GroupChangeChatUpdate_Update_groupCreationUpdate m => GroupCreationUpdate_try_from m
  | proto.GroupChangeChatUpdate_Update_groupNameUpdate m => GroupNameUpdate_try_from m
  | proto.GroupChangeChatUpdate_Update_groupAvatarUpdate m => GroupAvatarUpdate_try_from m
  | proto.GroupChangeChatUpdate_Update_groupDescriptionUpdate m => GroupDescriptionUpdate_try_from m
  | proto.GroupChangeChatUpdate_Update_groupMembershipAccessLevelChangeUpdate m => GroupMembershipAccessLevelChangeUpdate_try_from m
  | proto.GroupChangeChatUpdate_Update_groupAttributesAccessLevelChangeUpdate m => GroupAttributesAccessLevelChangeUpdate_try_from m
  | proto.GroupChangeChatUpdate_Update_groupAnnouncementOnlyChangeUpdate m => GroupAnnouncementOnlyChangeUpdate_try_from m
  | proto.GroupChangeChatUpdate_Update_groupAdminStatusUpdate m => GroupAdminStatusUpdate_try_from m
  | proto.GroupChangeChatUpdate_Update_groupMemberLeftUpdate m => GroupMemberLeftUpdate_try_from m
  | proto.GroupChangeChatUpdate_Update_groupMemberRemovedUpdate m => GroupMemberRemovedUpdate_try_from m
  | proto.GroupChangeChatUpdate_Update_selfInvitedToGroupUpdate m => SelfInvitedToGroupUpdate_try_from m
  | proto.GroupChangeChatUpdate_Update_selfInvitedOtherUserToGroupUpdate m => SelfInvitedOtherUserToGroupUpdate_try_from m
  | proto.GroupChangeChatUpdate_Update_groupUnknownInviteeUpdate m => GroupUnknownInviteeUpdate_try_from m
  | proto.GroupChangeChatUpdate_Update_groupInvitationAcceptedUpdate m => GroupInvitationAcceptedUpdate_try_from m
  | proto.GroupChangeChatUpdate_Update_groupInvitationDeclinedUpdate m => GroupInvitationDeclinedUpdate_try_from m
  | proto.GroupChangeChatUpdate_Update_groupMemberJoinedUpdate m => GroupMemberJoinedUpdate_try_from m
  | proto.GroupChangeChatUpdate_Update_groupMemberAddedUpdate m => 
      result ← GroupMemberAddedUpdate_try_from m;
      match result with
      | GroupChatUpdate_GroupMemberAddedUpdate _ _ inviterAci hadOpenInvitation =>
          if is_some inviterAci && negb (no_validation hadOpenInvitation)
          then Err (mkGroupUpdateError "GroupMemberAddedUpdate" "inviterAci" GroupUpdateFieldError_InviterMismatch)
          else Ok result
      | _ => Panic
      end
  | proto.GroupChangeChatUpdate_Update_groupSelfInvitationRevokedUpdate m => GroupSelfInvitationRevokedUpdate_try_from m
  | proto.GroupChangeChatUpdate_Update_groupInvitationRevokedUpdate m => GroupInvitationRevokedUpdate_try_from m
  | proto.GroupChangeChatUpdate_Update_groupJoinRequestUpdate m => GroupJoinRequestUpdate_try_from m
  | proto.GroupChangeChatUpdate_Update_groupJoinRequestApprovalUpdate m => GroupJoinRequestApprovalUpdate_try_from m
  | proto.GroupChangeChatUpdate_Update_groupJoinRequestCanceledUpdate m => GroupJoinRequestCanceledUpdate_try_from m
  | proto.GroupChangeChatUpdate_Update_groupInviteLinkResetUpdate m => GroupInviteLinkResetUpdate_try_from m
  | proto.GroupChangeChatUpdate_Update_groupInviteLinkEnabledUpdate m => GroupInviteLinkEnabledUpdate_try_from m
  | proto.GroupChangeChatUpdate_Update_groupInviteLinkAdminApprovalUpdate m => GroupInviteLinkAdminApprovalUpdate_try_from m
  | proto.GroupChangeChatUpdate_Update_groupInviteLinkDisabledUpdate m => GroupInviteLinkDisabledUpdate_try_from m
  | proto.GroupChangeChatUpdate_Update_groupMemberJoinedByLinkUpdate m => GroupMemberJoinedByLinkUpdate_try_from m
  | proto.GroupChangeChatUpdate_Update_groupV2MigrationUpdate m => GroupV2MigrationUpdate_try_from m
  | proto.GroupChangeChatUpdate_Update_groupV2MigrationSelfInvitedUpdate m => GroupV2MigrationSelfInvitedUpdate_try_from m
  | proto.GroupChangeChatUpdate_Update_groupV2MigrationInvitedMembersUpdate m => GroupV2MigrationInvitedMembersUpdate_try_from m
  | proto.GroupChangeChatUpdate_Update_groupV2MigrationDroppedMembersUpdate m => GroupV2MigrationDroppedMembersUpdate_try_from m
  | proto.GroupChangeChatUpdate_Update_groupSequenceOfRequestsAndCancelsUpdate m => GroupSequenceOfRequestsAndCancelsUpdate_try_from m
  | proto.GroupChangeChatUpdate_Update_groupExpirationTimerUpdate m => GroupExpirationTimerUpdate_try_from m
  end.

(** ** Errors of chat items (chat.rs and the messages above it) *)

Inductive SimpleChatUpdate :=
| JoinedSignal | IdentityUpdate | IdentityVerified | IdentityDefault | ChangeNumber | EndSession | ChatSessionRefresh | BadDecrypt
| PaymentsActivated | PaymentActivationRequest | UnsupportedProtocolMessage | ReleaseChannelDonationRequest | ReportedSpam | Blocked
| Unblocked | MessageRequestAccepted.
Inductive ViewOnceMessageError := ViewOnceMessageError_Attachment (e : MessageAttachmentError) | ViewOnceMessageError_Reaction (e : ReactionError).
Inductive VoiceMessageError :=
| VoiceMessageError_Attachment (e : MessageAttachmentError)
| VoiceMessageError_UnexpectedField (which : string)
| VoiceMessageError_WrongAttachmentsCount (n : nat)
| VoiceMessageError_WrongAttachmentType (f : proto.MessageAttachment_Flag)
| VoiceMessageError_Quote (e : QuoteError)
| VoiceMessageError_Reaction (e : ReactionError).
Inductive DirectStoryReplyError :=
| DirectStoryReplyError_MissingReply
| DirectStoryReplyError_EmptyText
| DirectStoryReplyError_Text (e : TextError)
| DirectStoryReplyError_LongText (e : FilePointerError)
| DirectStoryReplyError_EmptyEmoji
| DirectStoryReplyError_Reaction (e : ReactionError).
Inductive OutgoingSendError :=
| OutgoingSendError_UnknownRecipient (id : RecipientId)
| OutgoingSendError_InvalidRecipient (id : RecipientId) (k : DestinationKind)
| OutgoingSendError_SendStatusMissing
| OutgoingSendError_InvalidTimestamp (id : RecipientId) (e : TimestampError).
Inductive InvalidExpiration :=
| InvalidExpiration_TooSoon (expires_at backup_time : Timestamp)
| InvalidExpiration_TooShort (expiration_duration : Duration)
| InvalidExpiration_NotAllowedForPurpose (p : Purpose).
(** The discriminants of [Direction] and [ChatItemMessage]. *)
Inductive DirectionDiscriminants := Direction_is_Incoming | Direction_is_Outgoing | Direction_is_Directionless.
#[export] Instance DirectionDiscriminants_eq_dec : EqDecision DirectionDiscriminants.
Proof. solve_decision. Defined.
Inductive ChatItemMessageDiscriminants :=
| Message_is_Standard | Message_is_Contact | Message_is_Voice | Message_is_Sticker | Message_is_RemoteDeleted | Message_is_Update
| Message_is_PaymentNotification | Message_is_GiftBadge | Message_is_ViewOnce | Message_is_DirectStoryReply | Message_is_Poll.
#[export] Instance ChatItemMessageDiscriminants_eq_dec : EqDecision ChatItemMessageDiscriminants.
Proof. solve_decision. Defined.

Inductive ChatItemError :=
| NoChatForItem
| AuthorNotFound (id : RecipientId)
| InvalidAuthor (id : RecipientId) (k : DestinationKind)
| IncomingMessageFromSelf
| OutgoingMessageFrom (id : RecipientId) (k : DestinationKind)
| IncomingMessageFromContactWithoutAciOrE164 (id : RecipientId)
| MissingItem
| StandardMessageIsEmpty
| ChatItemError_Text (e : TextError)
| LongText (e : FilePointerError)
| LongTextWithoutBody
| ChatItemError_Quote (e : QuoteError)
| ChatItemError_Link (e : LinkPreviewError)
| ChatItemError_Reaction (e : ReactionError)
| ChatItemError_Payment (e : PaymentError)
| UpdateIsEmpty
| ChatItemError_Call (e : CallError)
| GroupChangeIsEmpty
| GroupChangeUpdateIsEmpty (i : nat)
| ChatItemError_GroupUpdate (e : GroupUpdateError)
| StickerMessageMissingSticker
| ChatItemError_StickerMessage (e : MessageStickerError)
| ChatItemError_GiftBadge (e : GiftBadgeError)
| ChatItemError_ViewOnce (e : ViewOnceMessageError)
| ChatItemError_DirectStoryReply (e : DirectStoryReplyError)
| NoDirection
| DirectionlessMessage
| UpdateMessageShouldBeDirectionless
| ChatItemError_Outgoing (e : OutgoingSendError)
| ChatItemError_Attachment (e : MessageAttachmentError)
| ChatItemError_ContactAttachment (e : ContactAttachmentError)
| ChatUpdateUnknown
| ChatItemError_VoiceMessage (e : VoiceMessageError)
| ExpirationMismatch
| ExpirationNotStarted
| ChatItemError_InvalidExpiration (e : InvalidExpiration)
| RevisionWithMismatchedAuthor (id id' : RecipientId)
| RevisionWithMismatchedDirection (d d' : DirectionDiscriminants)
| RevisionWithMismatchedMessageType (t t' : ChatItemMessageDiscriminants)
| NonStandardMessageHasRevisions
| RevisionContainsRevisions
| ProfileChangeMissingNames
| LearnedProfileIsEmpty
| ChatUpdateNotFromContact (u : SimpleChatUpdate)
| ChatUpdateNotFromAci (u : SimpleChatUpdate)
| ChatUpdateNotFromSelf (u : SimpleChatUpdate)
| DonationRequestNotFromReleaseNotesRecipient
| GroupUpdateNotFromContact
| ExpirationTimerChangeNotFromContact
| ProfileChangeNotFromContact
| ThreadMergeNotFromAci
| SessionSwitchoverFromReleaseNotes
| CallNotFromContact
| LearnedProfileUpdateNotFromContact
| MessageFromContactInWrongIndividualChat
| MessageFromContactInNoteToSelf
| MessageFromContactInReleaseNotes
| ReleaseNoteMessageNotInReleaseNoteChat (k : DestinationKind)
| PaymentNotificationNotInContactThread (k : DestinationKind)
| DirectStoryReplyNotInContactThread (k : DestinationKind)
| ChatUpdateNotInContactThread (u : SimpleChatUpdate)
| UnexpectedUpdateInReleaseNotes
| DonationRequestNotInReleaseNotesChat
| GroupUpdateNotInGroupThread
| ExpirationTimerChangeNotInContactThread
| ThreadMergeNotInContactThread
| SessionSwitchoverNotInContactThread
| IndividualCallNotInContactThread
| GroupCallNotInGroupThread
| ChatItemError_InvalidE164
| ChatItemError_InvalidTimestamp (e : TimestampError)
| InvalidPoll (e : PollError)
| PollNotInGroup (k : DestinationKind)
| PollTerminateNotInGroup (k : DestinationKind)
| PollTerminateNotFromContact.

(** ** The messages with reactions *)

Record ContactMessage (R : Type) := mkContactMessage { cm_contact : ContactAttachment; cm_reactions : ReactionSet R }.
Arguments mkContactMessage {_} _ _.
Record StickerMessage (R : Type) := mkStickerMessage { sm_reactions : ReactionSet R; sm_sticker : MessageSticker }.
Arguments mkStickerMessage {_} _ _.
Record ViewOnceMessage (R : Type) := mkViewOnceMessage { vo_attachment : option MessageAttachment; vo_reactions : ReactionSet R }.
Arguments mkViewOnceMessage {_} _ _.
Arguments vo_attachment {_} _.
Record VoiceMessage (R : Type) := mkVoiceMessage { vm_quote : option (Quote R); vm_reactions : ReactionSet R; vm_attachment : MessageAttachment }.
Arguments mkVoiceMessage {_} _ _ _.
Inductive DirectStoryReplyContent :=
| DirectStoryReply_Text (body : MessageText) (long_text : option FilePointer) | DirectStoryReply_Emoji (emoji : string).
Record DirectStoryReplyMessage (R : Type) := mkDirectStoryReplyMessage { ds_content : DirectStoryReplyContent; ds_reactions : ReactionSet R }.
Arguments mkDirectStoryReplyMessage {_} _ _.
Record StandardMessage (R : Type) := mkStandardMessage {
  st_text : option MessageText;
  st_quote : option (Quote R);
  st_attachments : list MessageAttachment;
  st_reactions : ReactionSet R;
  st_link_previews : list LinkPreview;
  st_long_text : option FilePointer
}.
Arguments mkStandardMessage {_} _ _ _ _ _ _.
Arguments st_text {_} _.
Arguments st_attachments {_} _.
Arguments st_long_text {_} _.

Section Messages.
Context {R : Type} (lookup_pair : RecipientId -> option (MinimalRecipientData * R)).

Definition ContactMessage_try_from (self : proto.ContactMessage) : outcome ChatItemError (ContactMessage R) :=
  let '(proto.mkContactMessage contact reactions) := self in
  reactions ← map_err ChatItemError_Reaction (ReactionSet_try_from lookup_pair reactions);
  contact ← ok_or (ChatItemError_ContactAttachment ContactAttachmentError_Missing) contact;
  contact ← map_err ChatItemError_ContactAttachment (ContactAttachment_try_from contact);
  Ok (mkContactMessage contact reactions).

Definition StickerMessage_try_from (self : proto.StickerMessage) : outcome ChatItemError (StickerMessage R) :=
  let '(proto.mkStickerMessage sticker reactions) := self in
  reactions ← map_err ChatItemError_Reaction (ReactionSet_try_from lookup_pair reactions);
  sticker ← ok_or StickerMessageMissingSticker sticker;
  sticker ← map_err ChatItemError_StickerMessage (MessageSticker_try_from sticker);
  Ok (mkStickerMessage reactions sticker).

Definition ViewOnceMessage_try_from (self : proto.ViewOnceMessage) : outcome ViewOnceMessageError (ViewOnceMessage R) :=
  let '(proto.mkViewOnceMessage attachment reactions) := self in
  attachment ← transpose_map (fun a => map_err ViewOnceMessageError_Attachment (MessageAttachment_try_from a)) attachment;
  reactions ← map_err ViewOnceMessageError_Reaction (ReactionSet_try_from lookup_pair reactions);
  Ok (mkViewOnceMessage attachment reactions).

Definition VoiceMessage_try_from (self : proto.StandardMessage) : outcome VoiceMessageError (VoiceMessage R) :=
  let '(proto.mkStandardMessage quote text attachments linkPreview longText reactions) := self in
  _ ← map_err VoiceMessageError_UnexpectedField
        (if is_some text then Err "text" else if is_some longText then Err "longText"
         else if negb (no_elements linkPreview) then Err "linkPreview" else Ok tt);
  attachment ← match attachments with
               | [attachment] => Ok attachment
               | attachments => Err (VoiceMessageError_WrongAttachmentsCount (length attachments))
               end;
  attachment ← map_err VoiceMessageError_Attachment (MessageAttachment_try_from attachment);
  _ ← guard_err (negb (bool_decide (ma_flag attachment = proto.MessageAttachment_Flag_VOICE_MESSAGE)))
        (VoiceMessageError_WrongAttachmentType (ma_flag attachment));
  quote ← transpose_map (fun q => map_err VoiceMessageError_Quote (Quote_try_from lookup_pair q)) quote;
  reactions ← map_err VoiceMessageError_Reaction (ReactionSet_try_from lookup_pair reactions);
  Ok (mkVoiceMessage quote reactions attachment).

Definition DirectStoryReplyMessage_try_from (self : proto.DirectStoryReplyMessage)
  : outcome DirectStoryReplyError (DirectStoryReplyMessage R) :=
  let '(proto.mkDirectStoryReplyMessage reply reactions) := self in
  reactions ← map_err DirectStoryReplyError_Reaction (ReactionSet_try_from lookup_pair reactions);
  reply ← ok_or DirectStoryReplyError_MissingReply reply;
  content ← match reply with
            | proto.DirectStoryReplyMessage_textReply (proto.mkDirectStoryReplyMessage_TextReply text longText) =>
                text ← ok_or DirectStoryReplyError_EmptyText text;
                text ← map_err DirectStoryReplyError_Text (MessageText_try_from text);
                long_text ← transpose_map (fun f => map_err DirectStoryReplyError_LongText (FilePointer_try_from f)) longText;
                _ ← if is_some long_text then map_err DirectStoryReplyError_Text (check_length_with_long_text_attachment text) else Ok tt;
                Ok (DirectStoryReply_Text text long_text)
            | proto.DirectStoryReplyMessage_emoji emoji =>
                _ ← guard_err (is_empty emoji) DirectStoryReplyError_EmptyEmoji;
                Ok (DirectStoryReply_Emoji emoji)
            end;
  Ok (mkDirectStoryReplyMessage content reactions).

(** The text of a standard message; the first branch is the fast path for one without body ranges. *)
Definition standard_text (text : option proto.Text) : outcome ChatItemError (option MessageText) :=
  match text with
  | None => Ok None
  | Some (proto.mkText body bodyRanges) =>
      if no_elements bodyRanges then Ok (Some (mkMessageText body []))
      else Some <$> map_err ChatItemError_Text (MessageText_try_from (proto.mkText body bodyRanges))
  end.

Definition StandardMessage_try_from (self : proto.StandardMessage) : outcome ChatItemError (StandardMessage R) :=
  let '(proto.mkStandardMessage quote text attachments linkPreview longText reactions) := self in
  reactions ← map_err ChatItemError_Reaction (ReactionSet_try_from lookup_pair reactions);
  quote ← transpose_map (fun q => map_err ChatItemError_Quote (Quote_try_from lookup_pair q)) quote;
  text ← standard_text text;
  link_previews ← likely_empty linkPreview (mapM (fun p => map_err ChatItemError_Link (LinkPreview_try_from p)));
  long_text ← transpose_map (fun f => map_err LongText (FilePointer_try_from f)) longText;
  attachments ← likely_empty attachments (mapM (fun a => map_err ChatItemError_Attachment (MessageAttachment_try_from a)));
  _ ← match text with
      | Some text =>
          if is_some long_text then map_err ChatItemError_Text (check_length_with_long_text_attachment text) else Ok tt
      | None =>
          _ ← guard_err (no_elements attachments) StandardMessageIsEmpty;
          guard_err (is_some long_text) LongTextWithoutBody
      end;
  Ok (mkStandardMessage text quote attachments reactions link_previews long_text).
End Messages.

(** ** update_message.rs *)

Inductive UpdateMessage (R : Type) :=
| Update_Simple (u : SimpleChatUpdate)
| Update_GroupChange (updates : list GroupChatUpdate)
| Update_ExpirationTimerChange (expires_in : Duration)
| Update_ProfileChange (previous new : string)
| Update_ThreadMerge (previous_e164 : E164)
| Update_SessionSwitchover (e164 : E164)
| Update_IndividualCall (c : IndividualCall)
| Update_GroupCall (c : GroupCall R)
| Update_LearnedProfileUpdate (p : proto.LearnedProfileChatUpdate_PreviousName)
| Update_PollTerminate (p : PollTerminate).
Arguments Update_Simple {_} _.
Arguments Update_GroupChange {_} _.
Arguments Update_ExpirationTimerChange {_} _.
Arguments Update_ProfileChange {_} _ _.
Arguments Update_ThreadMerge {_} _.
Arguments Update_SessionSwitchover {_} _.
Arguments Update_IndividualCall {_} _.
Arguments Update_GroupCall {_} _.
Arguments Update_LearnedProfileUpdate {_} _.
Arguments Update_PollTerminate {_} _.

Definition SimpleChatUpdate_try_from (type_ : EnumOrUnknown proto.SimpleChatUpdate_Type) : outcome ChatItemError SimpleChatUpdate :=
  match enum_value_or_default type_ with
  | proto.SimpleChatUpdate_Type_UNKNOWN => Err ChatUpdateUnknown
  | proto.SimpleChatUpdate_Type_JOINED_SIGNAL => Ok JoinedSignal
  | proto.SimpleChatUpdate_Type_IDENTITY_UPDATE => Ok IdentityUpdate
  | proto.SimpleChatUpdate_Type_IDENTITY_VERIFIED => Ok IdentityVerified
  | proto.SimpleChatUpdate_Type_IDENTITY_DEFAULT => Ok IdentityDefault
  | proto.SimpleChatUpdate_Type_CHANGE_NUMBER => Ok ChangeNumber
  | proto.SimpleChatUpdate_Type_END_SESSION => Ok EndSession
  | proto.SimpleChatUpdate_Type_CHAT_SESSION_REFRESH => Ok ChatSessionRefresh
  | proto.SimpleChatUpdate_Type_BAD_DECRYPT => Ok BadDecrypt
  | proto.SimpleChatUpdate_Type_PAYMENTS_ACTIVATED => Ok PaymentsActivated
  | proto.SimpleChatUpdate_Type_PAYMENT_ACTIVATION_REQUEST => Ok PaymentActivationRequest
  | proto.SimpleChatUpdate_Type_UNSUPPORTED_PROTOCOL_MESSAGE => Ok UnsupportedProtocolMessage
  | proto.SimpleChatUpdate_Type_RELEASE_CHANNEL_DONATION_REQUEST => Ok ReleaseChannelDonationRequest
  | proto.SimpleChatUpdate_Type_REPORTED_SPAM => Ok ReportedSpam
  | proto.SimpleChatUpdate_Type_BLOCKED => Ok Blocked
  | proto.SimpleChatUpdate_Type_UNBLOCKED => Ok Unblocked
  | proto.SimpleChatUpdate_Type_MESSAGE_REQUEST_ACCEPTED => Ok MessageRequestAccepted
  end.

(** The [i]-th change of a group change, and those from it on. *)
Definition group_change (i : nat) (u : proto.GroupChangeChatUpdate_Update) : outcome ChatItemError GroupChatUpdate :=
  let '(proto.mkGroupChangeChatUpdate_Update update) := u in
  update ← ok_or (GroupChangeUpdateIsEmpty i) update;
  map_err ChatItemError_GroupUpdate (GroupChatUpdate_try_from update).
Fixpoint group_changes (i : nat) (updates : list proto.GroupChangeChatUpdate_Update) : outcome ChatItemError (list GroupChatUpdate) :=
  match updates with
  | [] => Ok []
  | u :: updates => g ← group_change i u; l ← group_changes (S i) updates; Ok (g :: l)
  end.

Section Updates.
Context `{G : Graphemes} {R : Type} (lookup_pair : RecipientId -> option (MinimalRecipientData * R)).

Definition UpdateMessage_try_from (self : proto.ChatUpdateMessage) : outcome ChatItemError (UpdateMessage R) :=
  let '(proto.mkChatUpdateMessage update) := self in
  update ← ok_or UpdateIsEmpty update;
  match update with
  | proto.ChatUpdateMessage_simpleUpdate (proto.mkSimpleChatUpdate type_) => Update_Simple <$> SimpleChatUpdate_try_from type_
  | proto.ChatUpdateMessage_groupChange (proto.mkGroupChangeChatUpdate updates) =>
      _ ← guard_err (no_elements updates) GroupChangeIsEmpty;
      Update_GroupChange <$> group_changes 0 updates
  | proto.ChatUpdateMessage_expirationTimerChange (proto.mkExpirationTimerChatUpdate expiresInMs) =>
      Ok (Update_ExpirationTimerChange (Duration_from_millis expiresInMs))
  | proto.ChatUpdateMessage_profileChange (proto.mkProfileChangeChatUpdate previousName newName) =>
      _ ← guard_err (is_empty previousName || is_empty newName) ProfileChangeMissingNames;
      Ok (Update_ProfileChange previousName newName)
  | proto.ChatUpdateMessage_threadMerge (proto.mkThreadMergeChatUpdate previousE164) =>
      Update_ThreadMerge <$> ok_or ChatItemError_InvalidE164 (E164_try_from previousE164)
  | proto.ChatUpdateMessage_sessionSwitchover (proto.mkSessionSwitchoverChatUpdate e164) =>
      Update_SessionSwitchover <$> ok_or ChatItemError_InvalidE164 (E164_try_from e164)
  | proto.ChatUpdateMessage_individualCall call => Update_IndividualCall <$> map_err ChatItemError_Call (IndividualCall_try_from call)
  | proto.ChatUpdateMessage_groupCall call => Update_GroupCall <$> map_err ChatItemError_Call (GroupCall_try_from lookup_pair call)
  | proto.ChatUpdateMessage_learnedProfileChange (proto.mkLearnedProfileChatUpdate previousName) =>
      Update_LearnedProfileUpdate <$> ok_or LearnedProfileIsEmpty previousName
  | proto.ChatUpdateMessage_pollTerminate p => Update_PollTerminate <$> map_err InvalidPoll (PollTerminate_try_from p)
  end.
End Updates.

Definition UpdateMessage_validate_author {R} (self : UpdateMessage R) (author : ChatItemAuthorKind) : outcome ChatItemError () :=
  match self with
  | Update_Simple ((JoinedSignal | EndSession | ChatSessionRefresh | IdentityUpdate) as update) =>
      match author with
      | Author_Contact _ _ | Author_Self => Ok tt
      | Author_ReleaseNotes => Err (ChatUpdateNotFromAci update)
      end
  | Update_Simple ((IdentityDefault | IdentityVerified | ChangeNumber | BadDecrypt | UnsupportedProtocolMessage) as update) =>
      guard_err (negb (is_valid_sender_account author)) (ChatUpdateNotFromContact update)
  | Update_Simple ((PaymentActivationRequest | PaymentsActivated) as update) =>
      guard_err (negb (ChatItemAuthorKind_is_contact_with_aci author || match author with Author_Self => true | _ => false end))
        (ChatUpdateNotFromAci update)
  | Update_Simple ((ReportedSpam | Blocked | Unblocked | MessageRequestAccepted) as update) =>
      guard_err (negb match author with Author_Self => true | _ => false end) (ChatUpdateNotFromSelf update)
  | Update_Simple ReleaseChannelDonationRequest =>
      guard_err (negb match author with Author_ReleaseNotes => true | _ => false end) DonationRequestNotFromReleaseNotesRecipient
  | Update_GroupChange _ => guard_err (negb (is_valid_sender_account author)) GroupUpdateNotFromContact
  | Update_ExpirationTimerChange _ => guard_err (negb (is_valid_sender_account author)) ExpirationTimerChangeNotFromContact
  | Update_ProfileChange _ _ => guard_err (negb (is_valid_sender_account author)) ProfileChangeNotFromContact
  | Update_ThreadMerge _ => guard_err (negb (ChatItemAuthorKind_is_contact_with_aci author)) ThreadMergeNotFromAci
  | Update_SessionSwitchover _ => guard_err (is_release_notes author) SessionSwitchoverFromReleaseNotes
  | Update_IndividualCall _ | Update_GroupCall _ => guard_err (negb (is_valid_sender_account author)) CallNotFromContact
  | Update_LearnedProfileUpdate _ => guard_err (negb (is_valid_sender_account author)) LearnedProfileUpdateNotFromContact
  | Update_PollTerminate _ => guard_err (negb (is_valid_sender_account author)) PollTerminateNotFromContact
  end.

Definition UpdateMessage_validate_chat_recipient {R} (self : UpdateMessage R) (chat : ChatRecipientKind) : outcome ChatItemError () :=
  match self with
  | Update_Simple ((JoinedSignal | EndSession | ChatSessionRefresh | PaymentActivationRequest | PaymentsActivated) as update) =>
      guard_err (negb (is_individual chat)) (ChatUpdateNotInContactThread update)
  | Update_Simple (IdentityDefault | IdentityVerified | IdentityUpdate | ChangeNumber | BadDecrypt | UnsupportedProtocolMessage
                   | ReportedSpam | Blocked | Unblocked | MessageRequestAccepted)
  | Update_ProfileChange _ _ | Update_LearnedProfileUpdate _ =>
      match chat with
      | ChatRecipient_Contact _ | ChatRecipient_Group => Ok tt
      | ChatRecipient_Self => Ok tt
      | ChatRecipient_ReleaseNotes => Err UnexpectedUpdateInReleaseNotes
      end
  | Update_Simple ReleaseChannelDonationRequest =>
      guard_err (negb match chat with ChatRecipient_ReleaseNotes => true | _ => false end) DonationRequestNotInReleaseNotesChat
  | Update_GroupChange _ => guard_err (negb match chat with ChatRecipient_Group => true | _ => false end) GroupUpdateNotInGroupThread
  | Update_ExpirationTimerChange _ => guard_err (negb (is_individual chat)) ExpirationTimerChangeNotInContactThread
  | Update_ThreadMerge _ => guard_err (negb (ChatRecipientKind_is_contact_with_aci chat)) ThreadMergeNotInContactThread
  | Update_SessionSwitchover _ => guard_err (negb (ChatRecipientKind_is_contact_with_aci chat)) SessionSwitchoverNotInContactThread
  | Update_IndividualCall _ => guard_err (negb (is_individual chat)) IndividualCallNotInContactThread
  | Update_GroupCall _ => guard_err (negb match chat with ChatRecipient_Group => true | _ => false end) GroupCallNotInGroupThread
  | Update_PollTerminate _ => guard_err (negb (is_group chat)) (PollTerminateNotInGroup (DestinationKind_from chat))
  end.
