(* ===== verification/BackupChats.v ===== *)
(** * BackupChats: chats, their items and the account of a backup
    (rust/message-backup/src/backup/{chat,account_data,notification_profile,chat_folder}.rs,
    chat/chat_style.rs)

    The conversions of the frames that hold several messages or refer to recipients
    and colors: [M] is the method of the backup, [R] its reference to a recipient
    and [CC] its reference to a custom color. *)

From Stdlib Require Import SpecFloat.
From stdpp Require Import strings.
From S2P Require Import Prelude Types Primitives ServiceId Curve Ristretto Sho Poksho Usernames AccountKeys BackupReader BackupProto BackupData BackupMessages.
Open Scope string_scope.
Open Scope list_scope.
Open Scope Z_scope.

(** ** Colors (backup.rs) *)

Inductive ColorError := NotOpaque (color : Z).
Definition Color_try_from (value : Z) : outcome ColorError Color :=
  if negb (Z.shiftr value 24 =? 255) then Err (NotOpaque value) else Ok (mkColor value).

(** ** chat_style.rs *)

Record WallpaperPreset := mkWallpaperPreset { wallpaper_preset : proto.ChatStyle_WallpaperPreset }.
Record BubbleColorPreset := mkBubbleColorPreset { bubble_color_preset : proto.ChatStyle_BubbleColorPreset }.
Inductive Wallpaper (M : Method) := Wallpaper_Preset (p : WallpaperPreset) | Wallpaper_Photo (p : MValue FilePointer M).
Arguments Wallpaper_Preset {_} _.
Arguments Wallpaper_Photo {_} _.
Inductive BubbleColor (CustomColor : Type) := BubbleColor_Preset (p : BubbleColorPreset) | BubbleColor_Custom (c : CustomColor) | BubbleColor_Auto.
Arguments BubbleColor_Preset {_} _.
Arguments BubbleColor_Custom {_} _.
Arguments BubbleColor_Auto {_}.
Record ChatStyle (M : Method) (CC : Type) := mkChatStyle {
  cs_wallpaper : option (Wallpaper M); cs_bubble_color : BubbleColor CC; cs_dim_wallpaper_in_dark_mode : bool }.
Arguments mkChatStyle {_ _} _ _ _.

Inductive ChatStyleError :=
| ChatStyleError_NoBubbleColor
| ChatStyleError_NoCustomColor
| ChatStyleError_GradientLengthMismatch (color_count position_count : nat)
| ChatStyleError_UnknownPresetWallpaper
| ChatStyleError_WallpaperPhoto (e : FilePointerError)
| ChatStyleError_UnknownPresetBubbleColor
| ChatStyleError_GradientEmpty
| ChatStyleError_ChatColorNotOpaque (c : Z)
| ChatStyleError_InvalidBubbleGradientPosition (p : spec_float)
| ChatStyleError_UnsupportedGradient
| ChatStyleError_UnknownCustomColorId (id : Z)
| ChatStyleError_InvalidCustomColorId
| ChatStyleError_DuplicateCustomChatColorId (id : Z).

(** [From<ColorError>]. *)
Definition ChatStyleError_from (e : ColorError) : ChatStyleError := let 'NotOpaque c := e in ChatStyleError_ChatColorNotOpaque c.

(** The f32 constants 0.0 and 1.0. *)
Definition f32_zero : spec_float := S754_zero false.
Definition f32_one : spec_float := S754_finite false 8388608 (-23).
Definition f32_list_eqb (a b : list spec_float) : bool :=
  (length a =? length b)%nat && forallb (fun '(x, y) => SFeqb x y) (zip a b).

Definition BubbleGradientColor_new (color : Z) (position : spec_float) : outcome ChatStyleError BubbleGradientColor :=
  color ← map_err ChatStyleError_from (Color_try_from color);
  _ ← guard_err (negb (SFleb f32_zero position && SFleb position f32_one)) (ChatStyleError_InvalidBubbleGradientPosition position);
  Ok (mkBubbleGradientColor color position).

Definition CustomChatColor_try_from (value : proto.ChatStyle_CustomChatColor_Color) : outcome ChatStyleError CustomChatColor :=
  match value with
  | proto.ChatStyle_CustomChatColor_gradient (proto.mkChatStyle_Gradient angle colors positions) =>
      let color_count := length colors in
      let position_count := length positions in
      colors ← (if negb (color_count =? position_count)%nat then Err (ChatStyleError_GradientLengthMismatch color_count position_count)
                else if (color_count =? 0)%nat then Err ChatStyleError_GradientEmpty
                else if (color_count =? 2)%nat && (f32_list_eqb positions [f32_zero; f32_one] || f32_list_eqb positions [f32_one; f32_zero])
                then mapM (fun '(color, position) => BubbleGradientColor_new color position) (zip colors positions)
                else Err ChatStyleError_UnsupportedGradient);
      Ok (CustomChatColor_Gradient angle colors)
  | proto.ChatStyle_CustomChatColor_solid color =>
      color ← map_err ChatStyleError_from (Color_try_from color);
      Ok (CustomChatColor_Solid color)
  end.

Definition CustomColor_try_from (value : proto.ChatStyle_CustomChatColor) : outcome ChatStyleError (CustomColorId * CustomChatColor) :=
  let '(proto.mkChatStyle_CustomChatColor id color) := value in
  custom_color ← ok_or ChatStyleError_NoCustomColor color;
  custom_color ← CustomChatColor_try_from custom_color;
  Ok (id, custom_color).

Definition WallpaperPreset_new (preset : proto.ChatStyle_WallpaperPreset) : option WallpaperPreset :=
  match preset with
  | proto.ChatStyle_WallpaperPreset_UNKNOWN_WALLPAPER_PRESET => None
  | _ => Some (mkWallpaperPreset preset)
  end.
Definition BubbleColorPreset_new (preset : proto.ChatStyle_BubbleColorPreset) : option BubbleColorPreset :=
  match preset with
  | proto.ChatStyle_BubbleColorPreset_UNKNOWN_BUBBLE_COLOR_PRESET => None
  | _ => Some (mkBubbleColorPreset preset)
  end.

Definition Wallpaper_try_from (M : Method) (self : proto.ChatStyle_Wallpaper) : outcome ChatStyleError (Wallpaper M) :=
  match self with
  | proto.ChatStyle_wallpaperPreset preset =>
      Wallpaper_Preset <$> ok_or ChatStyleError_UnknownPresetWallpaper (WallpaperPreset_new (enum_value_or_default preset))
  | proto.ChatStyle_wallpaperPhoto photo =>
      (fun p => Wallpaper_Photo (boxed_value M p)) <$> map_err ChatStyleError_WallpaperPhoto (FilePointer_try_from photo)
  end.

(** [CustomColorMap], a vector of ids and data. *)
Definition CustomColorMap (D : Type) : Type := list (CustomColorId * D).
Definition CustomColorMap_insert {D} (self : CustomColorMap D) (key : CustomColorId) (value : D) : option (CustomColorMap D) :=
  if existsb (fun '(id, _) => id =? key) self then None else Some (self ++ [(key, value)]).
Definition CustomColorMap_lookup {D CC} (color_reference : CustomColorId -> D -> CC) (self : CustomColorMap D) (key : CustomColorId) : option CC :=
  '(id, data) ← find (fun '(id, _) => id =? key) self; Some (color_reference id data).

Section Styles.
Context {M : Method} {CC D : Type} (color_lookup : CustomColorId -> option CC) (from_color : CustomChatColor -> D).

Definition BubbleColor_try_from (self : proto.ChatStyle_BubbleColor) : outcome ChatStyleError (BubbleColor CC) :=
  match self with
  | proto.ChatStyle_bubbleColorPreset preset =>
      BubbleColor_Preset <$> ok_or ChatStyleError_UnknownPresetBubbleColor (BubbleColorPreset_new (enum_value_or_default preset))
  | proto.ChatStyle_customColorId id =>
      BubbleColor_Custom <$> ok_or (ChatStyleError_UnknownCustomColorId id) (color_lookup id)
  | proto.ChatStyle_autoBubbleColor (proto.mkChatStyle_AutomaticBubbleColor) => Ok BubbleColor_Auto
  end.

Definition ChatStyle_try_from_proto (value : proto.ChatStyle) : outcome ChatStyleError (ChatStyle M CC) :=
  let '(proto.mkChatStyle wallpaper bubbleColor dimWallpaperInDarkMode) := value in
  wallpaper ← transpose_map (Wallpaper_try_from M) wallpaper;
  bubble_color ← ok_or ChatStyleError_NoBubbleColor bubbleColor;
  bubble_color ← BubbleColor_try_from bubble_color;
  Ok (mkChatStyle wallpaper bubble_color dimWallpaperInDarkMode).

(** The fold of [CustomColorMap::try_from]. *)
Fixpoint custom_colors (value : list proto.ChatStyle_CustomChatColor) (colors : CustomColorMap D) : outcome ChatStyleError (CustomColorMap D) :=
  match value with
  | [] => Ok colors
  | custom_color :: value =>
      '(id, custom_color) ← CustomColor_try_from custom_color;
      _ ← guard_err (id =? 0) ChatStyleError_InvalidCustomColorId;
      colors ← ok_or (ChatStyleError_DuplicateCustomChatColorId id) (CustomColorMap_insert colors id (from_color custom_color));
      custom_colors value colors
  end.
Definition CustomColorMap_try_from (value : list proto.ChatStyle_CustomChatColor) : outcome ChatStyleError (CustomColorMap D) :=
  custom_colors value [].
End Styles.

(** ** notification_profile.rs *)

Record ClockTime := mkClockTime { clock_time : Z }.
Inductive DayOfWeek := Monday | Tuesday | Wednesday | Thursday | Friday | Saturday | Sunday.
#[export] Instance DayOfWeek_eq_dec : EqDecision DayOfWeek.
Proof. solve_decision. Defined.
Record NotificationProfile (R : Type) := mkNotificationProfile {
  np_name : string; np_emoji : option string; np_color : Color; np_created_at : Timestamp; np_allow_all_calls : bool;
  np_allow_all_mentions : bool; np_enabled : bool; np_start_time : ClockTime; np_end_time : ClockTime; np_days_enabled : list DayOfWeek;
  np_allowed_members : list R; np_id : array 16 }.
Arguments mkNotificationProfile {_} _ _ _ _ _ _ _ _ _ _ _ _.

Inductive NotificationProfileError :=
| NotificationProfileError_MissingName
| NotificationProfileError_EmojiIsPresentButEmpty
| NotificationProfileError_ColorNotOpaque (c : Z)
| NotificationProfileError_UnknownMember (id : RecipientId)
| NotificationProfileError_DuplicateMember (id : RecipientId)
| NotificationProfileError_MemberWrongKind (id : RecipientId) (k : DestinationKind)
| NotificationProfileError_InvalidClockTime (t : Z)
| NotificationProfileError_InvalidWeekday (v : Z)
| NotificationProfileError_DuplicateDay (d : DayOfWeek)
| NotificationProfileError_InvalidTimestamp (e : TimestampError)
| NotificationProfileError_MissingId
| NotificationProfileError_InvalidId.

Definition NotificationProfileError_from (e : ColorError) : NotificationProfileError :=
  let 'NotOpaque c := e in NotificationProfileError_ColorNotOpaque c.

(** The last conversion is to a u16 and its [expect] cannot fail. *)
Definition ClockTime_try_from (value : Z) : outcome NotificationProfileError ClockTime :=
  if 2400 <=? value then Err (NotificationProfileError_InvalidClockTime value)
  else if 60 <=? value mod 100 then Err (NotificationProfileError_InvalidClockTime value)
  else if value <? 2 ^ 16 then Ok (mkClockTime value) else Panic.

Definition DayOfWeek_try_from (value : EnumOrUnknown proto.NotificationProfile_DayOfWeek) : outcome NotificationProfileError DayOfWeek :=
  match enum_value_or_default value with
  | proto.NotificationProfile_DayOfWeek_UNKNOWN => Err (NotificationProfileError_InvalidWeekday (enum_i32 value))
  | proto.NotificationProfile_DayOfWeek_MONDAY => Ok Monday
  | proto.NotificationProfile_DayOfWeek_TUESDAY => Ok Tuesday
  | proto.NotificationProfile_DayOfWeek_WEDNESDAY => Ok Wednesday
  | proto.NotificationProfile_DayOfWeek_THURSDAY => Ok Thursday
  | proto.NotificationProfile_DayOfWeek_FRIDAY => Ok Friday
  | proto.NotificationProfile_DayOfWeek_SATURDAY => Ok Saturday
  | proto.NotificationProfile_DayOfWeek_SUNDAY => Ok Sunday
  end.

Fixpoint profile_days (days : list (EnumOrUnknown proto.NotificationProfile_DayOfWeek)) (days_enabled : list DayOfWeek)
  : outcome NotificationProfileError (list DayOfWeek) :=
  match days with
  | [] => Ok days_enabled
  | day :: days =>
      day ← DayOfWeek_try_from day;
      _ ← guard_err (bool_decide (day ∈ days_enabled)) (NotificationProfileError_DuplicateDay day);
      profile_days days (days_enabled ++ [day])
  end.

(** ** chat_folder.rs *)

Inductive ChatFolder (R : Type) :=
| ChatFolder_All
| ChatFolder_Custom (name : string) (show_only_unread show_muted_chats include_all_individual_chats include_all_group_chats : bool)
    (included_recipients excluded_recipients : list R) (id : bytes).
Arguments ChatFolder_All {_}.
Arguments ChatFolder_Custom {_} _ _ _ _ _ _ _ _.
Inductive ChatFolderError :=
| ChatFolderError_UnknownType (v : Z)
| ChatFolderError_AllFolderInvalidName
| ChatFolderError_AllFolderMustNotShowOnlyUnread
| ChatFolderError_AllFolderMustShowMuted
| ChatFolderError_AllFolderMustIncludeIndividualChats
| ChatFolderError_AllFolderMustIncludeGroupChats
| ChatFolderError_AllFolderMustNotHaveSpecificIncludes
| ChatFolderError_AllFolderMustNotExcludeChats
| ChatFolderError_MissingName
| ChatFolderError_MissingId
| ChatFolderError_InvalidId
| ChatFolderError_IncludedMemberUnknown (id : RecipientId)
| ChatFolderError_IncludedMemberDuplicate (id : RecipientId)
| ChatFolderError_IncludedMemberWrongKind (id : RecipientId) (k : DestinationKind)
| ChatFolderError_ExcludedMemberUnknown (id : RecipientId)
| ChatFolderError_ExcludedMemberDuplicate (id : RecipientId)
| ChatFolderError_ExcludedMemberWrongKind (id : RecipientId) (k : DestinationKind)
| ChatFolderError_MemberIsBothIncludedAndExcluded (id : RecipientId).

Definition folder_id_check (id : bytes) : outcome ChatFolderError () :=
  _ ← guard_err (no_elements id) ChatFolderError_MissingId;
  guard_err (negb (length id =? 16)%nat) ChatFolderError_InvalidId.

Definition validate_all_chat_folder {R} (item : proto.ChatFolder) : outcome ChatFolderError (ChatFolder R) :=
  let '(proto.mkChatFolder name showOnlyUnread showMutedChats includeAllIndividualChats includeAllGroupChats folderType
          includedRecipientIds excludedRecipientIds id) := item in
  _ ← match folderType with Known proto.ChatFolder_FolderType_ALL => Ok tt | _ => Panic end;
  _ ← guard_err (negb (is_empty name)) ChatFolderError_AllFolderInvalidName;
  _ ← guard_err showOnlyUnread ChatFolderError_AllFolderMustNotShowOnlyUnread;
  _ ← guard_err (negb showMutedChats) ChatFolderError_AllFolderMustShowMuted;
  _ ← guard_err (negb includeAllIndividualChats) ChatFolderError_AllFolderMustIncludeIndividualChats;
  _ ← guard_err (negb includeAllGroupChats) ChatFolderError_AllFolderMustIncludeGroupChats;
  _ ← guard_err (negb (no_elements includedRecipientIds)) ChatFolderError_AllFolderMustNotHaveSpecificIncludes;
  _ ← guard_err (negb (no_elements excludedRecipientIds)) ChatFolderError_AllFolderMustNotExcludeChats;
  _ ← folder_id_check id;
  Ok ChatFolder_All.

Section Members.
Context {R : Type} (lookup_pair : RecipientId -> option (MinimalRecipientData * R)).

Definition profile_member (id : RecipientId) : outcome NotificationProfileError R :=
  '(recipient_data, recipient) ← ok_or (NotificationProfileError_UnknownMember id) (lookup_pair id);
  match Minimal_kind recipient_data with
  | Kind_Contact | Kind_Group => Ok recipient
  | (Kind_DistributionList | Kind_Self | Kind_ReleaseNotes | Kind_CallLink) as kind => Err (NotificationProfileError_MemberWrongKind id kind)
  end.

Definition NotificationProfile_try_from (self : proto.NotificationProfile) : outcome NotificationProfileError (NotificationProfile R) :=
  let '(proto.mkNotificationProfile name emoji color createdAtMs allowAllCalls allowAllMentions allowedMembers scheduleEnabled
          scheduleStartTime scheduleEndTime scheduleDaysEnabled id) := self in
  _ ← guard_err (is_empty name) NotificationProfileError_MissingName;
  _ ← guard_err (bool_decide (emoji = Some "")) NotificationProfileError_EmojiIsPresentButEmpty;
  color ← map_err NotificationProfileError_from (Color_try_from color);
  created_at ← map_err NotificationProfileError_InvalidTimestamp (Timestamp_from_millis createdAtMs "NotificationProfile.createdAtMs");
  allowed_members ← distinct_ids NotificationProfileError_DuplicateMember profile_member allowedMembers ∅;
  start_time ← ClockTime_try_from scheduleStartTime;
  end_time ← ClockTime_try_from scheduleEndTime;
  days_enabled ← profile_days scheduleDaysEnabled [];
  _ ← guard_err (no_elements id) NotificationProfileError_MissingId;
  id ← ok_or NotificationProfileError_InvalidId (try_array 16 id);
  Ok (mkNotificationProfile name emoji color created_at allowAllCalls allowAllMentions scheduleEnabled start_time end_time days_enabled
        allowed_members id).

Definition included_member (id : RecipientId) : outcome ChatFolderError R :=
  '(data, recipient) ← ok_or (ChatFolderError_IncludedMemberUnknown id) (lookup_pair id);
  match Minimal_kind data with
  | Kind_Contact | Kind_Self | Kind_Group | Kind_ReleaseNotes => Ok recipient
  | (Kind_DistributionList | Kind_CallLink) as kind => Err (ChatFolderError_IncludedMemberWrongKind id kind)
  end.
Definition excluded_member (included : gmap Z ()) (id : RecipientId) : outcome ChatFolderError R :=
  _ ← guard_err (is_some (included !! id)) (ChatFolderError_MemberIsBothIncludedAndExcluded id);
  '(data, recipient) ← ok_or (ChatFolderError_ExcludedMemberUnknown id) (lookup_pair id);
  match Minimal_kind data with
  | Kind_Contact | Kind_Self | Kind_Group | Kind_ReleaseNotes => Ok recipient
  | (Kind_DistributionList | Kind_CallLink) as kind => Err (ChatFolderError_ExcludedMemberWrongKind id kind)
  end.
(** [seen_included_members] after the loop over the included ids. *)
Definition seen_included_members (ids : list Z) : gmap Z () := list_to_map ((fun id => (id, tt)) <$> ids).

Definition ChatFolder_try_from (self : proto.ChatFolder) : outcome ChatFolderError (ChatFolder R) :=
  let '(proto.mkChatFolder name showOnlyUnread showMutedChats includeAllIndividualChats includeAllGroupChats folderType
          includedRecipientIds excludedRecipientIds id) := self in
  match enum_value_or_default folderType with
  | proto.ChatFolder_FolderType_UNKNOWN => Err (ChatFolderError_UnknownType (enum_i32 folderType))
  | proto.ChatFolder_FolderType_ALL => validate_all_chat_folder self
  | proto.ChatFolder_FolderType_CUSTOM =>
      _ ← guard_err (is_empty name) ChatFolderError_MissingName;
      included_recipients ← distinct_ids ChatFolderError_IncludedMemberDuplicate included_member includedRecipientIds ∅;
      excluded_recipients ← distinct_ids ChatFolderError_ExcludedMemberDuplicate
                              (excluded_member (seen_included_members includedRecipientIds)) excludedRecipientIds ∅;
      _ ← folder_id_check id;
      Ok (ChatFolder_Custom name showOnlyUnread showMutedChats includeAllIndividualChats includeAllGroupChats
            included_recipients excluded_recipients id)
  end.
End Members.

(** ** account_data.rs *)

Inductive BackupLevel := BackupLevel_Free | BackupLevel_Paid.
Definition BackupLevel_u64 (l : BackupLevel) : Z := match l with BackupLevel_Free => 200 | BackupLevel_Paid => 201 end.
Inductive PhoneSharing := WithEverybody | WithNobody.
Inductive SentMediaQuality := SentMediaQuality_Standard | SentMediaQuality_High.
Inductive NavigationBarSize := NavigationBarSize_Normal | NavigationBarSize_Compact.
Record AndroidSpecificSettings := mkAndroidSpecificSettings {
  an_use_system_emoji : bool; an_screenshot_security : bool; an_navigation_bar_size : NavigationBarSize }.
Inductive AutoDownloadOption := AutoDownload_Never | AutoDownload_Wifi | AutoDownload_WifiAndCellular.
Record AutoDownloadSettings := mkAutoDownloadSettings {
  au_images : AutoDownloadOption; au_audio : AutoDownloadOption; au_video : AutoDownloadOption; au_documents : AutoDownloadOption }.
Inductive AppTheme := AppTheme_System | AppTheme_Light | AppTheme_Dark.
Inductive CallsUseLessDataSetting := CallsUseLessData_Never | CallsUseLessData_MobileDataOnly | CallsUseLessData_WifiAndMobileData.
Definition SUBSCRIBER_ID_LENGTH : nat := 32.
Record Subscription := mkSubscription { su_subscriber_id : array 32; su_currency_code : string; su_manually_canceled : bool }.
Inductive IapSubscriptionId := PlayStorePurchaseToken (token : string) | IosAppStoreOriginalTransactionId (id : Z).
Record IapSubscriberData := mkIapSubscriberData { is_subscriber_id : array 32; is_subscription_id : IapSubscriptionId }.
Record UsernameLink := mkUsernameLink { ul_color : proto.AccountData_UsernameLink_Color; ul_entropy : array 32; ul_server_id : Uuid }.
Record UsernameData `{Ristretto} := mkUsernameData { und_username : Username; und_link : option UsernameLink }.

Record AccountSettings (M : Method) (CC D : Type) := mkAccountSettings {
  as_phone_number_sharing : MValue PhoneSharing M;
  as_read_receipts : MValue bool M;
  as_sealed_sender_indicators : MValue bool M;
  as_typing_indicators : MValue bool M;
  as_link_previews : MValue bool M;
  as_not_discoverable_by_phone_number : MValue bool M;
  as_prefer_contact_avatars : MValue bool M;
  as_display_badges_on_profile : MValue bool M;
  as_keep_muted_chats_archived : MValue bool M;
  as_has_set_my_stories_privacy : MValue bool M;
  as_has_viewed_onboarding_story : MValue bool M;
  as_stories_disabled : MValue bool M;
  as_story_view_receipts_enabled : MValue (option bool) M;
  as_has_seen_group_story_education_sheet : MValue bool M;
  as_has_completed_username_onboarding : MValue bool M;
  as_universal_expire_timer : MValue (option Duration) M;
  as_preferred_reaction_emoji : MValue (list string) M;
  as_default_chat_style : MValue (option (ChatStyle M CC)) M;
  as_custom_chat_colors : CustomColorMap D;
  as_optimize_on_device_storage : MValue bool M;
  as_backup_level : MValue (option BackupLevel) M;
  as_default_sent_media_quality : MValue SentMediaQuality M;
  as_auto_download_settings : MValue (option AutoDownloadSettings) M;
  as_screen_lock_timeout : MValue (option Duration) M;
  as_pin_reminders : MValue (option bool) M;
  as_app_theme : MValue AppTheme M;
  as_calls_use_less_data_setting : MValue CallsUseLessDataSetting M
}.
Arguments as_custom_chat_colors {_ _ _} _.

Record AccountData `{Ristretto} (M : Method) (CC D : Type) := mkAccountData {
  ad_profile_key : MValue (array 32) M;
  ad_username : MValue (option UsernameData) M;
  ad_given_name : MValue string M;
  ad_family_name : MValue string M;
  ad_account_settings : AccountSettings M CC D;
  ad_avatar_url_path : MValue string M;
  ad_donation_subscription : MValue (option Subscription) M;
  ad_backup_subscription : MValue (option IapSubscriberData) M;
  ad_svr_pin : MValue string M;
  ad_android_specific_settings : MValue (option AndroidSpecificSettings) M;
  ad_bio_text : MValue string M;
  ad_bio_emoji : MValue string M
}.
Arguments ad_account_settings {_ _ _ _} _.

Inductive SubscriptionError :=
| SubscriptionError_InvalidSubscriberId (n : nat) | SubscriptionError_EmptyCurrency | SubscriptionError_MissingIapSubscriptionId.
Inductive AccountDataError :=
| AccountDataError_InvalidProfileKey
| AccountDataError_InvalidUsername (e : UsernameError)
| AccountDataError_MissingSettings
| AccountDataError_UnknownPhoneNumberSharingMode
| AccountDataError_UsernameLinkWithoutUsername
| AccountDataError_BadUsernameEntropyLength (n : nat)
| AccountDataError_BadUsernameServerIdLength (n : nat)
| AccountDataError_SubscriberCurrencyWithoutId
| AccountDataError_ChatStyle (e : ChatStyleError)
| AccountDataError_DonationSubscription (e : SubscriptionError)
| AccountDataError_BackupSubscription (e : SubscriptionError)
| AccountDataError_UnknownBackupTier (t : Z)
| AccountDataError_OptimizeStorageWithoutPaidTier
| AccountDataError_UnknownSentMediaQuality
| AccountDataError_UnknownAutoDownloadOption
| AccountDataError_UnknownAndroidNavigationBarSize
| AccountDataError_UnknownAppTheme
| AccountDataError_UnknownCallsUseLessDataSetting.

Definition Subscription_try_from (value : proto.AccountData_SubscriberData) : outcome SubscriptionError Subscription :=
  let '(proto.mkAccountData_SubscriberData subscriberId currencyCode manuallyCancelled) := value in
  subscriber_id ← ok_or (SubscriptionError_InvalidSubscriberId (length subscriberId)) (try_array SUBSCRIBER_ID_LENGTH subscriberId);
  _ ← guard_err (is_empty currencyCode) SubscriptionError_EmptyCurrency;
  Ok (mkSubscription subscriber_id currencyCode manuallyCancelled).

Definition IapSubscriberData_try_from (value : proto.AccountData_IAPSubscriberData) : outcome SubscriptionError IapSubscriberData :=
  let '(proto.mkAccountData_IAPSubscriberData subscriberId iapSubscriptionId) := value in
  subscriber_id ← ok_or (SubscriptionError_InvalidSubscriberId (length subscriberId)) (try_array SUBSCRIBER_ID_LENGTH subscriberId);
  iap ← ok_or SubscriptionError_MissingIapSubscriptionId iapSubscriptionId;
  subscription_id ← match iap with
                    | proto.AccountData_IAPSubscriberData_purchaseToken token =>
                        _ ← guard_err (is_empty token) SubscriptionError_MissingIapSubscriptionId;
                        Ok (PlayStorePurchaseToken token)
                    | proto.AccountData_IAPSubscriberData_originalTransactionId id => Ok (IosAppStoreOriginalTransactionId id)
                    end;
  Ok (mkIapSubscriberData subscriber_id subscription_id).

Definition UsernameLink_try_from (value : proto.AccountData_UsernameLink) : outcome AccountDataError UsernameLink :=
  let '(proto.mkAccountData_UsernameLink entropy serverId color) := value in
  let color := enum_value_or_default color in
  entropy ← ok_or (AccountDataError_BadUsernameEntropyLength (length entropy)) (try_array USERNAME_LINK_ENTROPY_SIZE entropy);
  server_id ← ok_or (AccountDataError_BadUsernameServerIdLength (length serverId)) (try_array 16 serverId);
  Ok (mkUsernameLink color entropy server_id).

Definition AutoDownloadOption_try_from (value : EnumOrUnknown proto.AccountData_AutoDownloadSettings_AutoDownloadOption)
  : outcome AccountDataError AutoDownloadOption :=
  match enum_value_or_default value with
  | proto.AccountData_AutoDownloadSettings_AutoDownloadOption_UNKNOWN => Err AccountDataError_UnknownAutoDownloadOption
  | proto.AccountData_AutoDownloadSettings_AutoDownloadOption_NEVER => Ok AutoDownload_Never
  | proto.AccountData_AutoDownloadSettings_AutoDownloadOption_WIFI => Ok AutoDownload_Wifi
  | proto.AccountData_AutoDownloadSettings_AutoDownloadOption_WIFI_AND_CELLULAR => Ok AutoDownload_WifiAndCellular
  end.
Definition AutoDownloadSettings_try_from (value : proto.AccountData_AutoDownloadSettings) : outcome AccountDataError AutoDownloadSettings :=
  let '(proto.mkAccountData_AutoDownloadSettings images audio video documents) := value in
  images ← AutoDownloadOption_try_from images;
  audio ← AutoDownloadOption_try_from audio;
  video ← AutoDownloadOption_try_from video;
  documents ← AutoDownloadOption_try_from documents;
  Ok (mkAutoDownloadSettings images audio video documents).

Definition AndroidSpecificSettings_try_from (value : proto.AccountData_AndroidSpecificSettings)
  : outcome AccountDataError AndroidSpecificSettings :=
  let '(proto.mkAccountData_AndroidSpecificSettings useSystemEmoji screenshotSecurity navigationBarSize) := value in
  navigation_bar_size ← match enum_value_or_default navigationBarSize with
                        | proto.AccountData_AndroidSpecificSettings_NavigationBarSize_UNKNOWN_BAR_SIZE =>
                            Err AccountDataError_UnknownAndroidNavigationBarSize
                        | proto.AccountData_AndroidSpecificSettings_NavigationBarSize_NORMAL => Ok NavigationBarSize_Normal
                        | proto.AccountData_AndroidSpecificSettings_NavigationBarSize_COMPACT => Ok NavigationBarSize_Compact
                        end;
  Ok (mkAndroidSpecificSettings useSystemEmoji screenshotSecurity navigation_bar_size).

Definition backup_level (backupTier : option Z) : outcome AccountDataError (option BackupLevel) :=
  match backupTier with
  | Some x =>
      if x =? BackupLevel_u64 BackupLevel_Free then Ok (Some BackupLevel_Free)
      else if x =? BackupLevel_u64 BackupLevel_Paid then Ok (Some BackupLevel_Paid)
      else Err (AccountDataError_UnknownBackupTier x)
  | None => Ok None
  end.

Section Account.
Context `{P : Primitives} {H256 : Sha256} {RI : Ristretto} {M : Method} {CC D : Type} (color_reference : CustomColorId -> D -> CC)
  (from_color : CustomChatColor -> D).

Definition AccountSettings_try_from (self : proto.AccountData_AccountSettings) : outcome AccountDataError (AccountSettings M CC D) :=
  let '(proto.mkAccountData_AccountSettings readReceipts sealedSenderIndicators typingIndicators linkPreviews notDiscoverableByPhoneNumber
          preferContactAvatars universalExpireTimerSeconds preferredReactionEmoji displayBadgesOnProfile keepMutedChatsArchived
          hasSetMyStoriesPrivacy hasViewedOnboardingStory storiesDisabled storyViewReceiptsEnabled hasSeenGroupStoryEducationSheet
          hasCompletedUsernameOnboarding phoneNumberSharingMode defaultChatStyle customChatColors optimizeOnDeviceStorage backupTier
          defaultSentMediaQuality autoDownloadSettings screenLockTimeoutMinutes pinReminders appTheme callsUseLessDataSetting) := self in
  phone_number_sharing ← match enum_value_or_default phoneNumberSharingMode with
                         | proto.AccountData_PhoneNumberSharingMode_UNKNOWN => Err AccountDataError_UnknownPhoneNumberSharingMode
                         | proto.AccountData_PhoneNumberSharingMode_EVERYBODY => Ok WithEverybody
                         | proto.AccountData_PhoneNumberSharingMode_NOBODY => Ok WithNobody
                         end;
  custom_chat_colors ← map_err AccountDataError_ChatStyle (CustomColorMap_try_from from_color customChatColors);
  default_chat_style ← transpose_map
    (fun style => map_err AccountDataError_ChatStyle
       (ChatStyle_try_from_proto (M := M) (CustomColorMap_lookup color_reference custom_chat_colors) style)) defaultChatStyle;
  universal_expire_timer ← Ok ((fun seconds => Duration_from_millis (1000 * seconds)) <$> NonZero_new universalExpireTimerSeconds);
  level ← backup_level backupTier;
  _ ← guard_err (optimizeOnDeviceStorage && negb match level with Some BackupLevel_Paid => true | _ => false end)
        AccountDataError_OptimizeStorageWithoutPaidTier;
  auto_download_settings ← transpose_map AutoDownloadSettings_try_from autoDownloadSettings;
  default_sent_media_quality ← match enum_value_or_default defaultSentMediaQuality with
                               | proto.AccountData_SentMediaQuality_UNKNOWN_QUALITY => Err AccountDataError_UnknownSentMediaQuality
                               | proto.AccountData_SentMediaQuality_STANDARD => Ok SentMediaQuality_Standard
                               | proto.AccountData_SentMediaQuality_HIGH => Ok SentMediaQuality_High
                               end;
  screen_lock_timeout ← transpose_map Duration_from_mins screenLockTimeoutMinutes;
  app_theme ← match enum_value_or_default appTheme with
              | proto.AccountData_AppTheme_UNKNOWN_APP_THEME => Err AccountDataError_UnknownAppTheme
              | proto.AccountData_AppTheme_SYSTEM => Ok AppTheme_System
              | proto.AccountData_AppTheme_LIGHT => Ok AppTheme_Light
              | proto.AccountData_AppTheme_DARK => Ok AppTheme_Dark
              end;
  calls_use_less_data_setting ← match enum_value_or_default callsUseLessDataSetting with
                                | proto.AccountData_CallsUseLessDataSetting_UNKNOWN_CALL_DATA_SETTING =>
                                    Err AccountDataError_UnknownCallsUseLessDataSetting
                                | proto.AccountData_CallsUseLessDataSetting_NEVER => Ok CallsUseLessData_Never
                                | proto.AccountData_CallsUseLessDataSetting_MOBILE_DATA_ONLY => Ok CallsUseLessData_MobileDataOnly
                                | proto.AccountData_CallsUseLessDataSetting_WIFI_AND_MOBILE_DATA => Ok CallsUseLessData_WifiAndMobileData
                                end;
  Ok {|
    as_phone_number_sharing := value M phone_number_sharing;
    as_default_chat_style := value M default_chat_style;
    as_custom_chat_colors := custom_chat_colors;
    as_read_receipts := value M readReceipts;
    as_sealed_sender_indicators := value M sealedSenderIndicators;
    as_typing_indicators := value M typingIndicators;
    as_link_previews := value M linkPreviews;
    as_not_discoverable_by_phone_number := value M notDiscoverableByPhoneNumber;
    as_prefer_contact_avatars := value M preferContactAvatars;
    as_display_badges_on_profile := value M displayBadgesOnProfile;
    as_keep_muted_chats_archived := value M keepMutedChatsArchived;
    as_has_set_my_stories_privacy := value M hasSetMyStoriesPrivacy;
    as_has_viewed_onboarding_story := value M hasViewedOnboardingStory;
    as_stories_disabled := value M storiesDisabled;
    as_story_view_receipts_enabled := value M storyViewReceiptsEnabled;
    as_has_seen_group_story_education_sheet := value M hasSeenGroupStoryEducationSheet;
    as_has_completed_username_onboarding := value M hasCompletedUsernameOnboarding;
    as_preferred_reaction_emoji := value M preferredReactionEmoji;
    as_universal_expire_timer := value M universal_expire_timer;
    as_optimize_on_device_storage := value M optimizeOnDeviceStorage;
    as_backup_level := value M level;
    as_auto_download_settings := value M auto_download_settings;
    as_pin_reminders := value M pinReminders;
    as_default_sent_media_quality := value M default_sent_media_quality;
    as_screen_lock_timeout := value M screen_lock_timeout;
    as_app_theme := value M app_theme;
    as_calls_use_less_data_setting := value M calls_use_less_data_setting
  |}.

Definition UsernameData_try_from (username : string) (username_link : option proto.AccountData_UsernameLink)
  : outcome AccountDataError UsernameData :=
  username ← map_err AccountDataError_InvalidUsername (Username_new username);
  link ← transpose_map UsernameLink_try_from username_link;
  Ok (mkUsernameData _ username link).

Definition AccountData_try_from (self : proto.AccountData) : outcome AccountDataError (AccountData M CC D) :=
  let '(proto.mkAccountData profileKey username usernameLink givenName familyName avatarUrlPath donationSubscriberData accountSettings
          backupsSubscriberData svrPin androidSpecificSettings bioText bioEmoji) := self in
  profile_key ← ok_or AccountDataError_InvalidProfileKey (try_array 32 profileKey);
  username ← match username with
             | None =>
                 _ ← guard_err (is_some usernameLink) AccountDataError_UsernameLinkWithoutUsername;
                 Ok None
             | Some username => Some <$> UsernameData_try_from username usernameLink
             end;
  account_settings ← ok_or AccountDataError_MissingSettings accountSettings;
  account_settings ← AccountSettings_try_from account_settings;
  donation_subscription ← transpose_map (fun s => map_err AccountDataError_DonationSubscription (Subscription_try_from s)) donationSubscriberData;
  backup_subscription ← transpose_map (fun s => map_err AccountDataError_BackupSubscription (IapSubscriberData_try_from s)) backupsSubscriberData;
  android_specific_settings ← transpose_map AndroidSpecificSettings_try_from androidSpecificSettings;
  Ok {|
    ad_profile_key := value M profile_key;
    ad_username := value M username;
    ad_given_name := value M givenName;
    ad_family_name := value M familyName;
    ad_account_settings := account_settings;
    ad_avatar_url_path := value M avatarUrlPath;
    ad_donation_subscription := value M donation_subscription;
    ad_backup_subscription := value M backup_subscription;
    ad_svr_pin := value M svrPin;
    ad_android_specific_settings := value M android_specific_settings;
    ad_bio_text := value M bioText;
    ad_bio_emoji := value M bioEmoji
  |}.
End Account.

(** ** chat.rs *)

Definition PinOrder : Type := Z.
(** [BackupMeta] of backup.rs. *)
Record BackupMeta := mkBackupMeta {
  version : Z; backup_time : Timestamp; media_root_backup_key : BackupKey V1; current_app_version : string; first_app_version : string;
  purpose : Purpose }.

Inductive ChatError :=
| ChatError_InvalidId
| ChatError_DuplicateId
| ChatError_NoRecipient (id : RecipientId)
| ChatError_InvalidRecipient (id : RecipientId) (k : DestinationKind)
| ChatError_MissingExpireTimerVersion (id : RecipientId)
| ChatError_ChatItem (raw_timestamp : Z) (error : ChatItemError)
| ChatError_DuplicatePinnedOrder (p : PinOrder)
| ChatError_Style (e : ChatStyleError)
| ChatError_InvalidTimestamp (e : TimestampError).

Inductive DeliveryFailureReason := DeliveryFailure_Unknown | DeliveryFailure_Network | DeliveryFailure_IdentityKeyMismatch.
Inductive DeliveryStatus :=
| Delivery_Failed (r : DeliveryFailureReason) | Delivery_Pending | Delivery_Sent (sealed_sender : bool)
| Delivery_Delivered (sealed_sender : bool) | Delivery_Read (sealed_sender : bool) | Delivery_Viewed (sealed_sender : bool) | Delivery_Skipped.
Record OutgoingSend (R : Type) := mkOutgoingSend { os_recipient : R; os_status : DeliveryStatus; os_last_status_update : Timestamp }.
Arguments mkOutgoingSend {_} _ _ _.
Arguments os_status {_} _.
Inductive Direction (R : Type) :=
| Incoming (sent : option Timestamp) (received : Timestamp) (read sealed_sender : bool)
| Outgoing (recipients : list (OutgoingSend R)) (received : Timestamp)
| Directionless.
Arguments Incoming {_} _ _ _ _.
Arguments Outgoing {_} _ _.
Arguments Directionless {_}.
Definition Direction_discriminant {R} (d : Direction R) : DirectionDiscriminants :=
  match d with Incoming _ _ _ _ => Direction_is_Incoming | Outgoing _ _ => Direction_is_Outgoing | Directionless => Direction_is_Directionless end.

Inductive ChatItemMessage `{ReceiptPresentations} (M : Method) (R : Type) :=
| Message_Standard (m : StandardMessage R)
| Message_Contact (m : ContactMessage R)
| Message_Voice (m : VoiceMessage R)
| Message_Sticker (m : StickerMessage R)
| Message_RemoteDeleted
| Message_Update (m : UpdateMessage R)
| Message_PaymentNotification (m : PaymentNotification)
| Message_GiftBadge (m : MValue GiftBadge M)
| Message_ViewOnce (m : ViewOnceMessage R)
| Message_DirectStoryReply (m : DirectStoryReplyMessage R)
| Message_Poll (m : Poll R).
Arguments Message_Standard {_ _ _} _.
Arguments Message_Contact {_ _ _} _.
Arguments Message_Voice {_ _ _} _.
Arguments Message_Sticker {_ _ _} _.
Arguments Message_RemoteDeleted {_ _ _}.
Arguments Message_Update {_ _ _} _.
Arguments Message_PaymentNotification {_ _ _} _.
Arguments Message_GiftBadge {_ _ _} _.
Arguments Message_ViewOnce {_ _ _} _.
Arguments Message_DirectStoryReply {_ _ _} _.
Arguments Message_Poll {_ _ _} _.
Definition ChatItemMessage_discriminant `{ReceiptPresentations} {M R} (m : ChatItemMessage M R) : ChatItemMessageDiscriminants :=
  match m with
  | Message_Standard _ => Message_is_Standard
  | Message_Contact _ => Message_is_Contact
  | Message_Voice _ => Message_is_Voice
  | Message_Sticker _ => Message_is_Sticker
  | Message_RemoteDeleted => Message_is_RemoteDeleted
  | Message_Update _ => Message_is_Update
  | Message_PaymentNotification _ => Message_is_PaymentNotification
  | Message_GiftBadge _ => Message_is_GiftBadge
  | Message_ViewOnce _ => Message_is_ViewOnce
  | Message_DirectStoryReply _ => Message_is_DirectStoryReply
  | Message_Poll _ => Message_is_Poll
  end.

Inductive ChatItemData `{ReceiptPresentations} (M : Method) (R : Type) := mkChatItemData {
  ci_author : R;
  ci_cached_author_kind : ChatItemAuthorKind;
  ci_message : ChatItemMessage M R;
  ci_revisions : list (ChatItemData M R);
  ci_direction : Direction R;
  ci_expire_start : option Timestamp;
  ci_expires_in : option Duration;
  ci_sent_at : Timestamp;
  ci_sms : bool;
  ci_total_chat_item_order_index : Z
}.
Arguments mkChatItemData {_ _ _} _ _ _ _ _ _ _ _ _ _.
Arguments ci_author {_ _ _} _.
Arguments ci_cached_author_kind {_ _ _} _.
Arguments ci_message {_ _ _} _.
Arguments ci_revisions {_ _ _} _.
Arguments ci_direction {_ _ _} _.
Arguments ci_expire_start {_ _ _} _.
Arguments ci_expires_in {_ _ _} _.
Arguments ci_sent_at {_ _ _} _.
Arguments ci_sms {_ _ _} _.
Arguments ci_total_chat_item_order_index {_ _ _} _.

Record ChatData `{ReceiptPresentations} (M : Method) (R CC : Type) := mkChatData {
  ch_recipient : R;
  ch_cached_recipient_info : ChatRecipientKind;
  ch_items : MList (ChatItemData M R) M;
  ch_expiration_timer : option Duration;
  ch_expiration_timer_version : Z;
  ch_mute_until : option TimestampOrForever;
  ch_style : option (ChatStyle M CC);
  ch_pinned_order : option PinOrder;
  ch_dont_notify_for_mentions_if_muted : bool;
  ch_marked_unread : bool;
  ch_archived : bool
}.
Arguments mkChatData {_ _ _ _} _ _ _ _ _ _ _ _ _ _ _.
Arguments ch_recipient {_ _ _ _} _.
Arguments ch_cached_recipient_info {_ _ _ _} _.
Arguments ch_items {_ _ _ _} _.
Arguments ch_expiration_timer {_ _ _ _} _.
Arguments ch_expiration_timer_version {_ _ _ _} _.
Arguments ch_mute_until {_ _ _ _} _.
Arguments ch_style {_ _ _ _} _.
Arguments ch_pinned_order {_ _ _ _} _.
Arguments ch_dont_notify_for_mentions_if_muted {_ _ _ _} _.
Arguments ch_marked_unread {_ _ _ _} _.
Arguments ch_archived {_ _ _ _} _.

Definition MAX_REMOTE_BACKUP_DISAPPEARING_MESSAGE_TIME : Duration := Duration_from_hours 24.

(** *** Chats *)

Definition Chat_try_from `{ReceiptPresentations} (M : Method) {R CC} (lookup_pair : RecipientId -> option (MinimalRecipientData * R))
    (lookup_pin : PinOrder -> option R) (lookup_color : CustomColorId -> option CC) (self : proto.Chat) : outcome ChatError (ChatData M R CC) :=
  let '(proto.mkChat _ recipient_id archived pinnedOrder expirationTimerMs muteUntilMs markedUnread dontNotifyForMentionsIfMuted style
          expireTimerVersion) := self in
  '(recipient_data, recipient) ← ok_or (ChatError_NoRecipient recipient_id) (lookup_pair recipient_id);
  cached_recipient_info ← map_err (ChatError_InvalidRecipient recipient_id) (ChatRecipientKind_try_from recipient_data);
  _ ← match pinnedOrder with
      | Some pinned_order =>
          match lookup_pin pinned_order with Some _ => Err (ChatError_DuplicatePinnedOrder pinned_order) | None => Ok tt end
      | None => Ok tt
      end;
  style ← transpose_map (fun style => map_err ChatError_Style (ChatStyle_try_from_proto (M := M) lookup_color style)) style;
  let expiration_timer := Duration_from_millis <$> expirationTimerMs in
  mute_until ← transpose_map (fun t => map_err ChatError_InvalidTimestamp (TimestampOrForever_from_millis t "Chat.muteUntilMs")) muteUntilMs;
  _ ← guard_err (is_some expiration_timer && (expireTimerVersion =? 0)) (ChatError_MissingExpireTimerVersion recipient_id);
  Ok (mkChatData recipient cached_recipient_info (MList_default M) expiration_timer expireTimerVersion mute_until style pinnedOrder
        dontNotifyForMentionsIfMuted markedUnread archived).

(** *** Directions *)

Section Directions.
Context {R : Type} (lookup_pair : RecipientId -> option (MinimalRecipientData * R)).

Definition OutgoingSend_try_from (self : proto.SendStatus) : outcome OutgoingSendError (OutgoingSend R) :=
  let '(proto.mkSendStatus recipient_id timestamp deliveryStatus) := self in
  '(recipient_data, recipient) ← ok_or (OutgoingSendError_UnknownRecipient recipient_id) (lookup_pair recipient_id);
  recipient ← match recipient_data with
              | Minimal_Contact _ _ _ _ | Minimal_Self => Ok recipient
              | Minimal_Group _ | Minimal_DistributionList _ | Minimal_ReleaseNotes | Minimal_CallLink _ =>
                  Err (OutgoingSendError_InvalidRecipient recipient_id (Minimal_kind recipient_data))
              end;
  status ← ok_or OutgoingSendError_SendStatusMissing deliveryStatus;
  let status :=
    match status with
    | proto.SendStatus_pending (proto.mkSendStatus_Pending) => Delivery_Pending
    | proto.SendStatus_sent (proto.mkSendStatus_Sent sealedSender) => Delivery_Sent sealedSender
    | proto.SendStatus_delivered (proto.mkSendStatus_Delivered sealedSender) => Delivery_Delivered sealedSender
    | proto.SendStatus_read (proto.mkSendStatus_Read sealedSender) => Delivery_Read sealedSender
    | proto.SendStatus_viewed (proto.mkSendStatus_Viewed sealedSender) => Delivery_Viewed sealedSender
    | proto.SendStatus_skipped (proto.mkSendStatus_Skipped) => Delivery_Skipped
    | proto.SendStatus_failed (proto.mkSendStatus_Failed reason) =>
        Delivery_Failed match enum_value_or_default reason with
                        | proto.SendStatus_Failed_FailureReason_UNKNOWN => DeliveryFailure_Unknown
                        | proto.SendStatus_Failed_FailureReason_NETWORK => DeliveryFailure_Network
                        | proto.SendStatus_Failed_FailureReason_IDENTITY_KEY_MISMATCH => DeliveryFailure_IdentityKeyMismatch
                        end
    end in
  last_status_update ← map_err (OutgoingSendError_InvalidTimestamp recipient_id) (Timestamp_from_millis timestamp "SendStatus.timestamp");
  Ok (mkOutgoingSend recipient status last_status_update).

Definition chat_item_time (millis : Z) (context : string) : outcome ChatItemError Timestamp :=
  map_err ChatItemError_InvalidTimestamp (Timestamp_from_millis millis context).

Definition Direction_try_from (self : proto.ChatItem_DirectionalDetails) : outcome ChatItemError (Direction R) :=
  match self with
  | proto.ChatItem_incoming (proto.mkChatItem_IncomingMessageDetails dateReceived dateServerSent read sealedSender) =>
      sent ← transpose_map (fun sent => chat_item_time sent "DirectionalDetails.dateServerSent") dateServerSent;
      received ← chat_item_time dateReceived "DirectionalDetails.dateReceived";
      Ok (Incoming sent received read sealedSender)
  | proto.ChatItem_outgoing (proto.mkChatItem_OutgoingMessageDetails sendStatus dateReceived) =>
      recipients ← mapM (fun s => map_err ChatItemError_Outgoing (OutgoingSend_try_from s)) sendStatus;
      received ← chat_item_time dateReceived "OutgoingMessageDetails.dateReceived";
      Ok (Outgoing recipients received)
  | proto.ChatItem_directionless (proto.mkChatItem_DirectionlessMessageDetails) => Ok Directionless
  end.
End Directions.

(** *** Items *)

(** The kind of author that a chat item has. *)
Definition author_kind {R} (author_id : RecipientId) (author_data : MinimalRecipientData) (direction : Direction R)
  : outcome ChatItemError ChatItemAuthorKind :=
  match author_data, direction with
  | (Minimal_Group _ | Minimal_DistributionList _ | Minimal_CallLink _), _ => Err (InvalidAuthor author_id (Minimal_kind author_data))
  | Minimal_Self, Incoming _ _ _ _ => Err IncomingMessageFromSelf
  | (Minimal_Contact _ _ _ _ | Minimal_ReleaseNotes), Outgoing _ _ => Err (OutgoingMessageFrom author_id (Minimal_kind author_data))
  | Minimal_Contact None None _ _, Incoming _ _ _ _ => Err (IncomingMessageFromContactWithoutAciOrE164 author_id)
  | Minimal_Self, Outgoing _ _ | Minimal_Self, Directionless => Ok Author_Self
  | Minimal_Contact e164 aci _ _, Incoming _ _ _ _ | Minimal_Contact e164 aci _ _, Directionless =>
      Ok (Author_Contact (is_some e164) (is_some aci))
  | Minimal_ReleaseNotes, Incoming _ _ _ _ | Minimal_ReleaseNotes, Directionless => Ok Author_ReleaseNotes
  end.

Section Items.
Context `{G : Graphemes} `{IM : IntMapIter} `{RP : ReceiptPresentations} (M : Method) {R : Type}
  (lookup_pair : RecipientId -> option (MinimalRecipientData * R)) (meta : BackupMeta).

Definition is_voice_message (attachments : list proto.MessageAttachment) : bool :=
  match attachments with
  | [single_attachment] =>
      bool_decide (enum_value_or_default (proto.MessageAttachment_flag single_attachment) = proto.MessageAttachment_Flag_VOICE_MESSAGE)
  | _ => false
  end.

Definition ChatItemMessage_try_from (self : proto.ChatItem_Item) : outcome ChatItemError (ChatItemMessage M R) :=
  match self with
  | proto.ChatItem_standardMessage message =>
      if is_voice_message (proto.StandardMessage_attachments message)
      then Message_Voice <$> map_err ChatItemError_VoiceMessage (VoiceMessage_try_from lookup_pair message)
      else Message_Standard <$> StandardMessage_try_from lookup_pair message
  | proto.ChatItem_contactMessage message => Message_Contact <$> ContactMessage_try_from lookup_pair message
  | proto.ChatItem_stickerMessage message => Message_Sticker <$> StickerMessage_try_from lookup_pair message
  | proto.ChatItem_remoteDeletedMessage (proto.mkRemoteDeletedMessage) => Ok Message_RemoteDeleted
  | proto.ChatItem_updateMessage message => Message_Update <$> UpdateMessage_try_from lookup_pair message
  | proto.ChatItem_paymentNotification message =>
      Message_PaymentNotification <$> map_err ChatItemError_Payment (PaymentNotification_try_from message)
  | proto.ChatItem_giftBadge badge =>
      (fun b => Message_GiftBadge (boxed_value M b)) <$> map_err ChatItemError_GiftBadge (GiftBadge_try_from badge)
  | proto.ChatItem_viewOnceMessage message =>
      Message_ViewOnce <$> map_err ChatItemError_ViewOnce (ViewOnceMessage_try_from lookup_pair message)
  | proto.ChatItem_directStoryReplyMessage message =>
      Message_DirectStoryReply <$> map_err ChatItemError_DirectStoryReply (DirectStoryReplyMessage_try_from lookup_pair message)
  | proto.ChatItem_poll poll => Message_Poll <$> map_err InvalidPoll (Poll_try_from lookup_pair poll)
  end.

(** Only update messages are directionless, and they come from certain authors. *)
Definition check_direction (direction : Direction R) (message : ChatItemMessage M R) : outcome ChatItemError () :=
  match direction, message with
  | Directionless, Message_Update _ => Ok tt
  | Directionless, _ => Err DirectionlessMessage
  | _, Message_Update _ => Err UpdateMessageShouldBeDirectionless
  | _, _ => Ok tt
  end.
Definition check_update_author (message : ChatItemMessage M R) (author : ChatItemAuthorKind) : outcome ChatItemError () :=
  match message with Message_Update update => UpdateMessage_validate_author update author | _ => Ok tt end.
Definition check_view_once (message : ChatItemMessage M R) : outcome ChatItemError () :=
  match purpose meta, message with
  | TakeoutExport, Message_ViewOnce view_once =>
      guard_err (is_some (vo_attachment view_once)) (ChatItemError_InvalidExpiration (InvalidExpiration_NotAllowedForPurpose (purpose meta)))
  | _, _ => Ok tt
  end.
Definition check_may_have_revisions (message : ChatItemMessage M R) : outcome ChatItemError () :=
  match message with
  | Message_Standard _ | Message_DirectStoryReply _ => Ok tt
  | Message_Contact _ | Message_Voice _ | Message_Sticker _ | Message_RemoteDeleted | Message_Update _ | Message_PaymentNotification _
  | Message_GiftBadge _ | Message_ViewOnce _ | Message_Poll _ => Err NonStandardMessageHasRevisions
  end.

Definition send_has_started (status : DeliveryStatus) : bool :=
  match status with
  | Delivery_Failed _ => false
  | Delivery_Pending => false
  | Delivery_Sent _ | Delivery_Delivered _ | Delivery_Read _ | Delivery_Viewed _ | Delivery_Skipped => true
  end.
Definition should_have_started (direction : Direction R) : bool :=
  match direction with
  | Incoming _ _ read _ => read
  | Outgoing recipients _ => forallb (fun send => send_has_started (os_status send)) recipients
  | Directionless => false
  end.

(** The rules for disappearing messages. *)
Definition check_expiration (direction : Direction R) (expire_start : option Timestamp) (expires_in : option Duration) : outcome ChatItemError () :=
  match expire_start, expires_in with
  | None, None => Ok tt
  | Some _, None => Err ExpirationMismatch
  | None, Some expires_in =>
      _ ← guard_err (should_have_started direction) ExpirationNotStarted;
      match purpose meta with
      | DeviceTransfer => Ok tt
      | RemoteBackup =>
          guard_err (nanos expires_in <? nanos MAX_REMOTE_BACKUP_DISAPPEARING_MESSAGE_TIME)
            (ChatItemError_InvalidExpiration (InvalidExpiration_TooShort expires_in))
      | TakeoutExport => Err (ChatItemError_InvalidExpiration (InvalidExpiration_NotAllowedForPurpose (purpose meta)))
      end
  | Some expire_start, Some expires_in =>
      _ ← guard_err match purpose meta with TakeoutExport => true | _ => false end
            (ChatItemError_InvalidExpiration (InvalidExpiration_NotAllowedForPurpose (purpose meta)));
      expires_at ← Timestamp_add expire_start expires_in;
      after ← match purpose meta with
              | DeviceTransfer => Ok Duration_ZERO
              | RemoteBackup => Ok MAX_REMOTE_BACKUP_DISAPPEARING_MESSAGE_TIME
              | TakeoutExport => Panic
              end;
      allowed_expire_at ← Timestamp_add (backup_time meta) after;
      guard_err (system_time expires_at <? system_time allowed_expire_at)
        (ChatItemError_InvalidExpiration (InvalidExpiration_TooSoon expires_at (backup_time meta)))
  end.

(** What a revision must share with its item. *)
Definition check_revision (direction : Direction R) (message : ChatItemMessage M R) (item : ChatItemData M R)
  : outcome ChatItemError (ChatItemData M R) :=
  _ ← guard_err (negb (bool_decide (Direction_discriminant direction = Direction_discriminant (ci_direction item))))
        (RevisionWithMismatchedDirection (Direction_discriminant direction) (Direction_discriminant (ci_direction item)));
  _ ← guard_err (negb (bool_decide (ChatItemMessage_discriminant (ci_message item) = ChatItemMessage_discriminant message)))
        (RevisionWithMismatchedMessageType (ChatItemMessage_discriminant message) (ChatItemMessage_discriminant (ci_message item)));
  _ ← guard_err (negb (no_elements (ci_revisions item))) RevisionContainsRevisions;
  Ok item.

Definition ChatItem_authorId (i : proto.ChatItem) : Z := let '(proto.mkChatItem _ authorId _ _ _ _ _ _ _) := i in authorId.
Definition ChatItem_chatId (i : proto.ChatItem) : Z := let '(proto.mkChatItem chatId _ _ _ _ _ _ _ _) := i in chatId.
Definition ChatItem_dateSent (i : proto.ChatItem) : Z := let '(proto.mkChatItem _ _ dateSent _ _ _ _ _ _) := i in dateSent.

Fixpoint ChatItem_try_from (self : proto.ChatItem) : outcome ChatItemError (ChatItemData M R) :=
  let '(proto.mkChatItem _ author_id dateSent expireStartDate expiresInMs revisions sms directionalDetails item) := self in
  directional_details ← ok_or NoDirection directionalDetails;
  direction ← Direction_try_from lookup_pair directional_details;
  '(author_data, author) ← ok_or (AuthorNotFound author_id) (lookup_pair author_id);
  cached_author_kind ← author_kind author_id author_data direction;
  item ← ok_or MissingItem item;
  message ← ChatItemMessage_try_from item;
  _ ← check_direction direction message;
  _ ← check_update_author message cached_author_kind;
  _ ← check_view_once message;
  _ ← if negb (no_elements revisions) then check_may_have_revisions message else Ok tt;
  revisions ← likely_empty revisions (mapM (fun rev =>
    _ ← guard_err (negb (author_id =? ChatItem_authorId rev)) (RevisionWithMismatchedAuthor author_id (ChatItem_authorId rev));
    item ← ChatItem_try_from rev;
    check_revision direction message item));
  sent_at ← chat_item_time dateSent "ChatItem.dateSent";
  expire_start ← transpose_map (fun date => chat_item_time date "ChatItem.expireStartDate") expireStartDate;
  let expires_in := Duration_from_millis <$> expiresInMs in
  _ ← check_expiration direction expire_start expires_in;
  Ok (mkChatItemData author cached_author_kind message revisions direction expire_start expires_in sent_at sms 0).
End Items.

(** The item fits the chat that it is put in. *)
Definition validate_chat_recipient `{ReceiptPresentations} {M R} (is_same_reference : R -> R -> bool) (self : ChatItemData M R) (recipient_ref : R)
    (recipient_data : ChatRecipientKind) : outcome ChatItemError () :=
  _ ← match ci_cached_author_kind self with
      | Author_Contact _ _ =>
          match recipient_data with
          | ChatRecipient_Contact _ =>
              guard_err (negb (is_same_reference (ci_author self) recipient_ref)) MessageFromContactInWrongIndividualChat
          | ChatRecipient_Group => Ok tt
          | ChatRecipient_Self => Err MessageFromContactInNoteToSelf
          | ChatRecipient_ReleaseNotes => Err MessageFromContactInReleaseNotes
          end
      | Author_Self => Ok tt
      | Author_ReleaseNotes =>
          guard_err (negb match recipient_data with ChatRecipient_ReleaseNotes => true | _ => false end)
            (ReleaseNoteMessageNotInReleaseNoteChat (DestinationKind_from recipient_data))
      end;
  match ci_message self with
  | Message_Standard _ | Message_Contact _ | Message_Voice _ | Message_Sticker _ | Message_RemoteDeleted | Message_ViewOnce _ => Ok tt
  | Message_GiftBadge _ => Ok tt
  | Message_Update update => UpdateMessage_validate_chat_recipient update recipient_data
  | Message_PaymentNotification _ =>
      guard_err (negb (ChatRecipientKind_is_contact_with_aci recipient_data))
        (PaymentNotificationNotInContactThread (DestinationKind_from recipient_data))
  | Message_DirectStoryReply _ =>
      guard_err (negb (ChatRecipientKind_is_contact_with_aci recipient_data))
        (DirectStoryReplyNotInContactThread (DestinationKind_from recipient_data))
  | Message_Poll _ => guard_err (negb (is_group recipient_data)) (PollNotInGroup (DestinationKind_from recipient_data))
  end.
