(* ===== verification/BackupState.v ===== *)
(** * BackupState: the backup that frames are added to
    (rust/message-backup/src/backup.rs, backup/frame.rs)

    [PartialBackup] takes one frame after the other and [CompletedBackup_try_from] makes the
    backup of it: this is what BackupReader reads a backup file into.  The method [M]
    decides whether everything is kept ([Store]) or only what later frames need
    ([ValidateOnly]).  A number per [PartialBackup] stands for the allocator of the [Arc]s:
    none is freed while the backup lives.  The count of chat items stays below 2^64, as each
    takes a frame, and is not wrapped. *)

From Stdlib Require Import Ascii.
From stdpp Require Import strings.
From S2P Require Import Prelude Types Primitives ServiceId Curve Ristretto Sho Poksho Usernames AccountKeys BackupReader BackupProto.
From S2P Require Import BackupData BackupMessages BackupChats.
Open Scope string_scope.
Open Scope list_scope.
Open Scope Z_scope.

#[export] Program Instance array_countable {n} : Countable (array n) :=
  inj_countable' arr (to_array n) _.
Next Obligation. intros n a. apply to_array_id. Qed.
#[export] Program Instance specific_countable {KIND} : Countable (SpecificServiceId KIND) :=
  inj_countable' specific_uuid from_uuid _.
Next Obligation. by intros KIND []. Qed.

(** ** Errors *)

Inductive CompletionError :=
| CompletionError_MissingAccountData
| CompletionError_MissingAllChatFolder
| CompletionError_DuplicateAllChatFolder
| CompletionError_MissingSelfRecipient
| CompletionError_DuplicateContactE164 (id1 id2 : RecipientId)
| CompletionError_DuplicateContactUsername (id1 id2 : RecipientId)
| CompletionError_DuplicateContactAci (id1 id2 : RecipientId)
| CompletionError_DuplicateContactPni (id1 id2 : RecipientId)
| CompletionError_DuplicateGroupMasterKey (id1 id2 : RecipientId)
| CompletionError_DuplicateDistributionListId (id1 id2 : RecipientId)
| CompletionError_DuplicateCallLinkRootKey (id1 id2 : RecipientId)
| CompletionError_DuplicateSelfRecipient (id1 id2 : RecipientId)
| CompletionError_DuplicateReleaseNotesRecipient (id1 id2 : RecipientId).

Inductive MetadataError := MetadataError_InvalidMediaRootBackupKey (n : nat) | MetadataError_InvalidTimestamp (e : TimestampError).
Inductive StickerError := StickerError_InvalidId | StickerError_DuplicateId (id : PackId) | StickerError_PackError (id : PackId) (e : StickerPackError).
Record ChatFrameError := mkChatFrameError { cfe_id : ChatId; cfe_error : ChatError }.
Record RecipientFrameError := mkRecipientFrameError { rfe_id : RecipientId; rfe_error : RecipientError }.
Record CallFrameError := mkCallFrameError { call_recipient_id : Z; call_call_id : Z; call_error : CallError }.
Inductive ValidationError :=
| ValidationError_EmptyFrame
| ValidationError_BackupInfoError (e : MetadataError)
| ValidationError_MultipleAccountData
| ValidationError_AccountData (e : AccountDataError)
| ValidationError_RecipientError (e : RecipientFrameError)
| ValidationError_ChatError (e : ChatFrameError)
| ValidationError_CallError (e : CallFrameError)
| ValidationError_StickerError (e : StickerError)
| ValidationError_NotificationProfileError (e : NotificationProfileError)
| ValidationError_ChatFolderError (e : ChatFolderError).

(** ** Duplicate recipients *)

Definition sort_recipient_ids (id1 id2 : RecipientId) : RecipientId * RecipientId :=
  if id2 <? id1 then (id2, id1) else (id1, id2).

(** [insert_or_error]: [None] keeps the map. *)
Definition insert_or_error {K} `{Countable K} (map : gmap K RecipientId) (key : option K) (id : RecipientId)
    (error : RecipientId -> RecipientId -> CompletionError) : outcome CompletionError (gmap K RecipientId) :=
  match key with
  | Some key =>
      match map !! key with
      | Some other => let '(id1, id2) := sort_recipient_ids other id in Err (error id1 id2)
      | None => Ok (<[key := id]> map)
      end
  | None => Ok map
  end.

(** The variables of the loop. *)
Record Seen := mkSeen {
  e164s : gmap Z RecipientId;
  usernames : gmap string RecipientId;
  acis : gmap Aci RecipientId;
  pnis : gmap Pni RecipientId;
  group_master_keys : gmap (array 32) RecipientId;
  distribution_ids : gmap Uuid RecipientId;
  self_recipient : option RecipientId;
  release_notes_recipient : option RecipientId;
  call_link_root_keys : gmap (array 16) RecipientId
}.
Definition Seen_empty : Seen := mkSeen ∅ ∅ ∅ ∅ ∅ ∅ None None ∅.

Definition once (previous : option RecipientId) (id : RecipientId) (error : RecipientId -> RecipientId -> CompletionError)
  : outcome CompletionError (option RecipientId) :=
  match previous with
  | Some previous => let '(id1, id2) := sort_recipient_ids previous id in Err (error id1 id2)
  | None => Ok (Some id)
  end.

(** One turn of the loop. *)
Definition see_recipient (s : Seen) (id : RecipientId) (recipient : MinimalRecipientData) : outcome CompletionError Seen :=
  let '(mkSeen e164s usernames acis pnis group_master_keys distribution_ids self_recipient release_notes_recipient call_link_root_keys) := s in
  match recipient with
  | Minimal_Contact e164 aci pni username =>
      usernames ← insert_or_error usernames username id CompletionError_DuplicateContactUsername;
      e164s ← insert_or_error e164s (e164_number <$> e164) id CompletionError_DuplicateContactE164;
      acis ← insert_or_error acis aci id CompletionError_DuplicateContactAci;
      pnis ← insert_or_error pnis pni id CompletionError_DuplicateContactPni;
      Ok (mkSeen e164s usernames acis pnis group_master_keys distribution_ids self_recipient release_notes_recipient call_link_root_keys)
  | Minimal_Group master_key =>
      group_master_keys ← insert_or_error group_master_keys (Some master_key) id CompletionError_DuplicateGroupMasterKey;
      Ok (mkSeen e164s usernames acis pnis group_master_keys distribution_ids self_recipient release_notes_recipient call_link_root_keys)
  | Minimal_DistributionList distribution_id =>
      distribution_ids ← insert_or_error distribution_ids (Some distribution_id) id CompletionError_DuplicateDistributionListId;
      Ok (mkSeen e164s usernames acis pnis group_master_keys distribution_ids self_recipient release_notes_recipient call_link_root_keys)
  | Minimal_Self =>
      self_recipient ← once self_recipient id CompletionError_DuplicateSelfRecipient;
      Ok (mkSeen e164s usernames acis pnis group_master_keys distribution_ids self_recipient release_notes_recipient call_link_root_keys)
  | Minimal_ReleaseNotes =>
      release_notes_recipient ← once release_notes_recipient id CompletionError_DuplicateReleaseNotesRecipient;
      Ok (mkSeen e164s usernames acis pnis group_master_keys distribution_ids self_recipient release_notes_recipient call_link_root_keys)
  | Minimal_CallLink root_key =>
      call_link_root_keys ← insert_or_error call_link_root_keys (Some root_key) id CompletionError_DuplicateCallLinkRootKey;
      Ok (mkSeen e164s usernames acis pnis group_master_keys distribution_ids self_recipient release_notes_recipient call_link_root_keys)
  end.

Fixpoint see_recipients (s : Seen) (recipients : list (RecipientId * MinimalRecipientData)) : outcome CompletionError Seen :=
  match recipients with
  | [] => Ok s
  | (id, recipient) :: recipients => s ← see_recipient s id recipient; see_recipients s recipients
  end.

Definition check_for_duplicate_recipients (recipients : list (RecipientId * MinimalRecipientData)) : outcome CompletionError () :=
  s ← see_recipients Seen_empty recipients;
  guard_err (negb (is_some (self_recipient s))) CompletionError_MissingSelfRecipient.

(** ** PartialBackup *)

Section Backup.
Context `{P : Primitives} {H256 : Sha256} {RI : Ristretto} `{G : Graphemes} `{IM : IntMapIter} `{RP : ReceiptPresentations}.
Context (M : Method) `{RT : !ReferencedTypes M}.

Record ChatsData := mkChatsData {
  items : gmap ChatId (ChatData M RecipientReference CustomColorReference);
  pinned : list (PinOrder * RecipientReference);
  chat_items_count : Z
}.
Record PartialBackup := mkPartialBackup {
  meta : BackupMeta;
  account_data : option (AccountData M CustomColorReference CustomColorData);
  recipients : gmap RecipientId RecipientData;
  chats : ChatsData;
  ad_hoc_calls : MList (AdHocCall RecipientReference) M;
  sticker_packs : gmap PackId (StickerPack M);
  notification_profiles : list (NotificationProfile RecipientReference);
  chat_folders : list (ChatFolder RecipientReference);
  allocations : Z
}.
Record CompletedBackup := mkCompletedBackup {
  c_meta : BackupMeta;
  c_account_data : AccountData M CustomColorReference CustomColorData;
  c_recipients : gmap RecipientId RecipientData;
  c_chats : ChatsData;
  c_ad_hoc_calls : MList (AdHocCall RecipientReference) M;
  c_sticker_packs : gmap PackId (StickerPack M);
  c_notification_profiles : list (NotificationProfile RecipientReference);
  c_chat_folders : list (ChatFolder RecipientReference)
}.

Definition set_account_data (d : option (AccountData M CustomColorReference CustomColorData)) (b : PartialBackup) : PartialBackup :=
  mkPartialBackup (meta b) d (recipients b) (chats b) (ad_hoc_calls b) (sticker_packs b) (notification_profiles b) (chat_folders b) (allocations b).
Definition set_recipients (r : gmap RecipientId RecipientData) (n : Z) (b : PartialBackup) : PartialBackup :=
  mkPartialBackup (meta b) (account_data b) r (chats b) (ad_hoc_calls b) (sticker_packs b) (notification_profiles b) (chat_folders b) n.
Definition set_chats (c : ChatsData) (b : PartialBackup) : PartialBackup :=
  mkPartialBackup (meta b) (account_data b) (recipients b) c (ad_hoc_calls b) (sticker_packs b) (notification_profiles b) (chat_folders b) (allocations b).
Definition set_ad_hoc_calls (l : MList (AdHocCall RecipientReference) M) (b : PartialBackup) : PartialBackup :=
  mkPartialBackup (meta b) (account_data b) (recipients b) (chats b) l (sticker_packs b) (notification_profiles b) (chat_folders b) (allocations b).
Definition set_sticker_packs (s : gmap PackId (StickerPack M)) (b : PartialBackup) : PartialBackup :=
  mkPartialBackup (meta b) (account_data b) (recipients b) (chats b) (ad_hoc_calls b) s (notification_profiles b) (chat_folders b) (allocations b).
Definition set_notification_profiles (l : list (NotificationProfile RecipientReference)) (b : PartialBackup) : PartialBackup :=
  mkPartialBackup (meta b) (account_data b) (recipients b) (chats b) (ad_hoc_calls b) (sticker_packs b) l (chat_folders b) (allocations b).
Definition set_chat_folders (l : list (ChatFolder RecipientReference)) (b : PartialBackup) : PartialBackup :=
  mkPartialBackup (meta b) (account_data b) (recipients b) (chats b) (ad_hoc_calls b) (sticker_packs b) (notification_profiles b) l (allocations b).

(** *** Lookups *)

Definition lookup_pair (b : PartialBackup) (key : RecipientId) : option (MinimalRecipientData * RecipientReference) :=
  (fun data => (as_minimal data, recipient_reference key data)) <$> recipients b !! key.
Definition lookup_color (b : PartialBackup) (key : CustomColorId) : option CustomColorReference :=
  data ← account_data b; CustomColorMap_lookup color_reference (as_custom_chat_colors (ad_account_settings data)) key.
Definition lookup_pin (b : PartialBackup) (key : PinOrder) : option RecipientReference :=
  '(_, recipient) ← find (fun '(order, _) => order =? key) (pinned (chats b)); Some recipient.

(** *** Chats *)

Definition ChatsData_add_chat (self : ChatsData) (id : ChatId) (chat : ChatData M RecipientReference CustomColorReference)
  : outcome ChatFrameError ChatsData :=
  match items self !! id with
  | Some _ => Err (mkChatFrameError id ChatError_DuplicateId)
  | None =>
      let pinned' := match ch_pinned_order chat with
                     | Some pin => pinned self ++ [(pin, ch_recipient chat)]
                     | None => pinned self
                     end in
      Ok (mkChatsData (<[id := chat]> (items self)) pinned' (chat_items_count self))
  end.

Definition set_order_index (n : Z) (i : ChatItemData M RecipientReference) : ChatItemData M RecipientReference :=
  mkChatItemData (ci_author i) (ci_cached_author_kind i) (ci_message i) (ci_revisions i) (ci_direction i) (ci_expire_start i)
    (ci_expires_in i) (ci_sent_at i) (ci_sms i) n.
Definition add_to_chat (iter : list (ChatItemData M RecipientReference)) (c : ChatData M RecipientReference CustomColorReference)
  : ChatData M RecipientReference CustomColorReference :=
  mkChatData (ch_recipient c) (ch_cached_recipient_info c) (extend (ch_items c) iter) (ch_expiration_timer c)
    (ch_expiration_timer_version c) (ch_mute_until c) (ch_style c) (ch_pinned_order c) (ch_dont_notify_for_mentions_if_muted c)
    (ch_marked_unread c) (ch_archived c).

(** The closure [wrap_error]; it makes the time of the item a number again. *)
Definition wrap_error {A} (chat_id : ChatId) (item : ChatItemData M RecipientReference) (r : outcome ChatItemError A) : outcome ChatFrameError A :=
  match r with
  | Ok a => Ok a
  | Err error => raw_timestamp ← Timestamp_as_millis (ci_sent_at item); Err (mkChatFrameError chat_id (ChatError_ChatItem raw_timestamp error))
  | Panic => Panic
  end.

Definition ChatsData_add_chat_item (self : ChatsData) (chat_id : ChatId) (item : ChatItemData M RecipientReference)
  : outcome ChatFrameError ChatsData :=
  chat_data ← wrap_error chat_id item (ok_or NoChatForItem (items self !! chat_id));
  _ ← wrap_error chat_id item (validate_chat_recipient is_same_reference item (ch_recipient chat_data) (ch_cached_recipient_info chat_data));
  let item := set_order_index (chat_items_count self) item in
  Ok (mkChatsData (<[chat_id := add_to_chat [item] chat_data]> (items self)) (pinned self) (chat_items_count self + 1)).

(** *** Frames *)

Definition PartialBackup_new_ (value : proto.BackupInfo) (purpose : Purpose) : outcome ValidationError PartialBackup :=
  let '(proto.mkBackupInfo version backupTimeMs mediaRootBackupKey currentAppVersion firstAppVersion _) := value in
  media_root_backup_key ← ok_or (ValidationError_BackupInfoError (MetadataError_InvalidMediaRootBackupKey (length mediaRootBackupKey)))
                            (try_array 32 mediaRootBackupKey);
  backup_time ← map_err (fun e => ValidationError_BackupInfoError (MetadataError_InvalidTimestamp e))
                  (Timestamp_from_millis backupTimeMs "BackupInfo.backupTimeMs");
  Ok (mkPartialBackup (mkBackupMeta version backup_time (mkBackupKey media_root_backup_key) currentAppVersion firstAppVersion purpose)
        None ∅ (mkChatsData ∅ [] 0) (MList_default M) ∅ [] [] 0).

Definition add_account_data (account_data_ : proto.AccountData) : Prelude.M PartialBackup ValidationError () :=
  b ← get;
  _ ← lift (guard_err (is_some (account_data b)) ValidationError_MultipleAccountData);
  d ← lift (map_err ValidationError_AccountData (AccountData_try_from (M := M) color_reference from_color account_data_));
  put (set_account_data (Some d) b).

Definition add_recipient (recipient : proto.Recipient) : Prelude.M PartialBackup RecipientFrameError () :=
  b ← get;
  let id := proto.Recipient_id recipient in
  let err_with_id := mkRecipientFrameError id in
  _ ← lift (guard_err (id =? 0) (err_with_id RecipientError_InvalidId));
  recipient ← lift (map_err err_with_id (Destination_try_from (lookup_pair b) recipient));
  match recipients b !! id with
  | Some _ => throw (err_with_id RecipientError_DuplicateRecipient)
  | None => put (set_recipients (<[id := from_destination (allocations b) recipient]> (recipients b)) (allocations b + 1) b)
  end.

Definition add_chat (chat : proto.Chat) : Prelude.M PartialBackup ChatFrameError () :=
  b ← get;
  let id := proto.Chat_id chat in
  let err_with_id := mkChatFrameError id in
  _ ← lift (guard_err (id =? 0) (err_with_id ChatError_InvalidId));
  chat ← lift (map_err err_with_id (Chat_try_from M (lookup_pair b) (lookup_pin b) (lookup_color b) chat));
  c ← lift (ChatsData_add_chat (chats b) id chat);
  put (set_chats c b).

Definition add_chat_item (chat_item : proto.ChatItem) : Prelude.M PartialBackup ValidationError () :=
  b ← get;
  let chat_id := ChatItem_chatId chat_item in
  let raw_timestamp := ChatItem_dateSent chat_item in
  chat_item_data ← lift (map_err (fun error => ValidationError_ChatError (mkChatFrameError chat_id (ChatError_ChatItem raw_timestamp error)))
                           (ChatItem_try_from M (lookup_pair b) (meta b) chat_item));
  c ← lift (map_err ValidationError_ChatError (ChatsData_add_chat_item (chats b) chat_id chat_item_data));
  put (set_chats c b).

Definition add_ad_hoc_call (call : proto.AdHocCall) : Prelude.M PartialBackup CallFrameError () :=
  b ← get;
  let recipient_id := proto.AdHocCall_recipientId call in
  let call_id := proto.AdHocCall_callId call in
  call ← lift (map_err (mkCallFrameError recipient_id call_id) (AdHocCall_try_from (lookup_pair b) call));
  put (set_ad_hoc_calls (extend (ad_hoc_calls b) [call]) b).

Definition add_sticker_pack (sticker_pack : proto.StickerPack) : Prelude.M PartialBackup StickerError () :=
  b ← get;
  id ← lift (ok_or StickerError_InvalidId (try_array 16 (proto.StickerPack_packId sticker_pack)));
  pack ← lift (map_err (StickerError_PackError id) (StickerPack_try_from M sticker_pack));
  match sticker_packs b !! id with
  | Some _ => throw (StickerError_DuplicateId id)
  | None => put (set_sticker_packs (<[id := pack]> (sticker_packs b)) b)
  end.

Definition add_notification_profile (notification_profile : proto.NotificationProfile) : Prelude.M PartialBackup ValidationError () :=
  b ← get;
  profile ← lift (map_err ValidationError_NotificationProfileError (NotificationProfile_try_from (lookup_pair b) notification_profile));
  put (set_notification_profiles (notification_profiles b ++ [profile]) b).

Definition add_chat_folder (chat_folder : proto.ChatFolder) : Prelude.M PartialBackup ValidationError () :=
  b ← get;
  folder ← lift (map_err ValidationError_ChatFolderError (ChatFolder_try_from (lookup_pair b) chat_folder));
  put (set_chat_folders (chat_folders b ++ [folder]) b).

Definition add_frame_item (item : proto.Frame_Item) : Prelude.M PartialBackup ValidationError () :=
  match item with
  | proto.Frame_account account_data => add_account_data account_data
  | proto.Frame_recipient recipient => map_err_M ValidationError_RecipientError (add_recipient recipient)
  | proto.Frame_chat chat => map_err_M ValidationError_ChatError (add_chat chat)
  | proto.Frame_chatItem chat_item => add_chat_item chat_item
  | proto.Frame_stickerPack sticker_pack => map_err_M ValidationError_StickerError (add_sticker_pack sticker_pack)
  | proto.Frame_adHocCall call => map_err_M ValidationError_CallError (add_ad_hoc_call call)
  | proto.Frame_notificationProfile notification_profile => add_notification_profile notification_profile
  | proto.Frame_chatFolder chat_folder => add_chat_folder chat_folder
  end.
Definition add_frame_ (frame : proto.Frame) : Prelude.M PartialBackup ValidationError () :=
  item ← lift (ok_or ValidationError_EmptyFrame (proto.Frame_item frame));
  add_frame_item item.

(** *** Completion *)

Definition is_all_folder {R} (folder : ChatFolder R) : bool := match folder with ChatFolder_All => true | ChatFolder_Custom _ _ _ _ _ _ _ _ => false end.

Definition check_all_folder (folders : list (ChatFolder RecipientReference)) : outcome CompletionError () :=
  match folders with
  | [] => Ok tt
  | _ =>
      match length (List.filter is_all_folder folders) with
      | 0%nat => Err CompletionError_MissingAllChatFolder
      | 1%nat => Ok tt
      | _ => Err CompletionError_DuplicateAllChatFolder
      end
  end.

(** The recipients in the order of [IntMap::iter]. *)
Definition recipient_entries (r : gmap RecipientId RecipientData) : list (RecipientId * MinimalRecipientData) :=
  (fun '(id, d) => (id, as_minimal d)) <$> intmap_iter r.

Definition CompletedBackup_try_from (value : PartialBackup) : outcome CompletionError CompletedBackup :=
  let '(mkPartialBackup meta account_data recipients chats ad_hoc_calls sticker_packs notification_profiles chat_folders _) := value in
  account_data ← ok_or CompletionError_MissingAccountData account_data;
  _ ← check_all_folder chat_folders;
  _ ← check_for_duplicate_recipients (recipient_entries recipients);
  Ok (mkCompletedBackup meta account_data recipients chats ad_hoc_calls sticker_packs notification_profiles chat_folders).

(** What BackupReader reads a backup into. *)
#[export] Instance backup_contents : BackupContents PartialBackup := {|
  BackupInfo := proto.BackupInfo;
  Frame := proto.Frame;
  FrameError := ValidationError;
  BackupReader.CompletionError := CompletionError;
  Completed := CompletedBackup;
  PartialBackup_new := PartialBackup_new_;
  add_frame := add_frame_;
  try_complete := CompletedBackup_try_from
|}.
End Backup.
