(* ===== verification/BackupStateSpec.v ===== *)
(** * BackupStateSpec: theorems about the contents of a backup
    (rust/message-backup/src/backup.rs and backup/)

    Two logics for fallible functions, one about a run ([post]) and one about
    two runs ([agree]), in both of which nothing panics; with them the
    validators are shown total, and the two methods of keeping a backup are shown to
    accept the same frames.  Then what a completed backup has, the
    invariant of a backup that frames are added to and what its chat items are. *)

From Stdlib Require Import Ascii SpecFloat.
From stdpp Require Import strings.
From S2P Require Import Prelude Types Primitives ServiceId Curve IdentityKey Ristretto Sho Poksho Usernames UsernamesSpec AccountKeys BackupReader.
From S2P Require Import BackupProto BackupData BackupMessages BackupChats BackupState.
Open Scope string_scope.
Open Scope list_scope.
Open Scope Z_scope.

(** ** The logic of one run *)

Definition post {E A} (Q : A -> Prop) (m : outcome E A) : Prop :=
  match m with Ok a => Q a | Err _ => True | Panic => False end.
Abbreviation total := (post (fun _ => True)).

Section post_rules.
Context {E F A B : Type}.

Lemma post_weaken (Q Q' : A -> Prop) (m : outcome E A) : post Q m -> (forall a, Q a -> Q' a) -> post Q' m.
Proof. destruct m; cbn; auto. Qed.
Lemma post_Ok (Q : A -> Prop) a : Q a -> post Q (Ok (E := E) a).
Proof. done. Qed.
Lemma post_bind (Q : A -> Prop) (Q' : B -> Prop) (m : outcome E A) (k : A -> outcome E B) :
  post Q m -> (forall a, Q a -> post Q' (k a)) -> post Q' (m ≫= k).
Proof. destruct m; cbn; auto. Qed.
Lemma total_bind (m : outcome E A) (Q' : B -> Prop) (k : A -> outcome E B) :
  total m -> (forall a, m = Ok a -> post Q' (k a)) -> post Q' (m ≫= k).
Proof. destruct m; cbn; auto. Qed.
Lemma post_fmap (Q : B -> Prop) (f : A -> B) (m : outcome E A) : post (fun a => Q (f a)) m -> post Q (f <$> m).
Proof. by destruct m. Qed.
Lemma post_map_err (Q : A -> Prop) (f : E -> F) (m : outcome E A) : post Q m -> post Q (map_err f m).
Proof. by destruct m. Qed.
Lemma post_ok_or (Q : A -> Prop) (e : E) (o : option A) : (forall a, o = Some a -> Q a) -> post Q (ok_or e o).
Proof. destruct o; cbn; auto. Qed.
Lemma post_guard (Q : () -> Prop) b (e : E) : (b = false -> Q tt) -> post Q (guard_err b e).
Proof. destruct b; cbn; auto. Qed.
Lemma post_transpose (Q : option B -> Prop) (f : A -> outcome E B) (o : option A) :
  Q None -> (forall a, o = Some a -> post (fun b => Q (Some b)) (f a)) -> post Q (transpose_map f o).
Proof. intros HN HS. destruct o as [a|]; [|done]. specialize (HS a eq_refl). cbn [transpose_map]. by destruct (f a). Qed.
Lemma total_transpose (f : A -> outcome E B) (o : option A) : (forall a, o = Some a -> total (f a)) -> total (transpose_map f o).
Proof. intros H. by apply post_transpose. Qed.
End post_rules.
Lemma post_mapM {E A B} (Q : A -> B -> Prop) (f : A -> outcome E B) (l : list A) :
  (forall a, a ∈ l -> post (Q a) (f a)) -> post (Forall2 Q l) (mapM f l).
Proof.
  induction l as [|a l IH]; intros Hf; [by constructor|]. cbn [mapM].
  apply (post_bind (Q a)); [apply Hf; by left|]. intros b Hb.
  apply (post_bind (Forall2 Q l)); [apply IH; intros a' Ha'; apply Hf; by right|]. intros bs Hbs. by constructor.
Qed.
Lemma total_mapM {E A B} (f : A -> outcome E B) (l : list A) : (forall a, a ∈ l -> total (f a)) -> total (mapM f l).
Proof. intros Hf. eapply post_weaken; [by apply (post_mapM (fun _ _ => True))|done]. Qed.
Lemma total_likely_empty {E A B} (f : list A -> outcome E (list B)) (l : list A) : total (f l) -> total (likely_empty l f).
Proof. by destruct l. Qed.

(** Totality of code by its structure; [total] holds the lemmas of the functions it calls. *)
Create HintDb total discriminated.
Ltac total_step :=
  match goal with
  | |- post _ (_ ≫= _) => apply total_bind; [|intros ?a ?Ha]
  | |- post _ (_ <$> _) => apply post_fmap
  | |- post _ (map_err _ _) => apply post_map_err
  | |- post _ (ok_or _ _) => apply post_ok_or; intros
  | |- post _ (guard_err _ _) => apply post_guard; intros
  | |- post _ (transpose_map _ _) => apply total_transpose; intros ?a ?Ha
  | |- post _ (mapM _ _) => apply total_mapM; intros ?a ?Ha
  | |- post _ (likely_empty _ _) => apply total_likely_empty
  | |- post _ (Ok _) => exact I
  | |- post _ (Err _) => exact I
  | |- post _ (match ?x with _ => _ end) => destruct x eqn:?
  | |- True => exact I
  end.
Ltac solve_total := repeat first [progress cbv beta iota zeta | total_step | solve [eauto with total nocore]].

(** ** The leaves: names, keys and times *)

Section leaves.
Context `{P : Primitives} {H256 : Sha256} {RI : Ristretto}.

Lemma parse_digits_total r s : total (parse_digits r s) /\ parse_digits r s <> Err IntEmpty /\ parse_digits r s <> Err IntZero.
Proof.
  revert r. induction s as [|c s IH]; intros r; cbn [parse_digits]; [done|].
  destruct (char_digit c) as [x|]; cbn [ok_or mbind outcome_bind]; [|done].
  destruct (_ <? _); [done|]. destruct (_ <? _); [done|]. apply IH.
Qed.

Lemma u64_from_str_total c s : total (u64_from_str (String c s)) /\ u64_from_str (String c s) <> Err IntEmpty.
Proof.
  assert (total (parse_digits 0 (String c s)) /\ parse_digits 0 (String c s) <> Err IntEmpty) by (split; apply parse_digits_total).
  assert (total (parse_digits 0 s) /\ parse_digits 0 s <> Err IntEmpty) by (split; apply parse_digits_total).
  unfold u64_from_str. repeat case_match; done.
Qed.

Lemma validate_discriminator_total s : total (validate_discriminator s).
Proof.
  destruct s as [|c s]; [done|]. cbn [validate_discriminator]. destruct (negb _); [done|].
  apply total_bind.
  - destruct (u64_from_str_total c s) as [H1 H2]. by destruct (u64_from_str (String c s)) as [|[]|].
  - intros n _. destruct (n =? 0); [done|]. cbn [String.length]. by repeat case_match.
Qed.

Lemma make_scalars_total nick n : nick <> "" -> total (make_scalars nick n).
Proof.
  intros Hn. unfold make_scalars. apply total_bind; [|done]. unfold nickname_scalar.
  rewrite bool_decide_eq_false_2 by done. apply total_bind; [by destruct (mapM _ _)|].
  intros b Hb%ok_or_Ok. destruct (Nat.ltb_spec MAX_NICKNAME_LENGTH (length b)) as [|Hl]; [done|].
  unfold to_base_37_scalar. rewrite (proj2 (Nat.leb_le _ _)) by lia. cbn [negb].
  destruct b as [|x b]; [|done]. apply length_mapM in Hb. rewrite list_ascii_length in Hb. by destruct nick.
Qed.

Lemma Username_new_total s : total (Username_new s).
Proof.
  unfold Username_new. apply total_bind; [by destruct (rsplit_once _ s)|]. intros [nick d] _.
  unfold from_parts_without_soft_limit. apply total_bind; [by destruct nick as [|c ?]; [|cbn; destruct (is_ascii_digit c)]|].
  intros [] Hp. apply total_bind; [apply validate_discriminator_total|]. intros n _.
  apply total_bind; [|done]. apply make_scalars_total. rewrite lowercase_nonempty. intros ->. done.
Qed.

Lemma IdentityKey_decode_total b : total (IdentityKey_decode b).
Proof.
  unfold IdentityKey_decode. solve_total. unfold PublicKey_deserialize, KeyType_try_from. by repeat (case_match; cbn).
Qed.

(** Times: a timestamp is a number of milliseconds. *)
Lemma Timestamp_post millis c : post (fun t => system_time t = millis * NANOS_PER_MILLI /\ millis <= MAX_SAFE_TIMESTAMP_MS) (Timestamp_from_millis millis c).
Proof.
  unfold Timestamp_from_millis, guard_err, system_time_add, EXPECTED_RANGE_END_MS, MAX_SAFE_TIMESTAMP_MS, NANOS_PER_MILLI, NANOS_PER_SEC.
  destruct (Z.ltb_spec 4102444800000 millis), (Z.ltb_spec (100000000 * 1000 * 60 * 60 * 24) millis); cbn [andb mbind outcome_bind]; [done|..].
  all: rewrite (proj2 (Z.ltb_lt _ _)) by (apply Z.div_lt_upper_bound; lia); cbn; lia.
Qed.
Lemma Timestamp_total millis c : total (Timestamp_from_millis millis c).
Proof. eapply post_weaken; [apply Timestamp_post|done]. Qed.
Lemma TimestampOrForever_total millis c : total (TimestampOrForever_from_millis millis c).
Proof. unfold TimestampOrForever_from_millis. case_match; [done|]. apply post_fmap. eapply post_weaken; [apply Timestamp_post|done]. Qed.
Lemma chat_item_time_total millis c : total (chat_item_time millis c).
Proof. apply post_map_err, Timestamp_total. Qed.
Lemma distinct_ids_total {E A} dup (one : Z -> outcome E A) ids seen : (forall id, total (one id)) -> total (distinct_ids dup one ids seen).
Proof. intros H. revert seen. induction ids; intros seen; cbn [distinct_ids]; solve_total; auto. Qed.
End leaves.
#[export] Hint Resolve Username_new_total IdentityKey_decode_total Timestamp_total TimestampOrForever_total chat_item_time_total : total.

(** ** The validators that look up nothing are total *)

Ltac unfold_head :=
  match goal with |- post _ ?m => let h := (let rec head t := lazymatch t with ?f _ => head f | _ => t end in head m) in unfold h end.
Ltac by_structure := intros; unfold_head; solve_total.

Section totals.
Context `{P : Primitives} {H256 : Sha256} {RI : Ristretto} `{G : Graphemes} `{IM : IntMapIter} `{RP : ReceiptPresentations}.

Lemma CallLink_total x : total (CallLink_try_from x).
Proof. by_structure. Qed.
Lemma member_service_id_total w b : total (member_service_id w b).
Proof. by_structure. Qed.
Lemma member_aci_total w b : total (member_aci w b).
Proof. unfold member_aci, member_service_id. solve_total. unfold SpecificServiceId_try_from. by repeat case_match. Qed.
Lemma Role_total r : total (Role_try_from r).
Proof. by_structure. Qed.
Lemma member_timestamp_total m c : total (member_timestamp m c).
Proof. by_structure. Qed.
#[local] Hint Resolve member_service_id_total member_aci_total Role_total member_timestamp_total : total.
Lemma GroupMember_total x : total (GroupMember_try_from x).
Proof. by_structure. Qed.
Lemma GroupMemberPendingProfileKey_total x : total (GroupMemberPendingProfileKey_try_from x).
Proof. by_structure. Qed.
Lemma GroupMemberPendingAdminApproval_total x : total (GroupMemberPendingAdminApproval_try_from x).
Proof. by_structure. Qed.
Lemma GroupMemberBanned_total x : total (GroupMemberBanned_try_from x).
Proof. by_structure. Qed.
#[local] Hint Resolve GroupMember_total GroupMemberPendingProfileKey_total GroupMemberPendingAdminApproval_total GroupMemberBanned_total : total.
Lemma GroupSnapshot_total x : total (GroupSnapshot_try_from x).
Proof. unfold GroupSnapshot_try_from, title_blob, description_blob, timer_blob, access_required, invite_link_access. solve_total. Qed.
#[local] Hint Resolve GroupSnapshot_total : total.
Lemma GroupData_total x : total (GroupData_try_from x).
Proof. by_structure. Qed.
Lemma ContactData_total x : total (ContactData_try_from x).
Proof. unfold ContactData_try_from, contact_username, contact_registration, contact_identity_state, contact_nickname. solve_total. Qed.
Lemma IndividualCall_total x : total (IndividualCall_try_from x).
Proof. by_structure. Qed.

(** Messages. *)
Lemma TransitTierLocator_total x : total (TransitTierLocator_try_from x).
Proof. by_structure. Qed.
Lemma integrity_check_total i t k : total (integrity_check i t k).
Proof. by_structure. Qed.
#[local] Hint Resolve TransitTierLocator_total integrity_check_total : total.
Lemma LocatorInfo_total x : total (LocatorInfo_try_from x).
Proof. by_structure. Qed.
#[local] Hint Resolve LocatorInfo_total : total.
Lemma Locator_total x : total (Locator_try_from x).
Proof. by_structure. Qed.
#[local] Hint Resolve Locator_total : total.
Lemma FilePointer_total x : total (FilePointer_try_from x).
Proof. by_structure. Qed.
#[local] Hint Resolve FilePointer_total : total.
Lemma MessageAttachment_total x : total (MessageAttachment_try_from x).
Proof. by_structure. Qed.
Lemma StickerPack_total M x : total (StickerPack_try_from M x).
Proof. by_structure. Qed.
Lemma MessageSticker_total x : total (MessageSticker_try_from x).
Proof. by_structure. Qed.
Lemma TextRange_total x : total (TextRange_try_from x).
Proof. by_structure. Qed.
#[local] Hint Resolve MessageAttachment_total TextRange_total : total.
Lemma MessageText_total x : total (MessageText_try_from x).
Proof. by_structure. Qed.
#[local] Hint Resolve MessageText_total : total.
Lemma standard_text_total x : total (standard_text x).
Proof. by_structure. Qed.
Lemma LinkPreview_total x : total (LinkPreview_try_from x).
Proof. by_structure. Qed.
Lemma GiftBadge_total x : total (GiftBadge_try_from x).
Proof. unfold GiftBadge_try_from. solve_total. Qed.
Lemma Identification_total x : total (Identification_try_from x).
Proof. by_structure. Qed.
#[local] Hint Resolve Identification_total : total.
Lemma Transaction_total x : total (Transaction_try_from x).
Proof. by_structure. Qed.
#[local] Hint Resolve Transaction_total : total.
Lemma TransactionDetails_total x : total (TransactionDetails_try_from x).
Proof. unfold TransactionDetails_try_from, FailedTransaction_try_from. solve_total. Qed.
#[local] Hint Resolve TransactionDetails_total : total.
Lemma PaymentNotification_total x : total (PaymentNotification_try_from x).
Proof. by_structure. Qed.
Lemma QuotedAttachment_total x : total (QuotedAttachment_try_from x).
Proof. by_structure. Qed.
Lemma ContactAttachment_total x : total (ContactAttachment_try_from x).
Proof. unfold ContactAttachment_try_from, card_name_check, card_phone_check, card_email_check, card_address_check. solve_total. Qed.
Lemma validate_poll_string_len_total s d : total (validate_poll_string_len s d).
Proof. by_structure. Qed.
Lemma validate_unique_voters_total ids : total (validate_unique_voters ids).
Proof. by_structure. Qed.
#[local] Hint Resolve validate_poll_string_len_total : total.
Lemma PollTerminate_total x : total (PollTerminate_try_from x).
Proof. by_structure. Qed.

(** Group changes: the branch of [unreachable!] is not reached. *)
Lemma field_total {T S} `{ValidateFrom T S} m f (v : T) : total (validate_from v) -> total (field m f v).
Proof. apply post_map_err. Qed.
Lemma validate_option_aci_total v : total (validate_option_aci v).
Proof. by_structure. Qed.
Lemma validate_aci_total v : total (validate_aci v).
Proof. by_structure. Qed.
Lemma validate_service_id_total v : total (validate_service_id v).
Proof. by_structure. Qed.
Lemma validate_nonzero_total v : total (validate_nonzero v).
Proof. by_structure. Qed.
Lemma validate_nothing_total {T} (v : T) : total (validate_nothing v).
Proof. by_structure. Qed.
Lemma validate_access_level_total v : total (validate_access_level v).
Proof. by_structure. Qed.
Lemma validate_invitees_total v : total (validate_invitees v).
Proof. unfold validate_invitees, Invitee_try_from. solve_total. Qed.
Lemma validate_duration_total v : total (validate_duration v).
Proof. by_structure. Qed.
#[local] Hint Resolve field_total validate_option_aci_total validate_aci_total validate_service_id_total validate_nonzero_total
  validate_nothing_total validate_access_level_total validate_invitees_total validate_duration_total : total.
Lemma GroupMemberAddedUpdate_post x :
  post (fun u => exists a b c d, u = GroupChatUpdate_GroupMemberAddedUpdate a b c d) (GroupMemberAddedUpdate_try_from x).
Proof. destruct x. unfold GroupMemberAddedUpdate_try_from. repeat (apply total_bind; [solve_total|intros ? _]). cbn. eauto. Qed.
Lemma GroupChatUpdate_total x : total (GroupChatUpdate_try_from x).
Proof.
  destruct x as [[]|[]|[]|[]|[]|[]|[]|[]|[]|[]|[]|[]|[]|[]|[]|[]|[]|m|[]|[]|[]|[]|[]|[]|[]|[]|[]|[]|[]|[]|[]|[]|[]|[]].
  18: { cbn [GroupChatUpdate_try_from]. eapply post_bind; [apply GroupMemberAddedUpdate_post|].
        intros r (a & b & c & d & ->). by case_match. }
  all: cbn [GroupChatUpdate_try_from]; unfold_head; solve_total.
Qed.
#[local] Hint Resolve GroupChatUpdate_total : total.
Lemma group_changes_total i l : total (group_changes i l).
Proof. revert i. induction l; intros i; cbn [group_changes]; unfold group_change; solve_total; auto. Qed.
Lemma SimpleChatUpdate_total x : total (SimpleChatUpdate_try_from x).
Proof. unfold SimpleChatUpdate_try_from. by case_match. Qed.
Lemma validate_author_total {R} (u : UpdateMessage R) a : total (UpdateMessage_validate_author u a).
Proof. by_structure. Qed.
Lemma update_recipient_total {R} (u : UpdateMessage R) c : total (UpdateMessage_validate_chat_recipient u c).
Proof. by_structure. Qed.

(** Colors, days and the account. *)
Lemma Color_total x : total (Color_try_from x).
Proof. by_structure. Qed.
#[local] Hint Resolve Color_total : total.
Lemma CustomColor_total x : total (CustomColor_try_from x).
Proof. unfold CustomColor_try_from, CustomChatColor_try_from, BubbleGradientColor_new. solve_total. Qed.
Lemma Wallpaper_total M x : total (Wallpaper_try_from M x).
Proof. by_structure. Qed.
Lemma ClockTime_total x : total (ClockTime_try_from x).
Proof. unfold ClockTime_try_from. destruct (Z.leb_spec 2400 x); [done|]. case_match; [done|]. by rewrite (proj2 (Z.ltb_lt _ _)) by lia. Qed.
Lemma profile_days_total l seen : total (profile_days l seen).
Proof. revert seen. induction l; intros seen; cbn [profile_days]; unfold DayOfWeek_try_from; solve_total; auto. Qed.
Lemma validate_all_chat_folder_total {R} x : enum_value_or_default (proto.ChatFolder_folderType x) = proto.ChatFolder_FolderType_ALL ->
  total (validate_all_chat_folder (R := R) x).
Proof. destruct x as [? ? ? ? ? [[]|] ? ? ?]; try done. intros _. unfold validate_all_chat_folder, folder_id_check. solve_total. Qed.
Lemma Subscription_total x : total (Subscription_try_from x).
Proof. by_structure. Qed.
Lemma IapSubscriberData_total x : total (IapSubscriberData_try_from x).
Proof. by_structure. Qed.
Lemma AndroidSpecificSettings_total x : total (AndroidSpecificSettings_try_from x).
Proof. by_structure. Qed.
Lemma AutoDownloadSettings_total x : total (AutoDownloadSettings_try_from x).
Proof. unfold AutoDownloadSettings_try_from, AutoDownloadOption_try_from. solve_total. Qed.
Lemma UsernameData_total u l : total (UsernameData_try_from u l).
Proof. unfold UsernameData_try_from, UsernameLink_try_from. solve_total. Qed.
Lemma backup_level_total x : total (backup_level x).
Proof. by_structure. Qed.
Lemma Duration_from_mins_total {E} m : m <= u32_max -> total (Duration_from_mins (E := E) m).
Proof. intros Hm. unfold Duration_from_mins. by rewrite (proj2 (Z.leb_le _ _)) by (unfold u32_max, u64_max in *; lia). Qed.
End totals.
#[export] Hint Resolve CallLink_total GroupData_total ContactData_total IndividualCall_total FilePointer_total MessageAttachment_total
  StickerPack_total MessageSticker_total MessageText_total standard_text_total LinkPreview_total GiftBadge_total PaymentNotification_total
  QuotedAttachment_total ContactAttachment_total validate_poll_string_len_total validate_unique_voters_total PollTerminate_total
  group_changes_total SimpleChatUpdate_total validate_author_total update_recipient_total Color_total CustomColor_total Wallpaper_total
  ClockTime_total profile_days_total Subscription_total IapSubscriberData_total AndroidSpecificSettings_total AutoDownloadSettings_total
  UsernameData_total backup_level_total : total.

(** ** The logic of two runs

    They end in related values or in the same error, and neither panics. *)

Definition agree {E A B} (Q : A -> B -> Prop) (x : outcome E A) (y : outcome E B) : Prop :=
  match x, y with Ok a, Ok b => Q a b | Err e, Err e' => e = e' | _, _ => False end.
Abbreviation any := (fun _ _ => True).

Section agree_rules.
Context {E F A A' B B' : Type}.

Lemma agree_weaken (Q Q' : A -> A' -> Prop) (x : outcome E A) (y : outcome E A') :
  agree Q x y -> (forall a b, Q a b -> Q' a b) -> agree Q' x y.
Proof. destruct x, y; cbn; intros; try done; auto. Qed.
Lemma agree_bind (Q : A -> A' -> Prop) (Q' : B -> B' -> Prop) (x : outcome E A) (y : outcome E A') k k' :
  agree Q x y -> (forall a b, Q a b -> agree Q' (k a) (k' b)) -> agree Q' (x ≫= k) (y ≫= k').
Proof. destruct x, y; cbn; intros; try done; auto. Qed.
Lemma agree_bind_same (Q : B -> B' -> Prop) (x : outcome E A) (k : A -> outcome E B) (k' : A -> outcome E B') :
  total x -> (forall a, x = Ok a -> agree Q (k a) (k' a)) -> agree Q (x ≫= k) (x ≫= k').
Proof. destruct x; cbn; intros; try done; auto. Qed.
Lemma agree_same (Q : A -> A -> Prop) (x : outcome E A) : total x -> (forall a, x = Ok a -> Q a a) -> agree Q x x.
Proof. destruct x; cbn; intros; try done; auto. Qed.
Lemma agree_eq (x y : outcome E A) : x = y -> total y -> agree (fun _ _ => True) x y.
Proof. intros ->. by destruct y. Qed.
Lemma agree_fmap (Q : B -> B' -> Prop) (f : A -> B) (f' : A' -> B') (x : outcome E A) (y : outcome E A') :
  agree (fun a b => Q (f a) (f' b)) x y -> agree Q (f <$> x) (f' <$> y).
Proof. by destruct x, y. Qed.
Lemma agree_map_err (Q : A -> A' -> Prop) (f : E -> F) (x : outcome E A) (y : outcome E A') : agree Q x y -> agree Q (map_err f x) (map_err f y).
Proof. destruct x, y; cbn; try done; congruence. Qed.
Lemma agree_ok_or (Q : A -> A' -> Prop) (e : E) (x : option A) (y : option A') : option_Forall2 Q x y -> agree Q (ok_or e x) (ok_or e y).
Proof. by destruct 1. Qed.
End agree_rules.

Lemma agree_transpose {E A B B'} (Q : B -> B' -> Prop) (f : A -> outcome E B) (g : A -> outcome E B') (o : option A) :
  (forall a, o = Some a -> agree Q (f a) (g a)) -> agree (option_Forall2 Q) (transpose_map f o) (transpose_map g o).
Proof. destruct o as [a|]; intros H; [|constructor]. specialize (H a eq_refl). cbn [transpose_map]. apply agree_fmap. eapply agree_weaken; [done|by constructor]. Qed.
Lemma agree_mapM {E A B B'} (Q : B -> B' -> Prop) (f : A -> outcome E B) (g : A -> outcome E B') (l : list A) :
  (forall a, a ∈ l -> agree Q (f a) (g a)) -> agree (Forall2 Q) (mapM f l) (mapM g l).
Proof.
  induction l as [|a l IH]; intros Hf; [by constructor|]. cbn [mapM].
  apply (agree_bind Q); [apply Hf; by left|]. intros b b' Hb.
  apply (agree_bind (Forall2 Q)); [apply IH; intros a' Ha'; apply Hf; by right|]. by constructor.
Qed.
Lemma agree_likely_empty {E I B B'} (Q : B -> B' -> Prop) (f : list I -> outcome E (list B)) (g : list I -> outcome E (list B')) (l : list I) :
  agree (Forall2 Q) (f l) (g l) -> agree (Forall2 Q) (likely_empty l f) (likely_empty l g).
Proof. by destruct l; [constructor|]. Qed.
Lemma agree_distinct_ids {E B B'} (Q : B -> B' -> Prop) dup (f : Z -> outcome E B) (g : Z -> outcome E B') ids seen :
  (forall id, agree Q (f id) (g id)) -> agree (Forall2 Q) (distinct_ids dup f ids seen) (distinct_ids dup g ids seen).
Proof.
  intros H. revert seen. induction ids as [|id ids IH]; intros seen; cbn [distinct_ids]; [constructor|].
  apply agree_bind_same; [by apply post_guard|]. intros _ _. apply (agree_bind Q); [done|]. intros b b' Hb.
  apply (agree_bind (Forall2 Q)); [apply IH|]. by constructor.
Qed.

Definition both {A B} (o : option A) (o' : option B) : Prop := option_Forall2 any o o'.
Lemma related_both {A B} {Q : A -> B -> Prop} {o o'} : option_Forall2 Q o o' -> both o o'.
Proof. by destruct 1; constructor. Qed.

(** *** Validators under two lookups *)

Section lookups.
Context {R R' : Type} (same : R -> R' -> Prop) (l : RecipientId -> option (MinimalRecipientData * R)) (l' : RecipientId -> option (MinimalRecipientData * R')).
Definition lookups_agree : Prop := forall id, option_Forall2 (fun x y => x.1 = y.1 /\ same x.2 y.2) (l id) (l' id).

Lemma agree_lookup {E B B'} (Q : B -> B' -> Prop) (e : E) id (k : MinimalRecipientData * R -> outcome E B) (k' : MinimalRecipientData * R' -> outcome E B') :
  lookups_agree -> (forall d r r', same r r' -> agree Q (k (d, r)) (k' (d, r'))) -> agree Q (ok_or e (l id) ≫= k) (ok_or e (l' id) ≫= k').
Proof.
  intros Hl Hk. eapply agree_bind; [apply agree_ok_or, (Hl id)|]. intros [d r] [d' r'] [[= ->] Hs]. by apply Hk.
Qed.
End lookups.

Create HintDb agree discriminated.
Ltac agree_step :=
  match goal with
  | |- agree _ (ok_or _ (_ ?id) ≫= _) (ok_or _ (_ ?id) ≫= _) => eapply agree_lookup; [eassumption|intros ?d ?r ?r' ?Hr]
  | |- agree _ (?x ≫= _) (?x ≫= _) => apply agree_bind_same; [solve [solve_total]|intros ?a ?Ha]
  | |- agree _ (_ ≫= _) (_ ≫= _) => eapply agree_bind; [solve [repeat agree_step]|intros ?a ?b ?Hab]
  | |- agree _ (_ <$> _) (_ <$> _) => apply agree_fmap
  | |- agree _ (map_err _ _) (map_err _ _) => apply agree_map_err
  | |- agree _ (transpose_map _ _) (transpose_map _ _) => eapply agree_transpose; intros ?a ?Ha
  | |- agree _ (mapM _ _) (mapM _ _) => eapply agree_mapM; intros ?a ?Ha
  | |- agree _ (likely_empty _ _) (likely_empty _ _) => eapply agree_likely_empty
  | |- agree _ (distinct_ids _ _ _ _) (distinct_ids _ _ _ _) => eapply agree_distinct_ids; intros ?id
  | |- agree _ (Err _) (Err _) => reflexivity
  | |- agree _ (match ?x with _ => _ end) (match ?x with _ => _ end) => destruct x eqn:?
  | |- agree _ _ _ => solve [eauto with agree nocore]
  | |- agree _ ?x ?x => apply agree_same; [solve [solve_total]|intros ?a ?Ha]
  | |- agree _ (Ok _) (Ok _) => unfold agree
  end.
Ltac solve_agree := repeat (cbv beta iota zeta; agree_step); try done.

(** The u64 fields that the code computes with are in their range, as those of a parsed message are. *)
Fixpoint item_in_range (i : proto.ChatItem) : bool :=
  let '(proto.mkChatItem _ _ dateSent expireStartDate expiresInMs revisions _ _ _) := i in
  (0 <=? dateSent) && match expireStartDate with Some e => 0 <=? e | None => true end && match expiresInMs with Some e => (0 <=? e) && (e <=? u64_max) | None => true end && forallb item_in_range revisions.
(** The largest time that a backup can hold. *)
Definition MAX_TIME : Z := MAX_SAFE_TIMESTAMP_MS * NANOS_PER_MILLI.
Definition meta_in_range (m : BackupMeta) : Prop := system_time (backup_time m) <= MAX_TIME.

Lemma chat_item_induction (Q : proto.ChatItem -> Prop) :
  (forall a b c d e revisions f g h, (forall r, r ∈ revisions -> Q r) -> Q (proto.mkChatItem a b c d e revisions f g h)) -> forall i, Q i.
Proof.
  intros H. refine (fix go i := _). destruct i as [a b c d e revisions f g h]. apply H.
  assert (Forall Q revisions) as Hf by (clear -go; induction revisions as [|r rs IH]; constructor; [apply go|exact IH]).
  by rewrite Forall_forall in Hf.
Qed.

Section agreement.
Context `{P : Primitives} {H256 : Sha256} {RI : Ristretto} `{G : Graphemes} `{IM : IntMapIter} `{RP : ReceiptPresentations}.
Context {R R' : Type} (same : R -> R' -> Prop) (l : RecipientId -> option (MinimalRecipientData * R)) (l' : RecipientId -> option (MinimalRecipientData * R')).
Context (Hl : lookups_agree same l l').

(** Recipients and calls. *)
Lemma Destination_agree x :
  agree (fun d d' => MinimalRecipientData_from d = MinimalRecipientData_from d') (Destination_try_from l x) (Destination_try_from l' x).
Proof.
  unfold Destination_try_from. destruct x as [id d]. apply agree_bind_same; [solve_total|]. intros a _.
  destruct a as [c|g|[did item]|[ac]|[]|c]; [by solve_agree| by solve_agree| |done|done|by solve_agree].
  apply agree_fmap. unfold DistributionListItem_try_from. apply agree_bind_same; [solve_total|]. intros uuid _.
  apply agree_bind_same; [solve_total|]. intros [t|[n r pm ids]] _; [by solve_agree|].
  apply (agree_bind (Forall2 same)).
  { apply agree_distinct_ids. intros i. unfold list_member. solve_agree. }
  intros m m' Hm. apply (agree_bind (fun _ _ => True)); [|done].
  assert (no_elements m = no_elements m') as He by (by destruct Hm).
  unfold privacy_mode. rewrite He. by repeat (case_match; cbn).
Qed.
Lemma GroupCall_agree x : agree any (GroupCall_try_from l x) (GroupCall_try_from l' x).
Proof. unfold GroupCall_try_from, call_starter, call_ringer. solve_agree. Qed.
Lemma AdHocCall_agree x : agree any (AdHocCall_try_from l x) (AdHocCall_try_from l' x).
Proof. unfold AdHocCall_try_from. solve_agree. Qed.

(** Messages. *)
Lemma Reaction_agree x : agree any (Reaction_try_from l x) (Reaction_try_from l' x).
Proof. unfold Reaction_try_from, reaction_author. solve_agree. Qed.
Lemma ReactionSet_agree x : agree any (ReactionSet_try_from l x) (ReactionSet_try_from l' x).
Proof.
  unfold ReactionSet_try_from. apply agree_fmap. generalize (∅ : gmap Z ()). induction x as [|i x IH]; intros seen; cbn [reactions_loop]; [done|].
  apply agree_bind_same; [solve_total|]. intros _ _. eapply agree_bind; [apply Reaction_agree|]. intros ? ? _.
  by eapply agree_bind; [apply IH|].
Qed.
Lemma Quote_agree x : agree any (Quote_try_from l x) (Quote_try_from l' x).
Proof. unfold Quote_try_from, quote_author, check_length_for_quote. solve_agree. Qed.
#[local] Hint Resolve GroupCall_agree ReactionSet_agree Quote_agree : agree.
Lemma ContactMessage_agree x : agree any (ContactMessage_try_from l x) (ContactMessage_try_from l' x).
Proof. unfold ContactMessage_try_from. solve_agree. Qed.
Lemma StickerMessage_agree x : agree any (StickerMessage_try_from l x) (StickerMessage_try_from l' x).
Proof. unfold StickerMessage_try_from. solve_agree. Qed.
Lemma ViewOnceMessage_agree x :
  agree (fun m m' => vo_attachment m = vo_attachment m') (ViewOnceMessage_try_from l x) (ViewOnceMessage_try_from l' x).
Proof. unfold ViewOnceMessage_try_from. solve_agree. Qed.
Lemma VoiceMessage_agree x : agree any (VoiceMessage_try_from l x) (VoiceMessage_try_from l' x).
Proof. unfold VoiceMessage_try_from. solve_agree. Qed.
Lemma DirectStoryReplyMessage_agree x : agree any (DirectStoryReplyMessage_try_from l x) (DirectStoryReplyMessage_try_from l' x).
Proof. unfold DirectStoryReplyMessage_try_from, check_length_with_long_text_attachment. solve_agree. Qed.
Lemma StandardMessage_agree x : agree any (StandardMessage_try_from l x) (StandardMessage_try_from l' x).
Proof. unfold StandardMessage_try_from, check_length_with_long_text_attachment. solve_agree. Qed.
Lemma PollVote_agree x : agree any (PollVote_try_from l x) (PollVote_try_from l' x).
Proof. unfold PollVote_try_from. solve_agree. Qed.
#[local] Hint Resolve PollVote_agree : agree.
Lemma PollOption_agree x : agree any (PollOption_try_from l x) (PollOption_try_from l' x).
Proof. unfold PollOption_try_from. solve_agree. Qed.
#[local] Hint Resolve PollOption_agree : agree.
Lemma Poll_agree x : agree any (Poll_try_from l x) (Poll_try_from l' x).
Proof. unfold Poll_try_from. solve_agree. Qed.

(** An update message is judged by what is the same in both. *)
Definition same_update (u : UpdateMessage R) (u' : UpdateMessage R') : Prop :=
  match u, u' with
  | Update_Simple a, Update_Simple b => a = b
  | Update_GroupChange _, Update_GroupChange _ | Update_ExpirationTimerChange _, Update_ExpirationTimerChange _
  | Update_ProfileChange _ _, Update_ProfileChange _ _ | Update_ThreadMerge _, Update_ThreadMerge _
  | Update_SessionSwitchover _, Update_SessionSwitchover _ | Update_IndividualCall _, Update_IndividualCall _
  | Update_GroupCall _, Update_GroupCall _ | Update_LearnedProfileUpdate _, Update_LearnedProfileUpdate _
  | Update_PollTerminate _, Update_PollTerminate _ => True
  | _, _ => False
  end.
Lemma UpdateMessage_agree x : agree same_update (UpdateMessage_try_from l x) (UpdateMessage_try_from l' x).
Proof. unfold UpdateMessage_try_from. solve_agree. Qed.
Lemma validate_author_same u u' a : same_update u u' -> UpdateMessage_validate_author u a = UpdateMessage_validate_author u' a.
Proof. by destruct u, u'; cbn; intros; subst. Qed.
Lemma update_recipient_same u u' c : same_update u u' -> UpdateMessage_validate_chat_recipient u c = UpdateMessage_validate_chat_recipient u' c.
Proof. by destruct u, u'; cbn; intros; subst. Qed.
#[local] Hint Resolve ContactMessage_agree StickerMessage_agree ViewOnceMessage_agree VoiceMessage_agree DirectStoryReplyMessage_agree
  StandardMessage_agree Poll_agree UpdateMessage_agree : agree.

Definition same_message {M M'} (m : ChatItemMessage M R) (m' : ChatItemMessage M' R') : Prop :=
  ChatItemMessage_discriminant m = ChatItemMessage_discriminant m' /\
  match m, m' with
  | Message_Update u, Message_Update u' => same_update u u'
  | Message_ViewOnce v, Message_ViewOnce v' => vo_attachment v = vo_attachment v'
  | _, _ => True
  end.
Lemma ChatItemMessage_agree M M' x : agree same_message (ChatItemMessage_try_from M l x) (ChatItemMessage_try_from M' l' x).
Proof.
  unfold ChatItemMessage_try_from, same_message. solve_agree.
  all: eapply agree_weaken; [solve [eauto with agree nocore]|done].
Qed.

Definition same_direction (d : Direction R) (d' : Direction R') : Prop :=
  match d, d' with
  | Incoming s r rd ss, Incoming s' r' rd' ss' => s = s' /\ r = r' /\ rd = rd' /\ ss = ss'
  | Outgoing rs r, Outgoing rs' r' => r = r' /\ Forall2 (fun a b => os_status a = os_status b) rs rs'
  | Directionless, Directionless => True
  | _, _ => False
  end.
Lemma Direction_agree x : agree same_direction (Direction_try_from l x) (Direction_try_from l' x).
Proof.
  unfold Direction_try_from. destruct x as [[]|[s d]|[]]; [by solve_agree| |done].
  apply (agree_bind (Forall2 (fun a b => os_status a = os_status b))); [|intros ? ? ?; solve_agree].
  unfold OutgoingSend_try_from. solve_agree.
Qed.
Lemma author_kind_same id d (dir : Direction R) (dir' : Direction R') : same_direction dir dir' -> author_kind id d dir = author_kind id d dir'.
Proof. by destruct d as [[] []| | | | |], dir, dir'. Qed.
Lemma author_kind_total {T} id d (dir : Direction T) : total (author_kind id d dir).
Proof. by_structure. Qed.
Lemma direction_discriminant_same (dir : Direction R) (dir' : Direction R') : same_direction dir dir' -> Direction_discriminant dir = Direction_discriminant dir'.
Proof. by destruct dir, dir'. Qed.
Lemma started_same (dir : Direction R) (dir' : Direction R') : same_direction dir dir' -> should_have_started dir = should_have_started dir'.
Proof.
  destruct dir, dir'; cbn; try done; [by intros (_ & _ & -> & _)|]. intros [_ H]. induction H as [|a b ? ? Hab _ IH]; [done|]. cbn. by rewrite Hab, IH.
Qed.

(** Chat items. *)
Definition same_item {M M'} (i : ChatItemData M R) (i' : ChatItemData M' R') : Prop :=
  same (ci_author i) (ci_author i') /\ ci_cached_author_kind i = ci_cached_author_kind i' /\
  same_message (ci_message i) (ci_message i') /\ same_direction (ci_direction i) (ci_direction i') /\
  no_elements (ci_revisions i) = no_elements (ci_revisions i') /\ ci_sent_at i = ci_sent_at i' /\ 0 <= system_time (ci_sent_at i) <= MAX_TIME.

Lemma check_expiration_same meta (dir : Direction R) (dir' : Direction R') start expires : same_direction dir dir' ->
  check_expiration meta dir start expires = check_expiration meta dir' start expires.
Proof. intros H. unfold check_expiration. by rewrite (started_same dir dir' H). Qed.
Lemma check_expiration_total {T} meta (dir : Direction T) start expires : meta_in_range meta ->
  (forall t, start = Some t -> system_time t <= MAX_TIME) -> (forall d, expires = Some d -> nanos d <= u64_max * NANOS_PER_MILLI) ->
  total (check_expiration meta dir start expires).
Proof.
  intros Hm Hs He. unfold check_expiration. destruct start as [t|], expires as [d|]; [|done|by solve_total|done].
  specialize (Hs t eq_refl). specialize (He d eq_refl). unfold meta_in_range in Hm.
  assert (forall (E : Type) (t' : Timestamp) (d' : Duration), system_time t' <= MAX_TIME -> nanos d' <= u64_max * NANOS_PER_MILLI ->
    total (Timestamp_add (E := E) t' d')) as Hadd.
  { intros E t' d' Ht' Hd'. apply post_fmap. unfold system_time_add.
    rewrite (proj2 (Z.ltb_lt _ _)); [done|]. apply Z.div_lt_upper_bound; [done|].
    unfold MAX_TIME, MAX_SAFE_TIMESTAMP_MS, u64_max, NANOS_PER_MILLI, NANOS_PER_SEC in *. lia. }
  apply total_bind; [solve_total|]. intros [] Hp. apply total_bind; [by apply Hadd|]. intros expires_at _.
  assert (forall (E : Type) (d' : Duration), d' = Duration_ZERO \/ d' = MAX_REMOTE_BACKUP_DISAPPEARING_MESSAGE_TIME ->
    total (Timestamp_add (E := E) (backup_time meta) d')) as Hb by (intros E d' [-> | ->]; apply Hadd; done).
  destruct (purpose meta); cbn [mbind outcome_bind]; [..|by cbn in Hp].
  all: apply total_bind; [apply Hb; auto|intros ? _; solve_total].
Qed.

Lemma check_update_author_same M M' (m : ChatItemMessage M R) (m' : ChatItemMessage M' R') a : same_message m m' ->
  check_update_author M m a = check_update_author M' m' a.
Proof. intros [Hd Hm]. destruct m, m'; cbn in *; try done. by apply validate_author_same. Qed.
Lemma check_direction_same M M' (d : Direction R) (d' : Direction R') (m : ChatItemMessage M R) (m' : ChatItemMessage M' R') :
  same_direction d d' -> same_message m m' -> check_direction M d m = check_direction M' d' m'.
Proof. intros Hd [Hm _]. by destruct d, d', m, m'. Qed.
Lemma check_view_once_same M M' meta (m : ChatItemMessage M R) (m' : ChatItemMessage M' R') : same_message m m' ->
  check_view_once M meta m = check_view_once M' meta m'.
Proof. intros [Hd Hm]. unfold check_view_once. destruct (purpose meta), m, m'; cbn in *; try done. by rewrite Hm. Qed.
Lemma check_may_have_revisions_same M M' (m : ChatItemMessage M R) (m' : ChatItemMessage M' R') : same_message m m' ->
  check_may_have_revisions M m = check_may_have_revisions M' m'.
Proof. intros [Hd _]. by destruct m, m'. Qed.
Lemma check_revision_agree M M' d d' (m : ChatItemMessage M R) (m' : ChatItemMessage M' R') i i' :
  same_direction d d' -> same_message m m' -> same_item i i' -> agree same_item (check_revision M d m i) (check_revision M' d' m' i').
Proof.
  intros Hd [Hm _] Hi. pose proof Hi as (_ & _ & [Hm' _] & Hd' & He & _). unfold check_revision.
  rewrite (direction_discriminant_same _ _ Hd), (direction_discriminant_same _ _ Hd'), Hm, Hm', He. by solve_agree.
Qed.
#[local] Hint Resolve Direction_agree ChatItemMessage_agree : agree.
Lemma chat_item_time_post t c : 0 <= t -> post (fun t => 0 <= system_time t <= MAX_TIME) (chat_item_time t c).
Proof.
  intros Ht. apply post_map_err. eapply post_weaken; [apply Timestamp_post|]. intros a [-> ?].
  unfold MAX_TIME, NANOS_PER_MILLI in *. lia.
Qed.
Lemma ChatItem_agree M M' meta x : meta_in_range meta -> item_in_range x = true ->
  agree same_item (ChatItem_try_from M l meta x) (ChatItem_try_from M' l' meta x).
Proof.
  intros Hmeta. induction x as [chat author date start expires revisions sms dd item IH] using chat_item_induction. intros Hr.
  cbn [item_in_range] in Hr. rewrite !andb_true_iff in Hr. destruct Hr as [[[Hdate Hstart] He] Hrevs].
  cbn [ChatItem_try_from]. apply agree_bind_same; [solve_total|]. intros details _.
  eapply agree_bind; [apply Direction_agree|]. intros d d' Hd.
  eapply agree_lookup; [done|]. intros data a a' Ha. rewrite (author_kind_same _ _ d d') by done.
  apply agree_bind_same; [apply author_kind_total|]. intros kind _.
  apply agree_bind_same; [solve_total|]. intros i _.
  eapply agree_bind; [apply (ChatItemMessage_agree M M')|]. intros m m' Hm.
  rewrite (check_direction_same M M' d d' m m'), (check_update_author_same M M' m m'), (check_view_once_same M M' meta m m'),
    (check_may_have_revisions_same M M' m m') by done.
  apply agree_bind_same; [unfold check_direction; solve_total|]. intros _ _.
  apply agree_bind_same; [unfold check_update_author; solve_total|]. intros _ _.
  apply agree_bind_same; [unfold check_view_once; solve_total|]. intros _ _.
  apply agree_bind_same; [unfold check_may_have_revisions; solve_total|]. intros _ _.
  apply (agree_bind (Forall2 same_item)).
  { apply agree_likely_empty, agree_mapM. intros r Hin. apply agree_bind_same; [solve_total|]. intros _ _.
    eapply agree_bind; [apply IH; [done|]|intros ? ? Hi; by apply check_revision_agree].
    apply forallb_forall with (x := r) in Hrevs; [done|]. by apply list_elem_of_In. }
  intros rs rs' Hrs. apply agree_bind_same; [solve_total|]. intros sent Hsent.
  apply agree_bind_same; [solve_total|]. intros st Hst.
  rewrite (check_expiration_same meta d d') by done. apply agree_bind_same.
  - apply check_expiration_total; [done| |].
    + intros t ->. destruct start as [z|]; [|done]. cbn [transpose_map] in Hst.
      pose proof (chat_item_time_post z "ChatItem.expireStartDate" ltac:(lia)) as Hp.
      destruct (chat_item_time z _); [|done..]. injection Hst as ->. apply Hp.
    + intros e. destruct expires as [z|]; [|done]. intros [= <-]. cbn. unfold NANOS_PER_MILLI. lia.
  - intros _ _. cbn. split_and!; try done; try (by destruct Hm); try (by destruct Hrs); try (by destruct Hd).
    all: pose proof (chat_item_time_post date "ChatItem.dateSent" ltac:(lia)) as Hp; rewrite Hsent in Hp; apply Hp.
Qed.

Lemma validate_chat_recipient_same M M' is_same is_same' (i : ChatItemData M R) (i' : ChatItemData M' R') r r' kind :
  (forall a a' c c', same a a' -> same c c' -> is_same a c = is_same' a' c') -> same_item i i' -> same r r' ->
  validate_chat_recipient is_same i r kind = validate_chat_recipient is_same' i' r' kind.
Proof.
  intros Hs (Ha & Hk & [Hd Hm] & _) Hr. unfold validate_chat_recipient. rewrite Hk, (Hs _ _ _ _ Ha Hr).
  assert (forall k k' : () -> outcome ChatItemError (), k tt = k' tt -> forall x, x ≫= k = x ≫= k') as Hb by (by intros k k' Hk' [[]| |]).
  apply Hb. destruct (ci_message i), (ci_message i'); try done. by apply update_recipient_same.
Qed.

(** Profiles and folders. *)
Lemma NotificationProfile_agree x : agree any (NotificationProfile_try_from l x) (NotificationProfile_try_from l' x).
Proof. unfold NotificationProfile_try_from, profile_member. solve_agree. Qed.
Lemma ChatFolder_agree x : agree (fun f f' => is_all_folder f = is_all_folder f') (ChatFolder_try_from l x) (ChatFolder_try_from l' x).
Proof.
  unfold ChatFolder_try_from. destruct x as [n a b c d ft inc exc id] eqn:Hx. destruct (enum_value_or_default ft) eqn:Hft; [done| |].
  - destruct ft as [[]|]; try done. unfold validate_all_chat_folder, folder_id_check. by solve_agree.
  - unfold included_member, excluded_member, folder_id_check. by solve_agree.
Qed.

(** Chats. *)
Definition same_chat {M M' CC CC'} (c : ChatData M R CC) (c' : ChatData M' R' CC') : Prop :=
  same (ch_recipient c) (ch_recipient c') /\ ch_cached_recipient_info c = ch_cached_recipient_info c' /\ ch_pinned_order c = ch_pinned_order c'.
Lemma ChatStyle_agree M M' {CC CC'} (c : CustomColorId -> option CC) (c' : CustomColorId -> option CC') x :
  (forall id, both (c id) (c' id)) -> agree any (ChatStyle_try_from_proto (M := M) c x) (ChatStyle_try_from_proto (M := M') c' x).
Proof.
  intros Hc. unfold ChatStyle_try_from_proto. destruct x as [w b d].
  apply (agree_bind any); [eapply agree_weaken; [apply (agree_transpose any)|done]; intros y _|].
  { unfold Wallpaper_try_from. solve_agree. }
  intros ? ? _. apply agree_bind_same; [solve_total|]. intros y _. unfold BubbleColor_try_from.
  apply (agree_bind any); [|done]. destruct y as [[]|p|id]; [done|by solve_agree|].
  apply agree_fmap, (agree_weaken any); [|done]. apply agree_ok_or, Hc.
Qed.
Lemma Chat_agree M M' {CC CC'} p p' (c : CustomColorId -> option CC) (c' : CustomColorId -> option CC') x :
  (forall id, both (c id) (c' id)) -> (forall k, both (p k) (p' k)) -> agree same_chat (Chat_try_from M l p c x) (Chat_try_from M' l' p' c' x).
Proof.
  intros Hc Hp. unfold Chat_try_from. destruct x as [id rid ar pin et mu unread dn style ev]. eapply agree_lookup; [done|]. intros d r r' Hr.
  apply agree_bind_same; [unfold ChatRecipientKind_try_from; solve_total|]. intros info _.
  apply (agree_bind any); [|intros _ _ _].
  { destruct pin as [k|]; [|done]. by destruct (Hp k). }
  apply (agree_bind any).
  { eapply agree_weaken; [apply (agree_transpose any)|done]. intros st _. apply agree_map_err, ChatStyle_agree, Hc. }
  intros st st' _. solve_agree.
Qed.
End agreement.

Section account_agreement.
Context `{P : Primitives} {H256 : Sha256} {RI : Ristretto}.
Context {M M' : Method} {CC CC' D D' : Type} (color : CustomColorId -> D -> CC) (color' : CustomColorId -> D' -> CC')
  (from : CustomChatColor -> D) (from' : CustomChatColor -> D').

Definition same_colors (m : CustomColorMap D) (m' : CustomColorMap D') : Prop := Forall2 (fun a b => a.1 = b.1) m m'.
Lemma custom_colors_agree x m m' : same_colors m m' -> agree same_colors (custom_colors from x m) (custom_colors from' x m').
Proof.
  revert m m'. induction x as [|c x IH]; intros m m' Hm; cbn [custom_colors]; [done|].
  apply agree_bind_same; [solve_total|]. intros [id cc] _. apply agree_bind_same; [solve_total|]. intros _ _.
  apply (agree_bind same_colors); [|intros ? ?; apply IH]. apply agree_ok_or. unfold CustomColorMap_insert.
  assert (existsb (fun '(i, _) => i =? id) m = existsb (fun '(i, _) => i =? id) m') as ->.
  { induction Hm as [|[i a] [j b] m m' Hij _ IHm]; [done|]. cbn in *. by rewrite Hij, IHm. }
  destruct (existsb _ _); constructor. apply Forall2_app; [done|]. by repeat constructor.
Qed.
Lemma CustomColorMap_lookup_both m m' id : same_colors m m' -> both (CustomColorMap_lookup color m id) (CustomColorMap_lookup color' m' id).
Proof.
  unfold CustomColorMap_lookup. induction 1 as [|[i a] [j b] m m' Hij _ IH]; [constructor|]. cbn in *. subst j.
  by destruct (i =? id); [constructor|].
Qed.

Definition settings_in_range (s : proto.AccountData_AccountSettings) : bool :=
  match proto.AccountData_AccountSettings_screenLockTimeoutMinutes s with Some m => m <=? u32_max | None => true end.
Definition account_in_range (x : proto.AccountData) : bool :=
  match proto.AccountData_accountSettings x with Some s => settings_in_range s | None => true end.

Lemma AccountSettings_agree x : settings_in_range x = true ->
  agree (fun a a' => same_colors (as_custom_chat_colors a) (as_custom_chat_colors a'))
    (AccountSettings_try_from (M := M) color from x) (AccountSettings_try_from (M := M') color' from' x).
Proof.
  intros Hx. unfold AccountSettings_try_from. destruct x. unfold settings_in_range in Hx.
  cbn [proto.AccountData_AccountSettings_screenLockTimeoutMinutes] in Hx.
  apply agree_bind_same; [solve_total|]. intros pns _.
  apply (agree_bind same_colors); [apply agree_map_err, custom_colors_agree; constructor|]. intros m m' Hm.
  apply (agree_bind any).
  { eapply agree_weaken; [apply (agree_transpose any)|done]. intros st _. apply agree_map_err, ChatStyle_agree.
    intros id. by apply CustomColorMap_lookup_both. }
  intros ? ? _. do 5 (apply agree_bind_same; [solve_total|]; intros ? _).
  apply agree_bind_same; [|intros ? _; by solve_agree].
  apply total_transpose. intros mins ->. apply Duration_from_mins_total. lia.
Qed.
Lemma AccountData_agree x : account_in_range x = true ->
  agree (fun a a' => same_colors (as_custom_chat_colors (ad_account_settings a)) (as_custom_chat_colors (ad_account_settings a')))
    (AccountData_try_from (M := M) color from x) (AccountData_try_from (M := M') color' from' x).
Proof.
  intros Hx. unfold AccountData_try_from. destruct x. unfold account_in_range in Hx. cbn [proto.AccountData_accountSettings] in Hx.
  apply agree_bind_same; [solve_total|]. intros ? _. apply agree_bind_same; [solve_total|]. intros ? _.
  apply agree_bind_same; [solve_total|]. intros s Hs%ok_or_Ok. rewrite Hs in Hx.
  eapply agree_bind; [by apply AccountSettings_agree|]. intros ? ? ?. by solve_agree.
Qed.
End account_agreement.

(** *** Two handlers *)

Definition agreeM {S S' E} (Q : S -> S' -> Prop) (m : M S E ()) (m' : M S' E ()) (s : S) (s' : S') : Prop :=
  agree any (m s).1 (m' s').1 /\ Q (m s).2 (m' s').2.

Section agreeM_rules.
Context {S S' E : Type} (Q : S -> S' -> Prop) (s : S) (s' : S') (HQ : Q s s').
Lemma agreeM_get (k : S -> M S E ()) (k' : S' -> M S' E ()) : agreeM Q (k s) (k' s') s s' -> agreeM Q (get ≫= k) (get ≫= k') s s'.
Proof. done. Qed.
Lemma agreeM_put (t : S) (t' : S') : Q t t' -> agreeM Q (put (E := E) t) (put t') s s'.
Proof. done. Qed.
Lemma agreeM_throw (e : E) : agreeM Q (throw e) (throw e) s s'.
Proof. done. Qed.
Lemma agreeM_vacant {A A'} (o : option A) (o' : option A') (e : E) m m' :
  both o o' -> (o = None -> o' = None -> agreeM Q m m' s s') ->
  agreeM Q match o with Some _ => throw e | None => m end match o' with Some _ => throw e | None => m' end s s'.
Proof. intros [] Hm; [by apply agreeM_throw|by apply Hm]. Qed.
Lemma agreeM_lift {A A'} (T : A -> A' -> Prop) (x : outcome E A) (y : outcome E A') k k' :
  agree T x y -> (forall a a', T a a' -> agreeM Q (k a) (k' a') s s') -> agreeM Q (lift x ≫= k) (lift y ≫= k') s s'.
Proof. intros Hx Hk. unfold agreeM. rewrite !M_bind_eq. unfold lift. destruct x, y; try done. by apply Hk. Qed.
Lemma agreeM_lift_same {A} (x : outcome E A) k k' :
  total x -> (forall a, x = Ok a -> agreeM Q (k a) (k' a) s s') -> agreeM Q (lift x ≫= k) (lift x ≫= k') s s'.
Proof. intros Hx Hk. apply (agreeM_lift (fun a a' => a = a' /\ x = Ok a)); [by apply agree_same|]. intros a a' [<- Ha]. by apply Hk. Qed.
Lemma agreeM_map_err {F} (f : F -> E) (m : M S F ()) (m' : M S' F ()) : agreeM Q m m' s s' -> agreeM Q (map_err_M f m) (map_err_M f m') s s'.
Proof.
  intros [H1 H2]. unfold agreeM, map_err_M. destruct (m s) as [r t], (m' s') as [r' t']. cbn in *. split; [|done]. by apply agree_map_err.
Qed.
End agreeM_rules.

(** ** Recipients that are not identified twice

    What identifies a recipient is one set of keys; the nine variables of
    check_for_duplicate_recipients are one map from these keys. *)

Inductive Key :=
| ByUsername (u : string) | ByE164 (e : Z) | ByAci (a : Aci) | ByPni (p : Pni) | ByMasterKey (k : array 32) | ByDistributionId (d : Uuid)
| BySelf | ByReleaseNotes | ByRootKey (k : array 16).
Definition keys (d : MinimalRecipientData) : list Key :=
  match d with
  | Minimal_Contact e164 aci pni username =>
      option_list (ByUsername <$> username) ++ option_list (ByE164 <$> (e164_number <$> e164)) ++ option_list (ByAci <$> aci) ++
      option_list (ByPni <$> pni)
  | Minimal_Group k => [ByMasterKey k]
  | Minimal_DistributionList d => [ByDistributionId d]
  | Minimal_Self => [BySelf]
  | Minimal_ReleaseNotes => [ByReleaseNotes]
  | Minimal_CallLink k => [ByRootKey k]
  end.
#[export] Instance Key_eq_dec : EqDecision Key.
Proof. solve_decision. Defined.
Definition duplicate (k : Key) : RecipientId -> RecipientId -> CompletionError :=
  match k with
  | ByUsername _ => CompletionError_DuplicateContactUsername
  | ByE164 _ => CompletionError_DuplicateContactE164
  | ByAci _ => CompletionError_DuplicateContactAci
  | ByPni _ => CompletionError_DuplicateContactPni
  | ByMasterKey _ => CompletionError_DuplicateGroupMasterKey
  | ByDistributionId _ => CompletionError_DuplicateDistributionListId
  | BySelf => CompletionError_DuplicateSelfRecipient
  | ByReleaseNotes => CompletionError_DuplicateReleaseNotesRecipient
  | ByRootKey _ => CompletionError_DuplicateCallLinkRootKey
  end.
Definition seen (s : Seen) (k : Key) : option RecipientId :=
  match k with
  | ByUsername u => usernames s !! u
  | ByE164 e => e164s s !! e
  | ByAci a => acis s !! a
  | ByPni p => pnis s !! p
  | ByMasterKey k => group_master_keys s !! k
  | ByDistributionId d => distribution_ids s !! d
  | BySelf => self_recipient s
  | ByReleaseNotes => release_notes_recipient s
  | ByRootKey k => call_link_root_keys s !! k
  end.

(** The specification of a turn: every key of the recipient is new, and becomes known. *)
Definition sees (s : Seen) (id : RecipientId) (ks : list Key) (r : outcome CompletionError Seen) : Prop :=
  match r with
  | Ok s' => (forall k, k ∈ ks -> seen s k = None) /\ (forall k, k ∈ ks -> seen s' k = Some id) /\ (forall k, k ∉ ks -> seen s' k = seen s k)
  | Err e => exists k other, k ∈ ks /\ seen s k = Some other /\ e = duplicate k (sort_recipient_ids other id).1 (sort_recipient_ids other id).2
  | Panic => False
  end.

(** A single key, then one after the other. *)
Lemma insert_or_error_sees {K} `{Countable K} (m : gmap K RecipientId) (key : option K) id (by_ : K -> Key) s (set : gmap K RecipientId -> Seen) dup :
  Inj (=) (=) by_ -> (forall k, duplicate (by_ k) = dup) -> (forall k, seen s (by_ k) = m !! k) -> set m = s ->
  (forall m' k, seen (set m') (by_ k) = m' !! k) -> (forall m' k, (exists x, k = by_ x) \/ seen (set m') k = seen s k) ->
  sees s id (option_list (by_ <$> key)) (set <$> insert_or_error m key id dup).
Proof.
  intros Hinj Hdup Hm Hid Hset Hother. destruct key as [key|]; cbn [insert_or_error fmap option_fmap option_map option_list].
  - destruct (m !! key) as [other|] eqn:Hk.
    + rewrite (surjective_pairing (sort_recipient_ids other id)). cbn. exists (by_ key), other.
      rewrite Hm, Hdup. split_and!; [by left|done|done].
    + cbn. split_and!; [by intros k ->%list_elem_of_singleton; rewrite Hm|by intros k ->%list_elem_of_singleton; rewrite Hset, lookup_insert_eq|].
      intros k Hk'. rewrite list_elem_of_singleton in Hk'. destruct (Hother (<[key:=id]> m) k) as [[x ->]|]; [|done].
      rewrite Hset, Hm, lookup_insert_ne; [done|congruence].
  - cbn. rewrite Hid. split_and!; [by intros k ?%elem_of_nil..|done].
Qed.
Lemma sees_bind {A} s id ks1 ks2 (set : A -> Seen) (m : outcome CompletionError A) (k : A -> outcome CompletionError Seen) :
  ks1 ## ks2 -> sees s id ks1 (set <$> m) -> (forall x, m = Ok x -> sees (set x) id ks2 (k x)) -> sees s id (ks1 ++ ks2) (m ≫= k).
Proof.
  intros Hd H1 H2. destruct m as [x|e|]; [|destruct H1 as (? & ? & ? & ? & ?); cbn; set_solver|done].
  specialize (H2 x eq_refl). destruct H1 as (Hn & Hs & Ho). cbn. destruct (k x) as [s'|e|]; cbn in *; [| |done].
  - destruct H2 as (Hn' & Hs' & Ho'). split_and!; intros key; rewrite ?elem_of_app.
    + intros [?|Hk]; [auto|]. rewrite <- Ho by set_solver. auto.
    + intros [Hk|?]; [|auto]. rewrite Ho' by set_solver. auto.
    + intros Hk. rewrite Ho', Ho by set_solver. done.
  - destruct H2 as (key & other & Hk & Hseen & ->). exists key, other. rewrite elem_of_app, <- Ho by set_solver. auto.
Qed.
Lemma sees_nothing s id : sees s id [] (Ok s).
Proof. cbn. split_and!; [by intros k ?%elem_of_nil..|done]. Qed.
Lemma once_sees s id k o (set : option RecipientId -> Seen) :
  seen s k = o -> (forall k', seen (set (Some id)) k' = if decide (k' = k) then Some id else seen s k') ->
  sees s id [k] (set <$> once o id (duplicate k)).
Proof.
  intros Hk Hset. destruct o as [other|]; cbn [once].
  - rewrite (surjective_pairing (sort_recipient_ids other id)). exists k, other. split_and!; [by left|done|done].
  - cbn. split_and!; intros k'; rewrite list_elem_of_singleton, ?Hset; [by intros ->|by intros ->; rewrite decide_True|by intros; rewrite decide_False].
Qed.
Lemma options_disjoint {K} (by_ : K -> Key) (o : option K) ks : (forall x, by_ x ∉ ks) -> option_list (by_ <$> o) ## ks.
Proof. intros H k Hk. destruct o as [x|]; cbn in Hk; [|by apply elem_of_nil in Hk]. apply list_elem_of_singleton in Hk as ->. apply H. Qed.
Ltac one_key by_ := apply (insert_or_error_sees _ _ _ by_); [by intros ? ? [=]|done..|intros ? []; cbn; eauto].
Ltac other_keys := apply options_disjoint; intros ?; repeat match goal with o : option _ |- _ => destruct o end; set_solver.

Lemma see_recipient_sees s id d : sees s id (keys d) (see_recipient s id d).
Proof.
  destruct s as [e u a p g dl self rn cl]. destruct d as [e164 aci pni name|k|dl'| | |k]; cbn [see_recipient keys].
  - rewrite <- (app_nil_r (option_list (ByPni <$> pni))).
    apply (sees_bind _ _ _ _ (fun m => mkSeen e m a p g dl self rn cl)); [by other_keys|by one_key ByUsername|]. intros u' _.
    apply (sees_bind _ _ _ _ (fun m => mkSeen m u' a p g dl self rn cl)); [by other_keys|by one_key ByE164|]. intros e' _.
    apply (sees_bind _ _ _ _ (fun m => mkSeen e' u' m p g dl self rn cl)); [by other_keys|by one_key ByAci|]. intros a' _.
    apply (sees_bind _ _ _ _ (fun m => mkSeen e' u' a' m g dl self rn cl)); [set_solver|by one_key ByPni|]. intros p' _.
    by apply sees_nothing.
  - change [ByMasterKey k] with (option_list (ByMasterKey <$> Some k) ++ []). apply (sees_bind _ _ _ _ (fun m => mkSeen e u a p m dl self rn cl)); [set_solver|by one_key ByMasterKey|].
    intros g' _. by apply sees_nothing.
  - change [ByDistributionId dl'] with (option_list (ByDistributionId <$> Some dl') ++ []). apply (sees_bind _ _ _ _ (fun m => mkSeen e u a p g m self rn cl)); [set_solver|by one_key ByDistributionId|].
    intros l' _. by apply sees_nothing.
  - change [BySelf] with ([BySelf] ++ []). apply (sees_bind _ _ _ _ (fun m => mkSeen e u a p g dl m rn cl)); [set_solver|by apply (once_sees _ _ BySelf); [|intros []]|].
    intros s' _. by apply sees_nothing.
  - change [ByReleaseNotes] with ([ByReleaseNotes] ++ []). apply (sees_bind _ _ _ _ (fun m => mkSeen e u a p g dl self m cl)); [set_solver|by apply (once_sees _ _ ByReleaseNotes); [|intros []]|].
    intros s' _. by apply sees_nothing.
  - change [ByRootKey k] with (option_list (ByRootKey <$> Some k) ++ []). apply (sees_bind _ _ _ _ (fun m => mkSeen e u a p g dl self rn m)); [set_solver|by one_key ByRootKey|].
    intros c' _. by apply sees_nothing.
Qed.

(** All of them. *)
Definition knows (s : Seen) (l : list (RecipientId * MinimalRecipientData)) : Prop :=
  forall k id, seen s k = Some id <-> exists d, (id, d) ∈ l /\ k ∈ keys d.
Definition identified_once (l : list (RecipientId * MinimalRecipientData)) : Prop :=
  forall k id d id' d', (id, d) ∈ l -> (id', d') ∈ l -> k ∈ keys d -> k ∈ keys d' -> id = id'.
Definition identified_twice (l : list (RecipientId * MinimalRecipientData)) (e : CompletionError) : Prop :=
  exists k id d id' d', id < id' /\ (id, d) ∈ l /\ (id', d') ∈ l /\ k ∈ keys d /\ k ∈ keys d' /\ e = duplicate k id id'.

Lemma knows_once s l : knows s l -> identified_once l.
Proof.
  intros Hs k id d id' d' H1 H2 Hk Hk'. pose proof (proj2 (Hs k id) (ex_intro _ d (conj H1 Hk))) as E1.
  pose proof (proj2 (Hs k id') (ex_intro _ d' (conj H2 Hk'))) as E2. congruence.
Qed.
Lemma knows_more s s' l id d : knows s l -> sees s id (keys d) (Ok s') -> knows s' (l ++ [(id, d)]).
Proof.
  intros Hs (Hn & Hi & Ho) k i. destruct (decide (k ∈ keys d)) as [Hk|Hk].
  - rewrite Hi by done. split.
    + intros [= <-]. exists d. split; [|done]. apply elem_of_app. right. by left.
    + intros (d' & [Hin|Hin]%elem_of_app & Hk').
      * pose proof (proj2 (Hs k i) (ex_intro _ d' (conj Hin Hk'))) as E. by rewrite Hn in E.
      * apply list_elem_of_singleton in Hin. congruence.
  - rewrite Ho by done. rewrite (Hs k i). split; intros (d' & Hin & Hk'); exists d'; (split; [|done]).
    + apply elem_of_app. by left.
    + apply elem_of_app in Hin as [?|Hin%list_elem_of_singleton]; [done|]. congruence.
Qed.
Lemma sort_recipient_ids_lt other id : other <> id -> let '(a, b) := sort_recipient_ids other id in
  a < b /\ ((a = other /\ b = id) \/ (a = id /\ b = other)).
Proof. intros Hne. unfold sort_recipient_ids. destruct (Z.ltb_spec id other); split; auto; lia. Qed.
Lemma see_recipients_knows l s seen_ : NoDup (seen_ ++ l).*1 -> knows s seen_ ->
  match see_recipients s l with Ok s' => knows s' (seen_ ++ l) | Err e => identified_twice (seen_ ++ l) e | Panic => False end.
Proof.
  revert s seen_. induction l as [|[id d] l IH]; intros s seen_ Hnd Hs; cbn [see_recipients]; [by rewrite app_nil_r|].
  pose proof (see_recipient_sees s id d) as H. destruct (see_recipient s id d) as [s1|e|]; cbn [mbind outcome_bind]; [| |done].
  - rewrite cons_middle, app_assoc in *. apply IH; [done|]. by eapply knows_more.
  - destruct H as (k & other & Hk & [d' [Hin Hk']]%Hs & ->).
    assert (other <> id) as Hne.
    { intros ->. rewrite fmap_app, fmap_cons, NoDup_app in Hnd. destruct Hnd as (_ & Hnd & _). apply (Hnd id); [|by left].
      apply list_elem_of_fmap. by exists (id, d'). }
    assert ((id, d) ∈ seen_ ++ (id, d) :: l) as H1 by (apply elem_of_app; right; by left).
    assert ((other, d') ∈ seen_ ++ (id, d) :: l) as H2 by (apply elem_of_app; by left).
    pose proof (sort_recipient_ids_lt other id Hne) as Hsort. destruct (sort_recipient_ids other id) as [a b].
    destruct Hsort as [Hlt [[-> ->]|[-> ->]]]; exists k; [exists other, d', id, d|exists id, d, other, d']; by split_and!.
Qed.

Lemma check_for_duplicate_recipients_spec l : NoDup l.*1 ->
  match check_for_duplicate_recipients l with
  | Ok _ => identified_once l /\ exists id, (id, Minimal_Self) ∈ l
  | Err e => identified_twice l e \/ e = CompletionError_MissingSelfRecipient /\ identified_once l /\ forall id, (id, Minimal_Self) ∉ l
  | Panic => False
  end.
Proof.
  intros Hnd. unfold check_for_duplicate_recipients.
  pose proof (see_recipients_knows l Seen_empty [] Hnd) as H. cbn [app] in H.
  assert (knows Seen_empty []) as H0 by (intros k id; split; [by destruct k|]; by intros (? & ?%elem_of_nil & _)).
  specialize (H H0). destruct (see_recipients Seen_empty l) as [s|e|]; cbn; [|by left|done].
  assert (forall id, self_recipient s = Some id <-> (id, Minimal_Self) ∈ l) as Hself.
  { intros id. rewrite (H BySelf id). split; [|intros Hin; exists Minimal_Self; split; [done|by left]].
    intros (d & Hin & Hk). destruct d as [e a p u| | | | |]; cbn in Hk; try (apply list_elem_of_singleton in Hk; congruence).
    rewrite !elem_of_app in Hk. destruct e, a, p, u; set_solver. }
  destruct (self_recipient s) as [id|] eqn:Hs; cbn.
  - split; [by eapply knows_once|]. exists id. by apply Hself.
  - right. split_and!; [done|by eapply knows_once|]. intros id Hin%Hself. done.
Qed.

(** ** What makes a backup complete *)

Section completion.
Context `{P : Primitives} {H256 : Sha256} {RI : Ristretto} `{G : Graphemes} `{IM : IntMapIter} `{RP : ReceiptPresentations}.
Context (M : Method) `{RT : !ReferencedTypes M}.

Definition minimal (b : PartialBackup M) (id : RecipientId) : option MinimalRecipientData := as_minimal <$> recipients _ b !! id.
Definition all_folders (b : PartialBackup M) : nat := length (List.filter is_all_folder (chat_folders _ b)).

Definition completable (b : PartialBackup M) : Prop :=
  account_data _ b <> None /\ (chat_folders _ b = [] \/ all_folders b = 1%nat) /\ (exists id, minimal b id = Some Minimal_Self) /\
  (forall k id id' m m', minimal b id = Some m -> minimal b id' = Some m' -> k ∈ keys m -> k ∈ keys m' -> id = id').
Definition incomplete (b : PartialBackup M) (e : CompletionError) : Prop :=
  match e with
  | CompletionError_MissingAccountData => account_data _ b = None
  | CompletionError_MissingAllChatFolder => chat_folders _ b <> [] /\ all_folders b = 0%nat
  | CompletionError_DuplicateAllChatFolder => (2 <= all_folders b)%nat
  | CompletionError_MissingSelfRecipient => forall id, minimal b id <> Some Minimal_Self
  | _ => exists k id id' m m', id < id' /\ minimal b id = Some m /\ minimal b id' = Some m' /\ k ∈ keys m /\ k ∈ keys m' /\ e = duplicate k id id'
  end.

Lemma recipient_entries_elem b id m : (id, m) ∈ recipient_entries M (recipients _ b) <-> minimal b id = Some m.
Proof.
  unfold recipient_entries, minimal. rewrite list_elem_of_fmap. split.
  - intros ([i d] & [= -> ->] & Hin). rewrite intmap_iter_perm, elem_of_map_to_list in Hin. apply fmap_Some. by exists d.
  - rewrite fmap_Some. intros (d & Hd & ->). exists (id, d). by rewrite intmap_iter_perm, elem_of_map_to_list.
Qed.
Lemma recipient_entries_NoDup b : NoDup (recipient_entries M (recipients _ b)).*1.
Proof.
  unfold recipient_entries. rewrite <- list_fmap_compose. erewrite (list_fmap_ext _ fst); [|by intros ? [? ?]].
  rewrite intmap_iter_perm. apply NoDup_fst_map_to_list.
Qed.
Lemma identified_twice_incomplete b e : identified_twice (recipient_entries M (recipients _ b)) e -> incomplete b e /\ ~ completable b.
Proof.
  intros (k & id & d & id' & d' & Hlt & H1%recipient_entries_elem & H2%recipient_entries_elem & Hk & Hk' & ->). split.
  - assert (exists k0 id0 id'0 m m', id0 < id'0 /\ minimal b id0 = Some m /\ minimal b id'0 = Some m' /\ k0 ∈ keys m /\ k0 ∈ keys m' /\
      duplicate k id id' = duplicate k0 id0 id'0) as H by (exists k, id, id', d, d'; by split_and!).
    by destruct k.
  - intros (_ & _ & _ & H). specialize (H k id id' d d' H1 H2 Hk Hk'). lia.
Qed.
Lemma check_all_folder_spec b :
  match check_all_folder M (chat_folders _ b) with
  | Ok _ => chat_folders _ b = [] \/ all_folders b = 1%nat
  | Err e => incomplete b e /\ ~ completable b
  | Panic => False
  end.
Proof.
  unfold check_all_folder, completable. destruct (chat_folders _ b) as [|f l] eqn:Hf; [by left|].
  assert (all_folders b = length (List.filter is_all_folder (f :: l))) as Hall by (unfold all_folders; by rewrite Hf).
  rewrite <- Hall. destruct (all_folders b) as [|[|n]] eqn:Hn; [|by right|].
  - split; [cbn; by rewrite Hf|]. by intros (_ & [?|?] & _).
  - split; [cbn; lia|]. by intros (_ & [?|?] & _).
Qed.

Lemma completion_cases b :
  match CompletedBackup_try_from M b with Ok _ => completable b | Err e => incomplete b e /\ ~ completable b | Panic => False end.
Proof.
  pose proof (check_all_folder_spec b) as Hf. pose proof (check_for_duplicate_recipients_spec _ (recipient_entries_NoDup b)) as Hr.
  unfold CompletedBackup_try_from. destruct (account_data _ b) as [a|] eqn:Ha; destruct b as [mt ac rs ch ah sp np cf al]; cbn in Ha; subst ac; cbn in *.
  - destruct (check_all_folder M cf) as [[]|e|]; cbn; [|done..].
    destruct (check_for_duplicate_recipients _) as [[]|e|]; cbn; [| |done].
    + destruct Hr as [Ho [id Hid]]. split_and!; [done|done|exists id; by apply recipient_entries_elem|].
      intros k i j m m' Hm%recipient_entries_elem Hm'%recipient_entries_elem. by apply (Ho k i m j m').
    + destruct Hr as [?|(-> & _ & Hself)]; [by apply identified_twice_incomplete|].
      assert (forall id, minimal (mkPartialBackup M mt (Some a) rs ch ah sp np cf al) id <> Some Minimal_Self) as Hs
        by (intros id Hid%recipient_entries_elem; by apply (Hself id)).
      split; [done|]. intros (_ & _ & [id Hid] & _). by apply (Hs id).
  - split; [done|]. by intros [? _].
Qed.

(** C15: A backup can be completed exactly if it has account data, no chat folders or one folder of
    all chats, and one recipient that is the user, and no two of its recipients have a
    username, a phone number, an ACI, a PNI, a group, a distribution list, a call link or the role
    of the release notes in common.  This does not depend on the order in which the recipients
    are iterated over.  Otherwise the error says truly what is missing, that there is more than one folder of
    all chats, or which two recipients, the smaller id first, are identified by the same key. *)
Theorem completion_condition (b : PartialBackup M) :
  ((exists c, CompletedBackup_try_from M b = Ok c) <-> completable b) /\
  (forall e, CompletedBackup_try_from M b = Err e -> incomplete b e) /\ CompletedBackup_try_from M b <> Panic.
Proof.
  pose proof (completion_cases b) as H. destruct (CompletedBackup_try_from M b) as [c|e|]; [| |done].
  - split; [split; [done|]; eauto|done].
  - destruct H as [Hi Hc]. split; [split; [by intros [? ?]|done]|]. split; [by intros ? [= <-]|done].
Qed.
End completion.

(** ** Keeping and validating accept the same frames *)

(** The fields that the code computes with are in the range of their types. *)
Definition frame_in_range (f : proto.Frame) : bool :=
  match proto.Frame_item f with
  | Some (proto.Frame_account a) => account_in_range a
  | Some (proto.Frame_chatItem i) => item_in_range i
  | _ => true
  end.

Section backups.
Context `{P : Primitives} {H256 : Sha256} {RI : Ristretto} `{G : Graphemes} `{IM : IntMapIter} `{RP : ReceiptPresentations}.

(** A reference that is kept and one that only validates, to the same recipient. *)
Definition refers (m : gmap RecipientId FullRecipientData) (r : FullRecipientData) (id : RecipientId) : Prop := m !! id = Some r.

Record same_chats_data (m : gmap RecipientId FullRecipientData) (c : ChatsData Store) (c' : ChatsData ValidateOnly) : Prop := {
  same_chats : forall id, option_Forall2 (same_chat (refers m)) (items _ c !! id) (items _ c' !! id);
  same_pinned : Forall2 (fun x y => x.1 = y.1 /\ refers m x.2 y.2) (pinned _ c) (pinned _ c');
  same_count : chat_items_count _ c = chat_items_count _ c'
}.
Record same_backup (b : PartialBackup Store) (b' : PartialBackup ValidateOnly) : Prop := {
  same_meta : meta _ b = meta _ b';
  meta_range : meta_in_range (meta _ b);
  same_account : option_Forall2 (fun a a' => same_colors (as_custom_chat_colors (ad_account_settings a)) (as_custom_chat_colors (ad_account_settings a')))
    (account_data _ b) (account_data _ b');
  same_recipients : forall id, option_Forall2 (fun r d => Full_minimal r = d) (recipients _ b !! id) (recipients _ b' !! id);
  arcs_allocated : forall id r, recipients _ b !! id = Some r -> Full_arc r < allocations _ b;
  arcs_distinct : forall id id' r r', recipients _ b !! id = Some r -> recipients _ b !! id' = Some r' -> Full_arc r = Full_arc r' -> id = id';
  same_data : same_chats_data (recipients _ b) (chats _ b) (chats _ b');
  same_packs : forall id, both (sticker_packs _ b !! id) (sticker_packs _ b' !! id);
  same_folders : Forall2 (fun f f' => is_all_folder f = is_all_folder f') (chat_folders _ b) (chat_folders _ b')
}.

Section related.
Context (b : PartialBackup Store) (b' : PartialBackup ValidateOnly) (HR : same_backup b b').

Lemma lookup_pair_agree : lookups_agree (refers (recipients _ b)) (lookup_pair Store b) (lookup_pair ValidateOnly b').
Proof.
  intros id. unfold lookup_pair, refers. pose proof (same_recipients _ _ HR id) as Hid. cbn in *.
  destruct (recipients _ b !! id) as [r|] eqn:Hr, (recipients _ b' !! id) as [d|]; inversion Hid; subst; by constructor.
Qed.
Lemma lookup_pin_both k : both (lookup_pin Store b k) (lookup_pin ValidateOnly b' k).
Proof.
  unfold lookup_pin. induction (same_pinned _ _ _ (same_data _ _ HR)) as [|[o r] [o' r'] l l' [Ho _] _ IH]; [constructor|]. cbn in *. subst o'.
  by destruct (o =? k); [constructor|].
Qed.
Lemma lookup_color_both id : both (lookup_color Store b id) (lookup_color ValidateOnly b' id).
Proof. unfold lookup_color. destruct (same_account _ _ HR) as [a a' Ha|]; [by apply CustomColorMap_lookup_both|constructor]. Qed.
Lemma refers_same r r' id id' : refers (recipients _ b) r id -> refers (recipients _ b) r' id' -> Full_is_same_reference r r' = (id =? id').
Proof.
  intros Hr Hr'. unfold Full_is_same_reference. destruct (Z.eqb_spec (Full_arc r) (Full_arc r')) as [He|Hne]; symmetry.
  - apply Z.eqb_eq. by eapply (arcs_distinct _ _ HR).
  - apply Z.eqb_neq. intros ->. unfold refers in *. congruence.
Qed.
End related.

(** Chats. *)
Lemma validate_chat_recipient_total {M R} (s : R -> R -> bool) (i : ChatItemData M R) r kind : total (validate_chat_recipient s i r kind).
Proof. unfold validate_chat_recipient. solve_total. Qed.
Lemma Timestamp_as_millis_total {E} t : 0 <= system_time t <= MAX_TIME -> total (Timestamp_as_millis (E := E) t).
Proof.
  intros Ht. unfold Timestamp_as_millis. rewrite (proj2 (Z.ltb_ge _ _)) by lia.
  rewrite (proj2 (Z.leb_le _ _)); [done|]. apply Z.lt_succ_r, Z.div_lt_upper_bound; [done|].
  unfold MAX_TIME, MAX_SAFE_TIMESTAMP_MS, u64_max, NANOS_PER_MILLI in *. lia.
Qed.
Lemma wrap_error_agree {A A'} m id i i' (T : A -> A' -> Prop) r r' : same_item (refers m) i i' ->
  agree T r r' -> agree T (wrap_error Store id i r) (wrap_error ValidateOnly id i' r').
Proof.
  intros (_ & _ & _ & _ & _ & Ht & Hr) H. destruct r as [a|e|], r' as [a'|e'|]; try done. cbn in H. subst e'. cbn [wrap_error].
  destruct i, i'; cbn in *; subst. apply agree_bind_same; [by apply Timestamp_as_millis_total|done].
Qed.

Lemma ChatsData_add_chat_agree m c c' id x x' : same_chats_data m c c' -> same_chat (refers m) x x' ->
  agree (same_chats_data m) (ChatsData_add_chat Store c id x) (ChatsData_add_chat ValidateOnly c' id x').
Proof.
  intros [Hi Hp Hc] Hx. unfold ChatsData_add_chat. pose proof (Hi id) as Hid.
  destruct (items _ c !! id), (items _ c' !! id); try by inversion Hid. destruct Hx as (Hr & Hk & Ho). destruct x, x'. cbn in Hr, Hk, Ho. subst.
  split; cbn; [|case_match; [|done]|done].
  - intros id'. destruct (decide (id = id')) as [<-|]; [rewrite !lookup_insert_eq; by constructor|by rewrite !lookup_insert_ne].
  - apply Forall2_app; [done|]. by repeat constructor.
Qed.
Lemma ChatsData_add_chat_item_agree m c c' id i i' :
  (forall r r' id id', refers m r id -> refers m r' id' -> Full_is_same_reference r r' = (id =? id')) ->
  same_chats_data m c c' -> same_item (refers m) i i' ->
  agree (same_chats_data m) (ChatsData_add_chat_item Store c id i) (ChatsData_add_chat_item ValidateOnly c' id i').
Proof.
  intros Hs [Hi Hp Hc] Hx. unfold ChatsData_add_chat_item.
  apply (agree_bind (same_chat (refers m))); [by apply (wrap_error_agree m), agree_ok_or, Hi|]. intros x x' (Hr & Hk & Ho).
  apply (agree_bind any); [|intros _ _ _].
  - apply (wrap_error_agree m); [done|].
    destruct x as [r k], x' as [r' k']. cbn in Hr, Hk. subst k'. cbn.
    apply agree_eq; [|apply validate_chat_recipient_total].
    apply (validate_chat_recipient_same (refers m)); [intros; by apply Hs|done..].
  - split; cbn; [|done|by rewrite Hc].
    intros id'. destruct (decide (id = id')) as [<-|]; [rewrite !lookup_insert_eq; by constructor|by rewrite !lookup_insert_ne].
Qed.

(** Frames. *)
Lemma same_chats_data_mono m m' c c' : m ⊆ m' -> same_chats_data m c c' -> same_chats_data m' c c'.
Proof.
  intros Hm [Hi Hp Hc]. assert (forall r id, refers m r id -> refers m' r id) as Hr by (intros r id Hr; by eapply lookup_weaken).
  split; [|by eapply Forall2_impl; [exact Hp|]; intros x y [? ?]; auto|done].
  intros id. destruct (Hi id) as [x x' (? & ? & ?)|]; constructor. split_and!; auto.
Qed.

Section one_frame.
Context (b : PartialBackup Store) (b' : PartialBackup ValidateOnly) (HR : same_backup b b').
#[local] Notation agreeF := (fun m m' => agreeM same_backup m m' b b').

Lemma add_account_data_agree x : account_in_range x = true ->
  agreeF (add_account_data Store x) (add_account_data ValidateOnly x).
Proof.
  intros Hx. unfold add_account_data. apply agreeM_get.
  assert (is_some (account_data _ b) = is_some (account_data _ b')) as -> by (by destruct (same_account _ _ HR)).
  apply agreeM_lift_same; [done|solve_total|]. intros _ _.
  eapply agreeM_lift; [done|apply agree_map_err, AccountData_agree, Hx|]. intros a a' Ha. apply agreeM_put.
  destruct HR. constructor; try done. by constructor.
Qed.
Lemma add_recipient_agree x : agreeF (add_recipient Store x) (add_recipient ValidateOnly x).
Proof.
  unfold add_recipient. apply agreeM_get. apply agreeM_lift_same; [done|solve_total|]. intros _ _.
  eapply agreeM_lift; [done|apply agree_map_err; eapply Destination_agree, (lookup_pair_agree b b' HR)|]. intros d d' Hd.
  apply agreeM_vacant; [done|exact (related_both (same_recipients _ _ HR _))|]. generalize (proto.Recipient_id x). intros id Hb Hb'.
  apply agreeM_put. destruct HR as [Hm Hmr Ha Hrs Hal Hdis Hch Hp Hf]. constructor; cbn; try done.
  - intros i. destruct (decide (id = i)) as [<-|]; [rewrite !lookup_insert_eq; by constructor|by rewrite !lookup_insert_ne].
  - intros i r. destruct (decide (id = i)) as [<-|].
    + rewrite lookup_insert_eq. intros [= <-]. cbn. lia.
    + rewrite lookup_insert_ne by done. intros Hr%Hal. lia.
  - intros i j r r'. destruct (decide (id = i)) as [<-|], (decide (id = j)) as [<-|]; try done.
    + rewrite lookup_insert_eq, lookup_insert_ne by done. intros [= <-] Hr%Hal. cbn. lia.
    + rewrite lookup_insert_ne, lookup_insert_eq by done. intros Hr%Hal [= <-]. cbn. lia.
    + rewrite !lookup_insert_ne by done. apply Hdis.
  - eapply same_chats_data_mono; [by apply insert_subseteq|done].
Qed.
Lemma add_chat_agree x : agreeF (add_chat Store x) (add_chat ValidateOnly x).
Proof.
  unfold add_chat. apply agreeM_get. apply agreeM_lift_same; [done|solve_total|]. intros _ _.
  eapply agreeM_lift; [done|apply agree_map_err; eapply Chat_agree|].
  { apply (lookup_pair_agree b b' HR). }
  { apply (lookup_color_both b b' HR). }
  { apply (lookup_pin_both b b' HR). }
  intros c c' Hc. eapply agreeM_lift; [done|apply ChatsData_add_chat_agree; [apply HR|exact Hc]|].
  intros d d' Hd. apply agreeM_put. destruct HR. by constructor.
Qed.
Lemma add_chat_item_agree x : item_in_range x = true ->
  agreeF (add_chat_item Store x) (add_chat_item ValidateOnly x).
Proof.
  intros Hx. unfold add_chat_item. apply agreeM_get.
  eapply agreeM_lift; [done|apply agree_map_err|].
  { rewrite <- (same_meta _ _ HR). eapply ChatItem_agree; [apply (lookup_pair_agree b b' HR)|apply HR|done]. }
  intros i i' Hi. eapply agreeM_lift; [done|apply agree_map_err, ChatsData_add_chat_item_agree; [|apply HR|exact Hi]|].
  { intros. by apply (refers_same b b'). }
  intros d d' Hd. apply agreeM_put. destruct HR. by constructor.
Qed.
Lemma add_ad_hoc_call_agree x : agreeF (add_ad_hoc_call Store x) (add_ad_hoc_call ValidateOnly x).
Proof.
  unfold add_ad_hoc_call. apply agreeM_get.
  eapply agreeM_lift; [done|apply agree_map_err; eapply AdHocCall_agree, (lookup_pair_agree b b' HR)|].
  intros c c' _. apply agreeM_put. destruct HR. by constructor.
Qed.
Lemma add_sticker_pack_agree x : agreeF (add_sticker_pack Store x) (add_sticker_pack ValidateOnly x).
Proof.
  unfold add_sticker_pack. apply agreeM_get. apply agreeM_lift_same; [done|solve_total|]. intros id _.
  apply (agreeM_lift _ _ _ HR any); [apply agree_map_err; unfold StickerPack_try_from; by solve_agree|].
  intros s s' _. apply agreeM_vacant; [done|exact (same_packs _ _ HR _)|]. intros _ _.
  apply agreeM_put. destruct HR. constructor; try done. cbn.
  intros i. destruct (decide (id = i)) as [<-|]; [rewrite !lookup_insert_eq; by constructor|by rewrite !lookup_insert_ne].
Qed.
Lemma add_notification_profile_agree x : agreeF (add_notification_profile Store x) (add_notification_profile ValidateOnly x).
Proof.
  unfold add_notification_profile. apply agreeM_get.
  eapply agreeM_lift; [done|apply agree_map_err; eapply NotificationProfile_agree, (lookup_pair_agree b b' HR)|].
  intros c c' _. apply agreeM_put. destruct HR. by constructor.
Qed.
Lemma add_chat_folder_agree x : agreeF (add_chat_folder Store x) (add_chat_folder ValidateOnly x).
Proof.
  unfold add_chat_folder. apply agreeM_get.
  eapply agreeM_lift; [done|apply agree_map_err; eapply ChatFolder_agree, (lookup_pair_agree b b' HR)|].
  intros c c' Hc. apply agreeM_put. destruct HR. constructor; try done. cbn. apply Forall2_app; [done|]. by repeat constructor.
Qed.
Lemma add_frame_agree f : frame_in_range f = true -> agreeF (add_frame_ Store f) (add_frame_ ValidateOnly f).
Proof.
  intros Hf. unfold add_frame_, frame_in_range in *. destruct (proto.Frame_item f) as [i|]; [|done].
  apply agreeM_lift_same; [done|solve_total|]. intros i' [= <-]. destruct i; cbn [add_frame_item]; try apply agreeM_map_err.
  all: auto using add_account_data_agree, add_recipient_agree, add_chat_agree, add_chat_item_agree, add_ad_hoc_call_agree,
    add_sticker_pack_agree, add_notification_profile_agree, add_chat_folder_agree.
Qed.
End one_frame.

(** All frames of a backup, and its completion. *)
Fixpoint add_frames (M : Method) `{!ReferencedTypes M} (frames : list proto.Frame) (b : PartialBackup M) : outcome ValidationError (PartialBackup M) :=
  match frames with
  | [] => Ok b
  | f :: frames => match add_frame_ M f b with (Ok _, b) => add_frames M frames b | (Err e, _) => Err e | (Panic, _) => Panic end
  end.
Definition read_frames (M : Method) `{!ReferencedTypes M} (info : proto.BackupInfo) (purpose : Purpose) (frames : list proto.Frame)
  : outcome ValidationError (PartialBackup M) :=
  b ← PartialBackup_new_ M info purpose; add_frames M frames b.

Lemma new_agree info purpose : agree same_backup (PartialBackup_new_ Store info purpose) (PartialBackup_new_ ValidateOnly info purpose).
Proof.
  unfold PartialBackup_new_. destruct info. apply agree_bind_same; [solve_total|]. intros key _.
  apply agree_bind_same; [solve_total|]. intros time Ht. constructor; cbn; try done; try constructor; try done.
  - pose proof (Timestamp_post BackupInfo_backupTimeMs "BackupInfo.backupTimeMs") as Hp. unfold meta_in_range. cbn.
    destruct (Timestamp_from_millis _ _); [|done..]. injection Ht as ->. destruct Hp as [-> ?]. unfold MAX_TIME, NANOS_PER_MILLI. lia.
  - intros id. cbn. rewrite !lookup_empty. constructor.
Qed.
Lemma add_frames_agree frames b b' : Forall (fun f => frame_in_range f = true) frames -> same_backup b b' ->
  agree same_backup (add_frames Store frames b) (add_frames ValidateOnly frames b').
Proof.
  intros Hf. revert b b'. induction Hf as [|f frames Hf _ IH]; intros b b' HR; [done|]. cbn [add_frames].
  destruct (add_frame_agree b b' HR f Hf) as [Hr Hs]. destruct (add_frame_ Store f b) as [[]], (add_frame_ ValidateOnly f b') as [[]]; try done.
  by apply IH.
Qed.
Lemma all_folders_same {R R'} (l : list (ChatFolder R)) (l' : list (ChatFolder R')) :
  Forall2 (fun f f' => is_all_folder f = is_all_folder f') l l' -> length (List.filter is_all_folder l) = length (List.filter is_all_folder l').
Proof. induction 1 as [|f f' l l' Hf _ IH]; [done|]. cbn. rewrite Hf. by destruct (is_all_folder f'); cbn; rewrite IH. Qed.
Lemma same_completable b b' : same_backup b b' -> completable Store b <-> completable ValidateOnly b'.
Proof.
  intros HR. unfold completable.
  assert (forall id, minimal Store b id = minimal ValidateOnly b' id) as Hmin.
  { intros id. unfold minimal. pose proof (same_recipients _ _ HR id) as H. inversion H as [r d Hrd Hr Hd|Hr Hd]; cbn in *.
    - rewrite <- Hr, <- Hd. cbn. by rewrite Hrd.
    - by rewrite <- Hr, <- Hd. }
  assert (all_folders Store b = all_folders ValidateOnly b') as Hall.
  { apply all_folders_same, HR. }
  assert (chat_folders _ b = [] <-> chat_folders _ b' = []) as Hnil by (by destruct (same_folders _ _ HR)).
  assert (account_data _ b <> None <-> account_data _ b' <> None) as Hacc by (by destruct (same_account _ _ HR)).
  rewrite Hall, Hnil, Hacc. by setoid_rewrite Hmin.
Qed.

(** C13: For frames with fields in the range of their types, a backup read to be kept and one read only to be
    validated accept the same frames and reject a frame with the same error, although the second keeps of a recipient
    only what identifies it, of a custom color only its id, and of chat items nothing; neither
    panics; and one can be completed exactly if the other can. *)
Theorem validation_accepts_what_is_kept info purpose frames :
  Forall (fun f => frame_in_range f = true) frames ->
  agree (fun b b' => (exists c, CompletedBackup_try_from Store b = Ok c) <-> (exists c, CompletedBackup_try_from ValidateOnly b' = Ok c))
    (read_frames Store info purpose frames) (read_frames ValidateOnly info purpose frames).
Proof.
  intros Hf. apply (agree_weaken same_backup).
  - apply (agree_bind same_backup); [apply new_agree|]. intros b b'. by apply add_frames_agree.
  - intros b b' HR. pose proof (completion_cases Store b) as H. pose proof (completion_cases ValidateOnly b') as H'.
    pose proof (same_completable b b' HR) as Hc.
    destruct (CompletedBackup_try_from Store b), (CompletedBackup_try_from ValidateOnly b'); try done.
    + split; eauto.
    + destruct H' as [_ Hn]. by destruct Hn; apply Hc.
    + destruct H as [_ Hn]. by destruct Hn; apply Hc.
    + split; by intros [? ?].
Qed.
End backups.

(** ** What an accepted chat item is *)

(** The logic of runs that succeed. *)
Definition yields {E A} (Q : A -> Prop) (m : outcome E A) : Prop := forall a, m = Ok a -> Q a.
Lemma yields_bind {E A B} (Q : B -> Prop) (m : outcome E A) (k : A -> outcome E B) :
  (forall a, m = Ok a -> yields Q (k a)) -> yields Q (m ≫= k).
Proof. intros H b Hb. destruct m as [a| |]; try done. by apply (H a). Qed.
Lemma yields_Ok {E A} (Q : A -> Prop) (a : A) : Q a -> yields Q (Ok (E := E) a).
Proof. by intros ? ? [= <-]. Qed.
Lemma yields_mapM {E A B} (Q : A -> B -> Prop) (f : A -> outcome E B) (l : list A) :
  (forall a, a ∈ l -> yields (Q a) (f a)) -> yields (Forall2 Q l) (mapM f l).
Proof.
  induction l as [|a l IH]; intros Hf; [by apply yields_Ok|]. cbn [mapM].
  apply yields_bind. intros b Hb. apply yields_bind. intros bs Hbs. apply yields_Ok. constructor; [apply (Hf a); [by left|done]|].
  apply IH; [|done]. intros a' Ha'. apply Hf. by right.
Qed.
Lemma yields_likely_empty {E A B} (Q : list B -> Prop) (f : list A -> outcome E (list B)) (l : list A) : Q [] -> yields Q (f l) -> yields Q (likely_empty l f).
Proof. intros ? ?. destruct l; [by apply yields_Ok|done]. Qed.
Ltac yields_step := apply yields_bind; intros ?a ?Ha.

Section items.
Context `{G : Graphemes} `{IM : IntMapIter} `{RP : ReceiptPresentations} {M : Method} {R : Type}.

(** What a backup may hold of disappearing messages. *)
Definition expiration_allowed (meta : BackupMeta) (dir : Direction R) (start : option Timestamp) (expires : option Duration) : bool :=
  match start, expires with
  | None, None => true
  | Some _, None => false
  | None, Some d =>
      negb (should_have_started dir) &&
      match purpose meta with
      | DeviceTransfer => true
      | RemoteBackup => nanos MAX_REMOTE_BACKUP_DISAPPEARING_MESSAGE_TIME <=? nanos d
      | TakeoutExport => false
      end
  | Some s, Some d =>
      match purpose meta with
      | DeviceTransfer => system_time (backup_time meta) <=? system_time s + nanos d
      | RemoteBackup => system_time (backup_time meta) + nanos MAX_REMOTE_BACKUP_DISAPPEARING_MESSAGE_TIME <=? system_time s + nanos d
      | TakeoutExport => false
      end
  end.
Definition view_once_allowed (meta : BackupMeta) (m : ChatItemMessage M R) : bool :=
  match purpose meta, m with TakeoutExport, Message_ViewOnce v => negb (is_some (vo_attachment v)) | _, _ => true end.
Definition is_update (m : ChatItemMessage M R) : bool := match m with Message_Update _ => true | _ => false end.
Definition may_have_revisions (m : ChatItemMessage M R) : bool :=
  match m with Message_Standard _ | Message_DirectStoryReply _ => true | _ => false end.
(** A chat item that a backup may hold, and its revisions. *)
Inductive sound_item (meta : BackupMeta) (i : ChatItemData M R) : Prop := mkSoundItem {
  si_expiration : expiration_allowed meta (ci_direction i) (ci_expire_start i) (ci_expires_in i) = true;
  si_view_once : view_once_allowed meta (ci_message i) = true;
  si_direction : ci_direction i = Directionless <-> is_update (ci_message i) = true;
  si_revised : ci_revisions i <> [] -> may_have_revisions (ci_message i) = true;
  si_revisions : Forall (fun r => sound_item meta r /\ ci_author r = ci_author i /\ ci_revisions r = [] /\
    Direction_discriminant (ci_direction r) = Direction_discriminant (ci_direction i) /\
    ChatItemMessage_discriminant (ci_message r) = ChatItemMessage_discriminant (ci_message i)) (ci_revisions i)
}.

Lemma check_expiration_allowed meta dir start expires : check_expiration meta dir start expires = Ok tt -> expiration_allowed meta dir start expires = true.
Proof.
  unfold check_expiration, expiration_allowed, guard_err, Timestamp_add, system_time_add.
  destruct start as [s|], expires as [d|]; [|done|..|done].
  - destruct (purpose meta); cbn; try done; repeat case_match; try done; cbn in *; repeat case_match; try done; intros _.
    all: apply Z.leb_le; cbn in *; lia.
  - destruct (should_have_started dir); [done|]. destruct (purpose meta); cbn; try done. case_match; [done|]. intros _. apply Z.leb_le. lia.
Qed.
Lemma check_view_once_allowed meta m : check_view_once M meta m = Ok tt -> view_once_allowed meta m = true.
Proof. unfold check_view_once, view_once_allowed, guard_err. destruct (purpose meta), m; try done. by destruct (is_some _). Qed.
Lemma check_direction_update (dir : Direction R) (m : ChatItemMessage M R) : check_direction M dir m = Ok tt -> dir = Directionless <-> is_update m = true.
Proof. by destruct dir, m. Qed.
Lemma check_revision_Ok dir (m : ChatItemMessage M R) i i' : check_revision M dir m i = Ok i' -> i' = i /\ ci_revisions i = [] /\
  Direction_discriminant (ci_direction i) = Direction_discriminant dir /\ ChatItemMessage_discriminant (ci_message i) = ChatItemMessage_discriminant m.
Proof.
  unfold check_revision, guard_err. destruct (bool_decide_reflect (Direction_discriminant dir = Direction_discriminant (ci_direction i))); [|done].
  destruct (bool_decide_reflect (ChatItemMessage_discriminant (ci_message i) = ChatItemMessage_discriminant m)); [|done].
  destruct (ci_revisions i) eqn:Hr; [|done]. by intros [= <-].
Qed.

Context (l : RecipientId -> option (MinimalRecipientData * R)) (meta : BackupMeta).

Lemma ChatItem_author x : yields (fun i => snd <$> l (ChatItem_authorId x) = Some (ci_author i)) (ChatItem_try_from M l meta x).
Proof.
  destruct x as [chat author date start expires revisions sms dd item]. cbn [ChatItem_try_from ChatItem_authorId].
  do 2 yields_step. yields_step. apply ok_or_Ok in Ha1. destruct a1 as [data a1]. repeat yields_step. apply yields_Ok. by rewrite Ha1.
Qed.
Lemma ChatItem_sound x : yields (sound_item meta) (ChatItem_try_from M l meta x).
Proof.
  induction x as [chat author date start expires revisions sms dd item IH] using chat_item_induction. cbn [ChatItem_try_from].
  yields_step. yields_step. yields_step. apply ok_or_Ok in Ha1. destruct a1 as [data a1]. do 3 yields_step. do 4 (apply yields_bind; intros [] ?).
  apply yields_bind. intros revs Hrevs.
  assert (Forall2 (fun _ r => sound_item meta r /\ ci_author r = a1 /\ ci_revisions r = [] /\
    Direction_discriminant (ci_direction r) = Direction_discriminant a0 /\
    ChatItemMessage_discriminant (ci_message r) = ChatItemMessage_discriminant a4) revisions revs \/ revs = []) as Hsound.
  { revert revs Hrevs. apply yields_likely_empty; [by right|]. intros revs Hrevs. left. revert revs Hrevs. apply yields_mapM. intros r Hin.
    apply yields_bind. intros [] Hg. unfold guard_err in Hg. destruct (Z.eqb_spec author (ChatItem_authorId r)) as [->|]; [|done].
    yields_step. intros b (-> & ? & ? & ?)%check_revision_Ok. split_and!; try done; [by eapply IH|].
    pose proof (ChatItem_author r a5 Ha5) as Hr. rewrite Ha1 in Hr. by injection Hr. }
  do 2 yields_step. apply yields_bind; intros [] ?. apply yields_Ok. constructor; cbn.
  - by apply check_expiration_allowed.
  - by apply check_view_once_allowed.
  - by apply check_direction_update.
  - intros Hne. destruct Hsound as [Hs|]; [|done]. destruct Hs; [done|]. by destruct a4.
  - destruct Hsound as [Hs| ->]; [|constructor]. by eapply Forall2_Forall_r; [|apply Forall_true].
Qed.
End items.

Section accepted.
Context `{G : Graphemes} `{IM : IntMapIter} `{RP : ReceiptPresentations} {M : Method} {R : Type}.

(** C35: A chat item that is accepted has an author the backup knows; it is directionless exactly if it is an
    update.  If it disappears, its timer has started if it was read or sent to everyone; a timer that has
    started ends in a remote backup no earlier than a day after the backup, in a device transfer not before
    the backup, and a timer that has not is of a day at least in a remote backup; an
    export has neither disappearing messages nor view-once media.  All this holds of its revisions,
    which only text messages and story replies have, which have none themselves and
    which share the author, the direction and the kind of the item. *)
Theorem accepted_chat_item l meta x (i : ChatItemData M R) : ChatItem_try_from M l meta x = Ok i ->
  sound_item meta i /\ snd <$> l (ChatItem_authorId x) = Some (ci_author i).
Proof. intros H. split; [by eapply ChatItem_sound|by eapply ChatItem_author]. Qed.

(** A text message without body ranges takes a shorter path on which its length is not
    checked: an empty body and one of more than 128 KiB are accepted, which with a body range, as in a
    quote or a story reply, are errors. *)
Theorem plain_body_not_checked (l : RecipientId -> option (MinimalRecipientData * R)) body :
  body = "" \/ MAX_BODY_LENGTH < Z.of_nat (String.length body) ->
  StandardMessage_try_from l (proto.mkStandardMessage None (Some (proto.mkText body [])) [] [] None []) =
    Ok (mkStandardMessage (Some (mkMessageText body [])) None [] (mkReactionSet []) [] None) /\
  forall range ranges, StandardMessage_try_from l (proto.mkStandardMessage None (Some (proto.mkText body (range :: ranges))) [] [] None []) =
    Err (ChatItemError_Text (if decide (body = "") then TextError_EmptyBody else TextError_TooLongBody (String.length body))).
Proof.
  intros Hb. split; [done|]. intros range ranges. unfold StandardMessage_try_from. cbn. unfold MessageText_try_from.
  destruct (decide (body = "")) as [->|Hne]; [done|]. destruct Hb as [?|Hb]; [done|].
  rewrite (proj2 (Nat.eqb_neq _ _)) by (by destruct body). by rewrite (proj2 (Z.leb_gt _ _)).
Qed.
End accepted.

(** ** The invariant of a backup that is kept *)

Section kept_backup.
Context `{P : Primitives} {H256 : Sha256} {RI : Ristretto} `{G : Graphemes} `{IM : IntMapIter} `{RP : ReceiptPresentations}.
#[local] Notation Ref := (RecipientReference (M := Store)).
#[local] Notation PB := (PartialBackup Store).
#[local] Notation Chat_ := (ChatData Store Ref (CustomColorReference (M := Store))).

Definition knows_reference (rs : gmap RecipientId FullRecipientData) (r : FullRecipientData) : Prop := exists id, rs !! id = Some r.
Definition fits_chat (mt : BackupMeta) (rs : gmap RecipientId FullRecipientData) (c : Chat_) (i : ChatItemData Store Ref) : Prop :=
  sound_item mt i /\ knows_reference rs (ci_author i) /\
  validate_chat_recipient Full_is_same_reference i (ch_recipient c) (ch_cached_recipient_info c) = Ok tt.
Definition chat_consistent (mt : BackupMeta) (rs : gmap RecipientId FullRecipientData) (c : Chat_) : Prop :=
  knows_reference rs (ch_recipient c) /\ ChatRecipientKind_try_from (Full_minimal (ch_recipient c)) = Ok (ch_cached_recipient_info c) /\
  Forall (fits_chat mt rs c) (kept (ch_items c)).
Definition order_indexes (m : gmap ChatId Chat_) : list Z := '(_, c) ← map_to_list m; ci_total_chat_item_order_index <$> kept (ch_items c).
Definition pin_of (m : gmap ChatId Chat_) (p : PinOrder * Ref) : Prop :=
  exists id (c : Chat_), m !! id = Some c /\ ch_pinned_order c = Some p.1 /\ ch_recipient c = p.2.

(** The chats: every item is in a chat it fits and has a number of its own, the pins are those
    of the chats and no two have the same position. *)
Record chats_consistent (mt : BackupMeta) (rs : gmap RecipientId FullRecipientData) (m : gmap ChatId Chat_)
    (pins : list (PinOrder * Ref)) (n : Z) : Prop := {
  cc_chat_id : m !! (0 : ChatId) = None;
  cc_chats : map_Forall (fun _ => chat_consistent mt rs) m;
  cc_order : 0 <= n /\ order_indexes m ≡ₚ seqZ 0 n;
  cc_pins : NoDup pins.*1;
  cc_pin_of : forall p, p ∈ pins <-> pin_of m p
}.
Definition data_consistent (mt : BackupMeta) (rs : gmap RecipientId FullRecipientData) (d : ChatsData Store) : Prop :=
  chats_consistent mt rs (items _ d) (pinned _ d) (chat_items_count _ d).
Definition consistent (b : PB) : Prop := recipients _ b !! (0 : RecipientId) = None /\ data_consistent (meta _ b) (recipients _ b) (chats _ b).

Lemma chats_consistent_mono mt rs rs' m pins n : rs ⊆ rs' -> chats_consistent mt rs m pins n -> chats_consistent mt rs' m pins n.
Proof.
  intros Hsub [H1 H2 H3 H4 H5]. constructor; try done.
  assert (forall r, knows_reference rs r -> knows_reference rs' r) as Hk by (intros r [id Hid]; exists id; by eapply lookup_weaken).
  eapply map_Forall_impl; [exact H2|]. intros _ c (Hr & Hc & Hi). split_and!; [auto|done|].
  eapply Forall_impl; [exact Hi|]. intros i (? & ? & ?). split_and!; auto.
Qed.

Lemma order_indexes_insert (m : gmap ChatId Chat_) (id : ChatId) c : m !! id = None -> order_indexes (<[id := c]> m) ≡ₚ (ci_total_chat_item_order_index <$> kept (ch_items c)) ++ order_indexes m.
Proof. intros H. unfold order_indexes. rewrite map_to_list_insert by done. done. Qed.
Lemma order_indexes_delete (m : gmap ChatId Chat_) (id : ChatId) c : m !! id = Some c -> order_indexes m ≡ₚ (ci_total_chat_item_order_index <$> kept (ch_items c)) ++ order_indexes (delete id m).
Proof. intros H. rewrite <- order_indexes_insert by (by rewrite lookup_delete_eq). by rewrite insert_delete_id. Qed.

Lemma pin_of_insert (m : gmap ChatId Chat_) (id : ChatId) c p : m !! id = None -> pin_of (<[id := c]> m) p <-> (ch_pinned_order c = Some p.1 /\ ch_recipient c = p.2) \/ pin_of m p.
Proof.
  intros Hn. split.
  - intros (i & x & Hx & Ho & Hr). destruct (decide (id = i)) as [<-|Hne]; [rewrite lookup_insert_eq in Hx; injection Hx as <-; by left|].
    rewrite lookup_insert_ne in Hx by done. right. by exists i, x.
  - intros [[Ho Hr]|(i & x & Hx & Ho & Hr)]; [exists id, c; by rewrite lookup_insert_eq|].
    exists i, x. rewrite lookup_insert_ne; [done|]. intros ->. by rewrite Hx in Hn.
Qed.
Lemma pin_of_update (m : gmap ChatId Chat_) (id : ChatId) c c' p : m !! id = Some c -> ch_pinned_order c' = ch_pinned_order c -> ch_recipient c' = ch_recipient c ->
  pin_of (<[id := c']> m) p <-> pin_of m p.
Proof.
  intros Hc Ho Hr. rewrite <- insert_delete_eq. transitivity (pin_of (<[id := c]> (delete id m)) p); [|by rewrite insert_delete_id].
  rewrite !pin_of_insert by (by rewrite lookup_delete_eq). by rewrite Ho, Hr.
Qed.

Lemma add_chat_consistent mt rs c' (id : ChatId) (x : Chat_) : id <> 0 -> kept (ch_items x) = [] ->
  knows_reference rs (ch_recipient x) -> ChatRecipientKind_try_from (Full_minimal (ch_recipient x)) = Ok (ch_cached_recipient_info x) ->
  (forall o, ch_pinned_order x = Some o -> o ∉ (pinned Store c').*1) ->
  data_consistent mt rs c' -> yields (data_consistent mt rs) (ChatsData_add_chat Store c' id x).
Proof.
  intros Hid Hempty Hr Hk Hpin [H1 H2 H3 H4 H5]. unfold ChatsData_add_chat. destruct (items Store c' !! id) eqn:Hnone; [done|]. apply yields_Ok.
  unfold data_consistent. cbn [items pinned chat_items_count]. constructor.
  - by rewrite lookup_insert_ne.
  - apply map_Forall_insert_2; [|done]. split_and!; [done..|]. by rewrite Hempty.
  - rewrite order_indexes_insert by done. by rewrite Hempty.
  - destruct (ch_pinned_order x) as [o|]; [|done]. rewrite fmap_app. apply NoDup_app. split_and!; [done| |apply NoDup_singleton].
    intros o' Ho' ->%list_elem_of_singleton. by apply (Hpin o).
  - intros p. rewrite pin_of_insert, <- H5 by done. destruct (ch_pinned_order x) as [o|]; [|by split; [right|intros [[? _]|?]]].
    rewrite elem_of_app, list_elem_of_singleton. destruct p as [o' r']. cbn. split.
    + intros [?|[= -> ->]]; auto.
    + intros [[[= ->] ->]|?]; auto.
Qed.
Lemma kept_extend {T M} (l : MList T M) iter : M = Store -> kept (extend l iter) = kept l ++ iter.
Proof. by destruct l. Qed.
Lemma wrap_error_Ok {A} id i (r : outcome ChatItemError A) : yields (fun a => r = Ok a) (wrap_error Store id i r).
Proof. destruct r as [a|e|]; [by apply yields_Ok|by apply yields_bind|done]. Qed.
Lemma set_order_index_fits mt rs c n i : fits_chat mt rs c i -> fits_chat mt rs c (set_order_index Store n i).
Proof. by intros ([] & ? & ?). Qed.
Lemma add_item_consistent mt rs (c' : ChatsData Store) (id : ChatId) (i : ChatItemData Store Ref) :
  sound_item mt i -> knows_reference rs (ci_author i) -> data_consistent mt rs c' ->
  yields (data_consistent mt rs) (ChatsData_add_chat_item Store c' id i).
Proof.
  intros Hs Ha [H1 H2 H3 H4 H5].
  unfold ChatsData_add_chat_item. apply yields_bind. intros c Hc%wrap_error_Ok%ok_or_Ok. apply yields_bind. intros [] Hv%wrap_error_Ok.
  apply yields_Ok. unfold data_consistent. cbn [items pinned chat_items_count]. pose proof (H2 id c Hc) as (Hr & Hk & Hi).
  set (i' := set_order_index Store (chat_items_count Store c') i).
  assert (kept (ch_items (add_to_chat Store [i'] c)) = kept (ch_items c) ++ [i']) as Hkept by (by apply kept_extend).
  constructor.
  - rewrite lookup_insert_ne; [done|]. intros ->. by rewrite H1 in Hc.
  - apply map_Forall_insert_2; [|done]. split_and!; [done..|]. rewrite Hkept. apply Forall_app. split; [done|].
    constructor; [|done]. by apply set_order_index_fits.
  - destruct H3 as [H0 H3]. split; [lia|]. rewrite <- insert_delete_eq, order_indexes_insert by (by rewrite lookup_delete_eq).
    rewrite Hkept, fmap_app, (Permutation_app_comm (_ <$> kept (ch_items c))), <- app_assoc, <- (order_indexes_delete _ id c) by done.
    rewrite H3, seqZ_app, Permutation_app_comm by lia. done.
  - done.
  - intros p. rewrite (pin_of_update _ id c) by done. apply H5.
Qed.

(** Handlers. *)
Definition keeps {E} (m : M PB E ()) (b : PB) : Prop := consistent (m b).2.
Lemma keeps_get {E} (k : PB -> M PB E ()) b : keeps (k b) b -> keeps (get ≫= k) b.
Proof. done. Qed.
Lemma keeps_lift {E A} (x : outcome E A) (k : A -> M PB E ()) b : consistent b -> (forall a, x = Ok a -> keeps (k a) b) -> keeps (lift x ≫= k) b.
Proof. intros Hb Hk. unfold keeps. rewrite M_bind_eq. unfold lift. destruct x; [by apply Hk|done|done]. Qed.
Lemma keeps_map_err {E F} (f : E -> F) (m : M PB E ()) b : keeps m b -> keeps (map_err_M f m) b.
Proof. unfold keeps, map_err_M. by destruct (m b). Qed.
Ltac keeps_step := first [apply keeps_get|apply keeps_lift; [assumption|intros ?a ?Ha]].

Lemma add_recipient_consistent x b : consistent b -> keeps (add_recipient Store x) b.
Proof.
  intros Hb. unfold add_recipient. do 3 keeps_step. destruct (recipients Store b !! proto.Recipient_id x) eqn:Hx; [done|].
  destruct Hb as [H0 Hd]. assert (proto.Recipient_id x <> 0) as Hne by (intros E; rewrite E in Ha; done).
  split; cbn.
  - by rewrite lookup_insert_ne.
  - eapply chats_consistent_mono; [by apply insert_subseteq|exact Hd].
Qed.
Lemma lookup_pair_knows b id m r : lookup_pair Store b id = Some (m, r) -> knows_reference (recipients Store b) r /\ m = Full_minimal r.
Proof. unfold lookup_pair. intros (d & Hd & [= -> ->])%fmap_Some. split; [by exists id|done]. Qed.
Lemma Chat_try_from_consistent b x : yields (fun c => knows_reference (recipients Store b) (ch_recipient c) /\
    ChatRecipientKind_try_from (Full_minimal (ch_recipient c)) = Ok (ch_cached_recipient_info c) /\ kept (ch_items c) = [] /\
    forall o, ch_pinned_order c = Some o -> o ∉ (pinned Store (chats Store b)).*1)
  (Chat_try_from Store (lookup_pair Store b) (lookup_pin Store b) (lookup_color Store b) x).
Proof.
  unfold Chat_try_from. destruct x as [id rid ar pin et mu unread dn style ev]. yields_step. apply ok_or_Ok in Ha. destruct a as [m r].
  apply lookup_pair_knows in Ha as [Hr ->]. apply yields_bind. intros kind Hk%map_err_Ok. yields_step. apply yields_bind. intros st _.
  apply yields_bind. intros mu' _. apply yields_bind. intros [] _. apply yields_Ok. cbn. split_and!; [done|done|done|].
  intros o ->. unfold lookup_pin in Ha. clear -Ha. induction (pinned Store (chats Store b)) as [|[o' r'] l IH]; [by apply not_elem_of_nil|].
  cbn in Ha |- *. destruct (Z.eqb_spec o' o) as [->|Hne]; [done|]. apply not_elem_of_cons. split; [congruence|]. by apply IH.
Qed.
Lemma add_chat_keeps x b : consistent b -> keeps (add_chat Store x) b.
Proof.
  intros Hb. unfold add_chat. do 4 keeps_step. destruct Hb as [H0 Hd].
  assert (proto.Chat_id x <> 0) as Hne by (intros E; rewrite E in Ha; done).
  apply map_err_Ok in Ha0. destruct (Chat_try_from_consistent b x _ Ha0) as (Hr & Hk & Hi & Hp).
  split; [exact H0|]. by eapply add_chat_consistent.
Qed.
Lemma add_chat_item_keeps x b : consistent b -> keeps (add_chat_item Store x) b.
Proof.
  intros Hb. unfold add_chat_item. do 3 keeps_step. apply map_err_Ok in Ha, Ha0. destruct Hb as [H0 Hd].
  split; [exact H0|]. eapply add_item_consistent; [| |exact Hd|exact Ha0].
  - by eapply ChatItem_sound.
  - pose proof (ChatItem_author _ _ _ _ Ha) as Hau. apply fmap_Some in Hau as ([m r] & Hl & ->). by apply lookup_pair_knows in Hl as [? _].
Qed.
Lemma add_frame_keeps f b : consistent b -> keeps (add_frame_ Store f) b.
Proof.
  intros Hb. unfold add_frame_. keeps_step. destruct a; cbn [add_frame_item]; try apply keeps_map_err.
  all: try (first [by apply add_recipient_consistent|by apply add_chat_keeps|by apply add_chat_item_keeps]).
  all: unfold add_account_data, add_ad_hoc_call, add_sticker_pack, add_notification_profile, add_chat_folder; repeat keeps_step; try exact Hb.
  by case_match.
Qed.

Lemma new_consistent info purpose : yields consistent (PartialBackup_new_ Store info purpose).
Proof.
  unfold PartialBackup_new_. destruct info. do 2 yields_step. apply yields_Ok. split; cbn; [done|]. constructor; cbn; try done.
  - apply NoDup_nil_2.
  - intros p. split; [by intros ?%elem_of_nil|]. by intros (id & c & Hc & _).
Qed.
Lemma add_frames_consistent frames b : consistent b -> yields consistent (add_frames Store frames b).
Proof.
  revert b. induction frames as [|f frames IH]; intros b Hb; [by apply yields_Ok|]. cbn [add_frames].
  pose proof (add_frame_keeps f b Hb) as Hk. unfold keeps in Hk. destruct (add_frame_ Store f b) as [[[]| |] b']; [by apply IH|done|done].
Qed.

(** C14: A backup that is kept is consistent, whatever frames it was read from: no recipient and no chat has the
    id 0; the recipient of every chat is one of the backup, of a kind that can have a chat; every
    item is sound, is by a recipient of the backup and fits the chat it is in; the items have
    the numbers from 0 to their count, each once; and the pins are those of the pinned chats,
    no two at one position. *)
Theorem kept_backup_is_consistent info purpose frames b : read_frames Store info purpose frames = Ok b -> consistent b.
Proof. revert b. apply yields_bind. intros b0 Hb0. apply add_frames_consistent. by eapply new_consistent. Qed.
End kept_backup.
