(* ===== verification/Toy.v ===== *)
(** * Toy: a concrete instance of the third-party interfaces, and two clients on it

    First small, insecure functions that satisfy every law class of [Primitives],
    [Ratchet] and [Messages], then Alice and Bob with the in-memory stores. *)

From S2P Require Import Prelude Types Primitives Proto Curve Kem Crypto IdentityKey IncrementalMac RatchetKeys Messages SessionState SessionRecord Ratchet KeyStream SenderKeys Stores Session SessionCipher ChainRefinement SessionInvariant CipherSpec.

(** ** The third-party interfaces

    Small, insecure functions that satisfy every law class of [Primitives],
    [Ratchet] and [Messages], so that the hypotheses of the theorems can hold
    and the model can be run on concrete inputs: a prefix-free byte codec for
    the protobuf messages (section [codec]) and one-byte cryptography (the
    group is the integers modulo 256).  Nothing here models the repository. *)
Import fingerprint.
Open Scope string_scope.
Open Scope list_scope.
Open Scope Z_scope.

(** ** A codec *)

Class Codec (A : Type) := {
  enc : A -> bytes;
  dec : bytes -> option (A * bytes)
}.
Class CodecLaw (A : Type) `{Codec A} := {
  dec_enc : forall a tail, dec (enc a ++ tail) = Some (a, tail)
}.

Section codec.
Context {A B : Type} `{CA : !Codec A, LA : !CodecLaw A, CB : !Codec B, LB : !CodecLaw B}.

#[export] Instance byte_codec : Codec byte := {
  enc b := [b];
  dec l := match l with b :: l => Some (b, l) | [] => None end
}.
#[export] Instance byte_codec_law : CodecLaw byte.
Proof. by constructor. Qed.

Fixpoint enc_positive (p : positive) : bytes :=
  match p with
  | xH => [Byte.x02]
  | xO p => Byte.x00 :: enc_positive p
  | xI p => Byte.x01 :: enc_positive p
  end.
Fixpoint dec_positive (l : bytes) : option (positive * bytes) :=
  match l with
  | Byte.x02 :: l => Some (xH, l)
  | Byte.x00 :: l => '(p, l) ← dec_positive l; Some (xO p, l)
  | Byte.x01 :: l => '(p, l) ← dec_positive l; Some (xI p, l)
  | _ => None
  end.
Lemma dec_enc_positive p tail : dec_positive (enc_positive p ++ tail) = Some (p, tail).
Proof. induction p as [p IH|p IH|]; cbn; [by rewrite IH|by rewrite IH|done]. Qed.

#[export] Instance Z_codec : Codec Z := {
  enc z := match z with
           | Z0 => [Byte.x00]
           | Zpos p => Byte.x01 :: enc_positive p
           | Zneg p => Byte.x02 :: enc_positive p
           end;
  dec l := match l with
           | Byte.x00 :: l => Some (Z0, l)
           | Byte.x01 :: l => '(p, l) ← dec_positive l; Some (Zpos p, l)
           | Byte.x02 :: l => '(p, l) ← dec_positive l; Some (Zneg p, l)
           | _ => None
           end
}.
#[export] Instance Z_codec_law : CodecLaw Z.
Proof. constructor. intros [|p|p] tail; cbn; [done| |]; by rewrite dec_enc_positive. Qed.

#[export] Instance option_codec : Codec (option A) := {
  enc o := match o with None => [Byte.x00] | Some a => Byte.x01 :: enc a end;
  dec l := match l with
           | Byte.x00 :: l => Some (None, l)
           | Byte.x01 :: l => '(a, l) ← dec l; Some (Some a, l)
           | _ => None
           end
}.
#[export] Instance option_codec_law : CodecLaw (option A).
Proof. constructor. intros [a|] tail; cbn; [by rewrite dec_enc|done]. Qed.

#[export] Instance pair_codec : Codec (A * B) := {
  enc '(a, b) := enc a ++ enc b;
  dec l := '(a, l) ← dec l; '(b, l) ← dec l; Some (a, b, l)
}.
#[export] Instance pair_codec_law : CodecLaw (A * B).
Proof.
  constructor. intros [a b] tail. cbn. rewrite <- app_assoc, dec_enc. cbn. by rewrite dec_enc.
Qed.

Fixpoint enc_list (l : list A) : bytes :=
  match l with [] => [Byte.x00] | a :: l => Byte.x01 :: enc a ++ enc_list l end.
Fixpoint dec_list (fuel : nat) (l : bytes) : option (list A * bytes) :=
  match fuel, l with
  | S _, Byte.x00 :: l => Some ([], l)
  | S fuel, Byte.x01 :: l => '(a, l) ← dec l; '(r, l) ← dec_list fuel l; Some (a :: r, l)
  | _, _ => None
  end.
Lemma dec_enc_list l tail : forall fuel,
  (length l < fuel)%nat -> dec_list fuel (enc_list l ++ tail) = Some (l, tail).
Proof.
  induction l as [|a l IH]; intros [|fuel] Hf; cbn in *; try lia; [done|].
  rewrite <- app_assoc, dec_enc. cbn. by rewrite IH by lia.
Qed.
Lemma enc_list_length l : (length l < length (enc_list l))%nat.
Proof. induction l as [|a l IH]; cbn; [lia|]. rewrite length_app. lia. Qed.

#[export] Instance list_codec : Codec (list A) := {
  enc := enc_list; dec l := dec_list (S (length l)) l
}.
#[export] Instance list_codec_law : CodecLaw (list A).
Proof.
  constructor. intros l tail. cbn -[dec_list]. apply dec_enc_list. rewrite length_app.
  pose proof (enc_list_length l). lia.
Qed.
End codec.

(** A record is a tuple of its fields. *)
Section iso.
Context {A B : Type} `{CA : !Codec A, LA : !CodecLaw A} (f : B -> A) (g : A -> B).

Definition iso_codec : Codec B := {|
  enc b := enc (f b);
  dec l := '(a, l) ← dec l; Some (g a, l)
|}.
Lemma iso_codec_law : (forall b, g (f b) = b) -> @CodecLaw B iso_codec.
Proof. intros H. constructor. intros b tail. cbn. rewrite dec_enc. cbn. by rewrite H. Qed.

(** The codec of a whole message. *)
Definition iso_prost : Prost B := {|
  encode_to_vec b := enc (f b);
  decode_pb l := '(a, l) ← dec l; match l with [] => Some (g a) | _ => None end
|}.
Lemma iso_prost_laws wf : (forall b, g (f b) = b) -> @ProstLaws B iso_prost wf.
Proof.
  intros H. constructor. intros b _. cbn. rewrite <- (app_nil_r (enc (f b))), dec_enc. cbn.
  by rewrite H.
Qed.
End iso.

Lemma enc_list_ge (l : bytes) : (length l <= length (enc l))%nat.
Proof. pose proof (enc_list_length l). cbn in *. lia. Qed.

(** ** The messages of the protocol crate *)

Ltac iso_law := intros []; reflexivity.

Definition SignalMessage_fields (m : wire.SignalMessage) :=
  (wire.sm_ratchet_key m,
   wire.sm_counter m,
   wire.sm_previous_counter m,
   wire.sm_ciphertext m,
   wire.sm_pq_ratchet m).
#[export] Instance SignalMessage_prost : Prost wire.SignalMessage :=
  iso_prost SignalMessage_fields (fun '(x0, x1, x2, x3, x4) => wire.mkSignalMessage x0 x1 x2 x3 x4).
#[export] Instance SignalMessage_prost_laws wf : ProstLaws wire.SignalMessage wf.
Proof. apply iso_prost_laws. iso_law. Qed.

Definition PreKeySignalMessage_fields (m : wire.PreKeySignalMessage) :=
  (wire.pksm_registration_id m,
   wire.pksm_pre_key_id m,
   wire.pksm_signed_pre_key_id m,
   wire.pksm_kyber_pre_key_id m,
   wire.pksm_kyber_ciphertext m,
   wire.pksm_base_key m,
   wire.pksm_identity_key m,
   wire.pksm_message m).
#[export] Instance PreKeySignalMessage_prost : Prost wire.PreKeySignalMessage :=
  iso_prost PreKeySignalMessage_fields (fun '(x0, x1, x2, x3, x4, x5, x6, x7) => wire.mkPreKeySignalMessage x0 x1 x2 x3 x4 x5 x6 x7).
#[export] Instance PreKeySignalMessage_prost_laws wf : ProstLaws wire.PreKeySignalMessage wf.
Proof. apply iso_prost_laws. iso_law. Qed.

Definition SenderKeyMessage_fields (m : wire.SenderKeyMessage) :=
  (wire.skm_distribution_uuid m,
   wire.skm_chain_id m,
   wire.skm_iteration m,
   wire.skm_ciphertext m).
#[export] Instance SenderKeyMessage_prost : Prost wire.SenderKeyMessage :=
  iso_prost SenderKeyMessage_fields (fun '(x0, x1, x2, x3) => wire.mkSenderKeyMessage x0 x1 x2 x3).
#[export] Instance SenderKeyMessage_prost_laws wf : ProstLaws wire.SenderKeyMessage wf.
Proof. apply iso_prost_laws. iso_law. Qed.

Definition SenderKeyDistributionMessage_fields (m : wire.SenderKeyDistributionMessage) :=
  (wire.skdm_distribution_uuid m,
   wire.skdm_chain_id m,
   wire.skdm_iteration m,
   wire.skdm_chain_key m,
   wire.skdm_signing_key m).
#[export] Instance SenderKeyDistributionMessage_prost : Prost wire.SenderKeyDistributionMessage :=
  iso_prost SenderKeyDistributionMessage_fields (fun '(x0, x1, x2, x3, x4) => wire.mkSenderKeyDistributionMessage x0 x1 x2 x3 x4).
#[export] Instance SenderKeyDistributionMessage_prost_laws wf : ProstLaws wire.SenderKeyDistributionMessage wf.
Proof. apply iso_prost_laws. iso_law. Qed.

Definition Content_fields (m : service.Content) :=
  (service.ct_data_message m,
   service.ct_sync_message m,
   service.ct_call_message m,
   service.ct_null_message m,
   service.ct_receipt_message m,
   service.ct_typing_message m,
   service.ct_sender_key_distribution_message m,
   service.ct_decryption_error_message m).
#[export] Instance Content_prost : Prost service.Content :=
  iso_prost Content_fields (fun '(x0, x1, x2, x3, x4, x5, x6, x7) => service.mkContent x0 x1 x2 x3 x4 x5 x6 x7).
#[export] Instance Content_prost_laws wf : ProstLaws service.Content wf.
Proof. apply iso_prost_laws. iso_law. Qed.

Definition DecryptionErrorMessage_fields (m : service.DecryptionErrorMessage) :=
  (service.dem_ratchet_key m, service.dem_timestamp m, service.dem_device_id m).
#[export] Instance DecryptionErrorMessage_prost : Prost service.DecryptionErrorMessage :=
  iso_prost DecryptionErrorMessage_fields (fun '(x0, x1, x2) => service.mkDecryptionErrorMessage x0 x1 x2).
#[export] Instance DecryptionErrorMessage_prost_laws wf : ProstLaws service.DecryptionErrorMessage wf.
Proof. apply iso_prost_laws. iso_law. Qed.

Definition ChainKey_fields (m : storage.ChainKey) :=
  (storage.ck_index m, storage.ck_key m).
#[export] Instance ChainKey_codec : Codec storage.ChainKey :=
  iso_codec ChainKey_fields (fun '(x0, x1) => storage.mkChainKey x0 x1).
#[export] Instance ChainKey_codec_law : CodecLaw storage.ChainKey.
Proof. apply iso_codec_law. iso_law. Qed.

Definition MessageKey_fields (m : storage.MessageKey) :=
  (storage.mk_index m,
   storage.mk_cipher_key m,
   storage.mk_mac_key m,
   storage.mk_iv m,
   storage.mk_seed m).
#[export] Instance MessageKey_codec : Codec storage.MessageKey :=
  iso_codec MessageKey_fields (fun '(x0, x1, x2, x3, x4) => storage.mkMessageKey x0 x1 x2 x3 x4).
#[export] Instance MessageKey_codec_law : CodecLaw storage.MessageKey.
Proof. apply iso_codec_law. iso_law. Qed.

Definition Chain_fields (m : storage.Chain) :=
  (storage.chain_sender_ratchet_key m,
   storage.chain_sender_ratchet_key_private m,
   storage.chain_chain_key m,
   storage.chain_message_keys m).
#[export] Instance Chain_codec : Codec storage.Chain :=
  iso_codec Chain_fields (fun '(x0, x1, x2, x3) => storage.mkChain x0 x1 x2 x3).
#[export] Instance Chain_codec_law : CodecLaw storage.Chain.
Proof. apply iso_codec_law. iso_law. Qed.

Definition PendingPreKey_fields (m : storage.PendingPreKey) :=
  (storage.ppk_pre_key_id m,
   storage.ppk_signed_pre_key_id m,
   storage.ppk_base_key m,
   storage.ppk_timestamp m).
#[export] Instance PendingPreKey_codec : Codec storage.PendingPreKey :=
  iso_codec PendingPreKey_fields (fun '(x0, x1, x2, x3) => storage.mkPendingPreKey x0 x1 x2 x3).
#[export] Instance PendingPreKey_codec_law : CodecLaw storage.PendingPreKey.
Proof. apply iso_codec_law. iso_law. Qed.

Definition PendingKyberPreKey_fields (m : storage.PendingKyberPreKey) :=
  (storage.pkpk_pre_key_id m, storage.pkpk_ciphertext m).
#[export] Instance PendingKyberPreKey_codec : Codec storage.PendingKyberPreKey :=
  iso_codec PendingKyberPreKey_fields (fun '(x0, x1) => storage.mkPendingKyberPreKey x0 x1).
#[export] Instance PendingKyberPreKey_codec_law : CodecLaw storage.PendingKyberPreKey.
Proof. apply iso_codec_law. iso_law. Qed.

Definition SessionStructure_fields (m : storage.SessionStructure) :=
  (storage.ss_session_version m,
   storage.ss_local_identity_public m,
   storage.ss_remote_identity_public m,
   storage.ss_root_key m,
   storage.ss_previous_counter m,
   storage.ss_sender_chain m,
   storage.ss_receiver_chains m,
   storage.ss_pending_pre_key m,
   storage.ss_pending_kyber_pre_key m,
   storage.ss_remote_registration_id m,
   storage.ss_local_registration_id m,
   storage.ss_alice_base_key m,
   storage.ss_pq_ratchet_state m).
#[export] Instance SessionStructure_codec : Codec storage.SessionStructure :=
  iso_codec SessionStructure_fields (fun '(x0, x1, x2, x3, x4, x5, x6, x7, x8, x9, x10, x11, x12) => storage.mkSessionStructure x0 x1 x2 x3 x4 x5 x6 x7 x8 x9 x10 x11 x12).
#[export] Instance SessionStructure_codec_law : CodecLaw storage.SessionStructure.
Proof. apply iso_codec_law. iso_law. Qed.
#[export] Instance SessionStructure_prost : Prost storage.SessionStructure :=
  iso_prost SessionStructure_fields (fun '(x0, x1, x2, x3, x4, x5, x6, x7, x8, x9, x10, x11, x12) => storage.mkSessionStructure x0 x1 x2 x3 x4 x5 x6 x7 x8 x9 x10 x11 x12).
#[export] Instance SessionStructure_prost_laws wf : ProstLaws storage.SessionStructure wf.
Proof. apply iso_prost_laws. iso_law. Qed.

Definition RecordStructure_fields (m : storage.RecordStructure) :=
  (storage.rs_current_session m, storage.rs_previous_sessions m).
#[export] Instance RecordStructure_prost : Prost storage.RecordStructure :=
  iso_prost RecordStructure_fields (fun '(x0, x1) => storage.mkRecordStructure x0 x1).
#[export] Instance RecordStructure_prost_laws wf : ProstLaws storage.RecordStructure wf.
Proof. apply iso_prost_laws. iso_law. Qed.

Definition PreKeyRecordStructure_fields (m : storage.PreKeyRecordStructure) :=
  (storage.pkr_id m, storage.pkr_public_key m, storage.pkr_private_key m).
#[export] Instance PreKeyRecordStructure_prost : Prost storage.PreKeyRecordStructure :=
  iso_prost PreKeyRecordStructure_fields (fun '(x0, x1, x2) => storage.mkPreKeyRecordStructure x0 x1 x2).
#[export] Instance PreKeyRecordStructure_prost_laws wf : ProstLaws storage.PreKeyRecordStructure wf.
Proof. apply iso_prost_laws. iso_law. Qed.

Definition SignedPreKeyRecordStructure_fields (m : storage.SignedPreKeyRecordStructure) :=
  (storage.spkr_id m,
   storage.spkr_public_key m,
   storage.spkr_private_key m,
   storage.spkr_signature m,
   storage.spkr_timestamp m).
#[export] Instance SignedPreKeyRecordStructure_prost : Prost storage.SignedPreKeyRecordStructure :=
  iso_prost SignedPreKeyRecordStructure_fields (fun '(x0, x1, x2, x3, x4) => storage.mkSignedPreKeyRecordStructure x0 x1 x2 x3 x4).
#[export] Instance SignedPreKeyRecordStructure_prost_laws wf : ProstLaws storage.SignedPreKeyRecordStructure wf.
Proof. apply iso_prost_laws. iso_law. Qed.

Definition IdentityKeyPairStructure_fields (m : storage.IdentityKeyPairStructure) :=
  (storage.ikp_public_key m, storage.ikp_private_key m).
#[export] Instance IdentityKeyPairStructure_prost : Prost storage.IdentityKeyPairStructure :=
  iso_prost IdentityKeyPairStructure_fields (fun '(x0, x1) => storage.mkIdentityKeyPairStructure x0 x1).
#[export] Instance IdentityKeyPairStructure_prost_laws wf : ProstLaws storage.IdentityKeyPairStructure wf.
Proof. apply iso_prost_laws. iso_law. Qed.

Definition SenderChainKey_fields (m : storage.SenderChainKey) :=
  (storage.sck_iteration m, storage.sck_seed m).
#[export] Instance SenderChainKey_codec : Codec storage.SenderChainKey :=
  iso_codec SenderChainKey_fields (fun '(x0, x1) => storage.mkSenderChainKey x0 x1).
#[export] Instance SenderChainKey_codec_law : CodecLaw storage.SenderChainKey.
Proof. apply iso_codec_law. iso_law. Qed.

Definition SenderMessageKey_fields (m : storage.SenderMessageKey) :=
  (storage.smk_iteration m, storage.smk_seed m).
#[export] Instance SenderMessageKey_codec : Codec storage.SenderMessageKey :=
  iso_codec SenderMessageKey_fields (fun '(x0, x1) => storage.mkSenderMessageKey x0 x1).
#[export] Instance SenderMessageKey_codec_law : CodecLaw storage.SenderMessageKey.
Proof. apply iso_codec_law. iso_law. Qed.

Definition SenderSigningKey_fields (m : storage.SenderSigningKey) :=
  (storage.ssk_public m, storage.ssk_private m).
#[export] Instance SenderSigningKey_codec : Codec storage.SenderSigningKey :=
  iso_codec SenderSigningKey_fields (fun '(x0, x1) => storage.mkSenderSigningKey x0 x1).
#[export] Instance SenderSigningKey_codec_law : CodecLaw storage.SenderSigningKey.
Proof. apply iso_codec_law. iso_law. Qed.

Definition SenderKeyStateStructure_fields (m : storage.SenderKeyStateStructure) :=
  (storage.sks_message_version m,
   storage.sks_chain_id m,
   storage.sks_sender_chain_key m,
   storage.sks_sender_signing_key m,
   storage.sks_sender_message_keys m).
#[export] Instance SenderKeyStateStructure_codec : Codec storage.SenderKeyStateStructure :=
  iso_codec SenderKeyStateStructure_fields (fun '(x0, x1, x2, x3, x4) => storage.mkSenderKeyStateStructure x0 x1 x2 x3 x4).
#[export] Instance SenderKeyStateStructure_codec_law : CodecLaw storage.SenderKeyStateStructure.
Proof. apply iso_codec_law. iso_law. Qed.

Definition SenderKeyRecordStructure_fields (m : storage.SenderKeyRecordStructure) :=
  storage.skr_sender_key_states m.
#[export] Instance SenderKeyRecordStructure_prost : Prost storage.SenderKeyRecordStructure :=
  iso_prost SenderKeyRecordStructure_fields (fun x0 => storage.mkSenderKeyRecordStructure x0).
#[export] Instance SenderKeyRecordStructure_prost_laws wf : ProstLaws storage.SenderKeyRecordStructure wf.
Proof. apply iso_prost_laws. iso_law. Qed.

Definition LogicalFingerprint_fields (m : LogicalFingerprint) := lf_content m.
#[export] Instance LogicalFingerprint_codec : Codec LogicalFingerprint :=
  iso_codec LogicalFingerprint_fields (fun x0 => mkLogicalFingerprint x0).
#[export] Instance LogicalFingerprint_codec_law : CodecLaw LogicalFingerprint.
Proof. apply iso_codec_law. iso_law. Qed.

Definition CombinedFingerprints_fields (m : CombinedFingerprints) :=
  (cf_version m, cf_local_fingerprint m, cf_remote_fingerprint m).
#[export] Instance CombinedFingerprints_prost : Prost CombinedFingerprints :=
  iso_prost CombinedFingerprints_fields (fun '(x0, x1, x2) => mkCombinedFingerprints x0 x1 x2).
#[export] Instance CombinedFingerprints_prost_laws wf : ProstLaws CombinedFingerprints wf.
Proof. apply iso_prost_laws. iso_law. Qed.

#[export] Instance skdm_encoding_length_law : SkdmEncodingLength.
Proof.
  constructor. intros [did chain it ck sk] chain_key signing_key. cbn [wire.skdm_chain_key
    wire.skdm_signing_key]. intros -> ->.
  pose proof (enc_list_ge chain_key). pose proof (enc_list_ge signing_key).
  unfold encode_to_vec, SenderKeyDistributionMessage_prost, iso_prost, SenderKeyDistributionMessage_fields.
  cbn -[enc_list]. rewrite !length_app. cbn in *. lia.
Qed.

(** ** The primitives *)

Lemma repeat_ok n (b : byte) : Nat.eqb (length (replicate n b)) n = true.
Proof. apply Nat.eqb_eq, length_replicate. Qed.

(** [n] copies of a byte; a byte followed by zeros. *)
Definition copies (n : nat) (b : byte) : array n := Array (replicate n b) (repeat_ok n b).
Lemma padded_ok (b : byte) : Nat.eqb (length (b :: replicate 31 Byte.x00)) 32 = true.
Proof. done. Qed.
Definition padded (b : byte) : array 32 := Array (b :: replicate 31 Byte.x00) (padded_ok b).

Definition first_byte (l : bytes) : byte := default Byte.x00 (head l).

(** A position-dependent checksum. *)
Fixpoint checksum (l : bytes) : Z :=
  match l with [] => 7 | b :: l => (u8 b + 31 * checksum l) mod 65521 end.
Definition hash (l : bytes) : byte := as_u8 (checksum l).

Definition pkcs7 (p : bytes) : bytes :=
  let n := (16 - Nat.modulo (length p) 16)%nat in p ++ replicate n (as_u8 (Z.of_nat n)).
Definition unpkcs7 (c : bytes) : option bytes :=
  if (length c mod 16 =? 0)%nat then
    match last c with
    | Some b => if (1 <=? u8 b) && (u8 b <=? 16) then Some (take (length c - Z.to_nat (u8 b)) c) else None
    | None => None
    end
  else None.

#[export] Instance toy_primitives : Primitives := {|
  Rng := Z;
  fill_bytes n r := (copies n (as_u8 r), r + 1);
  random_array n r := (copies n (as_u8 r), r + 1);
  random_u32 r := (r mod 2 ^ 32, r + 1);
  hmac_sha256_mac k m := copies 32 (hash (k ++ m));
  hkdf_sha256 salt ikm info n := copies n (hash (default [] salt ++ ikm ++ info));
  sha512 m := copies 64 (hash m);
  aes256_cbc_pkcs7_encrypt k iv p := pkcs7 p;
  aes256_cbc_pkcs7_decrypt k iv c := unpkcs7 c;
  aes256_ctr32be k iv p := p;
  clamp_integer k := k;
  x25519_public k := padded (first_byte k);
  x25519_agreement k u := padded (as_u8 (u8 (first_byte k) * u8 (first_byte u)));
  Scalar := byte;
  EdwardsPoint := byte;
  scalar_from_bytes_mod_order k := first_byte k;
  scalar_from_hash h := first_byte h;
  scalar_mul a b := as_u8 (u8 a * u8 b);
  scalar_add a b := as_u8 (u8 a + u8 b);
  scalar_to_bytes s := padded s;
  basepoint_mul s := s;
  point_neg p := as_u8 (- u8 p);
  point_compress p := padded p;
  double_scalar_mul_basepoint a A b := as_u8 (u8 a * u8 A + u8 b);
  mont_to_edwards u sign := Some (first_byte u);
  point_is_torsion_free p := true;
  kyber1024_public_key_length := 1;
  kyber1024_secret_key_length := 1;
  kyber1024_ciphertext_length := 1;
  kyber1024_generate_key_pair r := ([first_byte r], [first_byte r]);
  kyber1024_encapsulate pk r := ([first_byte r], pk ++ [first_byte r]);
  kyber1024_decapsulate sk ct := sk ++ ct;
  SpqrError := unit;
  spqr_is_StateDecode e := true;
  spqr_error_display e := "toy";
  spqr_initial_state p := Ok (arr (sp_auth_key p));
  spqr_send st rng := (Ok (mkSpqrSend st (Some st) []), rng);
  spqr_recv st msg := Ok (mkSpqrRecv st (Some st))
|}.

#[export] Instance toy_sha256 : Sha256 := {| sha256 m := copies 32 (hash m) |}.
#[export] Instance toy_rng : RngLaws.
Proof.
  constructor. intros rng. cbn -[Z.modulo Z.pow]. unfold is_u32, u32_max.
  pose proof (Z.mod_pos_bound rng (2 ^ 32) ltac:(lia)). lia.
Qed.

#[export] Instance toy_x25519 : X25519Laws.
Proof.
  constructor.
  - done.
  - intros a b. cbn. f_equal. f_equal. lia.
  - intros a. by eexists.
  - intros a. cbn -[u8 Z.pow]. pose proof (u8_range (first_byte a)).
    assert (forall n, le_value (replicate n Byte.x00) = 0) as Hz
      by (induction n as [|n IH]; cbn; [done|rewrite IH; done]).
    change (u8 (first_byte a) + 256 * le_value (replicate 31 Byte.x00) < 2 ^ 255 - 19).
    rewrite Hz. lia.
Qed.

Lemma unpkcs7_pkcs7 p : unpkcs7 (pkcs7 p) = Some p.
Proof.
  unfold unpkcs7, pkcs7. cbv zeta. set (n := (16 - length p mod 16)%nat).
  assert (1 <= n <= 16)%nat as Hn.
  { subst n. pose proof (Nat.mod_upper_bound (length p) 16 ltac:(lia)). lia. }
  assert (last (p ++ replicate n (as_u8 (Z.of_nat n))) = Some (as_u8 (Z.of_nat n))) as ->.
  { destruct n as [|n]; [lia|]. by rewrite replicate_S_end, app_assoc, last_snoc. }
  rewrite u8_as_u8, Z.mod_small, Nat2Z.id, length_app, length_replicate by lia.
  assert ((length p + n) mod 16 = 0)%nat as ->.
  { subst n. pose proof (Nat.div_mod_eq (length p) 16). pose proof (Nat.mod_upper_bound (length p) 16 ltac:(lia)).
    replace (length p + (16 - length p mod 16))%nat with (0 + (length p / 16 + 1) * 16)%nat by lia. by rewrite Nat.Div0.mod_add. }
  destruct (Z.leb_spec 1 (Z.of_nat n)), (Z.leb_spec (Z.of_nat n) 16); try lia. cbn [Nat.eqb andb].
  by rewrite take_app_length' by lia.
Qed.

#[export] Instance toy_aes : AesLaws.
Proof.
  constructor.
  - intros k iv p. apply unpkcs7_pkcs7.
  - intros k iv p. cbn [aes256_cbc_pkcs7_encrypt toy_primitives]. unfold pkcs7. cbv zeta.
    rewrite length_app, length_replicate. exists (length p / 16)%nat.
    pose proof (Nat.div_mod (length p) 16 ltac:(lia)).
    pose proof (Nat.mod_upper_bound (length p) 16 ltac:(lia)). lia.
  - done.
Qed.

#[export] Instance toy_kem : KemLaws.
Proof. by constructor. Qed.

#[export] Instance toy_edwards : EdwardsLaws.
Proof.
  constructor.
  - done.
  - intros s. by vm_compute.
  - done.
  - intros h a r. cbn. apply u8_inj. rewrite !u8_as_u8.
    pose proof (Z.div_mod (- u8 a) 256 ltac:(lia)) as H1.
    pose proof (Z.div_mod (u8 h * u8 a) 256 ltac:(lia)) as H2.
    set (p := (u8 h * u8 a) mod 256) in *.
    pose proof (Z.div_mod (p + u8 r) 256 ltac:(lia)) as H3.
    set (n := (- u8 a) mod 256) in *. set (q := (p + u8 r) mod 256) in *.
    set (q1 := - u8 a / 256) in *. set (q2 := u8 h * u8 a / 256) in *.
    set (q3 := (p + u8 r) / 256) in *.
    replace (u8 h * n + q) with (u8 r + (- u8 h * q1 - q2 - q3) * 256) by nia.
    rewrite Z_mod_plus_full. apply Z.mod_small, u8_range.
Qed.

#[export] Instance toy_spqr : SpqrLaws.
Proof.
  constructor.
  - intros p. by eexists.
  - intros auth chain sa sb rng [= <-] [= <-]. eexists _, _, rng. split_and!; done.
Qed.

(** A MAC state is what was absorbed. *)
#[export] Instance toy_mac : MacOps := {|
  MacState := bytes;
  mac_update m b := m ++ b;
  mac_finalize m := arr (copies 32 (hash m))
|}.
#[export] Instance toy_mac_laws : MacLaws.
Proof. constructor; [apply app_nil_r|intros m a b; cbn; by rewrite app_assoc]. Qed.

Open Scope string_scope.
Open Scope list_scope.
Open Scope Z_scope.

Abbreviation Client := (Env InMemSessionStore InMemIdentityKeyStore InMemPreKeyStore
                          InMemSignedPreKeyStore InMemKyberPreKeyStore).
Abbreviation ClientM := (EM InMemSessionStore InMemIdentityKeyStore InMemPreKeyStore
                           InMemSignedPreKeyStore InMemKyberPreKeyStore).

(** The value of a computation that succeeds, and its final state. *)
Definition value_of {E A} (d : A) (m : outcome E A) : A := match m with Ok a => a | _ => d end.

Definition alice_identity : IdentityKeyPair := (IdentityKeyPair_generate 3).1.
Definition bob_identity : IdentityKeyPair := (IdentityKeyPair_generate 5).1.
Definition bob_signed : KeyPair := (KeyPair_generate 7).1.
Definition bob_one_time : KeyPair := (KeyPair_generate 9).1.
Definition bob_kyber : KemKeyPair := (KemKeyPair_generate Kyber1024 11).1.
Definition bobs : bob_keys := mkBobKeys bob_identity bob_signed (Some bob_one_time) bob_kyber.

Definition alice_address : ProtocolAddress := mkProtocolAddress "alice" (mkDeviceId 1).
Definition bob_address : ProtocolAddress := mkProtocolAddress "bob" (mkDeviceId 1).

Definition sign (m : bytes) (rng : Z) : bytes :=
  value_of [] (calculate_signature (ikp_private bob_identity) m rng).1.
Definition bob_signed_signature : bytes := sign (PublicKey_serialize (kp_public_key bob_signed)) 20.
Definition bob_kyber_signature : bytes := sign (Key_serialize (kkp_public_key bob_kyber)) 21.

Definition bob_bundle : PreKeyBundle :=
  mkPreKeyBundle 77 (mkDeviceId 1) (Some 31) (Some (kp_public_key bob_one_time))
    (mkSignedPreKey 32 (kp_public_key bob_signed) bob_signed_signature)
    (ikp_identity_key bob_identity)
    (mkKyberPreKey 33 (kkp_public_key bob_kyber) bob_kyber_signature).

Definition client (id : IdentityKeyPair) (registration : Z) (rng : Z) : Client :=
  mkEnv (mkInMemSessionStore ∅) (InMemIdentityKeyStore_new id registration)
    (mkInMemPreKeyStore ∅) (mkInMemSignedPreKeyStore ∅) (mkInMemKyberPreKeyStore ∅ ∅) rng.

Definition alice0 : Client := client alice_identity 76 100.
Definition bob0 : Client :=
  mkEnv (mkInMemSessionStore ∅) (InMemIdentityKeyStore_new bob_identity 77)
    (mkInMemPreKeyStore {[31 := PreKeyRecord_new 31 bob_one_time]})
    (mkInMemSignedPreKeyStore
       {[32 := spk_new (R := SignedPreKeyRecord) 32 0 bob_signed bob_signed_signature]})
    (mkInMemKyberPreKeyStore
       {[33 := spk_new (R := KyberPreKeyRecord) 33 0 bob_kyber bob_kyber_signature]} ∅)
    200.

Definition hello : bytes := byte_str "hello".
Definition no_message : CiphertextMessage := CMPlaintextContent (mkPlaintextContent []).

Definition alice1 : Client := (process_prekey_bundle bob_address bob_bundle 0 alice0).2.
Definition sent1 := message_encrypt hello bob_address 0 alice1.
Definition alice2 : Client := sent1.2.
Definition message1 : CiphertextMessage := value_of no_message sent1.1.
Definition bob1 : Client := (message_decrypt message1 alice_address bob0).2.
Definition sent2 := message_encrypt hello alice_address 0 bob1.
Definition bob2 : Client := sent2.2.
Definition message2 : CiphertextMessage := value_of no_message sent2.1.
Definition alice3 : Client := (message_decrypt message2 bob_address alice2).2.

Example scenario_setup : (process_prekey_bundle bob_address bob_bundle 0 alice0).1 = Ok tt.
Proof. vm_compute. reflexivity. Qed.
Example scenario_first : (message_decrypt message1 alice_address bob0).1 = Ok hello.
Proof. vm_compute. reflexivity. Qed.
Example scenario_reply : (message_decrypt message2 bob_address alice2).1 = Ok hello.
Proof. vm_compute. reflexivity. Qed.
Example scenario_replay :
  (message_decrypt message2 bob_address alice3).1 = Err (DuplicatedMessage 1 0).
Proof. vm_compute. reflexivity. Qed.
