(* ===== verification/Witnesses.v ===== *)
(** * Witnesses: the theorems at concrete inputs

    Each lemma applies one theorem of the development to the clients, keys and
    sessions of [Toy], with the primitives and the codec of [Toy], and
    discharges every hypothesis there. *)

From S2P Require Import Prelude Types Primitives Proto Curve Kem Crypto IdentityKey IncrementalMac Fingerprint RatchetKeys Messages SessionState SessionRecord Ratchet KeyStream SenderKeys Stores Session SessionCipher ChainRefinement SessionInvariant CipherSpec EndToEnd Trust GroupCipher Toy.
Open Scope string_scope.
Open Scope list_scope.
Open Scope Z_scope.

(** ** Keys and sessions of the scenario *)

(** A computation whose value is known runs to that value. *)
Lemma runs {St E A} (m : outcome E A * St) a : m.1 = Ok a -> m = (Ok a, m.2).
Proof. destruct m as [r s]. cbn. by intros ->. Qed.

Lemma alice_identity_ok : generated_identity alice_identity.
Proof. apply IdentityKeyPair_generate_ok. Qed.
Lemma bob_identity_ok : generated_identity bob_identity.
Proof. apply IdentityKeyPair_generate_ok. Qed.
Lemma bob_signed_ok : well_formed_pair bob_signed.
Proof. apply KeyPair_generate_well_formed. Qed.
Lemma bob_one_time_ok : well_formed_pair bob_one_time.
Proof. apply KeyPair_generate_well_formed. Qed.
Lemma bob_kyber_ok : generated_pair bob_kyber.
Proof. by eexists. Qed.
Lemma bobs_ok : bob_keys_ok bobs.
Proof.
  split_and!; [apply bob_identity_ok|apply bob_signed_ok|apply bob_one_time_ok|apply bob_kyber_ok].
Qed.

Lemma alice_ready0 : alice_ready alice0 alice_identity 76 bob_address (b_identity_key bob_bundle).
Proof.
  split_and!; try done; [apply alice_identity_ok|]. exists None. split; [done|].
  unfold record_bounded. cbn. lia.
Qed.

Lemma bob_bundle_of : bundle_of bob_bundle bobs.
Proof.
  split_and!; try done; by vm_compute.
Qed.

Lemma bob_ready0 : bob_ready bob0 bobs bob_bundle alice_address (ikp_identity_key alice_identity).
Proof.
  split_and!; try done.
  - by eexists.
  - exists (spk_new (R := SignedPreKeyRecord) 32 0 bob_signed bob_signed_signature). split; [done|].
    apply SignedPreKeyRecord_read_back, bob_signed_ok.
  - exists (spk_new (R := KyberPreKeyRecord) 33 0 bob_kyber bob_kyber_signature). split; [done|].
    apply KyberPreKeyRecord_read_back, bob_kyber_ok.
  - split; [|by eexists]. exists (PreKeyRecord_new 31 bob_one_time), bob_one_time.
    split; [done|]. split; [|done]. apply PreKeyRecord_read_back, bob_one_time_ok.
  - intros k. by eexists.
Qed.

(** ** First message, agreement *)

Lemma first_message_delivered_witness :
  exists e1 e2 m f' r',
    process_prekey_bundle bob_address bob_bundle 0 alice0 = (Ok tt, e1) /\
    message_encrypt hello bob_address 5 e1 = (Ok (CMPreKeySignalMessage m), e2) /\
    PreKeySignalMessage_try_from (pk_serialized m) = Ok m /\
    message_decrypt (CMPreKeySignalMessage m) alice_address bob0 = (Ok hello, f') /\
    load_session alice_address (session_store f') = Ok (Some r') /\
    remove_pre_key 31 (pre_key_store bob0) = (Ok tt, pre_key_store f').
Proof.
  apply (first_message_delivered alice0 bob0 alice_identity 76 bobs bob_bundle alice_address
    bob_address 0 5 hello).
  - apply alice_ready0.
  - apply bob_bundle_of.
  - apply bobs_ok.
  - apply bob_ready0.
  - split; vm_compute; congruence.
Defined.

Definition alice_base : KeyPair := (KeyPair_generate (P := toy_primitives) 13).1.
Lemma alice_base_ok : well_formed_pair alice_base.
Proof. apply KeyPair_generate_well_formed. Qed.

Lemma pqxdh_agreement_witness :
  exists sa csprng' ct sb k,
    initialize_alice_session (alice_parameters alice_identity alice_base bobs) (14 : @Rng toy_primitives)
      = (Ok sa, csprng') /\
    initialize_bob_session (bob_parameters bobs (ikp_identity_key alice_identity)
      (kp_public_key alice_base) ct) = Ok sb /\
    get_receiver_chain_key sa (kp_public_key (bk_signed bobs)) = Ok (Some k) /\
    get_sender_chain_key sb = Ok k.
Proof.
  destruct (pqxdh_agreement (P := toy_primitives) alice_identity alice_base bobs 14 alice_identity_ok
    alice_base_ok bobs_ok) as (sa & rng' & ct & sb & Ha & _ & Hb & [k [H1 H2]] & _).
  exists sa, rng', ct, sb, k. split_and!; assumption.
Defined.

(** ** Two ends of a chain *)

Definition id_a : IdentityKey := ikp_identity_key alice_identity.
Definition id_b : IdentityKey := ikp_identity_key bob_identity.
Definition chain_seed : array 32 := copies 32 Byte.x2a.
Definition ratchet_key : PublicKey := kp_public_key alice_base.

Definition blank (local remote : IdentityKey) : SessionState :=
  SessionState_new 4 local remote (mkRootKey (copies 32 Byte.x07)) ratchet_key [].
Definition sending : SessionState :=
  with_sender_chain (blank id_a id_b) alice_base (mkChainKey chain_seed 0).
Definition receiving_blank : SessionState :=
  with_sender_chain (blank id_b id_a) bob_signed (mkChainKey (copies 32 Byte.x2b) 0).
Definition receiving : SessionState :=
  add_receiver_chain_state ratchet_key (mkChainKey chain_seed 0) receiving_blank.

Lemma blank_well_formed : well_formed receiving_blank.
Proof. split; [cbn; lia|constructor]. Qed.

Lemma receiving_well_formed : well_formed receiving.
Proof. by apply (well_formed_add receiving_blank ratchet_key chain_seed blank_well_formed). Qed.

Lemma receiving_refines : refines receiving ratchet_key chain_seed (mkStream 0 []).
Proof.
  split; [apply fresh_stream_ok|].
  destruct (well_formed_add receiving_blank ratchet_key chain_seed blank_well_formed eq_refl)
    as [_ [i Hi]].
  exists (fresh_chain ratchet_key chain_seed), i. split; [exact Hi|apply fresh_chain_stream].
Qed.

Lemma receiving_not_self : session_with_self receiving = Ok false.
Proof. vm_compute. reflexivity. Qed.

Lemma sending_can_send :
  can_send sending (chain_key_at chain_seed 0) ratchet_key 4 id_a id_b.
Proof.
  destruct (sender_chain_eq sending alice_base (mkChainKey chain_seed 0) eq_refl) as [Hrk Hck].
  split_and!; try done; try (by vm_compute).
  - by apply local_identity_key_eq.
  - by apply remote_identity_key_eq.
Qed.

Lemma receiving_can_receive :
  can_receive receiving ratchet_key chain_seed (mkStream 0 []) 4 id_a id_b false.
Proof.
  split; [apply receiving_refines|]. split; [done|].
  split; [eexists; by apply root_key_eq|]. split; [by apply remote_identity_key_eq|].
  split; [by apply local_identity_key_eq|apply receiving_not_self].
Qed.

(** The seventh message of the chain arrives before the first. *)
Lemma message_key_request_refines_witness :
  exists s',
    message_key_request ratchet_key Whisper 6 (receiving, 1 : @Rng toy_primitives)
      = (Ok (message_key_at chain_seed 6), (s', 1)) /\
    refines s' ratchet_key chain_seed (mkStream 7 [5; 4; 3; 2; 1; 0]).
Proof.
  destruct (message_key_request_refines (P := toy_primitives) receiving ratchet_key chain_seed
    (mkStream 0 []) false Whisper 6 1 receiving_refines receiving_not_self ltac:(unfold u32_max; lia))
    as (r & s' & H & Hr & -> & _).
  exists s'. split; [exact H|exact Hr].
Defined.

Lemma delivery_in_any_order_witness :
  request_all ratchet_key Whisper [3; 0; 2; 1] (receiving, 1 : @Rng toy_primitives)
    = (fun n => Ok (message_key_at chain_seed n)) <$> [3; 0; 2; 1].
Proof.
  apply (delivery_in_any_order (P := toy_primitives) receiving ratchet_key chain_seed Whisper false 1
    [3; 0; 2; 1] receiving_refines receiving_not_self).
  - repeat constructor; set_solver.
  - repeat constructor; unfold MAX_MESSAGE_KEYS; lia.
Defined.

Lemma established_session_delivers_witness :
  exists c m s' r',
    encrypt_with_state hello bob_address 9 (sending, 1 : @Rng toy_primitives) = (Ok (c, id_b), (s', 1)) /\
    inner_message c = Some m /\ SignalMessage_try_from (sm_serialized m) = Ok m /\
    decrypt_message_with_state m Whisper (receiving, 2) = (Ok hello, (r', 2)).
Proof.
  destruct (established_session_delivers (P := toy_primitives) sending receiving ratchet_key chain_seed 0
    (mkStream 0 []) 4 id_a id_b false hello bob_address 9 Whisper 1 2 (mkSpqrSend [] (Some []) []) 1
    (mkSpqrRecv [] (Some [])) None sending_can_send ltac:(unfold u32_max; lia) eq_refl I
    receiving_can_receive eq_refl eq_refl eq_refl eq_refl) as (c & m & s' & r' & He & Hi & Hp & _ & Hd & _).
  exists c, m, s', r'. split_and!; assumption.
Defined.

(** ** Replays, records and failures *)

Lemma value_ok {St E A} (d : A) (m : outcome E A * St) :
  (match m.1 with Ok _ => true | _ => false end) = true -> m = (Ok (value_of d m.1), m.2).
Proof. by destruct m as [[] s]. Qed.

Definition hello_message : SignalMessage :=
  match encrypt_with_state hello bob_address 9 (sending, 1 : @Rng toy_primitives) with
  | (Ok (c, _), _) => default (mkSignalMessage 4 ratchet_key 0 0 [] [] []) (inner_message c)
  | _ => mkSignalMessage 4 ratchet_key 0 0 [] [] []
  end.
Definition receiving_record : SessionRecord := SessionRecord_new receiving.
Definition client_b : Client :=
  mkEnv (mkInMemSessionStore {[alice_address := receiving_record]})
    (InMemIdentityKeyStore_new bob_identity 77) (mkInMemPreKeyStore ∅) (mkInMemSignedPreKeyStore ∅)
    (mkInMemKyberPreKeyStore ∅ ∅) 50.
Definition received := message_decrypt_signal hello_message alice_address client_b.
Definition client_b1 : Client := received.2.

Lemma receiving_record_wf : record_wf receiving_record.
Proof.
  split; [unfold record_bounded; cbn; lia|]. split; [intros s [= <-]; apply receiving_well_formed|].
  cbn. intros b s H. by apply elem_of_nil in H.
Qed.

(** The second time with another generator and an empty identity store. *)
Definition client_b2 : Client :=
  set_identity_store (InMemIdentityKeyStore_new bob_identity 78)
    (set_csprng (99 : @Rng toy_primitives) client_b1).
Lemma no_replay_witness :
  received = (Ok hello, client_b1) /\
  exists idx, message_decrypt_signal hello_message alice_address client_b2
              = (Err (DuplicatedMessage idx 0), client_b2).
Proof.
  assert (H1 : received.1 = Ok hello) by (vm_compute; reflexivity).
  pose proof (runs received hello H1) as H.
  split; [exact H|].
  apply (no_replay hello_message alice_address client_b client_b1 client_b2 hello).
  - intros r [= <-]. apply receiving_record_wf.
  - vm_compute. split; congruence.
  - exact H.
  - reflexivity.
Defined.

(** Alice's session after PQXDH, one encryption and one message received. *)
Lemma reachable_sessions_bounded_witness :
  exists sa rng' s,
    initialize_alice_session (alice_parameters alice_identity alice_base bobs)
      (14 : @Rng toy_primitives) = (Ok sa, rng') /\
    s = (decrypt_message_with_state hello_message Whisper
           (encrypt_with_state hello bob_address 9 (sa, rng')).2).2.1 /\
    reachable s /\ (length (storage.ss_receiver_chains (session s)) <= 5)%nat.
Proof.
  destruct (pqxdh_mirrored (P := toy_primitives) alice_identity alice_base bobs 14 alice_identity_ok
    alice_base_ok bobs_ok) as (sa & rng' & ct & sb & Ha & _).
  destruct (encrypt_with_state hello bob_address 9 (sa, rng')) as [r1 [s1 rng1]] eqn:He.
  destruct (decrypt_message_with_state hello_message Whisper (s1, rng1)) as [r2 [s2 rng2]] eqn:Hd.
  exists sa, rng', s2. rewrite He. cbn [snd]. rewrite Hd.
  assert (Hr : reachable s2).
  { eapply reachable_decrypt; [eapply reachable_encrypt; [eapply reachable_alice; exact Ha|exact He]| |exact Hd].
    vm_compute. split; congruence. }
  split; [exact Ha|]. split; [reflexivity|]. split; [exact Hr|].
  apply (reachable_sessions_bounded s2 Hr).
Defined.

Definition record_step := decrypt_message_with_record hello_message Whisper
  (receiving_record, 5 : @Rng toy_primitives).

Lemma decrypt_message_with_record_spec_witness :
  record_step.1 = Ok hello /\ record_bounded record_step.2.1.
Proof.
  assert (Hb : record_bounded receiving_record) by apply receiving_record_wf.
  pose proof (decrypt_message_with_record_spec (P := toy_primitives) hello_message Whisper
    receiving_record 5 Hb) as H.
  assert (H1 : record_step.1 = Ok hello) by (vm_compute; reflexivity).
  split; [exact H1|]. revert H H1. unfold record_step.
  destruct (decrypt_message_with_record _ _ _) as [r [r' rng]]. cbn [fst snd]. intros H ->. apply H.
Defined.

(** A message from the wrong sender, and a replay: the sessions stay. *)
Lemma failures_keep_sessions_witness :
  session_store (message_decrypt (CMSignalMessage hello_message) bob_address client_b).2
    = session_store client_b /\
  session_store (message_decrypt (CMSignalMessage hello_message) alice_address client_b1).2
    = session_store client_b1.
Proof.
  pose proof (failures_keep_sessions (P := toy_primitives) (SS := InMemSessionStore)
    (IS := InMemIdentityKeyStore) (PS := InMemPreKeyStore) (SPS := InMemSignedPreKeyStore)
    (KS := InMemKyberPreKeyStore)) as (_ & H & _).
  assert (Hd : forall addr (e : Client),
    (match (message_decrypt (CMSignalMessage hello_message) addr e).1 with Ok _ => false | _ => true end) = true ->
    session_store (message_decrypt (CMSignalMessage hello_message) addr e).2 = session_store e).
  { intros addr e He. specialize (H (CMSignalMessage hello_message) addr e).
    destruct (message_decrypt (CMSignalMessage hello_message) addr e) as [[] e']; [discriminate|exact H|exact H]. }
  split; apply Hd; vm_compute; reflexivity.
Defined.

(** ** Groups *)

Definition no_keys : InMemSenderKeyStore := mkInMemSenderKeyStore ∅.
Definition group_id : Uuid := copies 16 Byte.x11.
Definition group_state (sk : option PrivateKey) : SenderKeyState :=
  SenderKeyState_new 3 9 0 (arr chain_seed) (kp_public_key alice_base) sk.
Definition group_store (sk : option PrivateKey) : InMemSenderKeyStore :=
  mkInMemSenderKeyStore {[(alice_address, arr group_id) := mkSenderKeyRecord [group_state sk]]}.

Lemma group_state_refines sk : group_refines (group_state sk) 0 (arr chain_seed) (mkStream 0 []).
Proof. split; [apply fresh_stream_ok|]. split; [cbn; lia|]. done. Qed.

Lemma group_sender : can_group_send (group_store (Some (kp_private_key alice_base))) alice_address
  group_id 9 0 (arr chain_seed) 0 alice_base.
Proof.
  exists (mkSenderKeyRecord [group_state (Some (kp_private_key alice_base))]), (group_state (Some (kp_private_key alice_base))).
  split; [done|]. split; [done|].
  split_and!; try done; [| |apply alice_base_ok].
  - unfold signing_key_private. cbn -[PrivateKey_deserialize PrivateKey_serialize alice_base].
    by rewrite (PrivateKey_read_back _ alice_base_ok).
  - unfold signing_key_public. cbn -[PublicKey_deserialize PublicKey_serialize alice_base].
    by rewrite PublicKey_deserialize_serialize.
Qed.

Lemma group_receiver : can_group_receive (group_store None) alice_address group_id 9 0 (arr chain_seed)
  (mkStream 0 []) (kp_public_key alice_base).
Proof.
  exists (mkSenderKeyRecord [group_state None]), 0%nat, (group_state None).
  split; [done|]. split; [done|]. split_and!; try done; [apply group_state_refines|].
  unfold signing_key_public. cbn -[PublicKey_deserialize PublicKey_serialize alice_base].
  by rewrite PublicKey_deserialize_serialize.
Qed.

(** The fourth message first. *)
Lemma sender_key_request_refines_witness :
  exists s', get_sender_key 3 group_id (group_state None)
               = (Ok (sender_key_at 0 (arr chain_seed) 3), s') /\
             group_refines s' 0 (arr chain_seed) (mkStream 4 [2; 1; 0]).
Proof.
  destruct (sender_key_request_refines (group_state None) 0 (arr chain_seed) (mkStream 0 []) 3 group_id
    (group_state_refines None) ltac:(unfold u32_max; lia)) as (s' & H & Hr & _).
  exists s'. split; [exact H|exact Hr].
Defined.

Lemma group_message_delivers_witness :
  exists m a' rng' b',
    group_encrypt alice_address group_id hello
      (group_store (Some (kp_private_key alice_base)), 3 : @Rng toy_primitives) = (Ok m, (a', rng')) /\
    group_decrypt (sk_serialized m) alice_address (group_store None) = (Ok hello, b').
Proof.
  destruct (group_message_delivers (P := toy_primitives) _ _ alice_address group_id 9 0 (arr chain_seed)
    0 (mkStream 0 []) alice_base hello 3 group_sender ltac:(unfold u32_max; lia) group_receiver eq_refl)
    as (m & a' & rng' & b' & H1 & H2 & _).
  exists m, a', rng', b'. split; [exact H1|exact H2].
Defined.

Lemma distribution_then_delivery_witness :
  exists m a1 rng1 b1 c a2 rng2 b2,
    create_sender_key_distribution_message alice_address group_id (no_keys, 3 : @Rng toy_primitives)
      = (Ok m, (a1, rng1)) /\
    process_sender_key_distribution_message alice_address m no_keys = (Ok tt, b1) /\
    group_encrypt alice_address group_id hello (a1, rng1) = (Ok c, (a2, rng2)) /\
    group_decrypt (sk_serialized c) alice_address b1 = (Ok hello, b2).
Proof.
  assert (H0 : (load_sender_key alice_address group_id no_keys).1 = Ok None) by reflexivity.
  destruct (distribution_then_delivery (P := toy_primitives) (SB := InMemSenderKeyStore) no_keys
    alice_address group_id 3 (or_introl H0)) as (m & a1 & rng1 & Hc & _ & H).
  destruct (H no_keys None H0) as (b1 & Hp & Hd).
  { intros s Hs. by apply elem_of_nil in Hs. }
  destruct (Hd hello) as (c & a2 & rng2 & b2 & He & Hr).
  exists m, a1, rng1, b1, c, a2, rng2, b2. split_and!; assumption.
Defined.

Lemma add_sender_key_state_spec_witness :
  record_ok (add_sender_key_state 3 9 0 (arr chain_seed) ratchet_key None
    (add_sender_key_state 3 8 0 (arr chain_seed) ratchet_key None new_empty)).
Proof.
  apply (add_sender_key_state_spec 3 9 0 (arr chain_seed) ratchet_key None).
  apply (add_sender_key_state_spec 3 8 0 (arr chain_seed) ratchet_key None).
  apply new_empty_ok.
Defined.

(** ** Sending, records, pre-keys *)

Definition is_Ok {E A} (m : outcome E A) : bool := match m with Ok _ => true | _ => false end.

Lemma sent_counters_consecutive_witness :
  exists cs s' rng',
    encrypt_all [hello; hello; hello] bob_address 9 (sending, 1 : @Rng toy_primitives) = (Ok cs, (s', rng')) /\
    (fun c => sm_counter <$> inner_message c) <$> cs = [Some 0; Some 1; Some 2].
Proof.
  destruct (sender_chain_eq sending alice_base (mkChainKey chain_seed 0) eq_refl) as [Hrk Hck].
  assert (H0 : is_Ok (encrypt_all [hello; hello; hello] bob_address 9 (sending, 1 : @Rng toy_primitives)).1 = true)
    by (vm_compute; reflexivity).
  revert H0. destruct (encrypt_all [hello; hello; hello] bob_address 9 (sending, 1 : @Rng toy_primitives))
    as [[cs| |] [s' rng']] eqn:H1; [intros _|discriminate|discriminate].
  exists cs, s', rng'. split; [reflexivity|].
  apply (sent_counters_consecutive (P := toy_primitives) [hello; hello; hello] bob_address 9 sending 1
    cs s' rng' (mkChainKey chain_seed 0) ratchet_key H1 Hck Hrk); cbn; unfold u32_max; lia.
Defined.

Definition archived_session : SessionState :=
  SessionState_new 4 id_b id_a (mkRootKey (copies 32 Byte.x08)) (kp_public_key bob_signed) [].
Definition two_sessions : SessionRecord :=
  mkSessionRecord (Some receiving) [encode_to_vec (session archived_session)].
Definition promoted := promote_matching_session 4 (alice_base_key archived_session) two_sessions.

Lemma promote_matching_session_spec_witness :
  exists s, current_session promoted.2 = Some s /\ session_matches 4 (alice_base_key archived_session) s.
Proof.
  assert (Hb : record_bounded two_sessions) by (unfold record_bounded, ARCHIVED_STATES_MAX_LENGTH; cbn; lia).
  pose proof (promote_matching_session_spec 4 (alice_base_key archived_session) two_sessions Hb) as H.
  assert (H1 : promoted.1 = Ok true) by (vm_compute; reflexivity). revert H H1. unfold promoted.
  destruct (promote_matching_session _ _ _) as [o r']. cbn [fst snd]. intros H ->.
  destruct H as (s & Hs & Hm & _). exists s. split; assumption.
Defined.

Definition kyber_store : InMemKyberPreKeyStore := kyber_pre_key_store bob0.
Definition kyber_store1 : InMemKyberPreKeyStore :=
  (mark_kyber_pre_key_used 33 32 ratchet_key kyber_store).2.
Definition kyber_store2 : InMemKyberPreKeyStore :=
  (mark_kyber_pre_key_used 33 32 (kp_public_key bob_signed) kyber_store1).2.

Lemma mark_kyber_pre_key_used_once_witness :
  exists s3, mark_kyber_pre_key_used 33 32 ratchet_key kyber_store2
             = (Err (InvalidMessage PreKey "reused base key"), s3).
Proof.
  destruct (mark_kyber_pre_key_used_once 33 32 ratchet_key [(33, 32, kp_public_key bob_signed)]
    kyber_store kyber_store1 kyber_store2 eq_refl eq_refl) as (s3 & H & _).
  exists s3. exact H.
Defined.

Lemma has_usable_sender_chain_spec_witness :
  exists b, has_usable_sender_chain 5 7 sending = Ok b /\ b <> true.
Proof.
  destruct (has_usable_sender_chain_spec 5 7 sending) as (b & Hb & Hiff).
  - intros p [=].
  - exists b. split; [exact Hb|]. intros Ht. destruct (proj1 Hiff Ht) as (_ & _ & _ & Hpq).
    by apply Hpq.
Defined.

(** ** Messages and keys *)

Lemma signal_message_round_trip_witness :
  exists m, SignalMessage_new 4 (arr chain_seed) ratchet_key 5 3 hello id_a id_b [] = Ok m /\
    SignalMessage_try_from (sm_serialized m) = Ok m /\ verify_mac m id_a id_b (arr chain_seed) = Ok true.
Proof.
  destruct (signal_message_round_trip 4 (arr chain_seed) ratchet_key 5 3 hello id_a id_b [])
    as [(m & H1 & H2 & H3 & _) _]; [reflexivity|lia|unfold is_u32, u32_max; lia..|].
  exists m. split_and!; assumption.
Defined.

Lemma sender_key_messages_round_trip_witness :
  exists m, SenderKeyDistributionMessage_new 3 group_id 9 4 (arr chain_seed) ratchet_key = Ok m /\
    SenderKeyDistributionMessage_try_from (skd_serialized m) = Ok m.
Proof.
  apply (sender_key_messages_round_trip (P := toy_primitives) group_id 9 4 hello (arr chain_seed)
    alice_base 3 alice_base_ok); unfold is_u32, u32_max; (lia || reflexivity).
Defined.

Lemma decryption_error_round_trip_witness :
  exists m, for_original (sm_serialized hello_message) Whisper 1000 1 = Ok m /\
    DecryptionErrorMessage_try_from (de_serialized m) = Ok m.
Proof.
  assert (H : is_Ok (for_original (sm_serialized hello_message) Whisper 1000 1) = true)
    by (vm_compute; reflexivity).
  revert H. destruct (for_original _ _ _ _) as [m| |] eqn:Hm; [intros _|discriminate|discriminate].
  exists m. split; [reflexivity|].
  apply (decryption_error_round_trip (sm_serialized hello_message) Whisper 1000 1); [..|exact Hm];
    unfold is_u64, is_u32, u64_max, u32_max; lia.
Defined.

Lemma pre_key_records_round_trip_witness :
  let r := PreKeyRecord_new 31 bob_one_time in
  (data ← PreKeyRecord_serialize r; PreKeyRecord_deserialize data) = Ok r /\
  PreKeyRecord_key_pair r = Ok bob_one_time.
Proof.
  destruct (pre_key_records_round_trip 31 7 bob_one_time bob_kyber hello) as [(H1 & _ & H2 & _) _].
  - unfold is_u32, u32_max. lia.
  - unfold is_u64, u64_max. lia.
  - apply bob_one_time_ok.
  - apply bob_kyber_ok.
  - split; [exact H1|exact H2].
Defined.

(** The message in two parts is the message in one. *)
Lemma xeddsa_sign_verify_witness :
  exists sig csprng'',
    calculate_signature_for_multipart_message (kp_private_key alice_base) [hello; hello]
      (6 : @Rng toy_primitives) = (Ok sig, csprng'') /\
    verify_signature_for_multipart_message ratchet_key [hello ++ hello] sig = true.
Proof.
  exact (xeddsa_sign_verify (P := toy_primitives) 13 6 [hello; hello] [hello ++ hello] eq_refl).
Defined.

Lemma aes256_ctr_hmac_round_trip_witness :
  exists c, aes256_ctr_hmacsha256_encrypt hello chain_seed (arr chain_seed) = Ok c /\
            aes256_ctr_hmacsha256_decrypt c chain_seed (arr chain_seed) = Ok hello.
Proof.
  destruct (aes256_ctr_hmac_round_trip hello chain_seed (arr chain_seed)) as (c & H1 & H2 & _).
  exists c. split; [exact H1|exact H2].
Defined.

(** ** Fingerprints and incremental MACs *)

Lemma safety_numbers_agree_witness :
  exists fa fb s,
    Fingerprint_new 1 5200 hello id_a [Byte.x02] id_b = Ok fa /\
    Fingerprint_new 1 5200 [Byte.x02] id_b hello id_a = Ok fb /\
    display_string fa = Ok s /\ display_string fb = Ok s /\ String.length s = 60%nat.
Proof.
  destruct (safety_numbers_agree 1 5200 hello id_a [Byte.x02] id_b) as (fa & fb & s & da & db & H1 & H2 & H3 & H4 & H5 & _).
  - unfold is_u32, u32_max. lia.
  - exists fa, fb, s. split_and!; assumption.
Defined.

(** Twelve bytes in chunks of five, read in three pieces. *)
Definition pieces : list bytes := [hello; []; [Byte.x01; Byte.x02]; hello].

Definition mac_start : @MacState toy_mac := ([] : bytes).

Lemma incremental_macs_spec_witness :
  exists i i', Incremental_new (E := MacError) mac_start 5 = Ok i /\
    feed pieces i = (Ok (chunk_macs mac_start 5 (concat pieces)), i') /\
    Incremental_finalize i' = whole_mac mac_start (concat pieces) /\ pending_bytes_size i' = 2%nat.
Proof.
  destruct (incremental_macs_spec mac_start 5 ltac:(lia) pieces) as (i & i' & H1 & H2 & H3 & H4).
  exists i, i'. split_and!; assumption.
Defined.

Lemma validating_spec_witness :
  validate pieces (validating (chunk_macs mac_start 5 (concat pieces) ++ [whole_mac mac_start (concat pieces)])
    (mkIncremental mac_start 5 5)) = Ok 12%nat /\
  validate pieces (validating (chunk_macs mac_start 5 (concat pieces)) (mkIncremental mac_start 5 5))
    = Err MkMacError.
Proof.
  split; rewrite (validating_spec mac_start 5 ltac:(lia)); vm_compute; reflexivity.
Defined.

Lemma calculate_chunk_size_spec_witness :
  match @calculate_chunk_size MacError 32 100000000 with
  | Ok c => div_ceil 100000000 c * 32 <= TARGET_TOTAL_DIGEST_SIZE
  | _ => False
  end.
Proof.
  pose proof (calculate_chunk_size_spec 32 100000000 ltac:(lia) ltac:(lia)) as H.
  vm_compute in H |- *. apply H. congruence.
Defined.

(** ** Authentication and trust *)

Definition decrypted := decrypt_message_with_state hello_message Whisper (receiving, 2 : @Rng toy_primitives).

Lemma decryption_is_authenticated_witness :
  exists from to (keys : MessageKeys),
    remote_identity_key receiving = Ok (Some from) /\ local_identity_key receiving = Ok to /\
    verify_mac hello_message from to (arr (mac_key keys)) = Ok true.
Proof.
  assert (H1 : is_Ok decrypted.1 = true) by (vm_compute; reflexivity).
  revert H1. unfold decrypted.
  destruct (decrypt_message_with_state hello_message Whisper (receiving, 2 : @Rng toy_primitives))
    as [[p| |] [s' rng']] eqn:H; [intros _|discriminate|discriminate].
  destruct (decryption_is_authenticated (P := toy_primitives) hello_message Whisper receiving 2 p s' rng' H)
    as (_ & from & to & keys & H1 & H2 & H3 & _).
  exists from, to, keys. split_and!; assumption.
Defined.

Lemma only_trusted_identities_witness :
  is_trusted_identity bob_address (b_identity_key bob_bundle) Sending (identity_store alice0) = Ok true /\
  verify_signature (ik_public_key (b_identity_key bob_bundle))
    (PublicKey_serialize (spk_b_public_key (b_ec_signed_pre_key bob_bundle)))
    (spk_b_signature (b_ec_signed_pre_key bob_bundle)) = true.
Proof.
  destruct (only_trusted_identities bob_address alice0) as [H _].
  assert (H1 : (process_prekey_bundle bob_address bob_bundle 0 alice0).1 = Ok tt) by (vm_compute; reflexivity).
  destruct (H bob_bundle 0 _ (runs _ tt H1)) as (Ht & Hs & _). split; [exact Ht|exact Hs].
Defined.

Definition group_sent := group_encrypt alice_address group_id hello
  (group_store (Some (kp_private_key alice_base)), 3 : @Rng toy_primitives).
Definition group_bytes : bytes := match group_sent.1 with Ok m => sk_serialized m | _ => [] end.
Definition group_received := group_decrypt group_bytes alice_address (group_store None).

Lemma group_message_once_witness :
  group_received.1 = Ok hello /\
  exists idx n, group_decrypt group_bytes alice_address group_received.2
                = (Err (DuplicatedMessage idx n), group_received.2).
Proof.
  assert (Hr : group_received.1 = Ok hello) by (vm_compute; reflexivity). split; [exact Hr|].
  assert (Hp : is_Ok (SenderKeyMessage_try_from group_bytes) = true) by (vm_compute; reflexivity).
  revert Hp. destruct (SenderKeyMessage_try_from group_bytes) as [m| |] eqn:Hm; [intros _|discriminate..].
  assert (Hf : (fun m => (arr (sk_distribution_id m), sk_chain_id m, sk_iteration m)) <$>
    SenderKeyMessage_try_from group_bytes = Ok (arr group_id, 9, 0)) by (vm_compute; reflexivity).
  rewrite Hm in Hf. injection Hf as Hd0 Hc Hi.
  assert (Hd : sk_distribution_id m = group_id) by (apply array_eq; exact Hd0).
  destruct (group_message_once (P := toy_primitives) (group_store None) alice_address group_id 9 0
    (arr chain_seed) (mkStream 0 []) (kp_public_key alice_base) group_bytes m hello group_received.2 Hm Hd Hc
    ltac:(rewrite Hi; unfold u32_max; lia) group_receiver (runs _ _ Hr)) as [_ [idx H]].
  exists idx, (sk_iteration m). exact H.
Defined.

Lemma kem_decapsulation_spec_witness :
  exists ss ct csprng',
    Key_encapsulate (kkp_public_key bob_kyber) (4 : @Rng toy_primitives) = (Ok (ss, ct), csprng') /\
    Key_decapsulate (kkp_secret_key bob_kyber) ct = Ok ss.
Proof. apply (kem_decapsulation_spec (P := toy_primitives) bob_kyber 4 bob_kyber_ok). Defined.

Lemma pre_key_message_round_trip_witness :
  exists m, PreKeySignalMessage_new 4 76 (Some 31) 32 (Some (mkKyberPayload 33 [Byte.x01])) ratchet_key id_a
              hello_message = Ok m /\
    PreKeySignalMessage_try_from (pk_serialized m) = Ok m.
Proof.
  assert (Hp : SignalMessage_try_from (sm_serialized hello_message) = Ok hello_message).
  { unfold hello_message.
    destruct (encrypt_with_state_ok (P := toy_primitives) sending _ _ 4 _ _ hello bob_address 9 1
      (mkSpqrSend [] (Some []) []) 1 None sending_can_send eq_refl eq_refl I) as (c & m & He & Hw & Hm & _).
    rewrite He. cbn [wrapped] in Hw. subst c. exact Hm. }
  destruct (pre_key_message_round_trip 4 76 (Some 31) 32 (Some (mkKyberPayload 33 [Byte.x01])) ratchet_key id_a
    hello_message) as [(m & H1 & H2 & _) _]; [lia|unfold is_u32, u32_max; lia|cbn; unfold is_u32, u32_max; lia
    |unfold is_u32, u32_max; lia|cbn; unfold is_u32, u32_max; lia|exact Hp|].
  exists m. split; [exact H1|exact H2].
Defined.
