(* ===== verification/SealedWitnesses.v ===== *)
(** * SealedWitnesses: the theorems on service ids and sealed sender at concrete inputs *)

From Stdlib Require Import Ascii.
From S2P Require Import Prelude Types Primitives ServiceId Proto Curve Kem Crypto IdentityKey SealedCert SealedMessage RatchetKeys Messages SessionState SessionRecord Ratchet Stores Session SessionCipher SealedSender SealedMulti SealedSpec SealedParse SealedMultiSpec EndToEnd SealedEnd Toy Witnesses.

(** ** A concrete instance of what sealed sender calls

    Toy instances of the uuid crate's formatting, AES-GCM-SIV, prost's length
    delimiters, [chunk_by] and the generated messages, each with its laws, and the
    clients of Toy with certificates: Alice seals her first message to
    Bob, and one message to two recipients.  Nothing here models the
    repository. *)
Open Scope string_scope.
Open Scope list_scope.
Open Scope Z_scope.

(** ** UUIDs *)

Definition nibble_char (n : Z) : ascii := ascii_of_nat (Z.to_nat (if n <? 10 then 48 + n else 87 + n)).
Fixpoint to_hex (l : bytes) : string :=
  match l with
  | [] => ""
  | b :: l => String (nibble_char (u8 b / 16)) (String (nibble_char (u8 b mod 16)) (to_hex l))
  end.

#[export] Instance toy_uuid_fmt : UuidFmt := {
  uuid_to_string u := String.append (to_hex (arr u)) "----";
  uuid_try_parse s := try_array 16 (take 16 (hex s))
}.

Lemma nibble_ok n : 0 <= n < 16 -> hex_digit (nibble_char n) = n /\ hyphenated_char (nibble_char n) = true.
Proof.
  intros Hn. pose proof (below_spec 16 (fun n => (hex_digit (nibble_char n) =? n) && hyphenated_char (nibble_char n))
    n ltac:(by vm_compute) Hn) as H.
  cbn beta in H. apply andb_true_iff in H as [H ?]. by apply Z.eqb_eq in H.
Qed.

Lemma byte_nibbles b : 0 <= u8 b / 16 < 16 /\ 0 <= u8 b mod 16 < 16.
Proof.
  pose proof (u8_range b). pose proof (Z.mod_pos_bound (u8 b) 16). split; [|lia].
  split; [apply Z.div_pos; lia|apply Z.div_lt_upper_bound; lia].
Qed.

Lemma hex_to_hex l tail : hex (String.append (to_hex l) tail) = l ++ hex tail.
Proof.
  induction l as [|b l IH]; [done|]. cbn [to_hex app].
  change (String.append (String ?a (String ?b ?s)) tail) with (String a (String b (String.append s tail))).
  cbn [hex]. destruct (byte_nibbles b) as [H1 H2].
  rewrite (proj1 (nibble_ok _ H1)), (proj1 (nibble_ok _ H2)), <- Z.div_mod, as_u8_u8 by lia. by f_equal.
Qed.

Lemma to_hex_chars l :
  String.length (to_hex l) = (2 * length l)%nat /\
  forallb hyphenated_char (String.list_ascii_of_string (String.append (to_hex l) "----")) = true.
Proof.
  induction l as [|b l [IH1 IH2]]; [by split|]. cbn [to_hex String.length length]. split; [lia|].
  change (String.append (String ?a (String ?b ?s)) "----") with (String a (String b (String.append s "----"))).
  cbn [String.list_ascii_of_string forallb]. destruct (byte_nibbles b) as [H1 H2].
  by rewrite (proj2 (nibble_ok _ H1)), (proj2 (nibble_ok _ H2)), IH2.
Qed.

Lemma string_length_append s t : String.length (String.append s t) = (String.length s + String.length t)%nat.
Proof.
  induction s as [|c s IH]; [done|]. change (String.append (String c s) t) with (String c (String.append s t)).
  cbn [String.length]. rewrite IH. lia.
Qed.

#[export] Instance toy_uuid_fmt_laws : UuidFmtLaws.
Proof.
  constructor; intros u; unfold uuid_to_string, uuid_try_parse; cbn [toy_uuid_fmt].
  - rewrite string_length_append, (proj1 (to_hex_chars _)), array_length. done.
  - apply to_hex_chars.
  - rewrite hex_to_hex, take_app_length' by (by rewrite array_length). apply try_array_arr.
Qed.

(** ** AES-GCM-SIV, length delimiters, groups *)

Definition toy_tag (k : array 32) (p : bytes) : array 16 := to_array 16 (take 16 (arr (hmac_sha256_mac (arr k) p))).

#[export] Instance toy_gcm_siv : AesGcmSiv := {
  gcm_siv_encrypt k n aad p := if Z.of_nat (length p) <=? GCM_SIV_P_MAX then Some (p, toy_tag k p) else None;
  gcm_siv_decrypt k n aad c :=
    let p := take (length c - 16) c in
    if bool_decide (drop (length c - 16) c = arr (toy_tag k p)) then Some p else None;
  gcm_siv_error := "aead::Error"
}.
#[export] Instance toy_gcm_siv_laws : AesGcmSivLaws.
Proof.
  constructor; intros k n aad p; cbn.
  - intros Hp. destruct (Z.leb_spec (Z.of_nat (length p)) GCM_SIV_P_MAX); [eauto|lia].
  - intros c tag. destruct (_ <=? _); [|done]. intros [= <- <-].
    rewrite length_app, array_length. replace (length p + 16 - 16)%nat with (length p) by lia.
    by rewrite take_app_length, drop_app_length, bool_decide_eq_true_2.
Qed.

#[export] Instance toy_length_delimiter : LengthDelimiter := {
  encode_length_delimiter n := be_bytes 8 n;
  decode_length_delimiter b := if (length b <? 8)%nat then None else Some (from_be_bytes (take 8 b));
  length_delimiter_len n := 8%nat
}.
#[export] Instance toy_length_delimiter_laws : LengthDelimiterLaws.
Proof.
  constructor; cbn -[be_bytes take Nat.ltb].
  - intros n tail Hn. rewrite length_app, be_bytes_length.
    destruct (Nat.ltb_spec (8 + length tail) 8); [lia|].
    rewrite take_app_length' by (by rewrite be_bytes_length). f_equal. apply from_be_to_be.
    unfold is_u64, u64_max in Hn. cbn. lia.
  - intros n _. by rewrite be_bytes_length.
  - intros b n. destruct (Nat.ltb_spec (length b) 8) as [|Hb]; [done|]. intros [= <-]. split; [|exact Hb].
    pose proof (from_be_bytes_range (take 8 b)) as Hr. rewrite length_take in Hr.
    replace (8 `min` length b)%nat with 8%nat in Hr by lia. unfold is_u64, u64_max. cbn in Hr. lia.
Qed.

Fixpoint group_runs (l : list (nat * ProtocolAddress)) : list (list (nat * ProtocolAddress)) :=
  match l with
  | [] => []
  | x :: l =>
      match group_runs l with
      | (y :: g) :: gs => if String.eqb (pa_name x.2) (pa_name y.2) then (x :: y :: g) :: gs else [x] :: (y :: g) :: gs
      | gs => [x] :: gs
      end
  end.
#[export] Instance toy_chunk_by : ChunkBy := group_runs.

Definition same_name (g : list (nat * ProtocolAddress)) : Prop :=
  exists x, x ∈ g /\ forall y, y ∈ g -> pa_name y.2 = pa_name x.2.

Lemma group_runs_same_name l : Forall same_name (group_runs l).
Proof.
  assert (forall x, same_name [x]) as Hone.
  { intros x. exists x. split; [by left|]. by intros y ->%list_elem_of_singleton. }
  induction l as [|x l IH]; [constructor|]. cbn [group_runs].
  destruct (group_runs l) as [|[|y g] gs]; [by constructor|by constructor|].
  destruct (String.eqb_spec (pa_name x.2) (pa_name y.2)) as [Hn|]; [|by constructor].
  apply Forall_cons in IH as [(z & Hz & Hall) IH]. constructor; [|done].
  exists z. split; [by right|]. intros w [->|Hw]%elem_of_cons; [|by apply Hall].
  rewrite Hn. apply Hall. by left.
Qed.

#[export] Instance toy_chunk_by_laws : ChunkByLaws.
Proof.
  constructor; unfold chunk_by_name, toy_chunk_by.
  - intros l. induction l as [|x l IH]; [done|]. cbn [group_runs].
    destruct (group_runs l) as [|[|y g] gs]; cbn in *; [by subst l|by rewrite IH|].
    destruct (String.eqb _ _); cbn; by rewrite IH.
  - intros l g Hg. destruct (proj1 (Forall_forall _ _) (group_runs_same_name l) g Hg) as (z & Hz & Hall).
    split; [by intros ->; apply elem_of_nil in Hz|]. intros x y Hx Hy. by rewrite (Hall x), (Hall y).
Qed.

(** ** The messages of sealed_sender.proto *)

Definition string_of (b : bytes) : string := String.string_of_list_byte b.
Lemma string_of_byte_str s : string_of (byte_str s) = s.
Proof. apply String.string_of_list_byte_of_string. Qed.

#[export] Instance string_codec : Codec string := iso_codec byte_str string_of.
#[export] Instance string_codec_law : CodecLaw string.
Proof. apply iso_codec_law, string_of_byte_str. Qed.

Definition SenderUuid_fields (u : sealed_sender.SenderUuid) : byte * bytes :=
  match u with sealed_sender.UuidString s => (Byte.x00, byte_str s) | sealed_sender.UuidBytes b => (Byte.x01, b) end.
#[export] Instance SenderUuid_codec : Codec sealed_sender.SenderUuid :=
  iso_codec SenderUuid_fields (fun '(t, b) => match t with Byte.x00 => sealed_sender.UuidString (string_of b)
                                                       | _ => sealed_sender.UuidBytes b end).
#[export] Instance SenderUuid_codec_law : CodecLaw sealed_sender.SenderUuid.
Proof. apply iso_codec_law. intros [s|b]; cbn -[string_of byte_str]; [by rewrite string_of_byte_str|done]. Qed.

Definition Signer_fields (s : sealed_sender.Signer) : option Z * bytes :=
  match s with sealed_sender.SignerCertificate b => (None, b) | sealed_sender.SignerId id => (Some id, []) end.
#[export] Instance Signer_codec : Codec sealed_sender.Signer :=
  iso_codec Signer_fields (fun '(id, b) => match id with Some id => sealed_sender.SignerId id
                                                    | None => sealed_sender.SignerCertificate b end).
#[export] Instance Signer_codec_law : CodecLaw sealed_sender.Signer.
Proof. apply iso_codec_law. by intros []. Qed.

#[export] Instance ServerCertificate_prost : Prost sealed_sender.ServerCertificate :=
  iso_prost (fun m => (sealed_sender.svc_certificate m, sealed_sender.svc_signature m))
    (fun '(a, b) => sealed_sender.mkServerCertificate a b).
#[export] Instance ServerCertificate_prost_laws wf : ProstLaws sealed_sender.ServerCertificate wf.
Proof. apply iso_prost_laws. iso_law. Qed.

#[export] Instance ServerCertificateData_prost : Prost sealed_sender.ServerCertificateData :=
  iso_prost (fun m => (sealed_sender.scd_id m, sealed_sender.scd_key m))
    (fun '(a, b) => sealed_sender.mkServerCertificateData a b).
#[export] Instance ServerCertificateData_prost_laws wf : ProstLaws sealed_sender.ServerCertificateData wf.
Proof. apply iso_prost_laws. iso_law. Qed.

#[export] Instance SenderCertificate_prost : Prost sealed_sender.SenderCertificate :=
  iso_prost (fun m => (sealed_sender.sdc_certificate m, sealed_sender.sdc_signature m))
    (fun '(a, b) => sealed_sender.mkSenderCertificate a b).
#[export] Instance SenderCertificate_prost_laws wf : ProstLaws sealed_sender.SenderCertificate wf.
Proof. apply iso_prost_laws. iso_law. Qed.

#[export] Instance SenderCertificateData_prost : Prost sealed_sender.SenderCertificateData :=
  iso_prost (fun m => (sealed_sender.sdd_sender_e164 m, sealed_sender.sdd_sender_uuid m,
      sealed_sender.sdd_sender_device m, sealed_sender.sdd_expires m, sealed_sender.sdd_identity_key m,
      sealed_sender.sdd_signer m))
    (fun '(a, b, c, d, e, f) => sealed_sender.mkSenderCertificateData a b c d e f).
#[export] Instance SenderCertificateData_prost_laws wf : ProstLaws sealed_sender.SenderCertificateData wf.
Proof. apply iso_prost_laws. iso_law. Qed.

#[export] Instance Message_prost : Prost sealed_sender.Message :=
  iso_prost (fun m => (sealed_sender.usm_type m, sealed_sender.usm_sender_certificate m, sealed_sender.usm_content m,
      sealed_sender.usm_content_hint m, sealed_sender.usm_group_id m))
    (fun '(a, b, c, d, e) => sealed_sender.mkMessage a b c d e).
#[export] Instance Message_prost_laws wf : ProstLaws sealed_sender.Message wf.
Proof. apply iso_prost_laws. iso_law. Qed.

#[export] Instance UnidentifiedSenderMessage_prost : Prost sealed_sender.UnidentifiedSenderMessage :=
  iso_prost (fun m => (sealed_sender.usm_ephemeral_public m, sealed_sender.usm_encrypted_static m,
      sealed_sender.usm_encrypted_message m))
    (fun '(a, b, c) => sealed_sender.mkUnidentifiedSenderMessage a b c).
#[export] Instance UnidentifiedSenderMessage_prost_laws wf : ProstLaws sealed_sender.UnidentifiedSenderMessage wf.
Proof. apply iso_prost_laws. iso_law. Qed.

(** ** Certificates and a sealed first message *)

Definition trust_root : KeyPair := (KeyPair_generate (P := toy_primitives) 41).1.
Definition server_keys : KeyPair := (KeyPair_generate (P := toy_primitives) 43).1.
Definition no_server_certificate : ServerCertificate := mkServerCertificate [] 0 (kp_public_key trust_root) [] [].
Definition server_certificate : ServerCertificate :=
  value_of no_server_certificate (ServerCertificate_new 1 (kp_public_key server_keys) (kp_private_key trust_root) 44).1.
Definition no_certificate : SenderCertificate :=
  mkSenderCertificate (Reference 0) (kp_public_key trust_root) (mkDeviceId 1) "" None 0 [] [] [].
Definition alice_certificate : SenderCertificate :=
  value_of no_certificate (SenderCertificate_new "alice" (Some "+18005550100") (IdentityKeyPair_public_key alice_identity)
    (mkDeviceId 1) 1000 server_certificate (kp_private_key server_keys) 45).1.

Definition sealed1 := sealed_sender_encrypt bob_address alice_certificate hello 0 alice1.
Definition opened1 := sealed_sender_decrypt (value_of [] sealed1.1) (kp_public_key trust_root) 999 None "bob" (mkDeviceId 1) bob0.

Example sealed_first_message : opened1.1 = Ok (mkSealedSenderDecryptionResult "alice" (Some "+18005550100") (mkDeviceId 1) hello).
Proof. vm_compute. reflexivity. Qed.
Example sealed_message_expired :
  (sealed_sender_decrypt (value_of [] sealed1.1) (kp_public_key trust_root) 1001 None "bob" (mkDeviceId 1) bob0).1
  = Err (InvalidSealedSenderMessage "trust root validation failed").
Proof. vm_compute. reflexivity. Qed.
Example sealed_message_self :
  (sealed_sender_decrypt (value_of [] sealed1.1) (kp_public_key trust_root) 999 None "alice" (mkDeviceId 1) bob0).1
  = Err SealedSenderSelfSend.
Proof. vm_compute. reflexivity. Qed.

(** ** One message for two recipients and one who is excluded *)

Definition uuid_of (b : byte) : Uuid := to_array 16 (replicate 16 b).
Definition carol_id : ServiceId := SAci (from_uuid (uuid_of Byte.x0c)).
Definition dave_id : ServiceId := SPni (from_uuid (uuid_of Byte.x0d)).
Definition erin_id : ServiceId := SAci (from_uuid (uuid_of Byte.x0e)).
Definition address_of (s : ServiceId) (d : Z) : ProtocolAddress := mkProtocolAddress (service_id_string s) (mkDeviceId d).

Definition dave_identity : IdentityKeyPair := (IdentityKeyPair_generate 6).1.
Definition pair_of (name : string) : IdentityKeyPair :=
  if String.eqb name (service_id_string carol_id) then bob_identity else dave_identity.
Definition group_destinations : list ProtocolAddress := [address_of carol_id 1; address_of carol_id 2; address_of dave_id 1].
Definition session_with (registration : Z) : SessionRecord :=
  mkSessionRecord (Some (mkSessionState (storage.mkSessionStructure 4 [] [] [] 0 None [] None None registration 0 [] []))) [].
Definition group_sessions : list SessionRecord := [session_with 101; session_with 102; session_with 16383].
Definition alice_ids : InMemIdentityKeyStore :=
  foldl (fun s d => (inmem_save_identity d (ikp_identity_key (pair_of (pa_name d))) s).2)
    (InMemIdentityKeyStore_new alice_identity 76) group_destinations.
Definition group_content : UnidentifiedSenderMessageContent :=
  value_of (mkUSMC [] [] no_certificate Plaintext HintDefault None)
    (USMC_new SenderKey alice_certificate hello Resendable (Some (byte_str "group"))).

Definition sent_to_group : outcome SignalProtocolError bytes :=
  (sealed_sender_multi_recipient_encrypt 4 group_destinations group_sessions [erin_id] group_content alice_ids 7).1.

Example group_message_parsed :
  (fun m => (fun '(id, r) => (id, devices r)) <$> recipients m) <$> SentMessage_parse (mkSlice 4096 (value_of [] sent_to_group))
  = Ok [(carol_id, [(mkDeviceId 1, 101); (mkDeviceId 2, 102)]); (dave_id, [(mkDeviceId 1, 16383)]); (erin_id, [])].
Proof. vm_compute. reflexivity. Qed.

Open Scope string_scope.
Open Scope list_scope.
Open Scope Z_scope.

Lemma service_id_encodings_witness :
  parse_from_service_id_string (service_id_string dave_id) = Some dave_id /\
  parse_from_service_id_binary (service_id_binary dave_id) = Some dave_id.
Proof.
  destruct (service_id_encodings dave_id) as (H1 & _ & H2 & _). split; [exact H2|]. by apply H1.
Defined.

Lemma e164_round_trip_witness : E164_from_str "+18005550100" = Ok (mkE164 18005550100).
Proof. apply (e164_round_trip (mkE164 18005550100)). split; by vm_compute. Defined.

Lemma trust_root_ok : well_formed_pair trust_root.
Proof. apply KeyPair_generate_well_formed. Qed.
Lemma server_keys_ok : well_formed_pair server_keys.
Proof. apply KeyPair_generate_well_formed. Qed.

Lemma issued_certificates_validate_witness :
  exists signer rng1 c rng2,
    ServerCertificate_new 1 (kp_public_key server_keys) (kp_private_key trust_root) (44 : @Rng toy_primitives) = (Ok signer, rng1) /\
    SenderCertificate_new "alice" None (kp_public_key bob_signed) (mkDeviceId 1) 1000 signer (kp_private_key server_keys) rng1
      = (Ok c, rng2) /\
    SenderCertificate_validate c (kp_public_key trust_root) 999 = Ok true.
Proof.
  destruct (issued_certificates_validate (P := toy_primitives) 1 "alice" None (kp_public_key bob_signed) (mkDeviceId 1) 1000
    trust_root server_keys 44 999) as (signer & rng1 & c & rng2 & H1 & H2 & _ & _ & H3).
  - split; vm_compute; congruence.
  - split; vm_compute; congruence.
  - split; vm_compute; congruence.
  - exact trust_root_ok.
  - exact server_keys_ok.
  - exists signer, rng1, c, rng2. split_and!; [exact H1|exact H2|exact H3].
Defined.

Lemma server_certificate_ok : ServerCertificate_deserialize (svc_serialized server_certificate) = Ok server_certificate.
Proof.
  destruct (ServerCertificate_new_ok (P := toy_primitives) 1 (kp_public_key server_keys) trust_root 44
    ltac:(split; vm_compute; congruence) trust_root_ok) as (c & rng & Hnew & _ & _ & Hc & _).
  assert (server_certificate = c) as -> by (unfold server_certificate; rewrite Hnew; reflexivity). exact Hc.
Qed.

Lemma alice_certificate_ok :
  SenderCertificate_deserialize (sdc_serialized alice_certificate) = Ok alice_certificate /\
  sdc_key alice_certificate = IdentityKeyPair_public_key alice_identity.
Proof.
  destruct (SenderCertificate_new_ok (P := toy_primitives) "alice" (Some "+18005550100")
    (IdentityKeyPair_public_key alice_identity) (mkDeviceId 1) 1000 server_certificate server_keys 45
    ltac:(split; vm_compute; congruence) ltac:(split; vm_compute; congruence) server_certificate_ok server_keys_ok)
    as (c & rng & Hnew & _ & Hkey & _ & _ & _ & _ & Hc & _).
  assert (alice_certificate = c) as -> by (unfold alice_certificate; rewrite Hnew; reflexivity). by split.
Qed.

Lemma alice_certificate_accepted :
  accepted alice_certificate alice_identity (kp_public_key trust_root) 999 None "bob" (mkDeviceId 1).
Proof.
  destruct alice_certificate_ok. split_and!; [done|done|vm_compute; reflexivity|vm_compute; reflexivity].
Qed.

Lemma content_ok :
  USMC_deserialize (usmc_serialized group_content) = Ok (SealedMessage.received group_content) /\ usmc_sender group_content = alice_certificate.
Proof.
  destruct (USMC_new_ok SenderKey alice_certificate hello Resendable (Some (byte_str "group"))) as (u & Hu & Hs & _).
  assert (group_content = u) as -> by (unfold group_content; rewrite Hu; reflexivity). split; [|done].
  exact (USMC_deserialize_new SenderKey alice_certificate hello Resendable _ u (proj1 alice_certificate_ok) I Hu).
Qed.

Lemma sealed_first_message_delivered_witness :
  exists e1 c e2 f' r',
    process_prekey_bundle bob_address bob_bundle 0 alice0 = (Ok tt, e1) /\
    sealed_sender_encrypt bob_address alice_certificate hello 5 e1 = (Ok c, e2) /\
    sealed_sender_decrypt c (kp_public_key trust_root) 999 None "bob" (mkDeviceId 1) bob0 =
      (Ok (mkSealedSenderDecryptionResult (sdc_sender_uuid alice_certificate) (sdc_sender_e164 alice_certificate)
             (sdc_sender_device_id alice_certificate) hello), f') /\
    load_session alice_address (session_store f') = Ok (Some r').
Proof.
  apply (sealed_first_message_delivered alice0 bob0 alice_identity 76 bobs bob_bundle alice_certificate
    bob_address 0 5 hello (kp_public_key trust_root) 999 None "bob" (mkDeviceId 1)).
  - apply alice_ready0.
  - apply bob_bundle_of.
  - apply bobs_ok.
  - apply bob_ready0.
  - split; vm_compute; congruence.
  - exact alice_certificate_accepted.
Defined.

Lemma opened1_ok : exists res f', opened1 = (Ok res, f').
Proof.
  assert (is_ok opened1.1) as [res Hres] by (eexists; apply sealed_first_message).
  destruct opened1 as [o f']. cbn in Hres. subst o. by eexists _, _.
Qed.

Lemma sealed_sender_authentic_witness :
  exists usmc signer, sender_signer (usmc_sender usmc) = Ok signer /\ vouched signer [kp_public_key trust_root].
Proof.
  destruct opened1_ok as (res & f' & Ho).
  destruct (sealed_sender_authentic _ _ _ _ _ _ _ _ _ Ho) as (_ & _ & _ & usmc & signer & _ & _ & _ & _ & H1 & H2 & _).
  exists usmc, signer. split; assumption.
Defined.

Lemma sent_message_offsets_witness :
  match SentMessage_parse (mkSlice 4096 (value_of [] sent_to_group)) with Panic => False | _ => True end.
Proof.
  pose proof (sent_message_offsets (mkSlice 4096 (value_of [] sent_to_group)) ltac:(by vm_compute)) as H.
  destruct (SentMessage_parse _); [exact I|exact I|exact H].
Defined.

Lemma parallelism_irrelevant_witness :
  sealed_sender_multi_recipient_encrypt 4 group_destinations group_sessions [erin_id] group_content alice_ids 7 =
  sealed_sender_multi_recipient_encrypt 1 group_destinations group_sessions [erin_id] group_content alice_ids 7.
Proof. apply parallelism_irrelevant. Defined.

Lemma group_sendable : Forall2 (sendable alice_ids pair_of) group_destinations group_sessions.
Proof.
  assert (generated_identity dave_identity) as Hd by apply IdentityKeyPair_generate_ok.
  assert (generated_identity bob_identity) as Hb by apply IdentityKeyPair_generate_ok.
  assert (forall d s, d ∈ group_destinations -> s ∈ group_sessions -> sendable alice_ids pair_of d s) as Hall.
  { intros d s Hin Hs. assert (generated_identity (pair_of (pa_name d))) as Hg
      by (unfold pair_of; by destruct (String.eqb _ _)).
    repeat (apply elem_of_cons in Hin as [->|Hin]); [| | |by apply elem_of_nil in Hin];
      (repeat (apply elem_of_cons in Hs as [->|Hs]); [| | |by apply elem_of_nil in Hs]);
      (split_and!; [vm_compute; eauto|by vm_compute|by vm_compute|eexists; split; [vm_compute; reflexivity|by vm_compute]
                   |vm_compute; reflexivity|exact Hg]). }
  unfold group_destinations, group_sessions in *.
  repeat (apply Forall2_cons_2; [apply Hall; repeat first [left|right]|]); constructor.
Qed.

Lemma multi_recipient_delivers_witness :
  exists c rng' sent,
    sealed_sender_multi_recipient_encrypt 4 group_destinations group_sessions [erin_id] group_content alice_ids 7 = (Ok c, rng') /\
    SentMessage_parse (mkSlice 4096 c) = Ok sent /\
    forall sid r, (sid, r) ∈ recipients sent -> devices r = device_entry <$> sent_to sid (zip group_destinations group_sessions).
Proof.
  destruct (multi_recipient_delivers (IB := InMemIdentityKeyStore) alice_ids alice_identity pair_of 4 group_destinations
    group_sessions [erin_id] group_content (SealedMessage.received group_content) (7 : @Rng toy_primitives) 4096) as (c & rng' & sent & H1 & H2 & _ & H3 & _).
  - vm_compute. reflexivity.
  - exact alice_identity_ok.
  - exact group_sendable.
  - apply (bool_decide_unpack _). vm_compute. exact I.
  - vm_compute. congruence.
  - vm_compute. congruence.
  - exact (proj1 content_ok).
  - cbn [SealedMessage.received usmc_sender]. rewrite (proj2 content_ok). exact (proj2 alice_certificate_ok).
  - exists c, rng', sent. split; [exact H1|]. split; [exact H2|exact H3].
Defined.
