(* ===== verification/ZkWitnesses.v ===== *)
(** * ZkWitnesses: the theorems of the zero-knowledge crates on concrete inputs *)

From stdpp Require Import vector.
From S2P Require Import Prelude Types Primitives ServiceId Ristretto Sho Poksho PokshoSpec Crypto Usernames UsernamesSpec ZkAttributes ZkEndorsements ZkCredentials ZkIssuanceSpec ZkPresentation ZkPresentationSpec ZkPresentationProof Toy.

(** ** Concrete inputs for the zero-knowledge crates

    A group for [Ristretto]: the integers modulo the order, with base point 1;
    and the other parameters of usernames.  Nothing here models the
    repository. *)
Open Scope string_scope.
Open Scope list_scope.
Open Scope Z_scope.

(** ** The group *)

Definition in_order (z : Z) : bool := (0 <=? z) && (z <? RISTRETTO_ORDER).
Record zmod := mkZmod { zval : Z; zval_ok : in_order zval = true }.

Lemma zmod_eq a b : zval a = zval b -> a = b.
Proof. destruct a as [a Ha], b as [b Hb]. cbn. intros ->. f_equal. apply Eqdep_dec.UIP_dec, Bool.bool_dec. Qed.

#[export] Instance zmod_eq_dec : EqDecision zmod.
Proof.
  intros a b. destruct (decide (zval a = zval b)) as [H|H].
  - left. by apply zmod_eq.
  - right. by intros ->.
Defined.

Definition zzero : zmod := mkZmod 0 eq_refl.
Definition znorm (z : Z) : zmod :=
  match Sumbool.sumbool_of_bool (in_order (z mod RISTRETTO_ORDER)) with
  | left H => mkZmod (z mod RISTRETTO_ORDER) H
  | right _ => zzero
  end.

#[local] Arguments RISTRETTO_ORDER : simpl never.
#[local] Arguments znorm : simpl never.

Lemma zval_range a : 0 <= zval a < RISTRETTO_ORDER.
Proof. destruct a as [z Hz]. cbn. unfold in_order in Hz. lia. Qed.

Lemma zval_znorm z : zval (znorm z) = z mod RISTRETTO_ORDER.
Proof.
  unfold znorm. destruct (Sumbool.sumbool_of_bool _) as [H|H]; [done|].
  pose proof (Z.mod_pos_bound z RISTRETTO_ORDER ltac:(by vm_compute)). unfold in_order in H. lia.
Qed.

Lemma znorm_zval a : znorm (zval a) = a.
Proof. apply zmod_eq. rewrite zval_znorm. apply Z.mod_small, zval_range. Qed.

(** Exponentiation by squaring, for the inverse. *)
Fixpoint zpow (a : Z) (n : positive) : Z :=
  match n with
  | xH => a mod RISTRETTO_ORDER
  | xO n => let b := zpow a n in (b * b) mod RISTRETTO_ORDER
  | xI n => let b := zpow a n in (a * (b * b)) mod RISTRETTO_ORDER
  end.

(** Little-endian bytes. *)
Fixpoint le_bytes (n : nat) (z : Z) : bytes :=
  match n with O => [] | S n => as_u8 z :: le_bytes n (z / 256) end.

Lemma le_bytes_length n z : length (le_bytes n z) = n.
Proof. revert z. induction n as [|n IH]; intros z; [done|]. cbn [le_bytes length]. by rewrite IH. Qed.

Lemma le_value_bytes n z : 0 <= z < 256 ^ Z.of_nat n -> le_value (le_bytes n z) = z.
Proof.
  revert z. induction n as [|n IH]; intros z Hz; [cbn in *; lia|].
  rewrite Nat2Z.inj_succ, Z.pow_succ_r in Hz by lia. cbn [le_bytes le_value]. rewrite u8_as_u8, IH.
  - pose proof (Z.div_mod z 256 ltac:(lia)). lia.
  - split; [apply Z.div_pos; lia|apply Z.div_lt_upper_bound; lia].
Qed.

Lemma le_bytes_value l : le_bytes (length l) (le_value l) = l.
Proof.
  induction l as [|b l IH]; [done|]. cbn [length le_bytes le_value]. pose proof (u8_range b).
  rewrite (Z.mul_comm 256), Z.div_add, Z.div_small, Z.add_0_l, IH by lia. f_equal.
  apply u8_inj. rewrite u8_as_u8, Z.mod_add, Z.mod_small by lia. done.
Qed.

Definition le_array (z : Z) : array 32 := to_array 32 (le_bytes 32 z).

(** A point is encoded as an even number above an offset: this makes the base
    points of usernames encodings of points. *)
Definition point_offset : Z := 56 * 2 ^ 248.
Definition compress_zmod (P : zmod) : array 32 := le_array (2 * zval P + point_offset).
Definition decompress_zmod (b : array 32) : option zmod :=
  let v := le_value (arr b) - point_offset in
  if (v mod 2 =? 0) && in_order (v / 2) then Some (znorm (v / 2)) else None.

Definition toy_canonical (b : array 32) : option zmod :=
  if in_order (le_value (arr b)) then Some (znorm (le_value (arr b))) else None.

#[export] Instance toy_ristretto : Ristretto := {|
  RScalar := zmod;
  RPoint := zmod;
  s_zero := zzero;
  s_one := znorm 1;
  s_add a b := znorm (zval a + zval b);
  s_sub a b := znorm (zval a - zval b);
  s_mul a b := znorm (zval a * zval b);
  s_neg a := znorm (- zval a);
  s_invert a := znorm (zpow (zval a) (Z.to_pos (RISTRETTO_ORDER - 2)));
  s_from := znorm;
  s_from_bytes_mod_order b := znorm (le_value (arr b));
  s_from_bytes_mod_order_wide b := znorm (le_value (arr b));
  s_from_canonical_bytes := toy_canonical;
  s_to_bytes a := le_array (zval a);
  p_identity := zzero;
  p_base := znorm 1;
  p_add a b := znorm (zval a + zval b);
  p_sub a b := znorm (zval a - zval b);
  p_neg a := znorm (- zval a);
  p_mul a b := znorm (zval a * zval b);
  multiscalar_mul l := foldr (fun P Q => znorm (zval P + zval Q)) zzero ((fun x => znorm (zval x.1 * zval x.2)) <$> l);
  p_compress := compress_zmod;
  p_decompress := decompress_zmod;
  double_and_compress_batch l := (fun P => compress_zmod (znorm (2 * zval P))) <$> l;
  p_from_uniform_bytes b := znorm (le_value (arr b))
|}.

Lemma le_array_value z : 0 <= z < 2 ^ 256 -> le_value (arr (le_array z)) = z.
Proof.
  intros Hz. unfold le_array. rewrite to_array_arr by apply le_bytes_length. apply le_value_bytes.
  by change (256 ^ Z.of_nat 32) with (2 ^ 256).
Qed.

Lemma le_array_of_value (b : array 32) : le_array (le_value (arr b)) = b.
Proof.
  apply array_eq. unfold le_array. rewrite to_array_arr by apply le_bytes_length.
  rewrite <- (array_length b) at 1. apply le_bytes_value.
Qed.

(** Both sides are numbers modulo the order. *)
Ltac zmod_ring :=
  apply zmod_eq; cbn [s_zero s_one s_add s_sub s_mul s_neg p_identity p_base p_add p_sub p_neg p_mul toy_ristretto];
  rewrite ?zval_znorm; change (zval zzero) with 0;
  rewrite ?zval_znorm, ?Zmult_mod_idemp_r, ?Zmult_mod_idemp_l, ?Zplus_mod_idemp_r, ?Zplus_mod_idemp_l.

#[export] Instance toy_ristretto_laws : RistrettoLaws.
Proof.
  apply (Build_RistrettoLaws toy_ristretto zval); try (intros; apply zval_znorm).
  - apply zval_range.
  - apply zmod_eq.
  - done.
  - intros n Hn. cbn. rewrite zval_znorm. apply Z.mod_small.
    assert (u64_max < RISTRETTO_ORDER) by by vm_compute. lia.
  - intros a. pose proof (zval_range a) as Ha. assert (RISTRETTO_ORDER < 2 ^ 256) by by vm_compute.
    change (toy_canonical (le_array (zval a)) = Some a).
    unfold toy_canonical. rewrite le_array_value by lia. unfold in_order.
    rewrite (proj2 (Z.leb_le _ _)), (proj2 (Z.ltb_lt _ _)) by lia. cbn [andb Z.eqb]. by rewrite znorm_zval.
  - intros b a. change (toy_canonical b = Some a -> le_array (zval a) = b). unfold toy_canonical. destruct (in_order _) eqn:Hb; [|done]. intros [= <-].
    rewrite zval_znorm, Z.mod_small by (unfold in_order in Hb; lia). apply le_array_of_value.
  - intros P. exists P. zmod_ring. rewrite Z.mul_1_r. symmetry. apply Z.mod_small, zval_range.
  - intros a b Hab%(f_equal zval). cbn in Hab. rewrite !zval_znorm, !Zmult_mod_idemp_r, !Z.mul_1_r in Hab.
    apply zmod_eq. by rewrite !Z.mod_small in Hab by apply zval_range.
  - intros P. zmod_ring. rewrite Z.mul_1_l. apply Z.mod_small, zval_range.
  - intros P. by zmod_ring.
  - intros a b P. zmod_ring; f_equal; lia.
  - intros a b P. zmod_ring; f_equal; lia.
  - intros P. zmod_ring; f_equal; lia.
  - intros P Q. zmod_ring; f_equal; lia.
  - done.
  - intros P. pose proof (zval_range P) as HP. assert (2 * RISTRETTO_ORDER + point_offset < 2 ^ 256) by by vm_compute.
    assert (0 <= point_offset) by by vm_compute.
    change (decompress_zmod (compress_zmod P) = Some P). unfold decompress_zmod, compress_zmod.
    rewrite le_array_value by lia.
    replace (2 * zval P + point_offset - point_offset) with (zval P * 2) by lia.
    rewrite Z.mod_mul, Z.div_mul by lia. unfold in_order.
    rewrite (proj2 (Z.leb_le _ _)), (proj2 (Z.ltb_lt _ _)) by lia. cbn [andb Z.eqb]. by rewrite znorm_zval.
  - intros b P. change (decompress_zmod b = Some P -> compress_zmod P = b). unfold decompress_zmod, compress_zmod. cbv zeta.
    set (v := le_value (arr b) - point_offset). destruct (Z.eqb_spec (v mod 2) 0) as [Hm|]; [cbn [andb]|done].
    destruct (in_order (v / 2)) eqn:Hb; [|done]. intros [= <-].
    rewrite zval_znorm, Z.mod_small by (unfold in_order in Hb; lia).
    pose proof (Z.div_mod v 2 ltac:(lia)). replace (2 * (v / 2) + point_offset) with (le_value (arr b)) by lia.
    apply le_array_of_value.
Qed.

#[export] Instance toy_base_points : BasePoints.
Proof. constructor. apply (bool_decide_eq_true_1 _). by vm_compute. Qed.

(** ** The other parameters of usernames *)

#[export] Instance toy_index_sample : IndexSample := {
  index_sample E len amount := fun rng => (Ok (Z.of_nat <$> seq 0 amount), rng)
}.
#[export] Instance toy_index_sample_laws : IndexSampleLaws.
Proof.
  constructor. intros E len amount rng Hl. eexists _, _. split; [done|]. split_and!.
  - by rewrite length_fmap, length_seq.
  - apply NoDup_fmap_2; [intros ? ?; lia|]. apply NoDup_seq.
  - apply Forall_fmap, Forall_forall. intros i Hi%elem_of_seq. cbn. lia.
Qed.

(** A message is its two fields, each after its tag and length; the encoding is
    given only to messages of short fields. *)
Definition string_of_bytes : bytes -> string := String.string_of_list_byte.
Definition enc_field (tag : byte) (b : bytes) : bytes :=
  match b with [] => [] | _ => tag :: as_u8 (Z.of_nat (length b)) :: b end.
Definition dec_field (tag : byte) (l : bytes) : bytes * bytes :=
  match l with
  | t :: n :: rest =>
      if bool_decide (t = tag) then (take (Z.to_nat (u8 n)) rest, drop (Z.to_nat (u8 n)) rest) else ([], l)
  | _ => ([], l)
  end.

#[export] Instance toy_username_data : Prost UsernameData := {
  encode_to_vec d := enc_field Byte.x01 (byte_str (ud_username d)) ++ enc_field Byte.x02 (ud_padding d);
  decode_pb l :=
    let '(u, l) := dec_field Byte.x01 l in
    let '(p, l) := dec_field Byte.x02 l in
    match l with [] => Some (mkUsernameData (string_of_bytes u) p) | _ => None end
}.

Definition short_data (d : UsernameData) : Prop :=
  (String.length (ud_username d) < 128)%nat /\ (length (ud_padding d) < 128)%nat.

Lemma byte_str_length s : length (byte_str s) = String.length s.
Proof. induction s as [|c s IH]; [done|]. cbn. by rewrite <- IH. Qed.

Lemma dec_enc_field tag b tail :
  (length b < 128)%nat -> (b = [] -> match tail with [] => True | t :: _ => t <> tag end) ->
  dec_field tag (enc_field tag b ++ tail) = (b, tail).
Proof.
  intros Hb Ht. destruct b as [|x b]; cbn [enc_field app].
  - specialize (Ht eq_refl). destruct tail as [|t [|n tail]]; [done..|]. cbn. by rewrite bool_decide_false.
  - cbn [dec_field]. rewrite bool_decide_true by done. rewrite u8_as_u8, Z.mod_small, Nat2Z.id by lia.
    change (x :: b ++ tail) with ((x :: b) ++ tail). by rewrite take_app_length, drop_app_length.
Qed.

#[export] Instance toy_username_data_prost : ProstLaws UsernameData short_data.
Proof.
  constructor. intros [u p] [Hu Hp]. cbn [ud_username ud_padding] in *. unfold encode_to_vec, decode_pb, toy_username_data.
  cbn [ud_username ud_padding]. rewrite dec_enc_field.
  - rewrite <- (app_nil_r (enc_field Byte.x02 p)), dec_enc_field by done.
    unfold string_of_bytes, byte_str. by rewrite String.string_of_list_byte_of_string.
  - by rewrite byte_str_length.
  - intros _. by destruct p.
Qed.

Lemma enc_field_length tag b : length (enc_field tag b) = field_length (length b).
Proof. destruct b as [|x b]; [done|]. cbn. lia. Qed.

#[export] Instance toy_username_data_laws : UsernameDataLaws.
Proof.
  constructor.
  - intros d _ _. unfold encode_to_vec, toy_username_data. by rewrite length_app, !enc_field_length, byte_str_length.
  - intros d. unfold encode_to_vec, toy_username_data. rewrite length_app, enc_field_length, byte_str_length.
    unfold field_length. destruct (Nat.eqb_spec (String.length (ud_username d)) 0); lia.
Qed.

Open Scope string_scope.
Open Scope list_scope.
Open Scope Z_scope.

(** ** Proofs *)

(** [P = x A + y G] for the point [A = 5 G] and the scalars 3 and 4. *)
Definition equations1 : list named_equation := [("P", [("x", "A"); ("y", "G")])].
Definition scalars1 : ScalarArgs := <["x" := s_from 3]> {["y" := s_from 4]}.
Definition points1 : PointArgs := <["P" := s_from 19]> {["A" := s_from 5]}.
Definition message1 : bytes := byte_str "message".

Ltac decided := unfold scalars_given, points_given; apply (bool_decide_eq_true_1 _); vm_compute; reflexivity.

Lemma proofs_complete_witness :
  exists st proof, build (E:=PokshoError) equations1 = Ok st /\
    prove st scalars1 points1 message1 (arr (zeros 32)) = Ok proof /\
    verify_proof st proof points1 message1 = Ok tt.
Proof.
  apply (proofs_complete equations1 scalars1 points1 message1 (arr (zeros 32))).
  - decided.
  - done.
  - decided.
  - decided.
  - constructor; [vm_compute; reflexivity|constructor].
  - reflexivity.
Defined.

Definition statement1 : Statement :=
  match build (E:=PokshoError) equations1 with Ok st => st | _ => Statement_new end.

Lemma verify_proof_total_witness :
  good_statement equations1 /\
  verify_proof statement1 message1 points1 message1 = Err VerificationFailure.
Proof.
  assert (good_statement equations1) as Hg by decided. split; [exact Hg|].
  destruct (verify_proof_total equations1 statement1 message1 points1 message1 Hg eq_refl) as [H _].
  destruct H as [H|H]; [decided| |exact H]. vm_compute in H. discriminate H.
Defined.

(** Responses to the challenges 1 and 2 for the nonces 10 and 20. *)
Definition proof1 : Proof := mkProof (s_from 1) [s_from 13; s_from 24].
Definition proof2 : Proof := mkProof (s_from 2) [s_from 16; s_from 28].

Lemma special_soundness_witness :
  satisfied equations1 (extracted statement1 equations1 proof1 proof2 (s_from (-1))) points1.
Proof.
  refine (proj2 (special_soundness equations1 statement1 points1 [s_from 1; s_from 19; s_from 5] proof1 proof2
    (s_from (-1)) _ _ _ _ _ _ _ _)).
  - decided.
  - reflexivity.
  - decided.
  - vm_compute. reflexivity.
  - reflexivity.
  - reflexivity.
  - vm_compute. reflexivity.
  - vm_compute. reflexivity.
Defined.

(** ** Usernames *)

Definition username1 : Username :=
  match Username_new "Signal_1.42" with Ok u => u | _ => mkUsername "" 0 [] end.
Definition username2 : Username :=
  match Username_new "sIGNAL_1.42" with Ok u => u | _ => mkUsername "" 0 [] end.
Definition limits1 : NicknameLimits := mkNicknameLimits 3 32.

Lemma wf_username1 : wf_username username1.
Proof. split; [reflexivity|vm_compute; split; [reflexivity|discriminate]|vm_compute; reflexivity]. Defined.
Lemma wf_username2 : wf_username username2.
Proof. split; [reflexivity|vm_compute; split; [reflexivity|discriminate]|vm_compute; reflexivity]. Defined.

Lemma nickname_checks_agree_witness :
  (_ ← from_parts "0abc" "42" limits1; Ok tt) = validate_nickname "0abc" limits1.
Proof. apply (nickname_checks_agree "0abc" "42" 42 limits1 3 32); reflexivity. Defined.

Lemma username_scalars_injective_witness : scalars username1 = scalars username2.
Proof.
  apply (username_scalars_injective username1 username2).
  - exact wf_username1.
  - exact wf_username2.
  - split; reflexivity.
Defined.

Lemma username_proofs_verify_witness :
  exists h pf, Usernames.hash (E:=UsernameError) username1 = Ok h /\ proof username1 (zeros 32) = Ok pf /\
    verify_username_proof pf h = Ok tt.
Proof. exact (proj1 (username_proofs_verify username1 (zeros 32) wf_username1)). Defined.

Lemma candidates_valid_witness :
  exists cs rng', candidates_from "Signal_1" limits1 (5 : @Rng toy_primitives) = (Ok cs, rng') /\ length cs = 20%nat.
Proof.
  pose proof (candidates_valid "Signal_1" limits1 (5 : @Rng toy_primitives) 3 32 eq_refl) as H.
  change (validate_nickname "Signal_1" limits1) with (@Ok UsernameError unit tt) in H.
  destruct H as (cs & rng' & H1 & H2 & _). exists cs, rng'. split; assumption.
Defined.

Lemma username_links_round_trip_witness : exists e buf rng',
  create_for_username "Signal_1.42" None (5 : @Rng toy_primitives) = (Ok (e, buf), rng') /\ decrypt_username e buf = Ok "Signal_1.42".
Proof.
  destruct (username_links_round_trip "Signal_1.42" None (5 : @Rng toy_primitives)) as [H _].
  - split; vm_compute; repeat constructor.
  - destruct H as (e & buf & rng' & H1 & _ & H2); [vm_compute; repeat constructor|].
    exists e, buf, rng'. split; assumption.
Defined.

(** ** Credentials *)

Definition pnt (z : Z) : RPoint := s_from z.
Definition domain1 : Domain := mkDomain "domain1" (pnt 3, pnt 5).
Definition domain2 : Domain := mkDomain "domain2" (pnt 7, pnt 11).
Definition key_pair1 : KeyPair domain1 := from_scalars domain1 (s_from 13) (s_from 17).

Lemma attribute_encryption_witness :
  decrypt_to_second_point key_pair1 (encrypt key_pair1 (pnt 19, pnt 23)) = Ok (pnt 23) /\
  (forall attr, encrypt key_pair1 attr = encrypt key_pair1 (pnt 19, pnt 23) -> attr = (pnt 19, pnt 23)).
Proof.
  destruct (attribute_encryption (D2:=domain2) key_pair1 (pnt 19, pnt 23)) as [H1 H2]. split.
  - rewrite H1. vm_compute. reflexivity.
  - apply H2. vm_compute. reflexivity.
Defined.

Definition derived1 : ServerDerivedKeyPair := mkServerDerived (s_invert (s_from 29)) (pnt 29).

Lemma endorsements_received_witness : exists response,
  issue (E:=ZkError) [pnt 31; pnt 37] derived1 (zeros 32) = Ok response /\
  receive response [pnt 31] (derived_PK derived1) = Err ZkVerificationFailure.
Proof.
  destruct (endorsements_received derived1 [pnt 31; pnt 37] (zeros 32)) as (response & H1 & _ & H3).
  - unfold good_key. vm_compute. reflexivity.
  - discriminate.
  - exists response. split; [exact H1|]. apply H3. discriminate.
Defined.

Lemma endorsement_tokens_witness :
  let e := ZkEndorsements.remove (ZkEndorsements.combine [sk_prime derived1 *p s_from 41 *p pnt 43; sk_prime derived1 *p s_from 41 *p pnt 47])
             (sk_prime derived1 *p s_from 41 *p pnt 43) in
  verify_token derived1 (p_sum [pnt 43; pnt 47] -p pnt 43) (to_token e (from_blinding_scalar (s_from 41))) = Ok tt.
Proof. refine (proj1 (endorsement_tokens derived1 (s_from 41) [pnt 43; pnt 47] (pnt 43) _)). vm_compute. reflexivity. Defined.

Definition system1 : SystemParams :=
  mkSystemParams (pnt 2) (pnt 3) (pnt 4) (pnt 5) (pnt 6) (pnt 7) [# pnt 8; pnt 9; pnt 10; pnt 11; pnt 12; pnt 13; pnt 14].
Definition private1 : CredentialPrivateKey :=
  mkPrivateKey (s_from 15) (s_from 16) (s_from 15 *p pnt 2) (s_from 17) (s_from 18)
    [# s_from 19; s_from 20; s_from 21; s_from 22; s_from 23; s_from 24; s_from 25].
Definition label1 : bytes := byte_str "label".
(** Two public attributes; then an attribute of two points. *)
Definition public1 : IssuanceProofBuilder :=
  add_public_attribute (add_public_attribute (with_authenticated_message label1 message1) (public_u32 7)) (public_bytes message1).
Definition builder1 : IssuanceProofBuilder :=
  match add_attribute (E:=ZkError) public1 (pnt 19, pnt 23) with Ok b => b | _ => public1 end.

Lemma public1_ok : builder_ok public1.
Proof. apply builder_add_public, builder_add_public, builder_new. Defined.
Lemma builder1_ok : builder_ok builder1.
Proof. exact (proj1 (ZkIssuanceSpec.builder_add_attribute (E:=ZkError) public1 (pnt 19, pnt 23) builder1 public1_ok eq_refl)). Defined.

Lemma credential_issued_witness : exists proof,
  issue_credential (E:=ZkError) system1 builder1 (CredentialKeyPair_from system1 private1) (zeros 32) = Ok proof /\
  verify_issuance system1 builder1 (public_key (CredentialKeyPair_from system1 private1)) proof = Ok (ip_credential proof).
Proof.
  destruct (credential_issued system1 private1 builder1 (zeros 32) eq_refl builder1_ok) as [(proof & H1 & H2 & _) _].
  - apply (Nat.leb_le 2). reflexivity.
  - exists proof. split; assumption.
Defined.

Lemma blinded_credential_issued_witness : exists proof c,
  issue_blinded (E:=ZkError) system1 (mkBlindedBuilder public1 [mkBlinded (s_from 3 *p p_base) (s_from 3 *p blinding_Y (BlindingKeyPair_from (s_from 5)) +p pnt 19)])
    (CredentialKeyPair_from system1 private1) (s_from 5 *p p_base) (zeros 32) = Ok proof /\
  valid_credential private1 (all_points public1 ++ [pnt 19]) c.
Proof.
  destruct (blinded_credential_issued system1 private1 public1 (s_from 5)
    [mkBlinded (s_from 3 *p p_base) (s_from 3 *p blinding_Y (BlindingKeyPair_from (s_from 5)) +p pnt 19)] [pnt 19] (zeros 32)
    eq_refl public1_ok) as (proof & c & H1 & _ & H3).
  - split; apply Nat.leb_le; reflexivity.
  - constructor; [|constructor]. exists (s_from 3). reflexivity.
  - exists proof, c. split; assumption.
Defined.

(** The attribute under [key_pair1], the same again under a key the server does not
    check, and a revealed one. *)
Definition shows1 : list Show :=
  [ShowAttribute (pnt 19) (pnt 23) (any_key_pair key_pair1);
   ShowAttribute (pnt 19) (pnt 23) (without_public_key (any_key_pair (from_scalars domain2 (s_from 26) (s_from 27))));
   ShowRevealed (pnt 28)].
Definition attrs1 : list (PublicAttribute (S:=ShoHmacSha256)) := [public_u32 7; public_bytes message1].
(** The credential with [t = 30] and [U = 31]. *)
Definition credential1 : Credential :=
  mkCredential (s_from 30) (pnt 31)
    (W private1 +p (x0 private1 +s x1 private1 *s s_from 30) *p pnt 31
     +p sum_products (vec_to_list (y private1)) (public_point label1 attrs1 :: concat (plain_points <$> shows1))).

Lemma presentation_accepted_witness : exists b v proof,
  client_adds (E:=ZkError) (PresentationProofBuilder_new label1 message1) shows1 = Ok b /\
  server_adds (E:=ZkError) (public_verifier label1 message1 attrs1) shows1 = Ok v /\
  present (E:=ZkError) system1 b (PublicKey_from system1 private1) credential1 (zeros 32) = Ok proof /\
  verify_presentation system1 v (CredentialKeyPair_from system1 private1) proof = Ok tt.
Proof.
  destruct (presentation_accepted (E:=ZkError) system1 private1 credential1 shows1 label1 message1 attrs1 (zeros 32))
    as (b & v & H1 & H2 & H3 & _).
  - discriminate.
  - apply Nat.leb_le. reflexivity.
  - intros s s' k k' Hs Hs' Hk Hk'. unfold shows1 in Hs, Hs'. rewrite !elem_of_cons in Hs, Hs'.
    destruct Hs as [->|[->|[->|Hs]]]; [| |discriminate Hk|by apply not_elem_of_nil in Hs];
      destruct Hs' as [->|[->|[->|Hs']]]; try discriminate Hk'; try (by apply not_elem_of_nil in Hs');
      injection Hk as <-; injection Hk' as <-; intros Hid; try reflexivity; discriminate Hid.
  - apply Forall_forall. constructor; [reflexivity|constructor; [exact I|constructor]].
  - split; intros H; vm_compute in H; discriminate H.
  - destruct H3 as (proof & H4 & H5); [reflexivity|]. exists b, v, proof. split_and!; assumption.
Defined.
