(* ===== verification/KtWitnesses.v ===== *)
(** * KtWitnesses: the key transparency theorems at concrete inputs

    Each lemma applies one theorem to the log, the client and the server's
    response of the scenario that is set up first. *)

From stdpp Require Import sorting.
From S2P Require Import Prelude Types Primitives KtTree KtImplicit KtGuide KtLog KtMerkle KtLogProofs KtBatch KtPrefix KtVrf KtTypes KtTreeHead KtMonitor KtVerify KtSearch Toy.

(** ** A small key transparency log

    With the primitives of [Toy]: a log of five entries in which a search key
    gets its first version at entry 1 and its second at entry 3, a stored tree
    head of size 2, an auditor, and the response of an honest server to a
    search.  Nothing here models the
    repository. *)
Open Scope string_scope.
Open Scope list_scope.
Open Scope Z_scope.

(** ** Instances *)


#[export] Instance toy_vrf : VrfPrimitives (P := toy_primitives) := {|
  point_decompress b := Some (first_byte b) : option (@EdwardsPoint toy_primitives);
  mul_by_cofactor p := p;
  point_is_identity p := bool_decide (p = Byte.x00);
  point_is_small_order p := bool_decide (p = Byte.x00);
  scalar_from_canonical_bytes b := Some (first_byte b);
  scalar_neg a := as_u8 (- u8 a);
  multiscalar_mul l := as_u8 (fold_right (fun p acc => u8 p.1 * u8 p.2 + acc) 0 l)
|}.

#[export] Instance toy_ed25519 : Ed25519 := {|
  VerifyingKey := byte;
  vk_bytes k := copies 32 k;
  ed25519_verify k m s := bool_decide (s = copies 64 (hash (k :: m)))
|}.
Definition toy_sign (k : byte) (m : bytes) : bytes := replicate 64 (hash (k :: m)).

#[export] Instance toy_hash_iter : HashIter.
Proof. exists (fun A m => map_to_list m). done. Defined.

(** ** The log *)

Definition key_name : bytes := [Byte.x61; Byte.x6c; Byte.x69; Byte.x63; Byte.x65].
Definition key_value (version : Z) : bytes := [as_u8 version; Byte.x2a].
Definition nonce16 : array 16 := copies 16 Byte.x07.
Definition empty_siblings : list bytes := replicate 256 (replicate 32 Byte.x00).
Definition first_entry : Z := 1.
Definition version_of (x : Z) : Z := if x <? 3 then 0 else 1.

(** The service's VRF key pair and its proof for the search key. *)
Definition vrf_secret : byte := Byte.x05.
Definition vrf_public : VrfPublicKey := mkVrfPublicKey (padded vrf_secret) (vrf_secret : @EdwardsPoint toy_primitives).
Definition vrf_point : byte := match @encode_to_curve_try_and_increment _ _ unit (arr (compressed vrf_public)) key_name with Ok h => h | _ => Byte.x00 end.
Definition vrf_gamma : byte := as_u8 (u8 vrf_secret * u8 vrf_point).
Definition vrf_nonce : byte := Byte.x0b.
Definition vrf_challenge : array 16 :=
  generate_challenge [compressed vrf_public; padded vrf_point; padded vrf_gamma; padded vrf_nonce;
                      padded (as_u8 (u8 vrf_nonce * u8 vrf_point))].
Definition vrf_proof_bytes : bytes :=
  arr (padded vrf_gamma) ++ arr vrf_challenge ++
  arr (padded (as_u8 (u8 vrf_nonce + u8 (first_byte vrf_challenge) * u8 vrf_secret))).
Definition key_index : array 32 :=
  match evaluate_vrf_proof vrf_proof_bytes vrf_public key_name with Ok i => i | _ => zeros 32 end.

Definition view : LogView := {|
  lv_first := first_entry;
  lv_proof x := mkPrefixProof empty_siblings (version_of x);
  lv_prefix_root x :=
    match evaluate key_index first_entry (mkPrefixProof empty_siblings (version_of x)) with Ok r => r | _ => zeros 32 end;
  lv_commitment x :=
    match @commit _ unit key_name (be_bytes 4 2 ++ key_value (version_of x)) nonce16 with
    | Ok c => to_array 32 c | _ => zeros 32 end
|}.
Definition the_log : list Hash :=
  (fun x => log_leaf_hash (lv_prefix_root view x) (lv_commitment view x)) <$> seqZ 0 5.
Definition old_log : list Hash := take 2 the_log.

(** ** The server's response *)

Definition service_key : byte := Byte.x11.
Definition auditor_key : byte := Byte.x12.
Definition config : PublicConfig := mkPublicConfig (ThirdPartyAuditing [auditor_key]) service_key vrf_public.

Definition now : Z := 1700000000000 * 1000000.
Definition old_head : TreeHead := mkTreeHead 2 1699999990000 [].
Definition auditor_head0 : AuditorTreeHead := mkAuditorTreeHead 2 1699999990000 [].
Definition hashes_of (ids : outcome LogError (list Z)) : list bytes :=
  match ids with Ok ids => arr <$> honest_hashes the_log ids | _ => [] end.

Definition header {H} `{VerifiableTreeHead H} (h : H) (root : Hash) (key : byte) : bytes :=
  match to_signable_header (E := unit) h root config (Some key) with Ok b => b | _ => [] end.
Definition auditor_head : AuditorTreeHead :=
  mkAuditorTreeHead 2 1699999990000 (toy_sign auditor_key (header auditor_head0 (log_root old_log) auditor_key)).
Definition new_head : TreeHead :=
  let unsigned := mkSingle (mkTreeHead 5 1699999999000 []) in
  mkTreeHead 5 1699999999000
    [mkSignature (replicate 32 auditor_key) (toy_sign service_key (header unsigned (log_root the_log) auditor_key))].
Definition full_head : FullTreeHead := {|
  fth_tree_head := Some new_head;
  fth_last := hashes_of (math.consistency_proof 2 5);
  fth_distinguished := [];
  fth_full_auditor_tree_heads :=
    [mkFullAuditorTreeHead (Some auditor_head) (Some (arr (log_root old_log)))
       (hashes_of (math.consistency_proof 2 5)) (replicate 32 auditor_key)]
|}.

(** The entries a search for the latest version looks up, in order, and a search for a given version. *)
Definition ask (id : Z) : M (ProofGuide * list Z) InvalidState unit :=
  fun s => (Ok tt, (ProofGuide_insert id (version_of id) s.1, s.2 ++ [id])).
Definition asked_for (version : option Z) : list Z :=
  match ProofGuide_new version first_entry 5 with Ok g => (consume id ask g []).2 | _ => [] end.
Definition asked : list Z := asked_for None.
Definition step_of (x : Z) : ProofStep := mkProofStep (Some (lv_proof view x)) (arr (lv_commitment view x)).
Definition search_proof_for (asked : list Z) : SearchProof := {|
  sp_pos := first_entry;
  sp_steps := step_of <$> asked;
  sp_inclusion := hashes_of (math.batch_copath (sort_by_key id asked) 5)
|}.
Definition search_proof : SearchProof := search_proof_for asked.
Definition response : FullSearchResponse :=
  mkFullSearchResponse (mkCondensed vrf_proof_bytes (Some search_proof) (arr nonce16) (Some (key_value 1))) full_head.
Definition request : SlimSearchRequest := SlimSearchRequest_new key_name.
Definition client : SearchContext := mkSearchContext (Some (old_head, log_root old_log)) None None.

(** The same for the first version, which is not the latest. *)
Definition version_proof : SearchProof := search_proof_for (asked_for (Some 0)).
Definition version_response : FullSearchResponse :=
  mkFullSearchResponse (mkCondensed vrf_proof_bytes (Some version_proof) (arr nonce16) (Some (key_value 0))) full_head.
Definition version_request : SlimSearchRequest := mkSlimSearchRequest key_name (Some 0).
Definition version_searched : outcome KtError VerifiedSearchResult := verify_search config version_request version_response client true now.
Definition version_found : VerifiedSearchResult :=
  match version_searched with Ok r => r | _ => mkVerifiedSearchResult [] (mkLocalStateUpdate new_head (zeros 32) None) end.

Definition searched : outcome KtError VerifiedSearchResult := verify_search config request response client true now.
Definition search_found : VerifiedSearchResult :=
  match searched with Ok r => r | _ => mkVerifiedSearchResult [] (mkLocalStateUpdate new_head (zeros 32) None) end.

(** The search succeeds and the client monitors entry 3, the first with
    version 1. *)
Example search_succeeds :
  (fun r => (vsr_value r, (fun d => map_to_list (md_ptrs d)) <$> lsu_monitoring_data (vsr_state_update r))) <$> searched
  = Ok (key_value 1, Some [(3, 1)]).
Proof. vm_compute. done. Qed.

Open Scope string_scope.
Open Scope list_scope.
Open Scope Z_scope.

Lemma searched_Ok : verify_search config request response client true now = Ok search_found.
Proof. vm_compute. reflexivity. Qed.

Lemma view_describes : describes view key_index the_log.
Proof.
  assert (Hlen : Z.of_nat (length the_log) = 5) by (vm_compute; reflexivity).
  assert (Hall : forall (Q : Z -> Prop), Q 0 -> Q 1 -> Q 2 -> Q 3 -> Q 4 -> forall x, 0 <= x < 5 -> Q x).
  { intros Q Q0 Q1 Q2 Q3 Q4 x Hx. assert (x = 0 \/ x = 1 \/ x = 2 \/ x = 3 \/ x = 4) as Hc by lia.
    destruct Hc as [->|[->|[->|[->| ->]]]]; assumption. }
  split; rewrite Hlen.
  - cbn. unfold first_entry. lia.
  - apply (Hall (fun x => leaf_of the_log x = log_leaf_hash (lv_prefix_root view x) (lv_commitment view x)));
      vm_compute; reflexivity.
  - intros x Hx. change (lv_first view) with 1 in *. split.
    + unfold version_at, view, lv_proof, pp_counter, version_of, is_u32, u32_max. destruct (x <? 3); lia.
    + revert x Hx. assert (H : forall x, 0 <= x < 5 -> 1 <= x ->
        evaluate key_index 1 (lv_proof view x) = Ok (lv_prefix_root view x)).
      { apply (Hall (fun x => 1 <= x -> evaluate key_index 1 (lv_proof view x) = Ok (lv_prefix_root view x)));
          intros _; vm_compute; reflexivity. }
      intros x Hx. apply H; lia.
  - intros x y _ Hxy. unfold version_at, view, lv_proof, pp_counter, version_of.
    destruct (Z.ltb_spec x 3), (Z.ltb_spec y 3); lia.
Qed.

Lemma vrf_accepted :
  evaluate_vrf_proof (cr_vrf_proof (fsr_condensed response)) (vrf_key config) (sr_search_key request) = Ok key_index.
Proof. vm_compute. reflexivity. Qed.
Lemma the_log_size : Z.of_nat (length the_log) = th_tree_size new_head.
Proof. vm_compute. reflexivity. Qed.
Lemma the_log_root : log_root the_log = lsu_tree_root (vsr_state_update search_found).
Proof. vm_compute. reflexivity. Qed.
Lemma steps_in_range ids :
  Forall (fun s => forall pp, ps_prefix s = Some pp -> is_u32 (pp_counter pp)) (sp_steps (search_proof_for ids)).
Proof.
  apply Forall_forall. intros s (x & -> & _)%list_elem_of_fmap pp [= <-].
  unfold is_u32, u32_max. cbn. unfold version_of. destruct (x <? 3); lia.
Qed.
Lemma first_entry_u64 : is_u64 first_entry.
Proof. unfold is_u64, u64_max, first_entry. lia. Qed.
Lemma version_searched_Ok : verify_search config version_request version_response client true now = Ok version_found.
Proof. vm_compute. reflexivity. Qed.
Lemma version_log_root : log_root the_log = lsu_tree_root (vsr_state_update version_found).
Proof. vm_compute. reflexivity. Qed.
Lemma new_head_size : th_tree_size new_head <= MAX_LEAVES.
Proof. unfold MAX_LEAVES. cbn. lia. Qed.

(** The latest version, and one that is asked for. *)
Lemma verify_search_sound_witness :
  (found_first view 5 None key_name (vsr_value search_found) (arr nonce16) first_entry \/ (None (A := Z) <> None /\ proved_earlier view key_index the_log) \/
   collision (all_strings view key_index None search_proof the_log)) /\
  (found_first view 5 (Some 0) key_name (vsr_value version_found) (arr nonce16) first_entry \/ (Some 0 <> None /\ proved_earlier view key_index the_log) \/
   collision (all_strings view key_index (Some 0) version_proof the_log)).
Proof.
  split.
  - exact (verify_search_sound config request response client true now search_found key_index new_head search_proof
             the_log view searched_Ok vrf_accepted eq_refl eq_refl first_entry_u64 new_head_size (steps_in_range asked)
             view_describes the_log_size the_log_root).
  - exact (verify_search_sound config version_request version_response client true now version_found key_index new_head version_proof
             the_log view version_searched_Ok vrf_accepted eq_refl eq_refl first_entry_u64 new_head_size (steps_in_range (asked_for (Some 0)))
             view_describes the_log_size version_log_root).
Defined.

Lemma tree_head_extends_witness :
  extends old_log the_log \/
  collision (baseline_strings new_head (old_head, log_root old_log) (fth_last full_head) ++ log_strings old_log ++ log_strings the_log).
Proof.
  apply (tree_head_extends config full_head (log_root the_log) (Some (old_head, log_root old_log)) None now
           new_head (log_root the_log) (old_head, log_root old_log) (fth_last full_head) old_log the_log).
  - vm_compute. reflexivity.
  - left. split; reflexivity.
  - unfold MAX_LEAVES. cbn. lia.
  - vm_compute. reflexivity.
  - reflexivity.
  - vm_compute. reflexivity.
  - reflexivity.
Defined.

Lemma tree_head_signed_witness :
  exists sig, sig ∈ th_signatures new_head /\
    signed config (mkSingle (mkTreeHead 5 1699999999000 [sig])) (log_root the_log) service_key auditor_key.
Proof.
  destruct (tree_head_signed config full_head (log_root the_log) (Some (old_head, log_root old_log)) None now
              (new_head, log_root the_log)) as [H _].
  - vm_compute. reflexivity.
  - unfold MAX_LEAVES. cbn. lia.
  - change (get_associated_keys (mode config)) with [auditor_key] in H. apply Forall_cons in H as [(sig & Hin & _ & Hs) _].
    exists sig. split; assumption.
Defined.

Lemma contact_monitoring_unsigned_witness :
  let plain := mkPublicConfig ContactMonitoring service_key vrf_public in
  let last := Some (old_head, log_root old_log) in
  verify_full_tree_head plain
    (mkFullTreeHead (Some (mkTreeHead 5 1699999999000 [])) (fth_last full_head) [] (fth_full_auditor_tree_heads full_head))
    (log_root the_log) last None now = Ok (mkTreeHead 5 1699999999000 [], log_root the_log).
Proof.
  intros plain last.
  apply (contact_monitoring_unsigned plain full_head (log_root the_log) last None now new_head []); try reflexivity.
  eexists. vm_compute. reflexivity.
Defined.

Lemma consistency_complete_witness :
  exists ids, @math.consistency_proof LogError 2 5 = Ok ids /\
    verify_consistency_proof 2 5 (honest_hashes the_log ids) (log_root old_log) (log_root the_log) = Ok tt.
Proof.
  apply (consistency_complete the_log 2); [vm_compute; split; reflexivity|unfold MAX_LEAVES; vm_compute; discriminate].
Defined.

Lemma consistency_sound_witness :
  let proof := match @math.consistency_proof LogError 2 5 with Ok ids => honest_hashes the_log ids | _ => [] end in
  old_log = take 2 the_log \/
  collision (consistency_strings 2 5 (log_root old_log) proof ++ log_strings old_log ++ log_strings the_log).
Proof.
  intros proof. apply (consistency_sound old_log the_log proof); [unfold MAX_LEAVES; vm_compute; discriminate|].
  vm_compute. reflexivity.
Defined.

Definition some_leaves : list Z := [0; 3].

Lemma batch_complete_witness :
  exists ids, @math.batch_copath LogError some_leaves 5 = Ok ids /\
    evaluate_batch_proof some_leaves 5 (leaf_of the_log <$> some_leaves) (honest_hashes the_log ids) = Ok (log_root the_log).
Proof.
  apply (batch_complete the_log some_leaves); [unfold MAX_LEAVES; vm_compute; discriminate|reflexivity|discriminate|].
  repeat constructor; vm_compute; reflexivity || discriminate.
Defined.

Lemma batch_sound_witness :
  let proof := match @math.batch_copath LogError some_leaves 5 with Ok ids => honest_hashes the_log ids | _ => [] end in
  let values := leaf_of the_log <$> some_leaves in
  values = leaf_of the_log <$> some_leaves \/ collision (batch_strings 5 some_leaves values proof ++ log_strings the_log).
Proof.
  intros proof values.
  apply (batch_sound the_log some_leaves values proof); [unfold MAX_LEAVES; vm_compute; discriminate| |vm_compute; reflexivity].
  repeat constructor; lia.
Defined.

Lemma search_finds_version_witness :
  exists g res s', ProofGuide_new (Some 1) first_entry 5 = Ok g /\ consume id ask g [] = (Ok res, s') /\
    match res with
    | Some (_, id) => version_of id = 1 /\ forall y, 1 <= y < id -> version_of y < 1
    | None => False
    end.
Proof.
  destruct (search_finds_version (S := list Z) id ask version_of (Some 1) first_entry 5 [])
    as (g & res & s' & Hg & Hc & Hres).
  - unfold first_entry. lia.
  - unfold u64_max. lia.
  - intros x y _ Hxy. unfold version_of. destruct (Z.ltb_spec x 3), (Z.ltb_spec y 3); lia.
  - intros x g s. exists (s ++ [x]). reflexivity.
  - exists g, res, s'. split; [exact Hg|]. split; [exact Hc|]. destruct res as [[i r]|].
    + destruct Hres as (_ & Hv & Hlow). split; [exact Hv|]. intros y Hy. apply Hlow. exact Hy.
    + apply (Hres 3); [unfold first_entry; lia|reflexivity].
Defined.

Lemma view_proof_1 : evaluate key_index 1 (lv_proof view 1) = Ok (lv_prefix_root view 1).
Proof. vm_compute. reflexivity. Qed.
Lemma view_proof_2 : evaluate key_index 1 (lv_proof view 2) = Ok (lv_prefix_root view 1).
Proof. vm_compute. reflexivity. Qed.
Lemma one_u64 : is_u64 1.
Proof. unfold is_u64, u64_max. lia. Qed.
Lemma view_counter x : is_u32 (pp_counter (lv_proof view x)).
Proof. cbn. unfold version_of, is_u32, u32_max. destruct (x <? 3); lia. Qed.

Lemma prefix_binding_witness :
  (pp_counter (lv_proof view 1) = pp_counter (lv_proof view 2) /\ 1 = 1) \/
  collision (prefix_strings key_index 1 (lv_proof view 1) ++ prefix_strings key_index 1 (lv_proof view 2)).
Proof.
  exact (prefix_binding key_index 1 1 (lv_proof view 1) (lv_proof view 2) (lv_prefix_root view 1)
           one_u64 one_u64 (view_counter 1) (view_counter 2) view_proof_1 view_proof_2).
Defined.

(** The prefix tree of the first entries: the key's leaf, and nothing beside. *)
Definition prefix_tree : ptree :=
  fst (Nat.iter 256 (fun '(t, n) =>
         (if key_bit key_index n then PNode (PHash (zeros 32)) t else PNode t (PHash (zeros 32)), Nat.pred n))
         (PHash (leaf_hash key_index 0 1), 255%nat)).
Lemma prefix_tree_path :
  ppath key_index 0 prefix_tree = (pp_proof (lv_proof view 1), leaf_hash key_index (pp_counter (lv_proof view 1)) 1).
Proof. vm_compute. reflexivity. Qed.

Lemma prefix_complete_witness : evaluate key_index 1 (lv_proof view 1) = Ok (phash prefix_tree).
Proof. exact (prefix_complete key_index 1 prefix_tree (lv_proof view 1) prefix_tree_path eq_refl). Defined.

Lemma commitment_binding_witness :
  let data := be_bytes 4 2 ++ key_value 1 in
  key_name = key_name \/ commit_string key_name data nonce16 <> commit_string key_name data nonce16.
Proof.
  intros data.
  destruct (commitment_binding (E := unit) key_name data nonce16 key_name data nonce16 (arr (lv_commitment view 3)))
    as [[H _]|[H _]]; [vm_compute; reflexivity..|left; exact H|right; exact H].
Defined.

(** ** Monitoring *)

Definition monitored : MonitoringData := mkMonitoringData key_index first_entry {[1 := 0]} true.
Definition later_steps : gmap Z ProofStep := {[3 := step_of 3]}.

Lemma monitored_ok : data_ok 5 monitored.
Proof.
  split; [cbn; unfold first_entry; lia|]. intros p v. cbn. rewrite lookup_singleton_Some. unfold first_entry. lia.
Qed.

Definition monitored_later : MonitoringData := mkMonitoringData key_index first_entry {[3 := 1]} true.
Lemma monitored_update : update 5 later_steps (Some monitored) = Ok (Some monitored_later).
Proof. vm_compute. reflexivity. Qed.

Lemma update_moves_witness :
  exists p' v', md_ptrs monitored_later !! p' = Some v' /\ moves 5 later_steps (1, 0) (p', v').
Proof.
  destruct (update_moves 5 later_steps monitored monitored_ok) as [_ H]; [unfold u64_max; lia|].
  destruct (H monitored_later monitored_update) as (_ & _ & _ & _ & Hf & _). apply (Hf 1 0). reflexivity.
Defined.

Lemma update_monotone_witness :
  exists v' p', @greatest_version _ KtError monitored_later = Ok v' /\
    @latest_log_position _ KtError monitored_later = Ok p' /\ 0 <= v' /\ 1 <= p'.
Proof.
  apply (update_monotone 5 later_steps monitored monitored_later 0 1 monitored_ok); try (vm_compute; reflexivity).
  unfold u64_max. lia.
Defined.

Lemma full_monitoring_path_ok_witness :
  exists path f, @full_monitoring_path unit 1 1 5 = Ok path /\ @frontier unit 1 5 = Ok f /\
    StronglySorted Z.lt (1 :: path).
Proof.
  destruct (full_monitoring_path_ok (E := unit) 1 1 5) as (path & f & H1 & H2 & H3 & _); [lia|lia|unfold u64_max; lia|].
  exists path, f. split; [exact H1|]. split; [exact H2|exact H3].
Defined.

(** ** Tree heads *)

Lemma signable_header_binding_witness :
  th_tree_size (single_head (mkSingle new_head)) = 5.
Proof.
  destruct (signable_header_binding (E := unit) (mkSingle new_head) (mkSingle new_head) (log_root the_log) (log_root the_log)
    config (Some auditor_key) (Some auditor_key) (header (mkSingle new_head) (log_root the_log) auditor_key)) as (H & _);
    try (unfold is_u64, u64_max; cbn; lia); try (vm_compute; reflexivity).
Defined.

Lemma verify_timestamp_spec_witness :
  verify_timestamp Server 1699999999000 ALLOWED_TIMESTAMP_RANGE now = Ok tt.
Proof. apply verify_timestamp_spec; [unfold now; lia|]. vm_compute. split; discriminate. Defined.

Definition bad_response : FullSearchResponse :=
  mkFullSearchResponse (mkCondensed vrf_proof_bytes (Some (mkSearchProof 5 [] [])) [] None) full_head.

Lemma out_of_range_panics_witness : verify_search config request bad_response client true now = Panic.
Proof.
  exact (out_of_range_panics config request bad_response client true now key_index new_head (mkSearchProof 5 [] [])
           vrf_accepted eq_refl eq_refl (Z.le_refl 5)).
Defined.
