(* ===== verification/BackupWitnesses.v ===== *)
(** * BackupWitnesses: the theorems on account keys and backups on concrete inputs *)

From Stdlib Require Import Ascii SpecFloat.
From stdpp Require Import strings.
From S2P Require Import Prelude Types Primitives ServiceId Ristretto Sho Poksho IncrementalMac Usernames AccountKeys ZkWitnesses.
From S2P Require Import BackupProto BackupData BackupMessages BackupChats BackupState BackupStateSpec.
From S2P Require Import AsyncIo BackupCipher BackupFrame BackupReader BackupReaderSpec Toy.

(** ** Instances for the parameters of the backup reader

    A file that is read in small pieces and is not ready every other time, adaptors
    and a decompressor that does nothing.  Nothing here models the repository. *)
Open Scope string_scope.
Open Scope list_scope.
Open Scope Z_scope.

(** ** Ciphers and MACs *)

#[export] Instance toy_cbc : CbcDecryptor := {|
  Decryptor := unit;
  decryptor_new _ _ := tt;
  decrypt_block_mut b d := (b, d);
  pkcs7_unpad b := unpkcs7 (arr b)
|}.
Lemma toy_decrypt_blocks bs d : decrypt_blocks bs d = bs.
Proof. induction bs as [|b bs IH]; [done|]. cbn. by rewrite IH. Qed.
Lemma blocks_length (bs : list (array 16)) : length (concat (arr <$> bs)) = (length bs * 16)%nat.
Proof. induction bs as [|b bs IH]; [done|]. cbn. rewrite length_app, IH, array_length. lia. Qed.

#[export] Instance toy_cbc_laws : CbcDecryptorLaws.
Proof.
  constructor.
  - intros k iv bs b. rewrite toy_decrypt_blocks. destruct (bs ++ [b]) as [|d ds] eqn:Hbs; [by destruct bs|].
    assert (List.last ds d = b /\ removelast (d :: ds) = bs) as [-> ->].
    { rewrite <- Hbs, removelast_app, app_nil_r by done. split; [|done].
      assert (List.last (d :: ds) d = b) as Hl by (rewrite <- Hbs; apply last_last). by rewrite last_cons2 in Hl. }
    rewrite <- Hbs. change (unpkcs7 (concat (arr <$> bs ++ [b])) = (tail ← unpkcs7 (arr b); Some (concat (arr <$> bs) ++ tail))).
    rewrite fmap_app, concat_app. cbn [fmap list_fmap concat]. rewrite app_nil_r. unfold unpkcs7.
    pose proof (array_length b) as Hb. rewrite length_app, blocks_length, Hb.
    destruct (arr b) as [|x l _] eqn:Hx using rev_ind; [done|]. rewrite app_assoc, !last_snoc.
    assert ((length bs * 16 + 16) mod 16 = 0)%nat as -> by (by rewrite Nat.add_comm, Nat.Div0.mod_add).
    change (16 mod 16)%nat with 0%nat. cbn [Nat.eqb].
    destruct (Z.leb_spec 1 (u8 x)), (Z.leb_spec (u8 x) 16); cbn [andb mbind option_bind]; try done.
    f_equal. rewrite <- app_assoc, <- Hx. rewrite take_app_ge by (rewrite blocks_length; lia). do 2 f_equal. rewrite blocks_length. lia.
  - intros k iv c [->|Hc]; [done|]. cbn. unfold unpkcs7. by destruct (Nat.eqb_spec (length c mod 16) 0).
Qed.

#[export] Instance toy_hmac : HmacSha256 := {| hmac_new k := k |}.
#[export] Instance toy_hmac_laws : HmacSha256Laws.
Proof. by constructor. Qed.

(** ** Reading a stream *)

Record ToyIar (S : Type) := mkToyIar { iar_bytes : bytes; iar_stream : S }.
Arguments mkToyIar {S} _ _.
Arguments iar_bytes {S} _.
Arguments iar_stream {S} _.

#[export] Instance toy_iar : IntoAsyncReads := {|
  IntoAsyncRead := ToyIar;
  into_async_read S s := mkToyIar [] s;
  poll_read_stream W S _ n r w :=
    match iar_bytes r with
    | _ :: _ => (Ready (Ok (take n (iar_bytes r))), (mkToyIar (drop n (iar_bytes r)) (iar_stream r), w))
    | [] =>
        let '(p, (s, w)) := poll_next (iar_stream r) w in
        match p with
        | Pending => (Pending, (mkToyIar [] s, w))
        | Ready None => (Ready (Ok []), (mkToyIar [] s, w))
        | Ready (Some (Err e)) => (Ready (Err e), (mkToyIar [] s, w))
        | Ready (Some Panic) => (Ready Panic, (mkToyIar [] s, w))
        | Ready (Some (Ok [])) => (Pending, (mkToyIar [] s, w))
        | Ready (Some (Ok l)) => (Ready (Ok (take n l)), (mkToyIar (drop n l) s, w))
        end
    end
|}.
#[export] Program Instance toy_iar_laws : IntoAsyncReadLaws := {|
  iar_wf W S _ _ r w := st_wf (iar_stream r) w;
  iar_content W S _ _ r w := iar_bytes r ++ concat (items (iar_stream r) w);
  iar_ending W S _ _ r w := st_ending (iar_stream r) w;
  iar_left W S _ _ r w := (length (iar_bytes r ++ concat (items (iar_stream r) w)) + st_left (iar_stream r) w)%nat
|}.
Next Obligation. done. Qed.
Next Obligation.
  intros W S HS HL n [l s] w Hn Hwf. unfold poll_read_stream, toy_iar. cbn [iar_bytes iar_stream] in *. destruct l as [|b l].
  - pose proof (poll_next_law s w Hwf) as Hl. destruct (poll_next s w) as [[|[[[|b l]|e|]|]] [s' w']]; cbn [iar_bytes iar_stream app].
    + destruct Hl as (? & -> & -> & ?). split_and!; try done. lia.
    + destruct Hl as (? & -> & -> & ?). split_and!; try done. cbn [concat app]. lia.
    + destruct Hl as (? & -> & -> & ?). destruct n as [|n]; [lia|]. cbn [take drop concat].
      split_and!; try done; [cbn [length]; rewrite length_take; lia|cbn [app]; by rewrite app_assoc, take_drop|].
      cbn [app length]. rewrite !length_app, length_drop. lia.
    + destruct Hl as [-> ->]. done.
    + done.
    + destruct Hl as (-> & -> & ? & -> & ->). done.
  - destruct n as [|n]; [lia|]. cbn [take drop iar_bytes iar_stream].
    split_and!; try done; [cbn [length]; rewrite length_take; lia|cbn [app]; by rewrite app_assoc, take_drop|].
    cbn [app length]. rewrite !length_app, length_drop. lia.
Qed.
Next Obligation.
  intros W S HS Q HQ n [l s] w Hw. unfold poll_read_stream, toy_iar. cbn [iar_bytes iar_stream]. destruct l; [|done].
  specialize (HQ s w Hw). by destruct (poll_next s w) as [[|[[[|b l]|e|]|]] [s' w']].
Qed.

(** ** Files *)

(** A file that gives at most three bytes at a time and makes every reader wait once
    before each piece. *)
Record ToyFile := mkToyFile { tf_bytes : bytes; tf_at : nat; tf_wait : bool }.
Definition tf_rest (f : ToyFile) : bytes := drop (tf_at f) (tf_bytes f).

#[export] Instance ToyFile_read : AsyncRead ToyFile := {|
  poll_read n f :=
    if tf_wait f then (Pending, mkToyFile (tf_bytes f) (tf_at f) false)
    else
      let l := take (Nat.min n 3) (tf_rest f) in
      (Ready (Ok l), mkToyFile (tf_bytes f) (tf_at f + length l) true)
|}.
#[export] Instance ToyFile_progress : Progress ToyFile :=
  {| polls_left f := (2 * length (tf_rest f) + if tf_wait f then 1 else 0)%nat |}.
#[export] Program Instance ToyFile_laws : ReaderLaws ToyFile := {|
  rd_wf f := (tf_at f <= length (tf_bytes f))%nat; content := tf_rest; ending _ := None
|}.
Next Obligation.
  intros n [l i w] Hn Hwf. cbn [poll_read ToyFile_read tf_bytes tf_at tf_wait polls_left ToyFile_progress] in *.
  destruct w; [unfold tf_rest; cbn [tf_bytes tf_at tf_wait]; split_and!; try done; lia|].
  unfold tf_rest. cbn [tf_bytes tf_at tf_wait]. destruct (take (Nat.min n 3) (drop i l)) as [|b bs] eqn:Ht.
  - apply (f_equal length) in Ht. rewrite length_take, length_drop in Ht. cbn in Ht.
    cbn [length]. rewrite Nat.add_0_r. assert (drop i l = []) as Hd by (apply drop_ge; lia). by rewrite Hd.
  - rewrite <- Ht. assert (length (take (Nat.min n 3) (drop i l)) = S (length bs)) as Hlen by (by rewrite Ht).
    rewrite length_take, length_drop in Hlen.
    assert (drop (i + length (take (Nat.min n 3) (drop i l))) l = drop (Nat.min n 3) (drop i l)) as Hd.
    { rewrite length_take, length_drop, drop_drop.
      destruct (decide (Nat.min n 3 <= length l - i)%nat); [f_equal; lia|rewrite !drop_ge by lia; done]. }
    rewrite Hd, take_drop, !length_drop, length_take, length_drop. split_and!; try done; lia.
Qed.
#[export] Instance ToyFile_skip : AsyncSkip ToyFile := {|
  skip n f := (Ok tt, mkToyFile (tf_bytes f) (Nat.min (tf_at f + n) (length (tf_bytes f))) (tf_wait f));
  stream_position f := (Ok (tf_at f), f);
  stream_len f := (Ok (length (tf_bytes f)), f)
|}.
#[export] Program Instance ToyFile_skip_laws : AsyncSkipLaws ToyFile := {| whole := tf_bytes; at_byte := tf_at |}.
Next Obligation. done. Qed.
Next Obligation. done. Qed.
Next Obligation. intros n [l i w] _. cbn. by destruct w. Qed.
Next Obligation.
  intros n [l i w] Hwf. cbn in *. split_and!; [lia|done|]. unfold tf_rest. cbn. rewrite drop_drop.
  destruct (decide (i + n <= length l)%nat); [f_equal; lia|rewrite !drop_ge by lia; done].
Qed.
Next Obligation. done. Qed.
Next Obligation. done. Qed.
#[export] Instance ToyFile_cursor : Cursors ToyFile := {| cursor_new l := mkToyFile l 0 true |}.

(** ** Adaptors *)

Record ToyTake (R : Type) := mkToyTake { tt_inner : R; tt_left : nat }.
Arguments mkToyTake {R} _ _.
Arguments tt_inner {R} _.
Arguments tt_left {R} _.
Record ToyChain (R : Type) := mkToyChain { tc_first : bytes; tc_inner : R }.
Arguments mkToyChain {R} _ _.
Arguments tc_first {R} _.
Arguments tc_inner {R} _.

#[export] Instance ToyTake_read {R} `{AsyncRead R} : AsyncRead (ToyTake R) := {|
  poll_read n t :=
    if (tt_left t =? 0)%nat then (Ready (Ok []), t)
    else
      let '(p, r) := poll_read (Nat.min n (tt_left t)) (tt_inner t) in
      (p, mkToyTake r (tt_left t - match p with Ready (Ok l) => length l | _ => 0 end))
|}.
#[export] Instance ToyTake_progress {R} `{Progress R} : Progress (ToyTake R) := {| polls_left t := polls_left (tt_inner t) |}.
#[export] Instance ToyChain_read {R} `{AsyncRead R} : AsyncRead (ToyChain R) := {|
  poll_read n c :=
    match tc_first c with
    | [] => let '(p, r) := poll_read n (tc_inner c) in (p, mkToyChain [] r)
    | l => (Ready (Ok (take n l)), mkToyChain (drop n l) (tc_inner c))
    end
|}.
#[export] Instance ToyChain_progress {R} `{Progress R} : Progress (ToyChain R) :=
  {| polls_left c := (length (tc_first c) + polls_left (tc_inner c))%nat |}.
#[export] Instance toy_adaptors : Adaptors := {|
  Take := ToyTake; take_new R r n := mkToyTake r n; take_inner R t := tt_inner t;
  Chain := ToyChain; chain_new R l r := mkToyChain l r; chain_inner R c := tc_inner c
|}.
#[export] Program Instance ToyTake_laws {R} `{ReaderLaws R} : ReaderLaws (ToyTake R) := {|
  rd_wf t := rd_wf (tt_inner t);
  content t := take (tt_left t) (content (tt_inner t));
  ending t := if (tt_left t <=? length (content (tt_inner t)))%nat then None else ending (tt_inner t)
|}.
Next Obligation.
  intros R HR HP HL n [r k] Hn Hwf. cbn [poll_read ToyTake_read tt_inner tt_left polls_left ToyTake_progress] in *.
  destruct (Nat.eqb_spec k 0) as [->|Hk]; [done|].
  pose proof (poll_read_law (Nat.min n k) r ltac:(lia) Hwf) as Hl.
  destruct (poll_read (Nat.min n k) r) as [[|[[|b l]|e|]] r']; cbn [tt_inner tt_left].
  - destruct Hl as (? & -> & -> & ?). by rewrite Nat.sub_0_r.
  - destruct Hl as (-> & -> & ? & -> & ->). rewrite take_nil, Nat.sub_0_r, take_nil. cbn [length].
    by destruct (k <=? 0)%nat.
  - destruct Hl as (Hlen & ? & -> & -> & ?). split_and!; try done; [lia| |].
    + rewrite take_app_ge by lia. done.
    + rewrite length_app.
      destruct (Nat.leb_spec (k - length (b :: l)) (length (content r'))), (Nat.leb_spec k (length (b :: l) + length (content r'))); try done; lia.
  - destruct Hl as [-> ->]. rewrite take_nil. cbn [length]. destruct (Nat.leb_spec k 0); [lia|done].
  - done.
Qed.
#[export] Program Instance ToyChain_laws {R} `{ReaderLaws R} : ReaderLaws (ToyChain R) := {|
  rd_wf c := rd_wf (tc_inner c);
  content c := tc_first c ++ content (tc_inner c);
  ending c := ending (tc_inner c)
|}.
Next Obligation.
  intros R HR HP HL n [p r] Hn Hwf. cbn [poll_read ToyChain_read tc_first tc_inner polls_left ToyChain_progress] in *.
  destruct p as [|b p].
  - pose proof (poll_read_law n r Hn Hwf) as Hl. by destruct (poll_read n r) as [[|[[|b l]|e|]] r'].
  - destruct n as [|n]; [lia|]. cbn [take drop tc_first tc_inner]. split_and!; try done.
    + cbn [length]. rewrite length_take. lia.
    + cbn [app]. by rewrite app_assoc, take_drop.
    + cbn [length]. rewrite length_drop. lia.
Qed.

Lemma toy_take_polls {R} `{AsyncRead R} (t t' : ToyTake R) l : polls t l t' -> polls (tt_inner t) l (tt_inner t').
Proof.
  induction 1 as [t|n [r k] t1 l t2 Hn Hp _ IH|n [r k] a t1 l t2 Hn Hp _ IH]; [constructor|..].
  all: cbn [poll_read ToyTake_read tt_inner tt_left] in *; destruct (Nat.eqb_spec k 0) as [->|Hk].
  - done.
  - destruct (poll_read (Nat.min n k) r) as [p r1] eqn:Hr. injection Hp as -> <-. eapply polls_pending; [|exact Hr|exact IH]. lia.
  - by injection Hp as <- <-.
  - destruct (poll_read (Nat.min n k) r) as [p r1] eqn:Hr. injection Hp as -> <-. eapply polls_ready; [|exact Hr|exact IH]. lia.
Qed.

Lemma toy_chain_polls {R} `{AsyncRead R} (c c' : ToyChain R) x :
  polls c x c' -> exists y, x ++ tc_first c' = tc_first c ++ y /\ polls (tc_inner c) y (tc_inner c') /\ (y = [] \/ tc_first c' = []).
Proof.
  induction 1 as [[p r]|n [p r] t1 l t2 Hn Hp _ IH|n [p r] a t1 l t2 Hn Hp _ IH].
  - exists []. rewrite app_nil_r. split_and!; [done|constructor|by left].
  - cbn [poll_read ToyChain_read tc_inner tc_first] in *. destruct p as [|b p]; [|done].
    destruct (poll_read n r) as [p r1] eqn:Hr. injection Hp as -> <-. destruct IH as (y & Hy & Hpy & Hor).
    exists y. split_and!; [done|by eapply polls_pending|done].
  - cbn [poll_read ToyChain_read tc_inner tc_first] in *. destruct p as [|b p].
    + destruct (poll_read n r) as [p r1] eqn:Hr. injection Hp as -> <-. destruct IH as (y & Hy & Hpy & Hor). cbn [tc_first tc_inner] in *.
      exists (a ++ y). split_and!; [by rewrite <- app_assoc, Hy|by eapply polls_ready|].
      destruct Hor as [->|]; [|by right]. right. cbn in Hy. by apply app_eq_nil in Hy as [_ ?].
    + injection Hp as <- <-. destruct IH as (y & Hy & Hpy & Hor). cbn [tc_first tc_inner] in *.
      exists y. split_and!; [|done|done]. rewrite <- app_assoc, Hy, app_assoc, take_drop. done.
Qed.

#[export] Program Instance toy_adaptor_laws : AdaptorLaws := {| take_laws R _ _ _ := ToyTake_laws; chain_laws R _ _ _ := ToyChain_laws |}.
Next Obligation. done. Qed.
Next Obligation. intros R HR HP HL t t' l _ Hp. by apply toy_take_polls. Qed.
Next Obligation. done. Qed.
Next Obligation.
  intros R HR HP HL r l l' c' _ Hp. destruct (toy_chain_polls _ _ _ Hp) as (y & Hy & Hpy & Hor).
  cbn [chain_new toy_adaptors tc_first tc_inner chain_inner] in *. rewrite <- app_assoc in Hy. apply app_inv_head in Hy.
  destruct Hor as [->|Hn].
  - apply app_eq_nil in Hy as [-> _]. done.
  - rewrite Hn, app_nil_r in Hy. by subst y.
Qed.

(** Nothing is compressed. *)
Record ToyGunzip (R : Type) := mkToyGunzip { tg_inner : R }.
Arguments mkToyGunzip {R} _.
Arguments tg_inner {R} _.
#[export] Instance ToyGunzip_read {R} `{AsyncRead R} : AsyncRead (ToyGunzip R) :=
  {| poll_read n g := let '(p, r) := poll_read n (tg_inner g) in (p, mkToyGunzip r) |}.
#[export] Instance ToyGunzip_progress {R} `{Progress R} : Progress (ToyGunzip R) := {| polls_left g := polls_left (tg_inner g) |}.
#[export] Instance toy_gunzips : Gunzips :=
  {| Gunzip := ToyGunzip; gunzip_new R r := mkToyGunzip r; gunzip_into_inner R g := tg_inner g |}.
#[export] Program Instance ToyGunzip_laws {R} `{ReaderLaws R} : ReaderLaws (ToyGunzip R) :=
  {| rd_wf g := rd_wf (tg_inner g); content g := content (tg_inner g); ending g := ending (tg_inner g) |}.
Next Obligation.
  intros R HR HP HL n [r] Hn Hwf. cbn [poll_read ToyGunzip_read tg_inner polls_left ToyGunzip_progress] in *.
  pose proof (poll_read_law n r Hn Hwf) as Hl. by destruct (poll_read n r) as [[|[[|b l]|e|]] r'].
Qed.
#[export] Program Instance toy_gunzip_laws : GunzipLaws := {| gunzip z e := (z, e); gunzip_laws R _ _ _ := ToyGunzip_laws |}.
Next Obligation. done. Qed.
Next Obligation.
  intros R HR Q HQ n [r] Hn Hr. specialize (HQ n r Hn Hr). cbn in *. by destruct (poll_read n r) as [p r'].
Qed.

(** ** Reading to the end *)

Fixpoint toy_read_exact {R} `{AsyncRead R} (fuel n : nat) (r : R) : outcome IoError bytes * R :=
  if (n =? 0)%nat then (Ok [], r)
  else
    match poll_read n r with
    | (Pending, r) => match fuel with S fuel => toy_read_exact fuel n r | O => (Panic, r) end
    | (Ready (Ok []), r) => (Err UnexpectedEof, r)
    | (Ready (Ok l), r) =>
        match fuel with
        | S fuel => let '(o, r) := toy_read_exact fuel (n - length l) r in (app l <$> o, r)
        | O => (Panic, r)
        end
    | (Ready (Err e), r) => (Err e, r)
    | (Ready Panic, r) => (Panic, r)
    end.
Fixpoint toy_copy {R} `{AsyncRead R} (fuel : nat) (r : R) : outcome IoError nat * R :=
  match poll_read 8 r with
  | (Pending, r) => match fuel with S fuel => toy_copy fuel r | O => (Panic, r) end
  | (Ready (Ok []), r) => (Ok O, r)
  | (Ready (Ok l), r) =>
      match fuel with
      | S fuel => let '(o, r) := toy_copy fuel r in (Nat.add (length l) <$> o, r)
      | O => (Panic, r)
      end
  | (Ready (Err e), r) => (Err e, r)
  | (Ready Panic, r) => (Panic, r)
  end.
#[export] Instance toy_read_ext : AsyncReadExt := {|
  read_exact R _ _ n r := toy_read_exact (polls_left r) n r;
  copy_to_sink R _ _ r := toy_copy (polls_left r) r
|}.

Lemma toy_read_exact_spec {R} `{ReaderLaws R} fuel n (r : R) :
  rd_wf r -> (polls_left r <= fuel)%nat ->
  match toy_read_exact fuel n r with
  | (Ok l, r') => (n <= length (content r))%nat /\ l = take n (content r) /\ polls r l r'
  | (Err e, _) => (length (content r) < n)%nat /\ e = default UnexpectedEof (ending r)
  | (Panic, _) => False
  end.
Proof.
  revert n r. induction fuel as [|fuel IH]; intros n r Hw Hf; cbn [toy_read_exact];
    (destruct (Nat.eqb_spec n 0) as [->|Hn]; [split_and!; [lia|done|constructor]|]);
    pose proof (poll_read_law n r ltac:(lia) Hw) as Hl; destruct (poll_read n r) as [[|[[|b l]|e|]] r1] eqn:Hp; try done.
  - lia.
  - destruct Hl as (-> & -> & _). cbn. split; [lia|done].
  - lia.
  - destruct Hl as (-> & ->). cbn. split; [lia|done].
  - destruct Hl as (Hw1 & Hc & He & Hlt). specialize (IH n r1 Hw1 ltac:(lia)). rewrite Hc, He in IH.
    destruct (toy_read_exact fuel n r1) as [[l|e|] r2]; [|done|done]. destruct IH as (? & ? & ?). split_and!; [done|done|].
    eapply polls_pending; [|exact Hp|done]; lia.
  - destruct Hl as (-> & -> & _). cbn. split; [lia|done].
  - destruct Hl as (Hlen & Hw1 & Hc & He & Hlt). specialize (IH (n - length (b :: l))%nat r1 Hw1 ltac:(lia)). rewrite Hc, length_app, <- He.
    destruct (toy_read_exact fuel _ r1) as [[l'|e|] r2]; cbn [fmap outcome_fmap]; [| |done].
    + destruct IH as (? & -> & ?). split_and!; [lia|by rewrite take_app_ge by lia|]. eapply polls_ready; [|exact Hp|done]; lia.
    + destruct IH as (? & ->). split; [lia|done].
  - destruct Hl as (-> & ->). cbn. split; [lia|done].
Qed.
Lemma toy_copy_spec {R} `{ReaderLaws R} fuel (r : R) :
  rd_wf r -> (polls_left r <= fuel)%nat ->
  match toy_copy fuel r with
  | (Ok n, r') => ending r = None /\ n = length (content r) /\ polls r (content r) r'
  | (Err e, _) => ending r = Some e
  | (Panic, _) => False
  end.
Proof.
  revert r. induction fuel as [|fuel IH]; intros r Hw Hf; cbn [toy_copy];
    pose proof (poll_read_law 8 r ltac:(lia) Hw) as Hl; destruct (poll_read 8 r) as [[|[[|b l]|e|]] r1] eqn:Hp; try done; try lia.
  - destruct Hl as (-> & -> & _). split_and!; try done. eapply polls_last; [|done]. lia.
  - by destruct Hl.
  - destruct Hl as (Hw1 & Hc & He & Hlt). specialize (IH r1 Hw1 ltac:(lia)). rewrite Hc, He in IH.
    destruct (toy_copy fuel r1) as [[n|e|] r2]; [|done|done]. destruct IH as (? & ? & ?). split_and!; [done|done|].
    eapply polls_pending; [|done|done]. lia.
  - destruct Hl as (-> & -> & _). split_and!; try done. eapply polls_last; [|done]. lia.
  - destruct Hl as (Hlen & Hw1 & Hc & He & Hlt). specialize (IH r1 Hw1 ltac:(lia)). rewrite Hc, length_app, <- He.
    destruct (toy_copy fuel r1) as [[n|e|] r2]; cbn [fmap outcome_fmap]; [|done|done].
    destruct IH as (? & -> & ?). split_and!; [done|done|]. eapply polls_ready; [|done|done]. lia.
  - by destruct Hl.
Qed.
#[export] Instance toy_read_ext_laws : AsyncReadExtLaws.
Proof. constructor; intros; [by apply toy_read_exact_spec|by apply toy_copy_spec]. Qed.

(** ** Encodings *)

(** Four bytes. *)
#[export] Instance toy_varint : Varint32 := {|
  read_raw_varint32 b := if (4 <=? length b)%nat then Ok (from_be_bytes (take 4 b), 4%nat) else Err InvalidData;
  write_raw_varint32 n := be_bytes 4 n
|}.
#[export] Instance toy_varint_laws : Varint32Laws.
Proof.
  constructor.
  - intros n tail Hn. unfold is_u32, u32_max in Hn. cbn [read_raw_varint32 write_raw_varint32 toy_varint].
    rewrite length_app, be_bytes_length. destruct (Nat.leb_spec 4 (4 + length tail)); [|lia].
    rewrite take_app_length' by (by rewrite be_bytes_length). by rewrite from_be_to_be by (cbn; lia).
  - intros n _. cbn [write_raw_varint32 toy_varint]. rewrite be_bytes_length. lia.
  - intros b. cbn [read_raw_varint32 toy_varint]. destruct (Nat.leb_spec 4 (length b)); [|done].
    pose proof (from_be_bytes_range (take 4 b)) as Hr. rewrite length_take, Nat.min_l in Hr by lia.
    split; [unfold is_u32, u32_max; cbn in Hr; lia|lia].
Qed.

#[export] Instance toy_metadata : ProtobufParse MetadataPb := {|
  parse_from_bytes b :=
    if (length b =? 92)%nat
    then Some (mkMetadataPb [mkMetadataPair (take 48 b) (take 32 (drop 48 b))] (drop 80 b)) else None
|}.
#[export] Instance toy_metadata_size : MetadataSize.
Proof.
  constructor. intros b m p. cbn. destruct (Nat.eqb_spec (length b) 92); [|done]. intros [= <-] ->%list_elem_of_singleton.
  cbn. rewrite length_take. lia.
Qed.

(** ** Contents: a backup is the list of its frames, which are not empty *)

#[export] Instance toy_frames : ProtobufParse bytes := {| parse_from_bytes b := Some b |}.
#[export] Instance toy_contents : BackupContents (list bytes) := {|
  BackupInfo := bytes;
  Frame := bytes;
  FrameError := unit;
  CompletionError := unit;
  Completed := list bytes;
  PartialBackup_new info _ := Ok [info];
  add_frame f b := match f with [] => (Err tt, b) | _ => (Ok tt, b ++ [f]) end;
  try_complete b := Ok b
|}.
#[export] Instance toy_slice_choose : SliceChoose :=
  {| slice_choose l rng := (default Byte.x00 (l !! Z.to_nat ((rng : Z) mod Z.of_nat (length l))), (rng : Z) + 1) |}.
#[export] Instance toy_slice_choose_laws : SliceChooseLaws.
Proof.
  constructor. intros l rng Hl. cbn. assert (0 < Z.of_nat (length l)) by (destruct l; [done|cbn; lia]).
  pose proof (Z.mod_pos_bound rng (Z.of_nat (length l)) ltac:(lia)).
  destruct (lookup_lt_is_Some_2 l (Z.to_nat (rng mod Z.of_nat (length l)))) as [b Hb]; [lia|]. rewrite Hb. cbn.
  by eapply list_elem_of_lookup_2.
Qed.

Open Scope string_scope.
Open Scope list_scope.
Open Scope Z_scope.

(** ** Account keys *)

Lemma entropy_pool_texts_witness :
  exists pool, entropy_pool_from_str (byte_str "dtjs858asj6tv0jzsqrsmj0ubp335pisj98e9ssnss8myoc08drhtcktyawvx45l") = Ok pool.
Proof.
  pose proof (entropy_pool_texts (byte_str "dtjs858asj6tv0jzsqrsmj0ubp335pisj98e9ssnss8myoc08drhtcktyawvx45l") (0 : Z) eq_refl) as [_ [H _]].
  apply H; [reflexivity|]. intros b Hb. apply in_alphabet_ALPHABET. revert b Hb. apply Forall_forall.
  apply (bool_decide_eq_true_1 _). vm_compute. reflexivity.
Defined.

(** ** Reading a file *)

Definition key1 : MessageBackupKey := mkMessageBackupKey (zeros 32) (zeros 32).
Definition iv1 : array 16 := zeros 16.
Definition file_of (w : bytes) : ToyFile := mkToyFile w 0 true.
Definition plain1 : bytes := byte_str "a plaintext of more than one block".

Lemma reading_decrypts_witness :
  (drive (replicate 400 5%nat) (Aes256CbcReader_new (zeros 32) iv1 (file_of (pkcs7 plain1)))).1 = (plain1, Some (Ok tt)).
Proof.
  pose proof (reading_decrypts (zeros 32) iv1 (file_of (pkcs7 plain1)) (replicate 400 5%nat)) as H.
  specialize (H ltac:(cbn; lia) eq_refl). specialize (H ltac:(apply Forall_replicate; lia)).
  specialize (H ltac:(apply (bool_decide_eq_true_1 _); vm_compute; reflexivity)).
  destruct (drive _ _).1 as [p r]. change (aes256_cbc_pkcs7_decrypt _ _ _) with (unpkcs7 (pkcs7 plain1)) in H.
  rewrite unpkcs7_pkcs7 in H. by destruct H as [-> ->].
Defined.

(** ** Files *)

Definition metadata1 : bytes := replicate 92 Byte.x01.
Definition frames1 : list bytes := [byte_str "one"; byte_str "two"; byte_str "three"].
Definition z1 : bytes := concat (delimited <$> byte_str "info" :: frames1).
Definition w1 : bytes := backup_file key1 metadata1 iv1 z1.
Definition factory1 : CursorFactory := mkCursorFactory w1.
Lemma reading_w1 : reading (file_of w1) w1 0.
Proof. split_and!; [cbn; lia|done..]. Qed.

Definition opened1 : outcome ValidationError (FramesReader ToyFile) := (FramesReader_new key1 factory1).1.

Lemma backup_opens_exactly_witness : exists fr start, opened1 = Ok fr /\ acceptable key1 w1 w1 start.
Proof.
  pose proof (backup_opens_exactly key1 factory1 factory1 factory1 (file_of w1) (file_of w1) w1 w1
    eq_refl eq_refl reading_w1 reading_w1) as H.
  unfold opened1. destruct (FramesReader_new key1 factory1) as [[fr|e|] f] eqn:Hf; [|exfalso|destruct H].
  - destruct H as (start & Hacc & _). exists fr, start. exact (conj eq_refl Hacc).
  - assert (match opened1 with Ok _ => true | _ => false end = true) as Hok by (vm_compute; reflexivity).
    unfold opened1 in Hok. rewrite Hf in Hok. discriminate Hok.
Defined.

(** The state of a reader of the file after some polls with buffers of 8 bytes. *)
Fixpoint poll_some {R} `{AsyncRead R} (n : nat) (r : R) : bytes * R :=
  match n with
  | O => ([], r)
  | S n => match poll_read 8 r with
           | (Ready (Ok l), r) => let '(l', r) := poll_some n r in (l ++ l', r)
           | (Pending, r) => poll_some n r
           | _ => ([], r)
           end
  end.
Lemma poll_some_polls {R} `{AsyncRead R} n (r : R) : polls r (poll_some n r).1 (poll_some n r).2.
Proof.
  revert r. induction n as [|n IH]; intros r; cbn [poll_some]; [constructor|].
  destruct (poll_read 8 r) as [[|[l|e|]] r1] eqn:Hp; [| |constructor..].
  - eapply polls_pending; [|exact Hp|apply IH]. lia.
  - specialize (IH r1). destruct (poll_some n r1) as [l' r2]. eapply polls_ready; [|exact Hp|exact IH]. lia.
Qed.

Definition dummy : FramesReader ToyFile :=
  mkFramesReader (gunzip_new (Aes256CbcReader_new (zeros 32) iv1 (MacReader_new_sha256 (take_new (file_of []) 0) []))) (zeros 32).
Definition frames_reader1 : FramesReader ToyFile := default dummy (ok opened1).
Lemma frames_reader1_new : FramesReader_new key1 factory1 = (Ok frames_reader1, factory1).
Proof.
  assert (match opened1 with Ok _ => true | _ => false end = true) as Hok by (vm_compute; reflexivity).
  assert (cursor_buffer (FramesReader_new key1 factory1 : outcome _ (FramesReader ToyFile) * _).2 = w1) as Hs by (vm_compute; reflexivity).
  unfold frames_reader1. unfold opened1 in *. destruct (FramesReader_new key1 factory1) as [[fr|e|] [w]]; [|discriminate Hok..].
  cbn in Hs. subst w. reflexivity.
Qed.
Definition read1 := poll_some 40 frames_reader1.

Lemma backup_is_authentic_witness :
  read1.1 <> [] /\ exists body rest, (plaintext_of key1 body).1 = read1.1 ++ rest.
Proof.
  split; [apply (bool_decide_eq_true_1 _); vm_compute; reflexivity|].
  destruct (backup_is_authentic key1 factory1 factory1 factory1 (file_of w1) (file_of w1) w1 w1 frames_reader1 read1.2 factory1 read1.1)
    as (body & rest & H & _); [reflexivity|reflexivity|exact reading_w1|exact reading_w1| | | |exists body, rest; exact H].
  - apply frames_reader1_new.
  - apply poll_some_polls.
  - vm_compute. reflexivity.
Defined.

(** ** Threads *)

Definition fair1 : list (list Thread) := replicate 20 [TReader; TProcessing].
Lemma fair1_fair : Forall fair_round fair1.
Proof. apply Forall_replicate. split; [by left|right; by left]. Qed.

Definition unknown1 (_ : bytes) : list bytes := [].
Definition v1 : VarintDelimitedReader (UnvalidatedHmacReader ToyFile) := VarintDelimitedReader_new (mkUnvalidated (file_of z1)).

Lemma every_schedule_reads_witness :
  exists res, read_all_frames (B := list bytes) (BC := toy_contents) bytes unknown1 unknown1 (concat fair1) RemoteBackup v1 = Some res /\
    result bytes _ res = Ok (byte_str "info" :: frames1).
Proof.
  destruct (every_schedule_reads (B := list bytes) (BC := toy_contents) bytes unknown1 unknown1 RemoteBackup v1 (byte_str "info") (concat (delimited <$> frames1))
    (byte_str "info") [byte_str "info"] frames1 (Ok tt)) as (vend & Hend & Hall & _ & Hfin).
  - split_and!; [cbn; lia|cbn; lia|reflexivity].
  - vm_compute. reflexivity.
  - apply frames_of_concat. repeat constructor; vm_compute; done.
  - reflexivity.
  - reflexivity.
  - destruct (Hfin fair1 fair1_fair) as [res Hres]; [cbn; lia|]. exists res. split; [exact Hres|].
    destruct (Hall _ _ Hres) as (r & Hr & -> & _). unfold allowed in Hr. cbn in Hr.
    unfold after_join, VarintDelimitedReader_into_inner in Hr. destruct (Hend eq_refl) as [Hb _]. rewrite Hb in Hr. cbn in Hr. by rewrite Hr.
Defined.

Lemma encrypted_backup_read_back_witness :
  exists reader, new_encrypted_compressed key1 RemoteBackup factory1 = (Ok reader, factory1) /\
    collect_all (B := list bytes) (BC := toy_contents) bytes unknown1 unknown1 (concat fair1) reader =
      Some (mkReadResult bytes _ (Ok (byte_str "info" :: frames1)) []).
Proof.
  apply (encrypted_backup_read_back (B := list bytes) (BC := toy_contents) bytes unknown1 unknown1 key1 RemoteBackup factory1 factory1 factory1
    (file_of w1) (file_of w1) metadata1 (mkMetadataPb [mkMetadataPair (replicate 48 Byte.x01) (replicate 32 Byte.x01)] (replicate 12 Byte.x01))
    iv1 z1 (byte_str "info") (byte_str "info") [byte_str "info"] frames1 (byte_str "info" :: frames1) [] fair1).
  - vm_compute. done.
  - reflexivity.
  - split_and!; [by left| |reflexivity]. intros p ->%list_elem_of_singleton. by split.
  - repeat constructor; vm_compute; done.
  - reflexivity.
  - reflexivity.
  - reflexivity.
  - reflexivity.
  - reflexivity.
  - reflexivity.
  - apply reading_w1.
  - apply reading_w1.
  - apply fair1_fair.
  - cbn. lia.
Defined.

(** ** The contents of a backup

    An account, its user, a contact, their pinned chat and a message in it, which disappears
    a week after it is read. *)

#[export] Instance toy_graphemes : Graphemes := {| grapheme_count := String.length |}.
#[export] Instance toy_presentations : ReceiptPresentations := {| ReceiptCredentialPresentation := bytes; deserialize_presentation b := Some b |}.
#[export] Instance toy_int_map : IntMapIter.
Proof. exists (fun A m => map_to_list m). done. Defined.

Definition backup_millis : Z := 1700000000000.
Definition info1 : proto.BackupInfo := proto.mkBackupInfo 1 backup_millis (replicate 32 Byte.x01) "7.0" "7.0" [].
Definition settings1 : proto.AccountData_AccountSettings :=
  proto.mkAccountData_AccountSettings true true true true false false 0 [] true false false false false None false false
    (Known proto.AccountData_PhoneNumberSharingMode_NOBODY) None
    [proto.mkChatStyle_CustomChatColor 7 (Some (proto.ChatStyle_CustomChatColor_solid 4278190335))] false None
    (Known proto.AccountData_SentMediaQuality_STANDARD) None (Some 30) None (Known proto.AccountData_AppTheme_SYSTEM)
    (Known proto.AccountData_CallsUseLessDataSetting_NEVER).
Definition account1 : proto.AccountData :=
  proto.mkAccountData (replicate 32 Byte.x02) None None "Alice" "" "" None (Some settings1) None "" None "" "".
Definition contact1 : proto.Contact :=
  proto.mkContact (Some (replicate 16 Byte.x03)) None None (Some 18005550100) false (Known default_value)
    (Some (proto.Contact_registered proto.mkContact_Registered)) None false None None false None (Known default_value) None "" "" "" "" None.
Definition chat1 : proto.Chat := proto.mkChat 5 2 false (Some 1) None None false false None 0.
Definition message1 (body : string) : proto.StandardMessage := proto.mkStandardMessage None (Some (proto.mkText body [])) [] [] None [].
Definition item1 (revisions : list proto.ChatItem) : proto.ChatItem :=
  proto.mkChatItem 5 2 (backup_millis - 5000) (Some (backup_millis - 1000)) (Some 604800000) revisions false
    (Some (proto.ChatItem_incoming (proto.mkChatItem_IncomingMessageDetails (backup_millis - 4000) None true true)))
    (Some (proto.ChatItem_standardMessage (message1 "hello"))).
Definition backup_frames : list proto.Frame :=
  (fun i => proto.mkFrame (Some i)) <$>
  [proto.Frame_account account1;
   proto.Frame_recipient (proto.mkRecipient 1 (Some (proto.Recipient_self (proto.mkSelf_ None))));
   proto.Frame_recipient (proto.mkRecipient 2 (Some (proto.Recipient_contact contact1)));
   proto.Frame_chat chat1; proto.Frame_chatItem (item1 [item1 []]);
   proto.Frame_chatFolder (proto.mkChatFolder "" false true true true (Known proto.ChatFolder_FolderType_ALL) [] [] (replicate 16 Byte.x04))].

Definition run_ok {E A} (r : outcome E A) : bool := match r with Ok _ => true | _ => false end.
Example backup_completes :
  run_ok (b ← map_err (fun _ => tt) (read_frames Store info1 RemoteBackup backup_frames); map_err (fun _ => tt) (CompletedBackup_try_from Store b)) = true.
Proof. vm_compute. reflexivity. Qed.
Example export_refused :
  match read_frames ValidateOnly info1 TakeoutExport backup_frames with
  | Err (ValidationError_ChatError (mkChatFrameError 5 (ChatError_ChatItem _ (ChatItemError_InvalidExpiration (InvalidExpiration_NotAllowedForPurpose TakeoutExport))))) => true
  | _ => false
  end = true.
Proof. vm_compute. reflexivity. Qed.

Lemma backup_frames_in_range : Forall (fun f => frame_in_range f = true) backup_frames.
Proof. repeat constructor. Qed.
Definition completes {M} `{!ReferencedTypes M} (b : PartialBackup M) : Prop := exists c, CompletedBackup_try_from M b = Ok c.

Lemma validation_accepts_what_is_kept_witness :
  agree (fun b b' => completes b <-> completes b') (read_frames Store info1 RemoteBackup backup_frames) (read_frames ValidateOnly info1 RemoteBackup backup_frames).
Proof. exact (validation_accepts_what_is_kept info1 RemoteBackup backup_frames backup_frames_in_range). Defined.

Definition kept1 : PartialBackup Store :=
  match read_frames Store info1 RemoteBackup backup_frames with
  | Ok b => b
  | _ => mkPartialBackup Store (mkBackupMeta 0 (mkTimestamp 0) (mkBackupKey (zeros 32)) "" "" RemoteBackup) None ∅ (mkChatsData Store ∅ [] 0)
           (MList_default Store) ∅ [] [] 0
  end.
Lemma kept1_read : read_frames Store info1 RemoteBackup backup_frames = Ok kept1.
Proof. unfold kept1. destruct (read_frames _ _ _ _) eqn:H; [done|..]; exfalso; pose proof backup_completes as Hc; by rewrite H in Hc. Qed.
Lemma kept_backup_is_consistent_witness : consistent kept1.
Proof. exact (kept_backup_is_consistent info1 RemoteBackup backup_frames kept1 kept1_read). Defined.

(** A message of the contact by itself. *)
Definition lookup1 (id : RecipientId) : option (MinimalRecipientData * RecipientId) :=
  if id =? 2 then Some (Minimal_Contact (Some (mkE164 18005550100)) None None None, 2) else None.
Definition meta1 (p : Purpose) : BackupMeta := mkBackupMeta 1 (mkTimestamp (backup_millis * NANOS_PER_MILLI)) (mkBackupKey (zeros 32)) "" "" p.
Definition accepted1 : outcome ChatItemError (ChatItemData ValidateOnly RecipientId) :=
  ChatItem_try_from ValidateOnly lookup1 (meta1 RemoteBackup) (item1 [item1 []]).
Lemma accepted_chat_item_witness :
  exists i, accepted1 = Ok i /\ sound_item (meta1 RemoteBackup) i /\ ci_author i = 2.
Proof.
  destruct accepted1 as [i| |] eqn:H; [|vm_compute in H; discriminate..]. exists i. split; [exact eq_refl|].
  destruct (accepted_chat_item lookup1 (meta1 RemoteBackup) (item1 [item1 []]) i H) as [Hs Ha]. split; [exact Hs|].
  cbn in Ha. by injection Ha.
Defined.

Lemma plain_body_not_checked_witness :
  StandardMessage_try_from lookup1 (message1 "") = Ok (mkStandardMessage (Some (mkMessageText "" [])) None [] (mkReactionSet []) [] None) /\
  StandardMessage_try_from lookup1 (proto.mkStandardMessage None (Some (proto.mkText "" [proto.mkBodyRange 0 0 None])) [] [] None []) =
    Err (ChatItemError_Text TextError_EmptyBody).
Proof.
  destruct (plain_body_not_checked lookup1 "") as [H1 H2]; [by left|]. split; [exact H1|]. exact (H2 (proto.mkBodyRange 0 0 None) []).
Defined.
